(* ===== verification/_CoqProject ===== *)
-Q . S2P
Prelude.v
JsString.v
JsNumber.v
HttpStatusRules.v
BillingLexer.v
JsJson.v
JsNumberPrint.v
JsJsonPrint.v
BillingParser.v
BillingGrammar.v
BillingTiers.v
BillingEval.v
BillingText.v
VisualTiers.v
VisualRoundtrip.v
BillingRules.v
BillingRuleRoundtrip.v
TierSplit.v
TierForm.v
TierEditor.v
AssistantKeys.v
AuthSession.v
BrowserStorage.v
Sidebar.v
Drawing.v
SmsSelection.v
SmsPurchase.v
RemoteProtocol.v
HttpClient.v
SessionSync.v
JsCollections.v
JsJsonPretty.v
JsObject.v
DrawingStore.v
DrawingBytes.v
DrawingHistory.v
Wallet.v
AssistantStream.v
Access.v
ChannelConfig.v
ChannelRows.v
StatusGroups.v
ExternalUrls.v
AdvancedCustom.v
ChannelForm.v
ChannelSchema.v
OAuthBinding.v
SignIn.v
AssistantActions.v
AssistantActionsSaid.v
AssistantActionsBack.v
JsRegex.v
MessageSafety.v
AssistantChat.v
JsExact.v
JsRound.v
Currency.v
KeyForm.v
Bounties.v
BountyPage.v
TableUrlState.v
JsOrder.v
GroupPricing.v
GroupOverrides.v
SettingsJson.v
GroupVisibility.v
GroupSettings.v
Flow.v
FlowConserved.v
FlowViews.v
FlowSankey.v
RatioSync.v
ModelPricing.v
ParamOverride.v
ParamOverrideRows.v
ParamOverrideText.v
LightPuzzle.v
