(* ===== verification/Prelude.v ===== *)
(** * Verification of the LMM Forge web client (src/apps/web)

    ** The program

    api.lmm.best is a gateway to language models: a Go and a Rust backend
    (src/apps/api-go, src/apps/api-rust) and a TypeScript web client
    (src/apps/web/src).  This development models the client's own logic, the part
    that decides what users pay, how they stay signed in and what is bought in
    their name.  React components draw that logic; of them only handlers and effects that
    decide something are modelled.  The backends appear only as the answers they send: inputs of the models.

    The parts and how they interact:
    - billing expressions (features/pricing/lib/billing-expr.ts): prices are texts
      such as [len < 200000 ? tier("short", p * 3) : tier("long", p * 6)].  The module
      tokenizes, parses and evaluates them, extracts the tiers for display and
      splits off request rules.  The visual editor (features/pricing/lib/tier-expr.ts)
      writes and reads such texts and previews costs with the evaluator.  The tier price
      editor (tiered-pricing-editor.tsx) is the form around it: it splits a stored price into
      an expression and rules, chooses visual or text mode, and writes the price back;
    - the session (stores/auth-store.ts, lib/auth-session.ts, with lib/http-client.ts and
      lib/auth-session-sync.ts around it): tokens are refreshed while requests,
      sign-in, rotation and sign-out happen; each change raises an epoch.  The HTTP
      client shares GETs in flight, waits for a refresh and repeats a request once.  Tabs tell
      each other of changes over a channel and, should it fail, through storage;
    - signing in (features/auth, routes/oauth/$provider.tsx): where a sign-in may lead, the
      routes of the former client, registration, and accounts bound through a popup window;
    - the assistant (features/assistant): creation of API keys, a reducer and a hook
      with asynchronous operations and guards on the answers; the parsers of the actions a
      reply may offer, the requests with their retries, the redaction of messages; and the
      adapter that turns the server's event stream into chunks of the chat library;
    - SMS activations (features/email-activations): favourites in browser storage,
      quantities, and the batch purchase with its retry;
    - drawing (features/drawing): drafts in browser storage, the registry of running
      generations, and the history of images with its database, its downloads and the
      object URLs it holds;
    - the wallet (features/wallet/lib): payment methods, settlement rates and quotes;
    - channels (features/channels/lib and its drawer): model and status code mappings
      checked before a channel is submitted, the texts and payloads of its form, advanced
      routes, tag rows of the table, keys, and the editor of rules that rewrite requests;
    - model prices (features/system-settings/models): the synchronisation with upstreams and
      the editor of prices, which write the same ten options, and the locks on them;
    - group settings (the same directory): one form for nine options, seven of them JSON
      texts, edited as they are or by a table of groups, an editor of special multipliers, an
      order of groups and an editor of rules of visibility; each reads and writes the texts;
    - the dashboard flow (features/dashboard/lib/flow.ts): a graph of consumption;
    - status (features/status-detection/lib/aggregate.ts): averages of the groups;
    - URLs (lib/validated-external-url.ts, lib/external-navigation.ts): what may be opened;
    - access (lib/nav-modules.ts, lib/admin-permissions.ts): modules and permissions;
    - sidebar and activation (lib/sidebar-preferences.ts, lib/console-activation.ts): stored
      settings and the route a user lands on;
    - API keys (features/keys): the drawer that creates and edits keys, with its warning on
      groups, and the amounts it shows in the currency of lib/currency.ts;
    - bounties (features/open-source-bounties): validation, charges, the summary of a
      project's life, and the actions of owners, workers and reviewers on the page;
    - tables (hooks/use-table-url-state.ts): pages and filters kept in the address;
    - remote control (features/remote-control/protocol.ts): what is accepted from a peer;
    - status code rules (lib/http-status-code-rules.ts): a small range language;
    - the light puzzle (lib/light-puzzle.ts): a game with a solver.

    ** Files

    Foundations.  [Prelude]: strings as lists of UTF-16 code units, results with
    exceptions ([res], with [let*]), tactics.  [JsString]: the string methods used.
    [JsNumber]: IEEE-754 doubles on [spec_float], [Math] functions, printing, the order.
    [JsJson], [JsNumberPrint], [JsJsonPrint]: [JSON.parse], [JSON.stringify] and the
    proof that what is printed is read back, [JsJsonPretty] with an indentation.
    [BrowserStorage]: the [Storage] class with its laws, a map and a storage with a quota as
    instances.  [JsCollections]: sorting, [Map] and [Set] with insertion order, the loop that
    groups by a key, the order of properties.  [JsObject]: objects used as maps, and what is
    left of that order when they are written and read.  [JsOrder]: comparators that subtract
    doubles, and the order of strings.  [JsRegex]: regular expressions with their replacement.  [JsExact]: sums of
    doubles that are exact, [toFixed] and [Math.round].  [JsRound]: the error of rounding.

    Components.
    - [HttpStatusRules]: http-status-code-rules.ts.  [LightPuzzle]: light-puzzle.ts.
    - [BillingLexer], [BillingParser], [BillingTiers], [BillingEval], [BillingRules]:
      billing-expr.ts in the order of the source.  [BillingGrammar] is its grammar,
      [BillingText] relates written texts to tokens, [BillingRuleRoundtrip] is the proof
      that rules are read back.
    - [VisualTiers]: tier-expr.ts; [VisualRoundtrip]: its roundtrip.  [TierSplit], [TierForm],
      [TierEditor]: tiered-pricing-editor.tsx, how it splits a price, its visual form, and
      its state, effects and handlers.
    - [AssistantKeys]: assistant-key-contract.ts, assistant-key-creation-machine.ts,
      use-assistant-key-creation.ts.
    - [AuthSession]: auth-store.ts, auth-session.ts and the rotation of http-client.ts.
      [HttpClient]: the rest of http-client.ts and server-error-message.ts on top of it.
      [SessionSync]: auth-session-sync.ts and its listeners in any number of tabs.
    - [Sidebar]: sidebar-preferences.ts, console-activation.ts, the roles of roles.ts.
    - [Drawing]: drawing-task-state.ts.  [DrawingStore]: history-storage.ts with a class for
      the database.  [DrawingBytes]: image-bytes.ts.  [DrawingHistory]: drawing-history.ts
      on top of both.
    - [SmsSelection], [SmsPurchase]: sms-selection.ts, sms-purchase.ts.
      [RemoteProtocol]: protocol.ts.
    - [Wallet]: payment.ts, payment-unit.ts, settlement-quote.ts, discount-state.ts,
      payment-pricing.ts.
    - [AssistantStream]: assistant-ai-stream.ts.  [Access]: nav-modules.ts and
      admin-permissions.ts.
    - [ChannelConfig]: model-mapping-validation.ts, status-code-risk-guard.ts and [onSubmit] of
      channel-mutate-drawer.tsx.  [ChannelRows]: channel-utils.ts and channel-field-update.ts.
      [AdvancedCustom]: advanced-custom.ts.  [ChannelForm], [ChannelSchema]: the texts and
      payloads of channel-form.ts, and the refinements of its schema.
      [ParamOverride], [ParamOverrideRows], [ParamOverrideText]: param-override-editor-dialog.tsx.
    - [StatusGroups]: aggregate.ts.  [ExternalUrls]: validated-external-url.ts and
      external-navigation.ts.
    - [OAuthBinding]: oauth-callback-mode.ts, oauth-bind-window.ts, account-bindings-tab.tsx
      and the callback route.  [SignIn]: auth-redirect.ts, legacy-route.ts, registration.ts,
      route-access.ts.
    - [AssistantActions], [AssistantChat]: features/assistant/api.ts; [AssistantActionsSaid],
      [AssistantActionsBack]: what the JSON of an action says, and the proof of its reader.
      [MessageSafety]: assistant-message-safety.ts.
    - [Flow], [FlowConserved], [FlowViews], [FlowSankey]: flow.ts.
    - [RatioSync]: upstream-ratio-sync-helpers.ts and the handlers of its page and table.
      [ModelPricing]: pricing-format.ts, model-pricing-core.ts, model-pricing-snapshots.ts,
      use-model-price-locks.ts and the handlers of model-pricing-sheet.tsx and model-ratio-visual-editor.tsx.
    - [Currency]: currency.ts.  [KeyForm]: api-key-form.ts, auto-group-order-editor.tsx and
      api-keys-mutate-drawer.tsx.
    - [Bounties]: acceptance.ts, lifecycle.ts, notification-target.ts, validation.ts and the
      pure helpers of types.ts, api.ts and index.tsx; [BountyPage]: the handlers of index.tsx.
    - [TableUrlState]: use-table-url-state.ts and the search field of toolbar.tsx.
    - [SettingsJson]: how the settings read, check, normalize and compare JSON options
      (utils.ts, json-parser.ts, group-ratio-option-values.ts, group-warning-validation.ts).
      [GroupPricing]: the parsers, the table and the order of groups of
      group-ratio-visual-editor.tsx; [GroupOverrides]: its special multipliers;
      [GroupVisibility]: group-special-usable-editor.tsx and the details of a group.
      [GroupSettings]: group-ratio-form.tsx and the groups of ratio-settings-card.tsx, the page
      that composes them.

    A function of the source keeps its name.  Loop bodies and callbacks that the
    source writes inline are definitions of their own.  An [undefined] or missing
    property is [None]; an object used as a map is a [gmap] or, where order shows, an
    association list; code that throws returns [res].

    ** What the theorems show

    - Billing: the parser decides the grammar; evaluation always ends, with a
      finite price or an error of the module; on a chain of tiers it charges exactly what
      the first tier that applies displays; the step limit cannot be reached; rules in normal
      shape and visual tiers that are written are read back, with the exact condition under
      which they are not; the preview never throws.  A price saved by the tier editor with
      tiers and rules it reads opens again as the same form, and changing the mode keeps it;
      the editor comes to rest after every event; opening a price it cannot read overwrites
      it, and rules it cannot read are applied twice after a change of the mode (findings).
    - Session: a refresh overtaken by another change leaves no trace; a refresh ends
      after at most eight requests; the cache belongs to the session, except after
      a session mismatch.  The HTTP client refines it: token, expiry and session exist
      together under any traffic; a GET is shared only within a session; every request
      settles after being sent at most twice.  A sign-out reaches every tab that listens.
    - Assistant keys: the form invariant; requests only for acknowledged warnings and
      for groups of the live catalogue; every operation ends.
    - Purchases: whatever the backend answers, every request is accounted for in the
      result and keeps the agreed quote; counts and bounds of quantities.
    - Drawing history: work overtaken by a later operation changes nothing; the object URLs
      held are those of the images shown; the database keeps its limits and no save
      survives a clear; the size limits, exact to the byte.
    - Wallet: a payment reaches only its own enabled gateway with the chosen amount;
      settlement amounts are numbers that are not negative.
    - Assistant stream: the cuts of the network do not matter, and the stream always
      settles with chunks in the order the chat library asks for.
    - Channels: what is submitted has been checked or agreed to; the settings a form
      writes are read back; a form that passes the schema gives its payloads without an
      exception; the validator of advanced routes accepts exactly the configurations in
      order; tag rows and the delayed cell update refine their specifications; lists of
      keys and models are normalized; an override that is saved is shown again and saved as
      the same text, its rules are complete, its rows have identifiers of their own, and its
      prune rules cannot be edited.
    - Signing in: a redirect stays on the origin; a former route leads to a route that is
      not replaced again; under any traffic of windows and messages a binding is completed
      at most once, by the popup it was started for.
    - Assistant messages: an action is read exactly when the JSON says it, member by member,
      and it is in order; the
      conversation sent is within its limits; a message settles after at most five attempts;
      no secret the patterns know is left in a redacted text.
    - Flow: what enters a node leaves it; masking hides every name; a click highlights the
      paths through what was clicked.
    - Model prices: a write of the synchronisation changes what was selected and asks exactly
      when a model would lose its price or get one for its ratios; once locked in the editor,
      the drafts of a model are its saved prices as long as the options keep its lock and
      prices; what the editor saves the table reads, for texts that are numbers; the ratios of a draft follow the prices
      shown.
    - Group settings: the texts the table writes are opened as the same rows, and the rules of
      visibility that do not compete are read back; the editor of special multipliers refines a map
      of maps; the optimised order is strictly by the price that is paid; whatever is edited,
      reloaded and saved, the table is in step with the form; a save sends exactly
      the options that differ, and an accepted one is not repeated.  Options loaded again do not reach the
      rules that are shown, [null] as an option stops the page, and entries that cannot be read
      are lost by an edit (findings).
    - API keys: an amount written into the form is read back as the same quota; an unchanged
      key the form could have saved is sent back as it was; a key of a warned group is saved
      only after as many confirmations, given since the group was chosen, as the warning asks
      for, and the confirmation passes over the schema (a finding).
    - Bounties: the charge is the stake plus the fee rounded up; every request of the page was
      validated; a tip whose answer is lost half-way can be paid twice (a finding).
    - Tables: filters written into the address are read back.
    - Light puzzle: the solver finds a shortest solution of every board.
    - Status, URLs, access: rows are those of the entries grouped by name; a URL that is
      opened passed its policy; cached access is that of the last status.
    - Status code rules: the parser accepts exactly the texts whose segments name codes or
      ranges, and covers exactly the codes named.
    - Settings, favourites, drafts, messages: normal forms, roundtrips through
      storage, and that unknown input never escapes its guards.

    ** Fuel and bounds

    Loops over a text run with fuel equal to its length (plus one), and lemmas show
    they stop earlier ([tokenize_loop_spec], [tokenize_loop_fuels]); the recursive descent has
    fuel 66, two more than [MAX_EXPR_DEPTH] = 64, past which the code throws; the refresh
    and the purchase have as many turns as their constants allow ([refresh_bounded],
    [PURCHASE_FUEL] = 11 for at most ten items).  [Fuel] is an exception of the model, proved
    unreachable where a result is claimed.  The shortest decimal of a number is searched up
    to seventeen digits; theorems on printed numbers ask that the search succeeds
    ([printable], an executable test).  A request of the HTTP client settles within 98
    turns of its environment, from the bounds on refreshes and retries
    ([request_settles]); the stream and the loops over lists are structural.  The search of
    a regular expression has the length of the text as fuel; an assistant message has five
    attempts; the search of a decimal without drift has nine turns, as in the source.  The
    effects of the tier editor run for five renders and those of the key drawer for three, and
    theorems show that both are at rest by then ([editor_settles], [settle_quiet]).  The search
    of a free group name has one turn more than there are names.

    ** Parameters and what is left out

    Browser storage and the drawing database are classes with laws; the backend of a
    purchase, the schemas, the collation of [localeCompare] and the URL parser are
    parameters, and so are [toLowerCase], the code points that carry meaning, the search
    parameters of a URL, the colours of the theme, [Intl.NumberFormat], the powers of ten it
    uses, translation, random identifiers and the text of what an object literal inherits
    ([inherited_text]); time, the network, timers, dialogs, windows and
    locks are events or arguments.

    Not modelled, and why:
    - React components but for handlers and effects: what they compute is markup.  Handlers
      are modelled for the channel drawer, the override editor, the account bindings, the
      prices and their synchronisation, the tier editor, the group settings, the key drawer and
      the bounties (there without the panel of agent tokens, which only calls its service).  Of
      drawing, the assistant, the wallet and the activations the modules below the pages are
      modelled, not the handlers of the pages; the pages of subscriptions, usage logs, users,
      the model catalogue and the other system settings are not modelled;
    - country names and [normalizeTierLabel]: they rest on Unicode normalization and on
      [Intl]; the display of phone numbers: a table of dialing prefixes;
    - the cryptography of remote control: WebCrypto does all of it;
    - the charts of the dashboard: options for a chart library;
    - dates and times: they rest on [Intl] and a library of calendars;
    - routing, translations and themes: tables and generated code;
    - the backends: they are written in other languages. *)
From stdpp Require Export base tactics option list numbers gmap strings.
From Stdlib Require Export Ascii.
From Stdlib Require Import Lia.

(** ** JavaScript strings

    A JavaScript string is a finite sequence of UTF-16 code units.  It is
    modelled as a list of [N]; the code units are below [65536]. *)

Notation jchar := N (only parsing).
Notation jstr := (list N) (only parsing).

(** The code unit of an ASCII character, and a string literal of the source. *)
Definition ch (a : ascii) : N := N_of_ascii a.
Arguments ch _%_char.

Definition js (s : string) : list N := ch <$> String.list_ascii_of_string s.
Arguments js _%_string.

(** ** Exceptions

    [Error] is an error the code throws itself, [TypeError] is the engine's own
    (reading a property of [undefined]), [Fuel] marks a loop of the model that
    ran out of fuel; the last two are proved unreachable. *)

Inductive exn := Error (msg : list N) | TypeError | Fuel.

Inductive res (A : Type) := Ok (a : A) | Throw (e : exn).
Arguments Ok {_} _.
Arguments Throw {_} _.

Definition res_bind {A B} (m : res A) (k : A -> res B) : res B :=
  match m with Ok a => k a | Throw e => Throw e end.

Definition throw {A} (msg : string) : res A := Throw (Error (js msg)).

Declare Scope js_scope.
Delimit Scope js_scope with js.

Notation "'let*' p ':=' m 'in' k" := (res_bind m (fun p => k))
  (at level 200, p pattern, m at level 100, k at level 200,
   right associativity) : js_scope.
Open Scope js_scope.

(** A result the source can really produce: a value or one of its own errors. *)
Definition js_result {A} (r : res A) : Prop :=
  match r with Throw TypeError | Throw Fuel => False | _ => True end.

(** ** Tactics *)

Create HintDb jsdb.

(** Inversion of a successful bind in a hypothesis. *)
Lemma res_bind_Ok {A B} (m : res A) (k : A -> res B) b :
  res_bind m k = Ok b -> exists a, m = Ok a /\ k a = Ok b.
Proof. destruct m; simpl; [eauto | discriminate]. Qed.

Lemma res_bind_js {A B} (m : res A) (k : A -> res B) :
  js_result m -> (forall a, m = Ok a -> js_result (k a)) ->
  js_result (res_bind m k).
Proof. destruct m as [a|e]; simpl; auto. Qed.

Ltac inv H := inversion H; subst; clear H.

Ltac res_inv :=
  repeat match goal with
  | H : Ok _ = Ok _ |- _ => injection H; clear H; intros; subst
  | H : Throw _ = Ok _ |- _ => discriminate H
  | H : throw _ = Ok _ |- _ => discriminate H
  | H : res_bind _ _ = Ok _ |- _ =>
      apply res_bind_Ok in H; destruct H as (?&?&H)
  | p : (_ * _)%type |- _ => destruct p
  | H : (_, _) = (_, _) |- _ => injection H; clear H; intros; subst
  end.

(** Reflection of the boolean tests of the source. *)
Ltac breflect :=
  repeat match goal with
  | H : _ && _ = true |- _ => apply andb_true_iff in H; destruct H
  | H : _ || _ = false |- _ => apply orb_false_iff in H; destruct H
  | H : negb _ = true |- _ => apply negb_true_iff in H
  | H : negb _ = false |- _ => apply negb_false_iff in H
  | H : (_ <=? _)%Z = true |- _ => apply Z.leb_le in H
  | H : (_ <=? _)%Z = false |- _ => apply Z.leb_gt in H
  | H : (_ <? _)%Z = true |- _ => apply Z.ltb_lt in H
  | H : (_ <? _)%Z = false |- _ => apply Z.ltb_ge in H
  | H : (_ =? _)%Z = true |- _ => apply Z.eqb_eq in H
  | H : (_ =? _)%Z = false |- _ => apply Z.eqb_neq in H
  | H : (_ <=? _)%N = true |- _ => apply N.leb_le in H
  | H : (_ <=? _)%N = false |- _ => apply N.leb_gt in H
  | H : (_ <? _)%N = true |- _ => apply N.ltb_lt in H
  | H : (_ <? _)%N = false |- _ => apply N.ltb_ge in H
  | H : (_ =? _)%N = true |- _ => apply N.eqb_eq in H
  | H : (_ =? _)%N = false |- _ => apply N.eqb_neq in H
  | H : (_ <=? _)%nat = true |- _ => apply Nat.leb_le in H
  | H : (_ <=? _)%nat = false |- _ => apply Nat.leb_gt in H
  | H : (_ <? _)%nat = true |- _ => apply Nat.ltb_lt in H
  | H : (_ <? _)%nat = false |- _ => apply Nat.ltb_ge in H
  | H : (_ =? _)%nat = true |- _ => apply Nat.eqb_eq in H
  | H : (_ =? _)%nat = false |- _ => apply Nat.eqb_neq in H
  | H : bool_decide _ = true |- _ => apply bool_decide_eq_true in H
  | H : bool_decide _ = false |- _ => apply bool_decide_eq_false in H
  end.

(** ** String literals *)

Lemma js_inj a b : js a = js b -> a = b.
Proof.
  unfold js. intros H.
  assert (forall l l' : list ascii, ch <$> l = ch <$> l' -> l = l') as Hl.
  { induction l as [|x l IH]; intros [|y l'] E; try done. rewrite !fmap_cons in E. injection E as E1 E2.
    rewrite (IH _ E2). f_equal. apply (f_equal ascii_of_N) in E1. unfold ch in E1. by rewrite !ascii_N_embedding in E1. }
  apply Hl in H. by rewrite <- (String.string_of_list_ascii_of_string a), H, String.string_of_list_ascii_of_string.
Qed.

(** ** Lists *)

Lemma filter_all {A} (P : A -> Prop) `{!forall x, Decision (P x)} l : Forall P l -> filter P l = l.
Proof. induction 1 as [|x l Hx _ IH]; [done|]. by rewrite filter_cons_True, IH. Qed.

Lemma filter_none {A} (P : A -> Prop) `{!forall x, Decision (P x)} l :
  Forall (fun x => ~ P x) l -> filter P l = [].
Proof. induction 1 as [|x l Hx _ IH]; [done|]. by rewrite filter_cons_False, IH. Qed.

Lemma mapM_app_option {A B} (f : A -> option B) l k :
  mapM f (l ++ k) = match mapM f l, mapM f k with Some x, Some y => Some (x ++ y) | _, _ => None end.
Proof.
  induction l as [|a l IH]; simpl; [by destruct (mapM f k)|].
  destruct (f a) as [b|]; simpl; [|done]. rewrite IH.
  destruct (mapM f l); simpl; [|done]. by destruct (mapM f k).
Qed.


Lemma fold_left_ext {A B} (f g : A -> B -> A) l a :
  (forall a x, f a x = g a x) -> fold_left f l a = fold_left g l a.
Proof. intros H. revert a. induction l as [|x l IH]; intros a; simpl; [done|]. by rewrite H, IH. Qed.
