(* ===== verification/JsString.v ===== *)
(** * JavaScript strings: the operations of the standard library the client uses

    [trim], [split], [join], [includes], [startsWith], [slice], character
    classes, decimal printing and [JSON.stringify] of a string, on lists of
    UTF-16 code units, with the lemmas the components share. *)
From S2P Require Import Prelude.
From Stdlib Require Import Lia.

(** ** Character classes *)

(** White space of [String.prototype.trim] and of [\s]. *)
Definition is_space (c : N) : bool :=
  bool_decide (c ∈ [9; 10; 11; 12; 13; 32; 160; 5760; 8232; 8233; 8239; 8287; 12288; 65279]%N)
  || ((8192 <=? c) && (c <=? 8202))%N.

(** [/\d/], and [char >= '0' && char <= '9'] on a one-unit string. *)
Definition is_digit (c : N) : bool := ((48 <=? c) && (c <=? 57))%N.

(** ** Scanning *)

Fixpoint drop_while (p : N -> bool) (s : list N) : list N :=
  match s with
  | c :: s' => if p c then drop_while p s' else s
  | [] => []
  end.

(** The longest prefix in a class and what follows it. *)
Fixpoint span (p : N -> bool) (s : list N) : list N * list N :=
  match s with
  | c :: s' => if p c then let '(a, b) := span p s' in (c :: a, b) else ([], s)
  | [] => ([], [])
  end.

Definition trim_start (s : list N) : list N := drop_while is_space s.
Definition trim_end (s : list N) : list N := reverse (drop_while is_space (reverse s)).
Definition trim (s : list N) : list N := trim_end (trim_start s).

(** [s.startsWith(p)] and the rest of [s] after it. *)
Fixpoint strip_prefix (p s : list N) : option (list N) :=
  match p, s with
  | [], _ => Some s
  | c :: p', d :: s' => if (c =? d)%N then strip_prefix p' s' else None
  | _ :: _, [] => None
  end.

Definition starts_with (p s : list N) : bool :=
  match strip_prefix p s with Some _ => true | None => false end.

Definition ends_with (p s : list N) : bool := starts_with (reverse p) (reverse s).

(** [s.includes(p)]. *)
Fixpoint includes (p s : list N) : bool :=
  starts_with p s || match s with _ :: s' => includes p s' | [] => false end.

(** [s.split(c)] for a one-unit separator. *)
Fixpoint split_on (sep : N) (s : list N) : list (list N) :=
  match s with
  | [] => [[]]
  | c :: s' =>
      if (c =? sep)%N then [] :: split_on sep s'
      else match split_on sep s' with
           | w :: ws => (c :: w) :: ws
           | [] => [[c]]
           end
  end.

(** [parts.join(sep)]. *)
Fixpoint join (sep : list N) (parts : list (list N)) : list N :=
  match parts with
  | [] => []
  | [w] => w
  | w :: ws => w ++ sep ++ join sep ws
  end.

(** [toLowerCase] of an ASCII unit. *)
Definition lower_ascii (c : N) : N := if ((65 <=? c) && (c <=? 90))%N then (c + 32)%N else c.

(** [Boolean(s)] for a string: the callback of [filter(Boolean)]. *)
Definition nonempty (s : list N) : bool := match s with [] => false | _ => true end.

(** ** Decimal numerals *)

Definition digit_char (d : N) : N := (48 + d)%N.

(** The decimal digits of [n], most significant first; [fuel] bounds the number
    of digits. *)
Fixpoint dec_digits (fuel : nat) (n : N) (acc : list N) : list N :=
  match fuel with
  | O => acc
  | S f =>
      let acc' := digit_char (n mod 10)%N :: acc in
      if (n <? 10)%N then acc' else dec_digits f (n / 10)%N acc'
  end.

(** [`${n}`] for a non-negative integer. *)
Definition dec_string (n : N) : list N := dec_digits (S (N.size_nat n)) n [].

(** The value of a string of digits, as [Number.parseInt(s, 10)] reads it. *)
Definition dec_value (s : list N) : N :=
  fold_left (fun acc c => 10 * acc + (c - 48))%N s 0%N.

(** ** [JSON.stringify] of a string (well-formed JSON.stringify) *)

Definition hex_char (d : N) : N := if (d <? 10)%N then (48 + d)%N else (87 + d)%N.

Definition hex4 (c : N) : list N :=
  [hex_char (c / 4096 mod 16); hex_char (c / 256 mod 16);
   hex_char (c / 16 mod 16); hex_char (c mod 16)]%N.

Definition is_high_surrogate (c : N) : bool := ((55296 <=? c) && (c <=? 56319))%N.
Definition is_low_surrogate (c : N) : bool := ((56320 <=? c) && (c <=? 57343))%N.

(** One code unit that is not part of a surrogate pair. *)
Definition json_quote_unit (c : N) : list N :=
  if (c =? 34)%N then [92; 34]%N
  else if (c =? 92)%N then [92; 92]%N
  else if (c =? 8)%N then [92; 98]%N
  else if (c =? 12)%N then [92; 102]%N
  else if (c =? 10)%N then [92; 110]%N
  else if (c =? 13)%N then [92; 114]%N
  else if (c =? 9)%N then [92; 116]%N
  else if (c <? 32)%N || is_high_surrogate c || is_low_surrogate c
  then [92; 117]%N ++ hex4 c
  else [c].

Fixpoint json_quote_units (s : list N) : list N :=
  match s with
  | [] => []
  | c :: s' =>
      match s' with
      | d :: s'' =>
          if is_high_surrogate c && is_low_surrogate d
          then c :: d :: json_quote_units s''
          else json_quote_unit c ++ json_quote_units s'
      | [] => json_quote_unit c ++ json_quote_units s'
      end
  end.

Definition json_string (s : list N) : list N := [34]%N ++ json_quote_units s ++ [34]%N.

(** A string of code units. *)
Definition units (s : list N) : Prop := Forall (fun c => (c < 65536)%N) s.

(** ** Lemmas *)

Lemma span_eq p s : s = (span p s).1 ++ (span p s).2.
Proof.
  induction s as [|c s IH]; [done|]. simpl.
  destruct (p c); [|done]. destruct (span p s) as [a b]. simpl in *. by f_equal.
Qed.

Lemma span_forall p s : Forall (fun c => p c = true) (span p s).1.
Proof.
  induction s as [|c s IH]; simpl; [constructor|].
  destruct (p c) eqn:E; [|constructor]. destruct (span p s). simpl in *. by constructor.
Qed.

Lemma span_rest p s c r : (span p s).2 = c :: r -> p c = false.
Proof.
  induction s as [|d s IH]; simpl; [done|].
  destruct (p d) eqn:E; simpl.
  - destruct (span p s) as [a b]. simpl in *. auto.
  - by intros [= -> ->].
Qed.

(** The scan stops exactly where the class does. *)
Lemma span_app p a b :
  Forall (fun c => p c = true) a ->
  (match b with c :: _ => p c = false | [] => True end) ->
  span p (a ++ b) = (a, b).
Proof.
  induction 1 as [|c a Hc Ha IH]; intros Hb; simpl.
  - destruct b as [|c b]; simpl; [done|]. by rewrite Hb.
  - rewrite Hc. by rewrite IH.
Qed.

Lemma span_length p s : length (span p s).2 <= length s.
Proof.
  rewrite (span_eq p s) at 2. rewrite length_app. lia.
Qed.

Lemma strip_prefix_eq p s r : strip_prefix p s = Some r <-> s = p ++ r.
Proof.
  revert s. induction p as [|c p IH]; intros [|d s]; simpl; split; try naive_solver.
  - destruct (N.eqb_spec c d) as [->|]; [|done]. intros ->%IH. done.
  - intros [= -> ->]. rewrite N.eqb_refl. by apply IH.
Qed.

Lemma strip_prefix_app p r : strip_prefix p (p ++ r) = Some r.
Proof. by apply strip_prefix_eq. Qed.

Lemma starts_with_eq p s : starts_with p s = true <-> exists r, s = p ++ r.
Proof.
  unfold starts_with. destruct (strip_prefix p s) as [r|] eqn:E.
  - apply strip_prefix_eq in E. naive_solver.
  - split; [done|]. intros [r ->]. by rewrite strip_prefix_app in E.
Qed.

Lemma includes_eq p s : includes p s = true <-> exists a b, s = a ++ p ++ b.
Proof.
  induction s as [|c s IH]; simpl.
  - rewrite orb_false_r, starts_with_eq. split.
    + intros [r Hr]. exists [], r. done.
    + intros (a & b & H). destruct a; [|done]. eauto.
  - rewrite orb_true_iff, starts_with_eq, IH. split.
    + intros [[r Hr]|(a & b & ->)]; [by exists [], r|]. by exists (c :: a), b.
    + intros ([|x a] & b & H); [left; eauto|]. right. injection H as -> ->. eauto.
Qed.

Lemma includes_nil_r p s : p <> [] -> Forall (fun c => c ∉ p) s -> includes p s = false.
Proof.
  intros Hp Hs. apply not_true_iff_false. rewrite includes_eq. intros (a & b & ->).
  apply Forall_app in Hs as [_ Hs]. apply Forall_app in Hs as [Hs _].
  destruct p as [|c p]; [done|]. inv Hs. set_solver.
Qed.

(** *** Splitting and joining *)

Lemma split_on_nonempty sep s : split_on sep s <> [].
Proof. destruct s as [|c s]; simpl; [done|]. destruct (c =? sep)%N; [done|].
  by destruct (split_on sep s). Qed.

Lemma join_cons sep w ws : ws <> [] -> join sep (w :: ws) = w ++ sep ++ join sep ws.
Proof. by destruct ws. Qed.

Lemma join_split_on sep s : join [sep] (split_on sep s) = s.
Proof.
  induction s as [|c s IH]; [done|]. simpl.
  pose proof (split_on_nonempty sep s) as Hne.
  destruct (N.eqb_spec c sep) as [->|].
  - rewrite join_cons by done. by rewrite IH.
  - destruct (split_on sep s) as [|w ws]; [done|].
    destruct ws; simpl in *; [by rewrite IH|]. by rewrite <- IH.
Qed.

Lemma split_on_notin sep w : sep ∉ w -> split_on sep w = [w].
Proof.
  induction w as [|c w IH]; [done|]. intros Hn. simpl.
  destruct (N.eqb_spec c sep) as [->|]; [set_solver|]. rewrite IH; [done|set_solver].
Qed.

Lemma split_on_app sep w s : sep ∉ w -> split_on sep (w ++ sep :: s) = w :: split_on sep s.
Proof.
  induction w as [|c w IH]; intros Hn; simpl.
  - by rewrite N.eqb_refl.
  - destruct (N.eqb_spec c sep) as [->|]; [set_solver|]. rewrite IH; [done|set_solver].
Qed.

Lemma split_on_join sep ws :
  ws <> [] -> Forall (fun w => sep ∉ w) ws -> split_on sep (join [sep] ws) = ws.
Proof.
  induction ws as [|w ws IH]; [done|]. intros _ Hall. inv Hall.
  destruct (decide (ws = [])) as [->|Hne].
  - simpl. by apply split_on_notin.
  - rewrite join_cons by done. simpl. rewrite split_on_app by done. by rewrite IH.
Qed.

(** *** Trimming *)

Lemma drop_while_head p s c r : drop_while p s = c :: r -> p c = false.
Proof.
  induction s as [|d s IH]; simpl; [done|]. destruct (p d) eqn:E; [auto|].
  by intros [= -> ->].
Qed.

Lemma drop_while_id p c s : p c = false -> drop_while p (c :: s) = c :: s.
Proof. simpl. by intros ->. Qed.

Lemma drop_while_suffix p s : exists a, s = a ++ drop_while p s.
Proof.
  induction s as [|c s [a IH]]; simpl; [by exists []|].
  destruct (p c); [|by exists []]. exists (c :: a). simpl. by f_equal.
Qed.

Lemma drop_while_nil p s : drop_while p s = [] <-> Forall (fun c => p c = true) s.
Proof.
  induction s as [|c s IH]; simpl; [done|]. rewrite Forall_cons.
  destruct (p c) eqn:E; naive_solver.
Qed.

(** A string with no white space at either end is its own [trim]. *)
Definition trimmed (s : list N) : Prop :=
  (match s with c :: _ => is_space c = false | [] => True end) /\
  (match reverse s with c :: _ => is_space c = false | [] => True end).

Lemma trim_trimmed s : trimmed s -> trim s = s.
Proof.
  intros [H1 H2]. unfold trim, trim_end, trim_start.
  assert (drop_while is_space s = s) as ->.
  { destruct s; [done|]. by apply drop_while_id. }
  destruct (reverse s) as [|c r] eqn:E.
  - apply (f_equal reverse) in E. rewrite reverse_involutive in E. by subst.
  - rewrite drop_while_id by done. by rewrite <- E, reverse_involutive.
Qed.

Lemma trim_is_trimmed s : trimmed (trim s).
Proof.
  unfold trim, trim_end, trim_start. set (u := drop_while is_space s).
  assert (match u with c :: _ => is_space c = false | [] => True end) as Hu.
  { destruct u eqn:E; [done|]. by eapply drop_while_head. }
  clearbody u. split.
  - destruct (drop_while_suffix is_space (reverse u)) as [a Ha].
    apply (f_equal reverse) in Ha. rewrite reverse_involutive, reverse_app in Ha.
    destruct (reverse (drop_while is_space (reverse u))) as [|c r]; [done|].
    rewrite Ha in Hu. done.
  - rewrite reverse_involutive.
    destruct (drop_while is_space (reverse u)) eqn:E; [done|]. by eapply drop_while_head.
Qed.

Lemma trim_idemp s : trim (trim s) = trim s.
Proof. apply trim_trimmed, trim_is_trimmed. Qed.

Lemma trim_nil s : trim s = [] -> Forall (fun c => is_space c = true) s.
Proof.
  unfold trim, trim_end. intros H. apply (f_equal reverse) in H. rewrite reverse_involutive in H.
  apply drop_while_nil in H. apply drop_while_nil. unfold trim_start in H.
  destruct (drop_while is_space s) as [|c r] eqn:E; [done|]. apply drop_while_head in E.
  rewrite reverse_cons, Forall_app, Forall_singleton in H. destruct H as [_ H]. congruence.
Qed.

Lemma no_space_trimmed s : Forall (fun c => is_space c = false) s -> trimmed s.
Proof.
  intros H. split; [by destruct H|].
  apply Forall_reverse in H. by destruct H.
Qed.

(** Text between two trimmed texts. *)
Lemma trimmed_around a m b : trimmed a -> a <> [] -> trimmed b -> b <> [] -> trimmed (a ++ m ++ b).
Proof.
  intros [Ha _] Hna [_ Hb] Hnb. split; [by destruct a|].
  rewrite !reverse_app, <- app_assoc.
  destruct (reverse b) eqn:E; [|done].
  apply (f_equal reverse) in E. rewrite reverse_involutive in E. by subst.
Qed.

(** *** Decimal numerals *)

Lemma is_digit_spec c : is_digit c = true <-> (48 <= c <= 57)%N.
Proof. unfold is_digit. rewrite andb_true_iff, !N.leb_le. done. Qed.

Lemma is_digit_not_space c : is_digit c = true -> is_space c = false.
Proof.
  rewrite is_digit_spec. intros H. unfold is_space. apply orb_false_iff. split.
  - apply bool_decide_eq_false. rewrite !elem_of_cons, elem_of_nil. lia.
  - apply andb_false_iff. left. apply N.leb_gt. lia.
Qed.

Lemma dec_value_app a b :
  dec_value (a ++ b) = fold_left (fun acc c => 10 * acc + (c - 48))%N b (dec_value a).
Proof. unfold dec_value. by rewrite fold_left_app. Qed.

Lemma dec_digits_acc fuel n acc :
  dec_digits fuel n acc = dec_digits fuel n [] ++ acc.
Proof.
  revert n acc. induction fuel as [|f IH]; intros n acc; simpl; [done|].
  destruct (n <? 10)%N; [done|]. rewrite IH, (IH _ [_]). by rewrite <- app_assoc.
Qed.

Lemma dec_digits_forall fuel n : Forall (fun c => is_digit c = true) (dec_digits fuel n []).
Proof.
  revert n. induction fuel as [|f IH]; intros n; simpl; [constructor|].
  assert (is_digit (digit_char (n mod 10)) = true) as Hd.
  { apply is_digit_spec. unfold digit_char. pose proof (N.mod_upper_bound n 10 ltac:(done)) as H.
    generalize dependent (n mod 10)%N. lia. }
  destruct (n <? 10)%N; [by constructor|]. rewrite dec_digits_acc.
  apply Forall_app; split; [done|by constructor].
Qed.

Lemma dec_digits_value fuel n :
  (n < 2 ^ N.of_nat fuel)%N -> fuel <> O -> dec_value (dec_digits fuel n []) = n.
Proof.
  revert n. induction fuel as [|f IH]; intros n Hn Hf; [done|]. cbn [dec_digits].
  destruct (N.ltb_spec n 10) as [Hlt|Hge].
  - unfold dec_value, digit_char. simpl. rewrite N.mod_small by done. lia.
  - rewrite dec_digits_acc, dec_value_app.
    assert (n / 10 < 2 ^ N.of_nat f)%N as Hq.
    { apply N.Div0.div_lt_upper_bound. rewrite Nat2N.inj_succ, N.pow_succ_r' in Hn. lia. }
    rewrite IH; [|done|].
    + cbn [fold_left]. unfold digit_char. pose proof (N.div_mod n 10 ltac:(done)) as H.
      generalize dependent (n mod 10)%N. generalize dependent (n / 10)%N. lia.
    + intros ->. change (2 ^ N.of_nat 0)%N with 1%N in Hq.
      pose proof (N.div_le_lower_bound n 10 1 ltac:(done)) as H.
      generalize dependent (n / 10)%N. lia.
Qed.

Lemma size_nat_size p : N.of_nat (Pos.size_nat p) = Npos (Pos.size p).
Proof. induction p as [p IH|p IH|]; simpl Pos.size_nat; simpl Pos.size; lia. Qed.

Lemma dec_string_value n : dec_value (dec_string n) = n.
Proof.
  apply dec_digits_value; [|done]. rewrite Nat2N.inj_succ, N.pow_succ_r'.
  destruct n as [|p]; [done|].
  pose proof (N.size_gt (Npos p)) as H. simpl N.size in H. simpl N.size_nat.
  rewrite size_nat_size. lia.
Qed.

Lemma dec_string_digits n : Forall (fun c => is_digit c = true) (dec_string n).
Proof. apply dec_digits_forall. Qed.

Lemma dec_string_nonempty n : dec_string n <> [].
Proof.
  unfold dec_string. cbn [dec_digits]. destruct (n <? 10)%N; [done|].
  rewrite dec_digits_acc. intros [_ H]%app_eq_nil. done.
Qed.

Lemma dec_digits_head fuel n acc :
  (0 < n)%N -> (n < 2 ^ N.of_nat fuel)%N -> head (dec_digits fuel n acc) <> Some 48%N.
Proof.
  revert n acc. induction fuel as [|f IH]; intros n acc Hn Hf.
  { change (2 ^ N.of_nat 0)%N with 1%N in Hf. lia. }
  cbn [dec_digits]. destruct (N.ltb_spec n 10) as [Hlt|Hge].
  - simpl. unfold digit_char. rewrite N.mod_small by done. intros [= H]. lia.
  - apply IH.
    + apply N.div_str_pos. lia.
    + apply N.Div0.div_lt_upper_bound. rewrite Nat2N.inj_succ, N.pow_succ_r' in Hf. lia.
Qed.

(** A positive number is written without a leading zero. *)
Lemma dec_string_head n : (0 < n)%N -> head (dec_string n) <> Some 48%N.
Proof.
  intros Hn. apply dec_digits_head; [done|]. rewrite Nat2N.inj_succ, N.pow_succ_r'.
  destruct n as [|p]; [done|].
  pose proof (N.size_gt (Npos p)) as H. simpl N.size in H. simpl N.size_nat.
  rewrite size_nat_size. lia.
Qed.
