(* ===== verification/JsNumber.v ===== *)
(** * JavaScript numbers

    A JavaScript number is an IEEE 754 binary64 value.  It is modelled with the
    Standard Library's executable [spec_float] at precision 53 and maximal
    exponent 1024: rounding, overflow to infinity, NaN and signed zeros are
    those of the engine. *)
From Corelib Require Export SpecFloat.
From S2P Require Import Prelude JsString.
From Stdlib Require Import Lia.

Notation num := spec_float (only parsing).

(** ** Arithmetic and comparison *)

#[global] Instance spec_float_eq_dec : EqDecision spec_float.
Proof. solve_decision. Defined.

Definition num_zero : spec_float := S754_zero false.
Definition num_add : spec_float -> spec_float -> spec_float := SFadd 53 1024.
Definition num_sub : spec_float -> spec_float -> spec_float := SFsub 53 1024.
Definition num_mul : spec_float -> spec_float -> spec_float := SFmul 53 1024.
Definition num_div : spec_float -> spec_float -> spec_float := SFdiv 53 1024.
Definition num_neg : spec_float -> spec_float := SFopp.
Definition num_abs : spec_float -> spec_float := SFabs.

(** [===], [<] and [<=] on numbers: false whenever a side is NaN. *)
Definition num_eqb : spec_float -> spec_float -> bool := SFeqb.
Definition num_ltb : spec_float -> spec_float -> bool := SFltb.
Definition num_leb : spec_float -> spec_float -> bool := SFleb.

(** [Number.isFinite]. *)
Definition is_finite (x : spec_float) : bool :=
  match x with S754_zero _ | S754_finite _ _ _ => true | _ => false end.

(** [Boolean(x)]: false for zeros and NaN. *)
Definition num_truthy (x : spec_float) : bool :=
  match x with S754_zero _ | S754_nan => false | _ => true end.

(** [x || 0]. *)
Definition or_zero (x : spec_float) : spec_float := if num_truthy x then x else num_zero.

(** The double nearest to an integer times a power of two. *)
Definition num_of_Z (z : Z) : spec_float := binary_normalize 53 1024 z 0 false.

(** The exact value [m * 2^e] of a finite number as a pair. *)
Definition signed_mantissa (s : bool) (m : positive) : Z :=
  if s then Zneg m else Zpos m.

(** ** [Math.floor], [Math.ceil], [Math.max], [Math.min], [%] *)

(** The integer part [z] of a finite number of sign [s]; a zero result keeps
    the sign. *)
Definition num_of_int (s : bool) (z : Z) : spec_float :=
  if (z =? 0)%Z then S754_zero s else binary_normalize 53 1024 z 0 s.

Definition num_floor (x : spec_float) : spec_float :=
  match x with
  | S754_finite s m e =>
      if (0 <=? e)%Z then x
      else num_of_int s (Z.div (signed_mantissa s m) (2 ^ (- e)))
  | _ => x
  end.

(** [Number.isInteger]. *)
Definition is_integer (n : spec_float) : bool := is_finite n && num_eqb (num_floor n) n.

Definition num_ceil (x : spec_float) : spec_float :=
  match x with
  | S754_finite s m e =>
      if (0 <=? e)%Z then x
      else num_of_int s (- Z.div (- signed_mantissa s m) (2 ^ (- e)))%Z
  | _ => x
  end.

Definition is_nan (x : spec_float) : bool :=
  match x with S754_nan => true | _ => false end.

Definition is_neg (x : spec_float) : bool :=
  match x with
  | S754_zero s | S754_infinity s | S754_finite s _ _ => s
  | S754_nan => false
  end.

(** [+0] counts as larger than [-0]. *)
Definition num_max2 (x y : spec_float) : spec_float :=
  if is_nan x || is_nan y then S754_nan
  else if num_ltb x y then y
  else if num_eqb x y && is_neg x then y else x.

Definition num_min2 (x y : spec_float) : spec_float :=
  if is_nan x || is_nan y then S754_nan
  else if num_ltb y x then y
  else if num_eqb x y && is_neg y then y else x.

(** [Math.max(...xs)] and [Math.min(...xs)]. *)
Definition num_max (xs : list spec_float) : spec_float :=
  fold_left num_max2 xs (S754_infinity true).
Definition num_min (xs : list spec_float) : spec_float :=
  fold_left num_min2 xs (S754_infinity false).

(** [x % y]: exact, with the sign of [x]. *)
Definition num_rem (x y : spec_float) : spec_float :=
  match x, y with
  | S754_nan, _ | _, S754_nan | S754_infinity _, _ | _, S754_zero _ => S754_nan
  | _, S754_infinity _ | S754_zero _, _ => x
  | S754_finite s mx ex, S754_finite _ my ey =>
      let e := Z.min ex ey in
      let r := Z.modulo (Zpos mx * 2 ^ (ex - e)) (Zpos my * 2 ^ (ey - e)) in
      if (r =? 0)%Z then S754_zero s
      else binary_normalize 53 1024 (if s then - r else r)%Z e s
  end.

(** ** Decimal literals: [Number(text)] *)

(** The double nearest to [m * 10^e], ties to even. *)
Definition num_of_decimal (m : N) (e : Z) : spec_float :=
  match m with
  | N0 => num_zero
  | Npos p =>
      if (0 <=? e)%Z then binary_normalize 53 1024 (Zpos p * 10 ^ e) 0 false
      else
        let '(mz, ez, lz) := SFdiv_core_binary 53 1024 (Zpos p) 0 (10 ^ (- e)) 0 in
        binary_round_aux 53 1024 false mz ez lz
  end.

(** The value of a literal given by its integer digits, its fraction digits and
    its exponent. *)
Definition num_of_literal (int_part frac_part : list N) (exponent : Z) : spec_float :=
  num_of_decimal (dec_value (int_part ++ frac_part))
    (exponent - Z.of_nat (length frac_part)).

Definition signed_exponent (neg : bool) (digits : list N) : Z :=
  if neg then (- Z.of_N (dec_value digits))%Z else Z.of_N (dec_value digits).

(** ** Lemmas *)

Lemma num_eqb_refl x : is_finite x = true -> num_eqb x x = true.
Proof.
  destruct x as [s|s| |s m e]; try done. intros _.
  unfold num_eqb, SFeqb, SFcompare.
  by destruct s; rewrite Z.compare_refl, Pos.compare_cont_refl.
Qed.

(** ** [Number.prototype.toString]: the shortest decimal that reads back

    ECMAScript's Number::toString: [k] digits [s] and an exponent [n] with
    [s * 10^(n-k)] reading back as the number, [k] as small as possible, [s] as
    close as possible.  Seventeen digits always suffice for a double. *)

Definition ten_pow (e : Z) : Z * Z := if (0 <=? e)%Z then (10 ^ e, 1)%Z else (1, 10 ^ (- e))%Z.

Definition num_digits (z : Z) : Z := Z.of_nat (length (dec_string (Z.to_N z))).

(** The exact value of a positive finite number as a fraction. *)
Definition num_fraction (m : positive) (e : Z) : Z * Z :=
  if (0 <=? e)%Z then (Zpos m * 2 ^ e, 1)%Z else (Zpos m, 2 ^ (- e))%Z.

(** The [n] with [10^(n-1) <= a/b < 10^n]. *)
Definition decimal_exponent (a b : Z) : Z :=
  let n0 := (num_digits a - num_digits b)%Z in
  let '(p, q) := ten_pow n0 in
  if (b * p <=? a * q)%Z then (n0 + 1)%Z else n0.

(** [s] has [k] digits and the decimal [s * 10^(n-k)] reads back as [x]. *)
Definition reads_back (x : spec_float) (s n k : Z) : bool :=
  (num_digits s =? k)%Z && num_eqb (num_of_decimal (Z.to_N s) (n - k)) x.

(** With [k] digits: the floor and its successor, the closer one first. *)
Definition shortest_at (x : spec_float) (a b n k : Z) : option (Z * Z * Z) :=
  let '(p, q) := ten_pow (k - n) in
  let s0 := (a * p / (b * q))%Z in
  let r := (a * p - s0 * (b * q))%Z in
  let up := if (s0 + 1 =? 10 ^ k)%Z then (1, n + 1, 1)%Z else (s0 + 1, n, k)%Z in
  let low_ok := reads_back x s0 n k in
  let '(us, un, uk) := up in
  let up_ok := reads_back x us un uk in
  let up_closer := (b * q <? 2 * r)%Z || ((2 * r =? b * q)%Z && Z.odd s0) in
  if low_ok && (negb up_ok || negb up_closer) then Some (s0, n, k)
  else if up_ok then Some up
  else None.

Fixpoint shortest_from (fuel : nat) (x : spec_float) (a b n k : Z) : option (Z * Z * Z) :=
  match fuel with
  | O => None
  | S f => match shortest_at x a b n k with
           | Some r => Some r
           | None => shortest_from f x a b n (k + 1)
           end
  end.

Definition zeros (n : Z) : list N := replicate (Z.to_nat n) 48%N.

(** The layout of the digits [s] (there are [k] of them) with exponent [n]. *)
Definition decimal_layout (s n k : Z) : list N :=
  let ds := dec_string (Z.to_N s) in
  (if (k <=? n)%Z && (n <=? 21)%Z then ds ++ zeros (n - k)
   else if (0 <? n)%Z && (n <=? 21)%Z then
     firstn (Z.to_nat n) ds ++ js "." ++ skipn (Z.to_nat n) ds
   else if (-6 <? n)%Z && (n <=? 0)%Z then js "0." ++ zeros (- n) ++ ds
   else
     let e := (n - 1)%Z in
     let exp := js "e" ++ (if (0 <=? e)%Z then js "+" else js "-") ++ dec_string (Z.to_N (Z.abs e)) in
     match ds with
     | [d] => [d] ++ exp
     | d :: r => [d] ++ js "." ++ r ++ exp
     | [] => []
     end).

Definition num_to_string (x : spec_float) : list N :=
  match x with
  | S754_nan => js "NaN"
  | S754_zero _ => js "0"
  | S754_infinity s => (if s then js "-" else []) ++ js "Infinity"
  | S754_finite s m e =>
      let '(a, b) := num_fraction m e in
      (if s then js "-" else []) ++
      match shortest_from 17 (S754_finite false m e) a b (decimal_exponent a b) 1 with
      | Some (d, n, k) => decimal_layout d n k
      | None => []
      end
  end.

(** *** Order

    A number that is not NaN has a rank in the lexicographic order of class,
    exponent and mantissa, which is how doubles are compared. *)

Definition rank (x : spec_float) : Z * Z * Z :=
  match x with
  | S754_infinity s => ((if s then -2 else 2), 0, 0)
  | S754_finite s m e => if s then (-1, - e, - Z.pos m) else (1, e, Z.pos m)
  | _ => (0, 0, 0)
  end%Z.

Definition rank_lt (a b : Z * Z * Z) : Prop :=
  let '(c, e, m) := a in let '(c', e', m') := b in
  (c < c' \/ c = c' /\ (e < e' \/ e = e' /\ m < m'))%Z.

Lemma compare_rank x y :
  is_nan x = false -> is_nan y = false ->
  exists o, SFcompare x y = Some o /\
    match o with Lt => rank_lt (rank x) (rank y) | Eq => rank x = rank y | Gt => rank_lt (rank y) (rank x) end.
Proof.
  intros Hx Hy. destruct x as [sx|sx| |sx mx ex], y as [sy|sy| |sy my ey]; try done;
    try destruct sx; try destruct sy; cbn [SFcompare rank]; eexists; (split; [reflexivity|]); unfold rank_lt; try lia; try done;
    change (PosDef.Pos.compare_cont Eq) with Pos.compare;
    destruct (Z.compare_spec ex ey); try lia; destruct (Pos.compare_spec mx my); cbn [CompOpp]; subst; try lia; done.
Qed.

Lemma num_ltb_rank x y :
  num_ltb x y = true <-> is_nan x = false /\ is_nan y = false /\ rank_lt (rank x) (rank y).
Proof.
  unfold num_ltb, SFltb. destruct (is_nan x) eqn:Ex; [split; [by destruct x|by intros (?&_)]|].
  destruct (is_nan y) eqn:Ey; [split; [destruct y; by destruct x|by intros (_&?&_)]|].
  destruct (compare_rank x y Ex Ey) as (o & -> & Ho). unfold rank_lt in *.
  destruct o, (rank x) as [[]], (rank y) as [[]]; simplify_eq; split; try done; intros; lia.
Qed.

Lemma num_leb_rank x y :
  num_leb x y = true <-> is_nan x = false /\ is_nan y = false /\ ~ rank_lt (rank y) (rank x).
Proof.
  unfold num_leb, SFleb. destruct (is_nan x) eqn:Ex; [split; [by destruct x|by intros (?&_)]|].
  destruct (is_nan y) eqn:Ey; [split; [destruct y; by destruct x|by intros (_&?&_)]|].
  destruct (compare_rank x y Ex Ey) as (o & -> & Ho). unfold rank_lt in *.
  destruct o, (rank x) as [[]], (rank y) as [[]]; simplify_eq; split; try done; intros; lia.
Qed.

Ltac rank_solve :=
  repeat match goal with
  | H : num_ltb _ _ = true |- _ => apply num_ltb_rank in H; destruct H as (?&?&?)
  | H : num_leb _ _ = true |- _ => apply num_leb_rank in H; destruct H as (?&?&?)
  | |- num_leb _ _ = true => apply num_leb_rank; split_and!; try done
  end;
  unfold rank_lt in *;
  repeat match goal with H : context [rank ?x] |- _ => destruct (rank x) as [[] ?]
  | |- context [rank ?x] => destruct (rank x) as [[] ?] end; try lia.

Lemma num_leb_trans x y z : num_leb x y = true -> num_leb y z = true -> num_leb x z = true.
Proof. intros. rank_solve. Qed.

Lemma num_leb_not_ltb x y : num_leb x y = true -> num_ltb y x = false.
Proof. intros H. destruct (num_ltb y x) eqn:E; [|done]. exfalso. rank_solve. Qed.

Lemma num_ltb_leb x y : num_ltb x y = true -> num_leb x y = true.
Proof. intros. rank_solve. Qed.

Lemma num_not_ltb x y : is_nan x = false -> is_nan y = false -> num_ltb x y = false -> num_leb y x = true.
Proof.
  intros Hx Hy H. apply num_leb_rank. split_and!; [done..|]. intros Hr.
  apply not_true_iff_false in H. apply H, num_ltb_rank. done.
Qed.

Lemma num_eqb_leb x y : num_eqb x y = true -> num_leb x y = true /\ num_leb y x = true.
Proof.
  unfold num_eqb, SFeqb. intros H. destruct (is_nan x) eqn:Ex; [by destruct x|]. destruct (is_nan y) eqn:Ey; [destruct y; by destruct x|].
  destruct (compare_rank x y Ex Ey) as (o & E & Ho). rewrite E in H. destruct o; try done.
  split; apply num_leb_rank; split_and!; try done; unfold rank_lt; rewrite Ho; destruct (rank y) as [[] ?]; lia.
Qed.

Lemma num_leb_refl x : is_nan x = false -> num_leb x x = true.
Proof. intros H. apply num_leb_rank. split_and!; [done..|]. unfold rank_lt. destruct (rank x) as [[] ?]. lia. Qed.

(** [Math.max] and [Math.min] of two numbers are bounds, and one of the two. *)
Lemma num_max2_spec x y :
  is_nan x = false -> is_nan y = false ->
  num_leb x (num_max2 x y) = true /\ num_leb y (num_max2 x y) = true /\ (num_max2 x y = x \/ num_max2 x y = y).
Proof.
  intros Hx Hy. unfold num_max2. rewrite Hx, Hy. cbn [orb]. destruct (num_ltb x y) eqn:E.
  { split_and!; [by apply num_ltb_leb|by apply num_leb_refl|auto]. }
  pose proof (num_not_ltb x y Hx Hy E). destruct (num_eqb x y && is_neg x) eqn:En.
  - apply andb_true_iff in En as [En _]. apply num_eqb_leb in En as [? ?]. split_and!; [done|by apply num_leb_refl|auto].
  - split_and!; [by apply num_leb_refl|done|auto].
Qed.

Lemma num_min2_spec x y :
  is_nan x = false -> is_nan y = false ->
  num_leb (num_min2 x y) x = true /\ num_leb (num_min2 x y) y = true /\ (num_min2 x y = x \/ num_min2 x y = y).
Proof.
  intros Hx Hy. unfold num_min2. rewrite Hx, Hy. cbn [orb]. destruct (num_ltb y x) eqn:E.
  { split_and!; [by apply num_ltb_leb|by apply num_leb_refl|auto]. }
  pose proof (num_not_ltb y x Hy Hx E). destruct (num_eqb x y && is_neg y) eqn:En.
  - apply andb_true_iff in En as [En _]. apply num_eqb_leb in En as [? ?]. split_and!; [done|by apply num_leb_refl|auto].
  - split_and!; [by apply num_leb_refl|done|auto].
Qed.

(** *** Rounding an integer never gives NaN *)

Lemma shr_1_nonneg r : (0 <= shr_m r)%Z -> (0 <= shr_m (shr_1 r))%Z.
Proof. destruct r as [[|[]|[]] r s]; simpl; lia. Qed.

Lemma iter_shr_nonneg p : forall r, (0 <= shr_m r)%Z -> (0 <= shr_m (SpecFloat.iter_pos shr_1 p r))%Z.
Proof. induction p as [p IH|p IH|]; intros r Hr; simpl; auto using shr_1_nonneg. Qed.

Lemma shr_fexp_nonneg m e l : (0 <= m)%Z -> (0 <= shr_m (shr_fexp 53 1024 m e l).1)%Z.
Proof.
  intros Hm. unfold shr_fexp, shr. assert (0 <= shr_m (shr_record_of_loc m l))%Z as H by by destruct l as [|[]].
  destruct (_ - _)%Z; [done| |done]. by apply iter_shr_nonneg.
Qed.

(** A number with this sign, zeros and infinities included. *)
Definition signed (s : bool) (x : spec_float) : Prop :=
  match x with S754_zero b | S754_infinity b | S754_finite b _ _ => b = s | S754_nan => False end.

Lemma binary_round_aux_signed s m e l : (0 <= m)%Z -> signed s (binary_round_aux 53 1024 s m e l).
Proof.
  intros Hm. unfold binary_round_aux.
  pose proof (shr_fexp_nonneg m e l Hm) as H1. destruct (shr_fexp _ _ m e l) as [r1 e1].
  assert (0 <= round_nearest_even (shr_m r1) (loc_of_shr_record r1))%Z as H2.
  { unfold round_nearest_even. simpl in H1. destruct (loc_of_shr_record r1) as [|[]]; try lia. destruct (Z.even _); lia. }
  pose proof (shr_fexp_nonneg _ e1 loc_Exact H2) as H3. destruct (shr_fexp _ _ _ e1 loc_Exact) as [r2 e2]. simpl in H3.
  destruct (shr_m r2); [done|by destruct (Z.leb _ _)|lia].
Qed.

Lemma binary_round_not_nan s m e : is_nan (binary_round 53 1024 s m e) = false.
Proof.
  unfold binary_round. destruct (shl_align _ _ _) as [mz ez].
  pose proof (binary_round_aux_signed s (Z.pos mz) ez loc_Exact ltac:(lia)) as H. by destruct (binary_round_aux _ _ _ _ _ _).
Qed.

(** Quotients and products of numbers that are not negative. *)
Lemma num_div_signed s m e x : signed false x -> is_finite x = true -> s = false ->
  signed false (num_div x (S754_finite s m e)).
Proof.
  intros Hx Hf ->. destruct x as [b|b| |b mx ex]; try done; simpl in Hx; subst b; [done|].
  unfold num_div, SFdiv. destruct (SFdiv_core_binary _ _ _ _ _ _) as [[mz ez] lz] eqn:E.
  apply binary_round_aux_signed. unfold SFdiv_core_binary in E.
  assert (forall z, 0 <= z -> 0 <= (Z.div_eucl z (Z.pos m)).1)%Z as Hq.
  { intros z Hz. pose proof (Z.div_pos z (Z.pos m) Hz ltac:(lia)). unfold Z.div in *. by destruct (Z.div_eucl z (Z.pos m)). }
  match type of E with context [Z.div_eucl ?a ?b] => pose proof (Hq a) as H; destruct (Z.div_eucl a b) as [q r] end.
  injection E as <- <- <-. apply H. destruct (_ - _)%Z; [lia|apply Z.shiftl_nonneg; lia|lia].
Qed.

Lemma num_mul_signed s m e x : signed false x -> s = false -> signed false (num_mul x (S754_finite s m e)).
Proof.
  intros Hx ->. destruct x as [b|b| |b mx ex]; try done; simpl in Hx; subst b; try done.
  unfold num_mul, SFmul. simpl xorb. apply binary_round_aux_signed. lia.
Qed.

Lemma num_floor_not_nan x : is_nan x = false -> is_nan (num_floor x) = false.
Proof.
  destruct x as [| | |s m e]; try done. intros _. unfold num_floor. destruct (0 <=? e)%Z; [done|].
  unfold num_of_int, binary_normalize. destruct (_ =? _)%Z; [done|].
  destruct (Z.div _ _); [done|apply binary_round_not_nan..].
Qed.
