(* ===== verification/HttpStatusRules.v ===== *)
(** * HTTP status code rules (src/apps/web/src/lib/http-status-code-rules.ts)

    The routing settings take a list of status codes and ranges such as
    ["401, 500-503"].  [parseHttpStatusCodeRules] checks every token, merges
    the ranges and prints a normalized rule string.

    The theorems show that the normalized ranges are sorted and separated, that
    they match exactly the codes the tokens name, that normalization is a fixed
    point of parsing, and that one bad token rejects the whole input. *)
From S2P Require Import Prelude JsString.
From Stdlib Require Import Lia Sorting.Permutation Sorting.Sorted.

Record StatusCodeRange := mkRange { start : Z; end_ : Z }.

Record ParsedHttpStatusCodeRules := mkParsed {
  ok : bool;
  ranges : list StatusCodeRange;
  tokens : list (list N);
  normalized : list N;
  invalidTokens : list (list N) }.

(** [/^\d+$/.test(s)]. *)
Definition isNumber (s : list N) : bool := nonempty s && forallb is_digit s.

(** [Number.parseInt(s, 10)] of a string of digits.  Rounding to a double never
    changes whether the value lies in [100, 599], the only use of it. *)
Definition parseInt (s : list N) : Z := Z.of_N (dec_value s).

Definition isValidCode (code : Z) : bool := (100 <=? code)%Z && (code <=? 599)%Z.

(** [const [a, b] = cleaned.split('-')]: parts after the second are dropped. *)
Definition parseToken (token : list N) : option StatusCodeRange :=
  let cleaned := filter (fun c => is_space c = false) (trim token) in
  if negb (nonempty cleaned) then None
  else if includes (js "-") cleaned then
    match split_on (ch "-") cleaned with
    | a :: b :: _ =>
        if negb (isNumber a) || negb (isNumber b) then None
        else
          let s := parseInt a in
          let e := parseInt b in
          if negb (isValidCode s) || negb (isValidCode e) || (e <? s)%Z then None
          else Some (mkRange s e)
    | _ => None
    end
  else if negb (isNumber cleaned) then None
  else
    let code := parseInt cleaned in
    if negb (isValidCode code) then None else Some (mkRange code code).

(** The comparator of [sort]: by [start], then by [end]. *)
Definition range_leb (a b : StatusCodeRange) : bool :=
  if (start a =? start b)%Z then (end_ a <=? end_ b)%Z else (start a <? start b)%Z.

(** A stable sort by the comparator (insertion keeps equal elements in order). *)
Fixpoint insert_range (r : StatusCodeRange) (l : list StatusCodeRange) :=
  match l with
  | [] => [r]
  | x :: l' => if range_leb r x then r :: l else x :: insert_range r l'
  end.

Definition sort_ranges (l : list StatusCodeRange) : list StatusCodeRange :=
  foldr insert_range [] l.

(** One step of [reduce]; the accumulator is kept last element first. *)
Definition merge_step (merged : list StatusCodeRange) (current : StatusCodeRange) :=
  match merged with
  | [] => [current]
  | last :: rest =>
      if (end_ last + 1 <? start current)%Z then current :: merged
      else mkRange (start last) (Z.max (end_ last) (end_ current)) :: rest
  end.

Definition mergeRanges (rs : list StatusCodeRange) : list StatusCodeRange :=
  match rs with
  | [] => []
  | _ => reverse (fold_left merge_step (sort_ranges rs) [])
  end.

Definition range_token (r : StatusCodeRange) : list N :=
  let s := dec_string (Z.to_N (start r)) in
  if (start r =? end_ r)%Z then s
  else s ++ js "-" ++ dec_string (Z.to_N (end_ r)).

(** The fullwidth comma U+FF0C becomes an ASCII one. *)
Definition sanitize (raw : list N) : list N :=
  (fun c => if (c =? 65292)%N then ch "," else c) <$> raw.

Definition rule_segments (raw : list N) : list (list N) :=
  filter (fun s => nonempty s = true) (trim <$> split_on (ch ",") (sanitize raw)).

(** The loop over the segments: ranges found and tokens refused, in order. *)
Fixpoint classify (segments : list (list N)) : list StatusCodeRange * list (list N) :=
  match segments with
  | [] => ([], [])
  | seg :: rest =>
      let '(good, bad) := classify rest in
      match parseToken seg with
      | None => (good, seg :: bad)
      | Some r => (r :: good, bad)
      end
  end.

(** [input] is [null]/[undefined] ([None]) or the result of its [toString()]. *)
Definition parseHttpStatusCodeRules (input : option (list N)) : ParsedHttpStatusCodeRules :=
  let raw := trim (default [] input) in
  if negb (nonempty raw) then mkParsed true [] [] [] []
  else
    let '(good, bad) := classify (rule_segments raw) in
    match bad with
    | _ :: _ => mkParsed false [] [] raw bad
    | [] =>
        let merged := mergeRanges good in
        let toks := range_token <$> merged in
        mkParsed true merged toks (join (js ",") toks) []
    end.

(** ** Specification *)

Definition in_range (c : Z) (r : StatusCodeRange) : Prop := (start r <= c <= end_ r)%Z.
Definition covers (rs : list StatusCodeRange) (c : Z) : Prop := Exists (in_range c) rs.
Definition valid_range (r : StatusCodeRange) : Prop :=
  (100 <= start r /\ start r <= end_ r /\ end_ r <= 599)%Z.

(** Sorted with a gap of at least one code between consecutive ranges. *)
Definition separated : list StatusCodeRange -> Prop :=
  StronglySorted (fun a b => (end_ a + 1 < start b)%Z).

(** ** Tokens *)

Lemma isValidCode_spec code : isValidCode code = true <-> (100 <= code <= 599)%Z.
Proof. unfold isValidCode. rewrite andb_true_iff, !Z.leb_le. done. Qed.

Lemma parseToken_valid t r : parseToken t = Some r -> valid_range r.
Proof.
  unfold parseToken, valid_range. intros H.
  repeat case_match; simplify_eq; simpl; breflect;
    rewrite ?isValidCode_spec in *; lia.
Qed.

Lemma isNumber_dec n : isNumber (dec_string n) = true.
Proof.
  unfold isNumber. apply andb_true_iff. split.
  - pose proof (dec_string_nonempty n). by destruct (dec_string n).
  - apply forallb_forall. intros x Hx. pose proof (dec_string_digits n) as H.
    rewrite Forall_forall in H. apply H. by apply list_elem_of_In.
Qed.

Lemma parseInt_dec z : (0 <= z)%Z -> parseInt (dec_string (Z.to_N z)) = z.
Proof. intros. unfold parseInt. rewrite dec_string_value. lia. Qed.

Lemma digit_neq c d : is_digit d = false -> is_digit c = true -> c <> d.
Proof. congruence. Qed.

Lemma dec_string_notin n d : is_digit d = false -> d ∉ dec_string n.
Proof.
  intros Hd Hin. pose proof (dec_string_digits n) as H. rewrite Forall_forall in H.
  specialize (H _ Hin). congruence.
Qed.

(** Token characters are digits and [-]: never white space, never a comma. *)
Definition token_char (c : N) : bool := is_digit c || (c =? ch "-")%N.

Lemma range_token_chars r : Forall (fun c => token_char c = true) (range_token r).
Proof.
  assert (forall n, Forall (fun c => token_char c = true) (dec_string n)) as Hd.
  { intros n. eapply Forall_impl; [apply dec_string_digits|]. intros c Hc.
    unfold token_char. by rewrite Hc. }
  unfold range_token. case_match; [done|]. repeat (apply Forall_app; split); auto.
  repeat constructor.
Qed.

Lemma token_char_not_space c : token_char c = true -> is_space c = false.
Proof.
  intros [H|H]%orb_true_iff; [by apply is_digit_not_space|].
  apply N.eqb_eq in H. subst. done.
Qed.

Lemma filter_all_true {A} (P : A -> Prop) `{forall x, Decision (P x)} l :
  Forall P l -> filter P l = l.
Proof. induction 1; [done|]. rewrite filter_cons_True by done. by f_equal. Qed.

Lemma range_token_clean r :
  filter (fun c => is_space c = false) (trim (range_token r)) = range_token r.
Proof.
  assert (Forall (fun c => is_space c = false) (range_token r)) as H.
  { eapply Forall_impl; [apply range_token_chars|]. apply token_char_not_space. }
  rewrite trim_trimmed by by apply no_space_trimmed. by apply filter_all_true.
Qed.

Lemma range_token_nonempty r : nonempty (range_token r) = true.
Proof.
  unfold range_token. pose proof (dec_string_nonempty (Z.to_N (start r))).
  case_match; destruct (dec_string _); done.
Qed.

(** Printing a valid range and parsing the token gives the range back. *)
Lemma parseToken_range_token r : valid_range r -> parseToken (range_token r) = Some r.
Proof.
  intros (H1 & H2 & H3). unfold parseToken. rewrite range_token_clean, range_token_nonempty.
  simpl negb. cbv iota. unfold range_token.
  assert (forall n, includes (js "-") (dec_string n) = false) as Hinc.
  { intros n. apply includes_nil_r; [done|]. eapply Forall_impl; [apply dec_string_digits|].
    intros c Hc Hin. apply list_elem_of_singleton in Hin. subst. done. }
  destruct (Z.eqb_spec (start r) (end_ r)) as [He|He].
  - rewrite Hinc, isNumber_dec, parseInt_dec by lia. simpl.
    rewrite (proj2 (isValidCode_spec _)) by lia. simpl. destruct r; simpl in *; by subst.
  - assert (includes (js "-") (dec_string (Z.to_N (start r)) ++ js "-" ++
      dec_string (Z.to_N (end_ r))) = true) as ->.
    { apply includes_eq. eauto. }
    change (js "-" ++ ?x) with (ch "-" :: x).
    rewrite split_on_app, split_on_notin by by apply dec_string_notin.
    rewrite !isNumber_dec, !parseInt_dec by lia. simpl.
    rewrite !(proj2 (isValidCode_spec _)) by lia. simpl.
    rewrite (proj2 (Z.ltb_ge _ _)) by lia. by destruct r.
Qed.

(** ** What a token names

    The tokens of the language, apart from how they are parsed: a code, or two codes joined
    by a dash, with any white space in between; what follows a second dash does not matter. *)

Definition code_text (d : list N) (code : Z) : Prop :=
  d <> [] /\ Forall (fun c => 48 <= c <= 57)%N d /\ code = Z.of_N (dec_value d) /\ (100 <= code <= 599)%Z.

Inductive token_text : list N -> Z -> Z -> Prop :=
| token_code d code : code_text d code -> token_text d code code
| token_range d1 d2 rest a b :
    code_text d1 a -> code_text d2 b -> (a <= b)%Z -> rest = [] \/ head rest = Some (ch "-") ->
    token_text (d1 ++ ch "-" :: d2 ++ rest) a b.

Definition names (seg : list N) (a b : Z) : Prop := token_text (filter (fun c => is_space c = false) seg) a b.

Lemma filter_none_space (s : list N) : Forall (fun c => is_space c = true) s -> filter (fun c => is_space c = false) s = [].
Proof. induction 1 as [|c s Hc _ IH]; [done|]. by rewrite filter_cons_False by congruence. Qed.

Lemma drop_while_filter s : filter (fun c => is_space c = false) (drop_while is_space s) = filter (fun c => is_space c = false) s.
Proof.
  induction s as [|c s IH]; [done|]. cbn [drop_while]. destruct (is_space c) eqn:E; [|done]. by rewrite IH, filter_cons_False by congruence.
Qed.

Lemma filter_reverse_space (s : list N) : filter (fun c => is_space c = false) (reverse s) = reverse (filter (fun c => is_space c = false) s).
Proof.
  induction s as [|c s IH]; [done|]. rewrite reverse_cons, filter_app, IH.
  destruct (is_space c) eqn:E; [by rewrite !filter_cons_False, app_nil_r by congruence|].
  by rewrite !filter_cons_True, filter_nil, reverse_cons by done.
Qed.

(** Trimming before white space is removed changes nothing. *)
Lemma trim_filter s : filter (fun c => is_space c = false) (trim s) = filter (fun c => is_space c = false) s.
Proof.
  unfold trim, trim_end, trim_start.
  by rewrite filter_reverse_space, drop_while_filter, filter_reverse_space, reverse_involutive, drop_while_filter.
Qed.

Lemma isNumber_spec d : isNumber d = true <-> d <> [] /\ Forall (fun c => 48 <= c <= 57)%N d.
Proof.
  unfold isNumber. rewrite andb_true_iff, forallb_forall, Forall_forall. setoid_rewrite is_digit_spec. setoid_rewrite <- list_elem_of_In.
  assert (nonempty d = true <-> d <> []) as -> by (by destruct d). done.
Qed.

Lemma code_text_spec d : isNumber d && isValidCode (parseInt d) = true <-> code_text d (parseInt d).
Proof.
  unfold code_text, parseInt. rewrite andb_true_iff, isNumber_spec, isValidCode_spec. tauto.
Qed.

Lemma code_text_value d code : code_text d code -> code = parseInt d.
Proof. by intros (_ & _ & ? & _). Qed.

Lemma code_no_dash d code : code_text d code -> ch "-" ∉ d.
Proof. intros (_ & Hd & _) Hin. rewrite Forall_forall in Hd. specialize (Hd _ Hin). unfold ch in Hd. simpl in Hd. lia. Qed.

Lemma dash_free d : ch "-" ∉ d -> includes (js "-") d = false.
Proof.
  intros H. apply includes_nil_r; [done|]. apply Forall_forall. intros c Hc ->%list_elem_of_singleton. done.
Qed.

(** The first part of a text, and what the others are parts of. *)
Lemma split_on_first sep s : forall a more, split_on sep s = a :: more -> sep ∉ a /\
  exists rest, s = a ++ rest /\ match more with [] => rest = [] | _ => exists r, rest = sep :: r /\ split_on sep r = more end.
Proof.
  induction s as [|c s IH]; intros a more; cbn [split_on].
  - intros [= <- <-]. split; [apply not_elem_of_nil|by exists []].
  - destruct (N.eqb_spec c sep) as [->|Hc].
    + intros [= <- <-]. split; [apply not_elem_of_nil|]. exists (sep :: s). split; [done|].
      destruct (split_on sep s) eqn:E; [by apply split_on_nonempty in E|]. by exists s.
    + destruct (split_on sep s) as [|w ws] eqn:E; [by apply split_on_nonempty in E|]. intros [= <- <-].
      destruct (IH _ _ eq_refl) as (Hw & rest & -> & Hr). split; [by apply not_elem_of_cons|by exists rest].
Qed.

(** The parts of a text between its dashes. *)
Lemma split_dash s a b more : split_on (ch "-") s = a :: b :: more ->
  ch "-" ∉ a /\ ch "-" ∉ b /\ exists rest, s = a ++ ch "-" :: b ++ rest /\ (rest = [] \/ head rest = Some (ch "-")).
Proof.
  generalize (ch "-"). intros sep E. destruct (split_on_first _ _ _ _ E) as (Ha & r1 & -> & r & -> & Er).
  destruct (split_on_first _ _ _ _ Er) as (Hb & r2 & -> & Hr2). split_and!; [done..|]. exists r2. split; [done|].
  destruct more as [|w ws]; [by left|]. destruct Hr2 as (q & -> & _). by right.
Qed.

(** The parser decides the language of tokens. *)
Lemma parseToken_names seg a b : parseToken seg = Some (mkRange a b) <-> names seg a b.
Proof.
  unfold parseToken, names. rewrite trim_filter. generalize (filter (fun c => is_space c = false) seg). clear seg. intros s. split.
  - destruct (nonempty s); [|done]. cbn [negb].
    destruct (includes (js "-") s) eqn:Ei.
    + destruct (split_on (ch "-") s) as [|d1 [|d2 more]] eqn:E; [done..|]. destruct (split_dash _ _ _ _ E) as (H1 & H2 & rest & -> & Hr).
      destruct (isNumber d1) eqn:N1; [|done]. destruct (isNumber d2) eqn:N2; [|done]. cbn [negb orb].
      destruct (isValidCode (parseInt d1)) eqn:V1; [|done]. destruct (isValidCode (parseInt d2)) eqn:V2; [|done]. cbn [negb orb].
      destruct (Z.ltb_spec (parseInt d2) (parseInt d1)) as [|Hle]; [done|]. intros [= <- <-].
      constructor; [by apply code_text_spec; rewrite N1, V1|by apply code_text_spec; rewrite N2, V2|done|done].
    + destruct (isNumber s) eqn:N1; [|done]. destruct (isValidCode (parseInt s)) eqn:V1; [|done]. intros [= <- <-].
      constructor. apply code_text_spec. by rewrite N1, V1.
  - intros H. inversion H as [d code Hc|d1 d2 rest ? ? H1 H2 Hle Hr]; subst.
    + pose proof (code_no_dash _ _ Hc) as Hn. pose proof (code_text_value _ _ Hc) as ->. apply code_text_spec, andb_true_iff in Hc as [N1 V1].
      rewrite dash_free, N1, V1 by done. by destruct s.
    + assert (split_on (ch "-") (d1 ++ ch "-" :: d2 ++ rest) = d1 :: d2 :: match rest with [] => [] | _ :: r => split_on (ch "-") r end) as ->.
      { rewrite split_on_app by (by eapply code_no_dash). f_equal. destruct Hr as [->|Hr].
        - rewrite app_nil_r. by apply split_on_notin; eapply code_no_dash.
        - destruct rest as [|c r]; [done|]. injection Hr as ->. by apply split_on_app; eapply code_no_dash. }
      assert (includes (js "-") (d1 ++ ch "-" :: d2 ++ rest) = true) as -> by (apply includes_eq; by exists d1, (d2 ++ rest)).
      pose proof (code_text_value _ _ H1) as ->. pose proof (code_text_value _ _ H2) as ->.
      apply code_text_spec, andb_true_iff in H1 as [N1 V1]. apply code_text_spec, andb_true_iff in H2 as [N2 V2].
      rewrite N1, N2, V1, V2, (proj2 (Z.ltb_ge _ _) Hle). by destruct d1.
Qed.

Lemma parseToken_refuses seg : parseToken seg = None <-> ~ exists a b, names seg a b.
Proof.
  setoid_rewrite <- parseToken_names. destruct (parseToken seg) as [[a b]|]; [|naive_solver].
  split; [done|]. intros H. destruct H. by exists a, b.
Qed.

(** ** Sorting *)

Lemma insert_range_perm r l : Permutation (insert_range r l) (r :: l).
Proof.
  induction l as [|x l IH]; simpl; [done|]. case_match; [done|].
  rewrite IH. apply Permutation_swap.
Qed.

Lemma sort_ranges_perm l : Permutation (sort_ranges l) l.
Proof. induction l as [|r l IH]; simpl; [done|]. by rewrite insert_range_perm, IH. Qed.

Definition start_le (a b : StatusCodeRange) : Prop := (start a <= start b)%Z.

Lemma range_leb_start a b : range_leb a b = true -> start_le a b.
Proof. unfold range_leb, start_le. case_match; intros; breflect; lia. Qed.

Lemma range_leb_total a b : range_leb a b = false -> start_le b a.
Proof. unfold range_leb, start_le. case_match; intros; breflect; lia. Qed.

Lemma insert_range_sorted r l :
  StronglySorted start_le l -> StronglySorted start_le (insert_range r l).
Proof.
  induction 1 as [|x l Hs IH Hx]; simpl; [repeat constructor|].
  destruct (range_leb r x) eqn:E.
  - apply range_leb_start in E. constructor; [by constructor|].
    constructor; [done|]. eapply Forall_impl; [done|]. unfold start_le in *. simpl. lia.
  - apply range_leb_total in E. constructor; [done|].
    rewrite insert_range_perm. by constructor.
Qed.

Lemma sort_ranges_sorted l : StronglySorted start_le (sort_ranges l).
Proof. induction l; simpl; [constructor|by apply insert_range_sorted]. Qed.

(** ** Merging *)

Definition gap_desc (a b : StatusCodeRange) : Prop := (end_ b + 1 < start a)%Z.

(** The accumulator, last range first, and the sorted input still to be read. *)
Record merge_inv (acc l : list StatusCodeRange) : Prop := {
  inv_sep : StronglySorted gap_desc acc;
  inv_valid : Forall valid_range acc;
  inv_next : match acc with last :: _ => Forall (start_le last) l | [] => True end }.

Lemma merge_step_inv acc r l :
  merge_inv acc (r :: l) -> valid_range r -> StronglySorted start_le (r :: l) ->
  merge_inv (merge_step acc r) l.
Proof.
  intros [Hsep Hval Hnext] Hr Hsort. inv Hsort.
  destruct acc as [|last acc]; simpl.
  - split; [apply SSorted_cons; constructor|by constructor|done].
  - apply StronglySorted_inv in Hsep as [Hsep Hlast].
    apply Forall_cons in Hval as [Hvl Hval]. apply Forall_cons in Hnext as [Hlr Hnext].
    unfold valid_range, start_le, gap_desc in *.
    destruct (Z.ltb_spec (end_ last + 1) (start r)).
    + split; [| |done].
      * constructor; [by constructor|]. constructor; [done|].
        eapply Forall_impl; [exact Hlast|]. unfold gap_desc. simpl. lia.
      * constructor; [done|by constructor].
    + split; simpl; [by constructor| |done]. constructor; [unfold valid_range; simpl; lia|done].
Qed.

Lemma merge_step_covers acc r c :
  Forall valid_range acc -> valid_range r ->
  (match acc with last :: _ => start_le last r | [] => True end) ->
  covers (merge_step acc r) c <-> covers acc c \/ in_range c r.
Proof.
  unfold covers. destruct acc as [|last acc]; intros Hval Hr Hle; simpl.
  - rewrite Exists_cons, Exists_nil. tauto.
  - inv Hval. unfold valid_range, start_le in *.
    destruct (Z.ltb_spec (end_ last + 1) (start r)); rewrite !Exists_cons; [tauto|].
    unfold in_range. simpl. split; [|intros [[?|?]|?]; auto; left; lia].
    intros [[? ?]|?]; [|auto]. lia.
Qed.

Lemma merge_fold_spec l : forall acc,
  merge_inv acc l -> Forall valid_range l -> StronglySorted start_le l ->
  merge_inv (fold_left merge_step l acc) [] /\
  forall c, covers (fold_left merge_step l acc) c <-> covers acc c \/ covers l c.
Proof.
  induction l as [|r l IH]; intros acc Hinv Hval Hsort; simpl.
  - split; [done|]. intros c. unfold covers. rewrite Exists_nil. tauto.
  - inv Hval. pose proof Hsort as Hsort'. inv Hsort'.
    destruct (IH (merge_step acc r)) as [Hi Hc]; auto using merge_step_inv.
    split; [done|]. intros c. rewrite Hc, merge_step_covers; auto.
    + unfold covers. rewrite Exists_cons. tauto.
    + apply Hinv.
    + destruct Hinv as [_ _ Hn]. destruct acc; [done|]. by inv Hn.
Qed.

Lemma StronglySorted_reverse {A} (R S : A -> A -> Prop) l :
  (forall a b, R a b -> S b a) -> StronglySorted R l -> StronglySorted S (reverse l).
Proof.
  intros HRS. induction 1 as [|x l Hs IH Hx]; [constructor|].
  rewrite reverse_cons. clear Hs. apply Forall_reverse in Hx. revert IH Hx.
  generalize (reverse l). intros k Hk Hx. induction Hk as [|y k Hk IH Hy]; simpl.
  - repeat constructor.
  - inv Hx. constructor; [auto|]. apply Forall_app. split; [done|]. repeat constructor. auto.
Qed.

Lemma mergeRanges_spec rs :
  Forall valid_range rs ->
  separated (mergeRanges rs) /\ Forall valid_range (mergeRanges rs) /\
  forall c, covers (mergeRanges rs) c <-> covers rs c.
Proof.
  intros Hval. destruct rs as [|r rs]; [by repeat constructor|].
  set (l := r :: rs) in *. change (mergeRanges l) with (reverse (fold_left merge_step (sort_ranges l) [])).
  destruct (merge_fold_spec (sort_ranges l) []) as [[Hsep Hv _] Hc].
  - by repeat constructor.
  - by rewrite sort_ranges_perm.
  - apply sort_ranges_sorted.
  - split_and!.
    + eapply StronglySorted_reverse; [|done]. done.
    + by apply Forall_reverse.
    + intros c. transitivity (covers (fold_left merge_step (sort_ranges l) []) c).
      { unfold covers. by rewrite Exists_reverse || (rewrite !Exists_exists;
          split; intros (x & Hx & ?); exists x; (split; [|done]);
          revert Hx; rewrite elem_of_reverse). }
      rewrite Hc. unfold covers. rewrite Exists_nil, sort_ranges_perm. tauto.
Qed.

(** ** The whole parser *)

Lemma classify_spec segs good bad :
  classify segs = (good, bad) ->
  Forall valid_range good /\
  (forall r, r ∈ good <-> exists seg, seg ∈ segs /\ parseToken seg = Some r) /\
  bad = filter (fun seg => parseToken seg = None) segs.
Proof.
  revert good bad. induction segs as [|seg segs IH]; intros good bad; simpl.
  - intros [= <- <-]. split_and!; [constructor| |done]. intros r. set_solver.
  - destruct (classify segs) as [g b]. destruct (IH g b eq_refl) as (IH1 & IH2 & IH3).
    destruct (parseToken seg) as [x|] eqn:E; intros [= <- <-].
    + split_and!.
      * constructor; [by eapply parseToken_valid|done].
      * intros r. rewrite elem_of_cons, IH2. set_solver.
      * by rewrite filter_cons_False by congruence.
    + split_and!; [done| |].
      * intros r. rewrite IH2. set_solver.
      * rewrite filter_cons_True by done. by f_equal.
Qed.

(** The codes an input names, token by token. *)
Definition token_covers (input : option (list N)) (c : Z) : Prop :=
  exists seg r, seg ∈ rule_segments (trim (default [] input)) /\
    parseToken seg = Some r /\ in_range c r.

Lemma rule_segments_nil : rule_segments [] = [].
Proof. reflexivity. Qed.

Lemma separated_sort rs : separated rs -> Forall valid_range rs -> sort_ranges rs = rs.
Proof.
  induction 1 as [|r rs Hs IH Hr]; intros Hv; [done|]. simpl.
  apply Forall_cons in Hv as [Hvr Hv]. rewrite IH by done.
  destruct rs as [|x rs]; [done|]. simpl. apply Forall_cons in Hr as [Hx _].
  assert (range_leb r x = true) as ->; [|done].
  apply Forall_cons in Hv as [Hvx _]. unfold range_leb, valid_range in *.
  case_match; breflect; [apply Z.leb_le; lia|apply Z.ltb_lt; lia].
Qed.

Lemma merge_fold_separated rs acc :
  separated rs ->
  (match acc, rs with last :: _, r :: _ => (end_ last + 1 < start r)%Z | _, _ => True end) ->
  fold_left merge_step rs acc = reverse rs ++ acc.
Proof.
  intros Hs. revert acc. induction Hs as [|r rs Hs IH Hr]; intros acc Hacc; [done|].
  simpl. assert (merge_step acc r = r :: acc) as ->.
  { destruct acc as [|last acc]; [done|]. simpl. by rewrite (proj2 (Z.ltb_lt _ _)). }
  rewrite IH; [by rewrite reverse_cons, <- app_assoc|]. by destruct Hr.
Qed.

Lemma mergeRanges_separated rs : separated rs -> Forall valid_range rs -> mergeRanges rs = rs.
Proof.
  intros Hs Hv. destruct rs as [|r rs]; [done|]. unfold mergeRanges.
  rewrite separated_sort by done. rewrite merge_fold_separated by done.
  by rewrite app_nil_r, reverse_involutive.
Qed.

Lemma token_char_plain c : token_char c = true -> c <> 65292%N /\ c <> ch ",".
Proof.
  intros [H|H]%orb_true_iff.
  - apply is_digit_spec in H. unfold ch. simpl. lia.
  - apply N.eqb_eq in H. subst. done.
Qed.

Lemma join_chars (P : N -> Prop) sep ws :
  Forall P sep -> Forall (Forall P) ws -> Forall P (join sep ws).
Proof.
  intros Hsep. induction 1 as [|w ws Hw Hws IH]; [constructor|].
  destruct (decide (ws = [])) as [->|Hne]; [done|].
  rewrite join_cons by done. by repeat (apply Forall_app; split).
Qed.

Lemma map_trim_id ws : Forall trimmed ws -> trim <$> ws = ws.
Proof.
  induction 1 as [|w ws Hw _ IH]; [done|]. rewrite fmap_cons, IH. by rewrite trim_trimmed.
Qed.

(** The printed tokens are the segments the parser finds again. *)
Lemma rule_segments_tokens rs :
  rs <> [] -> rule_segments (trim (join (js ",") (range_token <$> rs))) = range_token <$> rs.
Proof.
  intros Hne. set (ws := range_token <$> rs).
  assert (Forall (Forall (fun c => token_char c = true)) ws) as Hch.
  { apply Forall_fmap, Forall_true. intros r. apply range_token_chars. }
  assert (Forall (fun c => token_char c = true \/ c = ch ",") (join (js ",") ws)) as Hj.
  { apply join_chars; [by repeat constructor; right|].
    eapply Forall_impl; [exact Hch|]. intros w Hw. eapply Forall_impl; [exact Hw|]. auto. }
  rewrite trim_trimmed; last first.
  { apply no_space_trimmed. eapply Forall_impl; [exact Hj|].
    intros c [Hc| ->]; [by apply token_char_not_space|done]. }
  unfold rule_segments.
  assert (sanitize (join (js ",") ws) = join (js ",") ws) as ->.
  { unfold sanitize. rewrite <- (list_fmap_id (join (js ",") ws)) at 2.
    apply Forall_fmap_ext_1. eapply Forall_impl; [exact Hj|]. intros c Hc. simpl.
    assert (c <> 65292%N) as Hn by (destruct Hc as [Hc| ->]; [apply token_char_plain in Hc; tauto|done]).
    by apply N.eqb_neq in Hn as ->. }
  change (js ",") with [ch ","]. rewrite split_on_join.
  - rewrite map_trim_id.
    + apply filter_all_true, Forall_fmap, Forall_true. apply range_token_nonempty.
    + eapply Forall_impl; [exact Hch|]. intros w Hw. apply no_space_trimmed.
      eapply Forall_impl; [exact Hw|]. apply token_char_not_space.
  - unfold ws. by destruct rs.
  - eapply Forall_impl; [exact Hch|]. intros w Hw Hin. rewrite Forall_forall in Hw.
    apply Hw, token_char_plain in Hin. tauto.
Qed.

Lemma classify_tokens rs : Forall valid_range rs -> classify (range_token <$> rs) = (rs, []).
Proof.
  induction 1 as [|r rs Hr _ IH]; [done|]. rewrite fmap_cons. cbn [classify].
  by rewrite IH, parseToken_range_token.
Qed.

Lemma join_tokens_nonempty rs :
  rs <> [] -> nonempty (trim (join (js ",") (range_token <$> rs))) = true.
Proof.
  intros Hne. destruct (trim _) eqn:E; [|done].
  pose proof (rule_segments_tokens rs Hne) as H. rewrite E in H.
  by destruct rs.
Qed.

(** The result on accepted input: the merge of the ranges the tokens name. *)
Lemma parse_cases input :
  let r := parseHttpStatusCodeRules input in
  let segs := rule_segments (trim (default [] input)) in
  let good := (classify segs).1 in
  (ok r = true /\ (classify segs).2 = [] /\
   r = mkParsed true (mergeRanges good) (range_token <$> mergeRanges good)
         (join (js ",") (range_token <$> mergeRanges good)) []) \/
  (ok r = false /\ (classify segs).2 <> [] /\
   r = mkParsed false [] [] (trim (default [] input)) (classify segs).2).
Proof.
  simpl. unfold parseHttpStatusCodeRules.
  destruct (trim (default [] input)) as [|c s] eqn:E; [left; by vm_compute|].
  simpl negb. cbv iota. destruct (classify _) as [good [|b bad]]; simpl; [left|right]; auto.
Qed.

Lemma parse_ranges_wf input :
  let r := parseHttpStatusCodeRules input in
  separated (ranges r) /\ Forall valid_range (ranges r).
Proof.
  simpl. destruct (parse_cases input) as [(_ & _ & Hr)|(_ & _ & Hr)]; rewrite Hr; simpl.
  - destruct (classify _) as [good bad] eqn:E. simpl.
    destruct (classify_spec _ _ _ E) as (Hv & _). destruct (mergeRanges_spec good Hv). tauto.
  - split; constructor.
Qed.

(** Whatever the input, the ranges the parser returns are valid status
    code ranges (between 100 and 599), sorted, pairwise disjoint and not even
    adjacent; on accepted input a code is matched by them exactly when one of
    the tokens the administrator typed names it. *)
Theorem parse_ranges_normal_form input :
  let r := parseHttpStatusCodeRules input in
  separated (ranges r) /\ Forall valid_range (ranges r) /\
  (ok r = true -> forall c, covers (ranges r) c <-> token_covers input c).
Proof.
  destruct (parse_ranges_wf input) as [Hs Hv]. split_and!; [done..|]. intros Hok c.
  destruct (parse_cases input) as [(_ & _ & ->)|(Hf & _)]; [|congruence]. simpl.
  destruct (classify _) as [good bad] eqn:E. simpl.
  destruct (classify_spec _ _ _ E) as (Hg & Hin & _).
  destruct (mergeRanges_spec good Hg) as (_ & _ & Hc). rewrite Hc. unfold covers, token_covers.
  rewrite Exists_exists. setoid_rewrite Hin. naive_solver.
Qed.

(** Normalization is a fixed point: parsing the normalized rule string of
    an accepted input gives the same result (same ranges, same tokens, same
    normalized string). *)
Theorem parse_normalized_roundtrip input :
  ok (parseHttpStatusCodeRules input) = true ->
  parseHttpStatusCodeRules (Some (normalized (parseHttpStatusCodeRules input))) =
  parseHttpStatusCodeRules input.
Proof.
  intros Hok. destruct (parse_cases input) as [(_ & _ & Hr)|(Hf & _)]; [|congruence].
  pose proof (parse_ranges_wf input) as [Hs Hv]. rewrite Hr in *. simpl in *.
  set (rs := mergeRanges _) in *. clearbody rs.
  destruct (decide (rs = [])) as [->|Hne]; [done|].
  unfold parseHttpStatusCodeRules. simpl default.
  rewrite join_tokens_nonempty, rule_segments_tokens, classify_tokens by done.
  simpl. by rewrite mergeRanges_separated.
Qed.

Lemma parse_normalized_roundtrip_witness :
  parseHttpStatusCodeRules (Some (normalized
    (parseHttpStatusCodeRules (Some (js " 500-502, 401,503 ,400 "))))) =
  parseHttpStatusCodeRules (Some (js " 500-502, 401,503 ,400 ")) /\
  normalized (parseHttpStatusCodeRules (Some (js " 500-502, 401,503 ,400 "))) = js "400-401,500-503".
Proof. split; [apply parse_normalized_roundtrip|]; vm_compute; reflexivity. Defined.

(** C39: one bad token rejects the input, and nothing else does.  The input is accepted
    exactly when each of its segments names a code or a range of codes between 100 and 599,
    white space and what follows a second dash apart; a refused input reports exactly the
    segments that name none, in their order, returns no range and is kept for display; an
    accepted one gives sorted, separated ranges that cover exactly the codes named. *)
Theorem parse_rejects_bad_tokens input :
  let r := parseHttpStatusCodeRules input in
  let segments := rule_segments (trim (default [] input)) in
  (ok r = true <-> Forall (fun seg => exists a b, names seg a b) segments) /\
  (forall seg, seg ∈ invalidTokens r <-> seg ∈ segments /\ ~ exists a b, names seg a b) /\
  invalidTokens r `sublist_of` segments /\
  (ok r = true -> separated (ranges r) /\ Forall valid_range (ranges r) /\
     forall c, covers (ranges r) c <-> exists seg a b, seg ∈ segments /\ names seg a b /\ (a <= c <= b)%Z) /\
  (ok r = false -> ranges r = [] /\ tokens r = [] /\ normalized r = trim (default [] input)).
Proof.
  cbv zeta. set (segs := rule_segments (trim (default [] input))).
  destruct (classify segs) as [good bad] eqn:E. destruct (classify_spec _ _ _ E) as (_ & _ & Hbad).
  destruct (parse_ranges_normal_form input) as (Hs & Hv & Hcov).
  pose proof (parse_cases input) as Hc. cbv zeta in Hc. fold segs in Hc. rewrite E in Hc. cbn [fst snd] in Hc.
  assert (forall seg, seg ∈ bad <-> seg ∈ segs /\ ~ exists a b, names seg a b) as Hin.
  { intros seg. rewrite Hbad, list_elem_of_filter, parseToken_refuses. tauto. }
  assert (bad = [] <-> Forall (fun seg => exists a b, names seg a b) segs) as Hall.
  { rewrite Forall_forall. split.
    - intros Hb seg Hseg. destruct (parseToken seg) as [[a b]|] eqn:Ep; [exists a, b; by apply parseToken_names|].
      apply parseToken_refuses in Ep. assert (seg ∈ bad) as Hx by (by apply Hin). rewrite Hb in Hx. by apply elem_of_nil in Hx.
    - intros H. destruct bad as [|seg bad]; [done|]. destruct (proj1 (Hin seg) (list_elem_of_here _ _)) as [Hseg Hno]. by destruct Hno; apply H. }
  assert (bad `sublist_of` segs) as Hsub by (rewrite Hbad; apply sublist_filter).
  assert (ok (parseHttpStatusCodeRules input) = true -> forall c, covers (ranges (parseHttpStatusCodeRules input)) c <->
    exists seg a b, seg ∈ segs /\ names seg a b /\ (a <= c <= b)%Z) as Hnamed.
  { intros Hok c. rewrite (Hcov Hok). unfold token_covers. fold segs. split.
    - intros (seg & [a b] & H1 & H2 & H3). exists seg, a, b. split_and!; [done|by apply parseToken_names|apply H3..].
    - intros (seg & a & b & H1 & H2 & H3). exists seg, (mkRange a b). split_and!; [done|by apply parseToken_names|done]. }
  assert (invalidTokens (parseHttpStatusCodeRules input) = bad) as Einv by (destruct Hc as [(_ & -> & ->)|(_ & _ & ->)]; done).
  rewrite Einv. destruct Hc as [(H1 & H2 & _)|(H1 & H2 & H3)]; rewrite H1.
  - split; [rewrite <- Hall, H2; done|]. split; [exact Hin|]. split; [exact Hsub|]. split; [auto|done].
  - split; [rewrite <- Hall; naive_solver|]. split; [exact Hin|]. split; [exact Hsub|]. split; [done|]. by rewrite H3.
Qed.
