(* ===== verification/BillingLexer.v ===== *)
(** * Billing expressions: the tokenizer (src/apps/web/src/features/pricing/lib/billing-expr.ts)

    String literals and their decoding, numeric literals, identifiers and
    operators, with the length and token limits of the security boundary. *)
From S2P Require Import Prelude JsString JsNumber.
From Stdlib Require Import Lia Wf_nat.

Definition MAX_EXPR_LENGTH : nat := Eval vm_compute in Z.to_nat 16384.
Definition MAX_EXPR_TOKENS : nat := Eval vm_compute in Z.to_nat 2048.
Definition MAX_EXPR_DEPTH : nat := 64.
Definition MAX_CALL_ARGUMENTS : nat := 16.
Definition MAX_EVAL_STEPS : nat := Eval vm_compute in Z.to_nat 4096.

Inductive ExprValue := VNum (n : spec_float) | VStr (s : list N) | VBool (b : bool).

Inductive TokenKind := KNumber | KString | KIdentifier | KOperator | KEof.

#[export] Instance TokenKind_eq_dec : EqDecision TokenKind.
Proof. solve_decision. Defined.

Record ExprToken := mkToken {
  tok_kind : TokenKind;
  tok_text : list N;
  tok_value : option ExprValue }.

(** ** Character tests *)

Definition isIdentifierStart (c : N) : bool :=
  ((97 <=? c) && (c <=? 122) || (65 <=? c) && (c <=? 90) || (c =? 95))%N.

Definition isIdentifierPart (c : N) : bool := isIdentifierStart c || is_digit c.

Definition hexValue (c : N) : option N :=
  (if (48 <=? c) && (c <=? 57) then Some (c - 48)
   else if (97 <=? c) && (c <=? 102) then Some (c - 87)
   else if (65 <=? c) && (c <=? 70) then Some (c - 55)
   else None)%N.

(** ** String literals *)

Definition simpleEscapes (c : N) : option N :=
  (if c =? 34 then Some 34
   else if c =? 92 then Some 92
   else if c =? 47 then Some 47
   else if c =? 98 then Some 8
   else if c =? 102 then Some 12
   else if c =? 110 then Some 10
   else if c =? 114 then Some 13
   else if c =? 116 then Some 9
   else None)%N.

(** The [\uXXXX] escape: four hexadecimal digits to a code unit. *)
Definition unicodeEscape (h1 h2 h3 h4 : N) : option N :=
  match hexValue h1, hexValue h2, hexValue h3, hexValue h4 with
  | Some a, Some b, Some c, Some d => Some (((a * 16 + b) * 16 + c) * 16 + d)%N
  | _, _, _, _ => None
  end.

(** The loop of [decodeStringLiteral]; [r] is the text from [index] on, and the
    last unit of the text (the closing quote) is never decoded by itself. *)
Fixpoint decode_loop (r : list N) : res (list N) :=
  match r with
  | [] | [_] => Ok []
  | c :: r1 =>
      if negb (c =? 92)%N then
        if (c <? 32)%N then throw "control character in string literal"
        else let* d := decode_loop r1 in Ok (c :: d)
      else
        match r1 with
        | [] => Throw TypeError
        | e :: r2 =>
            match simpleEscapes e with
            | Some x => let* d := decode_loop r2 in Ok (x :: d)
            | None =>
                if negb (e =? 117)%N || (length r1 <=? 4)%nat
                then throw "invalid string escape"
                else
                  match r2 with
                  | h1 :: h2 :: h3 :: h4 :: r3 =>
                      match unicodeEscape h1 h2 h3 h4 with
                      | None => throw "invalid unicode escape"
                      | Some u => let* d := decode_loop r3 in Ok (u :: d)
                      end
                  | _ => Throw TypeError
                  end
            end
        end
  end.

Definition decodeStringLiteral (text : list N) : res (list N) := decode_loop (tail text).

Definition tryDecodeStringLiteral (text : list N) : option (list N) :=
  match decodeStringLiteral text with Ok s => Some s | Throw _ => None end.

(** The scan from an opening quote to the closing one: the units consumed
    (closing quote included) and what follows; [None] when unterminated. *)
Fixpoint scan_string (escaped : bool) (s : list N) : option (list N * list N) :=
  match s with
  | [] => None
  | c :: s' =>
      if escaped then prod_map (cons c) id <$> scan_string false s'
      else if (c =? 92)%N then prod_map (cons c) id <$> scan_string true s'
      else if (c =? 34)%N then Some ([c], s')
      else prod_map (cons c) id <$> scan_string false s'
  end.

(** ** Numeric literals *)

(** An optional fraction: its digits, its text and what follows. *)
Definition scan_fraction (s : list N) : list N * list N * list N :=
  match s with
  | c :: r => if (c =? 46)%N
              then let '(f, r') := span is_digit r in (f, c :: f, r')
              else ([], [], s)
  | [] => ([], [], [])
  end.

(** The optional sign of an exponent: its text, whether it is [-], what follows. *)
Definition scan_sign (s : list N) : list N * bool * list N :=
  match s with
  | d :: r => if (d =? 43)%N then ([d], false, r)
              else if (d =? 45)%N then ([d], true, r)
              else ([], false, s)
  | [] => ([], false, [])
  end.

(** An optional exponent: its text, its value and what follows. *)
Definition scan_exponent (s : list N) : res (list N * Z * list N) :=
  match s with
  | c :: r =>
      if (c =? 101)%N || (c =? 69)%N then
        let '(sign, neg, r1) := scan_sign r in
        let '(x, r2) := span is_digit r1 in
        match x with
        | [] => throw "invalid numeric exponent"
        | _ => Ok (c :: sign ++ x, signed_exponent neg x, r2)
        end
      else Ok ([], 0%Z, s)
  | [] => Ok ([], 0%Z, [])
  end.

(** Digits, an optional fraction, an optional exponent: the text consumed, its
    value and what follows. *)
Definition scan_number (s : list N) : res (list N * spec_float * list N) :=
  let '(i, r1) := span is_digit s in
  let '(frac, frac_text, r2) := scan_fraction r1 in
  let* (exp_text, x, r3) := scan_exponent r2 in
  Ok (i ++ frac_text ++ exp_text, num_of_literal i frac x, r3).

(** ** The tokenizer *)

Definition pair_operators : list (list N) :=
  js <$> ["&&"; "||"; "=="; "!="; "<="; ">="]%string.

Definition single_operators : list N := js "+-*/%<>!?:(),".

Definition is_blank (c : N) : bool := ((c =? 32) || (c =? 9) || (c =? 10) || (c =? 13))%N.

Definition starts_number (c : N) (rest : list N) : bool :=
  is_digit c ||
  ((c =? 46)%N && match rest with d :: _ => is_digit d | [] => false end).

(** [push]: the limit is checked after the token is added. *)
Definition push_check (count : nat) : res unit :=
  if (MAX_EXPR_TOKENS <? S count)%nat then throw "expression has too many tokens"
  else Ok tt.

(** The next token of a non-blank input and what follows it; [index] is its
    position, for the error message. *)
Definition next_token (index : nat) (c : N) (rest : list N) : res (ExprToken * list N) :=
  if starts_number c rest then
    let* (text, value, r) := scan_number (c :: rest) in
    if negb (is_finite value) then throw "numeric literal is not finite"
    else Ok (mkToken KNumber text (Some (VNum value)), r)
  else if (c =? 34)%N then
    match scan_string false rest with
    | None => throw "unterminated string literal"
    | Some (body, r) =>
        let* d := decodeStringLiteral (c :: body) in
        Ok (mkToken KString (c :: body) (Some (VStr d)), r)
    end
  else if isIdentifierStart c then
    let '(a, r) := span isIdentifierPart rest in
    Ok (mkToken KIdentifier (c :: a) None, r)
  else if bool_decide (firstn 2 (c :: rest) ∈ pair_operators) then
    Ok (mkToken KOperator (firstn 2 (c :: rest)) None, tail rest)
  else if bool_decide (c ∈ single_operators) then
    Ok (mkToken KOperator [c] None, rest)
  else Throw (Error (js "unsupported expression character at " ++ dec_string (N.of_nat index))).

(** The loop: [count] tokens were pushed before, [s] is the source from [index]
    on, [total] its whole length. *)
Fixpoint tokenize_loop (fuel total count : nat) (s : list N) : res (list ExprToken) :=
  match fuel with
  | O => Throw Fuel
  | S f =>
      match s with
      | [] => Ok [mkToken KEof [] None]
      | c :: rest =>
          if is_blank c then tokenize_loop f total count rest
          else
            let* (t, r) := next_token (total - length s) c rest in
            let* _ := push_check count in
            let* ts := tokenize_loop f total (S count) r in
            Ok (t :: ts)
      end
  end.

Definition tokenizeExpr (source : list N) : res (list ExprToken) :=
  if (MAX_EXPR_LENGTH <? length source)%nat then throw "expression is too long"
  else tokenize_loop (S (length source)) (length source) 0 source.

(** ** String literals: what [JSON.stringify] writes is decoded back *)

Lemma hexValue_hex_char d : (d < 16)%N -> hexValue (hex_char d) = Some d.
Proof.
  intros H. unfold hex_char, hexValue.
  destruct (N.ltb_spec d 10).
  - rewrite (proj2 (N.leb_le 48 (48 + d))), (proj2 (N.leb_le (48 + d) 57)) by lia.
    simpl. f_equal. lia.
  - rewrite (proj2 (N.leb_le 48 (87 + d))), (proj2 (N.leb_gt (87 + d) 57)) by lia.
    rewrite (proj2 (N.leb_le 97 (87 + d))), (proj2 (N.leb_le (87 + d) 102)) by lia.
    simpl. f_equal. lia.
Qed.

Lemma hex4_value c : (c < 65536)%N ->
  ((((c / 4096 mod 16) * 16 + c / 256 mod 16) * 16 + c / 16 mod 16) * 16 + c mod 16 = c)%N.
Proof.
  intros Hc.
  assert (c / 256 = c / 16 / 16)%N as -> by by rewrite N.Div0.div_div.
  assert (c / 4096 = c / 16 / 16 / 16)%N as -> by by rewrite !N.Div0.div_div.
  pose proof (N.div_mod c 16 ltac:(done)) as H1.
  pose proof (N.div_mod (c / 16) 16 ltac:(done)) as H2.
  pose proof (N.div_mod (c / 16 / 16) 16 ltac:(done)) as H3.
  assert (c / 16 / 16 / 16 < 16)%N as H4.
  { rewrite !N.Div0.div_div. apply N.Div0.div_lt_upper_bound. lia. }
  rewrite (N.mod_small (c / 16 / 16 / 16)) by done.
  clear Hc H4. revert H1 H2 H3.
  generalize (c mod 16)%N ((c / 16) mod 16)%N ((c / 16 / 16) mod 16)%N.
  generalize (c / 16 / 16 / 16)%N. generalize (c / 16 / 16)%N. generalize (c / 16)%N.
  intros. subst. lia.
Qed.

Lemma unicodeEscape_hex4 c : (c < 65536)%N ->
  unicodeEscape (hex_char (c / 4096 mod 16)) (hex_char (c / 256 mod 16))
    (hex_char (c / 16 mod 16)) (hex_char (c mod 16)) = Some c.
Proof.
  intros Hc. unfold unicodeEscape.
  rewrite !hexValue_hex_char by by apply N.mod_upper_bound.
  by rewrite hex4_value.
Qed.

Lemma decode_loop_raw c r :
  r <> [] -> (32 <= c)%N -> c <> 92%N ->
  decode_loop (c :: r) = (let* d := decode_loop r in Ok (c :: d)).
Proof.
  intros Hr Hc Hb. destruct r as [|d r]; [done|]. cbn [decode_loop].
  by rewrite (proj2 (N.eqb_neq _ _) Hb), (proj2 (N.ltb_ge _ _) Hc).
Qed.

Lemma decode_loop_escape e x r :
  simpleEscapes e = Some x ->
  decode_loop (92%N :: e :: r) = (let* d := decode_loop r in Ok (x :: d)).
Proof. intros He. cbn [decode_loop]. simpl negb. cbv iota. by rewrite He. Qed.

Lemma decode_loop_unicode c r :
  (c < 65536)%N ->
  decode_loop (([92; 117]%N ++ hex4 c) ++ r) = (let* d := decode_loop r in Ok (c :: d)).
Proof.
  intros Hc. unfold hex4. cbn [app]. cbn [decode_loop]. simpl negb. cbv iota.
  change (simpleEscapes 117) with (@None N). cbv iota.
  by rewrite unicodeEscape_hex4 by done.
Qed.

Lemma decode_loop_unit c r :
  r <> [] -> (c < 65536)%N ->
  decode_loop (json_quote_unit c ++ r) = (let* d := decode_loop r in Ok (c :: d)).
Proof.
  intros Hr Hc. unfold json_quote_unit.
  repeat match goal with |- context [(c =? ?k)%N] =>
    destruct (N.eqb_spec c k) as [->|]; [by apply decode_loop_escape|] end.
  destruct ((c <? 32)%N || is_high_surrogate c || is_low_surrogate c) eqn:E.
  - by apply decode_loop_unicode.
  - breflect. by apply decode_loop_raw.
Qed.

Lemma surrogate_plain c :
  is_high_surrogate c = true \/ is_low_surrogate c = true ->
  (32 <= c)%N /\ c <> 92%N /\ c <> 34%N.
Proof. unfold is_high_surrogate, is_low_surrogate. intros [H|H]; breflect; lia. Qed.

Lemma decode_json_units s r :
  units s -> r <> [] ->
  decode_loop (json_quote_units s ++ r) = (let* d := decode_loop r in Ok (s ++ d)).
Proof.
  intros Hs Hr. revert Hs. induction s as [s IH] using (induction_ltof1 _ (@length N)). unfold ltof in IH.
  intros Hs. destruct s as [|c s]; [simpl; by destruct (decode_loop r)|].
  apply Forall_cons in Hs as [Hc Hs].
  assert (forall q : res (list N), res_bind (res_bind q (fun d => Ok (s ++ d))) (fun d => Ok (c :: d))
    = res_bind q (fun d => Ok ((c :: s) ++ d))) as Hb by by intros [].
  assert (json_quote_units s ++ r <> []) as Hne.
  { by intros [_ ?]%app_eq_nil. }
  assert (decode_loop ((json_quote_unit c ++ json_quote_units s) ++ r) =
          res_bind (decode_loop r) (fun d => Ok ((c :: s) ++ d))) as Hplain.
  { rewrite <- app_assoc, decode_loop_unit by done. rewrite IH by (done || simpl; lia). apply Hb. }
  cbn [json_quote_units]. destruct s as [|d s]; [done|].
  destruct (is_high_surrogate c && is_low_surrogate d) eqn:E; [|done].
  apply andb_true_iff in E as [E1 E2]. apply Forall_cons in Hs as [Hd Hs].
  destruct (surrogate_plain c) as (? & ? & ?); [by left|].
  destruct (surrogate_plain d) as (? & ? & ?); [by right|].
  cbn [app]. rewrite decode_loop_raw by done. rewrite decode_loop_raw; [|by intros [_ ?]%app_eq_nil|done..].
  rewrite IH by (done || simpl; lia). by destruct (decode_loop r).
Qed.

Lemma decode_json_string s : units s -> decodeStringLiteral (json_string s) = Ok s.
Proof.
  intros Hs. unfold decodeStringLiteral, json_string. simpl tail.
  rewrite decode_json_units by done. simpl. by rewrite app_nil_r.
Qed.

(** A prefix the string scanner walks over without leaving the literal. *)
Definition scans (w : list N) : Prop := forall r,
  scan_string false (w ++ r) = prod_map (app w) id <$> scan_string false r.

Lemma scans_nil : scans [].
Proof. intros r. simpl. by destruct (scan_string false r) as [[]|]. Qed.

Lemma scans_app a b : scans a -> scans b -> scans (a ++ b).
Proof.
  intros Ha Hb r. rewrite <- app_assoc, Ha, Hb.
  destruct (scan_string false r) as [[x y]|]; simpl; [|done]. by rewrite app_assoc.
Qed.

Lemma scans_plain c : c <> 92%N -> c <> 34%N -> scans [c].
Proof.
  intros H1 H2 r. simpl. by rewrite (proj2 (N.eqb_neq _ _) H1), (proj2 (N.eqb_neq _ _) H2).
Qed.

Lemma scans_escape e : scans [92%N; e].
Proof. intros r. simpl. by destruct (scan_string false r) as [[]|]. Qed.

Lemma hex_char_plain d : (d < 16)%N -> hex_char d <> 92%N /\ hex_char d <> 34%N.
Proof. unfold hex_char. intros. destruct (N.ltb_spec d 10); lia. Qed.

Lemma scans_hex4 c : scans (hex4 c).
Proof.
  unfold hex4.
  assert (forall x, (x < 16)%N -> scans [hex_char x]) as H.
  { intros x Hx. destruct (hex_char_plain x Hx). by apply scans_plain. }
  assert (forall n, (n mod 16 < 16)%N) as Hm by (intros; by apply N.mod_upper_bound).
  repeat match goal with |- scans (?a :: ?l) =>
    change (a :: l) with ([a] ++ l); apply scans_app; [by apply H, Hm|] end.
  apply scans_nil.
Qed.

Lemma scans_unit c : scans (json_quote_unit c).
Proof.
  unfold json_quote_unit.
  repeat match goal with |- context [(c =? ?k)%N] =>
    destruct (N.eqb_spec c k) as [->|]; [apply scans_escape|] end.
  case_match; [|by apply scans_plain].
  apply scans_app; [apply scans_escape|apply scans_hex4].
Qed.

Lemma scans_json_units s : scans (json_quote_units s).
Proof.
  induction s as [s IH] using (induction_ltof1 _ (@length N)). unfold ltof in IH.
  destruct s as [|c s]; [apply scans_nil|].
  assert (scans (json_quote_unit c ++ json_quote_units s)) as Hplain.
  { apply scans_app; [apply scans_unit|]. apply IH. simpl. lia. }
  cbn [json_quote_units]. destruct s as [|d s]; [done|]. case_match eqn:E; [|done].
  apply andb_true_iff in E as [E1 E2].
  destruct (surrogate_plain c) as (? & ? & ?); [by left|].
  destruct (surrogate_plain d) as (? & ? & ?); [by right|].
  change (c :: d :: json_quote_units s) with ([c] ++ [d] ++ json_quote_units s).
  repeat apply scans_app; [by apply scans_plain..|]. apply IH. simpl. lia.
Qed.

Lemma next_token_json index s rest :
  units s ->
  next_token index 34 (json_quote_units s ++ 34%N :: rest) =
  Ok (mkToken KString (json_string s) (Some (VStr s)), rest).
Proof.
  intros Hs. unfold next_token. simpl starts_number. cbv iota. simpl (_ =? _)%N. cbv iota.
  rewrite scans_json_units. simpl.
  change (34%N :: json_quote_units s ++ [34%N]) with (json_string s).
  by rewrite decode_json_string.
Qed.

(** ** Tokens are well formed *)

Definition operator_texts : list (list N) := pair_operators ++ ((fun c => [c]) <$> single_operators).

(** A letter of ASCII or the underscore, and a word: a letter followed by letters and
    decimal digits. *)
Definition letter (c : N) : Prop := (97 <= c <= 122 \/ 65 <= c <= 90 \/ c = 95)%N.

Definition plain_word (w : list N) : Prop :=
  exists c r, w = c :: r /\ letter c /\ Forall (fun d => letter d \/ (48 <= d <= 57)%N) r.

Lemma isIdentifierStart_letter c : isIdentifierStart c = true <-> letter c.
Proof.
  unfold isIdentifierStart, letter. rewrite !orb_true_iff, !andb_true_iff, !N.leb_le, N.eqb_eq. lia.
Qed.

Lemma span_word c rest : isIdentifierStart c = true -> plain_word (c :: (span isIdentifierPart rest).1).
Proof.
  intros Hc. exists c, (span isIdentifierPart rest).1. split_and!; [done|by apply isIdentifierStart_letter|].
  eapply Forall_impl; [apply span_forall|]. intros d [Hd|Hd]%orb_true_iff; [left; by apply isIdentifierStart_letter|right; by apply is_digit_spec].
Qed.

Lemma plain_word_start w : plain_word w -> exists c r, w = c :: r /\ isIdentifierStart c = true.
Proof. intros (c & r & -> & Hc & _). exists c, r. split; [done|by apply isIdentifierStart_letter]. Qed.

(** What the tokenizer guarantees of a token: numbers are finite, identifiers are plain
    words, every kind can be told from the first unit of its text. *)
Definition wf_token (t : ExprToken) : Prop :=
  match tok_kind t with
  | KNumber => (exists n, tok_value t = Some (VNum n) /\ is_finite n = true) /\
               exists c r, tok_text t = c :: r /\ (is_digit c = true \/ c = 46%N)
  | KString => (exists s, tok_value t = Some (VStr s)) /\ exists r, tok_text t = 34%N :: r
  | KIdentifier => plain_word (tok_text t)
  | KOperator => tok_text t ∈ operator_texts
  | KEof => False
  end.

Lemma scan_fraction_eq s : s = (scan_fraction s).1.2 ++ (scan_fraction s).2.
Proof.
  destruct s as [|c r]; [done|]. simpl. case_match; [|done].
  pose proof (span_eq is_digit r) as Hr. destruct (span is_digit r). simpl in *. by subst.
Qed.

Lemma scan_exponent_eq s text x r : scan_exponent s = Ok (text, x, r) -> s = text ++ r.
Proof.
  destruct s as [|c s]; simpl; [by intros [= <- _ <-]|].
  case_match; [|by intros [= <- _ <-]].
  assert (s = (scan_sign s).1.1 ++ (scan_sign s).2) as Hs.
  { destruct s as [|d s]; [done|]. simpl. repeat case_match; done. }
  destruct (scan_sign s) as [[sg neg] r1]. pose proof (span_eq is_digit r1) as Hr1.
  destruct (span is_digit r1) as [[|d ds] r2]; [done|]. intros [= <- _ <-].
  simpl in *. by rewrite Hs, Hr1, <- app_assoc.
Qed.

Lemma scan_number_text c rest text v r :
  scan_number (c :: rest) = Ok (text, v, r) -> starts_number c rest = true ->
  c :: rest = text ++ r /\ exists q, text = c :: q.
Proof.
  intros H Hst. unfold scan_number in H.
  pose proof (span_eq is_digit (c :: rest)) as Hs.
  destruct (span is_digit (c :: rest)) as [i r1] eqn:Ei.
  pose proof (scan_fraction_eq r1) as Hf. destruct (scan_fraction r1) as [[f ft] r2] eqn:Ef.
  apply res_bind_Ok in H as ([[et x] r3] & He & [= <- <- <-]).
  apply scan_exponent_eq in He. simpl in *.
  assert (c :: rest = (i ++ ft ++ et) ++ r3) as Heq.
  { by rewrite Hs, Hf, He, <- !app_assoc. }
  split; [done|]. destruct (i ++ ft ++ et) as [|d q] eqn:Et; [|injection Heq as -> _; eauto].
  apply app_eq_nil in Et as [-> Et]. apply app_eq_nil in Et as [-> _]. exfalso.
  simpl in Hs. subst r1. unfold starts_number in Hst.
  simpl in Ei. destruct (is_digit c); [by destruct (span is_digit rest)|].
  simpl in Hst, Ef. breflect. subst. simpl in Ef. by destruct (span is_digit rest).
Qed.

Lemma scan_string_eq escaped s a r :
  scan_string escaped s = Some (a, r) -> s = a ++ r.
Proof.
  revert escaped a. induction s as [|c s IH]; intros escaped a H; [done|]. simpl in H.
  repeat case_match; simplify_eq; try done;
    match goal with H : _ <$> scan_string ?e s = Some _ |- _ =>
      destruct (scan_string e s) as [[x y]|] eqn:E; simplify_eq/=; by rewrite (IH _ _ E) end.
Qed.

Lemma decode_loop_js r : js_result (decode_loop r).
Proof.
  induction r as [r IH] using (induction_ltof1 _ (@length N)). unfold ltof in IH.
  destruct r as [|c [|e r]]; [done..|]. cbn [decode_loop].
  destruct (negb (c =? 92)%N).
  { case_match; [done|]. apply res_bind_js; [apply (IH (e :: r)); simpl; lia|done]. }
  destruct (simpleEscapes e).
  { apply res_bind_js; [apply IH; simpl; lia|done]. }
  destruct (_ || _) eqn:E; [done|]. apply orb_false_iff in E as [_ E]. apply Nat.leb_gt in E.
  destruct r as [|h1 [|h2 [|h3 [|h4 r]]]]; try (simpl in E; lia).
  case_match; [|done]. apply res_bind_js; [apply IH; simpl; lia|done].
Qed.

Lemma scan_number_js s : js_result (scan_number s).
Proof.
  unfold scan_number. destruct (span is_digit s) as [i r1].
  destruct (scan_fraction r1) as [[f ft] r2]. apply res_bind_js; [|by intros [[] ?]].
  destruct r2 as [|c r2]; [done|]. simpl. case_match; [|done].
  destruct (scan_sign r2) as [[]]. by destruct (span is_digit _) as [[|] ?].
Qed.

Lemma next_token_js index c rest : js_result (next_token index c rest).
Proof.
  unfold next_token. case_match.
  { apply res_bind_js; [apply scan_number_js|]. intros [[]] _. by case_match. }
  case_match.
  { destruct (scan_string false rest) as [[]|]; [|done].
    apply res_bind_js; [apply decode_loop_js|done]. }
  case_match; [by destruct (span _ _)|]. repeat case_match; done.
Qed.

Lemma operator_texts_single c : c ∈ single_operators -> [c] ∈ operator_texts.
Proof. intros H. apply elem_of_app. right. apply list_elem_of_fmap. eauto. Qed.

Lemma pair_operators_length o : o ∈ pair_operators -> exists a b, o = [a; b].
Proof.
  intros H. unfold pair_operators in H. simpl in H.
  repeat (apply elem_of_cons in H as [->|H]; [by do 2 eexists|]). by apply elem_of_nil in H.
Qed.

(** A token is well formed, and its text is exactly what was consumed. *)
Lemma next_token_spec index c rest t r :
  next_token index c rest = Ok (t, r) ->
  wf_token t /\ c :: rest = tok_text t ++ r /\ (length r <= length rest)%nat.
Proof.
  unfold next_token, wf_token. destruct (starts_number c rest) eqn:Est.
  { intros H. res_inv. case_match; [done|]. res_inv. simpl.
    destruct (scan_number_text _ _ _ _ _ H0 Est) as [Heq [q ->]]. breflect. split_and!; eauto.
    - eexists _, _. split; [done|]. unfold starts_number in Est.
      apply orb_true_iff in Est as [?|[? _]%andb_true_iff]; [auto|]. breflect. auto.
    - apply (f_equal length) in Heq. rewrite length_app in Heq. simpl in Heq. lia. }
  destruct (N.eqb_spec c 34) as [->|].
  { destruct (scan_string false rest) as [[body r']|] eqn:E; [|done]. intros H. res_inv. simpl.
    apply scan_string_eq in E. subst rest. split_and!; eauto. rewrite length_app. lia. }
  destruct (isIdentifierStart c) eqn:Ei.
  { pose proof (span_eq isIdentifierPart rest) as Hs. pose proof (span_word c rest Ei) as Hw.
    destruct (span isIdentifierPart rest) as [a r']. intros H. res_inv. simpl in *.
    split_and!; eauto. rewrite length_app. lia. }
  case_bool_decide as Hp.
  { intros H. res_inv. simpl. destruct (pair_operators_length _ Hp) as (a & b & Hab).
    destruct rest as [|d rest]; [done|]. simpl in Hab. simplify_eq. simpl. split_and!; [|done|lia].
    by apply elem_of_app; left. }
  case_bool_decide; [|done]. intros H'. res_inv. simpl.
  split_and!; [by apply operator_texts_single|done|lia].
Qed.

Definition eof_token : ExprToken := mkToken KEof [] None.

(** The loop stops within its fuel and yields well-formed tokens, within the
    limit, closed by the end-of-input token. *)
Lemma tokenize_loop_spec fuel total count s :
  (length s < fuel)%nat ->
  js_result (tokenize_loop fuel total count s) /\
  forall ts, tokenize_loop fuel total count s = Ok ts -> (count <= MAX_EXPR_TOKENS)%nat ->
    exists us, ts = us ++ [eof_token] /\ Forall wf_token us /\
               (count + length us <= MAX_EXPR_TOKENS)%nat.
Proof.
  revert count s. induction fuel as [|f IH]; intros count s Hf; [lia|].
  cbn [tokenize_loop]. destruct s as [|c rest].
  { split; [done|]. intros ts [= <-] Hc. exists []. split_and!; [done|constructor|simpl; lia]. }
  simpl in Hf. destruct (is_blank c); [apply IH; lia|]. split.
  - apply res_bind_js; [apply next_token_js|]. intros [t r] Ht. apply next_token_spec in Ht as (_ & _ & Hr).
    apply res_bind_js; [unfold push_check; by case_match|]. intros _ _.
    apply res_bind_js; [|done]. apply IH. lia.
  - intros ts H Hc. res_inv. apply next_token_spec in H0 as (Hwf & _ & Hr).
    unfold push_check in H1. case_match eqn:Hp; [done|]. apply Nat.ltb_ge in Hp.
    destruct (IH (S count) l) as [_ IH']; [lia|]. destruct (IH' _ H2) as (us & -> & Hus & Hlen); [lia|].
    exists (e :: us). split_and!; [done|by constructor|simpl; lia].
Qed.

Lemma tokenizeExpr_js s : js_result (tokenizeExpr s).
Proof. unfold tokenizeExpr. case_match; [done|]. apply tokenize_loop_spec. lia. Qed.

Lemma tokenizeExpr_spec s ts :
  tokenizeExpr s = Ok ts ->
  exists us, ts = us ++ [eof_token] /\ Forall wf_token us /\ (length us <= MAX_EXPR_TOKENS)%nat.
Proof.
  unfold tokenizeExpr. case_match; [done|]. intros H'.
  destruct (tokenize_loop_spec (S (length s)) (length s) 0 s) as [_ Hs]; [lia|].
  apply Hs; [done|lia].
Qed.
