(* ===== verification/JsJson.v ===== *)
(** * [JSON.parse] and [String(value)]

    The JSON grammar of ECMAScript on code-unit strings, and the conversion to
    string of the values it yields.  Recursion is bounded by the length of the
    text, since every nested value consumes at least one unit. *)
From S2P Require Import Prelude JsString JsNumber BillingLexer.
From Stdlib Require Import Lia Wf_nat.

Inductive json :=
| JNull
| JBool (b : bool)
| JNum (n : spec_float)
| JStr (s : list N)
| JArr (items : list json)
| JObj (members : list (list N * json)).

(** [obj[key] = value]: a repeated key keeps its place. *)
Fixpoint set_member (k : list N) (v : json) (l : list (list N * json)) : list (list N * json) :=
  match l with
  | [] => [(k, v)]
  | (k', v') :: l' => if bool_decide (k = k') then (k, v) :: l' else (k', v') :: set_member k v l'
  end.

Definition skip_blank (s : list N) : list N := drop_while is_blank s.

(** A string after its opening quote: the decoded units and what follows. *)
Fixpoint json_string_body (s : list N) : option (list N * list N) :=
  match s with
  | [] => None
  | c :: r =>
      if (c =? 34)%N then Some ([], r)
      else if (c <? 32)%N then None
      else if (c =? 92)%N then
        match r with
        | e :: r1 =>
            match simpleEscapes e with
            | Some x => prod_map (cons x) id <$> json_string_body r1
            | None =>
                if (e =? 117)%N then
                  match r1 with
                  | h1 :: h2 :: h3 :: h4 :: r2 =>
                      match unicodeEscape h1 h2 h3 h4 with
                      | Some u => prod_map (cons u) id <$> json_string_body r2
                      | None => None
                      end
                  | _ => None
                  end
                else None
            end
        | [] => None
        end
      else prod_map (cons c) id <$> json_string_body r
  end.

(** A JSON number without its sign: no leading zeros, digits on both sides of the
    point. *)
Definition json_unsigned (r : list N) : option (spec_float * list N) :=
  let '(i, r1) := span is_digit r in
  let int_ok := match i with [] => false | [_] => true | d :: _ => negb (d =? 48)%N end in
  if negb int_ok then None
  else
    let frac := match r1 with
                | c :: r' => if (c =? 46)%N
                             then match span is_digit r' with ([], _) => None | (f, r'') => Some (f, r'') end
                             else Some ([], r1)
                | [] => Some ([], [])
                end in
    match frac with
    | None => None
    | Some (f, r2) =>
        match scan_exponent r2 with
        | Ok (_, x, r3) => Some (num_of_literal i f x, r3)
        | Throw _ => None
        end
    end.

Definition json_number (s : list N) : option (spec_float * list N) :=
  match s with
  | c :: r => if (c =? 45)%N then prod_map num_neg id <$> json_unsigned r else json_unsigned s
  | [] => None
  end.

Fixpoint json_value (fuel : nat) (s : list N) : option (json * list N) :=
  match fuel with
  | O => None
  | S f =>
      match skip_blank s with
      | [] => None
      | c :: r =>
          if (c =? 34)%N then prod_map JStr id <$> json_string_body r
          else if (c =? 91)%N then
            match skip_blank r with
            | d :: r' => if (d =? 93)%N then Some (JArr [], r')
                         else prod_map JArr id <$> json_items f r
            | [] => None
            end
          else if (c =? 123)%N then
            match skip_blank r with
            | d :: r' => if (d =? 125)%N then Some (JObj [], r')
                         else prod_map (fun ms => JObj (fold_left (fun l kv => set_member kv.1 kv.2 l) ms [])) id
                                <$> json_members f r
            | [] => None
            end
          else match strip_prefix (js "true") (c :: r), strip_prefix (js "false") (c :: r),
                     strip_prefix (js "null") (c :: r) with
               | Some r', _, _ => Some (JBool true, r')
               | _, Some r', _ => Some (JBool false, r')
               | _, _, Some r' => Some (JNull, r')
               | _, _, _ => prod_map JNum id <$> json_number (c :: r)
               end
      end
  end
with json_items (fuel : nat) (s : list N) : option (list json * list N) :=
  match fuel with
  | O => None
  | S f =>
      match json_value f s with
      | None => None
      | Some (v, r) =>
          match skip_blank r with
          | c :: r' => if (c =? 44)%N then prod_map (cons v) id <$> json_items f r'
                       else if (c =? 93)%N then Some ([v], r')
                       else None
          | [] => None
          end
      end
  end
with json_members (fuel : nat) (s : list N) : option (list (list N * json) * list N) :=
  match fuel with
  | O => None
  | S f =>
      match skip_blank s with
      | q :: r =>
          if negb (q =? 34)%N then None
          else
            match json_string_body r with
            | None => None
            | Some (k, r1) =>
                match skip_blank r1 with
                | colon :: r2 =>
                    if negb (colon =? 58)%N then None
                    else
                      match json_value f r2 with
                      | None => None
                      | Some (v, r3) =>
                          match skip_blank r3 with
                          | c :: r4 => if (c =? 44)%N then prod_map (cons (k, v)) id <$> json_members f r4
                                       else if (c =? 125)%N then Some ([(k, v)], r4)
                                       else None
                          | [] => None
                          end
                      end
                | [] => None
                end
            end
      | [] => None
      end
  end.

(** [JSON.parse(text)]; [None] is the [SyntaxError].  Each level of nesting uses
    two units of fuel and at least one unit of text. *)
Definition json_parse (text : list N) : option json :=
  match json_value (S (2 * length text)) text with
  | Some (v, r) => if nonempty (skip_blank r) then None else Some v
  | None => None
  end.

(** [String(value)]: arrays are joined with commas, [null] elements being empty. *)
Fixpoint json_to_string (v : json) : list N :=
  match v with
  | JNull => js "null"
  | JBool b => if b then js "true" else js "false"
  | JNum n => num_to_string n
  | JStr s => s
  | JArr items =>
      join (js ",") (map (fun i => match i with JNull => [] | _ => json_to_string i end) items)
  | JObj _ => js "[object Object]"
  end.

(** [Boolean(value)]. *)
Definition json_truthy (v : json) : bool :=
  match v with
  | JNull => false
  | JBool b => b
  | JNum n => num_truthy n
  | JStr s => nonempty s
  | JArr _ | JObj _ => true
  end.

(** ** Round trip on strings *)

Lemma json_string_body_raw c r :
  (32 <= c)%N -> c <> 92%N -> c <> 34%N ->
  json_string_body (c :: r) = prod_map (cons c) id <$> json_string_body r.
Proof.
  intros H1 H2 H3. cbn [json_string_body].
  by rewrite (proj2 (N.eqb_neq _ _) H3), (proj2 (N.ltb_ge _ _) H1), (proj2 (N.eqb_neq _ _) H2).
Qed.

Lemma json_string_body_unit c r :
  (c < 65536)%N ->
  json_string_body (json_quote_unit c ++ r) = prod_map (cons c) id <$> json_string_body r.
Proof.
  intros Hc. unfold json_quote_unit.
  repeat match goal with |- context [(c =? ?k)%N] =>
    destruct (N.eqb_spec c k) as [->|]; [reflexivity|] end.
  case_match eqn:E.
  - unfold hex4. cbn [app json_string_body]. simpl (_ =? _)%N. simpl (_ <? _)%N. cbv iota.
    change (simpleEscapes 117) with (@None N). cbv iota. by rewrite unicodeEscape_hex4.
  - breflect. by apply json_string_body_raw.
Qed.

Lemma json_string_body_units s r :
  units s -> json_string_body (json_quote_units s ++ 34%N :: r) = Some (s, r).
Proof.
  induction s as [s IH] using (induction_ltof1 _ (@length N)). unfold ltof in IH.
  intros Hs. destruct s as [|c s]; [done|]. apply Forall_cons in Hs as [Hc Hs].
  assert (json_string_body ((json_quote_unit c ++ json_quote_units s) ++ 34%N :: r) = Some (c :: s, r)) as Hplain.
  { rewrite <- app_assoc, json_string_body_unit by done. by rewrite IH by (done || simpl; lia). }
  cbn [json_quote_units]. destruct s as [|d s]; [done|].
  destruct (is_high_surrogate c && is_low_surrogate d) eqn:E; [|done].
  apply andb_true_iff in E as [E1 E2]. apply Forall_cons in Hs as [Hd Hs].
  destruct (surrogate_plain c) as (? & ? & ?); [by left|].
  destruct (surrogate_plain d) as (? & ? & ?); [by right|].
  cbn [app]. rewrite !json_string_body_raw by done. by rewrite IH by (done || simpl; lia).
Qed.

Lemma json_parse_string s : units s -> json_parse (json_string s) = Some (JStr s).
Proof.
  intros Hs. unfold json_parse.
  assert (forall f, json_value (S f) (json_string s) =
    prod_map JStr id <$> json_string_body (json_quote_units s ++ [34%N])) as -> by done.
  by rewrite json_string_body_units.
Qed.
