(* ===== verification/JsNumberPrint.v ===== *)
(** * Numbers that are printed are read back

    [Number.prototype.toString] and the two readers of numerals in the client:
    the tokenizer of billing expressions and [JSON.parse].  The decimal printed for
    a double is one the readers turn into the same double. *)
From S2P Require Import Prelude JsString JsNumber BillingLexer JsJson.
From Stdlib Require Import Lia ZArith.

Notation all_digits := (Forall (fun c => is_digit c = true)).

(** An exponent's text and value. *)
Inductive exponent : list N -> Z -> Prop :=
| no_exponent : exponent [] 0
| an_exponent neg ds :
    all_digits ds -> ds <> [] ->
    exponent (js "e" ++ (if neg : bool then js "-" else js "+") ++ ds) (signed_exponent neg ds).

(** A numeral without sign: integer digits with no leading zero, an optional
    fraction, an optional exponent. *)
Inductive numeral : list N -> spec_float -> Prop :=
| a_numeral i f et x :
    all_digits i -> i <> [] -> (length i = 1 \/ head i <> Some 48%N) -> all_digits f -> exponent et x ->
    numeral (i ++ (match f with [] => [] | _ => 46%N :: f end) ++ et) (num_of_literal i f x).

(** Where a numeral ends: no unit that would continue it. *)
Definition stops (k : list N) : Prop :=
  match k with c :: _ => is_digit c = false /\ c <> 46%N /\ c <> 101%N /\ c <> 69%N | [] => True end.

Lemma span_digits a k : all_digits a -> stops k -> span is_digit (a ++ k) = (a, k).
Proof. intros Ha Hk. apply span_app; [done|]. destruct k; [done|]. apply Hk. Qed.

Lemma exponent_scan et x k : exponent et x -> stops k -> scan_exponent (et ++ k) = Ok (et, x, k).
Proof.
  intros He Hk. destruct He as [|neg ds Hds Hne].
  - destruct k as [|c k]; [done|]. destruct Hk as (_ & _ & H1 & H2). simpl.
    by rewrite (proj2 (N.eqb_neq _ _) H1), (proj2 (N.eqb_neq _ _) H2).
  - destruct neg; cbn [app js]; simpl; rewrite span_digits by done; by destruct ds.
Qed.

(** What follows the integer digits does not extend them. *)
Lemma fraction_head f et x k :
  exponent et x -> stops k -> all_digits f ->
  match (match f with [] => [] | _ => 46%N :: f end) ++ et ++ k with
  | c :: _ => is_digit c = false | [] => True end.
Proof.
  intros He Hk Hf. destruct f as [|d f]; [|done]. destruct He; [|done]. destruct k as [|c k]; [done|]. apply Hk.
Qed.

Lemma exponent_head et x k :
  exponent et x -> stops k ->
  match et ++ k with c :: _ => is_digit c = false /\ c <> 46%N | [] => True end.
Proof. intros He Hk. destruct He; [|done]. destruct k as [|c k]; [done|]. naive_solver. Qed.

Lemma numeral_scan_number t v k : numeral t v -> stops k -> scan_number (t ++ k) = Ok (t, v, k).
Proof.
  intros H Hk. destruct H as [i f et x Hi Hne Hz Hf He]. unfold scan_number. rewrite <- !app_assoc.
  rewrite span_app by (done || by eapply fraction_head).
  assert (scan_fraction ((match f with [] => [] | _ => 46%N :: f end) ++ et ++ k) =
          (f, match f with [] => [] | _ => 46%N :: f end, et ++ k)) as ->.
  { pose proof (exponent_head et x k He Hk) as Hh. destruct f as [|d f].
    - simpl. destruct (et ++ k) as [|c r]; [done|]. simpl. destruct Hh as [_ Hh].
      by rewrite (proj2 (N.eqb_neq _ _) Hh).
    - cbn [app scan_fraction]. rewrite N.eqb_refl. change (d :: f ++ et ++ k) with ((d :: f) ++ et ++ k).
      rewrite (span_app is_digit (d :: f) (et ++ k)); [done|done|]. destruct (et ++ k); [done|]. apply Hh. }
  by rewrite (exponent_scan et x k).
Qed.

Lemma numeral_head t v : numeral t v -> exists c r, t = c :: r /\ is_digit c = true.
Proof.
  intros H. destruct H as [i f et x Hi Hne _ _ _]. destruct Hi as [|c i Hc _]; [done|].
  simpl. eauto.
Qed.

Lemma numeral_json t v k : numeral t v -> stops k -> json_unsigned (t ++ k) = Some (v, k).
Proof.
  intros H Hk. unfold json_unsigned.
  destruct H as [i f et x Hi Hne Hz Hf He]. rewrite <- !app_assoc.
  rewrite span_app by (done || by eapply fraction_head).
  assert (match i with [] => false | [_] => true | d :: _ => negb (d =? 48)%N end = true) as ->.
  { destruct i as [|d [|e i]]; [done|done|]. apply negb_true_iff, N.eqb_neq. simpl in Hz. naive_solver. }
  cbn [negb]. pose proof (exponent_head et x k He Hk) as Hh.
  destruct f as [|d f].
  - cbn [app]. destruct (et ++ k) as [|c r] eqn:E.
    + pose proof (exponent_scan et x k He Hk) as Hs. rewrite E in Hs. by rewrite Hs.
    + destruct Hh as [_ Hh]. rewrite (proj2 (N.eqb_neq _ _) Hh), <- E. by rewrite (exponent_scan et x k).
  - cbn [app]. rewrite N.eqb_refl. change (d :: f ++ et ++ k) with ((d :: f) ++ et ++ k).
    rewrite span_app; [|done|destruct (et ++ k); [done|apply Hh]].
    by rewrite (exponent_scan et x k).
Qed.

(** ** The digits of a number *)

Lemma dec_value_zeros ds m : dec_value (ds ++ replicate m 48%N) = (dec_value ds * 10 ^ N.of_nat m)%N.
Proof.
  rewrite dec_value_app. generalize (dec_value ds) as v. induction m as [|m IH]; intros v; simpl fold_left.
  - change (N.of_nat 0) with 0%N. rewrite N.pow_0_r. lia.
  - rewrite IH. replace (N.of_nat (S m)) with (N.succ (N.of_nat m)) by lia. rewrite N.pow_succ_r'. lia.
Qed.

Lemma dec_value_leading m ds : dec_value (replicate m 48%N ++ ds) = dec_value ds.
Proof.
  rewrite dec_value_app. replace (dec_value (replicate m 48%N)) with 0%N; [done|].
  pose proof (dec_value_zeros [] m) as H. simpl app in H. rewrite H. by rewrite N.mul_0_l.
Qed.

Lemma zeros_digits z : all_digits (zeros z).
Proof. apply Forall_replicate. done. Qed.

Lemma num_of_decimal_shift s m :
  (0 < s)%Z -> (0 <= m)%Z ->
  num_of_decimal (Z.to_N s * 10 ^ Z.to_N m) 0 = num_of_decimal (Z.to_N s) m.
Proof.
  intros Hs Hm. destruct s as [|p|p]; [lia| |lia]. unfold num_of_decimal.
  assert (Z.of_N (Z.to_N (Zpos p) * 10 ^ Z.to_N m) = Zpos p * 10 ^ m)%Z as E.
  { rewrite N2Z.inj_mul, N2Z.inj_pow, !Z2N.id by lia. done. }
  assert (Z.to_N (Zpos p) * 10 ^ Z.to_N m <> 0)%N as Hnz.
  { apply N.neq_mul_0. split; [done|]. by apply N.pow_nonzero. }
  destruct (Z.to_N (Zpos p) * 10 ^ Z.to_N m)%N as [|q] eqn:Eq; [done|].
  cbn [Z.to_N]. rewrite (proj2 (Z.leb_le 0 m) Hm). simpl (0 <=? 0)%Z. cbv iota.
  rewrite <- E. rewrite Z.pow_0_r, Z.mul_1_r. done.
Qed.

Section Layout.
Context (s n k : Z) (Hs : (0 < s)%Z) (Hk : num_digits s = k).
Notation ds := (dec_string (Z.to_N s)).

Lemma layout_length : Z.of_nat (length ds) = k.
Proof. exact Hk. Qed.

Lemma layout_head : head ds <> Some 48%N.
Proof. apply dec_string_head. lia. Qed.

Lemma digits_nonzero_head i r : ds = i ++ r -> i <> [] -> length i = 1 \/ head i <> Some 48%N.
Proof. intros E Hi. right. pose proof layout_head as H. rewrite E in H. by destruct i. Qed.

Lemma literal_of_digits i f x :
  dec_value (i ++ f) = Z.to_N s -> (x - Z.of_nat (length f) = n - k)%Z ->
  num_of_literal i f x = num_of_decimal (Z.to_N s) (n - k).
Proof. intros E1 E2. unfold num_of_literal. by rewrite E1, E2. Qed.

Lemma exponent_text e :
  exponent (js "e" ++ (if (0 <=? e)%Z then js "+" else js "-") ++ dec_string (Z.to_N (Z.abs e))) e.
Proof.
  pose proof (an_exponent (negb (0 <=? e)%Z) (dec_string (Z.to_N (Z.abs e))) (dec_string_digits _)
                (dec_string_nonempty _)) as H.
  replace (signed_exponent (negb (0 <=? e)%Z) (dec_string (Z.to_N (Z.abs e)))) with e in H.
  - by destruct (0 <=? e)%Z.
  - unfold signed_exponent. rewrite dec_string_value, Z2N.id by lia. destruct (Z.leb_spec 0 e); simpl; lia.
Qed.

Lemma layout_numeral : numeral (decimal_layout s n k) (num_of_decimal (Z.to_N s) (n - k)).
Proof.
  pose proof layout_length as Hl. pose proof (dec_string_digits (Z.to_N s)) as Hd.
  pose proof (dec_string_nonempty (Z.to_N s)) as Hn. pose proof (dec_string_value (Z.to_N s)) as Hv.
  unfold decimal_layout. cbv zeta.
  destruct ((k <=? n)%Z && (n <=? 21)%Z) eqn:E1.
  { breflect. rewrite <- num_of_decimal_shift by lia.
    pose proof (a_numeral (ds ++ zeros (n - k)) [] [] 0) as H1. simpl in H1. rewrite app_nil_r in H1.
    replace (Z.to_N s * 10 ^ Z.to_N (n - k))%N with (dec_value (ds ++ zeros (n - k))).
    - unfold num_of_literal in H1. rewrite app_nil_r in H1. apply H1.
      + apply Forall_app. split; [done|apply zeros_digits].
      + by destruct ds.
      + right. pose proof layout_head. by destruct ds.
      + constructor.
      + constructor.
    - unfold zeros. rewrite dec_value_zeros, Hv. f_equal. f_equal. lia. }
  destruct ((0 <? n)%Z && (n <=? 21)%Z) eqn:E2.
  { breflect. assert (n < k)%Z as Hnk by (apply andb_false_iff in E1 as [E1|E1]; breflect; lia).
    pose proof (firstn_skipn (Z.to_nat n) ds) as Hfs.
    assert (length (skipn (Z.to_nat n) ds) = Z.to_nat (k - n)) as Hlf by (rewrite length_skipn; lia).
    assert (length (firstn (Z.to_nat n) ds) = Z.to_nat n) as Hli by (rewrite length_firstn; lia).
    rewrite <- Hfs in Hd. apply Forall_app in Hd as [Hdi Hdf].
    assert (firstn (Z.to_nat n) ds <> []) as Hine by (intros X; rewrite X in Hli; simpl in Hli; lia).
    rewrite <- (literal_of_digits (firstn (Z.to_nat n) ds) (skipn (Z.to_nat n) ds) 0) by (rewrite ?Hfs; [done|lia] || lia || by rewrite Hfs).
    pose proof (a_numeral (firstn (Z.to_nat n) ds) (skipn (Z.to_nat n) ds) [] 0 Hdi Hine) as H1.
    destruct (skipn (Z.to_nat n) ds) eqn:Ef; [simpl in Hlf; lia|]. rewrite app_nil_r in H1. apply H1; [|done|constructor].
    by eapply digits_nonzero_head. }
  destruct ((-6 <? n)%Z && (n <=? 0)%Z) eqn:E3.
  { breflect. rewrite <- (literal_of_digits [48%N] (zeros (- n) ++ ds) 0).
    - pose proof (a_numeral [48%N] (zeros (- n) ++ ds) [] 0) as H1. simpl in H1.
      destruct (zeros (- n) ++ ds) eqn:Ef; [by apply app_eq_nil in Ef as [_ ?]|].
      rewrite app_nil_r in H1. cbn [app js]. rewrite <- Ef. rewrite <- Ef in H1. apply H1; try done; [by repeat constructor|by left| |constructor].
      apply Forall_app. split; [apply zeros_digits|done].
    - change ([48%N] ++ zeros (- n) ++ ds) with (replicate (S (Z.to_nat (- n))) 48%N ++ ds).
      by rewrite dec_value_leading.
    - rewrite length_app. unfold zeros. rewrite length_replicate. lia. }
  pose proof (exponent_text (n - 1)) as He. pose proof layout_head as Hh. pose proof layout_length as Hll.
  destruct ds as [|d r] eqn:Eds; [done|]. destruct r as [|d' r].
  - rewrite <- (literal_of_digits [d] [] (n - 1)); [|by rewrite app_nil_r|simpl in *; lia].
    by apply (a_numeral [d] [] _ (n - 1)); try done; left.
  - rewrite <- (literal_of_digits [d] (d' :: r) (n - 1)); [|done|simpl in *; lia].
    inv Hd. apply (a_numeral [d] (d' :: r) _ (n - 1)); try done; [by repeat constructor|by left].
Qed.
End Layout.

(** ** [num_to_string] *)

Lemma num_eqb_positive y m e : num_eqb y (S754_finite false m e) = true -> y = S754_finite false m e.
Proof.
  unfold num_eqb, SFeqb, SFcompare. destruct y as [[]|[]| |[] m' e']; try done.
  destruct (Z.compare_spec e' e) as [->| |]; try done.
  destruct (Pos.compare_cont Eq m' m) eqn:E; try done. intros _.
  change (Pos.compare_cont Eq m' m) with (m' ?= m)%positive in E. apply Pos.compare_eq in E. by subst.
Qed.

Lemma shortest_at_reads x a b n k s' n' k' :
  shortest_at x a b n k = Some (s', n', k') -> reads_back x s' n' k' = true.
Proof.
  unfold shortest_at. destruct (ten_pow (k - n)) as [p q]. cbv zeta.
  set (s0 := (a * p / (b * q))%Z).
  destruct (if (s0 + 1 =? 10 ^ k)%Z then _ else _) as [[us un] uk] eqn:Eu.
  destruct (reads_back x s0 n k) eqn:El, (reads_back x us un uk) eqn:Er; cbn [andb negb orb].
  - destruct (negb _); intros [= <- <- <-]; done.
  - intros [= <- <- <-]. done.
  - intros [= <- <- <-]. done.
  - done.
Qed.

Lemma shortest_from_reads fuel x a b n k s' n' k' :
  shortest_from fuel x a b n k = Some (s', n', k') -> reads_back x s' n' k' = true.
Proof.
  revert k. induction fuel as [|f IH]; intros k; simpl; [done|].
  destruct (shortest_at x a b n k) as [[[s1 n1] k1]|] eqn:E; [|apply IH].
  intros [= <- <- <-]. by eapply shortest_at_reads.
Qed.

(** A number whose decimal the seventeen-digit search finds; every double is one,
    and the test is executable. *)
Definition printable (x : spec_float) : bool :=
  match x with
  | S754_zero s => negb s
  | S754_finite s m e =>
      let '(a, b) := num_fraction m e in
      match shortest_from 17 (S754_finite false m e) a b (decimal_exponent a b) 1 with
      | Some _ => true
      | None => false
      end
  | _ => false
  end.

Definition negative (x : spec_float) : bool := match x with S754_finite true _ _ => true | _ => false end.

Lemma num_to_string_numeral x :
  printable x = true ->
  exists t, numeral t (num_abs x) /\ num_to_string x = (if negative x then js "-" else []) ++ t.
Proof.
  destruct x as [[]|s| |s m e]; try done; intros H.
  - exists (js "0"). split; [|done].
    apply (a_numeral [48%N] [] [] 0); try done; [by repeat constructor|by left|constructor].
  - unfold printable in H. unfold num_to_string. destruct (num_fraction m e) as [a b].
    destruct (shortest_from 17 _ a b _ 1) as [[[d n] k]|] eqn:E; [|done].
    exists (decimal_layout d n k). split; [|by destruct s].
    apply shortest_from_reads in E. unfold reads_back in E. breflect.
    apply num_eqb_positive in H1 as E'. change (num_abs (S754_finite s m e)) with (S754_finite false m e).
    rewrite <- E'. apply layout_numeral; [|done].
    destruct d as [|d|d]; [by simpl in H1|lia|by simpl in H1].
Qed.

Lemma num_abs_neg x : negative x = true -> num_neg (num_abs x) = x.
Proof. by destruct x as [| | |[]]. Qed.
Lemma num_abs_pos x : printable x = true -> negative x = false -> num_abs x = x.
Proof. by destruct x as [[]|[]| |[]]. Qed.

(** A printed number in front of anything that does not continue it. *)
Lemma json_number_print x k :
  printable x = true -> stops k -> json_number (num_to_string x ++ k) = Some (x, k).
Proof.
  intros Hx Hk. destruct (num_to_string_numeral x Hx) as (t & Ht & ->).
  pose proof (numeral_json t (num_abs x) k Ht Hk) as Hj.
  pose proof (numeral_head t _ Ht) as (c & r & -> & Hc). destruct (negative x) eqn:En.
  - change (json_number ((js "-" ++ c :: r) ++ k)) with (prod_map num_neg id <$> json_unsigned ((c :: r) ++ k)).
    rewrite Hj. simpl. by rewrite num_abs_neg.
  - assert ((c =? 45)%N = false) as Hc45. { apply N.eqb_neq. apply is_digit_spec in Hc. lia. }
    cbn [app json_number] in *. rewrite Hc45. rewrite Hj. by rewrite num_abs_pos.
Qed.

Lemma scan_number_print x k :
  printable x = true -> negative x = false -> stops k ->
  scan_number (num_to_string x ++ k) = Ok (num_to_string x, x, k).
Proof.
  intros Hx Hn Hk. destruct (num_to_string_numeral x Hx) as (t & Ht & E). rewrite Hn in E. cbn [app] in E.
  rewrite E, (numeral_scan_number t (num_abs x)) by done. by rewrite num_abs_pos.
Qed.

Lemma num_to_string_head x :
  printable x = true -> exists c r, num_to_string x = c :: r /\ (is_digit c = true \/ c = 45%N).
Proof.
  intros Hx. destruct (num_to_string_numeral x Hx) as (t & Ht & ->).
  destruct (numeral_head t _ Ht) as (c & r & -> & Hc). destruct (negative x); simpl; eauto.
Qed.

(** ** Printed numbers have no white space *)

Lemma digits_no_space l : all_digits l -> Forall (fun c => is_space c = false) l.
Proof. intros H. eapply Forall_impl; [exact H|]. intros c. apply is_digit_not_space. Qed.

Lemma numeral_no_space t v : numeral t v -> Forall (fun c => is_space c = false) t.
Proof.
  intros [i f et x Hi _ _ Hf He]. apply Forall_app. split; [by apply digits_no_space|]. apply Forall_app. split.
  - destruct f; [constructor|]. constructor; [done|]. by apply digits_no_space.
  - destruct He as [|neg ds Hds _]; [constructor|]. constructor; [done|]. apply Forall_app. split; [destruct neg; by repeat constructor|by apply digits_no_space].
Qed.
