(* ===== verification/JsJsonPrint.v ===== *)
(** * [JSON.stringify], and [JSON.parse] of what it writes

    The client keeps its preferences, drafts and favourites as JSON in browser
    storage.  This file prints the values of [JsJson.json] and proves that
    well-formed ones are read back. *)
From S2P Require Import Prelude JsString JsNumber BillingLexer JsJson JsNumberPrint.
From Stdlib Require Import Lia.

Fixpoint json_stringify (v : json) : list N :=
  match v with
  | JNull => js "null"
  | JBool b => if b then js "true" else js "false"
  | JNum n => if is_finite n then num_to_string n else js "null"
  | JStr s => json_string s
  | JArr items => js "[" ++ join (js ",") (map json_stringify items) ++ js "]"
  | JObj members =>
      js "{" ++ join (js ",") (map (fun m => let '(k, x) := m in json_string k ++ js ":" ++ json_stringify x) members)
        ++ js "}"
  end.

Definition unitsb (s : list N) : bool := forallb (fun c => (c <? 65536)%N) s.

Lemma unitsb_units s : unitsb s = true -> units s.
Proof.
  unfold unitsb, units. intros H. apply Forall_forall. intros c Hc. apply list_elem_of_In in Hc.
  pose proof (proj1 (forallb_forall _ _) H c Hc). by apply N.ltb_lt.
Qed.

(** Values that survive: strings of code units, printable numbers, no repeated key. *)
Fixpoint json_wf (v : json) : bool :=
  match v with
  | JNull | JBool _ => true
  | JNum n => printable n
  | JStr s => unitsb s
  | JArr items => forallb json_wf items
  | JObj members =>
      bool_decide (NoDup (map fst members)) && forallb (fun m => let '(k, x) := m in unitsb k && json_wf x) members
  end.

(** Induction through the nested lists. *)
Lemma json_ind' (P : json -> Prop) :
  P JNull -> (forall b, P (JBool b)) -> (forall n, P (JNum n)) -> (forall s, P (JStr s)) ->
  (forall items, Forall P items -> P (JArr items)) ->
  (forall members, Forall (fun m => P m.2) members -> P (JObj members)) ->
  forall v, P v.
Proof.
  intros H1 H2 H3 H4 H5 H6. fix IH 1. intros [|b|n|s|items|members].
  - exact H1.
  - apply H2.
  - apply H3.
  - apply H4.
  - apply H5. induction items as [|x items IHi]; constructor; [apply IH|exact IHi].
  - apply H6. induction members as [|[k x] members IHm]; constructor; [apply IH|exact IHm].
Qed.

Lemma printable_finite n : printable n = true -> is_finite n = true.
Proof. by destruct n as [| | |]. Qed.

(** ** Reading one value *)

(** The text after a value inside a document: the end, a comma or a bracket. *)
Definition closes (k : list N) : Prop :=
  match k with c :: _ => c = 44%N \/ c = 93%N \/ c = 125%N | [] => True end.

Lemma text_closes_stops k : closes k -> stops k.
Proof. destruct k as [|c k]; [done|]. by intros [->|[->| ->]]. Qed.

Lemma closes_blank k : closes k -> skip_blank k = k.
Proof. destruct k as [|c k]; [done|]. by intros [->|[->| ->]]. Qed.

(** The first unit of a value is none of these. *)
Definition value_head (c : N) : Prop := is_blank c = false /\ c <> 93%N /\ c <> 125%N.

Lemma stringify_head v : json_wf v = true -> exists c r, json_stringify v = c :: r /\ value_head c.
Proof.
  destruct v as [|b|n|s|items|members]; simpl; intros H.
  - by eexists _, _.
  - destruct b; by eexists _, _.
  - rewrite printable_finite by done. destruct (num_to_string_head n H) as (c & r & -> & Hc).
    exists c, r. split; [done|]. unfold value_head, is_blank.
    destruct Hc as [Hc%is_digit_spec| ->]; [|done].
    rewrite (proj2 (N.eqb_neq c 32)), (proj2 (N.eqb_neq c 9)), (proj2 (N.eqb_neq c 10)), (proj2 (N.eqb_neq c 13)) by lia.
    split; [done|]. lia.
  - by eexists _, _.
  - by eexists _, _.
  - by eexists _, _.
Qed.

Lemma skip_blank_head c r : is_blank c = false -> skip_blank (c :: r) = c :: r.
Proof. unfold skip_blank. simpl. by intros ->. Qed.

(** [v] is read from its text with any fuel above the text's length. *)
Definition reads (v : json) : Prop := forall f k,
  length (json_stringify v) < f -> closes k -> json_value f (json_stringify v ++ k) = Some (v, k).

Lemma json_number_value f c r k x :
  is_blank c = false -> is_digit c = true \/ c = 45%N ->
  json_number (c :: r) = Some (x, k) -> json_value (S f) (c :: r) = Some (JNum x, k).
Proof.
  intros Hb Hc Hn. cbn [json_value]. rewrite skip_blank_head by done.
  assert (c <> 34 /\ c <> 91 /\ c <> 123 /\ c <> 116 /\ c <> 102 /\ c <> 110)%N as (H1 & H2 & H3 & H4 & H5 & H6).
  { destruct Hc as [Hc%is_digit_spec| ->]; lia. }
  rewrite (proj2 (N.eqb_neq _ _) H1), (proj2 (N.eqb_neq _ _) H2), (proj2 (N.eqb_neq _ _) H3).
  assert (strip_prefix (js "true") (c :: r) = None) as ->.
  { change (js "true") with (116 :: js "rue")%N. cbn [strip_prefix]. by rewrite (proj2 (N.eqb_neq 116 c)) by lia. }
  assert (strip_prefix (js "false") (c :: r) = None) as ->.
  { change (js "false") with (102 :: js "alse")%N. cbn [strip_prefix]. by rewrite (proj2 (N.eqb_neq 102 c)) by lia. }
  assert (strip_prefix (js "null") (c :: r) = None) as ->.
  { change (js "null") with (110 :: js "ull")%N. cbn [strip_prefix]. by rewrite (proj2 (N.eqb_neq 110 c)) by lia. }
  by rewrite Hn.
Qed.

Lemma reads_number n : printable n = true -> reads (JNum n).
Proof.
  intros Hn f k Hf Hk. simpl in *. rewrite printable_finite in * by done.
  destruct f as [|f]; [lia|]. pose proof (json_number_print n k Hn (text_closes_stops k Hk)) as H.
  destruct (num_to_string_head n Hn) as (c & r & E & Hc). rewrite E in *. cbn [app] in *.
  apply json_number_value; [|done|done].
  unfold is_blank. destruct Hc as [Hc%is_digit_spec| ->]; [|done].
  by rewrite (proj2 (N.eqb_neq c 32)), (proj2 (N.eqb_neq c 9)), (proj2 (N.eqb_neq c 10)), (proj2 (N.eqb_neq c 13)) by lia.
Qed.

Lemma reads_string s : unitsb s = true -> reads (JStr s).
Proof.
  intros Hs f k Hf Hk. destruct f as [|f]; [lia|]. simpl json_stringify.
  change (json_value (S f) (json_string s ++ k)) with
    (prod_map JStr id <$> json_string_body ((json_quote_units s ++ [34%N]) ++ k)).
  rewrite <- app_assoc. cbn [app]. by rewrite json_string_body_units by by apply unitsb_units.
Qed.

(** ** Lists *)

Lemma comma r : js "," ++ r = 44%N :: r.
Proof. done. Qed.

Lemma reads_items items f k :
  Forall (fun v => json_wf v = true /\ reads v) items -> items <> [] ->
  length (join (js ",") (map json_stringify items)) + 1 < f ->
  json_items f (join (js ",") (map json_stringify items) ++ js "]" ++ k) = Some (items, k).
Proof.
  intros H. revert f. induction H as [|v items [Hwf Hv] Hitems IH]; intros f Hne Hf; [done|].
  destruct f as [|f]; [lia|]. cbn [map] in *. destruct Hitems as [|w items Hw Hitems].
  - cbn [map join] in *. cbn [json_items]. rewrite Hv by (lia || by right; left).
    by rewrite closes_blank by (by right; left).
  - rewrite join_cons in * by done. rewrite !length_app in Hf. cbn [json_items].
    rewrite <- !app_assoc. rewrite Hv by (simpl in *; lia || by left).
    rewrite closes_blank by by left. rewrite comma. cbv beta iota. rewrite N.eqb_refl.
    rewrite IH by (done || simpl in *; lia). done.
Qed.

Definition member_text (m : list N * json) : list N := json_string m.1 ++ js ":" ++ json_stringify m.2.

Lemma member_text_eq members :
  map (fun m => let '(k, x) := m in json_string k ++ js ":" ++ json_stringify x) members = map member_text members.
Proof. apply map_ext. by intros []. Qed.

Lemma reads_members members f k :
  Forall (fun m => unitsb m.1 = true /\ json_wf m.2 = true /\ reads m.2) members -> members <> [] ->
  length (join (js ",") (map member_text members)) + 1 < f ->
  json_members f (join (js ",") (map member_text members) ++ js "}" ++ k) = Some (members, k).
Proof.
  intros H. revert f. induction H as [|[key v] members (Hu & Hwf & Hv) Hms IH]; intros f Hne Hf; [done|].
  simpl in Hu, Hwf, Hv. destruct f as [|f]; [lia|].
  assert (forall rest, json_members (S f) (member_text (key, v) ++ rest) =
    match json_value f (json_stringify v ++ rest) with
    | None => None
    | Some (x, r3) => match skip_blank r3 with
                      | c :: r4 => if (c =? 44)%N then prod_map (cons (key, x)) id <$> json_members f r4
                                   else if (c =? 125)%N then Some ([(key, x)], r4) else None
                      | [] => None
                      end
    end) as Hstep.
  { intros rest. unfold member_text, json_string. simpl fst. simpl snd. rewrite <- !app_assoc. cbn [app json_members].
    rewrite skip_blank_head by done. simpl (negb _). cbv iota.
    rewrite json_string_body_units by by apply unitsb_units.
    change (js ":" ++ json_stringify v ++ rest) with (58%N :: (json_stringify v ++ rest)).
    rewrite skip_blank_head by done. done. }
  cbn [map] in *. destruct Hms as [|m members Hm Hms].
  - cbn [map join] in *. rewrite Hstep. unfold member_text in Hf. rewrite !length_app in Hf.
    rewrite Hv by (simpl in *; lia || by right; right). by rewrite closes_blank by (by right; right).
  - rewrite join_cons in * by done. rewrite <- !app_assoc, Hstep.
    rewrite !length_app in Hf. unfold member_text in Hf at 1. rewrite !length_app in Hf.
    rewrite Hv by (simpl in *; lia || by left).
    rewrite closes_blank by by left. rewrite comma. cbv beta iota. rewrite N.eqb_refl.
    rewrite IH by (done || simpl in *; lia). done.
Qed.

Lemma set_member_fresh k v l : k ∉ map fst l -> set_member k v l = l ++ [(k, v)].
Proof.
  induction l as [|[k' v'] l IH]; simpl; [done|]. intros H. apply not_elem_of_cons in H as [H1 H2].
  rewrite bool_decide_eq_false_2 by done. by rewrite IH.
Qed.

Lemma set_members_NoDup ms acc :
  NoDup (map fst (acc ++ ms)) -> fold_left (fun l kv => set_member kv.1 kv.2 l) ms acc = acc ++ ms.
Proof.
  revert acc. induction ms as [|[k v] ms IH]; intros acc H; simpl; [by rewrite app_nil_r|].
  rewrite set_member_fresh.
  - rewrite IH by by rewrite <- app_assoc. by rewrite <- app_assoc.
  - rewrite map_app in H. apply NoDup_app in H as (_ & H & _). intros Hin. apply (H k Hin). left.
Qed.

(** ** The round trip *)

Lemma stringify_reads v : json_wf v = true -> reads v.
Proof.
  induction v as [|b|n|s|items IH|members IH] using json_ind'; intros Hwf.
  - intros [|f] k Hf Hk; [simpl in Hf; lia|]. done.
  - intros [|f] k Hf Hk; [simpl in Hf; lia|]. by destruct b.
  - by apply reads_number.
  - by apply reads_string.
  - intros f k Hf Hk. simpl in Hf, Hwf. destruct f as [|f]; [lia|].
    change (json_stringify (JArr items)) with (js "[" ++ join (js ",") (map json_stringify items) ++ js "]").
    rewrite <- !app_assoc. rewrite !length_app in Hf. simpl in Hf.
    assert (Forall (fun v => json_wf v = true /\ reads v) items) as HF.
    { clear -IH Hwf. induction IH as [|v items Hv IH IH']; [constructor|]. simpl in Hwf. breflect. constructor; auto. }
    destruct items as [|v items]; [done|].
    assert (json_wf v = true) as Hv by (simpl in Hwf; by breflect).
    destruct (stringify_head v Hv) as (c & r & E & (Hb & H93 & _)).
    assert (exists r', join (js ",") (map json_stringify (v :: items)) = c :: r') as (r' & Hj).
    { cbn [map]. destruct (map json_stringify items); [simpl; eauto|]. rewrite join_cons by done. rewrite E. by eexists. }
    pose proof (reads_items (v :: items) f k HF ltac:(done) ltac:(lia)) as Hr.
    rewrite Hj in Hr |- *. change (js "[" ++ (c :: r') ++ js "]" ++ k) with (91%N :: c :: r' ++ js "]" ++ k).
    change ((c :: r') ++ js "]" ++ k) with (c :: r' ++ js "]" ++ k) in Hr.
    assert (forall s, json_value (S f) (91%N :: s) =
      match skip_blank s with
      | d :: r' => if (d =? 93)%N then Some (JArr [], r') else prod_map JArr id <$> json_items f s
      | [] => None
      end) as -> by done.
    rewrite skip_blank_head by done. rewrite (proj2 (N.eqb_neq c 93)) by done. by rewrite Hr.
  - intros f k Hf Hk. simpl in Hf, Hwf. rewrite member_text_eq in Hf. destruct f as [|f]; [lia|].
    assert (json_stringify (JObj members) = js "{" ++ join (js ",") (map member_text members) ++ js "}") as ->.
    { cbn [json_stringify]. by rewrite member_text_eq. }
    rewrite <- !app_assoc. rewrite !length_app in Hf. simpl in Hf.
    apply andb_true_iff in Hwf as [Hnd%bool_decide_eq_true Hwf].
    assert (Forall (fun m => unitsb m.1 = true /\ json_wf m.2 = true /\ reads m.2) members) as HF.
    { clear -IH Hwf. induction IH as [|[key v] members Hv IH IH']; [constructor|]. simpl in Hwf. breflect.
      constructor; [|auto]. simpl in *. auto. }
    destruct members as [|[key v] members]; [done|].
    assert (exists r', join (js ",") (map member_text ((key, v) :: members)) = 34%N :: r') as (r' & Hj).
    { cbn [map]. destruct (map member_text members); [by eexists|]. rewrite join_cons by done. by eexists. }
    pose proof (reads_members ((key, v) :: members) f k HF ltac:(done) ltac:(lia)) as Hr.
    rewrite Hj in Hr |- *. change (js "{" ++ (34%N :: r') ++ js "}" ++ k) with (123%N :: 34%N :: r' ++ js "}" ++ k).
    change ((34%N :: r') ++ js "}" ++ k) with (34%N :: r' ++ js "}" ++ k) in Hr.
    assert (forall s, json_value (S f) (123%N :: s) =
      match skip_blank s with
      | d :: r' => if (d =? 125)%N then Some (JObj [], r')
                   else prod_map (fun ms => JObj (fold_left (fun l kv => set_member kv.1 kv.2 l) ms [])) id
                          <$> json_members f s
      | [] => None
      end) as -> by done.
    rewrite skip_blank_head by done. cbv beta iota. rewrite (proj2 (N.eqb_neq 34 125)) by done. rewrite Hr.
    simpl fmap. unfold prod_map. simpl fst. simpl snd. unfold id. by rewrite set_members_NoDup.
Qed.

Lemma json_roundtrip v : json_wf v = true -> json_parse (json_stringify v) = Some v.
Proof.
  intros Hv. unfold json_parse. pose proof (stringify_reads v Hv (S (2 * length (json_stringify v))) []) as H.
  rewrite app_nil_r in H. by rewrite H by (done || lia).
Qed.
