(* ===== verification/BillingParser.v ===== *)
(** * Billing expressions: the restricted parser (src/apps/web/src/features/pricing/lib/billing-expr.ts)

    [RestrictedExprParser] is a recursive-descent parser over the token list;
    its [index] field is modelled by the list of the tokens not yet consumed.
    Reading past the list is [TypeError] (a property of [undefined]).

    Nested calls of [parseConditional] are bounded by [MAX_EXPR_DEPTH]: 66 levels
    of fuel always reach the depth check.  The loops consume a token per turn, so
    the number of remaining tokens bounds them. *)
From S2P Require Import Prelude JsString JsNumber BillingLexer.
From Stdlib Require Import Lia Wf_nat.

Inductive ExprNode :=
| Literal (value : ExprValue)
| Identifier (name : list N)
| Unary (op : list N) (value : ExprNode)
| Binary (op : list N) (left right : ExprNode)
| Conditional (test consequent alternate : ExprNode)
| Call (name : list N) (args : list ExprNode).

(** Induction with the arguments of calls. *)
Lemma ExprNode_rect' (P : ExprNode -> Prop) :
  (forall v, P (Literal v)) -> (forall n, P (Identifier n)) ->
  (forall op v, P v -> P (Unary op v)) ->
  (forall op l r, P l -> P r -> P (Binary op l r)) ->
  (forall t c a, P t -> P c -> P a -> P (Conditional t c a)) ->
  (forall name args, Forall P args -> P (Call name args)) ->
  forall n, P n.
Proof.
  intros Hl Hi Hu Hb Hc Hcall. fix IH 1. intros [v|n|op v|op l r|t c a|name args].
  - apply Hl.
  - apply Hi.
  - apply Hu, IH.
  - apply Hb; apply IH.
  - apply Hc; apply IH.
  - apply Hcall. induction args as [|x xs IHxs]; constructor; [apply IH|exact IHxs].
Qed.

Definition parser (A : Type) : Type := list ExprToken -> res (A * list ExprToken).

Definition peek (ts : list ExprToken) : res ExprToken :=
  match ts with t :: _ => Ok t | [] => Throw TypeError end.

(** [take()] without an argument. *)
Definition take_any : parser ExprToken := fun ts =>
  match ts with t :: r => Ok (t, r) | [] => Throw TypeError end.

(** [take(text)]. *)
Definition take (text : string) : parser ExprToken := fun ts =>
  match ts with
  | t :: r =>
      if bool_decide (tok_text t = js text) then Ok (t, r)
      else Throw (Error (js "expected " ++ js text))
  | [] => Throw TypeError
  end.

Definition text_in (t : ExprToken) (ops : list string) : bool :=
  bool_decide (tok_text t ∈ (js <$> ops)).

Definition too_deep {A} : res A := throw "expression nesting is too deep".

(** The [while] loop of [parseBinary]: left-associative chains. *)
Fixpoint binary_loop (fuel : nat) (next : parser ExprNode) (operators : list string)
    (node : ExprNode) (ts : list ExprToken) : res (ExprNode * list ExprToken) :=
  match fuel with
  | O => Throw Fuel
  | S f =>
      let* t := peek ts in
      if text_in t operators then
        let* (op, ts1) := take_any ts in
        let* (rhs, ts2) := next ts1 in
        binary_loop f next operators (Binary (tok_text op) node rhs) ts2
      else Ok (node, ts)
  end.

Definition parseBinary (depth : nat) (next : parser ExprNode) (operators : list string)
    : parser ExprNode := fun ts =>
  if (MAX_EXPR_DEPTH <? depth)%nat then too_deep
  else
    let* (node, ts1) := next ts in
    binary_loop (S (length ts1)) next operators node ts1.

(** The prefix operators, last read first. *)
Fixpoint unary_loop (operators : list (list N)) (ts : list ExprToken)
    : res (list (list N) * list ExprToken) :=
  match ts with
  | [] => Throw TypeError
  | t :: r =>
      if text_in t ["+"; "-"; "!"]%string then
        if (MAX_EXPR_DEPTH <=? length operators)%nat then too_deep
        else unary_loop (tok_text t :: operators) r
      else Ok (operators, ts)
  end.

(** The argument list of a call, [nargs] arguments being read already;
    [cond] is [parseConditional(depth + 1)]. *)
Fixpoint args_loop (fuel : nat) (cond : parser ExprNode) (nargs : nat) (ts : list ExprToken)
    : res (list ExprNode * list ExprToken) :=
  match fuel with
  | O => Throw Fuel
  | S f =>
      if (MAX_CALL_ARGUMENTS <=? nargs)%nat then throw "too many call arguments"
      else
        let* (a, ts1) := cond ts in
        let* t := peek ts1 in
        if negb (text_in t [","]%string) then Ok ([a], ts1)
        else
          let* (_, ts2) := take "," ts1 in
          let* (rest, ts3) := args_loop f cond (S nargs) ts2 in
          Ok (a :: rest, ts3)
  end.

Definition parsePrimary (cond : parser ExprNode) : parser ExprNode := fun ts =>
  let* token := peek ts in
  match tok_kind token with
  | KNumber | KString =>
      let* (_, ts1) := take_any ts in
      match tok_value token with
      | Some v => Ok (Literal v, ts1)
      | None => Throw TypeError
      end
  | KIdentifier =>
      let* (_, ts1) := take_any ts in
      if text_in token ["true"; "false"]%string then
        Ok (Literal (VBool (text_in token ["true"]%string)), ts1)
      else
        let* t := peek ts1 in
        if negb (text_in t ["("]%string) then Ok (Identifier (tok_text token), ts1)
        else
          let* (_, ts2) := take "(" ts1 in
          let* t2 := peek ts2 in
          let* (args, ts3) :=
            (if negb (text_in t2 [")"]%string)
             then args_loop (S (length ts2)) cond 0 ts2 else Ok ([], ts2)) in
          let* (_, ts4) := take ")" ts3 in
          Ok (Call (tok_text token) args, ts4)
  | _ =>
      if text_in token ["("]%string then
        let* (_, ts1) := take "(" ts in
        let* (node, ts2) := cond ts1 in
        let* (_, ts3) := take ")" ts2 in
        Ok (node, ts3)
      else Throw (Error (js "unexpected token: " ++
             (if nonempty (tok_text token) then tok_text token else js "end of expression")))
  end.

Definition parseUnary (cond : parser ExprNode) : parser ExprNode := fun ts =>
  let* (operators, ts1) := unary_loop [] ts in
  let* (node, ts2) := parsePrimary cond ts1 in
  Ok (fold_left (fun n op => Unary op n) operators node, ts2).

Definition parseMultiplicative depth cond : parser ExprNode :=
  parseBinary depth (parseUnary cond) ["*"; "/"; "%"]%string.
Definition parseAdditive depth cond : parser ExprNode :=
  parseBinary depth (parseMultiplicative depth cond) ["+"; "-"]%string.
Definition parseComparison depth cond : parser ExprNode :=
  parseBinary depth (parseAdditive depth cond) ["<"; "<="; ">"; ">="]%string.
Definition parseEquality depth cond : parser ExprNode :=
  parseBinary depth (parseComparison depth cond) ["=="; "!="]%string.
Definition parseAnd depth cond : parser ExprNode :=
  parseBinary depth (parseEquality depth cond) ["&&"]%string.
Definition parseOr depth cond : parser ExprNode :=
  parseBinary depth (parseAnd depth cond) ["||"]%string.

Fixpoint parseConditional (fuel depth : nat) (ts : list ExprToken)
    : res (ExprNode * list ExprToken) :=
  match fuel with
  | O => Throw Fuel
  | S f =>
      if (MAX_EXPR_DEPTH <? depth)%nat then too_deep
      else
        let cond := parseConditional f (S depth) in
        let* (test, ts1) := parseOr depth cond ts in
        let* t := peek ts1 in
        if negb (text_in t ["?"]%string) then Ok (test, ts1)
        else
          let* (_, ts2) := take "?" ts1 in
          let* (consequent, ts3) := cond ts2 in
          let* (_, ts4) := take ":" ts3 in
          let* (alternate, ts5) := cond ts4 in
          Ok (Conditional test consequent alternate, ts5)
  end.

Definition DEPTH_FUEL : nat := 66.

(** [new RestrictedExprParser(tokens).parse()]. *)
Definition parse (ts : list ExprToken) : res ExprNode :=
  let* (node, ts1) := parseConditional DEPTH_FUEL 0 ts in
  let* t := peek ts1 in
  match tok_kind t with
  | KEof => Ok node
  | _ => Throw (Error (js "unexpected token: " ++ tok_text t))
  end.

(** The pattern [v<digits>:<body>]: the version prefix and the body. *)
Definition stripExprVersion (exprStr : list N) : N * list N :=
  match exprStr with
  | [] => (1%N, [])
  | c :: r =>
      if (c =? ch "v")%N then
        match span is_digit r with
        | (d :: ds, colon :: body) =>
            if (colon =? ch ":")%N then (dec_value (d :: ds), body) else (1%N, exprStr)
        | _ => (1%N, exprStr)
        end
      else (1%N, exprStr)
  end.

Definition parseRestrictedExpr (exprStr : list N) : res ExprNode :=
  if (MAX_EXPR_LENGTH <? length exprStr)%nat then throw "expression is too long"
  else
    let '(_, body) := stripExprVersion (trim exprStr) in
    let* ts := tokenizeExpr body in
    parse ts.

(** ** What a parsed tree looks like *)

Definition unary_operators : list string := ["+"; "-"; "!"]%string.
Definition binary_operators : list string :=
  ["||"; "&&"; "=="; "!="; "<"; "<="; ">"; ">="; "+"; "-"; "*"; "/"; "%"]%string.

(** The security boundary on trees: finite literals, listed operators, plain
    identifiers, at most [MAX_CALL_ARGUMENTS] arguments. *)
Inductive wf_node : ExprNode -> Prop :=
| wf_num n : is_finite n = true -> wf_node (Literal (VNum n))
| wf_str s : wf_node (Literal (VStr s))
| wf_bool b : wf_node (Literal (VBool b))
| wf_ident w : plain_word w -> wf_node (Identifier w)
| wf_unary op v : op ∈ (js <$> unary_operators) -> wf_node v -> wf_node (Unary op v)
| wf_binary op l r : op ∈ (js <$> binary_operators) -> wf_node l -> wf_node r ->
    wf_node (Binary op l r)
| wf_cond t c a : wf_node t -> wf_node c -> wf_node a -> wf_node (Conditional t c a)
| wf_call w args : plain_word w -> (length args <= MAX_CALL_ARGUMENTS)%nat ->
    Forall wf_node args -> wf_node (Call w args).

(** Number of nodes of a tree. *)
Fixpoint node_size (n : ExprNode) : nat :=
  match n with
  | Literal _ | Identifier _ => 1
  | Unary _ v => S (node_size v)
  | Binary _ l r => S (node_size l + node_size r)
  | Conditional t c a => S (node_size t + node_size c + node_size a)
  | Call _ args => S (sum_list_with node_size args)
  end.

(** ** Token streams *)

(** Well-formed tokens closed by the end-of-input token. *)
Definition good (ts : list ExprToken) : Prop :=
  exists us, ts = us ++ [eof_token] /\ Forall wf_token us.

Lemma good_cases ts :
  good ts -> ts = [eof_token] \/ exists t r, ts = t :: r /\ wf_token t /\ good r.
Proof.
  intros ([|t us] & -> & Hus); [by left|]. right. apply Forall_cons in Hus as [Ht Hus].
  exists t, (us ++ [eof_token]). split_and!; [done..|]. by exists us.
Qed.

(** Every text the parser asks for is non-empty, so never that of the end token. *)
Lemma text_in_good t r ops :
  good (t :: r) -> text_in t ops = true -> [] ∉ (js <$> ops) -> wf_token t /\ good r.
Proof.
  intros Hg Ht Hops. apply good_cases in Hg as [[= -> ->]|(t' & r' & [= -> ->] & ? & ?)]; [|done].
  unfold text_in in Ht. breflect. done.
Qed.

Lemma peek_good ts : good ts -> exists t r, ts = t :: r /\ peek ts = Ok t.
Proof. intros [-> |(t & r & -> & _)]%good_cases; eauto. Qed.

Lemma take_good text ts :
  js text <> [] -> good ts ->
  js_result (take text ts) /\
  forall t r, take text ts = Ok (t, r) ->
    good r /\ (length ts = S (length r))%nat /\ tok_text t = js text.
Proof.
  intros Hne Hg. destruct (good_cases _ Hg) as [->|(t & r & -> & Hw & Hr)]; simpl.
  - rewrite bool_decide_eq_false_2 by done. done.
  - case_bool_decide; (split; [done|]); intros ? ? [= <- <-]. done.
Qed.

(** Acceptable parsers: on a good stream they return one of the source's own
    results; on success they yield a good stream and a well-formed value, and
    the nodes built are paid for by the tokens consumed. *)
Definition parser_ok {A} (wf : A -> Prop) (size : A -> nat) (p : parser A) : Prop :=
  forall ts, good ts -> js_result (p ts) /\
    forall a r, p ts = Ok (a, r) ->
      good r /\ wf a /\ (size a + length r <= length ts)%nat.

Notation node_ok := (parser_ok wf_node node_size).

Lemma node_size_pos n : (1 <= node_size n)%nat.
Proof. destruct n; simpl; lia. Qed.

Lemma binary_loop_ok next ops :
  node_ok next -> [] ∉ (js <$> ops) -> js <$> ops ⊆ js <$> binary_operators ->
  forall fuel node ts, wf_node node -> good ts -> (length ts < fuel)%nat ->
  js_result (binary_loop fuel next ops node ts) /\
  forall n r, binary_loop fuel next ops node ts = Ok (n, r) ->
    good r /\ wf_node n /\ (node_size n + length r <= node_size node + length ts)%nat.
Proof.
  intros Hnext Hne Hsub. induction fuel as [|f IH]; intros node ts Hn Hg Hf; [lia|].
  cbn [binary_loop]. destruct (peek_good ts Hg) as (t & r & -> & ->). cbn [res_bind].
  destruct (text_in t ops) eqn:Et; cbn [take_any res_bind].
  2:{ split; [done|]. intros ? ? [= <- <-]. done. }
  destruct (text_in_good _ _ _ Hg Et Hne) as [Hwt Hr]. destruct (Hnext r Hr) as [Hjs Hok].
  destruct (next r) as [[rhs ts2]|e] eqn:En; [|done]. cbn [res_bind].
  destruct (Hok _ _ eq_refl) as (Hg2 & Hw2 & Hs2). pose proof (node_size_pos rhs).
  simpl in Hf. destruct (IH (Binary (tok_text t) node rhs) ts2) as [IH1 IH2]; [|done|lia|].
  { constructor; [|done..]. apply Hsub. unfold text_in in Et. by breflect. }
  split; [done|]. intros n r' Hr'. destruct (IH2 _ _ Hr') as (? & ? & Hle).
  split_and!; [done..|]. simpl in *. lia.
Qed.

Lemma parseBinary_ok depth next ops :
  node_ok next -> [] ∉ (js <$> ops) -> js <$> ops ⊆ js <$> binary_operators ->
  node_ok (parseBinary depth next ops).
Proof.
  intros Hnext Hne Hsub ts Hg. unfold parseBinary. case_match; [done|].
  destruct (Hnext ts Hg) as [Hjs Hok]. destruct (next ts) as [[node ts1]|e]; [|done].
  destruct (Hok _ _ eq_refl) as (Hg1 & Hw1 & Hs1). simpl res_bind.
  destruct (binary_loop_ok next ops Hnext Hne Hsub (S (length ts1)) node ts1) as [H1 H2];
    [done..|lia|]. split; [done|]. intros n r Hr. destruct (H2 _ _ Hr) as (? & ? & ?).
  split_and!; [done..|lia].
Qed.

Lemma unary_loop_ok ts : forall ops,
  good ts -> Forall (fun op => op ∈ (js <$> unary_operators)) ops ->
  js_result (unary_loop ops ts) /\
  forall ops' r, unary_loop ops ts = Ok (ops', r) ->
    good r /\ Forall (fun op => op ∈ (js <$> unary_operators)) ops' /\
    (length ops' + length r = length ops + length ts)%nat.
Proof.
  induction ts as [|t ts IH]; intros ops Hg Hops.
  { by apply good_cases in Hg as [?|(?&?&?&?)]. }
  cbn [unary_loop]. destruct (text_in t _) eqn:Et.
  2:{ split; [done|]. by intros ? ? [= <- <-]. }
  destruct (text_in_good _ _ _ Hg Et) as [_ Hg']; [by vm_compute; set_solver|].
  case_match; [done|]. unfold text_in in Et. breflect.
  destruct (IH (tok_text t :: ops)) as [H1 H2]; [done|by constructor|].
  split; [done|]. intros ops' r Hr. destruct (H2 _ _ Hr) as (? & ? & ?).
  split_and!; [done..|]. simpl in *. lia.
Qed.

(** Runs a parser of a [parser_ok] hypothesis: closes the failing case and
    names the facts about the stream it leaves. *)
Ltac run_parser H :=
  let Hjs := fresh "Hjs" in let Hok := fresh "Hok" in
  destruct H as [Hjs Hok];
  match type of Hjs with
  | js_result ?m => destruct m as [[? ?]|?] eqn:?; [|by (split; [exact Hjs|])];
      destruct (Hok _ _ eq_refl) as (? & ? & ?); clear Hok Hjs; cbn [res_bind]
  end.

Ltac run_peek Hg :=
  let H1 := fresh "Hts" in let H2 := fresh "Hpk" in
  destruct (peek_good _ Hg) as (? & ? & H1 & H2); rewrite H2; cbn [res_bind]; clear H2.

Lemma args_loop_ok cond :
  node_ok cond ->
  forall fuel nargs ts, good ts -> (length ts < fuel)%nat ->
  js_result (args_loop fuel cond nargs ts) /\
  forall args r, args_loop fuel cond nargs ts = Ok (args, r) ->
    good r /\ (Forall wf_node args /\ (nargs + length args <= MAX_CALL_ARGUMENTS)%nat) /\
    (sum_list_with node_size args + length r <= length ts)%nat.
Proof.
  intros Hcond. induction fuel as [|f IH]; intros nargs ts Hg Hf; [lia|].
  cbn [args_loop]. case_match eqn:Hn; [done|]. apply Nat.leb_gt in Hn.
  run_parser (Hcond ts Hg). run_peek H. case_match.
  { split; [done|]. intros ? ? [= <- <-]. simpl. split_and!; [done|by constructor|lia|lia]. }
  run_parser (take_good "," _ ltac:(done) H).
  pose proof (node_size_pos e).
  run_parser (IH (S nargs) l0 ltac:(done) ltac:(lia)).
  split; [done|]. intros ? ? [= <- <-]. simpl. destruct H8 as [??].
  split_and!; [done|by constructor|simpl; lia|lia].
Qed.

Lemma parsePrimary_ok cond : node_ok cond -> node_ok (parsePrimary cond).
Proof.
  intros Hcond ts Hg. unfold parsePrimary.
  destruct (good_cases ts Hg) as [->|(t & r & -> & Hw & Hg')]; [done|].
  cbn [peek res_bind]. unfold wf_token in Hw.
  destruct (tok_kind t) eqn:Hk; [| | | |done].
  - destruct Hw as [(n & -> & Hn) _]. cbn [take_any res_bind]. split; [done|].
    intros ? ? [= <- <-]. split_and!; [done|by constructor|simpl; lia].
  - destruct Hw as [(s & ->) _]. cbn [take_any res_bind]. split; [done|].
    intros ? ? [= <- <-]. split_and!; [done|by constructor|simpl; lia].
  - cbn [take_any res_bind].
    destruct (text_in t ["true"; "false"]%string).
    { split; [done|]. intros ? ? [= <- <-]. split_and!; [done|by constructor|simpl; lia]. }
    run_peek Hg'. case_match.
    { split; [done|]. intros ? ? [= <- <-]. split_and!; [done|by constructor|simpl; lia]. }
    run_parser (take_good "(" r ltac:(done) Hg'). run_peek H0. case_match.
    + run_parser (args_loop_ok cond Hcond (S (length l)) 0 l ltac:(done) ltac:(lia)).
      run_parser (take_good ")" l1 ltac:(done) ltac:(done)).
      split; [done|]. intros ? ? [= <- <-]. destruct H5 as [??].
      split_and!; [done|by constructor|simpl in *; lia].
    + cbn [res_bind]. run_parser (take_good ")" l ltac:(done) ltac:(done)).
      split; [done|]. intros ? ? [= <- <-]. 
      split_and!; [done|constructor; [done|simpl; lia|constructor]|simpl in *; lia].
  - case_match; [|done]. run_parser (take_good "(" (t :: r) ltac:(done) Hg).
    run_parser (Hcond l ltac:(done)). run_parser (take_good ")" l0 ltac:(done) ltac:(done)).
    split; [done|]. intros ? ? [= <- <-]. split_and!; [done..|lia].
Qed.

Lemma fold_unary_wf ops node :
  Forall (fun op => op ∈ (js <$> unary_operators)) ops -> wf_node node ->
  wf_node (fold_left (fun n op => Unary op n) ops node) /\
  node_size (fold_left (fun n op => Unary op n) ops node) = (length ops + node_size node)%nat.
Proof.
  intros Hops. revert node. induction Hops as [|op ops Hop Hops IH]; intros node Hn; [done|].
  simpl. destruct (IH (Unary op node)) as [H1 H2]; [by constructor|].
  split; [done|]. rewrite H2. simpl. lia.
Qed.

Lemma parseUnary_ok cond : node_ok cond -> node_ok (parseUnary cond).
Proof.
  intros Hcond ts Hg. unfold parseUnary.
  run_parser (unary_loop_ok ts [] Hg ltac:(constructor)).
  run_parser (parsePrimary_ok cond Hcond l0 ltac:(done)).
  split; [done|]. intros ? ? [= <- <-]. destruct (fold_unary_wf l e) as [Hw Hs]; [done..|].
  split_and!; [done..|]. simpl in *. lia.
Qed.

(** The six binary levels. *)
Lemma parseOr_ok depth cond : node_ok cond -> node_ok (parseOr depth cond).
Proof.
  intros Hcond. unfold parseOr, parseAnd, parseEquality, parseComparison, parseAdditive,
    parseMultiplicative.
  repeat (apply parseBinary_ok; [|vm_compute; set_solver|vm_compute; set_solver]).
  by apply parseUnary_ok.
Qed.

Lemma parseConditional_ok fuel depth :
  (MAX_EXPR_DEPTH + 2 <= fuel + depth)%nat -> (depth <= S MAX_EXPR_DEPTH)%nat ->
  node_ok (parseConditional fuel depth).
Proof.
  revert depth. induction fuel as [|f IH]; intros depth Hf Hd ts Hg; [lia|].
  cbn [parseConditional]. case_match eqn:Hm; [done|]. apply Nat.ltb_ge in Hm.
  assert (node_ok (parseConditional f (S depth))) as Hc by (apply IH; lia).
  cbv zeta. run_parser (parseOr_ok depth _ Hc ts Hg). run_peek H. case_match.
  { split; [done|]. by intros ? ? [= <- <-]. }
  run_parser (take_good "?" l ltac:(done) ltac:(done)).
  run_parser (Hc l0 ltac:(done)).
  run_parser (take_good ":" l1 ltac:(done) ltac:(done)).
  run_parser (Hc l2 ltac:(done)).
  split; [done|]. intros ? ? [= <- <-]. split_and!; [done|by constructor|simpl; lia].
Qed.

(** The whole parser: one of its own results, and a well-formed tree whose
    nodes are no more than the tokens. *)
Lemma parse_ok us :
  Forall wf_token us ->
  js_result (parse (us ++ [eof_token])) /\
  forall n, parse (us ++ [eof_token]) = Ok n -> wf_node n /\ (node_size n <= length us)%nat.
Proof.
  intros Hus. assert (good (us ++ [eof_token])) as Hg by by exists us.
  unfold parse. destruct (parseConditional_ok DEPTH_FUEL 0) with (ts := us ++ [eof_token]) as [Hjs Hok];
    [unfold DEPTH_FUEL, MAX_EXPR_DEPTH; lia..|done|].
  destruct (parseConditional _ _ _) as [[n r]|e]; [|done].
  destruct (Hok _ _ eq_refl) as (Hr & Hw & Hs). cbn [res_bind]. run_peek Hr.
  rewrite length_app in Hs. simpl in Hs.
  destruct (tok_kind _); (split; [done|]); try done. intros ? [= <-]. split; [done|].
  subst r. simpl in Hs. lia.
Qed.

Lemma parseRestrictedExpr_ok s :
  js_result (parseRestrictedExpr s) /\
  forall n, parseRestrictedExpr s = Ok n ->
    wf_node n /\ (node_size n <= MAX_EXPR_TOKENS)%nat.
Proof.
  unfold parseRestrictedExpr. case_match; [done|]. destruct (stripExprVersion _) as [v body].
  pose proof (tokenizeExpr_js body) as Hjs. pose proof (tokenizeExpr_spec body) as Hspec.
  destruct (tokenizeExpr body) as [ts|e]; [|done]. cbn [res_bind].
  destruct (Hspec ts eq_refl) as (us & -> & Hus & Hlen).
  destruct (parse_ok us Hus) as [H1 H2]. split; [done|]. intros n Hn.
  destruct (H2 n Hn). split; [done|lia].
Qed.

(** C40: Every expression the parser accepts is a tree of the restricted language:
    finite literals, identifiers that are words of ASCII letters, digits and underscores,
    the listed operators, calls with at most [MAX_CALL_ARGUMENTS] arguments, and no more
    nodes than tokens are allowed. *)
Theorem parsed_trees_well_formed (s : list N) (n : ExprNode) :
  parseRestrictedExpr s = Ok n -> wf_node n /\ node_size n <= MAX_EXPR_TOKENS.
Proof. apply parseRestrictedExpr_ok. Qed.

Lemma parsed_trees_well_formed_witness :
  exists n, parseRestrictedExpr (js "max(p, 1) * -2") = Ok n /\ wf_node n.
Proof.
  destruct (parseRestrictedExpr (js "max(p, 1) * -2")) as [n|] eqn:E; [|vm_compute in E; discriminate].
  exists n. split; [reflexivity|]. apply (parsed_trees_well_formed (js "max(p, 1) * -2") n E).
Defined.
