(* ===== verification/BillingGrammar.v ===== *)
(** * Billing expressions: the grammar the parser implements

    The comment of [RestrictedExprParser] calls the accepted language a data
    grammar.  This file states that grammar as inductive relations between token
    sequences and trees, precedence level by precedence level, and proves that
    the recursive-descent parser of [BillingParser] decides exactly it. *)
From S2P Require Import Prelude JsString JsNumber BillingLexer BillingParser.
From Stdlib Require Import Lia.

(** ** Precedence levels: 1 is multiplicative, 6 is [||] *)

Definition level_operators (j : nat) : list string :=
  match j with
  | 0 => ["*"; "/"; "%"]
  | 1 => ["+"; "-"]
  | 2 => ["<"; "<="; ">"; ">="]
  | 3 => ["=="; "!="]
  | 4 => ["&&"]
  | 5 => ["||"]
  | _ => []
  end%string.

(** The parser of a level, the levels below it being the operands. *)
Fixpoint level_parser (depth : nat) (cond : parser ExprNode) (j : nat) : parser ExprNode :=
  match j with
  | 0 => parseUnary cond
  | S j' => parseBinary depth (level_parser depth cond j') (level_operators j')
  end.

Lemma parseOr_level depth cond : parseOr depth cond = level_parser depth cond 6.
Proof. reflexivity. Qed.

(** ** The grammar

    [g_cond d ts n]: the tokens [ts] at nesting depth [d] spell the tree [n]. *)

Notation tok_is t s := (text_in t [s] = true) (only parsing).

Inductive g_cond : nat -> list ExprToken -> ExprNode -> Prop :=
| g_plain d ts n :
    (d <= MAX_EXPR_DEPTH)%nat -> g_level d 6 ts n -> g_cond d ts n
| g_if d t1 q t2 colon t3 n1 n2 n3 :
    (d <= MAX_EXPR_DEPTH)%nat -> g_level d 6 t1 n1 ->
    tok_is q "?"%string -> g_cond (S d) t2 n2 ->
    tok_is colon ":"%string -> g_cond (S d) t3 n3 ->
    g_cond d (t1 ++ q :: t2 ++ colon :: t3) (Conditional n1 n2 n3)
with g_level : nat -> nat -> list ExprToken -> ExprNode -> Prop :=
| g_unary d ops ts n :
    Forall (fun t => text_in t unary_operators = true) ops ->
    (length ops <= MAX_EXPR_DEPTH)%nat -> g_primary d ts n ->
    g_level d 0 (ops ++ ts) (foldr (fun t m => Unary (tok_text t) m) n ops)
| g_lift d j ts n : g_level d j ts n -> g_level d (S j) ts n
| g_binary d j t1 op t2 l r :
    g_level d (S j) t1 l -> text_in op (level_operators j) = true -> g_level d j t2 r ->
    g_level d (S j) (t1 ++ op :: t2) (Binary (tok_text op) l r)
with g_primary : nat -> list ExprToken -> ExprNode -> Prop :=
| g_literal d t v :
    tok_kind t = KNumber \/ tok_kind t = KString -> tok_value t = Some v ->
    g_primary d [t] (Literal v)
| g_boolean d t :
    tok_kind t = KIdentifier -> text_in t ["true"; "false"]%string = true ->
    g_primary d [t] (Literal (VBool (text_in t ["true"]%string)))
| g_identifier d t :
    tok_kind t = KIdentifier -> text_in t ["true"; "false"]%string = false ->
    g_primary d [t] (Identifier (tok_text t))
| g_call d t lp ts rp ns :
    tok_kind t = KIdentifier -> text_in t ["true"; "false"]%string = false ->
    tok_is lp "("%string -> g_args d ts ns -> (length ns <= MAX_CALL_ARGUMENTS)%nat ->
    tok_is rp ")"%string ->
    g_primary d (t :: lp :: ts ++ [rp]) (Call (tok_text t) ns)
| g_paren d lp ts rp n :
    tok_is lp "("%string -> g_cond (S d) ts n -> tok_is rp ")"%string ->
    g_primary d (lp :: ts ++ [rp]) n
with g_args : nat -> list ExprToken -> list ExprNode -> Prop :=
| g_no_args d : g_args d [] []
| g_last_arg d ts n : g_cond (S d) ts n -> g_args d ts [n]
| g_next_arg d t1 comma t2 n m ns :
    g_cond (S d) t1 n -> tok_is comma ","%string -> g_args d t2 (m :: ns) ->
    g_args d (t1 ++ comma :: t2) (n :: m :: ns).

Scheme g_cond_mut := Induction for g_cond Sort Prop
with g_level_mut := Induction for g_level Sort Prop
with g_primary_mut := Induction for g_primary Sort Prop
with g_args_mut := Induction for g_args Sort Prop.
Combined Scheme grammar_mutind from g_cond_mut, g_level_mut, g_primary_mut, g_args_mut.

(** ** Soundness: what the parser builds is spelled by what it consumed *)

(** A parser that follows a relation between consumed tokens and results. *)
Definition follows {A} (G : list ExprToken -> A -> Prop) (p : parser A) : Prop :=
  forall ts a r, good ts -> p ts = Ok (a, r) -> exists used, ts = used ++ r /\ G used a.

Lemma take_follows text ts t r :
  take text ts = Ok (t, r) -> ts = t :: r /\ text_in t [text] = true.
Proof.
  unfold take. destruct ts as [|t' ts]; [done|]. case_bool_decide as H; [|done].
  intros [= <- <-]. split; [done|]. unfold text_in. apply bool_decide_eq_true.
  simpl. rewrite H. set_solver.
Qed.

Lemma binary_loop_follows d j cond :
  node_ok (level_parser d cond j) -> follows (g_level d j) (level_parser d cond j) ->
  (j < 6)%nat ->
  forall fuel node ts used n r, good ts -> g_level d (S j) used node ->
  binary_loop fuel (level_parser d cond j) (level_operators j) node ts = Ok (n, r) ->
  exists more, ts = more ++ r /\ g_level d (S j) (used ++ more) n.
Proof.
  intros Hok Hfol Hj. induction fuel as [|f IH]; intros node ts used n r Hg Hu H; [done|].
  cbn [binary_loop] in H. destruct (peek_good ts Hg) as (t & q & -> & Hp). rewrite Hp in H.
  cbn [res_bind] in H. destruct (text_in t _) eqn:Et; cbn [take_any res_bind] in H.
  2:{ injection H as <- <-. exists []. by rewrite app_nil_r. }
  destruct (text_in_good _ _ _ Hg Et) as [_ Hq].
  { destruct j as [|[|[|[|[|[|]]]]]]; vm_compute; set_solver. }
  apply res_bind_Ok in H as ([rhs ts2] & H2 & H).
  destruct (Hfol _ _ _ Hq H2) as (u2 & -> & Hu2). destruct (Hok _ Hq) as [_ Hok'].
  destruct (Hok' _ _ H2) as (Hg2 & _ & _).
  destruct (IH _ _ (used ++ t :: u2) _ _ Hg2 (g_binary _ _ _ _ _ _ _ Hu Et Hu2) H)
    as (more & -> & Hm).
  exists (t :: u2 ++ more). split; [by simpl; rewrite <- app_assoc|]. by rewrite <- app_assoc in Hm.
Qed.

Lemma level_parser_ok d cond j : node_ok cond -> (j <= 6)%nat -> node_ok (level_parser d cond j).
Proof.
  intros Hc. induction j as [|j IH]; intros Hj; [by apply parseUnary_ok|].
  apply parseBinary_ok; [apply IH; lia|..];
    destruct j as [|[|[|[|[|[|]]]]]]; try lia; vm_compute; set_solver.
Qed.

Section soundness.
Context (d : nat) (cond : parser ExprNode).
Hypothesis cond_ok : node_ok cond.
Hypothesis cond_follows : follows (g_cond (S d)) cond.

Lemma args_loop_follows fuel : forall nargs ts ns r, good ts ->
  args_loop fuel cond nargs ts = Ok (ns, r) ->
  exists used, ts = used ++ r /\ g_args d used ns /\ ns <> [] /\
    (nargs + length ns <= MAX_CALL_ARGUMENTS)%nat.
Proof.
  induction fuel as [|f IH]; intros nargs ts ns r Hg H; [done|]. cbn [args_loop] in H.
  case_match eqn:Hn; [done|]. apply Nat.leb_gt in Hn.
  apply res_bind_Ok in H as ([a ts1] & H1 & H). destruct (cond_follows _ _ _ Hg H1) as (u1 & -> & Hu1).
  destruct (cond_ok _ Hg) as [_ Hok]. destruct (Hok _ _ H1) as (Hg1 & _ & _).
  apply res_bind_Ok in H as (t & Ht & H). case_match.
  { injection H as <- <-. exists u1. split_and!; [done|by apply g_last_arg|done|simpl; lia]. }
  apply res_bind_Ok in H as ([t2 ts2] & H2 & H). destruct (take_follows _ _ _ _ H2) as [-> Hc].
  destruct (take_good "," _ ltac:(done) Hg1) as [_ Htk]. destruct (Htk _ _ H2) as (Hg2 & _ & _).
  apply res_bind_Ok in H as ([ns' ts3] & H3 & H). injection H as <- <-.
  destruct (IH _ _ _ _ Hg2 H3) as (u2 & -> & Hu2 & Hne & Hle).
  exists (u1 ++ t2 :: u2). split; [by rewrite <- app_assoc|].
  destruct ns' as [|m ns']; [done|]. split_and!; [by apply g_next_arg|done|simpl in *; lia].
Qed.

Lemma parsePrimary_follows : follows (g_primary d) (parsePrimary cond).
Proof.
  intros ts n r Hg H. unfold parsePrimary in H.
  destruct (peek_good ts Hg) as (t & q & -> & Hp). rewrite Hp in H. cbn [res_bind] in H.
  assert (forall tx, text_in t [tx] = true -> js tx <> [] -> good q) as Hgq.
  { intros tx Ht Hne. eapply text_in_good; [done..|]. simpl. set_solver. }
  assert (tok_kind t = KIdentifier -> good q) as Hgi.
  { intros Hk. destruct (good_cases _ Hg) as [[= -> ->]|(? & ? & [= <- <-] & _ & ?)]; done. }
  assert (tok_kind t <> KNumber -> tok_kind t <> KString -> tok_kind t <> KIdentifier ->
    (if text_in t ["("%string] then
      let* (_, ts1) := take "(" (t :: q) in
      let* (node, ts2) := cond ts1 in
      let* (_, ts3) := take ")" ts2 in Ok (node, ts3)
     else Throw (Error (js "unexpected token: " ++
           (if nonempty (tok_text t) then tok_text t else js "end of expression")))) = Ok (n, r) ->
    exists used, t :: q = used ++ r /\ g_primary d used n) as Hparen.
  { intros Hk1 Hk2 Hk3. clear H. destruct (text_in t ["("%string]) eqn:Et; [|done]. intros H'.
    apply res_bind_Ok in H' as ([t1 ts1] & H1 & H'). apply take_follows in H1 as [[= <- <-] _].
    specialize (Hgq _ Et ltac:(done)).
    apply res_bind_Ok in H' as ([m ts2] & H2 & H'). destruct (cond_follows _ _ _ Hgq H2) as (u & -> & Hu).
    apply res_bind_Ok in H' as ([t3 ts3] & H3 & H'). apply take_follows in H3 as [-> Hrp].
    injection H' as <- <-. exists (t :: u ++ [t3]). split; [by simpl; rewrite <- app_assoc|].
    by apply g_paren. }
  destruct (tok_kind t) eqn:Hk; [| | |by apply Hparen..].
  - cbn [take_any res_bind] in H. destruct (tok_value t) eqn:Hv; [|done]. injection H as <- <-.
    exists [t]. split; [done|]. apply g_literal; auto.
  - cbn [take_any res_bind] in H. destruct (tok_value t) eqn:Hv; [|done]. injection H as <- <-.
    exists [t]. split; [done|]. apply g_literal; auto.
  - clear Hparen. specialize (Hgi eq_refl). cbn [take_any res_bind] in H.
    destruct (text_in t ["true"; "false"]%string) eqn:Eb.
    { injection H as <- <-. exists [t]. split; [done|]. by apply g_boolean. }
    apply res_bind_Ok in H as (t1 & Ht1 & H). case_match.
    { injection H as <- <-. exists [t]. split; [done|]. by apply g_identifier. }
    apply res_bind_Ok in H as ([t2 ts2] & H2 & H).
    destruct (take_good "(" _ ltac:(done) Hgi) as [_ Htk]. destruct (Htk _ _ H2) as (Hg2 & _ & _).
    apply take_follows in H2 as [-> Hlp].
    apply res_bind_Ok in H as (t3 & Ht3 & H). apply res_bind_Ok in H as ([ns ts3] & H3 & H).
    apply res_bind_Ok in H as ([t4 ts4] & H4 & H). injection H as <- <-.
    apply take_follows in H4 as [-> Hrp].
    assert (exists u, ts2 = u ++ t4 :: ts4 /\ g_args d u ns /\ (length ns <= MAX_CALL_ARGUMENTS)%nat)
      as (u & -> & Hu & Hle).
    { case_match; [|injection H3 as <- <-; exists []; split_and!; [done|constructor|simpl; lia]].
      destruct (args_loop_follows _ _ _ _ _ Hg2 H3) as (u & ? & ? & _ & ?). by exists u. }
    exists (t :: t2 :: u ++ [t4]). split; [by simpl; rewrite <- app_assoc|]. by apply g_call.
Qed.
End soundness.

Lemma unary_loop_follows ts : forall ops ops' r,
  good ts -> (length ops <= MAX_EXPR_DEPTH)%nat -> unary_loop ops ts = Ok (ops', r) ->
  exists us, ts = us ++ r /\ ops' = reverse (tok_text <$> us) ++ ops /\
    Forall (fun t => text_in t unary_operators = true) us /\
    (length us + length ops <= MAX_EXPR_DEPTH)%nat.
Proof.
  induction ts as [|t ts IH]; intros ops ops' r Hg Hlen H; [done|]. cbn [unary_loop] in H.
  destruct (text_in t _) eqn:Et.
  2:{ injection H as <- <-. exists []. split_and!; [done..|constructor|done]. }
  destruct (text_in_good _ _ _ Hg Et) as [_ Hg']; [by vm_compute; set_solver|].
  destruct (_ <=? _)%nat eqn:Em; [done|]. apply Nat.leb_gt in Em.
  destruct (IH (tok_text t :: ops) _ _ Hg' ltac:(simpl; lia) H) as (us & -> & -> & Hf & Hl).
  exists (t :: us). rewrite fmap_cons, reverse_cons, <- app_assoc. simpl in *.
  split_and!; [done..|by constructor|lia].
Qed.

Lemma fold_left_unary us n ops :
  fold_left (fun n op => Unary op n) (reverse (tok_text <$> us) ++ ops) n =
  fold_left (fun n op => Unary op n) ops (foldr (fun t m => Unary (tok_text t) m) n us).
Proof.
  revert ops. induction us as [|t us IH]; intros ops; [done|].
  rewrite fmap_cons, reverse_cons, <- app_assoc, IH. done.
Qed.

Lemma level_follows d cond :
  node_ok cond -> follows (g_cond (S d)) cond ->
  forall j, (j <= 6)%nat -> follows (g_level d j) (level_parser d cond j).
Proof.
  intros Hok Hfol. induction j as [|j IH]; intros Hj ts n r Hg H.
  - cbn [level_parser] in H. unfold parseUnary in H.
    apply res_bind_Ok in H as ([ops ts1] & H1 & H). apply res_bind_Ok in H as ([m ts2] & H2 & H).
    injection H as <- <-. destruct (unary_loop_ok ts [] Hg ltac:(constructor)) as [_ Hun].
    destruct (Hun _ _ H1) as (Hg1 & _ & _).
    apply unary_loop_follows in H1 as (us & -> & -> & Hf & Hl); [|done|simpl; lia].
    destruct (parsePrimary_follows d cond Hok Hfol _ _ _ Hg1 H2) as (u & -> & Hu).
    exists (us ++ u). split; [by rewrite app_assoc|]. rewrite fold_left_unary. simpl.
    apply g_unary; [done|simpl in Hl; lia|done].
  - cbn [level_parser] in H. unfold parseBinary in H. destruct (_ <? _)%nat; [done|].
    apply res_bind_Ok in H as ([m ts1] & H1 & H).
    destruct (IH ltac:(lia) _ _ _ Hg H1) as (u & -> & Hu).
    destruct (level_parser_ok d cond j Hok ltac:(lia) _ Hg) as [_ Hp].
    destruct (Hp _ _ H1) as (Hg1 & _ & _).
    destruct (binary_loop_follows d j cond (level_parser_ok d cond j Hok ltac:(lia))
      (IH ltac:(lia)) ltac:(lia) _ _ _ _ _ _ Hg1 (g_lift _ _ _ _ Hu) H) as (more & -> & Hm).
    exists (u ++ more). by rewrite app_assoc.
Qed.

Lemma parseConditional_follows fuel : forall d,
  (MAX_EXPR_DEPTH + 2 <= fuel + d)%nat -> (d <= S MAX_EXPR_DEPTH)%nat ->
  follows (g_cond d) (parseConditional fuel d).
Proof.
  induction fuel as [|f IH]; intros d Hf Hd ts n r Hg H; [lia|].
  cbn [parseConditional] in H. case_match eqn:Hm; [done|]. apply Nat.ltb_ge in Hm. cbv zeta in H.
  assert (node_ok (parseConditional f (S d))) as Hok by (apply parseConditional_ok; lia).
  assert (follows (g_cond (S d)) (parseConditional f (S d))) as Hfol by (apply IH; lia).
  rewrite parseOr_level in H. apply res_bind_Ok in H as ([test ts1] & H1 & H).
  destruct (level_follows d _ Hok Hfol 6 ltac:(lia) _ _ _ Hg H1) as (u1 & -> & Hu1).
  destruct (level_parser_ok d _ 6 Hok ltac:(lia) _ Hg) as [_ Hp]. destruct (Hp _ _ H1) as (Hg1 & _ & _).
  apply res_bind_Ok in H as (t & Ht & H). case_match.
  { injection H as <- <-. exists u1. split; [done|]. by apply g_plain. }
  apply res_bind_Ok in H as ([q ts2] & H2 & H).
  destruct (take_good "?" _ ltac:(done) Hg1) as [_ Hk2]. destruct (Hk2 _ _ H2) as (Hg2 & _ & _).
  apply take_follows in H2 as [-> Hq].
  apply res_bind_Ok in H as ([c ts3] & H3 & H). destruct (Hfol _ _ _ Hg2 H3) as (u3 & -> & Hu3).
  destruct (Hok _ Hg2) as [_ Hp3]. destruct (Hp3 _ _ H3) as (Hg3 & _ & _).
  apply res_bind_Ok in H as ([co ts4] & H4 & H).
  destruct (take_good ":" _ ltac:(done) Hg3) as [_ Hk4]. destruct (Hk4 _ _ H4) as (Hg4 & _ & _).
  apply take_follows in H4 as [-> Hco].
  apply res_bind_Ok in H as ([a ts5] & H5 & H). destruct (Hfol _ _ _ Hg4 H5) as (u5 & -> & Hu5).
  injection H as <- <-. exists (u1 ++ q :: u3 ++ co :: u5). split.
  - rewrite <- app_assoc. simpl. by rewrite <- app_assoc.
  - by apply g_if.
Qed.

(** ** Completeness: what the grammar spells is parsed *)

(** The next token does not continue a phrase of level [j]. *)
Definition stops (j : nat) (t : ExprToken) : Prop :=
  text_in t ["("]%string = false /\
  forall i, (i < j)%nat -> text_in t (level_operators i) = false.

(** The next token closes a whole conditional expression. *)
Definition closes (t : ExprToken) : Prop :=
  tok_text t = [] \/ text_in t [")"; ":"; ","]%string = true.

Lemma text_in_disjoint t ops ops' :
  text_in t ops = true -> Forall (fun x => x ∉ (js <$> ops')) (js <$> ops) ->
  text_in t ops' = false.
Proof.
  unfold text_in. intros H Hd. breflect. apply bool_decide_eq_false.
  rewrite Forall_forall in Hd. by apply Hd.
Qed.

Lemma closes_stops j t : (j <= 6)%nat -> closes t -> stops j t.
Proof.
  intros Hj [He|Ht].
  - split; [|intros i Hi]; unfold text_in; rewrite He; apply bool_decide_eq_false;
      [vm_compute; set_solver|].
    destruct i as [|[|[|[|[|[|]]]]]]; try lia; vm_compute; set_solver.
  - split; [|intros i Hi]; eapply text_in_disjoint; try exact Ht.
    + vm_compute. repeat constructor; set_solver.
    + destruct i as [|[|[|[|[|[|]]]]]]; try lia; vm_compute; repeat constructor; set_solver.
Qed.

Lemma closes_not_question t : closes t -> text_in t ["?"]%string = false.
Proof.
  intros [He|Ht].
  - unfold text_in. rewrite He. apply bool_decide_eq_false. vm_compute. set_solver.
  - eapply text_in_disjoint; [exact Ht|]. vm_compute. repeat constructor; set_solver.
Qed.

Lemma question_stops t : text_in t ["?"]%string = true -> stops 6 t.
Proof.
  intros Ht. split; [|intros i Hi]; eapply text_in_disjoint; try exact Ht.
  - vm_compute. repeat constructor; set_solver.
  - destruct i as [|[|[|[|[|[|]]]]]]; try lia; vm_compute; repeat constructor; set_solver.
Qed.

(** An operator of level [j] ends a phrase of any tighter level. *)
Lemma operator_stops j t :
  (j < 6)%nat -> text_in t (level_operators j) = true -> stops j t.
Proof.
  intros Hj Ht. split; [|intros i Hi]; eapply text_in_disjoint; try exact Ht.
  - destruct j as [|[|[|[|[|[|]]]]]]; try lia; vm_compute; repeat constructor; set_solver.
  - destruct j as [|[|[|[|[|[|]]]]]]; try lia;
      destruct i as [|[|[|[|[|[|]]]]]]; try lia; vm_compute; repeat constructor; set_solver.
Qed.

(** Only operator tokens carry an operator text. *)
Definition operator_head (o : list N) : bool :=
  match o with
  | c :: _ => negb (is_digit c) && negb (c =? 46)%N && negb (c =? 34)%N && negb (isIdentifierStart c)
  | [] => false
  end.

Lemma operator_texts_head : forallb operator_head operator_texts = true.
Proof. vm_compute. reflexivity. Qed.

Lemma word_not_operator t ops :
  wf_token t -> tok_kind t <> KOperator -> js <$> ops ⊆ operator_texts -> text_in t ops = false.
Proof.
  intros Hw Hk Hsub. unfold text_in. apply bool_decide_eq_false. intros Hin%Hsub.
  pose proof operator_texts_head as Hh. rewrite forallb_forall in Hh.
  apply list_elem_of_In, Hh in Hin. unfold wf_token in Hw. unfold operator_head in Hin.
  destruct (tok_kind t); try done.
  - destruct Hw as [_ (c & r & Hc & [Hd|Hd])]; rewrite Hc in Hin; breflect; congruence.
  - destruct Hw as [_ (r & Hc)]; rewrite Hc in Hin; breflect; congruence.
  - apply plain_word_start in Hw as (c & r & Hc & Hd); rewrite Hc in Hin; breflect; congruence.
Qed.

Lemma starts_mut :
  (forall d ts n, g_cond d ts n -> Forall wf_token ts ->
     exists t r, ts = t :: r /\ text_in t [")"]%string = false) /\
  (forall d j ts n, g_level d j ts n -> Forall wf_token ts ->
     exists t r, ts = t :: r /\ text_in t [")"]%string = false) /\
  (forall d ts n, g_primary d ts n -> Forall wf_token ts ->
     exists t r, ts = t :: r /\ text_in t (")" :: unary_operators)%string = false) /\
  (forall d ts ns, g_args d ts ns -> True).
Proof.
  assert (forall t, wf_token t -> tok_kind t <> KOperator ->
    text_in t (")" :: unary_operators)%string = false) as Hword.
  { intros t Hw Hk. apply word_not_operator; [done..|]. vm_compute. set_solver. }
  apply grammar_mutind; intros; try done.
  - auto.
  - apply Forall_app in H2 as [Hw _]. destruct (H Hw) as (t & r & -> & ?). by eexists _, _.
  - apply Forall_app in H0 as [Hops Hts]. destruct ops as [|t ops].
    + destruct (H Hts) as (t & r & -> & Ht). eexists _, _. split; [done|].
      unfold text_in in *. breflect. apply bool_decide_eq_false. set_solver.
    + apply Forall_cons in f as [Ht _]. eexists _, _. split; [done|].
      eapply text_in_disjoint; [exact Ht|]. vm_compute. repeat constructor; set_solver.
  - auto.
  - apply Forall_app in H1 as [Hw _]. destruct (H Hw) as (x & y & -> & ?). by eexists _, _.
  - apply Forall_cons in H as [Hw _]. eexists _, _. split; [done|].
    apply Hword; [done|]. by destruct o as [->| ->].
  - apply Forall_cons in H as [Hw _]. eexists _, _. split; [done|]. apply Hword; [done|congruence].
  - apply Forall_cons in H as [Hw _]. eexists _, _. split; [done|]. apply Hword; [done|congruence].
  - apply Forall_cons in H0 as [Hw _]. eexists _, _. split; [done|]. apply Hword; [done|congruence].
  - eexists _, _. split; [done|]. eapply text_in_disjoint; [eassumption|].
    vm_compute. repeat constructor; set_solver.
Qed.

Lemma take_ok text t r : text_in t [text] = true -> take text (t :: r) = Ok (t, r).
Proof.
  unfold text_in, take. intros H. breflect. simpl in H. apply list_elem_of_singleton in H.
  by rewrite bool_decide_eq_true_2.
Qed.

Lemma unary_loop_ops us t r : forall ops,
  Forall (fun t => text_in t unary_operators = true) us ->
  (length us + length ops <= MAX_EXPR_DEPTH)%nat -> text_in t unary_operators = false ->
  unary_loop ops (us ++ t :: r) = Ok (reverse (tok_text <$> us) ++ ops, t :: r).
Proof.
  induction us as [|u us IH]; intros ops Hus Hlen Ht.
  - simpl. change ["+"; "-"; "!"]%string with unary_operators. by rewrite Ht.
  - apply Forall_cons in Hus as [Hu Hus]. cbn [app unary_loop].
    change ["+"; "-"; "!"]%string with unary_operators. rewrite Hu. cbn [length] in Hlen.
    rewrite (proj2 (Nat.leb_gt _ _)) by lia. rewrite IH; [|done|simpl; lia|done].
    by rewrite fmap_cons, reverse_cons, <- app_assoc.
Qed.

Lemma binary_loop_stop fuel next ops node t r :
  text_in t ops = false -> binary_loop (S fuel) next ops node (t :: r) = Ok (node, t :: r).
Proof. intros H. cbn [binary_loop peek res_bind]. by rewrite H. Qed.

(** *** The statements proved by induction on the grammar *)

Definition complete_cond d ts n := Forall wf_token ts -> forall f t r,
  (MAX_EXPR_DEPTH + 2 <= f + d)%nat -> closes t ->
  parseConditional f d (ts ++ t :: r) = Ok (n, t :: r).

(** A phrase of level [S j] read by the loop: the loop reaches the whole tree
    from the first operand, whatever follows that does not end level [j]. *)
Definition loop_reaches d cond j ts n := forall t r, stops j t ->
  exists m q k, level_parser d cond j (ts ++ t :: r) = Ok (m, q) /\
    (k + length (t :: r) <= length q)%nat /\
    forall fuel, binary_loop (k + fuel) (level_parser d cond j) (level_operators j) m q =
                 binary_loop fuel (level_parser d cond j) (level_operators j) n (t :: r).

Definition complete_level d j ts n :=
  (j <= 6)%nat -> (d <= MAX_EXPR_DEPTH)%nat -> Forall wf_token ts -> forall f,
  (MAX_EXPR_DEPTH + 2 <= f + S d)%nat ->
  let cond := parseConditional f (S d) in
  (forall t r, stops j t -> level_parser d cond j (ts ++ t :: r) = Ok (n, t :: r)) /\
  match j with O => True | S j' => loop_reaches d cond j' ts n end.

Definition complete_primary d ts n :=
  Forall wf_token ts -> forall f t r,
  (MAX_EXPR_DEPTH + 2 <= f + S d)%nat -> text_in t ["("]%string = false ->
  parsePrimary (parseConditional f (S d)) (ts ++ t :: r) = Ok (n, t :: r).

Definition complete_args d ts ns :=
  Forall wf_token ts -> forall f t r nargs fuel,
  (MAX_EXPR_DEPTH + 2 <= f + S d)%nat -> text_in t [")"]%string = true -> ns <> [] ->
  (nargs + length ns <= MAX_CALL_ARGUMENTS)%nat -> (length (ts ++ t :: r) < fuel)%nat ->
  args_loop fuel (parseConditional f (S d)) nargs (ts ++ t :: r) = Ok (ns, t :: r).

Lemma reaches_level d cond j ts n :
  (d <= MAX_EXPR_DEPTH)%nat -> loop_reaches d cond j ts n ->
  forall t r, stops (S j) t -> level_parser d cond (S j) (ts ++ t :: r) = Ok (n, t :: r).
Proof.
  intros Hd Hl t r [Hp Hs]. destruct (Hl t r) as (m & q & k & H1 & H2 & H3).
  { split; [done|]. intros i Hi. apply Hs. lia. }
  cbn [level_parser]. unfold parseBinary. rewrite (proj2 (Nat.ltb_ge _ _)) by done.
  rewrite H1. cbn [res_bind]. replace (S (length q)) with (k + S (length q - k)) by lia.
  rewrite H3. apply binary_loop_stop, Hs. lia.
Qed.

Lemma complete_lift d j ts n : complete_level d j ts n -> complete_level d (S j) ts n.
Proof.
  intros IH Hj Hd Hw f Hf cond. destruct (IH ltac:(lia) Hd Hw f Hf) as [Hlvl _].
  assert (loop_reaches d cond j ts n) as Hr.
  { intros t r Hs. exists n, (t :: r), 0. split_and!; [by apply Hlvl|lia|done]. }
  split; [|done]. by apply reaches_level.
Qed.

Lemma complete_binary d j t1 op t2 l r :
  complete_level d (S j) t1 l -> text_in op (level_operators j) = true ->
  complete_level d j t2 r -> complete_level d (S j) (t1 ++ op :: t2) (Binary (tok_text op) l r).
Proof.
  intros IH1 Hop IH2 Hj Hd Hw f Hf cond.
  apply Forall_app in Hw as [Hw1 Hw2]. apply Forall_cons in Hw2 as [_ Hw2].
  destruct (IH1 Hj Hd Hw1 f Hf) as [_ Hr1]. destruct (IH2 ltac:(lia) Hd Hw2 f Hf) as [Hl2 _].
  assert (loop_reaches d cond j (t1 ++ op :: t2) (Binary (tok_text op) l r)) as Hr.
  { intros t q Hs. destruct (Hr1 op (t2 ++ t :: q)) as (m & q1 & k & Hm & Hk & Hloop).
    { apply operator_stops; [lia|done]. }
    exists m, q1, (S k). split_and!.
    - by rewrite <- app_assoc.
    - simpl in *. rewrite length_app in Hk. simpl in Hk. lia.
    - intros fuel. replace (S k + fuel) with (k + S fuel) by lia. rewrite Hloop.
      cbn [binary_loop peek res_bind]. rewrite Hop. cbn [take_any res_bind].
      rewrite Hl2 by done. done. }
  split; [|done]. by apply reaches_level.
Qed.

Lemma complete_unary d ops ts n :
  Forall (fun t => text_in t unary_operators = true) ops ->
  (length ops <= MAX_EXPR_DEPTH)%nat -> g_primary d ts n -> complete_primary d ts n ->
  complete_level d 0 (ops ++ ts) (foldr (fun t m => Unary (tok_text t) m) n ops).
Proof.
  intros Hops Hlen Hg IH _ Hd Hw f Hf cond. split; [|done]. intros t r [Hp _].
  apply Forall_app in Hw as [_ Hw]. destruct starts_mut as (_ & _ & Hst & _).
  destruct (Hst _ _ _ Hg Hw) as (u & us & Hu & Hnu). cbn [level_parser]. unfold parseUnary.
  assert (ts ++ t :: r = u :: (us ++ t :: r)) as He by by rewrite Hu.
  rewrite <- app_assoc, He, unary_loop_ops; [|done|simpl; lia|].
  2:{ unfold text_in in *. breflect. apply bool_decide_eq_false. set_solver. }
  cbn [res_bind]. rewrite <- He. unfold cond. rewrite IH by done. cbn [res_bind].
  by rewrite fold_left_unary.
Qed.

Lemma complete_call d t lp ts rp ns :
  tok_kind t = KIdentifier -> text_in t ["true"; "false"]%string = false ->
  text_in lp ["("]%string = true -> g_args d ts ns -> complete_args d ts ns ->
  (length ns <= MAX_CALL_ARGUMENTS)%nat -> text_in rp [")"]%string = true ->
  complete_primary d (t :: lp :: ts ++ [rp]) (Call (tok_text t) ns).
Proof.
  intros Hk Hb Hlp Hg IH Hle Hrp Hw f t' r Hf Ht'. unfold parsePrimary. cbn [app peek res_bind].
  rewrite Hk. cbn [take_any res_bind]. rewrite Hb. cbn [peek res_bind]. rewrite Hlp. cbn [negb].
  rewrite take_ok by done. cbn [res_bind]. rewrite <- app_assoc. cbn [app].
  do 2 apply Forall_cons in Hw as [_ Hw]. apply Forall_app in Hw as [Hw _].
  destruct starts_mut as (Hst & _).
  assert (ns = [] /\ ts = [] \/ ns <> [] /\ exists u us, ts = u :: us /\ text_in u [")"]%string = false)
    as [[-> ->]|(Hne & u & us & Hu & Hnu)].
  { inversion Hg; subst; [by left|right; split; [done|]..].
    - by eapply Hst. - apply Forall_app in Hw as [Hw1 _].
      destruct (Hst _ _ _ H Hw1) as (u & us & -> & ?). by eexists _, _. }
  - cbn [app peek res_bind]. rewrite Hrp. cbn [negb res_bind]. by rewrite take_ok.
  - assert (ts ++ rp :: t' :: r = u :: (us ++ rp :: t' :: r)) as He by by rewrite Hu.
    rewrite He. cbn [peek res_bind]. rewrite Hnu. cbn [negb]. rewrite <- He.
    rewrite IH by (done || simpl; lia). cbn [res_bind]. by rewrite take_ok.
Qed.

Lemma complete_paren d lp ts rp n :
  text_in lp ["("]%string = true -> complete_cond (S d) ts n -> text_in rp [")"]%string = true ->
  complete_primary d (lp :: ts ++ [rp]) n.
Proof.
  intros Hlp IH Hrp Hw f t r Hf Ht. unfold parsePrimary. cbn [app peek res_bind].
  apply Forall_cons in Hw as [Hwl Hw]. apply Forall_app in Hw as [Hw _].
  assert (tok_kind lp = KOperator) as ->.
  { destruct (decide (tok_kind lp = KOperator)) as [|Hk]; [done|].
    rewrite (word_not_operator lp ["("]%string) in Hlp; [done|done|done|]. vm_compute. set_solver. }
  rewrite Hlp, take_ok by done. cbn [res_bind]. rewrite <- app_assoc. cbn [app].
  rewrite IH; [|done|lia|].
  - cbn [res_bind]. by rewrite take_ok.
  - right. unfold text_in in *. breflect. apply bool_decide_eq_true. set_solver.
Qed.

Lemma complete_if d t1 q t2 colon t3 n1 n2 n3 :
  (d <= MAX_EXPR_DEPTH)%nat -> complete_level d 6 t1 n1 ->
  text_in q ["?"]%string = true -> complete_cond (S d) t2 n2 ->
  text_in colon [":"]%string = true -> complete_cond (S d) t3 n3 ->
  complete_cond d (t1 ++ q :: t2 ++ colon :: t3) (Conditional n1 n2 n3).
Proof.
  intros Hd IH1 Hq IH2 Hc IH3 Hw f t r Hf Ht. destruct f as [|f]; [lia|].
  apply Forall_app in Hw as [Hw1 Hw]. apply Forall_cons in Hw as [_ Hw].
  apply Forall_app in Hw as [Hw2 Hw]. apply Forall_cons in Hw as [_ Hw3].
  cbn [parseConditional]. rewrite (proj2 (Nat.ltb_ge _ _)) by done. rewrite parseOr_level. cbv zeta.
  destruct (IH1 ltac:(lia) Hd Hw1 f ltac:(lia)) as [Hl _].
  rewrite <- app_assoc. cbn [app]. rewrite Hl by by apply question_stops. cbn [res_bind peek].
  rewrite Hq. cbn [negb]. rewrite take_ok by done. cbn [res_bind]. rewrite <- app_assoc. cbn [app].
  rewrite IH2; [|done|lia|]. cbn [res_bind]. rewrite take_ok by done. cbn [res_bind].
  rewrite IH3 by (done || lia). done.
  right. unfold text_in in *. breflect. apply bool_decide_eq_true. set_solver.
Qed.

Lemma complete_plain d ts n :
  (d <= MAX_EXPR_DEPTH)%nat -> complete_level d 6 ts n -> complete_cond d ts n.
Proof.
  intros Hd IH Hw f t r Hf Ht. destruct f as [|f]; [lia|]. cbn [parseConditional].
  rewrite (proj2 (Nat.ltb_ge _ _)) by done. rewrite parseOr_level. cbv zeta.
  destruct (IH ltac:(lia) Hd Hw f ltac:(lia)) as [Hl _].
  rewrite Hl by by apply closes_stops. cbn [res_bind peek]. by rewrite closes_not_question.
Qed.

Lemma complete_next_arg d t1 comma t2 n m ns :
  complete_cond (S d) t1 n -> text_in comma [","]%string = true ->
  complete_args d t2 (m :: ns) -> complete_args d (t1 ++ comma :: t2) (n :: m :: ns).
Proof.
  intros IH1 Hc IH2 Hw f t r nargs fuel Hf Ht _ Hn Hfuel. destruct fuel as [|fuel]; [lia|].
  apply Forall_app in Hw as [Hw1 Hw]. apply Forall_cons in Hw as [_ Hw2]. cbn [args_loop].
  rewrite (proj2 (Nat.leb_gt _ _)) by (simpl in Hn; lia).
  rewrite <- app_assoc in *. cbn [app] in *. rewrite IH1; [|done|lia|].
  - cbn [res_bind peek]. rewrite Hc. cbn [negb]. rewrite take_ok by done. cbn [res_bind].
    rewrite IH2; [done|done|lia|done|done|simpl in *; lia|].
    rewrite length_app in Hfuel. simpl in Hfuel. lia.
  - right. unfold text_in in *. breflect. apply bool_decide_eq_true. set_solver.
Qed.

Lemma complete_last_arg d ts n : complete_cond (S d) ts n -> complete_args d ts [n].
Proof.
  intros IH Hw f t r nargs fuel Hf Ht _ Hn Hfuel. destruct fuel as [|fuel]; [lia|].
  cbn [args_loop]. rewrite (proj2 (Nat.leb_gt _ _)) by (simpl in Hn; lia).
  rewrite IH; [|done|lia|].
  - cbn [res_bind peek]. rewrite (text_in_disjoint t [")"] [","])%string; [done|done|].
    vm_compute. repeat constructor; set_solver.
  - right. unfold text_in in *. breflect. apply bool_decide_eq_true. set_solver.
Qed.

Lemma grammar_complete :
  (forall d ts n, g_cond d ts n -> complete_cond d ts n) /\
  (forall d j ts n, g_level d j ts n -> complete_level d j ts n) /\
  (forall d ts n, g_primary d ts n -> complete_primary d ts n) /\
  (forall d ts ns, g_args d ts ns -> complete_args d ts ns).
Proof.
  apply grammar_mutind; intros.
  - by apply complete_plain.
  - by apply complete_if.
  - by apply complete_unary.
  - by apply complete_lift.
  - by apply complete_binary.
  - intros Hw f t0 r Hf Ht. unfold parsePrimary. cbn [app peek res_bind].
    destruct o as [->| ->]; cbn [take_any res_bind]; by rewrite e.
  - intros Hw f t0 r Hf Ht. unfold parsePrimary. cbn [app peek res_bind].
    rewrite e. cbn [take_any res_bind]. by rewrite e0.
  - intros Hw f t0 r Hf Ht. unfold parsePrimary. cbn [app peek res_bind].
    rewrite e. cbn [take_any res_bind]. rewrite e0. cbn [peek res_bind]. by rewrite Ht.
  - by apply complete_call.
  - by apply complete_paren.
  - intros Hw f t r nargs fuel Hf Ht Hne. done.
  - by apply complete_last_arg.
  - by apply complete_next_arg.
Qed.

Lemma parse_complete us n : Forall wf_token us -> g_cond 0 us n -> parse (us ++ [eof_token]) = Ok n.
Proof.
  intros Hw H. unfold parse. destruct grammar_complete as (Hc & _).
  rewrite (Hc _ _ _ H Hw); [done|unfold DEPTH_FUEL, MAX_EXPR_DEPTH; lia|by left].
Qed.

(** C1: the parser decides the grammar: on any sequence of tokens the tokenizer
    can produce, it returns a tree exactly when the grammar spells that tree with
    these tokens, within the nesting and argument limits. *)
Theorem parse_decides_grammar us n :
  Forall wf_token us -> parse (us ++ [eof_token]) = Ok n <-> g_cond 0 us n.
Proof.
  intros Hw. assert (good (us ++ [eof_token])) as Hg by by exists us.
  split; [unfold parse|by apply parse_complete].
  - intros H. apply res_bind_Ok in H as ([m r] & H1 & H).
    destruct (parseConditional_ok DEPTH_FUEL 0) with (ts := us ++ [eof_token]) as [_ Hok];
      [unfold DEPTH_FUEL, MAX_EXPR_DEPTH; lia..|done|].
    destruct (Hok _ _ H1) as (Hgr & _ & _). clear Hok.
    apply parseConditional_follows in H1 as (used & He & Hu);
      [|unfold DEPTH_FUEL, MAX_EXPR_DEPTH; lia..|done].
    destruct (good_cases _ Hgr) as [->|(t & q & -> & Ht & _)].
    + simpl in H. injection H as ->. by apply app_inj_tail in He as [-> _].
    + simpl in H. unfold wf_token in Ht. by destruct (tok_kind t).
Qed.

(** The tokens of [p * 2 + c]. *)
Definition sample_tokens : list ExprToken := Eval vm_compute in
  match tokenizeExpr (js "p * 2 + c") with Ok ts => removelast ts | Throw _ => [] end.

Lemma parse_decides_grammar_witness :
  g_cond 0 sample_tokens
    (Binary (js "+") (Binary (js "*") (Identifier (js "p")) (Literal (VNum (num_of_Z 2))))
       (Identifier (js "c"))).
Proof.
  apply parse_decides_grammar; [|vm_compute; reflexivity].
  destruct (tokenizeExpr_spec (js "p * 2 + c") (sample_tokens ++ [eof_token])) as (us & Hus & Hw & _);
    [vm_compute; reflexivity|].
  apply app_inj_tail in Hus as [-> _]. exact Hw.
Defined.
