(* ===== verification/BillingTiers.v ===== *)
(** * Billing expressions: the variable registry and tier extraction
    (src/apps/web/src/features/pricing/lib/billing-expr.ts)

    [parseTiersFromExpr] turns a billing expression into the tiers the pricing
    breakdown shows: a label, the conditions and one price per billing variable. *)
From S2P Require Import Prelude JsString JsNumber BillingLexer BillingParser.
From Stdlib Require Import Lia.

(** ** Variable registry *)

Inductive Side := SideInput | SideOutput | SideCondition.

Record BillingVar := mkVar {
  key : list N;
  field : option (list N);
  tierField : option (list N);
  label_ : list N;
  shortLabel : list N;
  side : Side;
  isBase : bool;
  isConditionOnly : bool;
  group : option (list N) }.

Definition BILLING_VARS : list BillingVar :=
  [ mkVar (js "p") (Some (js "inputPrice")) (Some (js "input_unit_cost"))
      (js "Input price") (js "Input") SideInput true false None;
    mkVar (js "c") (Some (js "outputPrice")) (Some (js "output_unit_cost"))
      (js "Completion price") (js "Output") SideOutput true false None;
    mkVar (js "len") None None
      (js "Input length") (js "Length") SideCondition false true None;
    mkVar (js "cr") (Some (js "cacheReadPrice")) (Some (js "cache_read_unit_cost"))
      (js "Cache read price") (js "Cache Read") SideInput false false (Some (js "cache"));
    mkVar (js "cc") (Some (js "cacheCreatePrice")) (Some (js "cache_create_unit_cost"))
      (js "Cache create price") (js "Cache Write") SideInput false false (Some (js "cache"));
    mkVar (js "cc1h") (Some (js "cacheCreate1hPrice")) (Some (js "cache_create_1h_unit_cost"))
      (js "Cache create (1h) price") (js "Cache Write (1h)") SideInput false false (Some (js "cache"));
    mkVar (js "img") (Some (js "imagePrice")) (Some (js "image_unit_cost"))
      (js "Image input price") (js "Image In") SideInput false false (Some (js "media"));
    mkVar (js "img_o") (Some (js "imageOutputPrice")) (Some (js "image_output_unit_cost"))
      (js "Image output price") (js "Image Out") SideOutput false false (Some (js "media"));
    mkVar (js "ai") (Some (js "audioInputPrice")) (Some (js "audio_input_unit_cost"))
      (js "Audio input price") (js "Audio In") SideInput false false (Some (js "media"));
    mkVar (js "ao") (Some (js "audioOutputPrice")) (Some (js "audio_output_unit_cost"))
      (js "Audio output price") (js "Audio Out") SideOutput false false (Some (js "media")) ].

Definition BILLING_PRICING_VARS : list BillingVar :=
  filter (fun v => isConditionOnly v = false) BILLING_VARS.

Definition BILLING_CONDITION_VARS : list (list N) :=
  key <$> filter (fun v => isBase v || isConditionOnly v = true) BILLING_VARS.

(** [Object.fromEntries] of the priced variables, in insertion order. *)
Definition BILLING_VAR_KEY_TO_FIELD : list (list N * list N) :=
  (fun v => (key v, default [] (field v))) <$> BILLING_PRICING_VARS.

Definition BILLING_EXTRA_VARS : list BillingVar :=
  filter (fun v => isBase v = false /\ isConditionOnly v = false) BILLING_VARS.

(** ** Tiers *)

Inductive CondOp := OpLt | OpLe | OpGt | OpGe.

Record TierCondition := mkCond {
  cond_var : list N;
  cond_op : CondOp;
  cond_value : spec_float }.

(** The index signature of [ParsedTier] holds one price per priced variable. *)
Record ParsedTier := mkTier {
  label : list N;
  conditions : list TierCondition;
  prices : list (list N * spec_float) }.

Definition numericLiteral (node : ExprNode) : option spec_float :=
  match node with
  | Literal (VNum n) => Some n
  | Unary op (Literal (VNum n)) =>
      if bool_decide (op = js "-") then Some (num_neg n)
      else if bool_decide (op = js "+") then Some n
      else None
  | _ => None
  end.

(** The operands of a tree of one operator, left to right. *)
Fixpoint collect_chain (op : list N) (part : ExprNode) : list ExprNode :=
  match part with
  | Binary op' l r =>
      if bool_decide (op' = op) then collect_chain op l ++ collect_chain op r else [part]
  | _ => [part]
  end.

Definition cond_op_of (op : list N) : option CondOp :=
  if bool_decide (op = js "<") then Some OpLt
  else if bool_decide (op = js "<=") then Some OpLe
  else if bool_decide (op = js ">") then Some OpGt
  else if bool_decide (op = js ">=") then Some OpGe
  else None.

Definition tierCondition (part : ExprNode) : option TierCondition :=
  match part with
  | Binary op (Identifier name) rhs =>
      match cond_op_of op with
      | Some o =>
          if bool_decide (name ∈ BILLING_CONDITION_VARS) then
            mkCond name o <$> numericLiteral rhs
          else None
      | None => None
      end
  | _ => None
  end.

Definition tierConditions (node : ExprNode) : option (list TierCondition) :=
  mapM tierCondition (collect_chain (js "&&") node).

(** One term of a price sum: the variable and its coefficient. *)
Definition price_term (term : ExprNode) : option (list N * spec_float) :=
  match term with
  | Identifier name => Some (name, num_of_Z 1)
  | Binary op l r =>
      if bool_decide (op = js "*") then
        match l, r with
        | Identifier name, _ => Some (name, default S754_nan (numericLiteral r))
        | _, Identifier name => Some (name, default S754_nan (numericLiteral l))
        | _, _ => None
        end
      else None
  | _ => None
  end.

Definition add_coefficient (acc : gmap (list N) spec_float) (name : list N) (k : spec_float) :=
  <[name := num_add (or_zero (default num_zero (acc !! name))) k]> acc.

Fixpoint sum_terms (acc : gmap (list N) spec_float) (terms : list ExprNode)
    : option (gmap (list N) spec_float) :=
  match terms with
  | [] => Some acc
  | term :: rest =>
      match price_term term with
      | Some (name, k) =>
          if bool_decide (name ∈ BILLING_VAR_KEY_TO_FIELD.*1) && is_finite k
          then sum_terms (add_coefficient acc name k) rest
          else None
      | None => None
      end
  end.

Definition priceCoefficients (node : ExprNode) : option (gmap (list N) spec_float) :=
  sum_terms ∅ (collect_chain (js "+") node).

Definition tier_prices (coefficients : gmap (list N) spec_float) : list (list N * spec_float) :=
  (fun kf => (kf.2, or_zero (default num_zero (coefficients !! kf.1)))) <$> BILLING_VAR_KEY_TO_FIELD.

Definition parsedTier (node : ExprNode) (conds : list TierCondition) : option ParsedTier :=
  match node with
  | Call name [Literal (VStr lbl); body] =>
      if bool_decide (name = js "tier") then
        match priceCoefficients body with
        | Some coefficients => Some (mkTier lbl conds (tier_prices coefficients))
        | None => None
        end
      else None
  | _ => None
  end.

(** The tiers pushed by a visit of [node], in order. *)
Fixpoint collectParsedTiers (node : ExprNode) : list ParsedTier :=
  match node with
  | Conditional test consequent alternate =>
      match tierConditions test ≫= parsedTier consequent with
      | Some tier => [tier]
      | None => collectParsedTiers consequent
      end ++ collectParsedTiers alternate
  | _ =>
      match parsedTier node [] with
      | Some tier => [tier]
      | None =>
          match node with
          | Binary _ l r => collectParsedTiers l ++ collectParsedTiers r
          | Unary _ v => collectParsedTiers v
          | Call _ args => concat (map collectParsedTiers args)
          | _ => []
          end
      end
  end.

Definition parseTiersFromExpr (exprStr : list N) : list ParsedTier :=
  if negb (nonempty exprStr) then []
  else match parseRestrictedExpr exprStr with
       | Ok node => collectParsedTiers node
       | Throw _ => []
       end.
