(* ===== verification/BillingEval.v ===== *)
(** * Billing expressions: the evaluator (src/apps/web/src/features/pricing/lib/billing-expr.ts)

    [evaluateBillingExpression] walks the parsed tree with two mutable variables,
    the step counter and the label of the last tier evaluated; they are passed
    explicitly.  Exceptions abort the walk, so no state survives one.

    The theorems show that the step limit can never be reached by an expression
    the parser accepts, and that a tiered expression is priced by the first tier
    whose displayed conditions hold. *)
From S2P Require Import Prelude JsString JsNumber BillingLexer BillingParser BillingTiers.
From Stdlib Require Import Lia.

Record EvalState := mkEval { steps : nat; matchedTier : list N }.

(** [Boolean(value)]. *)
Definition truthy (v : ExprValue) : bool :=
  match v with VNum n => num_truthy n | VStr s => nonempty s | VBool b => b end.

(** [left === right]. *)
Definition strict_equal (l r : ExprValue) : bool :=
  match l, r with
  | VNum a, VNum b => num_eqb a b
  | VStr a, VStr b => bool_decide (a = b)
  | VBool a, VBool b => Bool.eqb a b
  | _, _ => false
  end.

Definition not_finite_error {A} : res A := throw "numeric operand must be finite".

Definition requireNumber (v : ExprValue) : res spec_float :=
  match v with
  | VNum n => if is_finite n then Ok n else not_finite_error
  | _ => not_finite_error
  end.

Definition allowedVariables : list (list N) := key <$> BILLING_VARS.

(** [variables] is the record of the caller: a number or [undefined]. *)
Definition variables_t : Type := list N -> option spec_float.

Definition eval_identifier (variables : variables_t) (name : list N) : res ExprValue :=
  if bool_decide (name ∈ allowedVariables) then
    let* n := requireNumber (VNum (default num_zero (variables name))) in Ok (VNum n)
  else Throw (Error (js "identifier is not allowed: " ++ name)).

Definition eval_unary (op : list N) (v : ExprValue) : res ExprValue :=
  if bool_decide (op = js "!") then Ok (VBool (negb (truthy v)))
  else
    let* n := requireNumber v in
    Ok (VNum (if bool_decide (op = js "-") then num_neg n else n)).

(** Both operands must be finite numbers, the left one checked first. *)
Definition numeric2 (l r : ExprValue) (f : spec_float -> spec_float -> ExprValue) : res ExprValue :=
  let* a := requireNumber l in
  let* b := requireNumber r in
  Ok (f a b).

(** The strict binary operators; [&&] and [||] are in [evaluate]. *)
Definition eval_binary (op : list N) (l r : ExprValue) : res ExprValue :=
  if bool_decide (op = js "==") then Ok (VBool (strict_equal l r))
  else if bool_decide (op = js "!=") then Ok (VBool (negb (strict_equal l r)))
  else if bool_decide (op = js "<") then numeric2 l r (fun a b => VBool (num_ltb a b))
  else if bool_decide (op = js "<=") then numeric2 l r (fun a b => VBool (num_leb a b))
  else if bool_decide (op = js ">") then numeric2 l r (fun a b => VBool (num_ltb b a))
  else if bool_decide (op = js ">=") then numeric2 l r (fun a b => VBool (num_leb b a))
  else if bool_decide (op = js "+") then numeric2 l r (fun a b => VNum (num_add a b))
  else if bool_decide (op = js "-") then numeric2 l r (fun a b => VNum (num_sub a b))
  else if bool_decide (op = js "*") then numeric2 l r (fun a b => VNum (num_mul a b))
  else if bool_decide (op = js "/") then numeric2 l r (fun a b => VNum (num_div a b))
  else if bool_decide (op = js "%") then numeric2 l r (fun a b => VNum (num_rem a b))
  else Throw (Error (js "operator is not allowed: " ++ op)).

Fixpoint require_numbers (vs : list ExprValue) : res (list spec_float) :=
  match vs with
  | [] => Ok []
  | v :: rest =>
      let* n := requireNumber v in
      let* ns := require_numbers rest in
      Ok (n :: ns)
  end.

Definition one_argument (f : spec_float -> spec_float) (msg : string) (numbers : list spec_float) :=
  match numbers with [n] => Ok (VNum (f n)) | _ => throw msg end.

(** The calls other than [tier]. *)
Definition eval_function (name : list N) (numbers : list spec_float) : res ExprValue :=
  if bool_decide (name = js "max") then
    match numbers with [] => throw "max expects an argument" | _ => Ok (VNum (num_max numbers)) end
  else if bool_decide (name = js "min") then
    match numbers with [] => throw "min expects an argument" | _ => Ok (VNum (num_min numbers)) end
  else if bool_decide (name = js "abs") then
    one_argument num_abs "abs expects one argument" numbers
  else if bool_decide (name = js "ceil") then
    one_argument num_ceil "ceil expects one argument" numbers
  else if bool_decide (name = js "floor") then
    one_argument num_floor "floor expects one argument" numbers
  else Throw (Error (js "function is not allowed: " ++ name)).

(** A call on evaluated arguments: its value and the new matched tier. *)
Definition eval_call (name : list N) (args : list ExprValue) (matched : list N)
    : res (ExprValue * list N) :=
  if bool_decide (name = js "tier") then
    match args with
    | [VStr lbl; v] => let* n := requireNumber v in Ok (VNum n, lbl)
    | _ => throw "tier expects a label and numeric value"
    end
  else
    let* numbers := require_numbers args in
    let* v := eval_function name numbers in
    Ok (v, matched).

(** [node.args.map(evaluate)], left to right, the state threaded through. *)
Section map_eval.
Context {St : Type} (ev : ExprNode -> St -> res (ExprValue * St)).

Fixpoint map_eval (l : list ExprNode) (st : St) : res (list ExprValue * St) :=
  match l with
  | [] => Ok ([], st)
  | a :: rest =>
      let* (v, st1) := ev a st in
      let* (vs, st2) := map_eval rest st1 in
      Ok (v :: vs, st2)
  end.
End map_eval.

Section evaluate.
Context (variables : variables_t).

Fixpoint evaluate (node : ExprNode) (st : EvalState) : res (ExprValue * EvalState) :=
  let st := mkEval (S (steps st)) (matchedTier st) in
  if (MAX_EVAL_STEPS <? steps st)%nat then throw "expression is too complex"
  else
    match node with
    | Literal v => Ok (v, st)
    | Identifier name => let* v := eval_identifier variables name in Ok (v, st)
    | Unary op value =>
        let* (v, st1) := evaluate value st in
        let* u := eval_unary op v in
        Ok (u, st1)
    | Conditional test consequent alternate =>
        let* (t, st1) := evaluate test st in
        if truthy t then evaluate consequent st1 else evaluate alternate st1
    | Binary op l r =>
        if bool_decide (op = js "&&") then
          let* (a, st1) := evaluate l st in
          if truthy a then
            let* (b, st2) := evaluate r st1 in Ok (VBool (truthy b), st2)
          else Ok (VBool false, st1)
        else if bool_decide (op = js "||") then
          let* (a, st1) := evaluate l st in
          if truthy a then Ok (VBool true, st1)
          else let* (b, st2) := evaluate r st1 in Ok (VBool (truthy b), st2)
        else
          let* (a, st1) := evaluate l st in
          let* (b, st2) := evaluate r st1 in
          let* v := eval_binary op a b in
          Ok (v, st2)
    | Call name args =>
        let* (vs, st1) := map_eval evaluate args st in
        let* (v, m) := eval_call name vs (matchedTier st1) in
        Ok (v, mkEval (steps st1) m)
    end.
End evaluate.

Definition evaluateBillingExpression (exprStr : list N) (variables : variables_t)
    : res (spec_float * list N) :=
  let* root := parseRestrictedExpr exprStr in
  let* (v, st) := evaluate variables root (mkEval 0 []) in
  let* n := requireNumber v in
  Ok (n, matchedTier st).

(** ** The evaluator without its step counter *)

Section eval_ref.
Context (variables : variables_t).

Fixpoint eval_ref (node : ExprNode) (m : list N) : res (ExprValue * list N) :=
  match node with
  | Literal v => Ok (v, m)
  | Identifier name => let* v := eval_identifier variables name in Ok (v, m)
  | Unary op value =>
      let* (v, m1) := eval_ref value m in
      let* u := eval_unary op v in
      Ok (u, m1)
  | Conditional test consequent alternate =>
      let* (t, m1) := eval_ref test m in
      if truthy t then eval_ref consequent m1 else eval_ref alternate m1
  | Binary op l r =>
      if bool_decide (op = js "&&") then
        let* (a, m1) := eval_ref l m in
        if truthy a then
          let* (b, m2) := eval_ref r m1 in Ok (VBool (truthy b), m2)
        else Ok (VBool false, m1)
      else if bool_decide (op = js "||") then
        let* (a, m1) := eval_ref l m in
        if truthy a then Ok (VBool true, m1)
        else let* (b, m2) := eval_ref r m1 in Ok (VBool (truthy b), m2)
      else
        let* (a, m1) := eval_ref l m in
        let* (b, m2) := eval_ref r m1 in
        let* v := eval_binary op a b in
        Ok (v, m2)
  | Call name args =>
      let* (vs, m1) := map_eval eval_ref args m in
      eval_call name vs m1
  end.
End eval_ref.

(** ** The step limit is never reached *)

(** The two walks agree on a tree when the remaining steps cover its nodes. *)
Definition agrees (r1 : res (ExprValue * EvalState)) (r2 : res (ExprValue * list N)) (bound : nat) :=
  match r2 with
  | Ok (v, m) => exists k, r1 = Ok (v, mkEval k m) /\ (k <= bound)%nat
  | Throw e => r1 = Throw e
  end.

Definition node_agrees variables n := forall st,
  (steps st + node_size n <= MAX_EVAL_STEPS)%nat ->
  agrees (evaluate variables n st) (eval_ref variables n (matchedTier st)) (steps st + node_size n).

Lemma map_eval_agrees variables l : Forall (node_agrees variables) l -> forall k m,
  (k + sum_list_with node_size l <= MAX_EVAL_STEPS)%nat ->
  match map_eval (eval_ref variables) l m with
  | Ok (vs, m1) => exists k1, map_eval (evaluate variables) l (mkEval k m) = Ok (vs, mkEval k1 m1) /\
                              (k1 <= k + sum_list_with node_size l)%nat
  | Throw e => map_eval (evaluate variables) l (mkEval k m) = Throw e
  end.
Proof.
  induction 1 as [|n l Hn Hl IHl]; intros k m Hk; simpl; [exists k; split; [done|lia]|].
  simpl in Hk. specialize (Hn (mkEval k m)). simpl in Hn. specialize (Hn ltac:(lia)). unfold agrees in Hn.
  destruct (eval_ref variables n m) as [[x m1]|e]; simpl; [|by rewrite Hn].
  destruct Hn as (k1 & -> & Hk1). simpl. specialize (IHl k1 m1 ltac:(lia)).
  destruct (map_eval (eval_ref variables) l m1) as [[vs m2]|e]; simpl; [|by rewrite IHl].
  destruct IHl as (k2 & -> & Hk2). simpl. exists k2. split; [done|lia].
Qed.

Lemma evaluate_agrees variables n : node_agrees variables n.
Proof.
  induction n as [v|name|op v IH|op l r IHl IHr|t c a IHt IHc IHa|name args IH]
    using ExprNode_rect'; intros [s m] Hs; cbn [evaluate eval_ref steps matchedTier] in *;
    pose proof Hs as Hs'; cbn [node_size] in Hs';
    rewrite (proj2 (Nat.ltb_ge _ _)) by lia; cbn [node_size].
  - simpl. exists (S s). split; [done|lia].
  - destruct (eval_identifier variables name) as [x|e]; simpl; [|done].
    exists (S s). split; [done|lia].
  - specialize (IH (mkEval (S s) m)). simpl in IH. specialize (IH ltac:(lia)).
    unfold agrees in IH. destruct (eval_ref variables v m) as [[x m1]|e]; simpl.
    + destruct IH as (k & -> & Hk). simpl. destruct (eval_unary op x) as [u|e]; simpl; [|done].
      exists k. split; [done|lia].
    + by rewrite IH.
  - specialize (IHl (mkEval (S s) m)). simpl in IHl. specialize (IHl ltac:(lia)). unfold agrees in IHl.
    destruct (eval_ref variables l m) as [[x m1]|e] eqn:El; simpl.
    2:{ rewrite IHl. repeat case_bool_decide; done. }
    destruct IHl as (k1 & -> & Hk1).
    specialize (IHr (mkEval k1 m1)). simpl in IHr. specialize (IHr ltac:(lia)). unfold agrees in IHr.
    destruct (eval_ref variables r m1) as [[y m2]|e] eqn:Er; simpl;
      [destruct IHr as (k2 & -> & Hk2)|rewrite IHr];
      repeat case_bool_decide; simpl; try destruct (truthy x); simpl;
      try destruct (eval_binary op x y); simpl; try done; eexists; (split; [done|lia]).
  - specialize (IHt (mkEval (S s) m)). simpl in IHt. specialize (IHt ltac:(lia)). unfold agrees in IHt.
    destruct (eval_ref variables t m) as [[x m1]|e]; simpl; [|by rewrite IHt].
    destruct IHt as (k & -> & Hk). simpl. destruct (truthy x).
    + specialize (IHc (mkEval k m1)). simpl in IHc. specialize (IHc ltac:(lia)). unfold agrees in *.
      destruct (eval_ref variables c m1) as [[y m2]|e]; [|done].
      destruct IHc as (k2 & -> & ?). exists k2. split; [done|lia].
    + specialize (IHa (mkEval k m1)). simpl in IHa. specialize (IHa ltac:(lia)). unfold agrees in *.
      destruct (eval_ref variables a m1) as [[y m2]|e]; [|done].
      destruct IHa as (k2 & -> & ?). exists k2. split; [done|lia].
  - pose proof (map_eval_agrees variables args IH (S s) m ltac:(lia)) as Hargs.
    destruct (map_eval (eval_ref variables) args m) as [[vs m1]|e]; simpl; [|by rewrite Hargs].
    destruct Hargs as (k1 & -> & Hk1). simpl.
    destruct (eval_call name vs m1) as [[v m2]|e]; simpl; [|done]. exists k1. split; [done|lia].
Qed.

Lemma evaluate_root variables root :
  (node_size root <= MAX_EXPR_TOKENS)%nat ->
  (let* (v, st) := evaluate variables root (mkEval 0 []) in
   let* n := requireNumber v in Ok (n, matchedTier st)) =
  (let* (v, m) := eval_ref variables root [] in
   let* n := requireNumber v in Ok (n, m)).
Proof.
  intros Hsize. pose proof (evaluate_agrees variables root (mkEval 0 [])) as Ha. simpl in Ha.
  assert (MAX_EXPR_TOKENS <= MAX_EVAL_STEPS)%nat as Hle by (apply Nat.leb_le; vm_compute; reflexivity).
  specialize (Ha ltac:(lia)). unfold agrees in Ha.
  destruct (eval_ref variables root []) as [[v m]|e]; simpl; [|by rewrite Ha].
  destruct Ha as (k & -> & _). done.
Qed.

(** C4: the step budget is never the reason of a failure: on every expression
    the evaluation gives the value, tier or error of the evaluator that has no
    step counter. *)
Theorem step_limit_unreachable exprStr variables :
  evaluateBillingExpression exprStr variables =
  (let* root := parseRestrictedExpr exprStr in
   let* (v, m) := eval_ref variables root [] in
   let* n := requireNumber v in
   Ok (n, m)).
Proof.
  unfold evaluateBillingExpression. destruct (parseRestrictedExpr_ok exprStr) as [_ Hok].
  destruct (parseRestrictedExpr exprStr) as [root|e]; simpl; [|done].
  apply evaluate_root, Hok. done.
Qed.

(** ** Tiered expressions *)

(** The comparison a displayed condition stands for. *)
Definition cond_holds (variables : variables_t) (c : TierCondition) : bool :=
  let x := default num_zero (variables (cond_var c)) in
  match cond_op c with
  | OpLt => num_ltb x (cond_value c)
  | OpLe => num_leb x (cond_value c)
  | OpGt => num_ltb (cond_value c) x
  | OpGe => num_leb (cond_value c) x
  end.

Definition tier_applies (variables : variables_t) (t : ParsedTier) : bool :=
  forallb (cond_holds variables) (conditions t).

(** The call of a tier. *)
Definition tier_call (lbl : list N) (body : ExprNode) : ExprNode := Call (js "tier") [Literal (VStr lbl); body].

(** The shape the server emits, [conds ? tier(..) : ... : tier(..)]: the tiers that are
    displayed, each with the body of its call. *)
Inductive tier_chain : ExprNode -> list (ParsedTier * ExprNode) -> Prop :=
| chain_last lbl body t : parsedTier (tier_call lbl body) [] = Some t -> tier_chain (tier_call lbl body) [(t, body)]
| chain_if test lbl body a conds t ts :
    tierConditions test = Some conds -> parsedTier (tier_call lbl body) conds = Some t -> tier_chain a ts ->
    tier_chain (Conditional test (tier_call lbl body) a) ((t, body) :: ts).

Definition finite_variables (variables : variables_t) : Prop :=
  forall k x, variables k = Some x -> is_finite x = true.

Definition nonfinite : exn := Error (js "numeric operand must be finite").

Lemma tier_chain_collect n ts : tier_chain n ts -> collectParsedTiers n = ts.*1.
Proof.
  induction 1 as [lbl body t H|test lbl body a conds t ts H1 H2 _ IH].
  - unfold tier_call in *. cbn [collectParsedTiers]. by rewrite H.
  - cbn [collectParsedTiers]. rewrite H1. cbn [mbind option_bind]. rewrite H2. by rewrite IH.
Qed.

Lemma mapM_app_Some {A B} (f : A -> option B) a b l :
  mapM f (a ++ b) = Some l -> exists la lb, mapM f a = Some la /\ mapM f b = Some lb /\ l = la ++ lb.
Proof.
  revert l. induction a as [|x a IH]; intros l H; simpl in *; [by exists [], l|].
  destruct (f x) as [y|]; simpl in *; [|done].
  destruct (mapM f (a ++ b)) as [k|]; simpl in *; [|done]. injection H as <-.
  destruct (IH k eq_refl) as (la & lb & -> & -> & ->). by exists (y :: la), lb.
Qed.

Section tiers.
Context (variables : variables_t).
Hypothesis Hvars : finite_variables variables.

Lemma default_finite k : is_finite (default num_zero (variables k)) = true.
Proof. destruct (variables k) eqn:E; simpl; [by eapply Hvars|done]. Qed.

Lemma eval_identifier_ok name :
  name ∈ allowedVariables ->
  eval_identifier variables name = Ok (VNum (default num_zero (variables name))).
Proof.
  intros H. unfold eval_identifier. rewrite bool_decide_eq_true_2 by done.
  simpl. by rewrite default_finite.
Qed.

Lemma numericLiteral_eval n v m :
  wf_node n -> numericLiteral n = Some v ->
  eval_ref variables n m = Ok (VNum v, m) /\ is_finite v = true.
Proof.
  intros Hw H. destruct n as [[n| |]| |op [[n| |]| | | | |]| | |]; try done; simpl in *.
  - injection H as <-. by inversion Hw.
  - assert (is_finite n = true) as Hn.
    { inversion Hw as [| | | |? ? _ Hw'| | |]; subst. by inversion Hw'. }
    unfold eval_unary. case_bool_decide; subst.
    + injection H as <-. rewrite bool_decide_eq_false_2 by done. simpl. rewrite Hn.
      by destruct n.
    + case_bool_decide; [|done]. subst. injection H as <-.
      rewrite bool_decide_eq_false_2 by done. simpl. by rewrite Hn.
Qed.

Lemma tierCondition_eval part c m :
  wf_node part -> tierCondition part = Some c ->
  eval_ref variables part m = Ok (VBool (cond_holds variables c), m).
Proof.
  intros Hw H. destruct part as [| | |op [|name| | | |] r| |]; try done. simpl in H.
  destruct (cond_op_of op) as [o|] eqn:Ho; [|done]. case_bool_decide as Hn; [|done].
  destruct (numericLiteral r) as [v|] eqn:Hr; [|done]. injection H as <-.
  inv Hw. destruct (numericLiteral_eval r v m ltac:(done) Hr) as [Hev Hf].
  assert (name ∈ allowedVariables) as Hall.
  { revert Hn. vm_compute. set_solver. }
  assert (forall f, numeric2 (VNum (default num_zero (variables name))) (VNum v) f =
    Ok (f (default num_zero (variables name)) v)) as Hn2.
  { intros f. unfold numeric2. simpl. by rewrite default_finite, Hf. }
  unfold cond_op_of in Ho. cbn [eval_ref]. rewrite eval_identifier_ok by done. cbn [res_bind].
  repeat (case_bool_decide; [subst op; simplify_eq;
    rewrite !(bool_decide_eq_false_2 (_ = _)) by done; cbn [res_bind];
    rewrite Hev; cbn [res_bind]; unfold eval_binary;
    rewrite ?(bool_decide_eq_false_2 (_ = _)) by done;
    rewrite bool_decide_eq_true_2 by done; by rewrite Hn2|]).
  done.
Qed.

Lemma collect_chain_other op part :
  (forall l r, part <> Binary op l r) -> collect_chain op part = [part].
Proof. intros H. destruct part; try done. simpl. case_bool_decide; [|done]. subst. by edestruct H. Qed.

Lemma tierConditions_eval node : forall conds m,
  wf_node node -> tierConditions node = Some conds ->
  eval_ref variables node m = Ok (VBool (forallb (cond_holds variables) conds), m).
Proof.
  unfold tierConditions.
  assert (forall part conds m, wf_node part -> collect_chain (js "&&") part = [part] ->
    mapM tierCondition (collect_chain (js "&&") part) = Some conds ->
    eval_ref variables part m = Ok (VBool (forallb (cond_holds variables) conds), m)) as Hone.
  { intros part conds m Hw -> H. simpl in H. destruct (tierCondition part) as [c|] eqn:Hc; [|done].
    injection H as <-. simpl. rewrite andb_true_r. by apply tierCondition_eval. }
  induction node as [| | |op l IHl r IHr| |]; intros conds m Hw H; try by apply Hone.
  cbn [collect_chain] in H. case_bool_decide as Hop.
  - subst op. apply mapM_app_Some in H as (la & lb & Hl & Hr & ->). inv Hw.
    cbn [eval_ref]. rewrite bool_decide_eq_true_2 by done. rewrite (IHl la m) by done.
    cbn [res_bind truthy]. rewrite forallb_app. destruct (forallb _ la); [|done].
    by rewrite (IHr lb m).
  - apply Hone; [done| |]; cbn [collect_chain]; by rewrite bool_decide_eq_false_2.
Qed.
End tiers.

(** ** What a tier charges

    The price of a tier's body, read off the text: a sum of variables and of products of a
    variable and a number, added in the order in which they are written. *)

Section written_prices.
Context (variables : variables_t).

Definition factor (n : ExprNode) : spec_float :=
  match n with
  | Identifier name => default num_zero (variables name)
  | _ => default S754_nan (numericLiteral n)
  end.

Fixpoint written_price (body : ExprNode) : spec_float :=
  match body with
  | Binary op l r =>
      if bool_decide (op = js "+") then num_add (written_price l) (written_price r) else num_mul (factor l) (factor r)
  | _ => factor body
  end.

(** No sum and no term of the price overflows. *)
Fixpoint finite_sums (body : ExprNode) : bool :=
  is_finite (written_price body) &&
  match body with
  | Binary op l r => if bool_decide (op = js "+") then finite_sums l && finite_sums r else true
  | _ => true
  end.
End written_prices.

(** The numbers the variable [x] is multiplied by in a body. *)
Fixpoint coefficients_of (x : list N) (body : ExprNode) : list spec_float :=
  match body with
  | Identifier y => if bool_decide (y = x) then [num_of_Z 1] else []
  | Binary op l r =>
      if bool_decide (op = js "+") then coefficients_of x l ++ coefficients_of x r
      else match l, r with
           | Identifier y, n | n, Identifier y => if bool_decide (y = x) then [default S754_nan (numericLiteral n)] else []
           | _, _ => []
           end
  | _ => []
  end.

(** A displayed tier shows the prices of its body: zero for a variable that does not occur,
    and the coefficient of one that occurs once. *)
Definition shows (t : ParsedTier) (body : ExprNode) : Prop :=
  forall x f, (x, f) ∈ BILLING_VAR_KEY_TO_FIELD ->
  exists p, (f, p) ∈ prices t /\
  match coefficients_of x body with
  | [] => p = num_zero
  | [k] => num_eqb p k = true
  | _ => True
  end.

Notation good_terms := (Forall (fun t => exists name k, price_term t = Some (name, k) /\
    name ∈ BILLING_VAR_KEY_TO_FIELD.*1 /\ is_finite k = true)).

Section tier_bodies.
Context (variables : variables_t).
Hypothesis Hvars : finite_variables variables.

(** An operand of a product: a finite number that leaves the matched tier alone. *)
Definition operand (n : ExprNode) : Prop :=
  (forall m, eval_ref variables n m = Ok (VNum (factor variables n), m)) /\ is_finite (factor variables n) = true.

Lemma literal_operand n : wf_node n -> (forall x, n <> Identifier x) -> is_finite (default S754_nan (numericLiteral n)) = true -> operand n.
Proof.
  intros Hw Hn Hf. destruct (numericLiteral n) as [v|] eqn:E; [|done].
  assert (factor variables n = v) as Ev by (destruct n; try (cbn [factor]; by rewrite E); by destruct (Hn name)).
  split; [|by rewrite Ev]. intros m. rewrite Ev. by apply numericLiteral_eval.
Qed.

Lemma identifier_operand name : name ∈ BILLING_VAR_KEY_TO_FIELD.*1 -> operand (Identifier name).
Proof.
  intros H. split; [|by apply default_finite]. intros m. cbn [eval_ref]. rewrite eval_identifier_ok; [done|done|].
  revert H. vm_compute. set_solver.
Qed.

Lemma term_eval term name k m :
  wf_node term -> price_term term = Some (name, k) -> name ∈ BILLING_VAR_KEY_TO_FIELD.*1 -> is_finite k = true ->
  eval_ref variables term m = Ok (VNum (written_price variables term), m).
Proof.
  intros Hw H Hn Hk. destruct term as [|x| |op l r| |]; try done; simpl in H.
  { injection H as <- <-. by apply identifier_operand. }
  case_bool_decide; [|done]. subst op. inversion Hw; subst.
  assert (operand l /\ operand r) as [[Hl Fl] [Hr Fr]].
  { destruct l as [|x| | | |]; [|injection H as <- <-; split; [by apply identifier_operand|]|..];
      [|destruct r as [|y| | | |]; try (by apply literal_operand); done|..];
      (destruct r as [|y| | | |]; try done; injection H as <- <-; split; [by apply literal_operand|by apply identifier_operand]). }
  cbn [eval_ref written_price]. rewrite !bool_decide_eq_false_2 by done. rewrite Hl. cbn [res_bind]. rewrite Hr. cbn [res_bind].
  change (eval_binary (js "*") (VNum (factor variables l)) (VNum (factor variables r)))
    with (numeric2 (VNum (factor variables l)) (VNum (factor variables r)) (fun a b => VNum (num_mul a b))).
  unfold numeric2, requireNumber. by rewrite Fl, Fr.
Qed.

(** A body is evaluated to its price, or some sum below the top overflowed. *)
Definition operands_finite (body : ExprNode) : bool :=
  match body with
  | Binary op l r => if bool_decide (op = js "+") then finite_sums variables l && finite_sums variables r else true
  | _ => true
  end.

Lemma finite_sums_eq body : finite_sums variables body = is_finite (written_price variables body) && operands_finite body.
Proof. by destruct body. Qed.

Lemma body_eval body m : wf_node body -> good_terms (collect_chain (js "+") body) ->
  eval_ref variables body m = if operands_finite body then Ok (VNum (written_price variables body), m) else Throw nonfinite.
Proof.
  assert (forall n, wf_node n -> collect_chain (js "+") n = [n] -> good_terms (collect_chain (js "+") n) -> operands_finite n = true ->
    eval_ref variables n m = if operands_finite n then Ok (VNum (written_price variables n), m) else Throw nonfinite) as Hone.
  { intros n Hw -> H ->. apply Forall_cons in H as [(name & k & H1 & H2 & H3) _]. by eapply term_eval. }
  induction body as [| | |op l IHl r IHr| |]; intros Hw H; try by apply Hone.
  destruct (bool_decide_reflect (op = js "+")) as [->|Hop].
  - cbn [collect_chain] in H. rewrite bool_decide_eq_true_2 in H by done. apply Forall_app in H as [H1 H2].
    inversion Hw; subst. cbn [eval_ref operands_finite written_price]. rewrite (bool_decide_eq_true_2 (js "+" = js "+")) by done.
    rewrite !(bool_decide_eq_false_2 (js "+" = _)) by done. rewrite !finite_sums_eq, (IHl ltac:(done) H1).
    destruct (operands_finite l); [|by rewrite andb_false_r]. cbn [res_bind]. rewrite (IHr ltac:(done) H2).
    destruct (operands_finite r); [|by rewrite !andb_false_r]. cbn [res_bind]. rewrite !andb_true_r.
    change (eval_binary (js "+") (VNum (written_price variables l)) (VNum (written_price variables r)))
      with (numeric2 (VNum (written_price variables l)) (VNum (written_price variables r)) (fun a b => VNum (num_add a b))).
    unfold numeric2, requireNumber. destruct (is_finite (written_price variables l)); [|done]. cbn [res_bind andb].
    by destruct (is_finite (written_price variables r)).
  - apply Hone; [done| |done|]; cbn [collect_chain operands_finite]; by rewrite bool_decide_eq_false_2.
Qed.

Lemma sum_terms_good terms : forall acc acc', sum_terms acc terms = Some acc' -> good_terms terms.
Proof.
  induction terms as [|t terms IH]; intros acc acc' H; [constructor|]. simpl in H.
  destruct (price_term t) as [[name k]|] eqn:Ht; [|done].
  destruct (_ && _) eqn:E; [|done]. breflect. constructor; [by eexists _, _|by eapply IH].
Qed.

(** *** The displayed prices *)

Definition term_coefficients (x : list N) (terms : list ExprNode) : list spec_float :=
  omap (fun t => match price_term t with Some (y, k) => if bool_decide (y = x) then Some k else None | None => None end) terms.

Lemma coefficients_terms x body : good_terms (collect_chain (js "+") body) ->
  coefficients_of x body = term_coefficients x (collect_chain (js "+") body).
Proof.
  assert (forall n, collect_chain (js "+") n = [n] -> good_terms [n] -> coefficients_of x n = term_coefficients x [n]) as Hone.
  { intros n Hn H. apply Forall_cons in H as [(name & k & H1 & _) _]. unfold term_coefficients. cbn [omap list_omap]. rewrite H1.
    destruct n as [|y| |op l r| |]; try done; simpl in H1; [by injection H1 as <- <-; cbn [coefficients_of]; case_bool_decide|].
    case_bool_decide as Ho; [|done]. subst op. cbn [coefficients_of]. rewrite bool_decide_eq_false_2 by done.
    destruct l as [|y| | | |], r as [|z| | | |]; try done; injection H1 as <- <-; by case_bool_decide. }
  induction body as [| | |op l IHl r IHr| |]; intros H; try by apply Hone.
  destruct (bool_decide_reflect (op = js "+")) as [->|Hop].
  - cbn [collect_chain coefficients_of] in *. rewrite (bool_decide_eq_true_2 (js "+" = js "+")) in * by done. apply Forall_app in H as [H1 H2].
    rewrite IHl, IHr by done. unfold term_coefficients. by rewrite omap_app.
  - assert (collect_chain (js "+") (Binary op l r) = [Binary op l r]) as E by (cbn [collect_chain]; by rewrite bool_decide_eq_false_2).
    rewrite E in *. by apply Hone.
Qed.

Lemma sum_terms_lookup x terms : forall acc acc', sum_terms acc terms = Some acc' ->
  (term_coefficients x terms = [] -> acc' !! x = acc !! x) /\
  (forall k, term_coefficients x terms = [k] -> acc !! x = None -> acc' !! x = Some (num_add num_zero k)).
Proof.
  induction terms as [|t terms IH]; intros acc acc' H; [injection H as <-; by split|]. simpl in H.
  unfold term_coefficients. cbn [omap list_omap]. destruct (price_term t) as [[name k]|] eqn:Ht; [|done].
  destruct (_ && _) eqn:E; [|done]. destruct (IH _ _ H) as [I1 I2]. unfold add_coefficient in I1, I2.
  destruct (bool_decide_reflect (name = x)) as [->|Hne].
  - split; [done|]. intros k' [= -> Hr] Ha. rewrite (I1 Hr), lookup_insert_eq, Ha. done.
  - rewrite lookup_insert_ne in I1, I2 by done. by split.
Qed.

Lemma sum_zero_add k : is_finite k = true -> num_eqb (or_zero (num_add num_zero k)) k = true.
Proof.
  intros H. destruct k as [[]|[]| |s m e]; try done. change (num_add num_zero (S754_finite s m e)) with (S754_finite s m e).
  change (or_zero (S754_finite s m e)) with (S754_finite s m e). by apply num_eqb_refl.
Qed.

Lemma tier_shows lbl conds body co : priceCoefficients body = Some co -> shows (mkTier lbl conds (tier_prices co)) body.
Proof.
  intros H x f Hx. pose proof (sum_terms_good _ _ _ H) as Hg. rewrite (coefficients_terms x body Hg).
  exists (or_zero (default num_zero (co !! x))). split; [cbn [prices]; unfold tier_prices; by apply (list_elem_of_fmap_2 (fun kf => (kf.2, or_zero (default num_zero (co !! kf.1)))) _ (x, f))|].
  destruct (sum_terms_lookup x _ _ _ H) as [H1 H2]. destruct (term_coefficients x _) as [|k [|]] eqn:E; [|..|done].
  - by rewrite H1.
  - rewrite (H2 k eq_refl) by done. apply sum_zero_add.
    assert (k ∈ term_coefficients x (collect_chain (js "+") body)) as Hin by (rewrite E; by left).
    apply list_elem_of_omap in Hin as (t & Ht & Hk). rewrite Forall_forall in Hg. destruct (Hg t Ht) as (name & k' & Hp & _ & Hf).
    rewrite Hp in Hk. case_bool_decide; [|done]. by injection Hk as <-.
Qed.

(** A displayed tier charges the price of its body under its own label. *)
Lemma parsedTier_eval lbl body conds t m :
  wf_node (tier_call lbl body) -> parsedTier (tier_call lbl body) conds = Some t ->
  label t = lbl /\ conditions t = conds /\ shows t body /\
  eval_ref variables (tier_call lbl body) m =
    if finite_sums variables body then Ok (VNum (written_price variables body), lbl) else Throw nonfinite.
Proof.
  intros Hw H. unfold tier_call in *. cbn [parsedTier] in H. rewrite bool_decide_eq_true_2 in H by done.
  destruct (priceCoefficients body) as [co|] eqn:Hp; [|done]. injection H as <-.
  inversion Hw as [| | | | | | |? ? _ _ Hargs]; subst. apply Forall_cons in Hargs as [_ Hargs]. apply Forall_cons in Hargs as [Hbody _].
  split_and!; [done|done|by apply tier_shows|]. apply sum_terms_good in Hp.
  cbn [eval_ref map_eval res_bind]. rewrite (body_eval body m Hbody Hp), finite_sums_eq.
  destruct (operands_finite body); [|by rewrite andb_false_r]. cbn [res_bind]. unfold eval_call.
  rewrite bool_decide_eq_true_2 by done. unfold requireNumber. rewrite andb_true_r. by destruct (is_finite (written_price variables body)).
Qed.

Lemma tier_chain_eval n ts m :
  wf_node n -> tier_chain n ts ->
  exists pre t body post, ts = pre ++ (t, body) :: post /\
    Forall (fun u => tier_applies variables u.1 = false) pre /\ tier_applies variables t = true /\ shows t body /\
    eval_ref variables n m = if finite_sums variables body then Ok (VNum (written_price variables body), label t) else Throw nonfinite.
Proof.
  intros Hw Hc. revert m Hw. induction Hc as [lbl body t H|test lbl body a conds t ts Ht Hp _ IH]; intros m Hw.
  - destruct (parsedTier_eval lbl body [] t m Hw H) as (<- & Hco & Hs & ->).
    exists [], t, body, []. split_and!; [done|constructor|unfold tier_applies; by rewrite Hco|done|done].
  - inversion Hw as [| | | | | |? ? ? Hwt Hwc Hwa|]; subst. cbn [eval_ref].
    rewrite (tierConditions_eval variables Hvars _ _ _ Hwt Ht). cbn [res_bind truthy].
    destruct (parsedTier_eval lbl body conds t m Hwc Hp) as (<- & Hco & Hs & He).
    assert (tier_applies variables t = forallb (cond_holds variables) conds) as Happ by (unfold tier_applies; by rewrite Hco).
    destruct (forallb _ conds).
    + exists [], t, body, ts. by split_and!.
    + destruct (IH m ltac:(done)) as (pre & u & b & post & -> & Hpre & Hu & Hsh & Hm).
      exists ((t, body) :: pre), u, b, post. split_and!; [done|by constructor|done|done|done].
Qed.
End tier_bodies.

(** C2: a tiered expression charges what it displays.  When the parsed expression is a chain
    of conditional tiers and the variables are finite, the breakdown lists its tiers in order,
    and one of them, the first whose displayed conditions hold, is charged: its label is
    reported, and the price is the sum of its terms, each a variable or a variable times its
    coefficient, added in double precision as they are written; when one of these sums
    overflows, evaluation fails with the error on numeric operands.  The price displayed for
    a variable that occurs once is its coefficient, and zero for one that does not occur. *)
Theorem tiered_expression_first_match exprStr root ts variables :
  parseRestrictedExpr exprStr = Ok root -> tier_chain root ts -> finite_variables variables ->
  (exprStr <> [] -> parseTiersFromExpr exprStr = ts.*1) /\
  exists pre t body post, ts = pre ++ (t, body) :: post /\
    Forall (fun u => tier_applies variables u.1 = false) pre /\ tier_applies variables t = true /\ shows t body /\
    evaluateBillingExpression exprStr variables =
      if finite_sums variables body then Ok (written_price variables body, label t) else Throw nonfinite.
Proof.
  intros Hp Hc Hv. destruct (parseRestrictedExpr_ok exprStr) as [_ Hok].
  destruct (Hok root Hp) as [Hw Hsize]. split.
  - intros Hne. unfold parseTiersFromExpr. destruct exprStr; [done|]. simpl negb. cbv iota.
    rewrite Hp. by apply tier_chain_collect.
  - unfold evaluateBillingExpression. rewrite Hp. cbn [res_bind]. rewrite evaluate_root by done.
    destruct (tier_chain_eval variables Hv root ts [] Hw Hc) as (pre & t & body & post & H1 & H2 & H3 & H4 & ->).
    exists pre, t, body, post. split_and!; [done..|]. destruct (finite_sums variables body) eqn:E; [|done].
    cbn [res_bind]. rewrite finite_sums_eq in E. apply andb_true_iff in E as [E _]. unfold requireNumber. by rewrite E.
Qed.

(** [p < 200 ? tier("std", p * 2) : tier("long", p * 4 + c)]. *)
Definition sample_expr : list N :=
  js "p < 200 ? tier(" ++ json_string (js "std") ++ js ", p * 2) : tier(" ++
  json_string (js "long") ++ js ", p * 4 + c)".

Definition sample_root : ExprNode := Eval vm_compute in
  match parseRestrictedExpr sample_expr with Ok n => n | Throw _ => Literal (VBool false) end.

Definition written_body (n : ExprNode) : ExprNode := match n with Call _ [_; body] => body | _ => n end.

(** The tiers with their bodies. *)
Definition sample_tiers : list (ParsedTier * ExprNode) := Eval vm_compute in
  zip (collectParsedTiers sample_root)
      (match sample_root with Conditional _ a b => [written_body a; written_body b] | _ => [] end).

Definition sample_variables : variables_t := fun _ => Some (num_of_Z 300).

Lemma tiered_expression_first_match_witness :
  parseTiersFromExpr sample_expr = sample_tiers.*1 /\
  evaluateBillingExpression sample_expr sample_variables = Ok (num_of_Z 1500, js "long") /\
  exists pre t body post, sample_tiers = pre ++ (t, body) :: post /\
    Forall (fun u => tier_applies sample_variables u.1 = false) pre /\ tier_applies sample_variables t = true /\ shows t body /\
    evaluateBillingExpression sample_expr sample_variables =
      if finite_sums sample_variables body then Ok (written_price sample_variables body, label t) else Throw nonfinite.
Proof.
  destruct (tiered_expression_first_match sample_expr sample_root sample_tiers sample_variables)
    as [H1 H2].
  - vm_compute. reflexivity.
  - eapply (chain_if _ (js "std")); [vm_compute; reflexivity..|]. apply (chain_last (js "long")). vm_compute. reflexivity.
  - intros k x [= <-]. reflexivity.
  - split; [apply H1; discriminate|]. split; [vm_compute; reflexivity|exact H2].
Defined.

(** ** Totality *)

Lemma requireNumber_js v : js_result (requireNumber v).
Proof. destruct v; simpl; try done. by case_match. Qed.

Lemma numeric2_js a b f : js_result (numeric2 a b f).
Proof. repeat (apply res_bind_js; [apply requireNumber_js|intros ? _]). done. Qed.

Lemma eval_binary_js op a b : js_result (eval_binary op a b).
Proof. unfold eval_binary. repeat case_bool_decide; try done; apply numeric2_js. Qed.

Lemma eval_call_js name vs m : js_result (eval_call name vs m).
Proof.
  unfold eval_call. case_bool_decide.
  { repeat case_match; try done. apply res_bind_js; [apply requireNumber_js|done]. }
  apply res_bind_js.
  { induction vs as [|v vs IH]; [done|]. apply res_bind_js; [apply requireNumber_js|].
    intros ? _. by apply res_bind_js. }
  intros ns _. apply res_bind_js; [|done]. unfold eval_function, one_argument.
  repeat case_bool_decide; by repeat case_match.
Qed.

Lemma eval_ref_js variables n : forall m, js_result (eval_ref variables n m).
Proof.
  induction n as [v|name|op v IH|op l r IHl IHr|t c a IHt IHc IHa|name args IH]
    using ExprNode_rect'; intros m; cbn [eval_ref].
  - done.
  - apply res_bind_js; [|done]. unfold eval_identifier. case_bool_decide; [|done].
    apply res_bind_js; [apply requireNumber_js|done].
  - apply res_bind_js; [apply IH|]. intros [x m1] _. apply res_bind_js; [|done].
    unfold eval_unary. case_bool_decide; [done|]. apply res_bind_js; [apply requireNumber_js|done].
  - repeat case_bool_decide; (apply res_bind_js; [apply IHl|]); intros [x m1] _;
      try destruct (truthy x); try done; (apply res_bind_js; [apply IHr|]); intros [y m2] _; try done;
      (apply res_bind_js; [apply eval_binary_js|done]).
  - apply res_bind_js; [apply IHt|]. intros [x m1] _. by destruct (truthy x).
  - apply res_bind_js; [|intros [vs m1] _; apply eval_call_js].
    revert m. induction IH as [|n l Hn _ IHl]; intros m; [done|]. cbn [map_eval].
    apply res_bind_js; [apply Hn|]. intros [x m1] _. apply res_bind_js; [apply IHl|by intros []].
Qed.

Lemma evaluation_result exprStr variables :
  js_result (evaluateBillingExpression exprStr variables) /\
  forall price lbl, evaluateBillingExpression exprStr variables = Ok (price, lbl) ->
    is_finite price = true.
Proof.
  unfold evaluateBillingExpression. destruct (parseRestrictedExpr_ok exprStr) as [Hjs Hok].
  destruct (parseRestrictedExpr exprStr) as [root|e]; [|done]. cbn [res_bind].
  rewrite evaluate_root by by apply Hok.
  split.
  - apply res_bind_js; [apply eval_ref_js|]. intros [v m] _.
    apply res_bind_js; [apply requireNumber_js|done].
  - intros price lbl H. res_inv. destruct e; simpl in *; try done. case_match; [|done]. by simplify_eq.
Qed.

(** C3: the evaluation of any string terminates with a result or with one of the
    errors the module throws itself (it never reads past the tokens), and a
    price it returns is a finite number. *)
Theorem evaluate_total_and_finite exprStr variables :
  js_result (evaluateBillingExpression exprStr variables) /\
  forall price lbl, evaluateBillingExpression exprStr variables = Ok (price, lbl) ->
    is_finite price = true.
Proof. apply evaluation_result. Qed.
