(* ===== verification/BillingText.v ===== *)
(** * Billing expressions: texts and the tokens they spell

    The text of an expression written by the client is a sequence of words,
    numerals, string literals and operators.  [lexes text toks] says that the
    tokenizer of [BillingLexer] reads [text] as [toks] wherever it occurs in front
    of a unit that ends a token; the lemmas build it for the texts the editors
    write, and [parse_text] runs the parser on the result. *)
From S2P Require Import Prelude JsString JsNumber BillingLexer JsNumberPrint JsJsonPrint.
From S2P Require Import BillingParser BillingGrammar BillingTiers.
From Stdlib Require Import Lia.

(** The tokenizer's loop with the fuel [tokenizeExpr] gives it. *)
Definition tokens_from (total count : nat) (s : list N) : res (list ExprToken) :=
  tokenize_loop (S (length s)) total count s.

Lemma tokenize_loop_fuels f g total count s :
  (length s < f)%nat -> (length s < g)%nat -> tokenize_loop f total count s = tokenize_loop g total count s.
Proof.
  revert g count s. induction f as [|f IH]; intros g count s Hf Hg; [lia|]. destruct g as [|g]; [lia|].
  cbn [tokenize_loop]. destruct s as [|c rest]; [done|]. simpl in Hf, Hg.
  destruct (is_blank c); [apply IH; lia|].
  destruct (next_token _ c rest) as [[t r]|e] eqn:E; [|done]. cbn [res_bind].
  apply next_token_spec in E as (_ & _ & Hr). by rewrite (IH g) by lia.
Qed.

Lemma tokenize_loop_fuel f total count s :
  (length s < f)%nat -> tokenize_loop f total count s = tokens_from total count s.
Proof. intros H. apply tokenize_loop_fuels; lia. Qed.

Lemma tokens_from_blank total count c s : is_blank c = true -> tokens_from total count (c :: s) = tokens_from total count s.
Proof. intros H. unfold tokens_from at 1. cbn [length tokenize_loop]. by rewrite H. Qed.

(** Units that end any token of a written expression. *)
Definition end_units : list N := 34%N :: js " (),".

Definition ends (k : list N) : Prop := match k with c :: _ => c ∈ end_units | [] => True end.

Lemma ends_stops k : ends k -> JsNumberPrint.stops k.
Proof.
  destruct k as [|c k]; [done|]. intros H. change (c ∈ [34; 32; 40; 41; 44]%N) in H.
  repeat (apply elem_of_cons in H as [->|H]; [done|]). by apply elem_of_nil in H.
Qed.

Lemma ends_word k : ends k -> match k with c :: _ => isIdentifierPart c = false | [] => True end.
Proof.
  destruct k as [|c k]; [done|]. intros H. change (c ∈ [34; 32; 40; 41; 44]%N) in H.
  repeat (apply elem_of_cons in H as [->|H]; [done|]). by apply elem_of_nil in H.
Qed.

(** ** Texts that spell tokens *)

Record lexes (text : list N) (toks : list ExprToken) : Prop := mkLexes {
  lexes_wf : Forall wf_token toks;
  lexes_reads : forall k total count, ends k -> (count + length toks <= MAX_EXPR_TOKENS)%nat ->
    tokens_from total count (text ++ k) =
    (let* ts := tokens_from total (count + length toks) k in Ok (toks ++ ts)) }.

Lemma lexes_token c r t :
  is_blank c = false ->
  (forall index k, ends k -> next_token index c (r ++ k) = Ok (t, k)) ->
  lexes (c :: r) [t].
Proof.
  intros Hc Ht. split.
  { specialize (Ht 0%nat [] I). apply next_token_spec in Ht as (? & _). by repeat constructor. }
  intros k total count Hk Hn. unfold tokens_from at 1. cbn [length app].
  assert (length k < S (length (r ++ k)))%nat as Hf by (rewrite length_app; lia). revert Hf.
  generalize (S (length (r ++ k))). intros f Hf. cbn [tokenize_loop]. rewrite Hc, Ht by done.
  cbn [res_bind]. unfold push_check. rewrite (proj2 (Nat.ltb_ge _ _)) by (simpl in Hn; lia). cbn [res_bind].
  rewrite tokenize_loop_fuel by done. by rewrite Nat.add_1_r.
Qed.

Lemma lexes_app a ta b tb :
  lexes a ta -> lexes b tb -> (forall k, ends k -> ends (b ++ k)) -> lexes (a ++ b) (ta ++ tb).
Proof.
  intros [Ha1 Ha2] [Hb1 Hb2] He. split; [by apply Forall_app|]. intros k total count Hk Hn.
  rewrite length_app in *. rewrite <- app_assoc, Ha2, Hb2, <- Nat.add_assoc by (lia || auto).
  destruct (tokens_from _ _ k); [|done]. simpl. by rewrite <- app_assoc.
Qed.

Lemma lexes_blank b tb : lexes b tb -> lexes (32%N :: b) tb.
Proof. intros [H1 H2]. split; [done|]. intros. cbn [app]. rewrite tokens_from_blank by done. auto. Qed.

(** Two texts with a blank between them. *)
Lemma lexes_space a ta b tb : lexes a ta -> lexes b tb -> lexes (a ++ js " " ++ b) (ta ++ tb).
Proof.
  intros Ha Hb. change (js " " ++ b) with (32%N :: b). apply lexes_app; [done|by apply lexes_blank|].
  intros k _. change (32%N ∈ [34; 32; 40; 41; 44]%N). set_solver.
Qed.

(** ** Tokens *)

Definition word_token (w : list N) : ExprToken := mkToken KIdentifier w None.
Definition op_token (o : string) : ExprToken := mkToken KOperator (js o) None.
Definition string_token (s : list N) : ExprToken := mkToken KString (json_string s) (Some (VStr s)).
Definition numeral_token (x : spec_float) : ExprToken := mkToken KNumber (num_to_string x) (Some (VNum x)).

Definition is_word (w : list N) : bool :=
  match w with c :: r => isIdentifierStart c && forallb isIdentifierPart r | [] => false end.

Lemma identifier_start c : isIdentifierStart c = true -> is_digit c = false /\ c <> 46%N /\ c <> 34%N /\ is_blank c = false.
Proof.
  intros H. unfold isIdentifierStart in H. assert ((65 <= c)%N) as Hc.
  { repeat (apply orb_true_iff in H as [H|H]); breflect; lia. }
  split_and!; [|lia..|].
  - unfold is_digit. apply andb_false_iff. right. apply N.leb_gt. lia.
  - unfold is_blank. rewrite !orb_false_iff. repeat split; apply N.eqb_neq; lia.
Qed.

Lemma lexes_word w : is_word w = true -> lexes w [word_token w].
Proof.
  destruct w as [|c r]; [done|]. simpl. intros [Hc Hr]%andb_true_iff.
  destruct (identifier_start c Hc) as (H1 & H2 & H3 & H4). apply lexes_token; [done|].
  intros index k Hk. unfold next_token, starts_number. rewrite H1, (proj2 (N.eqb_neq _ _) H2), (proj2 (N.eqb_neq _ _) H3), Hc.
  simpl. rewrite span_app; [done| |by apply ends_word].
  apply Forall_forall. intros x Hx. rewrite forallb_forall in Hr. apply Hr. by apply list_elem_of_In.
Qed.

Lemma lexes_string s : units s -> lexes (json_string s) [string_token s].
Proof.
  intros Hs. unfold json_string. cbn [app]. apply lexes_token; [done|]. intros index k _.
  rewrite <- app_assoc. by apply next_token_json.
Qed.

Definition written_operators : list string :=
  ["&&"; "<"; "<="; ">"; ">="; "+"; "*"; "?"; ":"; "("; ")"; ","]%string.

Lemma lexes_op o : o ∈ written_operators -> lexes (js o) [op_token o].
Proof.
  intros H. unfold written_operators in H.
  repeat (apply elem_of_cons in H as [->|H];
    [apply lexes_token; [reflexivity|]; intros index k Hk; destruct k as [|c k]; [reflexivity|];
     change (c ∈ [34; 32; 40; 41; 44]%N) in Hk;
     repeat (apply elem_of_cons in Hk as [->|Hk]; [reflexivity|]); by apply elem_of_nil in Hk|]).
  by apply elem_of_nil in H.
Qed.

(** A number, with the sign the printer gives it. *)
Definition number_tokens (x : spec_float) : list ExprToken :=
  if negative x then [op_token "-"; numeral_token (num_abs x)] else [numeral_token x].

Lemma lexes_numeral x : printable x = true -> negative x = false -> lexes (num_to_string x) [numeral_token x].
Proof.
  intros Hx Hn. destruct (num_to_string_head x Hx) as (c & r & E & Hc).
  assert (is_digit c = true) as Hd.
  { destruct (num_to_string_numeral x Hx) as (t & Ht & Et). rewrite Hn in Et. cbn [app] in Et.
    destruct (numeral_head t _ Ht) as (c' & r' & -> & ?). rewrite E in Et. by injection Et as -> ->. }
  assert (is_blank c = false) as Hb.
  { apply is_digit_spec in Hd. unfold is_blank. rewrite !orb_false_iff. repeat split; apply N.eqb_neq; lia. }
  rewrite E. apply lexes_token; [done|]. intros index k Hk. unfold next_token, starts_number.
  rewrite Hd. cbn [orb]. change (c :: r ++ k) with ((c :: r) ++ k). rewrite <- E.
  rewrite scan_number_print by (done || by apply ends_stops). cbn [res_bind].
  by rewrite printable_finite.
Qed.

Lemma next_token_minus index c r :
  is_digit c = true -> next_token index 45 (c :: r) = Ok (op_token "-", c :: r).
Proof.
  intros Hc. unfold next_token. simpl starts_number. cbv iota.
  simpl (_ =? _)%N. cbv iota. simpl isIdentifierStart. cbv iota. rewrite bool_decide_eq_false_2; [done|].
  intros H%list_elem_of_In. vm_compute in H. by repeat (destruct H as [H|H]; [done|]).
Qed.

Lemma lexes_minus c r toks : is_digit c = true -> lexes (c :: r) toks -> lexes (45%N :: c :: r) (op_token "-" :: toks).
Proof.
  intros Hc [H1 H2]. split.
  { constructor; [|done]. by apply (next_token_spec 0 45 (c :: r) _ (c :: r)), next_token_minus. }
  intros k total count Hk Hn. unfold tokens_from at 1. cbn [length app].
  assert (length ((c :: r) ++ k) < S (S (length (r ++ k))))%nat as Hf by (simpl; lia). revert Hf.
  generalize (S (S (length (r ++ k)))). intros f Hf. cbn [tokenize_loop]. rewrite next_token_minus by done.
  change (is_blank 45) with false. cbv iota. cbn [res_bind]. unfold push_check. cbn [length] in Hn.
  rewrite (proj2 (Nat.ltb_ge _ _)) by lia. cbn [res_bind]. rewrite tokenize_loop_fuel by done.
  change (c :: r ++ k) with ((c :: r) ++ k). rewrite H2; [|done|lia].
  cbn [length]. replace (count + S (length toks))%nat with (S count + length toks)%nat by lia.
  by destruct (tokens_from total (S count + length toks) k).
Qed.

Lemma lexes_number x : printable x = true -> lexes (num_to_string x) (number_tokens x).
Proof.
  intros Hx. unfold number_tokens. destruct (negative x) eqn:E; [|by apply lexes_numeral].
  destruct x as [| | |[] m e]; try done.
  assert (num_to_string (S754_finite true m e) = 45%N :: num_to_string (S754_finite false m e)) as ->.
  { unfold num_to_string. by destruct (num_fraction m e). }
  change (num_abs (S754_finite true m e)) with (S754_finite false m e).
  assert (printable (S754_finite false m e) = true) as Hp by done.
  pose proof (lexes_numeral _ Hp eq_refl) as Hl.
  destruct (num_to_string_numeral _ Hp) as (t & Ht & Et). cbn [negative app] in Et.
  destruct (numeral_head t _ Ht) as (c & r & -> & Hd). rewrite Et in *. by apply lexes_minus.
Qed.

(** ** Phrases *)

(** The node a written number is read as. *)
Definition number_node (x : spec_float) : ExprNode :=
  if negative x then Unary (js "-") (Literal (VNum (num_abs x))) else Literal (VNum x).

Lemma number_phrase d x : printable x = true -> g_level d 0 (number_tokens x) (number_node x).
Proof.
  intros Hx. unfold number_tokens, number_node. destruct (negative x).
  - apply (g_unary d [op_token "-"] [numeral_token (num_abs x)]); [|simpl; unfold MAX_EXPR_DEPTH; lia|].
    + repeat constructor.
    + by apply g_literal; [left|].
  - apply (g_unary d [] [numeral_token x]); [constructor|simpl; lia|]. by apply g_literal; [left|].
Qed.

Lemma number_literal x : printable x = true -> numericLiteral (number_node x) = Some x.
Proof. intros Hx. unfold number_node. destruct (negative x) eqn:E; [|done]. simpl. by rewrite num_abs_neg. Qed.

Lemma word_phrase d w :
  text_in (word_token w) ["true"; "false"]%string = false -> g_level d 0 [word_token w] (Identifier w).
Proof.
  intros Hw. apply (g_unary d [] [word_token w]); [constructor|simpl; lia|]. by apply (g_identifier d (word_token w)).
Qed.

Lemma lift_phrase d i j ts n : (i <= j)%nat -> g_level d i ts n -> g_level d j ts n.
Proof. induction 1; [done|]. intros. apply g_lift. auto. Qed.

(** *** Chains of one operator *)

(** Phrases with an operator between them: their text, tokens and tree. *)
Definition chain_text (o : string) (parts : list (list N)) : list N := join (js " " ++ js o ++ js " ") parts.

Fixpoint chain_tokens (o : string) (parts : list (list ExprToken)) : list ExprToken :=
  match parts with
  | [] => []
  | [p] => p
  | p :: rest => p ++ op_token o :: chain_tokens o rest
  end.

Definition chain_node (o : string) (first : ExprNode) (rest : list ExprNode) : ExprNode :=
  fold_left (Binary (js o)) rest first.

Lemma lexes_chain o texts toks :
  o ∈ written_operators -> texts <> [] -> Forall2 lexes texts toks ->
  lexes (chain_text o texts) (chain_tokens o toks).
Proof.
  intros Ho Hne H. induction H as [|w t ws ts Hw H IH]; [done|].
  destruct H as [|w' t' ws ts Hw' H]; [done|]. unfold chain_text. rewrite join_cons by done.
  change (chain_tokens o (t :: t' :: ts)) with (t ++ ([op_token o] ++ chain_tokens o (t' :: ts))).
  rewrite <- !app_assoc. apply lexes_space; [done|]. apply lexes_space; [by apply lexes_op|]. by apply IH.
Qed.

Lemma chain_tokens_cons o t ts : chain_tokens o (t :: ts) = t ++ concat (map (cons (op_token o)) ts).
Proof.
  revert t. induction ts as [|t' ts IH]; intros t; [by rewrite app_nil_r|].
  change (chain_tokens o (t :: t' :: ts)) with (t ++ op_token o :: chain_tokens o (t' :: ts)). by rewrite IH.
Qed.

Lemma chain_tokens_app o a b : a <> [] -> b <> [] ->
  chain_tokens o (a ++ b) = chain_tokens o a ++ op_token o :: chain_tokens o b.
Proof.
  destruct a as [|t a]; [done|]. destruct b as [|u b]; [done|]. intros _ _. cbn [app]. rewrite !chain_tokens_cons.
  rewrite map_app, concat_app. cbn [map concat]. by rewrite <- app_assoc.
Qed.

Lemma chain_phrase d j o t ts n ns :
  text_in (op_token o) (level_operators j) = true -> g_level d (S j) t n -> Forall2 (g_level d j) ts ns ->
  g_level d (S j) (chain_tokens o (t :: ts)) (chain_node o n ns).
Proof.
  intros Ho H0 H. rewrite chain_tokens_cons. unfold chain_node. revert t n H0.
  induction H as [|t1 n1 ts ns H1 _ IH]; intros t n H0; [by rewrite app_nil_r|].
  cbn [map concat fold_left]. rewrite app_assoc. apply IH. by apply (g_binary d j t (op_token o)).
Qed.

Lemma chain_collect o n ns :
  Forall (fun m => collect_chain (js o) m = [m]) (n :: ns) -> collect_chain (js o) (chain_node o n ns) = n :: ns.
Proof.
  intros [H0 H]%Forall_cons. unfold chain_node. change (n :: ns) with ([n] ++ ns). rewrite <- H0. clear H0.
  revert n. induction H as [|m ns Hm _ IH]; intros n; [by rewrite app_nil_r|].
  cbn [fold_left]. rewrite IH. cbn [collect_chain]. by rewrite bool_decide_eq_true_2, Hm, <- app_assoc.
Qed.

(** *** Whole expressions *)

Lemma tokenize_text text toks :
  lexes text toks -> (length text <= MAX_EXPR_LENGTH)%nat -> (length toks <= MAX_EXPR_TOKENS)%nat ->
  tokenizeExpr text = Ok (toks ++ [eof_token]).
Proof.
  intros [_ H] Hl Hn. unfold tokenizeExpr. rewrite (proj2 (Nat.ltb_ge _ _)) by done.
  fold (tokens_from (length text) 0 text). rewrite <- (app_nil_r text) at 2. by rewrite H.
Qed.

Lemma strip_unversioned text : head text <> Some (ch "v") -> (stripExprVersion text).2 = text.
Proof.
  intros H. destruct text as [|c r]; [done|]. unfold stripExprVersion.
  destruct (N.eqb_spec c (ch "v")) as [->|]; [by simpl in H|done].
Qed.

(** A written text is parsed as the tree the grammar gives its tokens. *)
Lemma parse_text text toks n :
  lexes text toks -> g_cond 0 toks n -> trimmed text -> head text <> Some (ch "v") ->
  (length text <= MAX_EXPR_LENGTH)%nat -> (length toks <= MAX_EXPR_TOKENS)%nat ->
  parseRestrictedExpr text = Ok n.
Proof.
  intros Hl Hg Ht Hv Hlen Hn. unfold parseRestrictedExpr. rewrite (proj2 (Nat.ltb_ge _ _)) by done.
  rewrite trim_trimmed by done. pose proof (strip_unversioned text Hv) as Hs.
  destruct (stripExprVersion text) as [v body]. simpl in Hs. subst body.
  rewrite (tokenize_text text toks) by done. cbn [res_bind]. apply parse_complete; [by destruct Hl|done].
Qed.
