(* ===== verification/VisualTiers.v ===== *)
(** * The visual tier editor (src/apps/web/src/features/pricing/lib/tier-expr.ts)

    The tiers a user edits in a form, the billing expression written for them, the
    reader that turns an expression back into tiers, and the local cost preview. *)
From S2P Require Import Prelude JsString JsNumber BillingLexer BillingParser BillingTiers BillingEval.
From Stdlib Require Import Lia.

(** ** [Number] of the values the form holds *)

Definition read_digits (base : N) (digit : N -> option N) (s : list N) : option N :=
  match s with
  | [] => None
  | _ => foldl (fun acc c => acc ≫= fun a => digit c ≫= fun d => if (d <? base)%N then Some (a * base + d)%N else None)
           (Some 0%N) s
  end.

(** A decimal without sign: the whole text must be consumed, and there must be a
    digit in front of the exponent. *)
Definition read_decimal (s : list N) : spec_float :=
  let starts := match s with c :: r => starts_number c r | [] => false end in
  match scan_number s with
  | Ok (_, v, []) => if starts then v else S754_nan
  | _ => S754_nan
  end.

Definition read_unsigned (s : list N) : spec_float :=
  if bool_decide (s = js "Infinity") then S754_infinity false else read_decimal s.

(** [Number(s)] of a string. *)
Definition number_of_string (s : list N) : spec_float :=
  match trim s with
  | [] => num_zero
  | 48%N :: x :: digits =>
      let base := if bool_decide (x ∈ js "xX") then Some 16%N
                  else if bool_decide (x ∈ js "oO") then Some 8%N
                  else if bool_decide (x ∈ js "bB") then Some 2%N else None in
      match base with
      | Some b => default S754_nan ((fun n => num_of_Z (Z.of_N n)) <$> read_digits b hexValue digits)
      | None => read_unsigned (48%N :: x :: digits)
      end
  | 45%N :: r => num_neg (read_unsigned r)
  | 43%N :: r => read_unsigned r
  | t => read_unsigned t
  end.

(** [Number] of a property that may be undefined. *)
Definition number_of (v : option spec_float) : spec_float := default S754_nan v.

(** ** Tiers *)

Inductive CacheMode := CACHE_MODE_TIMED | CACHE_MODE_GENERIC.

Inductive NumberOrString := ANumber (n : spec_float) | AString (s : list N).

Definition to_number (v : NumberOrString) : spec_float :=
  match v with ANumber n => n | AString s => number_of_string s end.

Record TierConditionInput := mkInput { var : list N; op : list N; value : NumberOrString }.

(** A tier; [None] is [undefined].  The optional costs live in [extra_costs], by
    property name, as the code reads them through the index signature. *)
Record VisualTier := mkVisual {
  tier_label : option (list N);
  tier_conditions : option (list TierConditionInput);
  input_unit_cost : option spec_float;
  output_unit_cost : option spec_float;
  cache_mode : option CacheMode;
  extra_costs : gmap (list N) spec_float }.

(** [Partial<VisualTier>]: the outer option of a property says whether the object
    has it, which is what the spread of [normalizeVisualTier] looks at. *)
Record PartialTier := mkPartial {
  p_label : option (option (list N));
  p_conditions : option (option (list TierConditionInput));
  p_input : option (option spec_float);
  p_output : option (option spec_float);
  p_cache_mode : option (option CacheMode);
  p_extra : gmap (list N) spec_float }.

(** A tier passed where a partial one is expected. *)
Definition as_partial (t : VisualTier) : PartialTier :=
  mkPartial (Some (tier_label t)) (Some (tier_conditions t)) (Some (input_unit_cost t))
    (Some (output_unit_cost t)) (Some (cache_mode t)) (extra_costs t).

Definition VisualConfig : Type := list VisualTier.

Definition BILLING_CACHE_VAR_MAP : list (list N * list N) :=
  (fun v => (default [] (tierField v), key v)) <$> BILLING_EXTRA_VARS.

Definition positive_cost (c : option spec_float) : bool := num_ltb num_zero (number_of c).

Definition getTierCacheMode (tier : option PartialTier) : CacheMode :=
  match default None (tier ≫= p_cache_mode) with
  | Some CACHE_MODE_TIMED => CACHE_MODE_TIMED
  | Some CACHE_MODE_GENERIC => CACHE_MODE_GENERIC
  | None =>
      if positive_cost (tier ≫= fun t => p_extra t !! js "cache_create_1h_unit_cost")
      then CACHE_MODE_TIMED else CACHE_MODE_GENERIC
  end.

(** The properties [normalizeVisualTier] lists after the spread. *)
Definition extra_fields : list (list N) :=
  js <$> ["cache_read_unit_cost"; "cache_create_unit_cost"; "cache_create_1h_unit_cost"; "image_unit_cost";
          "image_output_unit_cost"; "audio_input_unit_cost"; "audio_output_unit_cost"]%string.

(** A property of an object literal that a later spread overrides when it has it. *)
Definition spread {A} (given : option (option A)) (computed : A) : option A := default (Some computed) given.

Definition set_costs (costs : gmap (list N) spec_float) : gmap (list N) spec_float :=
  fold_left (fun m f => <[f := or_zero (number_of (costs !! f))]> m) extra_fields costs.

Definition normalizeVisualTier (tier : PartialTier) : VisualTier :=
  mkVisual
    (spread (p_label tier) (default [] (default None (p_label tier))))
    (spread (p_conditions tier) (default [] (default None (p_conditions tier))))
    (spread (p_input tier) (or_zero (number_of (default None (p_input tier)))))
    (spread (p_output tier) (or_zero (number_of (default None (p_output tier)))))
    (spread (p_cache_mode tier) (getTierCacheMode (Some tier)))
    (set_costs (p_extra tier)).

Definition createDefaultVisualConfig : VisualConfig :=
  [normalizeVisualTier
     (mkPartial (Some (Some (js "base"))) (Some (Some [])) (Some (Some num_zero)) (Some (Some num_zero))
        (Some (Some CACHE_MODE_GENERIC)) ∅)].

Definition normalizeVisualConfig (config : option VisualConfig) : VisualConfig :=
  match config with
  | None | Some [] => createDefaultVisualConfig
  | Some tiers => map (fun t => normalizeVisualTier (as_partial t)) tiers
  end.

(** ** Writing the expression *)

Definition allowedVars : list (list N) := js <$> ["p"; "c"; "len"]%string.
Definition allowedOps : list (list N) := js <$> ["<"; "<="; ">"; ">="]%string.

Definition condition_part (condition : TierConditionInput) : option (list N) :=
  let v := to_number (value condition) in
  if bool_decide (var condition ∈ allowedVars) && bool_decide (op condition ∈ allowedOps) && is_finite v
  then Some (var condition ++ js " " ++ op condition ++ js " " ++ num_to_string v)
  else None.

Definition buildConditionStr (conditions : option (list TierConditionInput)) : list N :=
  match conditions with
  | None => []
  | Some cs => join (js " && ") (omap condition_part cs)
  end.

Definition cost_part (v : list N) (k : spec_float) : list N := v ++ js " * " ++ num_to_string k.

Definition extra_part (costs : gmap (list N) spec_float) (cv : list N * list N) : option (list N) :=
  let v := or_zero (number_of (costs !! cv.1)) in
  if num_eqb v num_zero then None else Some (cost_part cv.2 v).

Definition buildTierBodyExpr (tier : VisualTier) : list N :=
  join (js " + ")
    (cost_part (js "p") (or_zero (number_of (input_unit_cost tier))) ::
     cost_part (js "c") (or_zero (number_of (output_unit_cost tier))) ::
     omap (extra_part (extra_costs tier)) BILLING_CACHE_VAR_MAP).

(** [tier.label || fallback]. *)
Definition label_or (tier : VisualTier) (fallback : list N) : list N :=
  match tier_label tier with Some (c :: r) => c :: r | _ => fallback end.

Definition tier_body (label : list N) (tier : VisualTier) : list N :=
  js "tier(" ++ json_string label ++ js ", " ++ buildTierBodyExpr tier ++ js ")".

Definition NO_PRICE : list N := js "p * 0 + c * 0".

(** One turn of the loop over several tiers. *)
Definition tier_part (n i : nat) (tier : VisualTier) : list N :=
  let body := tier_body (label_or tier (js "tier_" ++ dec_string (N.of_nat (S i)))) tier in
  let cond := buildConditionStr (tier_conditions tier) in
  if (i <? n - 1)%nat && nonempty cond then cond ++ js " ? " ++ body else body.

Definition generateExprFromVisualConfig (config : option VisualConfig) : list N :=
  match config with
  | None | Some [] => NO_PRICE
  | Some [tier] =>
      let body := tier_body (label_or tier (js "default")) tier in
      let cond := buildConditionStr (tier_conditions tier) in
      if nonempty cond then cond ++ js " ? " ++ body ++ js " : " ++ NO_PRICE else body
  | Some tiers => join (js " : ") (imap (tier_part (length tiers)) tiers)
  end.

(** ** Reading it back *)

Definition cond_op_text (o : CondOp) : list N :=
  match o with OpLt => js "<" | OpLe => js "<=" | OpGt => js ">" | OpGe => js ">=" end.

(** A parsed condition is used as a form input as it is. *)
Definition condition_input (c : TierCondition) : TierConditionInput :=
  mkInput (cond_var c) (cond_op_text (cond_op c)) (ANumber (cond_value c)).

(** [parsed[field]]. *)
Definition parsed_price (t : ParsedTier) (field : list N) : option spec_float :=
  (fun found => found.2.2) <$> list_find (fun p => p.1 = field) (prices t).

(** The costs of the cache and media variables a parsed tier has. *)
Definition parsed_extra (t : ParsedTier) : gmap (list N) spec_float :=
  fold_left (fun m cv =>
    match list_find (fun b => key b = cv.2) BILLING_VARS with
    | Some (_, b) =>
        match field b with
        | Some (c :: r) => <[cv.1 := or_zero (number_of (parsed_price t (c :: r)))]> m
        | _ => m
        end
    | None => m
    end) BILLING_CACHE_VAR_MAP ∅.

Definition tier_of_parsed (t : ParsedTier) : PartialTier :=
  mkPartial (Some (Some (label t))) (Some (Some (map condition_input (conditions t))))
    (Some (Some (or_zero (number_of (parsed_price t (js "inputPrice"))))))
    (Some (Some (or_zero (number_of (parsed_price t (js "outputPrice"))))))
    None (parsed_extra t).

(** [text.replaceAll(/\s+/g, '')]. *)
Definition without_blanks (s : list N) : list N := List.filter (fun c => negb (is_space c)) s.

Definition tryParseVisualConfig (exprStr : option (list N)) : option VisualConfig :=
  match exprStr with
  | None | Some [] => None
  | Some e =>
      let body := (stripExprVersion (trim e)).2 in
      match parseTiersFromExpr body with
      | [] => None
      | parsedTiers =>
          let config := normalizeVisualConfig (Some (map (fun t => normalizeVisualTier (tier_of_parsed t)) parsedTiers)) in
          if bool_decide (without_blanks (generateExprFromVisualConfig (Some config)) = without_blanks body)
          then Some config else None
      end
  end.

(** ** The local preview *)

Record ExtraTokenValues := mkExtra {
  cacheReadTokens : spec_float;
  cacheCreateTokens : spec_float;
  cacheCreate1hTokens : spec_float;
  imageTokens : spec_float;
  imageOutputTokens : spec_float;
  audioInputTokens : spec_float;
  audioOutputTokens : spec_float }.

Definition ESTIMATOR_VARS : list (list N * (ExtraTokenValues -> spec_float)) :=
  [(js "cr", cacheReadTokens); (js "cc", cacheCreateTokens); (js "cc1h", cacheCreate1hTokens);
   (js "img", imageTokens); (js "img_o", imageOutputTokens); (js "ai", audioInputTokens);
   (js "ao", audioOutputTokens)].

Record EvalResult := mkResult { cost : spec_float; result_tier : list N; error : option (list N) }.

(** [e.message]; the messages of the engine's own errors are not the program's. *)
Definition message_of (e : exn) : list N :=
  match e with Error msg => msg | TypeError => js "TypeError" | Fuel => js "Fuel" end.

Definition estimator_variables (promptTokens completionTokens : spec_float) (extra : ExtraTokenValues) : variables_t :=
  let len := num_add (num_add (num_add promptTokens (or_zero (cacheReadTokens extra)))
                        (or_zero (cacheCreateTokens extra))) (or_zero (cacheCreate1hTokens extra)) in
  fun name =>
    if bool_decide (name = js "p") then Some promptTokens
    else if bool_decide (name = js "c") then Some completionTokens
    else if bool_decide (name = js "len") then Some len
    else (fun found => or_zero (found.2.2 extra)) <$> list_find (fun f => f.1 = name) ESTIMATOR_VARS.

Definition evalExprLocally (exprStr : list N) (promptTokens completionTokens : spec_float)
    (extra : ExtraTokenValues) : EvalResult :=
  if negb (nonempty (trim exprStr)) then mkResult num_zero [] None
  else
    match evaluateBillingExpression exprStr (estimator_variables promptTokens completionTokens extra) with
    | Ok (v, matched) => mkResult (or_zero v) matched None
    | Throw e => mkResult num_zero [] (Some (message_of e))
    end.

(** The scan of [exprUsesExtraVars], from a position outside an identifier. *)
Fixpoint uses_loop (fuel : nat) (s : list N) : bool :=
  match fuel with
  | O => false
  | S f =>
      match s with
      | [] => false
      | c :: rest =>
          if negb (isIdentifierStart c) then uses_loop f rest
          else
            let '(a, r) := span isIdentifierPart rest in
            if bool_decide (c :: a ∈ ESTIMATOR_VARS.*1) then true else uses_loop f r
      end
  end.

Definition exprUsesExtraVars (exprStr : list N) : bool := uses_loop (length exprStr) exprStr.

(** ** The preview never fails *)

Lemma or_zero_finite x : is_finite x = true -> is_finite (or_zero x) = true.
Proof. by destruct x as [[]| | |]. Qed.

(** The preview of any text with any token counts is a finite cost, never an
    exception: either the evaluator's price and tier, with no error, or cost zero,
    no tier and the message of an error the evaluator throws itself.  Blank text
    costs nothing. *)
Theorem preview_total exprStr promptTokens completionTokens extra :
  let r := evalExprLocally exprStr promptTokens completionTokens extra in
  let evaluated := evaluateBillingExpression exprStr (estimator_variables promptTokens completionTokens extra) in
  is_finite (cost r) = true /\
  match error r with
  | None => trim exprStr = [] /\ r = mkResult num_zero [] None \/
            exists v, evaluated = Ok (v, result_tier r) /\ cost r = or_zero v
  | Some msg => evaluated = Throw (Error msg) /\ cost r = num_zero /\ result_tier r = []
  end.
Proof.
  cbv zeta. unfold evalExprLocally. destruct (trim exprStr) as [|c t] eqn:E; [split; [done|]; by left|].
  cbn [nonempty negb]. destruct (evaluation_result exprStr (estimator_variables promptTokens completionTokens extra)) as [Hjs Hf].
  destruct (evaluateBillingExpression _ _) as [[v m]|e]; cbn [cost error result_tier].
  - split; [|right; by exists v]. apply or_zero_finite. by eapply Hf.
  - split; [done|]. by destruct e.
Qed.
