(* ===== verification/VisualRoundtrip.v ===== *)
(** * The visual tier editor: expressions that are written are read back

    [generateExprFromVisualConfig] followed by [tryParseVisualConfig] (tier-expr.ts).
    The written text is cut into the tokens it spells, the grammar gives them a
    tree, and the tiers collected from the tree are the ones that were written,
    in their canonical form. *)
From S2P Require Import Prelude JsString JsNumber BillingLexer JsNumberPrint JsJsonPrint.
From S2P Require Import BillingParser BillingGrammar BillingTiers BillingEval BillingText VisualTiers.
From Stdlib Require Import Lia.

(** ** What is written of a tier *)

(** A condition the writer keeps, with its number. *)
Definition canonical_condition (c : TierConditionInput) : option TierConditionInput :=
  let v := to_number (value c) in
  if bool_decide (var c ∈ allowedVars) && bool_decide (op c ∈ allowedOps) && is_finite v
  then Some (mkInput (var c) (op c) (ANumber (or_zero v))) else None.

Definition kept_conditions (t : VisualTier) : list TierConditionInput :=
  omap canonical_condition (default [] (tier_conditions t)).

Definition extra_term (costs : gmap (list N) spec_float) (cv : list N * list N) : option (list N * spec_float) :=
  let v := or_zero (number_of (costs !! cv.1)) in
  if num_eqb v num_zero then None else Some (cv.2, v).

(** The priced variables with their prices, in the order they are written. *)
Definition terms (t : VisualTier) : list (list N * spec_float) :=
  (js "p", or_zero (number_of (input_unit_cost t))) ::
  (js "c", or_zero (number_of (output_unit_cost t))) ::
  omap (extra_term (extra_costs t)) BILLING_CACHE_VAR_MAP.

(** The parts of a written tier. *)
Record Written := mkW { w_conds : list TierConditionInput; w_label : list N; w_terms : list (list N * spec_float) }.

Definition cond_text (c : TierConditionInput) : list N :=
  var c ++ js " " ++ op c ++ js " " ++ num_to_string (to_number (value c)).
Definition conds_text (w : Written) : list N := chain_text "&&" (map cond_text (w_conds w)).
Definition terms_text (l : list (list N * spec_float)) : list N :=
  chain_text "+" (map (fun vk => cost_part vk.1 vk.2) l).
Definition body_text (w : Written) : list N :=
  js "tier(" ++ json_string (w_label w) ++ js ", " ++ terms_text (w_terms w) ++ js ")".
Definition w_text (w : Written) : list N :=
  match w_conds w with [] => body_text w | _ => conds_text w ++ js " ? " ++ body_text w end.

(** Tier [i] of [n]: the last of several tiers is written without its conditions. *)
Definition written (n i : nat) (t : VisualTier) : Written :=
  mkW (if (i <? n - 1)%nat then kept_conditions t else [])
    (label_or t (js "tier_" ++ dec_string (N.of_nat (S i)))) (terms t).

Definition written_alone (t : VisualTier) : Written := mkW (kept_conditions t) (label_or t (js "default")) (terms t).

Definition no_terms : list (list N * spec_float) := [(js "p", num_zero); (js "c", num_zero)].

Lemma or_zero_text v : is_finite v = true -> num_to_string (or_zero v) = num_to_string v.
Proof. by destruct v as [[]| | |]. Qed.

Lemma condition_part_text c : condition_part c = cond_text <$> canonical_condition c.
Proof.
  unfold condition_part, canonical_condition. destruct (is_finite (to_number (value c))) eqn:E.
  - destruct (_ && _); [|done]. unfold cond_text. simpl. by rewrite or_zero_text.
  - by rewrite !andb_false_r.
Qed.

Lemma omap_fmap {A B C} (f : A -> option B) (g : B -> C) (h : A -> option C) l :
  (forall x, h x = g <$> f x) -> omap h l = map g (omap f l).
Proof.
  intros H. induction l as [|x l IH]; [done|]. cbn. rewrite H. destruct (f x); simpl; [f_equal|]; exact IH.
Qed.

Lemma buildConditionStr_text t : buildConditionStr (tier_conditions t) = chain_text "&&" (map cond_text (kept_conditions t)).
Proof.
  unfold buildConditionStr, kept_conditions. destruct (tier_conditions t) as [cs|]; [|done]. cbn [default from_option].
  unfold id. by rewrite (omap_fmap canonical_condition cond_text condition_part) by apply condition_part_text.
Qed.

Lemma body_expr_text t : buildTierBodyExpr t = terms_text (terms t).
Proof.
  unfold buildTierBodyExpr, terms_text, terms. cbn [map fst snd]. unfold chain_text.
  do 3 f_equal. apply omap_fmap. intros [f v]. unfold extra_part, extra_term. by destruct (num_eqb _ _).
Qed.

Lemma conds_text_nonempty c cs : nonempty (chain_text "&&" (map cond_text (c :: cs))) = true.
Proof.
  unfold chain_text. destruct cs; [|rewrite map_cons, join_cons by done]; cbn [map join]; unfold cond_text;
    destruct (var c); try done; simpl; by destruct (op c).
Qed.

Lemma tier_part_text n i t : tier_part n i t = w_text (written n i t).
Proof.
  unfold tier_part, w_text, written. rewrite buildConditionStr_text. unfold tier_body, body_text, conds_text.
  cbn [w_conds w_label w_terms]. rewrite body_expr_text. destruct (i <? n - 1)%nat; [|done].
  destruct (kept_conditions t) as [|c cs] eqn:E; [done|]. by rewrite conds_text_nonempty.
Qed.

Lemma generate_several tiers :
  (2 <= length tiers)%nat ->
  generateExprFromVisualConfig (Some tiers) = chain_text ":" (map w_text (imap (written (length tiers)) tiers)).
Proof.
  intros H. destruct tiers as [|t1 [|t2 tiers]]; [simpl in H; lia..|].
  set (l := t1 :: t2 :: tiers). change (generateExprFromVisualConfig (Some l)) with (join (js " : ") (imap (tier_part (length l)) l)).
  change (js " : ") with (js " " ++ js ":" ++ js " "). unfold chain_text. f_equal.
  generalize (length l). intros n. change (map w_text) with (fmap w_text : list Written -> list (list N)). rewrite fmap_imap. apply imap_ext. intros i t _. apply tier_part_text.
Qed.

Lemma generate_alone t :
  generateExprFromVisualConfig (Some [t]) =
  match kept_conditions t with
  | [] => body_text (written_alone t)
  | _ => chain_text ":" [w_text (written_alone t); terms_text no_terms]
  end.
Proof.
  unfold generateExprFromVisualConfig. rewrite buildConditionStr_text. unfold tier_body. rewrite body_expr_text.
  destruct (kept_conditions t) as [|c cs] eqn:E.
  - reflexivity.
  - rewrite conds_text_nonempty. unfold w_text, written_alone, body_text, conds_text. cbn [w_conds w_label w_terms].
    rewrite E. unfold chain_text at 2. cbn [join]. rewrite <- !app_assoc. reflexivity.
Qed.

(** ** Tokens and trees *)

Definition cond_tokens (c : TierConditionInput) : list ExprToken :=
  word_token (var c) :: mkToken KOperator (op c) None :: number_tokens (to_number (value c)).
Definition cond_node (c : TierConditionInput) : ExprNode :=
  Binary (op c) (Identifier (var c)) (number_node (to_number (value c))).

Definition term_tokens (vk : list N * spec_float) : list ExprToken :=
  word_token vk.1 :: op_token "*" :: number_tokens vk.2.
Definition term_node (vk : list N * spec_float) : ExprNode :=
  Binary (js "*") (Identifier vk.1) (number_node vk.2).

Definition terms_tokens (l : list (list N * spec_float)) : list ExprToken := chain_tokens "+" (map term_tokens l).
Definition terms_node (l : list (list N * spec_float)) : ExprNode :=
  match l with [] => Literal (VBool false) | t :: r => chain_node "+" (term_node t) (map term_node r) end.

Definition body_tokens (w : Written) : list ExprToken :=
  word_token (js "tier") :: op_token "(" ::
  ([string_token (w_label w)] ++ op_token "," :: terms_tokens (w_terms w)) ++ [op_token ")"].
Definition body_node (w : Written) : ExprNode :=
  Call (js "tier") [Literal (VStr (w_label w)); terms_node (w_terms w)].

Definition conds_tokens (w : Written) : list ExprToken := chain_tokens "&&" (map cond_tokens (w_conds w)).
Definition conds_node (l : list TierConditionInput) : ExprNode :=
  match l with [] => Literal (VBool false) | c :: r => chain_node "&&" (cond_node c) (map cond_node r) end.

Definition w_tokens (w : Written) : list ExprToken :=
  match w_conds w with [] => body_tokens w | _ => conds_tokens w ++ op_token "?" :: body_tokens w end.

(** *** Conditions and terms that can be written *)

Definition cond_ok (c : TierConditionInput) : bool :=
  bool_decide (var c ∈ allowedVars) && bool_decide (op c ∈ allowedOps) && printable (to_number (value c)).

Definition term_ok (vk : list N * spec_float) : bool :=
  bool_decide (vk.1 ∈ BILLING_VAR_KEY_TO_FIELD.*1) && printable vk.2.

Definition w_ok (w : Written) : bool :=
  forallb cond_ok (w_conds w) && unitsb (w_label w) && nonempty (w_label w) &&
  forallb term_ok (w_terms w) && bool_decide (w_terms w <> []).

Lemma known_words : forallb (fun v => is_word v && negb (text_in (word_token v) ["true"; "false"]%string))
  (allowedVars ++ BILLING_VAR_KEY_TO_FIELD.*1) = true.
Proof. vm_compute. reflexivity. Qed.

Lemma known_word v : v ∈ allowedVars ++ BILLING_VAR_KEY_TO_FIELD.*1 ->
  is_word v = true /\ text_in (word_token v) ["true"; "false"]%string = false.
Proof.
  intros H. pose proof known_words as Hk. rewrite forallb_forall in Hk.
  apply list_elem_of_In, Hk in H. by breflect.
Qed.

Lemma allowed_op o : o ∈ allowedOps ->
  lexes o [mkToken KOperator o None] /\ text_in (mkToken KOperator o None) (level_operators 2) = true.
Proof.
  intros H. unfold allowedOps in H. apply list_elem_of_fmap in H as (s & -> & Hs). split.
  - apply lexes_op. unfold written_operators. set_solver.
  - repeat (apply elem_of_cons in Hs as [->|Hs]; [reflexivity|]). by apply elem_of_nil in Hs.
Qed.

Lemma cond_lexes c : cond_ok c = true -> lexes (cond_text c) (cond_tokens c).
Proof.
  unfold cond_ok. intros H. breflect. destruct (known_word (var c)) as [Hw _]; [by apply elem_of_app; left|].
  unfold cond_text. apply (lexes_space _ [word_token (var c)]); [by apply lexes_word|].
  apply (lexes_space _ [mkToken KOperator (op c) None]); [by apply allowed_op|by apply lexes_number].
Qed.

Lemma cond_phrase d c : cond_ok c = true -> g_level d 3 (cond_tokens c) (cond_node c).
Proof.
  unfold cond_ok. intros H. breflect. destruct (known_word (var c)) as [_ Hw]; [by apply elem_of_app; left|].
  apply (g_binary d 2 [word_token (var c)] (mkToken KOperator (op c) None)).
  - apply (lift_phrase d 0); [lia|]. by apply word_phrase.
  - by apply allowed_op.
  - apply (lift_phrase d 0); [lia|]. by apply number_phrase.
Qed.

Lemma term_lexes vk : term_ok vk = true -> lexes (cost_part vk.1 vk.2) (term_tokens vk).
Proof.
  unfold term_ok. intros H. breflect. destruct (known_word vk.1) as [Hw _]; [by apply elem_of_app; right|].
  unfold cost_part. change (js " * ") with (js " " ++ js "*" ++ js " "). rewrite <- !app_assoc.
  apply (lexes_space _ [word_token vk.1]); [by apply lexes_word|].
  apply (lexes_space _ [op_token "*"]); [apply lexes_op; unfold written_operators; set_solver|by apply lexes_number].
Qed.

Lemma term_phrase d vk : term_ok vk = true -> g_level d 1 (term_tokens vk) (term_node vk).
Proof.
  unfold term_ok. intros H. breflect. destruct (known_word vk.1) as [_ Hw]; [by apply elem_of_app; right|].
  apply (g_binary d 0 [word_token vk.1] (op_token "*")); [|done|by apply number_phrase].
  apply (lift_phrase d 0); [lia|]. by apply word_phrase.
Qed.

Lemma Forall2_map {A B C} (P : B -> C -> Prop) (f : A -> B) (g : A -> C) (ok : A -> bool) l :
  (forall x, ok x = true -> P (f x) (g x)) -> forallb ok l = true -> Forall2 P (map f l) (map g l).
Proof.
  intros H. induction l as [|x l IH]; [constructor|]. simpl. intros [H1 H2]%andb_true_iff. constructor; auto.
Qed.

Lemma terms_lexes l : l <> [] -> forallb term_ok l = true -> lexes (terms_text l) (terms_tokens l).
Proof.
  intros Hne H. apply lexes_chain; [unfold written_operators; set_solver|by destruct l|].
  apply (Forall2_map _ _ _ term_ok); [apply term_lexes|done].
Qed.

Lemma terms_phrase d l : l <> [] -> forallb term_ok l = true -> g_level d 2 (terms_tokens l) (terms_node l).
Proof.
  intros Hne H. destruct l as [|t l]; [done|]. simpl in H. apply andb_true_iff in H as [H1 H2].
  apply chain_phrase; [done|apply g_lift; by apply term_phrase|].
  apply (Forall2_map _ _ _ term_ok); [apply term_phrase|done].
Qed.

Lemma w_ok_spec w :
  w_ok w = true -> forallb cond_ok (w_conds w) = true /\ units (w_label w) /\ w_label w <> [] /\
  forallb term_ok (w_terms w) = true /\ w_terms w <> [].
Proof.
  unfold w_ok. intros H. breflect. split_and!; try done; [by apply unitsb_units|by intros E; rewrite E in *].
Qed.

Lemma body_lexes w : w_ok w = true -> lexes (body_text w) (body_tokens w).
Proof.
  intros (_ & Hl & _ & Ht & Hne)%w_ok_spec. unfold body_text, body_tokens.
  assert (forall o, o ∈ ["("; ")"; ","]%string -> o ∈ written_operators) as Hop by (unfold written_operators; set_solver).
  assert (forall c r k, c ∈ [34; 32; 40; 41; 44]%N -> ends ((c :: r) ++ k)) as He by done.
  change (js "tier(") with (js "tier" ++ js "("). change (js ", ") with (js "," ++ js " "). rewrite <- !app_assoc.
  apply (lexes_app _ [word_token (js "tier")]); [by apply lexes_word| |intros k _; apply He; set_solver].
  apply (lexes_app _ [op_token "("]); [by apply lexes_op, Hop; set_solver| |intros k _; apply He; set_solver].
  apply (lexes_app _ [string_token (w_label w)]); [by apply lexes_string| |intros k _; apply He; set_solver].
  apply (lexes_space _ [op_token ","]); [by apply lexes_op, Hop; set_solver|].
  apply lexes_app; [by apply terms_lexes|by apply lexes_op, Hop; set_solver|intros k _; apply He; set_solver].
Qed.

Lemma body_phrase d w : (S d <= MAX_EXPR_DEPTH)%nat -> w_ok w = true -> g_cond d (body_tokens w) (body_node w).
Proof.
  intros Hd (_ & Hl & _ & Ht & Hne)%w_ok_spec. apply g_plain; [lia|]. apply (lift_phrase d 0); [lia|].
  apply (g_unary d [] (body_tokens w)); [constructor|simpl; lia|].
  apply (g_call d (word_token (js "tier")) (op_token "(")); [done..| |simpl; unfold MAX_CALL_ARGUMENTS; lia|done].
  apply (g_next_arg d [string_token (w_label w)] (op_token ",")); [|done|].
  - apply g_plain; [done|]. apply (lift_phrase _ 0); [lia|].
    apply (g_unary _ [] [string_token (w_label w)]); [constructor|simpl; lia|]. apply g_literal; [by right|done].
  - apply g_last_arg, g_plain; [done|]. apply (lift_phrase _ 2); [lia|]. by apply terms_phrase.
Qed.

Lemma conds_lexes w : w_conds w <> [] -> w_ok w = true -> lexes (conds_text w) (conds_tokens w).
Proof.
  intros Hne (Hc & _)%w_ok_spec. apply lexes_chain; [unfold written_operators; set_solver|by destruct (w_conds w)|].
  apply (Forall2_map _ _ _ cond_ok); [apply cond_lexes|done].
Qed.

Lemma conds_phrase d w : w_conds w <> [] -> w_ok w = true -> g_level d 6 (conds_tokens w) (conds_node (w_conds w)).
Proof.
  intros Hne (Hc & _)%w_ok_spec. unfold conds_tokens. destruct (w_conds w) as [|c cs]; [done|].
  simpl in Hc. apply andb_true_iff in Hc as [H1 H2]. apply g_lift, chain_phrase; [done| |].
  - apply (lift_phrase _ 3); [lia|]. by apply cond_phrase.
  - apply (Forall2_map _ _ _ cond_ok); [|done]. intros x Hx. apply (lift_phrase _ 3); [lia|]. by apply cond_phrase.
Qed.

Lemma w_lexes w : w_ok w = true -> lexes (w_text w) (w_tokens w).
Proof.
  intros Hw. unfold w_text, w_tokens. destruct (w_conds w) as [|c cs] eqn:E; [by apply body_lexes|].
  change (js " ? ") with (js " " ++ js "?" ++ js " "). rewrite <- !app_assoc.
  apply lexes_space; [apply conds_lexes; [by rewrite E|done]|].
  apply (lexes_space _ [op_token "?"]); [apply lexes_op; unfold written_operators; set_solver|by apply body_lexes].
Qed.

(** *** A chain of conditional tiers that ends in another phrase *)

Definition tiers_node (ws : list Written) (final : ExprNode) : ExprNode :=
  foldr (fun w n => Conditional (conds_node (w_conds w)) (body_node w) n) final ws.

Lemma tiers_lexes ws text toks :
  forallb w_ok ws = true -> lexes text toks ->
  lexes (chain_text ":" (map w_text ws ++ [text])) (chain_tokens ":" (map w_tokens ws ++ [toks])).
Proof.
  intros H Hf. apply lexes_chain; [unfold written_operators; set_solver|by destruct ws|].
  apply Forall2_app; [|apply Forall2_cons; split; [done|constructor]]. apply (Forall2_map _ _ _ w_ok); [apply w_lexes|done].
Qed.

Lemma tiers_phrase ws : forall d toks node,
  forallb w_ok ws = true -> Forall (fun w => w_conds w <> []) ws -> (d + S (length ws) <= MAX_EXPR_DEPTH)%nat ->
  g_cond (d + length ws) toks node ->
  g_cond d (chain_tokens ":" (map w_tokens ws ++ [toks])) (tiers_node ws node).
Proof.
  induction ws as [|w ws IH]; intros d toks node Hok Hc Hd Hf.
  { by rewrite Nat.add_0_r in Hf. }
  simpl in Hok, Hd. apply andb_true_iff in Hok as [Hw Hok]. apply Forall_cons in Hc as [Hwc Hc].
  rewrite map_cons. cbn [app]. rewrite chain_tokens_cons.
  replace (concat (map (cons (op_token ":")) (map w_tokens ws ++ [toks])))
    with (op_token ":" :: chain_tokens ":" (map w_tokens ws ++ [toks])).
  2:{ destruct (map w_tokens ws ++ [toks]) eqn:E; [by destruct ws|]. by rewrite chain_tokens_cons. }
  unfold w_tokens at 1. destruct (w_conds w) eqn:E; [done|]. rewrite <- app_assoc. cbn [app].
  apply (g_if d (conds_tokens w) (op_token "?") (body_tokens w) (op_token ":")); try done; [lia|..].
  - apply conds_phrase; [by rewrite E|done].
  - apply body_phrase; [lia|done].
  - apply IH; [done..|lia|]. simpl in Hf. by rewrite Nat.add_succ_r in Hf.
Qed.

(** ** The tiers collected from the tree *)

Definition parsed_cond (c : TierConditionInput) : TierCondition :=
  mkCond (var c) (default OpLt (cond_op_of (op c))) (to_number (value c)).

Definition coefficients (l : list (list N * spec_float)) : gmap (list N) spec_float :=
  fold_left (fun m vk => <[vk.1 := vk.2]> m) l ∅.

Definition parsed (w : Written) (conds : list TierConditionInput) : ParsedTier :=
  mkTier (w_label w) (map parsed_cond conds) (tier_prices (coefficients (w_terms w))).

Lemma allowed_cond_op o : o ∈ allowedOps -> exists k, cond_op_of o = Some k /\ cond_op_text k = o.
Proof.
  intros H. unfold allowedOps in H. apply list_elem_of_fmap in H as (s & -> & Hs).
  repeat (apply elem_of_cons in Hs as [->|Hs]; [eexists; split; reflexivity|]). by apply elem_of_nil in Hs.
Qed.

Lemma allowed_condition_vars v : v ∈ allowedVars -> v ∈ BILLING_CONDITION_VARS.
Proof. intros H. assert (BILLING_CONDITION_VARS = allowedVars) as -> by (vm_compute; reflexivity). done. Qed.

Lemma cond_read c : cond_ok c = true -> tierCondition (cond_node c) = Some (parsed_cond c).
Proof.
  unfold cond_ok. intros H. breflect. destruct (allowed_cond_op _ H1) as (k & Hk & _).
  unfold tierCondition, cond_node, parsed_cond. rewrite Hk, bool_decide_eq_true_2 by by apply allowed_condition_vars.
  by rewrite number_literal.
Qed.

Lemma conds_read l : l <> [] -> forallb cond_ok l = true -> tierConditions (conds_node l) = Some (map parsed_cond l).
Proof.
  intros Hne Hl. unfold tierConditions. assert (collect_chain (js "&&") (conds_node l) = map cond_node l) as ->.
  { destruct l as [|c l]; [done|]. apply chain_collect. change (cond_node c :: map cond_node l) with (map cond_node (c :: l)).
    apply Forall_forall. intros n (x & <- & Hx%list_elem_of_In)%list_elem_of_In%in_map_iff. rewrite forallb_forall in Hl.
    apply list_elem_of_In, Hl in Hx. unfold cond_ok in Hx. breflect. cbn [collect_chain cond_node].
    rewrite bool_decide_eq_false_2; [done|]. intros E. rewrite E in H1. vm_compute in H1. set_solver. }
  clear Hne. induction l as [|c l IH]; [done|]. simpl in Hl. apply andb_true_iff in Hl as [H1 H2].
  cbn [map mapM]. rewrite cond_read by done. simpl. by rewrite IH.
Qed.

Lemma zero_add k : printable k = true -> num_add num_zero k = k.
Proof. by destruct k as [[]| | |]. Qed.

Lemma sum_terms_read l : forall acc,
  forallb term_ok l = true -> NoDup (map fst l) -> (forall x, x ∈ map fst l -> acc !! x = None) ->
  sum_terms acc (map term_node l) = Some (fold_left (fun m vk => <[vk.1 := vk.2]> m) l acc).
Proof.
  induction l as [|[v k] l IH]; intros acc Hl Hnd Hacc; [done|]. simpl in Hl. apply andb_true_iff in Hl as [H1 H2].
  unfold term_ok in H1. simpl in H1. breflect. apply NoDup_cons in Hnd as [Hv Hnd]. cbn [map sum_terms price_term term_node fst snd].
  rewrite bool_decide_eq_true_2 by done. rewrite number_literal by done. cbn [default from_option]. unfold id.
  rewrite bool_decide_eq_true_2, printable_finite by done. cbn [andb fold_left fst snd].
  unfold add_coefficient. rewrite Hacc by (simpl; set_solver). cbn [default from_option].
  change (or_zero num_zero) with num_zero. rewrite zero_add by done. apply IH; [done..|].
  intros x Hx. rewrite lookup_insert_ne by (intros ->; done). apply Hacc. simpl. set_solver.
Qed.

Lemma terms_read l :
  l <> [] -> forallb term_ok l = true -> NoDup (map fst l) -> priceCoefficients (terms_node l) = Some (coefficients l).
Proof.
  intros Hne Hl Hnd. unfold priceCoefficients. assert (collect_chain (js "+") (terms_node l) = map term_node l) as ->.
  { destruct l as [|t l]; [done|]. apply chain_collect. change (term_node t :: map term_node l) with (map term_node (t :: l)).
    apply Forall_forall. by intros n (x & <- & _)%list_elem_of_In%in_map_iff. }
  by apply sum_terms_read; [..|intros; apply lookup_empty].
Qed.

Definition w_distinct (w : Written) : Prop := NoDup (map fst (w_terms w)).

Lemma body_read w conds : w_ok w = true -> w_distinct w ->
  parsedTier (body_node w) (map parsed_cond conds) = Some (parsed w conds).
Proof.
  intros (_ & _ & _ & Ht & Hne)%w_ok_spec Hnd. unfold parsedTier, body_node.
  rewrite bool_decide_eq_true_2, terms_read by done. done.
Qed.

Lemma tiers_read ws final :
  forallb w_ok ws = true -> Forall w_distinct ws -> Forall (fun w => w_conds w <> []) ws ->
  collectParsedTiers (tiers_node ws final) = map (fun w => parsed w (w_conds w)) ws ++ collectParsedTiers final.
Proof.
  intros Hok Hd Hc. induction ws as [|w ws IH]; [done|].
  simpl in Hok. apply andb_true_iff in Hok as [Hw Hok]. apply Forall_cons in Hc as [Hwc Hc]. apply Forall_cons in Hd as [Hwd Hd].
  cbn [tiers_node foldr collectParsedTiers]. apply w_ok_spec in Hw as Hs. rewrite conds_read by (done || apply Hs).
  change (Some (map parsed_cond (w_conds w)) ≫= parsedTier (body_node w)) with (parsedTier (body_node w) (map parsed_cond (w_conds w))).
  rewrite body_read by done. cbn [map app]. f_equal. by apply IH.
Qed.

Lemma final_read w : w_ok w = true -> w_distinct w -> collectParsedTiers (body_node w) = [parsed w []].
Proof.
  intros Hw Hd. pose proof (body_read w [] Hw Hd) as H. unfold body_node in *. cbn [collectParsedTiers map] in *. by rewrite H.
Qed.

(** ** The canonical form of a tier *)

Definition canonical_costs (costs : gmap (list N) spec_float) : gmap (list N) spec_float :=
  fold_left (fun m f => <[f := or_zero (number_of (costs !! f))]> m) extra_fields ∅.

(** The tier as the reader rebuilds it: numbers normalized, the cache mode chosen
    by the price of the one-hour cache. *)
Definition canonical (label : list N) (conds : list TierConditionInput) (t : VisualTier) : VisualTier :=
  mkVisual (Some label) (Some conds)
    (Some (or_zero (number_of (input_unit_cost t)))) (Some (or_zero (number_of (output_unit_cost t))))
    (Some (if num_ltb num_zero (or_zero (number_of (extra_costs t !! js "cache_create_1h_unit_cost")))
           then CACHE_MODE_TIMED else CACHE_MODE_GENERIC))
    (canonical_costs (extra_costs t)).

Lemma or_zero_idem x : or_zero (or_zero x) = or_zero x.
Proof. unfold or_zero. destruct (num_truthy x) eqn:E; [by rewrite E|done]. Qed.

Lemma or_zero_zero x : num_eqb (or_zero x) num_zero = true -> or_zero x = num_zero.
Proof. by destruct x as [[]|[]| |[]]. Qed.

Lemma coefficients_fold l : forall acc v,
  NoDup (map fst l) ->
  (forall k, (v, k) ∈ l -> fold_left (fun m vk => <[vk.1 := vk.2]> m) l acc !! v = Some k) /\
  (v ∉ map fst l -> fold_left (fun m vk => <[vk.1 := vk.2]> m) l acc !! v = (acc : gmap (list N) spec_float) !! v).
Proof.
  induction l as [|[x y] l IH]; intros acc v Hnd.
  { split; [intros k Hk; by apply elem_of_nil in Hk|done]. }
  simpl in Hnd. apply NoDup_cons in Hnd as [Hx Hnd]. cbn [fold_left fst snd]. split.
  - intros k [[= -> ->]|Hk]%elem_of_cons; [|by apply IH].
    destruct (IH (<[x := y]> acc) x Hnd) as [_ ->]; [apply lookup_insert_eq|done].
  - intros Hv. simpl in Hv. apply not_elem_of_cons in Hv as [Hvx Hv].
    destruct (IH (<[x := y]> acc) v Hnd) as [_ ->]; [|done]. by apply lookup_insert_ne.
Qed.

Lemma cache_vars_sorted :
  BILLING_CACHE_VAR_MAP.*1 = extra_fields /\ NoDup (js "p" :: js "c" :: BILLING_CACHE_VAR_MAP.*2) /\
  js "p" :: js "c" :: BILLING_CACHE_VAR_MAP.*2 = BILLING_VAR_KEY_TO_FIELD.*1.
Proof.
  split_and!; [vm_compute; reflexivity| |vm_compute; reflexivity]. apply (bool_decide_unpack _). vm_compute. exact I.
Qed.

Lemma extra_names costs (l : list (list N * list N)) : map fst (omap (extra_term costs) l) `sublist_of` l.*2.
Proof.
  induction l as [|[f v] l IH]; [constructor|]. rewrite fmap_cons. cbn [omap list_omap]. unfold extra_term at 1. cbn [fst snd].
  destruct (num_eqb _ _); [by apply sublist_cons|]. cbn [map fst]. by apply sublist_skip.
Qed.

Lemma terms_distinct t : NoDup (map fst (terms t)).
Proof.
  destruct cache_vars_sorted as (_ & Hnd & _). eapply sublist_NoDup; [exact Hnd|]. unfold terms. cbn [map fst].
  do 2 apply sublist_skip. apply extra_names.
Qed.

Lemma base_coefficient t v k :
  (v, k) ∈ terms t -> coefficients (terms t) !! v = Some k.
Proof. intros H. by apply (coefficients_fold (terms t) ∅ v (terms_distinct t)). Qed.

Lemma extra_elem costs (l : list (list N * list N)) (v : list N) k :
  (v, k) ∈ omap (extra_term costs) l <-> exists f, (f, v) ∈ l /\ k = or_zero (number_of (costs !! f)) /\ num_eqb k num_zero = false.
Proof.
  rewrite list_elem_of_omap. split.
  - intros ([f x] & Hl & He). unfold extra_term in He. cbn [fst snd] in He.
    destruct (num_eqb _ _) eqn:E; [done|]. injection He as -> <-. eauto.
  - intros (f & Hl & -> & E). exists (f, v). split; [done|]. unfold extra_term. cbn [fst snd]. by rewrite E.
Qed.

Lemma cache_var_unique (f f' v : list N) : (f, v) ∈ BILLING_CACHE_VAR_MAP -> (f', v) ∈ BILLING_CACHE_VAR_MAP -> f = f'.
Proof.
  destruct cache_vars_sorted as (_ & Hnd & _). do 2 apply NoDup_cons in Hnd as [_ Hnd]. intros H1 H2.
  apply list_elem_of_lookup in H1 as [i H1]. apply list_elem_of_lookup in H2 as [j H2].
  assert (i = j) as ->; [|congruence].
  eapply NoDup_lookup; [exact Hnd|rewrite list_lookup_fmap, H1; reflexivity|by rewrite list_lookup_fmap, H2].
Qed.

Lemma extra_coefficient t f v :
  (f, v) ∈ BILLING_CACHE_VAR_MAP ->
  or_zero (default num_zero (coefficients (terms t) !! v)) = or_zero (number_of (extra_costs t !! f)).
Proof.
  intros Hfv. destruct (num_eqb (or_zero (number_of (extra_costs t !! f))) num_zero) eqn:E.
  - pose proof (or_zero_zero _ E) as Ez. rewrite Ez. destruct (coefficients_fold (terms t) ∅ v (terms_distinct t)) as [_ H].
    unfold coefficients. rewrite H; [by rewrite lookup_empty|]. unfold terms. cbn [map fst].
    destruct cache_vars_sorted as (_ & Hnd & _). apply NoDup_cons in Hnd as [Hp Hnd]. apply NoDup_cons in Hnd as [Hc _].
    assert (v ∈ BILLING_CACHE_VAR_MAP.*2) as Hv by (apply list_elem_of_fmap; by exists (f, v)).
    rewrite !not_elem_of_cons. split_and!; [intros ->; by apply Hp, list_elem_of_further|intros ->; by apply Hc|].
    intros ([x k] & [= ->] & Hk)%list_elem_of_fmap. apply extra_elem in Hk as (f' & Hf' & -> & E').
    rewrite <- (cache_var_unique f f' x Hfv Hf') in E'. congruence.
  - rewrite (base_coefficient t v (or_zero (number_of (extra_costs t !! f)))); [apply or_zero_idem|].
    unfold terms. do 2 apply list_elem_of_further. apply extra_elem. eauto.
Qed.

Lemma fold_insert_ext {X} (g h : X -> list N * spec_float) (l : list X) (m : gmap (list N) spec_float) :
  (forall x, x ∈ l -> g x = h x) ->
  fold_left (fun m x => <[(g x).1 := (g x).2]> m) l m = fold_left (fun m x => <[(h x).1 := (h x).2]> m) l m.
Proof.
  revert m. induction l as [|x l IH]; intros m H; [done|]. cbn [fold_left].
  rewrite (H x) by apply list_elem_of_here. apply IH. intros y Hy. by apply H, list_elem_of_further.
Qed.

Lemma fold_insert_lookup (g : list N -> spec_float) l : forall (m : gmap (list N) spec_float) i,
  fold_left (fun m f => <[f := g f]> m) l m !! i = if bool_decide (i ∈ l) then Some (g i) else m !! i.
Proof.
  induction l as [|f l IH]; intros m i; [done|]. cbn [fold_left]. rewrite IH.
  destruct (decide (i ∈ l)) as [Hi|Hi].
  - rewrite !bool_decide_eq_true_2; [done|by apply list_elem_of_further|done].
  - rewrite bool_decide_eq_false_2 by done. destruct (decide (i = f)) as [->|Hf].
    + by rewrite bool_decide_eq_true_2, lookup_insert_eq by apply list_elem_of_here.
    + rewrite bool_decide_eq_false_2 by (by rewrite elem_of_cons; intros [?|?]). by rewrite lookup_insert_ne.
Qed.

Lemma set_costs_canonical costs : set_costs (canonical_costs costs) = canonical_costs costs.
Proof.
  apply map_eq. intros i. unfold set_costs, canonical_costs.
  rewrite (fold_insert_lookup (fun f => or_zero (number_of (fold_left _ _ _ !! f)))), !fold_insert_lookup.
  case_bool_decide; [|done]. simpl. by rewrite or_zero_idem.
Qed.

(** The step of [parsed_extra] for one variable, its price field being known. *)
Lemma parsed_extra_step l c k f v :
  (f, v) ∈ BILLING_CACHE_VAR_MAP ->
  exists b i fld, list_find (fun b => key b = v) BILLING_VARS = Some (i, b) /\ field b = Some fld /\ fld <> [] /\
    parsed_price (mkTier l c (tier_prices k)) fld = Some (or_zero (default num_zero (k !! v))).
Proof.
  intros H. let m := eval vm_compute in BILLING_CACHE_VAR_MAP in change BILLING_CACHE_VAR_MAP with m in H.
  repeat (apply elem_of_cons in H as [[= -> ->]|H];
    [do 3 eexists; split; [vm_compute; reflexivity|]; split; [reflexivity|]; split; [discriminate|reflexivity]|]).
  by apply elem_of_nil in H.
Qed.

Lemma fold_left_ext_in {A B} (f g : A -> B -> A) l a :
  (forall a x, x ∈ l -> f a x = g a x) -> fold_left f l a = fold_left g l a.
Proof.
  revert a. induction l as [|x l IH]; intros a H; [done|]. cbn [fold_left].
  rewrite H by apply list_elem_of_here. apply IH. intros b y Hy. by apply H, list_elem_of_further.
Qed.

Lemma fold_left_fmap {A B C} (f : A -> C -> A) (g : B -> C) l a :
  fold_left f (g <$> l) a = fold_left (fun a x => f a (g x)) l a.
Proof. revert a. induction l as [|x l IH]; intros a; [done|]. rewrite fmap_cons. apply IH. Qed.

Lemma number_of_Some x : number_of (Some x) = x.
Proof. done. Qed.

Lemma parsed_extra_canonical t l c :
  parsed_extra (mkTier l c (tier_prices (coefficients (terms t)))) = canonical_costs (extra_costs t).
Proof.
  unfold canonical_costs. rewrite <- (proj1 cache_vars_sorted), fold_left_fmap. unfold parsed_extra.
  apply fold_left_ext_in. intros m [f v] Hfv. cbn [fst snd].
  destruct (parsed_extra_step l c (coefficients (terms t)) f v Hfv) as (b & i & fld & -> & -> & Hne & Hp).
  destruct fld as [|x fld]; [done|]. rewrite Hp, number_of_Some.
  by rewrite or_zero_idem, (extra_coefficient t f v Hfv).
Qed.

Lemma parsed_base l c t :
  parsed_price (mkTier l c (tier_prices (coefficients (terms t)))) (js "inputPrice") = Some (or_zero (number_of (input_unit_cost t))) /\
  parsed_price (mkTier l c (tier_prices (coefficients (terms t)))) (js "outputPrice") = Some (or_zero (number_of (output_unit_cost t))).
Proof.
  assert (forall k, parsed_price (mkTier l c (tier_prices k)) (js "inputPrice") = Some (or_zero (default num_zero (k !! js "p")))) as H1
    by reflexivity.
  assert (forall k, parsed_price (mkTier l c (tier_prices k)) (js "outputPrice") = Some (or_zero (default num_zero (k !! js "c")))) as H2
    by reflexivity.
  rewrite H1, H2.
  rewrite (base_coefficient t (js "p") (or_zero (number_of (input_unit_cost t)))) by apply list_elem_of_here.
  rewrite (base_coefficient t (js "c") (or_zero (number_of (output_unit_cost t))))
    by apply list_elem_of_further, list_elem_of_here.
  cbn [default from_option]. unfold id. by rewrite !or_zero_idem.
Qed.

(** What the reader makes of a parsed tier. *)
Definition reread (p : ParsedTier) : VisualTier :=
  normalizeVisualTier (as_partial (normalizeVisualTier (tier_of_parsed p))).

Definition numeric (c : TierConditionInput) : Prop := exists n, value c = ANumber n.

Lemma condition_reread c : cond_ok c = true -> numeric c -> condition_input (parsed_cond c) = c.
Proof.
  unfold cond_ok. intros H [n Hn]. breflect. destruct (allowed_cond_op _ H1) as (k & Hk & Hop).
  unfold condition_input, parsed_cond. cbn. rewrite Hk. cbn. rewrite Hop. destruct c as [v o x]. simpl in *. by subst.
Qed.

Lemma reread_parsed w conds t :
  w_terms w = terms t -> forallb cond_ok conds = true -> Forall numeric conds ->
  reread (parsed w conds) = canonical (w_label w) conds t.
Proof.
  intros Ht Hc Hn. unfold reread, normalizeVisualTier, canonical, tier_of_parsed, parsed. rewrite Ht.
  destruct (parsed_base (w_label w) (map parsed_cond conds) t) as [-> ->].
  cbn [p_label p_conditions p_input p_output p_cache_mode p_extra as_partial tier_label tier_conditions
       input_unit_cost output_unit_cost cache_mode extra_costs spread default from_option label conditions number_of].
  unfold id. rewrite parsed_extra_canonical, !set_costs_canonical, !or_zero_idem.
  assert (map condition_input (map parsed_cond conds) = conds) as ->.
  { rewrite map_map. rewrite <- (map_id conds) at 2. apply map_ext_in. intros c Hin.
    rewrite forallb_forall in Hc. apply condition_reread; [by apply Hc|].
    rewrite Forall_forall in Hn. apply Hn. by apply list_elem_of_In. }
  f_equal.
Qed.

(** ** Configurations that can be written *)

(** Numbers are printed with at most seventeen digits, labels are strings. *)
Definition writable (t : VisualTier) : bool :=
  unitsb (default [] (tier_label t)) &&
  forallb (fun c => printable (to_number (value c))) (kept_conditions t) &&
  forallb (fun vk => printable vk.2) (terms t).

Lemma kept_spec t c : c ∈ kept_conditions t ->
  var c ∈ allowedVars /\ op c ∈ allowedOps /\ exists n, value c = ANumber n /\ is_finite n = true /\ or_zero n = n.
Proof.
  unfold kept_conditions. intros (x & _ & Hx)%list_elem_of_omap. unfold canonical_condition in Hx.
  destruct (_ && _) eqn:E in Hx; [|done]. injection Hx as <-. breflect. split_and!; [done..|].
  eexists. split; [done|]. split; [|apply or_zero_idem]. by destruct (to_number (value x)) as [[]| | |].
Qed.

Lemma kept_ok t : writable t = true -> forallb cond_ok (kept_conditions t) = true /\ Forall numeric (kept_conditions t).
Proof.
  unfold writable. intros H. breflect. split.
  - apply forallb_forall. intros c Hc. rewrite forallb_forall in H1. specialize (H1 c Hc).
    apply list_elem_of_In, kept_spec in Hc as (Hv & Ho & _). unfold cond_ok. by rewrite !bool_decide_eq_true_2, H1.
  - apply Forall_forall. intros c Hc. apply kept_spec in Hc as (_ & _ & n & Hn & _). by exists n.
Qed.

Lemma terms_ok t : writable t = true -> forallb term_ok (terms t) = true.
Proof.
  unfold writable. intros H. breflect. apply forallb_forall. intros vk Hvk. rewrite forallb_forall in H0.
  unfold term_ok. rewrite H0 by done. rewrite bool_decide_eq_true_2; [done|]. rewrite <- (proj2 (proj2 cache_vars_sorted)).
  eapply elem_of_sublist; [apply list_elem_of_In, in_map, Hvk|]. unfold terms. cbn [map fst]. do 2 apply sublist_skip. apply extra_names.
Qed.

Lemma label_ok t fallback :
  writable t = true -> unitsb fallback = true -> fallback <> [] ->
  unitsb (label_or t fallback) = true /\ label_or t fallback <> [].
Proof.
  unfold writable, label_or. intros H Hf Hne. breflect. destruct (tier_label t) as [[|c r]|]; [done| |done]. by split.
Qed.

Lemma dec_units n : unitsb (dec_string n) = true.
Proof.
  unfold unitsb. apply forallb_forall. intros c Hc. pose proof (dec_string_digits n) as H.
  rewrite Forall_forall in H. apply list_elem_of_In, H, is_digit_spec in Hc. apply N.ltb_lt. lia.
Qed.

Lemma w_ok_intro cs l t :
  forallb cond_ok cs = true -> unitsb l = true -> l <> [] -> writable t = true -> w_ok (mkW cs l (terms t)) = true.
Proof.
  intros Hc Hl Hne Ht. unfold w_ok. cbn [w_conds w_label w_terms].
  rewrite Hc, Hl, terms_ok, bool_decide_eq_true_2 by done. by destruct l.
Qed.

Lemma written_ok n i t : writable t = true -> w_ok (written n i t) = true.
Proof.
  intros Ht. destruct (kept_ok t Ht) as [Hk _]. unfold written.
  destruct (label_ok t (js "tier_" ++ dec_string (N.of_nat (S i)))) as [H1 H2]; [done| |done|].
  { unfold unitsb. rewrite forallb_app. by rewrite (dec_units (N.of_nat (S i)) : forallb _ _ = true). }
  apply w_ok_intro; try done. by destruct (i <? n - 1)%nat.
Qed.

Lemma written_alone_ok t : writable t = true -> w_ok (written_alone t) = true.
Proof.
  intros Ht. destruct (kept_ok t Ht) as [Hk _]. destruct (label_ok t (js "default")) as [H1 H2]; [done..|].
  by apply w_ok_intro.
Qed.

(** *** Writing the canonical form writes the same text *)

Lemma kept_canonical l t cs t' :
  cs = kept_conditions t' -> kept_conditions (canonical l cs t) = cs.
Proof.
  intros ->. unfold kept_conditions at 1, canonical. cbn [tier_conditions default from_option]. unfold id.
  assert (forall c, c ∈ kept_conditions t' -> canonical_condition c = Some c) as H.
  { intros c (Hv & Ho & n & Hn & Hf & Hz)%kept_spec. destruct c as [v o x]. simpl in *. subst x.
    unfold canonical_condition. cbn. by rewrite !bool_decide_eq_true_2, Hf, Hz. }
  induction (kept_conditions t') as [|c cs IH]; [done|]. cbn [omap list_omap].
  rewrite H by apply list_elem_of_here. f_equal. apply IH. intros x Hx. by apply H, list_elem_of_further.
Qed.

Lemma terms_canonical l cs t : terms (canonical l cs t) = terms t.
Proof.
  unfold terms, canonical. cbn [input_unit_cost output_unit_cost extra_costs]. rewrite !number_of_Some, !or_zero_idem.
  do 2 f_equal. apply list_omap_ext, Forall_Forall2_diag, Forall_forall. intros [f v] Hfv. unfold extra_term. cbn [fst snd].
  unfold canonical_costs. rewrite fold_insert_lookup, bool_decide_eq_true_2.
  - rewrite number_of_Some. by rewrite or_zero_idem.
  - rewrite <- (proj1 cache_vars_sorted). apply list_elem_of_fmap. by exists (f, v).
Qed.

Definition canonical_at (n i : nat) (t : VisualTier) : VisualTier :=
  canonical (w_label (written n i t)) (w_conds (written n i t)) t.

(** The configuration the reader rebuilds. *)
Definition canonical_config (tiers : VisualConfig) : VisualConfig :=
  match tiers with
  | [t] => [canonical (label_or t (js "default")) (kept_conditions t) t]
  | _ => imap (canonical_at (length tiers)) tiers
  end.

Lemma label_canonical l cs t fallback : l <> [] -> label_or (canonical l cs t) fallback = l.
Proof. unfold label_or, canonical. cbn. by destruct l. Qed.

Lemma written_canonical n i t : writable t = true -> written n i (canonical_at n i t) = written n i t.
Proof.
  intros Ht. pose proof (w_ok_spec _ (written_ok n i t Ht)) as (_ & _ & Hl & _). unfold canonical_at.
  unfold written at 1. rewrite terms_canonical, label_canonical by done. unfold written in *. cbn [w_conds w_label] in *. f_equal.
  destruct (i <? n - 1)%nat; [|done]. by apply (kept_canonical _ _ _ t).
Qed.

Lemma generate_canonical tiers :
  forallb writable tiers = true ->
  generateExprFromVisualConfig (Some (canonical_config tiers)) = generateExprFromVisualConfig (Some tiers).
Proof.
  intros Hw. destruct tiers as [|t1 [|t2 tiers]]; [done| |].
  - simpl in Hw. apply andb_true_iff in Hw as [Ht _]. cbn [canonical_config]. rewrite !generate_alone.
    pose proof (w_ok_spec _ (written_alone_ok t1 Ht)) as (_ & _ & Hl & _). cbn [written_alone w_label] in Hl.
    unfold written_alone. by rewrite (kept_canonical _ _ _ t1), terms_canonical, label_canonical.
  - set (l := t1 :: t2 :: tiers) in *. assert (2 <= length l)%nat as Hl by (simpl; lia).
    change (canonical_config l) with (imap (canonical_at (length l)) l).
    rewrite !generate_several by (rewrite ?length_imap; done). rewrite length_imap. f_equal. f_equal.
    clearbody l. generalize (length l). intros n. apply list_eq. intros i.
    rewrite !list_lookup_imap. destruct (l !! i) as [t|] eqn:E; [|done]. simpl. f_equal. apply written_canonical.
    rewrite forallb_forall in Hw. apply Hw, list_elem_of_In. by eapply list_elem_of_lookup_2.
Qed.

(** *** The ends of a written text *)

Definition opens (s : list N) : Prop := exists c r, s = c :: r /\ c ∈ js "pclt".
Definition closed (s : list N) : Prop := exists q c, s = q ++ [c] /\ is_space c = false.

Lemma opens_app a b : opens a -> opens (a ++ b).
Proof. intros (c & r & -> & Hc). by exists c, (r ++ b). Qed.
Lemma closed_app a b : closed b -> closed (a ++ b).
Proof. intros (q & c & -> & Hc). exists (a ++ q), c. by rewrite <- app_assoc. Qed.

Lemma text_trimmed s : opens s -> closed s -> trimmed s /\ head s <> Some (ch "v").
Proof.
  intros (c & r & -> & Hc) (q & d & Hq & Hd). apply list_elem_of_In in Hc. vm_compute in Hc. split; [split|].
  - by repeat (destruct Hc as [<-|Hc]; [done|]).
  - by rewrite Hq, reverse_app.
  - by repeat (destruct Hc as [<-|Hc]; [done|]).
Qed.

Lemma w_opens w : w_ok w = true -> opens (w_text w).
Proof.
  intros (Hc & _)%w_ok_spec. unfold w_text. destruct (w_conds w) as [|c cs] eqn:E.
  { apply opens_app. exists (ch "t"), (js "ier("). split; [done|]. apply list_elem_of_In. vm_compute. auto. }
  simpl in Hc. apply andb_true_iff in Hc as [Hc _]. unfold cond_ok in Hc. breflect. apply opens_app. unfold conds_text. rewrite E.
  assert (opens (cond_text c)) as Ho.
  { apply opens_app. unfold allowedVars in H. apply list_elem_of_fmap in H as (s & -> & Hs).
    repeat (apply elem_of_cons in Hs as [->|Hs]; [do 2 eexists; split; [reflexivity|]; apply list_elem_of_In; vm_compute; auto|]).
    by apply elem_of_nil in Hs. }
  unfold chain_text. destruct cs; [done|]. rewrite map_cons, join_cons by done. by apply opens_app.
Qed.

Lemma body_closed w : closed (body_text w).
Proof. unfold body_text. do 4 apply closed_app. exists [], (ch ")"). done. Qed.

Lemma w_closed w : closed (w_text w).
Proof. unfold w_text. destruct (w_conds w); [apply body_closed|]. do 2 apply closed_app. apply body_closed. Qed.

Lemma chain_ends o ps p :
  (match ps with q :: _ => opens q | [] => opens p end) -> closed p ->
  opens (chain_text o (ps ++ [p])) /\ closed (chain_text o (ps ++ [p])).
Proof.
  intros Ho Hc. destruct ps as [|q ps]; [done|]. split.
  - unfold chain_text. cbn [app]. rewrite join_cons by (by destruct ps). by apply opens_app.
  - clear Ho. revert q. induction ps as [|r ps IH]; intros q; unfold chain_text; cbn [app]; rewrite join_cons by (by destruct ps || done).
    + do 2 apply closed_app. done.
    + do 2 apply closed_app. apply (IH r).
Qed.

(** ** Reading the text back *)

(** The tokens the text of a configuration is cut into. *)
Definition config_tokens (tiers : VisualConfig) : list ExprToken :=
  match tiers with
  | [t] =>
      match kept_conditions t with
      | [] => body_tokens (written_alone t)
      | _ => chain_tokens ":" [w_tokens (written_alone t); terms_tokens no_terms]
      end
  | _ => chain_tokens ":" (map w_tokens (imap (written (length tiers)) tiers))
  end.

(** Every tier but the last has a condition that is written. *)
Definition conditioned (t : VisualTier) : bool := match kept_conditions t with [] => false | _ => true end.
Definition readable (tiers : VisualConfig) : bool := forallb conditioned (removelast tiers).

Lemma reader_step text ps (cfg : VisualConfig) :
  trimmed text -> head text <> Some (ch "v") -> parseTiersFromExpr text = ps -> map reread ps = cfg ->
  generateExprFromVisualConfig (Some cfg) = text -> text <> [] ->
  tryParseVisualConfig (Some text) = match ps with [] => None | _ => Some cfg end.
Proof.
  intros Ht Hv Hp Hm Hg Hne. unfold tryParseVisualConfig. rewrite trim_trimmed, strip_unversioned, Hp by done.
  destruct ps as [|q ps]; [by destruct text|].
  assert (normalizeVisualConfig (Some (map (fun t => normalizeVisualTier (tier_of_parsed t)) (q :: ps))) = cfg) as E.
  { rewrite <- Hm. cbn [normalizeVisualConfig map]. f_equal. by rewrite map_map. }
  rewrite E. unfold VisualConfig in *. rewrite Hg, bool_decide_eq_true_2 by done. by destruct text.
Qed.

Lemma unreadable_step text e :
  trimmed text -> head text <> Some (ch "v") -> parseRestrictedExpr text = Throw e ->
  tryParseVisualConfig (Some text) = None.
Proof.
  intros Ht Hv Hp. unfold tryParseVisualConfig. rewrite trim_trimmed, strip_unversioned by done.
  unfold parseTiersFromExpr. rewrite Hp. by destruct text.
Qed.

Lemma parsed_tiers text n : text <> [] -> parseRestrictedExpr text = Ok n -> parseTiersFromExpr text = collectParsedTiers n.
Proof. intros Hne H. unfold parseTiersFromExpr. rewrite H. by destruct text. Qed.

Lemma opens_nonempty s : opens s -> s <> [].
Proof. by intros (c & r & -> & _). Qed.

(** A chain of conditional tiers before a last phrase. *)
Lemma chain_parsed ws text toks node :
  forallb w_ok ws = true -> Forall (fun w => w_conds w <> []) ws -> (S (length ws) <= MAX_EXPR_DEPTH)%nat ->
  lexes text toks -> g_cond (length ws) toks node ->
  let whole := chain_text ":" (map w_text ws ++ [text]) in
  trimmed whole -> head whole <> Some (ch "v") ->
  (length whole <= MAX_EXPR_LENGTH)%nat ->
  (length (chain_tokens ":" (map w_tokens ws ++ [toks])) <= MAX_EXPR_TOKENS)%nat ->
  parseRestrictedExpr whole = Ok (tiers_node ws node).
Proof.
  intros Hok Hc Hd Hl Hg whole Ht Hv Hlen Htok.
  eapply parse_text; [by apply tiers_lexes|by apply tiers_phrase|done..].
Qed.

(** Tokens that go on after a complete expression are not an expression. *)
Lemma parse_stuck text t1 t t2 n :
  lexes text (t1 ++ t :: t2) -> g_cond 0 t1 n -> closes t -> tok_kind t = KOperator ->
  trimmed text -> head text <> Some (ch "v") ->
  (length text <= MAX_EXPR_LENGTH)%nat -> (length (t1 ++ t :: t2) <= MAX_EXPR_TOKENS)%nat ->
  exists e, parseRestrictedExpr text = Throw e.
Proof.
  intros Hl Hg Hcl Hk Ht Hv Hlen Htok. unfold parseRestrictedExpr. rewrite (proj2 (Nat.ltb_ge _ _)) by done.
  rewrite trim_trimmed by done. pose proof (strip_unversioned text Hv) as Hs.
  destruct (stripExprVersion text) as [v body]. simpl in Hs. subst body.
  rewrite (tokenize_text _ _ Hl) by done. cbn [res_bind]. unfold parse. rewrite <- app_assoc. cbn [app].
  destruct grammar_complete as (Hc & _). destruct Hl as [Hw _]. apply Forall_app in Hw as [Hw _].
  rewrite (Hc _ _ _ Hg Hw); [|unfold DEPTH_FUEL, MAX_EXPR_DEPTH; lia|done].
  cbn [res_bind peek]. rewrite Hk. by eexists.
Qed.

(** *** One tier *)

Lemma no_terms_phrase : no_terms <> [] /\ forallb term_ok no_terms = true /\ collectParsedTiers (terms_node no_terms) = [].
Proof. split; [done|]. split; vm_compute; reflexivity. Qed.

Lemma no_price_closed : closed (terms_text no_terms).
Proof. exists (js "p * 0 + c * "), (ch "0"). split; reflexivity. Qed.

Section OneTier.
Variable t : VisualTier.
Hypothesis t_ok : writable t = true.
Let w := written_alone t.
Let text := generateExprFromVisualConfig (Some [t]).

Lemma alone_ends : opens text /\ closed text.
Proof.
  pose proof (written_alone_ok t t_ok) as Hw. pose proof (w_opens _ Hw) as Ho. unfold text. rewrite generate_alone.
  destruct (kept_conditions t) as [|c cs] eqn:E.
  - split; [|apply body_closed]. unfold w_text in Ho. cbn [written_alone w_conds] in Ho. by rewrite E in Ho.
  - apply (chain_ends ":" [w_text (written_alone t)]); [done|apply no_price_closed].
Qed.

Lemma alone_parsed :
  (length text <= MAX_EXPR_LENGTH)%nat -> (length (config_tokens [t]) <= MAX_EXPR_TOKENS)%nat ->
  parseTiersFromExpr text = [parsed w (w_conds w)].
Proof.
  intros Hlen Htok. destruct alone_ends as [Ho Hc]. destruct (text_trimmed _ Ho Hc) as [Ht Hv].
  pose proof (written_alone_ok t t_ok) as Hw. assert (w_distinct w) as Hd by apply terms_distinct.
  destruct no_terms_phrase as (Hne & Hnt & Hnc). revert Hlen Htok Ht Hv. pose proof (opens_nonempty _ Ho) as Hnil. revert Hnil.
  unfold text. rewrite generate_alone. unfold config_tokens. unfold w. cbn [written_alone w_conds].
  destruct (kept_conditions t) as [|c cs] eqn:E; intros Hnil Hlen Htok Ht Hv.
  - erewrite parsed_tiers; [by apply final_read|done|].
    eapply parse_text; [by apply body_lexes|apply body_phrase; [unfold MAX_EXPR_DEPTH; lia|done]|done..].
  - assert (Forall (fun w => w_conds w <> []) [written_alone t]) as Hcs.
    { repeat constructor. cbn [written_alone w_conds]. by rewrite E. }
    assert (forallb w_ok [written_alone t] = true) as Hok by (simpl; by rewrite Hw).
    erewrite parsed_tiers; [|done|].
    2:{ apply (chain_parsed [written_alone t] (terms_text no_terms) (terms_tokens no_terms) (terms_node no_terms)); try done.
        - unfold MAX_EXPR_DEPTH. simpl. lia.
        - by apply terms_lexes.
        - apply g_plain; [unfold MAX_EXPR_DEPTH; simpl; lia|]. apply (lift_phrase _ 2); [lia|]. by apply terms_phrase. }
    rewrite tiers_read by (done || by apply Forall_singleton). rewrite Hnc. cbn [map app written_alone w_conds]. by rewrite E.
Qed.

Lemma alone_roundtrip :
  (length text <= MAX_EXPR_LENGTH)%nat -> (length (config_tokens [t]) <= MAX_EXPR_TOKENS)%nat ->
  tryParseVisualConfig (Some text) = Some (canonical_config [t]).
Proof.
  intros Hlen Htok. destruct alone_ends as [Ho Hc]. destruct (text_trimmed _ Ho Hc) as [Ht Hv].
  destruct (kept_ok t t_ok) as [Hk Hn].
  rewrite (reader_step text [parsed w (w_conds w)] (canonical_config [t])); try done.
  - by apply alone_parsed.
  - cbn [map]. by rewrite (reread_parsed w (w_conds w) t).
  - apply generate_canonical. simpl. by rewrite t_ok.
  - by apply opens_nonempty.
Qed.
End OneTier.

(** *** Several tiers *)

Lemma first_failure {A} (f : A -> bool) l :
  forallb f l = false -> exists pre x post, l = pre ++ x :: post /\ forallb f pre = true /\ f x = false.
Proof.
  induction l as [|x l IH]; [done|]. simpl. destruct (f x) eqn:E; [|intros _; by exists [], x, l].
  intros (pre & y & post & -> & Hp & Hy)%IH. exists (x :: pre), y, post. split_and!; [done| |done]. simpl. by rewrite E.
Qed.

Section SeveralTiers.
Variable tiers : list VisualTier.
Hypothesis several : (2 <= length tiers)%nat.
Hypothesis tiers_ok : forallb writable tiers = true.
Hypothesis bounded : (length tiers <= MAX_EXPR_DEPTH)%nat.
Let n := length tiers.
Let text := generateExprFromVisualConfig (Some tiers).
Hypothesis fits : (length text <= MAX_EXPR_LENGTH)%nat.
Hypothesis few : (length (config_tokens tiers) <= MAX_EXPR_TOKENS)%nat.

Lemma tier_ok i t : tiers !! i = Some t -> writable t = true.
Proof.
  intros Ht. rewrite forallb_forall in tiers_ok. apply tiers_ok, list_elem_of_In. by eapply list_elem_of_lookup_2.
Qed.

Lemma all_written w : w ∈ imap (written n) tiers -> w_ok w = true /\ w_distinct w.
Proof.
  intros [i Hi]%list_elem_of_lookup. rewrite list_lookup_imap in Hi.
  destruct (tiers !! i) as [t|] eqn:E; [|done]. injection Hi as <-. split; [|apply terms_distinct].
  by apply written_ok, (tier_ok i).
Qed.

(** The written tiers: all but the last, and the last, which has no condition. *)
Lemma written_split :
  exists tl, last tiers = Some tl /\
    imap (written n) tiers = imap (written n) (removelast tiers) ++ [written n (n - 1) tl] /\
    w_conds (written n (n - 1) tl) = [] /\
    forall i t, removelast tiers !! i = Some t -> w_conds (written n i t) = kept_conditions t.
Proof.
  destruct (exists_last (l := tiers)) as (init & tl & E); [by intros E; rewrite E in several; simpl in several; lia|].
  assert (n = S (length init)) as Hn by (unfold n; rewrite E, length_app; simpl; lia).
  exists tl. rewrite E, removelast_last, last_snoc, imap_app. split_and!; [done|..].
  - cbn [imap]. do 3 f_equal. lia.
  - unfold written. cbn [w_conds]. by rewrite Nat.ltb_irrefl.
  - intros i t Hi. apply lookup_lt_Some in Hi. unfold written. cbn [w_conds].
    by rewrite (proj2 (Nat.ltb_lt _ _)) by lia.
Qed.

Lemma several_ends : opens text /\ closed text.
Proof.
  unfold text. rewrite generate_several by done. destruct written_split as (tl & _ & Hs & _ & _).
  pose proof all_written as Hok. fold n. rewrite Hs in *. rewrite map_app. apply chain_ends; [|apply w_closed].
  destruct (imap (written n) (removelast tiers)) as [|w ws]; apply w_opens, Hok; [apply list_elem_of_here|].
  cbn [app]. apply list_elem_of_here.
Qed.

Lemma config_tokens_several : config_tokens tiers = chain_tokens ":" (map w_tokens (imap (written n) tiers)).
Proof. unfold n. destruct tiers as [|t1 [|t2 l]]; [done|simpl in several; lia|done]. Qed.

Lemma several_lexes : lexes text (config_tokens tiers).
Proof.
  unfold text. rewrite generate_several by done.
  rewrite config_tokens_several. apply lexes_chain; [unfold written_operators; set_solver| |].
  - destruct tiers; [simpl in several; lia|done].
  - apply (Forall2_map _ _ _ w_ok); [apply w_lexes|]. apply forallb_forall. intros w Hw%list_elem_of_In. by apply all_written.
Qed.

Lemma several_reread :
  map reread (map (fun w => parsed w (w_conds w)) (imap (written n) tiers)) = canonical_config tiers.
Proof.
  assert (canonical_config tiers = imap (canonical_at n) tiers) as ->.
  { destruct tiers as [|t1 [|t2 l]]; [done|simpl in several; lia|done]. }
  rewrite map_map. change (map ?f ?l) with (f <$> l). rewrite fmap_imap. apply imap_ext. intros i t Ht. cbn.
  pose proof (tier_ok i t Ht) as Hw. destruct (kept_ok t Hw) as [Hk Hnum].
  unfold canonical_at. apply (reread_parsed (written n i t) (w_conds (written n i t)) t); [done|..].
  - by apply w_ok_spec, written_ok.
  - unfold written. cbn [w_conds]. by destruct (i <? n - 1)%nat.
Qed.

(** The chain of conditional tiers of a readable configuration. *)
Lemma readable_chain :
  readable tiers = true ->
  exists ws wl, imap (written n) tiers = ws ++ [wl] /\ S (length ws) = n /\ w_conds wl = [] /\
    forallb w_ok ws = true /\ Forall w_distinct ws /\ Forall (fun w => w_conds w <> []) ws /\ w_ok wl = true /\ w_distinct wl.
Proof.
  intros Hr. destruct written_split as (tl & Htl & Hs & Hl & Hk). pose proof all_written as Hok. rewrite Hs in Hok.
  exists (imap (written n) (removelast tiers)), (written n (n - 1) tl). split_and!; [done| |done|..].
  - apply (f_equal length) in Hs. rewrite length_app, !length_imap in Hs. rewrite length_imap. simpl in Hs. unfold n. lia.
  - apply forallb_forall. intros w Hw%list_elem_of_In. apply Hok, elem_of_app. by left.
  - apply Forall_forall. intros w Hw. apply Hok, elem_of_app. by left.
  - apply Forall_forall. intros w [i Hi]%list_elem_of_lookup. rewrite list_lookup_imap in Hi.
    destruct (removelast tiers !! i) as [t|] eqn:E; [|done]. injection Hi as <-. rewrite Hk by done.
    unfold readable in Hr. rewrite forallb_forall in Hr. specialize (Hr t). unfold conditioned in Hr.
    destruct (kept_conditions t); [|done]. discriminate Hr. apply list_elem_of_In. by eapply list_elem_of_lookup_2.
  - apply Hok, elem_of_app. right. apply list_elem_of_here.
  - apply Hok, elem_of_app. right. apply list_elem_of_here.
Qed.

Lemma several_read : readable tiers = true -> tryParseVisualConfig (Some text) = Some (canonical_config tiers).
Proof.
  intros Hr. destruct several_ends as [Ho Hc]. destruct (text_trimmed _ Ho Hc) as [Ht Hv].
  destruct (readable_chain Hr) as (ws & wl & Hs & Hn & Hl & Hws & Hd & Hcs & Hwl & Hdl). pose proof several_reread as Hm.
  rewrite Hs in Hm.
  assert (w_text wl = body_text wl /\ w_tokens wl = body_tokens wl) as [E1 E2] by (unfold w_text, w_tokens; by rewrite Hl).
  assert (text = chain_text ":" (map w_text ws ++ [body_text wl])) as Htx.
  { unfold text. rewrite generate_several by done. fold n. rewrite Hs, map_app. cbn [map]. by rewrite E1. }
  assert (config_tokens tiers = chain_tokens ":" (map w_tokens ws ++ [body_tokens wl])) as Hto.
  { rewrite config_tokens_several, Hs, map_app. cbn [map]. by rewrite E2. }
  rewrite (reader_step text (map (fun w => parsed w (w_conds w)) (ws ++ [wl])) (canonical_config tiers)); try done.
  - rewrite map_app. by destruct ws.
  - erewrite parsed_tiers; [|by apply opens_nonempty|].
    2:{ rewrite Htx. rewrite Htx in Ht, Hv, fits. rewrite Hto in few.
        apply (chain_parsed ws (body_text wl) (body_tokens wl) (body_node wl)); try done; [lia|by apply body_lexes|].
        apply body_phrase; [lia|done]. }
    rewrite tiers_read, final_read, map_app by done. cbn [map]. by rewrite Hl.
  - by apply generate_canonical.
  - by apply opens_nonempty.
Qed.

(** The first tier that lacks a condition, and what is written before it. *)
Lemma unreadable_chain :
  readable tiers = false ->
  exists ws w rest, imap (written n) tiers = ws ++ w :: rest /\ rest <> [] /\ (S (length ws) <= n)%nat /\
    forallb w_ok ws = true /\ Forall (fun w => w_conds w <> []) ws /\ w_ok w = true /\ w_conds w = [].
Proof.
  intros Hr. destruct written_split as (tl & Htl & Hs & Hl & Hk). pose proof all_written as Hok.
  assert (length (removelast tiers) <= n)%nat as Hlen.
  { apply (f_equal length) in Hs. rewrite length_app, !length_imap in Hs. unfold n in *. lia. }
  destruct (first_failure conditioned (removelast tiers) Hr) as (pre & t & post & E & Hpre & Ht).
  rewrite E in Hs, Hk, Hlen. rewrite imap_app in Hs. cbn [imap] in Hs. rewrite <- app_assoc in Hs. cbn [app] in Hs.
  rewrite length_app in Hlen. simpl in Hlen. rewrite Hs in Hok.
  eexists _, _, _. split; [exact Hs|]. split_and!.
  - by intros [_ [=]]%app_eq_nil.
  - rewrite length_imap. lia.
  - apply forallb_forall. intros w Hw%list_elem_of_In. apply Hok, elem_of_app. by left.
  - apply Forall_forall. intros w [i Hi]%list_elem_of_lookup. rewrite list_lookup_imap in Hi.
    destruct (pre !! i) as [x|] eqn:Ei; [|done]. injection Hi as <-.
    rewrite Hk by by apply lookup_app_l_Some. rewrite forallb_forall in Hpre. specialize (Hpre x). unfold conditioned in Hpre.
    destruct (kept_conditions x); [|done]. discriminate Hpre. apply list_elem_of_In. by eapply list_elem_of_lookup_2.
  - apply Hok, elem_of_app. right. apply list_elem_of_here.
  - rewrite Nat.add_0_r, Hk; [|by rewrite lookup_app_r, Nat.sub_diag]. unfold conditioned in Ht. by destruct (kept_conditions t).
Qed.

Lemma several_unread : readable tiers = false -> tryParseVisualConfig (Some text) = None.
Proof.
  intros Hr. destruct several_ends as [Ho Hc]. destruct (text_trimmed _ Ho Hc) as [Ht Hv].
  destruct (unreadable_chain Hr) as (ws & w & rest & Hs & Hne & Hn & Hws & Hcs & Hw & Hwc).
  assert (config_tokens tiers = chain_tokens ":" (map w_tokens ws ++ [body_tokens w]) ++ op_token ":" :: chain_tokens ":" (map w_tokens rest)) as E.
  { rewrite config_tokens_several, Hs, map_app. cbn [map]. unfold w_tokens at 2. rewrite Hwc.
    rewrite <- chain_tokens_app; [by rewrite <- app_assoc|by destruct ws|by destruct rest]. }
  pose proof several_lexes as Hl. rewrite E in Hl. rewrite E in few.
  destruct (parse_stuck text _ _ _ (tiers_node ws (body_node w)) Hl) as [e He]; try done.
  - apply tiers_phrase; [done|done|lia|]. apply body_phrase; [lia|done].
  - by right.
  - by apply (unreadable_step text e).
Qed.
End SeveralTiers.

(** One tier and several tiers together. *)
Lemma config_read_back (tiers : list VisualTier) :
  tiers <> [] -> (length tiers <= MAX_EXPR_DEPTH)%nat -> forallb writable tiers = true ->
  (length (generateExprFromVisualConfig (Some tiers)) <= MAX_EXPR_LENGTH)%nat ->
  (length (config_tokens tiers) <= MAX_EXPR_TOKENS)%nat ->
  tryParseVisualConfig (Some (generateExprFromVisualConfig (Some tiers))) =
  if readable tiers then Some (canonical_config tiers) else None.
Proof.
  intros Hne Hd Hw Hl Ht. destruct (decide (2 <= length tiers)%nat) as [H2|H2].
  - destruct (readable tiers) eqn:E; [by apply several_read|by apply several_unread].
  - destruct tiers as [|t [|]]; [done| |simpl in H2; lia]. simpl in Hw. apply andb_true_iff in Hw as [Hw _].
    by apply alone_roundtrip.
Qed.

(** C6: Everything the visual editor writes is read back.  For up to 64 tiers whose
    numbers and labels can be printed and whose text is within the tokenizer's
    limits: if every tier but the last has a condition, the reader returns the
    canonical form of the configuration (labels filled in, invalid conditions and
    those of a last tier dropped, numbers normalized, the cache mode inferred); if
    some earlier tier has none, the text is not an expression and the reader
    returns null. *)
Theorem visual_config_roundtrip (tiers : list VisualTier) :
  tiers <> [] -> (length tiers <= MAX_EXPR_DEPTH)%nat -> forallb writable tiers = true ->
  (length (generateExprFromVisualConfig (Some tiers)) <= MAX_EXPR_LENGTH)%nat ->
  (length (config_tokens tiers) <= MAX_EXPR_TOKENS)%nat ->
  tryParseVisualConfig (Some (generateExprFromVisualConfig (Some tiers))) =
  if readable tiers then Some (canonical_config tiers) else None.
Proof. apply config_read_back. Qed.

Definition sample_conditions : list TierConditionInput :=
  [mkInput (js "len") (js "<") (AString (js " 200000 ")); mkInput (js "c") (js "<=") (ANumber (num_of_Z 4000))].

Definition sample_config : list VisualTier :=
  [mkVisual (Some (js "short")) (Some sample_conditions) (Some (num_of_Z 3)) (Some (num_of_Z 15)) None
     {[js "cache_create_1h_unit_cost" := num_of_Z 6]};
   mkVisual None (Some []) (Some (num_of_Z 6)) None (Some CACHE_MODE_TIMED) ∅].

Lemma visual_config_roundtrip_witness :
  tryParseVisualConfig (Some (generateExprFromVisualConfig (Some sample_config))) = Some (canonical_config sample_config) /\
  tryParseVisualConfig (Some (generateExprFromVisualConfig (Some (rev sample_config)))) = None.
Proof.
  split; (refine (eq_trans (visual_config_roundtrip _ _ _ _ _ _) _);
    [discriminate|apply (bool_decide_unpack _); vm_compute; exact I|vm_compute; reflexivity
    |apply Nat.leb_le; vm_compute; reflexivity|apply Nat.leb_le; vm_compute; reflexivity|vm_compute; reflexivity]).
Defined.
