(* ===== verification/BillingRules.v ===== *)
(** * Billing expressions: request rules (src/apps/web/src/features/pricing/lib/billing-expr.ts)

    The editor keeps request rules as groups of conditions with a multiplier,
    writes them as factors [(cond && cond ? 1.5 : 1)] and reads them back with
    regular expressions.  Each expression is modelled by a matcher on code units;
    every one of them is deterministic (a captured class never contains the unit
    that follows it), so no backtracking is lost.

    The theorems show that what the editor writes is read back for every kind of
    condition whose text has no top-level [" && "], and that the two kinds whose
    text has one are never read back. *)
From S2P Require Import Prelude JsString JsNumber JsJson BillingLexer.
From Stdlib Require Import Lia.

(** ** Data *)

Definition TIME_FUNCS : list (list N) := js <$> ["hour"; "minute"; "weekday"; "month"; "day"]%string.

Definition MATCH_EQ := js "eq".
Definition MATCH_CONTAINS := js "contains".
Definition MATCH_GT := js "gt".
Definition MATCH_GTE := js "gte".
Definition MATCH_LT := js "lt".
Definition MATCH_LTE := js "lte".
Definition MATCH_EXISTS := js "exists".
Definition MATCH_RANGE := js "range".

Inductive PHSource := SrcParam | SrcHeader.

Inductive RequestCondition :=
| ParamHeaderCondition (source : PHSource) (path mode value : list N)
| TimeCondition (timeFunc timezone mode value rangeStart rangeEnd : list N).

Record RequestRuleGroup := mkGroup {
  conditions : list RequestCondition;
  multiplier : list N;
  conditionText : option (list N);
  matched : option bool }.

Record RequestRuleTrace := mkTrace {
  trace_cond : list N;
  trace_multiplier : spec_float;
  trace_matched : bool }.

(** ** Splitting at the top level *)

Definition paren_depth (depth : Z) (c : N) : Z :=
  if (c =? ch "(")%N then (depth + 1)%Z else if (c =? ch ")")%N then (depth - 1)%Z else depth.

(** The loop over the units: [cur] is the part being read, last unit first, and
    [skip] the units of a separator still to be passed over. *)
Fixpoint split_loop (sep : list N) (depth : Z) (skip : nat) (cur s : list N) : list (list N) :=
  match s with
  | [] => [reverse cur]
  | c :: s' =>
      match skip with
      | S k => split_loop sep depth k cur s'
      | O =>
          let depth' := paren_depth depth c in
          if (depth' =? 0)%Z && starts_with sep s
          then reverse cur :: split_loop sep depth' (length sep - 1) [] s'
          else split_loop sep depth' 0 (c :: cur) s'
      end
  end.

Definition split_top_level (sep expr : list N) : list (list N) :=
  filter (fun p => nonempty p = true) (trim <$> split_loop sep 0 0 [] expr).

Definition splitTopLevelMultiply (expr : list N) : list (list N) := split_top_level (js " * ") expr.
Definition splitTopLevelAnd (expr : list N) : list (list N) := split_top_level (js " && ") expr.

(** ** Literals *)

(** [NUMERIC_LITERAL_REGEX]: an optional sign, digits with an optional point (or
    a point and digits), an optional exponent, and nothing else. *)
Definition is_numeric_literal (s : list N) : bool :=
  let r := match s with c :: r => if (c =? 45)%N then r else s | [] => [] end in
  let '(i, r1) := span is_digit r in
  let mantissa :=
    match i, r1 with
    | [], c :: r2 => if (c =? 46)%N
                     then match span is_digit r2 with ([], _) => None | (_, r3) => Some r3 end
                     else None
    | [], [] => None
    | _, c :: r2 => if (c =? 46)%N then Some (span is_digit r2).2 else Some r1
    | _, [] => Some []
    end in
  match mantissa with
  | None => false
  | Some r3 => match scan_exponent r3 with Ok (_, _, []) => true | _ => false end
  end.

(** The class [[\d.eE+-]]. *)
Definition num_class (c : N) : bool :=
  is_digit c || bool_decide (c ∈ js ".eE+-").

Definition parseExprLiteral (raw : list N) : option json :=
  let text := trim raw in
  if bool_decide (text = js "true") || bool_decide (text = js "false") then Some (JStr text)
  else if is_numeric_literal text then Some (JStr text)
  else json_parse text.

(** ** Matchers *)

(** A non-empty run without quotes, between quotes. *)
Definition match_quoted (s : list N) : option (list N * list N) :=
  match s with
  | q :: r =>
      if (q =? 34)%N then
        match span (fun c => negb (c =? 34)%N) r with
        | ((_ :: _) as p, q' :: r') => Some (p, r')
        | _ => None
        end
      else None
  | [] => None
  end.

(** [name("path")] *)
Definition match_call (name : list N) (s : list N) : option (list N * list N) :=
  match strip_prefix (name ++ js "(") s with
  | None => None
  | Some r =>
      match match_quoted r with
      | Some (p, c :: r') => if (c =? ch ")")%N then Some (p, r') else None
      | _ => None
      end
  end.

(** A run of [num_class], then what follows. *)
Definition match_number (s : list N) : option (list N * list N) :=
  match span num_class s with
  | ((_ :: _) as n, r) => Some (n, r)
  | _ => None
  end.

(** [[\d.eE+-]+$] *)
Definition match_number_end (s : list N) : option (list N) :=
  match match_number s with Some (n, []) => Some n | _ => None end.

(** The units [.] does not match. *)
Definition is_line_terminator (c : N) : bool := ((c =? 10) || (c =? 13) || (c =? 8232) || (c =? 8233))%N.

(** A string literal after its opening quote: plain units and escapes. *)
Fixpoint match_literal_body (s : list N) : option (list N * list N) :=
  match s with
  | [] => None
  | c :: r =>
      if (c =? 34)%N then Some ([c], r)
      else if (c =? 92)%N then
        match r with
        | e :: r1 => if is_line_terminator e then None
                     else prod_map (fun b => c :: e :: b) id <$> match_literal_body r1
        | [] => None
        end
      else prod_map (cons c) id <$> match_literal_body r
  end.

Definition match_literal (s : list N) : option (list N * list N) :=
  match s with
  | q :: r => if (q =? 34)%N then prod_map (cons q) id <$> match_literal_body r else None
  | [] => None
  end.

Fixpoint first_some {A B} (f : A -> option B) (l : list A) : option B :=
  match l with
  | [] => None
  | x :: l' => match f x with Some y => Some y | None => first_some f l' end
  end.

(** A time function applied to a quoted time zone. *)
Definition match_time_call (s : list N) : option (list N * list N * list N) :=
  first_some (fun fn => match match_call fn s with Some (tz, r) => Some (fn, tz, r) | None => None end)
    TIME_FUNCS.

(** [fn("tz") >= a || fn("tz") < b], then what follows. *)
Definition match_time_range (s : list N) : option (RequestCondition * list N) :=
  match match_time_call s with
  | None => None
  | Some (fn, tz, r) =>
      match strip_prefix (js " >= ") r ≫= match_number with
      | None => None
      | Some (a, r1) =>
          match strip_prefix (js " || " ++ fn ++ js "(" ++ [34%N] ++ tz ++ [34%N] ++ js ") < ") r1
                  ≫= match_number with
          | None => None
          | Some (b, r2) => Some (TimeCondition fn tz MATCH_RANGE [] a b, r2)
          end
      end
  end.

Definition match_time_compare (s : list N) : option RequestCondition :=
  match match_time_call s with
  | None => None
  | Some (fn, tz, r) =>
      first_some (fun om : list N * list N =>
          match strip_prefix (js " " ++ om.1 ++ js " ") r ≫= match_number_end with
          | Some v => Some (TimeCondition fn tz om.2 v [] [])
          | None => None
          end)
        [(js "==", MATCH_EQ); (js ">=", MATCH_GTE); (js "<", MATCH_LT)]
  end.

Definition tryParseTimeCondition (expr : list N) : option RequestCondition :=
  match match_time_range expr with
  | Some (c, []) => Some c
  | _ =>
      match strip_prefix (js "(") expr ≫= match_time_range with
      | Some (c, r) => if bool_decide (r = js ")") then Some c else match_time_compare expr
      | None => match_time_compare expr
      end
  end.

(** [String(parsedValue)], where the JSON value [null] rejects the condition. *)
Definition literal_text (v : json) : option (list N) :=
  match v with JNull => None | _ => Some (json_to_string v) end.

Definition match_exists (expr : list N) : option RequestCondition :=
  match match_call (js "header") expr with
  | Some (p, r) => if bool_decide (r = js " != " ++ [34%N; 34%N])
                   then Some (ParamHeaderCondition SrcHeader p MATCH_EXISTS []) else None
  | None =>
      match match_call (js "param") expr with
      | Some (p, r) => if bool_decide (r = js " != nil")
                       then Some (ParamHeaderCondition SrcParam p MATCH_EXISTS []) else None
      | None => None
      end
  end.

(** [has(src("path"), "literal")]: the path and the literal's text. *)
Definition match_has (src : list N) (expr : list N) : option (list N * list N) :=
  match strip_prefix (js "has(") expr ≫= match_call src with
  | Some (p, r) =>
      match strip_prefix (js ", ") r ≫= match_literal with
      | Some (lit, r') => if bool_decide (r' = js ")") then Some (p, lit) else None
      | None => None
      end
  | None => None
  end.

(** [param("a") != nil && has(param("b"), "literal")] *)
Definition match_param_has (expr : list N) : option (list N * list N * list N) :=
  match match_call (js "param") expr with
  | Some (p, r) =>
      match strip_prefix (js " != nil && ") r ≫= match_has (js "param") with
      | Some (p', lit) => Some (p, p', lit)
      | None => None
      end
  | None => None
  end.

(** [param("a") != nil && param("b") op number] *)
Definition match_param_compare (expr : list N) : option (list N * list N * list N * list N) :=
  match match_call (js "param") expr with
  | Some (p, r) =>
      match strip_prefix (js " != nil && ") r ≫= match_call (js "param") with
      | Some (p', r1) =>
          first_some (fun om : list N * list N =>
              match strip_prefix (js " " ++ om.1 ++ js " ") r1 ≫= match_number_end with
              | Some v => Some (p, p', om.2, v)
              | None => None
              end)
            [(js ">", MATCH_GT); (js ">=", MATCH_GTE); (js "<", MATCH_LT); (js "<=", MATCH_LTE)]
      | None => None
      end
  | None => None
  end.

(** [(param|header)("path") == (.+)] *)
Definition match_equals (expr : list N) : option (PHSource * list N * list N) :=
  first_some (fun sn : PHSource * list N =>
      match match_call sn.2 expr with
      | Some (p, r) =>
          match strip_prefix (js " == ") r with
          | Some ((_ :: _) as v) => if forallb (fun c => negb (is_line_terminator c)) v
                                    then Some (sn.1, p, v) else None
          | _ => None
          end
      | None => None
      end)
    [(SrcParam, js "param"); (SrcHeader, js "header")].

Definition tryParseRequestCondition (expr : list N) : option RequestCondition :=
  match tryParseTimeCondition expr with
  | Some tc => Some tc
  | None =>
  match match_exists expr with
  | Some c => Some c
  | None =>
  match match_has (js "header") expr with
  | Some (p, lit) => ParamHeaderCondition SrcHeader p MATCH_CONTAINS <$> tryDecodeStringLiteral lit
  | None =>
  match match_param_has expr with
  | Some (p, p', lit) =>
      if bool_decide (p = p')
      then ParamHeaderCondition SrcParam p MATCH_CONTAINS <$> tryDecodeStringLiteral lit
      else match match_equals expr with
           | Some (src, q, v) => ParamHeaderCondition src q MATCH_EQ <$> (parseExprLiteral v ≫= literal_text)
           | None => None
           end
  | None =>
  match match_param_compare expr with
  | Some (p, p', mode, v) =>
      if bool_decide (p = p') then Some (ParamHeaderCondition SrcParam p mode v)
      else match match_equals expr with
           | Some (src, q, w) => ParamHeaderCondition src q MATCH_EQ <$> (parseExprLiteral w ≫= literal_text)
           | None => None
           end
  | None =>
  match match_equals expr with
  | Some (src, q, v) => ParamHeaderCondition src q MATCH_EQ <$> (parseExprLiteral v ≫= literal_text)
  | None => None
  end end end end end end.

(** ** Groups *)

Definition tryParseRequestConditions (conditionStr : list N) : option (list RequestCondition) :=
  match mapM (fun ap => tryParseRequestCondition (trim ap)) (splitTopLevelAnd conditionStr) with
  | Some ((_ :: _) as cs) => Some cs
  | _ => None
  end.

(** [(conditions ? number : 1)]: the condition text is everything before the last
    [" ? "] that a number and [" : 1)"] follow. *)
Definition match_factor (part : list N) : option (list N * list N) :=
  match strip_prefix (js "(") part with
  | None => None
  | Some s =>
      match strip_prefix (reverse (js " : 1)")) (reverse s) with
      | None => None
      | Some r =>
          match span num_class r with
          | ((_ :: _) as n, r') =>
              match strip_prefix (reverse (js " ? ")) r' with
              | Some ((_ :: _) as c) => Some (reverse c, reverse n)
              | _ => None
              end
          | _ => None
          end
      end
  end.

Definition tryParseRuleGroupFactor (part : list N) : option RequestRuleGroup :=
  match match_factor part with
  | None => None
  | Some (c, m) =>
      match tryParseRequestConditions c with
      | Some cs => Some (mkGroup cs m None None)
      | None => None
      end
  end.

Definition requestRuleGroupsFromTrace (requestRules : list RequestRuleTrace) : list RequestRuleGroup :=
  (fun rule =>
     let text := trim (trace_cond rule) in
     mkGroup (default [] (tryParseRequestConditions text)) (num_to_string (trace_multiplier rule))
       (Some text) (Some (trace_matched rule))) <$> requestRules.

Definition tryParseRequestRuleExpr (expr : list N) : option (list RequestRuleGroup) :=
  let trimmed := trim expr in
  if negb (nonempty trimmed) then Some []
  else mapM tryParseRuleGroupFactor (splitTopLevelMultiply trimmed).

(** ** Combining and splitting a base expression and its rules *)

(** The scan of [hasFullOuterParens]: false as soon as the depth is back to zero
    before the last unit. *)
Fixpoint full_parens_loop (depth : Z) (s : list N) : bool :=
  match s with
  | [] => (depth =? 0)%Z
  | c :: s' =>
      let depth' := paren_depth depth c in
      if (depth' =? 0)%Z && nonempty s' then false else full_parens_loop depth' s'
  end.

Definition hasFullOuterParens (expr : list N) : bool :=
  if negb (starts_with (js "(") expr) || negb (ends_with (js ")") expr) then false
  else full_parens_loop 0 expr.

(** [current.slice(1, -1)]. *)
Definition slice_inner (s : list N) : list N := removelast (tail s).

(** Each turn of the loop removes two units, so the length bounds the turns. *)
Fixpoint unwrap_loop (fuel : nat) (current : list N) : list N :=
  match fuel with
  | O => current
  | S f => if hasFullOuterParens current then unwrap_loop f (trim (slice_inner current)) else current
  end.

Definition unwrapOuterParens (expr : list N) : list N :=
  unwrap_loop (S (length expr)) (trim expr).

(** [parsed && parsed.length > 0]. *)
Definition is_rule_part (part : list N) : bool :=
  match tryParseRequestRuleExpr part with Some (_ :: _) => true | _ => false end.

Definition splitBillingExprAndRequestRules (expr : list N) : list N * list N :=
  let trimmed := trim expr in
  if negb (nonempty trimmed) then ([], [])
  else
    let parts := splitTopLevelMultiply trimmed in
    if (length parts <=? 1)%nat then (trimmed, [])
    else
      let ruleParts := filter (fun p => is_rule_part p = true) parts in
      let baseParts := filter (fun p => is_rule_part p = false) parts in
      match ruleParts, baseParts with
      | _ :: _, [base] => (unwrapOuterParens base, join (js " * ") ruleParts)
      | _, _ => (trimmed, [])
      end.

Definition combineBillingExpr (baseExpr requestRuleExpr : list N) : list N :=
  let base := trim baseExpr in
  let rules := trim requestRuleExpr in
  if negb (nonempty base) then []
  else if negb (nonempty rules) then base
  else js "(" ++ base ++ js ") * " ++ rules.

(** ** The editor *)

(** The fields a partial condition may carry; [None] is [undefined]. *)
Record PartialCondition := mkPartial {
  p_source : option (list N);
  p_path : option (list N);
  p_timeFunc : option (list N);
  p_timezone : option (list N);
  p_mode : option (list N);
  p_value : option (list N);
  p_rangeStart : option (list N);
  p_rangeEnd : option (list N) }.

Definition source_name (s : PHSource) : list N :=
  match s with SrcParam => js "param" | SrcHeader => js "header" end.

(** A condition seen as a partial one. *)
Definition as_partial (c : RequestCondition) : PartialCondition :=
  match c with
  | ParamHeaderCondition s p m v =>
      mkPartial (Some (source_name s)) (Some p) None None (Some m) (Some v) None None
  | TimeCondition f tz m v a b =>
      mkPartial (Some (js "time")) None (Some f) (Some tz) (Some m) (Some v) (Some a) (Some b)
  end.

Definition createEmptyCondition : RequestCondition := ParamHeaderCondition SrcParam [] MATCH_EQ [].
Definition createEmptyTimeCondition : RequestCondition :=
  TimeCondition (js "hour") (js "Asia/Shanghai") MATCH_GTE [] [] [].
Definition createEmptyRuleGroup : RequestRuleGroup := mkGroup [createEmptyCondition] [] None None.
Definition createEmptyTimeRuleGroup : RequestRuleGroup := mkGroup [createEmptyTimeCondition] [] None None.

(** Option values with their label keys. *)
Definition getRequestRuleMatchOptions (source : list N) : list (list N * list N) :=
  if bool_decide (source = js "time") then
    [(MATCH_EQ, js "Equals"); (MATCH_GTE, js "Greater than or equal");
     (MATCH_LT, js "Less than"); (MATCH_RANGE, js "Overnight range")]
  else
    let base := [(MATCH_EQ, js "Equals"); (MATCH_CONTAINS, js "Contains"); (MATCH_EXISTS, js "Exists")] in
    if bool_decide (source = js "header") then base
    else base ++ [(MATCH_GT, js "Greater than"); (MATCH_GTE, js "Greater than or equal");
                  (MATCH_LT, js "Less than"); (MATCH_LTE, js "Less than or equal")].

Definition isTimeFunc (v : option (list N)) : bool :=
  match v with Some f => bool_decide (f ∈ TIME_FUNCS) | None => false end.

(** The mode when the source offers it, else a default. *)
Definition pick_mode (source : list N) (mode : option (list N)) (fallback : list N) : list N :=
  match mode with
  | Some m => if bool_decide (m ∈ (getRequestRuleMatchOptions source).*1) then m else fallback
  | None => fallback
  end.

(** [a || b] on strings. *)
Definition or_string (a : option (list N)) (b : list N) : list N :=
  match a with Some ((_ :: _) as s) => s | _ => b end.

Definition normalizeCondition (cond : option PartialCondition) : RequestCondition :=
  let field (f : PartialCondition -> option (list N)) : option (list N) := cond ≫= f in
  if bool_decide (field p_source = Some (js "time")) then
    TimeCondition
      (if isTimeFunc (field p_timeFunc) then default [] (field p_timeFunc) else js "hour")
      (or_string (field p_timezone) (js "Asia/Shanghai"))
      (pick_mode (js "time") (field p_mode) MATCH_GTE)
      (default [] (field p_value)) (default [] (field p_rangeStart)) (default [] (field p_rangeEnd))
  else
    let source := if bool_decide (field p_source = Some (js "header")) then SrcHeader else SrcParam in
    ParamHeaderCondition source (or_string (field p_path) [])
      (pick_mode (source_name source) (field p_mode) MATCH_EQ) (default [] (field p_value)).

Definition buildExprLiteral (mode value : list N) : list N :=
  let text := trim value in
  if bool_decide (mode = MATCH_CONTAINS) then json_string text
  else if bool_decide (text = js "true") || bool_decide (text = js "false") then text
  else if is_numeric_literal text then text
  else json_string text.

Definition buildTimeConditionExpr (cond : RequestCondition) : list N :=
  match normalizeCondition (Some (as_partial cond)) with
  | TimeCondition timeFunc timezone mode value rangeStart rangeEnd =>
      let fn := timeFunc ++ js "(" ++ json_string timezone ++ js ")" in
      if bool_decide (mode = MATCH_RANGE) then
        let s := trim rangeStart in
        let e := trim rangeEnd in
        if negb (is_numeric_literal s) || negb (is_numeric_literal e) then []
        else fn ++ js " >= " ++ s ++ js " || " ++ fn ++ js " < " ++ e
      else
        let v := trim value in
        if negb (is_numeric_literal v) then []
        else
          let op := if bool_decide (mode = MATCH_GTE) then js ">="
                    else if bool_decide (mode = MATCH_LT) then js "<" else js "==" in
          fn ++ js " " ++ op ++ js " " ++ v
  | ParamHeaderCondition _ _ _ _ => []
  end.

Definition compare_op (mode : list N) : option (list N) :=
  if bool_decide (mode = MATCH_GT) then Some (js ">")
  else if bool_decide (mode = MATCH_GTE) then Some (js ">=")
  else if bool_decide (mode = MATCH_LT) then Some (js "<")
  else if bool_decide (mode = MATCH_LTE) then Some (js "<=")
  else None.

Definition buildRequestConditionExpr (cond : RequestCondition) : list N :=
  match cond with
  | TimeCondition _ _ _ _ _ _ => buildTimeConditionExpr cond
  | ParamHeaderCondition _ _ _ _ =>
      match normalizeCondition (Some (as_partial cond)) with
      | ParamHeaderCondition source path0 mode value =>
          let path := trim path0 in
          if negb (nonempty path) then []
          else
            let sourceExpr := source_name source ++ js "(" ++ json_string path ++ js ")" in
            if bool_decide (mode = MATCH_EXISTS) then
              match source with
              | SrcHeader => sourceExpr ++ js " != " ++ [34%N; 34%N]
              | SrcParam => sourceExpr ++ js " != nil"
              end
            else if bool_decide (mode = MATCH_CONTAINS) then
              let has := js "has(" ++ sourceExpr ++ js ", " ++ buildExprLiteral mode value ++ js ")" in
              match source with
              | SrcHeader => has
              | SrcParam => sourceExpr ++ js " != nil && " ++ has
              end
            else
              match compare_op mode with
              | Some op =>
                  let numText := trim value in
                  if negb (is_numeric_literal numText) then []
                  else sourceExpr ++ js " != nil && " ++ sourceExpr ++ js " " ++ op ++ js " " ++ numText
              | None => sourceExpr ++ js " == " ++ buildExprLiteral mode value
              end
      | TimeCondition _ _ _ _ _ _ => []
      end
  end.

Definition buildRuleGroupFactor (g : RequestRuleGroup) : list N :=
  let m := trim (multiplier g) in
  if negb (is_numeric_literal m) then []
  else
    let condExprs := filter (fun e => nonempty e = true) (buildRequestConditionExpr <$> conditions g) in
    match condExprs with
    | [] => []
    | _ =>
        let combined :=
          match condExprs with
          | [e] => e
          | _ => join (js " && ")
                   ((fun e => if includes (js " || ") e then js "(" ++ e ++ js ")" else e) <$> condExprs)
          end in
        js "(" ++ combined ++ js " ? " ++ m ++ js " : 1)"
    end.

Definition buildRequestRuleExpr (groups : list RequestRuleGroup) : list N :=
  join (js " * ") (filter (fun e => nonempty e = true) (buildRuleGroupFactor <$> groups)).
