(* ===== verification/BillingRuleRoundtrip.v ===== *)
(** * Billing expressions: what the rule editor writes and reads back

    [BillingRules.buildRequestRuleExpr] writes a list of rule groups,
    [BillingRules.tryParseRequestRuleExpr] reads one.  This file proves exactly
    which groups come back: every group whose conditions are written without a
    top-level [" && "], and no group with a condition written with one (a
    request parameter that contains a text, or is compared with a number). *)
From S2P Require Import Prelude JsString JsNumber JsJson BillingLexer BillingRules.
From Stdlib Require Import Lia.

(** ** The scan of a separator *)

(** The separator's scan goes through [s] from depth [d] to depth [d'] without
    splitting. *)
Definition passes (sep : list N) (d : Z) (s : list N) (d' : Z) : Prop :=
  forall cur k, split_loop sep d 0 cur (s ++ k) = split_loop sep d' 0 (reverse s ++ cur) k.

Lemma passes_app sep d a d1 b d2 :
  passes sep d a d1 -> passes sep d1 b d2 -> passes sep d (a ++ b) d2.
Proof.
  intros Ha Hb cur k. by rewrite <- app_assoc, Ha, Hb, reverse_app, <- app_assoc.
Qed.

(** The separators the code splits at: a space, an operator unit, more. *)
Definition sep_of (op : N) (sep : list N) : Prop := exists r, sep = 32%N :: op :: r.

Definition no_paren (c : N) : Prop := c <> ch "(" /\ c <> ch ")".

Lemma paren_depth_plain d c : no_paren c -> paren_depth d c = d.
Proof.
  intros [H1 H2]. unfold paren_depth. by rewrite (proj2 (N.eqb_neq _ _) H1), (proj2 (N.eqb_neq _ _) H2).
Qed.

Lemma passes_deep sep d s : d <> 0%Z -> Forall no_paren s -> passes sep d s d.
Proof.
  intros Hd Hs. induction Hs as [|c s Hc _ IH]; intros cur k; [done|].
  simpl. rewrite paren_depth_plain by done. rewrite (proj2 (Z.eqb_neq _ _) Hd). simpl.
  by rewrite IH, reverse_cons, <- app_assoc.
Qed.

Lemma passes_text sep op d s :
  sep_of op sep -> Forall (fun c => no_paren c /\ c <> op) s -> last s <> Some 32%N ->
  passes sep d s d.
Proof.
  intros [r ->] Hs. induction Hs as [|c s [Hc Hop] Hs IH]; intros Hl cur k; [done|].
  simpl. rewrite paren_depth_plain by done.
  assert (starts_with (32%N :: op :: r) (c :: s ++ k) = false) as ->.
  { apply not_true_iff_false. rewrite starts_with_eq. intros [u Hu]. injection Hu as -> Hu.
    destruct Hs as [|e s [_ He] _]; [done|]. by injection Hu. }
  rewrite andb_false_r, IH; [by rewrite reverse_cons, <- app_assoc|].
  intros Hn. apply Hl. destruct s; [done|]. exact Hn.
Qed.

Lemma passes_open sep op d : sep_of op sep -> passes sep d (js "(") (d + 1).
Proof. intros [r ->] cur k. simpl. rewrite andb_false_r. done. Qed.

Lemma passes_close sep op d : sep_of op sep -> passes sep d (js ")") (d - 1).
Proof. intros [r ->] cur k. simpl. rewrite andb_false_r. done. Qed.

(** Text between parentheses passes at any non-negative depth. *)
Lemma passes_parens sep op d s :
  sep_of op sep -> passes sep (d + 1) s (d + 1) ->
  passes sep d (js "(" ++ s ++ js ")") d.
Proof.
  intros Hsep Hs. eapply passes_app; [by eapply passes_open|].
  eapply passes_app; [exact Hs|]. replace d with (d + 1 - 1)%Z at 2 by lia.
  by eapply passes_close.
Qed.

(** What [passes_text] and [passes_deep] both accept. *)
Lemma passes_quiet sep op d s :
  sep_of op sep -> Forall no_paren s ->
  d <> 0%Z \/ (Forall (fun c => c <> op) s /\ last s <> Some 32%N) ->
  passes sep d s d.
Proof.
  intros Hsep Hs [Hd|[Ho Hl]]; [by apply passes_deep|].
  eapply passes_text; [done| |done]. by apply Forall_and.
Qed.

(** The separator itself splits. *)
Definition splits (sep : list N) : Prop :=
  forall cur k, split_loop sep 0 0 cur (sep ++ k) = reverse cur :: split_loop sep 0 0 [] k.

Lemma splits_and : splits (js " && ").
Proof. done. Qed.

Lemma splits_mul : splits (js " * ").
Proof. done. Qed.

Lemma split_loop_join sep ps :
  splits sep -> Forall (fun p => passes sep 0 p 0) ps -> ps <> [] ->
  split_loop sep 0 0 [] (join sep ps) = ps.
Proof.
  intros Hsep Hps Hne. destruct ps as [|p ps]; [done|]. clear Hne. revert p Hps.
  induction ps as [|q ps IH]; intros p Hps; inv Hps.
  - simpl. pose proof (H1 [] []) as Hp. rewrite app_nil_r in Hp. rewrite Hp. simpl.
    by rewrite app_nil_r, reverse_involutive.
  - rewrite join_cons by done. rewrite H1, Hsep, app_nil_r, reverse_involutive.
    f_equal. by apply IH.
Qed.

(** A part of a condition list: not empty, trimmed, and quiet for [sep] at 0. *)
Definition piece (sep p : list N) : Prop := passes sep 0 p 0 /\ trimmed p /\ p <> [].

Lemma split_top_level_join sep ps :
  splits sep -> Forall (piece sep) ps -> ps <> [] ->
  split_top_level sep (join sep ps) = ps.
Proof.
  intros Hsep Hps Hne. unfold split_top_level.
  rewrite split_loop_join; [|done| |done].
  2: { eapply Forall_impl; [exact Hps|]. by intros p [? _]. }
  clear Hne. induction Hps as [|p ps (_ & Ht & Hne) _ IH]; [done|].
  rewrite fmap_cons, trim_trimmed by done. rewrite filter_cons_True; [by rewrite IH|].
  by destruct p.
Qed.

(** ** Canonical conditions *)

(** A unit JSON writes as itself, and which no matcher or separator looks for. *)
Definition plain_unit (c : N) : bool :=
  (32 <=? c)%N && (c <? 55296)%N && negb (bool_decide (c ∈ js "\()&|")) && negb (c =? 34)%N &&
  negb (is_line_terminator c).

Definition plain (s : list N) : bool := forallb plain_unit s.

Definition plain_trimmed (s : list N) : bool := plain s && bool_decide (trim s = s).

(** The conditions the editor's form produces: only the fields of the mode are
    filled in, texts are plain and trimmed, numbers are numeric literals. *)
Definition canonical (c : RequestCondition) : bool :=
  match c with
  | ParamHeaderCondition src path mode value =>
      nonempty path && plain_trimmed path &&
      (if bool_decide (mode = MATCH_EXISTS) then negb (nonempty value)
       else if bool_decide (mode = MATCH_CONTAINS) || bool_decide (mode = MATCH_EQ) then plain_trimmed value
       else match src, compare_op mode with
            | SrcParam, Some _ => is_numeric_literal value
            | _, _ => false
            end)
  | TimeCondition fn tz mode value a b =>
      bool_decide (fn ∈ TIME_FUNCS) && nonempty tz && plain tz &&
      (if bool_decide (mode = MATCH_RANGE)
       then negb (nonempty value) && is_numeric_literal a && is_numeric_literal b
       else bool_decide (mode ∈ [MATCH_EQ; MATCH_GTE; MATCH_LT]) && is_numeric_literal value &&
            negb (nonempty a) && negb (nonempty b))
  end.

(** The conditions written without [" && "]. *)
Definition readable (c : RequestCondition) : bool :=
  match c with
  | ParamHeaderCondition SrcParam _ mode _ => bool_decide (mode = MATCH_EXISTS) || bool_decide (mode = MATCH_EQ)
  | _ => true
  end.

Definition canonical_group (g : RequestRuleGroup) : bool :=
  forallb canonical (conditions g) && bool_decide (conditions g <> []) && is_numeric_literal (multiplier g) &&
  match conditionText g, matched g with None, None => true | _, _ => false end.

Definition readable_group (g : RequestRuleGroup) : bool := forallb readable (conditions g).

(** *** Facts on plain text and numerals *)

Lemma plain_unit_spec c :
  plain_unit c = true ->
  (32 <= c < 55296)%N /\ c <> 34%N /\ c <> 92%N /\ no_paren c /\ c <> 38%N /\ c <> 124%N /\
  is_line_terminator c = false.
Proof.
  unfold plain_unit. intros H. breflect.
  assert (c ∉ [92; 40; 41; 38; 124]%N) as Hn by (intros X; apply H2; exact X).
  rewrite !elem_of_cons, elem_of_nil in Hn. unfold no_paren, ch. simpl. naive_solver lia.
Qed.

Lemma json_string_plain s : plain s = true -> json_string s = [34%N] ++ s ++ [34%N].
Proof.
  intros H. unfold json_string. do 2 f_equal.
  assert (json_quote_units s = s) as ->; [|done].
  induction s as [|c s IH]; [done|]. simpl in H. breflect. specialize (IH H0).
  apply plain_unit_spec in H as (Hc & H34 & H92 & _).
  assert (json_quote_unit c = [c]) as Hq.
  { unfold json_quote_unit, is_high_surrogate, is_low_surrogate.
    rewrite (proj2 (N.eqb_neq _ _) H34), (proj2 (N.eqb_neq _ _) H92).
    repeat match goal with |- context [(c =? ?k)%N] => rewrite (proj2 (N.eqb_neq c k)) by lia end.
    rewrite (proj2 (N.ltb_ge c 32)), (proj2 (N.leb_gt 55296 c)), (proj2 (N.leb_gt 56320 c)) by lia.
    done. }
  simpl. destruct s as [|d s]; [by rewrite Hq|].
  assert (is_high_surrogate c = false) as ->.
  { unfold is_high_surrogate. by rewrite (proj2 (N.leb_gt 55296 c)) by lia. }
  simpl. rewrite Hq. simpl. by f_equal.
Qed.

Lemma plain_units s : plain s = true -> units s.
Proof.
  unfold plain, units. intros H. apply Forall_forall. intros c Hc.
  pose proof (proj1 (forallb_forall _ _) H c) as Hu.
  apply list_elem_of_In in Hc. apply Hu, plain_unit_spec in Hc. lia.
Qed.

Lemma plain_forall s : plain s = true -> Forall (fun c => plain_unit c = true) s.
Proof. intros H. apply Forall_forall. intros c Hc. apply list_elem_of_In in Hc. revert c Hc. by apply forallb_forall. Qed.

Lemma plain_trimmed_spec s : plain_trimmed s = true -> plain s = true /\ trim s = s.
Proof. unfold plain_trimmed. intros H. by breflect. Qed.

Lemma digits_num_class s :
  Forall (fun c => is_digit c = true) s -> Forall (fun c => num_class c = true) s.
Proof. intros H. eapply Forall_impl; [exact H|]. intros c Hc. unfold num_class. by rewrite Hc. Qed.

Lemma scan_exponent_class r text x :
  scan_exponent r = Ok (text, x, []) -> Forall (fun c => num_class c = true) r.
Proof.
  destruct r as [|c r]; simpl; [constructor|].
  destruct ((c =? 101)%N || (c =? 69)%N) eqn:Hc; [|done].
  assert (num_class c = true) as Hcc.
  { apply orb_true_iff in Hc as [->%N.eqb_eq| ->%N.eqb_eq]; done. }
  assert (exists sg, r = sg ++ (scan_sign r).2 /\ Forall (fun c => num_class c = true) sg) as (sg & Hr & Hsg).
  { destruct r as [|d r]; [by exists []|]. simpl.
    destruct (d =? 43)%N eqn:E1; [apply N.eqb_eq in E1 as ->; exists [43%N]; by repeat constructor|].
    destruct (d =? 45)%N eqn:E2; [apply N.eqb_eq in E2 as ->; exists [45%N]; by repeat constructor|].
    by exists []. }
  destruct (scan_sign r) as [[sg' neg] r1]. simpl in Hr.
  pose proof (span_eq is_digit r1) as Hs. pose proof (span_forall is_digit r1) as Hd.
  destruct (span is_digit r1) as [[|d ds] r2]; [done|]. intros [= _ _ ->]. simpl in *.
  constructor; [done|]. rewrite Hr, Hs, app_nil_r. apply Forall_app. split; [done|].
  by apply digits_num_class.
Qed.

Lemma span_digits_class s r2 :
  Forall (fun c => num_class c = true) (span is_digit s).2 -> r2 = s -> Forall (fun c => num_class c = true) r2.
Proof.
  intros H ->. rewrite (span_eq is_digit s). apply Forall_app. split; [|done].
  apply digits_num_class, span_forall.
Qed.

Lemma is_numeric_literal_class s :
  is_numeric_literal s = true -> Forall (fun c => num_class c = true) s /\ s <> [].
Proof.
  unfold is_numeric_literal. intros H. split; [|by intros ->].
  set (r := match s with c :: r => if (c =? 45)%N then r else s | [] => [] end) in *.
  assert (Forall (fun c => num_class c = true) r -> Forall (fun c => num_class c = true) s) as Hr.
  { subst r. destruct s as [|c s]; [done|]. destruct (N.eqb_spec c 45) as [->|]; [|done]. by constructor. }
  apply Hr. clearbody r. clear Hr s.
  apply (span_digits_class r); [|done].
  destruct (span is_digit r) as [i r1]. simpl.
  assert (forall r3, match scan_exponent r3 with Ok (_, _, []) => true | _ => false end = true ->
            Forall (fun c => num_class c = true) r3) as Hexp.
  { intros r3 H3. destruct (scan_exponent r3) as [[[t x] [|]]|] eqn:E; try done.
    by eapply scan_exponent_class. }
  destruct r1 as [|c r2]; [constructor|].
  assert ((c =? 46)%N = true -> num_class c = true) as Hdot by by intros ->%N.eqb_eq.
  destruct i as [|d i], (c =? 46)%N eqn:Ec; try done.
  - destruct (span is_digit r2) as [[|e es] r3] eqn:Es; [done|].
    constructor; [auto|]. apply (span_digits_class r2); [|done]. rewrite Es. auto.
  - constructor; [auto|]. apply (span_digits_class r2); [|done]. auto.
  - by apply Hexp.
Qed.

Lemma num_class_spec c :
  num_class c = true -> no_paren c /\ c <> 38%N /\ c <> 124%N /\ c <> 32%N /\ c <> 34%N /\
  is_space c = false /\ is_line_terminator c = false.
Proof.
  unfold num_class. intros [H|H]%orb_true_iff.
  - pose proof (is_digit_not_space _ H). apply is_digit_spec in H.
    unfold no_paren, is_line_terminator, ch. simpl.
    repeat match goal with |- context [(c =? ?k)%N] => rewrite (proj2 (N.eqb_neq c k)) by lia end.
    repeat split; try lia; done.
  - apply bool_decide_eq_true in H. change (js ".eE+-") with [46; 101; 69; 43; 45]%N in H.
    rewrite !elem_of_cons, elem_of_nil in H.
    destruct H as [->|[->|[->|[->|[->|[]]]]]]; done.
Qed.

Lemma numeric_trimmed s : is_numeric_literal s = true -> trimmed s.
Proof.
  intros [H _]%is_numeric_literal_class. apply no_space_trimmed.
  eapply Forall_impl; [exact H|]. intros c Hc%num_class_spec. tauto.
Qed.

(** The number is read up to a unit outside its class. *)
Lemma match_number_app v k :
  is_numeric_literal v = true ->
  (match k with c :: _ => num_class c = false | [] => True end) ->
  match_number (v ++ k) = Some (v, k).
Proof.
  intros [H Hne]%is_numeric_literal_class Hk. unfold match_number.
  rewrite span_app by done. by destruct v.
Qed.

Lemma match_number_all v : is_numeric_literal v = true -> match_number v = Some (v, []).
Proof. intros H. rewrite <- (app_nil_r v) at 1. by apply match_number_app. Qed.

(** *** Calls *)

(** The text [name("arg")]. *)
Definition call (name arg : list N) : list N := name ++ js "(" ++ ([34%N] ++ arg ++ [34%N]) ++ js ")".

Lemma match_quoted_plain p k :
  nonempty p = true -> plain p = true -> match_quoted (([34%N] ++ p ++ [34%N]) ++ k) = Some (p, k).
Proof.
  intros Hne Hp. simpl. rewrite <- app_assoc. rewrite span_app; [by destruct p| |done].
  eapply Forall_impl; [by apply plain_forall|]. intros c Hc%plain_unit_spec.
  rewrite (proj2 (N.eqb_neq c 34)); [done|tauto].
Qed.

Lemma match_call_plain name p k :
  nonempty p = true -> plain p = true -> match_call name (call name p ++ k) = Some (p, k).
Proof.
  intros Hne Hp. unfold match_call, call.
  rewrite <- !app_assoc. rewrite (app_assoc name), strip_prefix_app.
  rewrite (app_assoc [34%N]), (app_assoc ([34%N] ++ p)).
  replace ((([34%N] ++ p) ++ [34%N]) ++ js ")" ++ k) with (([34%N] ++ p ++ [34%N]) ++ js ")" ++ k).
  - by rewrite match_quoted_plain.
  - by rewrite <- !app_assoc.
Qed.

(** *** The text of a canonical condition, cut at its top-level [" && "] *)

Definition time_ops : list (list N * list N) :=
  [(js "==", MATCH_EQ); (js ">=", MATCH_GTE); (js "<", MATCH_LT)].

Definition quoted (s : list N) : list N := [34%N] ++ s ++ [34%N].

Inductive written : RequestCondition -> list (list N) -> Prop :=
| W_exists_header p :
    written (ParamHeaderCondition SrcHeader p MATCH_EXISTS []) [call (js "header") p ++ js " != " ++ quoted []]
| W_exists_param p :
    written (ParamHeaderCondition SrcParam p MATCH_EXISTS []) [call (js "param") p ++ js " != nil"]
| W_has_header p v :
    plain v = true ->
    written (ParamHeaderCondition SrcHeader p MATCH_CONTAINS v)
      [js "has" ++ js "(" ++ (call (js "header") p ++ js ", " ++ quoted v) ++ js ")"]
| W_has_param p v :
    plain v = true ->
    written (ParamHeaderCondition SrcParam p MATCH_CONTAINS v)
      [call (js "param") p ++ js " != nil";
       js "has" ++ js "(" ++ (call (js "param") p ++ js ", " ++ quoted v) ++ js ")"]
| W_eq_raw src p v :
    v = js "true" \/ v = js "false" \/ is_numeric_literal v = true ->
    written (ParamHeaderCondition src p MATCH_EQ v) [call (source_name src) p ++ js " == " ++ v]
| W_eq_text src p v :
    plain v = true ->
    written (ParamHeaderCondition src p MATCH_EQ v) [call (source_name src) p ++ js " == " ++ quoted v]
| W_compare p op mode v :
    compare_op mode = Some op -> is_numeric_literal v = true ->
    written (ParamHeaderCondition SrcParam p mode v)
      [call (js "param") p ++ js " != nil"; call (js "param") p ++ (js " " ++ op ++ js " ") ++ v]
| W_time fn tz op mode v :
    fn ∈ TIME_FUNCS -> (op, mode) ∈ time_ops -> is_numeric_literal v = true ->
    written (TimeCondition fn tz mode v [] []) [call fn tz ++ (js " " ++ op ++ js " ") ++ v]
| W_range fn tz a b :
    fn ∈ TIME_FUNCS -> is_numeric_literal a = true -> is_numeric_literal b = true ->
    written (TimeCondition fn tz MATCH_RANGE [] a b)
      [call fn tz ++ js " >= " ++ a ++ js " || " ++ call fn tz ++ js " < " ++ b].

(** The argument of the calls a condition makes. *)
Definition argument (c : RequestCondition) : list N :=
  match c with ParamHeaderCondition _ p _ _ => p | TimeCondition _ tz _ _ _ _ => tz end.

Lemma canonical_argument c :
  canonical c = true -> nonempty (argument c) = true /\ plain (argument c) = true.
Proof.
  destruct c as [src p mode v|fn tz mode v a b]; simpl; unfold plain_trimmed; intros H; by breflect.
Qed.

Lemma trim_numeric v : is_numeric_literal v = true -> trim v = v.
Proof. intros. by apply trim_trimmed, numeric_trimmed. Qed.

Lemma call_eq name p : call name p = name ++ js "(" ++ quoted p ++ js ")".
Proof. done. Qed.

Lemma compare_op_cases mode op :
  compare_op mode = Some op ->
  (mode = MATCH_GT /\ op = js ">") \/ (mode = MATCH_GTE /\ op = js ">=") \/
  (mode = MATCH_LT /\ op = js "<") \/ (mode = MATCH_LTE /\ op = js "<=").
Proof. unfold compare_op. repeat case_bool_decide; naive_solver. Qed.

Lemma build_eq_literal v :
  plain_trimmed v = true ->
  (buildExprLiteral MATCH_EQ v = v /\ (v = js "true" \/ v = js "false" \/ is_numeric_literal v = true)) \/
  buildExprLiteral MATCH_EQ v = quoted v.
Proof.
  intros [Hp Ht]%plain_trimmed_spec. unfold buildExprLiteral. rewrite Ht.
  rewrite bool_decide_eq_false_2 by done.
  destruct (bool_decide (v = js "true") || bool_decide (v = js "false")) eqn:E1.
  - left. apply orb_true_iff in E1 as [E1%bool_decide_eq_true|E1%bool_decide_eq_true]; tauto.
  - destruct (is_numeric_literal v) eqn:E2; [tauto|]. right. by apply json_string_plain.
Qed.

(** Building a condition of the parameter or header form, after normalization. *)
Lemma normalize_param src p mode v :
  nonempty p = true -> mode ∈ (getRequestRuleMatchOptions (source_name src)).*1 ->
  normalizeCondition (Some (as_partial (ParamHeaderCondition src p mode v))) = ParamHeaderCondition src p mode v.
Proof.
  intros Hp Hm. unfold normalizeCondition, pick_mode. destruct src; simpl in *.
  all: rewrite (bool_decide_eq_true_2 _ Hm). all: by destruct p.
Qed.

Lemma normalize_time fn tz mode v a b :
  nonempty tz = true -> fn ∈ TIME_FUNCS -> mode ∈ (getRequestRuleMatchOptions (js "time")).*1 ->
  normalizeCondition (Some (as_partial (TimeCondition fn tz mode v a b))) = TimeCondition fn tz mode v a b.
Proof.
  intros Hp Hf Hm. unfold normalizeCondition, pick_mode. simpl in *.
  rewrite (bool_decide_eq_true_2 _ Hm), (bool_decide_eq_true_2 _ Hf). by destruct tz.
Qed.

(** Equality of texts up to association. *)
Ltac solve_app := unfold call, quoted; repeat (progress (simpl; rewrite <- ?app_assoc)); done.

(** One form's text: [buildRequestConditionExpr] after normalization. *)
Lemma build_param src p mode v :
  nonempty p = true -> plain_trimmed p = true ->
  mode ∈ (getRequestRuleMatchOptions (source_name src)).*1 ->
  buildRequestConditionExpr (ParamHeaderCondition src p mode v) =
    let e := call (source_name src) p in
    if bool_decide (mode = MATCH_EXISTS) then
      match src with SrcHeader => e ++ js " != " ++ quoted [] | SrcParam => e ++ js " != nil" end
    else if bool_decide (mode = MATCH_CONTAINS) then
      let has := js "has(" ++ e ++ js ", " ++ buildExprLiteral mode v ++ js ")" in
      match src with SrcHeader => has | SrcParam => e ++ js " != nil && " ++ has end
    else match compare_op mode with
         | Some op => if negb (is_numeric_literal (trim v)) then []
                      else e ++ js " != nil && " ++ e ++ js " " ++ op ++ js " " ++ trim v
         | None => e ++ js " == " ++ buildExprLiteral mode v
         end.
Proof.
  intros Hne [Hp Ht]%plain_trimmed_spec Hm. cbn delta [buildRequestConditionExpr] iota beta.
  rewrite normalize_param by done. cbv zeta. rewrite Ht, Hne. cbn [negb]. by rewrite json_string_plain.
Qed.

Lemma canonical_written c :
  canonical c = true ->
  exists ps, written c ps /\ buildRequestConditionExpr c = join (js " && ") ps.
Proof.
  destruct c as [src p mode v|fn tz mode v a b]; intros H.
  - simpl in H. apply andb_true_iff in H as [[Hne Hp]%andb_true_iff H].
    destruct (bool_decide (mode = MATCH_EXISTS)) eqn:E1.
    { apply bool_decide_eq_true in E1 as ->. destruct v; [|done].
      destruct src; eexists; (split; [constructor|]); by rewrite build_param by (done || set_solver). }
    destruct (bool_decide (mode = MATCH_CONTAINS)) eqn:E2.
    { apply bool_decide_eq_true in E2 as ->. simpl in H. apply plain_trimmed_spec in H as [Hv Htv].
      assert (buildExprLiteral MATCH_CONTAINS v = quoted v) as Hb.
      { unfold buildExprLiteral. rewrite Htv. by apply json_string_plain. }
      destruct src; eexists; (split; [by constructor|]).
      all: rewrite build_param by (done || set_solver); cbv zeta; rewrite Hb; simpl.
      all: solve_app. }
    destruct (bool_decide (mode = MATCH_EQ)) eqn:E3.
    { apply bool_decide_eq_true in E3 as ->. simpl in H.
      destruct (build_eq_literal v H) as [[Hb Hv]|Hb]; apply plain_trimmed_spec in H as [Hv' _].
      all: eexists; (split; [first [by apply W_eq_raw|by apply W_eq_text]|]).
      all: destruct src; rewrite build_param by (done || set_solver); cbv zeta; by rewrite Hb. }
    simpl in H. destruct src; [|done]. destruct (compare_op mode) as [op|] eqn:Eop; [|done].
    exists [call (js "param") p ++ js " != nil"; call (js "param") p ++ (js " " ++ op ++ js " ") ++ v].
    split; [by constructor|]. rewrite build_param; [|done|done|].
    2: { apply compare_op_cases in Eop. destruct Eop as [[-> _]|[[-> _]|[[-> _]|[-> _]]]]; set_solver. }
    cbv zeta. rewrite E1, E2, Eop, trim_numeric, H by done. solve_app.
  - simpl in H. apply andb_true_iff in H as [[[Hf%bool_decide_eq_true Hne]%andb_true_iff Hp]%andb_true_iff H].
    unfold buildRequestConditionExpr, buildTimeConditionExpr.
    destruct (bool_decide (mode = MATCH_RANGE)) eqn:E1.
    + apply bool_decide_eq_true in E1 as ->. breflect. destruct v; [|done].
      eexists; split; [by constructor|]. rewrite normalize_time by (done || set_solver).
      cbv beta iota zeta. rewrite bool_decide_eq_true_2 by done.
      rewrite !trim_numeric by done. rewrite H0, H1. cbn [negb orb]. rewrite json_string_plain by done.
      solve_app.
    + breflect. destruct a; [|done]. destruct b; [|done].
      assert (exists op, (op, mode) ∈ time_ops /\
        op = if bool_decide (mode = MATCH_GTE) then js ">="
             else if bool_decide (mode = MATCH_LT) then js "<" else js "==") as (op & Hop & Hopeq).
      { apply elem_of_cons in H as [->|H]; [eexists; split; [|done]; set_solver|].
        apply elem_of_cons in H as [->|H]; [eexists; split; [|done]; set_solver|].
        apply list_elem_of_singleton in H as ->. eexists; split; [|done]; set_solver. }
      eexists; split; [by eapply W_time|].
      rewrite normalize_time; [|done|done|set_solver].
      cbv beta iota zeta. rewrite bool_decide_eq_false_2 by done.
      rewrite !trim_numeric by done. rewrite H2, <- Hopeq. cbn [negb]. rewrite json_string_plain by done.
      solve_app.
Qed.

(** *** Every part of a condition's text is a piece *)

(** Text without parentheses or [&] that does not end in a space. *)
Definition quiet_unit (c : N) : Prop := no_paren c /\ c <> 38%N.
Definition quiet (s : list N) : Prop := Forall quiet_unit s /\ s <> [] /\ last s <> Some 32%N.

Lemma quiet_app a b : Forall quiet_unit a -> quiet b -> quiet (a ++ b).
Proof.
  intros Ha (Hb & Hne & Hl). split_and!; [by apply Forall_app|by destruct a|].
  destruct (exists_last Hne) as (b' & x & ->). rewrite app_assoc, last_snoc.
  by rewrite last_snoc in Hl.
Qed.

Ltac quiet_const :=
  unfold quiet; split_and!; [repeat constructor; discriminate | discriminate | discriminate].
Ltac quiet_units := repeat constructor; discriminate.

Lemma quiet_numeric v : is_numeric_literal v = true -> quiet v.
Proof.
  intros [H Hne]%is_numeric_literal_class. split_and!; [|done|].
  - eapply Forall_impl; [exact H|]. intros c Hc%num_class_spec. unfold quiet_unit. tauto.
  - destruct (exists_last Hne) as (b' & x & ->). rewrite last_snoc. intros [= ->].
    apply Forall_app in H as [_ H]. by inv H.
Qed.

Lemma plain_quiet_units s : plain s = true -> Forall quiet_unit s.
Proof.
  intros H%plain_forall. eapply Forall_impl; [exact H|]. intros c Hc%plain_unit_spec.
  unfold quiet_unit. tauto.
Qed.

Lemma quiet_quoted s : plain s = true -> quiet (quoted s).
Proof.
  intros H. unfold quoted. apply (quiet_app [34%N]); [quiet_units|].
  apply quiet_app; [by apply plain_quiet_units|]. split_and!; [quiet_units|done|done].
Qed.

Lemma quiet_no_paren s : Forall quiet_unit s -> Forall no_paren s.
Proof. intros H. eapply Forall_impl; [exact H|]. by intros c [? _]. Qed.

(** The scans the editor's text goes through: [" && "] at the top level, [" * "]
    inside parentheses. *)
Definition scan_at (sep : list N) (d : Z) : Prop :=
  exists op, sep_of op sep /\ ((0 < d)%Z \/ (d = 0%Z /\ op = 38%N)).

Lemma scan_and : scan_at (js " && ") 0.
Proof. exists 38%N. split; [by eexists|]. by right. Qed.

Lemma scan_mul d : (0 < d)%Z -> scan_at (js " * ") d.
Proof. exists 42%N. split; [by eexists|]. by left. Qed.

Lemma scan_quiet sep d s : scan_at sep d -> quiet s -> passes sep d s d.
Proof.
  intros (op & Hsep & Hd) (Hu & _ & Hl). eapply passes_quiet; [done|by apply quiet_no_paren|].
  destruct Hd as [Hd|[-> ->]]; [left; lia|]. right. split; [|done].
  eapply Forall_impl; [exact Hu|]. by intros c [_ ?].
Qed.

Lemma scan_parens sep d s :
  scan_at sep d -> (forall d', scan_at sep d' -> passes sep d' s d') -> passes sep d (js "(" ++ s ++ js ")") d.
Proof.
  intros (op & Hsep & Hd) Hs. eapply passes_parens; [done|]. apply Hs. exists op. split; [done|]. left. lia.
Qed.

Lemma scan_call sep d name p :
  scan_at sep d -> quiet name -> plain p = true -> passes sep d (call name p) d.
Proof.
  intros Hs Hn Hp. unfold call. eapply passes_app; [by apply scan_quiet|].
  apply scan_parens; [done|]. intros d' Hd'. by apply scan_quiet; [|apply quiet_quoted].
Qed.

(** A piece for every scan, with no white space around it. *)
Definition part_ok (p : list N) : Prop :=
  (forall sep d, scan_at sep d -> passes sep d p d) /\ trimmed p /\ p <> [].

Lemma call_trimmed name p : trimmed name -> name <> [] -> trimmed (call name p) /\ call name p <> [].
Proof.
  intros Ht Hn. split; [|by destruct name]. unfold call.
  rewrite (app_assoc (js "(")). by apply (trimmed_around name _ (js ")")).
Qed.

(** A call followed by quiet text. *)
Lemma part_call name p m b :
  quiet name -> trimmed name -> plain p = true -> Forall quiet_unit m -> quiet b -> trimmed b ->
  part_ok (call name p ++ m ++ b).
Proof.
  intros Hn Ht Hp Hm Hb Htb. destruct (call_trimmed name p) as [Hc Hcn]; [done|apply Hn|].
  split_and!.
  - intros sep d Hs. eapply passes_app; [by apply scan_call|]. apply scan_quiet; [done|]. by apply quiet_app.
  - apply trimmed_around; [done|done|done|apply Hb].
  - by destruct (call name p).
Qed.

Lemma part_has name p v :
  quiet name -> plain p = true -> plain v = true ->
  part_ok (js "has" ++ js "(" ++ (call name p ++ js ", " ++ quoted v) ++ js ")").
Proof.
  intros Hn Hp Hv. split_and!; [|rewrite (app_assoc (js "(")); by apply trimmed_around|done].
  intros sep d Hs. eapply passes_app; [apply scan_quiet; [done|quiet_const]|].
  apply scan_parens; [done|]. intros d' Hd'. eapply passes_app; [by apply scan_call|].
  apply scan_quiet; [done|]. apply quiet_app; [quiet_units|by apply quiet_quoted].
Qed.

Lemma part_parens p : part_ok p -> part_ok (js "(" ++ p ++ js ")").
Proof.
  intros (Hp & _ & _). split_and!; [|by apply trimmed_around|done].
  intros sep d Hs. apply scan_parens; auto.
Qed.

Lemma quoted_trimmed s : trimmed (quoted s).
Proof. by apply (trimmed_around [34%N] s [34%N]). Qed.

Lemma time_func_quiet fn : fn ∈ TIME_FUNCS -> quiet fn /\ trimmed fn.
Proof.
  intros H. unfold TIME_FUNCS in H.
  repeat (apply elem_of_cons in H as [->|H]; [split; [quiet_const|done]|]). by apply elem_of_nil in H.
Qed.

Lemma source_quiet src : quiet (source_name src) /\ trimmed (source_name src).
Proof. destruct src; (split; [quiet_const|done]). Qed.

Lemma operator_units op mode :
  compare_op mode = Some op \/ (op, mode) ∈ time_ops -> Forall quiet_unit (js " " ++ op ++ js " ").
Proof.
  intros [H|H].
  - apply compare_op_cases in H as [[_ ->]|[[_ ->]|[[_ ->]|[_ ->]]]]; quiet_units.
  - unfold time_ops in H.
    repeat (apply elem_of_cons in H as [[= -> _]|H]; [quiet_units|]). by apply elem_of_nil in H.
Qed.

Lemma part_exists src p : plain p = true -> part_ok (call (source_name src) p ++ js " != " ++ js "nil").
Proof.
  intros Hp. destruct (source_quiet src). apply part_call; try done; [quiet_units|quiet_const].
Qed.

Lemma raw_literal_quiet v :
  v = js "true" \/ v = js "false" \/ is_numeric_literal v = true -> quiet v /\ trimmed v.
Proof.
  intros [->|[->|H]]; [split; [quiet_const|done]|split; [quiet_const|done]|].
  split; [by apply quiet_numeric|by apply numeric_trimmed].
Qed.

Lemma written_parts c ps : written c ps -> plain (argument c) = true -> Forall part_ok ps /\ ps <> [].
Proof.
  intros H Hp. split; [|by destruct H].
  destruct H as [p|p|p v Hv|p v Hv|src p v Hv|src p v Hv|p op mode v Hop Hv|fn tz op mode v Hfn Hop Hv|fn tz a b Hfn Ha Hb];
    simpl in Hp; repeat apply Forall_cons_2; try apply Forall_nil_2.
  - destruct (source_quiet SrcHeader). apply part_call; try done;
      [quiet_units|by apply quiet_quoted].
  - by apply (part_exists SrcParam).
  - apply part_has; [quiet_const|done|done].
  - by apply (part_exists SrcParam).
  - apply part_has; [quiet_const|done|done].
  - destruct (source_quiet src), (raw_literal_quiet v Hv). apply part_call; try done. quiet_units.
  - destruct (source_quiet src). apply part_call; try done;
      [quiet_units|by apply quiet_quoted|apply quoted_trimmed].
  - by apply (part_exists SrcParam).
  - destruct (source_quiet SrcParam). apply part_call; try done.
    + eapply operator_units; eauto.
    + by apply quiet_numeric.
    + by apply numeric_trimmed.
  - destruct (time_func_quiet fn Hfn). apply part_call; try done.
    + eapply operator_units; eauto.
    + by apply quiet_numeric.
    + by apply numeric_trimmed.
  - destruct (time_func_quiet fn Hfn) as [Hq Ht].
    replace (call fn tz ++ js " >= " ++ a ++ js " || " ++ call fn tz ++ js " < " ++ b)
      with (call fn tz ++ (js " >= " ++ a ++ js " ||" ++ call (js " " ++ fn) tz ++ js " < ") ++ b) by solve_app.
    destruct (call_trimmed fn tz) as [Hct Hcn]; [done|apply Hq|].
    pose proof (quiet_numeric a Ha) as Hqa. pose proof (quiet_numeric b Hb) as Hqb.
    split_and!; [| |by destruct (call fn tz)].
    2: { apply trimmed_around; [done|done|by apply numeric_trimmed|apply Hqb]. }
    intros sep d Hs. eapply passes_app; [by apply scan_call|].
    rewrite <- !app_assoc, (app_assoc a), app_assoc.
    eapply passes_app; [apply scan_quiet; [done|]|].
    { apply quiet_app; [quiet_units|]. apply quiet_app; [apply Hqa|quiet_const]. }
    eapply passes_app; [apply scan_call; [done| |done]|].
    { by apply quiet_app; [quiet_units|]. }
    apply scan_quiet; [done|]. by apply quiet_app; [quiet_units|].
Qed.

(** *** Reading one part *)

Section Reading.
Context (p : list N) (Hne : nonempty p = true) (Hp : plain p = true).

Lemma not_time_source src k : tryParseTimeCondition (call (source_name src) p ++ k) = None.
Proof. by destruct src. Qed.

Lemma no_call_param_header k : match_call (js "header") (call (js "param") p ++ k) = None.
Proof. done. Qed.

Lemma parse_exists_header :
  tryParseRequestCondition (call (js "header") p ++ js " != " ++ quoted []) =
  Some (ParamHeaderCondition SrcHeader p MATCH_EXISTS []).
Proof.
  unfold tryParseRequestCondition. rewrite (not_time_source SrcHeader).
  unfold match_exists. by rewrite match_call_plain.
Qed.

Lemma parse_exists_param :
  tryParseRequestCondition (call (js "param") p ++ js " != nil") =
  Some (ParamHeaderCondition SrcParam p MATCH_EXISTS []).
Proof.
  unfold tryParseRequestCondition. rewrite (not_time_source SrcParam).
  unfold match_exists. rewrite no_call_param_header. by rewrite match_call_plain.
Qed.

Lemma match_literal_quoted v k : plain v = true -> match_literal (quoted v ++ k) = Some (quoted v, k).
Proof.
  intros Hv. unfold match_literal, quoted. simpl. rewrite <- app_assoc. simpl.
  assert (match_literal_body (v ++ 34%N :: k) = Some (v ++ [34%N], k)) as ->; [|done].
  induction v as [|c v IH]; [done|]. simpl in Hv. breflect.
  apply plain_unit_spec in H as (_ & H34 & H92 & _).
  simpl. rewrite (proj2 (N.eqb_neq c 34)), (proj2 (N.eqb_neq c 92)) by done.
  by rewrite IH.
Qed.

Lemma match_has_written src v :
  plain v = true ->
  match_has (source_name src)
    (js "has" ++ js "(" ++ (call (source_name src) p ++ js ", " ++ quoted v) ++ js ")") = Some (p, quoted v).
Proof.
  intros Hv. unfold match_has.
  change (js "has" ++ js "(" ++ (call (source_name src) p ++ js ", " ++ quoted v) ++ js ")")
    with (js "has(" ++ (call (source_name src) p ++ js ", " ++ quoted v) ++ js ")").
  rewrite strip_prefix_app. cbn [mbind option_bind]. rewrite <- app_assoc, match_call_plain by done.
  rewrite <- app_assoc, strip_prefix_app. cbn [mbind option_bind].
  rewrite match_literal_quoted by done. by rewrite bool_decide_eq_true_2.
Qed.

Lemma decode_quoted v : plain v = true -> tryDecodeStringLiteral (quoted v) = Some v.
Proof.
  intros Hv. unfold tryDecodeStringLiteral, quoted. rewrite <- json_string_plain by done.
  by rewrite decode_json_string by by apply plain_units.
Qed.

Lemma parse_has_header v :
  plain v = true ->
  tryParseRequestCondition (js "has" ++ js "(" ++ (call (js "header") p ++ js ", " ++ quoted v) ++ js ")") =
  Some (ParamHeaderCondition SrcHeader p MATCH_CONTAINS v).
Proof.
  intros Hv. pose proof (match_has_written SrcHeader v Hv) as E. cbn [source_name] in E.
  unfold tryParseRequestCondition. rewrite E, decode_quoted by done. done.
Qed.

Lemma parse_has_param v :
  tryParseRequestCondition (js "has" ++ js "(" ++ (call (js "param") p ++ js ", " ++ quoted v) ++ js ")") = None.
Proof. done. Qed.

Lemma parse_literal_quoted v : plain v = true -> parseExprLiteral (quoted v) = Some (JStr v).
Proof.
  intros Hv. unfold parseExprLiteral. rewrite trim_trimmed by apply quoted_trimmed.
  change (bool_decide (quoted v = js "true")) with false.
  change (bool_decide (quoted v = js "false")) with false.
  change (is_numeric_literal (quoted v)) with false. simpl orb. cbv iota.
  unfold quoted. rewrite <- json_string_plain by done. by apply json_parse_string, plain_units.
Qed.

Lemma parse_literal_raw v :
  v = js "true" \/ v = js "false" \/ is_numeric_literal v = true -> parseExprLiteral v = Some (JStr v).
Proof.
  intros Hv. unfold parseExprLiteral. rewrite trim_trimmed by by apply raw_literal_quiet.
  destruct Hv as [->|[->|Hv]]; [done|done|]. rewrite Hv. by case_match.
Qed.

Lemma match_equals_written src v :
  v <> [] -> forallb (fun c => negb (is_line_terminator c)) v = true ->
  match_equals (call (source_name src) p ++ js " == " ++ v) = Some (src, p, v).
Proof.
  intros Hv Hl. unfold match_equals. destruct src; cbn [first_some fst snd source_name].
  - rewrite match_call_plain by done. rewrite strip_prefix_app. destruct v; [done|]. by rewrite Hl.
  - change (match_call (js "param") (call (js "header") p ++ js " == " ++ v)) with (@None (list N * list N)).
    cbv iota. rewrite match_call_plain by done. rewrite strip_prefix_app. destruct v; [done|]. by rewrite Hl.
Qed.

Lemma parse_equals src v w :
  parseExprLiteral w = Some (JStr v) -> w <> [] -> forallb (fun c => negb (is_line_terminator c)) w = true ->
  tryParseRequestCondition (call (source_name src) p ++ js " == " ++ w) =
  Some (ParamHeaderCondition src p MATCH_EQ v).
Proof.
  intros Hw Hwn Hwl. unfold tryParseRequestCondition. rewrite not_time_source.
  assert (match_exists (call (source_name src) p ++ js " == " ++ w) = None) as ->.
  { unfold match_exists. destruct src; cbn [source_name].
    - rewrite no_call_param_header, match_call_plain by done. done.
    - by rewrite match_call_plain. }
  assert (match_has (js "header") (call (source_name src) p ++ js " == " ++ w) = None) as -> by by destruct src.
  assert (match_param_has (call (source_name src) p ++ js " == " ++ w) = None) as ->.
  { unfold match_param_has. destruct src; [|done]. cbn [source_name]. by rewrite match_call_plain. }
  assert (match_param_compare (call (source_name src) p ++ js " == " ++ w) = None) as ->.
  { unfold match_param_compare. destruct src; [|done]. cbn [source_name]. by rewrite match_call_plain. }
  rewrite match_equals_written by done. by rewrite Hw.
Qed.

Lemma parse_compare mode op v :
  compare_op mode = Some op -> is_numeric_literal v = true ->
  tryParseRequestCondition (call (js "param") p ++ (js " " ++ op ++ js " ") ++ v) = None.
Proof.
  intros Hop Hv. unfold tryParseRequestCondition. rewrite (not_time_source SrcParam).
  apply compare_op_cases in Hop.
  assert (exists c r, (js " " ++ op ++ js " ") ++ v = 32%N :: c :: r /\ (c = 60 \/ c = 62)%N) as (c & r & -> & Hc).
  { destruct Hop as [[_ ->]|[[_ ->]|[[_ ->]|[_ ->]]]]; simpl; eauto 6. }
  unfold match_exists, match_has, match_param_has, match_param_compare, match_equals.
  rewrite no_call_param_header. cbn [first_some fst snd]. rewrite no_call_param_header.
  rewrite !match_call_plain by done.
  by destruct Hc as [-> | ->].
Qed.

Lemma match_time_call_written fn k : fn ∈ TIME_FUNCS -> match_time_call (call fn p ++ k) = Some (fn, p, k).
Proof.
  intros H. unfold match_time_call. pose proof (fun n => match_call_plain n p k Hne Hp) as Hm.
  unfold TIME_FUNCS in H.
  repeat (apply elem_of_cons in H as [->|H];
    [match goal with |- context [call ?n p] => pose proof (Hm n) as E end;
     unfold first_some, TIME_FUNCS, fmap, list_fmap; rewrite E; done|]).
  by apply elem_of_nil in H.
Qed.

Lemma match_time_range_written fn a b k :
  fn ∈ TIME_FUNCS -> is_numeric_literal a = true -> is_numeric_literal b = true ->
  (match k with c :: _ => num_class c = false | [] => True end) ->
  match_time_range ((call fn p ++ js " >= " ++ a ++ js " || " ++ call fn p ++ js " < " ++ b) ++ k) =
  Some (TimeCondition fn p MATCH_RANGE [] a b, k).
Proof.
  intros Hfn Ha Hb Hk. unfold match_time_range. rewrite <- app_assoc, match_time_call_written by done.
  rewrite <- app_assoc, strip_prefix_app. cbn [mbind option_bind].
  rewrite <- app_assoc, match_number_app by done. rewrite <- !app_assoc.
  replace (js " || " ++ call fn p ++ js " < " ++ b ++ k)
    with ((js " || " ++ fn ++ js "(" ++ [34%N] ++ p ++ [34%N] ++ js ") < ") ++ b ++ k) by solve_app.
  rewrite strip_prefix_app. cbn [mbind option_bind]. by rewrite match_number_app.
Qed.

Lemma parse_range fn a b :
  fn ∈ TIME_FUNCS -> is_numeric_literal a = true -> is_numeric_literal b = true ->
  let e := call fn p ++ js " >= " ++ a ++ js " || " ++ call fn p ++ js " < " ++ b in
  tryParseRequestCondition e = Some (TimeCondition fn p MATCH_RANGE [] a b) /\
  tryParseRequestCondition (js "(" ++ e ++ js ")") = Some (TimeCondition fn p MATCH_RANGE [] a b).
Proof.
  intros Hfn Ha Hb e. split.
  - pose proof (match_time_range_written fn a b [] Hfn Ha Hb I) as E. rewrite app_nil_r in E. fold e in E.
    unfold tryParseRequestCondition, tryParseTimeCondition. by rewrite E.
  - pose proof (match_time_range_written fn a b (js ")") Hfn Ha Hb eq_refl) as E. fold e in E.
    unfold tryParseRequestCondition, tryParseTimeCondition.
    change (match_time_range (js "(" ++ e ++ js ")")) with (@None (RequestCondition * list N)). cbv iota.
    rewrite strip_prefix_app. cbn [mbind option_bind]. by rewrite E.
Qed.

Lemma parse_time fn op mode v :
  fn ∈ TIME_FUNCS -> (op, mode) ∈ time_ops -> is_numeric_literal v = true ->
  tryParseRequestCondition (call fn p ++ (js " " ++ op ++ js " ") ++ v) = Some (TimeCondition fn p mode v [] []).
Proof.
  intros Hfn Hop Hv. unfold tryParseRequestCondition, tryParseTimeCondition.
  assert (match_time_range (call fn p ++ (js " " ++ op ++ js " ") ++ v) = None) as ->.
  { unfold match_time_range. rewrite match_time_call_written by done. unfold time_ops in Hop.
    repeat (apply elem_of_cons in Hop as [[= -> ->]|Hop]; [simpl; rewrite ?match_number_all by done; done|]).
    by apply elem_of_nil in Hop. }
  assert (strip_prefix (js "(") (call fn p ++ (js " " ++ op ++ js " ") ++ v) = None) as ->.
  { unfold TIME_FUNCS in Hfn.
    repeat (apply elem_of_cons in Hfn as [->|Hfn]; [done|]). by apply elem_of_nil in Hfn. }
  cbn [mbind option_bind].
  assert (match_time_compare (call fn p ++ (js " " ++ op ++ js " ") ++ v) =
          Some (TimeCondition fn p mode v [] [])) as ->; [|done].
  unfold match_time_compare. rewrite match_time_call_written by done. unfold time_ops in Hop.
  repeat (apply elem_of_cons in Hop as [[= -> ->]|Hop];
    [simpl; unfold match_number_end; rewrite match_number_all by done; done|]).
  by apply elem_of_nil in Hop.
Qed.
End Reading.

(** *** Reading a list of conditions *)

Definition parts_read (c : RequestCondition) (ps : list (list N)) : Prop :=
  Forall part_ok ps /\ ps <> [] /\
  mapM tryParseRequestCondition ps = if readable c then Some [c] else None.

Lemma no_line_terminators s :
  Forall (fun c => is_line_terminator c = false) s -> forallb (fun c => negb (is_line_terminator c)) s = true.
Proof.
  intros H. apply forallb_forall. intros c Hc. apply list_elem_of_In in Hc.
  rewrite Forall_forall in H. by rewrite H.
Qed.

Lemma quoted_one_line v : plain v = true -> forallb (fun c => negb (is_line_terminator c)) (quoted v) = true.
Proof.
  intros Hv. apply no_line_terminators. unfold quoted. repeat (apply Forall_app; split); try by repeat constructor.
  eapply Forall_impl; [by apply plain_forall|]. intros c Hc%plain_unit_spec. tauto.
Qed.

Lemma raw_one_line v :
  v = js "true" \/ v = js "false" \/ is_numeric_literal v = true ->
  forallb (fun c => negb (is_line_terminator c)) v = true.
Proof.
  intros [->|[->|[H _]%is_numeric_literal_class]]; [done|done|]. apply no_line_terminators.
  eapply Forall_impl; [exact H|]. intros c Hc%num_class_spec. tauto.
Qed.

Lemma written_read c ps :
  written c ps -> nonempty (argument c) = true -> plain (argument c) = true -> parts_read c ps.
Proof.
  intros H Hne Hp. destruct (written_parts c ps H Hp) as [Hok Hps]. split_and!; [done|done|].
  clear Hok Hps. destruct H; simpl in Hne, Hp.
  - cbn [mapM]. by rewrite parse_exists_header.
  - cbn [mapM]. by rewrite parse_exists_param.
  - cbn [mapM]. by rewrite parse_has_header.
  - cbn [mapM]. rewrite parse_exists_param, parse_has_param by done. done.
  - cbn [mapM]. rewrite (parse_equals p Hne Hp src v); [by destruct src| | |].
    + by apply parse_literal_raw.
    + by apply raw_literal_quiet.
    + by apply raw_one_line.
  - cbn [mapM]. rewrite (parse_equals p Hne Hp src v); [by destruct src| |done|].
    + by apply parse_literal_quoted.
    + by apply quoted_one_line.
  - cbn [mapM]. rewrite parse_exists_param, (parse_compare p Hne Hp mode op v) by done.
    apply compare_op_cases in H as [[-> _]|[[-> _]|[[-> _]|[-> _]]]]; done.
  - cbn [mapM]. by rewrite (parse_time tz Hne Hp fn op mode).
  - cbn [mapM]. destruct (parse_range tz Hne Hp fn a b) as [-> _]; done.
Qed.

(** The text of one condition among several: a range is put in parentheses. *)
Definition wrap (e : list N) : list N := if includes (js " || ") e then js "(" ++ e ++ js ")" else e.

Lemma no_bar s : Forall (fun c => c <> 124%N) s -> wrap s = s.
Proof.
  intros H. unfold wrap. destruct (includes (js " || ") s) eqn:E; [|done].
  apply includes_eq in E as (a & b & ->). rewrite !Forall_app in H. destruct H as (_ & H & _).
  rewrite Forall_forall in H. destruct (H 124%N); [|done]. by apply list_elem_of_In; right; left.
Qed.

Lemma written_wrap c ps :
  written c ps -> nonempty (argument c) = true -> plain (argument c) = true ->
  exists ps', wrap (join (js " && ") ps) = join (js " && ") ps' /\ parts_read c ps'.
Proof.
  intros H Hne Hp. pose proof (written_read c ps H Hne Hp) as Hr.
  assert (forall s, plain s = true -> Forall (fun c => c <> 124%N) s) as Hpl.
  { intros s Hs. eapply Forall_impl; [by apply plain_forall|]. intros x Hx%plain_unit_spec. tauto. }
  assert (forall s, is_numeric_literal s = true -> Forall (fun c => c <> 124%N) s) as Hnum.
  { intros s [Hs _]%is_numeric_literal_class. eapply Forall_impl; [exact Hs|]. intros x Hx%num_class_spec. tauto. }
  assert (forall v, v = js "true" \/ v = js "false" \/ is_numeric_literal v = true ->
            Forall (fun c => c <> 124%N) v) as Hraw.
  { intros v [->|[->|?]]; [by repeat constructor|by repeat constructor|auto]. }
  destruct H as [p|p|p v Hv|p v Hv|src p v Hv|src p v Hv|p op mode v Hop Hv|fn tz op mode v Hfn Hop Hv|fn tz a b Hfn Ha Hb].
  9: { exists [js "(" ++ (call fn tz ++ js " >= " ++ a ++ js " || " ++ call fn tz ++ js " < " ++ b) ++ js ")"].
       destruct (parse_range tz Hne Hp fn a b) as [_ Hparse]; [done..|].
       split.
       - unfold wrap. cbn [join]. rewrite (proj2 (includes_eq _ _)); [done|].
         exists (call fn tz ++ js " >= " ++ a), (call fn tz ++ js " < " ++ b). solve_app.
       - destruct Hr as (Hok & _ & _). inv Hok. split_and!; [|done|].
         + by repeat constructor; apply part_parens.
         + cbn [mapM]. by rewrite Hparse. }
  all: eexists; (split; [|exact Hr]); apply no_bar; cbn [join]; unfold call, quoted; simpl in Hp;
    rewrite ?Forall_app; split_and?; auto; try (by repeat constructor).
  - destruct src; by repeat constructor.
  - destruct src; by repeat constructor.
  - apply compare_op_cases in Hop as [[_ ->]|[[_ ->]|[[_ ->]|[_ ->]]]]; by repeat constructor.
  - unfold TIME_FUNCS in Hfn.
    repeat (apply elem_of_cons in Hfn as [->|Hfn]; [by repeat constructor|]). by apply elem_of_nil in Hfn.
  - unfold time_ops in Hop.
    repeat (apply elem_of_cons in Hop as [[= -> ->]|Hop]; [by repeat constructor|]). by apply elem_of_nil in Hop.
Qed.

Lemma join_concat sep pss :
  Forall (fun ps => ps <> []) pss -> join sep (join sep <$> pss) = join sep (concat pss).
Proof.
  induction 1 as [|ps pss Hps Hpss IH]; [done|].
  destruct Hpss as [|qs pss Hqs Hpss]; [simpl; by rewrite app_nil_r|].
  rewrite fmap_cons, join_cons by done. rewrite IH. clear IH.
  change (concat (ps :: qs :: pss)) with (ps ++ concat (qs :: pss)).
  assert (concat (qs :: pss) <> []) as Hne by by destruct qs.
  generalize dependent (concat (qs :: pss)). intros k Hk.
  induction ps as [|p ps IH]; [done|]. destruct ps as [|q ps].
  - simpl app. by rewrite !(join_cons _ p).
  - rewrite (join_cons _ p) by done. change ((p :: q :: ps) ++ k) with (p :: (q :: ps) ++ k).
    rewrite (join_cons _ p) by done. rewrite <- !app_assoc. by rewrite IH.
Qed.

Lemma parts_read_conditions cs pss :
  Forall2 parts_read cs pss -> cs <> [] ->
  tryParseRequestConditions (join (js " && ") (concat pss)) = if forallb readable cs then Some cs else None.
Proof.
  intros H Hcs. unfold tryParseRequestConditions, splitTopLevelAnd.
  assert (Forall part_ok (concat pss) /\ concat pss <> []) as [Hok Hne].
  { split.
    - apply Forall_concat. clear Hcs. induction H as [|c ps cs pss (? & _) _ IH]; by constructor.
    - destruct H as [|c ps cs pss (_ & Hps & _) _]; [done|]. by destruct ps. }
  rewrite split_top_level_join; [|apply splits_and| |done].
  2: { eapply Forall_impl; [exact Hok|]. intros p (Hp & ? & ?). split_and!; try done. apply Hp, scan_and. }
  assert (mapM (fun ap => tryParseRequestCondition (trim ap)) (concat pss) =
          mapM tryParseRequestCondition (concat pss)) as ->.
  { clear H Hcs Hne. induction Hok as [|p ps (_ & Ht & _) _ IH]; [done|].
    cbn [mapM]. by rewrite trim_trimmed, IH. }
  assert (mapM tryParseRequestCondition (concat pss) = if forallb readable cs then Some cs else None) as ->.
  { clear Hcs Hok Hne. induction H as [|c ps cs pss (_ & _ & Hr) _ IH]; [done|].
    simpl concat. rewrite mapM_app_option, Hr, IH. simpl.
    by destruct (readable c), (forallb readable cs). }
  destruct (forallb readable cs); [|done]. by destruct cs.
Qed.

(** *** Reading a group *)

Lemma match_factor_written c m :
  c <> [] -> is_numeric_literal m = true ->
  match_factor (js "(" ++ c ++ js " ? " ++ m ++ js " : 1)") = Some (c, m).
Proof.
  intros Hc [Hm Hmn]%is_numeric_literal_class. unfold match_factor. rewrite strip_prefix_app.
  rewrite !reverse_app, <- !app_assoc, strip_prefix_app.
  rewrite span_app; [|by apply Forall_reverse|done].
  destruct (reverse m) eqn:E.
  { apply (f_equal reverse) in E. rewrite reverse_involutive in E. by subst. }
  rewrite <- E, strip_prefix_app.
  destruct (reverse c) eqn:Ec.
  { apply (f_equal reverse) in Ec. rewrite reverse_involutive in Ec. by subst. }
  by rewrite <- Ec, !reverse_involutive.
Qed.

Lemma join_nonempty sep ps : Forall part_ok ps -> ps <> [] -> join sep ps <> [].
Proof.
  intros Hps Hne. destruct Hps as [|p ps (_ & _ & Hp) _]; [done|].
  destruct ps; [done|]. rewrite join_cons by done. by destruct p.
Qed.

(** A group's factor: parentheses around parts that read as its conditions. *)
Lemma group_factor g :
  canonical_group g = true ->
  exists pss, Forall2 parts_read (conditions g) pss /\ is_numeric_literal (multiplier g) = true /\
    buildRuleGroupFactor g =
      js "(" ++ join (js " && ") (concat pss) ++ js " ? " ++ multiplier g ++ js " : 1)".
Proof.
  unfold canonical_group. intros H.
  apply andb_true_iff in H as [[[Hcs Hne%bool_decide_eq_true]%andb_true_iff Hm]%andb_true_iff _].
  assert (forall cs, forallb canonical cs = true -> exists pss,
    Forall2 (fun c ps => written c ps /\ nonempty (argument c) = true /\ plain (argument c) = true) cs pss /\
    buildRequestConditionExpr <$> cs = join (js " && ") <$> pss) as Hw.
  { clear. induction cs as [|c cs IH]; intros H; [exists []; by split; constructor|].
    simpl in H. apply andb_true_iff in H as [Hc Hcs]. destruct (IH Hcs) as (pss & HF & HE).
    destruct (canonical_written c Hc) as (ps & Hw & Hb). destruct (canonical_argument c Hc).
    exists (ps :: pss). rewrite !fmap_cons, HE, Hb. by split; [constructor|]. }
  destruct (Hw _ Hcs) as (pss & HF & HE). clear Hw.
  assert (Forall (fun e => nonempty e = true) (buildRequestConditionExpr <$> conditions g)) as Hall.
  { rewrite HE. clear -HF. induction HF as [|c ps cs pss (Hw & Ha & Hp) _ IH]; rewrite ?fmap_cons; constructor; [|done].
    destruct (written_parts c ps Hw Hp) as [Hok Hn]. pose proof (join_nonempty (js " && ") ps Hok Hn).
    by destruct (join (js " && ") ps). }
  unfold buildRuleGroupFactor. rewrite trim_numeric, Hm by done. cbn [negb].
  rewrite filter_all by done.
  rewrite HE. destruct HF as [|c ps cs pss (Hw & Ha & Hp) HF]; [done|].
  destruct HF as [|d qs cs pss Hd HF].
  { exists [ps]. split_and!; [|done|].
    - constructor; [by apply written_read|constructor].
    - simpl. by rewrite app_nil_r. }
  assert (forall cs pss,
    Forall2 (fun c ps => written c ps /\ nonempty (argument c) = true /\ plain (argument c) = true) cs pss ->
    exists pss', Forall2 parts_read cs pss' /\ wrap <$> (join (js " && ") <$> pss) = join (js " && ") <$> pss') as Hwrap.
  { clear. induction 1 as [|c ps cs pss (Hw & Ha & Hp) _ (pss' & HF & HE)]; [exists []; by split; constructor|].
    destruct (written_wrap c ps Hw Ha Hp) as (ps' & E & Hr).
    exists (ps' :: pss'). rewrite !fmap_cons, HE, E. by split; [constructor|]. }
  destruct (Hwrap (c :: d :: cs) (ps :: qs :: pss)) as (pss' & HF' & HE'); [by constructor; [|constructor]|].
  exists pss'. split_and!; [done|done|].
  rewrite <- join_concat. 2: { clear -HF'. induction HF' as [|??? ? (_ & ? & _) _ IH]; by constructor. }
  rewrite <- HE'. done.
Qed.

Lemma group_read g :
  canonical_group g = true ->
  piece (js " * ") (buildRuleGroupFactor g) /\
  tryParseRuleGroupFactor (buildRuleGroupFactor g) = if readable_group g then Some g else None.
Proof.
  intros Hg. destruct (group_factor g Hg) as (pss & HF & Hm & ->).
  unfold canonical_group in Hg.
  apply andb_true_iff in Hg as [[[_ Hne%bool_decide_eq_true]%andb_true_iff _]%andb_true_iff Hopt].
  assert (Forall part_ok (concat pss) /\ concat pss <> []) as [Hok Hnc].
  { split.
    - apply Forall_concat. clear Hne. induction HF as [|c ps cs pss (? & _) _ IH]; by constructor.
    - destruct HF as [|c ps cs pss (_ & Hps & _) _]; [done|]. by destruct ps. }
  split.
  - replace (js "(" ++ join (js " && ") (concat pss) ++ js " ? " ++ multiplier g ++ js " : 1)")
      with (js "(" ++ (join (js " && ") (concat pss) ++ js " ? " ++ multiplier g ++ js " : 1") ++ js ")") by solve_app.
    split_and!; [|by apply trimmed_around|done].
    eapply (passes_parens _ 42%N); [by eexists|].
    eapply passes_app.
    + clear -Hok. induction Hok as [|p ps (Hp & _) Hps IH]; [done|].
      destruct Hps as [|q ps Hq Hps]; [apply Hp, scan_mul; lia|]. rewrite join_cons by done.
      eapply passes_app; [apply Hp, scan_mul; lia|]. eapply passes_app; [|by apply IH].
      apply passes_deep; [lia|]. by repeat constructor.
    + apply passes_deep; [lia|]. rewrite !Forall_app. split_and!; try (by repeat constructor).
      apply quiet_no_paren. by apply quiet_numeric.
  - unfold tryParseRuleGroupFactor. rewrite match_factor_written; [|by apply join_nonempty|done].
    rewrite (parts_read_conditions (conditions g)) by done.
    unfold readable_group. destruct (forallb readable (conditions g)); [|done].
    destruct g as [cs m [t|] [b|]]; simpl in *; done.
Qed.

Lemma join_pieces_trimmed sep ps :
  Forall (piece sep) ps -> trimmed (join sep ps) /\ (ps <> [] -> join sep ps <> []).
Proof.
  induction 1 as [|p ps (_ & Ht & Hn) Hps IH]; [done|].
  destruct Hps as [|q ps Hq Hps]; [done|]. rewrite join_cons by done.
  destruct IH as [IHt IHn]. split; [|by destruct p]. apply trimmed_around; auto.
Qed.

Lemma rules_read gs :
  forallb canonical_group gs = true ->
  tryParseRequestRuleExpr (buildRequestRuleExpr gs) = if forallb readable_group gs then Some gs else None.
Proof.
  intros Hgs. assert (Forall (fun g => canonical_group g = true) gs) as HF.
  { apply Forall_forall. intros g Hg. apply list_elem_of_In in Hg. revert g Hg. by apply forallb_forall. }
  clear Hgs. unfold buildRequestRuleExpr.
  assert (Forall (piece (js " * ")) (buildRuleGroupFactor <$> gs)) as Hp.
  { apply Forall_fmap. eapply Forall_impl; [exact HF|]. intros g Hg. by apply group_read. }
  rewrite filter_all.
  2: { eapply Forall_impl; [exact Hp|]. intros p (_ & _ & Hn). by destruct p. }
  destruct gs as [|g gs]; [done|].
  assert (buildRuleGroupFactor <$> (g :: gs) <> []) as Hne by done.
  unfold tryParseRequestRuleExpr, splitTopLevelMultiply.
  assert (exists p ps, buildRuleGroupFactor <$> (g :: gs) = p :: ps) as (p & ps & Hps) by by eexists _, _.
  assert (trimmed (join (js " * ") (p :: ps)) /\ join (js " * ") (p :: ps) <> []) as [Ht Hj].
  { rewrite Hps in Hp. destruct (join_pieces_trimmed _ _ Hp). auto. }
  rewrite Hps, trim_trimmed by done.
  destruct (nonempty (join (js " * ") (p :: ps))) eqn:E; [|by destruct (join (js " * ") (p :: ps))].
  cbn [negb]. rewrite <- Hps, split_top_level_join; [|apply splits_mul|done|done].
  clear -HF. revert HF. generalize (g :: gs). clear. intros gs HF.
  induction HF as [|g gs Hg HF IH]; [done|]. rewrite fmap_cons. cbn [mapM].
  destruct (group_read g Hg) as [_ ->]. simpl forallb.
  destruct (readable_group g); [|done]. simpl. rewrite IH. by destruct (forallb readable_group gs).
Qed.

(** C5: For groups in normal shape (conditions with only the fields of their mode, texts
    trimmed and free of quotes, backslashes, parentheses, ampersands, bars and control
    characters, numeric literals for numbers and multipliers), the rules the editor writes
    are read back exactly when no condition is written with a top-level [" && "]:
    [tryParseRequestRuleExpr (buildRequestRuleExpr gs)] is [gs] itself if every condition
    is readable, and fails as soon as one group has a request-parameter condition with the
    mode contains, gt, gte, lt or lte: the reader splits such a condition's own text at its
    [" && "].  Outside the normal shape a written rule may be lost
    ([parenthesis_unread]). *)
Theorem request_rules_read_back (gs : list RequestRuleGroup) :
  forallb canonical_group gs = true ->
  tryParseRequestRuleExpr (buildRequestRuleExpr gs) = if forallb readable_group gs then Some gs else None.
Proof. apply rules_read. Qed.

Definition sample_rules : list RequestRuleGroup :=
  [mkGroup [ParamHeaderCondition SrcParam (js "service_tier") MATCH_EQ (js "fast");
            TimeCondition (js "hour") (js "Asia/Shanghai") MATCH_RANGE [] (js "22") (js "6")] (js "1.5") None None;
   mkGroup [ParamHeaderCondition SrcHeader (js "x-beta") MATCH_CONTAINS (js "long context")] (js "2e0") None None].

(** The reader counts the parentheses of the texts: with a second group, a value with an
    opening one hides the separator of the groups. *)
Example parenthesis_unread :
  tryParseRequestRuleExpr (buildRequestRuleExpr
    [mkGroup [ParamHeaderCondition SrcHeader (js "x-client") MATCH_EQ (js "app (beta")] (js "2") None None;
     mkGroup [ParamHeaderCondition SrcHeader (js "x-tier") MATCH_EQ (js "fast")] (js "3") None None]) = None.
Proof. vm_compute. reflexivity. Qed.

Definition unreadable_rules : list RequestRuleGroup :=
  [mkGroup [ParamHeaderCondition SrcParam (js "n") MATCH_GT (js "1")] (js "2") None None].

Lemma request_rules_read_back_witness :
  tryParseRequestRuleExpr (buildRequestRuleExpr sample_rules) = Some sample_rules /\
  tryParseRequestRuleExpr (buildRequestRuleExpr unreadable_rules) = None.
Proof.
  split.
  - refine (eq_trans (request_rules_read_back sample_rules _) _); vm_compute; reflexivity.
  - refine (eq_trans (request_rules_read_back unreadable_rules _) _); vm_compute; reflexivity.
Defined.

(** ** Saving and reopening a price with rules *)

(** Parentheses close in order: no prefix of [s] closes more than it opens. *)
Fixpoint balanced (d : Z) (s : list N) : bool :=
  match s with
  | [] => (d =? 0)%Z
  | c :: s' => let d' := paren_depth d c in (0 <=? d')%Z && balanced d' s'
  end.

Lemma paren_depth_shift d c : paren_depth (1 + d) c = (1 + paren_depth d c)%Z.
Proof. unfold paren_depth. repeat case_match; lia. Qed.

Lemma balanced_passes sep s d :
  (0 <= d)%Z -> balanced d s = true -> passes sep (1 + d) s 1.
Proof.
  revert d. induction s as [|c s IH]; intros d Hd Hb cur k; simpl in Hb; breflect.
  - by subst.
  - simpl. rewrite paren_depth_shift, (proj2 (Z.eqb_neq _ _)) by lia. simpl.
    rewrite IH by done. by rewrite reverse_cons, <- app_assoc.
Qed.

Lemma balanced_full s d :
  (0 <= d)%Z -> balanced d s = true -> full_parens_loop (1 + d) (s ++ js ")") = true.
Proof.
  revert d. induction s as [|c s IH]; intros d Hd Hb; simpl in Hb; breflect.
  - by subst.
  - simpl. rewrite paren_depth_shift, (proj2 (Z.eqb_neq _ _)) by lia. simpl. by apply IH.
Qed.

Lemma full_outer_wrapped base :
  balanced 0 base = true -> hasFullOuterParens (js "(" ++ base ++ js ")") = true.
Proof.
  intros Hb. unfold hasFullOuterParens.
  assert (ends_with (js ")") (js "(" ++ base ++ js ")") = true) as ->.
  { unfold ends_with. apply starts_with_eq. rewrite !reverse_app. simpl. by eexists. }
  change (full_parens_loop (1 + 0) (base ++ js ")") = true). by apply balanced_full.
Qed.

(** The base comes out of the parentheses it was put in. *)
Lemma unwrap_wrapped base :
  trimmed base -> balanced 0 base = true -> hasFullOuterParens base = false ->
  unwrapOuterParens (js "(" ++ base ++ js ")") = base.
Proof.
  intros Ht Hb Hf. unfold unwrapOuterParens. rewrite trim_trimmed by by apply trimmed_around.
  cbn [unwrap_loop]. rewrite full_outer_wrapped by done.
  assert (slice_inner (js "(" ++ base ++ js ")") = base) as ->.
  { unfold slice_inner. simpl. apply removelast_last. }
  rewrite trim_trimmed by done.
  destruct (length (js "(" ++ base ++ js ")")) as [|n] eqn:E; [done|]. cbn [unwrap_loop]. by rewrite Hf.
Qed.

(** The factors of canonical groups are pieces, and each reads as a rule. *)
Lemma factors_pieces gs :
  forallb canonical_group gs = true -> forallb readable_group gs = true ->
  Forall (fun p => piece (js " * ") p /\ is_rule_part p = true) (buildRuleGroupFactor <$> gs).
Proof.
  induction gs as [|g gs IH]; intros Hc Hr; [constructor|]. simpl in Hc, Hr.
  apply andb_true_iff in Hc as [Hcg Hc]. apply andb_true_iff in Hr as [Hrg Hr].
  rewrite fmap_cons. constructor; [|auto].
  pose proof (rules_read [g]) as Hg. simpl in Hg. rewrite Hcg, Hrg in Hg. specialize (Hg eq_refl).
  destruct (group_read g Hcg) as [Hp _]. split; [done|].
  unfold is_rule_part. unfold buildRequestRuleExpr in Hg. rewrite filter_all in Hg.
  - rewrite fmap_cons in Hg. simpl join in Hg. by rewrite Hg.
  - constructor; [|constructor]. destruct Hp as (_ & _ & Hn). by destruct (buildRuleGroupFactor g).
Qed.

Lemma build_rules_join gs :
  forallb canonical_group gs = true -> forallb readable_group gs = true ->
  buildRequestRuleExpr gs = join (js " * ") (buildRuleGroupFactor <$> gs).
Proof.
  intros Hc Hr. unfold buildRequestRuleExpr. rewrite filter_all; [done|].
  eapply Forall_impl; [by apply factors_pieces|]. intros p [(_ & _ & Hn) _]. by destruct p.
Qed.

Lemma combined_splits (base : list N) (gs : list RequestRuleGroup) :
  trim base = base -> base <> [] -> balanced 0 base = true -> hasFullOuterParens base = false ->
  is_rule_part (js "(" ++ base ++ js ")") = false ->
  gs <> [] -> forallb canonical_group gs = true -> forallb readable_group gs = true ->
  splitBillingExprAndRequestRules (combineBillingExpr base (buildRequestRuleExpr gs)) =
  (base, buildRequestRuleExpr gs).
Proof.
  intros Hb Hbn Hbal Hfull Hnr Hgs Hc Hr.
  assert (trimmed base) as Hbt by (rewrite <- Hb; apply trim_is_trimmed).
  pose proof (factors_pieces gs Hc Hr) as Hfs.
  rewrite build_rules_join by done.
  assert (buildRuleGroupFactor <$> gs <> []) as Hne by by destruct gs.
  generalize dependent (buildRuleGroupFactor <$> gs). clear gs Hgs Hc Hr. intros ps Hps Hne.
  assert (Forall (piece (js " * ")) ps) as Hpc by (eapply Forall_impl; [exact Hps|]; by intros ? [? _]).
  destruct (join_pieces_trimmed _ ps Hpc) as [Hjt Hjn]. specialize (Hjn Hne).
  unfold combineBillingExpr. rewrite Hb, (trim_trimmed (join _ ps)) by done.
  assert (forall s, s <> [] -> nonempty s = true) as Hnon by by intros [].
  rewrite !Hnon by done. cbn [negb].
  replace (js "(" ++ base ++ js ") * " ++ join (js " * ") ps)
    with (join (js " * ") ((js "(" ++ base ++ js ")") :: ps)) by (rewrite join_cons by done; solve_app).
  assert (piece (js " * ") (js "(" ++ base ++ js ")")) as Hbp.
  { split_and!; [|by apply trimmed_around|done]. eapply (passes_parens _ 42%N); [by eexists|].
    by apply (balanced_passes _ _ 0). }
  destruct (join_pieces_trimmed (js " * ") ((js "(" ++ base ++ js ")") :: ps)) as [Hat Han]; [by constructor|].
  unfold splitBillingExprAndRequestRules. rewrite (trim_trimmed (join _ _)) by done.
  rewrite Hnon by by apply Han. cbn [negb]. unfold splitTopLevelMultiply.
  rewrite split_top_level_join; [|apply splits_mul|by constructor|done].
  assert (length ((js "(" ++ base ++ js ")") :: ps) <=? 1 = false)%nat as ->.
  { apply Nat.leb_gt. destruct ps; [done|]. simpl. lia. }
  rewrite filter_cons_False by (by rewrite Hnr). rewrite filter_cons_True by done.
  rewrite filter_all, filter_none.
  - destruct ps; [done|]. by rewrite unwrap_wrapped.
  - eapply Forall_impl; [exact Hps|]. intros p [_ ->]. done.
  - eapply Forall_impl; [exact Hps|]. by intros p [_ ?].
Qed.

(** Saving and reopening a price.  A base expression (trimmed, balanced, not
    itself in one pair of parentheses, not itself a rule) combined by
    [combineBillingExpr] with the rules the editor writes for readable groups is
    split by [splitBillingExprAndRequestRules] into the same base and the same
    rules. *)
Theorem combine_split_roundtrip (base : list N) (gs : list RequestRuleGroup) :
  trim base = base -> base <> [] -> balanced 0 base = true -> hasFullOuterParens base = false ->
  is_rule_part (js "(" ++ base ++ js ")") = false ->
  gs <> [] -> forallb canonical_group gs = true -> forallb readable_group gs = true ->
  splitBillingExprAndRequestRules (combineBillingExpr base (buildRequestRuleExpr gs)) =
  (base, buildRequestRuleExpr gs).
Proof. apply combined_splits. Qed.

Definition sample_base : list N := js "p <= 200000 ? (p * 3 + c * 15) : (p * 6 + c * 22.5)".

Lemma combine_split_roundtrip_witness :
  splitBillingExprAndRequestRules (combineBillingExpr sample_base (buildRequestRuleExpr sample_rules)) =
  (sample_base, buildRequestRuleExpr sample_rules).
Proof. apply combine_split_roundtrip; first [discriminate | vm_compute; reflexivity]. Defined.
