(* ===== verification/TierSplit.v ===== *)
(** * A written tier expression can be told from its rules

    The text [generateExprFromVisualConfig] writes, combined with the rules the editor
    writes, is split by [splitBillingExprAndRequestRules] into the same two texts, when
    the labels hold no parentheses. *)
From S2P Require Import Prelude JsString JsNumber BillingLexer JsNumberPrint JsJsonPrint BillingTiers BillingText BillingRules BillingRuleRoundtrip VisualTiers VisualRoundtrip.
From Stdlib Require Import Lia.

(** Text without parentheses, and such text without a star. *)
Notation flat := (Forall no_paren).
Notation starless := (Forall (fun c => no_paren c /\ c <> 42%N)).

Lemma starless_flat s : starless s -> flat s.
Proof. intros H. eapply Forall_impl; [exact H|]. by intros c [? _]. Qed.

(** Text that leaves the depth of the parentheses as it was. *)
Definition tidy (s : list N) : Prop := forall d k, (0 <= d)%Z -> balanced d (s ++ k) = balanced d k.

Lemma tidy_flat s : flat s -> tidy s.
Proof.
  intros H. induction H as [|c s Hc _ IH]; intros d k Hd; [done|]. simpl. rewrite paren_depth_plain by done.
  rewrite (proj2 (Z.leb_le _ _)) by done. by apply IH.
Qed.

Lemma tidy_app a b : tidy a -> tidy b -> tidy (a ++ b).
Proof. intros Ha Hb d k Hd. rewrite <- app_assoc. by rewrite Ha, Hb. Qed.

Lemma tidy_parens s : tidy s -> tidy (js "(" ++ s ++ js ")").
Proof.
  intros Hs d k Hd. rewrite <- !app_assoc. cbn -[balanced]. change (balanced d (js "(" ++ s ++ js ")" ++ k) = balanced d k).
  change (balanced d (js "(" ++ s ++ js ")" ++ k)) with ((0 <=? d + 1)%Z && balanced (d + 1) (s ++ js ")" ++ k)).
  rewrite (proj2 (Z.leb_le 0 (d + 1))) by lia. rewrite Hs by lia. cbn [andb].
  change (balanced (d + 1) (js ")" ++ k)) with ((0 <=? d + 1 - 1)%Z && balanced (d + 1 - 1) k).
  replace (d + 1 - 1)%Z with d by lia. by rewrite (proj2 (Z.leb_le 0 d)).
Qed.

(** A tier with what is written before it: no star outside of the parentheses. *)
Definition linked (s : list N) : Prop :=
  exists a b, s = a ++ js "tier" ++ js "(" ++ b ++ js ")" /\ starless a /\ flat b.

Lemma starless_const s : forallb (fun c => negb (c =? 40)%N && negb (c =? 41)%N && negb (c =? 42)%N) s = true -> starless s.
Proof.
  intros H. apply Forall_forall. intros c Hc. rewrite forallb_forall in H. apply list_elem_of_In in Hc.
  specialize (H c Hc). apply andb_true_iff in H as [[H1 H2]%andb_true_iff H3].
  apply negb_true_iff, N.eqb_neq in H1, H2, H3. unfold no_paren, ch. simpl. done.
Qed.

Lemma linked_before u s : starless u -> linked s -> linked (u ++ s).
Proof. intros Hu (a & b & -> & Ha & Hb). exists (u ++ a), b. rewrite <- app_assoc. split_and!; [done|by apply Forall_app|done]. Qed.

Lemma linked_tidy s : linked s -> tidy s.
Proof.
  intros (a & b & -> & Ha & Hb). apply tidy_app; [by apply tidy_flat, starless_flat|].
  apply tidy_app; [apply tidy_flat, starless_flat, starless_const; reflexivity|]. by apply tidy_parens, tidy_flat.
Qed.

Lemma linked_passes s : linked s -> passes (js " * ") 0 s 0.
Proof.
  intros (a & b & -> & Ha & Hb). rewrite (app_assoc a). eapply passes_app.
  - eapply (passes_text _ 42%N); [by eexists| |by rewrite last_app]. apply Forall_app. split; [done|]. by apply starless_const.
  - eapply (passes_parens _ 42%N); [by eexists|]. by apply passes_deep.
Qed.

(** ** The pieces of a written text *)

Lemma digits_starless s : all_digits s -> starless s.
Proof. intros H. eapply Forall_impl; [exact H|]. intros c Hc%is_digit_spec. unfold no_paren, ch. simpl. lia. Qed.

Lemma number_starless x : printable x = true -> starless (num_to_string x).
Proof.
  intros Hx. destruct (num_to_string_numeral x Hx) as (t & Ht & ->). apply Forall_app. split.
  { destruct (negative x); by apply starless_const. }
  destruct Ht as [i f et e Hi _ _ Hf He]. apply Forall_app. split; [by apply digits_starless|]. apply Forall_app. split.
  - destruct f; [constructor|]. apply (Forall_app _ [46%N]). split; [by apply starless_const|by apply digits_starless].
  - destruct He as [|neg ds Hds _]; [constructor|]. apply Forall_app. split; [by apply starless_const|].
    apply Forall_app. split; [destruct neg; by apply starless_const|by apply digits_starless].
Qed.

Lemma words_starless : Forall (fun v : list N => starless v) (allowedVars ++ allowedOps ++ BILLING_VAR_KEY_TO_FIELD.*1).
Proof. repeat (constructor; [by apply starless_const|]). constructor. Qed.

Lemma word_starless v : v ∈ allowedVars ++ allowedOps ++ BILLING_VAR_KEY_TO_FIELD.*1 -> starless v.
Proof. intros H. exact (proj1 (Forall_forall _ _) words_starless v H). Qed.

Lemma join_forall (P : N -> Prop) sep ps : Forall P sep -> Forall (fun p : list N => Forall P p) ps -> Forall P (join sep ps).
Proof.
  intros Hs H. induction H as [|p ps Hp H IH]; [constructor|]. destruct ps as [|q ps]; [done|].
  rewrite join_cons by done. by repeat (apply Forall_app; split).
Qed.

Lemma cond_starless c : cond_ok c = true -> starless (cond_text c).
Proof.
  unfold cond_ok. intros H. breflect. unfold cond_text.
  repeat (apply Forall_app; split); try (by apply starless_const); [..|by apply number_starless];
    apply word_starless; rewrite !elem_of_app; auto.
Qed.

Lemma term_flat vk : term_ok vk = true -> flat (cost_part vk.1 vk.2).
Proof.
  unfold term_ok. intros H. breflect. unfold cost_part. repeat (apply Forall_app; split).
  - apply starless_flat, word_starless. rewrite !elem_of_app. auto.
  - repeat constructor; discriminate.
  - by apply starless_flat, number_starless.
Qed.

Lemma label_flat l : plain l = true -> flat (json_string l).
Proof.
  intros H. rewrite json_string_plain by done. apply Forall_app. split; [repeat constructor; discriminate|].
  apply Forall_app. split; [by apply quiet_no_paren, plain_quiet_units|repeat constructor; discriminate].
Qed.

Lemma body_linked w : w_ok w = true -> plain (w_label w) = true -> linked (body_text w).
Proof.
  intros (_ & _ & _ & Ht & _)%w_ok_spec Hl. unfold body_text.
  exists [], (json_string (w_label w) ++ js ", " ++ terms_text (w_terms w)).
  split; [cbn; rewrite <- !app_assoc; done|]. split; [constructor|].
  apply Forall_app. split; [by apply label_flat|]. apply Forall_app. split; [repeat constructor; discriminate|].
  unfold terms_text, chain_text. apply join_forall; [repeat constructor; discriminate|].
  apply Forall_forall. intros p (vk & -> & Hvk)%list_elem_of_fmap. apply term_flat.
  rewrite forallb_forall in Ht. by apply Ht, list_elem_of_In.
Qed.

Lemma written_linked w : w_ok w = true -> plain (w_label w) = true -> linked (w_text w).
Proof.
  intros Hw Hl. pose proof (body_linked w Hw Hl) as Hb. unfold w_text.
  destruct (w_conds w) as [|c cs] eqn:E; [done|]. rewrite app_assoc. apply linked_before; [|done].
  apply Forall_app. split; [|by apply starless_const]. apply w_ok_spec in Hw as (Hc & _).
  unfold conds_text, chain_text. apply join_forall; [by apply starless_const|].
  apply Forall_forall. intros p (x & -> & Hx)%list_elem_of_fmap. apply cond_starless.
  rewrite forallb_forall in Hc. by apply Hc, list_elem_of_In.
Qed.

(** A chain of tiers is balanced and is not cut. *)
Lemma chain_linked ws : Forall linked ws -> ws <> [] ->
  tidy (chain_text ":" ws) /\ passes (js " * ") 0 (chain_text ":" ws) 0.
Proof.
  intros H Hne. destruct H as [|w ws Hw H]; [done|]. clear Hne. revert w Hw. induction H as [|v ws Hv H IH]; intros w Hw.
  - split; [by apply linked_tidy|by apply linked_passes].
  - assert (chain_text ":" (w :: v :: ws) = w ++ chain_text ":" ((js " : " ++ v) :: ws)) as ->.
    { unfold chain_text. destruct ws as [|u ws]; [done|]. rewrite !join_cons by done. by rewrite <- !app_assoc. }
    destruct (IH (js " : " ++ v)) as [H1 H2]; [apply linked_before; [by apply starless_const|done]|].
    split; [by apply tidy_app; [apply linked_tidy|]|]. eapply passes_app; [by apply linked_passes|done].
Qed.

(** ** Telling the base from the rules *)

Lemma not_factor part : (forall r, part <> js "(" ++ r) \/ (exists a c, part = a ++ [c; 41%N] /\ c <> 49%N) ->
  tryParseRuleGroupFactor part = None.
Proof.
  intros H. unfold tryParseRuleGroupFactor, match_factor.
  destruct (strip_prefix (js "(") part) as [s|] eqn:E; [|done]. apply strip_prefix_eq in E.
  destruct H as [H|(a & c & Ha & Hc)]; [by destruct (H s)|].
  destruct (strip_prefix (reverse (js " : 1)")) (reverse s)) as [r|] eqn:E'; [|done]. exfalso.
  apply strip_prefix_eq in E'. apply (f_equal reverse) in E'. rewrite reverse_involutive, reverse_app, reverse_involutive in E'.
  assert (exists b, part = b ++ [49%N; 41%N]) as [b Hb].
  { exists (js "(" ++ reverse r ++ js " : "). rewrite E, E', <- !app_assoc. done. }
  rewrite Ha in Hb. apply (f_equal reverse) in Hb. rewrite !reverse_app in Hb. injection Hb as Hb _. done.
Qed.

Lemma not_rule part : piece (js " * ") part -> tryParseRuleGroupFactor part = None -> is_rule_part part = false.
Proof.
  intros Hp Hn. unfold is_rule_part, tryParseRequestRuleExpr, splitTopLevelMultiply. pose proof Hp as (_ & Ht & Hne).
  rewrite trim_trimmed by done. destruct (nonempty part) eqn:E; [|by destruct part]. cbn [negb].
  pose proof (split_top_level_join (js " * ") [part] splits_mul) as Hs. cbn [join] in Hs.
  rewrite Hs; [|by apply Forall_singleton|done]. simpl. by rewrite Hn.
Qed.

(** A text that starts like a tier expression is no rule. *)
Lemma opens_not_factor s : opens s -> tryParseRuleGroupFactor s = None.
Proof.
  intros (c & r & -> & Hc). apply not_factor. left. intros r' E. injection E as -> _.
  apply list_elem_of_In in Hc. vm_compute in Hc. repeat (destruct Hc as [Hc|Hc]; [discriminate|]). done.
Qed.

(** The shapes of a written text. *)
Inductive written_shape (g : list N) : Prop :=
| shape_chain : passes (js " * ") 0 g 0 -> (exists a c, g = a ++ [c] /\ c <> 49%N) -> written_shape g
| shape_alone w : linked w -> opens w -> g = w ++ js " : p * 0 + c * 0" -> written_shape g.

Lemma split_alone g w : linked w -> opens w -> g = w ++ js " : p * 0 + c * 0" ->
  Forall (piece (js " * ")) [w ++ js " : p"; js "0 + c"; js "0"] /\ g = join (js " * ") [w ++ js " : p"; js "0 + c"; js "0"].
Proof.
  intros Hl Ho ->. split; [|by cbn [join]; rewrite <- !app_assoc].
  assert (forall s, starless s -> last s <> Some 32%N -> passes (js " * ") 0 s 0) as Hx.
  { intros s Hs Hls. by eapply (passes_text _ 42%N); [by eexists|..]. }
  repeat constructor; try (by apply Hx; [apply starless_const|]); try done.
  - eapply passes_app; [by apply linked_passes|]. by apply Hx; [apply starless_const|].
  - destruct Ho as (c & r & -> & Hc). cbn. apply list_elem_of_In in Hc. vm_compute in Hc.
    by repeat (destruct Hc as [<-|Hc]; [done|]).
  - rewrite reverse_app. done.
  - by destruct w.
Qed.

(** Without rules, the text is the base. *)
Lemma split_written g : written_shape g -> opens g -> closed g -> splitBillingExprAndRequestRules g = (g, []).
Proof.
  intros Hsh Ho Hc. destruct (text_trimmed g Ho Hc) as [Ht _]. pose proof (opens_nonempty g Ho) as Hne.
  unfold splitBillingExprAndRequestRules. rewrite trim_trimmed by done.
  destruct (nonempty g) eqn:E; [|by destruct g]. cbn [negb]. unfold splitTopLevelMultiply.
  destruct Hsh as [Hp _|w Hl How Hg].
  - pose proof (split_top_level_join (js " * ") [g] splits_mul) as Hs. cbn [join] in Hs.
    rewrite Hs; [done| |done]. by apply Forall_singleton.
  - destruct (split_alone g w Hl How Hg) as [Hps Hj]. 
    assert (split_top_level (js " * ") g = [w ++ js " : p"; js "0 + c"; js "0"]) as ->.
    { rewrite Hj. by apply (split_top_level_join (js " * ") _ splits_mul Hps). }
    cbn [length Nat.leb].
    rewrite filter_none; [done|].
    assert (Forall (fun p => tryParseRuleGroupFactor p = None) [w ++ js " : p"; js "0 + c"; js "0"]) as Hn.
    { constructor; [by apply opens_not_factor, opens_app|]. by repeat constructor. }
    eapply Forall_impl; [apply Forall_and; exact (conj Hps Hn)|]. intros p [Hp Hf]. cbn. by rewrite not_rule.
Qed.

Lemma wrapped_not_rule g : tidy g -> trimmed g -> g <> [] -> (exists a c, g = a ++ [c] /\ c <> 49%N) ->
  is_rule_part (js "(" ++ g ++ js ")") = false.
Proof.
  intros Hb Ht Hne (a & c & Hg & Hc). apply not_rule.
  - split_and!; [|by apply trimmed_around|done]. eapply (passes_parens _ 42%N); [by eexists|].
    apply (balanced_passes _ _ 0); [done|]. pose proof (Hb 0%Z [] (Z.le_refl _)) as H. rewrite app_nil_r in H. by rewrite H.
  - apply not_factor. right. exists (js "(" ++ a), c. rewrite Hg. split; [|done]. by rewrite <- !app_assoc.
Qed.

Lemma split_with_rules g gs :
  written_shape g -> tidy g -> opens g -> closed g ->
  forallb canonical_group gs = true -> forallb readable_group gs = true ->
  splitBillingExprAndRequestRules (combineBillingExpr g (buildRequestRuleExpr gs)) = (g, buildRequestRuleExpr gs).
Proof.
  intros Hsh Hb Ho Hc Hgc Hgr. destruct (text_trimmed g Ho Hc) as [Ht _]. pose proof (opens_nonempty g Ho) as Hne.
  destruct gs as [|x gs].
  { unfold combineBillingExpr. rewrite trim_trimmed by done. destruct (nonempty g) eqn:E; [|by destruct g].
    cbn. by apply split_written. }
  apply combined_splits; try done.
  - by rewrite trim_trimmed.
  - pose proof (Hb 0%Z [] (Z.le_refl _)) as H. rewrite app_nil_r in H. by rewrite H.
  - unfold hasFullOuterParens. destruct Ho as (c & r & -> & Hcc). apply list_elem_of_In in Hcc. vm_compute in Hcc.
    by repeat (destruct Hcc as [<-|Hcc]; [done|]).
  - apply wrapped_not_rule; [done..|]. destruct Hsh as [_ H|w _ _ ->]; [done|].
    exists (w ++ js " : p * 0 + c * "), 48%N. rewrite <- app_assoc. done.
Qed.

(** ** The text of a configuration *)

(** Labels without parentheses, quotes, ampersands or bars. *)
Definition plain_labels (tiers : list VisualTier) : bool := forallb (fun t => plain (default [] (tier_label t))) tiers.

Lemma plain_label_or t fallback : plain (default [] (tier_label t)) = true -> plain fallback = true -> plain (label_or t fallback) = true.
Proof. unfold label_or. by destruct (tier_label t) as [[|? ?]|]. Qed.

Lemma tier_name_plain i : plain (js "tier_" ++ dec_string (N.of_nat (S i))) = true.
Proof.
  unfold plain. rewrite forallb_app. apply andb_true_iff. split; [done|]. apply forallb_forall. intros c Hc%list_elem_of_In.
  pose proof (proj1 (Forall_forall _ _) (dec_string_digits _) c Hc) as Hd%is_digit_spec.
  assert (c ∈ js "0123456789") as H.
  { apply list_elem_of_In. vm_compute. assert (c = 48 \/ c = 49 \/ c = 50 \/ c = 51 \/ c = 52 \/ c = 53 \/ c = 54 \/ c = 55 \/ c = 56 \/ c = 57)%N by lia. naive_solver. }
  revert H. apply (proj1 (Forall_forall (fun c => plain_unit c = true) (js "0123456789"))). by repeat constructor.
Qed.

(** A configuration within the limits of the expression language: its numbers and
    labels can be written, and its text is not too long. *)
Definition saveable (tiers : list VisualTier) : bool :=
  (1 <=? length tiers)%nat && (length tiers <=? MAX_EXPR_DEPTH)%nat && forallb writable tiers &&
  (length (generateExprFromVisualConfig (Some tiers)) <=? MAX_EXPR_LENGTH)%nat &&
  (length (config_tokens tiers) <=? MAX_EXPR_TOKENS)%nat && plain_labels tiers.

Lemma saveable_spec (tiers : list VisualTier) : saveable tiers = true ->
  tiers <> [] /\ (length tiers <= MAX_EXPR_DEPTH)%nat /\ forallb writable tiers = true /\
  (length (generateExprFromVisualConfig (Some tiers)) <= MAX_EXPR_LENGTH)%nat /\
  (length (config_tokens tiers) <= MAX_EXPR_TOKENS)%nat /\ plain_labels tiers = true.
Proof.
  unfold saveable. intros (((((H1 & H2)%andb_true_iff & H3)%andb_true_iff & H4)%andb_true_iff & H5)%andb_true_iff & H6)%andb_true_iff.
  apply Nat.leb_le in H1, H2, H4, H5. split_and!; try done. by destruct tiers; [simpl in H1; lia|].
Qed.

Lemma config_shape (tiers : list VisualTier) : saveable tiers = true ->
  let g := generateExprFromVisualConfig (Some tiers) in written_shape g /\ tidy g /\ opens g /\ closed g.
Proof.
  intros (Hne & Hd & Hw & Hfl & Hft & Hp)%saveable_spec. destruct (decide (2 <= length tiers)%nat) as [H2|H2].
  - pose proof (several_ends tiers H2 Hw Hd Hfl Hft) as [Ho Hc]. cbn zeta. rewrite (generate_several tiers H2) in Ho, Hc |- *.
    assert (Forall linked (map w_text (imap (written (length tiers)) tiers))) as Hl.
    { apply Forall_forall. intros p (w & -> & Hx)%list_elem_of_fmap. apply list_elem_of_lookup in Hx as [i Hi].
      rewrite list_lookup_imap in Hi. destruct (tiers !! i) as [t|] eqn:E; [|done]. injection Hi as <-.
      apply list_elem_of_lookup_2, list_elem_of_In in E. unfold plain_labels in Hp. rewrite forallb_forall in Hw, Hp.
      apply written_linked; [by apply written_ok, Hw|]. apply plain_label_or; [by apply Hp|apply tier_name_plain]. }
    destruct (chain_linked _ Hl) as [Ht Hps]; [by destruct tiers|]. split; [|done]. apply shape_chain; [done|].
    destruct Hc as (q & c & Hq & _). destruct (exists_last (l := map w_text (imap (written (length tiers)) tiers))) as (ws & x & E);
      [by destruct tiers|]. rewrite E in *. apply Forall_app in Hl as [_ Hx]. inversion Hx as [|? ? (a & b & -> & _ & _) _]; subst.
    assert (exists z, chain_text ":" (ws ++ [a ++ js "tier" ++ js "(" ++ b ++ js ")"]) = z ++ [41%N]) as [z Hz].
    { clear. induction ws as [|w ws [z IH]]; [exists (a ++ js "tier" ++ js "(" ++ b); cbn; by rewrite <- !app_assoc|].
      unfold chain_text in *. cbn [app]. rewrite join_cons by by destruct ws. rewrite IH.
      exists (w ++ (js " " ++ js ":" ++ js " ") ++ z). by rewrite <- !app_assoc. }
    by exists z, 41%N.
  - destruct tiers as [|t [|]]; [done| |simpl in H2; lia]. unfold plain_labels in Hp. simpl in Hw, Hp.
    apply andb_true_iff in Hw as [Hw _]. apply andb_true_iff in Hp as [Hp _].
    pose proof (alone_ends t Hw) as [Ho Hc]. cbn zeta. rewrite (generate_alone t) in Ho, Hc |- *.
    pose proof (written_alone_ok t Hw) as Hok.
    assert (plain (w_label (written_alone t)) = true) as Hpl by by apply plain_label_or.
    destruct (kept_conditions t) as [|c cs] eqn:E.
    + pose proof (body_linked _ Hok Hpl) as Hl. split_and!; [|by apply linked_tidy|done..].
      apply shape_chain; [by apply linked_passes|]. destruct Hl as (a & b & -> & _). exists (a ++ js "tier" ++ js "(" ++ b), 41%N.
      split; [by rewrite <- !app_assoc|done].
    + pose proof (written_linked _ Hok Hpl) as Hl. pose proof (w_opens _ Hok) as How.
      assert (chain_text ":" [w_text (written_alone t); terms_text no_terms] = w_text (written_alone t) ++ js " : p * 0 + c * 0") as Hg by reflexivity.
      split_and!; [by eapply shape_alone| |done..]. rewrite Hg. apply tidy_app; [by apply linked_tidy|].
      apply tidy_flat. repeat constructor; discriminate.
Qed.

(** The editor's own texts are told apart. *)
Lemma config_split (tiers : list VisualTier) gs :
  saveable tiers = true -> forallb canonical_group gs = true -> forallb readable_group gs = true ->
  let g := generateExprFromVisualConfig (Some tiers) in
  splitBillingExprAndRequestRules (combineBillingExpr g (buildRequestRuleExpr gs)) = (g, buildRequestRuleExpr gs).
Proof. intros Hs Hc Hr. destruct (config_shape tiers Hs) as (H1 & H2 & H3 & H4). by apply split_with_rules. Qed.

Lemma saveable_read (tiers : list VisualTier) : saveable tiers = true ->
  tryParseVisualConfig (Some (generateExprFromVisualConfig (Some tiers))) =
  if VisualRoundtrip.readable tiers then Some (canonical_config tiers) else None.
Proof. intros (Hne & Hd & Hw & Hl & Ht & _)%saveable_spec. by apply config_read_back. Qed.

Lemma saveable_canonical (tiers : list VisualTier) : saveable tiers = true ->
  generateExprFromVisualConfig (Some (canonical_config tiers)) = generateExprFromVisualConfig (Some tiers).
Proof. intros (_ & _ & Hw & _)%saveable_spec. by apply generate_canonical. Qed.
