(* ===== verification/TierForm.v ===== *)
(** * The forms of the tier editor
      (src/apps/web/src/features/system-settings/models/tiered-pricing-editor.tsx)

    The presets, the number inputs with a draft, the cards of tiers and of request
    rules: what each control does to the configuration and to the rules it edits. *)
From S2P Require Import Prelude JsString JsNumber BillingLexer BillingTiers BillingRules VisualTiers VisualRoundtrip.
From Stdlib Require Import Lia.

(** ** Presets *)

Definition CACHE_PRICE_VARS : list BillingVar := filter (fun v => BillingTiers.group v = Some (js "cache")) BILLING_EXTRA_VARS.
Definition MEDIA_PRICE_VARS : list BillingVar := filter (fun v => BillingTiers.group v = Some (js "media")) BILLING_EXTRA_VARS.

(** Values with their label keys. *)
Definition CONDITION_INPUT_OPTIONS : list (list N * list N) :=
  [(js "len", js "Full input length"); (js "p", js "Billable input tokens"); (js "c", js "Billable output tokens")].
Definition OPS : list (list N) := js <$> ["<"; "<="; ">"; ">="]%string.

(** A text written here with single quotes in place of double ones. *)
Definition dq (s : string) : list N := (fun c => if (c =? 39)%N then 34%N else c) <$> js s.

Record Preset := mkPreset {
  preset_key : list N;
  preset_label : list N;
  preset_expr : list N;
  preset_rules : option (list RequestRuleGroup) }.

Definition plain_preset (key label expr : string) : Preset := mkPreset (js key) (js label) (dq expr) None.

Definition claude_opus_expr : string := "tier('base', p * 5 + c * 25 + cr * 0.5 + cc * 6.25 + cc1h * 10)".
Definition gpt_expr : string :=
  "len <= 272000 ? tier('standard', p * 2.5 + c * 15 + cr * 0.25) : tier('long_context', p * 5 + c * 22.5 + cr * 0.5)".

Definition fixed_presets : list Preset :=
  [plain_preset "flat" "Flat" "tier('base', p * 2 + c * 4)";
   plain_preset "claude-opus" "Claude Opus 4.6" claude_opus_expr;
   plain_preset "gpt-5.4" "GPT-5.4" gpt_expr].

Definition tiered_presets : list Preset :=
  [plain_preset "claude-sonnet" "Claude Sonnet 4.5"
     "len <= 200000 ? tier('standard', p * 3 + c * 15 + cr * 0.3 + cc * 3.75 + cc1h * 6) : tier('long_context', p * 6 + c * 22.5 + cr * 0.6 + cc * 7.5 + cc1h * 12)";
   plain_preset "qwen3-max" "Qwen3 Max"
     "len <= 32000 ? tier('short', p * 1.2 + c * 6 + cr * 0.24 + cc * 1.5) : len <= 128000 ? tier('mid', p * 2.4 + c * 12 + cr * 0.48 + cc * 3) : tier('long', p * 3 + c * 15 + cr * 0.6 + cc * 3.75)";
   plain_preset "glm-4.5-air" "GLM-4.5 Air"
     "len < 32000 && c < 200 ? tier('short_output', p * 0.8 + c * 2 + cr * 0.16) : len < 32000 && c >= 200 ? tier('long_output', p * 0.8 + c * 6 + cr * 0.16) : tier('mid_context', p * 1.2 + c * 8 + cr * 0.24)";
   plain_preset "doubao-seed-1.8" "Doubao Seed 1.8"
     "len <= 32000 && c <= 200 ? tier('discount', p * 0.8 + c * 2 + cr * 0.16 + cc * 0.17) : len <= 32000 ? tier('short', p * 0.8 + c * 8 + cr * 0.16 + cc * 0.17) : len <= 128000 ? tier('mid', p * 1.2 + c * 16 + cr * 0.16 + cc * 0.17) : tier('long', p * 2.4 + c * 24 + cr * 0.16 + cc * 0.17)"].

Definition multimodal_presets : list Preset :=
  [plain_preset "gpt-image-1-mini" "GPT Image 1 Mini" "tier('base', p * 2 + c * 8 + img * 2.5)";
   plain_preset "gemini-2.5-flash" "Gemini 2.5 Flash" "tier('base', p * 0.3 + c * 2.5 + cr * 0.03 + ai * 1.0)";
   plain_preset "gemini-3-pro-image" "Gemini 3 Pro Image" "tier('base', p * 2 + c * 12 + img_o * 120)";
   plain_preset "qwen3-omni-flash" "Qwen3 Omni Flash" "tier('base', p * 0.43 + c * 3.06 + img * 0.78 + ai * 3.81 + ao * 15.11)"].

Definition rule_of (c : RequestCondition) (m : string) : RequestRuleGroup := mkGroup [c] (js m) None None.

Definition rule_presets : list Preset :=
  [mkPreset (js "claude-opus-fast") (js "Claude Opus 4.6 Fast") (dq claude_opus_expr)
     (Some [rule_of (ParamHeaderCondition SrcHeader (js "anthropic-beta") MATCH_CONTAINS (js "fast-mode-2026-02-01")) "6"]);
   mkPreset (js "gpt-5.4-tiers") (js "GPT-5.4 Priority/Flex") (dq gpt_expr)
     (Some [rule_of (ParamHeaderCondition SrcParam (js "service_tier") MATCH_EQ (js "priority")) "2";
            rule_of (ParamHeaderCondition SrcParam (js "service_tier") MATCH_EQ (js "flex")) "0.5"])].

Definition weekday_is (d : string) : RequestCondition :=
  TimeCondition (js "weekday") (js "Asia/Shanghai") MATCH_EQ (js d) [] [].

Definition time_presets : list Preset :=
  [mkPreset (js "night-discount") (js "Night discount (50%)") (dq "tier('base', p * 3 + c * 15)")
     (Some [rule_of (TimeCondition (js "hour") (js "Asia/Shanghai") MATCH_RANGE [] (js "21") (js "6")) "0.5"]);
   mkPreset (js "weekend-discount") (js "Weekend discount (80%)") (dq "tier('base', p * 3 + c * 15)")
     (Some [rule_of (weekday_is "0") "0.8"; rule_of (weekday_is "6") "0.8"])].

Definition PRESET_GROUPS : list (list N * list Preset) :=
  [(js "Fixed price", fixed_presets); (js "Tiered", tiered_presets); (js "Multimodal", multimodal_presets);
   (js "Request rule", rule_presets); (js "Time-based", time_presets)].

(** The groups the section shows. *)
Definition visible_groups (expanded : bool) : list (list N * list Preset) :=
  if expanded then PRESET_GROUPS else take 2 PRESET_GROUPS.

(** ** Numbers and drafts *)

Definition unitCostToPrice (uc : NumberOrString) : spec_float := or_zero (to_number uc).
Definition priceToUnitCost (price : NumberOrString) : spec_float := or_zero (to_number price).

Definition million : spec_float := num_of_Z 1000000.
Definition thousand : spec_float := num_of_Z 1000.

Section Hint.
Variable toLocaleString : spec_float -> list N.

Definition formatTokenHint (n : option NumberOrString) : list N :=
  match n with
  | None | Some (AString []) => []
  | Some x =>
      let v := to_number x in
      if is_nan v then []
      else if num_eqb v num_zero then js "= 0"
      else if num_leb million v then js "= " ++ toLocaleString (num_div v million) ++ js "M tokens"
      else if num_leb thousand v then js "= " ++ toLocaleString (num_div v thousand) ++ js "K tokens"
      else js "= " ++ toLocaleString v ++ js " tokens"
  end.
End Hint.

Definition formatNumberDraft (value : NumberOrString) : list N :=
  match value with
  | AString s => s
  | ANumber n => if is_finite n then num_to_string n else js "0"
  end.

Definition parseNumberDraft (value : list N) : spec_float :=
  if negb (nonempty (trim value)) then num_zero
  else let next := number_of_string value in if is_finite next then next else num_zero.

Definition isZeroDraft (value : list N) : bool := nonempty (trim value) && num_eqb (parseNumberDraft value) num_zero.

(** A number input: its draft, and the dependencies its effect last saw. *)
Record DraftState := mkDraft { draft : list N; focused : bool }.

Definition draft_mount (value : NumberOrString) : DraftState := mkDraft (formatNumberDraft value) false.

(** The effect on [focused] and [value]. *)
Definition draft_effect (s : DraftState) (value : NumberOrString) : DraftState :=
  if focused s then s else mkDraft (formatNumberDraft value) (focused s).

(** The value passed to [onValueChange] is the second result. *)
Definition draft_change (s : DraftState) (text : list N) : DraftState * spec_float :=
  (mkDraft text (focused s), parseNumberDraft text).

(** Whether the text of the input is selected is the second result. *)
Definition draft_focus (selectZeroOnFocus : bool) (s : DraftState) : DraftState * bool :=
  (mkDraft (draft s) true, selectZeroOnFocus && isZeroDraft (draft s)).

Definition draft_mouse_up (selectZeroOnFocus : bool) (s : DraftState) : bool := selectZeroOnFocus && isZeroDraft (draft s).

Definition draft_blur (s : DraftState) : DraftState * spec_float :=
  let normalized := parseNumberDraft (draft s) in
  (mkDraft (num_to_string normalized) false, normalized).

(** ** Conditions of a tier *)

(** What the controls of a condition row do. *)
Inductive ConditionEdit :=
| EditVar (v : list N)
| EditOp (o : list N)
| EditValue (n : spec_float).

Definition edit_condition (e : ConditionEdit) (c : TierConditionInput) : TierConditionInput :=
  match e with
  | EditVar v => mkInput v (op c) (value c)
  | EditOp o => mkInput (var c) o (value c)
  | EditValue n => mkInput (var c) (op c) (ANumber n)
  end.

(** The conditions of a tier; the form holds an array. *)
Definition conds (t : VisualTier) : list TierConditionInput := default [] (tier_conditions t).

Definition with_conds (cs : list TierConditionInput) (t : VisualTier) : VisualTier :=
  mkVisual (tier_label t) (Some cs) (input_unit_cost t) (output_unit_cost t) (cache_mode t) (extra_costs t).

(** [array.filter((_, i) => i !== index)]. *)
Definition remove_at {A} (index : nat) (l : list A) : list A := take index l ++ drop (S index) l.

Definition tierConditionChange (t : VisualTier) (conditionIndex : nat) (next : TierConditionInput) : VisualTier :=
  with_conds (<[conditionIndex := next]> (conds t)) t.

Definition tierConditionRemove (t : VisualTier) (conditionIndex : nat) : VisualTier :=
  with_conds (remove_at conditionIndex (conds t)) t.

(** [{ ...tier, [field]: value }]. *)
Definition handlePriceChange (t : VisualTier) (field : list N) (v : spec_float) : VisualTier :=
  if bool_decide (field = js "input_unit_cost") then
    mkVisual (tier_label t) (tier_conditions t) (Some v) (output_unit_cost t) (cache_mode t) (extra_costs t)
  else if bool_decide (field = js "output_unit_cost") then
    mkVisual (tier_label t) (tier_conditions t) (input_unit_cost t) (Some v) (cache_mode t) (extra_costs t)
  else
    mkVisual (tier_label t) (tier_conditions t) (input_unit_cost t) (output_unit_cost t) (cache_mode t)
      (<[field := v]> (extra_costs t)).

Definition CACHE_1H : list N := js "cache_create_1h_unit_cost".

Definition handleCacheModeChange (t : VisualTier) (mode : CacheMode) : VisualTier :=
  mkVisual (tier_label t) (tier_conditions t) (input_unit_cost t) (output_unit_cost t) (Some mode)
    (<[CACHE_1H := match mode with
                   | CACHE_MODE_TIMED => default num_zero (extra_costs t !! CACHE_1H)
                   | CACHE_MODE_GENERIC => num_zero
                   end]> (extra_costs t)).

Definition tierLabelChange (t : VisualTier) (label : list N) : VisualTier :=
  mkVisual (Some label) (tier_conditions t) (input_unit_cost t) (output_unit_cost t) (cache_mode t) (extra_costs t).

(** [unitCostToPrice(tier[variable.tierField] ?? 0)]. *)
Definition variable_price (t : VisualTier) (v : BillingVar) : spec_float :=
  unitCostToPrice (ANumber (default num_zero (extra_costs t !! default [] (tierField v)))).

Definition hasMediaPricing (t : VisualTier) : bool :=
  existsb (fun v => num_ltb num_zero (variable_price t v)) MEDIA_PRICE_VARS.

(** The cache prices the card shows. *)
Definition shown_cache_vars (t : VisualTier) : list BillingVar :=
  filter (fun v => negb (bool_decide (key v = js "cc1h") &&
                         match getTierCacheMode (Some (as_partial t)) with CACHE_MODE_TIMED => false | _ => true end) = true)
    CACHE_PRICE_VARS.

(** The media section opens when a media price appears, and stays as the user leaves it. *)
Definition media_effect (t : VisualTier) (mediaOpen : bool) : bool := if hasMediaPricing t then true else mediaOpen.

(** ** The list of tiers *)

Definition DEFAULT_LIMIT : spec_float := num_of_Z 200000.
Definition limit_condition (v : list N) : TierConditionInput := mkInput v (js "<") (ANumber DEFAULT_LIMIT).

Definition handleTierChange (config : VisualConfig) (index : nat) (next : VisualTier) : VisualConfig :=
  <[index := normalizeVisualTier (as_partial next)]> config.

(** The last tier, bounded when it was the fallback. *)
Definition bound_fallback (t : VisualTier) : VisualTier :=
  match conds t with
  | [] => normalizeVisualTier (as_partial (with_conds [limit_condition (js "len")] t))
  | _ => t
  end.

Definition new_tier (label : list N) : VisualTier :=
  normalizeVisualTier
    (mkPartial (Some (Some label)) (Some (Some [])) (Some (Some num_zero)) (Some (Some num_zero)) None ∅).

Definition handleAddTier (config : VisualConfig) : VisualConfig :=
  let tiers := match last config with
               | Some t => <[(length config - 1)%nat := bound_fallback t]> config
               | None => config
               end in
  tiers ++ [new_tier (js "tier_" ++ dec_string (N.of_nat (length tiers + 1)))].

Definition handleRemoveTier (config : VisualConfig) (index : nat) : VisualConfig :=
  match remove_at index config with [] => config | tiers => tiers end.

(** The variable of a further condition. *)
Definition nextVar (t : VisualTier) : list N :=
  if bool_decide (js "len" ∈ var <$> conds t) then js "c" else js "len".

Definition handleAddCondition (config : VisualConfig) (index : nat) : VisualConfig :=
  match config !! index with
  | Some t =>
      if (2 <=? length (conds t))%nat then config
      else <[index := with_conds (conds t ++ [limit_condition (nextVar t)]) t]> config
  | None => config
  end.

(** What the controls of a tier card do. *)
Inductive CardEdit :=
| OnCondition (i : nat) (e : ConditionEdit)
| OnConditionRemove (i : nat)
| OnPrice (field : list N) (price : spec_float)
| OnCacheMode (mode : CacheMode)
| OnLabel (label : list N).

Definition card_edit (e : CardEdit) (t : VisualTier) : VisualTier :=
  match e with
  | OnCondition i ce =>
      match conds t !! i with Some c => tierConditionChange t i (edit_condition ce c) | None => t end
  | OnConditionRemove i => tierConditionRemove t i
  | OnPrice field price => handlePriceChange t field (priceToUnitCost (ANumber price))
  | OnCacheMode mode => handleCacheModeChange t mode
  | OnLabel label => tierLabelChange t label
  end.

(** What the controls of the visual editor do.  The editor works on the normalized
    configuration; the button that removes a tier is disabled on the only one. *)
Inductive ConfigEdit :=
| EditTier (index : nat) (e : CardEdit)
| AddTier
| RemoveTier (index : nat)
| AddCondition (index : nat).

Definition visual_edit (visualConfig : option VisualConfig) (e : ConfigEdit) : VisualConfig :=
  let config := normalizeVisualConfig visualConfig in
  match e with
  | EditTier i ce => match config !! i with Some t => handleTierChange config i (card_edit ce t) | None => config end
  | AddTier => handleAddTier config
  | RemoveTier i => handleRemoveTier config i
  | AddCondition i => handleAddCondition config i
  end.

(** ** Request rules *)

(** What the controls of a rule condition do; a number input passes a number. *)
Inductive RuleConditionEdit :=
| EditSource (source : list N)
| EditMode (mode : list N)
| EditTimeFunc (f : list N)
| EditTimezone (tz : list N)
| EditRangeStart (n : spec_float)
| EditRangeEnd (n : spec_float)
| EditTimeValue (n : spec_float)
| EditPath (p : list N)
| EditText (v : list N).

Definition handleSourceChange (condition : RequestCondition) (source : list N) : RequestCondition :=
  if bool_decide (source = js "time") then createEmptyTimeCondition
  else if bool_decide (source = js "header") then ParamHeaderCondition SrcHeader [] MATCH_EQ []
  else if bool_decide (source = js "param") then createEmptyCondition
  else condition.

(** [{ ...condition, mode }]. *)
Definition ruleModeChange (condition : RequestCondition) (mode : list N) : RequestCondition :=
  match condition with
  | ParamHeaderCondition s p _ v => ParamHeaderCondition s p mode v
  | TimeCondition f tz _ v a b => TimeCondition f tz mode v a b
  end.

(** The controls of the other kind of condition are not shown. *)
Definition rule_condition_edit (e : RuleConditionEdit) (condition : RequestCondition) : RequestCondition :=
  match e, condition with
  | EditSource s, c => handleSourceChange c s
  | EditMode m, c => ruleModeChange c m
  | EditTimeFunc f, TimeCondition _ tz m v a b => TimeCondition f tz m v a b
  | EditTimezone tz, TimeCondition f _ m v a b => TimeCondition f tz m v a b
  | EditRangeStart n, TimeCondition f tz m v _ b => TimeCondition f tz m v (num_to_string n) b
  | EditRangeEnd n, TimeCondition f tz m v a _ => TimeCondition f tz m v a (num_to_string n)
  | EditTimeValue n, TimeCondition f tz m _ a b => TimeCondition f tz m (num_to_string n) a b
  | EditPath p, ParamHeaderCondition s _ m v => ParamHeaderCondition s p m v
  | EditText v, ParamHeaderCondition s p m _ => ParamHeaderCondition s p m v
  | _, c => c
  end.

(** [{ ...group, conditions }]. *)
Definition with_conditions (cs : list RequestCondition) (g : RequestRuleGroup) : RequestRuleGroup :=
  mkGroup cs (multiplier g) (conditionText g) (matched g).

Definition ruleConditionChange (g : RequestRuleGroup) (i : nat) (next : RequestCondition) : RequestRuleGroup :=
  with_conditions (<[i := next]> (BillingRules.conditions g)) g.

Definition ruleAddCondition (g : RequestRuleGroup) (timeMode : bool) : RequestRuleGroup :=
  with_conditions (BillingRules.conditions g ++ [if timeMode then createEmptyTimeCondition else createEmptyCondition]) g.

Definition ruleConditionRemove (g : RequestRuleGroup) (i : nat) : RequestRuleGroup :=
  with_conditions (remove_at i (BillingRules.conditions g)) g.

Definition ruleMultiplierChange (g : RequestRuleGroup) (value : spec_float) : RequestRuleGroup :=
  mkGroup (BillingRules.conditions g) (num_to_string value) (conditionText g) (matched g).

Inductive GroupEdit :=
| OnRuleCondition (i : nat) (e : RuleConditionEdit)
| OnRuleAdd (timeMode : bool)
| OnRuleRemove (i : nat)
| OnMultiplier (value : spec_float).

Definition group_edit (e : GroupEdit) (g : RequestRuleGroup) : RequestRuleGroup :=
  match e with
  | OnRuleCondition i ce =>
      match BillingRules.conditions g !! i with
      | Some c => ruleConditionChange g i (rule_condition_edit ce c)
      | None => g
      end
  | OnRuleAdd timeMode => ruleAddCondition g timeMode
  | OnRuleRemove i => ruleConditionRemove g i
  | OnMultiplier value => ruleMultiplierChange g value
  end.

(** What the list of rule groups does. *)
Inductive RulesEdit :=
| EditGroup (index : nat) (e : GroupEdit)
| RemoveGroup (index : nat)
| AddGroup.

Definition rules_edit (groups : list RequestRuleGroup) (e : RulesEdit) : list RequestRuleGroup :=
  match e with
  | EditGroup i ge => match groups !! i with Some g => <[i := group_edit ge g]> groups | None => groups end
  | RemoveGroup i => remove_at i groups
  | AddGroup => groups ++ [createEmptyRuleGroup]
  end.

(** ** The cost estimator *)

Record Estimator := mkEstimator {
  promptTokens : spec_float;
  completionTokens : spec_float;
  extras : ExtraTokenValues }.

Definition estimator_mount : Estimator :=
  mkEstimator num_zero num_zero (mkExtra num_zero num_zero num_zero num_zero num_zero num_zero num_zero).

(** [variable.field.replace('Price', 'Tokens')] names the counts in the order of
    [BILLING_EXTRA_VARS]. *)
Definition set_extra (k : nat) (v : spec_float) (x : ExtraTokenValues) : ExtraTokenValues :=
  let at_ (i : nat) (old : spec_float) := if (i =? k)%nat then v else old in
  mkExtra (at_ 0 (cacheReadTokens x)) (at_ 1 (cacheCreateTokens x)) (at_ 2 (cacheCreate1hTokens x))
    (at_ 3 (imageTokens x)) (at_ 4 (imageOutputTokens x)) (at_ 5 (audioInputTokens x)) (at_ 6 (audioOutputTokens x)).

Inductive EstimatorEdit := SetPrompt (n : spec_float) | SetCompletion (n : spec_float) | SetExtra (k : nat) (n : spec_float).

Definition estimator_edit (s : Estimator) (e : EstimatorEdit) : Estimator :=
  match e with
  | SetPrompt n => mkEstimator n (completionTokens s) (extras s)
  | SetCompletion n => mkEstimator (promptTokens s) n (extras s)
  | SetExtra k n => mkEstimator (promptTokens s) (completionTokens s) (set_extra k n (extras s))
  end.

Definition estimator_result (effectiveExpr : list N) (s : Estimator) : EvalResult :=
  evalExprLocally effectiveExpr (promptTokens s) (completionTokens s) (extras s).

(** ** What the controls keep *)

(** The values a control passes on: options of its list, numbers read from a draft. *)
Definition condition_edit_valid (e : ConditionEdit) : Prop :=
  match e with
  | EditVar v => v ∈ CONDITION_INPUT_OPTIONS.*1
  | EditOp o => o ∈ OPS
  | EditValue n => exists text, n = parseNumberDraft text
  end.

Definition card_edit_valid (e : CardEdit) : Prop :=
  match e with
  | OnCondition _ ce => condition_edit_valid ce
  | OnPrice _ price => exists text, price = parseNumberDraft text
  | _ => True
  end.

Definition edit_valid (e : ConfigEdit) : Prop := match e with EditTier _ ce => card_edit_valid ce | _ => True end.

(** A condition that is written into the expression. *)
Definition cond_sound (c : TierConditionInput) : Prop :=
  var c ∈ allowedVars /\ op c ∈ allowedOps /\ is_finite (to_number (value c)) = true.

Definition finite_cost (v : option spec_float) : Prop := exists n, v = Some n /\ is_finite n = true.

(** A tier of the form: sound conditions, at most [n] of them, and finite prices. *)
Definition tier_sound (n : nat) (t : VisualTier) : Prop :=
  (exists cs, tier_conditions t = Some cs) /\ Forall cond_sound (conds t) /\ (length (conds t) <= n)%nat /\
  finite_cost (input_unit_cost t) /\ finite_cost (output_unit_cost t) /\
  map_Forall (fun _ v => is_finite v = true) (extra_costs t).

Definition form_ok (n : nat) (c : VisualConfig) : Prop := c <> [] /\ Forall (tier_sound n) c.

(** Every tier but the last has a condition. *)
Definition bounded_tiers (c : VisualConfig) : Prop :=
  forall i t, c !! i = Some t -> (S i < length c)%nat -> conds t <> [].

(** The edit that takes the only condition of a tier that is not the last. *)
Definition uncovers (c : VisualConfig) (e : ConfigEdit) : Prop :=
  match e with
  | EditTier i (OnConditionRemove 0) => (S i < length c)%nat /\ exists t, c !! i = Some t /\ length (conds t) = 1
  | _ => False
  end.

Lemma parseNumberDraft_finite text : is_finite (parseNumberDraft text) = true.
Proof. unfold parseNumberDraft. destruct (negb _); [done|]. by destruct (is_finite (number_of_string text)) eqn:E. Qed.

Lemma priceToUnitCost_finite n : is_finite n = true -> is_finite (priceToUnitCost (ANumber n)) = true.
Proof. apply or_zero_finite. Qed.

Lemma set_costs_finite m : map_Forall (fun _ v => is_finite v = true) m -> map_Forall (fun _ v => is_finite v = true) (set_costs m).
Proof.
  intros Hm. unfold set_costs.
  assert (forall f, is_finite (or_zero (number_of (m !! f))) = true) as Hf.
  { intros f. destruct (m !! f) as [v|] eqn:E; [|done]. apply or_zero_finite. by eapply Hm. }
  assert (forall (l : list (list N)) (acc : gmap (list N) spec_float), map_Forall (fun _ v => is_finite v = true) acc ->
    map_Forall (fun _ v => is_finite v = true) (fold_left (fun m0 f => <[f := or_zero (number_of (m !! f))]> m0) l acc)) as Hl.
  { induction l as [|f l IH]; intros acc Hacc; [done|]. simpl. apply IH. by apply map_Forall_insert_2. }
  by apply Hl.
Qed.

Lemma normalize_fields t :
  let t' := normalizeVisualTier (as_partial t) in
  tier_label t' = tier_label t /\ tier_conditions t' = tier_conditions t /\ input_unit_cost t' = input_unit_cost t /\
  output_unit_cost t' = output_unit_cost t /\ cache_mode t' = cache_mode t /\ extra_costs t' = set_costs (extra_costs t).
Proof. done. Qed.

Lemma normalize_sound n t : tier_sound n t -> tier_sound n (normalizeVisualTier (as_partial t)).
Proof. intros (H1 & H2 & H3 & H4 & H5 & H6). split_and!; try done. by apply set_costs_finite. Qed.

Lemma normalize_conds t : conds (normalizeVisualTier (as_partial t)) = conds t.
Proof. done. Qed.

Lemma normalize_form n c : form_ok n c ->
  form_ok n (normalizeVisualConfig (Some c)) /\
  normalizeVisualConfig (Some c) = map (fun t => normalizeVisualTier (as_partial t)) c.
Proof.
  intros [Hne Hc]. assert (normalizeVisualConfig (Some c) = map (fun t => normalizeVisualTier (as_partial t)) c) as E by by destruct c.
  rewrite E. split; [|done]. split; [by destruct c|]. apply Forall_fmap. eapply Forall_impl; [exact Hc|]. apply normalize_sound.
Qed.

Lemma with_conds_sound n cs t : tier_sound n t -> Forall cond_sound cs -> (length cs <= n)%nat -> tier_sound n (with_conds cs t).
Proof. intros (H1 & H2 & H3 & H4 & H5 & H6) Hcs Hn. split_and!; try done. by eexists. Qed.

Lemma limit_sound v : v ∈ js <$> ["len"; "c"]%string -> cond_sound (limit_condition v).
Proof.
  intros Hv. split_and!; [|by apply (bool_decide_eq_true_1 (js "<" ∈ allowedOps))|done].
  apply list_elem_of_In in Hv. cbn in Hv. destruct Hv as [<-|[<-|[]]];
    [by apply (bool_decide_eq_true_1 (js "len" ∈ allowedVars))|by apply (bool_decide_eq_true_1 (js "c" ∈ allowedVars))].
Qed.

Lemma input_vars_allowed v : v ∈ CONDITION_INPUT_OPTIONS.*1 -> v ∈ allowedVars.
Proof.
  intros Hv. apply list_elem_of_In in Hv. apply list_elem_of_In. revert Hv. vm_compute. tauto.
Qed.

Lemma edit_condition_sound e c : condition_edit_valid e -> cond_sound c -> cond_sound (edit_condition e c).
Proof.
  intros He (H1 & H2 & H3). destruct e as [v|o|x]; cbn in *.
  - split_and!; [by apply input_vars_allowed|done..].
  - by split_and!.
  - destruct He as [text ->]. split_and!; [done..|apply parseNumberDraft_finite].
Qed.

Lemma remove_at_forall {A} (P : A -> Prop) i l : Forall P l -> Forall P (remove_at i l).
Proof. intros H. apply Forall_app. split; [by apply Forall_take|by apply Forall_drop]. Qed.

Lemma remove_at_length {A} i (l : list A) : (length (remove_at i l) <= length l)%nat.
Proof. unfold remove_at. rewrite length_app, length_take, length_drop. lia. Qed.

Lemma card_edit_sound n e t : card_edit_valid e -> tier_sound n t -> tier_sound n (card_edit e t).
Proof.
  intros He Ht. pose proof Ht as (H1 & H2 & H3 & H4 & H5 & H6). destruct e as [i ce|i|f price|mode|label]; cbn [card_edit].
  - destruct (conds t !! i) as [c|] eqn:E; [|done]. apply with_conds_sound; [done| |by rewrite length_insert].
    apply Forall_insert; [done|]. apply edit_condition_sound; [done|]. by eapply Forall_lookup_1.
  - apply with_conds_sound; [done|by apply remove_at_forall|]. pose proof (remove_at_length i (conds t)). lia.
  - destruct He as [text ->]. pose proof (priceToUnitCost_finite _ (parseNumberDraft_finite text)) as Hf. unfold handlePriceChange.
    destruct (bool_decide _); [by split_and!; try done; eexists|]. destruct (bool_decide _); [by split_and!; try done; eexists|].
    split_and!; try done. by apply map_Forall_insert_2.
  - split_and!; try done. apply map_Forall_insert_2; [|done]. destruct mode; [|done].
    destruct (extra_costs t !! CACHE_1H) as [v|] eqn:E; [|done]. by eapply H6.
  - by split_and!.
Qed.

Lemma new_tier_sound n label : tier_sound n (new_tier label).
Proof.
  split_and!; [by eexists|constructor|cbn; lia|by eexists|by eexists|].
  apply set_costs_finite. apply map_Forall_empty.
Qed.

Lemma bound_fallback_sound n t : (1 <= n)%nat -> tier_sound n t -> tier_sound n (bound_fallback t).
Proof.
  intros Hn Ht. unfold bound_fallback. destruct (conds t) eqn:E; [|done]. apply normalize_sound, with_conds_sound; [done| |done].
  constructor; [|constructor]. apply limit_sound. by apply (bool_decide_eq_true_1 (js "len" ∈ js <$> ["len"; "c"]%string)).
Qed.

Lemma bound_fallback_conds t : conds (bound_fallback t) <> [].
Proof. unfold bound_fallback. destruct (conds t) eqn:E; [done|by rewrite E]. Qed.

(** The last tier is bounded before another is added. *)
Lemma add_tier_shape c t0 rest : c = rest ++ [t0] ->
  exists label, handleAddTier c = (rest ++ [bound_fallback t0]) ++ [new_tier label].
Proof.
  intros ->. unfold handleAddTier. rewrite last_snoc, length_app. cbn [length].
  replace (length rest + 1 - 1)%nat with (length rest) by lia.
  pose proof (insert_app_r_alt rest [t0] (length rest) (bound_fallback t0)) as H. rewrite Nat.sub_diag in H. cbn in H.
  unfold VisualConfig. rewrite H by lia. by eexists.
Qed.

Lemma insert_nonempty (c : VisualConfig) i t : c <> [] -> <[i := t]> c <> [].
Proof. destruct c, i; done. Qed.

Lemma form_edit n c e : (2 <= n)%nat -> form_ok n c -> edit_valid e -> form_ok n (visual_edit (Some c) e).
Proof.
  intros Hn Hf He. unfold visual_edit. destruct (normalize_form n c Hf) as [Hc _].
  generalize dependent (normalizeVisualConfig (Some c)). clear c Hf. intros c [Hne Hc]. destruct e as [i ce| |i|i].
  - destruct (c !! i) as [t|] eqn:E; [|done]. split; [by apply insert_nonempty|].
    apply Forall_insert; [done|]. apply normalize_sound, card_edit_sound; [done|]. by eapply Forall_lookup_1.
  - destruct (exists_last Hne) as (rest & t0 & Hl). destruct (add_tier_shape c t0 rest Hl) as [label ->].
    split; [by intros [_ [=]]%app_eq_nil|]. rewrite Hl in Hc. apply Forall_app in Hc as [H1 H2]. inversion H2; subst.
    apply Forall_app. split; [|constructor; [apply new_tier_sound|constructor]]. apply Forall_app. split; [done|].
    constructor; [|constructor]. by apply bound_fallback_sound; [lia|].
  - unfold handleRemoveTier. pose proof (remove_at_forall _ i _ Hc) as Hr. destruct (remove_at i c); [done|]. done.
  - unfold handleAddCondition. destruct (c !! i) as [t|] eqn:E; [|done]. destruct (Nat.leb_spec 2 (length (conds t))) as [H2|H2]; [done|].
    split; [by apply insert_nonempty|].
    pose proof (Forall_lookup_1 _ _ _ _ Hc E) as Ht. apply Forall_insert; [done|]. apply with_conds_sound; [done| |].
    + apply Forall_app. split; [by destruct Ht as (_ & ? & _)|]. constructor; [|constructor]. apply limit_sound. unfold nextVar.
      destruct (bool_decide _); by apply list_elem_of_In; cbn; auto.
    + rewrite length_app. cbn. lia.
Qed.

(** *** The expression stays readable *)

Lemma bounded_lookup {c : VisualConfig} i t : bounded_tiers c -> c !! i = Some t -> (S i < length c)%nat -> conds t <> [].
Proof. intros H. apply H. Qed.

Lemma bounded_insert c i t : bounded_tiers c -> ((S i < length c)%nat -> conds t <> []) -> bounded_tiers (<[i := t]> c).
Proof.
  intros Hb Ht j u Hj Hlt. unfold VisualConfig in *. rewrite length_insert in Hlt. destruct (decide (i = j)) as [->|Hne].
  - rewrite list_lookup_insert_eq in Hj by lia. injection Hj as <-. by apply Ht.
  - rewrite list_lookup_insert_ne in Hj by done. by eapply Hb.
Qed.

Lemma remove_at_shape {A} i (l : list A) :
  (length l <= i)%nat /\ remove_at i l = l \/ exists a x b, l = a ++ x :: b /\ length a = i /\ remove_at i l = a ++ b.
Proof.
  destruct (l !! i) as [x|] eqn:E.
  - right. exists (take i l), x, (drop (S i) l). split_and!; [by rewrite take_drop_middle| |done].
    rewrite length_take. apply lookup_lt_Some in E. lia.
  - left. apply lookup_ge_None in E. split; [done|]. unfold remove_at.
    rewrite take_ge, drop_ge, app_nil_r by lia. done.
Qed.

Lemma bounded_remove c i : bounded_tiers c -> bounded_tiers (remove_at i c).
Proof.
  unfold bounded_tiers, VisualConfig in *. intros Hb. destruct (remove_at_shape i c) as [[_ ->]|(a & x & b & -> & Ha & ->)]; [done|].
  intros j t Hj Hlt. rewrite length_app in Hlt. destruct (decide (j < length a)%nat) as [Hl|Hl].
  - apply (Hb j t); [rewrite lookup_app_l in * by done; done|]. rewrite length_app. cbn. lia.
  - apply (Hb (S j) t); [|rewrite length_app; cbn; lia]. rewrite lookup_app_r in * by lia.
    replace (S j - length a)%nat with (S (j - length a)) by lia. done.
Qed.

Lemma bounded_edit n c e : form_ok n c -> bounded_tiers c -> ~ uncovers c e -> bounded_tiers (visual_edit (Some c) e).
Proof.
  intros Hf Hb Hu. unfold visual_edit. destruct (normalize_form n c Hf) as [_ E]. rewrite E. clear E. unfold VisualConfig in *.
  assert (forall i t', map (fun t => normalizeVisualTier (as_partial t)) c !! i = Some t' -> exists t, c !! i = Some t /\ conds t' = conds t) as Hl.
  { intros i t' H. apply list_lookup_fmap_Some in H as (t & -> & Ht). by exists t. }
  assert (bounded_tiers (map (fun t => normalizeVisualTier (as_partial t)) c)) as Hb'.
  { intros i t' H Hlt. rewrite length_map in Hlt. destruct (Hl i t' H) as (t & Ht & ->). by eapply Hb. }
  assert (length (map (fun t => normalizeVisualTier (as_partial t)) c) = length c) as Hlen by apply length_map.
  assert (map (fun t => normalizeVisualTier (as_partial t)) c <> []) as Hne by (destruct Hf; by destruct c).
  generalize dependent (map (fun t => normalizeVisualTier (as_partial t)) c). intros c' Hl Hb' Hlen Hne.
  destruct e as [i ce| |i|i].
  - destruct (c' !! i) as [t'|] eqn:E; [|done]. apply bounded_insert; [done|]. intros Hlt. rewrite normalize_conds.
    pose proof (Hb' i t' E Hlt) as Hc. destruct (Hl i t' E) as (t & Ht & Hct). destruct ce as [j ce|j|f price|mode|label]; cbn [card_edit].
    + destruct (conds t' !! j); [|done]. cbn. by destruct (conds t'), j.
    + cbn. unfold tierConditionRemove. cbn. intros Hnil. apply Hu. destruct (remove_at_shape j (conds t')) as [[_ H]|(a & x & b & H1 & H2 & H3)].
      { by rewrite H in Hnil. }
      rewrite Hnil in H3. symmetry in H3. apply app_eq_nil in H3 as [-> ->]. cbn in H2. subst j. split; [lia|].
      exists t. split; [done|]. rewrite <- Hct, H1. done.
    + unfold handlePriceChange. by repeat destruct (bool_decide _).
    + done.
    + done.
  - destruct (exists_last Hne) as (rest & t0 & Hx). destruct (add_tier_shape c' t0 rest Hx) as [label ->].
    unfold bounded_tiers, VisualConfig in *. intros i t Hi Hlt. rewrite !length_app in Hlt. cbn in Hlt. rewrite lookup_app_l in Hi by (rewrite length_app; cbn; lia).
    destruct (decide (i < length rest)%nat) as [Hr|Hr].
    + rewrite lookup_app_l in Hi by done. apply (Hb' i t); [|rewrite Hx, length_app; cbn; lia]. rewrite Hx. by rewrite lookup_app_l.
    + rewrite lookup_app_r in Hi by lia. replace (i - length rest)%nat with 0%nat in Hi by lia. injection Hi as <-. apply bound_fallback_conds.
  - unfold handleRemoveTier. pose proof (bounded_remove c' i Hb') as Hr.
    destruct (remove_at i c'); [exact Hb'|exact Hr].
  - unfold handleAddCondition, VisualConfig. destruct (c' !! i) as [t|]; [|done]. destruct (2 <=? length (conds t))%nat; [done|].
    apply bounded_insert; [done|]. intros _. cbn. by destruct (conds t).
Qed.

Lemma sound_conditioned n t : tier_sound n t -> conditioned t = match conds t with [] => false | _ => true end.
Proof.
  intros (_ & H & _). unfold conditioned, kept_conditions, conds in *. destruct (default [] (tier_conditions t)) as [|c cs]; [done|].
  inversion H as [|? ? (H1 & H2 & H3) _]; subst. cbn. unfold canonical_condition. rewrite H3, !bool_decide_eq_true_2 by done. done.
Qed.

Lemma bounded_readable n c : form_ok n c -> readable c = true <-> bounded_tiers c.
Proof.
  unfold form_ok, bounded_tiers, VisualConfig. intros [Hne Hf]. destruct (exists_last Hne) as (rest & t0 & ->). unfold readable. rewrite removelast_last. split.
  - intros H i t Hi Hlt. rewrite length_app in Hlt. cbn in Hlt. rewrite lookup_app_l in Hi by lia.
    rewrite forallb_forall in H. apply list_elem_of_lookup_2 in Hi. specialize (H t (proj1 (list_elem_of_In _ _) Hi)).
    apply Forall_app in Hf as [Hf _]. rewrite (sound_conditioned n) in H by by eapply (proj1 (Forall_forall _ _) Hf). by destruct (conds t).
  - intros H. apply forallb_forall. intros t [i Hi]%list_elem_of_In%list_elem_of_lookup.
    apply Forall_app in Hf as [Hf _]. rewrite (sound_conditioned n); [|by eapply Forall_lookup_1].
    assert (conds t <> []) as Hx; [|by destruct (conds t)]. apply (H i t); [rewrite lookup_app_l; [done|]|]; apply lookup_lt_Some in Hi as ?; [done|].
    rewrite length_app. cbn. lia.
Qed.

(** C9: The controls of the visual editor keep the form in order.  On tiers with sound
    conditions (a known variable and operator, a finite number), at most [n] of them
    (two or more), and finite prices, every control gives such tiers again and never
    leaves none; and the tiers stay readable, that is, every tier but the last keeps a
    condition, unless the control removes the only condition of a tier that is not the
    last. *)
Theorem visual_edits_keep_form n c e :
  (2 <= n)%nat -> form_ok n c -> edit_valid e ->
  form_ok n (visual_edit (Some c) e) /\
  (readable c = true -> ~ uncovers c e -> readable (visual_edit (Some c) e) = true).
Proof.
  intros Hn Hf He. pose proof (form_edit n c e Hn Hf He) as Hf'. split; [done|]. intros Hr Hu.
  apply (bounded_readable n); [done|]. eapply bounded_edit; [done| |done]. by apply (bounded_readable n).
Qed.

Lemma visual_edits_keep_form_witness :
  form_ok 2 (visual_edit (Some createDefaultVisualConfig) AddTier) /\
  readable (visual_edit (Some createDefaultVisualConfig) AddTier) = true.
Proof.
  assert (form_ok 2 createDefaultVisualConfig) as Hf.
  { split; [discriminate|]. constructor; [|constructor]. split_and!; [eexists; reflexivity|constructor|cbn; lia|eexists; split; reflexivity..|].
    apply set_costs_finite. apply map_Forall_empty. }
  destruct (visual_edits_keep_form 2 createDefaultVisualConfig AddTier ltac:(lia) Hf I) as [H1 H2].
  split; [exact H1|]. apply H2; [vm_compute; reflexivity|]. intros [].
Defined.

(** Leaving a number input settles its draft: the text shown is the one of the value
    the page now holds, kept as a number or as its text. *)
Lemma blur_settles s :
  let '(s', n) := draft_blur s in
  is_finite n = true /\ draft_effect s' (ANumber n) = s' /\ draft_effect s' (AString (num_to_string n)) = s'.
Proof.
  cbn. split; [apply parseNumberDraft_finite|]. unfold draft_effect. cbn. by rewrite parseNumberDraft_finite.
Qed.
