(* ===== verification/TierEditor.v ===== *)
(** * The tier editor (src/apps/web/src/features/system-settings/models/tiered-pricing-editor.tsx)

    The component [TieredPricingEditor]: the state behind its two modes, the effects
    that run after each render, and the price and rules it hands to the page around it
    (model-pricing-sheet.tsx passes the setters of its own state).  A render is followed
    by its effects, in their order and only where a dependency has changed; the updates
    they ask for are applied together and lead to the next render. *)
From S2P Require Import Prelude JsString JsNumber BillingLexer BillingTiers BillingRules BillingRuleRoundtrip VisualTiers VisualRoundtrip TierSplit TierForm.
From Stdlib Require Import Lia.

#[global] Instance PHSource_eq_dec : EqDecision PHSource.
Proof. solve_decision. Defined.
#[global] Instance RequestCondition_eq_dec : EqDecision RequestCondition.
Proof. solve_decision. Defined.
#[global] Instance RequestRuleGroup_eq_dec : EqDecision RequestRuleGroup.
Proof. solve_decision. Defined.

(** ** State *)

Inductive EditorMode := Visual | Raw.
#[global] Instance EditorMode_eq_dec : EqDecision EditorMode.
Proof. solve_decision. Defined.

(** The props that are data; the page holds them as state. *)
Record Props := mkProps { modelName : list N; billingExpr : list N; requestRuleExpr : list N }.

Record Editor := mkEditor {
  editorMode : EditorMode;
  visualConfig : option VisualConfig;
  rawExpr : list N;
  requestRuleGroups : list RequestRuleGroup;
  initRef : bool }.

(** The dependencies of the effects as of a render.  Rule groups are compared by
    value: a second run on equal groups asks for the same update. *)
Record Deps := mkDeps {
  dep_model : list N;
  dep_expr : list N;
  dep_rules : list N;
  dep_effective : list N;
  dep_mode : EditorMode;
  dep_groups : list RequestRuleGroup }.

(** [seen] is [None] before the effects of the first render. *)
Record Sys := mkSys { props : Props; ed : Editor; seen : option Deps }.

Definition parsed_groups (rules : list N) : list RequestRuleGroup := default [] (tryParseRequestRuleExpr rules).

(** The initial values of the state variables. *)
Definition mount (p : Props) : Sys :=
  mkSys p
    (mkEditor Visual (tryParseVisualConfig (Some (billingExpr p))) (combineBillingExpr (billingExpr p) (requestRuleExpr p))
       (parsed_groups (requestRuleExpr p)) false)
    None.

Definition effectiveExpr (e : Editor) : list N :=
  match editorMode e with
  | Visual => generateExprFromVisualConfig (visualConfig e)
  | Raw => (splitBillingExprAndRequestRules (rawExpr e)).1
  end.

Definition canUseVisualRules (rules : list N) : bool :=
  if nonempty rules then match tryParseRequestRuleExpr rules with Some _ => true | None => false end else true.

(** ** Effects *)

(** The first effect, once its guard lets it through. *)
Definition initialise (p : Props) (e : Editor) : Editor :=
  let '(vc, mode) :=
    match tryParseVisualConfig (Some (billingExpr p)) with
    | Some parsedConfig => (Some parsedConfig, Visual)
    | None => if nonempty (billingExpr p) then (None, Raw) else (Some createDefaultVisualConfig, editorMode e)
    end in
  mkEditor mode vc (combineBillingExpr (billingExpr p) (requestRuleExpr p)) (parsed_groups (requestRuleExpr p)) true.

Definition init_effect (p : Props) (e : Editor) : Editor := if initRef e then e else initialise p e.

(** The effect on the model name. *)
Definition reset_effect (e : Editor) : Editor :=
  mkEditor (editorMode e) (visualConfig e) (rawExpr e) (requestRuleGroups e) false.

(** The price passed to the page, when it differs. *)
Definition billing_effect (p : Props) (e : Editor) : list N :=
  if bool_decide (effectiveExpr e = billingExpr p) then billingExpr p else effectiveExpr e.

(** The rules passed to the page, in visual mode and when they differ. *)
Definition rules_effect (p : Props) (e : Editor) : list N :=
  match editorMode e with
  | Visual =>
      let ruleExpr := buildRequestRuleExpr (requestRuleGroups e) in
      if bool_decide (ruleExpr = requestRuleExpr p) then requestRuleExpr p else ruleExpr
  | Raw => requestRuleExpr p
  end.

Definition deps (p : Props) (e : Editor) : Deps :=
  mkDeps (modelName p) (billingExpr p) (requestRuleExpr p) (effectiveExpr e) (editorMode e) (requestRuleGroups e).

(** Whether the dependencies picked by [f] differ from those of the render before. *)
Definition changed {A} `{EqDecision A} (f : Deps -> A) (s : option Deps) (d : Deps) : bool :=
  match s with None => true | Some d0 => negb (bool_decide (f d0 = f d)) end.

(** The effects of one render, and the props and state of the next. *)
Definition commit (s : Sys) : Sys :=
  let p := props s in
  let e := ed s in
  let d := deps p e in
  let e1 := if changed (fun d => (dep_expr d, dep_rules d)) (seen s) d then init_effect p e else e in
  let e2 := if changed dep_model (seen s) d then reset_effect e1 else e1 in
  let b := if changed (fun d => (dep_effective d, dep_expr d)) (seen s) d then billing_effect p e else billingExpr p in
  let r := if changed (fun d => (dep_mode d, dep_groups d, dep_rules d)) (seen s) d then rules_effect p e
           else requestRuleExpr p in
  mkSys (mkProps (modelName p) b r) e2 (Some d).

Fixpoint settle (n : nat) (s : Sys) : Sys :=
  match n with O => s | S n => settle n (commit s) end.

(** A render whose effects change nothing. *)
Definition at_rest (s : Sys) : Prop := commit s = s.

(** ** Handlers *)

Definition with_rules (r : list N) (p : Props) : Props := mkProps (modelName p) (billingExpr p) r.

Definition handleVisualChange (next : VisualConfig) (s : Sys) : Sys :=
  let e := ed s in
  mkSys (props s) (mkEditor (editorMode e) (Some next) (rawExpr e) (requestRuleGroups e) (initRef e)) (seen s).

Definition handleRawChange (value : list N) (s : Sys) : Sys :=
  let e := ed s in
  mkSys (with_rules (splitBillingExprAndRequestRules value).2 (props s))
    (mkEditor (editorMode e) (visualConfig e) value (requestRuleGroups e) (initRef e)) (seen s).

(** [a || b] on texts. *)
Definition or_text (a b : list N) : list N := if nonempty a then a else b.

Definition handleModeChange (next : EditorMode) (s : Sys) : Sys :=
  let e := ed s in
  match next with
  | Visual =>
      let '(b, ruleStr) := splitBillingExprAndRequestRules (rawExpr e) in
      let vc := default createDefaultVisualConfig (tryParseVisualConfig (Some b)) in
      mkSys (with_rules ruleStr (props s))
        (mkEditor Visual (Some vc) (rawExpr e) (parsed_groups ruleStr) (initRef e)) (seen s)
  | Raw =>
      let expr := generateExprFromVisualConfig (visualConfig e) in
      let ruleExpr := buildRequestRuleExpr (requestRuleGroups e) in
      mkSys (props s)
        (mkEditor Raw (visualConfig e) (or_text (combineBillingExpr expr ruleExpr) expr) (requestRuleGroups e) (initRef e))
        (seen s)
  end.

Definition applyPreset (preset : Preset) (s : Sys) : Sys :=
  let e := ed s in
  let presetGroups := default [] (preset_rules preset) in
  let ruleExpr := buildRequestRuleExpr presetGroups in
  let combined := or_text (combineBillingExpr (preset_expr preset) ruleExpr) (preset_expr preset) in
  let '(vc, mode) := match tryParseVisualConfig (Some (preset_expr preset)) with
                     | Some c => (Some c, Visual)
                     | None => (None, Raw)
                     end in
  mkSys (with_rules ruleExpr (props s)) (mkEditor mode vc combined presetGroups (initRef e)) (seen s).

Definition handleRuleGroupsChange (next : list RequestRuleGroup) (s : Sys) : Sys :=
  let e := ed s in
  mkSys (props s) (mkEditor (editorMode e) (visualConfig e) (rawExpr e) next (initRef e)) (seen s).

(** What the user does; the rule groups are shown when the rules can be read, and
    the two editors in their modes.  The model may be renamed while the editor is open. *)
Inductive Event :=
| VisualEdit (e : ConfigEdit)
| RawEdit (value : list N)
| ModeChange (next : EditorMode)
| PresetClick (preset : Preset)
| RuleEdit (e : RulesEdit)
| Rename (name : list N).

Definition handle (s : Sys) (ev : Event) : Sys :=
  match ev with
  | VisualEdit e =>
      match editorMode (ed s) with Visual => handleVisualChange (visual_edit (visualConfig (ed s)) e) s | Raw => s end
  | RawEdit value => match editorMode (ed s) with Raw => handleRawChange value s | Visual => s end
  | ModeChange next => handleModeChange next s
  | PresetClick preset => applyPreset preset s
  | RuleEdit e =>
      match editorMode (ed s) with
      | Visual =>
          if nonempty (requestRuleExpr (props s)) && negb (canUseVisualRules (requestRuleExpr (props s))) then s
          else handleRuleGroupsChange (rules_edit (requestRuleGroups (ed s)) e) s
      | Raw => s
      end
  | Rename name => mkSys (mkProps name (billingExpr (props s)) (requestRuleExpr (props s))) (ed s) (seen s)
  end.

(** Five renders are enough for the effects to come to rest ([editor_settles]). *)
Definition RENDERS : nat := 5.
Definition step (s : Sys) (ev : Event) : Sys := settle RENDERS (handle s ev).
Definition open_editor (p : Props) : Sys := settle RENDERS (mount p).

(** ** The effects come to rest *)

#[local] Arguments splitBillingExprAndRequestRules : simpl never.
#[local] Arguments combineBillingExpr : simpl never.
#[local] Arguments tryParseVisualConfig : simpl never.
#[local] Arguments tryParseRequestRuleExpr : simpl never.
#[local] Arguments generateExprFromVisualConfig : simpl never.
#[local] Arguments buildRequestRuleExpr : simpl never.
#[local] Arguments visual_edit : simpl never.
#[local] Arguments rules_edit : simpl never.
#[local] Arguments parsed_groups : simpl never.

(** What the page holds is what the editor stands for. *)
Definition in_step (s : Sys) : Prop :=
  billingExpr (props s) = effectiveExpr (ed s) /\
  (editorMode (ed s) = Visual -> requestRuleExpr (props s) = buildRequestRuleExpr (requestRuleGroups (ed s))).

(** An effect that does not run again has nothing left to ask for. *)
Definition coherent (s : Sys) : Prop :=
  match seen s with
  | None => True
  | Some d =>
      (dep_expr d = billingExpr (props s) -> dep_effective d = billingExpr (props s)) /\
      (dep_mode d = Visual -> dep_rules d = requestRuleExpr (props s) ->
       buildRequestRuleExpr (dep_groups d) = requestRuleExpr (props s))
  end.

Lemma changed_false {A} `{EqDecision A} (f : Deps -> A) s d :
  changed f s d = false <-> exists d0, s = Some d0 /\ f d0 = f d.
Proof.
  unfold changed. destruct s as [d0|]; [|split; [done|by intros (? & ? & _)]].
  rewrite negb_false_iff, bool_decide_eq_true. split; [eauto|]. by intros (? & [= <-] & ?).
Qed.

Lemma commit_billing s : coherent s -> billingExpr (props (commit s)) = effectiveExpr (ed s).
Proof.
  intros Hc. cbn. destruct (changed _ _ _) eqn:E.
  - unfold billing_effect. destruct (bool_decide_reflect (effectiveExpr (ed s) = billingExpr (props s))) as [H|H]; done.
  - apply changed_false in E as (d & Hd & [= H1 H2]). unfold coherent in Hc. rewrite Hd in Hc.
    destruct Hc as [Hc _]. rewrite <- H1. symmetry. by apply Hc.
Qed.

Lemma commit_rules s : coherent s ->
  requestRuleExpr (props (commit s)) =
  match editorMode (ed s) with
  | Visual => buildRequestRuleExpr (requestRuleGroups (ed s))
  | Raw => requestRuleExpr (props s)
  end.
Proof.
  intros Hc. cbn. destruct (changed _ _ _) eqn:E.
  - unfold rules_effect. destruct (editorMode (ed s)); [|done].
    destruct (bool_decide_reflect (buildRequestRuleExpr (requestRuleGroups (ed s)) = requestRuleExpr (props s))); done.
  - apply changed_false in E as (d & Hd & [= H1 H2 H3]). unfold coherent in Hc. rewrite Hd in Hc.
    destruct (editorMode (ed s)); [|done]. rewrite <- H2. symmetry. by apply Hc.
Qed.

Lemma commit_coherent s : coherent s -> coherent (commit s).
Proof.
  intros Hc. pose proof (commit_billing s Hc) as Hb. pose proof (commit_rules s Hc) as Hr.
  unfold coherent. cbn [seen commit]. cbn [dep_expr dep_effective dep_mode dep_rules dep_groups deps].
  split; [by intros _|]. intros Hm _. rewrite Hm in Hr. by symmetry.
Qed.

Lemma settle_coherent n : forall s, coherent s -> coherent (settle n s).
Proof. induction n as [|n IH]; intros s H; [done|]. simpl. by apply IH, commit_coherent. Qed.

(** The effects of a render at rest change neither props nor state. *)
Lemma rest_in_step s : coherent s -> at_rest s -> in_step s.
Proof.
  intros Hc Hr. split.
  - rewrite <- (commit_billing s Hc). by rewrite Hr.
  - intros Hm. pose proof (commit_rules s Hc) as H. rewrite Hm in H. by rewrite <- H, Hr.
Qed.

Lemma settle_rest n s : at_rest s -> settle n s = s.
Proof. intros H. induction n as [|n IH]; [done|]. simpl. by rewrite H. Qed.

Lemma settle_add n k s : settle (n + k) s = settle k (settle n s).
Proof. revert s. induction n as [|n IH]; intros s; [done|]. simpl. apply IH. Qed.

(** The render before had the same model. *)
Definition known (s : Sys) : Prop := exists d, seen s = Some d /\ dep_model d = modelName (props s).

Lemma commit_known s : known (commit s).
Proof. by eexists. Qed.

Lemma commit_ed s : known s ->
  ed (commit s) = ed s \/ ed (commit s) = init_effect (props s) (ed s) /\ initRef (ed (commit s)) = true.
Proof.
  intros (d & Hd & Hm). cbn. rewrite Hd. cbn [changed]. rewrite (bool_decide_eq_true_2 (dep_model d = _)) by done.
  cbn [negb]. destruct (bool_decide _); cbn [negb]; [by left|right; split; [done|]].
  unfold init_effect. destruct (initRef (ed s)) eqn:E; [done|]. unfold initialise.
  by destruct (tryParseVisualConfig _); [|destruct (nonempty _)].
Qed.

Lemma commit_ed_ready s : known s -> initRef (ed s) = true -> ed (commit s) = ed s.
Proof. intros Hk Hi. destruct (commit_ed s Hk) as [H|[H _]]; [done|]. rewrite H. unfold init_effect. by rewrite Hi. Qed.

(** Nothing has changed since the render before. *)
Lemma rest_same s : seen s = Some (deps (props s) (ed s)) -> at_rest s.
Proof.
  intros H. unfold at_rest, commit. rewrite H. cbn [changed]. rewrite !bool_decide_eq_true_2 by done. cbn [negb].
  destruct s as [[] ? ?]. cbn in *. by rewrite H.
Qed.

Lemma rest_after s : coherent s -> ed (commit s) = ed s -> billingExpr (props s) = effectiveExpr (ed s) ->
  (editorMode (ed s) = Visual -> requestRuleExpr (props s) = buildRequestRuleExpr (requestRuleGroups (ed s))) ->
  at_rest (commit s).
Proof.
  intros Hc He Hb Hr. apply rest_same. rewrite He.
  assert (props (commit s) = props s) as ->; [|done].
  pose proof (commit_billing s Hc) as H1. pose proof (commit_rules s Hc) as H2.
  destruct (props (commit s)) as [m' b' r'] eqn:E. assert (m' = modelName (props s)) as -> by (cbn in E; congruence).
  cbn [billingExpr requestRuleExpr] in H1, H2. rewrite H1, <- Hb, H2. destruct (props s) as [m b r] eqn:E'. cbn in *.
  destruct (editorMode (ed s)); [|done]. by rewrite Hr.
Qed.

Lemma ready_settles s : coherent s -> known s -> initRef (ed s) = true -> at_rest (settle 2 s).
Proof.
  intros Hc Hk Hi. pose proof (commit_coherent s Hc) as Hc1.
  pose proof (commit_ed_ready s Hk Hi) as E1.
  assert (ed (commit (commit s)) = ed (commit s)) as E2 by (apply commit_ed_ready; [apply commit_known|by rewrite E1]).
  simpl. apply rest_after; [done|done|rewrite E1; by apply commit_billing|].
  rewrite E1. intros Hm. rewrite (commit_rules s Hc), Hm. done.
Qed.

Lemma settles s : coherent s -> at_rest (settle RENDERS s).
Proof.
  intros Hc. change RENDERS with (1 + 4). rewrite settle_add. change (settle 1 s) with (commit s).
  pose proof (commit_known s) as Hk. apply commit_coherent in Hc. generalize dependent (commit s). clear s. intros s Hc Hk.
  pose proof (commit_coherent s Hc) as Hc1.
  assert (forall k t, at_rest (settle 2 t) -> at_rest (settle (2 + k) t)) as Hext.
  { intros k t H. rewrite settle_add. by rewrite (settle_rest k _ H). }
  destruct (commit_ed s Hk) as [E1|[_ E1]].
  - (* no initialisation in this render; look at the next *)
    change (settle 4 s) with (settle 3 (commit s)).
    destruct (commit_ed (commit s) (commit_known s)) as [E2|[_ E2]].
    + change (settle 3 (commit s)) with (settle 2 (commit (commit s))).
      assert (at_rest (commit (commit s))) as H; [|by rewrite (settle_rest 2 _ H)].
      apply rest_after; [done|done|rewrite E1; by apply commit_billing|].
      rewrite E1. intros Hm. rewrite (commit_rules s Hc), Hm. done.
    + change (settle 3 (commit s)) with (settle 2 (commit (commit s))).
      apply ready_settles; [by apply commit_coherent|apply commit_known|done].
  - change (settle 4 s) with (settle (2 + 1) (commit s)). apply Hext. apply ready_settles; [done|apply commit_known|done].
Qed.

Lemma handle_coherent s ev : coherent s -> at_rest s -> coherent (handle s ev).
Proof.
  intros Hc Hr. pose proof (rest_in_step s Hc Hr) as [Hb Hg].
  assert (seen s = Some (deps (props s) (ed s))) as Hs by exact (eq_sym (f_equal seen Hr)).
  assert (seen (handle s ev) = seen s /\ billingExpr (props (handle s ev)) = billingExpr (props s)) as [E1 E2].
  { destruct ev; cbn; try done.
    - by destruct (editorMode (ed s)).
    - by destruct (editorMode (ed s)).
    - destruct next; [|done]. unfold handleModeChange. by destruct (splitBillingExprAndRequestRules (rawExpr (ed s))).
    - unfold applyPreset. by destruct (tryParseVisualConfig _).
    - destruct (editorMode (ed s)); [|done]. by destruct (_ && _). }
  unfold coherent. rewrite E1, E2, Hs. cbn. split; [by intros _|].
  intros Hm Hru. rewrite <- Hru. symmetry. by apply Hg.
Qed.

Lemma open_rest p : coherent (open_editor p) /\ at_rest (open_editor p).
Proof. split; [by apply settle_coherent|by apply settles]. Qed.

Lemma run_rest p evs : coherent (fold_left step evs (open_editor p)) /\ at_rest (fold_left step evs (open_editor p)).
Proof.
  generalize (open_rest p). generalize (open_editor p). induction evs as [|ev evs IH]; intros s [Hc Hr]; [done|].
  simpl. apply IH. unfold step. split; [apply settle_coherent|apply settles]; by apply handle_coherent.
Qed.

(** ** Opening the editor on a saved price *)

Lemma no_price_unread : tryParseVisualConfig (Some NO_PRICE) = None.
Proof. vm_compute. reflexivity. Qed.

Lemma mount_rules p : requestRuleExpr (props (commit (mount p))) = buildRequestRuleExpr (parsed_groups (requestRuleExpr p)).
Proof. exact (commit_rules (mount p) I). Qed.

Lemma commit_init s d : seen s = Some d -> dep_model d = modelName (props s) -> initRef (ed s) = false ->
  (dep_expr d, dep_rules d) <> (billingExpr (props s), requestRuleExpr (props s)) ->
  ed (commit s) = initialise (props s) (ed s).
Proof.
  intros Hd Hm Hi Hx. cbn. rewrite Hd. cbn [changed]. rewrite (bool_decide_eq_true_2 (dep_model d = _)) by done.
  rewrite bool_decide_eq_false_2 by done. cbn [negb]. unfold init_effect. by rewrite Hi.
Qed.

(** The rules the editor makes of a text it cannot read are none. *)
Definition kept_rules (r : list N) : list N := buildRequestRuleExpr (parsed_groups r).

(** The state after the second render, on a price that is not shown as tiers. *)
Lemma unread_second p :
  tryParseVisualConfig (Some (billingExpr p)) = None -> billingExpr p <> NO_PRICE ->
  let s := settle 2 (mount p) in
  ed s = mkEditor Raw None (combineBillingExpr NO_PRICE (kept_rules (requestRuleExpr p)))
           (parsed_groups (kept_rules (requestRuleExpr p))) true /\
  requestRuleExpr (props s) = kept_rules (requestRuleExpr p).
Proof.
  intros Hu Hn.
  assert (billingExpr (props (commit (mount p))) = NO_PRICE) as Hb.
  { refine (eq_trans (commit_billing (mount p) I) _). cbn. by rewrite Hu. }
  pose proof (mount_rules p) as Hr.
  assert (ed (settle 2 (mount p)) = initialise (props (commit (mount p))) (ed (commit (mount p)))) as He.
  { change (settle 2 (mount p)) with (commit (commit (mount p))). eapply commit_init; [done|done|done|].
    intros E. apply Hn. exact (eq_trans (f_equal fst E) Hb). }
  split.
  - rewrite He. unfold initialise. rewrite Hb, Hr, no_price_unread. done.
  - change (settle 2 (mount p)) with (commit (commit (mount p))).
    refine (eq_trans (commit_rules (commit (mount p)) (commit_coherent (mount p) I)) _).
    destruct (editorMode (ed (commit (mount p)))); [|exact Hr].
    cbn. unfold init_effect. cbn. unfold initialise. rewrite Hu. by destruct (nonempty _).
Qed.

(** Once initialised, only the user changes the editor. *)
Lemma ready_ed n : forall s, known s -> initRef (ed s) = true -> ed (settle n s) = ed s.
Proof.
  induction n as [|n IH]; intros s Hk Hi; [done|]. simpl. pose proof (commit_ed_ready s Hk Hi) as E.
  rewrite IH; [done|apply commit_known|by rewrite E].
Qed.

Lemma ready_rules n : forall s, coherent s -> known s -> initRef (ed s) = true -> editorMode (ed s) = Raw ->
  requestRuleExpr (props (settle n s)) = requestRuleExpr (props s).
Proof.
  induction n as [|n IH]; intros s Hc Hk Hi Hm; [done|]. simpl. pose proof (commit_ed_ready s Hk Hi) as E.
  rewrite IH; [|by apply commit_coherent|apply commit_known|by rewrite E..].
  rewrite commit_rules by done. by rewrite Hm.
Qed.

Lemma kept_unread r : tryParseRequestRuleExpr r = None -> kept_rules r = [].
Proof. intros H. unfold kept_rules, parsed_groups. rewrite H. done. Qed.

Lemma parsed_built gs : forallb canonical_group gs = true -> forallb readable_group gs = true ->
  parsed_groups (buildRequestRuleExpr gs) = gs.
Proof. intros Hc Hr. unfold parsed_groups. pose proof (rules_read gs Hc) as H. by rewrite H, Hr. Qed.

Lemma kept_built gs : forallb canonical_group gs = true -> forallb readable_group gs = true ->
  kept_rules (buildRequestRuleExpr gs) = buildRequestRuleExpr gs.
Proof. intros Hc Hr. unfold kept_rules. by rewrite parsed_built. Qed.

(** The price that charges nothing is told from the rules around it. *)
Lemma no_price_split gs : forallb canonical_group gs = true -> forallb readable_group gs = true ->
  splitBillingExprAndRequestRules (combineBillingExpr NO_PRICE (buildRequestRuleExpr gs)) = (NO_PRICE, buildRequestRuleExpr gs).
Proof.
  intros Hc Hr. destruct gs as [|g gs]; [vm_compute; reflexivity|].
  apply combined_splits; first [done | vm_compute; reflexivity | discriminate].
Qed.

(** Rules a user of the editor has written, or a text the editor cannot read. *)
Definition written_or_unread (r : list N) : Prop :=
  tryParseRequestRuleExpr r = None \/
  exists gs, r = buildRequestRuleExpr gs /\ forallb canonical_group gs = true /\ forallb readable_group gs = true.

Lemma kept_split r : written_or_unread r ->
  (splitBillingExprAndRequestRules (combineBillingExpr NO_PRICE (kept_rules r))).1 = NO_PRICE.
Proof.
  intros [H|(gs & -> & Hc & Hr)].
  - rewrite kept_unread by done. vm_compute. reflexivity.
  - rewrite kept_built by done. by rewrite no_price_split.
Qed.

Lemma unread_price p :
  tryParseVisualConfig (Some (billingExpr p)) = None -> billingExpr p <> NO_PRICE -> written_or_unread (requestRuleExpr p) ->
  billingExpr (props (open_editor p)) = NO_PRICE.
Proof.
  intros Hu Hn Hr. destruct (open_rest p) as [Hc Ha]. destruct (rest_in_step _ Hc Ha) as [-> _].
  destruct (unread_second p Hu Hn) as [He _].
  assert (ed (open_editor p) = ed (settle 2 (mount p))) as ->.
  { unfold open_editor. change RENDERS with (2 + 3). rewrite settle_add. apply ready_ed; [apply commit_known|by rewrite He]. }
  rewrite He. unfold effectiveExpr. cbn [editorMode rawExpr]. by apply kept_split.
Qed.

(** No groups and no rules stay so. *)
Lemma no_rules_commit s : coherent s -> requestRuleGroups (ed s) = [] -> requestRuleExpr (props s) = [] ->
  requestRuleGroups (ed (commit s)) = [] /\ requestRuleExpr (props (commit s)) = [].
Proof.
  intros Hc Hg Hr. split.
  - cbn. unfold reset_effect, init_effect, initialise. rewrite Hr.
    destruct (changed _ _ _), (changed _ _ _), (initRef (ed s)); try done; cbn;
      destruct (tryParseVisualConfig _); try done; by destruct (nonempty _).
  - rewrite commit_rules by done. rewrite Hg, Hr. by destruct (editorMode (ed s)).
Qed.

Lemma unread_rules p : tryParseRequestRuleExpr (requestRuleExpr p) = None -> requestRuleExpr (props (open_editor p)) = [].
Proof.
  intros Hu. unfold open_editor. change RENDERS with (1 + 4). rewrite settle_add.
  assert (forall n s, coherent s -> requestRuleGroups (ed s) = [] -> requestRuleExpr (props s) = [] ->
    requestRuleExpr (props (settle n s)) = []) as Hind.
  { induction n as [|n IH]; intros s Hc Hg Hr; [done|]. simpl.
    destruct (no_rules_commit s Hc Hg Hr). apply IH; [by apply commit_coherent|done..]. }
  apply Hind; [by apply (commit_coherent (mount p))| |].
  - cbn. unfold init_effect, initialise. cbn. unfold parsed_groups. rewrite Hu.
    destruct (tryParseVisualConfig _); [done|]. by destruct (nonempty _).
  - change (settle 1 (mount p)) with (commit (mount p)). rewrite mount_rules. by apply kept_unread.
Qed.

(** What opening the editor does to a price it cannot show as tiers.  Rules its reader
    does not accept are replaced by none; and a price that is not in the form the
    visual editor writes, with rules that are written by the editor or not read, is
    replaced by the price that charges nothing, without any action of the user. *)
Theorem opening_overwrites_unread p :
  (tryParseRequestRuleExpr (requestRuleExpr p) = None -> requestRuleExpr (props (open_editor p)) = []) /\
  (tryParseVisualConfig (Some (billingExpr p)) = None -> billingExpr p <> NO_PRICE -> written_or_unread (requestRuleExpr p) ->
   billingExpr (props (open_editor p)) = NO_PRICE).
Proof. split; [apply unread_rules|apply unread_price]. Qed.

Definition unread_props : Props :=
  mkProps (js "gemini-2.5-flash") (dq "tier('base', p * 0.3 + c * 2.5 + cr * 0.03 + ai * 1.0)") (buildRequestRuleExpr unreadable_rules).

Lemma opening_overwrites_unread_witness :
  requestRuleExpr (props (open_editor unread_props)) = [] /\ billingExpr (props (open_editor unread_props)) = NO_PRICE.
Proof.
  destruct (opening_overwrites_unread unread_props) as [H1 H2]. split.
  - apply H1. vm_compute. reflexivity.
  - apply H2; [vm_compute; reflexivity|discriminate|]. left. vm_compute. reflexivity.
Defined.

(** ** A price the editor wrote *)

Lemma props_eq p q : modelName p = modelName q -> billingExpr p = billingExpr q -> requestRuleExpr p = requestRuleExpr q -> p = q.
Proof. destruct p, q. cbn. by intros -> -> ->. Qed.

(** A price that the visual editor shows and writes again as it is. *)
Lemma stable_open p c :
  tryParseVisualConfig (Some (billingExpr p)) = Some c -> generateExprFromVisualConfig (Some c) = billingExpr p ->
  kept_rules (requestRuleExpr p) = requestRuleExpr p ->
  open_editor p = mkSys p (ed (mount p)) (Some (deps p (ed (mount p)))).
Proof.
  intros Hc Hg Hr.
  assert (commit (mount p) = mkSys p (ed (mount p)) (Some (deps p (ed (mount p))))) as E.
  { assert (ed (commit (mount p)) = ed (mount p)) as He by (cbn; unfold init_effect; cbn; unfold initialise, reset_effect; by rewrite Hc).
    assert (props (commit (mount p)) = p) as Hp.
    { apply props_eq; [done| |].
      - refine (eq_trans (commit_billing (mount p) I) _). unfold effectiveExpr. cbn. by rewrite Hc.
      - rewrite mount_rules. exact Hr. }
    transitivity (mkSys (props (commit (mount p))) (ed (commit (mount p))) (seen (commit (mount p)))); [by destruct (commit (mount p))|].
    by rewrite He, Hp. }
  unfold open_editor. change RENDERS with (1 + 4). rewrite settle_add. change (settle 1 (mount p)) with (commit (mount p)).
  rewrite E. by apply settle_rest, rest_same.
Qed.

(** C7: A price the visual editor saved with tiers it reads again opens as it was saved.  For
    tiers within the limits of the language, all but the last with a condition, and for
    rules in normal shape and readable, the editor opened on the two texts asks for no
    change of them, and shows the tiers in canonical form and the same rules.  Opening a
    price outside these limits changes it ([opening_overwrites_unread]). *)
Theorem saved_price_reopens name (tiers : list VisualTier) gs :
  saveable tiers = true -> VisualRoundtrip.readable tiers = true ->
  forallb canonical_group gs = true -> forallb readable_group gs = true ->
  let p := mkProps name (generateExprFromVisualConfig (Some tiers)) (buildRequestRuleExpr gs) in
  let s := open_editor p in
  props s = p /\ editorMode (ed s) = Visual /\ visualConfig (ed s) = Some (canonical_config tiers) /\
  requestRuleGroups (ed s) = gs.
Proof.
  intros Hs Hr Hgc Hgr p s. pose proof (saveable_read tiers Hs) as Hp. rewrite Hr in Hp.
  pose proof (saveable_canonical tiers Hs) as Hg.
  unfold s. rewrite (stable_open p (canonical_config tiers)); [|exact Hp|exact Hg|by apply kept_built].
  cbn. rewrite Hp. split_and!; [done..|by apply parsed_built].
Qed.

(** Simple tiers and rules a user may have saved. *)
Definition saved_tiers : list VisualTier :=
  [mkVisual (Some (js "short")) (Some [limit_condition (js "len")]) (Some (num_of_Z 3)) (Some (num_of_Z 15)) (Some CACHE_MODE_GENERIC) ∅;
   mkVisual (Some (js "long")) (Some []) (Some (num_of_Z 6)) (Some (num_of_decimal 225 (-1))) (Some CACHE_MODE_GENERIC) ∅].

Lemma saved_price_reopens_witness :
  let p := mkProps (js "m") (generateExprFromVisualConfig (Some saved_tiers)) (buildRequestRuleExpr sample_rules) in
  props (open_editor p) = p /\ requestRuleGroups (ed (open_editor p)) = sample_rules.
Proof.
  destruct (saved_price_reopens (js "m") saved_tiers sample_rules) as (H & _ & _ & H'); [vm_compute; reflexivity..|]. split; assumption.
Defined.

(** ** What the page holds *)

Lemma rest_seen s : at_rest s -> seen s = Some (deps (props s) (ed s)).
Proof. intros Hr. exact (eq_sym (f_equal seen Hr)). Qed.

Lemma raw_edit_passed s value :
  coherent s -> at_rest s -> editorMode (ed s) = Raw -> initRef (ed s) = true ->
  rawExpr (ed (step s (RawEdit value))) = value /\
  (billingExpr (props (step s (RawEdit value))), requestRuleExpr (props (step s (RawEdit value)))) = splitBillingExprAndRequestRules value.
Proof.
  intros Hc Hr Hm Hi. unfold step. set (s1 := handle s (RawEdit value)).
  assert (s1 = handleRawChange value s) as E1 by (unfold s1; cbn [handle]; by rewrite Hm).
  pose proof (handle_coherent s (RawEdit value) Hc Hr) as Hc1. fold s1 in Hc1.
  assert (known s1) as Hk by (rewrite E1; exists (deps (props s) (ed s)); split; [exact (rest_seen s Hr)|done]).
  assert (initRef (ed s1) = true) as Hi1 by (by rewrite E1).
  assert (ed (settle RENDERS s1) = ed s1) as Ee by (by apply ready_ed).
  assert (in_step (settle RENDERS s1)) as [Hb _] by (apply rest_in_step; [by apply settle_coherent|by apply settles]).
  assert (requestRuleExpr (props (settle RENDERS s1)) = requestRuleExpr (props s1)) as Er by (apply ready_rules; [done|done|done|by rewrite E1]).
  split; [by rewrite Ee, E1|]. rewrite Hb, Er, Ee, E1. unfold effectiveExpr. cbn. rewrite Hm. by destruct (splitBillingExprAndRequestRules value).
Qed.

Lemma to_raw_rules s :
  coherent s -> at_rest s -> initRef (ed s) = true -> requestRuleExpr (props (step s (ModeChange Raw))) = requestRuleExpr (props s).
Proof.
  intros Hc Hr Hi. unfold step.
  rewrite (ready_rules RENDERS (handle s (ModeChange Raw))); [done|by apply handle_coherent| |done|done].
  exists (deps (props s) (ed s)). split; [exact (rest_seen s Hr)|done].
Qed.


(** A rule the editor writes and does not read: in expression mode the price the page holds
    contains the rule, and the page still holds the rule besides. *)
Example unread_rules_doubled :
  let edits := map RuleEdit
    [AddGroup; EditGroup 0 (OnRuleCondition 0 (EditPath (js "n"))); EditGroup 0 (OnRuleCondition 0 (EditText (js "1")));
     EditGroup 0 (OnMultiplier (num_of_Z 2)); EditGroup 0 (OnRuleCondition 0 (EditMode MATCH_GT))] in
  let s := fold_left step (edits ++ [ModeChange Raw]) (open_editor (mkProps (js "m") (generateExprFromVisualConfig (Some saved_tiers)) [])) in
  requestRuleExpr (props s) <> [] /\
  billingExpr (props s) = combineBillingExpr (generateExprFromVisualConfig (Some saved_tiers)) (requestRuleExpr (props s)).
Proof. vm_compute. split; [discriminate|reflexivity]. Qed.

(** ** Switching between the modes *)

(** A handler after which the page already holds what the editor stands for. *)
Lemma quiet_handler n s e :
  coherent s -> at_rest s -> in_step (mkSys (props s) e (seen s)) ->
  let s' := settle (S n) (mkSys (props s) e (seen s)) in props s' = props s /\ ed s' = e.
Proof.
  intros Hc Hr [Hb Hg].
  assert (seen s = Some (deps (props s) (ed s))) as Hs by exact (eq_sym (f_equal seen Hr)).
  pose proof (rest_in_step s Hc Hr) as [Hb0 Hg0].
  assert (coherent (mkSys (props s) e (seen s))) as Hc' by (unfold coherent in *; exact Hc).
  assert (ed (commit (mkSys (props s) e (seen s))) = e) as He.
  { cbn. rewrite Hs. cbn [changed deps dep_expr dep_rules dep_model]. by rewrite !bool_decide_eq_true_2 by done. }
  assert (props (commit (mkSys (props s) e (seen s))) = props s) as Hp.
  { apply props_eq; [done|by rewrite commit_billing|]. rewrite commit_rules by done. cbn [ed props editorMode] in *.
    destruct (editorMode e); [by rewrite Hg|done]. }
  assert (at_rest (commit (mkSys (props s) e (seen s)))) as Ha by (apply rest_same; rewrite He, Hp; done).
  cbn [settle]. rewrite (settle_rest n _ Ha). done.
Qed.

Lemma or_text_combine (g r : list N) : opens g -> closed g -> or_text (combineBillingExpr g r) g = combineBillingExpr g r.
Proof.
  intros Ho Hc. destruct (text_trimmed g Ho Hc) as [Ht _]. unfold or_text, combineBillingExpr. rewrite trim_trimmed by done.
  pose proof (opens_nonempty g Ho). destruct g; [done|]. cbn [nonempty negb]. by destruct (nonempty (trim r)).
Qed.

(** Switching to the expression and back keeps the price.  At rest in visual mode, on
    tiers within the limits of the language, all but the last with a condition, and
    on readable rules: the expression mode shows the price combined with the rules and
    changes nothing the page holds, and the way back shows the same tiers, in canonical
    form, and the same rules, and again changes nothing. *)
Theorem mode_switch_keeps_price p evs (tiers : list VisualTier) gs :
  let s := fold_left step evs (open_editor p) in
  let s1 := step s (ModeChange Raw) in
  let s2 := step s1 (ModeChange Visual) in
  editorMode (ed s) = Visual -> visualConfig (ed s) = Some tiers -> requestRuleGroups (ed s) = gs ->
  saveable tiers = true -> VisualRoundtrip.readable tiers = true ->
  forallb canonical_group gs = true -> forallb readable_group gs = true ->
  (props s1 = props s /\ editorMode (ed s1) = Raw /\ rawExpr (ed s1) = combineBillingExpr (billingExpr (props s)) (requestRuleExpr (props s))) /\
  (props s2 = props s /\ editorMode (ed s2) = Visual /\ visualConfig (ed s2) = Some (canonical_config tiers) /\
   requestRuleGroups (ed s2) = gs).
Proof.
  intros s s1 s2 Hm Hv Hg Hsa Hre Hgc Hgr. destruct (run_rest p evs) as [Hc Hr]. fold s in Hc, Hr.
  destruct (rest_in_step s Hc Hr) as [Hb Hru]. specialize (Hru Hm). rewrite Hg in Hru.
  unfold effectiveExpr in Hb. rewrite Hm, Hv in Hb.
  destruct (config_shape tiers Hsa) as (_ & _ & Ho & Hcl). pose proof (config_split tiers gs Hsa Hgc Hgr) as Hsp.
  set (e1 := mkEditor Raw (visualConfig (ed s)) (combineBillingExpr (billingExpr (props s)) (requestRuleExpr (props s)))
               (requestRuleGroups (ed s)) (initRef (ed s))).
  assert (handle s (ModeChange Raw) = mkSys (props s) e1 (seen s)) as E1.
  { cbn. unfold e1. rewrite Hv, Hg, Hb, Hru. by rewrite or_text_combine. }
  assert (props s1 = props s /\ ed s1 = e1) as [P1 D1].
  { unfold s1, step. rewrite E1. apply (quiet_handler 4); [done|done|]. split; [|done].
    cbn [props ed]. unfold effectiveExpr, e1. cbn [editorMode rawExpr]. by rewrite Hb, Hru, Hsp. }
  split; [by rewrite P1, D1|].
  destruct (run_rest p (evs ++ [ModeChange Raw])) as [Hc1 Hr1]. rewrite fold_left_app in Hc1, Hr1. cbn [fold_left] in Hc1, Hr1.
  fold s in Hc1, Hr1. fold s1 in Hc1, Hr1.
  set (e2 := mkEditor Visual (Some (canonical_config tiers)) (rawExpr e1) gs (initRef (ed s))).
  assert (handle s1 (ModeChange Visual) = mkSys (props s1) e2 (seen s1)) as E2.
  { unfold handle, handleModeChange. rewrite D1. unfold e1 at 1 2. cbn [rawExpr]. rewrite Hb, Hru, Hsp. unfold e2, with_rules.
    pose proof (saveable_read tiers Hsa) as Hp. rewrite Hre in Hp. rewrite Hp, parsed_built, P1 by done. f_equal; [by apply props_eq|].
    unfold e1. cbn [rawExpr initRef default from_option id]. by rewrite Hb, Hru. }
  assert (props s2 = props s1 /\ ed s2 = e2) as [P2 D2].
  { unfold s2, step. rewrite E2. apply (quiet_handler 4); [done|done|]. split; [|by rewrite P1].
    cbn [props ed]. unfold effectiveExpr, e2. cbn [editorMode visualConfig]. by rewrite P1, Hb, saveable_canonical. }
  rewrite P2, P1, D2. done.
Qed.

Definition saved_props : Props :=
  mkProps (js "m") (generateExprFromVisualConfig (Some saved_tiers)) (buildRequestRuleExpr sample_rules).

Lemma mode_switch_keeps_price_witness :
  props (step (open_editor saved_props) (ModeChange Raw)) = saved_props /\
  props (step (step (open_editor saved_props) (ModeChange Raw)) (ModeChange Visual)) = saved_props.
Proof.
  assert (props (open_editor saved_props) = saved_props) as E by (vm_compute; reflexivity).
  destruct (mode_switch_keeps_price saved_props [] (default [] (visualConfig (ed (open_editor saved_props)))) sample_rules)
    as [(H1 & _) (H2 & _)]; [vm_compute; reflexivity..|].
  cbn [fold_left] in H1, H2. rewrite E in H1, H2. split; assumption.
Defined.

(** ** Presets *)

(** What every preset of the list satisfies, by evaluation. *)
Definition preset_ok (preset : Preset) : bool :=
  let gs := default [] (preset_rules preset) in
  let r := buildRequestRuleExpr gs in
  let e := preset_expr preset in
  nonempty (combineBillingExpr e r) &&
  bool_decide (splitBillingExprAndRequestRules (combineBillingExpr e r) = (e, r)) &&
  bool_decide (parsed_groups r = gs) && nonempty e &&
  match tryParseVisualConfig (Some e) with
  | Some c => bool_decide (generateExprFromVisualConfig (Some c) = e)
  | None => true
  end.

Definition all_presets : list Preset := concat (map snd PRESET_GROUPS).

Lemma presets_ok : forallb preset_ok all_presets = true.
Proof. vm_compute. reflexivity. Qed.

Lemma preset_facts preset : preset ∈ all_presets ->
  let gs := default [] (preset_rules preset) in
  let r := buildRequestRuleExpr gs in
  let e := preset_expr preset in
  or_text (combineBillingExpr e r) e = combineBillingExpr e r /\
  splitBillingExprAndRequestRules (combineBillingExpr e r) = (e, r) /\ parsed_groups r = gs /\ nonempty e = true /\
  forall c, tryParseVisualConfig (Some e) = Some c -> generateExprFromVisualConfig (Some c) = e.
Proof.
  intros H%list_elem_of_In. pose proof (proj1 (forallb_forall _ _) presets_ok _ H) as Hk. unfold preset_ok in Hk.
  apply andb_true_iff in Hk as [(((H1 & H2)%andb_true_iff & H3)%andb_true_iff & H4)%andb_true_iff H5].
  apply bool_decide_eq_true in H2, H3. cbn zeta. split_and!; try done.
  - unfold or_text. by rewrite H1.
  - intros c Hc. rewrite Hc in H5. by apply bool_decide_eq_true in H5.
Qed.

(** The editor as a preset leaves it. *)
Definition preset_editor (preset : Preset) (ref : bool) : Editor :=
  let gs := default [] (preset_rules preset) in
  let vc := tryParseVisualConfig (Some (preset_expr preset)) in
  mkEditor (match vc with Some _ => Visual | None => Raw end) vc
    (combineBillingExpr (preset_expr preset) (buildRequestRuleExpr gs)) gs ref.

Lemma preset_effective preset ref : preset ∈ all_presets -> effectiveExpr (preset_editor preset ref) = preset_expr preset.
Proof.
  intros (_ & Hs & _ & _ & Hg)%preset_facts. unfold effectiveExpr, preset_editor. cbn [editorMode visualConfig rawExpr].
  destruct (tryParseVisualConfig _) as [c|]; [by apply Hg|by rewrite Hs].
Qed.

Lemma preset_handled preset s : preset ∈ all_presets ->
  handle s (PresetClick preset) =
  mkSys (with_rules (buildRequestRuleExpr (default [] (preset_rules preset))) (props s))
    (preset_editor preset (initRef (ed s))) (seen s).
Proof.
  intros (Ho & _)%preset_facts. unfold handle, applyPreset, preset_editor. rewrite Ho. by destruct (tryParseVisualConfig _).
Qed.

Lemma preset_initialise preset p e : preset ∈ all_presets ->
  billingExpr p = preset_expr preset -> requestRuleExpr p = buildRequestRuleExpr (default [] (preset_rules preset)) ->
  initialise p e = preset_editor preset true.
Proof.
  intros (_ & _ & Hp & Hn & _)%preset_facts Hb Hr. unfold initialise, preset_editor. rewrite Hb, Hr, Hp, Hn.
  by destruct (tryParseVisualConfig _).
Qed.

(** A system ready to settle, after a preset. *)
Lemma preset_ready preset n s : preset ∈ all_presets -> coherent s -> known s -> ed s = preset_editor preset true ->
  requestRuleExpr (props s) = buildRequestRuleExpr (default [] (preset_rules preset)) -> at_rest (settle n s) ->
  let s' := settle n s in
  billingExpr (props s') = preset_expr preset /\
  requestRuleExpr (props s') = buildRequestRuleExpr (default [] (preset_rules preset)) /\
  ed s' = preset_editor preset true.
Proof.
  intros Hp Hc Hk He Hr Ha s'. assert (ed s' = preset_editor preset true) as E by (unfold s'; rewrite ready_ed; rewrite ?He; done).
  destruct (rest_in_step s' (settle_coherent n s Hc) Ha) as [Hb Hg]. rewrite E in Hb, Hg.
  split_and!; [by rewrite Hb, preset_effective| |done].
  destruct (editorMode (preset_editor preset true)) eqn:Em; [by apply Hg|].
  unfold s'. rewrite ready_rules; [done|done|done|by rewrite He|by rewrite He].
Qed.

Lemma preset_same_rules preset s : preset ∈ all_presets -> coherent s -> at_rest s -> initRef (ed s) = false ->
  buildRequestRuleExpr (default [] (preset_rules preset)) = requestRuleExpr (props s) ->
  let s' := step s (PresetClick preset) in
  billingExpr (props s') = preset_expr preset /\ requestRuleExpr (props s') = requestRuleExpr (props s).
Proof.
  intros Hp Hc Hr Hi Hru s'. unfold s', step. pose proof (handle_coherent s (PresetClick preset) Hc Hr) as Hc0.
  rewrite preset_handled in * by done. rewrite Hru in *. rewrite Hi in *.
  assert (with_rules (requestRuleExpr (props s)) (props s) = props s) as E by by apply props_eq. rewrite E in *.
  set (s0 := mkSys (props s) (preset_editor preset false) (seen s)) in *.
  assert (ed (commit s0) = preset_editor preset false) as He.
  { cbn. rewrite (rest_seen s Hr). cbn [changed deps dep_expr dep_rules dep_model]. by rewrite !bool_decide_eq_true_2. }
  assert (billingExpr (props (commit s0)) = preset_expr preset) as Hb by (rewrite commit_billing by done; by apply preset_effective).
  assert (requestRuleExpr (props (commit s0)) = requestRuleExpr (props s)) as Hr1.
  { rewrite commit_rules by done. cbn [ed s0]. unfold preset_editor. cbn [editorMode requestRuleGroups].
    by destruct (tryParseVisualConfig _). }
  destruct (decide (billingExpr (props s) = preset_expr preset)) as [Heq|Hneq].
  - destruct (quiet_handler 4 s (preset_editor preset false) Hc Hr) as [Hq _].
    { split; cbn [props ed]; [by rewrite preset_effective|]. intros _. by rewrite <- Hru. }
    change (settle RENDERS s0) with (settle 5 s0). unfold s0. rewrite Hq. done.
  - assert (ed (commit (commit s0)) = preset_editor preset true) as He2.
    { erewrite commit_init; [|done|done|by rewrite He|].
      - apply preset_initialise; [done|done|]. by rewrite Hr1.
      - intros E1. apply Hneq. exact (eq_trans (f_equal fst E1) Hb). }
    assert (requestRuleExpr (props (commit (commit s0))) = buildRequestRuleExpr (default [] (preset_rules preset))) as Hr2.
    { rewrite commit_rules by by apply commit_coherent. rewrite He, Hr1, <- Hru. unfold preset_editor. cbn [editorMode requestRuleGroups].
      by destruct (tryParseVisualConfig _). }
    destruct (preset_ready preset 3 (commit (commit s0)) Hp) as (H1 & H2 & _);
      [by apply commit_coherent, commit_coherent|apply commit_known|done|done|exact (settles s0 Hc0)|].
    rewrite <- Hru. exact (conj H1 H2).
Qed.

(** A preset is applied, with one exception.  In an editor that has been changed since it
    was opened, or when the preset's rules are those already there, a click on any
    preset gives the page the preset's price and rules.  In an editor just opened on a
    price it shows, a preset with other rules leaves the price as it was: the rules
    change first, and that makes the editor start again from the price it was opened on. *)
Theorem preset_click p evs preset :
  preset ∈ all_presets ->
  let s := fold_left step evs (open_editor p) in
  let rules := buildRequestRuleExpr (default [] (preset_rules preset)) in
  let s' := step s (PresetClick preset) in
  (initRef (ed s) = true \/ rules = requestRuleExpr (props s) ->
   billingExpr (props s') = preset_expr preset /\ requestRuleExpr (props s') = rules) /\
  (initRef (ed s) = false -> rules <> requestRuleExpr (props s) ->
   forall c, tryParseVisualConfig (Some (billingExpr (props s))) = Some c ->
   generateExprFromVisualConfig (Some c) = billingExpr (props s) -> billingExpr (props s') = billingExpr (props s)).
Proof.
  intros Hp s rules s'. destruct (run_rest p evs) as [Hc Hr]. fold s in Hc, Hr.
  pose proof (handle_coherent s (PresetClick preset) Hc Hr) as Hc0. pose proof (settles _ Hc0) as Ha.
  assert (known (handle s (PresetClick preset))) as Hk.
  { rewrite preset_handled by done. unfold known. cbn [seen props]. rewrite (rest_seen s Hr). by eexists. }
  split.
  - intros H. destruct (initRef (ed s)) eqn:Hi; [|destruct H as [H|H]; [done|]].
    + destruct (preset_ready preset RENDERS (handle s (PresetClick preset)) Hp) as (H1 & H2 & _);
        [done|done|rewrite preset_handled by done; by rewrite Hi|by rewrite preset_handled|exact Ha|]. done.
    + rewrite H. by apply preset_same_rules.
  - intros Hi Hne c Hpc Hg. unfold s', step in *. rewrite preset_handled in * by done. fold rules in Hc0, Ha, Hk |- *.
    set (s0 := mkSys (with_rules rules (props s)) (preset_editor preset (initRef (ed s))) (seen s)) in *.
    assert (ed (commit s0) = initialise (props s0) (ed s0)) as He.
    { eapply commit_init; [exact (rest_seen s Hr)|done|exact Hi|]. intros E. apply Hne. exact (eq_sym (f_equal snd E)). }
    change (settle RENDERS s0) with (settle 4 (commit s0)) in *.
    destruct (rest_in_step _ (settle_coherent 4 _ (commit_coherent s0 Hc0)) Ha) as [-> _].
    assert (ed (commit s0) = mkEditor Visual (Some c) (combineBillingExpr (billingExpr (props s)) rules) (parsed_groups rules) true) as He'.
    { rewrite He. unfold initialise. change (billingExpr (props s0)) with (billingExpr (props s)). by rewrite Hpc. }
    rewrite ready_ed; [|apply commit_known|by rewrite He']. rewrite He'. exact Hg.
Qed.

Definition night_discount : Preset := default (plain_preset "" "" "") (head time_presets).
Definition flat_preset : Preset := default (plain_preset "" "" "") (head fixed_presets).

Lemma preset_click_witness :
  let s := open_editor saved_props in
  billingExpr (props (step s (PresetClick night_discount))) = billingExpr (props s) /\
  billingExpr (props (step (step s (PresetClick flat_preset)) (PresetClick night_discount))) = preset_expr night_discount.
Proof.
  assert (night_discount ∈ all_presets) as Hin by (apply list_elem_of_In; vm_compute; tauto).
  destruct (preset_click saved_props [] night_discount Hin) as [_ H1].
  destruct (preset_click saved_props [PresetClick flat_preset] night_discount Hin) as [H2 _]. split.
  - apply (H1 (eq_refl false) ltac:(vm_compute; discriminate) (default [] (visualConfig (ed (open_editor saved_props))))); vm_compute; reflexivity.
  - apply H2. left. vm_compute. reflexivity.
Defined.
