(* ===== verification/AssistantKeys.v ===== *)
(** * The assistant's key creation (src/apps/web/src/features/assistant)

    - [assistant-key-creation-machine.ts]: the reducer of the form's state;
    - [assistant-key-contract.ts]: the groups a user may select and the check of
      an action the server prepared;
    - [use-assistant-key-creation.ts]: the hook that drives the machine: the
      user's commands, the effects on the [confirmationAction] property, and the
      asynchronous operations [prepareDraft], [review] and [confirmAction].

    An asynchronous operation is cut at its [await]s: [Pending] says which one is
    awaited and what the closure captured, and [operationRef] is that value being
    present.  The step relation interleaves the user's commands, the effects and
    the answers of the server in any order.  Notifications ([toast]) and
    translations are not modelled.  The zod schemas are library values: their
    [safeParse] is a parameter; so is the collation of [localeCompare]. *)
From S2P Require Import Prelude JsString JsNumber.
From stdpp Require Import relations.
From Stdlib Require Import Lia.

(** ** Data *)

Record AssistantCreateKeyAction := mkAction {
  confirmation_token : list N;
  expires_in_seconds : spec_float;
  action_name : list N;
  action_group : list N;
  conversation_id : option spec_float;
  ui_path : option (list N) }.

Record AssistantCreatedKey := mkKey {
  key_id : Z;
  key_name : list N;
  key_group : list N;
  expired_time : Z;
  card_id : list N;
  card_label : option (list N) }.

Inductive WarningMode := Modal | Banner | Inline.

Record AssistantGroupWarning := mkWarning {
  enabled : bool;
  message : list N;
  mode : WarningMode;
  required : Z (* [confirmations] *) }.

Record AssistantSelectableGroup := mkSelectable {
  group_id : list N;
  warning : option AssistantGroupWarning }.

Inductive PreparedSource := External | Local.

Inductive AssistantKeyCreationPhase :=
| PDraft
| PWarning (w : AssistantGroupWarning) (confirmations : Z)
| PPreparing
| PExternal (action : AssistantCreateKeyAction)
| PReviewing (action : AssistantCreateKeyAction) (source : PreparedSource) (twoFactorCode : list N)
| PConfirming (action : AssistantCreateKeyAction) (source : PreparedSource) (twoFactorCode : list N)
| PCreated (key : AssistantCreatedKey).

Record AssistantKeyCreationState := mkState {
  name : list N;
  group : list N;
  phase : AssistantKeyCreationPhase }.

Inductive CreationEvent :=
| SetName (n : list N)
| SetGroup (g : list N)
| LoadExternal (action : AssistantCreateKeyAction)
| ClearExternal
| ShowWarning (w : AssistantGroupWarning) (count : Z)
| StartPreparing
| Prepared (action : AssistantCreateKeyAction)
| ReviewExternal (action : AssistantCreateKeyAction)
| StartConfirming (action : AssistantCreateKeyAction) (source : PreparedSource) (twoFactorCode : list N)
| SetTwoFactor (code : list N)
| ConfirmationFailed
| Created (key : AssistantCreatedKey)
| Reset_.

(** ** The reducer *)

Definition set_phase (s : AssistantKeyCreationState) (p : AssistantKeyCreationPhase) :=
  mkState (name s) (group s) p.

Definition is_draft (p : AssistantKeyCreationPhase) : bool := match p with PDraft => true | _ => false end.

Definition reduceDraftEvent (s : AssistantKeyCreationState) (e : CreationEvent)
  : option AssistantKeyCreationState :=
  match e with
  | SetName n => Some (if is_draft (phase s) then mkState n (group s) (phase s) else s)
  | SetGroup g => Some (if is_draft (phase s) then mkState (name s) g (phase s) else s)
  | LoadExternal a => Some (mkState (action_name a) (action_group a) (PExternal a))
  | ClearExternal =>
      Some (match phase s with
            | PExternal _ | PReviewing _ External _ => set_phase s PDraft
            | _ => s
            end)
  | Reset_ => Some (set_phase s PDraft)
  | _ => None
  end.

Definition reducePreparationEvent (s : AssistantKeyCreationState) (e : CreationEvent)
  : option AssistantKeyCreationState :=
  match e with
  | ShowWarning w n => Some (set_phase s (PWarning w n))
  | StartPreparing => Some (set_phase s PPreparing)
  | Prepared a => Some (mkState (action_name a) (action_group a) (PReviewing a Local []))
  | ReviewExternal a => Some (mkState (action_name a) (action_group a) (PReviewing a External []))
  | _ => None
  end.

Definition reduceConfirmationEvent (s : AssistantKeyCreationState) (e : CreationEvent)
  : option AssistantKeyCreationState :=
  match e with
  | SetTwoFactor code =>
      Some (match phase s with PReviewing a src _ => set_phase s (PReviewing a src code) | _ => s end)
  | StartConfirming a src code => Some (mkState (action_name a) (action_group a) (PConfirming a src code))
  | ConfirmationFailed =>
      Some (match phase s with PConfirming a src code => set_phase s (PReviewing a src code) | _ => s end)
  | Created key => Some (set_phase s (PCreated key))
  | _ => None
  end.

(** The [??] chain. *)
Definition reducer (s : AssistantKeyCreationState) (e : CreationEvent) : AssistantKeyCreationState :=
  match reduceDraftEvent s e with
  | Some s' => s'
  | None =>
      match reducePreparationEvent s e with
      | Some s' => s'
      | None => default s (reduceConfirmationEvent s e)
      end
  end.

Definition initialState (n : list N) (action : option AssistantCreateKeyAction) : AssistantKeyCreationState :=
  match action with
  | Some a => mkState (action_name a) (action_group a) (PExternal a)
  | None => mkState n [] PDraft
  end.

Definition phaseAction (p : AssistantKeyCreationPhase) : option AssistantCreateKeyAction :=
  match p with
  | PExternal a | PReviewing a _ _ | PConfirming a _ _ => Some a
  | _ => None
  end.

Definition selectedGroup (s : AssistantKeyCreationState) (groups : list AssistantSelectableGroup) : list N :=
  match phaseAction (phase s) with
  | Some _ => group s
  | None =>
      if existsb (fun o => bool_decide (group_id o = group s)) groups then group s
      else match groups with g :: _ => group_id g | [] => [] end
  end.

(** ** The contract *)

(** [value.toLowerCase() === 'auto']: no unit outside ASCII has one of these
    letters as its lower case. *)
Definition ascii_lower (c : N) : N := if ((65 <=? c) && (c <=? 90))%N then (c + 32)%N else c.
Definition is_auto (s : list N) : bool := bool_decide (ascii_lower <$> s = js "auto").

Section Contract.
(** The payload of the groups' endpoint and what zod's schemas make of it. *)
Context {Payload : Type}.
Context (userGroups_safeParse : Payload -> option (list (list N * option AssistantGroupWarning))).
Context (preparedAction_safeParse : AssistantCreateKeyAction -> option AssistantCreateKeyAction).
Context (localeCompare : list N -> list N -> Z).

(** [groups.set(id, ...)]: a repeated key keeps its place. *)
Fixpoint map_set (g : AssistantSelectableGroup) (l : list AssistantSelectableGroup) :=
  match l with
  | [] => [g]
  | h :: l' => if bool_decide (group_id h = group_id g) then g :: l' else h :: map_set g l'
  end.

(** One turn of the loop over [Object.entries]. *)
Definition add_group (groups : list AssistantSelectableGroup) (entry : list N * option AssistantGroupWarning) :=
  let '(rawId, w) := entry in
  let id := trim rawId in
  if negb (nonempty id) || negb (bool_decide (id = rawId)) || is_auto id then groups
  else map_set (match w with
                | Some w' => if enabled w' then mkSelectable id w else mkSelectable id None
                | None => mkSelectable id None
                end) groups.

(** The stable sort by [localeCompare]. *)
Fixpoint insert_group (g : AssistantSelectableGroup) (l : list AssistantSelectableGroup) :=
  match l with
  | [] => [g]
  | h :: l' => if (localeCompare (group_id g) (group_id h) <=? 0)%Z then g :: l else h :: insert_group g l'
  end.

Definition sort_groups (l : list AssistantSelectableGroup) : list AssistantSelectableGroup :=
  foldr insert_group [] l.

Definition selectableAssistantKeyGroups (payload : option Payload) : list AssistantSelectableGroup :=
  match payload ≫= userGroups_safeParse with
  | None => []
  | Some entries => sort_groups (fold_left add_group entries [])
  end.

Definition isAuthoritativePreparedKeyAction (value : AssistantCreateKeyAction)
    (liveGroups : list AssistantSelectableGroup) (requested : option (list N * list N)) : bool :=
  match preparedAction_safeParse value with
  | None => false
  | Some action =>
      if negb (existsb (fun o => bool_decide (group_id o = action_group action)) liveGroups) then false
      else match requested with
           | None => true
           | Some (n, g) => bool_decide (n = action_name action) && bool_decide (g = action_group action)
           end
  end.
End Contract.

(** ** The hook *)

(** The operation in flight: what it awaits and what its closure holds. *)
Inductive Pending :=
| AwaitGroupsToPrepare (n g : list N) (warningConfirmations : Z)
| AwaitPrepared (live : list AssistantSelectableGroup) (n g : list N)
| AwaitGroupsToReview (action : AssistantCreateKeyAction)
| AwaitGroupsToConfirm (action : AssistantCreateKeyAction) (source : PreparedSource) (code : list N)
| AwaitConfirmed (action : AssistantCreateKeyAction).

(** What leaves the hook.  The requests carry what was known when they were sent:
    the live groups just loaded, and how many times the user has acknowledged the
    warning on display. *)
Inductive Output :=
| PrepareRequest (n g : list N) (warningConfirmations : Z)
    (live : list AssistantSelectableGroup) (acknowledged : Z)
| ConfirmRequest (token code : list N) (live : list AssistantSelectableGroup)
| OnKeyCreated (key : AssistantCreatedKey)
| OnKeyPreparationInvalid.

Record Hook := mkHook {
  machine : AssistantKeyCreationState;
  operation : option Pending; (* [operationRef] *)
  externalToken : option (list N); (* [externalTokenRef] *)
  autoAttempted : option (list N); (* [autoAttemptedTokenRef] *)
  groups : list AssistantSelectableGroup; (* of [groupsQuery.data] *)
  acknowledged : Z; (* times the user acknowledged since the warning appeared *)
  outputs : list Output (* newest first *) }.

Definition dispatch (e : CreationEvent) (h : Hook) : Hook :=
  mkHook (reducer (machine h) e) (operation h) (externalToken h) (autoAttempted h) (groups h)
    (acknowledged h) (outputs h).

Definition set_operation (o : option Pending) (h : Hook) : Hook :=
  mkHook (machine h) o (externalToken h) (autoAttempted h) (groups h) (acknowledged h) (outputs h).

Definition set_acknowledged (k : Z) (h : Hook) : Hook :=
  mkHook (machine h) (operation h) (externalToken h) (autoAttempted h) (groups h) k (outputs h).

Definition set_tokens (ext auto : option (list N)) (h : Hook) : Hook :=
  mkHook (machine h) (operation h) ext auto (groups h) (acknowledged h) (outputs h).

Definition output (o : Output) (h : Hook) : Hook :=
  mkHook (machine h) (operation h) (externalToken h) (autoAttempted h) (groups h)
    (acknowledged h) (o :: outputs h).

Definition INVALIDATING_CONFIRMATION_CODES : list (list N) :=
  js <$> ["ASSISTANT_KEY_CONFIRMATION_INVALID"; "ASSISTANT_INVALID_GROUP";
          "ASSISTANT_GROUP_WARNING_CHANGED"]%string.

Definition invalidateAction (h : Hook) : Hook := output OnKeyPreparationInvalid (dispatch Reset_ h).

(** The part of [prepareDraft] before its first [await]. *)
Definition prepareDraft (warningConfirmations : Z) (h : Hook) : Hook :=
  match operation h with
  | Some _ => h
  | None =>
      set_operation (Some (AwaitGroupsToPrepare (trim (name (machine h)))
                             (selectedGroup (machine h) (groups h)) warningConfirmations)) h
  end.

Definition review (h : Hook) : Hook :=
  match phase (machine h) with
  | PDraft => prepareDraft 0 h
  | PExternal a =>
      match operation h with
      | Some _ => h
      | None => set_operation (Some (AwaitGroupsToReview a)) h
      end
  | _ => h
  end.

Definition confirmAction (a : AssistantCreateKeyAction) (src : PreparedSource) (code : list N) (h : Hook) : Hook :=
  match operation h with
  | Some _ => h
  | None => set_operation (Some (AwaitGroupsToConfirm a src code)) h
  end.

Definition confirm (h : Hook) : Hook :=
  match phase (machine h) with
  | PReviewing a src code => confirmAction a src code h
  | _ => h
  end.

Definition acknowledgeWarning (h : Hook) : Hook :=
  match phase (machine h) with
  | PWarning w k =>
      let next := (k + 1)%Z in
      let h1 := set_acknowledged (acknowledged h + 1) h in
      if (next <? required w)%Z then dispatch (ShowWarning w next) h1 else prepareDraft next h1
  | _ => h
  end.

Definition dismiss (h : Hook) : Hook :=
  let h1 := dispatch Reset_ h in
  match phaseAction (phase (machine h)) with
  | Some _ => output OnKeyPreparationInvalid h1
  | None => h1
  end.

(** The effect on [confirmationAction]. *)
Definition external_effect (confirmationAction : option AssistantCreateKeyAction) (h : Hook) : Hook :=
  let nextToken := confirmation_token <$> confirmationAction in
  if bool_decide (nextToken = externalToken h) then h
  else
    let h1 := set_tokens nextToken None h in
    match confirmationAction with
    | Some a => dispatch (LoadExternal a) h1
    | None => dispatch ClearExternal h1
    end.

(** The effect of [autoConfirm]. *)
Definition auto_effect (autoConfirm : bool) (h : Hook) : Hook :=
  match phase (machine h) with
  | PExternal a =>
      if negb autoConfirm || bool_decide (autoAttempted h = Some (confirmation_token a)) then h
      else confirmAction a External [] (set_tokens (externalToken h) (Some (confirmation_token a)) h)
  | _ => h
  end.

(** An error of [confirmAssistantDefaultKey]: [Some code] is an
    [AssistantRequestError] with its [code ?? ''], [None] any other error. *)
Definition invalidating (err : option (list N)) : bool :=
  match err with Some code => bool_decide (code ∈ INVALIDATING_CONFIRMATION_CODES) | None => false end.

Section Operations.
Context {Payload : Type}.
Context (userGroups_safeParse : Payload -> option (list (list N * option AssistantGroupWarning))).
Context (preparedAction_safeParse : AssistantCreateKeyAction -> option AssistantCreateKeyAction).
Context (localeCompare : list N -> list N -> Z).

Notation selectable := (selectableAssistantKeyGroups userGroups_safeParse localeCompare).
Notation authoritative := (isAuthoritativePreparedKeyAction preparedAction_safeParse).

(** [groupsQuery] has new data. *)
Definition refresh_groups (data : option Payload) (h : Hook) : Hook :=
  mkHook (machine h) (operation h) (externalToken h) (autoAttempted h) (selectable data)
    (acknowledged h) (outputs h).

(** [loadLiveGroups]: [None] when it throws. *)
Definition loadLiveGroups (data : option Payload) (isError : bool) : option (list AssistantSelectableGroup) :=
  let liveGroups := selectable data in
  if isError then None else match liveGroups with [] => None | _ => Some liveGroups end.

(** [prepareDraft] after [loadLiveGroups]. *)
Definition prepare_with_groups (live : option (list AssistantSelectableGroup)) (n g : list N)
    (warningConfirmations : Z) (h : Hook) : Hook :=
  match live with
  | None => set_operation None (dispatch Reset_ h)
  | Some lg =>
      match find (fun o => bool_decide (group_id o = g)) lg with
      | None => set_operation None h
      | Some selected =>
          match warning selected with
          | Some w =>
              if enabled w && negb (warningConfirmations =? required w)%Z
              then set_operation None (set_acknowledged 0 (dispatch (ShowWarning w 0) h))
              else set_operation (Some (AwaitPrepared lg n g))
                     (output (PrepareRequest n g warningConfirmations lg (acknowledged h))
                        (dispatch StartPreparing h))
          | None => set_operation (Some (AwaitPrepared lg n g))
                      (output (PrepareRequest n g warningConfirmations lg (acknowledged h))
                         (dispatch StartPreparing h))
          end
      end
  end.

Definition review_with_groups (live : option (list AssistantSelectableGroup))
    (a : AssistantCreateKeyAction) (h : Hook) : Hook :=
  match live with
  | None => set_operation None h
  | Some lg =>
      set_operation None
        (if authoritative a lg None then dispatch (ReviewExternal a) h else invalidateAction h)
  end.

(** An error of [loadLiveGroups] is not an [AssistantRequestError]. *)
Definition confirm_with_groups (live : option (list AssistantSelectableGroup))
    (a : AssistantCreateKeyAction) (src : PreparedSource) (code : list N) (h : Hook) : Hook :=
  match live with
  | None => set_operation None (dispatch ConfirmationFailed h)
  | Some lg =>
      if authoritative a lg None
      then set_operation (Some (AwaitConfirmed a))
             (output (ConfirmRequest (confirmation_token a) code lg) (dispatch (StartConfirming a src code) h))
      else set_operation None (invalidateAction h)
  end.

(** The answer of the groups' endpoint resumes the operation that awaits it. *)
Definition groups_answered (data : option Payload) (isError : bool) (h : Hook) : Hook :=
  let live := loadLiveGroups data isError in
  let h1 := refresh_groups data h in
  match operation h with
  | Some (AwaitGroupsToPrepare n g k) => prepare_with_groups live n g k h1
  | Some (AwaitGroupsToReview a) => review_with_groups live a h1
  | Some (AwaitGroupsToConfirm a src code) => confirm_with_groups live a src code h1
  | _ => h1
  end.

(** The answer of [prepareAssistantDefaultKey]; [None] when it throws. *)
Definition prepare_answered (answer : option AssistantCreateKeyAction) (h : Hook) : Hook :=
  match operation h with
  | Some (AwaitPrepared lg n g) =>
      set_operation None
        (match answer with
         | None => dispatch Reset_ h
         | Some a => if authoritative a lg (Some (n, g)) then dispatch (Prepared a) h else invalidateAction h
         end)
  | _ => h
  end.

(** The answer of [confirmAssistantDefaultKey]. *)
Definition confirm_answered (answer : AssistantCreatedKey + option (list N)) (h : Hook) : Hook :=
  match operation h with
  | Some (AwaitConfirmed _) =>
      set_operation None
        (match answer with
         | inl key => output (OnKeyCreated key) (dispatch (Created key) h)
         | inr err => if invalidating err then invalidateAction h else dispatch ConfirmationFailed h
         end)
  | _ => h
  end.

(** Answers to everything in flight, one after the other. *)
Definition all_answered (data : option Payload) (isError : bool) (prepared : option AssistantCreateKeyAction)
    (confirmed : AssistantCreatedKey + option (list N)) (h : Hook) : Hook :=
  confirm_answered confirmed (prepare_answered prepared (groups_answered data isError h)).

(** ** Interleavings *)

Inductive Command := CSetName (n : list N) | CSetGroup (g : list N) | CSetTwoFactor (code : list N)
| CReview | CConfirm | CAcknowledge | CDismiss.

Definition run_command (c : Command) : Hook -> Hook :=
  match c with
  | CSetName n => dispatch (SetName n)
  | CSetGroup g => dispatch (SetGroup g)
  | CSetTwoFactor code => dispatch (SetTwoFactor code)
  | CReview => review
  | CConfirm => confirm
  | CAcknowledge => acknowledgeWarning
  | CDismiss => dismiss
  end.

(** One event: a command of the user, an effect, fresh groups, an answer. *)
Inductive hook_step (h : Hook) : Hook -> Prop :=
| step_command c : hook_step h (run_command c h)
| step_external prop : hook_step h (external_effect prop h)
| step_auto b : hook_step h (auto_effect b h)
| step_refresh data : hook_step h (refresh_groups data h)
| step_groups data isError : hook_step h (groups_answered data isError h)
| step_prepared answer : hook_step h (prepare_answered answer h)
| step_confirmed answer : hook_step h (confirm_answered answer h).

Definition initialHook (keyName : list N) (prop : option AssistantCreateKeyAction) (data : option Payload) : Hook :=
  mkHook (initialState keyName prop) None (confirmation_token <$> prop) None (selectable data) 0 [].

Definition hook_reachable (h : Hook) : Prop :=
  exists keyName prop data, rtc hook_step (initialHook keyName prop data) h.
End Operations.

(** ** Invariants *)

(** The phases in which the form is locked. *)
Definition waiting (p : AssistantKeyCreationPhase) : bool :=
  match p with PPreparing | PConfirming _ _ _ => true | _ => false end.

Section Invariants.
Context {Payload : Type}.
Context (userGroups_safeParse : Payload -> option (list (list N * option AssistantGroupWarning))).
Context (preparedAction_safeParse : AssistantCreateKeyAction -> option AssistantCreateKeyAction).
Context (localeCompare : list N -> list N -> Z).

(** The schema's [z.number().int().min(1).max(3)]. *)
Definition warnings_bounded : Prop := forall payload entries,
  userGroups_safeParse payload = Some entries ->
  Forall (fun e => forall w, e.2 = Some w -> (1 <= required w <= 3)%Z) entries.

(** The schema of an action has no transformation: it returns what it accepts. *)
Definition parse_identity : Prop := forall a a', preparedAction_safeParse a = Some a' -> a' = a.

Context (Hbound : warnings_bounded) (Hid : parse_identity).

Notation step := (hook_step userGroups_safeParse preparedAction_safeParse localeCompare).
Notation selectable := (selectableAssistantKeyGroups userGroups_safeParse localeCompare).
Notation authoritative := (isAuthoritativePreparedKeyAction preparedAction_safeParse).

Definition bounded_group (o : AssistantSelectableGroup) : Prop :=
  forall w, warning o = Some w -> (1 <= required w <= 3)%Z.

Lemma map_set_Forall P g l : P g -> Forall P l -> Forall P (map_set g l).
Proof. intros Hg. induction 1; simpl; [by repeat constructor|]. case_bool_decide; by constructor. Qed.

Lemma insert_group_Forall P g l : P g -> Forall P l -> Forall P (insert_group localeCompare g l).
Proof. intros Hg. induction 1; simpl; [by repeat constructor|]. case_match; by repeat constructor. Qed.

Lemma selectable_bounded data : Forall bounded_group (selectable data).
Proof.
  unfold selectableAssistantKeyGroups.
  destruct (data ≫= userGroups_safeParse) as [entries|] eqn:E; [|constructor].
  apply bind_Some in E as (payload & _ & E). apply Hbound in E.
  assert (forall acc, Forall bounded_group acc -> Forall bounded_group (fold_left add_group entries acc)) as H.
  { induction E as [|[raw w] entries He _ IH]; intros acc Hacc; simpl; [done|]. apply IH.
    case_match; [done|]. apply map_set_Forall; [|done].
    destruct w as [w|]; [destruct (enabled w)|]; intros w' Hw'; simpl in *; naive_solver. }
  specialize (H [] ltac:(constructor)). unfold sort_groups.
  induction H; simpl; [constructor|]. by apply insert_group_Forall.
Qed.

(** What every request that left the hook satisfies. *)
Definition request_ok (o : Output) : Prop :=
  match o with
  | PrepareRequest n g k lg ack =>
      exists o, o ∈ lg /\ group_id o = g /\
        forall w, warning o = Some w -> enabled w = true -> k = required w /\ (required w <= ack)%Z
  | ConfirmRequest token code lg =>
      exists a, confirmation_token a = token /\ preparedAction_safeParse a = Some a /\
        exists o, o ∈ lg /\ group_id o = action_group a
  | OnKeyCreated _ | OnKeyPreparationInvalid => True
  end.

(** The form shows the action it is about to confirm; a warning on display still
    lacks a confirmation; no phase waits for an operation that is not running. *)
Definition phase_ok (h : Hook) : Prop :=
  match phase (machine h) with
  | PExternal a | PReviewing a _ _ =>
      name (machine h) = action_name a /\ group (machine h) = action_group a
  | PConfirming a _ _ =>
      name (machine h) = action_name a /\ group (machine h) = action_group a /\
      operation h = Some (AwaitConfirmed a)
  | PWarning w k => (0 <= k < required w)%Z /\ (k <= acknowledged h)%Z
  | PPreparing => exists lg n g, operation h = Some (AwaitPrepared lg n g)
  | PDraft | PCreated _ => True
  end.

Definition operation_ok (h : Hook) : Prop :=
  match operation h with
  | Some (AwaitGroupsToPrepare _ _ k) => (k <= acknowledged h)%Z
  | _ => True
  end.

Record hook_inv (h : Hook) : Prop := {
  inv_phase : phase_ok h;
  inv_operation : operation_ok h;
  inv_acknowledged : (0 <= acknowledged h)%Z;
  inv_outputs : Forall request_ok (outputs h) }.

Lemma authoritative_spec a lg req :
  authoritative a lg req = true ->
  preparedAction_safeParse a = Some a /\ exists o, o ∈ lg /\ group_id o = action_group a.
Proof.
  unfold isAuthoritativePreparedKeyAction. destruct (preparedAction_safeParse a) as [a'|] eqn:E; [|done].
  pose proof (Hid _ _ E) as ->. destruct (existsb _ lg) eqn:Ex; [|done]. intros _. split; [done|].
  apply existsb_exists in Ex as (o & Ho & Hg%bool_decide_eq_true). exists o. split; [by apply list_elem_of_In|done].
Qed.

Ltac hook_cases h :=
  let m := fresh "m" in
  destruct h as [m op ext auto gs ack outs]; destruct m as [nm gr ph]; simpl in *.

Ltac solve_inv := constructor; unfold phase_ok, operation_ok in *; simpl in *; try done; try lia; eauto.

Lemma command_inv c h : hook_inv h -> hook_inv (run_command c h).
Proof.
  intros [Hph Hop Hack Hout]. hook_cases h. unfold phase_ok, operation_ok in *. simpl in *.
  destruct c; simpl; unfold dispatch, reducer, review, confirm, acknowledgeWarning, dismiss; simpl.
  - destruct ph; solve_inv.
  - destruct ph; solve_inv.
  - destruct ph; solve_inv.
  - destruct ph, op as [[]|]; simpl; solve_inv.
  - destruct ph, op as [[]|]; simpl; solve_inv; naive_solver.
  - destruct ph; simpl; [solve_inv| |solve_inv..].
    destruct Hph as [Hk Hka]. destruct (Z.ltb_spec (confirmations + 1) (required w)).
    + solve_inv. destruct op as [[]|]; lia.
    + destruct op as [[]|]; simpl; solve_inv.
  - destruct ph; simpl; solve_inv; repeat constructor; done.
Qed.

Lemma effect_inv h h' :
  (exists prop, h' = external_effect prop h) \/ (exists b, h' = auto_effect b h) \/
  (exists data, h' = refresh_groups userGroups_safeParse localeCompare data h) ->
  hook_inv h -> hook_inv h'.
Proof.
  intros H [Hph Hop Hack Hout]. destruct H as [[prop ->]|[[b ->]|[data ->]]].
  - unfold external_effect. case_bool_decide; [done|]. hook_cases h.
    destruct prop as [a|]; [solve_inv|]. destruct ph as [| | | |a [] ?| |]; solve_inv.
  - unfold auto_effect, confirmAction. hook_cases h.
    destruct ph; simpl; try (by solve_inv). destruct (_ || _); [solve_inv|].
    destruct op as [[]|]; simpl; solve_inv.
  - hook_cases h. solve_inv.
Qed.

Lemma groups_inv data isError h :
  hook_inv h -> hook_inv (groups_answered userGroups_safeParse preparedAction_safeParse localeCompare data isError h).
Proof.
  intros [Hph Hop Hack Hout]. unfold groups_answered.
  assert (match loadLiveGroups userGroups_safeParse localeCompare data isError with
          | Some lg => Forall bounded_group lg | None => True end) as Hlive.
  { unfold loadLiveGroups. destruct isError; [done|].
    destruct (selectable data) eqn:E; [done|]. rewrite <- E. apply selectable_bounded. }
  destruct (loadLiveGroups _ _ data isError) as [lg|].
  all: hook_cases h; unfold phase_ok, operation_ok in *; simpl in *; destruct op as [[n g k|lg' n g|a|a src code|a]|]; simpl.
  all: try (destruct ph; solve_inv; naive_solver).
  - destruct (find _ lg) as [o|] eqn:Ef; [|destruct ph; solve_inv; naive_solver].
    apply find_some in Ef as [Ho Hg%bool_decide_eq_true]. apply list_elem_of_In in Ho.
    rewrite Forall_forall in Hlive. specialize (Hlive o Ho).
    destruct (warning o) as [w|] eqn:Ew.
    + specialize (Hlive w Ew). destruct (enabled w && negb (k =? required w)%Z) eqn:Eg.
      * solve_inv.
      * solve_inv. constructor; [|done]. exists o. split_and!; [done|done|].
        intros w' Hw' He. rewrite Ew in Hw'. injection Hw' as <-. rewrite He in Eg. simpl in Eg. breflect. lia.
    + solve_inv. constructor; [|done]. exists o. split_and!; [done|done|]. intros w Hw. congruence.
  - unfold review_with_groups. destruct (authoritative a lg None) eqn:Ea; solve_inv; by repeat constructor.
  - unfold confirm_with_groups. destruct (authoritative a lg None) eqn:Ea; [|solve_inv; by repeat constructor].
    apply authoritative_spec in Ea as [? ?]. solve_inv. constructor; [|done]. simpl. eauto.
Qed.

Lemma answer_inv h h' :
  (exists a, h' = prepare_answered preparedAction_safeParse a h) \/ (exists a, h' = confirm_answered a h) ->
  hook_inv h -> hook_inv h'.
Proof.
  intros H [Hph Hop Hack Hout]. hook_cases h; unfold phase_ok, operation_ok in *; simpl in *.
  destruct H as [[a ->]|[a ->]]; unfold prepare_answered, confirm_answered; simpl;
    destruct op as [[n g k|lg n g|e|e src code|e]|]; simpl; try (by solve_inv).
  - destruct a as [a|]; [|solve_inv].
    destruct (authoritative a lg (Some (n, g))); solve_inv; by repeat constructor.
  - destruct a as [key|err]; [solve_inv; by repeat constructor|].
    destruct (invalidating err); [solve_inv; by repeat constructor|].
    destruct ph; solve_inv; naive_solver.
Qed.

Lemma reachable_inv h :
  hook_reachable userGroups_safeParse preparedAction_safeParse localeCompare h -> hook_inv h.
Proof.
  intros (keyName & prop & data & Hr).
  assert (hook_inv (initialHook userGroups_safeParse localeCompare keyName prop data)) as H0.
  { destruct prop; constructor; unfold phase_ok, operation_ok; simpl; try done; constructor. }
  induction Hr as [|x y z Hxy _ IH]; [done|]. apply IH. destruct Hxy.
  - by apply command_inv.
  - eapply effect_inv; [|done]. eauto.
  - eapply effect_inv; [|done]. eauto.
  - eapply effect_inv; [|done]. eauto.
  - by apply groups_inv.
  - eapply answer_inv; [|done]. eauto.
  - eapply answer_inv; [|done]. eauto.
Qed.
End Invariants.

(** ** A concrete instance of the library's parts *)

Definition sample_groups_parse (entries : list (list N * option AssistantGroupWarning)) :=
  if forallb (fun e => match e.2 with Some w => ((1 <=? required w) && (required w <=? 3))%Z | None => true end) entries
  then Some entries else None.

Definition sample_action_parse (a : AssistantCreateKeyAction) : option AssistantCreateKeyAction :=
  if nonempty (confirmation_token a) && bool_decide (trim (action_name a) = action_name a) then Some a else None.

Definition sample_compare (a b : list N) : Z :=
  match a, b with x :: _, y :: _ => (Z.of_N x - Z.of_N y)%Z | [], [] => 0%Z | [], _ => (-1)%Z | _, [] => 1%Z end.

Lemma sample_bounded : warnings_bounded sample_groups_parse.
Proof.
  intros p es. unfold sample_groups_parse. destruct (forallb _ p) eqn:E; [|done]. intros [= <-].
  apply Forall_forall. intros e He w Hw. apply list_elem_of_In in He.
  pose proof (proj1 (forallb_forall _ _) E e He) as H. cbv beta in H. rewrite Hw in H. breflect. lia.
Qed.

Lemma sample_identity : parse_identity sample_action_parse.
Proof. intros a a'. unfold sample_action_parse. case_match; naive_solver. Qed.

Definition sample_warning : AssistantGroupWarning := mkWarning true (js "Premium prices") Modal 2.

Definition sample_payload : list (list N * option AssistantGroupWarning) :=
  [(js "vip", Some sample_warning); (js "auto", None); (js "default", None)].

Definition sample_action : AssistantCreateKeyAction :=
  mkAction (js "tok-1") (num_of_Z 600) (js "My key") (js "vip") None None.

Notation sample_step := (hook_step sample_groups_parse sample_action_parse sample_compare).

(** Choosing a group with a two-fold warning, acknowledging it twice, reviewing
    and confirming. *)
Definition sample_events : list (Hook -> Hook) :=
  let groups := groups_answered sample_groups_parse sample_action_parse sample_compare (Some sample_payload) false in
  [run_command (CSetName (js "My key")); run_command (CSetGroup (js "vip")); run_command CReview; groups;
   run_command CAcknowledge; run_command CAcknowledge; groups;
   prepare_answered sample_action_parse (Some sample_action); run_command CConfirm; groups].

Definition sample_run (n : nat) : Hook :=
  fold_left (fun h f => f h) (take n sample_events)
    (initialHook sample_groups_parse sample_compare [] None (Some sample_payload)).

Lemma sample_reachable n :
  hook_reachable sample_groups_parse sample_action_parse sample_compare (sample_run n).
Proof.
  exists [], None, (Some sample_payload). unfold sample_run.
  assert (Forall (fun f : Hook -> Hook => forall h, sample_step h (f h)) (take n sample_events)) as H.
  { apply Forall_take. unfold sample_events. repeat constructor. }
  revert H. generalize (take n sample_events).
  generalize (initialHook sample_groups_parse sample_compare [] None (Some sample_payload)).
  intros h fs. revert h. induction fs as [|f fs IH]; intros h Hfs; simpl; [done|]. inv Hfs.
  eapply rtc_l; [apply H1|]. by apply IH.
Qed.

(** ** Theorems *)

Section Theorems.
Context {Payload : Type}.
Context (userGroups_safeParse : Payload -> option (list (list N * option AssistantGroupWarning))).
Context (preparedAction_safeParse : AssistantCreateKeyAction -> option AssistantCreateKeyAction).
Context (localeCompare : list N -> list N -> Z).
Context (Hbound : warnings_bounded userGroups_safeParse) (Hid : parse_identity preparedAction_safeParse).

Notation reachable := (hook_reachable userGroups_safeParse preparedAction_safeParse localeCompare).

(** However commands, effects and answers interleave, the name and group on
    display are those of the action under review or confirmation, a warning on
    display still lacks a confirmation, the phase [preparing] has its request in
    flight and the phase [confirming] has the confirmation of its own action in
    flight. *)
Theorem key_form_invariant (h : Hook) : reachable h -> phase_ok h.
Proof. intros Hr. by eapply inv_phase, reachable_inv. Qed.

(** Every request to prepare a key names a group of the live catalogue loaded
    for it; when that group carries an enabled warning, the request carries
    exactly the number of confirmations it requires, and the user acknowledged
    at least that many times since the warning appeared. *)
Theorem prepare_requests_acknowledged (h : Hook) n g k lg ack :
  reachable h -> PrepareRequest n g k lg ack ∈ outputs h ->
  exists o, o ∈ lg /\ group_id o = g /\
    forall w, warning o = Some w -> enabled w = true -> k = required w /\ (required w <= ack)%Z.
Proof.
  intros Hr Ho. pose proof (inv_outputs _ _ (reachable_inv _ _ _ Hbound Hid h Hr)) as Hf.
  rewrite Forall_forall in Hf. exact (Hf _ Ho).
Qed.

(** Every confirmation sent is of an action that passed the schema and whose
    group is in the live catalogue loaded for that confirmation. *)
Theorem confirm_requests_authoritative (h : Hook) token code lg :
  reachable h -> ConfirmRequest token code lg ∈ outputs h ->
  exists a, confirmation_token a = token /\ preparedAction_safeParse a = Some a /\
    exists o, o ∈ lg /\ group_id o = action_group a.
Proof.
  intros Hr Ho. pose proof (inv_outputs _ _ (reachable_inv _ _ _ Hbound Hid h Hr)) as Hf.
  rewrite Forall_forall in Hf. exact (Hf _ Ho).
Qed.

(** No operation blocks the form: from every reachable state, whatever the
    server answers to the requests in flight (success, failure, stale groups),
    the answers end the operation, the lock is free and the form is neither
    preparing nor confirming. *)
Theorem operations_finish (h : Hook) data isError prepared confirmed :
  reachable h ->
  operation (all_answered userGroups_safeParse preparedAction_safeParse localeCompare data isError prepared confirmed h)
    = None /\
  waiting (phase (machine
    (all_answered userGroups_safeParse preparedAction_safeParse localeCompare data isError prepared confirmed h)))
    = false.
Proof.
  intros Hr. unfold all_answered.
  assert (forall h, hook_inv preparedAction_safeParse h -> operation h = None ->
    waiting (phase (machine h)) = false) as Hidle.
  { intros x [Hph _ _ _] Hop. unfold phase_ok in Hph. rewrite Hop in Hph.
    destruct (phase (machine x)); naive_solver. }
  pose proof (reachable_inv _ _ _ Hbound Hid h Hr) as Hi.
  set (h1 := groups_answered _ _ _ data isError h).
  assert (hook_inv preparedAction_safeParse h1) as Hi1 by by apply groups_inv.
  assert (match operation h1 with None | Some (AwaitPrepared _ _ _) | Some (AwaitConfirmed _) => True | _ => False end) as H1.
  { subst h1. unfold groups_answered.
    destruct (operation h) as [[]|] eqn:E; simpl; rewrite ?E; try done.
    all: unfold prepare_with_groups, review_with_groups, confirm_with_groups; repeat case_match; done. }
  clearbody h1. set (h2 := prepare_answered _ prepared h1).
  assert (hook_inv preparedAction_safeParse h2) as Hi2 by (eapply answer_inv; eauto).
  assert (match operation h2 with None | Some (AwaitConfirmed _) => True | _ => False end) as H2.
  { subst h2. unfold prepare_answered. destruct (operation h1) as [[]|] eqn:E; rewrite ?E; done. }
  clearbody h2. set (h3 := confirm_answered confirmed h2).
  assert (hook_inv preparedAction_safeParse h3) as Hi3 by (eapply answer_inv; eauto).
  assert (operation h3 = None) as H3.
  { subst h3. unfold confirm_answered. destruct (operation h2) as [[]|] eqn:E; rewrite ?E; done. }
  split; [done|]. by apply Hidle.
Qed.

(** Cancelling does not stop a confirmation that is still loading the groups:
    from any form under review, [confirm], then [dismiss], then the answer with a
    catalogue that still offers the group, sends the confirmation and shows the
    phase [confirming] again, although the owner of the action has been told that
    it is void. *)
Theorem dismissed_confirmation_is_sent (h : Hook) a src code data lg :
  phase (machine h) = PReviewing a src code -> operation h = None ->
  loadLiveGroups userGroups_safeParse localeCompare data false = Some lg ->
  isAuthoritativePreparedKeyAction preparedAction_safeParse a lg None = true ->
  let dismissed := dismiss (confirm h) in
  let h' := groups_answered userGroups_safeParse preparedAction_safeParse localeCompare data false dismissed in
  phase (machine dismissed) = PDraft /\ phase (machine h') = PConfirming a src code /\
  outputs h' = ConfirmRequest (confirmation_token a) code lg :: OnKeyPreparationInvalid :: outputs h.
Proof.
  intros Hph Hop Hlg Ha. cbv zeta. destruct h as [[nm gr ph] op ext auto gs ack outs]. simpl in *. subst.
  unfold dismiss, confirm. simpl. unfold groups_answered. simpl. rewrite Hlg. simpl. by rewrite Ha.
Qed.
End Theorems.

(** ** Witnesses *)

Lemma key_form_invariant_witness :
  phase (machine (sample_run 10)) = PConfirming sample_action Local [] /\ phase_ok (sample_run 10).
Proof.
  split; [vm_compute; reflexivity|].
  exact (key_form_invariant _ _ _ sample_bounded sample_identity _ (sample_reachable 10)).
Defined.

Lemma prepare_requests_acknowledged_witness :
  exists lg, PrepareRequest (js "My key") (js "vip") 2 lg 2 ∈ outputs (sample_run 7) /\
  exists o, o ∈ lg /\ group_id o = js "vip" /\
    forall w, warning o = Some w -> enabled w = true -> 2%Z = required w /\ (required w <= 2)%Z.
Proof.
  eexists. assert (PrepareRequest (js "My key") (js "vip") 2
    (selectableAssistantKeyGroups sample_groups_parse sample_compare (Some sample_payload)) 2
      ∈ outputs (sample_run 7)) as Ho.
  { vm_compute. left. }
  split; [exact Ho|].
  exact (prepare_requests_acknowledged _ _ _ sample_bounded sample_identity _ _ _ _ _ _ (sample_reachable 7) Ho).
Defined.

Lemma confirm_requests_authoritative_witness :
  exists lg, ConfirmRequest (js "tok-1") [] lg ∈ outputs (sample_run 10) /\
  exists a, confirmation_token a = js "tok-1" /\ sample_action_parse a = Some a /\
    exists o, o ∈ lg /\ group_id o = action_group a.
Proof.
  eexists. assert (ConfirmRequest (js "tok-1") []
    (selectableAssistantKeyGroups sample_groups_parse sample_compare (Some sample_payload))
      ∈ outputs (sample_run 10)) as Ho.
  { vm_compute. left. }
  split; [exact Ho|].
  exact (confirm_requests_authoritative _ _ _ sample_bounded sample_identity _ _ _ _ (sample_reachable 10) Ho).
Defined.

Lemma operations_finish_witness :
  operation (sample_run 10) = Some (AwaitConfirmed sample_action) /\
  operation (all_answered sample_groups_parse sample_action_parse sample_compare None true None (inr None)
    (sample_run 10)) = None.
Proof.
  split; [vm_compute; reflexivity|].
  destruct (operations_finish _ _ _ sample_bounded sample_identity (sample_run 10) None true None (inr None)
              (sample_reachable 10)) as [H _].
  exact H.
Defined.

Lemma dismissed_confirmation_is_sent_witness :
  phase (machine (dismiss (confirm (sample_run 8)))) = PDraft /\
  phase (machine (groups_answered sample_groups_parse sample_action_parse sample_compare (Some sample_payload) false
    (dismiss (confirm (sample_run 8))))) = PConfirming sample_action Local [].
Proof.
  destruct (dismissed_confirmation_is_sent sample_groups_parse sample_action_parse sample_compare
    (sample_run 8) sample_action Local [] (Some sample_payload)
    (selectableAssistantKeyGroups sample_groups_parse sample_compare (Some sample_payload))) as (H1 & H2 & _);
    [vm_compute; reflexivity..|].
  split; [exact H1|exact H2].
Defined.
