(* ===== verification/AuthSession.v ===== *)
(** * Authentication session (src/apps/web/src/lib/auth-session.ts, stores/auth-store.ts)

    The store of the signed-in user, the guards on the server's JSON, the
    operations that sign in, rotate and sign out, and the refresh of the access
    token: one at a time, under a browser lock, retried on a race or a session
    mismatch, and superseded when the session changes meanwhile.

    The refresh is an asynchronous loop; it is cut at its [await]s ([RunPoint]),
    and the events of the world interleave with it in any order.  [cache] stands
    for the bound query cache: each entry is the session under which it was
    loaded.  The clock, the HTTP transport and the browser's lock and broadcast
    channel are the environment: they appear as events and recorded outputs. *)
From S2P Require Import Prelude JsString JsNumber JsJson.
From Stdlib Require Import Lia.

(** ** The store *)

Record LoginSession := mkSession {
  sid : list N;
  current : bool;
  login_method : list N;
  ip : list N;
  user_agent : list N;
  created_at : spec_float;
  last_active_at : spec_float;
  expires_at : spec_float }.

Record AuthBundle := mkBundle {
  access_token : list N;
  token_type : list N;
  access_expires_at : spec_float;
  bundle_user : json;
  bundle_session : LoginSession }.

Inductive AuthBootstrapState := Idle | Checking | Complete.

Record AuthState := mkAuth {
  user : option json;
  accessToken : option (list N);
  accessExpiresAt : option spec_float;
  session : option LoginSession;
  pending2FAFlowToken : option (list N);
  bootstrapState : AuthBootstrapState }.

Definition initialAuth : AuthState := mkAuth None None None None None Idle.

Definition setBundle (b : AuthBundle) (a : AuthState) : AuthState :=
  mkAuth (Some (bundle_user b)) (Some (access_token b)) (Some (access_expires_at b))
    (Some (bundle_session b)) None Complete.

Definition setUser (u : option json) (a : AuthState) : AuthState :=
  mkAuth u (accessToken a) (accessExpiresAt a) (session a) (pending2FAFlowToken a) (bootstrapState a).

Definition setPending2FAFlowToken (t : option (list N)) (a : AuthState) : AuthState :=
  mkAuth (user a) (accessToken a) (accessExpiresAt a) (session a) t (bootstrapState a).

Definition setBootstrapState (b : AuthBootstrapState) (a : AuthState) : AuthState :=
  mkAuth (user a) (accessToken a) (accessExpiresAt a) (session a) (pending2FAFlowToken a) b.

Definition reset (b : AuthBootstrapState) (a : AuthState) : AuthState := mkAuth None None None None None b.

(** ** Guards *)

(** A property of a value; [None] is [undefined]. *)
Definition get (k : string) (v : json) : option json :=
  match v with JObj ms => list_find (fun m => m.1 = js k) ms ≫= fun im => Some im.2.2 | _ => None end.

Definition as_string (v : option json) : option (list N) :=
  match v with Some (JStr s) => Some s | _ => None end.
Definition as_number (v : option json) : option spec_float :=
  match v with Some (JNum n) => Some n | _ => None end.
Definition as_bool (v : option json) : option bool :=
  match v with Some (JBool b) => Some b | _ => None end.

(** [Number.isInteger(v) && v > 0]. *)
Definition positive_integer (n : spec_float) : bool :=
  is_finite n && num_eqb (num_floor n) n && num_ltb num_zero n.

Definition isAuthUser (v : json) : bool :=
  match as_number (get "id" v), as_string (get "username" v), as_number (get "role" v) with
  | Some id, Some _, Some _ => positive_integer id
  | _, _, _ => false
  end.

(** The guard and the value it makes available. *)
Definition asLoginSession (v : json) : option LoginSession :=
  s ← as_string (get "sid" v); c ← as_bool (get "current" v);
  m ← as_string (get "login_method" v); i ← as_string (get "ip" v);
  ua ← as_string (get "user_agent" v); ca ← as_number (get "created_at" v);
  la ← as_number (get "last_active_at" v); ea ← as_number (get "expires_at" v);
  if nonempty s then Some (mkSession s c m i ua ca la ea) else None.

Definition validTokenFields (v : json) : option (list N * list N * spec_float) :=
  t ← as_string (get "access_token" v); ty ← as_string (get "token_type" v);
  e ← as_number (get "access_expires_at" v);
  if nonempty t && nonempty ty && is_finite e && num_ltb num_zero e then Some (t, ty, e) else None.

Definition asAuthBundle (v : json) : option AuthBundle :=
  f ← validTokenFields v; u ← get "user" v; sv ← get "session" v; s ← asLoginSession sv;
  if isAuthUser u then Some (mkBundle f.1.1 f.1.2 f.2 u s) else None.

(** [isAuthTokenRotation]: the fields of a rotation. *)
Definition asAuthTokenRotation (v : json) : option (list N * list N * spec_float * LoginSession) :=
  f ← validTokenFields v; sv ← get "session" v; s ← asLoginSession sv;
  if bool_decide (f.1.2 = js "Bearer") && current s then Some (f, s) else None.

(** ** The refresh *)

Inductive SyncKind := Authenticated | SignedOut.

Inductive RefreshOutcome :=
| OAuthenticated (b : AuthBundle)
| OAnonymous
| OTransientError (superseded : bool)
| OOutOfSync (code : list N).

Record AuthRefreshHTTPResponse := mkResponse {
  status : Z; (* 0 when there is no response *)
  data : option json }.

(** Where a refresh is suspended: before the lock is granted, on the request, on
    the delay before another attempt. *)
Inductive RunPoint :=
| AwaitLock
| AwaitResponse (raceAttempt : nat) (allowMismatchRetry : bool) (expectedSID : option (list N))
| AwaitDelay (raceAttempt : nat) (allowMismatchRetry : bool).

Record World := mkWorld {
  auth : AuthState;
  authEpoch : nat;
  refreshing : option (nat * RunPoint); (* [refreshPromise], its epoch and its suspension *)
  cache : list (option (list N));
  published : list (SyncKind * list N);
  outcomes : list RefreshOutcome; (* newest first *)
  requests : nat (* requests sent by the refresh in flight *) }.

Definition initialWorld : World := mkWorld initialAuth 0 None [] [] [] 0.

Definition with_auth (f : AuthState -> AuthState) (w : World) : World :=
  mkWorld (f (auth w)) (authEpoch w) (refreshing w) (cache w) (published w) (outcomes w) (requests w).
Definition clear_cache (w : World) : World :=
  mkWorld (auth w) (authEpoch w) (refreshing w) [] (published w) (outcomes w) (requests w).
Definition next_epoch (w : World) : World :=
  mkWorld (auth w) (S (authEpoch w)) (refreshing w) (cache w) (published w) (outcomes w) (requests w).
Definition set_point (p : RunPoint) (w : World) : World :=
  mkWorld (auth w) (authEpoch w) ((fun r => (r.1, p)) <$> refreshing w) (cache w) (published w) (outcomes w) (requests w).
Definition finish (o : RefreshOutcome) (w : World) : World :=
  mkWorld (auth w) (authEpoch w) None (cache w) (published w) (o :: outcomes w) (requests w).

Definition currentSID (w : World) : option (list N) := sid <$> session (auth w).

(** JavaScript's truth of an optional string. *)
Definition present (s : option (list N)) : bool := match s with Some (_ :: _) => true | _ => false end.

Definition publishAuthSessionEvent (k : SyncKind) (s : option (list N)) (w : World) : World :=
  match s with
  | Some ((_ :: _) as x) =>
      mkWorld (auth w) (authEpoch w) (refreshing w) (cache w) ((k, x) :: published w) (outcomes w) (requests w)
  | _ => w
  end.

Definition applyAuthBundle (b : AuthBundle) (synchronizeTabs : bool) (w : World) : World :=
  let previousSID := currentSID w in
  let new := sid (bundle_session b) in
  let w1 := if present previousSID && negb (bool_decide (previousSID = Some new)) then clear_cache w else w in
  let w2 := with_auth (setBundle b) (next_epoch w1) in
  if synchronizeTabs && negb (bool_decide (previousSID = Some new))
  then publishAuthSessionEvent Authenticated (Some new) w2 else w2.

Definition clearAuthentication (synchronizeTabs : bool) (b : AuthBootstrapState) (w : World) : World :=
  let s := currentSID w in
  let w1 := with_auth (reset b) (next_epoch (clear_cache w)) in
  if synchronizeTabs && present s then publishAuthSessionEvent SignedOut s w1 else w1.

Definition applyAuthRotation (v : json) (w : World) : res World :=
  match asAuthTokenRotation v with
  | None => throw "Invalid authentication rotation response"
  | Some (t, ty, e, s) =>
      match user (auth w), session (auth w) with
      | Some u, Some s0 =>
          if bool_decide (sid s = sid s0)
          then Ok (applyAuthBundle (mkBundle t ty e u s) false w)
          else throw "Authentication rotation session mismatch"
      | _, _ => throw "Authentication rotation has no active session"
      end
  end.

Definition refreshRaceDelays : list Z := [80; 200; 500]%Z.

(** [runtime.clear] of [runRefresh]. *)
Definition runtime_clear (synchronizeTabs : bool) (b : option AuthBootstrapState) (w : World) : World :=
  match synchronizeTabs, b with
  | false, Some Idle => with_auth (reset Idle) w
  | _, _ => clearAuthentication synchronizeTabs (default Complete b) w
  end.

(** [run] up to its first [await]. *)
Definition run (raceAttempt : nat) (allowMismatchRetry : bool) (w : World) : World :=
  match refreshing w with
  | None => w
  | Some (ep, _) =>
      if negb (authEpoch w =? ep)%nat then finish (OTransientError true) w
      else
        let w1 := set_point (AwaitResponse raceAttempt allowMismatchRetry (currentSID w)) w in
        mkWorld (auth w1) (authEpoch w1) (refreshing w1) (cache w1) (published w1) (outcomes w1) (S (requests w1))
  end.

Definition transient_status (s : Z) : bool :=
  ((s =? 0) || (s =? 408) || (s =? 425) || (s =? 429) || (500 <=? s))%Z.

Definition response_code (r : AuthRefreshHTTPResponse) : option (list N) :=
  as_string (data r ≫= get "code").

(** [run] after the response. *)
Definition handle_response (r : AuthRefreshHTTPResponse) (raceAttempt : nat) (allowMismatchRetry : bool) (w : World)
  : World :=
  let code := response_code r in
  let bundle := (data r ≫= get "data") ≫= asAuthBundle in
  match as_bool (data r ≫= get "success"), bundle with
  | Some true, Some b => finish (OAuthenticated b) (applyAuthBundle b false w)
  | _, _ =>
      if (status r =? 409)%Z && bool_decide (code = Some (js "AUTH_REFRESH_RACE")) then
        match refreshRaceDelays !! raceAttempt with
        | Some _ => set_point (AwaitDelay (S raceAttempt) allowMismatchRetry) w
        | None => finish (OOutOfSync (js "AUTH_REFRESH_RACE")) (runtime_clear false None w)
        end
      else if (status r =? 409)%Z && bool_decide (code = Some (js "AUTH_SESSION_MISMATCH")) then
        if allowMismatchRetry then run 0 false (runtime_clear false (Some Idle) w)
        else finish (OOutOfSync (js "AUTH_SESSION_MISMATCH")) (runtime_clear false None w)
      else if (status r =? 401)%Z then finish OAnonymous (runtime_clear true None w)
      else if transient_status (status r)
      then finish (OTransientError false) (with_auth (setBootstrapState Idle) w)
      else finish (OOutOfSync (default (js "AUTH_INVALID_REFRESH_RESPONSE") code)) (runtime_clear false None w)
  end.

Definition on_response (r : AuthRefreshHTTPResponse) (w : World) : World :=
  match refreshing w with
  | Some (ep, AwaitResponse n m _) =>
      if negb (authEpoch w =? ep)%nat then finish (OTransientError true) w else handle_response r n m w
  | _ => w
  end.

Definition on_lock (w : World) : World :=
  match refreshing w with Some (_, AwaitLock) => run 0 true w | _ => w end.

Definition on_delay (w : World) : World :=
  match refreshing w with Some (_, AwaitDelay n m) => run n m w | _ => w end.

(** A second caller shares the refresh in flight. *)
Definition refreshAuthentication (w : World) : World :=
  match refreshing w with
  | Some _ => w
  | None => mkWorld (auth w) (authEpoch w) (Some (authEpoch w, AwaitLock)) (cache w) (published w) (outcomes w) 0
  end.

(** ** Using the session *)

(** [now] is [Math.floor(Date.now() / 1000)]. *)
Definition currentValidAuthBundle (now : spec_float) (a : AuthState) : option AuthBundle :=
  match user a, accessToken a, accessExpiresAt a, session a with
  | Some u, Some ((_ :: _) as t), Some e, Some s =>
      if num_truthy e && negb (num_leb e now) then Some (mkBundle t (js "Bearer") e u s) else None
  | _, _, _, _ => None
  end.

Definition is_complete (b : AuthBootstrapState) : bool := match b with Complete => true | _ => false end.

(** The outcome is [None] when it is that of the refresh now in flight. *)
Definition bootstrapAuthentication (now : spec_float) (w : World) : option RefreshOutcome * World :=
  match currentValidAuthBundle now (auth w) with
  | Some b => (Some (OAuthenticated b), with_auth (setBootstrapState Complete) w)
  | None =>
      let hasStaleSession := match user (auth w), session (auth w) with Some _, Some _ => true | _, _ => false end in
      if is_complete (bootstrapState (auth w)) && negb hasStaleSession then (Some OAnonymous, w)
      else (None, refreshAuthentication (with_auth (setBootstrapState Checking) w))
  end.

Definition getCommonHeaders (a : AuthState) : list (list N * list N) :=
  (js "Content-Type", js "application/json") ::
  match accessToken a with
  | Some ((_ :: _) as t) => [(js "Authorization", js "Bearer " ++ t)]
  | _ => []
  end.

Definition token_after (limit : spec_float) (a : AuthState) : bool :=
  match accessToken a, accessExpiresAt a with
  | Some (_ :: _), Some e => num_truthy e && num_ltb limit e
  | _, _ => false
  end.

(** [getFreshAuthHeaders] before its [await]: headers, or a refresh to wait for. *)
Definition getFreshAuthHeaders (now : spec_float) (w : World) : list (list N * list N) + World :=
  if token_after (num_add now (num_of_Z 60)) (auth w) then inl (getCommonHeaders (auth w))
  else inr (refreshAuthentication w).

(** [getFreshAuthHeaders] after the refresh. *)
Definition freshAuthHeaders (now : spec_float) (o : RefreshOutcome) (w : World) : res (list (list N * list N)) :=
  match o with
  | OAuthenticated _ => Ok (getCommonHeaders (auth w))
  | _ =>
      if token_after now (auth w) then Ok (getCommonHeaders (auth w))
      else match o with OTransientError _ => throw "Request failed" | _ => throw "Session expired!" end
  end.

(** ** Events *)

Inductive Event :=
| ESignIn (response : json) (synchronizeTabs : bool) (* a login response that passes [isAuthBundle] *)
| ERotate (response : json) (* a response marked [acceptAuthRotation] *)
| ESignOut (synchronizeTabs : bool) (b : AuthBootstrapState)
| ESetUser (u : option json)
| ESetPending (t : option (list N))
| EBootstrap (now : spec_float)
| ERefresh
| ELock
| EResponse (r : AuthRefreshHTTPResponse)
| EDelay
| EQuery. (* data loaded under the current session enters the cache *)

Definition load_query (w : World) : World :=
  mkWorld (auth w) (authEpoch w) (refreshing w) (currentSID w :: cache w) (published w) (outcomes w) (requests w).

(** A rotation that fails signs the user out (lib/http-client.ts). *)
Definition rotate_or_clear (v : json) (w : World) : World :=
  match applyAuthRotation v w with Ok w' => w' | Throw _ => clearAuthentication true Complete w end.

Definition apply_event (e : Event) (w : World) : World :=
  match e with
  | ESignIn v s => match asAuthBundle v with Some b => applyAuthBundle b s w | None => w end
  | ERotate v => rotate_or_clear v w
  | ESignOut s b => clearAuthentication s b w
  | ESetUser u => with_auth (setUser u) w
  | ESetPending t => with_auth (setPending2FAFlowToken t) w
  | EBootstrap now => (bootstrapAuthentication now w).2
  | ERefresh => refreshAuthentication w
  | ELock => on_lock w
  | EResponse r => on_response r w
  | EDelay => on_delay w
  | EQuery => load_query w
  end.

Definition run_events (es : list Event) (w : World) : World := fold_left (fun w e => apply_event e w) es w.

(** ** Invariants *)

(** Token, expiry and session are present together, and a session has a name. *)
Definition auth_ok (a : AuthState) : Prop :=
  match accessToken a, accessExpiresAt a, session a with
  | Some _, Some _, Some s => sid s <> []
  | None, None, None => True
  | _, _, _ => False
  end.

(** The refresh in flight: its epoch is not in the future, and the requests it has
    sent are accounted for by its attempts. *)
Definition point_ok (p : RunPoint) (reqs : nat) : Prop :=
  match p with
  | AwaitLock => reqs = 0
  | AwaitResponse n m _ => n <= 3 /\ reqs <= n + (if m then 1 else 5)
  | AwaitDelay n m => 1 <= n <= 3 /\ reqs <= n + (if m then 0 else 4)
  end.

Definition refresh_ok (w : World) : Prop :=
  requests w <= 8 /\
  match refreshing w with
  | Some (ep, p) => ep <= authEpoch w /\ point_ok p (requests w)
  | None => True
  end.

Definition world_ok (w : World) : Prop := auth_ok (auth w) /\ refresh_ok w.

Lemma asAuthBundle_sid v b : asAuthBundle v = Some b -> sid (bundle_session b) <> [].
Proof.
  unfold asAuthBundle. intros H.
  apply bind_Some in H as (f & _ & H). apply bind_Some in H as (u & _ & H).
  apply bind_Some in H as (sv & _ & H). apply bind_Some in H as (s & Hs & H).
  destruct (isAuthUser u); [|done]. injection H as <-. simpl. unfold asLoginSession in Hs.
  repeat (apply bind_Some in Hs as (? & _ & Hs)). destruct x; by simplify_eq/=.
Qed.

Lemma publish_auth k s w : auth (publishAuthSessionEvent k s w) = auth w.
Proof. by destruct s as [[|]|]. Qed.
Lemma publish_epoch k s w : authEpoch (publishAuthSessionEvent k s w) = authEpoch w.
Proof. by destruct s as [[|]|]. Qed.
Lemma publish_refreshing k s w : refreshing (publishAuthSessionEvent k s w) = refreshing w.
Proof. by destruct s as [[|]|]. Qed.
Lemma publish_requests k s w : requests (publishAuthSessionEvent k s w) = requests w.
Proof. by destruct s as [[|]|]. Qed.
Lemma publish_cache k s w : cache (publishAuthSessionEvent k s w) = cache w.
Proof. by destruct s as [[|]|]. Qed.
#[export] Hint Rewrite publish_auth publish_epoch publish_refreshing publish_requests publish_cache : authdb.

(** Signing in and out, seen through the components of the world. *)
Lemma apply_bundle_fields b s w :
  let w' := applyAuthBundle b s w in
  auth w' = setBundle b (auth w) /\ authEpoch w' = S (authEpoch w) /\ refreshing w' = refreshing w /\
  requests w' = requests w /\
  cache w' = if present (currentSID w) && negb (bool_decide (currentSID w = Some (sid (bundle_session b))))
             then [] else cache w.
Proof.
  unfold applyAuthBundle. destruct (present _ && _), (s && _); autorewrite with authdb; done.
Qed.

Lemma clear_fields s b w :
  let w' := clearAuthentication s b w in
  auth w' = reset b (auth w) /\ authEpoch w' = S (authEpoch w) /\ refreshing w' = refreshing w /\
  requests w' = requests w /\ cache w' = [].
Proof. unfold clearAuthentication. destruct (s && _); autorewrite with authdb; done. Qed.

Lemma rotation_fields v w w' :
  applyAuthRotation v w = Ok w' ->
  exists b, w' = applyAuthBundle b false w /\ currentSID w = Some (sid (bundle_session b)).
Proof.
  unfold applyAuthRotation. destruct (asAuthTokenRotation v) as [[[[t ty] e] s]|]; [|done].
  destruct (user (auth w)) as [u|]; [|done]. destruct (session (auth w)) as [s0|] eqn:Es; [|done].
  destruct (bool_decide _) eqn:Eb; [|done]. apply bool_decide_eq_true in Eb. intros [= <-].
  eexists. split; [done|]. unfold currentSID. rewrite Es. simpl. by rewrite Eb.
Qed.

Lemma finish_ok o w : auth_ok (auth w) -> requests w <= 8 -> world_ok (finish o w).
Proof. by repeat split. Qed.

Lemma run_ok n (m : bool) w ep p :
  auth_ok (auth w) -> refreshing w = Some (ep, p) -> ep <= authEpoch w ->
  n <= 3 -> requests w <= n + (if m then 0 else 4) -> world_ok (run n m w).
Proof.
  intros Ha Hr Hep Hn Hq. unfold run. rewrite Hr.
  destruct (negb _); [apply finish_ok; [done|destruct m; lia]|].
  split; [done|]. split; simpl; [destruct m; lia|]. rewrite Hr. simpl. split; [done|].
  split; [done|]. destruct m; lia.
Qed.

Lemma applyAuthBundle_ok b s w : sid (bundle_session b) <> [] -> world_ok w -> world_ok (applyAuthBundle b s w).
Proof.
  intros Hs [_ [Hq Hr]]. destruct (apply_bundle_fields b s w) as (Ha & He & Hf & Hn & _).
  split; [by rewrite Ha|]. unfold refresh_ok. rewrite He, Hf, Hn. split; [done|].
  destruct (refreshing w) as [[ep p]|]; [|done]. destruct Hr. split; [lia|done].
Qed.

Lemma clearAuthentication_ok s b w : world_ok w -> world_ok (clearAuthentication s b w).
Proof.
  intros [_ [Hq Hr]]. destruct (clear_fields s b w) as (Ha & He & Hf & Hn & _).
  split; [by rewrite Ha|]. unfold refresh_ok. rewrite He, Hf, Hn. split; [done|].
  destruct (refreshing w) as [[ep p]|]; [|done]. destruct Hr. split; [lia|done].
Qed.

Lemma with_auth_ok f w : auth_ok (f (auth w)) -> world_ok w -> world_ok (with_auth f w).
Proof. by intros Hf [_ Hr]. Qed.

Lemma refreshAuthentication_ok w : world_ok w -> world_ok (refreshAuthentication w).
Proof.
  intros [Ha [Hq Hr]]. unfold refreshAuthentication. destruct (refreshing w) eqn:E; [by split; [|split; rewrite ?E]|].
  split; [done|]. split; simpl; [lia|done].
Qed.

Lemma world_ok_finish o w : world_ok w -> world_ok (finish o w).
Proof. intros [Ha [Hq _]]. by apply finish_ok. Qed.

Lemma handle_response_ok r n m w ep s :
  world_ok w -> refreshing w = Some (ep, AwaitResponse n m s) -> world_ok (handle_response r n m w).
Proof.
  intros Hw Hr. pose proof Hw as [Ha [Hq Hp]]. rewrite Hr in Hp. destruct Hp as [Hep [Hn Hreq]].
  unfold handle_response.
  assert (world_ok (runtime_clear false None w)) as Hc by by apply clearAuthentication_ok.
  destruct (as_bool (data r ≫= get "success")) as [[]|]; [destruct ((data r ≫= get "data") ≫= asAuthBundle) as [b|] eqn:Eb| |].
  1: { apply world_ok_finish, applyAuthBundle_ok; [|done].
       apply bind_Some in Eb as (v & _ & Eb). by eapply asAuthBundle_sid. }
  all: (destruct ((status r =? 409)%Z && bool_decide (response_code r = Some (js "AUTH_REFRESH_RACE")));
      [destruct (refreshRaceDelays !! n) eqn:Ed;
        [split; [done|]; split; [done|]; simpl; rewrite Hr; simpl; split; [done|];
         apply lookup_lt_Some in Ed; simpl in Ed; split; [lia|destruct m; lia]
        |by apply world_ok_finish]|];
    destruct ((status r =? 409)%Z && _);
      [destruct m; [by eapply (run_ok 0 false); [|exact Hr|..]; simpl; try done; lia|by apply world_ok_finish]|];
    destruct (status r =? 401)%Z; [by apply world_ok_finish, clearAuthentication_ok|];
    destruct (transient_status (status r)); [by apply world_ok_finish, with_auth_ok|]; by apply world_ok_finish).
Qed.

Lemma apply_event_ok e w : world_ok w -> world_ok (apply_event e w).
Proof.
  intros Hw. pose proof Hw as [Ha [Hq Hp]]. destruct e; simpl.
  - destruct (asAuthBundle response) as [b|] eqn:E; [|done].
    apply applyAuthBundle_ok; [by eapply asAuthBundle_sid|done].
  - unfold rotate_or_clear. destruct (applyAuthRotation response w) as [w'|] eqn:E; [|by apply clearAuthentication_ok].
    apply rotation_fields in E as (b & -> & Hs). apply applyAuthBundle_ok; [|done].
    unfold currentSID in Hs. unfold auth_ok in Ha.
    destruct (accessToken (auth w)), (accessExpiresAt (auth w)), (session (auth w)); simpl in Hs; try done.
    by injection Hs as <-.
  - by apply clearAuthentication_ok.
  - by apply with_auth_ok.
  - by apply with_auth_ok.
  - unfold bootstrapAuthentication. destruct (currentValidAuthBundle _ _); [by apply with_auth_ok|].
    destruct (_ && _); [done|]. by apply refreshAuthentication_ok, with_auth_ok.
  - by apply refreshAuthentication_ok.
  - unfold on_lock. destruct (refreshing w) as [[ep []]|] eqn:E; try done.
    destruct Hp as [Hep Hz]. eapply run_ok; [done|done|done|lia|]. simpl in *. lia.
  - unfold on_response. destruct (refreshing w) as [[ep [|n m s|]]|] eqn:E; try done.
    destruct (negb _); [by apply world_ok_finish|]. by eapply handle_response_ok.
  - unfold on_delay. destruct (refreshing w) as [[ep []]|] eqn:E; try done.
    destruct Hp as [Hep [Hn Hreq]]. eapply run_ok; [done|done|done|lia|]. done.
  - done.
Qed.

Lemma run_events_ok es w : world_ok w -> world_ok (run_events es w).
Proof. revert w. induction es; intros w Hw; simpl; [done|]. by apply IHes, apply_event_ok. Qed.

Lemma initial_ok : world_ok initialWorld.
Proof. split; [done|]. split; simpl; [lia|done]. Qed.

(** ** A refresh that the session has overtaken *)

(** What happens without the user or another tab. *)
Definition background (e : Event) : bool :=
  match e with ELock | EResponse _ | EDelay | EQuery => true | _ => false end.

(** Signing in, rotating the token, signing out. *)
Definition session_event (e : Event) : bool :=
  match e with
  | ESignIn v _ => match asAuthBundle v with Some _ => true | None => false end
  | ERotate _ | ESignOut _ _ => true
  | _ => false
  end.

Definition stale (w : World) : Prop :=
  match refreshing w with Some (ep, _) => ep <> authEpoch w | None => True end.

Lemma run_stale n m w : stale w -> auth (run n m w) = auth w /\ stale (run n m w).
Proof.
  unfold stale, run. destruct (refreshing w) as [[ep p]|] eqn:E; [|by rewrite E].
  intros Hs. rewrite (proj2 (Nat.eqb_neq _ _)) by done. done.
Qed.

Lemma background_stale e w :
  background e = true -> stale w -> auth (apply_event e w) = auth w /\ stale (apply_event e w).
Proof.
  intros He Hs. destruct e; try done; simpl.
  - unfold on_lock. destruct (refreshing w) as [[ep []]|] eqn:E; try done. by apply run_stale.
  - unfold on_response. destruct (refreshing w) as [[ep [|n m s|]]|] eqn:E; try done.
    unfold stale in Hs. rewrite E in Hs. rewrite (proj2 (Nat.eqb_neq _ _)) by done. done.
  - unfold on_delay. destruct (refreshing w) as [[ep []]|] eqn:E; try done. by apply run_stale.
Qed.

Lemma background_run es w :
  forallb background es = true -> stale w -> auth (run_events es w) = auth w.
Proof.
  revert w. induction es as [|e es IH]; intros w Hes Hs; simpl; [done|]. simpl in Hes. breflect.
  destruct (background_stale e w H Hs) as [Ha Hs']. by rewrite IH.
Qed.

Lemma session_event_epoch e w :
  session_event e = true ->
  authEpoch (apply_event e w) = S (authEpoch w) /\ refreshing (apply_event e w) = refreshing w.
Proof.
  destruct e; simpl; try done.
  - destruct (asAuthBundle response) as [b|]; [|done]. intros _.
    by destruct (apply_bundle_fields b synchronizeTabs w) as (_ & -> & -> & _).
  - intros _. unfold rotate_or_clear. destruct (applyAuthRotation response w) as [w'|] eqn:E.
    + apply rotation_fields in E as (b & -> & _). by destruct (apply_bundle_fields b false w) as (_ & -> & -> & _).
    + by destruct (clear_fields true Complete w) as (_ & -> & -> & _).
  - intros _. by destruct (clear_fields synchronizeTabs b w) as (_ & -> & -> & _).
Qed.

(** C17: A refresh never overrides a newer session.  When a sign-in, a rotation or
    a sign-out happens while a refresh is in flight (at whatever point, in any
    reachable state), no continuation of that refresh (the lock, any response,
    any delay, in any number and order) changes the authentication state that
    event set. *)
Theorem overtaken_refresh_is_inert (es bg : list Event) (e : Event) :
  session_event e = true -> forallb background bg = true ->
  auth (run_events bg (apply_event e (run_events es initialWorld))) =
  auth (apply_event e (run_events es initialWorld)).
Proof.
  intros He Hbg. apply background_run; [done|].
  destruct (run_events_ok es _ initial_ok) as [_ [_ Hr]]. set (w := run_events es initialWorld) in *.
  destruct (session_event_epoch e w He) as [E1 E2]. unfold stale. rewrite E1, E2.
  destruct (refreshing w) as [[ep p]|]; [|done]. lia.
Qed.

(** ** A refresh ends *)

(** The refresh receives the lock, its delay elapses, a response arrives. *)
Definition answer (r : AuthRefreshHTTPResponse) (w : World) : World := on_response r (on_delay (on_lock w)).

(** How many responses the refresh may still wait for. *)
Definition needed (w : World) : nat :=
  match refreshing w with
  | None => 0
  | Some (_, AwaitLock) => 8
  | Some (_, AwaitResponse n m _) | Some (_, AwaitDelay n m) => (if m then 8 else 4) - n
  end.

Lemma run_needed n (m : bool) w : needed (run n m w) <= (if m then 8 else 4) - n.
Proof.
  unfold run, needed. destruct (refreshing w) as [[ep p]|] eqn:E; [|rewrite E; lia].
  destruct (negb _); simpl; [lia|]. rewrite E. simpl. done.
Qed.

Lemma settle_needed w :
  world_ok w ->
  needed (on_delay (on_lock w)) <= needed w /\ world_ok (on_delay (on_lock w)) /\
  match refreshing (on_delay (on_lock w)) with None | Some (_, AwaitResponse _ _ _) => True | _ => False end.
Proof.
  intros Hw.
  assert (forall n m, match refreshing (run n m w) with None | Some (_, AwaitResponse _ _ _) => True
                      | _ => match refreshing w with None => True | _ => False end end) as Hrun.
  { intros n m. unfold run. destruct (refreshing w) as [[ep p]|] eqn:E; [|by rewrite E].
    destruct (negb _); simpl; [done|]. by rewrite E. }
  pose proof (apply_event_ok EDelay _ (apply_event_ok ELock w Hw)) as Hok. simpl in Hok.
  split_and!; [|done|]; clear Hok.
  - unfold on_lock. destruct (refreshing w) as [[ep [|n m s|n m]]|] eqn:E.
    + specialize (Hrun 0 true). pose proof (run_needed 0 true w) as H. cbv iota in H.
      unfold on_delay. unfold needed at 2. rewrite E in *.
      destruct (refreshing (run 0 true w)) as [[ep' []]|]; try done; lia.
    + unfold on_delay. by rewrite E.
    + unfold on_delay. rewrite E. pose proof (run_needed n m w). unfold needed at 2. by rewrite E.
    + unfold on_delay. by rewrite E.
  - unfold on_lock. destruct (refreshing w) as [[ep [|n m s|n m]]|] eqn:E.
    + specialize (Hrun 0 true). unfold on_delay.
      destruct (refreshing (run 0 true w)) as [[ep' []]|] eqn:E'; rewrite ?E'; done.
    + unfold on_delay. by rewrite E, E.
    + unfold on_delay. rewrite E. specialize (Hrun n m).
      destruct (refreshing (run n m w)) as [[ep' []]|]; done.
    + unfold on_delay. by rewrite E, E.
Qed.

Lemma response_needed r w ep n m s :
  world_ok w -> refreshing w = Some (ep, AwaitResponse n m s) -> needed (on_response r w) < needed w.
Proof.
  intros [_ [_ Hp]] Hr. rewrite Hr in Hp. destruct Hp as [_ [Hn _]].
  assert (0 < needed w) as Hpos by (unfold needed; rewrite Hr; destruct m; lia).
  unfold on_response. rewrite Hr. destruct (negb _); [done|]. unfold handle_response.
  destruct (as_bool _) as [[]|]; [destruct ((data r ≫= get "data") ≫= asAuthBundle) as [b|]| |].
  1: done.
  all: destruct ((status r =? 409)%Z && _);
    [destruct (refreshRaceDelays !! n) eqn:Ed;
      [apply lookup_lt_Some in Ed; simpl in Ed; unfold needed; simpl; rewrite Hr; simpl; destruct m; lia|done]|];
    destruct ((status r =? 409)%Z && _);
    [destruct m; [|done]; pose proof (run_needed 0 false (runtime_clear false (Some Idle) w)) as H;
     unfold needed at 2; rewrite Hr; simpl in *; lia|];
    destruct (status r =? 401)%Z; [done|]; destruct (transient_status _); done.
Qed.

Lemma answer_needed r w : world_ok w -> world_ok (answer r w) /\ needed (answer r w) <= needed w - 1.
Proof.
  intros Hw. destruct (settle_needed w Hw) as (Hle & Hok & Hpt). unfold answer.
  set (w1 := on_delay (on_lock w)) in *. clearbody w1.
  split; [by apply (apply_event_ok (EResponse r))|].
  destruct (refreshing w1) as [[ep [|n m s|]]|] eqn:E; try done.
  - pose proof (response_needed r w1 ep n m s Hok E). lia.
  - unfold on_response. rewrite E. unfold needed at 1. rewrite E. lia.
Qed.

(** A refresh sends at most eight requests (four attempts at a race, once more
    after a session mismatch) and ends: in any reachable state, eight responses,
    whatever they are, leave no refresh in flight. *)
Theorem refresh_bounded (es : list Event) (rs : list AuthRefreshHTTPResponse) :
  requests (run_events es initialWorld) <= 8 /\
  (8 <= length rs ->
   refreshing (fold_left (fun w r => answer r w) rs (run_events es initialWorld)) = None).
Proof.
  pose proof (run_events_ok es _ initial_ok) as Hw. split; [apply Hw|]. intros Hlen.
  assert (needed (run_events es initialWorld) <= 8) as Hn.
  { unfold needed. destruct (refreshing _) as [[ep [|n m s|n m]]|]; try destruct m; lia. }
  revert Hn Hw. generalize (run_events es initialWorld) as w. intros w Hn Hw.
  assert (needed w <= length rs) as Hl by lia. clear Hlen Hn. revert w Hw Hl.
  induction rs as [|r rs IH]; intros w Hw Hl; simpl in *.
  - destruct Hw as [_ [_ Hp]]. unfold needed in Hl.
    destruct (refreshing w) as [[ep [|n m s|n m]]|]; [lia| | |done]; destruct Hp as [_ [Hb _]]; destruct m; lia.
  - destruct (answer_needed r w Hw) as [Hw' Hd]. apply IH; [done|lia].
Qed.

(** ** The cache of the previous session *)

(** The response that makes the refresh forget its session and ask again. *)
Definition mismatch (r : AuthRefreshHTTPResponse) : bool :=
  (status r =? 409)%Z && bool_decide (response_code r = Some (js "AUTH_SESSION_MISMATCH")).

Definition no_mismatch (e : Event) : bool := match e with EResponse r => negb (mismatch r) | _ => true end.

(** Every cached entry was loaded by the current session, or by nobody. *)
Definition cache_ok (w : World) : Prop :=
  Forall (fun tag => tag = None \/ tag = currentSID w) (cache w).

Lemma auth_ok_present w : auth_ok (auth w) -> currentSID w <> None -> present (currentSID w) = true.
Proof.
  unfold auth_ok, currentSID.
  destruct (accessToken (auth w)), (accessExpiresAt (auth w)), (session (auth w)) as [ses|]; try done.
  simpl. by destruct (sid ses).
Qed.

Lemma applyAuthBundle_cache b s w : auth_ok (auth w) -> cache_ok w -> cache_ok (applyAuthBundle b s w).
Proof.
  intros Ha Hc. destruct (apply_bundle_fields b s w) as (Eau & _ & _ & _ & Ec).
  assert (currentSID (applyAuthBundle b s w) = Some (sid (bundle_session b))) as Es.
  { unfold currentSID. by rewrite Eau. }
  unfold cache_ok. rewrite Ec, Es.
  destruct (present (currentSID w)) eqn:Ep; simpl.
  - case_bool_decide as E; simpl; [|constructor]. rewrite <- E. exact Hc.
  - eapply Forall_impl; [exact Hc|]. intros t [->| ->]; [by left|]. left.
    destruct (currentSID w) eqn:E; [|done]. rewrite <- E in Ep. rewrite auth_ok_present in Ep; [done|done|by rewrite E].
Qed.

Lemma clear_cache_ok s b w : cache_ok (clearAuthentication s b w).
Proof. unfold cache_ok. destruct (clear_fields s b w) as (_ & _ & _ & _ & ->). constructor. Qed.

Lemma run_same n m w : cache (run n m w) = cache w /\ auth (run n m w) = auth w.
Proof. unfold run. destruct (refreshing w) as [[ep p]|]; [|done]. by destruct (negb _). Qed.

Lemma cache_ok_ext w w' : cache w' = cache w -> auth w' = auth w -> cache_ok w -> cache_ok w'.
Proof. unfold cache_ok, currentSID. by intros -> ->. Qed.

Lemma event_cache e w :
  no_mismatch e = true -> world_ok w -> cache_ok w -> cache_ok (apply_event e w).
Proof.
  intros He [Ha _] Hc. destruct e; simpl in *.
  - destruct (asAuthBundle response); [by apply applyAuthBundle_cache|done].
  - unfold rotate_or_clear. destruct (applyAuthRotation response w) as [w'|] eqn:E; [|by apply clear_cache_ok].
    apply rotation_fields in E as (b & -> & _). by apply applyAuthBundle_cache.
  - apply clear_cache_ok.
  - exact Hc.
  - exact Hc.
  - unfold bootstrapAuthentication. destruct (currentValidAuthBundle _ _); [exact Hc|].
    destruct (_ && _); [done|]. unfold refreshAuthentication. by destruct (refreshing _).
  - unfold refreshAuthentication. by destruct (refreshing _).
  - unfold on_lock. destruct (refreshing w) as [[ep []]|]; try done.
    by eapply cache_ok_ext; [apply run_same..|].
  - unfold on_response. destruct (refreshing w) as [[ep [|n m s|]]|]; try done.
    destruct (negb (authEpoch w =? ep)); [done|]. unfold handle_response.
    destruct (as_bool _) as [[]|]; [destruct ((data r ≫= get "data") ≫= asAuthBundle) as [b|]| |].
    1: by apply (applyAuthBundle_cache b false).
    all: unfold mismatch in He; apply negb_true_iff in He; rewrite He;
      repeat first [ apply clear_cache_ok | exact Hc
                   | match goal with |- context [if ?b then _ else _] => destruct b end
                   | match goal with |- context [match ?x with Some _ => _ | None => _ end] => destruct x end ].
  - unfold on_delay. destruct (refreshing w) as [[ep []]|]; try done.
    by eapply cache_ok_ext; [apply run_same..|].
  - unfold cache_ok, load_query. simpl. constructor; [by right|exact Hc].
Qed.

(** Without a mismatch answer every entry of the cache was loaded under the current
    session or while nobody was signed in. *)
Lemma cache_without_mismatch (es : list Event) :
  forallb no_mismatch es = true -> cache_ok (run_events es initialWorld).
Proof.
  assert (forall w, world_ok w -> cache_ok w -> forallb no_mismatch es = true -> cache_ok (run_events es w)) as H.
  { induction es as [|e es IH]; intros w Hw Hc Hes; simpl in *; [done|].
    apply andb_true_iff in Hes as [He Hes]. apply IH; [by apply apply_event_ok|by apply event_cache|done]. }
  apply H; [apply initial_ok|constructor].
Qed.

(** The retry after a mismatch signs the next session in with the cache as it was. *)
Lemma mismatch_keeps_cache (w : World) n s r1 r2 b :
  refreshing w = Some (authEpoch w, AwaitResponse n true s) ->
  mismatch r1 = true -> as_bool (data r1 ≫= get "success") = None ->
  as_bool (data r2 ≫= get "success") = Some true -> (data r2 ≫= get "data") ≫= asAuthBundle = Some b ->
  let w' := on_response r2 (on_response r1 w) in
  session (auth w') = Some (bundle_session b) /\ cache w' = cache w /\ refreshing w' = None.
Proof.
  intros Hr Hm Hs1 Hs2 Hb. cbv zeta.
  assert (exists w1, on_response r1 w = w1 /\ session (auth w1) = None /\ cache w1 = cache w /\
            refreshing w1 = Some (authEpoch w1, AwaitResponse 0 false None)) as (w1 & -> & Hses & Hc & Hr1).
  { eexists. split; [reflexivity|]. unfold on_response. rewrite Hr, Nat.eqb_refl. cbn [negb].
    unfold handle_response. rewrite Hs1. unfold mismatch in Hm.
    apply andb_true_iff in Hm as [-> Hcode%bool_decide_eq_true]. rewrite Hcode.
    rewrite bool_decide_eq_false_2 by done. rewrite bool_decide_eq_true_2 by done. simpl.
    unfold run. simpl. rewrite Hr, Nat.eqb_refl. done. }
  unfold on_response. rewrite Hr1, Nat.eqb_refl. cbn [negb]. unfold handle_response. rewrite Hs2, Hb.
  destruct (apply_bundle_fields b false w1) as (Eau & _ & _ & _ & Ec).
  cbn [finish auth cache refreshing]. rewrite Eau, Ec. unfold currentSID. rewrite Hses. by rewrite <- Hc.
Qed.

(** The query cache never holds another session's data as long as no refresh
    is answered with a session mismatch: whatever signs in, rotates, signs out or
    refreshes, every entry was loaded under the current session or while nobody
    was signed in.  The retry after a mismatch is the exception: a current refresh that
    is answered with a mismatch and then with the bundle of any session signs that
    session in with every entry of the cache still there, although [applyAuthBundle]
    clears the cache on a change of session. *)
Theorem cache_belongs_to_session :
  (forall es, forallb no_mismatch es = true -> cache_ok (run_events es initialWorld)) /\
  (forall w n s r1 r2 b,
    refreshing w = Some (authEpoch w, AwaitResponse n true s) ->
    mismatch r1 = true -> as_bool (data r1 ≫= get "success") = None ->
    as_bool (data r2 ≫= get "success") = Some true -> (data r2 ≫= get "data") ≫= asAuthBundle = Some b ->
    let w' := on_response r2 (on_response r1 w) in
    session (auth w') = Some (bundle_session b) /\ cache w' = cache w /\ refreshing w' = None).
Proof. split; [apply cache_without_mismatch|apply mismatch_keeps_cache]. Qed.

(** ** Witnesses *)

Definition sample_session (id : string) : json :=
  JObj [(js "sid", JStr (js id)); (js "current", JBool true); (js "login_method", JStr (js "password"));
        (js "ip", JStr (js "192.0.2.1")); (js "user_agent", JStr (js "browser"));
        (js "created_at", JNum (num_of_Z 1)); (js "last_active_at", JNum (num_of_Z 2));
        (js "expires_at", JNum (num_of_Z 3))].

Definition sample_login (id : string) : json :=
  JObj [(js "access_token", JStr (js "token")); (js "token_type", JStr (js "Bearer"));
        (js "access_expires_at", JNum (num_of_Z 900));
        (js "user", JObj [(js "id", JNum (num_of_Z 7)); (js "username", JStr (js "ada")); (js "role", JNum (num_of_Z 1))]);
        (js "session", sample_session id)].

Definition ok_response (id : string) : AuthRefreshHTTPResponse :=
  mkResponse 200 (Some (JObj [(js "success", JBool true); (js "data", sample_login id)])).
Definition mismatch_response : AuthRefreshHTTPResponse :=
  mkResponse 409 (Some (JObj [(js "code", JStr (js "AUTH_SESSION_MISMATCH"))])).
Definition race_response : AuthRefreshHTTPResponse :=
  mkResponse 409 (Some (JObj [(js "code", JStr (js "AUTH_REFRESH_RACE"))])).

(** A signs in, loads data; a refresh starts. *)
Definition refresh_of_a : list Event := [ESignIn (sample_login "A") true; EQuery; ERefresh; ELock].

Lemma overtaken_refresh_is_inert_witness :
  let w := apply_event (ESignIn (sample_login "B") true) (run_events refresh_of_a initialWorld) in
  refreshing w <> None /\
  auth (run_events [EResponse (ok_response "A"); EDelay] w) = auth w.
Proof.
  cbv zeta. split; [vm_compute; discriminate|].
  apply (overtaken_refresh_is_inert refresh_of_a [EResponse (ok_response "A"); EDelay]
           (ESignIn (sample_login "B") true)); vm_compute; reflexivity.
Defined.

Lemma refresh_bounded_witness :
  refreshing (run_events refresh_of_a initialWorld) <> None /\
  refreshing (fold_left (fun w r => answer r w) (replicate 8 race_response) (run_events refresh_of_a initialWorld)) = None.
Proof.
  split; [vm_compute; discriminate|].
  apply (proj2 (refresh_bounded refresh_of_a (replicate 8 race_response))). vm_compute. lia.
Defined.

(** Session B ends up with the entry session A loaded. *)
Lemma mismatch_keeps_cache_sample :
  cache (on_response (ok_response "B") (on_response mismatch_response (run_events refresh_of_a initialWorld)))
    = [Some (js "A")] /\
  currentSID (on_response (ok_response "B") (on_response mismatch_response (run_events refresh_of_a initialWorld)))
    = Some (js "B").
Proof.
  destruct (asAuthBundle (sample_login "B")) as [b|] eqn:Eb; [|vm_compute in Eb; discriminate].
  destruct (mismatch_keeps_cache (run_events refresh_of_a initialWorld) 0 (Some (js "A"))
              mismatch_response (ok_response "B") b) as (_ & Hc & _);
    [vm_compute; reflexivity|vm_compute; reflexivity|vm_compute; reflexivity|vm_compute; reflexivity|exact Eb|].
  split; [rewrite Hc; vm_compute; reflexivity|vm_compute; reflexivity].
Defined.
