(* ===== verification/BrowserStorage.v ===== *)
(** * Browser storage

    What the components that keep their data in the browser promise themselves of
    [Storage]: a key-value store whose [setItem] may throw (quota, security).  The
    clients are proved against this interface; [MemoryStorage] of
    features/drawing/drawing-task-state.ts and a store with a quota implement it. *)
From S2P Require Import Prelude JsString.
From Stdlib Require Import Lia.

(** [setItem] is [None] when it throws; the store is then unchanged. *)
Class Storage (St : Type) := {
  getItem : list N -> St -> option (list N);
  setItem : list N -> list N -> St -> option St;
  removeItem : list N -> St -> St }.

Class StorageLaws (St : Type) `{Storage St} := {
  get_set : forall k v s s', setItem k v s = Some s' -> getItem k s' = Some v;
  get_set_ne : forall k k' v s s', k <> k' -> setItem k v s = Some s' -> getItem k' s' = getItem k' s;
  get_remove : forall k s, getItem k (removeItem k s) = None;
  get_remove_ne : forall k k' s, k <> k' -> getItem k' (removeItem k s) = getItem k' s }.

(** A write whose failure is ignored. *)
Definition try_set {St} `{Storage St} (k v : list N) (s : St) : St := default s (setItem k v s).

Lemma try_set_ne {St} `{StorageLaws St} k k' v s : k <> k' -> getItem k' (try_set k v s) = getItem k' s.
Proof. intros Hk. unfold try_set. destruct (setItem k v s) eqn:E; simpl; [|done]. by eapply get_set_ne. Qed.

(** ** The store in memory *)

Definition MemoryStorage : Type := gmap (list N) (list N).

#[export] Instance MemoryStorage_storage : Storage MemoryStorage := {|
  getItem k s := s !! k;
  setItem k v s := Some (<[k := v]> s);
  removeItem k s := delete k s |}.

#[export] Instance MemoryStorage_laws : StorageLaws MemoryStorage.
Proof.
  split; simpl; intros.
  - simplify_eq. apply lookup_insert_eq.
  - simplify_eq. by apply lookup_insert_ne.
  - apply lookup_delete_eq.
  - by apply lookup_delete_ne.
Qed.

(** ** A store with a quota on the length of a value *)

Record LimitedStorage := mkLimited { quota : nat; contents : gmap (list N) (list N) }.

#[export] Instance LimitedStorage_storage : Storage LimitedStorage := {|
  getItem k s := contents s !! k;
  setItem k v s := if (length v <=? quota s)%nat then Some (mkLimited (quota s) (<[k := v]> (contents s))) else None;
  removeItem k s := mkLimited (quota s) (delete k (contents s)) |}.

#[export] Instance LimitedStorage_laws : StorageLaws LimitedStorage.
Proof.
  split; simpl; intros.
  - case_match; simplify_eq/=. apply lookup_insert_eq.
  - case_match; simplify_eq/=. by apply lookup_insert_ne.
  - apply lookup_delete_eq.
  - by apply lookup_delete_ne.
Qed.
