(* ===== verification/Sidebar.v ===== *)
(** * Sidebar settings and the landing route (src/apps/web/src/lib)

    - [sidebar-preferences.ts]: the user's sidebar settings, their normal form,
      their JSON envelope, and the checks of a route against them;
    - [console-activation.ts]: the onboarding state and the route a user lands on
      after signing in.

    Settings are read from untrusted JSON ([JsJson.json]; [None] is [undefined]).
    An object is an association list in insertion order; the order JavaScript gives
    to integer-like keys and the key [__proto__] are not modelled. *)
From S2P Require Import Prelude JsString JsNumber BillingLexer JsJson JsNumberPrint JsJsonPrint.
From S2P Require Import AuthSession.
From Stdlib Require Import Lia.

(** ** Settings *)

Inductive SidebarDensity := Comfortable | Compact.

Record SidebarPreferences := mkPrefs {
  section_order : list (list N);
  module_order : list (list N * list (list N));
  hidden_sections : list (list N);
  hidden : list (list N);
  density : SidebarDensity;
  default_route : list N }.

Definition Modules : Type := list (list N * list (list N * bool)).

Record SidebarUserSettings := mkSettings { modules : Modules; preferences : SidebarPreferences }.

Definition SIDEBAR_DEFAULT_PREFERENCES : SidebarPreferences := mkPrefs [] [] [] [] Comfortable [].

Definition MAX_PREFERENCE_ITEMS : nat := 100.

Definition isRecord (v : option json) : bool := match v with Some (JObj _) => true | _ => false end.

(** [Object.entries(value)] of a record, nothing otherwise. *)
Definition entries (v : option json) : list (list N * json) :=
  match v with Some (JObj ms) => ms | _ => [] end.

(** [new Set(list)], in insertion order. *)
Definition set_add (acc : list (list N)) (x : list N) : list (list N) :=
  if bool_decide (x ∈ acc) then acc else acc ++ [x].
Definition unique (l : list (list N)) : list (list N) := fold_left set_add l [].

(** The strings of an array that are not blank. *)
Definition nonblank_string (v : json) : option (list N) :=
  match v with JStr s => if nonempty (trim s) then Some s else None | _ => None end.

Definition uniqueStrings (v : option json) : list (list N) :=
  match v with
  | Some (JArr items) => take MAX_PREFERENCE_ITEMS (unique (omap nonblank_string items))
  | _ => []
  end.

(** [record[key] = value]. *)
Fixpoint assoc_set {A} (k : list N) (x : A) (l : list (list N * A)) : list (list N * A) :=
  match l with
  | [] => [(k, x)]
  | (k', x') :: l' => if bool_decide (k = k') then (k, x) :: l' else (k', x') :: assoc_set k x l'
  end.

Definition normalize_section (v : json) : list (list N * bool) :=
  fold_left (fun acc m => match m.2 with JBool b => assoc_set m.1 b acc | _ => acc end) (entries (Some v)) [].

Definition normalizeModules (v : option json) : Modules :=
  fold_left (fun acc m =>
      if isRecord (Some m.2) then
        match normalize_section m.2 with [] => acc | s => assoc_set m.1 s acc end
      else acc)
    (entries v) [].

Definition normalize_order (v : option json) : list (list N * list (list N)) :=
  fold_left (fun acc m => match uniqueStrings (Some m.2) with [] => acc | l => assoc_set m.1 l acc end)
    (entries v) [].

(** [raw.key] where [raw] is the value if it is a record and [{}] otherwise. *)
Definition field (k : string) (v : option json) : option json := v ≫= get k.

Definition normalizeSidebarPreferences (v : option json) : SidebarPreferences :=
  mkPrefs (uniqueStrings (field "section_order" v))
    (normalize_order (field "module_order" v))
    (uniqueStrings (field "hidden_sections" v))
    (uniqueStrings (field "hidden" v))
    (if bool_decide (as_string (field "density" v) = Some (js "compact")) then Compact else Comfortable)
    (default [] (as_string (field "default_route" v))).

Definition parseSidebarUserSettings (v : option json) : option SidebarUserSettings :=
  match v with
  | Some (JStr s) =>
      if negb (nonempty (trim s)) then None
      else
        match json_parse s with
        | Some (JObj ms) =>
            let parsed := Some (JObj ms) in
            let hasEnvelope := isRecord (field "modules" parsed) in
            Some (mkSettings
              (normalizeModules (if hasEnvelope then field "modules" parsed else parsed))
              (normalizeSidebarPreferences (if hasEnvelope then field "preferences" parsed else None)))
        | _ => None
        end
  | _ => None
  end.

(** The typed values as [JSON.stringify] sees them. *)
Definition strings_json (l : list (list N)) : json := JArr (map JStr l).
Definition section_json (s : list (list N * bool)) : json := JObj (map (fun m => (m.1, JBool m.2)) s).
Definition modules_json (ms : Modules) : json := JObj (map (fun m => (m.1, section_json m.2)) ms).
Definition order_json (o : list (list N * list (list N))) : json := JObj (map (fun m => (m.1, strings_json m.2)) o).
Definition density_name (d : SidebarDensity) : list N :=
  match d with Comfortable => js "comfortable" | Compact => js "compact" end.

Definition preferences_json (p : SidebarPreferences) : json :=
  JObj [(js "section_order", strings_json (section_order p)); (js "module_order", order_json (module_order p));
        (js "hidden_sections", strings_json (hidden_sections p)); (js "hidden", strings_json (hidden p));
        (js "density", JStr (density_name (density p))); (js "default_route", JStr (default_route p))].

Definition serializeSidebarUserSettings (ms : Modules) (p : SidebarPreferences) : list N :=
  json_stringify (JObj [(js "modules", modules_json ms);
    (js "preferences", preferences_json (normalizeSidebarPreferences (Some (preferences_json p))))]).

(** ** Routes *)

Definition SIDEBAR_DEFAULT_ROUTE_ALLOWLIST : list (list N) :=
  js <$> ["/getting-started"; "/open-source-bounties"; "/public-relay"; "/challenges"; "/rankings";
          "/chat-management"; "/dashboard/overview"; "/dashboard/models"; "/status"; "/keys"; "/drawing";
          "/remote-control"; "/usage-logs/common"; "/usage-logs/task"; "/wallet"; "/company"; "/profile";
          "/support"; "/todos"; "/channels"; "/models/metadata"; "/users"; "/redemption-codes";
          "/discount-codes"; "/subscriptions"; "/system-info"; "/system-settings/site"]%string.

Definition SIDEBAR_ROUTE_SECTION : list (list N * list N) :=
  (fun p => (js p.1, js p.2)) <$>
  [("/getting-started", "onboarding"); ("/open-source-bounties", "forge"); ("/public-relay", "forge");
   ("/challenges", "forge"); ("/rankings", "forge"); ("/chat-management", "chat");
   ("/dashboard/overview", "general"); ("/dashboard/models", "general"); ("/status", "general");
   ("/keys", "general"); ("/drawing", "general"); ("/remote-control", "general");
   ("/usage-logs/common", "general"); ("/usage-logs/task", "general"); ("/wallet", "personal");
   ("/company", "personal"); ("/profile", "personal"); ("/support", "personal"); ("/todos", "personal");
   ("/channels", "admin"); ("/models/metadata", "admin"); ("/users", "admin");
   ("/redemption-codes", "admin"); ("/discount-codes", "admin"); ("/subscriptions", "admin");
   ("/system-info", "admin"); ("/system-settings/site", "admin")]%string.

(** A route's section and module. *)
Definition SIDEBAR_ROUTE_MODULE : list (list N * (list N * list N)) :=
  (fun p => (js p.1, (js p.2.1, js p.2.2))) <$>
  [("/dashboard", ("console", "detail")); ("/dashboard/overview", ("console", "detail"));
   ("/dashboard/models", ("console", "detail")); ("/chat-management", ("chat", "chat"));
   ("/keys", ("console", "token")); ("/drawing", ("console", "midjourney"));
   ("/usage-logs/common", ("console", "log")); ("/usage-logs/task", ("console", "task"));
   ("/wallet", ("personal", "topup")); ("/company", ("personal", "company"));
   ("/profile", ("personal", "personal")); ("/open-source-bounties", ("personal", "personal"));
   ("/public-relay", ("personal", "personal")); ("/channels", ("admin", "channel"));
   ("/models/metadata", ("admin", "models")); ("/users", ("admin", "user"));
   ("/redemption-codes", ("admin", "redemption")); ("/subscriptions", ("admin", "subscription"));
   ("/system-info", ("admin", "setting")); ("/system-settings/site", ("admin", "setting"))]%string.

(** [record[key]]. *)
Definition assoc {A} (k : list N) (l : list (list N * A)) : option A :=
  list_find (fun m => m.1 = k) l ≫= fun im => Some im.2.2.

(** A text may hold a text that holds a configuration; each level is shorter. *)
Fixpoint parse_config (fuel : nat) (v : option json) : option (list (list N * json)) :=
  match v with
  | Some (JStr s) =>
      match fuel with
      | O => None
      | S f => match json_parse s with Some v' => parse_config f (Some v') | None => None end
      end
  | Some (JObj ms) => Some (filter (fun m => isRecord (Some m.2) = true) ms)
  | _ => None
  end.

Definition text_length (v : option json) : nat := match v with Some (JStr s) => length s | _ => 0 end.

Definition parseSidebarModuleConfig (v : option json) : option (list (list N * json)) :=
  parse_config (S (text_length v)) v.

Definition is_false (v : option json) : bool := match v with Some (JBool false) => true | _ => false end.

Definition isSidebarModuleEnabledByModules (sectionName moduleName : list N) (v : option json) : bool :=
  match parseSidebarModuleConfig v ≫= assoc sectionName with
  | None => true
  | Some section =>
      negb (is_false (get "enabled" section)) && negb (is_false (assoc moduleName (entries (Some section))))
  end.

Definition isSidebarRouteEnabledByModules (route : list N) (v : option json) : bool :=
  match assoc route SIDEBAR_ROUTE_MODULE with
  | None => true
  | Some (section, m) => isSidebarModuleEnabledByModules section m v
  end.

Definition isSidebarRouteHidden (route : list N) (p : SidebarPreferences) : bool :=
  bool_decide (route ∈ hidden p) ||
  match assoc route SIDEBAR_ROUTE_SECTION with
  | Some section => bool_decide (section ∈ hidden_sections p)
  | None => false
  end.

Definition resolveSidebarDefaultRoute (v : option json) (fallback : list N) : list N :=
  let p := match parseSidebarUserSettings v with Some s => preferences s | None => SIDEBAR_DEFAULT_PREFERENCES end in
  let route := default_route p in
  if negb (bool_decide (route ∈ SIDEBAR_DEFAULT_ROUTE_ALLOWLIST)) || isSidebarRouteHidden route p
  then fallback else route.

(** ** Onboarding *)

Inductive OnboardingStage := Activate | Credential | FirstRequest | CompleteStage.

Definition stage_of (v : option json) : option OnboardingStage :=
  match as_string v with
  | Some s =>
      if bool_decide (s = js "activate") then Some Activate
      else if bool_decide (s = js "credential") then Some Credential
      else if bool_decide (s = js "first_request") then Some FirstRequest
      else if bool_decide (s = js "complete") then Some CompleteStage
      else None
  | None => None
  end.

Record NormalizedOnboardingState := mkOnboarding {
  activationComplete : bool;
  credentialComplete : bool;
  firstRequestComplete : bool;
  stage : OnboardingStage;
  isExplicit : bool }.

Definition deriveStage (activation credential first : bool) : OnboardingStage :=
  if negb activation then Activate
  else if negb credential then Credential
  else if negb first then FirstRequest
  else CompleteStage.

Definition is_true_value (v : option json) : bool := match v with Some (JBool true) => true | _ => false end.
Definition defined (v : option json) : bool := match v with Some _ => true | None => false end.

(** [typeof x === 'boolean' ? x : inferred]. *)
Definition bool_or (v : option json) (inferred : bool) : bool := default inferred (as_bool v).

Definition getOnboardingState (user : option json) : NormalizedOnboardingState :=
  match user with
  | None => mkOnboarding false false false Activate false
  | Some u =>
      let activation := is_true_value (get "developer_access_granted" u) in
      let onboarding := get "onboarding" u in
      let hasNestedState := defined onboarding in
      let nested := match onboarding with Some (JObj _ as o) | Some (JArr _ as o) => Some o | _ => None end in
      let hasFlatState := defined (get "activation_complete" u) || defined (get "credential_complete" u) ||
                          defined (get "first_request_complete" u) || defined (get "onboarding_stage" u) in
      let source_credential := match nested with Some n => get "credential_complete" n | None => get "credential_complete" u end in
      let source_first := match nested with Some n => get "first_request_complete" n | None => get "first_request_complete" u end in
      let source_stage := match nested with Some n => get "stage" n | None => get "onboarding_stage" u end in
      let statedStage := stage_of source_stage in
      let mayInferFromStage := negb hasNestedState in
      let rawCredential :=
        bool_or source_credential
          (mayInferFromStage && match statedStage with Some FirstRequest | Some CompleteStage => true | _ => false end) in
      let rawFirst :=
        bool_or source_first
          (mayInferFromStage && match statedStage with Some CompleteStage => true | _ => false end) in
      let credential := activation && rawCredential in
      let first := credential && rawFirst in
      mkOnboarding activation credential first (deriveStage activation credential first)
        (defined (get "developer_access_granted" u) || hasNestedState || hasFlatState)
  end.

Definition isConsoleActivated (user : option json) : bool :=
  is_true_value (field "developer_access_granted" user).

(** ** The landing route *)

Definition ROLE_GUEST : spec_float := num_of_Z 0.
Definition ROLE_ADMIN : spec_float := num_of_Z 10.
Definition ROLE_SUPER_ADMIN : spec_float := num_of_Z 100.

Definition adminOnlyRoutes : list (list N) :=
  js <$> ["/channels"; "/models/metadata"; "/users"; "/redemption-codes"; "/discount-codes"; "/subscriptions"]%string.
Definition superAdminOnlyRoutes : list (list N) := js <$> ["/system-info"; "/system-settings/site"]%string.

(** [user?.role ?? ROLE.GUEST]; the guard of the session makes it a number. *)
Definition role_of (user : option json) : spec_float := default ROLE_GUEST (as_number (field "role" user)).

(** The conditions on the route a user asked for. *)
Definition route_allowed (requested : list N) (settings : option SidebarUserSettings) (role : spec_float)
    (sidebarModulesAdmin : option json) : bool :=
  let prefs := match settings with Some s => preferences s | None => SIDEBAR_DEFAULT_PREFERENCES end in
  bool_decide (requested ∈ SIDEBAR_DEFAULT_ROUTE_ALLOWLIST) &&
  negb (isSidebarRouteHidden requested prefs) &&
  isSidebarRouteEnabledByModules requested sidebarModulesAdmin &&
  isSidebarRouteEnabledByModules requested (modules_json <$> (modules <$> settings)) &&
  (negb (bool_decide (requested ∈ adminOnlyRoutes)) || num_leb ROLE_ADMIN role) &&
  (negb (bool_decide (requested ∈ superAdminOnlyRoutes)) || num_eqb role ROLE_SUPER_ADMIN).

Definition user_settings (user : option json) : option SidebarUserSettings :=
  if is_false (field "permissions" user ≫= get "sidebar_settings") then None
  else parseSidebarUserSettings (field "sidebar_modules" user).

Definition getAuthenticatedLandingRoute (user : option json) (sidebarModulesAdmin : option json) : list N :=
  if negb (activationComplete (getOnboardingState user)) then js "/getting-started"
  else
    match user_settings user with
    | None => js "/dashboard"
    | Some s =>
        let requested := default_route (preferences s) in
        if route_allowed requested (Some s) (role_of user) sidebarModulesAdmin then requested else js "/dashboard"
    end.

Definition isContributorRoute (pathname : list N) : bool :=
  bool_decide (pathname = js "/getting-started") || starts_with (js "/getting-started/") pathname.

Definition isRestrictedPublicRoute (pathname : list N) : bool :=
  existsb (fun p => bool_decide (pathname = p) || starts_with (p ++ js "/") pathname)
    [js "/about"; js "/rankings"].

(** ** The onboarding checklist *)

(** The onboarding state is coherent for any user object, whatever legacy
    fields it carries: access is granted exactly when the server says so, a later
    step is only complete after the earlier ones, and the stage is the first
    incomplete step. *)
Theorem onboarding_coherent (user : option json) :
  let s := getOnboardingState user in
  activationComplete s = isConsoleActivated user /\
  (credentialComplete s = true -> activationComplete s = true) /\
  (firstRequestComplete s = true -> credentialComplete s = true) /\
  stage s = deriveStage (activationComplete s) (credentialComplete s) (firstRequestComplete s).
Proof.
  cbv zeta. destruct user as [u|]; [|done]. unfold getOnboardingState, isConsoleActivated. simpl.
  split_and!; try done; by intros [? _]%andb_true_iff.
Qed.

(** ** Where a user lands *)

(** A path inside the application: one slash first. *)
Definition internal_path (r : list N) : bool :=
  starts_with (js "/") r && negb (starts_with (js "//") r).

Lemma allowlist_internal r : r ∈ SIDEBAR_DEFAULT_ROUTE_ALLOWLIST -> internal_path r = true.
Proof.
  intros H. assert (forallb internal_path SIDEBAR_DEFAULT_ROUTE_ALLOWLIST = true) as E by (vm_compute; reflexivity).
  apply list_elem_of_In in H. by apply (proj1 (forallb_forall _ _) E).
Qed.

Lemma route_allowed_spec r s role admin :
  route_allowed r (Some s) role admin = true ->
  r ∈ SIDEBAR_DEFAULT_ROUTE_ALLOWLIST /\ isSidebarRouteHidden r (preferences s) = false /\
  isSidebarRouteEnabledByModules r admin = true /\
  (r ∈ adminOnlyRoutes -> num_leb ROLE_ADMIN role = true) /\
  (r ∈ superAdminOnlyRoutes -> num_eqb role ROLE_SUPER_ADMIN = true).
Proof.
  unfold route_allowed. intros H. apply andb_true_iff in H as [H Hs]. apply andb_true_iff in H as [H Ha].
  apply andb_true_iff in H as [H _]. apply andb_true_iff in H as [H Hm]. apply andb_true_iff in H as [Hal Hh].
  apply bool_decide_eq_true in Hal. apply negb_true_iff in Hh. split_and!; try done.
  - intros Hr. apply orb_true_iff in Ha as [Ha|Ha]; [|done]. by rewrite bool_decide_eq_true_2 in Ha.
  - intros Hr. apply orb_true_iff in Hs as [Hs|Hs]; [|done]. by rewrite bool_decide_eq_true_2 in Hs.
Qed.

(** Where signing in leads, for any user object and any settings text: a path
    inside the application; the getting-started page unless the server granted
    access; and otherwise the dashboard or an allow-listed route that the user did
    not hide, that the administrator's modules leave enabled, and that is an
    administration page only for the roles that may open it. *)
Theorem landing_route_safe (user admin : option json) :
  let r := getAuthenticatedLandingRoute user admin in
  internal_path r = true /\
  (isConsoleActivated user = false -> r = js "/getting-started") /\
  (isConsoleActivated user = true -> r <> js "/dashboard" ->
     r ∈ SIDEBAR_DEFAULT_ROUTE_ALLOWLIST /\ isSidebarRouteEnabledByModules r admin = true /\
     (exists s, user_settings user = Some s /\ isSidebarRouteHidden r (preferences s) = false) /\
     (r ∈ adminOnlyRoutes -> num_leb ROLE_ADMIN (role_of user) = true) /\
     (r ∈ superAdminOnlyRoutes -> num_eqb (role_of user) ROLE_SUPER_ADMIN = true)).
Proof.
  assert (activationComplete (getOnboardingState user) = isConsoleActivated user) as Ea by by destruct user.
  cbv zeta. unfold getAuthenticatedLandingRoute. rewrite Ea. destruct (isConsoleActivated user); simpl negb; cbv iota.
  2: { split; [vm_compute; reflexivity|]. split; [done|]. done. }
  destruct (user_settings user) as [s|]; [|split; [vm_compute; reflexivity|done]].
  destruct (route_allowed _ _ _ _) eqn:E; [|split; [vm_compute; reflexivity|done]].
  apply route_allowed_spec in E as (H1 & H2 & H3 & H4 & H5).
  split; [by apply allowlist_internal|]. split; [done|]. intros _ _. split_and!; eauto.
Qed.

(** ** Saving and reading settings *)

Lemma assoc_set_fresh {A} k (x : A) l : k ∉ map fst l -> assoc_set k x l = l ++ [(k, x)].
Proof.
  induction l as [|[k' x'] l IH]; simpl; [done|]. intros H. apply not_elem_of_cons in H as [H1 H2].
  rewrite bool_decide_eq_false_2 by done. by rewrite IH.
Qed.

Lemma assoc_set_keys {A} k (x : A) l k' : k' ∈ map fst (assoc_set k x l) -> k' = k \/ k' ∈ map fst l.
Proof.
  induction l as [|[k0 x0] l IH]; simpl.
  - rewrite list_elem_of_singleton. by left.
  - case_bool_decide as E; simpl; rewrite !elem_of_cons; naive_solver.
Qed.

Lemma assoc_set_NoDup {A} k (x : A) l : NoDup (map fst l) -> NoDup (map fst (assoc_set k x l)).
Proof.
  induction l as [|[k0 x0] l IH]; simpl; [by repeat constructor; intros []%elem_of_nil|].
  intros H. apply NoDup_cons in H as [H1 H2]. case_bool_decide as E; simpl; [by subst; constructor|].
  constructor; [|by apply IH]. intros [->|?]%assoc_set_keys; done.
Qed.

(** A fold that assigns the kept entries of a record without repeated keys. *)
Lemma fold_assoc_set {A B} (f : B -> option A) (l : list (list N * B)) acc :
  NoDup (map fst acc ++ map fst l) ->
  fold_left (fun acc m => match f m.2 with Some y => assoc_set m.1 y acc | None => acc end) l acc =
  acc ++ omap (fun m => (fun y => (m.1, y)) <$> f m.2) l.
Proof.
  revert acc. induction l as [|[k b] l IH]; intros acc H; simpl; [by rewrite app_nil_r|].
  assert (k ∉ map fst acc /\ NoDup (map fst acc ++ map fst l)) as [Hk Hnd].
  { simpl in H. apply NoDup_app in H as (H1 & H2 & H3). apply NoDup_cons in H3 as [H3 H4]. split.
    - intros Hin. apply (H2 k Hin). left.
    - apply NoDup_app. split_and!; try done. intros y Hy Hin. apply (H2 y Hy). by right. }
  destruct (f b) as [y|]; simpl; [|by apply IH].
  rewrite assoc_set_fresh by done. rewrite IH; [by rewrite <- app_assoc|].
  rewrite map_app. simpl. rewrite <- app_assoc. exact H.
Qed.

Definition keys_ok {A} (l : list (list N * A)) : bool := bool_decide (NoDup (map fst l)).

Lemma keys_json {A} (g : A -> json) (l : list (list N * A)) :
  map fst (map (fun m => (m.1, g m.2)) l) = map fst l.
Proof. rewrite map_map. by apply map_ext. Qed.

Lemma normalize_section_json s : NoDup (map fst s) -> normalize_section (section_json s) = s.
Proof.
  intros Hs. unfold normalize_section, section_json. simpl entries.
  rewrite (fold_left_ext _ (fun acc m => match as_bool (Some m.2) with Some y => assoc_set m.1 y acc | None => acc end)).
  - rewrite (fold_assoc_set (fun v => as_bool (Some v))) by by rewrite keys_json. simpl. induction s as [|[k b] s IH]; simpl; [done|].
    inv Hs. f_equal. by apply IH.
  - intros acc [k v]. simpl. by destruct v.
Qed.

(** Sections that hold at least one module. *)
Definition filled (ms : list (list N * list (list N * bool))) : list (list N * list (list N * bool)) :=
  filter (fun m => m.2 <> []) ms.

Definition section_entry (v : json) : option (list (list N * bool)) :=
  if isRecord (Some v) then match normalize_section v with [] => None | s => Some s end else None.

Lemma normalize_modules_json ms :
  NoDup (map fst ms) -> Forall (fun m => NoDup (map fst m.2)) ms ->
  normalizeModules (Some (modules_json ms)) = filled ms.
Proof.
  intros Hms Hs. unfold normalizeModules, modules_json. simpl entries.
  rewrite (fold_left_ext _ (fun acc m => match section_entry m.2 with Some y => assoc_set m.1 y acc | None => acc end)).
  - rewrite (fold_assoc_set section_entry) by by rewrite keys_json. simpl app. unfold filled. clear Hms.
    induction Hs as [|[k s] ms Hk _ IH]; [done|]. cbn [map fst snd]. cbn [omap list_omap fst snd].
    change (section_entry (section_json s)) with
      (match normalize_section (section_json s) with [] => None | s => Some s end).
    simpl in Hk. rewrite normalize_section_json by done.
    destruct s; [rewrite filter_cons_False by auto|rewrite filter_cons_True by done; simpl; f_equal]; exact IH.
  - intros acc [k v]. unfold section_entry. simpl. destruct v; try done. by destruct (normalize_section _).
Qed.

(** *** Normal lists of strings *)

Lemma unique_fold l acc :
  NoDup acc -> Forall (fun s => nonempty (trim s) = true) acc ->
  Forall (fun s => nonempty (trim s) = true) l ->
  NoDup (fold_left set_add l acc) /\ Forall (fun s => nonempty (trim s) = true) (fold_left set_add l acc).
Proof.
  revert acc. induction l as [|x l IH]; intros acc H1 H2 H3; simpl; [done|]. inv H3.
  apply IH; [| |done]; unfold set_add; case_bool_decide as E; try done.
  - apply NoDup_app. split_and!; [done| |by repeat constructor; intros []%elem_of_nil].
    intros y Hy ->%list_elem_of_singleton. done.
  - apply Forall_app. split; [done|by constructor].
Qed.

(** What [uniqueStrings] returns, and what it leaves alone. *)
Definition normal_strings (l : list (list N)) : Prop :=
  NoDup l /\ Forall (fun s => nonempty (trim s) = true) l /\ length l <= MAX_PREFERENCE_ITEMS.

Lemma uniqueStrings_normal v : normal_strings (uniqueStrings v).
Proof.
  unfold normal_strings, uniqueStrings.
  assert (NoDup (@nil (list N)) /\ Forall (fun s => nonempty (trim s) = true) [] /\ @length (list N) [] <= MAX_PREFERENCE_ITEMS)
    as Hnil by (split_and!; [constructor|constructor|simpl; lia]).
  destruct v as [[| | | |items|]|]; try exact Hnil.
  assert (Forall (fun s => nonempty (trim s) = true) (omap nonblank_string items)) as Ho.
  { induction items as [|v items IH]; simpl; [constructor|]. destruct v; simpl; try done.
    destruct (nonempty (trim s)) eqn:E; [by constructor|done]. }
  destruct (unique_fold (omap nonblank_string items) []) as [H1 H2]; [constructor|constructor|done|].
  split_and!; [eapply sublist_NoDup; [exact H1|apply sublist_take]|by apply Forall_take|].
  rewrite length_take. lia.
Qed.

Lemma unique_id l acc :
  NoDup (acc ++ l) -> fold_left set_add l acc = acc ++ l.
Proof.
  revert acc. induction l as [|x l IH]; intros acc H; simpl; [by rewrite app_nil_r|].
  unfold set_add at 2. rewrite bool_decide_eq_false_2.
  - rewrite IH by by rewrite <- app_assoc. by rewrite <- app_assoc.
  - apply NoDup_app in H as (_ & H & _). intros Hin. apply (H x Hin). left.
Qed.

Lemma uniqueStrings_id l : normal_strings l -> uniqueStrings (Some (strings_json l)) = l.
Proof.
  intros (H1 & H2 & H3). unfold uniqueStrings, strings_json.
  assert (omap nonblank_string (map JStr l) = l) as ->.
  { clear H1 H3. induction H2 as [|s l Hs _ IH]; simpl; [done|]. rewrite Hs. simpl. f_equal. exact IH. }
  unfold unique. rewrite unique_id by done. by apply take_ge.
Qed.

Lemma normalize_order_normal v :
  NoDup (map fst (normalize_order v)) /\
  Forall (fun m => normal_strings m.2 /\ m.2 <> []) (normalize_order v).
Proof.
  unfold normalize_order. generalize (entries v) as l. clear v.
  assert (forall l acc, NoDup (map fst acc) -> Forall (fun m => normal_strings m.2 /\ m.2 <> []) acc ->
    let r := fold_left (fun acc (m : list N * json) =>
      match uniqueStrings (Some m.2) with [] => acc | l => assoc_set m.1 l acc end) l acc in
    NoDup (map fst r) /\ Forall (fun m => normal_strings m.2 /\ m.2 <> []) r) as H.
  { induction l as [|[k v] l IH]; intros acc H1 H2; [done|]. cbn [fold_left].
    pose proof (uniqueStrings_normal (Some v)) as Hn. simpl snd. simpl fst.
    destruct (uniqueStrings (Some v)) as [|s ss] eqn:E; [by apply IH|]. apply IH; [by apply assoc_set_NoDup|].
    clear -H2 Hn. induction H2 as [|[k0 x0] acc Hx H2 IH]; simpl; [by constructor; [split|constructor]|].
    case_bool_decide; constructor; done. }
  intros l. apply H; constructor.
Qed.

Lemma normalize_order_id o :
  NoDup (map fst o) -> Forall (fun m => normal_strings m.2 /\ m.2 <> []) o ->
  normalize_order (Some (order_json o)) = o.
Proof.
  intros Hk Hs. unfold normalize_order, order_json. simpl entries.
  rewrite (fold_left_ext _ (fun acc m => match (match uniqueStrings (Some m.2) with [] => None | l => Some l end) with
                                         | Some y => assoc_set m.1 y acc | None => acc end)).
  - rewrite (fold_assoc_set (fun v => match uniqueStrings (Some v) with [] => None | l => Some l end))
      by by rewrite keys_json. rewrite app_nil_l. clear Hk.
    induction Hs as [|[k l] o [Hl Hne] _ IH]; [done|]. cbn -[uniqueStrings strings_json]. simpl in Hl, Hne.
    rewrite uniqueStrings_id by done. destruct l; [done|]. simpl. f_equal. exact IH.
  - intros acc [k v]. cbn [fst snd]. by destruct (uniqueStrings (Some v)).
Qed.

(** Normalizing twice is normalizing once. *)
Lemma normalize_preferences_idem v :
  normalizeSidebarPreferences (Some (preferences_json (normalizeSidebarPreferences v))) = normalizeSidebarPreferences v.
Proof.
  set (p := normalizeSidebarPreferences v).
  assert (normal_strings (section_order p) /\ normal_strings (hidden_sections p) /\ normal_strings (hidden p)) as (H1 & H2 & H3).
  { split_and!; apply uniqueStrings_normal. }
  assert (NoDup (map fst (module_order p)) /\ Forall (fun m => normal_strings m.2 /\ m.2 <> []) (module_order p)) as [H4 H5]
    by apply normalize_order_normal.
  clearbody p. destruct p as [so mo hs h d r]. simpl in *.
  unfold normalizeSidebarPreferences, preferences_json.
  change (field "section_order" _) with (Some (strings_json so)).
  change (field "module_order" _) with (Some (order_json mo)).
  change (field "hidden_sections" _) with (Some (strings_json hs)).
  change (field "hidden" _) with (Some (strings_json h)).
  change (field "density" _) with (Some (JStr (density_name d))).
  change (field "default_route" _) with (Some (JStr r)).
  rewrite !uniqueStrings_id, normalize_order_id by done. f_equal. by destruct d.
Qed.

(** *** The envelope *)

Lemma forallb_sub {A} (P : A -> bool) l k : (forall x, x ∈ k -> x ∈ l) -> forallb P l = true -> forallb P k = true.
Proof.
  intros Hs H. apply forallb_forall. intros x Hx. apply list_elem_of_In in Hx.
  apply (proj1 (forallb_forall _ _) H). apply list_elem_of_In. auto.
Qed.

Lemma strings_wf l : json_wf (strings_json l) = forallb unitsb l.
Proof. simpl. induction l as [|s l IH]; simpl; [done|]. by rewrite IH. Qed.

Lemma unique_elem x l acc : x ∈ fold_left set_add l acc -> x ∈ acc \/ x ∈ l.
Proof.
  revert acc. induction l as [|y l IH]; intros acc; simpl; [by left|]. intros H. apply IH in H as [H|H].
  - unfold set_add in H. case_bool_decide; [by left|]. apply elem_of_app in H as [H|H%list_elem_of_singleton]; [by left|].
    subst. right. left.
  - right. by right.
Qed.

Lemma uniqueStrings_elem x l : x ∈ uniqueStrings (Some (strings_json l)) -> x ∈ l.
Proof.
  unfold uniqueStrings, strings_json. intros H.
  assert (x ∈ unique (omap nonblank_string (map JStr l))) as H'.
  { rewrite <- (take_drop MAX_PREFERENCE_ITEMS (unique _)). apply elem_of_app. by left. }
  clear H. rename H' into H. apply unique_elem in H as [H|H]; [by apply elem_of_nil in H|].
  induction l as [|s l IH]; [done|]. simpl in H. destruct (nonempty (trim s)); simpl in H.
  - apply elem_of_cons in H as [->|H]; [left|]. right. by apply IH.
  - right. by apply IH.
Qed.

Lemma uniqueStrings_wf l :
  forallb unitsb l = true -> forallb unitsb (uniqueStrings (Some (strings_json l))) = true.
Proof. apply forallb_sub. intros x. apply uniqueStrings_elem. Qed.

Lemma order_wf o :
  json_wf (order_json o) =
  bool_decide (NoDup (map fst o)) && forallb (fun m => unitsb m.1 && forallb unitsb m.2) o.
Proof.
  unfold order_json. cbn [json_wf]. rewrite keys_json. f_equal.
  induction o as [|[k l] o IH]; [done|]. cbn [map forallb fst snd]. by rewrite IH, strings_wf.
Qed.

Lemma normalize_order_wf o :
  json_wf (order_json o) = true -> json_wf (order_json (normalize_order (Some (order_json o)))) = true.
Proof.
  rewrite !order_wf. intros H. apply andb_true_iff in H as [Hk%bool_decide_eq_true Ho].
  destruct (normalize_order_normal (Some (order_json o))) as [Hn _].
  rewrite bool_decide_eq_true_2 by done. cbn [andb]. clear Hn.
  unfold normalize_order, order_json. simpl entries.
  rewrite (fold_left_ext _ (fun acc m => match (match uniqueStrings (Some m.2) with [] => None | l => Some l end) with
                                         | Some y => assoc_set m.1 y acc | None => acc end)).
  2: { intros acc [k v]. cbn [fst snd]. by destruct (uniqueStrings (Some v)). }
  rewrite (fold_assoc_set (fun v => match uniqueStrings (Some v) with [] => None | l => Some l end))
    by by rewrite keys_json.
  rewrite app_nil_l. clear Hk. induction o as [|[k l] o IH]; [done|].
  cbn [forallb fst snd] in Ho. apply andb_true_iff in Ho as [Hkl Ho]. apply andb_true_iff in Hkl as [Hk Hl].
  specialize (IH Ho). cbn -[uniqueStrings strings_json]. apply uniqueStrings_wf in Hl.
  destruct (uniqueStrings (Some (strings_json l))) as [|s ss]; [exact IH|].
  simpl in Hl |- *. rewrite Hk, Hl. exact IH.
Qed.

Lemma preferences_wf p :
  json_wf (preferences_json p) =
  forallb unitsb (section_order p) && json_wf (order_json (module_order p)) &&
  forallb unitsb (hidden_sections p) && forallb unitsb (hidden p) && unitsb (default_route p).
Proof.
  unfold preferences_json. cbn [json_wf map fst].
  rewrite (bool_decide_eq_true_2 (NoDup _)) by (vm_compute; repeat constructor; set_solver).
  cbn [forallb]. rewrite !strings_wf. change (json_wf (JStr (density_name (density p)))) with (unitsb (density_name (density p))).
  change (json_wf (JStr (default_route p))) with (unitsb (default_route p)).
  assert (unitsb (density_name (density p)) = true) as -> by by destruct (density p).
  change (unitsb (js "section_order")) with true. change (unitsb (js "module_order")) with true.
  change (unitsb (js "hidden_sections")) with true. change (unitsb (js "hidden")) with true.
  change (unitsb (js "density")) with true. change (unitsb (js "default_route")) with true.
  cbn [andb]. rewrite andb_true_r. by rewrite !andb_assoc.
Qed.

Lemma normalized_wf p :
  json_wf (preferences_json p) = true ->
  json_wf (preferences_json (normalizeSidebarPreferences (Some (preferences_json p)))) = true.
Proof.
  rewrite !preferences_wf. intros H.
  apply andb_true_iff in H as [H Hr]. apply andb_true_iff in H as [H Hh]. apply andb_true_iff in H as [H Hs].
  apply andb_true_iff in H as [Hso Hmo]. destruct p as [so mo hs h d r].
  cbn [section_order module_order hidden_sections hidden default_route] in Hso, Hmo, Hs, Hh, Hr.
  unfold normalizeSidebarPreferences.
  change (field "section_order" _) with (Some (strings_json so)).
  change (field "module_order" _) with (Some (order_json mo)).
  change (field "hidden_sections" _) with (Some (strings_json hs)).
  change (field "hidden" _) with (Some (strings_json h)).
  change (field "default_route" _) with (Some (JStr r)).
  cbn [section_order module_order hidden_sections hidden default_route as_string default].
  rewrite !uniqueStrings_wf, normalize_order_wf by done. exact Hr.
Qed.

Lemma modules_keys ms :
  json_wf (modules_json ms) = true -> NoDup (map fst ms) /\ Forall (fun m => NoDup (map fst m.2)) ms.
Proof.
  unfold modules_json. cbn [json_wf]. rewrite keys_json. intros H.
  apply andb_true_iff in H as [H1%bool_decide_eq_true H2]. split; [done|]. clear H1.
  induction ms as [|[k s] ms IH]; [constructor|]. cbn [map forallb fst snd] in H2.
  apply andb_true_iff in H2 as [H2 H3]. apply andb_true_iff in H2 as [_ H2]. constructor; [|auto].
  unfold section_json in H2. cbn [json_wf] in H2. rewrite keys_json in H2.
  apply andb_true_iff in H2 as [H2%bool_decide_eq_true _]. done.
Qed.

(** Settings that are saved are read back.  For modules and preferences that
    JSON can represent, [parseSidebarUserSettings] of what
    [serializeSidebarUserSettings] writes is the modules (without empty sections)
    and the preferences in normal form; saving what was read changes nothing, as
    normalizing preferences twice is normalizing them once. *)
Theorem sidebar_settings_roundtrip (ms : Modules) (p : SidebarPreferences) :
  json_wf (modules_json ms) = true -> json_wf (preferences_json p) = true ->
  let p' := normalizeSidebarPreferences (Some (preferences_json p)) in
  parseSidebarUserSettings (Some (JStr (serializeSidebarUserSettings ms p))) = Some (mkSettings (filled ms) p') /\
  serializeSidebarUserSettings ms p' = serializeSidebarUserSettings ms p.
Proof.
  intros Hm Hp. cbv zeta. set (p' := normalizeSidebarPreferences (Some (preferences_json p))).
  assert (normalizeSidebarPreferences (Some (preferences_json p')) = p') as Hidem by apply normalize_preferences_idem.
  split; [|unfold serializeSidebarUserSettings; by rewrite Hidem].
  unfold parseSidebarUserSettings, serializeSidebarUserSettings. fold p'.
  set (env := JObj [(js "modules", modules_json ms); (js "preferences", preferences_json p')]).
  assert (json_wf env = true) as Hwf.
  { subst env. cbn [json_wf map fst forallb].
    rewrite (bool_decide_eq_true_2 (NoDup _)) by (vm_compute; repeat constructor; set_solver).
    pose proof (normalized_wf p Hp) as Hn. fold p' in Hn. by rewrite Hm, Hn. }
  assert (nonempty (trim (json_stringify env)) = true) as ->.
  { rewrite trim_trimmed; [done|]. unfold env. cbn [json_stringify]. by apply trimmed_around. }
  cbn [negb]. rewrite json_roundtrip by done. unfold env.
  change (isRecord (field "modules" _)) with true. cbv iota.
  change (field "modules" _) with (Some (modules_json ms)).
  change (field "preferences" _) with (Some (preferences_json p')).
  destruct (modules_keys ms Hm). by rewrite normalize_modules_json, Hidem.
Qed.

Definition sample_modules : Modules :=
  [(js "console", [(js "token", true); (js "log", false)]); (js "personal", [])].
Definition sample_preferences : SidebarPreferences :=
  mkPrefs [js "general"; js "forge"; js "general"] [(js "general", [js "/keys"; js " "])] [] [js "/users"] Compact (js "/wallet").

Lemma sidebar_settings_roundtrip_witness :
  parseSidebarUserSettings (Some (JStr (serializeSidebarUserSettings sample_modules sample_preferences))) =
  Some (mkSettings (filled sample_modules)
    (mkPrefs [js "general"; js "forge"] [(js "general", [js "/keys"])] [] [js "/users"] Compact (js "/wallet"))).
Proof.
  refine (eq_trans (proj1 (sidebar_settings_roundtrip sample_modules sample_preferences _ _)) _);
    vm_compute; reflexivity.
Defined.
