(* ===== verification/Drawing.v ===== *)
(** * Drawing drafts and tasks (src/apps/web/src/features/drawing/drawing-task-state.ts)

    The draft of the drawing form, kept per user in browser storage, the
    preference for the mini game, and the registry of the generation each user has
    running.  The registry's listeners are notified of every change; only the
    registry itself is modelled. *)
From S2P Require Import Prelude JsString JsNumber BillingLexer JsJson JsNumberPrint JsJsonPrint.
From S2P Require Import BrowserStorage.
From Stdlib Require Import Lia.

(** ** Drafts *)

Record DrawingDraft := mkDraft {
  prompt : list N;
  draft_group : option (list N);
  draft_model : option (list N);
  draft_size : option (list N);
  draft_quality : option (list N);
  draft_count : option (list N) }.

Definition empty_draft : DrawingDraft := mkDraft [] None None None None None.

(** A partial draft: a field is absent, or present with a possibly undefined value. *)
Record DraftPatch := mkPatch {
  patch_prompt : option (list N);
  patch_group : option (option (list N));
  patch_model : option (option (list N));
  patch_size : option (option (list N));
  patch_quality : option (option (list N));
  patch_count : option (option (list N)) }.

(** [{ ...current, ...patch }] *)
Definition merge_draft (d : DrawingDraft) (p : DraftPatch) : DrawingDraft :=
  mkDraft (default (prompt d) (patch_prompt p)) (default (draft_group d) (patch_group p))
    (default (draft_model d) (patch_model p)) (default (draft_size d) (patch_size p))
    (default (draft_quality d) (patch_quality p)) (default (draft_count d) (patch_count p)).

(** User ids are positive integers. *)
Definition getStorageKey (userId : N) : list N := js "lmm_drawing_draft_" ++ dec_string userId.

(** [parsed.key] when it is a string. *)
Definition string_field (k : string) (v : json) : option (list N) :=
  match v with
  | JObj ms => match list_find (fun m => m.1 = js k) ms with Some (_, (_, JStr s)) => Some s | _ => None end
  | _ => None
  end.

(** [JSON.stringify] leaves undefined members out. *)
Definition member (k : string) (v : option (list N)) : list (list N * json) :=
  match v with Some s => [(js k, JStr s)] | None => [] end.

Definition draft_json (d : DrawingDraft) : json :=
  JObj ((js "prompt", JStr (prompt d)) :: member "group" (draft_group d) ++ member "model" (draft_model d) ++
        member "size" (draft_size d) ++ member "quality" (draft_quality d) ++ member "count" (draft_count d)).

(** What the stored text says; reading a property of [null] throws, and the
    [catch] returns the empty draft. *)
Definition draft_of_text (raw : option (list N)) : DrawingDraft :=
  match raw with
  | Some ((_ :: _) as text) =>
      match json_parse text with
      | None | Some JNull => empty_draft
      | Some v => mkDraft (default [] (string_field "prompt" v)) (string_field "group" v) (string_field "model" v)
                    (string_field "size" v) (string_field "quality" v) (string_field "count" v)
      end
  | _ => empty_draft
  end.

Section Drafts.
Context {St : Type} `{Storage St}.

Definition getDrawingDraft (userId : N) (storage : St) : DrawingDraft :=
  draft_of_text (getItem (getStorageKey userId) storage).

Definition saveDrawingDraft (userId : N) (patch : DraftPatch) (storage : St) : St :=
  try_set (getStorageKey userId) (json_stringify (draft_json (merge_draft (getDrawingDraft userId storage) patch))) storage.

Definition clearDrawingPromptDraft (userId : N) (storage : St) : St :=
  saveDrawingDraft userId (mkPatch (Some []) None None None None None) storage.

Definition MINIGAME_KEY : list N := js "lmm_drawing_minigame_enabled".

Definition getDrawingMinigamePref (storage : St) : bool :=
  negb (bool_decide (getItem MINIGAME_KEY storage = Some (js "false"))).

Definition setDrawingMinigamePref (enabled : bool) (storage : St) : St :=
  try_set MINIGAME_KEY (if enabled then js "true" else js "false") storage.
End Drafts.

(** ** The task registry *)

Inductive TaskStatus := Generating | Stopped | Failed | Completed.

Record ActiveDrawingTask := mkTask {
  task_id : list N;
  userId : N;
  task_prompt : list N;
  task_group : list N;
  task_model : list N;
  task_size : option (list N);
  task_quality : option (list N);
  task_count : list N;
  referenceCount : N;
  startedAt : N;
  task_status : TaskStatus;
  waitingStopped : option bool;
  task_error : option (list N);
  errorStatus : option Z }.

Notation Registry := (gmap N ActiveDrawingTask).

Definition registerActiveDrawingTask (task : ActiveDrawingTask) (r : Registry) : Registry :=
  <[userId task := task]> r.

Definition getActiveDrawingTask (u : N) (r : Registry) : option ActiveDrawingTask := r !! u.

(** [patch] is the effect of the object spread on the registered task. *)
Definition updateActiveDrawingTask (u : N) (patch : ActiveDrawingTask -> ActiveDrawingTask) (r : Registry) : Registry :=
  match r !! u with Some existing => <[u := patch existing]> r | None => r end.

Definition clearActiveDrawingTask (u : N) (taskId : option (list N)) (r : Registry) : Registry :=
  match r !! u with
  | None => r
  | Some existing =>
      match taskId with
      | Some ((_ :: _) as id) => if bool_decide (task_id existing = id) then delete u r else r
      | _ => delete u r
      end
  end.

(** ** A draft that is saved is read back *)

Lemma getStorageKey_inj u v : getStorageKey u = getStorageKey v -> u = v.
Proof.
  unfold getStorageKey. intros E. apply app_inv_head in E.
  by rewrite <- (dec_string_value u), <- (dec_string_value v), E.
Qed.

Lemma draft_text_roundtrip d :
  json_wf (draft_json d) = true -> draft_of_text (Some (json_stringify (draft_json d))) = d.
Proof.
  intros Hwf. unfold draft_of_text.
  destruct (json_stringify (draft_json d)) as [|c text] eqn:E; [done|]. rewrite <- E, json_roundtrip by done.
  destruct d as [p [g|] [m|] [s|] [q|] [n|]]; reflexivity.
Qed.

Section DraftLaws.
Context {St : Type} `{StorageLaws St}.

(** A draft survives in any storage.  After [saveDrawingDraft], the draft of
    that user is the previous one updated with the patch when the write succeeded,
    and the previous one when it threw; the drafts of all other users are
    untouched either way. *)
Theorem draft_saved (u : N) (patch : DraftPatch) (storage : St) :
  json_wf (draft_json (merge_draft (getDrawingDraft u storage) patch)) = true ->
  let next := merge_draft (getDrawingDraft u storage) patch in
  let saved := saveDrawingDraft u patch storage in
  getDrawingDraft u saved =
    match setItem (getStorageKey u) (json_stringify (draft_json next)) storage with
    | Some _ => next
    | None => getDrawingDraft u storage
    end /\
  (forall v, v <> u -> getDrawingDraft v saved = getDrawingDraft v storage).
Proof.
  intros Hwf. cbv zeta. split.
  - unfold saveDrawingDraft, try_set. destruct (setItem _ _ storage) as [s'|] eqn:E; [|done]. simpl.
    unfold getDrawingDraft at 1. rewrite (get_set _ _ _ _ E). by apply draft_text_roundtrip.
  - intros v Hv. unfold saveDrawingDraft. unfold getDrawingDraft at 1.
    rewrite try_set_ne; [done|]. intros Hk. by apply getStorageKey_inj in Hk.
Qed.
End DraftLaws.

Definition sample_patch : DraftPatch := mkPatch (Some (js "a red fox")) None (Some (Some (js "image-1"))) None None None.

Lemma draft_saved_witness :
  getDrawingDraft 7 (saveDrawingDraft 7 sample_patch (∅ : MemoryStorage)) =
  mkDraft (js "a red fox") None (Some (js "image-1")) None None None.
Proof.
  refine (eq_trans (proj1 (draft_saved 7 sample_patch (∅ : MemoryStorage) _)) _); vm_compute; reflexivity.
Defined.

(** ** A finished generation does not remove its successor *)

(** What the code that runs a generation does to the registry: it updates the task
    of its user, without changing whose or which task it is, and clears it by id. *)
Inductive TaskOp :=
| UpdateTask (u : N) (patch : ActiveDrawingTask -> ActiveDrawingTask)
| ClearTask (u : N) (id : list N).

Definition run_op (o : TaskOp) (r : Registry) : Registry :=
  match o with
  | UpdateTask u patch => updateActiveDrawingTask u patch r
  | ClearTask u id => clearActiveDrawingTask u (Some id) r
  end.

(** Operations left over from another generation of the user, or from other users. *)
Definition foreign (t : ActiveDrawingTask) (o : TaskOp) : Prop :=
  match o with
  | UpdateTask u patch => forall x, task_id (patch x) = task_id x
  | ClearTask u id => id <> [] /\ (u = userId t -> id <> task_id t)
  end.

(** Once a task is registered, the clean-up of any earlier generation (clearing
    by its own id) and updates that keep the task's id, in any number and order and
    for any users, leave a task with that id registered for the user. *)
Theorem registered_task_survives (t : ActiveDrawingTask) (ops : list TaskOp) (r : Registry) :
  Forall (foreign t) ops ->
  exists t', getActiveDrawingTask (userId t)
               (fold_left (fun r o => run_op o r) ops (registerActiveDrawingTask t r)) = Some t' /\
             task_id t' = task_id t.
Proof.
  intros Hops.
  assert (forall r, (exists t', r !! userId t = Some t' /\ task_id t' = task_id t) ->
    exists t', fold_left (fun r o => run_op o r) ops r !! userId t = Some t' /\ task_id t' = task_id t) as Hind.
  { induction Hops as [|o ops Ho _ IH]; intros r0 (t' & Ht' & Hid); [eauto|]. simpl. apply IH.
    destruct o as [u patch|u id]; simpl in *.
    - unfold updateActiveDrawingTask. destruct (r0 !! u) as [x|] eqn:E; [|eauto].
      destruct (decide (u = userId t)) as [->|Hu].
      + rewrite lookup_insert_eq. eexists. split; [done|]. rewrite Ho. congruence.
      + rewrite lookup_insert_ne by done. eauto.
    - unfold clearActiveDrawingTask. destruct (r0 !! u) as [x|] eqn:E; [|eauto].
      destruct Ho as [Hne Ho]. destruct id as [|c id]; [done|].
      case_bool_decide as Hx; [|eauto]. destruct (decide (u = userId t)) as [->|Hu].
      + exfalso. apply Ho; [done|]. congruence.
      + rewrite lookup_delete_ne by done. eauto. }
  apply Hind. exists t. split; [|done]. apply lookup_insert_eq.
Qed.

Definition sample_task (id : string) : ActiveDrawingTask :=
  mkTask (js id) 7 (js "a red fox") (js "default") (js "image-1") None None (js "1") 0 0 Generating None None None.

Lemma registered_task_survives_witness :
  exists t', getActiveDrawingTask 7
    (fold_left (fun r o => run_op o r) [ClearTask 7 (js "first"); ClearTask 8 (js "second")]
       (registerActiveDrawingTask (sample_task "second") (registerActiveDrawingTask (sample_task "first") ∅))) = Some t' /\
    task_id t' = js "second".
Proof.
  apply (registered_task_survives (sample_task "second") [ClearTask 7 (js "first"); ClearTask 8 (js "second")]).
  repeat constructor; discriminate.
Defined.
