(* ===== verification/SmsSelection.v ===== *)
(** * SMS activations: favourites and orders (src/apps/web/src/features/email-activations/sms-selection.ts)

    The favourite pairs of a service and a country, kept as JSON in browser
    storage, the quantity of an order, and which orders are polled and listed.
    The names of countries (Unicode normalization, [Intl.DisplayNames]) are not
    modelled. *)
From S2P Require Import Prelude JsString JsNumber BillingLexer JsJson JsNumberPrint JsJsonPrint.
From S2P Require Import BrowserStorage.
From Stdlib Require Import Lia.

Definition HERO_SMS_FAVORITES_STORAGE_KEY : list N := js "lmm-hero-sms-favorites:v1".
Definition HERO_SMS_MAX_FAVORITES : nat := 30.
Definition HERO_SMS_MAX_QUANTITY : spec_float := num_of_Z 10.

Record HeroSmsFavoritePair := mkPair { serviceCode : list N; countryId : spec_float }.

Record HeroSmsFavoriteUpdate := mkUpdate {
  items : list HeroSmsFavoritePair;
  added : bool;
  limitReached : bool;
  persisted : bool }.

Definition member_of (k : string) (v : json) : option json :=
  match v with JObj ms => list_find (fun m => m.1 = js k) ms ≫= fun im => Some im.2.2 | _ => None end.

(** [Number.isInteger(n) && n >= 0]. *)
Definition natural (n : spec_float) : bool := is_finite n && num_eqb (num_floor n) n && num_leb num_zero n.

(** [isFavoritePair]: the pair the guard makes available. *)
Definition asFavoritePair (v : json) : option HeroSmsFavoritePair :=
  match member_of "serviceCode" v, member_of "countryId" v with
  | Some (JStr code), Some (JNum n) =>
      if nonempty (trim code) && (length code <=? 64)%nat && natural n then Some (mkPair code n) else None
  | _, _ => None
  end.

Definition favoritePairKey (p : HeroSmsFavoritePair) : list N :=
  serviceCode p ++ js ":" ++ num_to_string (countryId p).

(** The loop of [loadHeroSmsFavorites]: [favs] are the pairs kept so far. *)
Fixpoint load_loop (values : list json) (seen : list (list N)) (favs : list HeroSmsFavoritePair)
  : list HeroSmsFavoritePair :=
  match values with
  | [] => favs
  | v :: values' =>
      match asFavoritePair v with
      | None => load_loop values' seen favs
      | Some raw =>
          let pair := mkPair (trim (serviceCode raw)) (countryId raw) in
          let key := favoritePairKey pair in
          if bool_decide (key ∈ seen) then load_loop values' seen favs
          else
            let favs' := favs ++ [pair] in
            if (length favs' =? HERO_SMS_MAX_FAVORITES)%nat then favs'
            else load_loop values' (key :: seen) favs'
      end
  end.

Definition pair_json (p : HeroSmsFavoritePair) : json :=
  JObj [(js "serviceCode", JStr (serviceCode p)); (js "countryId", JNum (countryId p))].

Section Favorites.
Context {St : Type} `{Storage St}.

(** [storage] is [None] when the browser has none. *)
Definition loadHeroSmsFavorites (storage : option St) : list HeroSmsFavoritePair :=
  match storage with
  | None => []
  | Some s =>
      match json_parse (default (js "[]") (getItem HERO_SMS_FAVORITES_STORAGE_KEY s)) with
      | Some (JArr values) => load_loop values [] []
      | _ => []
      end
  end.

(** Whether the write succeeded, and the storage after it. *)
Definition saveHeroSmsFavorites (favorites : list HeroSmsFavoritePair) (storage : option St) : bool * option St :=
  match storage with
  | None => (false, None)
  | Some s =>
      match setItem HERO_SMS_FAVORITES_STORAGE_KEY
              (json_stringify (JArr (map pair_json (take HERO_SMS_MAX_FAVORITES favorites)))) s with
      | Some s' => (true, Some s')
      | None => (false, Some s)
      end
  end.

(** [findIndex] of a pair's key. *)
Fixpoint find_key (key : list N) (favorites : list HeroSmsFavoritePair) : option nat :=
  match favorites with
  | [] => None
  | f :: favs => if bool_decide (favoritePairKey f = key) then Some 0 else S <$> find_key key favs
  end.

Definition remove_index (i : nat) (favorites : list HeroSmsFavoritePair) : list HeroSmsFavoritePair :=
  take i favorites ++ drop (S i) favorites.

Definition toggleHeroSmsFavorite (favorites : list HeroSmsFavoritePair) (pair : HeroSmsFavoritePair)
    (storage : option St) : HeroSmsFavoriteUpdate * option St :=
  match find_key (favoritePairKey pair) favorites with
  | Some i =>
      let items := remove_index i favorites in
      let '(ok, storage') := saveHeroSmsFavorites items storage in
      (mkUpdate items false false ok, storage')
  | None =>
      if (HERO_SMS_MAX_FAVORITES <=? length favorites)%nat
      then (mkUpdate favorites false true true, storage)
      else
        let items := pair :: favorites in
        let '(ok, storage') := saveHeroSmsFavorites items storage in
        (mkUpdate items true false ok, storage')
  end.
End Favorites.

Definition hasHeroSmsFavorite (favorites : list HeroSmsFavoritePair) (code : list N) (country : spec_float) : bool :=
  existsb (fun f => bool_decide (favoritePairKey f = favoritePairKey (mkPair code country))) favorites.

(** ** Quantity *)

Definition clampHeroSmsQuantity (quantity inventory : spec_float) : spec_float :=
  let one := num_of_Z 1 in
  let available := num_max2 one (num_min2 HERO_SMS_MAX_QUANTITY (if num_truthy inventory then inventory else one)) in
  if negb (is_finite quantity) then one
  else num_max2 one (num_min2 available (num_floor quantity)).

(** ** Orders *)

Inductive HeroSmsSmsComplaintReason :=
| NUMBER_BLOCKED | NUMBER_ALREADY_IN_USE | SMS_CODE_DISMATCH | SMS_NOT_RECEIVED | CODE_SENT_TO_APP
| INCOMING_CALL_NUMBER | INCOMING_CALL_VOICE.

(** [complaint_type] is [Some None] for the empty string. *)
Record HeroSmsSmsOrder := mkOrder {
  order_id : list N;
  order_country_id : spec_float;
  order_service : list N;
  order_operator : list N;
  order_status : list N;
  order_customer_price_usd : list N;
  order_charge_quota : spec_float;
  refunded_quota : spec_float;
  provider_id : option (list N);
  can_cancel : option bool;
  can_complain : option bool;
  complaint_type : option (option HeroSmsSmsComplaintReason);
  complaint_status : option (list N);
  complaint_submitted_at : option spec_float;
  phone_number : list N;
  code : list N;
  message : list N;
  last_error_code : list N;
  last_error_message : list N;
  created_at : spec_float;
  updated_at : spec_float;
  expires_at : option spec_float }.

Definition activeStatuses : list (list N) :=
  js <$> ["pending_provider"; "purchase_unknown"; "active"; "cancel_pending"]%string.

Definition isActiveHeroSmsSmsOrder (o : HeroSmsSmsOrder) : bool := bool_decide (order_status o ∈ activeStatuses).

(** [None] is [false]: no polling. *)
Definition getHeroSmsCurrentOrderPollingInterval (orders : list HeroSmsSmsOrder) (pageVisible : bool) : option Z :=
  match orders with
  | [] => None
  | _ => if existsb isActiveHeroSmsSmsOrder orders then Some (if pageVisible then 10000 else 60000)%Z else Some 60000%Z
  end.

Definition selectHeroSmsHistoryOrders (history current : list HeroSmsSmsOrder) : list HeroSmsSmsOrder :=
  filter (fun o => isActiveHeroSmsSmsOrder o = false /\ order_id o ∉ map order_id current) history.

(** ** The favourites' normal form *)

Definition pair_ok (p : HeroSmsFavoritePair) : bool :=
  unitsb (serviceCode p) && bool_decide (trim (serviceCode p) = serviceCode p) && nonempty (serviceCode p) &&
  (length (serviceCode p) <=? 64)%nat && natural (countryId p) && printable (countryId p).

(** What [loadHeroSmsFavorites] returns and the form works with. *)
Definition favorites_ok (favs : list HeroSmsFavoritePair) : Prop :=
  Forall (fun p => pair_ok p = true) favs /\ NoDup (map favoritePairKey favs) /\ length favs <= HERO_SMS_MAX_FAVORITES.

Lemma pair_ok_spec p :
  pair_ok p = true ->
  unitsb (serviceCode p) = true /\ trim (serviceCode p) = serviceCode p /\ nonempty (serviceCode p) = true /\
  (length (serviceCode p) <=? 64)%nat = true /\ natural (countryId p) = true /\ printable (countryId p) = true.
Proof.
  unfold pair_ok. intros H. do 5 (apply andb_true_iff in H as [H ?]). by apply bool_decide_eq_true in H4.
Qed.

Lemma asFavoritePair_json p : pair_ok p = true -> asFavoritePair (pair_json p) = Some p.
Proof.
  intros (_ & Ht & Hn & Hl & Hc & _)%pair_ok_spec. destruct p as [code n]. cbn [serviceCode countryId] in *.
  unfold asFavoritePair, pair_json.
  change (member_of "serviceCode" _) with (Some (JStr code)). change (member_of "countryId" _) with (Some (JNum n)).
  cbv iota beta. by rewrite Ht, Hn, Hl, Hc.
Qed.

Lemma load_loop_ok favs kept seen :
  Forall (fun p => pair_ok p = true) favs ->
  NoDup (map favoritePairKey (kept ++ favs)) -> length (kept ++ favs) <= HERO_SMS_MAX_FAVORITES ->
  length kept < HERO_SMS_MAX_FAVORITES ->
  (forall k, k ∈ seen <-> k ∈ map favoritePairKey kept) ->
  load_loop (map pair_json favs) seen kept = kept ++ favs.
Proof.
  intros H. revert kept seen. induction H as [|p favs Hp _ IH]; intros kept seen Hnd Hlen Hk Hseen.
  - simpl. by rewrite app_nil_r.
  - cbn [map load_loop]. rewrite asFavoritePair_json by done. cbv zeta.
    assert (mkPair (trim (serviceCode p)) (countryId p) = p) as ->.
    { apply pair_ok_spec in Hp as (_ & Ht & _). rewrite Ht. by destruct p. }
    rewrite bool_decide_eq_false_2.
    2: { rewrite Hseen. rewrite map_app in Hnd. apply NoDup_app in Hnd as (_ & Hd & _).
         intros Hin. apply (Hd _ Hin). left. }
    rewrite length_app in Hlen. simpl in Hlen. rewrite length_app. simpl.
    destruct (length kept + 1 =? HERO_SMS_MAX_FAVORITES) eqn:E.
    + apply Nat.eqb_eq in E. destruct favs; [done|]. simpl in Hlen. lia.
    + apply Nat.eqb_neq in E. rewrite IH.
      * by rewrite <- app_assoc.
      * by rewrite <- app_assoc.
      * rewrite <- app_assoc, length_app. simpl. lia.
      * rewrite length_app. simpl. lia.
      * intros k. rewrite map_app, elem_of_cons, elem_of_app, Hseen. simpl. rewrite list_elem_of_singleton. tauto.
Qed.

Lemma pairs_wf favs : Forall (fun p => pair_ok p = true) favs -> json_wf (JArr (map pair_json favs)) = true.
Proof.
  intros H. cbn [json_wf]. induction H as [|p favs Hp _ IH]; [done|]. cbn [map forallb]. rewrite IH, andb_true_r.
  apply pair_ok_spec in Hp as (Hu & _ & _ & _ & _ & Hpr). unfold pair_json. cbn [json_wf map fst forallb].
  rewrite bool_decide_eq_true_2 by (vm_compute; repeat constructor; set_solver).
  by rewrite Hu, Hpr.
Qed.

(** *** What is loaded from any text *)

Definition loaded_pair (p : HeroSmsFavoritePair) : Prop :=
  trim (serviceCode p) = serviceCode p /\ serviceCode p <> [] /\ length (serviceCode p) <= 64 /\
  natural (countryId p) = true.

Lemma asFavoritePair_spec v p :
  asFavoritePair v = Some p ->
  loaded_pair (mkPair (trim (serviceCode p)) (countryId p)).
Proof.
  unfold asFavoritePair. destruct (member_of "serviceCode" v) as [[| | |code| |]|]; try done.
  destruct (member_of "countryId" v) as [[| |n| | |]|]; try done.
  destruct (nonempty (trim code) && (length code <=? 64)%nat && natural n) eqn:E; [|done]. intros [= <-].
  apply andb_true_iff in E as [[E1 E2]%andb_true_iff E3]. apply Nat.leb_le in E2.
  unfold loaded_pair. simpl. split_and!; [apply trim_idemp|by destruct (trim code)| |done].
  unfold trim, trim_end, trim_start. rewrite length_reverse.
  destruct (drop_while_suffix is_space (reverse (drop_while is_space code))) as [a Ha].
  destruct (drop_while_suffix is_space code) as [b Hb].
  apply (f_equal length) in Ha, Hb. rewrite length_app in Ha, Hb. rewrite length_reverse in Ha. lia.
Qed.

Lemma load_loop_normal values seen favs :
  Forall loaded_pair favs -> NoDup (map favoritePairKey favs) -> length favs < HERO_SMS_MAX_FAVORITES ->
  (forall k, k ∈ map favoritePairKey favs -> k ∈ seen) ->
  Forall loaded_pair (load_loop values seen favs) /\ NoDup (map favoritePairKey (load_loop values seen favs)) /\
  length (load_loop values seen favs) <= HERO_SMS_MAX_FAVORITES.
Proof.
  revert seen favs. induction values as [|v values IH]; intros seen favs H1 H2 H3 H4; [cbn [load_loop]; split_and!; try done; lia|].
  cbn [load_loop]. destruct (asFavoritePair v) as [p|] eqn:E; [|by apply IH].
  apply asFavoritePair_spec in E. cbv zeta. set (q := mkPair _ _) in *.
  case_bool_decide as Hin; [by apply IH|].
  assert (Forall loaded_pair (favs ++ [q])) as Hf by (apply Forall_app; split; [done|by constructor]).
  assert (NoDup (map favoritePairKey (favs ++ [q]))) as Hn.
  { rewrite map_app. apply NoDup_app. split_and!; [done| |by repeat constructor; intros []%elem_of_nil].
    intros k Hk. simpl. rewrite list_elem_of_singleton. intros ->. auto. }
  assert (length (favs ++ [q]) = S (length favs)) as Hl by (rewrite length_app; simpl; lia).
  destruct (length (favs ++ [q]) =? HERO_SMS_MAX_FAVORITES) eqn:El; [split_and!; [done|done|]; apply Nat.eqb_eq in El; lia|].
  apply Nat.eqb_neq in El. apply IH; [done|done|lia|].
  intros k. rewrite map_app, elem_of_app, elem_of_cons. simpl. rewrite list_elem_of_singleton. naive_solver.
Qed.

(** *** Toggling *)

Lemma find_key_Some key favs i :
  find_key key favs = Some i -> exists f, favs !! i = Some f /\ favoritePairKey f = key.
Proof.
  revert i. induction favs as [|f favs IH]; intros i; simpl; [done|]. case_bool_decide as E.
  - intros [= <-]. simpl. eauto.
  - destruct (find_key key favs) as [j|]; [|done]. intros [= <-]. simpl. auto.
Qed.

Lemma find_key_None key favs : find_key key favs = None <-> key ∉ map favoritePairKey favs.
Proof.
  induction favs as [|f favs IH]; simpl; [split; [intros _; apply not_elem_of_nil|done]|].
  rewrite not_elem_of_cons. case_bool_decide as E; [naive_solver|].
  destruct (find_key key favs); simpl; naive_solver.
Qed.

Lemma has_find favs p :
  hasHeroSmsFavorite favs (serviceCode p) (countryId p) = true <-> favoritePairKey p ∈ map favoritePairKey favs.
Proof.
  unfold hasHeroSmsFavorite. rewrite existsb_exists. destruct p as [code n]. simpl. split.
  - intros (f & Hf & E%bool_decide_eq_true). rewrite <- E. by apply list_elem_of_In, in_map.
  - intros H%list_elem_of_In. apply in_map_iff in H as (f & E & Hf). exists f. split; [done|]. by apply bool_decide_eq_true.
Qed.

Lemma remove_index_ok favs i f :
  favorites_ok favs -> favs !! i = Some f ->
  favorites_ok (remove_index i favs) /\ favoritePairKey f ∉ map favoritePairKey (remove_index i favs).
Proof.
  intros (H1 & H2 & H3) Hi. pose proof (take_drop_middle favs i f Hi) as E. unfold remove_index.
  rewrite <- E in H1, H2, H3. set (a := take i favs) in *. set (b := drop (S i) favs) in *. clearbody a b.
  rewrite map_app in *. cbn [map] in H2. apply Forall_app in H1 as [Ha Hb]. inv Hb.
  apply NoDup_app in H2 as (Hna & Hdis & Hnb). apply NoDup_cons in Hnb as [Hf Hnb].
  split; [split_and!|].
  - by apply Forall_app.
  - rewrite map_app. apply NoDup_app. split_and!; [done| |done]. intros k Hk Hk'. apply (Hdis k Hk). by right.
  - rewrite !length_app in *. simpl in H3. lia.
  - rewrite elem_of_app. intros [Hk|Hk]; [|done]. apply (Hdis _ Hk). left.
Qed.

Lemma toggle_items {St} `{Storage St} favs p (storage : option St) :
  items (toggleHeroSmsFavorite favs p storage).1 =
  match find_key (favoritePairKey p) favs with
  | Some i => remove_index i favs
  | None => if (HERO_SMS_MAX_FAVORITES <=? length favs)%nat then favs else p :: favs
  end.
Proof.
  unfold toggleHeroSmsFavorite. destruct (find_key _ favs).
  - by destruct (saveHeroSmsFavorites _ _).
  - destruct (HERO_SMS_MAX_FAVORITES <=? length favs)%nat; [done|]. by destruct (saveHeroSmsFavorites _ _).
Qed.

(** Toggling a favourite, whatever the storage does: the list stays in normal
    form (valid pairs, no pair twice, at most thirty); a pair that was in it is
    gone; a pair that was not is in front, and toggling it again restores the
    list; at the limit nothing changes. *)
Theorem toggle_favorite_spec {St} `{Storage St} favs p (storage storage' : option St) :
  favorites_ok favs -> pair_ok p = true ->
  let favs' := items (toggleHeroSmsFavorite favs p storage).1 in
  favorites_ok favs' /\
  (hasHeroSmsFavorite favs (serviceCode p) (countryId p) = true ->
   hasHeroSmsFavorite favs' (serviceCode p) (countryId p) = false) /\
  (hasHeroSmsFavorite favs (serviceCode p) (countryId p) = false ->
   if (HERO_SMS_MAX_FAVORITES <=? length favs)%nat then favs' = favs
   else favs' = p :: favs /\ items (toggleHeroSmsFavorite favs' p storage').1 = favs).
Proof.
  intros Hok Hp. cbv zeta. rewrite !toggle_items.
  destruct (find_key (favoritePairKey p) favs) as [i|] eqn:E.
  - apply find_key_Some in E as (f & Hi & Hf). destruct (remove_index_ok favs i f Hok Hi) as [Hok' Hnin].
    rewrite Hf in Hnin. split_and!; [done| |].
    + intros _. apply not_true_iff_false. by rewrite has_find.
    + intros Hno. exfalso. apply not_true_iff_false in Hno. apply Hno, has_find. rewrite <- Hf.
      apply list_elem_of_In, in_map, list_elem_of_In. by eapply list_elem_of_lookup_2.
  - apply find_key_None in E as Hnin. destruct (HERO_SMS_MAX_FAVORITES <=? length favs)%nat eqn:El.
    + split_and!; [done| |done]. intros Hyes%has_find. done.
    + apply Nat.leb_gt in El. destruct Hok as (H1 & H2 & H3). split_and!.
      * split_and!; [by constructor|by constructor|simpl; lia].
      * intros Hyes%has_find. done.
      * intros _. split; [done|]. cbn [find_key]. by rewrite bool_decide_eq_true_2.
Qed.

Section Persistence.
Context {St : Type} `{StorageLaws St}.

(** Favourites survive in any storage: what [saveHeroSmsFavorites] wrote
    [loadHeroSmsFavorites] returns, for every list in normal form. *)
Theorem favorites_saved favs (s s' : St) :
  favorites_ok favs -> saveHeroSmsFavorites favs (Some s) = (true, Some s') ->
  loadHeroSmsFavorites (Some s') = favs.
Proof.
  intros (H1 & H2 & H3). unfold saveHeroSmsFavorites. rewrite take_ge by done.
  destruct (setItem _ _ s) as [s1|] eqn:E; [|done]. intros [= ->].
  unfold loadHeroSmsFavorites. rewrite (get_set _ _ _ _ E). cbn [from_option]. unfold id.
  rewrite json_roundtrip by by apply pairs_wf. rewrite load_loop_ok; try done. unfold HERO_SMS_MAX_FAVORITES. simpl. lia.
Qed.

(** Whatever text the storage holds, the favourites loaded from it are trimmed
    non-empty service codes of at most 64 units with natural country ids, without
    repetition, at most thirty. *)
Theorem favorites_loaded_normal (storage : option St) :
  Forall loaded_pair (loadHeroSmsFavorites storage) /\
  NoDup (map favoritePairKey (loadHeroSmsFavorites storage)) /\
  length (loadHeroSmsFavorites storage) <= HERO_SMS_MAX_FAVORITES.
Proof.
  assert (Forall loaded_pair [] /\ NoDup (map favoritePairKey []) /\ @length HeroSmsFavoritePair [] <= HERO_SMS_MAX_FAVORITES)
    as Hnil by (split_and!; [constructor|constructor|simpl; lia]).
  unfold loadHeroSmsFavorites. destruct storage as [s|]; [|done].
  destruct (json_parse _) as [[| | | |values|]|]; try done.
  apply load_loop_normal; [constructor|constructor|simpl; unfold HERO_SMS_MAX_FAVORITES; lia|done].
Qed.
End Persistence.

Definition sample_pair : HeroSmsFavoritePair := mkPair (js "tg") (num_of_Z 6).
Definition sample_favorites : list HeroSmsFavoritePair := [mkPair (js "wa") (num_of_Z 12); mkPair (js "go") (num_of_Z 0)].

Lemma sample_favorites_ok : favorites_ok sample_favorites.
Proof.
  split_and!; [repeat constructor; vm_compute; reflexivity| |simpl; unfold HERO_SMS_MAX_FAVORITES; lia].
  apply (bool_decide_unpack _). vm_compute. exact I.
Qed.

Lemma toggle_favorite_spec_witness :
  items (toggleHeroSmsFavorite (items (toggleHeroSmsFavorite sample_favorites sample_pair (@None MemoryStorage)).1)
           sample_pair (@None MemoryStorage)).1 = sample_favorites.
Proof.
  destruct (toggle_favorite_spec sample_favorites sample_pair (@None MemoryStorage) (@None MemoryStorage)
              sample_favorites_ok) as (_ & _ & H); [vm_compute; reflexivity|].
  exact (proj2 (H ltac:(vm_compute; reflexivity))).
Defined.

Lemma favorites_saved_witness :
  exists s' : MemoryStorage, saveHeroSmsFavorites sample_favorites (Some ∅) = (true, Some s') /\
    loadHeroSmsFavorites (Some s') = sample_favorites.
Proof.
  eexists. split; [reflexivity|].
  exact (favorites_saved sample_favorites (∅ : MemoryStorage) _ sample_favorites_ok eq_refl).
Defined.
