(* ===== verification/SmsPurchase.v ===== *)
(** * Buying SMS activations (src/apps/web/src/features/email-activations/sms-purchase.ts)

    A batch purchase asks the backend for one order after the other.  The backend
    is a parameter: a state [W], a function for a fresh offer and one for an order,
    both of which may answer or throw anything and change [W].  Every call is
    recorded in a log, so that the theorems speak of all requests that were sent.
    [onProgress] is a notification: it is logged and assumed not to throw. *)
From S2P Require Import Prelude JsString JsNumber BillingLexer JsJson JsNumberPrint JsJsonPrint.
From S2P Require Import BrowserStorage SmsSelection.
From Stdlib Require Import Lia.

(** ** Offers *)

Record HeroSmsSmsPriceTier := mkPriceTier {
  tier_id : list N;
  tier_inventory : spec_float;
  tier_customer_price_usd : list N;
  tier_charge_quota : spec_float }.

Record HeroSmsSmsOffer := mkOffer {
  id : list N;
  country_id : spec_float;
  service : list N;
  operator : list N;
  inventory : spec_float;
  customer_price_usd : list N;
  charge_quota : spec_float;
  bid : option bool;
  tiers : option (list HeroSmsSmsPriceTier) }.

Definition offer_tiers (offer : HeroSmsSmsOffer) : list HeroSmsSmsPriceTier :=
  match tiers offer with
  | Some (t :: ts) => t :: ts
  | _ => [mkPriceTier (id offer) (inventory offer) (customer_price_usd offer) (charge_quota offer)]
  end.

Definition selectHeroSmsPriceTier (offer : HeroSmsSmsOffer) (customerPriceUSD : list N) : option HeroSmsSmsOffer :=
  let tier :=
    if nonempty customerPriceUSD
    then snd <$> list_find (fun t => tier_customer_price_usd t = customerPriceUSD) (offer_tiers offer)
    else head (offer_tiers offer) in
  (fun t => mkOffer (tier_id t) (country_id offer) (service offer) (operator offer) (tier_inventory t)
              (tier_customer_price_usd t) (tier_charge_quota t) (Some false) (tiers offer)) <$> tier.

Definition isSamePurchaseQuote (initialOffer currentOffer : HeroSmsSmsOffer) : bool :=
  num_eqb (country_id currentOffer) (country_id initialOffer) &&
  bool_decide (service currentOffer = service initialOffer) &&
  bool_decide (operator currentOffer = operator initialOffer) &&
  num_eqb (charge_quota currentOffer) (charge_quota initialOffer).

(** ** The purchase *)

Inductive HeroSmsBatchFailureCode := PRICE_CHANGED | OUT_OF_STOCK | REQUEST_FAILED.

Section Purchase.
Context {W Err : Type}.

Record Failure := mkFailure {
  failure_code : HeroSmsBatchFailureCode;
  item : nat;
  failure_error : option Err;
  ambiguous : option bool;
  offerId : option (list N);
  failure_key : option (list N) }.

Record HeroSmsBatchPurchaseResult := mkResult {
  requested : spec_float;
  orders : list HeroSmsSmsOrder;
  failure : option Failure }.

Record HeroSmsBatchPurchaseDependencies := mkDeps {
  initialOffer : HeroSmsSmsOffer;
  quantity : spec_float;
  idempotencyKey : list N;
  getFreshOffer : W -> (HeroSmsSmsOffer + Err) * W;
  createOrder : list N -> list N -> W -> (HeroSmsSmsOrder + Err) * W;
  isAmbiguousNetworkError : Err -> bool }.

(** What the client does to the outside: the calls with their answers. *)
Inductive Event :=
| AskedOffer (answer : HeroSmsSmsOffer + Err)
| SentOrder (offer key : list N) (answer : HeroSmsSmsOrder + Err)
| Progress (completed : nat) (total : spec_float).

Definition Log : Type := list Event.

(** What [createOrderWithOneSafeRetry] throws: the backend's error, or one marked
    with the module's private symbol. *)
Inductive PurchaseError := Plain (e : Err) | AmbiguousPurchase (cause : Err).

Variable d : HeroSmsBatchPurchaseDependencies.

Definition isAmbiguousHeroSmsPurchaseError (e : PurchaseError) : bool :=
  match e with AmbiguousPurchase _ => true | Plain _ => false end.

Definition createOrderWithOneSafeRetry (offer key : list N) (w : W)
    : (HeroSmsSmsOrder + PurchaseError) * W * Log :=
  match createOrder d offer key w with
  | (inl o, w1) => (inl o, w1, [SentOrder offer key (inl o)])
  | (inr e, w1) =>
      if negb (isAmbiguousNetworkError d e) then (inr (Plain e), w1, [SentOrder offer key (inr e)])
      else
        match createOrder d offer key w1 with
        | (inl o, w2) => (inl o, w2, [SentOrder offer key (inr e); SentOrder offer key (inl o)])
        | (inr e2, w2) =>
            (inr (AmbiguousPurchase e2), w2, [SentOrder offer key (inr e); SentOrder offer key (inr e2)])
        end
  end.

Definition itemKey (index : nat) : list N := idempotencyKey d ++ js "-" ++ dec_string (N.of_nat (S index)).

(** The failure reported for an order that could not be placed. *)
Definition request_failure (index : nat) (offer : HeroSmsSmsOffer) (e : PurchaseError) : Failure :=
  let error := match e with AmbiguousPurchase c => c | Plain x => x end in
  mkFailure REQUEST_FAILED (S index) (Some error)
    (Some (isAmbiguousHeroSmsPurchaseError e ||
           match e with Plain x => isAmbiguousNetworkError d x | AmbiguousPurchase _ => false end))
    (Some (id offer)) (Some (itemKey index)).

Definition next_offer (index : nat) (w : W) : (HeroSmsSmsOffer + Err) * W * Log :=
  match index with
  | O => (inl (initialOffer d), w, [])
  | S _ => let '(r, w1) := getFreshOffer d w in (r, w1, [AskedOffer r])
  end.

Definition requested_quantity : spec_float := clampHeroSmsQuantity (quantity d) (inventory (initialOffer d)).

Notation stop os f w log := (mkResult requested_quantity os (Some f), w, log) (only parsing).

(** The loop from [index] on; [None] when the fuel runs out. *)
Fixpoint purchase_loop (fuel index : nat) (os : list HeroSmsSmsOrder) (w : W) (log : Log)
    : option (HeroSmsBatchPurchaseResult * W * Log) :=
  match fuel with
  | O => None
  | S f =>
      if negb (num_ltb (num_of_Z (Z.of_nat index)) requested_quantity)
      then Some (mkResult requested_quantity os None, w, log)
      else
        match next_offer index w with
        | (inr e, w1, l1) => Some (stop os (mkFailure REQUEST_FAILED (S index) (Some e) None None None) w1 (log ++ l1))
        | (inl offer, w1, l1) =>
            if negb (isSamePurchaseQuote (initialOffer d) offer)
            then Some (stop os (mkFailure PRICE_CHANGED (S index) None None None None) w1 (log ++ l1))
            else if num_ltb (inventory offer) (num_of_Z 1)
            then Some (stop os (mkFailure OUT_OF_STOCK (S index) None None None None) w1 (log ++ l1))
            else
              match createOrderWithOneSafeRetry (id offer) (itemKey index) w1 with
              | (inl o, w2, l2) =>
                  purchase_loop f (S index) (os ++ [o]) w2
                    (log ++ l1 ++ l2 ++ [Progress (length (os ++ [o])) requested_quantity])
              | (inr e, w2, l2) => Some (stop os (request_failure index offer e) w2 (log ++ l1 ++ l2))
              end
        end
  end.

(** Ten items are the most [clampHeroSmsQuantity] allows; the eleventh turn ends the loop. *)
Definition PURCHASE_FUEL : nat := 11.

Definition purchaseHeroSmsBatch (w : W) : option (HeroSmsBatchPurchaseResult * W * Log) :=
  purchase_loop PURCHASE_FUEL 0 [] w [].
End Purchase.

(** ** Quantity *)

(** The quantity is never NaN, at least one and at most the limit. *)
Lemma quantity_bounds quantity inventory :
  num_leb (num_of_Z 1) (clampHeroSmsQuantity quantity inventory) = true /\
  num_leb (clampHeroSmsQuantity quantity inventory) HERO_SMS_MAX_QUANTITY = true.
Proof.
  unfold clampHeroSmsQuantity. set (stock := if num_truthy inventory then inventory else num_of_Z 1).
  assert (is_nan stock = false) as Hs by (unfold stock; by destruct inventory as [[]|[]| |]).
  destruct (num_min2_spec HERO_SMS_MAX_QUANTITY stock) as (Hm1 & Hm2 & Hm); [done..|].
  set (low := num_min2 HERO_SMS_MAX_QUANTITY stock) in *.
  assert (is_nan low = false) as Hl by by destruct Hm as [->| ->].
  destruct (num_max2_spec (num_of_Z 1) low) as (Ha1 & Ha2 & Ha); [done..|].
  set (available := num_max2 (num_of_Z 1) low) in *.
  assert (is_nan available = false /\ num_leb available HERO_SMS_MAX_QUANTITY = true) as [Han Ham] by by destruct Ha as [->| ->].
  destruct (is_finite quantity) eqn:Eq; [|done]. cbn [negb].
  assert (is_nan (num_floor quantity) = false) as Hf by (apply num_floor_not_nan; by destruct quantity).
  destruct (num_min2_spec available (num_floor quantity)) as (Hb1 & _ & Hb); [done..|].
  destruct (num_max2_spec (num_of_Z 1) (num_min2 available (num_floor quantity))) as (Hc1 & _ & Hc);
    [done|by destruct Hb as [->| ->]|].
  split; [done|]. destruct Hc as [->| ->]; [done|]. by eapply num_leb_trans.
Qed.

Lemma small_ltb i n : (i < n)%nat -> (n <= 10)%nat -> num_ltb (num_of_Z (Z.of_nat i)) (num_of_Z (Z.of_nat n)) = true.
Proof.
  intros Hi Hn. do 11 (destruct n as [|n]; [do 11 (destruct i as [|i]; [lia || reflexivity|]); lia|]). lia.
Qed.

Lemma small_not_nan n : (n <= 10)%nat -> is_nan (num_of_Z (Z.of_nat n)) = false.
Proof. intros Hn. do 11 (destruct n as [|n]; [reflexivity|]). lia. Qed.

(** ** What a purchase guarantees, whatever the backend answers *)

Section Guarantees.
Context {W Err : Type}.
Variable d : @HeroSmsBatchPurchaseDependencies W Err.

(** An offer identifier the client may order: of the initial offer or of an answer,
    with the quote the user agreed to and something in stock. *)
Definition quoted (log : list (@Event Err)) (offer : list N) : Prop :=
  exists o, (o = initialOffer d \/ AskedOffer (inl o) ∈ log) /\ id o = offer /\
    isSamePurchaseQuote (initialOffer d) o = true /\ num_ltb (inventory o) (num_of_Z 1) = false.

(** Between two turns of the loop every request belongs to an order received. *)
Record Placed (os : list HeroSmsSmsOrder) (log : list Event) : Prop := mkPlaced {
  placed_sent : forall o k a, SentOrder o k a ∈ log -> (exists i, (i < length os)%nat /\ k = itemKey d i) /\ quoted log o;
  placed_orders : forall i o, os !! i = Some o -> exists offer, SentOrder offer (itemKey d i) (inl o) ∈ log;
  placed_within : forall i, (i < length os)%nat -> num_ltb (num_of_Z (Z.of_nat i)) (requested_quantity d) = true }.

(** A request accounted for by a result: it belongs to an order received, or to the
    item reported as failed, where either the outcome is reported as uncertain or
    the backend definitely refused. *)
Definition accounted (r : @HeroSmsBatchPurchaseResult Err) (o k : list N) (a : HeroSmsSmsOrder + Err) : Prop :=
  (exists i, (i < length (orders r))%nat /\ k = itemKey d i) \/
  (exists f, failure r = Some f /\ failure_key f = Some k /\ offerId f = Some o /\
     (ambiguous f = Some true \/ exists e, a = inr e /\ isAmbiguousNetworkError d e = false)).

Record Settled (r : @HeroSmsBatchPurchaseResult Err) (log : list Event) : Prop := mkSettled {
  settled_requested : requested r = requested_quantity d;
  settled_sent : forall o k a, SentOrder o k a ∈ log -> accounted r o k a /\ quoted log o;
  settled_orders : forall i o, orders r !! i = Some o -> exists offer, SentOrder offer (itemKey d i) (inl o) ∈ log;
  settled_within : forall i, (i < length (orders r))%nat -> num_ltb (num_of_Z (Z.of_nat i)) (requested r) = true;
  settled_count :
    match failure r with
    | None => num_ltb (num_of_Z (Z.of_nat (length (orders r)))) (requested r) = false
    | Some f => item f = S (length (orders r)) /\ num_ltb (num_of_Z (Z.of_nat (length (orders r)))) (requested r) = true
    end }.

Lemma quoted_app log l o : quoted log o -> quoted (log ++ l) o.
Proof. intros (x & Hx & H). exists x. split; [|done]. destruct Hx; [auto|]. right. apply elem_of_app. by left. Qed.

(** A failure that sent no order of its own. *)
Lemma settle_unsent os log l f :
  Placed os log -> (forall o k a, SentOrder o k a ∉ l) -> item f = S (length os) ->
  num_ltb (num_of_Z (Z.of_nat (length os))) (requested_quantity d) = true ->
  Settled (mkResult (requested_quantity d) os (Some f)) (log ++ l).
Proof.
  intros [Hs Ho Hin] Hl Hf Hn. split; try done.
  - intros o k a [H|H]%elem_of_app; [|by destruct (Hl o k a)].
    destruct (Hs o k a H) as [Hi Hq]. split; [by left|by apply quoted_app].
  - intros i o Hi. destruct (Ho i o Hi) as [x Hx]. exists x. apply elem_of_app. by left.
Qed.

Lemma next_offer_log index w r w1 l1 :
  next_offer d index w = (r, w1, l1) ->
  (forall o k a, SentOrder o k a ∉ l1) /\ forall o, r = inl o -> o = initialOffer d \/ AskedOffer (inl o) ∈ l1.
Proof.
  destruct index; simpl; [|destruct (getFreshOffer d w)]; intros [= <- <- <-]; split.
  - intros o k a H. by apply elem_of_nil in H.
  - intros o [= <-]. by left.
  - intros o k a H. by apply list_elem_of_singleton in H.
  - intros o ->. right. apply list_elem_of_here.
Qed.

(** The requests of one item: all with its offer and key; an order received is in
    the log, an error is definite or reported as ambiguous. *)
Lemma retry_log offer key w r w1 l :
  createOrderWithOneSafeRetry d offer key w = (r, w1, l) ->
  Forall (fun ev => exists a, ev = SentOrder offer key a) l /\
  match r with
  | inl o => SentOrder offer key (inl o) ∈ l
  | inr (Plain e) => isAmbiguousNetworkError d e = false /\ l = [SentOrder offer key (inr e)]
  | inr (AmbiguousPurchase _) => True
  end.
Proof.
  unfold createOrderWithOneSafeRetry. destruct (createOrder d offer key w) as [[o|e] w2].
  { intros [= <- <- <-]. split; [by apply Forall_singleton; eexists|apply list_elem_of_here]. }
  destruct (isAmbiguousNetworkError d e) eqn:E; cbn [negb].
  2:{ intros [= <- <- <-]. split; [by apply Forall_singleton; eexists|done]. }
  destruct (createOrder d offer key w2) as [[o|e2] w3]; intros [= <- <- <-]; split.
  - repeat (apply Forall_cons; split; [by eexists|]). constructor.
  - apply list_elem_of_further, list_elem_of_here.
  - repeat (apply Forall_cons; split; [by eexists|]). constructor.
  - done.
Qed.

Lemma settle_request index offer os w log l1 w2 l2 e :
  Placed os log -> index = length os -> (forall o k a, SentOrder o k a ∉ l1) ->
  quoted (log ++ l1) (id offer) ->
  createOrderWithOneSafeRetry d (id offer) (itemKey d index) w = (inr e, w2, l2) ->
  num_ltb (num_of_Z (Z.of_nat index)) (requested_quantity d) = true ->
  Settled (mkResult (requested_quantity d) os (Some (request_failure d index offer e))) (log ++ l1 ++ l2).
Proof.
  intros [Hs Ho Hin] -> Hl1 Hq He Hn. destruct (retry_log _ _ _ _ _ _ He) as [Hl2 Hr]. rewrite app_assoc. split; try done.
  - intros o k a [[H|H]%elem_of_app|H]%elem_of_app; [|by destruct (Hl1 o k a)|].
    + destruct (Hs o k a H) as [Hi Hx]. split; [by left|]. by do 2 apply quoted_app.
    + rewrite Forall_forall in Hl2. destruct (Hl2 _ H) as (a' & [= -> -> ->]). split; [|by apply quoted_app].
      right. eexists. split; [done|]. split; [done|]. split; [done|]. destruct e as [e|e]; [|by left].
      destruct Hr as [Hd ->]. apply list_elem_of_singleton in H as [= ->]. right. eauto.
  - intros i o Hi. destruct (Ho i o Hi) as [x Hx]. exists x. do 2 (apply elem_of_app; left). done.
Qed.

Lemma place_order index offer os w log l1 w2 l2 o t :
  Placed os log -> index = length os -> (forall o k a, SentOrder o k a ∉ l1) -> quoted (log ++ l1) (id offer) ->
  createOrderWithOneSafeRetry d (id offer) (itemKey d index) w = (inl o, w2, l2) ->
  num_ltb (num_of_Z (Z.of_nat index)) (requested_quantity d) = true ->
  Placed (os ++ [o]) (log ++ l1 ++ l2 ++ [Progress t (requested_quantity d)]).
Proof.
  intros [Hs Ho Hin] -> Hl1 Hq He Hn. destruct (retry_log _ _ _ _ _ _ He) as [Hl2 Hr]. rewrite app_assoc. split.
  - intros x k a H. rewrite length_app. simpl.
    apply elem_of_app in H as [[H|H]%elem_of_app|[H|H%list_elem_of_singleton]%elem_of_app]; [|by destruct (Hl1 x k a)| |done].
    + destruct (Hs x k a H) as [(i & Hi & Hk) Hx]. split; [exists i; split; [lia|done]|]. by do 2 apply quoted_app.
    + rewrite Forall_forall in Hl2. destruct (Hl2 _ H) as (a' & [= -> -> ->]). split; [|by apply quoted_app].
      exists (length os). split; [lia|done].
  - intros i x Hi. apply lookup_app_Some in Hi as [Hi|[Hge Hi]].
    + destruct (Ho i x Hi) as [y Hy]. exists y. do 2 (apply elem_of_app; left). done.
    + destruct (i - length os)%nat as [|n] eqn:E; [|by destruct n]. injection Hi as ->.
      assert (i = length os) as -> by lia. exists (id offer). apply elem_of_app. right. apply elem_of_app. by left.
  - intros i Hi. rewrite length_app in Hi. simpl in Hi. destruct (decide (i = length os)) as [->|]; [done|]. apply Hin. lia.
Qed.

Lemma purchase_loop_settles fuel : forall index os w log,
  index = length os -> (index <= 10)%nat -> (PURCHASE_FUEL <= fuel + index)%nat -> Placed os log ->
  exists r w' log', purchase_loop d fuel index os w log = Some (r, w', log') /\ Settled r log'.
Proof.
  induction fuel as [|f IH]; intros index os w log Hi Hle Hf Hp; [unfold PURCHASE_FUEL in Hf; lia|]. cbn [purchase_loop].
  destruct (num_ltb (num_of_Z (Z.of_nat index)) (requested_quantity d)) eqn:En; cbn [negb].
  2:{ eexists _, _, _. split; [done|]. subst index. destruct Hp as [Hs Ho Hin]. split; try done.
      intros o k a H. destruct (Hs o k a H) as [Hx Hq]. split; [by left|done]. }
  assert (index < 10)%nat as Hlt.
  { destruct (decide (index = 10)%nat) as [->|]; [|lia]. destruct (quantity_bounds (quantity d) (inventory (initialOffer d))) as [_ Hb].
    apply num_leb_not_ltb in Hb. unfold requested_quantity in En. change (num_of_Z (Z.of_nat 10)) with HERO_SMS_MAX_QUANTITY in En. congruence. }
  destruct (next_offer d index w) as [[[offer|e] w1] l1] eqn:Eo; destruct (next_offer_log _ _ _ _ _ Eo) as [Hl1 Hoff].
  2:{ eexists _, _, _. split; [done|]. subst index. by apply settle_unsent. }
  destruct (isSamePurchaseQuote (initialOffer d) offer) eqn:Eq; cbn [negb].
  2:{ eexists _, _, _. split; [done|]. subst index. by apply settle_unsent. }
  destruct (num_ltb (inventory offer) (num_of_Z 1)) eqn:Es.
  { eexists _, _, _. split; [done|]. subst index. by apply settle_unsent. }
  assert (quoted (log ++ l1) (id offer)) as Hq.
  { exists offer. split; [|done]. destruct (Hoff offer eq_refl); [auto|]. right. apply elem_of_app. by right. }
  destruct (createOrderWithOneSafeRetry d (id offer) (itemKey d index) w1) as [[[o|e] w2] l2] eqn:Ec.
  - apply IH; [rewrite length_app; simpl; lia|lia|lia|]. by eapply place_order.
  - eexists _, _, _. split; [done|]. by eapply settle_request.
Qed.

Lemma purchase_settles w : exists r w' log, purchaseHeroSmsBatch d w = Some (r, w', log) /\ Settled r log.
Proof.
  apply purchase_loop_settles; [done|lia|unfold PURCHASE_FUEL; lia|].
  split; [intros o k a H; by apply elem_of_nil in H|done|]. intros i Hi. simpl in Hi. lia.
Qed.
End Guarantees.

(** C16: Whatever the backend answers, a batch purchase ends, and no purchase is lost
    or repeated unnoticed: every request that was sent carries the key of an order
    in the result, or is the request of the item reported as failed, with its offer
    and key, where the failure is marked ambiguous or the backend definitely
    refused; every order in the result was received for its own key. *)
Theorem purchase_accounts_for_every_request {W Err} (d : @HeroSmsBatchPurchaseDependencies W Err) (w : W) :
  exists r w' log, purchaseHeroSmsBatch d w = Some (r, w', log) /\
    (forall o k a, SentOrder o k a ∈ log -> accounted d r o k a) /\
    (forall i o, orders r !! i = Some o -> exists offer, SentOrder offer (itemKey d i) (inl o) ∈ log) /\
    (forall i j, itemKey d i = itemKey d j -> i = j).
Proof.
  destruct (purchase_settles d w) as (r & w' & log & E & H). exists r, w', log. split_and!; [done|..].
  - intros o k a Ho. by apply (settled_sent _ _ _ H).
  - apply (settled_orders _ _ _ H).
  - unfold itemKey. intros i j Hij. simplify_list_eq. apply (f_equal dec_value) in Hij. rewrite !dec_string_value in Hij. lia.
Qed.

(** Only what the user agreed to is ordered: every order request is for the
    initial offer or for one the backend gave later with the same country, service,
    operator and charge, and with something in stock. *)
Theorem purchase_keeps_the_quote {W Err} (d : @HeroSmsBatchPurchaseDependencies W Err) (w : W) r w' log offer key answer :
  purchaseHeroSmsBatch d w = Some (r, w', log) -> SentOrder offer key answer ∈ log -> quoted d log offer.
Proof.
  intros E Ho. destruct (purchase_settles d w) as (r1 & w1 & log1 & E1 & H). rewrite E1 in E. injection E as -> -> ->.
  exact (proj2 (settled_sent _ _ _ H _ _ _ Ho)).
Qed.

(** The quantity is between one and ten.  A purchase without failure returns
    exactly that many orders (for a whole quantity), one with a failure names the
    item after the orders it returns. *)
Theorem purchase_returns_requested {W Err} (d : @HeroSmsBatchPurchaseDependencies W Err) (w : W) r w' log n :
  purchaseHeroSmsBatch d w = Some (r, w', log) -> requested r = num_of_Z (Z.of_nat n) -> (n <= 10)%nat ->
  num_leb (num_of_Z 1) (requested r) = true /\ num_leb (requested r) HERO_SMS_MAX_QUANTITY = true /\
  match failure r with
  | None => length (orders r) = n
  | Some f => item f = S (length (orders r)) /\ (length (orders r) < n)%nat
  end.
Proof.
  intros E Hr Hn. destruct (purchase_settles d w) as (r1 & w1 & log1 & E1 & H). rewrite E1 in E. injection E as -> -> ->.
  destruct (quantity_bounds (quantity d) (inventory (initialOffer d))) as [Hb1 Hb2].
  pose proof (settled_requested _ _ _ H) as Hq. rewrite Hq at 1 2. split_and!; [done..|].
  pose proof (settled_count _ _ _ H) as Hc. pose proof (settled_within _ _ _ H) as Hw. rewrite Hr in Hc, Hw.
  assert (length (orders r) <= n)%nat as Hle.
  { destruct (decide (length (orders r) <= n)%nat) as [|Hgt]; [done|]. specialize (Hw n ltac:(lia)).
    by rewrite num_leb_not_ltb in Hw by (apply num_leb_refl, small_not_nan, Hn). }
  destruct (failure r) as [f|].
  - destruct Hc as [Hi Hl]. split; [done|]. destruct (decide (length (orders r) = n)) as [Heq|]; [|lia].
    rewrite Heq in Hl. by rewrite num_leb_not_ltb in Hl by (apply num_leb_refl, small_not_nan, Hn).
  - destruct (decide (length (orders r) = n)) as [|Hne]; [done|]. by rewrite small_ltb in Hc by lia.
Qed.

(** ** A backend that loses its second answer *)

Definition sample_offer : HeroSmsSmsOffer :=
  mkOffer (js "offer-1") (num_of_Z 6) (js "tg") (js "any") (num_of_Z 25) (js "0.20") (num_of_Z 100) None None.

Definition sample_order (key : list N) : HeroSmsSmsOrder :=
  mkOrder key (num_of_Z 6) (js "tg") (js "any") (js "active") (js "0.20") (num_of_Z 100) num_zero None None None None None None
    (js "+1") [] [] [] [] num_zero num_zero None.

Definition sample_backend : @HeroSmsBatchPurchaseDependencies nat bool :=
  mkDeps sample_offer (num_of_Z 2) (js "batch") (fun n => (inl sample_offer, n))
    (fun _ key n => if (n =? 1)%nat then (inr true, 2) else (inl (sample_order key), S n)) (fun e => e).

Definition sample_run := Eval vm_compute in default (mkResult num_zero [] None, 0, []) (purchaseHeroSmsBatch sample_backend 0).

Lemma purchase_keeps_the_quote_witness : quoted sample_backend sample_run.2 (js "offer-1").
Proof.
  apply (purchase_keeps_the_quote sample_backend 0 sample_run.1.1 sample_run.1.2 sample_run.2 (js "offer-1") (js "batch-2") (inr true)).
  - vm_compute. reflexivity.
  - apply list_elem_of_In. vm_compute. tauto.
Defined.

Lemma purchase_returns_requested_witness : length (orders sample_run.1.1) = 2.
Proof.
  destruct (purchase_returns_requested sample_backend 0 sample_run.1.1 sample_run.1.2 sample_run.2 2) as (_ & _ & H).
  - vm_compute. reflexivity.
  - vm_compute. reflexivity.
  - apply Nat.leb_le. vm_compute. reflexivity.
  - exact H.
Defined.
