(* ===== verification/RemoteProtocol.v ===== *)
(** * Remote control messages (src/apps/web/src/features/remote-control/protocol.ts)

    The shapes the client accepts from a remote agent: session and message
    envelopes as the server relays them, and the decrypted session metadata and
    messages.  A value of unknown shape is an [option json], [None] being
    [undefined]. *)
From S2P Require Import Prelude JsString JsNumber BillingLexer JsJson AuthSession.
From Stdlib Require Import Lia.

Inductive RemoteControlMessageType :=
| TUser | TAssistant | TSystem | TThinking | TToolCall | TToolResult | TAskUser.

Definition messageTypes : list (list N * RemoteControlMessageType) :=
  [(js "user", TUser); (js "assistant", TAssistant); (js "system", TSystem); (js "thinking", TThinking);
   (js "tool_call", TToolCall); (js "tool_result", TToolResult); (js "ask_user", TAskUser)].

Inductive Stamp := StampText (s : list N) | StampNumber (n : spec_float).

Record RemoteControlMessage := mkMessage {
  msg_id : option (list N);
  msg_type : RemoteControlMessageType;
  content : option (list N);
  title : option (list N);
  tool_name : option (list N);
  arguments : option json;
  question : option (list N);
  options : option (list (list N));
  msg_created_at : option Stamp }.

Record PiRemoteCiphertext := mkCipher { nonce : list N; ciphertext_text : list N }.

Record PiRemoteSessionEnvelope := mkSessionEnvelope {
  sessionId : list N;
  deviceId : list N;
  metadata : PiRemoteCiphertext;
  expiresAt : spec_float;
  updatedAt : spec_float }.

Inductive Sender := Plugin | Controller.

Record PiRemoteMessageEnvelope := mkMessageEnvelope {
  sequence : spec_float;
  sender : Sender;
  createdAt : spec_float;
  encrypted : PiRemoteCiphertext }.

Record PiRemoteSession := mkSession {
  ses_id : list N;
  ses_deviceId : list N;
  active : bool;
  startedAt : option Stamp;
  runtime : option (list N);
  directory : option (list N);
  summary : option (list N);
  messages : list RemoteControlMessage }.

(** ** Reading unknown values *)

(** The properties of an object; anything else has none. *)
Definition record (v : option json) : option json :=
  match v with Some (JObj m) => Some (JObj m) | _ => None end.

Definition prop (k : string) (source : option json) : option json := source ≫= get k.

Definition text (v : option json) : option (list N) :=
  match v with
  | Some (JStr s) => if nonempty (trim s) then Some s else None
  | _ => None
  end.

Definition finiteNumber (v : option json) : option spec_float :=
  match v with
  | Some (JNum n) => if is_finite n then Some n else None
  | _ => None
  end.

(** [a ?? b]. *)
Definition orElse {A} (a b : option A) : option A := match a with Some x => Some x | None => b end.

Definition ciphertext (v : option json) : option PiRemoteCiphertext :=
  let source := record v in
  match text (prop "nonce" source), text (prop "ciphertext" source) with
  | Some n, Some c => Some (mkCipher n c)
  | _, _ => None
  end.

Definition stamp (v : option json) : option Stamp :=
  match v with
  | Some (JStr s) => Some (StampText s)
  | Some (JNum n) => Some (StampNumber n)
  | _ => None
  end.

Definition string_items (v : option json) : option (list (list N)) :=
  match v with
  | Some (JArr items) => Some (omap (fun i => match i with JStr s => Some s | _ => None end) items)
  | _ => None
  end.

(** ** Messages *)

Definition message_type (v : option json) : RemoteControlMessageType :=
  let rawType := default (js "assistant") (text v) in
  default TAssistant ((fun found => found.2.2) <$> list_find (fun p => p.1 = rawType) messageTypes).

Definition normalize_message (item : json) : option RemoteControlMessage :=
  match record (Some item) with
  | None => None
  | Some source =>
      let p k := get k source in
      Some (mkMessage (text (p "id")) (message_type (p "type")) (text (p "content")) (text (p "title"))
              (orElse (text (p "tool_name")) (text (p "toolName"))) (p "arguments") (text (p "question"))
              (string_items (p "options")) (stamp (p "created_at")))
  end%string.

Definition normalizeRemoteControlMessages (v : option json) : list RemoteControlMessage :=
  match v with Some (JArr items) => omap normalize_message items | _ => [] end.

(** ** Envelopes *)

(** The list in a payload: the payload itself or its property [key]. *)
Definition payload_items (key : string) (payload : option json) : list json :=
  match payload with
  | Some (JArr items) => items
  | _ => match prop key (record payload) with Some (JArr items) => items | _ => [] end
  end.

(** The truthiness test of the code on an optional number. *)
Definition truthy_number (v : option spec_float) : option spec_float :=
  v ≫= fun n => if num_truthy n then Some n else None.

Definition normalize_session (item : json) : option PiRemoteSessionEnvelope :=
  let source := record (Some item) in
  match text (prop "session_id" source), text (prop "device_id" source), ciphertext (prop "metadata" source),
        truthy_number (finiteNumber (prop "expires_at" source)), truthy_number (finiteNumber (prop "updated_at" source)) with
  | Some s, Some dv, Some m, Some e, Some u => Some (mkSessionEnvelope s dv m e u)
  | _, _, _, _, _ => None
  end.

Definition normalizePiSessionEnvelopes (payload : option json) : list PiRemoteSessionEnvelope :=
  omap normalize_session (payload_items "sessions" payload).

Definition sender_of (v : option json) : option Sender :=
  match v with
  | Some (JStr s) => if bool_decide (s = js "plugin") then Some Plugin
                     else if bool_decide (s = js "controller") then Some Controller else None
  | _ => None
  end.

(** [Number.isSafeInteger]. *)
Definition is_safe_integer (n : spec_float) : bool :=
  is_finite n && num_eqb (num_floor n) n && num_leb (num_abs n) (num_of_Z 9007199254740991).

Definition normalize_envelope (item : json) : option PiRemoteMessageEnvelope :=
  match record (Some item) with
  | None => None
  | Some source =>
      match finiteNumber (get "sequence" source), sender_of (get "sender" source), ciphertext (Some source),
            finiteNumber (get "created_at" source) with
      | Some n, Some s, Some c, Some at_ =>
          if is_safe_integer n && negb (num_ltb n (num_of_Z 1)) then Some (mkMessageEnvelope n s at_ c) else None
      | _, _, _, _ => None
      end
  end.

Definition normalizePiMessageEnvelopes (payload : option json) : list PiRemoteMessageEnvelope :=
  omap normalize_envelope (payload_items "messages" payload).

(** ** Session metadata *)

Definition version_ok (v : option json) : bool :=
  match v with None => true | Some (JNum n) => num_eqb n (num_of_Z 1) | Some _ => false end.

(** [now] is [Date.now()]. *)
Definition normalizePiSessionMetadata (now : spec_float) (payload : option json) (envelope : PiRemoteSessionEnvelope)
    : res PiRemoteSession :=
  match record payload with
  | None => throw "Invalid Pi session metadata"
  | Some source =>
      if negb (version_ok (get "version" source)) then throw "Invalid Pi session metadata"
      else
        Ok (mkSession (sessionId envelope) (deviceId envelope)
              (num_ltb now (num_mul (expiresAt envelope) (num_of_Z 1000)))
              (orElse (stamp (get "started_at" source)) (stamp (get "start_time" source)))
              (text (get "runtime" source)) (orElse (text (get "directory" source)) (text (get "cwd" source)))
              (text (get "summary" source)) (normalizeRemoteControlMessages (get "messages" source)))
  end.

Definition normalizeRemoteControlMessage (payload : option json) : res RemoteControlMessage :=
  match payload ≫= normalize_message with
  | Some m => Ok m
  | None => throw "Invalid Pi remote-control message"
  end.

Definition isCollapsedMessage (type : RemoteControlMessageType) : bool :=
  match type with TThinking | TToolCall | TToolResult => true | _ => false end.

(** ** Serialized messages *)

(** [JSON.stringify] leaves out properties that are undefined. *)
Definition member (k : string) (v : option json) : list (list N * json) :=
  match v with Some x => [(js k, x)] | None => [] end.

Definition stamp_json (s : Stamp) : json := match s with StampText t => JStr t | StampNumber n => JNum n end.

Definition type_name (t : RemoteControlMessageType) : list N :=
  match t with
  | TUser => js "user" | TAssistant => js "assistant" | TSystem => js "system" | TThinking => js "thinking"
  | TToolCall => js "tool_call" | TToolResult => js "tool_result" | TAskUser => js "ask_user"
  end.

Definition message_json (m : RemoteControlMessage) : json :=
  JObj (member "id" (JStr <$> msg_id m) ++ member "type" (Some (JStr (type_name (msg_type m)))) ++
        member "content" (JStr <$> content m) ++ member "title" (JStr <$> title m) ++
        member "tool_name" (JStr <$> tool_name m) ++ member "arguments" (arguments m) ++
        member "question" (JStr <$> question m) ++ member "options" ((fun l => JArr (map JStr l)) <$> options m) ++
        member "created_at" (stamp_json <$> msg_created_at m) ++ []).

Lemma get_member_ne k k1 v rest : js k <> js k1 -> get k (JObj (member k1 v ++ rest)) = get k (JObj rest).
Proof.
  intros Hne. destruct v as [v|]; [|done]. cbn [member app get list_find fst].
  destruct (decide (js k1 = js k)) as [E|_]; [by destruct Hne|]. by destruct (list_find _ rest) as [[]|].
Qed.

Lemma get_member_eq k v rest : get k (JObj (member k v ++ rest)) = orElse v (get k (JObj rest)).
Proof.
  destruct v as [v|]; [|done]. cbn [member app get list_find fst]. by destruct (decide (js k = js k)).
Qed.

Lemma get_nil k : get k (JObj []) = None.
Proof. done. Qed.

Lemma orElse_None {A} (v : option A) : orElse v None = v.
Proof. by destruct v. Qed.

(** Looks a property up in the members of a written object. *)
Ltac get_members :=
  repeat first [rewrite get_member_eq | rewrite get_member_ne by (vm_compute; discriminate) | rewrite get_nil | rewrite orElse_None].

Definition shown (t : option (list N)) : Prop := match t with Some s => nonempty (trim s) = true | None => True end.

Lemma text_shown v : shown (text v).
Proof. destruct v as [[| | |s| |]|]; try done. simpl. destruct (nonempty (trim s)) eqn:E; done. Qed.

Lemma text_json t : shown t -> text (JStr <$> t) = t.
Proof. destruct t as [s|]; [|done]. simpl. by intros ->. Qed.

Lemma orElse_shown a b : shown a -> shown b -> shown (orElse a b).
Proof. by destruct a. Qed.

Lemma stamp_back s : stamp (stamp_json <$> s) = s.
Proof. by destruct s as [[]|]. Qed.

Lemma strings_back o : string_items ((fun l => JArr (map JStr l)) <$> o) = o.
Proof.
  destruct o as [l|]; [|done]. simpl. f_equal. induction l as [|s l IH]; [done|]. cbn. f_equal. exact IH.
Qed.

Lemma type_back t : message_type (Some (JStr (type_name t))) = t.
Proof. by destruct t. Qed.

(** A message every text of which is visible. *)
Definition message_ok (m : RemoteControlMessage) : Prop :=
  shown (msg_id m) /\ shown (content m) /\ shown (title m) /\ shown (tool_name m) /\ shown (question m).

Lemma normalize_message_ok item m : normalize_message item = Some m -> message_ok m.
Proof.
  unfold normalize_message. destruct (record (Some item)); [|done]. intros [= <-].
  unfold message_ok. cbn. split_and!; try apply text_shown. apply orElse_shown; apply text_shown.
Qed.

Lemma message_back m : message_ok m -> normalize_message (message_json m) = Some m.
Proof.
  intros (H1 & H2 & H3 & H4 & H5). unfold normalize_message, message_json. cbn [record]. cbv zeta. get_members.
  rewrite !text_json, type_back, strings_back, stamp_back by done. cbn [text]. rewrite orElse_None. by destruct m.
Qed.

Lemma omap_back {A B} (f : A -> option B) (g : B -> A) l :
  Forall (fun y => f (g y) = Some y) l -> omap f (map g l) = l.
Proof. induction 1 as [|y l Hy _ IH]; [done|]. cbn. rewrite Hy. f_equal. exact IH. Qed.

(** Normalizing remote messages is stable: whatever the peer sends, the messages
    kept have no blank text, and normalizing what the client itself would write for
    them gives the same messages. *)
Theorem remote_messages_stable (v : option json) :
  let ms := normalizeRemoteControlMessages v in
  Forall message_ok ms /\ normalizeRemoteControlMessages (Some (JArr (map message_json ms))) = ms.
Proof.
  cbv zeta. assert (Forall message_ok (normalizeRemoteControlMessages v)) as H.
  { destruct v as [[| | | |items|]|]; try (constructor; fail). simpl. apply Forall_forall.
    intros m (item & _ & Hm)%list_elem_of_omap. by eapply normalize_message_ok. }
  split; [done|]. apply omap_back. eapply Forall_impl; [exact H|]. intros m Hm. by apply message_back.
Qed.

(** ** Envelopes *)

Definition sender_name (s : Sender) : list N := match s with Plugin => js "plugin" | Controller => js "controller" end.

(** An envelope as the server relays it. *)
Definition envelope_json (e : PiRemoteMessageEnvelope) : json :=
  JObj (member "sequence" (Some (JNum (sequence e))) ++ member "sender" (Some (JStr (sender_name (sender e)))) ++
        member "nonce" (Some (JStr (nonce (encrypted e)))) ++
        member "ciphertext" (Some (JStr (ciphertext_text (encrypted e)))) ++
        member "created_at" (Some (JNum (createdAt e))) ++ []).

(** Numbered from one, with a time and a ciphertext. *)
Definition envelope_ok (e : PiRemoteMessageEnvelope) : bool :=
  is_safe_integer (sequence e) && negb (num_ltb (sequence e) (num_of_Z 1)) && is_finite (createdAt e) &&
  nonempty (trim (nonce (encrypted e))) && nonempty (trim (ciphertext_text (encrypted e))).

Lemma envelope_back e : envelope_ok e = true -> normalize_envelope (envelope_json e) = Some e.
Proof.
  unfold envelope_ok, is_safe_integer. intros H. breflect.
  unfold normalize_envelope, envelope_json, ciphertext, prop. cbn [record mbind option_bind]. get_members. cbn [orElse].
  unfold finiteNumber, text, is_safe_integer. rewrite H, H3, H2, H1, H4, H5, H0, H. cbn [andb negb].
  by destruct e as [n [] c [x y]].
Qed.

Lemma finiteNumber_finite v n : finiteNumber v = Some n -> is_finite n = true.
Proof. destruct v as [[| |x| | |]|]; try done. simpl. destruct (is_finite x) eqn:E; [|done]. by intros [= <-]. Qed.

Lemma normalize_envelope_ok item e : normalize_envelope item = Some e -> envelope_ok e = true.
Proof.
  unfold normalize_envelope. destruct (record (Some item)) as [s|]; [|done].
  destruct (finiteNumber (get "sequence" s)) as [n|] eqn:En; [|done]. destruct (sender_of _); [|done].
  unfold ciphertext. pose proof (text_shown (prop "nonce" (record (Some s)))) as Hn.
  pose proof (text_shown (prop "ciphertext" (record (Some s)))) as Hc.
  destruct (text _) as [x|]; [|done]. destruct (text _) as [y|]; [|done].
  destruct (finiteNumber (get "created_at" s)) as [c|] eqn:Ec; [|done].
  destruct (_ && _) eqn:E; [|done]. intros [= <-]. unfold envelope_ok. cbn [sequence createdAt encrypted nonce ciphertext_text]. simpl in Hn, Hc.
  rewrite E, Hn, Hc, (finiteNumber_finite _ _ Ec). done.
Qed.

(** The message envelopes accepted from any payload are numbered with safe
    integers from one, timed and encrypted; and the relay of such envelopes, as a
    list or in an object with a [messages] property, is accepted unchanged. *)
Theorem remote_envelopes_accepted (payload : option json) (es : list PiRemoteMessageEnvelope) :
  forallb envelope_ok es = true ->
  forallb envelope_ok (normalizePiMessageEnvelopes payload) = true /\
  normalizePiMessageEnvelopes (Some (JArr (map envelope_json es))) = es /\
  normalizePiMessageEnvelopes (Some (JObj [(js "messages", JArr (map envelope_json es))])) = es.
Proof.
  intros H. assert (omap normalize_envelope (map envelope_json es) = es) as Hes.
  { apply omap_back, Forall_forall. intros e He%list_elem_of_In. rewrite forallb_forall in H. by apply envelope_back, H. }
  split_and!; [|exact Hes|exact Hes]. apply forallb_forall. intros e He%list_elem_of_In.
  apply list_elem_of_omap in He as (item & _ & He). by eapply normalize_envelope_ok.
Qed.

Definition sample_envelope : PiRemoteMessageEnvelope :=
  mkMessageEnvelope (num_of_Z 1) Plugin (num_of_Z 1750000000) (mkCipher (js "bm9uY2U=") (js "Y2lwaGVy")).

Lemma remote_envelopes_accepted_witness :
  normalizePiMessageEnvelopes (Some (JArr (map envelope_json [sample_envelope]))) = [sample_envelope].
Proof. exact (proj1 (proj2 (remote_envelopes_accepted None [sample_envelope] ltac:(vm_compute; reflexivity)))). Defined.
