(* ===== verification/HttpClient.v ===== *)
(** * HTTP client (src/apps/web/src/lib/http-client.ts, lib/server-error-message.ts)

    The client every API call goes through, on top of [AuthSession]: identical GET
    requests in flight share one promise, the request interceptor refreshes a token
    about to expire, the response interceptor applies rotations, reports errors and
    retries once after a 401.

    axios is the environment.  It runs a request through the request interceptor, the
    transport and the response interceptor in this order; a rejection of the request
    interceptor goes to the error handler of the response interceptor; the fields of
    a configuration are passed on.  A request is cut at its [await]s ([Point]), and
    the events of all requests and of the session interleave in any order.  A request
    that awaits a refresh remembers the number of its outcome. *)
From S2P Require Import Prelude JsString JsNumber JsJson JsNumberPrint JsJsonPrint AuthSession.
From Stdlib Require Import Lia.

(** ** Messages for error codes *)

Definition serverErrorMessageKeys : list (list N * list N) :=
  [(js "AUTH_SESSION_LIMIT",
    js "Too many active login sessions. On a device where you are already signed in, open Login sessions and use " ++
    [8220%N] ++ js "Sign out other sessions" ++ [8221%N] ++
    js " to revoke them. If you cannot access a signed-in device, reset your password to sign out all sessions.");
   (js "AUTH_SESSION_ISSUANCE_LIMIT",
    js "Too many login sessions were created recently. Please wait for the rolling window to pass, then try again.");
   (js "AUTH_USER_DISABLED",
    js "This account is disabled. Use the appeal form below to ask an administrator to restore access.");
   (js "DEVELOPER_ACCESS_AI_CONFIRMATION_INVALID",
    js "The AI recommendation expired. Ask the assistant to prepare it again, or continue editing it yourself.");
   (js "DEVELOPER_ACCESS_AI_CONFIRMATION_MISMATCH",
    js "The AI recommendation expired. Ask the assistant to prepare it again, or continue editing it yourself.");
   (js "SUBSCRIPTION_PLAN_PAYMENT_METHOD_REQUIRED",
    js "Configure at least one available payment method before enabling this plan.");
   (js "TELEGRAM_BIND_DISABLED", js "Telegram binding is disabled.");
   (js "TELEGRAM_BIND_INVALID_REQUEST", js "The Telegram authorization request is invalid or expired.");
   (js "TELEGRAM_BIND_FLOW_INVALID", js "This Telegram binding request has expired or has already been used.");
   (js "TELEGRAM_BIND_SESSION_INVALID",
    js "The login session that started this Telegram binding is no longer valid.");
   (js "TELEGRAM_BIND_ALREADY_BOUND", js "This Telegram account is already bound.");
   (js "TELEGRAM_BIND_USER_DELETED", js "This user account no longer exists.");
   (js "TELEGRAM_BIND_USER_DISABLED", js "This user account is disabled.");
   (js "TELEGRAM_BIND_INTERNAL_ERROR", js "Telegram binding failed. Please try again.")].

(** The properties every object literal inherits: reading one of them is not
    [undefined]. *)
Definition object_prototype : list (list N) :=
  js <$> ["constructor"; "__defineGetter__"; "__defineSetter__"; "hasOwnProperty"; "__lookupGetter__";
          "__lookupSetter__"; "isPrototypeOf"; "propertyIsEnumerable"; "toString"; "valueOf"; "__proto__";
          "toLocaleString"].

Inductive MessageKey :=
| OwnKey (text : list N)
| InheritedProperty (name : list N).

Definition isRecord (v : option json) : option json :=
  match v with Some (JObj m) => Some (JObj m) | Some (JArr l) => Some (JArr l) | _ => None end.

Definition serverErrorPayload (v : option json) : option json :=
  value ← isRecord v;
  match isRecord (get "response" value) ≫= fun response => isRecord (get "data" response) with
  | Some d => Some d
  | None => Some value
  end.

Definition getServerErrorMessageKey (v : option json) : option MessageKey :=
  payload ← serverErrorPayload v; code ← as_string (get "code" payload);
  match list_find (fun e => e.1 = code) serverErrorMessageKeys with
  | Some (_, (_, text)) => Some (OwnKey text)
  | None => if bool_decide (code ∈ object_prototype) then Some (InheritedProperty code) else None
  end.

(** ** Requests *)

Record Config := mkConfig {
  url : list N;
  params : option json;
  disableDuplicate : bool;
  skipBusinessError : bool;
  skipErrorHandler : bool;
  skipAuthRefresh : bool;
  authRetry : bool;
  acceptAuthRotation : bool;
  authorization : option (list N) (* headers.Authorization *) }.

Definition with_authRetry (c : Config) : Config :=
  mkConfig (url c) (params c) (disableDuplicate c) (skipBusinessError c) (skipErrorHandler c) (skipAuthRefresh c)
    true (acceptAuthRotation c) (authorization c).

(** [Authorization: `Bearer ${token}`] when there is a token. *)
Definition with_token (token : option (list N)) (c : Config) : Config :=
  match token with
  | Some ((_ :: _) as t) =>
      mkConfig (url c) (params c) (disableDuplicate c) (skipBusinessError c) (skipErrorHandler c) (skipAuthRefresh c)
        (authRetry c) (acceptAuthRotation c) (Some (js "Bearer " ++ t))
  | _ => c
  end.

(** Where a request is: before the request interceptor, awaiting a refresh in it, on
    the wire, awaiting a refresh after a 401, settled, and released from [inFlightGet]. *)
Inductive Point := Starting | AwaitBefore (n : nat) | OnWire | AwaitAfter (n : nat) | PSettled | Released.

Record Request := mkRequest {
  config : Config;
  point : Point;
  key : option (list N); (* its key in [inFlightGet] *)
  owner : option (list N); (* the session when it was made *)
  sends : nat (* how often it went to the transport *) }.

Inductive Toast := Translated (k : MessageKey) | Verbatim (v : json).

Definition translated (s : string) : Toast := Translated (OwnKey (js s)).

Inductive Output :=
| OToast (t : Toast)
| ORedirect (* to /sign-in *)
| OSend (id : nat) (authorization : option (list N)).

Record Client := mkClient {
  world : World;
  inFlightGet : gmap (list N) nat;
  table : gmap nat Request;
  fresh : nat;
  pathname : list N;
  output : list Output (* newest first *) }.

Definition initialClient (path : list N) : Client := mkClient initialWorld ∅ ∅ 0 path [].

Definition on_world (f : World -> World) (c : Client) : Client :=
  mkClient (f (world c)) (inFlightGet c) (table c) (fresh c) (pathname c) (output c).
Definition emit (o : Output) (c : Client) : Client :=
  mkClient (world c) (inFlightGet c) (table c) (fresh c) (pathname c) (o :: output c).
Definition on_request (id : nat) (f : Request -> Request) (c : Client) : Client :=
  mkClient (world c) (inFlightGet c) (alter f id (table c)) (fresh c) (pathname c) (output c).

Definition move (p : Point) (r : Request) : Request := mkRequest (config r) p (key r) (owner r) (sends r).
Definition on_config (f : Config -> Config) (r : Request) : Request :=
  mkRequest (f (config r)) (point r) (key r) (owner r) (sends r).
Definition count_send (r : Request) : Request := mkRequest (config r) (point r) (key r) (owner r) (S (sends r)).

(** ** Deduplicated GET *)

Definition params_text (p : option json) : list N :=
  match p with Some v => if json_truthy v then json_stringify v else js "{}" | None => js "{}" end.

Definition session_text (s : option (list N)) : list N :=
  match s with Some ((_ :: _) as x) => x | _ => js "anonymous" end.

Definition get_key (s : option (list N)) (u : list N) (p : option json) : list N :=
  session_text s ++ js ":" ++ u ++ js "?" ++ params_text p.

(** [api.request] up to its first [await]. *)
Definition enqueue (cfg : Config) (k : option (list N)) (c : Client) : Client :=
  mkClient (world c) (inFlightGet c)
    (<[fresh c := mkRequest cfg Starting k (currentSID (world c)) 0]> (table c))
    (S (fresh c)) (pathname c) (output c).

Definition in_flight (k : list N) (id : nat) (c : Client) : Client :=
  mkClient (world c) (<[k := id]> (inFlightGet c)) (table c) (fresh c) (pathname c) (output c).

(** [api.get]: the request whose promise the caller gets. *)
Definition api_get (cfg : Config) (c : Client) : nat * Client :=
  if disableDuplicate cfg then (fresh c, enqueue cfg None c)
  else
    let k := get_key (currentSID (world c)) (url cfg) (params cfg) in
    match inFlightGet c !! k with
    | Some id => (id, c)
    | None => (fresh c, in_flight k (fresh c) (enqueue cfg (Some k) c))
    end.

Definition release (id : nat) (c : Client) : Client :=
  match table c !! id with
  | Some r =>
      let c1 := on_request id (move Released) c in
      match key r with
      | Some k => mkClient (world c1) (delete k (inFlightGet c1)) (table c1) (fresh c1) (pathname c1) (output c1)
      | None => c1
      end
  | None => c
  end.

(** ** Interceptors *)

Definition redirectToSignIn (c : Client) : Client :=
  if bool_decide (pathname c = js "/sign-in") then c else emit ORedirect c.

Record RequestError := mkError {
  has_config : bool;
  response_status : option Z;
  response_data : option json; (* of the response, when there is one *)
  error_code : option json;
  error_message : option json }.

(** The fields of an error that the message lookup reads. *)
Definition error_object (e : RequestError) : json :=
  JObj (match error_message e with Some m => [(js "message", m)] | None => [] end ++
        match error_code e with Some m => [(js "code", m)] | None => [] end ++
        match response_status e with
        | Some s => [(js "response", JObj ((js "status", JNum (num_of_Z s)) ::
                        match response_data e with Some d => [(js "data", d)] | None => [] end))]
        | None => []
        end).

Definition createConfiguredRequestError (message : string) : RequestError :=
  mkError true None None None (Some (JStr (js message))).

(** [a || b] on values that may be missing. *)
Definition or_else (a : option json) (b : Toast) : Toast :=
  match a with Some v => if json_truthy v then Verbatim v else b | None => b end.

Definition unless (b : bool) (f : Client -> Client) (c : Client) : Client := if b then c else f c.

Definition refreshBeforeSeconds : spec_float := num_of_Z 60.

Definition token_missing (limit : spec_float) (a : AuthState) : bool :=
  match accessToken a, accessExpiresAt a with
  | Some (_ :: _), Some e => negb (num_truthy e) || num_leb e limit
  | _, _ => true
  end.

Definition needsRefresh (now : spec_float) (cfg : Config) (a : AuthState) : bool :=
  negb (skipAuthRefresh cfg) && bool_decide (is_Some (user a)) && bool_decide (is_Some (session a)) &&
  token_missing (num_add now refreshBeforeSeconds) a.

(** The end of the request interceptor, and the transport. *)
Definition send (id : nat) (c : Client) : Client :=
  let token := accessToken (auth (world c)) in
  let c1 := on_request id (fun r => count_send (move OnWire (on_config (with_token token) r))) c in
  emit (OSend id (table c1 !! id ≫= fun r => authorization (config r))) c1.

Definition settle (id : nat) (c : Client) : Client := on_request id (move PSettled) c.

(** The number of the outcome a caller of [refreshAuthentication] awaits. *)
Definition await_refresh (id : nat) (p : nat -> Point) (c : Client) : Client :=
  let c1 := on_world refreshAuthentication c in
  on_request id (move (p (length (outcomes (world c1))))) c1.

Definition outcome_number (n : nat) (w : World) : option RefreshOutcome := reverse (outcomes w) !! n.

(** The error handler of the response interceptor. *)
Definition report_error (e : RequestError) (c : Client) : Client :=
  emit (OToast (match getServerErrorMessageKey (Some (error_object e)) with
                | Some k => Translated k
                | None => or_else (response_data e ≫= get "message")
                            (or_else (error_message e) (translated "Request failed"))
                end)) c.

Definition session_expired (c : Client) : Client := emit (OToast (translated "Session expired!")) c.

Definition on_rejected (id : nat) (cfg : Config) (e : RequestError) (c : Client) : Client :=
  let skip := has_config e && skipErrorHandler cfg in
  if bool_decide (response_status e = Some 401%Z) then
    if has_config e && negb (skipAuthRefresh cfg) && negb (authRetry cfg)
    then await_refresh id AwaitAfter (on_request id (on_config with_authRetry) c)
    else if has_config e && authRetry cfg
    then settle id (redirectToSignIn (unless skip session_expired (on_world (clearAuthentication false Complete) c)))
    else settle id (unless skip session_expired c)
  else settle id (unless skip (report_error e) c).

Definition resume_after (id : nat) (cfg : Config) (o : RefreshOutcome) (c : Client) : Client :=
  match o with
  | OAuthenticated _ =>
      on_request id (fun r => move Starting (on_config (with_token (accessToken (auth (world c)))) r)) c
  | OAnonymous | OOutOfSync _ => settle id (redirectToSignIn (unless (skipErrorHandler cfg) session_expired c))
  | OTransientError _ => settle id c
  end.

(** The request interceptor up to its [await], and after it. *)
Definition on_start (id : nat) (cfg : Config) (now : spec_float) (c : Client) : Client :=
  if needsRefresh now cfg (auth (world c)) then await_refresh id AwaitBefore c else send id c.

Definition resume_before (id : nat) (cfg : Config) (refreshedNow : spec_float) (o : RefreshOutcome) (c : Client)
  : Client :=
  match o with
  | OAnonymous | OOutOfSync _ =>
      on_rejected id cfg (createConfiguredRequestError "Session expired!") (redirectToSignIn c)
  | OTransientError _ =>
      if token_missing refreshedNow (auth (world c))
      then on_rejected id cfg (createConfiguredRequestError "Request failed") c else send id c
  | OAuthenticated _ => send id c
  end.

Definition apply_rotation (body : json) (c : Client) : Client :=
  match applyAuthRotation (default JNull (get "data" body)) (world c) with
  | Ok w => on_world (fun _ => w) c
  | Throw _ => session_expired (on_world (clearAuthentication true Complete) c)
  end.

Definition on_fulfilled (id : nat) (cfg : Config) (body : json) (c : Client) : Client :=
  let success := as_bool (get "success" body) in
  let c1 := if acceptAuthRotation cfg && bool_decide (success = Some true) then apply_rotation body c else c in
  let c2 := if negb (skipBusinessError cfg) && bool_decide (success = Some false)
            then emit (OToast (match getServerErrorMessageKey (Some body) with
                               | Some k => Translated k
                               | None => or_else (get "message" body) (translated "Request failed")
                               end)) c1
            else c1 in
  settle id c2.

(** ** Events *)

Inductive ClientEvent :=
| CGet (cfg : Config)
| CRequest (cfg : Config) (* the other methods *)
| CStart (id : nat) (now : spec_float)
| CResumeBefore (id : nat) (now : spec_float)
| CFulfilled (id : nat) (body : json)
| CRejected (id : nat) (e : RequestError)
| CResumeAfter (id : nat)
| CRelease (id : nat)
| CAuth (e : Event).

Definition at_point (id : nat) (c : Client) : option (Config * Point) :=
  (fun r => (config r, point r)) <$> table c !! id.

Definition client_step (e : ClientEvent) (c : Client) : Client :=
  match e with
  | CGet cfg => (api_get cfg c).2
  | CRequest cfg => enqueue cfg None c
  | CStart id now =>
      match at_point id c with Some (cfg, Starting) => on_start id cfg now c | _ => c end
  | CResumeBefore id now =>
      match at_point id c with
      | Some (cfg, AwaitBefore n) =>
          match outcome_number n (world c) with Some o => resume_before id cfg now o c | None => c end
      | _ => c
      end
  | CFulfilled id body =>
      match at_point id c with Some (cfg, OnWire) => on_fulfilled id cfg body c | _ => c end
  | CRejected id err =>
      match at_point id c with Some (cfg, OnWire) => on_rejected id cfg err c | _ => c end
  | CResumeAfter id =>
      match at_point id c with
      | Some (cfg, AwaitAfter n) =>
          match outcome_number n (world c) with Some o => resume_after id cfg o c | None => c end
      | _ => c
      end
  | CRelease id =>
      match at_point id c with Some (_, PSettled) => release id c | _ => c end
  | CAuth e => on_world (apply_event e) c
  end.

Definition run_client (es : list ClientEvent) (c : Client) : Client :=
  fold_left (fun c e => client_step e c) es c.

(** ** The session under the client *)

(** A promise of a refresh is kept: outcomes are never lost, and a refresh in flight
    stays in flight until it adds one. *)
Definition keeps (w w' : World) : Prop :=
  length (outcomes w) <= length (outcomes w') /\
  (length (outcomes w') = length (outcomes w) -> refreshing w <> None -> refreshing w' <> None).

#[global] Instance keeps_preorder : PreOrder keeps.
Proof. split; unfold keeps; [intros w; split; [lia|done]|]. intros a b c [] []; split; [lia|]. intros; naive_solver lia. Qed.

Lemma keeps_same w w' : outcomes w' = outcomes w -> refreshing w' = refreshing w -> keeps w w'.
Proof. unfold keeps. intros -> ->. split; [lia|done]. Qed.

Lemma keeps_finish o w : keeps w (finish o w).
Proof. split; simpl; lia. Qed.

Lemma publish_outcomes k s w : outcomes (publishAuthSessionEvent k s w) = outcomes w.
Proof. by destruct s as [[|]|]. Qed.
#[export] Hint Rewrite publish_outcomes : authdb.

Lemma keeps_bundle b s w : keeps w (applyAuthBundle b s w).
Proof. unfold applyAuthBundle. destruct (present _ && _), (s && _); apply keeps_same; autorewrite with authdb; done. Qed.

Lemma keeps_clear s b w : keeps w (clearAuthentication s b w).
Proof. unfold clearAuthentication. destruct (s && _); apply keeps_same; autorewrite with authdb; done. Qed.

Lemma keeps_run n m w : keeps w (run n m w).
Proof.
  unfold run. destruct (refreshing w) as [[ep p]|] eqn:E; [|done].
  destruct (negb _); [apply keeps_finish|]. split; simpl; [lia|]. by rewrite E.
Qed.

Lemma keeps_refresh w : keeps w (refreshAuthentication w) /\ refreshing (refreshAuthentication w) <> None /\
  outcomes (refreshAuthentication w) = outcomes w.
Proof. unfold refreshAuthentication, keeps. destruct (refreshing w) eqn:E; simpl; rewrite ?E; done. Qed.

#[export] Hint Resolve keeps_bundle keeps_clear keeps_run keeps_finish : authdb.
#[export] Hint Extern 1 (keeps ?w ?w) => reflexivity : authdb.

Lemma keeps_runtime_clear s b w : keeps w (runtime_clear s b w).
Proof. unfold runtime_clear. destruct s, b as [[]|]; auto with authdb. by apply keeps_same. Qed.

Lemma keeps_response r w : keeps w (on_response r w).
Proof.
  unfold on_response. destruct (refreshing w) as [[ep [|n m s|]]|] eqn:E; try done.
  destruct (negb _); [apply keeps_finish|]. unfold handle_response.
  assert (forall o w', keeps w w' -> keeps w (finish o w')) as Hf.
  { intros o w' H. etrans; [exact H|apply keeps_finish]. }
  destruct (as_bool _) as [[]|], ((data r ≫= get "data") ≫= asAuthBundle) as [b|];
    try (apply Hf, keeps_bundle).
  all: destruct ((status r =? 409)%Z && _).
  all: try (destruct (refreshRaceDelays !! n); [split; simpl; [lia|by rewrite E]|apply Hf, keeps_runtime_clear]).
  all: destruct ((status r =? 409)%Z && _).
  all: try (destruct m; [etrans; [apply keeps_runtime_clear|apply keeps_run]|apply Hf, keeps_runtime_clear]).
  all: destruct (status r =? 401)%Z; [apply Hf, keeps_runtime_clear|].
  all: destruct (transient_status _); apply Hf; [by apply keeps_same|apply keeps_runtime_clear].
Qed.

Lemma keeps_event e w : keeps w (apply_event e w).
Proof.
  destruct e; simpl; try (by apply keeps_same).
  - destruct (asAuthBundle response); auto with authdb.
  - unfold rotate_or_clear. destruct (applyAuthRotation response w) as [w'|] eqn:E; auto with authdb.
    apply rotation_fields in E as (b & -> & _). auto with authdb.
  - auto with authdb.
  - unfold bootstrapAuthentication. destruct (currentValidAuthBundle _ _); [by apply keeps_same|].
    destruct (_ && _); [done|]. cbn [snd]. etrans; [|apply keeps_refresh]. by apply keeps_same.
  - apply keeps_refresh.
  - unfold on_lock. destruct (refreshing w) as [[ep []]|]; auto with authdb.
  - apply keeps_response.
  - unfold on_delay. destruct (refreshing w) as [[ep []]|]; auto with authdb.
Qed.

(** ** Invariant *)

Definition awaits_ok (n : nat) (w : World) : Prop :=
  n < length (outcomes w) \/ (n = length (outcomes w) /\ refreshing w <> None).

Lemma awaits_keeps n w w' : keeps w w' -> awaits_ok n w -> awaits_ok n w'.
Proof.
  unfold awaits_ok. intros [Hl Hr] [H|[H1 H2]]; [left; lia|].
  destruct (decide (length (outcomes w') = length (outcomes w))); [right; split; [lia|auto]|left; lia].
Qed.

(** The second pass of a request is marked, so that there is no third; what is
    awaited exists or is in flight. *)
Definition request_ok (w : World) (r : Request) : Prop :=
  let retried := if authRetry (config r) then 1 else 0 in
  match point r with
  | Starting => sends r <= retried
  | AwaitBefore n => sends r <= retried /\ awaits_ok n w
  | OnWire => sends r <= 1 + retried
  | AwaitAfter n => authRetry (config r) = true /\ sends r <= 1 /\ awaits_ok n w
  | PSettled | Released => sends r <= 2
  end /\
  (forall k, key r = Some k -> k = get_key (owner r) (url (config r)) (params (config r))).

Definition client_ok (c : Client) : Prop :=
  (forall id r, table c !! id = Some r -> id < fresh c /\ request_ok (world c) r) /\
  (forall k id, inFlightGet c !! k = Some id ->
     exists r, table c !! id = Some r /\ key r = Some k /\ point r <> Released).

(** The steps a request still has before it. *)
Definition rank (r : Request) : nat :=
  match point r, authRetry (config r) with
  | Starting, false => 10 | AwaitBefore _, false => 9 | OnWire, false => 8
  | AwaitAfter _, _ => 7
  | Starting, true => 6 | AwaitBefore _, true => 5 | OnWire, true => 4
  | PSettled, _ => 1
  | Released, _ => 0
  end.

Lemma request_ok_keeps w w' r : keeps w w' -> request_ok w r -> request_ok w' r.
Proof.
  intros Hk [H1 H2]. split; [|done]. destruct (point r); naive_solver eauto using awaits_keeps.
Qed.

(** A step of request [id]: nothing else in the client changes but the session. *)
Definition advances (id : nat) (r : Request) (c c' : Client) : Prop :=
  exists r', table c' = <[id := r']> (table c) /\ inFlightGet c' = inFlightGet c /\ fresh c' = fresh c /\
    keeps (world c) (world c') /\ key r' = key r /\ owner r' = owner r /\ point r' <> Released /\
    request_ok (world c') r' /\ rank r' < rank r.

Lemma advances_ok id r c c' :
  client_ok c -> table c !! id = Some r -> advances id r c c' -> client_ok c'.
Proof.
  intros [H1 H2] Hr (r' & Ht & Hf & Hn & Hk & Hkey & _ & Hp & Hok & _). split.
  - intros j x. rewrite Ht, Hn. intros [[<- <-]|[Hne Hx]]%lookup_insert_Some.
    + split; [by eapply H1|done].
    + destruct (H1 j x Hx). split; [done|]. by eapply request_ok_keeps.
  - intros k j. rewrite Hf, Ht. intros Hj. destruct (H2 k j Hj) as (x & Hx & Hkx & Hpx).
    destruct (decide (j = id)) as [->|Hne].
    + simplify_eq. exists r'. rewrite lookup_insert_eq. split_and!; [done|congruence|done].
    + exists x. by rewrite lookup_insert_ne.
Qed.

(** Operations that only write to the output. *)
Lemma redirect_frame c : world (redirectToSignIn c) = world c /\ table (redirectToSignIn c) = table c /\
  inFlightGet (redirectToSignIn c) = inFlightGet c /\ fresh (redirectToSignIn c) = fresh c.
Proof. unfold redirectToSignIn. by destruct (bool_decide _). Qed.

Lemma expired_frame b c : world (unless b session_expired c) = world c /\ table (unless b session_expired c) = table c /\
  inFlightGet (unless b session_expired c) = inFlightGet c /\ fresh (unless b session_expired c) = fresh c.
Proof. by destruct b. Qed.

Lemma report_frame b e c : world (unless b (report_error e) c) = world c /\
  table (unless b (report_error e) c) = table c /\
  inFlightGet (unless b (report_error e) c) = inFlightGet c /\ fresh (unless b (report_error e) c) = fresh c.
Proof. by destruct b. Qed.

Lemma alter_insert {A} (f : A -> A) (i : nat) (m : gmap nat A) x : m !! i = Some x -> alter f i m = <[i := f x]> m.
Proof.
  intros H. apply map_eq. intros j. destruct (decide (i = j)) as [->|Hne].
  - by rewrite lookup_alter_eq, lookup_insert_eq, H.
  - by rewrite lookup_alter_ne, lookup_insert_ne.
Qed.

(** ** Each step of a request advances it *)

Lemma request_sends w r : request_ok w r -> sends r <= 2.
Proof. intros [H _]. destruct (point r), (authRetry (config r)); naive_solver lia. Qed.

(** [c1] differs from [c] in the session and the output only. *)
Definition same_requests (c c1 : Client) : Prop :=
  keeps (world c) (world c1) /\ table c1 = table c /\ inFlightGet c1 = inFlightGet c /\ fresh c1 = fresh c.

#[global] Instance same_requests_preorder : PreOrder same_requests.
Proof.
  split; [intros c; by split_and!|]. intros a b c (? & ? & ? & ?) (? & ? & ? & ?).
  split_and!; [by etrans|congruence..].
Qed.

Lemma same_redirect c : same_requests c (redirectToSignIn c).
Proof. destruct (redirect_frame c) as (E & ? & ? & ?). split_and!; [by rewrite E|done..]. Qed.
Lemma same_expired b c : same_requests c (unless b session_expired c).
Proof. by destruct b. Qed.
Lemma same_report b e c : same_requests c (unless b (report_error e) c).
Proof. by destruct b. Qed.
Lemma same_emit o c : same_requests c (emit o c).
Proof. done. Qed.
Lemma same_world f c : keeps (world c) (f (world c)) -> same_requests c (on_world f c).
Proof. by intros H. Qed.

Lemma settle_advances id r c c1 :
  table c !! id = Some r -> request_ok (world c) r -> 1 < rank r -> same_requests c c1 ->
  advances id r c (settle id c1).
Proof.
  intros Hr Hok Hrank (Hk & Ht & Hf & Hn). exists (move PSettled r). unfold settle, on_request. simpl.
  rewrite Ht. split_and!; try done; [by apply alter_insert|].
  split; [simpl; by eapply request_sends|]. apply Hok.
Qed.

Lemma with_token_fields t cfg :
  url (with_token t cfg) = url cfg /\ params (with_token t cfg) = params cfg /\
  authRetry (with_token t cfg) = authRetry cfg.
Proof. by destruct t as [[|]|]. Qed.

Lemma send_advances id r c :
  table c !! id = Some r -> request_ok (world c) r ->
  (point r = Starting \/ exists n, point r = AwaitBefore n) -> advances id r c (send id c).
Proof.
  intros Hr [Hok Hkey] Hp. unfold send, emit, on_request. simpl. rewrite (alter_insert _ _ _ _ Hr).
  destruct (with_token_fields (accessToken (auth (world c))) (config r)) as (Eu & Ep & Ea).
  eexists. split_and!; try done.
  - split; simpl; [|by rewrite Eu, Ep]. rewrite Ea. destruct Hp as [Hp|[n Hp]]; rewrite Hp in Hok; lia.
  - unfold rank. simpl. rewrite Ea. destruct Hp as [Hp|[n Hp]]; rewrite Hp; destruct (authRetry _); lia.
Qed.

Lemma before_advances id r c :
  table c !! id = Some r -> request_ok (world c) r -> point r = Starting ->
  advances id r c (await_refresh id AwaitBefore c).
Proof.
  intros Hr [Hok Hkey] Hp. unfold await_refresh, on_request, on_world. simpl. rewrite (alter_insert _ _ _ _ Hr).
  destruct (keeps_refresh (world c)) as (Hk & Hne & Ho). rewrite Hp in Hok.
  eexists. split_and!; try done.
  - split; simpl; [|done]. split; [done|]. right. done.
  - unfold rank. simpl. rewrite Hp. destruct (authRetry _); lia.
Qed.

Lemma after_advances id r c :
  table c !! id = Some r -> request_ok (world c) r -> point r = OnWire -> authRetry (config r) = false ->
  advances id r c (await_refresh id AwaitAfter (on_request id (on_config with_authRetry) c)).
Proof.
  intros Hr [Hok Hkey] Hp Ha. unfold await_refresh, on_request, on_world. simpl.
  rewrite (alter_insert _ _ _ _ Hr), (alter_insert _ _ _ (on_config with_authRetry r)) by apply lookup_insert_eq.
  rewrite insert_insert_eq. destruct (keeps_refresh (world c)) as (Hk & Hne & Ho). rewrite Hp, Ha in Hok.
  eexists. split_and!; try done.
  - split; simpl; [|done]. split_and!; [done|done|]. right. done.
  - unfold rank. simpl. rewrite Hp, Ha. lia.
Qed.

Lemma rejected_advances id r e c :
  table c !! id = Some r -> request_ok (world c) r ->
  (point r = OnWire \/ (exists n, point r = AwaitBefore n) /\ response_status e = None) ->
  advances id r c (on_rejected id (config r) e c).
Proof.
  intros Hr Hok Hp. unfold on_rejected.
  assert (1 < rank r) as Hrank.
  { unfold rank. destruct Hp as [Hp|[[n Hp] _]]; rewrite Hp; destruct (authRetry _); lia. }
  destruct (bool_decide _) eqn:E.
  - apply bool_decide_eq_true in E. destruct Hp as [Hp|[_ Hp]]; [|congruence].
    destruct (has_config e && negb (skipAuthRefresh (config r)) && negb (authRetry (config r))) eqn:E1.
    { breflect. by apply after_advances. }
    destruct (has_config e && authRetry (config r)); apply settle_advances; try done.
    + etrans; [|apply same_redirect]. etrans; [|apply same_expired]. apply same_world, keeps_clear.
    + apply same_expired.
  - apply settle_advances; try done. apply same_report.
Qed.

(** [c1] has the requests of [c]: advancing from it is advancing from [c]. *)
Lemma advances_same id r c c1 c2 : same_requests c c1 -> advances id r c1 c2 -> advances id r c c2.
Proof.
  intros (Hk & Ht & Hf & Hn) (r' & Ht' & Hf' & Hn' & Hk' & ? & ? & ? & ? & ?). exists r'.
  rewrite Ht', Hf', Hn', Ht, Hf, Hn. split_and!; try done. by etrans.
Qed.

Lemma resume_before_advances id r n now o c :
  table c !! id = Some r -> request_ok (world c) r -> point r = AwaitBefore n ->
  advances id r c (resume_before id (config r) now o c).
Proof.
  intros Hr Hok Hp. unfold resume_before.
  assert (forall c1 m, same_requests c c1 ->
            advances id r c (on_rejected id (config r) (createConfiguredRequestError m) c1)) as Hrej.
  { intros c1 m Hs. eapply advances_same; [exact Hs|]. destruct Hs as (Hk & Ht & _).
    apply rejected_advances; [by rewrite Ht|by eapply request_ok_keeps|]. right. eauto. }
  destruct o; [apply send_advances; eauto|by apply Hrej, same_redirect| |by apply Hrej, same_redirect].
  destruct (token_missing _ _); [by apply Hrej|apply send_advances; eauto].
Qed.

Lemma resume_after_advances id r n o c :
  table c !! id = Some r -> request_ok (world c) r -> point r = AwaitAfter n ->
  advances id r c (resume_after id (config r) o c).
Proof.
  intros Hr Hok Hp. assert (1 < rank r) as Hrank by (unfold rank; rewrite Hp; lia). unfold resume_after.
  destruct o; [|apply settle_advances; try done; etrans; [apply same_expired|apply same_redirect]
               |by apply settle_advances
               |apply settle_advances; try done; etrans; [apply same_expired|apply same_redirect]].
  destruct Hok as [Hok Hkey]. rewrite Hp in Hok. destruct Hok as (Ha & Hs & _).
  unfold on_request. rewrite (alter_insert _ _ _ _ Hr).
  destruct (with_token_fields (accessToken (auth (world c))) (config r)) as (Eu & Ep & Ea).
  eexists. split_and!; try done.
  - split; simpl; [|by rewrite Eu, Ep]. by rewrite Ea, Ha.
  - unfold rank. simpl. rewrite Hp, Ea, Ha. lia.
Qed.

Lemma apply_rotation_same body c : same_requests c (apply_rotation body c).
Proof.
  unfold apply_rotation. destruct (applyAuthRotation _ _) as [w|] eqn:E.
  - apply rotation_fields in E as (b & -> & _). apply same_world, keeps_bundle.
  - etrans; [apply same_world, keeps_clear|apply same_emit].
Qed.

Lemma fulfilled_advances id r body c :
  table c !! id = Some r -> request_ok (world c) r -> point r = OnWire ->
  advances id r c (on_fulfilled id (config r) body c).
Proof.
  intros Hr Hok Hp. apply settle_advances; [done|done|unfold rank; rewrite Hp; destruct (authRetry _); lia|].
  destruct (_ && _), (_ && _); try (etrans; [|apply same_emit]); try apply apply_rotation_same; done.
Qed.

(** ** Every event keeps the invariant and lets no request go back *)

Definition progresses (c c' : Client) : Prop :=
  client_ok c' /\
  forall id r, table c !! id = Some r ->
    exists r', table c' !! id = Some r' /\ rank r' <= rank r /\ owner r' = owner r /\ key r' = key r.

Lemma progresses_refl c : client_ok c -> progresses c c.
Proof. intros H. split; [done|]. intros id r Hr. exists r. by split_and!. Qed.

Lemma advances_progresses id r c c' :
  client_ok c -> table c !! id = Some r -> advances id r c c' -> progresses c c'.
Proof.
  intros Hc Hr Ha. split; [by eapply advances_ok|]. destruct Ha as (r' & -> & _ & _ & _ & Hkey & Ho & _ & _ & Hlt).
  intros j x Hx. destruct (decide (j = id)) as [->|Hne].
  - simplify_eq. exists r'. rewrite lookup_insert_eq. split_and!; [done|lia|done|done].
  - exists x. by rewrite lookup_insert_ne.
Qed.

Lemma same_progresses c c' : client_ok c -> same_requests c c' -> progresses c c'.
Proof.
  intros [H1 H2] (Hk & Ht & Hf & Hn). split; [split|].
  - intros id r. rewrite Ht, Hn. intros Hr. destruct (H1 id r Hr). split; [done|]. by eapply request_ok_keeps.
  - intros k id. rewrite Hf, Ht. apply H2.
  - intros id r Hr. exists r. by rewrite Ht.
Qed.

Lemma release_progresses id c r :
  client_ok c -> table c !! id = Some r -> point r = PSettled -> progresses c (release id c).
Proof.
  intros [H1 H2] Hr Hp. unfold release. rewrite Hr.
  destruct (H1 id r Hr) as [Hlt [Hs Hkey]]. rewrite Hp in Hs. unfold on_request. simpl.
  rewrite (alter_insert _ _ _ _ Hr).
  assert (forall j x, <[id := move Released r]> (table c) !! j = Some x ->
            j < fresh c /\ request_ok (world c) x) as Htab.
  { intros j x [[<- <-]|[_ Hx]]%lookup_insert_Some; [|by apply H1]. split; [done|]. by split. }
  split.
  - destruct (key r) as [k|] eqn:Ek; (split; [exact Htab|]); simpl; intros k' j Hj.
    + apply lookup_delete_Some in Hj as [Hne Hj]. destruct (H2 k' j Hj) as (x & Hx & Hkx & Hpx).
      exists x. rewrite lookup_insert_ne; [done|]. intros ->. congruence.
    + destruct (H2 k' j Hj) as (x & Hx & Hkx & Hpx). exists x. rewrite lookup_insert_ne; [done|]. intros ->. congruence.
  - intros j x Hx.
    assert (table (match key r with
       | Some k => mkClient (world c) (delete k (inFlightGet c)) (<[id:=move Released r]> (table c)) (fresh c) (pathname c) (output c)
       | None => mkClient (world c) (inFlightGet c) (<[id:=move Released r]> (table c)) (fresh c) (pathname c) (output c)
       end) = <[id:=move Released r]> (table c)) as -> by (by destruct (key r)).
    destruct (decide (j = id)) as [->|Hne].
    + simplify_eq. eexists. rewrite lookup_insert_eq. split_and!; try done. unfold rank. simpl. lia.
    + exists x. by rewrite lookup_insert_ne.
Qed.

Lemma enqueue_progresses cfg k c :
  client_ok c -> (forall x, k = Some x -> x = get_key (currentSID (world c)) (url cfg) (params cfg)) ->
  progresses c (enqueue cfg k c).
Proof.
  intros [H1 H2] Hk. assert (forall j x, table c !! j = Some x -> j <> fresh c) as Hne.
  { intros j x Hx. destruct (H1 j x Hx). lia. }
  unfold enqueue. split; [split|]; simpl.
  - intros j x [[<- <-]|[_ Hx]]%lookup_insert_Some.
    + split; [lia|]. split; simpl; [lia|done].
    + destruct (H1 j x Hx). split; [lia|done].
  - intros k' j Hj. destruct (H2 k' j Hj) as (x & Hx & ?). exists x. rewrite lookup_insert_ne; [done|].
    by apply not_eq_sym, (Hne j x).
  - intros j x Hx. exists x. rewrite lookup_insert_ne; [done|]. by apply not_eq_sym, (Hne j x).
Qed.

Lemma get_progresses cfg c : client_ok c -> progresses c (api_get cfg c).2.
Proof.
  intros Hc. unfold api_get. destruct (disableDuplicate cfg); [by apply enqueue_progresses|].
  destruct (inFlightGet c !! _) as [id|] eqn:E; [by apply progresses_refl|]. cbn [snd].
  set (k := get_key _ _ _) in *. destruct (enqueue_progresses cfg (Some k) c Hc) as [[Ho1 Ho2] Hp]; [naive_solver|].
  split; [split; [exact Ho1|]|exact Hp]. simpl. intros k' j [[<- <-]|[Hne Hj]]%lookup_insert_Some.
  - eexists. rewrite lookup_insert_eq. split_and!; [done|done|done].
  - apply (Ho2 k' j Hj).
Qed.

Lemma at_point_Some id c cfg p :
  at_point id c = Some (cfg, p) -> exists r, table c !! id = Some r /\ config r = cfg /\ point r = p.
Proof. unfold at_point. intros (r & Hr & [= -> ->])%fmap_Some. eauto. Qed.

Lemma step_progresses e c : client_ok c -> progresses c (client_step e c).
Proof.
  intros Hc. assert (forall id r, table c !! id = Some r -> request_ok (world c) r) as Hok.
  { intros id r Hr. by apply (proj1 Hc id). }
  destruct e; simpl; [by apply get_progresses|by apply enqueue_progresses| | | | | | |].
  1-6: destruct (at_point id c) as [[cfg p]|] eqn:E; [|by apply progresses_refl];
       apply at_point_Some in E as (r & Hr & Hcfg & Hp); subst cfg;
       destruct p; try (by apply progresses_refl).
  - eapply advances_progresses; [done|done|]. unfold on_start.
    destruct (needsRefresh _ _ _); [apply before_advances|apply send_advances]; eauto.
  - destruct (outcome_number n (world c)); [|by apply progresses_refl].
    eapply advances_progresses; [done|done|]. eapply resume_before_advances; eauto.
  - eapply advances_progresses; [done|done|]. apply fulfilled_advances; eauto.
  - eapply advances_progresses; [done|done|]. apply rejected_advances; eauto.
  - destruct (outcome_number n (world c)); [|by apply progresses_refl].
    eapply advances_progresses; [done|done|]. eapply resume_after_advances; eauto.
  - by eapply release_progresses.
  - apply same_progresses; [done|]. apply same_world, keeps_event.
Qed.

Lemma initial_client_ok path : client_ok (initialClient path).
Proof. split; simpl; intros ?? H; by rewrite lookup_empty in H. Qed.

Lemma run_client_ok es c : client_ok c -> client_ok (run_client es c).
Proof.
  revert c. induction es as [|e es IH]; intros c Hc; simpl; [done|]. apply IH. by apply step_progresses.
Qed.

(** ** Liveness *)

(** The next event of a request; [now] and [answer] are the environment's. *)
Definition own_event (id : nat) (p : Point) (now : spec_float) (answer : json + RequestError) : ClientEvent :=
  match p with
  | Starting => CStart id now
  | AwaitBefore _ => CResumeBefore id now
  | OnWire => match answer with inl body => CFulfilled id body | inr e => CRejected id e end
  | AwaitAfter _ => CResumeAfter id
  | PSettled | Released => CRelease id
  end.

Record Turn := mkTurn { refresh_answer : AuthRefreshHTTPResponse; clock : spec_float; transport : json + RequestError }.

(** One turn of the environment: the refresh in flight is answered, or the request
    takes its next step. *)
Definition drive (id : nat) (t : Turn) (c : Client) : Client :=
  match refreshing (world c), table c !! id with
  | Some _, _ => run_client [CAuth ELock; CAuth EDelay; CAuth (EResponse (refresh_answer t))] c
  | None, Some r => client_step (own_event id (point r) (clock t) (transport t)) c
  | None, None => c
  end.

(** A request that awaits a refresh when none is in flight can go on. *)
Lemma awaited_outcome n w : awaits_ok n w -> refreshing w = None -> is_Some (outcome_number n w).
Proof.
  unfold awaits_ok, outcome_number. intros [H|[_ H]] Hr; [|done].
  apply lookup_lt_is_Some. by rewrite length_reverse.
Qed.

Lemma own_event_advances id r c now answer :
  client_ok c -> table c !! id = Some r -> refreshing (world c) = None -> point r <> Released ->
  exists r', table (client_step (own_event id (point r) now answer) c) !! id = Some r' /\ rank r' < rank r.
Proof.
  intros Hc Hr Hn Hp. destruct (proj1 Hc id r Hr) as [_ Hok].
  assert (forall c', advances id r c c' -> exists r', table c' !! id = Some r' /\ rank r' < rank r) as Hadv.
  { intros c' (r' & -> & _ & _ & _ & _ & _ & _ & _ & Hlt). exists r'. by rewrite lookup_insert_eq. }
  assert (at_point id c = Some (config r, point r)) as Eat by (unfold at_point; by rewrite Hr).
  destruct (point r) eqn:Ep; simpl; try done.
  - rewrite Eat. apply Hadv. unfold on_start.
    destruct (needsRefresh _ _ _); [apply before_advances|apply send_advances]; eauto.
  - rewrite Eat. assert (awaits_ok n (world c)) as Ha.
    { destruct Hok as [Hok _]. rewrite Ep in Hok. apply Hok. }
    destruct (awaited_outcome n _ Ha Hn) as [o ->]. apply Hadv. by eapply resume_before_advances.
  - destruct answer; simpl; rewrite Eat; apply Hadv; [by apply fulfilled_advances|apply rejected_advances; eauto].
  - rewrite Eat. assert (awaits_ok n (world c)) as Ha.
    { destruct Hok as [Hok _]. rewrite Ep in Hok. apply Hok. }
    destruct (awaited_outcome n _ Ha Hn) as [o ->]. apply Hadv. by eapply resume_after_advances.
  - rewrite Eat. destruct (release_progresses id c r Hc Hr Ep) as [_ H].
    destruct (H id r Hr) as (r' & Hr' & _). exists r'. split; [done|]. revert Hr'. unfold release. rewrite Hr.
    unfold on_request. simpl. rewrite (alter_insert _ _ _ _ Hr).
    destruct (key r); simpl; rewrite lookup_insert_eq; intros [= <-]; unfold rank; simpl; rewrite Ep; lia.
Qed.

(** ** The client only uses the session through its events *)

Definition follows (c c' : Client) : Prop := exists es, world c' = run_events es (world c).

Lemma follows_same c c' : world c' = world c -> follows c c'.
Proof. intros H. by exists []. Qed.

Lemma follows_world e f c c' :
  world c' = world (on_world f c) -> f (world c) = apply_event e (world c) -> follows c c'.
Proof. unfold follows. intros -> H. by exists [e]. Qed.

#[export] Hint Resolve follows_same : authdb.

Lemma await_follows id p c : follows c (await_refresh id p c).
Proof. by apply (follows_world ERefresh refreshAuthentication). Qed.

Lemma rejected_follows id cfg e c : follows c (on_rejected id cfg e c).
Proof.
  unfold on_rejected. destruct (bool_decide _); [|apply follows_same; by destruct (_ && _)].
  destruct (_ && _); [apply (await_follows id AwaitAfter (on_request id (on_config with_authRetry) c))|].
  destruct (_ && authRetry cfg); [|apply follows_same; by destruct (_ && _)].
  eapply (follows_world (ESignOut false Complete)); [|reflexivity]. unfold settle, on_request. cbn [world].
  rewrite (proj1 (redirect_frame _)). by destruct (_ && _).
Qed.

Lemma step_follows e c : follows c (client_step e c).
Proof.
  destruct e; simpl.
  - unfold api_get. destruct (disableDuplicate cfg); [by apply follows_same|].
    destruct (inFlightGet c !! _); by apply follows_same.
  - by apply follows_same.
  - destruct (at_point id c) as [[cfg []]|]; try (by apply follows_same). unfold on_start.
    destruct (needsRefresh _ _ _); [apply await_follows|by apply follows_same].
  - destruct (at_point id c) as [[cfg []]|]; try (by apply follows_same).
    destruct (outcome_number n (world c)) as [o|]; [|by apply follows_same]. unfold resume_before.
    assert (follows c (on_rejected id cfg (createConfiguredRequestError "Session expired!") (redirectToSignIn c))) as Hr.
    { destruct (rejected_follows id cfg (createConfiguredRequestError "Session expired!") (redirectToSignIn c)) as [es H].
      exists es. by rewrite H, (proj1 (redirect_frame c)). }
    destruct o; try done; [by apply follows_same|].
    destruct (token_missing _ _); [apply rejected_follows|by apply follows_same].
  - destruct (at_point id c) as [[cfg []]|]; try (by apply follows_same). unfold on_fulfilled.
    assert (follows c (apply_rotation body c)) as Hr.
    { unfold apply_rotation. destruct (applyAuthRotation _ _) as [w|] eqn:E.
      - exists [ERotate (default JNull (get "data" body))]. simpl. unfold rotate_or_clear. by rewrite E.
      - by apply (follows_world (ESignOut true Complete) (clearAuthentication true Complete)). }
    destruct (_ && _), (_ && _); solve [exact Hr | by apply follows_same].
  - destruct (at_point id c) as [[cfg []]|]; try (by apply follows_same). apply rejected_follows.
  - destruct (at_point id c) as [[cfg []]|]; try (by apply follows_same).
    destruct (outcome_number n (world c)) as [[]|]; simpl; apply follows_same; try done;
      unfold settle, on_request; simpl; rewrite (proj1 (redirect_frame _)); by destruct (skipErrorHandler cfg).
  - destruct (at_point id c) as [[cfg []]|]; try (by apply follows_same). apply follows_same.
    unfold release. destruct (table c !! id) as [r|]; [|done]. by destruct (key r).
  - by exists [e].
Qed.

Lemma run_client_follows es c : follows c (run_client es c).
Proof.
  revert c. induction es as [|e es IH]; intros c; simpl; [by apply follows_same|].
  destruct (step_follows e c) as [e1 H1], (IH (client_step e c)) as [e2 H2]. exists (e1 ++ e2).
  unfold run_client in *. rewrite H2, H1. unfold run_events. by rewrite fold_left_app.
Qed.

Lemma follows_ok c c' : follows c c' -> world_ok (world c) -> world_ok (world c').
Proof. intros [es ->]. apply run_events_ok. Qed.

Lemma needed_bound w : needed w <= 8.
Proof. unfold needed. destruct (refreshing w) as [[ep [|n m s|n m]]|]; try destruct m; lia. Qed.

Lemma needed_pos w : world_ok w -> refreshing w <> None -> 0 < needed w.
Proof.
  intros [_ [_ H]] Hr. unfold needed.
  destruct (refreshing w) as [[ep [|n m s|n m]]|]; try done; destruct H as [_ H]; simpl in H; try destruct m; lia.
Qed.

(** The turns the environment still has to give. *)
Definition turns (id : nat) (c : Client) : nat :=
  match table c !! id with Some r => rank r * 9 + needed (world c) | None => 0 end.

Lemma drive_turns id t c r :
  client_ok c -> world_ok (world c) -> table c !! id = Some r -> rank r <> 0 ->
  client_ok (drive id t c) /\ world_ok (world (drive id t c)) /\ turns id (drive id t c) < turns id c /\
  is_Some (table (drive id t c) !! id).
Proof.
  intros Hc Hw Hr Hrank. unfold turns at 2. rewrite Hr. unfold drive.
  destruct (refreshing (world c)) as [p|] eqn:E.
  - set (es := [CAuth ELock; CAuth EDelay; CAuth (EResponse (refresh_answer t))]).
    assert (world (run_client es c) = answer (refresh_answer t) (world c)) as Ew by done.
    assert (table (run_client es c) = table c) as Et by done.
    split_and!; [by apply run_client_ok|by eapply follows_ok; [apply run_client_follows|]| |by rewrite Et, Hr].
    unfold turns. rewrite Et, Hr, Ew. destruct (answer_needed (refresh_answer t) (world c) Hw).
    assert (0 < needed (world c)) by (apply needed_pos; [done|by rewrite E]). lia.
  - rewrite Hr. assert (point r <> Released) as Hp by (intros H; unfold rank in Hrank; by rewrite H in Hrank).
    destruct (own_event_advances id r c (clock t) (transport t) Hc Hr E Hp) as (r' & Hr' & Hlt).
    split_and!; [by apply step_progresses|by eapply follows_ok; [apply step_follows|]| |by rewrite Hr'].
    unfold turns. rewrite Hr'. pose proof (needed_bound (world (client_step (own_event id (point r) (clock t) (transport t)) c))). lia.
Qed.

Lemma rank_released r : rank r = 0 -> point r = Released.
Proof. unfold rank. by destruct (point r), (authRetry (config r)). Qed.

Lemma drive_released id t c r :
  table c !! id = Some r -> point r = Released ->
  exists r', table (drive id t c) !! id = Some r' /\ point r' = Released.
Proof.
  intros Hr Hp. exists r. split; [|done]. unfold drive. destruct (refreshing (world c)); [done|].
  destruct (table c !! id) as [x|] eqn:E; [|done]. injection Hr as ->. rewrite Hp. simpl. unfold at_point.
  rewrite E. simpl. by rewrite Hp.
Qed.

Lemma drives_release id ts c r :
  client_ok c -> world_ok (world c) -> table c !! id = Some r -> turns id c <= length ts ->
  exists r', table (fold_left (fun c t => drive id t c) ts c) !! id = Some r' /\ point r' = Released.
Proof.
  revert c r. induction ts as [|t ts IH]; intros c r Hc Hw Hr Hl; simpl in *.
  - exists r. split; [done|]. apply rank_released. unfold turns in Hl. rewrite Hr in Hl. lia.
  - destruct (decide (rank r = 0)) as [H0|H0].
    + destruct (drive_released id t c r Hr (rank_released r H0)) as (r' & Hr' & Hp). revert Hr' Hp.
      generalize (drive id t c) as c'. clear -t. revert r'.
      induction ts as [|t' ts IH]; intros r' c' Hr' Hp; simpl; [eauto|].
      destruct (drive_released id t' c' r' Hr' Hp) as (r2 & H1 & H2). by eapply IH.
    + destruct (drive_turns id t c r Hc Hw Hr H0) as (Hc' & Hw' & Hlt & [r' Hr']).
      eapply IH; [done|done|exact Hr'|lia].
Qed.

(** ** Keys determine what is asked for

    A key ends with [?] and a JSON text.  In a JSON text a question mark is inside a
    string, where the quotes that follow are read the other way round: no JSON text
    contains [?] followed by another one. *)

Inductive Quote := Outside | Inside | Escaped.

(** The state after a unit; [None] for units that JSON only has inside strings. *)
Definition quote_step (q : Quote) (c : N) : option Quote :=
  match q with
  | Outside => if (c =? 34)%N then Some Inside else if (c =? 63)%N || (c =? 92)%N then None else Some Outside
  | Inside => if (c =? 34)%N then Some Outside else if (c =? 92)%N then Some Escaped else Some Inside
  | Escaped => Some Inside
  end.

Fixpoint quotes (q : Quote) (s : list N) : option Quote :=
  match s with [] => Some q | c :: r => quote_step q c ≫= fun q' => quotes q' r end.

Lemma quotes_app q a b : quotes q (a ++ b) = quotes q a ≫= fun q' => quotes q' b.
Proof.
  revert q. induction a as [|c a IH]; intros q; simpl; [done|]. destruct (quote_step q c); simpl; [apply IH|done].
Qed.

Definition balanced (s : list N) : Prop := quotes Outside s = Some Outside.

Lemma balanced_app a b : balanced a -> balanced b -> balanced (a ++ b).
Proof. unfold balanced. intros Ha Hb. rewrite quotes_app, Ha. exact Hb. Qed.

Lemma quotes_flip s a b :
  quotes Outside s = Some a -> quotes Inside s = Some b ->
  (a = Outside /\ b = Inside) \/ (a = Inside /\ b = Outside).
Proof.
  revert a b. induction s as [|c s IH]; intros a b; simpl; [naive_solver|].
  destruct (c =? 34)%N eqn:E1; simpl; [intros H1 H2; destruct (IH b a H2 H1); naive_solver|].
  destruct (c =? 63)%N; simpl; [done|]. destruct (c =? 92)%N; simpl; [done|]. apply IH.
Qed.

Lemma balanced_suffix x t : balanced (x ++ 63%N :: t) -> ~ balanced t.
Proof.
  unfold balanced. rewrite quotes_app. destruct (quotes Outside x) as [q|]; [|done]. simpl.
  destruct q; simpl; [done| |]; intros H1 H2; destruct (quotes_flip t _ _ H2 H1); naive_solver.
Qed.

Lemma question_split u1 t1 u2 t2 :
  balanced t1 -> balanced t2 -> u1 ++ 63%N :: t1 = u2 ++ 63%N :: t2 -> u1 = u2 /\ t1 = t2.
Proof.
  intros H1 H2 H. apply app_eq_inv in H as [(l & -> & H)|(l & -> & H)].
  - destruct l as [|x l]; simplify_eq/=; [by rewrite app_nil_r|]. by apply balanced_suffix in H2.
  - destruct l as [|x l]; simplify_eq/=; [by rewrite app_nil_r|]. by apply balanced_suffix in H1.
Qed.

(** Units of numbers, names and punctuation. *)
Definition bare (c : N) : bool := negb ((c =? 34) || (c =? 63) || (c =? 92))%N.

Lemma bare_balanced s : Forall (fun c => bare c = true) s -> balanced s.
Proof.
  unfold balanced. induction 1 as [|c s Hc _ IH]; simpl; [done|]. unfold bare in Hc. breflect.
  rewrite (proj2 (N.eqb_neq c 34)), (proj2 (N.eqb_neq c 63)), (proj2 (N.eqb_neq c 92)) by done. exact IH.
Qed.

Lemma bare_digit s : all_digits s -> Forall (fun c => bare c = true) s.
Proof.
  intros H. eapply Forall_impl; [exact H|]. intros c Hc. apply is_digit_spec in Hc. unfold bare.
  rewrite (proj2 (N.eqb_neq c 34)), (proj2 (N.eqb_neq c 63)), (proj2 (N.eqb_neq c 92)) by lia. done.
Qed.

Lemma bare_js s : forallb bare (js s) = true -> Forall (fun c => bare c = true) (js s).
Proof. intros H. apply Forall_forall. intros c Hc. apply list_elem_of_In in Hc. by apply (proj1 (forallb_forall _ _) H). Qed.

Lemma bare_zeros k : Forall (fun c => bare c = true) (zeros k).
Proof. unfold zeros. apply Forall_replicate. done. Qed.

Lemma bare_layout d n k : Forall (fun c => bare c = true) (decimal_layout d n k).
Proof.
  pose proof (bare_digit _ (dec_string_digits (Z.to_N d))) as Hd. unfold decimal_layout.
  set (ds := dec_string (Z.to_N d)) in *. clearbody ds.
  assert (Forall (fun c => bare c = true)
            (js "e" ++ (if (0 <=? n - 1)%Z then js "+" else js "-") ++ dec_string (Z.to_N (Z.abs (n - 1))))) as He.
  { repeat apply Forall_app_2; [by apply bare_js|destruct (0 <=? n - 1)%Z; by apply bare_js|].
    apply bare_digit, dec_string_digits. }
  destruct (_ && _); [apply Forall_app_2; [done|apply bare_zeros]|].
  destruct (_ && _).
  { repeat apply Forall_app_2; [by apply Forall_take|by apply bare_js|by apply Forall_drop]. }
  destruct (_ && _).
  { repeat apply Forall_app_2; [by apply bare_js|apply bare_zeros|done]. }
  cbv zeta. revert He. generalize (js "e" ++ (if (0 <=? n - 1)%Z then js "+" else js "-") ++ dec_string (Z.to_N (Z.abs (n - 1)))).
  intros exp He. destruct Hd as [|x [|y r] Hx Hr]; [constructor|constructor; done|].
  repeat apply Forall_app_2; [by constructor|by apply bare_js|done|done].
Qed.

Lemma balanced_number n : is_finite n = true -> balanced (num_to_string n).
Proof.
  intros Hn. apply bare_balanced. destruct n as [s|s| |s m e]; try done; [by apply bare_js|].
  unfold num_to_string. destruct (num_fraction m e) as [a b]. apply Forall_app_2.
  - destruct s; [by apply bare_js|constructor].
  - destruct (shortest_from _ _ _ _ _ _) as [[[d n] k]|]; [apply bare_layout|constructor].
Qed.

Lemma inside_unit c : c <> 34%N -> c <> 92%N -> quote_step Inside c = Some Inside.
Proof. intros H1 H2. simpl. by rewrite (proj2 (N.eqb_neq c 34)), (proj2 (N.eqb_neq c 92)). Qed.

Lemma inside_hex c : quote_step Inside (hex_char (c mod 16)) = Some Inside.
Proof.
  pose proof (N.mod_lt c 16 ltac:(lia)) as H. revert H. generalize (c `mod` 16)%N. intros x H.
  apply inside_unit; unfold hex_char; destruct (x <? 10)%N eqn:E; breflect; lia.
Qed.

Lemma inside_quoted c : quotes Inside (json_quote_unit c) = Some Inside.
Proof.
  unfold json_quote_unit. destruct (c =? 34)%N eqn:E1; [done|]. destruct (c =? 92)%N eqn:E2; [done|]. breflect.
  repeat (destruct (_ =? _)%N; [done|]). destruct (_ || _).
  - change (quotes Inside (hex4 c) = Some Inside). unfold hex4. cbn [quotes].
    do 4 (rewrite inside_hex; cbn [mbind option_bind]). done.
  - cbn [quotes]. by rewrite inside_unit.
Qed.

Lemma inside_units s : quotes Inside (json_quote_units s) = Some Inside.
Proof.
  induction s as [s IH] using (induction_ltof1 _ length). unfold ltof in IH.
  assert (forall c r, length r < length s -> quotes Inside (json_quote_unit c ++ json_quote_units r) = Some Inside) as Hq.
  { intros c r Hr. rewrite quotes_app, inside_quoted. by apply IH. }
  destruct s as [|c [|d s]]; [done|apply (Hq c []); simpl; lia|].
  cbn [json_quote_units]. destruct (is_high_surrogate c && is_low_surrogate d) eqn:E; [|apply (Hq c (d :: s)); simpl; lia].
  unfold is_high_surrogate, is_low_surrogate in E. breflect. cbn [quotes].
  rewrite inside_unit by lia. cbn [option_bind mbind]. rewrite inside_unit by lia. apply IH. simpl. lia.
Qed.

Lemma balanced_string s : balanced (json_string s).
Proof.
  unfold balanced, json_string. cbn [app quotes quote_step N.eqb]. simpl.
  rewrite quotes_app, inside_units. done.
Qed.

Lemma balanced_js s : forallb bare (js s) = true -> balanced (js s).
Proof. intros H. by apply bare_balanced, bare_js. Qed.

Lemma balanced_join ts : Forall balanced ts -> balanced (join (js ",") ts).
Proof.
  induction 1 as [|t ts Ht Hts IH]; [done|]. destruct ts as [|t2 ts]; [done|].
  rewrite join_cons by done. apply balanced_app; [done|]. apply balanced_app; [by apply balanced_js|done].
Qed.

Lemma balanced_json v : balanced (json_stringify v).
Proof.
  induction v as [|b|n|s|items IH|members IH] using json_ind'; cbn [json_stringify].
  - done.
  - by destruct b.
  - destruct (is_finite n) eqn:E; [by apply balanced_number|done].
  - apply balanced_string.
  - apply balanced_app; [done|]. apply balanced_app; [|done]. apply balanced_join.
    apply Forall_fmap. exact IH.
  - apply balanced_app; [done|]. apply balanced_app; [|done]. apply balanced_join.
    apply Forall_fmap. eapply Forall_impl; [exact IH|]. intros [k x] Hx. cbn [snd] in Hx. unfold compose.
    apply balanced_app; [apply balanced_string|]. apply balanced_app; [done|exact Hx].
Qed.

Lemma balanced_params p : balanced (params_text p).
Proof. unfold params_text. destruct p as [v|]; [destruct (json_truthy v); [apply balanced_json|]|]; done. Qed.

(** What the backend's session ids (random UUIDs) satisfy. *)
Definition plain_sid (s : option (list N)) : Prop :=
  match s with Some x => x <> [] /\ 58%N ∉ x /\ x <> js "anonymous" | None => True end.

#[global] Instance plain_sid_dec s : Decision (plain_sid s).
Proof. destruct s; simpl; apply _. Defined.

Lemma session_text_inj s1 s2 : plain_sid s1 -> plain_sid s2 -> session_text s1 = session_text s2 -> s1 = s2.
Proof. destruct s1 as [[|x1 s1]|], s2 as [[|x2 s2]|]; naive_solver. Qed.

Lemma session_text_colon s : plain_sid s -> 58%N ∉ session_text s.
Proof.
  destruct s as [[|x s]|]; simpl; [naive_solver|naive_solver|]. intros _.
  apply (bool_decide_unpack _). vm_compute. exact I.
Qed.

Lemma get_key_inj s1 u1 p1 s2 u2 p2 :
  plain_sid s1 -> plain_sid s2 -> get_key s1 u1 p1 = get_key s2 u2 p2 ->
  s1 = s2 /\ u1 = u2 /\ params_text p1 = params_text p2.
Proof.
  intros H1 H2 H. unfold get_key in H.
  assert (session_text s1 = session_text s2 /\ u1 ++ 63%N :: params_text p1 = u2 ++ 63%N :: params_text p2) as [Hs Hu].
  { pose proof (session_text_colon s1 H1). pose proof (session_text_colon s2 H2).
    apply app_eq_inv in H as [(l & E & H)|(l & E & H)]; destruct l as [|x l];
      try (cbn [app] in H; rewrite app_nil_r in E; rewrite E; by injection H as H).
    all: exfalso; injection H as H _; subst x; rewrite E in *; set_solver. }
  split; [by apply session_text_inj|]. apply question_split; [apply balanced_params..|done].
Qed.

(** ** Theorems *)

(** C18: A GET that joins a request in flight joins one that is not released yet and
    that was made under the session now signed in, for the same URL and the same
    parameters, provided session ids are plain (the backend's are UUIDs); and the
    same GET made again at once is not sent twice. *)
Theorem shared_get_same_session (path : list N) (es : list ClientEvent) (cfg : Config) :
  let c := run_client es (initialClient path) in
  disableDuplicate cfg = false ->
  ((api_get cfg c).1 <> fresh c ->
   exists r, table c !! (api_get cfg c).1 = Some r /\ point r <> Released /\
     (plain_sid (owner r) -> plain_sid (currentSID (world c)) ->
      owner r = currentSID (world c) /\ url (config r) = url cfg /\
      params_text (params (config r)) = params_text (params cfg))) /\
  api_get cfg (api_get cfg c).2 = api_get cfg c.
Proof.
  intros c Hd. pose proof (run_client_ok es _ (initial_client_ok path)) as Hc. fold c in Hc. clearbody c.
  unfold api_get. rewrite Hd. set (k := get_key _ _ _).
  destruct (inFlightGet c !! k) as [id|] eqn:E; cbn [fst snd].
  - split; [|unfold k in *; by rewrite E]. intros _. destruct (proj2 Hc k id E) as (r & Hr & Hk & Hp).
    exists r. split_and!; [done|done|]. intros H1 H2. destruct (proj1 Hc id r Hr) as [_ [_ Hkey]].
    apply get_key_inj; [done|done|]. symmetry. by apply Hkey.
  - split; [done|]. simpl. fold k. by rewrite lookup_insert_eq.
Qed.

(** C26: Every request goes to the network at most twice, and every request ends:
    whatever the backend answers to it and to the refreshes it waits for, 98 turns of
    the environment settle it and release its key. *)
Theorem request_settles (path : list N) (es : list ClientEvent) (id : nat) (r : Request) (ts : list Turn) :
  let c := run_client es (initialClient path) in
  table c !! id = Some r -> 98 <= length ts ->
  sends r <= 2 /\
  exists r', table (fold_left (fun c t => drive id t c) ts c) !! id = Some r' /\ point r' = Released.
Proof.
  intros c Hr Hl. pose proof (run_client_ok es _ (initial_client_ok path)) as Hc. fold c in Hc.
  assert (world_ok (world c)) as Hw by (eapply follows_ok; [apply run_client_follows|apply initial_ok]).
  split; [eapply request_sends; by apply (proj1 Hc id r)|].
  eapply drives_release; [done|done|exact Hr|]. unfold turns. rewrite Hr.
  assert (rank r <= 10) by (unfold rank; destruct (point r), (authRetry (config r)); lia).
  pose proof (needed_bound (world c)). lia.
Qed.

(** C27: Every run of the HTTP client is, for the session, a run of its own events:
    interceptors change the session only by refreshing, rotating and signing out, so
    that what holds of all reachable sessions holds under any traffic.  In
    particular token, expiry and session exist together. *)
Theorem client_refines_session (path : list N) (es : list ClientEvent) :
  exists aes, world (run_client es (initialClient path)) = run_events aes initialWorld /\
    auth_ok (auth (world (run_client es (initialClient path)))).
Proof.
  destruct (run_client_follows es (initialClient path)) as [aes H]. exists aes. split; [exact H|].
  rewrite H. apply run_events_ok, initial_ok.
Qed.

(** ** Witnesses *)

Definition sample_get (u : string) : Config := mkConfig (js u) None false false false false false false None.

Definition signed_in_get : list ClientEvent :=
  [CAuth (ESignIn (sample_login "A") true); CGet (sample_get "/api/user/self"); CStart 0 (num_of_Z 100)].

Lemma shared_get_same_session_witness :
  let c := run_client signed_in_get (initialClient (js "/")) in
  (api_get (sample_get "/api/user/self") c).1 = 0 /\
  exists r, table c !! 0 = Some r /\ owner r = Some (js "A").
Proof.
  cbv zeta. split; [vm_compute; reflexivity|].
  destruct (shared_get_same_session (js "/") signed_in_get (sample_get "/api/user/self") eq_refl) as [H _].
  destruct H as (r & Hr & _ & Hs); [vm_compute; discriminate|].
  exists r. split; [exact Hr|].
  assert (owner r = Some (js "A")) as Ho by (vm_compute in Hr; injection Hr as <-; reflexivity).
  destruct Hs as [Hs _]; [rewrite Ho; apply (bool_decide_unpack _); vm_compute; exact I
                         |apply (bool_decide_unpack _); vm_compute; exact I|exact Ho].
Defined.

(** Unauthorized twice: the request is sent twice and settles. *)
Definition unauthorized : Turn :=
  mkTurn (ok_response "A") (num_of_Z 100) (inr (mkError true (Some 401%Z) None None None)).

Lemma request_settles_witness :
  let c := run_client signed_in_get (initialClient (js "/")) in
  exists r, table c !! 0 = Some r /\ sends r <= 2 /\
  exists r', table (fold_left (fun c t => drive 0 t c) (replicate 98 unauthorized) c) !! 0 = Some r' /\
    point r' = Released.
Proof.
  cbv zeta. destruct (table (run_client signed_in_get (initialClient (js "/"))) !! 0) as [r|] eqn:E;
    [|vm_compute in E; discriminate]. exists r. split; [reflexivity|].
  apply (request_settles (js "/") signed_in_get 0 r (replicate 98 unauthorized) E). vm_compute. lia.
Defined.
