(* ===== verification/SessionSync.v ===== *)
(** * Session events between tabs (src/apps/web/src/lib/auth-session-sync.ts, routes/__root.tsx)

    A tab that signs in or out tells the others: over a broadcast channel or, where the
    browser has none, through a storage item that is written and removed.  The root
    component listens.  A browser is a list of tabs, each with its own session
    ([AuthSession]) and the messages that have not reached it yet; messages are
    delivered one at a time, to any tab, at any moment. *)
From S2P Require Import Prelude JsString JsNumber JsJson JsNumberPrint JsJsonPrint AuthSession.
From Stdlib Require Import Lia.

(** ** Events *)

Record SyncEvent := mkSync {
  ev_kind : SyncKind;
  ev_sid : list N;
  ev_source : list N;
  ev_nonce : list N;
  ev_timestamp : spec_float }.

Definition AUTH_SYNC_CHANNEL : list N := js "new-api:auth-session".
Definition AUTH_SYNC_STORAGE_KEY : list N := js "new-api:auth-session:event".

Definition kind_name (k : SyncKind) : list N :=
  match k with Authenticated => js "authenticated" | SignedOut => js "signed_out" end.

(** The object that is posted. *)
Definition event_json (e : SyncEvent) : json :=
  JObj [(js "kind", JStr (kind_name (ev_kind e))); (js "sid", JStr (ev_sid e)); (js "source", JStr (ev_source e));
        (js "nonce", JStr (ev_nonce e)); (js "timestamp", JNum (ev_timestamp e))].

Definition kind_of (s : list N) : option SyncKind :=
  if bool_decide (s = js "authenticated") then Some Authenticated
  else if bool_decide (s = js "signed_out") then Some SignedOut else None.

(** The guard, with the event it makes available. *)
Definition isAuthSessionSyncEvent (v : json) : option SyncEvent :=
  kv ← as_string (get "kind" v); k ← kind_of kv; s ← as_string (get "sid" v);
  if nonempty s then
    src ← as_string (get "source" v); n ← as_string (get "nonce" v); ts ← as_number (get "timestamp" v);
    Some (mkSync k s src n ts)
  else None.

(** ** Transport *)

(** What the browser offers: a broadcast channel, storage that can be written. *)
Record Env := mkEnv { has_channel : bool; storage_works : bool }.

Inductive Post :=
| Broadcast (v : json)
| StorageEvent (key : list N) (newValue : option (list N)).

(** What [publishAuthSessionEvent] of a tab sends; an item that cannot be written is
    given up. *)
Definition publish (env : Env) (source nonce : list N) (now : spec_float) (k : SyncKind) (s : list N) : list Post :=
  if nonempty s then
    let event := event_json (mkSync k s source nonce now) in
    if has_channel env then [Broadcast event]
    else if storage_works env then
      [StorageEvent AUTH_SYNC_STORAGE_KEY (Some (json_stringify event)); StorageEvent AUTH_SYNC_STORAGE_KEY None]
    else []
  else [].

Definition MINUTE : spec_float := num_of_Z 60000.
Definition recent (now ts : spec_float) : bool := num_ltb (num_abs (num_sub now ts)) MINUTE.

(** [deliver]: the event passed to the listener, if any. *)
Definition deliver (authSyncSource : list N) (now : spec_float) (v : json) : option SyncEvent :=
  e ← isAuthSessionSyncEvent v;
  if negb (bool_decide (ev_source e = authSyncSource)) && recent now (ev_timestamp e) then Some e else None.

Definition handleStorage (authSyncSource : list N) (now : spec_float) (key : list N) (newValue : option (list N)) : option SyncEvent :=
  match newValue with
  | Some ((_ :: _) as text) =>
      if bool_decide (key = AUTH_SYNC_STORAGE_KEY) then json_parse text ≫= deliver authSyncSource now else None
  | _ => None
  end.

(** What a subscribed tab makes of a message. *)
Definition receive (env : Env) (authSyncSource : list N) (now : spec_float) (p : Post) : option SyncEvent :=
  match p with
  | Broadcast v => if has_channel env then deliver authSyncSource now v else None
  | StorageEvent key v => if has_channel env then None else handleStorage authSyncSource now key v
  end.

(** ** The listener of the root component *)

Inductive Reaction := Stay | Reload | GoSignIn.

Definition on_sync_event (e : SyncEvent) (w : World) : World * Reaction :=
  let currentSID := currentSID w in
  match ev_kind e with
  | Authenticated =>
      if bool_decide (currentSID = Some (ev_sid e)) then (w, Stay)
      else (if present currentSID then clearAuthentication false Complete w else w, Reload)
  | SignedOut =>
      if present currentSID && bool_decide (currentSID = Some (ev_sid e))
      then (clearAuthentication false Complete w, GoSignIn) else (w, Stay)
  end.

(** ** Tabs *)

Record Tab := mkTab { tab_source : list N; tab_world : World; tab_inbox : list Post }.

(** A broadcast reaches every tab, the sender too, whose listener has a channel object of
    its own; a storage event reaches the others. *)
Definition reaches (i j : nat) (p : Post) : bool :=
  match p with Broadcast _ => true | StorageEvent _ _ => negb (i =? j)%nat end.

Definition post_all (i : nat) (ps : list Post) (tabs : list Tab) : list Tab :=
  imap (fun j t => mkTab (tab_source t) (tab_world t) (tab_inbox t ++ filter (fun p => reaches i j p = true) ps)) tabs.

(** The messages of the events a step has recorded, oldest first. *)
Definition new_posts (env : Env) (source nonce : list N) (now : spec_float) (w w' : World) : list Post :=
  concat (map (fun ks => publish env source nonce now ks.1 ks.2)
            (reverse (take (length (published w') - length (published w)) (published w')))).

(** A step of the session of tab [i]. *)
Definition tab_local (env : Env) (i : nat) (e : Event) (nonce : list N) (now : spec_float) (tabs : list Tab) : list Tab :=
  match tabs !! i with
  | Some t =>
      let w' := apply_event e (tab_world t) in
      post_all i (new_posts env (tab_source t) nonce now (tab_world t) w')
        (<[i := mkTab (tab_source t) w' (tab_inbox t)]> tabs)
  | None => tabs
  end.

(** The first message of a tab is handled; a page that reloads starts afresh, under a new
    source. *)
Definition tab_receive (env : Env) (now : spec_float) (newSource : list N) (t : Tab) : Tab :=
  match tab_inbox t with
  | [] => t
  | p :: rest =>
      match receive env (tab_source t) now p with
      | None => mkTab (tab_source t) (tab_world t) rest
      | Some e =>
          match on_sync_event e (tab_world t) with
          | (_, Reload) => mkTab newSource initialWorld []
          | (w', _) => mkTab (tab_source t) w' rest
          end
      end
  end.

Record Delivery := mkDelivery { d_tab : nat; d_now : spec_float; d_source : list N }.

Definition tab_deliver (env : Env) (tabs : list Tab) (d : Delivery) : list Tab :=
  alter (tab_receive env (d_now d) (d_source d)) (d_tab d) tabs.

Definition pending (tabs : list Tab) : nat := sum_list_with (fun t => length (tab_inbox t)) tabs.

(** ** The event that arrives is the event that was sent *)

Definition event_wf (e : SyncEvent) : bool :=
  unitsb (ev_sid e) && unitsb (ev_source e) && unitsb (ev_nonce e) && printable (ev_timestamp e) && nonempty (ev_sid e).

Lemma event_guard e : nonempty (ev_sid e) = true -> isAuthSessionSyncEvent (event_json e) = Some e.
Proof. intros H. destruct e as [[] s src n ts]; cbn in H; by destruct s. Qed.

Lemma event_json_wf e : event_wf e = true -> json_wf (event_json e) = true.
Proof.
  unfold event_wf. intros H. breflect. unfold event_json. cbn [json_wf map fst forallb].
  rewrite (bool_decide_eq_true_2 (NoDup _)) by (vm_compute; repeat constructor; rewrite ?elem_of_cons, ?elem_of_nil; naive_solver).
  cbn [andb]. rewrite !andb_true_iff. split_and!; try done. by destruct (ev_kind e).
Qed.

(** An event arrives as it was sent, and only where it should.  On a browser with a
    broadcast channel or working storage, the messages [publishAuthSessionEvent] sends
    for a session give the listener of a tab exactly that event, once, if the tab is not
    the sender and less than a minute lies between the two clocks, and nothing otherwise;
    for no session, nothing is sent. *)
Theorem sync_event_delivered env own now e :
  has_channel env || storage_works env = true -> event_wf e = true ->
  omap (receive env own now) (publish env (ev_source e) (ev_nonce e) (ev_timestamp e) (ev_kind e) (ev_sid e)) =
  if negb (bool_decide (ev_source e = own)) && recent now (ev_timestamp e) then [e] else [].
Proof.
  intros Henv Hwf. assert (nonempty (ev_sid e) = true) as Hs by (unfold event_wf in Hwf; breflect; done).
  unfold publish. rewrite Hs.
  assert (mkSync (ev_kind e) (ev_sid e) (ev_source e) (ev_nonce e) (ev_timestamp e) = e) as -> by by destruct e.
  assert (deliver own now (event_json e) = if negb (bool_decide (ev_source e = own)) && recent now (ev_timestamp e) then Some e else None) as Hd
    by (unfold deliver; by rewrite event_guard).
  destruct (has_channel env) eqn:Hc.
  - cbn. rewrite Hc, Hd. by destruct (_ && _).
  - cbn in Henv. rewrite Henv. cbn [omap list_omap receive]. rewrite Hc.
    pose proof (json_roundtrip _ (event_json_wf e Hwf)) as Hj. unfold handleStorage.
    destruct (json_stringify (event_json e)) as [|c r] eqn:E; [done|]. rewrite bool_decide_eq_true_2 by done.
    rewrite Hj. cbn [mbind option_bind]. rewrite Hd. by destruct (_ && _).
Qed.

Definition sample_event : SyncEvent := mkSync SignedOut (js "s1") (js "tab-a") (js "n1") (num_of_Z 1750000000000).

Lemma sync_event_delivered_witness :
  omap (receive (mkEnv false true) (js "tab-b") (num_of_Z 1750000030000))
    (publish (mkEnv false true) (js "tab-a") (js "n1") (num_of_Z 1750000000000) SignedOut (js "s1")) = [sample_event] /\
  omap (receive (mkEnv true false) (js "tab-a") (num_of_Z 1750000030000))
    (publish (mkEnv true false) (js "tab-a") (js "n1") (num_of_Z 1750000000000) SignedOut (js "s1")) = [].
Proof.
  split.
  - refine (eq_trans (sync_event_delivered (mkEnv false true) (js "tab-b") _ sample_event _ _) _); vm_compute; reflexivity.
  - refine (eq_trans (sync_event_delivered (mkEnv true false) (js "tab-a") _ sample_event _ _) _); vm_compute; reflexivity.
Defined.

(** ** Signing out everywhere *)

Lemma clear_sid sync b w : currentSID (clearAuthentication sync b w) = None.
Proof. unfold clearAuthentication. by destruct (sync && _); [destruct (currentSID w) as [[]|]|]. Qed.

(** The listener sends nothing, creates no session, and ends the session that was
    signed out. *)
Lemma listener_spec e w :
  let '(w', r) := on_sync_event e w in
  published w' = published w /\ (currentSID w' = currentSID w \/ currentSID w' = None) /\
  (ev_kind e = SignedOut -> ev_sid e <> [] -> currentSID w' <> Some (ev_sid e)).
Proof.
  unfold on_sync_event. destruct (ev_kind e).
  - destruct (bool_decide _); [split_and!; [done|by left|done]|]. destruct (present (currentSID w)).
    + split_and!; [done|right; apply clear_sid|done].
    + split_and!; [done|by left|done].
  - destruct (present (currentSID w)) eqn:Hp; cbn [andb].
    + destruct (bool_decide_reflect (currentSID w = Some (ev_sid e))) as [H|H].
      * split_and!; [done|right; apply clear_sid|]. intros _ _. by rewrite clear_sid.
      * by split_and!; [|left|].
    + split_and!; [done|by left|]. intros _ Hne H. rewrite H in Hp. by destruct (ev_sid e).
Qed.

(** A message that ends session [s] in a tab, when it is handled within a minute of [ts]. *)
Definition ends_session (env : Env) (own s : list N) (ts : spec_float) (p : Post) : Prop :=
  forall now, recent now ts = true -> exists e, receive env own now p = Some e /\ ev_kind e = SignedOut /\ ev_sid e = s.

(** Every tab still in session [s] has such a message to come. *)
Definition leaving (env : Env) (s : list N) (ts : spec_float) (t : Tab) : Prop :=
  currentSID (tab_world t) = Some s -> Exists (ends_session env (tab_source t) s ts) (tab_inbox t).

Lemma receive_leaving env s ts now src t : s <> [] -> recent now ts = true -> leaving env s ts t -> leaving env s ts (tab_receive env now src t).
Proof.
  intros Hs Hnow Hl. unfold tab_receive. destruct (tab_inbox t) as [|p rest] eqn:Ei; [done|]. unfold leaving in Hl. rewrite Ei in Hl.
  destruct (receive env (tab_source t) now p) as [e|] eqn:Er.
  - pose proof (listener_spec e (tab_world t)) as Hsp. destruct (on_sync_event e (tab_world t)) as [w' r]. destruct Hsp as (_ & Hc & Hso).
    assert (leaving env s ts (mkTab (tab_source t) w' rest)) as H.
    { intros Hcur. cbn in Hcur |- *. destruct Hc as [Hc|Hc]; [|congruence]. specialize (Hl ltac:(congruence)).
      apply Exists_cons in Hl as [Hp|Hl]; [|done]. destruct (Hp now Hnow) as (e' & He' & Hk & Hsid). exfalso.
      rewrite Er in He'. injection He' as <-. rewrite Hsid in Hso. by apply (Hso Hk Hs). }
    by destruct r.
  - intros Hcur. cbn in Hcur |- *. specialize (Hl Hcur). apply Exists_cons in Hl as [Hp|Hl]; [|done].
    destruct (Hp now Hnow) as (e' & He' & _). congruence.
Qed.

Lemma deliver_leaving env s ts tabs d : s <> [] -> recent (d_now d) ts = true ->
  Forall (leaving env s ts) tabs -> Forall (leaving env s ts) (tab_deliver env tabs d).
Proof. intros Hs Hd H. unfold tab_deliver. apply Forall_alter; [done|]. intros t _ Ht. by apply receive_leaving. Qed.

Lemma deliveries_leaving env s ts ds : s <> [] -> Forall (fun d => recent (d_now d) ts = true) ds ->
  forall tabs, Forall (leaving env s ts) tabs -> Forall (leaving env s ts) (fold_left (tab_deliver env) ds tabs).
Proof. intros Hs Hds. induction Hds as [|d ds Hd _ IH]; intros tabs H; [done|]. cbn. apply IH. by apply deliver_leaving. Qed.

(** A delivery takes one message and adds none. *)
Lemma receive_inbox env now src t : tab_inbox t <> [] -> (length (tab_inbox (tab_receive env now src t)) < length (tab_inbox t))%nat.
Proof.
  unfold tab_receive. destruct (tab_inbox t) as [|p rest]; [done|]. intros _. destruct (receive _ _ _ _); [|cbn; lia].
  destruct (on_sync_event _ _) as [w' []]; cbn; lia.
Qed.

Lemma deliver_pending env tabs d t : tabs !! d_tab d = Some t -> tab_inbox t <> [] -> (pending (tab_deliver env tabs d) < pending tabs)%nat.
Proof.
  intros Ht Hi. unfold pending, tab_deliver. pose proof (receive_inbox env (d_now d) (d_source d) t Hi) as Hlt.
  apply take_drop_middle in Ht as E. rewrite <- E at 2.
  assert (alter (tab_receive env (d_now d) (d_source d)) (d_tab d) tabs =
          take (d_tab d) tabs ++ tab_receive env (d_now d) (d_source d) t :: drop (S (d_tab d)) tabs) as ->.
  { rewrite <- E at 1. rewrite alter_app_r_alt; [|rewrite length_take; lia].
    apply lookup_lt_Some in Ht. rewrite length_take. by replace (d_tab d - d_tab d `min` length tabs)%nat with 0%nat by lia. }
  rewrite !sum_list_with_app. cbn. lia.
Qed.

(** The messages of a sign-out. *)
Lemma sign_out_posts env src nonce now b w s :
  currentSID w = Some s -> s <> [] ->
  new_posts env src nonce now w (clearAuthentication true b w) = publish env src nonce now SignedOut s.
Proof.
  intros Hc Hs. assert (published (clearAuthentication true b w) = (SignedOut, s) :: published w) as E.
  { unfold clearAuthentication. rewrite Hc. by destruct s. }
  unfold new_posts. rewrite E. cbn [length]. replace (S (length (published w)) - length (published w))%nat with 1%nat by lia.
  rewrite firstn_cons, take_0, reverse_singleton. apply app_nil_r.
Qed.

Lemma publish_ends env src nonce ts s own :
  has_channel env || storage_works env = true -> event_wf (mkSync SignedOut s src nonce ts) = true -> src <> own ->
  Exists (ends_session env own s ts) (publish env src nonce ts SignedOut s).
Proof.
  intros Henv Hwf Hne.
  assert (nonempty s = true) as Hs by (unfold event_wf in Hwf; cbn in Hwf; breflect; done).
  set (e := mkSync SignedOut s src nonce ts) in *. unfold publish. rewrite Hs. fold e.
  assert (forall now, recent now ts = true -> deliver own now (event_json e) = Some e) as Hd.
  { intros now Hn. unfold deliver. rewrite event_guard by done. cbn. by rewrite bool_decide_eq_false_2, Hn. }
  destruct (has_channel env) eqn:Hc.
  - apply Exists_cons. left. intros now Hn. exists e. cbn [receive]. by rewrite Hc, Hd.
  - cbn in Henv. rewrite Henv. apply Exists_cons. left. intros now Hn. exists e. cbn [receive]. rewrite Hc.
    pose proof (json_roundtrip _ (event_json_wf e Hwf)) as Hj. unfold handleStorage.
    destruct (json_stringify (event_json e)) as [|c r] eqn:E; [done|]. rewrite bool_decide_eq_true_2 by done.
    rewrite Hj. cbn [mbind option_bind]. by rewrite Hd.
Qed.

Lemma sign_out_leaving env tabs i t b nonce ts s :
  has_channel env || storage_works env = true -> tabs !! i = Some t -> currentSID (tab_world t) = Some s ->
  NoDup (tab_source <$> tabs) -> event_wf (mkSync SignedOut s (tab_source t) nonce ts) = true ->
  Forall (leaving env s ts) (tab_local env i (ESignOut true b) nonce ts tabs).
Proof.
  intros Henv Ht Hc Hnd Hwf. unfold tab_local. rewrite Ht.
  assert (s <> []) as Hs by (intros ->; unfold event_wf in Hwf; cbn in Hwf; by rewrite andb_false_r in Hwf).
  change (apply_event (ESignOut true b) (tab_world t)) with (clearAuthentication true b (tab_world t)).
  rewrite (sign_out_posts _ _ _ _ _ _ s Hc Hs).
  apply Forall_lookup_2. intros j t' Hj. unfold post_all in Hj. rewrite list_lookup_imap in Hj.
  destruct (decide (i = j)) as [->|Hij].
  - rewrite list_lookup_insert_eq in Hj by by eapply lookup_lt_Some. injection Hj as <-. intros H. cbn in H. by rewrite clear_sid in H.
  - rewrite list_lookup_insert_ne in Hj by done. destruct (tabs !! j) as [tj|] eqn:Ej; [|done]. injection Hj as <-. intros _. cbn.
    apply Exists_app. right. rewrite filter_all.
    + apply publish_ends; [done|done|]. intros E. apply Hij. eapply (NoDup_lookup _ i j (tab_source t) Hnd).
      * by rewrite list_lookup_fmap, Ht.
      * rewrite list_lookup_fmap, Ej. cbn. by rewrite E.
    + apply Forall_forall. intros [v|key v] _; [done|]. cbn. apply negb_true_iff. by apply Nat.eqb_neq.
Qed.

Lemma no_pending tabs : pending tabs = 0%nat -> Forall (fun t => tab_inbox t = []) tabs.
Proof.
  unfold pending. induction tabs as [|t tabs IH]; intros H; [constructor|]. cbn in H. constructor; [|apply IH; lia].
  apply nil_length_inv. lia.
Qed.

(** C25: A sign-out reaches every tab.  When a tab ends its session and tells the others, and
    the messages are handled in any order, each within a minute of it on the clock of its
    tab, then no tab is in that session once no message is left; and until then every
    message handled leaves fewer of them, since no listener answers: tabs do not echo
    each other's events. *)
Theorem sign_out_reaches_every_tab env tabs i t b nonce ts ds s :
  has_channel env || storage_works env = true -> tabs !! i = Some t -> currentSID (tab_world t) = Some s ->
  NoDup (tab_source <$> tabs) -> event_wf (mkSync SignedOut s (tab_source t) nonce ts) = true ->
  Forall (fun d => recent (d_now d) ts = true) ds ->
  let tabs' := fold_left (tab_deliver env) ds (tab_local env i (ESignOut true b) nonce ts tabs) in
  (pending tabs' = 0%nat -> Forall (fun t => currentSID (tab_world t) <> Some s) tabs') /\
  (forall d t', tabs' !! d_tab d = Some t' -> tab_inbox t' <> [] -> (pending (tab_deliver env tabs' d) < pending tabs')%nat).
Proof.
  intros Henv Ht Hc Hnd Hwf Hds tabs'. split; [|intros d t' H1 H2; by eapply deliver_pending].
  assert (s <> []) as Hs by (intros ->; unfold event_wf in Hwf; cbn in Hwf; by rewrite andb_false_r in Hwf).
  assert (Forall (leaving env s ts) tabs') as Hl.
  { apply deliveries_leaving; [done|done|]. by eapply sign_out_leaving. }
  intros Hp%no_pending. apply Forall_forall. intros x Hx Hcur.
  pose proof (proj1 (Forall_forall _ _) Hl x Hx Hcur) as He. rewrite (proj1 (Forall_forall _ _) Hp x Hx) in He. by apply Exists_nil in He.
Qed.

(** Two tabs of one session, and one of another. *)
Definition session_world (s : string) : World :=
  with_auth (setBundle (mkBundle (js "t") (js "Bearer") (num_of_Z 1750003600)
    (JObj []) (mkSession (js s) true (js "password") [] [] num_zero num_zero num_zero))) initialWorld.
Definition sample_tabs : list Tab :=
  [mkTab (js "a") (session_world "s1") []; mkTab (js "b") (session_world "s1") []; mkTab (js "c") (session_world "s2") []].
Definition sample_deliveries : list Delivery :=
  [mkDelivery 1 (num_of_Z 1750000000020) (js "d"); mkDelivery 0 (num_of_Z 1750000000030) (js "e"); mkDelivery 2 (num_of_Z 1750000000030) (js "f")].

Lemma sign_out_reaches_every_tab_witness :
  let tabs' := fold_left (tab_deliver (mkEnv true true)) sample_deliveries
                 (tab_local (mkEnv true true) 0 (ESignOut true Complete) (js "n") (num_of_Z 1750000000000) sample_tabs) in
  Forall (fun t => currentSID (tab_world t) <> Some (js "s1")) tabs' /\ (currentSID ∘ tab_world) <$> tabs' = [None; None; Some (js "s2")].
Proof.
  split.
  - apply (sign_out_reaches_every_tab (mkEnv true true) sample_tabs 0 (mkTab (js "a") (session_world "s1") [])).
    + reflexivity.
    + reflexivity.
    + reflexivity.
    + apply (bool_decide_eq_true_1 (NoDup (tab_source <$> sample_tabs))). vm_compute. reflexivity.
    + vm_compute. reflexivity.
    + repeat constructor.
    + vm_compute. reflexivity.
  - vm_compute. reflexivity.
Defined.
