(* ===== verification/JsCollections.v ===== *)
(** * [Array.prototype.sort] and [Map] with insertion order

    The stable sort by a comparator that returns a number, the values of a [Map] filled
    from a list (a repeated key keeps its first place and takes the last value), those
    of a [Set], and the order in which an object lists its properties. *)
From S2P Require Import Prelude JsString.
From Stdlib Require Import Lia Sorted.

(** ** Stable sort *)

Section Sort.
Context {A : Type} (cmp : A -> A -> Z).

Fixpoint insert_by (x : A) (l : list A) : list A :=
  match l with
  | [] => [x]
  | h :: l' => if (cmp x h <=? 0)%Z then x :: l else h :: insert_by x l'
  end.

Definition sort_by (l : list A) : list A := foldr insert_by [] l.

Definition cmp_le (a b : A) : Prop := (cmp a b <= 0)%Z.

Lemma insert_by_perm x l : insert_by x l ≡ₚ x :: l.
Proof.
  induction l as [|h l IH]; simpl; [done|]. destruct (_ <=? _)%Z; [done|]. by rewrite IH, Permutation_swap.
Qed.

Lemma sort_by_perm l : sort_by l ≡ₚ l.
Proof. induction l as [|x l IH]; simpl; [done|]. by rewrite insert_by_perm, IH. Qed.

Context (cmp_total : forall a b, cmp_le a b \/ cmp_le b a).
Context (cmp_trans : forall a b c, cmp_le a b -> cmp_le b c -> cmp_le a c).

Lemma insert_by_sorted x l : StronglySorted cmp_le l -> StronglySorted cmp_le (insert_by x l).
Proof.
  induction 1 as [|h l Hl IH Hh]; simpl; [repeat constructor|].
  destruct (cmp x h <=? 0)%Z eqn:E; breflect.
  - constructor; [by constructor|]. constructor; [done|].
    eapply Forall_impl; [exact Hh|]. intros y Hy. by eapply cmp_trans.
  - constructor; [done|]. rewrite insert_by_perm. constructor; [|done].
    destruct (cmp_total h x) as [H|H]; [done|]. unfold cmp_le in H. lia.
Qed.

Lemma sort_by_sorted l : StronglySorted cmp_le (sort_by l).
Proof. induction l; simpl; [constructor|by apply insert_by_sorted]. Qed.

End Sort.

(** ** Values of a map *)

Section Keyed.
Context {A K : Type} `{EqDecision K} (key : A -> K).

(** [map.set(key(x), x)] on the values in insertion order. *)
Fixpoint map_put (x : A) (l : list A) : list A :=
  match l with
  | [] => [x]
  | h :: l' => if bool_decide (key h = key x) then x :: l' else h :: map_put x l'
  end.

(** [[...new Map(l.map((x) => [key(x), x])).values()]] *)
Definition map_values (l : list A) : list A := fold_left (fun m x => map_put x m) l [].

(** The value a map filled from [l] has at [k]: the last one. *)
Fixpoint last_at (k : K) (l : list A) : option A :=
  match l with
  | [] => None
  | x :: l' => match last_at k l' with
               | Some y => Some y
               | None => if bool_decide (key x = k) then Some x else None
               end
  end.

Lemma last_at_app k a b : last_at k (a ++ b) = match last_at k b with Some y => Some y | None => last_at k a end.
Proof.
  induction a as [|x a IH]; simpl; [by destruct (last_at k b)|]. rewrite IH. by destruct (last_at k b).
Qed.

Lemma last_at_Some k l x : last_at k l = Some x -> x ∈ l /\ key x = k.
Proof.
  induction l as [|y l IH]; simpl; [done|]. destruct (last_at k l) as [z|].
  - intros [= ->]. destruct (IH eq_refl). split; [by right|done].
  - case_bool_decide; [|done]. intros [= ->]. split; [left|done].
Qed.

Lemma last_at_None k l : last_at k l = None <-> k ∉ map key l.
Proof.
  induction l as [|y l IH]; simpl; [split; [intros _; apply not_elem_of_nil|done]|].
  rewrite not_elem_of_cons. destruct (last_at k l) as [z|].
  - split; [done|]. intros [_ H]. by apply IH in H.
  - case_bool_decide; naive_solver.
Qed.

(** In a list with distinct keys every element is the one at its key. *)
Lemma last_at_NoDup l x : NoDup (map key l) -> x ∈ l -> last_at (key x) l = Some x.
Proof.
  induction l as [|y l IH]; simpl; [by intros _ H%not_elem_of_nil|].
  intros [Hy Hn]%NoDup_cons [->|Hx]%elem_of_cons.
  - rewrite (proj2 (last_at_None (key y) l) Hy). by rewrite bool_decide_eq_true_2.
  - by rewrite IH.
Qed.

Lemma map_put_keys x l : NoDup (map key l) -> NoDup (map key (map_put x l)) /\
  forall k, k ∈ map key (map_put x l) <-> k = key x \/ k ∈ map key l.
Proof.
  induction l as [|h l IH]; simpl.
  - intros _. split; [apply NoDup_singleton|]. intros k. rewrite elem_of_cons. done.
  - intros [Hh Hl]%NoDup_cons. destruct (IH Hl) as [IH1 IH2]. case_bool_decide as E; simpl.
    + rewrite <- E. split; [by constructor|]. intros k. rewrite elem_of_cons. naive_solver.
    + split.
      * constructor; [|done]. rewrite IH2. naive_solver.
      * intros k. rewrite !elem_of_cons, IH2. naive_solver.
Qed.

Lemma map_put_last k x l :
  NoDup (map key l) -> last_at k (map_put x l) = if bool_decide (key x = k) then Some x else last_at k l.
Proof.
  induction l as [|h l IH]; simpl; [done|]. intros [Hh Hl]%NoDup_cons. specialize (IH Hl).
  destruct (bool_decide (key h = key x)) eqn:E.
  - apply bool_decide_eq_true in E. simpl. case_bool_decide as Ek.
    + rewrite (proj2 (last_at_None k l)); [done|]. congruence.
    + destruct (last_at k l); [done|]. rewrite bool_decide_eq_false_2; [done|congruence].
  - apply bool_decide_eq_false in E. simpl. rewrite IH. case_bool_decide as Ek; [|done]. done.
Qed.

Lemma map_values_spec l :
  NoDup (map key (map_values l)) /\ forall k, last_at k (map_values l) = last_at k l.
Proof.
  unfold map_values. induction l as [|x l IH] using rev_ind; simpl; [split; [constructor|done]|].
  rewrite fold_left_app. simpl. destruct IH as [IH1 IH2]. split.
  - by apply map_put_keys.
  - intros k. rewrite map_put_last, last_at_app by done. simpl. rewrite IH2. by case_bool_decide.
Qed.

Lemma elem_of_map_values l x : x ∈ map_values l <-> last_at (key x) l = Some x.
Proof.
  destruct (map_values_spec l) as [H1 H2]. split.
  - intros Hx. rewrite <- H2. by apply last_at_NoDup.
  - rewrite <- H2. intros H. by apply last_at_Some in H as [H _].
Qed.

Lemma map_values_NoDup l : NoDup (map key l) -> map_values l = l.
Proof.
  unfold map_values. induction l as [|x l IH] using rev_ind; [done|]. rewrite map_app. intros Hn.
  apply NoDup_app in Hn as (Hl & Hd & _). rewrite fold_left_app. simpl. rewrite IH by done.
  assert (key x ∉ map key l) as Hx by (intros H; apply (Hd _ H); simpl; left).
  clear -Hx. induction l as [|h l IH]; simpl; [done|]. simpl in Hx. apply not_elem_of_cons in Hx as [Hn Hx].
  rewrite bool_decide_eq_false_2 by congruence. by rewrite IH.
Qed.

End Keyed.

(** ** Sets *)

(** [[...new Set(l)]] *)
Definition set_values {A} `{EqDecision A} (l : list A) : list A := map_values (fun x => x) l.

Lemma elem_of_set_values {A} `{EqDecision A} (l : list A) x : x ∈ set_values l <-> x ∈ l.
Proof.
  unfold set_values. rewrite elem_of_map_values. split.
  - by intros [H _]%last_at_Some.
  - intros Hx. destruct (last_at (fun y => y) x l) as [y|] eqn:E.
    + by apply last_at_Some in E as [_ ->].
    + apply last_at_None in E. by rewrite map_id in E.
Qed.

Lemma set_values_NoDup {A} `{EqDecision A} (l : list A) : NoDup (set_values l).
Proof. destruct (map_values_spec (fun x => x) l) as [H _]. by rewrite map_id in H. Qed.

Lemma set_values_id {A} `{EqDecision A} (l : list A) : NoDup l -> set_values l = l.
Proof. intros H. apply map_values_NoDup. by rewrite map_id. Qed.

Lemma set_values_snoc {A} `{EqDecision A} (l : list A) x :
  set_values (l ++ [x]) = if decide (x ∈ l) then set_values l else set_values l ++ [x].
Proof.
  assert (forall m : list A, map_put (fun y => y) x m = if decide (x ∈ m) then m else m ++ [x]) as Hput.
  { induction m as [|h m IH]; [done|]. cbn [map_put]. case_bool_decide as E.
    - subst. by rewrite decide_True by left.
    - rewrite IH. destruct (decide (x ∈ m)).
      + by rewrite decide_True by (by right).
      + rewrite decide_False; [done|]. by rewrite not_elem_of_cons. }
  unfold set_values at 1, map_values. rewrite fold_left_app. cbn [fold_left]. rewrite Hput.
  fold (map_values (fun y : A => y) l). fold (set_values l).
  destruct (decide (x ∈ l)) as [H|H]; [by rewrite decide_True by (by apply elem_of_set_values)|].
  rewrite decide_False; [done|]. by rewrite elem_of_set_values.
Qed.

(** ** Grouping *)

(** A loop that keeps one row per key in the order of the first elements: a new row for a
    new key, then the element is added to its row.  The row object is shared between a
    [Map] by key and the result, so that it is updated in place. *)
Section Grouping.
Context {A R K : Type} `{EqDecision K} (key : A -> K) (row_key : R -> K) (new_row : A -> R) (add : A -> R -> R).

Fixpoint group_place (a : A) (rows : list R) : list R :=
  match rows with
  | [] => [add a (new_row a)]
  | r :: rest => if bool_decide (row_key r = key a) then add a r :: rest else r :: group_place a rest
  end.

Definition group_rows (l : list A) : list R := fold_left (fun rows a => group_place a rows) l [].

Definition add_all (l : list A) (r : R) : R := fold_left (fun r a => add a r) l r.

Context (add_key : forall a r, row_key (add a r) = row_key r) (new_key : forall a, row_key (new_row a) = key a).

Lemma group_place_keys a rows :
  map row_key (group_place a rows) = if decide (key a ∈ map row_key rows) then map row_key rows else map row_key rows ++ [key a].
Proof.
  induction rows as [|r rows IH]; cbn [group_place map].
  { rewrite decide_False by apply not_elem_of_nil. cbn. by rewrite add_key, new_key. }
  case_bool_decide as E; cbn [map].
  - rewrite add_key, E. by rewrite decide_True by left.
  - rewrite IH. destruct (decide (key a ∈ map row_key rows)).
    + by rewrite decide_True by (by right).
    + rewrite decide_False; [done|]. by rewrite not_elem_of_cons.
Qed.

Lemma elem_of_group_place a rows r :
  NoDup (map row_key rows) -> r ∈ group_place a rows ->
  (r ∈ rows /\ row_key r <> key a) \/
  (exists r0, r0 ∈ rows /\ row_key r0 = key a /\ r = add a r0) \/
  (key a ∉ map row_key rows /\ r = add a (new_row a)).
Proof.
  induction rows as [|h rows IH]; cbn [group_place map].
  - intros _ ->%list_elem_of_singleton. right. right. split; [apply not_elem_of_nil|done].
  - intros [Hh Hn]%NoDup_cons. case_bool_decide as E.
    + intros [->|Hr]%elem_of_cons; [right; left; exists h; split; [left|done]|left]. split; [by right|].
      intros Ht. apply Hh. rewrite E, <- Ht. apply list_elem_of_In, in_map. by apply list_elem_of_In.
    + intros [->|Hr]%elem_of_cons; [left; split; [left|done]|]. destruct (IH Hn Hr) as [[? ?]|[(r0 & ? & ? & ?)|[? ?]]].
      * left. split; [by right|done].
      * right. left. exists r0. split; [by right|done].
      * right. right. split; [by rewrite not_elem_of_cons|done].
Qed.

Lemma add_all_key l r : row_key (add_all l r) = row_key r.
Proof. revert r. induction l as [|a l IH]; intros r; [done|]. unfold add_all in *. cbn [fold_left]. by rewrite IH. Qed.

(** Grouping is filtering: the row of a key is the new row with the elements of the key. *)
Lemma group_rows_spec l :
  map row_key (group_rows l) = set_values (map key l) /\
  forall r, r ∈ group_rows l ->
    exists a rest, filter (fun x => key x = row_key r) l = a :: rest /\ r = add_all (a :: rest) (new_row a).
Proof.
  induction l as [|a l [IHk IHb]] using rev_ind; [split; [done|by intros r []%not_elem_of_nil]|].
  unfold group_rows in *. rewrite fold_left_app. cbn [fold_left].
  set (rows := fold_left (fun rows a => group_place a rows) l []) in *. split.
  - rewrite group_place_keys, map_app. cbn [map]. rewrite set_values_snoc, IHk.
    destruct (decide (key a ∈ map key l)).
    + by rewrite decide_True by (by apply elem_of_set_values).
    + rewrite decide_False; [done|]. by rewrite elem_of_set_values.
  - intros r Hr. apply elem_of_group_place in Hr; [|rewrite IHk; apply set_values_NoDup].
    destruct Hr as [[Hr Hk]|[(r0 & Hr0 & Hk & ->)|[Hk ->]]].
    + destruct (IHb r Hr) as (x & rest & Hf & Hb). exists x, rest.
      by rewrite filter_app, filter_cons_False, filter_nil, app_nil_r by (by intros ?).
    + destruct (IHb r0 Hr0) as (x & rest & Hf & Hb). exists x, (rest ++ [a]). rewrite add_key. split.
      * by rewrite filter_app, filter_cons_True, filter_nil, Hf by done.
      * change (x :: rest ++ [a]) with ((x :: rest) ++ [a]). unfold add_all. rewrite fold_left_app. by rewrite Hb at 1.
    + exists a, []. rewrite add_key, new_key. split; [|done]. rewrite filter_app, filter_cons_True, filter_nil by done.
      rewrite filter_none; [done|]. rewrite Forall_forall. intros y Hy Hy2. apply Hk. rewrite IHk, elem_of_set_values, <- Hy2.
      apply list_elem_of_In, in_map. by apply list_elem_of_In.
Qed.

End Grouping.

(** ** Properties of an object *)

(** The number of a property name that is an array index: canonical, below 2^32 - 1. *)
Definition array_index (k : list N) : option N :=
  if nonempty k && forallb is_digit k && bool_decide (k = dec_string (dec_value k)) && (dec_value k <? 4294967295)%N
  then Some (dec_value k) else None.

(** [Object.entries]: array indices in ascending order, then the other names in the order
    of their creation. *)
Definition object_entries {A} (members : list (list N * A)) : list (list N * A) :=
  let index kv := array_index kv.1 in
  sort_by (fun a b => Z.of_N (default 0%N (index a)) - Z.of_N (default 0%N (index b)))%Z
    (filter (fun kv => is_Some (index kv)) members) ++
  filter (fun kv => index kv = None) members.

Lemma object_entries_perm {A} (members : list (list N * A)) : object_entries members ≡ₚ members.
Proof.
  unfold object_entries. rewrite sort_by_perm. induction members as [|kv l IH]; [done|].
  rewrite !filter_cons. destruct (array_index kv.1) as [n|] eqn:E.
  - rewrite decide_True by done. rewrite decide_False by done. simpl. by rewrite IH.
  - rewrite decide_False by (by intros []). rewrite decide_True by done. by rewrite <- Permutation_middle, IH.
Qed.

Lemma elem_of_object_entries {A} (members : list (list N * A)) kv : kv ∈ object_entries members <-> kv ∈ members.
Proof. by rewrite object_entries_perm. Qed.

Example object_entries_order :
  (object_entries [(js "b", 1); (js "10", 2); (js "a", 3); (js "9", 4); (js "01", 5)]).*2 = [4; 2; 1; 3; 5].
Proof. by vm_compute. Qed.
