(* ===== verification/JsJsonPretty.v ===== *)
(** * [JSON.stringify(value, null, 2)]

    Settings that administrators edit as texts are written with an indentation of two
    spaces.  This file prints values that way and proves that well-formed ones are read
    back by [JSON.parse]. *)
From S2P Require Import Prelude JsString JsNumber BillingLexer JsJson JsNumberPrint JsJsonPrint.
From Stdlib Require Import Lia.

Notation NL := (10%N) (only parsing).

(** [ind] is the indentation of the line the value starts on. *)
Fixpoint pretty_at (ind : list N) (v : json) : list N :=
  let deeper := ind ++ js "  " in
  match v with
  | JArr ((_ :: _) as items) =>
      js "[" ++ NL :: deeper ++ join (44%N :: NL :: deeper) (map (pretty_at deeper) items) ++ NL :: ind ++ js "]"
  | JObj ((_ :: _) as members) =>
      js "{" ++ NL :: deeper
        ++ join (44%N :: NL :: deeper) (map (fun m => let '(k, x) := m in json_string k ++ js ": " ++ pretty_at deeper x) members)
        ++ NL :: ind ++ js "}"
  | v => json_stringify v
  end.

Definition json_pretty (v : json) : list N := pretty_at [] v.

Example pretty_example :
  json_pretty (JObj [(js "a", JArr [JNum (num_of_Z 1); JBool true]); (js "b", JObj []); (js "c", JStr (js "x"))]) =
  js "{" ++ NL :: js "  " ++ json_string (js "a") ++ js ": [" ++ NL :: js "    1," ++ NL :: js "    true" ++ NL :: js "  ]," ++
  NL :: js "  " ++ json_string (js "b") ++ js ": {}," ++ NL :: js "  " ++ json_string (js "c") ++ js ": " ++ json_string (js "x") ++ NL :: js "}".
Proof. by vm_compute. Qed.

(** ** Blanks *)

Notation blanks := (Forall (fun c => is_blank c = true)).

Lemma skip_blanks b s : blanks b -> skip_blank (b ++ s) = skip_blank s.
Proof. unfold skip_blank. induction 1 as [|c b Hc Hb IH]; [done|]. cbn [app drop_while]. by rewrite Hc. Qed.

Lemma value_blanks f b s : blanks b -> json_value f (b ++ s) = json_value f s.
Proof. intros Hb. destruct f; [done|]. cbn [json_value]. by rewrite skip_blanks. Qed.

Lemma items_blanks f b s : blanks b -> json_items f (b ++ s) = json_items f s.
Proof. intros Hb. destruct f; [done|]. cbn [json_items]. by rewrite value_blanks. Qed.

Lemma members_blanks f b s : blanks b -> json_members f (b ++ s) = json_members f s.
Proof. intros Hb. destruct f; [done|]. cbn [json_members]. by rewrite skip_blanks. Qed.

Lemma deeper_blanks ind : blanks ind -> blanks (NL :: ind ++ js "  ").
Proof. intros H. constructor; [done|]. apply Forall_app. split; [done|]. by repeat constructor. Qed.

(** The text after a value: what ended it before, or the end of its line. *)
Definition ends (k : list N) : Prop := closes k \/ exists r, k = NL :: r.

Lemma line_end_stops k : ends k -> stops k.
Proof. intros [H|[r ->]]; [by apply text_closes_stops|done]. Qed.

Definition reads_pretty (v : json) : Prop := forall ind f k,
  blanks ind -> length (pretty_at ind v) < f -> ends k -> json_value f (pretty_at ind v ++ k) = Some (v, k).

(** ** Lists *)

Section Lists.
Context (deeper tail : list N) (Hd : blanks (NL :: deeper)) (Ht : blanks (NL :: tail)).

Lemma pretty_items items f k :
  Forall reads_pretty items -> items <> [] ->
  length (join (44%N :: NL :: deeper) (map (pretty_at deeper) items)) + 1 < f ->
  json_items f (join (44%N :: NL :: deeper) (map (pretty_at deeper) items) ++ (NL :: tail) ++ 93%N :: k) = Some (items, k).
Proof.
  assert (blanks deeper) as Hd' by (by inversion Hd).
  intros H. revert f. induction H as [|v items Hv Hitems IH]; intros f Hne Hf; [done|].
  destruct f as [|f]; [lia|]. cbn [map] in *. destruct Hitems as [|w items Hw Hitems].
  - cbn [map join] in *. cbn [json_items]. rewrite Hv; [|done|lia|by right; eexists].
    rewrite (skip_blanks (NL :: tail)) by done. by rewrite skip_blank_head.
  - rewrite join_cons in * by done. rewrite !length_app in Hf. cbn [json_items].
    rewrite <- !app_assoc. rewrite Hv; [|done|simpl in *; lia|by left; left].
    cbn [app]. rewrite skip_blank_head by done. rewrite N.eqb_refl. change (10%N :: deeper ++ ?s) with ((10%N :: deeper) ++ s).
    rewrite items_blanks by done. change (10%N :: tail ++ 93%N :: k) with ((10%N :: tail) ++ 93%N :: k).
    rewrite IH by (done || simpl in *; lia). done.
Qed.

Definition pretty_member (m : list N * json) : list N := json_string m.1 ++ js ": " ++ pretty_at deeper m.2.

Lemma pretty_members members f k :
  Forall (fun m => unitsb m.1 = true /\ reads_pretty m.2) members -> members <> [] ->
  length (join (44%N :: NL :: deeper) (map pretty_member members)) + 1 < f ->
  json_members f (join (44%N :: NL :: deeper) (map pretty_member members) ++ (NL :: tail) ++ 125%N :: k) = Some (members, k).
Proof.
  assert (blanks deeper) as Hd' by (by inversion Hd).
  intros H. revert f. induction H as [|[key v] members (Hu & Hv) Hms IH]; intros f Hne Hf; [done|].
  simpl in Hu, Hv. destruct f as [|f]; [lia|].
  assert (forall rest, json_members (S f) (pretty_member (key, v) ++ rest) =
    match json_value f (pretty_at deeper v ++ rest) with
    | None => None
    | Some (x, r3) => match skip_blank r3 with
                      | c :: r4 => if (c =? 44)%N then prod_map (cons (key, x)) id <$> json_members f r4
                                   else if (c =? 125)%N then Some ([(key, x)], r4) else None
                      | [] => None
                      end
    end) as Hstep.
  { intros rest. unfold pretty_member, json_string. simpl fst. simpl snd. rewrite <- !app_assoc. cbn [app json_members].
    rewrite skip_blank_head by done. simpl (negb _). cbv iota.
    rewrite json_string_body_units by by apply unitsb_units.
    change (js ": " ++ pretty_at deeper v ++ rest) with (58%N :: [32%N] ++ (pretty_at deeper v ++ rest)).
    rewrite skip_blank_head by done. rewrite N.eqb_refl. cbn [negb]. rewrite value_blanks by (by repeat constructor). done. }
  cbn [map] in *. destruct Hms as [|m members Hm Hms].
  - cbn [map join] in *. rewrite Hstep. unfold pretty_member in Hf. rewrite !length_app in Hf.
    rewrite Hv; [|done|simpl in *; lia|by right; eexists]. rewrite (skip_blanks (NL :: tail)) by done. by rewrite skip_blank_head.
  - rewrite join_cons in * by done. rewrite <- !app_assoc, Hstep.
    rewrite !length_app in Hf. unfold pretty_member in Hf at 1. rewrite !length_app in Hf.
    rewrite Hv; [|done|simpl in *; lia|by left; left].
    cbn [app]. rewrite skip_blank_head by done. rewrite N.eqb_refl. change (10%N :: deeper ++ ?s) with ((10%N :: deeper) ++ s).
    rewrite members_blanks by done. change (10%N :: tail ++ 125%N :: k) with ((10%N :: tail) ++ 125%N :: k).
    rewrite IH by (done || simpl in *; lia). done.
Qed.

End Lists.

(** ** The round trip *)

Lemma pretty_number n : printable n = true -> reads_pretty (JNum n).
Proof.
  intros Hn ind f k _ Hf Hk. cbn [pretty_at json_stringify] in *. rewrite printable_finite in * by done.
  destruct f as [|f]; [lia|]. pose proof (json_number_print n k Hn (line_end_stops k Hk)) as H.
  destruct (num_to_string_head n Hn) as (c & r & E & Hc). rewrite E in *. cbn [app] in *.
  apply json_number_value; [|done|done].
  unfold is_blank. destruct Hc as [Hc%is_digit_spec| ->]; [|done].
  by rewrite (proj2 (N.eqb_neq c 32)), (proj2 (N.eqb_neq c 9)), (proj2 (N.eqb_neq c 10)), (proj2 (N.eqb_neq c 13)) by lia.
Qed.

Lemma pretty_string s : unitsb s = true -> reads_pretty (JStr s).
Proof.
  intros Hs ind f k _ Hf Hk. destruct f as [|f]; [lia|]. cbn [pretty_at json_stringify].
  change (json_value (S f) (json_string s ++ k)) with
    (prod_map JStr id <$> json_string_body ((json_quote_units s ++ [34%N]) ++ k)).
  rewrite <- app_assoc. cbn [app]. by rewrite json_string_body_units by by apply unitsb_units.
Qed.

(** The text of a list or object that is not empty: a bracket, a line, no bracket. *)
Lemma bracket_line f b s d r :
  blanks b -> is_blank d = false ->
  (d <> 93%N -> json_value (S f) (91%N :: b ++ d :: r ++ s) = prod_map JArr id <$> json_items f (d :: r ++ s)) /\
  (d <> 125%N -> json_value (S f) (123%N :: b ++ d :: r ++ s) =
     prod_map (fun ms => JObj (fold_left (fun l kv => set_member kv.1 kv.2 l) ms [])) id <$> json_members f (d :: r ++ s)).
Proof.
  intros Hb Hd. split; intros Hne.
  - cbn [json_value]. rewrite skip_blank_head by done. simpl (91 =? 34)%N. simpl (91 =? 91)%N. cbv iota.
    rewrite skip_blanks, skip_blank_head by done. rewrite (proj2 (N.eqb_neq d 93)) by done. by rewrite items_blanks.
  - cbn [json_value]. rewrite skip_blank_head by done. simpl (123 =? 34)%N. simpl (123 =? 91)%N. simpl (123 =? 123)%N. cbv iota.
    rewrite skip_blanks, skip_blank_head by done. rewrite (proj2 (N.eqb_neq d 125)) by done. by rewrite members_blanks.
Qed.

Lemma bracket_text (o e : N) (d x b k : list N) :
  ([o] ++ NL :: d ++ x ++ NL :: b ++ [e]) ++ k = o :: (NL :: d) ++ x ++ (NL :: b) ++ e :: k.
Proof. cbn [app]. do 2 f_equal. rewrite <- app_assoc. f_equal. rewrite <- app_assoc. f_equal. cbn [app]. f_equal. by rewrite <- app_assoc. Qed.

Lemma pretty_head ind v : json_wf v = true -> exists c r, pretty_at ind v = c :: r /\ value_head c.
Proof.
  intros Hv. destruct (stringify_head v Hv) as (c & r & E & Hh). destruct v as [| | | |[|]|[|]]; try (by exists c, r); by eexists _, _.
Qed.

Lemma pretty_reads v : json_wf v = true -> reads_pretty v.
Proof.
  induction v as [|b|n|s|items IH|members IH] using json_ind'; intros Hwf.
  - intros ind [|f] k _ Hf Hk; [simpl in Hf; lia|]. done.
  - intros ind [|f] k _ Hf Hk; [simpl in Hf; lia|]. by destruct b.
  - by apply pretty_number.
  - by apply pretty_string.
  - destruct items as [|v items]; [intros ind [|f] k _ Hf Hk; [simpl in Hf; lia|done]|]. intros ind f k Hind Hf Hk.
    destruct f as [|f]; [lia|]. set (deeper := ind ++ js "  ").
    change (pretty_at ind (JArr (v :: items))) with
      (js "[" ++ NL :: deeper ++ join (44%N :: NL :: deeper) (map (pretty_at deeper) (v :: items)) ++ NL :: ind ++ js "]") in *.
    assert (Forall reads_pretty (v :: items)) as HF.
    { clear -IH Hwf. cbn [json_wf] in Hwf. induction IH as [|w ws Hw IH IH']; [constructor|]. simpl in Hwf. breflect. constructor; auto. }
    assert (json_wf v = true) as Hv by (simpl in Hwf; by breflect).
    destruct (pretty_head deeper v Hv) as (c & r & E & (Hb & H93 & _)).
    assert (exists r', join (44%N :: NL :: deeper) (map (pretty_at deeper) (v :: items)) = c :: r') as (r' & Hj).
    { cbn [map]. destruct (map (pretty_at deeper) items); [simpl; eauto|]. rewrite join_cons by done. rewrite E. by eexists. }
    pose proof (deeper_blanks ind Hind) as Hdb. fold deeper in Hdb.
    pose proof (pretty_items deeper ind Hdb ltac:(by constructor) (v :: items) f k HF ltac:(done)) as Hr.
    rewrite Hj in Hf, Hr |- *.
    change (js "[") with [91%N]. change (js "]") with [93%N]. rewrite bracket_text. change ((c :: r') ++ ?s) with (c :: r' ++ s).
    destruct (bracket_line f (NL :: deeper) ((NL :: ind) ++ 93%N :: k) c r' Hdb Hb) as [-> _]; [|done].
    change (c :: r' ++ (NL :: ind) ++ 93%N :: k) with ((c :: r') ++ (NL :: ind) ++ 93%N :: k). rewrite Hr; [done|].
    rewrite !length_app in Hf. simpl in Hf. rewrite !length_app in Hf. simpl in *. rewrite !length_app in Hf. simpl in *. lia.
  - destruct members as [|[key v] members]; [intros ind [|f] k _ Hf Hk; [simpl in Hf; lia|done]|]. intros ind f k Hind Hf Hk.
    destruct f as [|f]; [lia|]. set (deeper := ind ++ js "  ").
    assert (pretty_at ind (JObj ((key, v) :: members)) =
      js "{" ++ NL :: deeper ++ join (44%N :: NL :: deeper) (map (pretty_member deeper) ((key, v) :: members)) ++ NL :: ind ++ js "}") as Ep.
    { cbn [pretty_at]. fold deeper. do 4 f_equal. f_equal. apply map_ext. by intros []. }
    rewrite Ep in Hf |- *. cbn [json_wf] in Hwf.
    apply andb_true_iff in Hwf as [Hnd%bool_decide_eq_true Hwf].
    assert (Forall (fun m => unitsb m.1 = true /\ reads_pretty m.2) ((key, v) :: members)) as HF.
    { clear -IH Hwf. induction IH as [|[k0 w] ms Hw IH IH']; [constructor|]. simpl in Hwf. breflect. constructor; [|auto]. simpl in *. auto. }
    assert (exists r', join (44%N :: NL :: deeper) (map (pretty_member deeper) ((key, v) :: members)) = 34%N :: r') as (r' & Hj).
    { cbn [map]. destruct (map (pretty_member deeper) members); [by eexists|]. rewrite join_cons by done. by eexists. }
    pose proof (deeper_blanks ind Hind) as Hdb. fold deeper in Hdb.
    pose proof (pretty_members deeper ind Hdb ltac:(by constructor) ((key, v) :: members) f k HF ltac:(done)) as Hr.
    rewrite Hj in Hf, Hr |- *.
    change (js "{") with [123%N]. change (js "}") with [125%N]. rewrite bracket_text. change ((34%N :: r') ++ ?s) with (34%N :: r' ++ s).
    destruct (bracket_line f (NL :: deeper) ((NL :: ind) ++ 125%N :: k) 34%N r' Hdb eq_refl) as [_ ->]; [|done].
    change (34%N :: r' ++ (NL :: ind) ++ 125%N :: k) with ((34%N :: r') ++ (NL :: ind) ++ 125%N :: k).
    rewrite Hr; [simpl fmap; unfold prod_map; simpl fst; simpl snd; unfold id; by rewrite set_members_NoDup|].
    rewrite !length_app in Hf. simpl in Hf. rewrite !length_app in Hf. simpl in *. rewrite !length_app in Hf. simpl in *. lia.
Qed.

Lemma pretty_roundtrip v : json_wf v = true -> json_parse (json_pretty v) = Some v.
Proof.
  intros Hv. unfold json_parse, json_pretty. pose proof (pretty_reads v Hv [] (S (2 * length (pretty_at [] v))) []) as H.
  rewrite app_nil_r in H. by rewrite H by (done || lia || by left).
Qed.

(** ** Printed values have no white space at their ends *)

Lemma bracketed_trimmed a m b : is_space a = false -> is_space b = false -> trimmed ([a] ++ m ++ [b]).
Proof. intros Ha Hb. apply trimmed_around; done. Qed.

Lemma stringify_trimmed v : json_wf v = true -> trimmed (json_stringify v).
Proof.
  destruct v as [|b|n|s|items|members]; intros H; cbn [json_stringify]; [done|by destruct b| |by apply bracketed_trimmed..].
  cbn [json_wf] in H. rewrite printable_finite by done. destruct (num_to_string_numeral n H) as (t & Ht & ->). apply no_space_trimmed.
  apply Forall_app. split; [destruct (negative n); by repeat constructor|by eapply numeral_no_space].
Qed.

Lemma broken_trimmed (o e : N) (d j : list N) (x y : N) : is_space o = false -> is_space e = false ->
  trimmed ([o] ++ x :: d ++ j ++ y :: [] ++ [e]).
Proof.
  intros Ho He. replace ([o] ++ x :: d ++ j ++ y :: [] ++ [e]) with ([o] ++ (x :: d ++ j ++ [y]) ++ [e]); [by apply bracketed_trimmed|].
  cbn [app]. by rewrite <- !app_assoc.
Qed.

Lemma pretty_value_trimmed v : json_wf v = true -> trimmed (json_pretty v).
Proof.
  intros H. destruct v as [|b|n|s|[|x items]|[|m ms]]; try (by apply (stringify_trimmed _ H)); [by apply (broken_trimmed 91 93)|by apply (broken_trimmed 123 125)].
Qed.

Lemma pretty_trimmed ms : trimmed (json_pretty (JObj ms)).
Proof. destruct ms as [|m ms]; [done|]. by apply (broken_trimmed 123 125). Qed.
