(* ===== verification/JsObject.v ===== *)
(** * Objects used as maps, and the order of their properties

    An object literal that is filled and read by computed names, as the settings pages do:
    an association list in the order in which its properties were made.  Array indices come
    first when properties are listed or printed ([object_entries]); assigning a primitive to
    [__proto__] makes no property, and a name that is missing may be one of
    [Object.prototype].  Lemmas relate these lists to finite maps. *)
From S2P Require Import Prelude JsString JsNumber JsCollections JsJson JsNumberPrint JsJsonPrint JsJsonPretty.
From Stdlib Require Import Lia Sorted.

Definition PROTO : list N := js "__proto__".

(** The names every object literal answers to. *)
Definition prototype_names : list (list N) :=
  map js ["constructor"; "__proto__"; "hasOwnProperty"; "isPrototypeOf"; "propertyIsEnumerable"; "toLocaleString"; "toString"; "valueOf";
          "__defineGetter__"; "__defineSetter__"; "__lookupGetter__"; "__lookupSetter__"]%string.

(** ** Operations *)

Section Objects.
Context {A : Type}.
Implicit Types l : list (list N * A).

Fixpoint obj_set (k : list N) (v : A) (l : list (list N * A)) : list (list N * A) :=
  match l with
  | [] => [(k, v)]
  | (k', v') :: l' => if bool_decide (k = k') then (k, v) :: l' else (k', v') :: obj_set k v l'
  end.

(** [obj[k] = v]. *)
Definition obj_put (k : list N) (v : A) (l : list (list N * A)) : list (list N * A) :=
  if bool_decide (k = PROTO) then l else obj_set k v l.

(** The own property [k]. *)
Definition obj_get (k : list N) (l : list (list N * A)) : option A := (list_to_map l : gmap (list N) A) !! k.

(** [delete obj[k]]. *)
Definition obj_delete (k : list N) (l : list (list N * A)) : list (list N * A) := filter (fun kv => kv.1 <> k) l.

(** [Object.keys]. *)
Definition obj_keys (l : list (list N * A)) : list (list N) := (object_entries l).*1.

Definition obj_map (l : list (list N * A)) : gmap (list N) A := list_to_map l.

Lemma obj_set_map k v l : obj_map (obj_set k v l) = <[k := v]> (obj_map l).
Proof.
  unfold obj_map. induction l as [|[k' v'] l IH]; simpl; [done|]. case_bool_decide as E; simpl.
  - subst. by rewrite insert_insert_eq.
  - rewrite IH. by rewrite insert_insert_ne.
Qed.

Lemma obj_put_map k v l : k <> PROTO -> obj_map (obj_put k v l) = <[k := v]> (obj_map l).
Proof. intros. unfold obj_put. rewrite bool_decide_false by done. apply obj_set_map. Qed.

Lemma obj_delete_map k l : obj_map (obj_delete k l) = delete k (obj_map l).
Proof.
  unfold obj_map, obj_delete. induction l as [|[k' v'] l IH]; [symmetry; exact (delete_empty k)|]. rewrite filter_cons. case_decide as E; simpl in *.
  - rewrite IH. by rewrite delete_insert_ne.
  - destruct (decide (k' = k)) as [->|]; [|done]. by rewrite delete_insert_eq, IH.
Qed.

Lemma obj_set_fresh k v l : k ∉ l.*1 -> obj_set k v l = l ++ [(k, v)].
Proof.
  induction l as [|[k' v'] l IH]; simpl; [done|]. intros H. rewrite elem_of_cons in H. rewrite bool_decide_false by naive_solver.
  rewrite IH; naive_solver.
Qed.

Lemma obj_set_keys k v l : NoDup l.*1 -> NoDup (obj_set k v l).*1 /\ forall x, x ∈ (obj_set k v l).*1 <-> x = k \/ x ∈ l.*1.
Proof.
  induction l as [|[k' v'] l IH]; simpl.
  - split; [apply NoDup_singleton|]. intros x. rewrite elem_of_cons, elem_of_nil. naive_solver.
  - intros [Hk Hl]%NoDup_cons. destruct (IH Hl) as [IH1 IH2]. case_bool_decide as E; simpl.
    + subst. split; [by apply NoDup_cons|]. intros x. rewrite !elem_of_cons. naive_solver.
    + split; [apply NoDup_cons; split; [rewrite IH2; naive_solver|done]|]. intros x. rewrite !elem_of_cons, IH2. naive_solver.
Qed.

Lemma obj_delete_keys k l : NoDup l.*1 -> NoDup (obj_delete k l).*1.
Proof. intros H. eapply sublist_NoDup; [exact H|]. apply fmap_sublist, sublist_filter. Qed.

(** Filling an object from entries with distinct names. *)
Lemma fill_NoDup es acc : NoDup (acc ++ es).*1 -> fold_left (fun m kv => obj_set kv.1 kv.2 m) es acc = acc ++ es.
Proof.
  revert acc. induction es as [|[k v] es IH]; intros acc H; simpl; [by rewrite app_nil_r|].
  assert (k ∉ acc.*1) as Hk.
  { rewrite fmap_app in H. apply NoDup_app in H as (_ & H & _). intros Hk. specialize (H k Hk). simpl in H. rewrite elem_of_cons in H. naive_solver. }
  rewrite obj_set_fresh by done. rewrite IH; by rewrite <- app_assoc.
Qed.

Lemma obj_get_elem k v l : NoDup l.*1 -> obj_get k l = Some v <-> (k, v) ∈ l.
Proof. intros H. unfold obj_get. symmetry. by apply elem_of_list_to_map. Qed.

Lemma obj_get_None k l : obj_get k l = None <-> k ∉ l.*1.
Proof. unfold obj_get. symmetry. apply not_elem_of_list_to_map. Qed.

End Objects.

(** ** The order of properties *)

Definition index_order {A} (a b : list N * A) : Z :=
  (Z.of_N (default 0%N (array_index a.1)) - Z.of_N (default 0%N (array_index b.1)))%Z.

Lemma sort_by_id {A} (cmp : A -> A -> Z) l : StronglySorted (cmp_le cmp) l -> sort_by cmp l = l.
Proof.
  induction 1 as [|x l Hl IH Hx]; simpl; [done|]. fold (sort_by cmp l). rewrite IH. destruct Hx as [|y l Hy _]; simpl; [done|].
  unfold cmp_le in Hy. by rewrite (proj2 (Z.leb_le _ _) Hy).
Qed.

Lemma sort_by_map {A B} (cmp : A -> A -> Z) (cmp' : B -> B -> Z) (f : A -> B) l :
  (forall a b, cmp' (f a) (f b) = cmp a b) -> sort_by cmp' (map f l) = map f (sort_by cmp l).
Proof.
  intros Hc. induction l as [|x l IH]; simpl; [done|]. fold (sort_by cmp' (map f l)) (sort_by cmp l). rewrite IH. clear IH.
  induction (sort_by cmp l) as [|y k IH]; simpl; [done|]. rewrite Hc. destruct (_ <=? _)%Z; simpl; [done|]. by rewrite IH.
Qed.

Lemma filter_map_comm {A B} (f : A -> B) (P : A -> Prop) (Q : B -> Prop) `{!forall x, Decision (P x), !forall x, Decision (Q x)} l :
  (forall a, Q (f a) <-> P a) -> filter Q (map f l) = map f (filter P l).
Proof.
  intros HPQ. induction l as [|x l IH]; [done|]. cbn [map]. rewrite !filter_cons. destruct (decide (P x)) as [p|p].
  - rewrite decide_True by (by apply HPQ). cbn [map]. by rewrite IH.
  - rewrite decide_False by (by rewrite HPQ). done.
Qed.

(** Listing does not depend on the values. *)
Lemma object_entries_map {A B} (f : list N * A -> B) l :
  object_entries (map (fun kv => (kv.1, f kv)) l) = map (fun kv => (kv.1, f kv)) (object_entries l).
Proof.
  unfold object_entries. rewrite map_app. f_equal.
  - rewrite <- (sort_by_map _ index_order) by done. f_equal. by eapply filter_map_comm.
  - by eapply filter_map_comm.
Qed.

Lemma object_entries_idemp {A} (l : list (list N * A)) : object_entries (object_entries l) = object_entries l.
Proof.
  unfold object_entries at 1. set (s := sort_by index_order (filter (fun kv => is_Some (array_index kv.1)) l)).
  set (o := filter (fun kv => array_index kv.1 = None) l). change (object_entries l) with (s ++ o).
  assert (Forall (fun kv => is_Some (array_index kv.1)) s) as Hs.
  { unfold s. rewrite sort_by_perm. rewrite Forall_forall. by intros x [Hx _]%list_elem_of_filter. }
  assert (Forall (fun kv => array_index kv.1 = None) o) as Ho.
  { unfold o. rewrite Forall_forall. by intros x [Hx _]%list_elem_of_filter. }
  rewrite !filter_app, (filter_all _ s Hs), (filter_all _ o Ho).
  rewrite (filter_none (fun kv => is_Some (array_index kv.1)) o), (filter_none (fun kv => array_index kv.1 = None) s).
  - cbn [app]. rewrite app_nil_r. f_equal. apply sort_by_id. apply sort_by_sorted; unfold cmp_le, index_order; intros; lia.
  - eapply Forall_impl; [exact Hs|]. intros x [y Hy]. cbn. by rewrite Hy.
  - eapply Forall_impl; [exact Ho|]. intros x Hx [y Hy]. by rewrite Hx in Hy.
Qed.

Lemma obj_map_entries {A} (l : list (list N * A)) : NoDup l.*1 -> obj_map (object_entries l) = obj_map l.
Proof. intros H. unfold obj_map. apply list_to_map_proper; [|apply object_entries_perm]. by rewrite object_entries_perm. Qed.

Lemma entries_NoDup {A} (l : list (list N * A)) : NoDup l.*1 -> NoDup (object_entries l).*1.
Proof. by rewrite object_entries_perm. Qed.

(** ** Values as the engine keeps them *)

Definition pair_eq_dec {A B} (da : forall x y : A, {x = y} + {x <> y}) (db : forall x y : B, {x = y} + {x <> y}) (p q : A * B) : {p = q} + {p <> q}.
Proof. destruct p as [a b], q as [a' b']. destruct (da a a'); [|right; congruence]. destruct (db b b'); [left|right]; congruence. Defined.

#[global] Instance json_eq_dec : EqDecision json.
Proof.
  refine (fix IH (v w : json) {struct v} : {v = w} + {v <> w} := _).
  destruct v as [|b|n|s|items|members], w as [|b'|n'|s'|items'|members']; try (right; discriminate).
  - by left.
  - destruct (decide (b = b')); [left|right]; congruence.
  - destruct (decide (n = n')); [left|right]; congruence.
  - destruct (decide (s = s')); [left|right]; congruence.
  - destruct (List.list_eq_dec IH items items'); [left|right]; congruence.
  - destruct (List.list_eq_dec (pair_eq_dec (decide_rel eq) IH) members members'); [left|right]; congruence.
Defined.


(** [JSON.parse] makes the properties in the order of the text; this is the order in which
    they are listed. *)
Fixpoint ordered (v : json) : json :=
  match v with
  | JArr items => JArr (map ordered items)
  | JObj members => JObj (object_entries (map (fun m => let '(k, x) := m in (k, ordered x)) members))
  | v => v
  end.

Lemma members_ordered (l : list (list N * json)) :
  map (fun m => let '(k, x) := m in (k, ordered x)) l = map (fun m => (m.1, ordered m.2)) l.
Proof. apply map_ext. by intros [k x]. Qed.

Lemma ordered_idemp v : ordered (ordered v) = ordered v.
Proof.
  induction v as [|b|n|s|items IH|members IH] using json_ind'; try done.
  - cbn [ordered]. f_equal. rewrite map_map. induction IH as [|x l Hx _ IHl]; [done|]. cbn [map]. by rewrite Hx, IHl.
  - cbn [ordered]. f_equal. rewrite !members_ordered, !object_entries_map, map_map, object_entries_idemp.
    cbn [fst snd]. apply map_ext_in. intros [k x] Hx. cbn [fst snd]. f_equal.
    rewrite Forall_forall in IH. apply (IH (k, x)). by apply elem_of_object_entries, list_elem_of_In.
Qed.

Lemma ordered_wf v : json_wf v = true -> json_wf (ordered v) = true.
Proof.
  induction v as [|b|n|s|items IH|members IH] using json_ind'; try done.
  - cbn [ordered json_wf]. rewrite !forallb_forall. rewrite Forall_forall in IH. intros H y (x & <- & Hx)%in_map_iff.
    apply IH; [by apply list_elem_of_In|]. by apply H.
  - cbn [ordered json_wf]. intros [Hn Hw]%andb_true_iff. apply bool_decide_eq_true in Hn. rewrite forallb_forall in Hw. rewrite Forall_forall in IH.
    rewrite members_ordered. apply andb_true_iff. split.
    + apply bool_decide_eq_true. rewrite object_entries_map, map_map. cbn [fst]. by apply (entries_NoDup members).
    + apply forallb_forall. intros [k y] Hy. apply list_elem_of_In, elem_of_object_entries, list_elem_of_In, in_map_iff in Hy as ([k' x] & [= -> <-] & Hx).
      pose proof (Hw _ Hx) as [-> Hx2]%andb_true_iff. cbn [fst snd andb]. apply (IH (k, x)); [by apply list_elem_of_In|done].
Qed.

(** [JSON.stringify(obj, null, 2)] of an object with values of one kind. *)
Definition object_text {A} (f : A -> json) (l : list (list N * A)) : list N :=
  json_pretty (JObj (map (fun kv => (kv.1, f kv.2)) (object_entries l))).

Lemma object_text_read {A} (f : A -> json) (l : list (list N * A)) :
  NoDup l.*1 -> Forall (fun kv => unitsb kv.1 && json_wf (f kv.2) = true) l ->
  json_parse (object_text f l) = Some (JObj (map (fun kv => (kv.1, f kv.2)) (object_entries l))).
Proof.
  intros Hn Hl. apply pretty_roundtrip. cbn [json_wf]. apply andb_true_iff. split.
  - apply bool_decide_eq_true. rewrite map_map. cbn [fst]. by apply (entries_NoDup l).
  - apply forallb_forall. intros [k y] Hy. apply in_map_iff in Hy as ([k' x] & [= -> <-] & Hx). rewrite Forall_forall in Hl.
    apply (Hl (k, x)). by apply elem_of_object_entries, list_elem_of_In.
Qed.
