(* ===== verification/DrawingStore.v ===== *)
(** * Stored drawings (src/apps/web/src/features/drawing/history-storage.ts, image-bytes.ts)

    The images a browser keeps per account: the retention policy, the transactions of
    the database with their account epochs, and the conversion of generated images to
    blobs.

    A blob is its size and type; the bytes themselves are not looked at again.
    Identifiers of users and times are integers.  [localeCompare] and the index of the
    database are the platform's: [Platform] names them and [PlatformLaws] says what is
    relied on (a collation is a total preorder; [getAll] returns every record of the
    account once).  A transaction is atomic; one that aborts has no effect. *)
From S2P Require Import Prelude JsString JsCollections.
From Stdlib Require Import Lia Sorted.

Record Blob := mkBlob { size : N; mime : list N }.

#[global] Instance Blob_eq_dec : EqDecision Blob.
Proof. solve_decision. Defined.

Definition DRAWING_HISTORY_LIMIT : nat := 50.
Definition DRAWING_HISTORY_BYTES : N := 100 * 1024 * 1024.
Definition DRAWING_IMAGE_BYTES : N := 32 * 1024 * 1024.

Record DrawingMetadata := mkMetadata {
  prompt : list N;
  model : list N;
  group : list N;
  createdAt : Z }.

Record StoredDrawing := mkStored {
  metadata : DrawingMetadata;
  userId : Z;
  drawing_id : list N;
  revisedPrompt : option (list N);
  blob : Blob }.

#[global] Instance DrawingMetadata_eq_dec : EqDecision DrawingMetadata.
Proof. solve_decision. Defined.
#[global] Instance StoredDrawing_eq_dec : EqDecision StoredDrawing.
Proof. solve_decision. Defined.

(** What [retainDrawings] asks of its type parameter. *)
Class Retained (T : Type) := {
  rid : T -> list N;
  rcreated : T -> Z;
  rblob : T -> option Blob }.

#[global] Instance StoredDrawing_retained : Retained StoredDrawing := {|
  rid := drawing_id;
  rcreated x := createdAt (metadata x);
  rblob x := Some (blob x) |}.

Class Platform := {
  localeCompare : list N -> list N -> Z;
  getAll : Z -> gmap (Z * list N) StoredDrawing -> list StoredDrawing }.

Class PlatformLaws {PF : Platform} := {
  collation_total : forall a b, (localeCompare a b <= 0 \/ localeCompare b a <= 0)%Z;
  collation_trans : forall a b c,
    (localeCompare a b <= 0 -> localeCompare b c <= 0 -> localeCompare a c <= 0)%Z;
  getAll_spec : forall u m x, x ∈ getAll u m <-> exists i, m !! (u, i) = Some x;
  getAll_NoDup : forall u m, (forall i x, m !! (u, i) = Some x -> drawing_id x = i) -> NoDup (getAll u m) }.

(** ** Retention *)

Section Retain.
Context {PF : Platform} {T : Type} {RT : Retained T}.

(** Newest first, then by id. *)
Definition newest_first (a b : T) : Z :=
  let d := (rcreated b - rcreated a)%Z in
  if (d =? 0)%Z then localeCompare (rid b) (rid a) else d.

Definition blob_size (x : T) : N := match rblob x with Some b => size b | None => 0 end.

(** The filter with its running count of bytes. *)
Fixpoint retain_loop (index : nat) (bytes : N) (l : list T) : list T :=
  match l with
  | [] => []
  | x :: r =>
      let bytes' := (bytes + blob_size x)%N in
      if (index <? DRAWING_HISTORY_LIMIT)%nat && (bytes' <=? DRAWING_HISTORY_BYTES)%N
      then x :: retain_loop (S index) bytes' r
      else retain_loop (S index) bytes' r
  end.

Definition retainDrawings (images : list T) : list T :=
  retain_loop 0 0 (sort_by newest_first (map_values rid images)).

(** ** It keeps the longest prefix within the limits *)

Definition total (l : list T) : N := foldr (fun x n => blob_size x + n)%N 0%N l.

Definition fits (l : list T) : Prop := length l <= DRAWING_HISTORY_LIMIT /\ (total l <= DRAWING_HISTORY_BYTES)%N.

Lemma retain_none index bytes l :
  DRAWING_HISTORY_LIMIT <= index \/ (DRAWING_HISTORY_BYTES < bytes)%N -> retain_loop index bytes l = [].
Proof.
  revert index bytes. induction l as [|x l IH]; intros index bytes Hb; cbn [retain_loop]; [done|].
  replace ((index <? DRAWING_HISTORY_LIMIT) && (bytes + blob_size x <=? DRAWING_HISTORY_BYTES)%N) with false.
  - apply IH. destruct Hb; [left; lia|right; lia].
  - symmetry. apply andb_false_iff. destruct Hb; [left; by apply Nat.ltb_ge|right; apply N.leb_gt; lia].
Qed.

Lemma retain_prefix index bytes l :
  exists k, retain_loop index bytes l = take k l /\
    (k < length l -> DRAWING_HISTORY_LIMIT <= index + k \/ (DRAWING_HISTORY_BYTES < bytes + total (take (S k) l))%N) /\
    (k <> 0 -> index + k <= DRAWING_HISTORY_LIMIT /\ (bytes + total (take k l) <= DRAWING_HISTORY_BYTES)%N) /\
    k <= length l.
Proof.
  revert index bytes. induction l as [|x l IH]; intros index bytes.
  - exists 0. cbn. split_and!; [done|lia|done|lia].
  - cbn [retain_loop].
    destruct ((index <? DRAWING_HISTORY_LIMIT) && (bytes + blob_size x <=? DRAWING_HISTORY_BYTES)%N) eqn:E.
    + apply andb_true_iff in E as [Ei Eb]. breflect.
      destruct (IH (S index) (bytes + blob_size x)%N) as (k & -> & H1 & H2 & H3).
      exists (S k). cbn [take length total foldr] in *. split_and!; [done| | |lia].
      * intros Hk. destruct H1 as [H1|H1]; [lia|left; lia|right]. unfold total in *. cbn [take foldr] in H1 |- *. lia.
      * intros _. destruct k as [|k]; [rewrite take_0; unfold total; cbn [foldr]; split; lia|].
        destruct (H2 ltac:(lia)). unfold total in *. split; lia.
    + exists 0. apply andb_false_iff in E. split_and!; [|intros _|lia|lia].
      * apply retain_none. destruct E as [E|E]; breflect; [left; lia|right; lia].
      * rewrite firstn_cons, take_0. unfold total. cbn [foldr]. destruct E as [E|E]; breflect; [left; lia|right; lia].
Qed.

Lemma retain_fits l : fits (retain_loop 0 0 l).
Proof.
  destruct (retain_prefix 0 0 l) as (k & -> & _ & H & Hk). destruct k as [|k]; [rewrite take_0; split; [cbn; lia|apply N.le_0_l]|].
  destruct (H ltac:(lia)). unfold fits. rewrite length_take. split; lia.
Qed.

Lemma total_app a b : total (a ++ b) = (total a + total b)%N.
Proof. unfold total. induction a as [|x a IH]; cbn [app foldr]; [done|]. rewrite IH. lia. Qed.

Lemma retain_id l : fits l -> retain_loop 0 0 l = l.
Proof.
  intros [H1 H2]. destruct (retain_prefix 0 0 l) as (k & -> & H & _ & Hk).
  destruct (decide (k = length l)) as [->|Hne]; [by rewrite firstn_all|].
  destruct H as [H|H]; [lia|lia|]. rewrite <- (take_drop (S k) l), total_app in H2. lia.
Qed.

Lemma total_perm l l' : l ≡ₚ l' -> total l = total l'.
Proof. unfold total. induction 1; cbn [foldr]; lia. Qed.

Lemma fits_perm l l' : l ≡ₚ l' -> fits l -> fits l'.
Proof. intros Hp [H1 H2]. unfold fits. by rewrite <- (total_perm _ _ Hp), <- (Permutation_length Hp). Qed.

(** ** Order *)

Context {PL : PlatformLaws}.

Lemma newest_total a b : cmp_le newest_first a b \/ cmp_le newest_first b a.
Proof.
  unfold cmp_le, newest_first. destruct (Z.eqb_spec (rcreated b - rcreated a) 0) as [E|E].
  - replace (rcreated a - rcreated b =? 0)%Z with true by (symmetry; apply Z.eqb_eq; lia). apply collation_total.
  - replace (rcreated a - rcreated b =? 0)%Z with false by (symmetry; apply Z.eqb_neq; lia). lia.
Qed.

Lemma newest_spec a b :
  cmp_le newest_first a b <->
  (rcreated b < rcreated a \/ (rcreated a = rcreated b /\ localeCompare (rid b) (rid a) <= 0))%Z.
Proof. unfold cmp_le, newest_first. destruct (Z.eqb_spec (rcreated b - rcreated a) 0) as [E|E]; lia. Qed.

Lemma newest_trans a b c :
  cmp_le newest_first a b -> cmp_le newest_first b c -> cmp_le newest_first a c.
Proof.
  rewrite !newest_spec. intros [H1|[H1 H2]] [H3|[H3 H4]]; [left; lia|left; lia|left; lia|right].
  split; [lia|]. by eapply collation_trans.
Qed.

Definition ordered (images : list T) : list T := sort_by newest_first (map_values rid images).

Lemma ordered_spec images :
  StronglySorted (cmp_le newest_first) (ordered images) /\ NoDup (map rid (ordered images)) /\
  forall x, x ∈ ordered images <-> last_at rid (rid x) images = Some x.
Proof.
  pose proof (sort_by_perm newest_first (map_values rid images)) as Hp. unfold ordered. split_and!.
  - apply sort_by_sorted; [apply newest_total|apply newest_trans].
  - change (NoDup (rid <$> sort_by newest_first (map_values rid images))). rewrite Hp.
    apply (map_values_spec rid images).
  - intros x. rewrite Hp. apply elem_of_map_values.
Qed.

Lemma retained_sublist images x : x ∈ retainDrawings images -> last_at rid (rid x) images = Some x.
Proof.
  unfold retainDrawings. fold (ordered images). destruct (retain_prefix 0 0 (ordered images)) as (k & -> & _).
  intros Hx. apply ordered_spec. eapply elem_of_take in Hx as (i & Hx & _). by eapply list_elem_of_lookup_2.
Qed.

Lemma retained_NoDup images : NoDup (map rid (retainDrawings images)).
Proof.
  unfold retainDrawings. fold (ordered images). destruct (retain_prefix 0 0 (ordered images)) as (k & -> & _).
  destruct (ordered_spec images) as (_ & Hn & _). rewrite <- (take_drop k (ordered images)), map_app in Hn.
  by apply NoDup_app in Hn as [Hn _].
Qed.

(** Images within the limits are all kept, newest first. *)
Lemma retain_all images : NoDup (map rid images) -> fits images -> retainDrawings images ≡ₚ images.
Proof.
  intros Hn Hf. unfold retainDrawings. rewrite (map_values_NoDup rid images Hn).
  rewrite retain_id; [apply sort_by_perm|]. eapply fits_perm; [|exact Hf]. symmetry. apply sort_by_perm.
Qed.

End Retain.

(** ** The database *)

Record Store := mkStore {
  records : gmap (Z * list N) StoredDrawing; (* keyPath [userId, id] *)
  accounts : gmap Z N (* the epoch of an account *) }.

Definition emptyStore : Store := mkStore ∅ ∅.

Definition epoch_of (u : Z) (s : Store) : N := default 0%N (accounts s !! u).

Definition valid_addition (u : Z) (x : StoredDrawing) : bool :=
  (userId x =? u)%Z && (0 <? size (blob x))%N && (size (blob x) <=? DRAWING_IMAGE_BYTES)%N.

Section Database.
Context {PF : Platform}.

Definition load (u : Z) (s : Store) : N * list StoredDrawing :=
  (epoch_of u s, retainDrawings (getAll u (records s))).

(** The two loops of [save]. *)
Definition delete_dropped (u : Z) (ids : list (list N)) (existing : list StoredDrawing)
    (m : gmap (Z * list N) StoredDrawing) : gmap (Z * list N) StoredDrawing :=
  fold_left (fun m x => if bool_decide (drawing_id x ∈ ids) then m else delete (u, drawing_id x) m) existing m.

Definition put_kept (ids : list (list N)) (valid : list StoredDrawing)
    (m : gmap (Z * list N) StoredDrawing) : gmap (Z * list N) StoredDrawing :=
  fold_left (fun m x => if bool_decide (drawing_id x ∈ ids) then <[(userId x, drawing_id x) := x]> m else m) valid m.

Definition save (u : Z) (epoch : N) (additions : list StoredDrawing) (s : Store) : bool * Store :=
  if negb (epoch_of u s =? epoch)%N then (false, s)
  else
    let existing := getAll u (records s) in
    let valid := filter (fun x => valid_addition u x = true) additions in
    let retained := retainDrawings (existing ++ valid) in
    let ids := map drawing_id retained in
    (true, mkStore (put_kept ids valid (delete_dropped u ids existing (records s))) (accounts s)).

Definition clear (u : Z) (s : Store) : N * Store :=
  let epoch := (epoch_of u s + 1)%N in
  (epoch, mkStore (fold_left (fun m x => delete (u, drawing_id x) m) (getAll u (records s)) (records s))
            (<[u := epoch]> (accounts s))).

Inductive StoreOp := OpSave (u : Z) (epoch : N) (additions : list StoredDrawing) | OpClear (u : Z).

Definition store_step (o : StoreOp) (s : Store) : Store :=
  match o with OpSave u e l => (save u e l s).2 | OpClear u => (clear u s).2 end.

Definition run_store (os : list StoreOp) (s : Store) : Store := fold_left (fun s o => store_step o s) os s.

(** ** Lemmas *)

Context {PL : PlatformLaws}.

(** Records sit under their own key and have an acceptable size; accounts fit. *)
Definition keyed (m : gmap (Z * list N) StoredDrawing) : Prop :=
  forall u i x, m !! (u, i) = Some x -> drawing_id x = i /\ valid_addition u x = true.

Definition store_ok (s : Store) : Prop := keyed (records s) /\ forall u, fits (getAll u (records s)).

Lemma getAll_unique u m : keyed m -> NoDup (getAll u m).
Proof. intros Hk. apply getAll_NoDup. intros i x Hx. by apply (Hk u i x). Qed.

Lemma getAll_ids u m : keyed m -> NoDup (map drawing_id (getAll u m)).
Proof.
  intros Hk. assert (forall l, NoDup l -> (forall x, x ∈ l -> m !! (u, drawing_id x) = Some x) ->
                      NoDup (map drawing_id l)) as H.
  { induction 1 as [|x l Hx Hl IH]; simpl; intros Hm; constructor.
    - intros (y & Hy & Hin)%list_elem_of_fmap. apply Hx.
      pose proof (Hm x (list_elem_of_here x l)) as H1. pose proof (Hm y (list_elem_of_further _ _ _ Hin)) as H2.
      rewrite <- Hy, H1 in H2. by injection H2 as ->.
    - apply IH. intros y Hy. by apply Hm, list_elem_of_further. }
  apply H; [by apply getAll_unique|]. intros x (i & Hi)%getAll_spec. destruct (Hk u i x Hi) as [E _]. by rewrite E.
Qed.

Lemma getAll_last u m i : keyed m -> last_at rid i (getAll u m) = m !! (u, i).
Proof.
  intros Hk. destruct (m !! (u, i)) as [x|] eqn:E.
  - destruct (Hk u i x E) as [<- _]. apply last_at_NoDup; [by apply getAll_ids|]. apply getAll_spec. eauto.
  - apply last_at_None. intros (x & Hx & Hin)%list_elem_of_fmap. apply getAll_spec in Hin as (j & Hj).
    destruct (Hk u j x Hj) as [E' _]. simpl in Hx. congruence.
Qed.

Lemma delete_dropped_lookup u ids l m k :
  delete_dropped u ids l m !! k =
  if bool_decide (k.1 = u /\ k.2 ∈ map drawing_id l /\ k.2 ∉ ids) then None else m !! k.
Proof.
  unfold delete_dropped. revert m. induction l as [|x l IH]; intros m; simpl.
  { rewrite bool_decide_eq_false_2; [done|]. intros (_ & H & _). by apply not_elem_of_nil in H. }
  rewrite IH. case_bool_decide as E.
  - rewrite bool_decide_eq_true_2; [done|]. rewrite elem_of_cons. naive_solver.
  - destruct (bool_decide (drawing_id x ∈ ids)) eqn:Ei.
    + apply bool_decide_eq_true in Ei. rewrite bool_decide_eq_false_2; [done|].
      rewrite elem_of_cons. intros (H1 & [->|H2] & H3); naive_solver.
    + apply bool_decide_eq_false in Ei. destruct (decide (k = (u, drawing_id x))) as [->|Hne].
      * rewrite lookup_delete_eq, bool_decide_eq_true_2; [done|]. simpl. rewrite elem_of_cons. naive_solver.
      * rewrite lookup_delete_ne by done. rewrite bool_decide_eq_false_2; [done|].
        rewrite elem_of_cons. intros (H1 & [H2|H2] & H3); [|naive_solver]. apply Hne.
        destruct k as [a b]; simpl in *; congruence.
Qed.

Lemma put_kept_lookup ids l m u i :
  Forall (fun x => userId x = u) l ->
  (forall k, k.1 <> u -> put_kept ids l m !! k = m !! k) /\
  put_kept ids l m !! (u, i) =
  if bool_decide (i ∈ ids) then match last_at rid i l with Some x => Some x | None => m !! (u, i) end else m !! (u, i).
Proof.
  intros Hl. unfold put_kept. revert m. induction Hl as [|x l Hx _ IH]; intros m; cbn [fold_left last_at]; [split; [done|by case_bool_decide]|].
  destruct (IH (if bool_decide (drawing_id x ∈ ids) then <[(userId x, drawing_id x) := x]> m else m)) as [H1 H2]. split.
  - intros k Hk. rewrite H1 by done. case_bool_decide; [|done]. rewrite lookup_insert_ne; [done|].
    intros <-. simpl in Hk. congruence.
  - rewrite H2. destruct (bool_decide (i ∈ ids)) eqn:Ei.
    + apply bool_decide_eq_true in Ei. destruct (last_at rid i l) as [y|]; [done|].
      destruct (decide (drawing_id x = i)) as [<-|Hne].
      * rewrite !bool_decide_eq_true_2 by done. by rewrite Hx, lookup_insert_eq.
      * rewrite (bool_decide_eq_false_2 (rid x = i)) by done. destruct (bool_decide _); [|done].
        rewrite lookup_insert_ne; [done|]. congruence.
    + apply bool_decide_eq_false in Ei. destruct (bool_decide (drawing_id x ∈ ids)) eqn:E; [|done].
      apply bool_decide_eq_true in E. rewrite lookup_insert_ne; [done|]. congruence.
Qed.

(** After a save the account holds exactly what the policy retains. *)
Lemma save_lookup u e adds s :
  keyed (records s) -> epoch_of u s = e ->
  let retained := retainDrawings (getAll u (records s) ++ filter (fun x => valid_addition u x = true) adds) in
  (save u e adds s).1 = true /\ accounts (save u e adds s).2 = accounts s /\
  (forall i, records (save u e adds s).2 !! (u, i) = last_at rid i retained) /\
  (forall k, k.1 <> u -> records (save u e adds s).2 !! k = records s !! k).
Proof.
  intros Hk He retained. unfold save. rewrite He, N.eqb_refl. cbn [negb fst snd records accounts].
  set (valid := filter _ adds) in *. fold retained. set (ids := map drawing_id retained).
  assert (Forall (fun x => userId x = u) valid) as Hv.
  { apply Forall_forall. intros x [Hx _]%list_elem_of_filter. unfold valid_addition in Hx. by breflect. }
  split_and!; [done|done| |].
  - intros i. rewrite (proj2 (put_kept_lookup ids valid _ u i Hv)), delete_dropped_lookup. cbn [fst snd].
    assert (forall x, last_at rid i retained = Some x -> last_at rid i (getAll u (records s) ++ valid) = Some x) as Hret.
    { intros x Hx. apply last_at_Some in Hx as [Hx <-]. by apply retained_sublist in Hx. }
    destruct (last_at rid i retained) as [x|] eqn:Ex.
    + assert (i ∈ ids) as Hi. { apply last_at_Some in Ex as [Hx <-]. by apply list_elem_of_fmap_2. }
      rewrite !bool_decide_eq_true_2, bool_decide_eq_false_2 by naive_solver.
      specialize (Hret x eq_refl). rewrite last_at_app in Hret. destruct (last_at rid i valid); [done|].
      by rewrite getAll_last in Hret.
    + assert (i ∉ ids) as Hi by (by apply last_at_None). rewrite bool_decide_eq_false_2 by done.
      destruct (records s !! (u, i)) as [y|] eqn:Ey; [|by case_bool_decide].
      rewrite bool_decide_eq_true_2; [done|]. split_and!; [done| |done].
      destruct (Hk u i y Ey) as [<- _]. apply list_elem_of_fmap_2, getAll_spec. eauto.
  - intros k Hne. rewrite (proj1 (put_kept_lookup ids valid _ u [] Hv)) by done.
    rewrite delete_dropped_lookup, bool_decide_eq_false_2 by naive_solver. done.
Qed.

Lemma fetched_NoDup (l : list StoredDrawing) : NoDup (map rid l) -> NoDup l.
Proof. apply NoDup_fmap_1. Qed.

Lemma keyed_save u e adds s :
  keyed (records s) -> epoch_of u s = e -> keyed (records (save u e adds s).2).
Proof.
  intros Hk He v i x. destruct (save_lookup u e adds s Hk He) as (_ & _ & H1 & H2).
  destruct (decide (v = u)) as [->|Hne]; [|rewrite H2 by done; apply Hk]. rewrite H1.
  intros [Hx <-]%last_at_Some. apply retained_sublist in Hx. split; [done|].
  rewrite last_at_app in Hx. destruct (last_at rid (rid x) (filter _ adds)) eqn:E.
  - injection Hx as ->. apply last_at_Some in E as [E _]. by apply list_elem_of_filter in E as [E _].
  - rewrite getAll_last in Hx by done. by apply (Hk u (rid x) x).
Qed.

(** What is read back after a save. *)
Lemma save_getAll u e adds s :
  keyed (records s) -> epoch_of u s = e ->
  getAll u (records (save u e adds s).2) ≡ₚ
  retainDrawings (getAll u (records s) ++ filter (fun x => valid_addition u x = true) adds).
Proof.
  intros Hk He. destruct (save_lookup u e adds s Hk He) as (_ & _ & H1 & _).
  apply NoDup_Permutation; [by apply getAll_unique, keyed_save|apply fetched_NoDup, retained_NoDup|].
  intros x. rewrite getAll_spec. split.
  - intros (i & Hx). rewrite H1 in Hx. by apply last_at_Some in Hx as [Hx _].
  - intros Hx. exists (rid x). rewrite H1. apply last_at_NoDup; [apply retained_NoDup|done].
Qed.

Lemma getAll_ext u m m' :
  keyed m -> keyed m' -> (forall i, m !! (u, i) = m' !! (u, i)) -> getAll u m ≡ₚ getAll u m'.
Proof.
  intros H1 H2 He. apply NoDup_Permutation; [by apply getAll_unique..|]. intros x. rewrite !getAll_spec. by setoid_rewrite He.
Qed.

Lemma save_ok u e adds s : store_ok s -> store_ok (save u e adds s).2.
Proof.
  intros [Hk Hf]. destruct (decide (epoch_of u s = e)) as [He|He].
  2: { unfold save. rewrite (proj2 (N.eqb_neq _ _) He). by split. }
  split; [by apply keyed_save|]. intros v. destruct (decide (v = u)) as [->|Hne].
  - eapply fits_perm; [symmetry; by apply save_getAll|]. apply retain_fits.
  - eapply fits_perm; [|apply (Hf v)]. apply getAll_ext; [done|by apply keyed_save|]. intros i.
    destruct (save_lookup u e adds s Hk He) as (_ & _ & _ & H2). by rewrite H2.
Qed.

Lemma clear_lookup u s k :
  keyed (records s) -> records (clear u s).2 !! k = if bool_decide (k.1 = u) then None else records s !! k.
Proof.
  intros Hk. unfold clear. cbn [snd records].
  assert (forall l m, fold_left (fun m x => delete (u, drawing_id x) m) l m =
                      delete_dropped u [] l m) as -> by (by intros).
  rewrite delete_dropped_lookup. destruct k as [v i]. cbn [fst snd].
  destruct (decide (v = u)) as [->|Hne]; [|by rewrite !bool_decide_eq_false_2 by naive_solver].
  rewrite (bool_decide_eq_true_2 (u = u)) by done. case_bool_decide as E; [done|].
  destruct (records s !! (u, i)) as [x|] eqn:Ex; [|done]. exfalso. apply E. split_and!; [done| |apply not_elem_of_nil].
  destruct (Hk u i x Ex) as [<- _]. apply list_elem_of_fmap_2, getAll_spec. eauto.
Qed.

Lemma keyed_clear u s : keyed (records s) -> keyed (records (clear u s).2).
Proof.
  intros Hk v i x. rewrite clear_lookup by done. cbn [fst]. case_bool_decide; [done|apply Hk].
Qed.

Lemma clear_ok u s : store_ok s -> store_ok (clear u s).2.
Proof.
  intros [Hk Hf]. split; [by apply keyed_clear|].
  intros v. destruct (decide (v = u)) as [->|Hne].
  - assert (getAll u (records (clear u s).2) = []) as ->.
    { destruct (getAll u _) as [|x l] eqn:E; [done|]. pose proof (list_elem_of_here x l) as Hx. rewrite <- E in Hx.
      apply getAll_spec in Hx as (i & Hx). rewrite clear_lookup in Hx by done. by rewrite bool_decide_eq_true_2 in Hx. }
    split; [cbn; lia|apply N.le_0_l].
  - eapply fits_perm; [|apply (Hf v)]. apply getAll_ext; [done|by apply keyed_clear|]. intros i.
    rewrite clear_lookup by done. by rewrite bool_decide_eq_false_2.
Qed.

Lemma run_store_ok os s : store_ok s -> store_ok (run_store os s).
Proof.
  revert s. induction os as [|o os IH]; intros s Hs; [done|]. apply IH. destruct o; [by apply save_ok|by apply clear_ok].
Qed.

Lemma empty_ok : store_ok emptyStore.
Proof.
  split; [intros u i x; simpl; by rewrite lookup_empty|]. intros u. simpl.
  assert (getAll u ∅ = []) as ->; [|split; [cbn; lia|apply N.le_0_l]].
  destruct (getAll u ∅) as [|x l] eqn:E; [done|]. pose proof (list_elem_of_here x l) as Hx. rewrite <- E in Hx.
  apply getAll_spec in Hx as (i & Hx). by rewrite lookup_empty in Hx.
Qed.

(** Epochs only grow. *)
Lemma step_epoch o s u : (epoch_of u s <= epoch_of u (store_step o s))%N.
Proof.
  destruct o as [v e l|v]; simpl.
  - unfold save. destruct (negb _); done.
  - unfold epoch_of. simpl. destruct (decide (v = u)) as [->|Hne].
    + rewrite lookup_insert_eq. simpl. unfold epoch_of. lia.
    + by rewrite lookup_insert_ne.
Qed.

Lemma run_epoch os s u : (epoch_of u s <= epoch_of u (run_store os s))%N.
Proof.
  revert s. induction os as [|o os IH]; intros s; [simpl; lia|]. etrans; [apply (step_epoch o s u)|apply IH].
Qed.

End Database.

(** ** Theorems *)

(** Whatever is saved and cleared, in whatever order and by however many tabs, an
    account holds at most 50 images and 100 MiB, each non-empty, of at most 32 MiB and
    stored under its own account and id; loading returns all of them, newest first. *)
Theorem store_within_limits {PF : Platform} {PL : PlatformLaws} (os : list StoreOp) (u : Z) :
  let s := run_store os emptyStore in
  let images := (load u s).2 in
  length images <= 50 /\ (total images <= 104857600)%N /\
  Forall (fun x => userId x = u /\ records s !! (u, drawing_id x) = Some x /\ (0 < size (blob x) <= 33554432)%N) images /\
  images ≡ₚ getAll u (records s) /\ StronglySorted (cmp_le newest_first) images.
Proof.
  intros s images. destruct (run_store_ok os _ empty_ok) as [Hk Hf]. fold s in Hk, Hf.
  assert (images ≡ₚ getAll u (records s)) as Hp by (apply retain_all; [by apply getAll_ids|apply Hf]).
  destruct (fits_perm _ _ (Permutation_sym Hp) (Hf u)) as [H1 H2].
  split_and!; [exact H1|exact H2| |done|].
  - apply Forall_forall. intros x Hx. rewrite Hp in Hx. apply getAll_spec in Hx as (i & Hx).
    destruct (Hk u i x Hx) as [<- Hv]. unfold valid_addition in Hv. breflect. done.
  - unfold images, load. cbn [snd]. unfold retainDrawings.
    rewrite retain_id; [apply sort_by_sorted; [apply newest_total|apply newest_trans]|].
    rewrite map_values_NoDup by (by apply getAll_ids). eapply fits_perm; [|apply (Hf u)]. symmetry. apply sort_by_perm.
Qed.

(** A save writes exactly what the policy retains of the stored and the new images,
    and touches no other account; once an account is cleared, a save that was prepared
    before is refused for ever and changes nothing. *)
Theorem save_and_clear {PF : Platform} {PL : PlatformLaws} (os os' : list StoreOp) (u : Z)
    (e : N) (adds : list StoredDrawing) :
  let s := run_store os emptyStore in
  (epoch_of u s = e ->
   (save u e adds s).1 = true /\
   (load u (save u e adds s).2).2 ≡ₚ
     retainDrawings (getAll u (records s) ++ filter (fun x => valid_addition u x = true) adds) /\
   (forall v i, v <> u -> records (save u e adds s).2 !! (v, i) = records s !! (v, i))) /\
  (let s' := run_store os' (clear u s).2 in (e <= epoch_of u s)%N -> save u e adds s' = (false, s')).
Proof.
  intros s. destruct (run_store_ok os _ empty_ok) as [Hk Hf]. fold s in Hk, Hf. split.
  - intros He. destruct (save_lookup u e adds s Hk He) as (H1 & _ & _ & H2). split_and!; [done| |].
    + rewrite <- save_getAll by done. apply retain_all.
      * apply getAll_ids. by apply keyed_save.
      * destruct (save_ok u e adds s (conj Hk Hf)) as [_ H]. apply H.
    + intros v i Hv. by rewrite H2.
  - cbv zeta. intros He. unfold save.
    pose proof (run_epoch os' (clear u s).2 u) as Hr.
    assert (epoch_of u (clear u s).2 = (epoch_of u s + 1)%N) as Ec.
    { unfold epoch_of at 1. cbn [clear snd accounts]. by rewrite lookup_insert_eq. }
    rewrite Ec in Hr. by rewrite (proj2 (N.eqb_neq _ _)) by lia.
Qed.

(** ** A platform *)

(** The order of code units. *)
Fixpoint unit_order (a b : list N) : Z :=
  match a, b with
  | [], [] => 0
  | [], _ :: _ => -1
  | _ :: _, [] => 1
  | c :: a', d :: b' => if (c <? d)%N then -1 else if (d <? c)%N then 1 else unit_order a' b'
  end.

Lemma unit_order_total a b : (unit_order a b <= 0 \/ unit_order b a <= 0)%Z.
Proof.
  revert b. induction a as [|c a IH]; intros [|d b]; cbn [unit_order]; [lia|lia|lia|].
  destruct (c <? d)%N eqn:E1, (d <? c)%N eqn:E2; breflect; try lia. apply IH.
Qed.

Lemma unit_order_trans a b c :
  (unit_order a b <= 0 -> unit_order b c <= 0 -> unit_order a c <= 0)%Z.
Proof.
  revert b c. induction a as [|x a IH]; intros [|y b] [|z c]; cbn [unit_order]; try lia.
  destruct (x <? y)%N eqn:E1, (y <? x)%N eqn:E2, (y <? z)%N eqn:E3, (z <? y)%N eqn:E4,
    (x <? z)%N eqn:E5, (z <? x)%N eqn:E6; breflect; try lia. apply IH.
Qed.

(** Records in the order of the map. *)
#[global] Instance map_platform : Platform := {|
  localeCompare := unit_order;
  getAll u m := snd <$> filter (fun kx => kx.1.1 = u) (map_to_list m) |}.

#[global] Instance map_platform_laws : PlatformLaws.
Proof.
  split; [exact unit_order_total|exact unit_order_trans| |]; unfold getAll, map_platform; intros u m.
  - intros x. rewrite list_elem_of_fmap. split.
    + intros ([[v i] y] & -> & [Hv Hy]%list_elem_of_filter). simpl in *. subst v. apply elem_of_map_to_list in Hy. eauto.
    + intros (i & Hx). exists (u, i, x). split; [done|]. apply list_elem_of_filter. split; [done|].
      by apply elem_of_map_to_list.
  - intros Hk. pose proof (NoDup_map_to_list m) as Hn.
    assert (forall l, NoDup l -> (forall k x, (k, x) ∈ l -> m !! k = Some x) ->
              NoDup (snd <$> filter (fun kx : (Z * list N) * StoredDrawing => kx.1.1 = u) l)) as H.
    { induction 1 as [|[[v i] x] l Hx Hl IH]; intros Hm; [constructor|]. rewrite filter_cons. cbn [fst].
      assert (NoDup (snd <$> filter (fun kx : (Z * list N) * StoredDrawing => kx.1.1 = u) l)) as IHl.
      { apply IH. intros k y Hy. apply Hm. by apply list_elem_of_further. }
      case_decide as E; [|done]. subst v. rewrite fmap_cons. constructor; [|done]. cbn [snd].
      intros ([[v j] y] & Hy & [Hv Hin]%list_elem_of_filter)%list_elem_of_fmap. cbn [fst snd] in *. subst v y.
      pose proof (Hm _ _ (list_elem_of_here _ _)) as H1. pose proof (Hm _ _ (list_elem_of_further _ _ _ Hin)) as H2.
      apply Hk in H1. apply Hk in H2. subst. done. }
    apply H; [done|]. intros k x Hx. by apply elem_of_map_to_list.
Qed.

Definition sample_drawing (u : Z) (id : string) (t : Z) : StoredDrawing :=
  mkStored (mkMetadata (js "a lake") (js "model") (js "default") t) u (js id) None (mkBlob 1000 (js "image/png")).

(** Two images are saved; the account is cleared; a save prepared before is refused. *)
Lemma save_and_clear_witness :
  let adds := [sample_drawing 7 "a" 10; sample_drawing 7 "b" 20] in
  (save 7 0 adds emptyStore).1 = true /\
  save 7 0 adds (clear 7 emptyStore).2 = (false, (clear 7 emptyStore).2).
Proof.
  cbv zeta. destruct (save_and_clear [] [] 7 0 [sample_drawing 7 "a" 10; sample_drawing 7 "b" 20]) as [H1 H2].
  split; [apply H1; reflexivity|apply H2; vm_compute; discriminate].
Defined.

(** The limits are not empty: what was saved is loaded. *)
Lemma store_within_limits_witness :
  map drawing_id (load 7 (run_store [OpSave 7 0 [sample_drawing 7 "a" 10; sample_drawing 7 "b" 20]] emptyStore)).2
    = [js "b"; js "a"] /\
  length (load 7 (run_store [OpSave 7 0 [sample_drawing 7 "a" 10; sample_drawing 7 "b" 20]] emptyStore)).2 <= 50.
Proof.
  split; [vm_compute; reflexivity|].
  apply (store_within_limits [OpSave 7 0 [sample_drawing 7 "a" 10; sample_drawing 7 "b" 20]] 7).
Defined.
