(* ===== verification/DrawingBytes.v ===== *)
(** * Image bytes (src/apps/web/src/features/drawing/image-bytes.ts)

    Where the bytes of a generated image come from: base64 in the answer of the
    backend, or a download from a signed URL.  [atob] is written out; the URL parser
    is a parameter.  A download is the response's headers and the sizes of the chunks
    its body yields. *)
From S2P Require Import Prelude JsString JsNumber JsCollections DrawingStore VisualTiers.
From Stdlib Require Import Lia.

Record GeneratedDrawing := mkGenerated {
  gen_url : option (list N);
  b64_json : option (list N);
  revised_prompt : option (list N) }.

Definition rasterTypes : list (list N) := js <$> ["image/png"; "image/jpeg"; "image/webp"; "image/gif"].

(** ** Sources *)

(** What [new URL] returns. *)
Record URL := mkURL { protocol : list N; username : list N; password : list N; href : list N }.

Section Source.
Context (parse_url : list N -> option URL).

Definition safeDrawingURL (value : option (list N)) : option (list N) :=
  match value with
  | Some ((_ :: _) as v) =>
      url ← parse_url v;
      if negb (bool_decide (protocol url = js "https:")) || nonempty (username url) || nonempty (password url)
      then None else Some (href url)
  | _ => None
  end.

Definition drawingSource (image : GeneratedDrawing) : option (list N) :=
  match trim <$> b64_json image with
  | Some ((_ :: _) as b) => Some (js "data:image/png;base64," ++ b)
  | _ => safeDrawingURL (gen_url image)
  end.

End Source.

(** ** Base64 *)

Definition base64_space (c : N) : bool := ((c =? 9) || (c =? 10) || (c =? 12) || (c =? 13) || (c =? 32))%N.

Definition base64_value (c : N) : option N :=
  (if (65 <=? c) && (c <=? 90) then Some (c - 65)
   else if (97 <=? c) && (c <=? 122) then Some (c - 71)
   else if (48 <=? c) && (c <=? 57) then Some (c + 4)
   else if c =? 43 then Some 62
   else if c =? 47 then Some 63
   else None)%N.

(** Four sextets are three bytes; two or three at the end are one or two. *)
Fixpoint sextets (l : list N) : list N :=
  match l with
  | a :: b :: c :: d :: r =>
      [a * 4 + b / 16; b mod 16 * 16 + c / 4; c mod 4 * 64 + d]%N ++ sextets r
  | [a; b; c] => [a * 4 + b / 16; b mod 16 * 16 + c / 4]%N
  | [a; b] => [a * 4 + b / 16]%N
  | _ => []
  end.

(** At most two [=] at the end of a text whose length is a multiple of four. *)
Definition strip_padding (s : list N) : list N :=
  if (length s mod 4 =? 0)%nat then
    match reverse s with
    | 61%N :: 61%N :: r => reverse r
    | 61%N :: r => reverse r
    | _ => s
    end
  else s.

Definition atob (data : list N) : option (list N) :=
  let s := strip_padding (filter (fun c => base64_space c = false) data) in
  if (length s mod 4 =? 1)%nat then None else sextets <$> mapM base64_value s.

Definition BASE64_LIMIT : N := (DRAWING_IMAGE_BYTES + 2) / 3 * 4.

Definition sniff (binary : list N) : list N :=
  if bool_decide (binary !! 0 = Some 255%N) && bool_decide (binary !! 1 = Some 216%N) then js "image/jpeg"
  else if starts_with (js "GIF8") binary then js "image/gif"
  else if starts_with (js "RIFF") binary && bool_decide (take 4 (drop 8 binary) = js "WEBP") then js "image/webp"
  else js "image/png".

Definition drawingBase64Blob (value : list N) : res Blob :=
  if (BASE64_LIMIT <? N.of_nat (length value))%N then throw "Drawing image exceeds browser cache limit"
  else
    match atob (trim value) with
    | None => throw "InvalidCharacterError"
    | Some [] => throw "Empty drawing image"
    | Some binary => Ok (mkBlob (N.of_nat (length binary)) (sniff binary))
    end.

(** ** Downloads *)

Record DownloadResponse := mkDownload {
  ok : bool;
  content_type : option (list N);
  content_length : option (list N);
  body : option (list N) (* the sizes of the chunks *) }.

(** [get('content-type')?.split(';')[0].trim().toLowerCase()]; media types are ASCII. *)
Definition media_type (h : option (list N)) : option (list N) :=
  (fun t => lower_ascii <$> trim (default [] (head (split_on 59%N t)))) <$> h.

Fixpoint read_chunks (bytes : N) (chunks : list N) : res N :=
  match chunks with
  | [] => Ok bytes
  | c :: r =>
      if (DRAWING_IMAGE_BYTES <? bytes + c)%N then throw "Drawing image exceeds browser cache limit"
      else read_chunks (bytes + c) r
  end.

(** The part of [fetchDrawingBlob] after the response. *)
Definition download_blob (r : DownloadResponse) : res Blob :=
  match ok r, media_type (content_type r), body r with
  | true, Some type, Some chunks =>
      if negb (bool_decide (type ∈ rasterTypes)) then throw "Drawing URL could not be cached as an image"
      else if num_ltb (num_of_Z (Z.of_N DRAWING_IMAGE_BYTES)) (number_of_string (default [] (content_length r)))
      then throw "Drawing image exceeds browser cache limit"
      else
        let* bytes := read_chunks 0 chunks in
        if (bytes =? 0)%N then throw "Empty drawing image" else Ok (mkBlob bytes type)
  | _, _, _ => throw "Drawing URL could not be cached as an image"
  end.

(** [fetch] is [None] when it rejects: network, CORS, redirect, abort or timeout. *)
Definition fetchDrawingBlob (parse_url : list N -> option URL) (fetch : list N -> option DownloadResponse)
    (source : list N) : res Blob :=
  match safeDrawingURL parse_url (Some source) with
  | None => throw "Unsafe drawing image URL"
  | Some url => match fetch url with Some r => download_blob r | None => throw "fetch failed" end
  end.

(** ** Bounds *)

Lemma sextets_length l : 4 * length (sextets l) <= 3 * length l.
Proof.
  induction l as [l IH] using (induction_ltof1 _ length). unfold ltof in IH.
  destruct l as [|a [|b [|c [|d r]]]]; try (cbn; lia).
  assert (4 * length (sextets r) <= 3 * length r) as H by (apply IH; cbn; lia).
  cbn [sextets]. rewrite length_app. cbn [length]. lia.
Qed.

Lemma strip_padding_length s : length (strip_padding s) <= length s.
Proof.
  unfold strip_padding. destruct (_ =? 0); [|lia].
  assert (length (reverse s) = length s) as H by apply length_reverse. revert H.
  destruct (reverse s) as [|x r]; intros H; [lia|]. cbn [length] in H.
  repeat (match goal with |- context [match ?p with _ => _ end] => destruct p end);
    rewrite ?length_reverse; cbn [length] in *; lia.
Qed.

Lemma mapM_length {A B} (f : A -> option B) l k : mapM f l = Some k -> length k = length l.
Proof. intros H. apply mapM_Some in H. by apply Forall2_length in H. Qed.

Lemma trim_length s : length (trim s) <= length s.
Proof.
  assert (forall p t, length (drop_while p t) <= length t) as Hd.
  { intros p t. destruct (drop_while_suffix p t) as [a H]. rewrite H at 2. rewrite length_app. lia. }
  unfold trim, trim_end, trim_start. rewrite length_reverse.
  pose proof (Hd is_space (reverse (drop_while is_space s))) as H1. rewrite length_reverse in H1.
  pose proof (Hd is_space s). lia.
Qed.

Lemma atob_length s b : atob s = Some b -> 4 * length b <= 3 * length s.
Proof.
  unfold atob. destruct (_ =? 1); [done|]. intros (k & Hk & ->)%fmap_Some.
  pose proof (sextets_length k). apply mapM_length in Hk.
  pose proof (strip_padding_length (filter (fun c => base64_space c = false) s)).
  pose proof (length_filter (fun c => base64_space c = false) s). lia.
Qed.

Lemma base64_size v b : drawingBase64Blob v = Ok b -> (0 < size b <= 33554433)%N.
Proof.
  unfold drawingBase64Blob. destruct (_ <? _)%N eqn:E; [done|]. apply N.ltb_ge in E.
  destruct (atob (trim v)) as [[|x bs]|] eqn:Ea; try done. intros [= <-]. cbn [size].
  apply atob_length in Ea. pose proof (trim_length v). cbn [length] in *.
  change BASE64_LIMIT with 44739244%N in E. lia.
Qed.

Lemma read_chunks_bound chunks n m : (n <= DRAWING_IMAGE_BYTES)%N -> read_chunks n chunks = Ok m ->
  (m <= DRAWING_IMAGE_BYTES)%N.
Proof.
  revert n. induction chunks as [|c r IH]; intros n Hn; cbn [read_chunks]; [by intros [= <-]|].
  destruct (_ <? _)%N eqn:E; [done|]. apply N.ltb_ge in E. by apply IH.
Qed.

Lemma download_size r b : download_blob r = Ok b -> (0 < size b <= 33554432)%N /\ mime b ∈ rasterTypes.
Proof.
  unfold download_blob. destruct (ok r); [|done]. destruct (media_type _) as [type|]; [|done].
  destruct (body r) as [chunks|]; [|done]. destruct (negb _) eqn:E; [done|]. breflect.
  destruct (num_ltb _ _); [done|]. intros H. apply res_bind_Ok in H as (n & Hn & H).
  destruct (n =? 0)%N eqn:E0; [done|]. apply N.eqb_neq in E0. injection H as <-. split; [|done]. cbn [size].
  assert (n <= DRAWING_IMAGE_BYTES)%N as Hb by (by apply (read_chunks_bound chunks 0 n)).
  change DRAWING_IMAGE_BYTES with 33554432%N in Hb. lia.
Qed.

(** ** A text of full length *)

Lemma sextets_zeros k : length (sextets (replicate (4 * k) 0%N)) = 3 * k.
Proof.
  induction k as [|k IH]; [done|]. replace (4 * S k) with (S (S (S (S (4 * k))))) by lia.
  cbn [replicate sextets]. rewrite length_app, IH. cbn [length]. lia.
Qed.

Lemma mapM_replicate {A B} (f : A -> option B) n x y : f x = Some y -> mapM f (replicate n x) = Some (replicate n y).
Proof. intros H. induction n as [|n IH]; simpl; [done|]. by rewrite H, IH. Qed.

Lemma atob_zeros k : k <> 0 -> exists b, atob (replicate (4 * k) 65%N) = Some b /\ length b = 3 * k.
Proof.
  intros Hk. unfold atob. rewrite filter_all by (by apply Forall_replicate).
  assert (strip_padding (replicate (4 * k) 65%N) = replicate (4 * k) 65%N) as ->.
  { unfold strip_padding. destruct (_ =? 0); [|done]. rewrite reverse_replicate.
    destruct (4 * k) eqn:E; [lia|]. done. }
  rewrite length_replicate. replace ((4 * k) mod 4 =? 1) with false.
  - rewrite (mapM_replicate _ _ _ 0%N) by done. eexists. split; [done|]. apply sextets_zeros.
  - symmetry. apply Nat.eqb_neq. rewrite Nat.mul_comm, Nat.Div0.mod_mul. lia.
Qed.

Lemma trim_letters n : trim (replicate n 65%N) = replicate n 65%N.
Proof. apply trim_trimmed, no_space_trimmed. by apply Forall_replicate. Qed.

(** Bytes that enter the history are never empty; a download is at most 32 MiB and of a
    raster type; base64 text is decoded up to one byte more than that, and the bound
    is reached. *)
Theorem image_bytes_bounded :
  (forall v b, drawingBase64Blob v = Ok b -> (0 < size b <= 33554433)%N) /\
  (forall r b, download_blob r = Ok b -> (0 < size b <= 33554432)%N /\ mime b ∈ rasterTypes) /\
  (exists v b, drawingBase64Blob v = Ok b /\ size b = 33554433%N).
Proof.
  split_and!; [apply base64_size|apply download_size|].
  set (k := N.to_nat 11184811). assert (N.of_nat k = 11184811%N) as Hk by apply N2Nat.id. clearbody k.
  destruct (atob_zeros k) as (b & Hb & Hl); [lia|].
  exists (replicate (4 * k) 65%N), (mkBlob (N.of_nat (length b)) (sniff b)).
  split; [|cbn [size]; rewrite Hl; lia].
  unfold drawingBase64Blob. rewrite length_replicate, trim_letters.
  replace (BASE64_LIMIT <? N.of_nat (4 * k))%N with false.
  - rewrite Hb. destruct b; [cbn [length] in Hl; lia|done].
  - symmetry. apply N.ltb_ge. change BASE64_LIMIT with 44739244%N. lia.
Qed.
