(* ===== verification/DrawingHistory.v ===== *)
(** * Drawing history (src/apps/web/src/features/drawing/drawing-history.ts)

    The images an account sees: loaded from the database of [DrawingStore], extended by
    what is generated, saved in the background and cleared.  Every operation takes a
    ticket, the revision at its start; a later start, reload, clear or dispose raises
    the revision, and what was in flight must then leave no trace.

    Asynchronous operations are tasks cut at their [await]s; commits to the database,
    deliveries and downloads happen in any order, and other tabs use the same database.
    Object URLs are numbers: [live] is the set the browser holds, [urls] the field of
    the class.  The abort controller only makes downloads fail, which they may do at
    any time here.  Listeners are not modelled. *)
From S2P Require Import Prelude JsString JsCollections DrawingStore DrawingBytes.
From Stdlib Require Import Lia.

Inductive Src := Object (n : nat) | Text (s : list N).

Record DrawingPreview := mkPreview {
  preview_metadata : DrawingMetadata;
  preview_user : Z;
  preview_id : list N;
  preview_revised : option (list N);
  src : Src;
  preview_blob : option Blob;
  saved : bool }.

#[global] Instance DrawingPreview_retained : Retained DrawingPreview := {|
  rid := preview_id;
  rcreated x := createdAt (preview_metadata x);
  rblob := preview_blob |}.

Inductive Warning := WLoad | WSave | WClear.

Record Snapshot := mkSnapshot {
  images : list DrawingPreview;
  loading : bool;
  saving : bool;
  clearing : bool;
  warning : option Warning }.

Definition initialSnapshot : Snapshot := mkSnapshot [] true false false None.

(** ** Work in flight *)

(** An image of [remember]: its bytes are being downloaded, are there, or are lost. *)
Inductive SlotState := Downloading (from : Src) | Got (record : StoredDrawing) | Dropped.

Record Slot := mkSlot { slot_id : list N; slot_revised : option (list N); slot_state : SlotState }.

Record Job := mkJob { ticket : nat; job_metadata : DrawingMetadata; slots : list Slot; failed : bool }.

(** [got] is what the transaction returned: not yet, an error, or a value. *)
Inductive Task :=
| TLoad (merge : bool) (t : nat) (got : option (option (N * list StoredDrawing))) (* [start] or [reload] *)
| TLoaded (t : nat) (* [start] before its [finally] *)
| TClear (t : nat) (got : option (option N))
| TDownloads (j : Job)
| TReady (j : Job) (ready : option nat)
| TSave (j : Job) (e : N) (got : option (option bool)).

Definition ticket_of (t : Task) : nat :=
  match t with
  | TLoad _ t _ | TLoaded t | TClear t _ => t
  | TDownloads j | TReady j _ | TSave j _ _ => ticket j
  end.

(** What the class shows and keeps for itself. *)
Record View := mkView {
  snapshot : Snapshot;
  urls : gset nat;
  live : gset nat;
  revision : nat;
  active : bool;
  epoch : option N }.

Record History := mkHistory {
  view : View;
  next_url : nat;
  ready : option nat; (* the task behind [this.ready]; [None] is a resolved promise *)
  tasks : gmap nat Task;
  next_task : nat;
  db : Store }.

Definition initialHistory (s : Store) : History :=
  mkHistory (mkView initialSnapshot ∅ ∅ 0 false None) 0 None ∅ 0 s.

Definition on_view (f : View -> View) (h : History) : History :=
  mkHistory (f (view h)) (next_url h) (ready h) (tasks h) (next_task h) (db h).
Definition set_task (id : nat) (t : Task) (h : History) : History :=
  mkHistory (view h) (next_url h) (ready h) (<[id := t]> (tasks h)) (next_task h) (db h).
Definition end_task (id : nat) (h : History) : History :=
  mkHistory (view h) (next_url h) (ready h) (delete id (tasks h)) (next_task h) (db h).
Definition spawn (t : Task) (h : History) : History :=
  mkHistory (view h) (next_url h) (ready h) (<[next_task h := t]> (tasks h)) (S (next_task h)) (db h).
Definition set_db (s : Store) (h : History) : History :=
  mkHistory (view h) (next_url h) (ready h) (tasks h) (next_task h) s.

Definition current (t : nat) (h : History) : bool := active (view h) && (t =? revision (view h))%nat.

(** ** The snapshot and its URLs *)

Definition object_url (x : DrawingPreview) : option nat := match src x with Object n => Some n | Text _ => None end.

Definition object_urls (l : list DrawingPreview) : gset nat := list_to_set (omap object_url l).

(** [update]: URLs that are no longer shown are revoked. *)
Definition update_view (patch : Snapshot -> Snapshot) (v : View) : View :=
  let s := patch (snapshot v) in
  let used := object_urls (images s) in
  mkView s (urls v ∩ used) (live v ∖ (urls v ∖ used)) (revision v) (active v) (epoch v).

Definition update (patch : Snapshot -> Snapshot) (h : History) : History := on_view (update_view patch) h.

Definition with_images (l : list DrawingPreview) (s : Snapshot) : Snapshot :=
  mkSnapshot l (loading s) (saving s) (clearing s) (warning s).
Definition with_loading (b : bool) (s : Snapshot) : Snapshot :=
  mkSnapshot (images s) b (saving s) (clearing s) (warning s).
Definition with_saving (b : bool) (s : Snapshot) : Snapshot :=
  mkSnapshot (images s) (loading s) b (clearing s) (warning s).
Definition with_clearing (b : bool) (s : Snapshot) : Snapshot :=
  mkSnapshot (images s) (loading s) (saving s) b (warning s).
Definition with_warning (w : Warning) (s : Snapshot) : Snapshot :=
  mkSnapshot (images s) (loading s) (saving s) (clearing s) (Some w).

Definition next_revision (v : View) : View :=
  mkView (snapshot v) (urls v) (live v) (S (revision v)) (active v) (epoch v).
Definition set_active (b : bool) (v : View) : View :=
  mkView (snapshot v) (urls v) (live v) (revision v) b (epoch v).
Definition set_epoch (e : option N) (v : View) : View :=
  mkView (snapshot v) (urls v) (live v) (revision v) (active v) e.

(** [URL.createObjectURL] and [this.urls.add]. *)
Definition create_url (h : History) : nat * History :=
  let n := next_url h in
  (n, mkHistory (mkView (snapshot (view h)) ({[n]} ∪ urls (view h)) ({[n]} ∪ live (view h)) (revision (view h))
                   (active (view h)) (epoch (view h)))
        (S n) (ready h) (tasks h) (next_task h) (db h)).

Definition preview (x : StoredDrawing) (sv : bool) (h : History) : DrawingPreview * History :=
  let '(n, h') := create_url h in
  (mkPreview (metadata x) (userId x) (drawing_id x) (revisedPrompt x) (Object n) (Some (blob x)) sv, h').

Fixpoint previews (l : list StoredDrawing) (h : History) : list DrawingPreview * History :=
  match l with
  | [] => ([], h)
  | x :: r => let '(p, h1) := preview x true h in let '(ps, h2) := previews r h1 in (p :: ps, h2)
  end.

(** ** Operations *)

Section Operations.
Context {PF : Platform} (me : Z) (parse_url : list N -> option URL).

Definition spawn_load (merge : bool) (h : History) : History :=
  spawn (TLoad merge (revision (view h)) None) h.

Definition start (h : History) : History :=
  let h1 := update (with_loading true) (on_view next_revision (on_view (set_active true) h)) in
  let h2 := spawn_load true h1 in
  mkHistory (view h2) (next_url h2) (Some (next_task h1)) (tasks h2) (next_task h2) (db h2).

Definition reload (h : History) : History :=
  if negb (active (view h)) then h else spawn_load false (on_view next_revision h).

(** The handlers of a loaded history. *)
Definition show_loaded (merge : bool) (data : N * list StoredDrawing) (h : History) : History :=
  let h1 := on_view (set_epoch (Some data.1)) h in
  let '(l, h2) := previews (filter (fun x => userId x = me) data.2) h1 in
  update (fun s => with_images (retainDrawings (if merge then l ++ images s else l)) s) h2.

Definition deliver_load (id : nat) (merge : bool) (t : nat) (got : option (N * list StoredDrawing)) (h : History)
  : History :=
  let h1 := if current t h then
              match got with
              | Some data => show_loaded merge data h
              | None => if merge then update (with_warning WLoad) h else h
              end
            else h in
  if merge then set_task id (TLoaded t) h1 else end_task id h1.

Definition deliver_loaded (id t : nat) (h : History) : History :=
  end_task id (if current t h then update (with_loading false) h else h).

(** The loop of [remember] over the generated images; each comes with its fresh id. *)
Fixpoint remember_additions (m : DrawingMetadata) (raw : list (GeneratedDrawing * list N)) (h : History)
  : list DrawingPreview * list Slot * bool * History :=
  match raw with
  | [] => ([], [], false, h)
  | (g, id) :: r =>
      match drawingSource parse_url g with
      | None => remember_additions m r h
      | Some source =>
          let plain := mkPreview m me id (revised_prompt g) (Text source) None false in
          let slot st := mkSlot id (revised_prompt g) st in
          let '(p, st, bad, h1) :=
            match b64_json g with
            | Some ((_ :: _) as b) =>
                match drawingBase64Blob b with
                | Ok bl =>
                    let rec := mkStored m me id (revised_prompt g) bl in
                    let '(p, h') := preview rec false h in (p, Got rec, false, h')
                | Throw _ => (plain, Downloading (Text source), true, h)
                end
            | _ => (plain, Downloading (Text source), false, h)
            end in
          let '(ps, sl, bad', h2) := remember_additions m r h1 in
          (p :: ps, slot st :: sl, bad || bad', h2)
      end
  end.

Definition remember (raw : list (GeneratedDrawing * list N)) (m : DrawingMetadata) (t : nat) (h : History) : History :=
  if negb (current t h) || clearing (snapshot (view h)) then h
  else
    let '(additions, sl, bad, h1) := remember_additions m raw h in
    let h2 := update (fun s => with_saving true (with_images (retainDrawings (images s ++ additions)) s)) h1 in
    spawn (TDownloads (mkJob t m sl bad)) h2.

Definition set_slot (i : nat) (st : SlotState) (j : Job) : Job :=
  mkJob (ticket j) (job_metadata j)
    (alter (fun s => mkSlot (slot_id s) (slot_revised s) st) i (slots j)) (failed j).

Definition set_failed (j : Job) : Job := mkJob (ticket j) (job_metadata j) (slots j) true.

(** One download of [remember] ends. *)
Definition downloaded (id i : nat) (j : Job) (s : Slot) (result : res Blob) (h : History) : History :=
  match result with
  | Throw _ => set_task id (TDownloads (set_failed (set_slot i Dropped j))) h
  | Ok b =>
      if negb (current (ticket j) h) then set_task id (TDownloads (set_slot i Dropped j)) h
      else
        let record := mkStored (job_metadata j) me (slot_id s) (slot_revised s) b in
        let '(p, h1) := preview record false h in
        let h2 := update (fun sn => with_images (retainDrawings
                    (map (fun item => if bool_decide (preview_id item = slot_id s) then p else item) (images sn))) sn) h1 in
        set_task id (TDownloads (set_slot i (Got record) j)) h2
  end.

Definition is_downloading (s : Slot) : bool := match slot_state s with Downloading _ => true | _ => false end.

Definition valid_records (j : Job) : list StoredDrawing :=
  omap (fun s => match slot_state s with Got r => Some r | _ => None end) (slots j).

(** The [finally] of [remember]. *)
Definition finish_remember (id : nat) (j : Job) (h : History) : History :=
  end_task id
    (if current (ticket j) h
     then update (fun s => let s1 := with_saving false s in if failed j then with_warning WSave s1 else s1) h
     else h).

Definition after_ready (id : nat) (j : Job) (h : History) : History :=
  if negb (current (ticket j) h) then finish_remember id j h
  else match epoch (view h) with
       | None => finish_remember id (set_failed j) h
       | Some e => set_task id (TSave j e None) h
       end.

Definition mark_saved (ids : list (list N)) (l : list DrawingPreview) : list DrawingPreview :=
  map (fun x => if bool_decide (preview_id x ∈ ids)
                then mkPreview (preview_metadata x) (preview_user x) (preview_id x) (preview_revised x) (src x)
                       (preview_blob x) true
                else x) l.

Definition deliver_save (id : nat) (j : Job) (got : option bool) (h : History) : History :=
  match got with
  | None => finish_remember id (set_failed j) h
  | Some ok =>
      if negb (current (ticket j) h) then finish_remember id j h
      else if negb ok then
        finish_remember id j (start (update (fun s => with_saving false (with_images [] s)) h))
      else
        finish_remember id j
          (update (fun s => with_images (mark_saved (map drawing_id (valid_records j)) (images s)) s) h)
  end.

Definition clear_history (h : History) : History :=
  if negb (active (view h)) || clearing (snapshot (view h)) then h
  else
    let h1 := on_view next_revision h in
    let h2 := update (fun _ => mkSnapshot [] false false true None) h1 in
    spawn (TClear (revision (view h1)) None) h2.

Definition deliver_clear (id t : nat) (got : option N) (h : History) : History :=
  end_task id
    (if current t h then
       update (with_clearing false)
         (match got with Some e => on_view (set_epoch (Some e)) h | None => update (with_warning WClear) h end)
     else h).

Definition dispose (h : History) : History :=
  on_view (fun v => mkView initialSnapshot ∅ (live v ∖ urls v) (S (revision v)) false None) h.

(** ** Events *)

Inductive HEvent :=
| HStart
| HReload
| HRemember (raw : list (GeneratedDrawing * list N)) (m : DrawingMetadata) (t : nat)
| HClear
| HDispose
| HCommit (id : nat) (ok : bool) (* the transaction of a task runs, or aborts *)
| HDeliver (id : nat) (* its promise settles *)
| HDownload (id i : nat) (result : res Blob)
| HDownloaded (id : nat) (* [Promise.all] resolves *)
| HReady (id : nat) (* [await this.ready] *)
| HOther (o : StoreOp). (* another tab *)

Definition commit (id : nat) (ok : bool) (h : History) : History :=
  match tasks h !! id with
  | Some (TLoad m t None) => set_task id (TLoad m t (Some (if ok then Some (load me (db h)) else None))) h
  | Some (TClear t None) =>
      if ok then let '(e, s) := clear me (db h) in set_task id (TClear t (Some (Some e))) (set_db s h)
      else set_task id (TClear t (Some None)) h
  | Some (TSave j e None) =>
      if ok then let '(b, s) := save me e (valid_records j) (db h) in set_task id (TSave j e (Some (Some b))) (set_db s h)
      else set_task id (TSave j e (Some None)) h
  | _ => h
  end.

Definition deliver (id : nat) (h : History) : History :=
  match tasks h !! id with
  | Some (TLoad m t (Some got)) => deliver_load id m t got h
  | Some (TLoaded t) => deliver_loaded id t h
  | Some (TClear t (Some got)) => deliver_clear id t got h
  | Some (TSave j _ (Some got)) => deliver_save id j got h
  | _ => h
  end.

Definition resolved (r : option nat) (h : History) : bool :=
  match r with Some id => bool_decide (tasks h !! id = None) | None => true end.

Definition history_step (e : HEvent) (h : History) : History :=
  match e with
  | HStart => start h
  | HReload => reload h
  | HRemember raw m t => remember raw m t h
  | HClear => clear_history h
  | HDispose => dispose h
  | HCommit id ok => commit id ok h
  | HDeliver id => deliver id h
  | HDownload id i result =>
      match tasks h !! id with
      | Some (TDownloads j) =>
          match slots j !! i with
          | Some s => if is_downloading s then downloaded id i j s result h else h
          | None => h
          end
      | _ => h
      end
  | HDownloaded id =>
      match tasks h !! id with
      | Some (TDownloads j) => if existsb is_downloading (slots j) then h else set_task id (TReady j (ready h)) h
      | _ => h
      end
  | HReady id =>
      match tasks h !! id with
      | Some (TReady j r) => if resolved r h then after_ready id j h else h
      | _ => h
      end
  | HOther o => set_db (store_step o (db h)) h
  end.

Definition run_history (es : list HEvent) (h : History) : History := fold_left (fun h e => history_step e h) es h.

End Operations.

(** ** Object URLs *)

Lemma elem_of_object_urls n l : n ∈ object_urls l <-> exists x, x ∈ l /\ src x = Object n.
Proof.
  unfold object_urls. rewrite elem_of_list_to_set, list_elem_of_omap. unfold object_url.
  split; intros (x & Hx & E); exists x; (split; [done|]); destruct (src x); naive_solver.
Qed.

(** Between the creation of URLs and the next [update]. *)
Definition covered (h : History) : Prop :=
  live (view h) = urls (view h) /\ object_urls (images (snapshot (view h))) ⊆ urls (view h).

Definition images_ok (me : Z) (l : list DrawingPreview) : Prop :=
  Forall (fun x => preview_user x = me) l /\ fits l /\ NoDup (map rid l).

(** Exactly the URLs on display are held. *)
Definition shown (me : Z) (h : History) : Prop :=
  urls (view h) = object_urls (images (snapshot (view h))) /\ live (view h) = urls (view h) /\
  images_ok me (images (snapshot (view h))).

Lemma shown_covered me h : shown me h -> covered h.
Proof. intros (H1 & H2 & _). split; [done|]. by rewrite H1. Qed.

Lemma update_shown me patch h :
  covered h -> object_urls (images (patch (snapshot (view h)))) ⊆ urls (view h) ->
  images_ok me (images (patch (snapshot (view h)))) -> shown me (update patch h).
Proof.
  intros [Hl _] Hsub Hok. unfold shown, update, on_view, update_view. cbn [view urls live snapshot].
  split_and!; [set_solver| |done]. rewrite Hl.
  apply set_eq. intros n. rewrite elem_of_difference, elem_of_intersection, elem_of_difference.
  split; [|naive_solver]. intros [H1 H2]. split; [done|].
  destruct (decide (n ∈ object_urls (images (patch (snapshot (view h)))))); [done|naive_solver].
Qed.

Lemma update_flags me patch h :
  shown me h -> images (patch (snapshot (view h))) = images (snapshot (view h)) -> shown me (update patch h).
Proof.
  intros Hs Hi. apply update_shown; rewrite ?Hi; [by eapply shown_covered|by destruct Hs as [-> _]|apply Hs].
Qed.

Lemma update_empty me patch h :
  covered h -> images (patch (snapshot (view h))) = [] -> shown me (update patch h).
Proof.
  intros Hc Hi. apply update_shown; rewrite ?Hi; [done|unfold object_urls; set_solver|].
  split_and!; [constructor|split; [cbn; lia|apply N.le_0_l]|constructor].
Qed.

(** ** Creating previews *)

(** [h'] is [h] with more URLs. *)
Definition grown (h h' : History) : Prop :=
  snapshot (view h') = snapshot (view h) /\ revision (view h') = revision (view h) /\
  active (view h') = active (view h) /\ epoch (view h') = epoch (view h) /\
  tasks h' = tasks h /\ next_task h' = next_task h /\ ready h' = ready h /\ db h' = db h /\
  urls (view h) ⊆ urls (view h') /\ (live (view h) = urls (view h) -> live (view h') = urls (view h')).

#[global] Instance grown_preorder : PreOrder grown.
Proof.
  split; [intros h; by split_and!|]. intros a b c Hab Hbc. unfold grown in *.
  destruct Hab as (? & ? & ? & ? & ? & ? & ? & ? & ? & ?), Hbc as (? & ? & ? & ? & ? & ? & ? & ? & ? & ?).
  split_and!; try congruence; [set_solver|auto].
Qed.

Lemma grown_covered h h' : grown h h' -> covered h -> covered h'.
Proof.
  intros (Hs & _ & _ & _ & _ & _ & _ & _ & Hu & Hl) [H1 H2]. split; [auto|]. rewrite Hs. set_solver.
Qed.

(** The previews are the images [l] of user [me], with their URLs held. *)
Definition held (me : Z) (l : list DrawingPreview) (h : History) : Prop :=
  Forall (fun x => preview_user x = me) l /\ object_urls l ⊆ urls (view h).

Lemma held_grown me l h h' : grown h h' -> held me l h -> held me l h'.
Proof. intros (_ & _ & _ & _ & _ & _ & _ & _ & Hu & _) [H1 H2]. split; [done|set_solver]. Qed.

Lemma held_cons me p l h : held me [p] h -> held me l h -> held me (p :: l) h.
Proof.
  intros [H1 H2] [H3 H4]. split; [constructor; [by inversion H1|done]|].
  intros n (x & [->|Hx]%elem_of_cons & E)%elem_of_object_urls.
  - apply H2, elem_of_object_urls. exists p. split; [left|done].
  - apply H4, elem_of_object_urls. eauto.
Qed.

Lemma held_nil me h : held me [] h.
Proof. split; [constructor|unfold object_urls; set_solver]. Qed.


Lemma preview_spec me x sv h :
  userId x = me -> grown h (preview x sv h).2 /\ held me [(preview x sv h).1] (preview x sv h).2.
Proof.
  intros Hu. unfold preview, create_url. cbn [fst snd]. split.
  - split_and!; try done; cbn [view urls live]; [set_solver|by intros ->].
  - split; [by constructor|]. cbn [view urls]. intros n (y & Hy & E)%elem_of_object_urls.
    apply list_elem_of_singleton in Hy as ->. simpl in E. injection E as <-. set_solver.
Qed.

Lemma previews_spec me l h :
  Forall (fun x => userId x = me) l -> grown h (previews l h).2 /\ held me (previews l h).1 (previews l h).2.
Proof.
  intros Hl. revert h. induction Hl as [|x l Hx _ IH]; intros h; cbn [previews]; [split; [done|apply held_nil]|].
  destruct (preview_spec me x true h Hx) as [H1 H2]. destruct (preview x true h) as [p h1].
  destruct (IH h1) as [H3 H4]. destruct (previews l h1) as [ps h2]. cbn [fst snd] in *.
  split; [by etrans|]. apply held_cons; [by eapply held_grown|done].
Qed.

Lemma plain_held me m id rp s h : held me [mkPreview m me id rp (Text s) None false] h.
Proof.
  split; [by constructor|]. intros n (y & Hy & E)%elem_of_object_urls.
  apply list_elem_of_singleton in Hy as ->. discriminate E.
Qed.

Lemma additions_spec me parse_url m raw h :
  let '(ps, sl, bad, h') := remember_additions me parse_url m raw h in grown h h' /\ held me ps h'.
Proof.
  revert h. induction raw as [|[g id] raw IH]; intros h; cbn [remember_additions]; [split; [done|apply held_nil]|].
  destruct (drawingSource parse_url g) as [source|]; [|apply IH].
  set (plain := mkPreview m me id (revised_prompt g) (Text source) None false).
  assert (forall p st (bad : bool) h1, grown h h1 -> held me [p] h1 ->
    let '(ps, sl, bad', h') := (let '(ps, sl, bad', h2) := remember_additions me parse_url m raw h1 in
       (p :: ps, mkSlot id (revised_prompt g) st :: sl, bad || bad', h2)) in grown h h' /\ held me ps h') as Hnext.
  { intros p st bad h1 Hg Hp. specialize (IH h1). destruct (remember_additions me parse_url m raw h1) as [[[ps sl] bad'] h2].
    destruct IH as [H1 H2]. split; [by etrans|]. apply held_cons; [by eapply held_grown|done]. }
  destruct (b64_json g) as [[|c b]|]; [by apply Hnext, plain_held| |by apply Hnext, plain_held].
  destruct (drawingBase64Blob (c :: b)) as [bl|]; [|by apply Hnext, plain_held].
  destruct (preview_spec me (mkStored m me id (revised_prompt g) bl) false h eq_refl) as [H1 H2].
  destruct (preview (mkStored m me id (revised_prompt g) bl) false h) as [p h1]. by apply Hnext.
Qed.

(** ** Lists that are shown *)

Section Shown.
Context {PF : Platform} {PL : PlatformLaws}.

Lemma retain_images_ok me l : Forall (fun x => preview_user x = me) l -> images_ok me (retainDrawings l).
Proof.
  intros Hl. split_and!; [|apply retain_fits|apply retained_NoDup].
  apply Forall_forall. intros x Hx. apply retained_sublist, last_at_Some in Hx as [Hx _].
  by apply (proj1 (Forall_forall _ _) Hl).
Qed.

Lemma retain_urls l X : object_urls l ⊆ X -> object_urls (retainDrawings l) ⊆ X.
Proof.
  intros Hl n (x & Hx & E)%elem_of_object_urls. apply retained_sublist, last_at_Some in Hx as [Hx _].
  apply Hl, elem_of_object_urls. eauto.
Qed.

Lemma object_urls_app a b : object_urls (a ++ b) = object_urls a ∪ object_urls b.
Proof. unfold object_urls. by rewrite omap_app, list_to_set_app_L. Qed.

(** Showing what is retained of a list that is held. *)
Lemma update_retained me patch l h :
  covered h -> held me l h -> images (patch (snapshot (view h))) = retainDrawings l -> shown me (update patch h).
Proof.
  intros Hc [H1 H2] Hi. apply update_shown; rewrite ?Hi; [done|by apply retain_urls|by apply retain_images_ok].
Qed.

Lemma held_app me a b h : held me a h -> held me b h -> held me (a ++ b) h.
Proof. intros [H1 H2] [H3 H4]. split; [by apply Forall_app_2|]. rewrite object_urls_app. set_solver. Qed.

Lemma shown_held me h h' : shown me h -> grown h h' -> held me (images (snapshot (view h'))) h'.
Proof.
  intros (H1 & _ & H3 & _) (Hs & _ & _ & _ & _ & _ & _ & _ & Hu & _). rewrite Hs. split; [done|]. by rewrite <- H1.
Qed.

Lemma mark_saved_ok me ids l : images_ok me l ->
  images_ok me (mark_saved ids l) /\ object_urls (mark_saved ids l) = object_urls l.
Proof.
  set (f := fun x : DrawingPreview => if bool_decide (preview_id x ∈ ids) then mkPreview (preview_metadata x) (preview_user x)
             (preview_id x) (preview_revised x) (src x) (preview_blob x) true else x).
  assert (forall x, rid (f x) = rid x /\ blob_size (f x) = blob_size x /\ src (f x) = src x /\
            preview_user (f x) = preview_user x) as Hf.
  { intros x. unfold f. by destruct (bool_decide _). }
  intros (H1 & [H2 H3] & H4). change (mark_saved ids l) with (map f l). split; [split_and!|].
  - apply Forall_fmap. eapply Forall_impl; [exact H1|]. intros x Hx. simpl. destruct (Hf x) as (_ & _ & _ & ->). done.
  - split; [by rewrite length_map|]. replace (total (map f l)) with (total l); [done|]. clear H1 H2 H3 H4.
    unfold total. induction l as [|x l IH]; cbn [map foldr]; [done|]. rewrite IH. by destruct (Hf x) as (_ & -> & _).
  - rewrite map_map. erewrite map_ext; [exact H4|]. intros x. apply Hf.
  - apply set_eq. intros n. rewrite !elem_of_object_urls. split.
    + intros (x & (y & -> & Hy)%list_elem_of_fmap & E). exists y. split; [done|]. by destruct (Hf y) as (_ & _ & <- & _).
    + intros (x & Hx & E). exists (f x). split; [by apply list_elem_of_fmap_2|]. by destruct (Hf x) as (_ & _ & -> & _).
Qed.

(** The image that has just been downloaded takes the place of its preview. *)
Lemma held_replace me p i l h :
  held me [p] h -> held me l h ->
  held me (map (fun item => if bool_decide (preview_id item = i) then p else item) l) h.
Proof.
  intros Hp [H1 H2]. induction l as [|x l IH]; [apply held_nil|]. cbn [map].
  assert (held me [x] h /\ held me l h) as [Hx Hl].
  { inversion H1; subst. change (x :: l) with ([x] ++ l) in H2. rewrite object_urls_app in H2.
    split; (split; [by repeat constructor|set_solver]). }
  apply held_cons; [by destruct (bool_decide _)|]. apply IH; apply Hl.
Qed.

(** ** Every event shows exactly what it holds *)

Lemma shown_view me h h' : view h' = view h -> shown me h -> shown me h'.
Proof. unfold shown. by intros ->. Qed.

Lemma start_shown me h : shown me h -> shown me (start h).
Proof. intros Hs. apply (update_flags me (with_loading true)); [exact Hs|done]. Qed.

Lemma show_loaded_shown me merge data h : shown me h -> shown me (show_loaded me merge data h).
Proof.
  intros Hs. unfold show_loaded. set (h1 := on_view _ h).
  assert (Forall (fun x => userId x = me) (filter (fun x => userId x = me) data.2)) as Hf.
  { apply Forall_forall. by intros x [Hx _]%list_elem_of_filter. }
  destruct (previews_spec me _ h1 Hf) as [Hg Hh]. destruct (previews _ h1) as [l h2]. cbn [fst snd] in *.
  assert (shown me h1) as Hs1 by exact Hs.
  eapply (update_retained me _ (if merge then l ++ images (snapshot (view h2)) else l)); [|destruct merge|done].
  - eapply grown_covered; [exact Hg|]. by eapply shown_covered.
  - apply held_app; [done|]. by eapply shown_held.
  - done.
Qed.

Lemma deliver_load_shown me id merge t got h : shown me h -> shown me (deliver_load me id merge t got h).
Proof.
  intros Hs. unfold deliver_load.
  set (h1 := if current t h then _ else h). assert (shown me h1) as H1; [|by destruct merge].
  unfold h1. destruct (current t h); [|done]. destruct got; [by apply show_loaded_shown|].
  destruct merge; [by apply update_flags|done].
Qed.

Lemma remember_shown me parse_url raw m t h : shown me h -> shown me (remember me parse_url raw m t h).
Proof.
  intros Hs. unfold remember. destruct (_ || _); [done|].
  pose proof (additions_spec me parse_url m raw h) as Ha.
  destruct (remember_additions me parse_url m raw h) as [[[ps sl] bad] h1]. destruct Ha as [Hg Hh].
  eapply shown_view; [reflexivity|].
  eapply (update_retained me _ (images (snapshot (view h1)) ++ ps)); [|apply held_app; [by eapply shown_held|done]|done].
  eapply grown_covered; [exact Hg|]. by eapply shown_covered.
Qed.

Lemma downloaded_shown me id i j s result h : shown me h -> shown me (downloaded me id i j s result h).
Proof.
  intros Hs. unfold downloaded. destruct result as [b|]; [|done]. destruct (negb _); [done|].
  set (record := mkStored _ me _ _ b). destruct (preview_spec me record false h eq_refl) as [Hg Hh].
  destruct (preview record false h) as [p h1]. cbn [fst snd] in *. eapply shown_view; [reflexivity|].
  eapply update_retained; [eapply grown_covered; [exact Hg|by eapply shown_covered]| |reflexivity].
  apply held_replace; [done|]. by eapply shown_held.
Qed.

Lemma finish_shown me id j h : shown me h -> shown me (finish_remember id j h).
Proof.
  intros Hs. unfold finish_remember. destruct (current _ h); [|done].
  match goal with |- shown _ (end_task _ ?x) => apply (shown_view me x); [reflexivity|] end.
  apply update_flags; [done|]. by destruct (failed j).
Qed.

Lemma deliver_save_shown me id j got h : shown me h -> shown me (deliver_save id j got h).
Proof.
  intros Hs. unfold deliver_save. destruct got as [b|]; [|by apply finish_shown].
  destruct (negb (current _ h)); [by apply finish_shown|]. destruct (negb b); apply finish_shown.
  - apply start_shown, update_empty; [by eapply shown_covered|done].
  - set (f := mark_saved _). destruct (mark_saved_ok me (map drawing_id (valid_records j)) (images (snapshot (view h))) (proj2 (proj2 Hs))) as [H1 H2].
    apply update_shown; [by eapply shown_covered| |exact H1]. cbn [with_images images]. unfold f. rewrite H2. by destruct Hs as [-> _].
Qed.

Lemma clear_shown me h : shown me h -> shown me (clear_history h).
Proof.
  intros Hs. unfold clear_history. destruct (_ || _); [done|]. eapply shown_view; [reflexivity|].
  apply update_empty; [|done]. by apply (shown_covered me).
Qed.

Lemma deliver_clear_shown me id t got h : shown me h -> shown me (deliver_clear id t got h).
Proof.
  intros Hs. unfold deliver_clear. destruct (current t h); [|done].
  apply (shown_view me (update (with_clearing false) (match got with Some e => on_view (set_epoch (Some e)) h
     | None => update (with_warning WClear) h end))); [reflexivity|].
  apply update_flags; [|by destruct got]. destruct got; [exact Hs|]. by apply update_flags.
Qed.

Lemma dispose_shown me h : shown me h -> shown me (dispose h).
Proof.
  intros (H1 & H2 & _). unfold shown, dispose. cbn [on_view view urls live snapshot initialSnapshot images].
  split_and!; [done|rewrite H2; set_solver|]. split_and!; [constructor|split; [cbn; lia|apply N.le_0_l]|constructor].
Qed.

Lemma step_shown me parse_url e h : shown me h -> shown me (history_step me parse_url e h).
Proof.
  intros Hs. destruct e; cbn [history_step].
  - by apply start_shown.
  - unfold reload. by destruct (negb _).
  - by apply remember_shown.
  - by apply clear_shown.
  - by apply dispose_shown.
  - unfold commit. destruct (tasks h !! id) as [[m t []|t|t []|j|j r|j e []]|]; try done; destruct ok; try done.
    by destruct (save _ _ _ _).
  - unfold deliver. destruct (tasks h !! id) as [[m t []|t|t []|j|j r|j e []]|]; try done.
    + by apply deliver_load_shown.
    + unfold deliver_loaded. destruct (current t h); [|done]. by apply (update_flags me (with_loading false)).
    + by apply deliver_clear_shown.
    + by apply deliver_save_shown.
  - destruct (tasks h !! id) as [[]|]; try done. destruct (slots j !! i); [|done].
    destruct (is_downloading s); [|done]. by apply downloaded_shown.
  - destruct (tasks h !! id) as [[]|]; try done. by destruct (existsb _ _).
  - destruct (tasks h !! id) as [[]|]; try done. destruct (resolved ready0 h); [|done].
    unfold after_ready. destruct (negb _); [by apply finish_shown|].
    destruct (epoch (view h)); [done|by apply finish_shown].
  - done.
Qed.

End Shown.

(** ** Tickets *)

(** Tasks keep their ticket, and new ones have one of the revisions so far. *)
Definition tracks (h h' : History) : Prop :=
  next_task h <= next_task h' /\ revision (view h) <= revision (view h') /\
  forall id t', tasks h' !! id = Some t' ->
    (exists t, tasks h !! id = Some t /\ ticket_of t = ticket_of t') \/
    (next_task h <= id < next_task h' /\ ticket_of t' <= revision (view h')).

#[global] Instance tracks_preorder : PreOrder tracks.
Proof.
  split; [intros h; split_and!; [lia|lia|eauto]|]. intros a b c (A1 & A2 & A3) (B1 & B2 & B3).
  split_and!; [lia|lia|]. intros id t Ht. destruct (B3 id t Ht) as [(t1 & Ht1 & E1)|[? ?]].
  - destruct (A3 id t1 Ht1) as [(t2 & Ht2 & E2)|[? ?]]; [left; exists t2; split; [done|congruence]|right; split; lia].
  - right. split; lia.
Qed.

Lemma tracks_same h h' :
  tasks h' = tasks h -> next_task h' = next_task h -> revision (view h) <= revision (view h') -> tracks h h'.
Proof. intros Ht Hn Hr. split_and!; [lia|done|]. rewrite Ht. eauto. Qed.

Lemma tracks_update patch h : tracks h (update patch h).
Proof. by apply tracks_same. Qed.

Lemma tracks_set id t0 t h : tasks h !! id = Some t0 -> ticket_of t = ticket_of t0 -> tracks h (set_task id t h).
Proof.
  intros H0 Ht. split_and!; [done|done|]. simpl. intros i x [[<- <-]|[_ Hx]]%lookup_insert_Some; left; eauto.
Qed.

Lemma tracks_end id h : tracks h (end_task id h).
Proof. split_and!; [done|done|]. simpl. intros i x [_ Hx]%lookup_delete_Some. left. eauto. Qed.

Lemma tracks_spawn t h : ticket_of t <= revision (view h) -> tracks h (spawn t h).
Proof.
  intros Ht. split_and!; simpl; [lia|lia|]. intros i x [[<- <-]|[_ Hx]]%lookup_insert_Some; [right; split; [lia|done]|eauto].
Qed.

Lemma tracks_grown h h' : grown h h' -> tracks h h'.
Proof. intros (_ & Hr & _ & _ & Ht & Hn & _). apply tracks_same; [done|done|lia]. Qed.

Lemma tracks_start h : tracks h (start h).
Proof.
  set (h1 := update (with_loading true) (on_view next_revision (on_view (set_active true) h))).
  trans h1; [apply tracks_same; [done|done|simpl; lia]|].
  trans (spawn_load true h1); [by apply tracks_spawn|by apply tracks_same].
Qed.

Lemma tracks_finish id j h : tracks h (finish_remember id j h).
Proof. unfold finish_remember. destruct (current _ h); [|apply tracks_end]. etrans; [apply tracks_update|apply tracks_end]. Qed.

Lemma current_ticket t h : current t h = true -> t = revision (view h) /\ active (view h) = true.
Proof. unfold current. intros H. breflect. done. Qed.

Section Tickets.
Context {PF : Platform} (me : Z) (parse_url : list N -> option URL).

Lemma grown_previews l h : Forall (fun x => userId x = me) l -> grown h (previews l h).2.
Proof. intros Hl. by apply (previews_spec me). Qed.

Lemma tracks_loaded merge data h : tracks h (show_loaded me merge data h).
Proof.
  unfold show_loaded. set (h1 := on_view _ h).
  assert (tracks h h1) as H1 by (by apply tracks_same).
  assert (Forall (fun x => userId x = me) (filter (fun x => userId x = me) data.2)) as Hf.
  { apply Forall_forall. by intros x [Hx _]%list_elem_of_filter. }
  pose proof (grown_previews _ h1 Hf) as Hg. destruct (previews _ h1) as [l h2]. cbn [snd] in Hg.
  etrans; [exact H1|]. etrans; [apply tracks_grown; exact Hg|]. apply tracks_update.
Qed.

Lemma tracks_deliver_load id merge t0 t got h :
  tasks h !! id = Some t0 -> ticket_of t0 = t -> tracks h (deliver_load me id merge t got h).
Proof.
  intros H0 Ht. unfold deliver_load. set (h1 := if current t h then _ else h).
  assert (tracks h h1 /\ tasks h1 = tasks h) as [Hk Hs].
  { unfold h1. destruct (current t h); [|done]. destruct got as [data|].
    - split; [apply tracks_loaded|]. unfold show_loaded. set (h2 := on_view _ h).
      assert (Forall (fun x => userId x = me) (filter (fun x => userId x = me) data.2)) as Hf.
      { apply Forall_forall. by intros x [Hx _]%list_elem_of_filter. }
      pose proof (grown_previews _ h2 Hf) as Hg. destruct (previews _ h2) as [l h3]. cbn [snd] in Hg. by destruct Hg as (_ & _ & _ & _ & Hts & _).
    - destruct merge; [split; [apply tracks_update|done]|done]. }
  destruct merge; [|etrans; [exact Hk|apply tracks_end]].
  etrans; [exact Hk|]. eapply tracks_set; [by rewrite Hs|]. by subst.
Qed.

Lemma tracks_remember raw m t h : tracks h (remember me parse_url raw m t h).
Proof.
  unfold remember. destruct (negb (current t h)) eqn:E; [done|]. apply negb_false_iff, current_ticket in E as [E _].
  destruct (clearing _); [done|]. simpl. pose proof (additions_spec me parse_url m raw h) as Ha.
  destruct (remember_additions me parse_url m raw h) as [[[ps sl] bad] h1]. destruct Ha as [Hg _].
  etrans; [apply tracks_grown; exact Hg|]. etrans; [apply tracks_update|]. apply tracks_spawn. simpl.
  destruct Hg as (_ & -> & _). lia.
Qed.

Lemma tracks_downloaded id i j s result h :
  tasks h !! id = Some (TDownloads j) -> tracks h (downloaded me id i j s result h).
Proof.
  intros H0. unfold downloaded. destruct result as [b|]; [|by eapply tracks_set].
  destruct (negb _); [by eapply tracks_set|]. set (record := mkStored _ me _ _ b).
  destruct (preview_spec me record false h eq_refl) as [Hg _]. destruct (preview record false h) as [p h1]. cbn [snd] in Hg.
  etrans; [apply tracks_grown; exact Hg|]. etrans; [apply tracks_update|].
  apply (tracks_set id (TDownloads j)); [|reflexivity]. simpl. destruct Hg as (_ & _ & _ & _ & -> & _). exact H0.
Qed.

Lemma tracks_step e h : tracks h (history_step me parse_url e h).
Proof.
  destruct e; cbn [history_step].
  - apply tracks_start.
  - unfold reload. destruct (negb _); [done|]. trans (on_view next_revision h); [apply tracks_same; [done|done|simpl; lia]|].
    by apply tracks_spawn.
  - apply tracks_remember.
  - unfold clear_history. destruct (_ || _); [done|].
    set (h2 := update _ _). trans h2; [apply tracks_same; [done|done|simpl; lia]|]. by apply tracks_spawn.
  - apply tracks_same; [done|done|simpl; lia].
  - unfold commit. destruct (tasks h !! id) as [[m t []|t|t []|j|j r|j e []]|] eqn:E; try done.
    + by eapply tracks_set.
    + destruct ok; [|by eapply tracks_set]. destruct (clear me (db h)) as [x s].
      trans (set_db s h); [by apply tracks_same|by eapply tracks_set].
    + destruct ok; [|by eapply tracks_set]. destruct (save me e _ (db h)) as [x s].
      trans (set_db s h); [by apply tracks_same|by eapply tracks_set].
  - unfold deliver. destruct (tasks h !! id) as [[m t []|t|t []|j|j r|j e []]|] eqn:E; try done.
    + by eapply tracks_deliver_load.
    + unfold deliver_loaded. destruct (current t h); [|apply tracks_end]. etrans; [apply tracks_update|apply tracks_end].
    + unfold deliver_clear. destruct (current t h); [|apply tracks_end].
      etrans; [|apply tracks_end]. etrans; [|apply tracks_update]. destruct o; by apply tracks_same.
    + unfold deliver_save. destruct o as [b|]; [|apply tracks_finish].
      destruct (negb (current _ h)); [apply tracks_finish|]. destruct (negb b).
      * etrans; [|apply tracks_finish]. etrans; [apply tracks_update|apply tracks_start].
      * etrans; [apply tracks_update|apply tracks_finish].
  - destruct (tasks h !! id) as [[]|] eqn:E; try done. destruct (slots j !! i); [|done].
    destruct (is_downloading s); [|done]. by apply tracks_downloaded.
  - destruct (tasks h !! id) as [[]|] eqn:E; try done. destruct (existsb _ _); [done|]. by eapply tracks_set.
  - destruct (tasks h !! id) as [[]|] eqn:E; try done. destruct (resolved _ h); [|done].
    unfold after_ready. destruct (negb _); [apply tracks_finish|].
    destruct (epoch (view h)); [by eapply tracks_set|apply tracks_finish].
  - by apply tracks_same.
Qed.

(** Events of the tasks numbered below [n], and of other tabs. *)
Definition task_event (n : nat) (e : HEvent) : bool :=
  match e with
  | HCommit id _ | HDeliver id | HDownload id _ _ | HDownloaded id | HReady id => id <? n
  | HOther _ => true
  | _ => false
  end.

Definition stale_below (n : nat) (h : History) : Prop :=
  n <= next_task h /\ forall id t, id < n -> tasks h !! id = Some t -> current (ticket_of t) h = false.

Lemma finish_stale id j h : current (ticket j) h = false -> view (finish_remember id j h) = view h.
Proof. intros H. unfold finish_remember. by rewrite H. Qed.

Lemma stale_event n e h :
  task_event n e = true -> stale_below n h -> view (history_step me parse_url e h) = view h.
Proof.
  intros He [_ Hs]. destruct e; try done; cbn [task_event] in He; cbn [history_step]; breflect.
  - unfold commit. destruct (tasks h !! id) as [[m t []|t|t []|j|j r|j e []]|]; try done; destruct ok; try done.
    by destruct (save _ _ _ _).
  - unfold deliver. destruct (tasks h !! id) as [[m t []|t|t []|j|j r|j e []]|] eqn:E; try done;
      pose proof (Hs id _ He E) as Hst; cbn [ticket_of] in Hst.
    + unfold deliver_load. rewrite Hst. by destruct m.
    + unfold deliver_loaded. by rewrite Hst.
    + unfold deliver_clear. by rewrite Hst.
    + unfold deliver_save. rewrite Hst. destruct o; cbn [negb]; by apply finish_stale.
  - destruct (tasks h !! id) as [[]|] eqn:E; try done. destruct (slots j !! i); [|done].
    destruct (is_downloading s); [|done]. pose proof (Hs id _ He E) as Hst. cbn [ticket_of] in Hst. unfold downloaded. rewrite Hst.
    by destruct result.
  - destruct (tasks h !! id) as [[]|]; try done. by destruct (existsb _ _).
  - destruct (tasks h !! id) as [[]|] eqn:E; try done. destruct (resolved _ h); [|done].
    pose proof (Hs id _ He E) as Hst. cbn [ticket_of] in Hst. unfold after_ready. rewrite Hst. by apply finish_stale.
Qed.

Lemma stale_step n e h :
  task_event n e = true -> stale_below n h -> stale_below n (history_step me parse_url e h).
Proof.
  intros He Hs. pose proof (stale_event n e h He Hs) as Hv. destruct (tracks_step e h) as (H1 & _ & H3).
  destruct Hs as [Hn Hs]. split; [lia|]. intros id t' Hid Ht. destruct (H3 id t' Ht) as [(t & Ht0 & E)|[? _]]; [|lia].
  specialize (Hs id t Hid Ht0). unfold current in *. by rewrite Hv, <- E.
Qed.

Lemma stale_run n es h :
  forallb (task_event n) es = true -> stale_below n h -> view (run_history me parse_url es h) = view h.
Proof.
  revert h. induction es as [|e es IH]; intros h Hes Hs; [done|]. cbn [forallb] in Hes.
  apply andb_true_iff in Hes as [He Hes]. unfold run_history in *. cbn [fold_left].
  rewrite IH; [by eapply stale_event|done|by apply stale_step].
Qed.

(** Every task has a number below the next and a ticket up to the revision. *)
Definition tasks_ok (h : History) : Prop :=
  forall id t, tasks h !! id = Some t -> id < next_task h /\ ticket_of t <= revision (view h).

Lemma step_tasks_ok e h : tasks_ok h -> tasks_ok (history_step me parse_url e h).
Proof.
  intros Hok id t' Ht. destruct (tracks_step e h) as (H1 & H2 & H3).
  destruct (H3 id t' Ht) as [(t & Ht0 & E)|[? ?]]; [|split; lia]. destruct (Hok id t Ht0). rewrite <- E. split; lia.
Qed.

Lemma run_tasks_ok es h : tasks_ok h -> tasks_ok (run_history me parse_url es h).
Proof. revert h. induction es as [|e es IH]; intros h H; [done|]. by apply IH, step_tasks_ok. Qed.

Lemma initial_tasks_ok s : tasks_ok (initialHistory s).
Proof. intros id t. simpl. by rewrite lookup_empty. Qed.

(** A step that raises the revision makes all tasks so far stale. *)
Lemma raised_stale e h :
  tasks_ok h -> revision (view h) < revision (view (history_step me parse_url e h)) ->
  stale_below (next_task h) (history_step me parse_url e h).
Proof.
  intros Hok Hr. destruct (tracks_step e h) as (H1 & _ & H3). split; [done|]. intros id t' Hid Ht.
  destruct (H3 id t' Ht) as [(t & Ht0 & E)|[? _]]; [|lia]. destruct (Hok id t Ht0). unfold current.
  rewrite <- E. apply andb_false_iff. right. apply Nat.eqb_neq. lia.
Qed.

End Tickets.

(** ** Flags *)

Inductive Kind := KStart | KReload | KClear | KJob.

Definition kind_of (t : Task) : Kind :=
  match t with
  | TLoad true _ _ | TLoaded _ => KStart
  | TLoad false _ _ => KReload
  | TClear _ _ => KClear
  | TDownloads _ | TReady _ _ | TSave _ _ _ => KJob
  end.

(** A current task of this kind is in flight. *)
Definition has (k : Kind) (h : History) : Prop :=
  exists id t, tasks h !! id = Some t /\ kind_of t = k /\ current (ticket_of t) h = true.

(** A flag on display has a task that will lower it. *)
Definition owned (h : History) : Prop :=
  let s := snapshot (view h) in
  (saving s = true -> has KJob h) /\
  (clearing s = true -> has KClear h /\
     forall id t, tasks h !! id = Some t -> kind_of t = KJob -> current (ticket_of t) h = false) /\
  (loading s = true -> active (view h) = true -> has KStart h).

Definition flags (h : History) : bool * bool * bool * nat * bool :=
  (loading (snapshot (view h)), saving (snapshot (view h)), clearing (snapshot (view h)),
   revision (view h), active (view h)).

(** The tasks of [h'] are those of [h] with the same kinds and tickets. *)
Definition same_tasks (h h' : History) : Prop :=
  (forall id t, tasks h !! id = Some t -> current (ticket_of t) h = true ->
     exists t', tasks h' !! id = Some t' /\ kind_of t' = kind_of t /\ ticket_of t' = ticket_of t) /\
  (forall id t', tasks h' !! id = Some t' ->
     exists t, tasks h !! id = Some t /\ kind_of t' = kind_of t /\ ticket_of t' = ticket_of t).

Lemma owned_frame h h' : flags h' = flags h -> same_tasks h h' -> owned h -> owned h'.
Proof.
  unfold flags, owned. intros [= Hl Hs Hc Hr Ha] [H1 H2] (O1 & O2 & O3). rewrite Hl, Hs, Hc, Ha.
  assert (forall t, current t h' = current t h) as Hcur by (intros t; unfold current; by rewrite Hr, Ha).
  assert (forall k, has k h -> has k h') as Hhas.
  { intros k (id & t & Ht & Hk & Hct). destruct (H1 id t Ht Hct) as (t' & Ht' & Hk' & Htk).
    exists id, t'. rewrite Hcur, Htk. split_and!; [done|congruence|done]. }
  split_and!; [auto| |auto]. intros E. destruct (O2 E) as [O4 O5]. split; [auto|].
  intros id t' Ht' Hk. destruct (H2 id t' Ht') as (t & Ht & Hk' & Htk). rewrite Hcur, Htk. apply (O5 id); [done|congruence].
Qed.

Lemma same_tasks_eq h h' : tasks h' = tasks h -> same_tasks h h'.
Proof. intros E. split; rewrite E; eauto. Qed.

Lemma same_tasks_set id t0 t h h' :
  tasks h !! id = Some t0 -> kind_of t = kind_of t0 -> ticket_of t = ticket_of t0 ->
  tasks h' = <[id := t]> (tasks h) -> same_tasks h h'.
Proof.
  intros H0 Hk Ht E. split; rewrite E.
  - intros i x Hx _. destruct (decide (i = id)) as [->|Hne]; [rewrite lookup_insert_eq; simplify_eq; eauto|].
    rewrite lookup_insert_ne by done. eauto.
  - intros i x [[<- <-]|[_ Hx]]%lookup_insert_Some; eauto.
Qed.

(** A task that is not current may end. *)
Lemma same_tasks_end id t0 h h' :
  tasks h !! id = Some t0 -> current (ticket_of t0) h = false -> tasks h' = delete id (tasks h) -> same_tasks h h'.
Proof.
  intros H0 Hc E. split; rewrite E.
  - intros i x Hx Hcx. destruct (decide (i = id)) as [->|Hne]; [congruence|]. rewrite lookup_delete_ne by done. eauto.
  - intros i x [_ Hx]%lookup_delete_Some. eauto.
Qed.

Lemma owned_view f h :
  (forall v, loading (snapshot (f v)) = loading (snapshot v) /\ saving (snapshot (f v)) = saving (snapshot v) /\
     clearing (snapshot (f v)) = clearing (snapshot v) /\ revision (f v) = revision v /\ active (f v) = active v) ->
  owned h -> owned (on_view f h).
Proof.
  intros Hf. apply owned_frame; [|by apply same_tasks_eq]. unfold flags. cbn [on_view view].
  by destruct (Hf (view h)) as (-> & -> & -> & -> & ->).
Qed.

Lemma owned_grown h h' : grown h h' -> owned h -> owned h'.
Proof.
  intros (Hs & Hr & Ha & _ & Ht & _). apply owned_frame; [|by apply same_tasks_eq].
  unfold flags. by rewrite Hs, Hr, Ha.
Qed.

(** No flag is up but [loading] after a start, and that one has its task. *)
Lemma start_owned h :
  saving (snapshot (view h)) = false -> clearing (snapshot (view h)) = false -> owned (start h).
Proof.
  intros Hs Hc. unfold start, owned. cbn. rewrite Hs, Hc. split_and!; [done|done|]. intros _ _.
  exists (next_task h), (TLoad true (S (revision (view h))) None). cbn. rewrite lookup_insert_eq.
  split_and!; [done|done|]. unfold current. cbn. apply Nat.eqb_refl.
Qed.

Lemma owned_inactive h : owned h -> active (view h) = false ->
  saving (snapshot (view h)) = false /\ clearing (snapshot (view h)) = false.
Proof.
  intros (O1 & O2 & _) Ha.
  assert (forall k, ~ has k h) as Hno. { intros k (id & t & _ & _ & H). unfold current in H. by rewrite Ha in H. }
  split; apply not_true_iff_false; intros E; [by apply (Hno KJob), O1|by apply (Hno KClear), O2].
Qed.

Lemma has_delete k id t0 h h' :
  tasks h !! id = Some t0 -> kind_of t0 <> k -> tasks h' = delete id (tasks h) ->
  revision (view h') = revision (view h) -> active (view h') = active (view h) -> has k h -> has k h'.
Proof.
  intros H0 Hk Ht Hr Ha (i & t & Hi & Hki & Hc). exists i, t. rewrite Ht. unfold current. rewrite Hr, Ha.
  split_and!; [|done|done]. rewrite lookup_delete_ne; [done|]. intros <-. congruence.
Qed.

(** A current job excludes a clear in progress. *)
Lemma job_not_clearing id t h :
  owned h -> tasks h !! id = Some t -> kind_of t = KJob -> current (ticket_of t) h = true ->
  clearing (snapshot (view h)) = false.
Proof.
  intros (_ & O2 & _) Ht Hk Hc. apply not_true_iff_false. intros E. destruct (O2 E) as [_ O].
  rewrite (O id t Ht Hk) in Hc. done.
Qed.

Lemma finish_owned id t0 j h :
  tasks h !! id = Some t0 -> kind_of t0 = KJob -> ticket_of t0 = ticket j -> owned h -> owned (finish_remember id j h).
Proof.
  intros H0 Hk Ht Ho. unfold finish_remember. destruct (current (ticket j) h) eqn:Ec.
  - rewrite <- Ht in Ec. pose proof (job_not_clearing id t0 h Ho H0 Hk Ec) as Hcl. destruct Ho as (_ & _ & O3).
    unfold owned. cbn [end_task update on_view view update_view snapshot].
    set (s' := if failed j then _ else _).
    assert (saving s' = false /\ clearing s' = false /\ loading s' = loading (snapshot (view h))) as (-> & -> & ->).
    { unfold s'. by destruct (failed j). }
    split_and!; [done|done|]. intros Hl Ha. eapply has_delete; [exact H0|by rewrite Hk|done|done|done|by apply O3].
  - revert Ho. apply owned_frame; [done|]. eapply same_tasks_end; [exact H0|by rewrite Ht|done].
Qed.

Section Owned.
Context {PF : Platform} (me : Z) (parse_url : list N -> option URL).

Lemma loaded_owned merge data h : owned h -> owned (show_loaded me merge data h) /\
  tasks (show_loaded me merge data h) = tasks h.
Proof.
  intros Ho. unfold show_loaded. set (h1 := on_view _ h).
  assert (owned h1) as H1 by (by apply (owned_view (set_epoch (Some data.1)))).
  assert (Forall (fun x => userId x = me) (filter (fun x => userId x = me) data.2)) as Hf.
  { apply Forall_forall. by intros x [Hx _]%list_elem_of_filter. }
  destruct (previews_spec me _ h1 Hf) as [Hg _]. destruct (previews _ h1) as [l h2]. cbn [snd] in Hg.
  split; [|by destruct Hg as (_ & _ & _ & _ & Ht & _)]. apply (owned_view (update_view _)); [done|]. by eapply owned_grown.
Qed.

Lemma deliver_load_owned id merge t got0 got h :
  tasks h !! id = Some (TLoad merge t got0) -> owned h -> owned (deliver_load me id merge t got h).
Proof.
  intros H0 Ho. unfold deliver_load. set (h1 := if current t h then _ else h).
  assert (owned h1 /\ tasks h1 = tasks h) as [H1 Ht].
  { unfold h1. destruct (current t h); [|done]. destruct got; [by apply loaded_owned|].
    destruct merge; [split; [by apply (owned_view (update_view (with_warning WLoad)))|done]|done]. }
  rewrite <- Ht in H0. destruct merge.
  - revert H1. apply owned_frame; [done|]. eapply same_tasks_set; [exact H0| | |reflexivity]; done.
  - destruct H1 as (O1 & O2 & O3). split_and!.
    + intros E. eapply has_delete; [exact H0|done|done|done|done|by apply O1].
    + intros E. destruct (O2 E) as [O4 O5]. split; [by eapply has_delete; [exact H0|done|done|done|done|]|].
      cbn [end_task tasks]. intros i x [_ Hx]%lookup_delete_Some. by apply (O5 i).
    + intros E Ha. eapply has_delete; [exact H0|done|done|done|done|by apply O3].
Qed.

Lemma deliver_loaded_owned id t h :
  tasks h !! id = Some (TLoaded t) -> owned h -> owned (deliver_loaded id t h).
Proof.
  intros H0 Ho. unfold deliver_loaded. destruct (current t h) eqn:Ec.
  - destruct Ho as (O1 & O2 & _). split_and!; [| |done].
    + intros E. eapply has_delete; [exact H0|done|done|done|done|by apply O1].
    + intros E. destruct (O2 E) as [O4 O5]. split; [by eapply has_delete; [exact H0|done|done|done|done|]|].
      cbn [end_task tasks]. intros i x [_ Hx]%lookup_delete_Some. by apply (O5 i).
  - revert Ho. apply owned_frame; [done|]. eapply same_tasks_end; [exact H0|done..].
Qed.

Lemma deliver_clear_owned id t got0 got h :
  tasks h !! id = Some (TClear t got0) -> owned h -> owned (deliver_clear id t got h).
Proof.
  intros H0 Ho. unfold deliver_clear. destruct (current t h) eqn:Ec.
  - set (h1 := match got with Some e => _ | None => _ end).
    assert (owned h1 /\ tasks h1 = tasks h) as [H1 Ht].
    { unfold h1. destruct got; (split; [|done]); [by apply (owned_view (set_epoch _))|].
      by apply (owned_view (update_view (with_warning WClear))). }
    rewrite <- Ht in H0. clearbody h1. destruct H1 as (O1 & _ & O3). split_and!; [|done|].
    + intros E. eapply has_delete; [exact H0|done|done|done|done|by apply O1].
    + intros E Ha. eapply has_delete; [exact H0|done|done|done|done|by apply O3].
  - revert Ho. apply owned_frame; [done|]. eapply same_tasks_end; [exact H0|done..].
Qed.

Lemma deliver_save_owned id j e got0 got h :
  tasks_ok h -> tasks h !! id = Some (TSave j e got0) -> owned h -> owned (deliver_save id j got h).
Proof.
  intros Hok H0 Ho. unfold deliver_save. destruct got as [b|]; [|by eapply finish_owned].
  destruct (current (ticket j) h) eqn:Ec; cbn [negb]; [|by eapply finish_owned]. destruct b; cbn [negb].
  - eapply (finish_owned id (TSave j e got0)); [done|done|done|]. by apply (owned_view (update_view _)).
  - pose proof (job_not_clearing id _ h Ho H0 eq_refl Ec) as Hcl.
    eapply (finish_owned id (TSave j e got0)); [|done|done|by apply start_owned].
    cbn. rewrite lookup_insert_ne; [done|]. destruct (Hok id _ H0). lia.
Qed.

Lemma downloaded_owned id i j s result h :
  tasks h !! id = Some (TDownloads j) -> owned h -> owned (downloaded me id i j s result h).
Proof.
  intros H0 Ho. assert (forall h1 j', tasks h1 = tasks h -> ticket j' = ticket j -> owned h1 ->
                          owned (set_task id (TDownloads j') h1)) as Hset.
  { intros h1 j' Ht Hj. apply owned_frame; [done|]. eapply (same_tasks_set id (TDownloads j)); [by rewrite Ht| | |reflexivity]; [done|exact Hj]. }
  unfold downloaded. destruct result as [b|]; [|by apply Hset]. destruct (negb _); [by apply Hset|].
  set (record := mkStored _ me _ _ b). destruct (preview_spec me record false h eq_refl) as [Hg _].
  destruct (preview record false h) as [p h1]. cbn [snd] in Hg.
  apply Hset; [by destruct Hg as (_ & _ & _ & _ & Ht & _)|done|]. apply (owned_view (update_view _)); [done|].
  by eapply owned_grown.
Qed.

Lemma remember_owned raw m t h : tasks_ok h -> owned h -> owned (remember me parse_url raw m t h).
Proof.
  intros Hok Ho. unfold remember. destruct (negb (current t h)) eqn:Ec; [done|].
  apply negb_false_iff in Ec. destruct (clearing (snapshot (view h))) eqn:Ecl; [done|]. simpl.
  pose proof (additions_spec me parse_url m raw h) as Ha.
  destruct (remember_additions me parse_url m raw h) as [[[ps sl] bad] h1]. destruct Ha as [Hg _].
  destruct Hg as (Es & Er & Ea & _ & Et & En & _). unfold owned, has, current in *. cbn.
  rewrite Es, Er, Ea, Et, En, Ecl. split_and!; [|done|].
  - intros _. eexists (next_task h), _. rewrite lookup_insert_eq. split_and!; [done|done|exact Ec].
  - intros El Hact. destruct Ho as (_ & _ & O3). destruct (O3 El Hact) as (i & x & Hx & Hk & Hc).
    exists i, x. rewrite lookup_insert_ne; [done|]. destruct (Hok i x Hx). lia.
Qed.

Lemma clear_owned h : tasks_ok h -> owned h -> owned (clear_history h).
Proof.
  intros Hok Ho. unfold clear_history. destruct (active (view h)) eqn:Ea; [|done]. cbn [negb orb].
  destruct (clearing (snapshot (view h))); [done|]. unfold owned, has, current. cbn. rewrite Ea. split_and!; [done| |done].
  intros _. split.
  - eexists (next_task h), _. rewrite lookup_insert_eq. split_and!; [done|done|]. cbn. apply Nat.eqb_refl.
  - intros i x [[<- <-]|[_ Hx]]%lookup_insert_Some; [done|]. intros _. destruct (Hok i x Hx).
    apply Nat.eqb_neq. lia.
Qed.

(** How the hook uses the class: it starts only a history that is not active, and
    never calls [reload]. *)
Definition calm (e : HEvent) (h : History) : bool :=
  match e with HReload => false | HStart => negb (active (view h)) | _ => true end.

Fixpoint calm_run (es : list HEvent) (h : History) : bool :=
  match es with [] => true | e :: es' => calm e h && calm_run es' (history_step me parse_url e h) end.

Lemma step_owned e h : calm e h = true -> tasks_ok h -> owned h -> owned (history_step me parse_url e h).
Proof.
  intros He Hok Ho. destruct e; cbn [history_step calm] in *; try done.
  - breflect. destruct (owned_inactive h Ho He). by apply start_owned.
  - by apply remember_owned.
  - by apply clear_owned.
  - unfold commit. destruct (tasks h !! id) as [[m t []|t|t []|j|j r|j e []]|] eqn:E; try done.
    + revert Ho. apply owned_frame; [done|]. eapply same_tasks_set; [exact E| | |reflexivity]; done.
    + destruct ok; [destruct (clear me (db h)) as [x s]|]; revert Ho; (apply owned_frame; [done|]);
        (eapply same_tasks_set; [exact E| | |reflexivity]; done).
    + destruct ok; [destruct (save me e _ (db h)) as [x s]|]; revert Ho; (apply owned_frame; [done|]);
        (eapply same_tasks_set; [exact E| | |reflexivity]; done).
  - unfold deliver. destruct (tasks h !! id) as [[m t []|t|t []|j|j r|j e []]|] eqn:E; try done.
    + by eapply deliver_load_owned.
    + by eapply deliver_loaded_owned.
    + by eapply deliver_clear_owned.
    + by eapply deliver_save_owned.
  - destruct (tasks h !! id) as [[]|] eqn:E; try done. destruct (slots j !! i); [|done].
    destruct (is_downloading s); [|done]. by apply downloaded_owned.
  - destruct (tasks h !! id) as [[]|] eqn:E; try done. destruct (existsb _ _); [done|].
    revert Ho. apply owned_frame; [done|]. eapply same_tasks_set; [exact E| | |reflexivity]; done.
  - destruct (tasks h !! id) as [[]|] eqn:E; try done. destruct (resolved _ h); [|done].
    unfold after_ready. destruct (negb _); [by eapply finish_owned|].
    destruct (epoch (view h)); [|by eapply finish_owned].
    revert Ho. apply owned_frame; [done|]. eapply same_tasks_set; [exact E| | |reflexivity]; done.
Qed.

Lemma run_owned es h :
  calm_run es h = true -> tasks_ok h -> owned h -> owned (run_history me parse_url es h).
Proof.
  revert h. induction es as [|e es IH]; intros h He Hok Ho; [done|]. cbn [calm_run] in He.
  apply andb_true_iff in He as [He Hes]. apply IH; [done|by apply step_tasks_ok|by apply step_owned].
Qed.

End Owned.

(** ** Theorems *)

Lemma initial_shown me s : shown me (initialHistory s).
Proof. split_and!; [done|done|]. split_and!; [constructor|split; [cbn; lia|apply N.le_0_l]|constructor]. Qed.

Lemma run_shown {PF : Platform} {PL : PlatformLaws} me parse_url es h :
  shown me h -> shown me (run_history me parse_url es h).
Proof. revert h. induction es as [|e es IH]; intros h Hs; [done|]. by apply IH, step_shown. Qed.

Lemma initial_owned s : owned (initialHistory s).
Proof. split_and!; done. Qed.

(** At every moment the object URLs held by the browser for a history are exactly
    those of the images on display: none leaks and none on display is revoked.  The
    images are the user's own, without duplicates, at most 50 and within 100 MiB. *)
Theorem history_holds_what_it_shows {PF : Platform} {PL : PlatformLaws} (me : Z) parse_url (s : Store) (es : list HEvent) :
  let h := run_history me parse_url es (initialHistory s) in
  let l := images (snapshot (view h)) in
  live (view h) = object_urls l /\ Forall (fun x => preview_user x = me) l /\ NoDup (map preview_id l) /\
  length l <= 50 /\ (total l <= 104857600)%N.
Proof.
  intros h l. destruct (run_shown me parse_url es _ (initial_shown me s)) as (H1 & H2 & H3 & [H4 H5] & H6).
  fold h in H1, H2, H3, H4, H5, H6. fold l in H1, H3, H4, H5, H6. split_and!; [congruence|done|done|exact H4|exact H5].
Qed.

(** C19: Work that was overtaken leaves no trace: once a start, reload, clear, dispose or
    a refused save has raised the revision, commits, deliveries and downloads of all
    earlier tasks change nothing of what the history shows or keeps. *)
Theorem overtaken_tasks_are_inert {PF : Platform} (me : Z) parse_url (s : Store) (es es' : list HEvent) (e : HEvent) :
  let h := run_history me parse_url es (initialHistory s) in
  let h' := history_step me parse_url e h in
  revision (view h) < revision (view h') -> forallb (task_event (next_task h)) es' = true ->
  view (run_history me parse_url es' h') = view h'.
Proof.
  intros h h' Hr He. eapply stale_run; [exact He|]. apply raised_stale; [|exact Hr].
  apply run_tasks_ok, initial_tasks_ok.
Qed.

(** A clear overtaken by a reload. *)
Definition reloaded : History :=
  run_history 7 (fun _ => None)
    [HStart; HCommit 0 true; HDeliver 0; HDeliver 0; HClear; HReload; HCommit 1 true; HDeliver 1;
     HCommit 2 true; HDeliver 2] (initialHistory emptyStore).

(** Up with nothing in flight, and nothing works any more. *)
Definition stuck_clearing (h : History) : Prop :=
  clearing (snapshot (view h)) = true /\ tasks h = ∅ /\ clear_history h = h /\
  forall (PF : Platform) me parse_url raw m t, remember (PF:=PF) me parse_url raw m t h = h.

Lemma reload_leaves_clearing_up : stuck_clearing reloaded.
Proof.
  assert (clearing (snapshot (view reloaded)) = true) as Hc by (vm_compute; reflexivity).
  split; [exact Hc|]. split; [vm_compute; reflexivity|]. split.
  - unfold clear_history. by rewrite Hc, orb_true_r.
  - intros PF me parse_url raw m t. unfold remember. by rewrite Hc, orb_true_r.
Qed.

(** As the hook uses the class, a flag that is up always has its work in flight:
    [saving] a current [remember], [clearing] a current [clear], [loading] of an active
    history a current [start].  [reload], which the hook does not call, breaks this: it
    raises the revision without lowering a flag; called while a clear is in flight, the
    flag stays up with nothing in flight, and neither [clear] nor [remember] does
    anything from then on. *)
Theorem flags_have_tasks {PF : Platform} (me : Z) parse_url (s : Store) (es : list HEvent) :
  calm_run me parse_url es (initialHistory s) = true ->
  let h := run_history me parse_url es (initialHistory s) in
  ((saving (snapshot (view h)) = true -> has KJob h) /\
   (clearing (snapshot (view h)) = true -> has KClear h) /\
   (loading (snapshot (view h)) = true -> active (view h) = true -> has KStart h)) /\
  stuck_clearing reloaded.
Proof.
  intros Hes h. destruct (run_owned me parse_url es _ Hes (initial_tasks_ok s) (initial_owned s)) as (H1 & H2 & H3).
  split; [|exact reload_leaves_clearing_up]. split_and!; [exact H1|naive_solver|exact H3].
Qed.

(** ** Witnesses *)

Definition sample_image : GeneratedDrawing * list N := (mkGenerated None (Some (js "iVBORw0KGgo=")) None, js "id-1").

(** A start, a generated image, saved. *)
Definition sample_run : list HEvent :=
  [HStart; HCommit 0 true; HDeliver 0; HDeliver 0;
   HRemember [sample_image] (mkMetadata (js "a lake") (js "model") (js "default") 10) 1;
   HDownloaded 1; HReady 1; HCommit 1 true].

Lemma history_holds_what_it_shows_witness :
  let h := run_history 7 (fun _ => None) (sample_run ++ [HDeliver 1]) (initialHistory emptyStore) in
  map saved (images (snapshot (view h))) = [true] /\ live (view h) = object_urls (images (snapshot (view h))).
Proof.
  cbv zeta. split; [vm_compute; reflexivity|].
  apply (history_holds_what_it_shows 7 (fun _ => None) emptyStore (sample_run ++ [HDeliver 1])).
Defined.

(** The save of an image is delivered after the history was cleared. *)
Lemma overtaken_tasks_are_inert_witness :
  let h := run_history 7 (fun _ => None) sample_run (initialHistory emptyStore) in
  let h' := history_step 7 (fun _ => None) HClear h in
  images (snapshot (view h)) <> [] /\ view (run_history 7 (fun _ => None) [HDeliver 1] h') = view h'.
Proof.
  cbv zeta. split; [vm_compute; discriminate|].
  apply (overtaken_tasks_are_inert 7 (fun _ => None) emptyStore sample_run [HDeliver 1] HClear).
  - vm_compute. lia.
  - vm_compute. reflexivity.
Defined.

Lemma flags_have_tasks_witness :
  has KJob (run_history 7 (fun _ => None) sample_run (initialHistory emptyStore)).
Proof.
  apply (flags_have_tasks 7 (fun _ => None) emptyStore sample_run); vm_compute; reflexivity.
Defined.
