(* ===== verification/Wallet.v ===== *)
(** * Wallet payments (src/apps/web/src/features/wallet/lib, lib/payment-pricing.ts)

    Which payment methods a top-up may use, to which gateway a selected one goes, the
    settlement rates the server publishes and the quote the user agrees to.  What the
    server sends untyped is [json]; amounts are doubles.  Navigation to the checkout
    (payment.ts:45-185) and number formatting by Intl are not modelled. *)
From S2P Require Import Prelude JsString JsNumber JsJson JsJsonPrint AuthSession VisualTiers.
From Stdlib Require Import Lia.

(** ** Constants and types *)

Definition STRIPE : list N := js "stripe".
Definition CREEM : list N := js "creem".
Definition WAFFO : list N := js "waffo".
Definition WAFFO_PANCAKE : list N := js "waffo_pancake".
Definition DEFAULT_PRESET_MULTIPLIERS : list Z := [1; 5; 10; 30; 50; 100; 300; 500]%Z.
Definition DEFAULT_MIN_TOPUP : spec_float := num_of_Z 1.

Record PaymentMethod := mkMethod {
  method_name : list N;
  method_type : list N;
  max_topup : option json;
  max_topup_amount : option json;
  settlement_currency : option (list N);
  platform_units_per_usd : option json;
  settlement_units_per_usd : option json;
  settlement_units_per_platform_unit : option json;
  settlement_unit : option (list N);
  unit_price : option json;
  topup_ratio : option json }.

Record CreemProduct := mkProduct { product_name : list N; productId : list N }.

(** Arrays of the server may hold [null]. *)
Record TopupInfo := mkInfo {
  enable_online_topup : bool;
  enable_stripe_topup : bool;
  pay_methods : option (list (option PaymentMethod));
  min_topup : spec_float;
  stripe_min_topup : spec_float;
  enable_creem_topup : bool;
  creem_products : option (list (option CreemProduct));
  enable_waffo_topup : bool;
  waffo_pay_methods : option (list (option (list N))); (* their names *)
  waffo_min_topup : option spec_float;
  enable_waffo_pancake_topup : bool;
  waffo_pancake_min_topup : option spec_float }.

(** ** Methods *)

Definition isPositivePaymentAmount (v : json) : bool :=
  match v with JNum n => is_finite n && num_ltb num_zero n | _ => false end.

Definition isStripePayment (t : list N) : bool := bool_decide (t = STRIPE).
Definition isCreemPayment (t : list N) : bool := bool_decide (t = CREEM).
Definition isWaffoPayment (t : list N) : bool := bool_decide (t = WAFFO).
Definition isWaffoPancakePayment (t : list N) : bool := bool_decide (t = WAFFO_PANCAKE).

Definition isWaffoPancakeCurrencySupported : bool := true.
Definition isPaymentMethodCurrencySupported (t : list N) : bool :=
  negb (isWaffoPancakePayment t) || isWaffoPancakeCurrencySupported.

Definition getEpayMethods (payMethods : list (option PaymentMethod)) : list PaymentMethod :=
  omap (fun o => m ← o;
    if nonempty (method_type m) && negb (isStripePayment (method_type m)) && negb (isCreemPayment (method_type m)) &&
       negb (isWaffoPayment (method_type m)) && negb (isWaffoPancakePayment (method_type m))
    then Some m else None) payMethods.

Record TopupAvailability := mkAvailability {
  standardMethods : list PaymentMethod;
  waffoMethods : list (list N);
  creemProducts : list CreemProduct;
  defaultQuotedType : option (list N);
  hasPaymentMethod : bool }.

(** The filter of [standardMethods]. *)
Definition standard_method (info : TopupInfo) (m : PaymentMethod) : bool :=
  let t := method_type m in
  if negb (nonempty (method_name m)) || negb (nonempty t) then false
  else if negb (isPaymentMethodCurrencySupported t) then false
  else if isStripePayment t then enable_stripe_topup info
  else if isWaffoPancakePayment t then enable_waffo_pancake_topup info
  else if isCreemPayment t || isWaffoPayment t then false
  else enable_online_topup info.

Definition getTopupAvailability (topupInfo : option TopupInfo) : TopupAvailability :=
  match topupInfo with
  | None => mkAvailability [] [] [] None false
  | Some info =>
      let standard := omap (fun o => m ← o; if standard_method info m then Some m else None) (default [] (pay_methods info)) in
      let waffo := if enable_waffo_topup info
                   then omap (fun o => n ← o; if nonempty n then Some n else None) (default [] (waffo_pay_methods info))
                   else [] in
      let creem := if enable_creem_topup info
                   then omap (fun o => p ← o; if nonempty (product_name p) && nonempty (productId p) then Some p else None)
                          (default [] (creem_products info))
                   else [] in
      mkAvailability standard waffo creem
        (match standard with
         | m :: _ => Some (method_type m)
         | [] => match waffo with [] => None | _ => Some WAFFO end
         end)
        (match standard, waffo, creem with [], [], [] => false | _, _, _ => true end)
  end.

Definition getDefaultPaymentType (topupInfo : option TopupInfo) : option (list N) :=
  defaultQuotedType (getTopupAvailability topupInfo).

Definition or_min (x : option spec_float) : spec_float :=
  match x with Some n => if num_truthy n then n else DEFAULT_MIN_TOPUP | None => DEFAULT_MIN_TOPUP end.

Definition getMinTopupAmount (topupInfo : option TopupInfo) : spec_float :=
  match topupInfo with
  | None => DEFAULT_MIN_TOPUP
  | Some info =>
      match getDefaultPaymentType topupInfo with
      | None => DEFAULT_MIN_TOPUP
      | Some t =>
          if bool_decide (t = STRIPE) then stripe_min_topup info
          else if bool_decide (t = WAFFO) then or_min (waffo_min_topup info)
          else if bool_decide (t = WAFFO_PANCAKE) then or_min (waffo_pancake_min_topup info)
          else if nonempty t then min_topup info else DEFAULT_MIN_TOPUP
      end
  end.

(** ** Settlement quotes *)

Definition is_decimal (s : list N) : bool :=
  let '(i, r) := span is_digit s in
  nonempty i &&
  match r with
  | [] => true
  | c :: f => (c =? 46)%N && nonempty f && forallb is_digit f
  end.

(** A positive finite decimal. *)
Definition positive_text (s : list N) : bool :=
  is_decimal s && is_finite (number_of_string s) && negb (num_leb (number_of_string s) num_zero).

Record SettlementQuote := mkQuote {
  amount : list N;
  currency : list N;
  originalAmount : option (list N);
  savingsAmount : option (list N) }.

Definition readOptionalSettlementAmount (v : option json) : option (list N) :=
  s ← as_string v; if positive_text s then Some s else None.

Definition parseSettlementQuote (value : option json) : option SettlementQuote :=
  v ← value; a ← as_string (get "amount" v); c ← as_string (get "currency" v);
  if positive_text a && (bool_decide (c = js "CNY") || bool_decide (c = js "USD")) then
    let original := readOptionalSettlementAmount (get "originalAmount" v) in
    let savings := readOptionalSettlementAmount (get "savingsAmount" v) in
    if match original with Some o => num_ltb (number_of_string o) (number_of_string a) | None => false end ||
       match savings with Some o => num_leb (number_of_string o) num_zero | None => false end
    then None else Some (mkQuote a c original savings)
  else None.

Definition getAvailableSettlementQuote (value : option json) : option SettlementQuote :=
  v ← value; if bool_decide (as_bool (get "available" v) = Some true) then parseSettlementQuote value else None.

Definition formatSettlementQuote (q : SettlementQuote) : list N := amount q ++ js " " ++ currency q.

(** [expectedSettlement]: the two fields echoed at checkout. *)
Definition expectedSettlement (q : SettlementQuote) : list N * list N := (amount q, currency q).

(** ** Dispatch *)

Record PancakeOptions := mkOptions {
  checkout_region : list N;
  checkout_language : list N;
  discount_code : option (list N);
  option_settlement_amount : option json;
  option_settlement_currency : option json }.

(** The processor that is called, with its arguments. *)
Inductive PaymentCall :=
| Regular (topupAmount : spec_float) (paymentType discountCode : list N)
| Waffo (topupAmount : spec_float) (payMethodIndex : nat) (discountCode : list N)
| WaffoPancake (topupAmount : spec_float) (options : PancakeOptions).

(** The object given to [parseSettlementQuote]. *)
Definition options_quote (o : PancakeOptions) : json :=
  JObj (match option_settlement_amount o with Some a => [(js "amount", a)] | None => [] end ++
        match option_settlement_currency o with Some c => [(js "currency", c)] | None => [] end).

(** [None] when no processor is called and [false] is returned. *)
Definition dispatchSelectedPayment (m : PaymentMethod) (topupAmount : spec_float) (waffoMethodIndex : option nat)
    (options : option PancakeOptions) (discountCode : list N) : option PaymentCall :=
  if isWaffoPayment (method_type m) then
    i ← waffoMethodIndex; Some (Waffo topupAmount i discountCode)
  else if isWaffoPancakePayment (method_type m) then
    o ← options; _ ← parseSettlementQuote (Some (options_quote o));
    Some (WaffoPancake topupAmount
            (if nonempty discountCode
             then mkOptions (checkout_region o) (checkout_language o) (Some discountCode)
                    (option_settlement_amount o) (option_settlement_currency o)
             else o))
  else Some (Regular topupAmount (method_type m) discountCode).

(** ** Rates *)

Definition parsePositiveDecimal (v : option json) : option spec_float :=
  match v with
  | Some (JStr s) =>
      if negb (is_decimal s) then None
      else let n := number_of_string s in if is_finite n && num_ltb num_zero n then Some n else None
  | Some (JNum n) => if is_finite n && num_ltb num_zero n then Some n else None
  | _ => None
  end.

Definition DEDICATED_PAYMENT_PRICING_TYPES : list (list N) :=
  js <$> ["stripe"; "waffo"; "waffo_pancake"; "alipay"; "wxpay"].

Definition usesDedicatedPaymentPricing (t : option (list N)) : bool :=
  match t with Some x => bool_decide (x ∈ DEDICATED_PAYMENT_PRICING_TYPES) | None => false end.

Definition platformUnitsToUsd (a platformUnitsPerUSD : spec_float) : spec_float :=
  if negb (is_finite a) || num_ltb a num_zero || negb (is_finite platformUnitsPerUSD) ||
     num_leb platformUnitsPerUSD num_zero
  then S754_nan else num_div a platformUnitsPerUSD.

Definition getPaymentMaxTopup (m : option PaymentMethod) : option spec_float :=
  parsePositiveDecimal (m ≫= max_topup).
Definition getPaymentMaxTopupAmount (m : option PaymentMethod) : option spec_float :=
  parsePositiveDecimal (m ≫= max_topup_amount).

Definition getPaymentTopupRatio (m : option PaymentMethod) : spec_float :=
  if usesDedicatedPaymentPricing (method_type <$> m) then num_of_Z 1
  else default (num_of_Z 1) (parsePositiveDecimal (m ≫= topup_ratio)).

Inductive MetadataSource := ExplicitUsdRates | LegacyUnitPrice | LegacyUsdPriceRatio.

Record PaymentSettlementMetadata := mkSettlement {
  currencyCode : list N;
  platformUnitsPerUsd : spec_float;
  settlementUnitsPerUsd : spec_float;
  source : MetadataSource }.

Definition unit_char (c : N) : bool :=
  (((65 <=? c) && (c <=? 90)) || ((97 <=? c) && (c <=? 122)) || is_digit c || (c =? 46) || (c =? 95) || (c =? 45))%N.

(** SETTLEMENT_UNIT_PATTERN *)
Definition is_settlement_unit (s : list N) : bool :=
  nonempty s && (length s <=? 16)%nat && forallb unit_char s.

Definition upper_ascii (c : N) : N := if ((97 <=? c) && (c <=? 122))%N then (c - 32)%N else c.

(** [currencyCode && pattern.test(currencyCode)], then upper case. *)
Definition unit_code (c : option (list N)) : option (list N) :=
  s ← c; if is_settlement_unit s then Some (upper_ascii <$> s) else None.

(** [a ?? b] on strings. *)
Definition or_undefined {A} (a b : option A) : option A := match a with Some x => Some x | None => b end.

Definition getPaymentSettlementMetadata (m : option PaymentMethod) (includeDedicated : bool)
  : option PaymentSettlementMetadata :=
  if negb includeDedicated && usesDedicatedPaymentPricing (method_type <$> m) then None
  else
    let platform := m ≫= platform_units_per_usd in
    let settlement := m ≫= settlement_units_per_usd in
    let code := unit_code (or_undefined (m ≫= settlement_currency) (m ≫= settlement_unit)) in
    match platform, settlement with
    | None, None =>
        let explicit := parsePositiveDecimal (m ≫= settlement_units_per_platform_unit) in
        let legacy := parsePositiveDecimal (m ≫= unit_price) in
        if match explicit, legacy with Some a, Some b => negb (num_eqb a b) | _, _ => false end then None
        else c ← code; r ← or_undefined explicit legacy; Some (mkSettlement c (num_of_Z 1) r LegacyUnitPrice)
    | _, _ =>
        c ← code; p ← parsePositiveDecimal platform; s ← parsePositiveDecimal settlement;
        Some (mkSettlement c p s ExplicitUsdRates)
    end.

Definition calculateSettlementAmount (platformAmount : spec_float) (md : PaymentSettlementMetadata) : spec_float :=
  num_mul (num_div platformAmount (platformUnitsPerUsd md)) (settlementUnitsPerUsd md).

Definition createLegacyUsdSettlementMetadata (rate : spec_float) : PaymentSettlementMetadata :=
  mkSettlement (js "USD") (num_of_Z 1)
    (if is_finite rate && num_ltb num_zero rate then rate else num_of_Z 1) LegacyUsdPriceRatio.

(** [label] and [unitPrice]. *)
Definition getPaymentSettlementUnit (m : option PaymentMethod) (includeDedicated : bool) : option (list N * spec_float) :=
  md ← getPaymentSettlementMetadata m includeDedicated;
  Some (currencyCode md, num_div (settlementUnitsPerUsd md) (platformUnitsPerUsd md)).

(** ** Records, presets, discounts *)

Definition MAX_SAFE_INTEGER : spec_float := num_of_Z 9007199254740991.

Definition isSafeInteger (v : option json) : bool :=
  match v with
  | Some (JNum n) => is_finite n && num_eqb (num_floor n) n && num_leb (num_abs n) MAX_SAFE_INTEGER
  | _ => false
  end.

Definition getTopupRecordPlatformAmount (record_amount : spec_float) (platform_amount_micros : option json) : spec_float :=
  match platform_amount_micros with
  | Some (JNum n) =>
      if isSafeInteger (Some (JNum n)) && num_ltb num_zero n then num_div n (num_of_Z 1000000) else record_amount
  | _ => record_amount
  end.

Definition generatePresetAmounts (minAmount : spec_float) : list spec_float :=
  (fun k => num_mul minAmount (num_of_Z k)) <$> DEFAULT_PRESET_MULTIPLIERS.

(** [discounts] by the text of the amount, as property names are. *)
Definition mergePresetAmounts (amountOptions : list spec_float) (discounts : gmap (list N) spec_float)
  : list (spec_float * spec_float) :=
  (fun a => (a, match discounts !! num_to_string a with
                | Some d => if num_truthy d then d else num_of_Z 1
                | None => num_of_Z 1
                end)) <$> amountOptions.

Definition discountCodeSavings (finalAmount : spec_float) (discountPercent : option spec_float) : spec_float :=
  match discountPercent with
  | None => num_zero
  | Some p =>
      if negb (is_finite finalAmount) || num_leb finalAmount num_zero || negb (is_finite p) || num_leb p num_zero ||
         num_leb (num_of_Z 100) p
      then num_zero
      else
        let multiplier := num_div (num_sub (num_of_Z 100) p) (num_of_Z 100) in
        num_max2 num_zero (num_sub (num_div finalAmount multiplier) finalAmount)
  end.

Record AppliedDiscountState := mkDiscount { code : list N; percent : option spec_float }.

Definition discountAfterAmountChange (state : AppliedDiscountState) (previousAmount nextAmount : spec_float)
  : AppliedDiscountState :=
  if num_eqb previousAmount nextAmount || negb (nonempty (trim (code state))) then state else mkDiscount [] None.

(** ** Lemmas *)

Lemma standard_method_spec info m :
  standard_method info m = true ->
  method_name m <> [] /\ method_type m <> [] /\ method_type m <> CREEM /\ method_type m <> WAFFO /\
  (method_type m = STRIPE -> enable_stripe_topup info = true) /\
  (method_type m = WAFFO_PANCAKE -> enable_waffo_pancake_topup info = true) /\
  (method_type m <> STRIPE -> method_type m <> WAFFO_PANCAKE -> enable_online_topup info = true).
Proof.
  unfold standard_method, isPaymentMethodCurrencySupported, isStripePayment, isWaffoPancakePayment, isCreemPayment,
    isWaffoPayment.
  destruct (negb (nonempty (method_name m)) || negb (nonempty (method_type m))) eqn:E0; [done|].
  assert (method_name m <> [] /\ method_type m <> []) as [Hn Hne].
  { split; intros E; rewrite E in E0; [done|]. by rewrite orb_true_r in E0. }
  assert (STRIPE <> CREEM /\ STRIPE <> WAFFO /\ WAFFO_PANCAKE <> CREEM /\ WAFFO_PANCAKE <> WAFFO /\ STRIPE <> WAFFO_PANCAKE)
    as (N1 & N2 & N3 & N4 & N5) by (by split_and!).
  clear E0. rewrite orb_true_r. cbn [negb]. revert Hne. generalize (method_type m) as ty. intros ty Hne.
  case_bool_decide as E1; [intros H; subst; split_and!; intros; congruence|].
  case_bool_decide as E2; [intros H; subst; split_and!; intros; congruence|].
  case_bool_decide as E3; [done|]. case_bool_decide as E4; [done|]. simpl. intros H. split_and!; intros; congruence.
Qed.

Lemma elem_of_standard info m :
  m ∈ standardMethods (getTopupAvailability (Some info)) -> standard_method info m = true.
Proof.
  cbn [getTopupAvailability standardMethods]. intros (o & _ & H)%list_elem_of_omap.
  destruct o as [x|]; [|done]. simpl in H. destruct (standard_method info x) eqn:E; [|done]. by injection H as <-.
Qed.

Lemma availability_default info :
  let a := getTopupAvailability (Some info) in
  match defaultQuotedType a with
  | Some t => (exists m, m ∈ standardMethods a /\ method_type m = t) \/ (t = WAFFO /\ waffoMethods a <> [])
  | None => standardMethods a = [] /\ waffoMethods a = []
  end /\ (hasPaymentMethod a = false <-> standardMethods a = [] /\ waffoMethods a = [] /\ creemProducts a = []).
Proof.
  intros a. unfold a. cbn [getTopupAvailability defaultQuotedType hasPaymentMethod standardMethods waffoMethods creemProducts].
  destruct (omap _ (default [] (pay_methods info))) as [|m ms].
  - destruct (if enable_waffo_topup info then _ else _) as [|w ws]; [|split; [right; done|naive_solver]].
    split; [done|]. destruct (if enable_creem_topup info then _ else _); naive_solver.
  - split; [left; exists m; split; [left|done]|]. naive_solver.
Qed.

Lemma parse_quote_spec v q :
  parseSettlementQuote v = Some q ->
  positive_text (amount q) = true /\ currency q ∈ [js "CNY"; js "USD"] /\
  (v ≫= fun x => as_string (get "amount" x)) = Some (amount q) /\
  (v ≫= fun x => as_string (get "currency" x)) = Some (currency q) /\
  (forall o, originalAmount q = Some o -> positive_text o = true /\ num_ltb (number_of_string o) (number_of_string (amount q)) = false).
Proof.
  unfold parseSettlementQuote. intros (x & -> & H)%bind_Some. apply bind_Some in H as (a & Ha & H).
  apply bind_Some in H as (c & Hc & H). destruct (positive_text a && _) eqn:E; [|done].
  apply andb_true_iff in E as [E H1]. cbv zeta in H.
  match type of H with (if ?b then _ else _) = _ => destruct b eqn:Eb; [done|] end.
  injection H as <-. apply orb_false_iff in Eb as [Eb _].
  cbn [amount currency originalAmount]. simpl. split_and!; [done| |done|done|].
  - apply orb_true_iff in H1 as [H1|H1]; apply bool_decide_eq_true in H1 as ->; set_solver.
  - intros o Ho. rewrite Ho in Eb. split; [|done]. unfold readOptionalSettlementAmount in Ho.
    apply bind_Some in Ho as (s & _ & Hs). destruct (positive_text s) eqn:Ep; [|done]. congruence.
Qed.

Lemma positive_decimal_spec v n : parsePositiveDecimal v = Some n -> is_finite n = true /\ num_ltb num_zero n = true.
Proof.
  unfold parsePositiveDecimal. destruct v as [[| |x|s| |]|]; try done.
  - destruct (is_finite x && num_ltb num_zero x) eqn:E; [|done]. intros [= <-]. by breflect.
  - destruct (negb _); [done|]. destruct (is_finite (number_of_string s) && _) eqn:E; [|done]. intros [= <-]. by breflect.
Qed.

Lemma positive_finite n : is_finite n = true -> num_ltb num_zero n = true -> exists m e, n = S754_finite false m e.
Proof. destruct n as [| | |[] m e]; try done. eauto. Qed.

Lemma settlement_rates m b md :
  getPaymentSettlementMetadata m b = Some md ->
  (is_finite (platformUnitsPerUsd md) = true /\ num_ltb num_zero (platformUnitsPerUsd md) = true) /\
  (is_finite (settlementUnitsPerUsd md) = true /\ num_ltb num_zero (settlementUnitsPerUsd md) = true) /\
  exists u, is_settlement_unit u = true /\ currencyCode md = upper_ascii <$> u.
Proof.
  unfold getPaymentSettlementMetadata. destruct (_ && _); [done|].
  assert (forall c x, unit_code c = Some x -> exists u, is_settlement_unit u = true /\ x = upper_ascii <$> u) as Hcode.
  { unfold unit_code. intros c x (s & _ & Hs)%bind_Some. destruct (is_settlement_unit s) eqn:E; [|done].
    injection Hs as <-. eauto. }
  assert (is_finite (num_of_Z 1) = true /\ num_ltb num_zero (num_of_Z 1) = true) as Hone by done.
  set (platform := m ≫= platform_units_per_usd). set (settlement := m ≫= settlement_units_per_usd).
  set (direct := c ← unit_code _; p ← parsePositiveDecimal platform; s ← parsePositiveDecimal settlement; Some _).
  assert (direct = Some md -> (is_finite (platformUnitsPerUsd md) = true /\ num_ltb num_zero (platformUnitsPerUsd md) = true) /\
    (is_finite (settlementUnitsPerUsd md) = true /\ num_ltb num_zero (settlementUnitsPerUsd md) = true) /\
    exists u, is_settlement_unit u = true /\ currencyCode md = upper_ascii <$> u) as Hdirect.
  { unfold direct. intros (c & Hc & H)%bind_Some. apply bind_Some in H as (p & Hp & H).
    apply bind_Some in H as (s & Hs & H). injection H as <-.
    split_and!; try (apply (positive_decimal_spec _ _ Hp)); try (apply (positive_decimal_spec _ _ Hs)). by apply (Hcode _ _ Hc). }
  destruct platform as [p|]; [exact Hdirect|]. destruct settlement as [s|]; [exact Hdirect|].
  destruct (match parsePositiveDecimal (m ≫= settlement_units_per_platform_unit) with Some _ => _ | None => _ end); [done|].
  intros (c & Hc & H)%bind_Some. apply bind_Some in H as (r & Hr & H). injection H as <-.
  cbn [platformUnitsPerUsd settlementUnitsPerUsd currencyCode]. split; [exact Hone|]. split; [|by apply (Hcode _ _ Hc)].
  destruct (parsePositiveDecimal (m ≫= settlement_units_per_platform_unit)) as [x|] eqn:Ex; simpl in Hr.
  - injection Hr as <-. by apply (positive_decimal_spec _ _ Ex).
  - by apply (positive_decimal_spec _ _ Hr).
Qed.

(** ** Theorems *)

(** A method offered for a top-up goes to its own gateway only: the generic form is
    never used for Waffo, Waffo Pancake or Creem, and only when the server enabled
    Stripe or online top-ups; a Pancake checkout needs its flag and a positive quote in CNY
    or USD, and echoes exactly the amount and currency quoted; the top-up amount is the
    one chosen. *)
Theorem payment_reaches_its_gateway (info : TopupInfo) (m : PaymentMethod) (a : spec_float) (i : option nat)
    (o : option PancakeOptions) (c : list N) (call : PaymentCall) :
  m ∈ standardMethods (getTopupAvailability (Some info)) ->
  dispatchSelectedPayment m a i o c = Some call ->
  match call with
  | Regular a' t c' =>
      a' = a /\ t = method_type m /\ c' = c /\ t <> WAFFO /\ t <> WAFFO_PANCAKE /\ t <> CREEM /\
      (if bool_decide (t = STRIPE) then enable_stripe_topup info else enable_online_topup info) = true
  | Waffo _ _ _ => False
  | WaffoPancake a' o' =>
      a' = a /\ enable_waffo_pancake_topup info = true /\
      exists x cur, option_settlement_amount o' = Some (JStr x) /\ option_settlement_currency o' = Some (JStr cur) /\
        positive_text x = true /\ cur ∈ [js "CNY"; js "USD"] /\
        (o ≫= option_settlement_amount) = Some (JStr x) /\ (o ≫= option_settlement_currency) = Some (JStr cur)
  end.
Proof.
  intros Hm. apply elem_of_standard, standard_method_spec in Hm as (_ & _ & H1 & H2 & H3 & H4 & H5).
  unfold dispatchSelectedPayment, isWaffoPayment, isWaffoPancakePayment.
  rewrite bool_decide_eq_false_2 by done. case_bool_decide as Ep.
  - intros (x & -> & H)%bind_Some. apply bind_Some in H as (q & Hq & H). injection H as <-.
    apply parse_quote_spec in Hq as (Q1 & Q2 & Q3 & Q4 & _). split_and!; [done|by apply H4|].
    exists (amount q), (currency q). unfold options_quote in Q3, Q4. simpl in Q3, Q4.
    assert (option_settlement_amount x = Some (JStr (amount q)) /\ option_settlement_currency x = Some (JStr (currency q)))
      as [E1 E2].
    { destruct (option_settlement_amount x) as [[]|], (option_settlement_currency x) as [[]|];
        vm_compute in Q3; vm_compute in Q4; try done; naive_solver. }
    simpl. destruct (nonempty c); cbn; rewrite ?E1, ?E2; done.
  - intros [= <-]. split_and!; try done. case_bool_decide; auto.
Qed.

(** Whatever the server publishes as settlement data, accepted rates are positive and
    finite and the code is a short upper-case name; a positive top-up then settles at an
    amount that is a number and not negative. *)
Theorem settlement_amount_sane (m : option PaymentMethod) (b : bool) (md : PaymentSettlementMetadata) (a : spec_float) :
  getPaymentSettlementMetadata m b = Some md -> is_finite a = true -> num_ltb num_zero a = true ->
  signed false (calculateSettlementAmount a md) /\
  (exists u, is_settlement_unit u = true /\ currencyCode md = upper_ascii <$> u) /\
  is_finite (settlementUnitsPerUsd md) = true /\ num_ltb num_zero (settlementUnitsPerUsd md) = true.
Proof.
  intros H Ha Hp. apply settlement_rates in H as ([P1 P2] & [S1 S2] & Hu). split_and!; [|done|done|done].
  destruct (positive_finite a Ha Hp) as (ma & ea & ->).
  destruct (positive_finite _ P1 P2) as (mp & ep & E1), (positive_finite _ S1 S2) as (ms & es & E2).
  unfold calculateSettlementAmount. rewrite E1, E2.
  apply num_mul_signed; [|done]. by apply num_div_signed.
Qed.

(** ** Witnesses *)

Definition sample_method (t : string) : PaymentMethod :=
  mkMethod (js "Card") (js t) None None (Some (js "cny")) (Some (JStr (js "7.3"))) (Some (JNum (num_of_Z 7))) None None None None.

Definition sample_info : TopupInfo :=
  mkInfo true true (Some [Some (sample_method "custom"); None; Some (sample_method "waffo_pancake")]) (num_of_Z 1) (num_of_Z 1)
    false None false None None true None.

Definition sample_options : PancakeOptions :=
  mkOptions (js "china") (js "en") None (Some (JStr (js "12.50"))) (Some (JStr (js "CNY"))).

Lemma payment_reaches_its_gateway_witness :
  dispatchSelectedPayment (sample_method "waffo_pancake") (num_of_Z 10) None (Some sample_options) [] =
    Some (WaffoPancake (num_of_Z 10) sample_options) /\
  exists x, option_settlement_amount sample_options = Some (JStr x) /\ positive_text x = true.
Proof.
  assert (dispatchSelectedPayment (sample_method "waffo_pancake") (num_of_Z 10) None (Some sample_options) [] =
            Some (WaffoPancake (num_of_Z 10) sample_options)) as H by (vm_compute; reflexivity).
  split; [exact H|].
  destruct (payment_reaches_its_gateway sample_info _ _ _ _ _ _
              ltac:(vm_compute; right; left) H) as (_ & _ & x & _ & Hx & _ & Hp & _). exists x. split; [exact Hx|exact Hp].
Defined.

Lemma settlement_amount_sane_witness :
  exists md, getPaymentSettlementMetadata (Some (sample_method "custom")) false = Some md /\
    signed false (calculateSettlementAmount (num_of_Z 10) md).
Proof.
  destruct (getPaymentSettlementMetadata (Some (sample_method "custom")) false) as [md|] eqn:E; [|vm_compute in E; discriminate].
  exists md. split; [reflexivity|].
  apply (settlement_amount_sane _ _ md (num_of_Z 10) E); vm_compute; reflexivity.
Defined.
