(* ===== verification/AssistantStream.v ===== *)
(** * Assistant stream (src/apps/web/src/features/assistant/assistant-ai-stream.ts)

    The adapter from the server's event stream to the message chunks of the AI SDK: it
    cuts the decoded text into lines, collects the fields of an event, dispatches it,
    and settles once.

    The body is the list of texts the decoder yields, one per network chunk, the text it
    flushes, and how reading ended.  The reader and the SDK's own stream are the
    environment: what is enqueued is recorded. *)
From S2P Require Import Prelude JsString JsNumber JsJson JsJsonPrint AuthSession.
From Stdlib Require Import Lia.

(** ** Errors, chunks, events *)

Definition isRetryableAssistantStatus (status : spec_float) : bool :=
  num_eqb status (num_of_Z 408) || num_eqb status (num_of_Z 425) || num_eqb status (num_of_Z 429) ||
  num_leb (num_of_Z 500) status.

Record AssistantStreamError := mkStreamError {
  error_status : spec_float;
  error_data : json;
  error_text : list N;
  retryable : bool }.

(** The constructor with its default for [retryable]. *)
Definition newStreamError (status : spec_float) (data : json) (message : list N) (retry : option bool)
  : AssistantStreamError :=
  mkStreamError status data message (default (isRetryableAssistantStatus status) retry).

(** What the stream fails with: its own error, or the abort of the caller. *)
Inductive StreamFailure := SError (e : AssistantStreamError) | SAbort.

Definition plain_error (message : string) (text : list N) : AssistantStreamError :=
  newStreamError (num_of_Z 502) (JObj [(js "message", JStr (js message))]) text None.

Inductive UIMessageChunk :=
| CStart
| CTextStart (part : nat)
| CTextDelta (part : nat) (delta : list N)
| CTextEnd (part : nat)
| CFinish.

Inductive AssistantTextEvent := Delta (content : list N) | Replace (content : list N).

Record StreamState := mkStream {
  eventName : list N;
  eventData : list (list N);
  textPartIndex : nat;
  textPartOpen : bool;
  settled : bool;
  enqueued : list UIMessageChunk; (* newest last *)
  textEvents : list AssistantTextEvent; (* calls of [onTextEvent], newest last *)
  completion : option (json + StreamFailure) }.

Definition initialStream : StreamState := mkStream [] [] 0 false false [CStart] [] None.

Definition enqueue_chunk (c : UIMessageChunk) (s : StreamState) : StreamState :=
  mkStream (eventName s) (eventData s) (textPartIndex s) (textPartOpen s) (settled s) (enqueued s ++ [c])
    (textEvents s) (completion s).
Definition set_open (b : bool) (s : StreamState) : StreamState :=
  mkStream (eventName s) (eventData s) (textPartIndex s) b (settled s) (enqueued s) (textEvents s) (completion s).
Definition next_part (s : StreamState) : StreamState :=
  mkStream (eventName s) (eventData s) (S (textPartIndex s)) (textPartOpen s) (settled s) (enqueued s) (textEvents s)
    (completion s).
Definition onTextEvent (e : AssistantTextEvent) (s : StreamState) : StreamState :=
  mkStream (eventName s) (eventData s) (textPartIndex s) (textPartOpen s) (settled s) (enqueued s)
    (textEvents s ++ [e]) (completion s).
Definition complete (r : json + StreamFailure) (s : StreamState) : StreamState :=
  mkStream (eventName s) (eventData s) (textPartIndex s) (textPartOpen s) true (enqueued s) (textEvents s) (Some r).
Definition set_event (name : list N) (data : list (list N)) (s : StreamState) : StreamState :=
  mkStream name data (textPartIndex s) (textPartOpen s) (settled s) (enqueued s) (textEvents s) (completion s).

(** ** The adapter *)

Definition beginTextPart (s : StreamState) : StreamState :=
  if textPartOpen s then s else set_open true (enqueue_chunk (CTextStart (textPartIndex s)) s).

Definition endTextPart (s : StreamState) : StreamState :=
  if textPartOpen s then set_open false (enqueue_chunk (CTextEnd (textPartIndex s)) s) else s.

Definition fail (e : StreamFailure) (s : StreamState) : StreamState :=
  if settled s then s else complete (inr e) s.

Definition finish (payload : json) (s : StreamState) : StreamState :=
  if settled s then s else complete (inl payload) (enqueue_chunk CFinish (endTextPart s)).

Definition text_delta (content : list N) (s : StreamState) : StreamState :=
  let s1 := beginTextPart s in enqueue_chunk (CTextDelta (textPartIndex s1) content) s1.

(** One event with its payload. *)
Definition handle_event (name : list N) (payload : json) (s : StreamState) : StreamState :=
  let content := as_string (get "content" payload) in
  if bool_decide (name = js "delta") then
    match content with Some c => text_delta c (onTextEvent (Delta c) s) | None => s end
  else if bool_decide (name = js "replace") then
    let s1 := next_part (endTextPart s) in
    match content with
    | Some c => let s2 := onTextEvent (Replace c) s1 in if nonempty c then text_delta c s2 else s2
    | None => s1
    end
  else if bool_decide (name = js "error") then
    fail (SError (newStreamError (default (num_of_Z 502) (as_number (get "status" payload))) payload
                    (default (js "AI assistant stream failed") (as_string (get "message" payload)))
                    (as_bool (get "retryable" payload)))) s
  else if bool_decide (name = js "done") then finish payload s
  else s.

Definition dispatch (s : StreamState) : StreamState :=
  let data := trim (join [10%N] (eventData s)) in
  let name := match eventName s with [] => js "message" | n => n end in
  let s1 := set_event [] [] s in
  if negb (nonempty data) || bool_decide (data = js "[DONE]") || settled s then s1
  else
    match json_parse data with
    | Some (JObj members) => handle_event name (JObj members) s1
    | _ => fail (SError (plain_error "Assistant stream returned invalid event data"
                           (js "Assistant stream returned invalid event data"))) s1
    end.

Definition processLine (rawLine : list N) (s : StreamState) : StreamState :=
  let line := if ends_with [13%N] rawLine then removelast rawLine else rawLine in
  match line with
  | [] => dispatch s
  | _ =>
      match strip_prefix (js "event:") line, strip_prefix (js "data:") line with
      | Some name, _ => set_event (trim name) (eventData s) s
      | None, Some d => set_event (eventName s) (eventData s ++ [default d (strip_prefix [32%N] d)]) s
      | None, None => s
      end
  end.

Definition process_lines (lines : list (list N)) (s : StreamState) : StreamState :=
  fold_left (fun s l => processLine l s) lines s.

(** One turn of the loop: the text of a chunk is added to the buffer. *)
Definition feed (text : list N) (bs : list N * StreamState) : list N * StreamState :=
  let lines := split_on 10%N (bs.1 ++ text) in
  (default [] (last lines), process_lines (removelast lines) bs.2).

Fixpoint read_loop (texts : list (list N)) (bs : list N * StreamState) : list N * StreamState :=
  match texts with
  | [] => bs
  | t :: r => if settled bs.2 then bs else read_loop r (feed t bs)
  end.

(** How reading the body ended: it was read to its end, or [read] rejected. *)
Inductive ReadEnd := BodyEnd (flush : list N) | ReadError (abort : bool) (message : option (list N)).

(** [consume].  When the stream has settled, the loop stops without reading on. *)
Definition consume (texts : list (list N)) (e : ReadEnd) : StreamState :=
  let '(buffer, s) := read_loop texts ([], initialStream) in
  match e with
  | ReadError abort message =>
      if settled s then dispatch (if nonempty buffer then process_lines (split_on 10%N buffer) s else s)
      else if abort then fail SAbort s
      else fail (SError (plain_error "Assistant stream could not be read"
                           (default (js "Assistant stream could not be read") message))) s
  | BodyEnd flush =>
      let b := buffer ++ flush in
      let s1 := if nonempty b then process_lines (split_on 10%N b) s else s in
      fail (SError (plain_error "Assistant stream ended before completion"
                      (js "Assistant stream ended before completion"))) (dispatch s1)
  end.

(** The text the handlers of [consumeAssistantAISDKStream] build up. *)
Definition apply_text_event (shown : list N) (e : AssistantTextEvent) : list N :=
  match e with Delta c => shown ++ c | Replace c => c end.

Definition shown_text (es : list AssistantTextEvent) : list N := fold_left apply_text_event es [].

(** ** One character at a time *)

Definition feed_char (bs : list N * StreamState) (c : N) : list N * StreamState :=
  if (c =? 10)%N then ([], processLine bs.1 bs.2) else (bs.1 ++ [c], bs.2).

Definition feed_text (text : list N) (bs : list N * StreamState) : list N * StreamState := fold_left feed_char text bs.

Lemma last_cons_ne {A} (x : A) l : l <> [] -> last (x :: l) = last l.
Proof. destruct l; done. Qed.

Lemma removelast_cons_ne {A} (x : A) l : l <> [] -> removelast (x :: l) = x :: removelast l.
Proof. destruct l; done. Qed.

Lemma feed_feed_text t b s : 10%N ∉ b -> feed t (b, s) = feed_text t (b, s).
Proof.
  revert b s. induction t as [|c t IH]; intros b s Hb; unfold feed; cbn [fst snd].
  - rewrite app_nil_r, split_on_notin by done. done.
  - unfold feed_text. cbn [fold_left]. unfold feed_char at 2. cbn [fst snd]. destruct (c =? 10)%N eqn:E; breflect.
    + subst c. rewrite split_on_app by done. pose proof (split_on_nonempty 10%N t) as Hne.
      rewrite last_cons_ne, removelast_cons_ne by done.
      trans (feed t ([], processLine b s)); [done|]. apply IH, not_elem_of_nil.
    + change (b ++ c :: t) with (b ++ [c] ++ t). rewrite app_assoc.
      apply (IH (b ++ [c]) s). rewrite elem_of_app, list_elem_of_singleton. naive_solver.
Qed.

Lemma feed_text_app a b bs : feed_text (a ++ b) bs = feed_text b (feed_text a bs).
Proof. unfold feed_text. by rewrite fold_left_app. Qed.

Lemma feed_text_buffer t bs : 10%N ∉ bs.1 -> 10%N ∉ (feed_text t bs).1.
Proof.
  revert bs. unfold feed_text. induction t as [|c t IH]; intros bs Hb; [done|]. cbn [fold_left]. apply IH.
  unfold feed_char. destruct (c =? 10)%N eqn:E; [apply not_elem_of_nil|]. breflect. cbn [fst].
  rewrite elem_of_app, list_elem_of_singleton. naive_solver.
Qed.

(** All lines of a text: those of [feed], and the rest. *)
Lemma process_all t b s : 10%N ∉ b ->
  process_lines (split_on 10%N (b ++ t)) s = (let '(b2, s2) := feed_text t (b, s) in processLine b2 s2).
Proof.
  intros Hb. rewrite <- feed_feed_text by done. unfold feed. cbn [fst snd].
  pose proof (split_on_nonempty 10%N (b ++ t)) as Hne. generalize dependent (split_on 10%N (b ++ t)). intros l Hne.
  destruct (exists_last Hne) as (l' & x & ->). rewrite last_snoc, removelast_last. cbn [default].
  unfold process_lines. by rewrite fold_left_app.
Qed.

(** ** What is seen of a stream *)

Definition seen (s : StreamState) : nat * bool * bool * list UIMessageChunk * list AssistantTextEvent * option (json + StreamFailure) :=
  (textPartIndex s, textPartOpen s, settled s, enqueued s, textEvents s, completion s).

Lemma seen_settled s s' : seen s = seen s' -> settled s = settled s'.
Proof. by intros [=]. Qed.

Lemma fail_seen e s s' : seen s = seen s' -> seen (fail e s) = seen (fail e s').
Proof.
  intros H. pose proof (seen_settled _ _ H) as Hs. unfold fail. rewrite Hs. destruct (settled s'); [done|].
  unfold seen in *. simpl. by injection H as -> -> _ -> -> _.
Qed.

Lemma settled_dispatch s : settled s = true -> seen (dispatch s) = seen s.
Proof. intros H. unfold dispatch. by rewrite H, !orb_true_r. Qed.

Lemma settled_line l s : settled s = true -> seen (processLine l s) = seen s.
Proof.
  intros H. unfold processLine. destruct (if ends_with _ _ then _ else _); [by apply settled_dispatch|].
  repeat (match goal with |- context [strip_prefix ?p ?x] => destruct (strip_prefix p x) end); done.
Qed.

Lemma settled_lines ls s : settled s = true -> seen (process_lines ls s) = seen s.
Proof.
  revert s. induction ls as [|l ls IH]; intros s Hs; [done|]. unfold process_lines in *. cbn [fold_left].
  pose proof (settled_line l s Hs) as H. rewrite IH; [done|]. rewrite (seen_settled _ _ H). done.
Qed.

Lemma settled_feed t bs : settled bs.2 = true -> seen (feed_text t bs).2 = seen bs.2.
Proof.
  revert bs. unfold feed_text. induction t as [|c t IH]; intros bs Hs; [done|]. cbn [fold_left].
  assert (seen (feed_char bs c).2 = seen bs.2) as H.
  { unfold feed_char. destruct (c =? 10)%N; [by apply settled_line|done]. }
  rewrite IH; [done|]. rewrite (seen_settled _ _ H). done.
Qed.

Definition fields (s : StreamState) : list N * list (list N) := (eventName s, eventData s).

Lemma fail_fields e s : fields (fail e s) = fields s.
Proof. unfold fail. by destruct (settled s). Qed.

Lemma end_part_fields s : fields (endTextPart s) = fields s.
Proof. unfold endTextPart. by destruct (textPartOpen s). Qed.

Lemma text_delta_fields c s : fields (text_delta c s) = fields s.
Proof. unfold text_delta, beginTextPart. by destruct (textPartOpen s). Qed.

Lemma handle_event_fields n p s : fields (handle_event n p s) = fields s.
Proof.
  unfold handle_event. destruct (bool_decide _).
  { destruct (as_string _); [|done]. by rewrite text_delta_fields. }
  destruct (bool_decide _).
  { pose proof (end_part_fields s). destruct (as_string _) as [[|c0 r0]|]; [done| |done].
    cbn [nonempty]. by rewrite text_delta_fields. }
  destruct (bool_decide _); [apply fail_fields|]. destruct (bool_decide _); [|done].
  unfold finish. destruct (settled s); [done|]. apply (end_part_fields s).
Qed.

Lemma dispatch_fields s : fields (dispatch s) = ([], []).
Proof.
  unfold dispatch. destruct (_ || settled s); [done|].
  destruct (json_parse _) as [[]|]; rewrite ?fail_fields, ?handle_event_fields; done.
Qed.

Lemma dispatch_idemp s : dispatch (dispatch s) = dispatch s.
Proof.
  pose proof (dispatch_fields s) as H. unfold dispatch at 1. destruct (dispatch s). injection H as H1 H2.
  cbn [eventName eventData] in *. subst. done.
Qed.

(** ** Chunks do not matter *)

(** The stream read at once. *)
Definition reference (text : list N) : StreamState :=
  fail (SError (plain_error "Assistant stream ended before completion" (js "Assistant stream ended before completion")))
    (dispatch (process_lines (split_on 10%N text) initialStream)).

Lemma read_loop_text ts bs :
  10%N ∉ bs.1 ->
  read_loop ts bs = feed_text (concat ts) bs \/
  (settled (read_loop ts bs).2 = true /\ 10%N ∉ (read_loop ts bs).1 /\
   seen (feed_text (concat ts) bs).2 = seen (read_loop ts bs).2).
Proof.
  revert bs. induction ts as [|t ts IH]; intros bs Hb; cbn [read_loop concat]; [by left|].
  destruct (settled bs.2) eqn:Es; [right; split_and!; [done|done|by apply settled_feed]|].
  assert (feed t bs = feed_text t bs) as -> by (destruct bs; by apply feed_feed_text).
  rewrite feed_text_app. apply IH. by apply feed_text_buffer.
Qed.

Lemma consume_reference ts flush : seen (consume ts (BodyEnd flush)) = seen (reference (concat ts ++ flush)).
Proof.
  unfold consume, reference. destruct (read_loop_text ts ([], initialStream)) as [H|(Hs & Hb & Hv)];
    [apply not_elem_of_nil| |].
  - pose proof (process_all (concat ts ++ flush) [] initialStream ltac:(apply not_elem_of_nil)) as Hall. cbn [app] in Hall.
    rewrite Hall, H, feed_text_app.
    pose proof (feed_text_buffer (concat ts) ([], initialStream) ltac:(apply not_elem_of_nil)) as Hb.
    destruct (feed_text (concat ts) ([], initialStream)) as [b s]. cbn [fst] in Hb. cbv beta iota zeta.
    apply fail_seen. destruct (nonempty (b ++ flush)) eqn:E.
    + by rewrite process_all.
    + destruct b, flush; try done. cbn [feed_text fold_left]. change (processLine [] s) with (dispatch s). by rewrite dispatch_idemp.
  - destruct (read_loop ts ([], initialStream)) as [b s]. cbn [fst snd] in *. apply fail_seen.
    assert (seen (if nonempty (b ++ flush) then process_lines (split_on 10%N (b ++ flush)) s else s) = seen s) as H1.
    { destruct (nonempty _); [by apply settled_lines|done]. }
    rewrite settled_dispatch by (by rewrite (seen_settled _ _ H1)). rewrite H1.
    pose proof (process_all (concat ts ++ flush) [] initialStream ltac:(apply not_elem_of_nil)) as Hall. cbn [app] in Hall.
    rewrite Hall, feed_text_app.
    pose proof (settled_feed flush (feed_text (concat ts) ([], initialStream))) as H2.
    rewrite (seen_settled _ _ Hv) in H2. specialize (H2 Hs).
    destruct (feed_text flush (feed_text (concat ts) ([], initialStream))) as [b2 s2]. cbn [snd] in H2.
    assert (settled s2 = true) as Hs2 by (by rewrite (seen_settled _ _ H2), (seen_settled _ _ Hv)).
    rewrite settled_dispatch by (by rewrite (seen_settled _ _ (settled_line b2 s2 Hs2))).
    rewrite settled_line by done. congruence.
Qed.

(** ** The protocol of chunks

    After [start], text parts with growing numbers are opened, extended and closed one
    after the other; [finish] comes when none is open, and nothing after it. *)

Inductive Proto := PIdle (next : nat) | POpen (part : nat) | PDone.

Definition proto_step (p : Proto) (c : UIMessageChunk) : option Proto :=
  match p, c with
  | PIdle n, CTextStart k => if (n <=? k)%nat then Some (POpen k) else None
  | POpen k, CTextDelta j _ => if (j =? k)%nat then Some (POpen k) else None
  | POpen k, CTextEnd j => if (j =? k)%nat then Some (PIdle (S k)) else None
  | PIdle _, CFinish => Some PDone
  | _, _ => None
  end.

Definition proto_run (p : option Proto) (cs : list UIMessageChunk) : option Proto :=
  fold_left (fun p c => p ≫= fun q => proto_step q c) cs p.

Definition proto (cs : list UIMessageChunk) : option Proto :=
  match cs with CStart :: r => proto_run (Some (PIdle 0)) r | _ => None end.

Lemma proto_snoc cs c : proto (cs ++ [c]) = match cs with [] => proto [c] | _ => proto cs ≫= fun q => proto_step q c end.
Proof.
  destruct cs as [|[] cs]; try done. cbn [app proto]. unfold proto_run. by rewrite fold_left_app.
Qed.

Lemma proto_enqueue p cs c : proto cs = Some p -> proto (cs ++ [c]) = proto_step p c.
Proof. intros H. rewrite proto_snoc. destruct cs; [done|]. by rewrite H. Qed.

(** While the stream is open the chunks match the fields; it resolves with [finish]. *)
Definition running (s : StreamState) : Prop :=
  settled s = false /\ completion s = None /\
  (if textPartOpen s then proto (enqueued s) = Some (POpen (textPartIndex s))
   else exists n, n <= textPartIndex s /\ proto (enqueued s) = Some (PIdle n)).

Definition ended (s : StreamState) : Prop :=
  settled s = true /\
  match completion s with
  | Some (inl _) => proto (enqueued s) = Some PDone
  | Some (inr _) => exists p, proto (enqueued s) = Some p /\ p <> PDone
  | None => False
  end.

Definition stream_ok (s : StreamState) : Prop := running s \/ ended s.

Lemma stream_ok_seen s s' : seen s = seen s' -> stream_ok s -> stream_ok s'.
Proof. unfold stream_ok, running, ended, seen. by intros [= -> -> -> -> _ ->]. Qed.

Lemma initial_running : running initialStream.
Proof. split_and!; [done|done|]. exists 0. split; [simpl; lia|done]. Qed.

Lemma fail_ok e s : stream_ok s -> ended (fail e s).
Proof.
  intros [(Hs & Hc & Hp)|H].
  - unfold fail. rewrite Hs. split; [done|]. simpl. destruct (textPartOpen s); [eauto|]. destruct Hp as (n & _ & Hp). eauto.
  - unfold fail. destruct H as [Hs H]. rewrite Hs. by split.
Qed.

Lemma text_delta_running c s : running s -> running (text_delta c s).
Proof.
  intros (Hs & Hc & Hp). unfold text_delta, beginTextPart. destruct (textPartOpen s) eqn:Eo.
  - split_and!; [done|done|]. simpl. rewrite Eo. rewrite (proto_enqueue _ _ _ Hp). simpl. by rewrite Nat.eqb_refl.
  - destruct Hp as (n & Hn & Hp). split_and!; [done|done|]. simpl.
    rewrite (proto_enqueue (POpen (textPartIndex s))); [simpl; by rewrite Nat.eqb_refl|].
    rewrite (proto_enqueue _ _ _ Hp). simpl. by rewrite (proj2 (Nat.leb_le _ _) Hn).
Qed.

Lemma end_part_running s : running s ->
  exists n, n <= S (textPartIndex s) /\ proto (enqueued (endTextPart s)) = Some (PIdle n) /\
    textPartOpen (endTextPart s) = false /\ settled (endTextPart s) = false /\ completion (endTextPart s) = None /\
    textPartIndex (endTextPart s) = textPartIndex s.
Proof.
  intros (Hs & Hc & Hp). unfold endTextPart. destruct (textPartOpen s) eqn:Eo.
  - exists (S (textPartIndex s)). split_and!; try done. simpl. rewrite (proto_enqueue _ _ _ Hp). simpl.
    by rewrite Nat.eqb_refl.
  - destruct Hp as (n & Hn & Hp). exists n. split_and!; try done. lia.
Qed.

Lemma handle_event_ok n p s : running s -> stream_ok (handle_event n p s).
Proof.
  intros Hr. unfold handle_event. destruct (bool_decide _).
  { left. destruct (as_string _); [by apply text_delta_running|done]. }
  destruct (bool_decide _).
  { left. destruct (end_part_running s Hr) as (k & Hk & Hp & Ho & Hs & Hc & Hi).
    assert (running (next_part (endTextPart s))) as Hn.
    { split_and!; [done|done|]. simpl. rewrite Ho. exists k. split; [lia|done]. }
    destruct (as_string _) as [c|]; [|done]. destruct (nonempty c); [by apply text_delta_running|done]. }
  destruct (bool_decide _); [right; apply fail_ok; by left|]. destruct (bool_decide _); [|by left].
  right. unfold finish. destruct Hr as (Hs & Hr). rewrite Hs.
  destruct (end_part_running s (conj Hs Hr)) as (k & _ & Hp & _). split; [done|]. simpl.
  by rewrite (proto_enqueue _ _ _ Hp).
Qed.

Lemma dispatch_ok s : stream_ok s -> stream_ok (dispatch s).
Proof.
  intros [Hr|He]; [|apply (stream_ok_seen s); [symmetry; apply settled_dispatch, He|by right]].
  assert (running (set_event [] [] s)) as H1 by exact Hr. unfold dispatch. destruct (_ || settled s); [by left|].
  destruct (json_parse _) as [[]|]; try (right; apply fail_ok; by left). by apply handle_event_ok.
Qed.

Lemma line_ok l s : stream_ok s -> stream_ok (processLine l s).
Proof.
  intros H. unfold processLine. destruct (if ends_with _ _ then _ else _); [by apply dispatch_ok|].
  repeat (match goal with |- context [strip_prefix ?p ?x] => destruct (strip_prefix p x) end); done.
Qed.

Lemma lines_ok ls s : stream_ok s -> stream_ok (process_lines ls s).
Proof. revert s. induction ls as [|l ls IH]; intros s H; [done|]. by apply IH, line_ok. Qed.

Lemma read_loop_ok ts bs : stream_ok bs.2 -> stream_ok (read_loop ts bs).2.
Proof.
  revert bs. induction ts as [|t ts IH]; intros bs H; cbn [read_loop]; [done|].
  destruct (settled bs.2); [done|]. apply IH. by apply lines_ok.
Qed.

Lemma consume_ended ts e : ended (consume ts e).
Proof.
  unfold consume. pose proof (read_loop_ok ts ([], initialStream) (or_introl initial_running)) as H.
  destruct (read_loop ts ([], initialStream)) as [b s]. cbn [snd] in H. destruct e as [flush|abort message].
  - apply fail_ok, dispatch_ok. destruct (nonempty _); [by apply lines_ok|done].
  - destruct (settled s) eqn:Es; [|destruct abort; by apply fail_ok].
    assert (stream_ok (dispatch (if nonempty b then process_lines (split_on 10%N b) s else s))) as Hok.
    { apply dispatch_ok. destruct (nonempty b); [by apply lines_ok|done]. }
    destruct Hok as [[Hs _]|Hok]; [|done]. exfalso.
    assert (seen (if nonempty b then process_lines (split_on 10%N b) s else s) = seen s) as H1.
    { destruct (nonempty b); [by apply settled_lines|done]. }
    rewrite (seen_settled _ _ (settled_dispatch _ ltac:(by rewrite (seen_settled _ _ H1)))) in Hs.
    rewrite (seen_settled _ _ H1) in Hs. congruence.
Qed.

(** ** Theorems *)

(** C29: How the network cuts the answer does not matter: the chunks enqueued, the text
    events, and the completion are those of the whole text read at once. *)
Theorem chunking_is_irrelevant (texts : list (list N)) (flush : list N) :
  let s := consume texts (BodyEnd flush) in
  let r := reference (concat texts ++ flush) in
  enqueued s = enqueued r /\ textEvents s = textEvents r /\ completion s = completion r.
Proof.
  intros s r. assert (seen s = seen r) as H by apply consume_reference. clearbody s r.
  by injection H as _ _ _ -> -> ->.
Qed.

(** C30: Whatever the server sends and however reading ends, the stream settles; the
    chunks follow the protocol of the SDK (one text part at a time, with growing
    numbers, closed before [finish]); it resolves exactly when [finish] was sent. *)
Theorem stream_settles_with_protocol (texts : list (list N)) (e : ReadEnd) :
  let s := consume texts e in
  exists p, proto (enqueued s) = Some p /\
    match completion s with
    | Some (inl _) => p = PDone
    | Some (inr _) => p <> PDone
    | None => False
    end.
Proof.
  intros s. destruct (consume_ended texts e) as [_ H]. fold s in H.
  destruct (completion s) as [[]|]; [eauto|destruct H as (p & Hp & Hn); eauto|done].
Qed.

(** An answer in two pieces that cut an event in the middle. *)
Example sample_stream :
  let piece1 := js "event: delta" ++ [10%N] ++ js "data: {" ++ [34%N] ++ js "cont" in
  let piece2 := js "ent" ++ [34%N] ++ js ": " ++ [34%N] ++ js "Hi" ++ [34%N] ++ js "}" ++ [10; 10]%N ++
                js "event: done" ++ [10%N] ++ js "data: {}" ++ [10; 10]%N in
  let s := consume [piece1; piece2] (BodyEnd []) in
  enqueued s = [CStart; CTextStart 0; CTextDelta 0 (js "Hi"); CTextEnd 0; CFinish] /\
  shown_text (textEvents s) = js "Hi" /\ completion s = Some (inl (JObj [])).
Proof. vm_compute. split_and!; reflexivity. Qed.
