(* ===== verification/Access.v ===== *)
(** * Navigation modules and administrator permissions
    (src/apps/web/src/lib/nav-modules.ts, lib/admin-permissions.ts)

    The header modules an administrator configures, read from the status of the server
    and cached in browser storage, and the permission matrix of administrators. *)
From S2P Require Import Prelude JsString JsNumber JsJson JsNumberPrint JsJsonPrint AuthSession BrowserStorage JsCollections Sidebar.
From Stdlib Require Import Lia.

(** ** Header modules *)

Record ModuleAccess := mkAccess { access_enabled : bool; requireAuth : bool }.

Inductive HeaderNavModule := NavRankings | NavPricing | NavSecurity.

(** The boolean entries are a map, as the index signature of the source has it. *)
Record HeaderNavModules := mkNav {
  nav_flags : gmap (list N) bool;
  pricing : ModuleAccess;
  rankings : ModuleAccess;
  security : ModuleAccess }.

Definition DEFAULT_ACCESS : ModuleAccess := mkAccess true false.

Definition DEFAULT_HEADER_NAV_MODULES : HeaderNavModules :=
  mkNav (list_to_map ((fun k => (js k, true)) <$> ["home"; "console"; "docs"; "about"]%string))
    DEFAULT_ACCESS DEFAULT_ACCESS DEFAULT_ACCESS.

(** Lowering ASCII is enough for the four texts: no other unit is lowered to one of their
    letters. *)
Definition parseHeaderNavBoolean (raw : option json) (fallback : bool) : bool :=
  match raw with
  | Some (JBool b) => b
  | Some (JNum n) => if num_eqb n (num_of_Z 1) then true else if num_eqb n num_zero then false else fallback
  | Some (JStr s) =>
      let normalized := lower_ascii <$> trim s in
      if bool_decide (normalized = js "true") || bool_decide (normalized = js "1") then true
      else if bool_decide (normalized = js "false") || bool_decide (normalized = js "0") then false
      else fallback
  | _ => fallback
  end.

Definition is_primitive (v : json) : bool := match v with JBool _ | JNum _ | JStr _ => true | _ => false end.

Definition parseAccess (raw : json) (fallback : ModuleAccess) : ModuleAccess :=
  match raw with
  | JBool _ | JNum _ | JStr _ => mkAccess (parseHeaderNavBoolean (Some raw) (access_enabled fallback)) (requireAuth fallback)
  | JObj _ => mkAccess (parseHeaderNavBoolean (get "enabled" raw) (access_enabled fallback))
                (parseHeaderNavBoolean (get "requireAuth" raw) (requireAuth fallback))
  | _ => fallback
  end.

Definition parseHeaderNavRecord (raw : option json) : option (list (list N * json)) :=
  match raw with
  | Some (JObj ms) => Some ms
  | None | Some JNull => None
  | Some v =>
      if negb (nonempty (trim (json_to_string v))) then None
      else match json_parse (json_to_string v) with Some (JObj ms) => Some ms | _ => None end
  end.

(** One entry of the configuration.  Assigning a boolean to [__proto__] has no effect. *)
Definition nav_entry (result : HeaderNavModules) (e : list N * json) : HeaderNavModules :=
  let '(key, value) := e in
  if bool_decide (key = js "pricing") then
    mkNav (nav_flags result) (parseAccess value (pricing result)) (rankings result) (security result)
  else if bool_decide (key = js "rankings") then
    mkNav (nav_flags result) (pricing result) (parseAccess value (rankings result)) (security result)
  else if bool_decide (key = js "security") then
    mkNav (nav_flags result) (pricing result) (rankings result) (parseAccess value (security result))
  else
    let fallback := nav_flags result !! key in
    if (bool_decide (is_Some fallback) || is_primitive value) && negb (bool_decide (key = js "__proto__")) then
      mkNav (<[key := parseHeaderNavBoolean (Some value) (default true fallback)]> (nav_flags result))
        (pricing result) (rankings result) (security result)
    else result.

Definition parseHeaderNavModules (raw : option json) : HeaderNavModules :=
  match parseHeaderNavRecord raw with
  | Some ms => fold_left nav_entry ms DEFAULT_HEADER_NAV_MODULES
  | None => DEFAULT_HEADER_NAV_MODULES
  end.

Definition parseHeaderNavModulesFromStatus (status : option json) : HeaderNavModules :=
  parseHeaderNavModules (status ≫= get "HeaderNavModules").

Definition nav_access (m : HeaderNavModule) (r : HeaderNavModules) : ModuleAccess :=
  match m with NavRankings => rankings r | NavPricing => pricing r | NavSecurity => security r end.

Definition getModuleAccessFromStatus (status : option json) (m : HeaderNavModule) : ModuleAccess :=
  nav_access m (parseHeaderNavModulesFromStatus status).

Section Cache.
Context {St : Type} `{Storage St}.

Definition STATUS_KEY : list N := js "status".

Definition getCachedStatus (s : St) : option json :=
  raw ← getItem STATUS_KEY s;
  if negb (nonempty raw) then None
  else match json_parse raw with Some (JObj ms) => Some (JObj ms) | _ => None end.

Definition cacheStatus (status : option json) (s : St) : St :=
  match status with Some v => try_set STATUS_KEY (json_stringify v) s | None => s end.

Definition getModuleAccess (m : HeaderNavModule) (s : St) : ModuleAccess :=
  getModuleAccessFromStatus (getCachedStatus s) m.

Definition getCachedSidebarModulesAdmin (s : St) : option json := getCachedStatus s ≫= get "SidebarModulesAdmin".

Definition isSidebarModuleEnabled (section_name module_name : list N) (s : St) : bool :=
  isSidebarModuleEnabledByModules section_name module_name (getCachedSidebarModulesAdmin s).

(** [answer] is what [getStatus] returns, [None] when it rejects. *)
Definition getFreshModuleAccess (m : HeaderNavModule) (answer : option (option json)) (s : St) : ModuleAccess * St :=
  match answer with
  | Some status => (getModuleAccessFromStatus status m, cacheStatus status s)
  | None => (mkAccess false true, s)
  end.

(** ** The cache answers as the server did *)

Context `{!StorageLaws St}.

(** The access decided from a fresh status is the one the cache gives afterwards, for
    every module, when the storage accepts the status; and when the server cannot be
    asked the module is closed and the cache untouched. *)
Theorem fresh_access_cached (m m' : HeaderNavModule) (ms : list (list N * json)) (s s' : St) :
  json_wf (JObj ms) = true -> setItem STATUS_KEY (json_stringify (JObj ms)) s = Some s' ->
  (getFreshModuleAccess m (Some (Some (JObj ms))) s).2 = s' /\
  getModuleAccess m' s' = getModuleAccessFromStatus (Some (JObj ms)) m' /\
  getFreshModuleAccess m None s = (mkAccess false true, s).
Proof.
  intros Hwf Hset. unfold getFreshModuleAccess, cacheStatus, try_set. rewrite Hset. cbn [snd default].
  split_and!; [done| |done]. unfold getModuleAccess, getCachedStatus. rewrite (get_set _ _ _ _ Hset).
  cbn [mbind option_bind]. rewrite json_roundtrip by done.
  assert (nonempty (json_stringify (JObj ms)) = true) as -> by done. done.
Qed.

End Cache.

(** ** Administrator permissions *)

Notation matrix := (gmap (list N) (gmap (list N) bool)) (only parsing).

Definition ADMIN_ROLE_KEY : list N := js "admin".

Record PermissionResourceDef := mkResource { resource : list N; actions : list (list N) }.
Record PermissionRoleDef := mkRole { role_key : list N; superuser : bool; grants : gmap (list N) (gmap (list N) bool) }.
Record PermissionCatalog := mkCatalog { catalog_resources : list PermissionResourceDef; catalog_roles : list PermissionRoleDef }.

Definition EMPTY_PERMISSION_CATALOG : PermissionCatalog := mkCatalog [] [].

(** [matrix?.[resource]?.[action]] *)
Definition granted (m : gmap (list N) (gmap (list N) bool)) (r a : list N) : option bool := m !! r ≫= fun x => x !! a.

(** The role of the user and its [permissions.admin_permissions]. *)
Definition hasPermission (u : option (spec_float * gmap (list N) (gmap (list N) bool))) (r a : list N) : bool :=
  match u with
  | None => false
  | Some (role, permissions) =>
      if num_eqb role ROLE_SUPER_ADMIN then true else bool_decide (granted permissions r a = Some true)
  end.

Definition roleGrants (c : PermissionCatalog) (roleKey : list N) : gmap (list N) (gmap (list N) bool) :=
  match list_find (fun x => role_key x = roleKey) (catalog_roles c) with Some (_, x) => grants x | None => ∅ end.

(** [a ?? b] *)
Definition nullish {A} (a b : option A) : option A := match a with Some x => Some x | None => b end.

Definition permission_value (value : option (gmap (list N) (gmap (list N) bool))) (c : PermissionCatalog) (r a : list N) : bool :=
  default false (nullish (value ≫= fun m => granted m r a) (granted (roleGrants c ADMIN_ROLE_KEY) r a)).

Definition resource_actions (value : option (gmap (list N) (gmap (list N) bool))) (c : PermissionCatalog)
    (d : PermissionResourceDef) : gmap (list N) bool :=
  fold_left (fun m a => <[a := permission_value value c (resource d) a]> m) (actions d) ∅.

Definition normalizeAdminPermissions (value : option (gmap (list N) (gmap (list N) bool))) (c : PermissionCatalog)
  : gmap (list N) (gmap (list N) bool) :=
  fold_left (fun m d => <[resource d := resource_actions value c d]> m) (catalog_resources c) ∅.

Lemma resource_actions_lookup value c d a :
  resource_actions value c d !! a =
  if bool_decide (a ∈ actions d) then Some (permission_value value c (resource d) a) else None.
Proof.
  unfold resource_actions.
  assert (forall (l : list (list N)) (m : gmap (list N) bool),
    fold_left (fun m a => <[a := permission_value value c (resource d) a]> m) l m !! a =
    if bool_decide (a ∈ l) then Some (permission_value value c (resource d) a) else m !! a) as H.
  { induction l as [|x l IH]; intros m; cbn [fold_left].
    - rewrite bool_decide_eq_false_2 by apply not_elem_of_nil. done.
    - rewrite IH. destruct (decide (a ∈ l)) as [Hl|Hl].
      + rewrite !bool_decide_eq_true_2 by (done || by right). done.
      + rewrite bool_decide_eq_false_2 by done. destruct (decide (a = x)) as [->|Hx].
        * rewrite lookup_insert_eq, bool_decide_eq_true_2 by left. done.
        * rewrite lookup_insert_ne by done. rewrite bool_decide_eq_false_2; [done|].
          rewrite elem_of_cons. naive_solver. }
  rewrite H. by destruct (bool_decide _).
Qed.

Lemma normalize_lookup value c r :
  normalizeAdminPermissions value c !! r =
  (fun d => resource_actions value c d) <$> last_at resource r (catalog_resources c).
Proof.
  unfold normalizeAdminPermissions. generalize (catalog_resources c) as l.
  induction l as [|d l IH] using rev_ind; [done|]. rewrite fold_left_app, last_at_app. cbn [fold_left last_at].
  destruct (decide (resource d = r)) as [<-|Hne].
  - by rewrite lookup_insert_eq, bool_decide_eq_true_2.
  - rewrite lookup_insert_ne by done. by rewrite bool_decide_eq_false_2.
Qed.

(** A normalized matrix has an entry for exactly the actions of the catalogue: the value
    given, else the baseline of the administrator role, else [false]; normalizing it
    again changes nothing; and without the super administrator's role a permission is
    held only when the matrix says so. *)
Theorem normalized_permissions (value : option (gmap (list N) (gmap (list N) bool))) (c : PermissionCatalog) :
  (forall r a, granted (normalizeAdminPermissions value c) r a =
     match last_at resource r (catalog_resources c) with
     | Some d => if bool_decide (a ∈ actions d) then Some (permission_value value c r a) else None
     | None => None
     end) /\
  normalizeAdminPermissions (Some (normalizeAdminPermissions value c)) c = normalizeAdminPermissions value c /\
  forall role r a, num_eqb role ROLE_SUPER_ADMIN = false ->
    hasPermission (Some (role, normalizeAdminPermissions value c)) r a = true -> permission_value value c r a = true.
Proof.
  assert (forall r a, granted (normalizeAdminPermissions value c) r a =
     match last_at resource r (catalog_resources c) with
     | Some d => if bool_decide (a ∈ actions d) then Some (permission_value value c r a) else None
     | None => None
     end) as Hg.
  { intros r a. unfold granted. rewrite normalize_lookup.
    destruct (last_at resource r (catalog_resources c)) as [d|] eqn:E; [|done]. cbn.
    rewrite resource_actions_lookup. by apply last_at_Some in E as [_ ->]. }
  split_and!; [exact Hg| |].
  - apply map_eq. intros r. rewrite !normalize_lookup. destruct (last_at resource r (catalog_resources c)) as [d|] eqn:E; [|done].
    cbn. f_equal. apply map_eq. intros a. rewrite !resource_actions_lookup. case_bool_decide as Ha; [|done].
    f_equal. unfold permission_value at 1. cbn [mbind option_bind]. pose proof (last_at_Some _ _ _ _ E) as [_ Er].
    rewrite Er, Hg, E, bool_decide_eq_true_2 by done. done.
  - intros role r a Hrole. cbn [hasPermission]. rewrite Hrole. intros H. apply bool_decide_eq_true in H. rewrite Hg in H.
    destruct (last_at _ _ _); [|done]. case_bool_decide; [|done]. congruence.
Qed.
