(* ===== verification/ChannelConfig.v ===== *)
(** * Channel configuration (src/apps/web/src/features/channels)

    The model list and the model mapping of an upstream channel
    (lib/model-mapping-validation.ts), the status code mapping
    (lib/status-code-risk-guard.ts) and the submit handler that checks them
    ([onSubmit] of components/drawers/channel-mutate-drawer.tsx).

    The two dialogs the handler awaits are functions of the answers; the mutation it ends
    with is the environment, so that the handler returns what it hands over.  The
    collation of [localeCompare] is a parameter. *)
From S2P Require Import Prelude JsString JsNumber JsJson JsCollections.
From Stdlib Require Import Lia.

(** ** Model lists *)

Definition COMMA : N := 44%N.

Definition normalizeModelName (model : list N) : list N := trim model.

Definition parseModelsString (modelsStr : list N) : list (list N) :=
  if nonempty modelsStr
  then filter (fun m => nonempty m = true) (map trim (split_on COMMA modelsStr))
  else [].

Definition formatModelsArray (models : list (list N)) : list N := join [COMMA] (set_values models).

(** ** Model mappings *)

(** [JSON.parse] with the tests that follow it: the entries of an object. *)
Definition parsed_object (text : list N) : option (list (list N * json)) :=
  match json_parse text with
  | Some (JObj members) => Some (object_entries members)
  | _ => None
  end.

Definition extractMappingSourceModels (modelMapping : list N) : list (list N) :=
  let trimmed := trim modelMapping in
  if nonempty trimmed then
    match parsed_object trimmed with
    | Some entries => set_values (filter (fun k => nonempty k = true) (map (fun kv => trim kv.1) entries))
    | None => []
    end
  else [].

Definition redirect_of (kv : list N * json) : option (list N) :=
  match kv.2 with JStr s => if nonempty (trim s) then Some (trim s) else None | _ => None end.

Definition extractRedirectModels (modelMapping : list N) : list (list N) :=
  let trimmed := trim modelMapping in
  if nonempty trimmed then
    match parsed_object trimmed with
    | Some entries => set_values (omap redirect_of entries)
    | None => []
    end
  else [].

Definition hasModelConfigChanged (currentModels : list (list N)) (currentModelMapping : list N)
    (initialModels : list (list N)) (initialModelMapping : list N) : bool :=
  if bool_decide (initialModels = []) && negb (nonempty initialModelMapping) then true
  else if bool_decide (currentModels <> initialModels) then true
  else bool_decide (trim currentModelMapping <> trim initialModelMapping).

Definition findMissingModelsInMapping (modelMapping : list N) (currentModels : list (list N)) : list (list N) :=
  if negb (nonempty modelMapping) || negb (nonempty (trim modelMapping)) then []
  else
    match parsed_object modelMapping with
    | None => []
    | Some entries =>
        let modelSet := map normalizeModelName currentModels in
        set_values (filter (fun k => nonempty k = true /\ k ∉ modelSet) (map (fun kv => normalizeModelName kv.1) entries))
    end.

Inductive MappingValidity := Valid | Invalid (error : string).

Definition is_text (v : json) : bool := match v with JStr _ => true | _ => false end.

Definition validateModelMappingJson (modelMapping : list N) : MappingValidity :=
  if negb (nonempty modelMapping) || negb (nonempty (trim modelMapping)) then Valid
  else
    match json_parse modelMapping with
    | Some (JObj members) =>
        if existsb (fun kv => negb (is_text kv.2)) (object_entries members)
        then Invalid "Model mapping values must be strings" else Valid
    | Some _ => Invalid "Model mapping must be a valid JSON object"
    | None => Invalid "Model mapping must be valid JSON format"
    end.

Definition findExposedTargetModels (modelMapping : list N) (currentModels : list (list N)) : list (list N) :=
  filter (fun m => normalizeModelName m ∈ map normalizeModelName currentModels) (extractRedirectModels modelMapping).

Record ModelCategories := mkCategories {
  normalizedCurrentModels : list (list N);
  normalizedRedirectModels : list (list N);
  classificationSet : list (list N);
  redirectOnlySet : list (list N) }.

Definition normalized_set (models : list (list N)) : list (list N) :=
  set_values (filter (fun m => nonempty m = true) (map normalizeModelName models)).

Definition categorizeModelsWithRedirect (currentModels redirectModels : list (list N)) : ModelCategories :=
  let current := normalized_set currentModels in
  let redirect := normalized_set redirectModels in
  mkCategories current redirect (set_values (current ++ redirect)) (set_values (filter (fun m => m ∉ current) redirect)).

(** ** Status code mappings *)

Definition NON_REDIRECTABLE_STATUS_CODES : list spec_float := [num_of_Z 504; num_of_Z 524].

(** [/^[1-5]\d{2}$/.test(s)] and the number read. *)
Definition three_digits (s : list N) : option spec_float :=
  match s with
  | [a; b; c] =>
      if ((49 <=? a) && (a <=? 53))%N && is_digit b && is_digit c
      then Some (num_of_Z (Z.of_N (dec_value s))) else None
  | _ => None
  end.

Definition parseStatusCodeKey (rawKey : list N) : option spec_float := three_digits (trim rawKey).

Definition in_code_range (n : spec_float) : bool := num_leb (num_of_Z 100) n && num_leb n (num_of_Z 599).

Definition parseStatusCodeMappingTarget (rawValue : json) : option spec_float :=
  match rawValue with
  | JNum n => if is_finite n && num_eqb (num_floor n) n && in_code_range n then Some n else None
  | JStr s => match three_digits (trim s) with
              | Some code => if in_code_range code then Some code else None
              | None => None
              end
  | _ => None
  end.

Definition parseStatusCodeMapping (statusCodeMappingStr : list N) : list (list N * json) :=
  if nonempty (trim statusCodeMappingStr) then default [] (parsed_object statusCodeMappingStr) else [].

Definition invalid_entry (kv : list N * json) : option (list N) :=
  match parseStatusCodeKey kv.1, parseStatusCodeMappingTarget kv.2 with
  | Some _, Some _ => None
  | _, _ => Some (kv.1 ++ [32; 8594; 32]%N ++ json_to_string kv.2)
  end.

Definition collectInvalidStatusCodeEntries (statusCodeMappingStr : list N) : list (list N) :=
  omap invalid_entry (parseStatusCodeMapping statusCodeMappingStr).

Definition risky_redirect (kv : list N * json) : option (list N) :=
  match parseStatusCodeKey kv.1, parseStatusCodeMappingTarget kv.2 with
  | Some fromCode, Some toCode =>
      if negb (existsb (num_eqb fromCode) NON_REDIRECTABLE_STATUS_CODES) then None
      else if num_eqb fromCode toCode then None
      else Some (num_to_string fromCode ++ js " -> " ++ num_to_string toCode)
  | _, _ => None
  end.

Section Submit.
Context (localeCompare : list N -> list N -> Z).

Definition collectDisallowedStatusCodeRedirects (statusCodeMappingStr : list N) : list (list N) :=
  sort_by localeCompare (set_values (omap risky_redirect (parseStatusCodeMapping statusCodeMappingStr))).

Definition collectNewDisallowedStatusCodeRedirects (originalStr currentStr : list N) : list (list N) :=
  filter (fun m => m ∉ collectDisallowedStatusCodeRedirects originalStr)
    (collectDisallowedStatusCodeRedirects currentStr).

(** ** The submit handler *)

Inductive MissingModelsAction := ActCancel | ActSubmit | ActAdd.

(** The fields of the form the handler reads. *)
Record ChannelFormValues := mkForm {
  form_key : option (list N);
  form_models : option (list N);
  form_mapping : option (list N);
  form_status_codes : option (list N) }.

(** The refs and flags it closes over. *)
Record SubmitContext := mkSubmit {
  isEditing : bool;
  sensitiveLocked : bool;
  hasSensitiveChanges : bool;
  initialModels : list (list N);
  initialModelMapping : list N;
  initialStatusCodeMapping : list N }.

Record Dialogs := mkDialogs {
  confirmStatusCodeRisk : list (list N) -> bool;
  confirmMissingModelMappings : list (list N) -> MissingModelsAction }.

Inductive SubmitResult :=
| KeyRequired
| SensitiveRefused
| InvalidStatusCodes (entries : list (list N))
| RiskDeclined
| InvalidMapping (error : string)
| Cancelled
| Submitted (data : ChannelFormValues).

Definition set_models (m : list N) (d : ChannelFormValues) : ChannelFormValues :=
  mkForm (form_key d) (Some m) (form_mapping d) (form_status_codes d).

Definition status_code_check (ctx : SubmitContext) (dialogs : Dialogs) (codes : list N) : option SubmitResult :=
  if nonempty (trim codes) then
    match collectInvalidStatusCodeEntries codes with
    | (_ :: _) as invalid => Some (InvalidStatusCodes invalid)
    | [] =>
        let riskyRedirects := collectNewDisallowedStatusCodeRedirects (initialStatusCodeMapping ctx) codes in
        match riskyRedirects with
        | _ :: _ => if confirmStatusCodeRisk dialogs riskyRedirects then None else Some RiskDeclined
        | [] => None
        end
    end
  else None.

Definition missing_check (ctx : SubmitContext) (dialogs : Dialogs) (data : ChannelFormValues) : SubmitResult :=
  let modelMappingValue := default [] (form_mapping data) in
  let normalizedModels := parseModelsString (default [] (form_models data)) in
  let missingModels := findMissingModelsInMapping modelMappingValue normalizedModels in
  if nonempty (trim modelMappingValue) && negb (bool_decide (missingModels = [])) &&
     hasModelConfigChanged normalizedModels modelMappingValue (initialModels ctx) (initialModelMapping ctx)
  then
    match confirmMissingModelMappings dialogs missingModels with
    | ActCancel => Cancelled
    | ActAdd => Submitted (set_models (formatModelsArray (set_values (normalizedModels ++ missingModels))) data)
    | ActSubmit => Submitted data
    end
  else Submitted data.

Definition onSubmit (ctx : SubmitContext) (dialogs : Dialogs) (data : ChannelFormValues) : SubmitResult :=
  if negb (isEditing ctx) && negb (nonempty (trim (default [] (form_key data)))) then KeyRequired
  else if sensitiveLocked ctx && hasSensitiveChanges ctx then SensitiveRefused
  else
    match status_code_check ctx dialogs (default [] (form_status_codes data)) with
    | Some refused => refused
    | None =>
        let modelMappingValue := default [] (form_mapping data) in
        match (if nonempty (trim modelMappingValue) then validateModelMappingJson modelMappingValue else Valid) with
        | Invalid error => InvalidMapping error
        | Valid => missing_check ctx dialogs data
        end
    end.

End Submit.

(** ** Lists of models *)

Lemma elem_of_drop_while p s c : c ∈ drop_while p s -> c ∈ s.
Proof. destruct (drop_while_suffix p s) as [a H]. rewrite H at 2. set_solver. Qed.

Lemma elem_of_trim s c : c ∈ trim s -> c ∈ s.
Proof.
  unfold trim, trim_end, trim_start. rewrite elem_of_reverse. intros H%elem_of_drop_while.
  rewrite elem_of_reverse in H. by apply elem_of_drop_while in H.
Qed.

Lemma split_on_pieces sep s : Forall (fun w => sep ∉ w) (split_on sep s).
Proof.
  induction s as [|c s IH]; simpl; [by repeat constructor; apply not_elem_of_nil|].
  destruct (N.eqb_spec c sep) as [->|Hc]; [constructor; [apply not_elem_of_nil|done]|].
  destruct (split_on sep s) as [|w ws]; inv IH; (constructor; [|done]);
    apply not_elem_of_cons; (split; [done|]); first [done|apply not_elem_of_nil].
Qed.

Lemma split_on_app_gen sep a b : split_on sep (a ++ sep :: b) = split_on sep a ++ split_on sep b.
Proof.
  induction a as [|c a IH]; simpl; [by rewrite N.eqb_refl|]. destruct (c =? sep)%N; [by rewrite IH|].
  rewrite IH. pose proof (split_on_nonempty sep a). by destruct (split_on sep a).
Qed.

Lemma split_on_join_gen sep ws : ws <> [] -> split_on sep (join [sep] ws) = concat (map (split_on sep) ws).
Proof.
  induction ws as [|w ws IH]; [done|]. intros _. destruct (decide (ws = [])) as [->|Hne].
  - simpl. by rewrite app_nil_r.
  - rewrite join_cons by done. cbn [app map concat]. by rewrite split_on_app_gen, IH.
Qed.

Lemma parse_models_eq s :
  parseModelsString s = filter (fun m => nonempty m = true) (map trim (split_on COMMA s)).
Proof. by destruct s. Qed.

Definition model_name (m : list N) : Prop := trimmed m /\ nonempty m = true /\ COMMA ∉ m.

Lemma parse_models_names s : Forall model_name (parseModelsString s).
Proof.
  rewrite parse_models_eq, Forall_forall. intros m (Hn & Hm)%list_elem_of_filter.
  apply list_elem_of_In, in_map_iff in Hm as (w & <- & Hw). split_and!; [apply trim_is_trimmed|done|].
  intros H%elem_of_trim. apply list_elem_of_In in Hw. pose proof (split_on_pieces COMMA s) as HF.
  rewrite Forall_forall in HF. by apply (HF w Hw).
Qed.

Lemma parse_model_name m : model_name m -> parseModelsString m = [m].
Proof.
  intros (Ht & Hn & Hc). rewrite parse_models_eq, split_on_notin by done. cbn [map].
  by rewrite trim_trimmed, filter_cons_True by done.
Qed.

Lemma elem_of_parse_join m ws :
  m ∈ parseModelsString (join [COMMA] ws) <-> exists w, w ∈ ws /\ m ∈ parseModelsString w.
Proof.
  destruct (decide (ws = [])) as [->|Hne]; [split; [by intros []%not_elem_of_nil|by intros (w & []%not_elem_of_nil & _)]|].
  rewrite parse_models_eq, split_on_join_gen by done.
  setoid_rewrite parse_models_eq. setoid_rewrite list_elem_of_filter. rewrite concat_map, map_map, list_elem_of_In, in_concat.
  split.
  - intros (Hn & l & (w & <- & Hw)%in_map_iff & Hm). exists w. by rewrite !list_elem_of_In.
  - intros (w & Hw & Hn & Hm). split; [done|]. exists (map trim (split_on COMMA w)). split; [|by apply list_elem_of_In].
    apply in_map_iff. exists w. by rewrite <- list_elem_of_In.
Qed.

Lemma elem_of_format m models :
  m ∈ parseModelsString (formatModelsArray models) <-> exists w, w ∈ models /\ m ∈ parseModelsString w.
Proof. unfold formatModelsArray. rewrite elem_of_parse_join. by setoid_rewrite elem_of_set_values. Qed.

(** Formatting the parsed list keeps it, without its repetitions. *)
Theorem models_roundtrip models :
  Forall model_name models -> parseModelsString (formatModelsArray models) = set_values models.
Proof.
  intros H. unfold formatModelsArray. assert (Forall model_name (set_values models)) as HF.
  { rewrite Forall_forall in H |- *. intros m Hm. apply H. by apply elem_of_set_values. }
  destruct (decide (set_values models = [])) as [E|E]; [by rewrite E|].
  rewrite parse_models_eq, split_on_join; [|done|eapply Forall_impl; [exact HF|]; by intros m (_ & _ & ?)].
  assert (map trim (set_values models) = set_values models) as ->.
  { clear E. induction HF as [|m l (Ht & _) _ IH]; [done|]. cbn [map]. by rewrite IH, trim_trimmed. }
  apply filter_all. eapply Forall_impl; [exact HF|]. by intros m (_ & ? & _).
Qed.

(** ** What is missing *)

Definition mapping_names (mapping m : list N) : Prop :=
  nonempty (trim mapping) = true /\
  exists entries kv, parsed_object mapping = Some entries /\ kv ∈ entries /\ trim kv.1 = m /\ nonempty m = true.

Lemma elem_of_missing m mapping models :
  m ∈ findMissingModelsInMapping mapping models <-> mapping_names mapping m /\ m ∉ map trim models.
Proof.
  unfold findMissingModelsInMapping, mapping_names.
  assert (nonempty mapping = false -> nonempty (trim mapping) = false) as He by (by destruct mapping).
  destruct (nonempty (trim mapping)) eqn:Et.
  2:{ rewrite orb_true_r. split; [by intros []%not_elem_of_nil|]. by intros ((? & _) & _). }
  destruct (nonempty mapping); [|by specialize (He eq_refl)]. cbn [negb orb].
  destruct (parsed_object mapping) as [entries|].
  2:{ split; [by intros []%not_elem_of_nil|]. by intros ((_ & ? & ? & ? & _) & _). }
  rewrite elem_of_set_values, list_elem_of_filter, (list_elem_of_In (map (fun kv => normalizeModelName kv.1) entries)), in_map_iff. split.
  - intros ((Hn & Hs) & kv & Hk & Hin). split; [split; [done|]|exact Hs]. exists entries, kv. by rewrite list_elem_of_In.
  - intros ((_ & ? & kv & [= <-] & Hin & Hk & Hn) & Hs). split; [by split|]. exists kv. by rewrite <- list_elem_of_In.
Qed.

Lemma map_trim_names models : Forall model_name models -> map trim models = models.
Proof. induction 1 as [|m l (Ht & _) _ IH]; [done|]. cbn [map]. by rewrite IH, trim_trimmed. Qed.

(** What the handler enters for the user: every missing name but those with a comma. *)
Lemma missing_added mapping s m :
  let entered := parseModelsString s in
  let missing := findMissingModelsInMapping mapping entered in
  let added := parseModelsString (formatModelsArray (set_values (entered ++ missing))) in
  (m ∈ entered -> m ∈ added) /\
  (m ∈ findMissingModelsInMapping mapping added <-> m ∈ missing /\ COMMA ∈ m).
Proof.
  intros entered missing added.
  assert (Forall model_name entered) as He by apply parse_models_names.
  assert (Forall model_name added) as Ha by apply parse_models_names.
  assert (forall x, x ∈ added <-> exists w, (w ∈ entered \/ w ∈ missing) /\ x ∈ parseModelsString w) as Hadd.
  { intros x. unfold added. rewrite elem_of_format. by setoid_rewrite elem_of_set_values; setoid_rewrite elem_of_app. }
  assert (forall x, x ∈ entered -> x ∈ added) as Hsub.
  { intros x Hx. apply Hadd. exists x. split; [by left|]. rewrite Forall_forall in He. rewrite parse_model_name by auto.
    left. }
  split; [apply Hsub|]. unfold missing. rewrite !elem_of_missing, !map_trim_names by done. split.
  - intros [Hn Hm]. split_and!; [done|by intros H; apply Hm, Hsub|].
    destruct (decide (COMMA ∈ m)) as [|Hc]; [done|]. destruct Hm. apply Hadd. exists m. split.
    + destruct (decide (m ∈ entered)); [by left|right]. unfold missing. rewrite elem_of_missing, map_trim_names by done. done.
    + destruct Hn as (_ & ? & kv & _ & _ & <- & Hn). rewrite parse_model_name; [left|].
      split_and!; [apply trim_is_trimmed|done|done].
  - intros [[Hn _] Hc]. split; [done|]. intros H. rewrite Forall_forall in Ha. by apply (Ha m H).
Qed.

(** ** Checks before submission *)

(** A redirect of a status code the user has to confirm: it was there before, or a dialog
    that listed it was confirmed. *)
Definition redirect_agreed (lc : list N -> list N -> Z) (ctx : SubmitContext) (dialogs : Dialogs) (text : list N) : Prop :=
  text ∈ collectDisallowedStatusCodeRedirects lc (initialStatusCodeMapping ctx) \/
  exists listed, text ∈ listed /\ confirmStatusCodeRisk dialogs listed = true.

Lemma elem_of_disallowed lc codes text :
  text ∈ collectDisallowedStatusCodeRedirects lc codes <->
  exists kv, kv ∈ parseStatusCodeMapping codes /\ risky_redirect kv = Some text.
Proof.
  unfold collectDisallowedStatusCodeRedirects. rewrite sort_by_perm, elem_of_set_values. apply list_elem_of_omap.
Qed.

Lemma omap_nil {A B} (f : A -> option B) l x : omap f l = [] -> x ∈ l -> f x = None.
Proof.
  intros H Hx. destruct (f x) as [y|] eqn:E; [|done].
  assert (y ∈ omap f l) as Hy by (apply list_elem_of_omap; eauto). rewrite H in Hy. by apply not_elem_of_nil in Hy.
Qed.

Lemma status_codes_checked lc ctx dialogs codes :
  status_code_check lc ctx dialogs codes = None ->
  forall kv, kv ∈ parseStatusCodeMapping codes ->
    is_Some (parseStatusCodeKey kv.1) /\ is_Some (parseStatusCodeMappingTarget kv.2) /\
    forall text, risky_redirect kv = Some text -> redirect_agreed lc ctx dialogs text.
Proof.
  unfold status_code_check. intros H kv Hkv. destruct (nonempty (trim codes)) eqn:Et.
  2:{ unfold parseStatusCodeMapping in Hkv. rewrite Et in Hkv. by apply not_elem_of_nil in Hkv. }
  destruct (collectInvalidStatusCodeEntries codes) as [|bad rest] eqn:Ei; [|done].
  pose proof (omap_nil _ _ _ Ei Hkv) as Hvalid. unfold invalid_entry in Hvalid.
  destruct (parseStatusCodeKey kv.1) as [f|]; [|done]. destruct (parseStatusCodeMappingTarget kv.2) as [t|]; [|done].
  split_and!; [by eexists..|]. intros text Hr.
  assert (text ∈ collectDisallowedStatusCodeRedirects lc codes) as Ht by (apply elem_of_disallowed; eauto).
  destruct (decide (text ∈ collectDisallowedStatusCodeRedirects lc (initialStatusCodeMapping ctx))) as [|Hn]; [by left|].
  assert (text ∈ collectNewDisallowedStatusCodeRedirects lc (initialStatusCodeMapping ctx) codes) as Hnew
    by (by apply list_elem_of_filter).
  right. destruct (collectNewDisallowedStatusCodeRedirects lc (initialStatusCodeMapping ctx) codes) as [|x l].
  - by apply not_elem_of_nil in Hnew.
  - exists (x :: l). split; [done|]. by destruct (confirmStatusCodeRisk dialogs (x :: l)).
Qed.

Lemma mapping_validated mapping :
  nonempty (trim mapping) = true -> validateModelMappingJson mapping = Valid ->
  exists members, json_parse mapping = Some (JObj members) /\ forall kv, kv ∈ members -> is_text kv.2 = true.
Proof.
  intros Ht. unfold validateModelMappingJson. rewrite Ht.
  assert (nonempty mapping = true) as -> by (by destruct mapping). cbn [negb orb].
  destruct (json_parse mapping) as [[]|]; try done. destruct (existsb _ _) eqn:E; [done|]. intros _. exists members.
  split; [done|]. intros kv Hkv. rewrite <- elem_of_object_entries in Hkv. apply list_elem_of_In in Hkv.
  destruct (is_text kv.2) eqn:Ek; [done|]. assert (existsb (fun kv => negb (is_text kv.2)) (object_entries members) = true)
    by (apply existsb_exists; exists kv; by rewrite Ek). congruence.
Qed.

(** C28: whatever the dialogs answer, what the handler submits has been checked.  A new
    channel has a key and a locked form no sensitive change; every status code entry is
    valid and every redirect of 504 or 524 to another code was in the stored mapping or
    in a list the user confirmed; a model mapping is an object of strings.  Only the
    list of models may differ from the form, when the user chose to add the missing
    names: then all entered models are kept, and what is still missing is exactly the
    names with a comma, which the list cannot hold. *)
Theorem submitted_channel_checked lc ctx dialogs data data' :
  onSubmit lc ctx dialogs data = Submitted data' ->
  let mapping := default [] (form_mapping data) in
  let entered := parseModelsString (default [] (form_models data)) in
  let missing := findMissingModelsInMapping mapping entered in
  let submitted := parseModelsString (default [] (form_models data')) in
  (isEditing ctx = true \/ nonempty (trim (default [] (form_key data))) = true) /\
  (sensitiveLocked ctx = true -> hasSensitiveChanges ctx = false) /\
  (forall kv, kv ∈ parseStatusCodeMapping (default [] (form_status_codes data)) ->
    is_Some (parseStatusCodeKey kv.1) /\ is_Some (parseStatusCodeMappingTarget kv.2) /\
    forall text, risky_redirect kv = Some text -> redirect_agreed lc ctx dialogs text) /\
  (nonempty (trim mapping) = true ->
    exists members, json_parse mapping = Some (JObj members) /\ forall kv, kv ∈ members -> is_text kv.2 = true) /\
  (data' = data /\
     (missing = [] \/ confirmMissingModelMappings dialogs missing = ActSubmit \/
      hasModelConfigChanged entered mapping (initialModels ctx) (initialModelMapping ctx) = false)
   \/
   data' = set_models (default [] (form_models data')) data /\ confirmMissingModelMappings dialogs missing = ActAdd /\
     (forall m, m ∈ entered -> m ∈ submitted) /\
     forall m, m ∈ findMissingModelsInMapping mapping submitted <-> m ∈ missing /\ COMMA ∈ m).
Proof.
  intros H mapping entered missing submitted. unfold onSubmit in H.
  destruct (negb (isEditing ctx) && _) eqn:Ekey; [done|]. destruct (sensitiveLocked ctx && _) eqn:Es; [done|].
  destruct (status_code_check _ _ _ _) as [r|] eqn:Ec.
  { exfalso. subst r. unfold status_code_check in Ec. repeat case_match; done. }
  fold mapping in H.
  destruct (if nonempty (trim mapping) then _ else _) eqn:Ev; [|done].
  split_and!.
  - destruct (isEditing ctx); [by left|right]. by destruct (nonempty _).
  - by destruct (sensitiveLocked ctx).
  - by apply status_codes_checked.
  - intros Ht. rewrite Ht in Ev. by apply mapping_validated.
  - unfold missing_check in H. fold mapping entered missing in H. destruct (_ && hasModelConfigChanged _ _ _ _) eqn:Em.
    + destruct (confirmMissingModelMappings dialogs missing) eqn:Ea; simplify_eq; [left; auto|right].
      pose proof (missing_added mapping (default [] (form_models data))) as Hadd.
      split_and!; [done|done|intros m; apply Hadd|intros m; apply Hadd].
    + simplify_eq. left. split; [done|]. apply andb_false_iff in Em as [Em|Em]; [|by auto].
      apply andb_false_iff in Em as [Em|Em]; [left|left; by breflect].
      unfold missing, findMissingModelsInMapping. by rewrite Em, orb_true_r.
Qed.

Definition sample_form : ChannelFormValues :=
  mkForm (Some (js "sk-1")) (Some (js "gpt-4, gpt-5")) (Some (js "{'o3':'gpt-5','a,b':'x'}"))
    (Some (js "{'504':500}")).

(** Quotes of JSON. *)
Definition json_quotes (s : list N) : list N := map (fun c => if (c =? 39)%N then 34%N else c) s.

Definition sample_data : ChannelFormValues :=
  mkForm (form_key sample_form) (form_models sample_form) (json_quotes <$> form_mapping sample_form)
    (json_quotes <$> form_status_codes sample_form).

Lemma submitted_channel_checked_witness :
  onSubmit (fun _ _ => 0%Z) (mkSubmit false false false [] [] []) (mkDialogs (fun _ => true) (fun _ => ActAdd)) sample_data =
    Submitted (set_models (js "gpt-4,gpt-5,o3,a,b") sample_data) /\
  findMissingModelsInMapping (json_quotes (js "{'o3':'gpt-5','a,b':'x'}")) (parseModelsString (js "gpt-4,gpt-5,o3,a,b")) = [js "a,b"] /\
  exists members, json_parse (json_quotes (js "{'o3':'gpt-5','a,b':'x'}")) = Some (JObj members) /\
    forall kv, kv ∈ members -> is_text kv.2 = true.
Proof.
  split; [by vm_compute|split; [by vm_compute|]].
  eapply (submitted_channel_checked (fun _ _ => 0%Z) (mkSubmit false false false [] [] [])
            (mkDialogs (fun _ => true) (fun _ => ActAdd)) sample_data); by vm_compute.
Defined.
