(* ===== verification/ChannelRows.v ===== *)
(** * Channel tables (src/apps/web/src/features/channels/lib)

    The rows of the channel table (channel-utils.ts): aggregation by tag, row ids,
    attention flags, lists of keys and of groups; and the delayed update of a cell
    (channel-field-update.ts) with its timer. *)
From S2P Require Import Prelude JsString JsNumber JsJson JsCollections ChannelConfig.
From Stdlib Require Import Lia.

(** ** Channels *)

(** A value of type [number | null | undefined], and [===] on it. *)
Inductive nullish := NUndefined | NNull | NNum (n : spec_float).

Definition strict_eqb (a b : nullish) : bool :=
  match a, b with
  | NUndefined, NUndefined | NNull, NNull => true
  | NNum x, NNum y => num_eqb x y
  | _, _ => false
  end.

Record ChannelInfo := mkInfo {
  is_multi_key : bool;
  multi_key_size : spec_float;
  multi_key_status_list : option (list (list N * json)) }.

(** The fields the functions of this file read or write; [ch_rest] holds the others. *)
Record Channel := mkChannel {
  ch_id : spec_float;
  ch_type : spec_float;
  ch_key : list N;
  ch_status : spec_float;
  ch_name : list N;
  ch_weight : nullish;
  ch_created_time : spec_float;
  ch_test_time : spec_float;
  ch_response_time : spec_float;
  ch_balance : spec_float;
  ch_balance_updated_time : spec_float;
  ch_models : list N;
  ch_group : list N;
  ch_used_quota : spec_float;
  ch_priority : nullish;
  ch_tag : option (list N);
  ch_info : option ChannelInfo;
  ch_rest : json }.

(** A tag row: its id is the tag, its status is undefined until the first child. *)
Record TagRow := mkRow {
  row_id : list N;
  row_key : list N;
  row_tag : list N;
  row_name : list N;
  row_type : spec_float;
  row_status : option spec_float;
  row_group : list N;
  row_used_quota : spec_float;
  row_response_time : spec_float;
  row_priority : nullish;
  row_weight : nullish;
  row_balance : spec_float;
  row_test_time : spec_float;
  row_created_time : spec_float;
  row_balance_updated_time : spec_float;
  row_models : list N;
  row_info : option ChannelInfo;
  row_rest : json;
  row_children : list Channel }.

Inductive TableRow := ChannelRow (c : Channel) | TagAggregateRow (r : TagRow).

Definition isTagAggregateRow (row : TableRow) : bool := match row with TagAggregateRow _ => true | _ => false end.

Definition getChannelTableRowId (row : TableRow) : list N :=
  match row with
  | TagAggregateRow r => js "tag:" ++ row_tag r
  | ChannelRow c => js "channel:" ++ num_to_string (ch_id c)
  end.

(** ** Aggregation by tag *)

Definition minus_one : nullish := NNum (num_of_Z (-1)).

Definition newTagRow (tag : list N) (c : Channel) : TagRow :=
  mkRow tag tag tag tag num_zero None [] num_zero num_zero minus_one minus_one num_zero num_zero num_zero num_zero []
    (ch_info c) (ch_rest c) [].

(** Same value, or null if different. *)
Definition aggregate_value (row child : nullish) : nullish :=
  if strict_eqb row minus_one then child
  else if negb (strict_eqb row child) then NNull
  else row.

Definition group_names (group : list N) : list (list N) :=
  filter (fun g => nonempty g = true) (split_on COMMA group).

Definition aggregate_group (row child : list N) : list N :=
  match row with
  | [] => child
  | _ =>
      let existingGroups := group_names row in
      fold_left (fun acc g => if bool_decide (g ∈ existingGroups) then acc else acc ++ [COMMA] ++ g) (group_names child) row
  end.

Definition aggregate_status (row : option spec_float) (child : spec_float) : option spec_float :=
  if num_eqb child (num_of_Z 1) then Some (num_of_Z 1)
  else match row with None => Some child | Some s => Some s end.

Definition addChild (c : Channel) (r : TagRow) : TagRow :=
  let children := row_children r ++ [c] in
  let childCount := num_of_Z (Z.of_nat (length children)) in
  mkRow (row_id r) (row_key r) (row_tag r) (row_name r) (row_type r)
    (aggregate_status (row_status r) (ch_status c))
    (aggregate_group (row_group r) (ch_group c))
    (num_add (row_used_quota r) (ch_used_quota c))
    (num_div (num_add (num_mul (row_response_time r) (num_sub childCount (num_of_Z 1))) (ch_response_time c)) childCount)
    (aggregate_value (row_priority r) (ch_priority c))
    (aggregate_value (row_weight r) (ch_weight c))
    (row_balance r) (row_test_time r) (row_created_time r) (row_balance_updated_time r) (row_models r)
    (row_info r) (row_rest r) children.

Definition tag_of (c : Channel) : list N := default [] (ch_tag c).

(** The loop: a row per tag, which the map holds by tag. *)
Definition aggregateChannelsByTag (channels : list Channel) : list TagRow :=
  group_rows tag_of row_tag (fun c => newTagRow (tag_of c) c) addChild channels.

(** ** Keys *)

Definition NEWLINE : N := 10%N.

Definition last_units (n : nat) (s : list N) : list N := drop (length s - n) s.

Definition countKeys (key : list N) : nat :=
  length (filter (fun k => nonempty (trim k) = true) (split_on NEWLINE key)).

Definition formatChannelKey (key : list N) (isMultiKey : bool) : list N :=
  if negb (nonempty key) then []
  else if isMultiKey then dec_string (N.of_nat (countKeys key)) ++ js " keys"
  else if (length key <=? 16)%nat then take 4 key ++ js "..." ++ last_units 4 key
  else take 8 key ++ js "..." ++ last_units 8 key.

Definition formatKeyPreview (key : list N) (maxLength : nat) : list N :=
  if (length key <=? maxLength)%nat then key else take maxLength key ++ js "...".

Record DedupResult := mkDedup {
  deduplicatedText : list N;
  beforeCount : nat;
  afterCount : nat;
  removedCount : Z }.

Definition dedup_line (acc : list (list N)) (line : list N) : list (list N) :=
  let trimmedLine := trim line in
  if nonempty trimmedLine && negb (bool_decide (trimmedLine ∈ acc)) then acc ++ [trimmedLine] else acc.

Definition deduplicateKeys (keysText : list N) : DedupResult :=
  if negb (nonempty (trim keysText)) then mkDedup [] 0 0 0
  else
    let keyLines := split_on NEWLINE keysText in
    let deduplicatedKeys := fold_left dedup_line keyLines [] in
    mkDedup (join [NEWLINE] deduplicatedKeys) (length keyLines) (length deduplicatedKeys)
      (Z.of_nat (length keyLines) - Z.of_nat (length deduplicatedKeys)).

(** ** Lists and flags *)

Definition parseModelsList (models : list N) : list (list N) := parseModelsString models.

Definition DEFAULT_GROUP : list N := js "default".

Definition group_order (localeCompare : list N -> list N -> Z) (a b : list N) : Z :=
  if bool_decide (a = DEFAULT_GROUP) then (-1)%Z
  else if bool_decide (b = DEFAULT_GROUP) then 1%Z
  else localeCompare a b.

Definition parseGroupsList (localeCompare : list N -> list N -> Z) (groups : list N) : list (list N) :=
  sort_by (group_order localeCompare) (filter (fun g => nonempty g = true) (map trim (split_on COMMA groups))).

Definition formatModelsString (models : list (list N)) : list N := join [COMMA] models.

Definition all_keys_disabled (c : Channel) : bool :=
  match ch_info c with
  | Some info =>
      is_multi_key info &&
      match multi_key_status_list info with
      | Some l => num_leb (multi_key_size info) (num_of_Z (Z.of_nat (length l)))
      | None => false
      end
  | None => false
  end.

Definition low_balance (c : Channel) : bool :=
  num_ltb num_zero (ch_balance c) && num_ltb (ch_balance c) (num_of_Z 1).

Definition channelNeedsAttention (c : Channel) : bool :=
  if num_eqb (ch_status c) (num_of_Z 3) then true
  else if low_balance c then true
  else all_keys_disabled c.

Definition getAttentionReason (c : Channel) : option string :=
  if num_eqb (ch_status c) (num_of_Z 3) then Some "Auto-disabled"%string
  else if low_balance c then Some "Low balance"%string
  else if all_keys_disabled c then Some "All keys disabled"%string
  else None.

Inductive BalanceVariant := VSuccess | VWarning | VDanger | VNeutral.

Definition getBalanceVariant (balance : spec_float) : BalanceVariant :=
  if num_eqb balance num_zero then VNeutral
  else if num_ltb balance (num_of_Z 1) then VDanger
  else if num_ltb balance (num_of_Z 10) then VWarning
  else VSuccess.

(** ** Delayed update of a cell *)

(** The timers of the browser: the pending callbacks with their ids, and the next id.  All
    callbacks here are [commitPendingValue] of the same scheduler. *)
Record Scheduler := mkScheduler {
  timeoutId : option nat;
  pendingValue : option spec_float;
  timers : gset nat;
  next_timer : nat;
  updates : list spec_float }. (* calls of [onUpdate], newest last *)

Definition newScheduler : Scheduler := mkScheduler None None ∅ 0 [].

Definition clearPendingTimer (s : Scheduler) : Scheduler :=
  match timeoutId s with
  | None => s
  | Some id => mkScheduler None (pendingValue s) (timers s ∖ {[id]}) (next_timer s) (updates s)
  end.

Definition commitPendingValue (s : Scheduler) : Scheduler :=
  let s1 := clearPendingTimer s in
  match pendingValue s1 with
  | None => s1
  | Some v => mkScheduler (timeoutId s1) None (timers s1) (next_timer s1) (updates s1 ++ [v])
  end.

Definition schedule (v : spec_float) (s : Scheduler) : Scheduler :=
  let s1 := clearPendingTimer s in
  let id := next_timer s1 in
  mkScheduler (Some id) (Some v) ({[id]} ∪ timers s1) (S id) (updates s1).

Definition flush (s : Scheduler) : Scheduler := commitPendingValue s.

(** The browser runs a pending callback and forgets it. *)
Definition fire (id : nat) (s : Scheduler) : Scheduler :=
  if decide (id ∈ timers s)
  then commitPendingValue (mkScheduler (timeoutId s) (pendingValue s) (timers s ∖ {[id]}) (next_timer s) (updates s))
  else s.

(** ** Facts on one field *)

(** The children that count: those after the leading ones with the sentinel's value. *)
Fixpoint skip_sentinel (ps : list nullish) : list nullish :=
  match ps with
  | [] => []
  | p :: r => if strict_eqb p minus_one then skip_sentinel r else ps
  end.

Definition shared_value (ps : list nullish) : nullish :=
  match skip_sentinel ps with
  | [] => default minus_one (last ps)
  | x :: r => if forallb (strict_eqb x) r then x else NNull
  end.

Lemma fold_value_null ps : fold_left aggregate_value ps NNull = NNull.
Proof. induction ps as [|p ps IH]; [done|]. cbn [fold_left]. by destruct p. Qed.

Lemma fold_value_from x ps :
  strict_eqb x minus_one = false ->
  fold_left aggregate_value ps x = if forallb (strict_eqb x) ps then x else NNull.
Proof.
  intros Hx. induction ps as [|p ps IH]; [done|]. cbn [fold_left forallb]. unfold aggregate_value at 2.
  rewrite Hx. destruct (strict_eqb x p); [done|]. apply fold_value_null.
Qed.

Lemma fold_value_sentinel s ps :
  strict_eqb s minus_one = true ->
  fold_left aggregate_value ps s =
    match skip_sentinel ps with
    | [] => default s (last ps)
    | x :: r => if forallb (strict_eqb x) r then x else NNull
    end.
Proof.
  revert s. induction ps as [|p ps IH]; intros s Hs; [done|]. cbn [fold_left skip_sentinel].
  unfold aggregate_value at 2. rewrite Hs. destruct (strict_eqb p minus_one) eqn:Ep; [|by apply fold_value_from].
  rewrite IH by done. destruct (skip_sentinel ps); [|done]. destruct ps as [|q ps]; [done|].
  change (last (p :: q :: ps)) with (last (q :: ps)). destruct (last (q :: ps)) eqn:El; [done|]. by apply last_None in El.
Qed.

Lemma fold_value ps : fold_left aggregate_value ps minus_one = shared_value ps.
Proof. by apply fold_value_sentinel. Qed.

Definition enabled (s : spec_float) : bool := num_eqb s (num_of_Z 1).

Lemma fold_status s ss :
  fold_left aggregate_status (s :: ss) None =
    Some (if existsb enabled (s :: ss) then num_of_Z 1 else s).
Proof.
  assert (forall l t, fold_left aggregate_status l (Some t) = Some (if existsb enabled l then num_of_Z 1 else t)) as H.
  { induction l as [|x l IH]; intros t; [done|]. cbn [fold_left existsb]. unfold aggregate_status at 2. fold (enabled x).
    destruct (enabled x); rewrite IH; [|done]. by destruct (existsb enabled l). }
  cbn [fold_left existsb]. unfold aggregate_status at 2. fold (enabled s). destruct (enabled s) eqn:E; rewrite H; [|done].
  by destruct (existsb enabled ss).
Qed.

Lemma group_names_app a b : group_names (a ++ [COMMA] ++ b) = group_names a ++ group_names b.
Proof. unfold group_names. cbn [app]. by rewrite split_on_app_gen, filter_app. Qed.

Lemma group_names_pieces s g : g ∈ group_names s -> nonempty g = true /\ COMMA ∉ g.
Proof.
  intros [Hn Hg]%list_elem_of_filter. split; [done|]. pose proof (split_on_pieces COMMA s) as HF.
  rewrite Forall_forall in HF. by apply HF.
Qed.

Lemma group_names_single g : nonempty g = true -> COMMA ∉ g -> group_names g = [g].
Proof. intros Hn Hc. unfold group_names. rewrite split_on_notin by done. by rewrite filter_cons_True. Qed.

Lemma aggregate_group_names a b g : g ∈ group_names (aggregate_group a b) <-> g ∈ group_names a \/ g ∈ group_names b.
Proof.
  destruct a as [|c a]; [cbn [aggregate_group]; change (group_names []) with (@nil (list N)); set_solver|].
  unfold aggregate_group. generalize dependent (c :: a). intros old.
  pose proof (group_names_pieces b) as Hb. revert Hb. generalize (group_names b). intros new Hb.
  assert (forall acc, (forall x, x ∈ group_names old -> x ∈ group_names acc) ->
    (g ∈ group_names (fold_left (fun acc g => if bool_decide (g ∈ group_names old) then acc else acc ++ [COMMA] ++ g) new acc)
     <-> g ∈ group_names acc \/ g ∈ new)) as H; [|by apply (H old)].
  induction new as [|x new IH]; intros acc Hacc; [set_solver|].
  assert (forall y, y ∈ new -> nonempty y = true /\ COMMA ∉ y) as Hb' by (intros y Hy; apply Hb; by right).
  specialize (IH Hb'). destruct (Hb x ltac:(left)) as [Hn Hc]. cbn [fold_left]. case_bool_decide as Hx.
  - rewrite IH by done. specialize (Hacc x Hx). set_solver.
  - rewrite IH; [rewrite group_names_app, (group_names_single x) by done; set_solver|].
    intros y Hy. rewrite group_names_app. apply elem_of_app. left. by apply Hacc.
Qed.

Lemma fold_groups gs row g :
  g ∈ group_names (fold_left aggregate_group gs row) <-> g ∈ group_names row \/ exists x, x ∈ gs /\ g ∈ group_names x.
Proof.
  revert row. induction gs as [|x gs IH]; intros row; [set_solver|]. cbn [fold_left].
  rewrite IH, aggregate_group_names. set_solver.
Qed.

(** ** Rows of the table *)

Lemma add_all_fields cs r :
  let r' := add_all addChild cs r in
  row_tag r' = row_tag r /\
  row_children r' = row_children r ++ cs /\
  row_used_quota r' = fold_left num_add (map ch_used_quota cs) (row_used_quota r) /\
  row_status r' = fold_left aggregate_status (map ch_status cs) (row_status r) /\
  row_priority r' = fold_left aggregate_value (map ch_priority cs) (row_priority r) /\
  row_weight r' = fold_left aggregate_value (map ch_weight cs) (row_weight r) /\
  row_group r' = fold_left aggregate_group (map ch_group cs) (row_group r).
Proof.
  revert r. induction cs as [|c cs IH]; intros r; [cbn; by rewrite app_nil_r|].
  destruct (IH (addChild c r)) as (? & Hc & ? & ? & ? & ? & ?). unfold add_all in *. cbn [fold_left map].
  split_and!; try done. rewrite Hc. cbn [addChild row_children]. by rewrite <- app_assoc.
Qed.

(** The tag rows have the tags of the channels, once each and in the order of their
    first channels.  The children of a row are the channels of its tag in order; its
    quota is their sum, its status is enabled exactly if a child is (and else that of the
    first child), its group lists exactly their groups, and its priority and weight are
    the common value or null, after leading children with the value -1: those are taken
    for the unset row, so that -1 followed by 5 is shown as 5. *)
Theorem tag_rows_aggregate channels :
  map row_tag (aggregateChannelsByTag channels) = set_values (map tag_of channels) /\
  forall r, r ∈ aggregateChannelsByTag channels ->
    let cs := filter (fun c => tag_of c = row_tag r) channels in
    row_children r = cs /\
    row_used_quota r = fold_left num_add (map ch_used_quota cs) num_zero /\
    row_status r = (s ← head (map ch_status cs); Some (if existsb enabled (map ch_status cs) then num_of_Z 1 else s)) /\
    row_priority r = shared_value (map ch_priority cs) /\
    row_weight r = shared_value (map ch_weight cs) /\
    forall g, g ∈ group_names (row_group r) <-> exists c, c ∈ cs /\ g ∈ group_names (ch_group c).
Proof.
  destruct (group_rows_spec tag_of row_tag (fun c => newTagRow (tag_of c) c) addChild (fun _ _ => eq_refl)
              (fun _ => eq_refl) channels) as [Ht Hb].
  split; [done|]. intros r Hr. destruct (Hb r Hr) as (c & rest & Hf & Hrow).
  cbv zeta. rewrite Hf. pose proof (add_all_fields (c :: rest) (newTagRow (tag_of c) c)) as H. cbv zeta in H.
  rewrite <- Hrow in H. destruct H as (_ & Hc & Hq & Hs & Hp & Hw & Hg).
  split_and!; [exact Hc|exact Hq|rewrite Hs; apply fold_status|rewrite Hp; apply fold_value|rewrite Hw; apply fold_value|].
  intros g. rewrite Hg, fold_groups. setoid_rewrite (list_elem_of_In (map ch_group (c :: rest))). setoid_rewrite in_map_iff.
  split.
  - intros [[]%not_elem_of_nil|(x & (c0 & <- & Hin) & Hx)]. exists c0. by rewrite list_elem_of_In.
  - intros (c0 & Hin & Hx). right. exists (ch_group c0). split; [|done]. exists c0. by rewrite <- list_elem_of_In.
Qed.

Definition sample_channel (priority : Z) (group : string) : Channel :=
  mkChannel num_zero num_zero [] (num_of_Z 1) [] NNull num_zero num_zero num_zero num_zero num_zero [] (js group)
    num_zero (NNum (num_of_Z priority)) (Some (js "eu")) None JNull.

(** The sentinel taken for a value, and groups that are not deduplicated. *)
Example sentinel_and_groups :
  map (fun r => (row_priority r, row_group r))
    (aggregateChannelsByTag [sample_channel (-1) "a"; sample_channel 5 "b,b"]) =
  [(NNum (num_of_Z 5), js "a,b,b")].
Proof. by vm_compute. Qed.

(** ** Keys *)

Lemma dedup_lines lines :
  fold_left dedup_line lines [] = set_values (filter (fun k => nonempty k = true) (map trim lines)).
Proof.
  induction lines as [|l lines IH] using rev_ind; [done|]. rewrite fold_left_app, map_app, filter_app. cbn [fold_left map].
  rewrite IH. unfold dedup_line. destruct (nonempty (trim l)) eqn:E; cbn [andb].
  - rewrite filter_cons_True, filter_nil, set_values_snoc by done. case_bool_decide as H; rewrite elem_of_set_values in H.
    + by rewrite decide_True.
    + by rewrite decide_False.
  - rewrite filter_cons_False, filter_nil, app_nil_r by (by rewrite E). done.
Qed.

(** The keys kept are the distinct trimmed lines that are not blank, in order; no count is
    negative, and deduplicating again changes nothing. *)
Theorem keys_deduplicated text :
  let r := deduplicateKeys text in
  let keys := set_values (filter (fun k => nonempty k = true) (map trim (split_on NEWLINE text))) in
  (nonempty (trim text) = true -> deduplicatedText r = join [NEWLINE] keys /\ afterCount r = length keys) /\
  (0 <= removedCount r)%Z /\
  deduplicatedText (deduplicateKeys (deduplicatedText r)) = deduplicatedText r /\
  removedCount (deduplicateKeys (deduplicatedText r)) = 0%Z.
Proof.
  cbv zeta. set (keys := set_values _). destruct (nonempty (trim text)) eqn:Et.
  2:{ assert (deduplicateKeys text = mkDedup [] 0 0 0) as -> by (unfold deduplicateKeys; by rewrite Et). by vm_compute. }
  assert (deduplicateKeys text = mkDedup (join [NEWLINE] keys) (length (split_on NEWLINE text)) (length keys)
            (Z.of_nat (length (split_on NEWLINE text)) - Z.of_nat (length keys))) as ->
    by (unfold deduplicateKeys; by rewrite Et, dedup_lines).
  cbn [deduplicatedText afterCount removedCount]. split; [done|]. split.
  { assert (length keys <= length (split_on NEWLINE text)) as H; [|lia]. unfold keys.
    assert (forall l : list (list N), length (set_values l) <= length l) as Hl.
    { intros l. apply submseteq_length, NoDup_submseteq; [apply set_values_NoDup|]. intros x. apply elem_of_set_values. }
    etrans; [apply Hl|]. etrans; [apply length_filter|]. by rewrite length_map. }
  assert (Forall (fun k => trimmed k /\ nonempty k = true /\ NEWLINE ∉ k) keys) as HF.
  { rewrite Forall_forall. intros k Hk. unfold keys in Hk. rewrite elem_of_set_values in Hk.
    apply list_elem_of_filter in Hk as [Hn Hk]. apply list_elem_of_In, in_map_iff in Hk as (w & <- & Hw).
    split_and!; [apply trim_is_trimmed|done|]. intros H%elem_of_trim. pose proof (split_on_pieces NEWLINE text) as Hp.
    rewrite Forall_forall in Hp. apply (Hp w); [by apply list_elem_of_In|done]. }
  assert (NoDup keys) as Hnd by apply set_values_NoDup. clearbody keys.
  destruct (decide (keys = [])) as [->|Hne]; [by cbn|].
  assert (nonempty (trim (join [NEWLINE] keys)) = true) as Hj.
  { destruct keys as [|k ks]; [done|]. inv HF. destruct H1 as (Hk & Hkn & _).
    destruct (trim (join [NEWLINE] (k :: ks))) eqn:E; [|done]. apply trim_nil in E. destruct k as [|c k]; [done|].
    destruct ks; cbn [join app] in E; apply Forall_cons in E as [Ec _]; unfold trimmed in Hk; destruct Hk as [Hk _]; simpl in Hk; congruence. }
  unfold deduplicateKeys. rewrite Hj. cbn [negb]. rewrite dedup_lines.
  assert (map trim keys = keys) as Hm.
  { clear -HF. induction HF as [|k ks (Hk & _) _ IH]; [done|]. cbn [map]. by rewrite IH, trim_trimmed. }
  rewrite split_on_join, Hm; [|done|eapply Forall_impl; [exact HF|]; by intros k (_ & _ & ?)].
  rewrite filter_all; [|eapply Forall_impl; [exact HF|]; by intros k (_ & ? & _)].
  rewrite set_values_id by done. cbn. split; [done|lia].
Qed.

(** A masked key shows its first and last units: eight of a key of up to sixteen, sixteen
    of a longer one.  A key of at most eight units is shown in full. *)
Theorem masked_key_shows key :
  nonempty key = true ->
  let n := if (length key <=? 16)%nat then 4%nat else 8%nat in
  formatChannelKey key false = take n key ++ js "..." ++ last_units n key /\
  (2 * n <= length key -> exists hidden, key = take n key ++ hidden ++ last_units n key /\ length hidden = length key - 2 * n) /\
  (length key <= 2 * n -> key = take n key ++ drop (2 * n - length key) (last_units n key) \/ length key <= n).
Proof.
  intros Hn n. unfold formatChannelKey. rewrite Hn. cbn [negb]. split_and!.
  - subst n. by destruct (length key <=? 16)%nat.
  - intros Hl. exists (take (length key - 2 * n) (drop n key)). unfold last_units.
    assert (length key - n = n + (length key - 2 * n)) as -> by lia. rewrite <- drop_drop, take_drop, take_drop.
    split; [done|]. rewrite length_take, length_drop. lia.
  - intros Hl. destruct (decide (length key <= n)); [by right|left]. unfold last_units. rewrite drop_drop.
    assert (length key - n + (2 * n - length key) = n) as -> by lia. by rewrite take_drop.
Qed.

(** The flag and its reason agree. *)
Lemma attention_reason c : channelNeedsAttention c = bool_decide (is_Some (getAttentionReason c)).
Proof. unfold channelNeedsAttention, getAttentionReason. by repeat case_match. Qed.

(** ** The delayed update *)

Inductive SchedulerEvent := Schedule (v : spec_float) | Flush | TimerFires (id : nat).

Definition scheduler_step (e : SchedulerEvent) (s : Scheduler) : Scheduler :=
  match e with Schedule v => schedule v s | Flush => flush s | TimerFires id => fire id s end.

Definition run_scheduler (es : list SchedulerEvent) (s : Scheduler) : Scheduler :=
  fold_left (fun s e => scheduler_step e s) es s.

(** At most one timer is pending, the one for the value that waits. *)
Definition scheduler_inv (s : Scheduler) : Prop :=
  match timeoutId s, pendingValue s with
  | Some id, Some _ => timers s = {[id]} /\ id < next_timer s
  | None, None => timers s = ∅
  | _, _ => False
  end.

(** The specification: only the last value waits, with the number of its call; a flush or
    its own timer hands it over, timers of earlier calls do nothing. *)
Definition debounce_step (e : SchedulerEvent) (st : nat * option (nat * spec_float) * list spec_float)
  : nat * option (nat * spec_float) * list spec_float :=
  let '(n, waiting, out) := st in
  match e, waiting with
  | Schedule v, _ => (S n, Some (n, v), out)
  | Flush, Some (_, v) => (n, None, out ++ [v])
  | TimerFires id, Some (i, v) => if bool_decide (i = id) then (n, None, out ++ [v]) else st
  | _, None => st
  end.

Definition scheduler_view (s : Scheduler) : nat * option (nat * spec_float) * list spec_float :=
  (next_timer s, match timeoutId s, pendingValue s with Some i, Some v => Some (i, v) | _, _ => None end, updates s).

Lemma scheduler_simulates e s :
  scheduler_inv s ->
  scheduler_inv (scheduler_step e s) /\ scheduler_view (scheduler_step e s) = debounce_step e (scheduler_view s).
Proof.
  destruct s as [[i|] [v|] ts n out]; unfold scheduler_inv; cbn; try done.
  - intros [-> Hi]. destruct e as [w| |id]; cbn.
    + split; [|done]. split; [set_solver|lia].
    + split; [set_solver|done].
    + unfold fire. cbn [timers]. destruct (decide (id ∈ {[i]})) as [->%elem_of_singleton|Hne].
      * cbn. rewrite bool_decide_eq_true_2 by done. split; [set_solver|done].
      * cbn. rewrite bool_decide_eq_false_2 by set_solver. done.
  - intros ->. destruct e as [w| |id]; cbn.
    + split; [split; [set_solver|lia]|done].
    + done.
    + unfold fire. cbn [timers]. rewrite decide_False by set_solver. done.
Qed.

(** The scheduler refines its specification: whatever is scheduled, flushed and fired,
    also timers that were cleared, at most one timer is pending and the updates are
    those of the specification. *)
Theorem scheduler_debounces es :
  scheduler_inv (run_scheduler es newScheduler) /\
  scheduler_view (run_scheduler es newScheduler) = fold_left (fun st e => debounce_step e st) es (0, None, []).
Proof.
  change (0, None, []) with (scheduler_view newScheduler).
  assert (scheduler_inv newScheduler) as H by done. revert H. unfold run_scheduler.
  generalize newScheduler. induction es as [|e es IH]; intros s Hs; [done|]. cbn [fold_left].
  destruct (scheduler_simulates e s Hs) as [H1 H2]. destruct (IH _ H1) as [H3 H4]. split; [done|]. by rewrite H4, H2.
Qed.
