(* ===== verification/StatusGroups.v ===== *)
(** * Status of the model groups (src/apps/web/src/features/status-detection/lib/aggregate.ts)

    The performance answers of all models, turned into one row per group with averages
    and trends, and the orders of the table.  The collation of [localeCompare] is a
    parameter.  A number the server does not send is [NaN], which no test accepts. *)
From S2P Require Import Prelude JsString JsNumber JsCollections.
From Stdlib Require Import Lia Sorted.

(** ** Data *)

Record SeriesPoint := mkPoint { point_ts : spec_float; point_ttft : spec_float; point_rate : spec_float }.

Record PerformanceGroup := mkPerf {
  perf_group : list N;
  avg_ttft_ms : spec_float;
  avg_latency_ms : spec_float;
  avg_tps : spec_float;
  success_rate : spec_float;
  series : list SeriesPoint }.

Record ModelPerformanceSnapshot := mkSnapshot { modelName : list N; model_groups : list PerformanceGroup }.

Record StatusGroup := mkStatus {
  status_group : list N;
  avgTtftMs : spec_float;
  avgLatencyMs : spec_float;
  avgTps : spec_float;
  successRate : spec_float;
  successTrend : list spec_float;
  ttftTrend : list spec_float;
  modelCount : nat }.

(** A map from timestamps to values, in insertion order. *)
Notation trend := (list (spec_float * list spec_float)) (only parsing).

Record GroupAccumulator := mkAcc {
  acc_name : list N;
  models : list (list N);
  ttfts : list spec_float;
  latencies : list spec_float;
  throughputs : list spec_float;
  successRates : list spec_float;
  successTrendByTimestamp : trend;
  ttftTrendByTimestamp : trend }.

(** ** Averages and trends *)

Definition positive (v : spec_float) : bool := num_ltb num_zero v.

Definition average (values : list spec_float) (predicate : spec_float -> bool) : spec_float :=
  match filter (fun v => predicate v = true) values with
  | [] => S754_nan
  | valid => num_div (fold_left num_add valid num_zero) (num_of_Z (Z.of_nat (length valid)))
  end.

(** The key a [Map] stores for a number: both zeros are the same key. *)
Definition map_key (x : spec_float) : spec_float := if num_eqb x num_zero then num_zero else x.

Definition point_key (p : spec_float * spec_float) : spec_float := map_key p.1.
Definition new_bucket (p : spec_float * spec_float) : spec_float * list spec_float := (map_key p.1, []).
Definition push_bucket (p : spec_float * spec_float) (b : spec_float * list spec_float) : spec_float * list spec_float :=
  (b.1, b.2 ++ [p.2]).

(** [trend.set(ts, [...(trend.get(ts) ?? []), value])] *)
Definition push_trend (p : spec_float * spec_float) (t : trend) : trend :=
  group_place point_key fst new_bucket push_bucket p t.

Definition finite_positive (v : spec_float) : bool := is_finite v && positive v.

Definition push_if (test : spec_float -> bool) (v : spec_float) (l : list spec_float) : list spec_float :=
  if test v then l ++ [v] else l.

Definition rate_point (p : SeriesPoint) (t : trend) : trend :=
  if is_finite (point_ts p) && is_finite (point_rate p) then push_trend (point_ts p, point_rate p) t else t.

Definition ttft_point (p : SeriesPoint) (t : trend) : trend :=
  if is_finite (point_ts p) && finite_positive (point_ttft p) then push_trend (point_ts p, point_ttft p) t else t.

(** ** Aggregation *)

(** A model with one of its groups: what the inner loop sees. *)
Notation item := (list N * PerformanceGroup)%type (only parsing).

Definition item_name (i : item) : list N := trim (perf_group i.2).

Definition newAccumulator (i : item) : GroupAccumulator := mkAcc (item_name i) [] [] [] [] [] [] [].

Definition add_model (m : list N) (l : list (list N)) : list (list N) := if decide (m ∈ l) then l else l ++ [m].

Definition add_item (i : item) (a : GroupAccumulator) : GroupAccumulator :=
  mkAcc (acc_name a) (add_model i.1 (models a))
    (push_if finite_positive (avg_ttft_ms i.2) (ttfts a))
    (push_if finite_positive (avg_latency_ms i.2) (latencies a))
    (push_if finite_positive (avg_tps i.2) (throughputs a))
    (push_if is_finite (success_rate i.2) (successRates a))
    (fold_left (fun t p => rate_point p t) (series i.2) (successTrendByTimestamp a))
    (fold_left (fun t p => ttft_point p t) (series i.2) (ttftTrendByTimestamp a)).

(** The items of the two loops, less those the loop skips. *)
Definition named_items (entries : list ModelPerformanceSnapshot) : list item :=
  filter (fun i => nonempty (item_name i) = true)
    (concat (map (fun e => map (pair (modelName e)) (model_groups e)) entries)).

(** The sign [Array.prototype.sort] reads from the result of a comparator; [NaN] counts as
    zero. *)
Definition order_sign (d : spec_float) : Z :=
  if num_ltb d num_zero then (-1)%Z else if num_ltb num_zero d then 1%Z else 0%Z.

Definition sorted_trend (predicate : spec_float -> bool) (t : trend) : list spec_float :=
  map (fun b => average b.2 predicate) (sort_by (fun l r => order_sign (num_sub l.1 r.1)) t).

Definition status_of (a : GroupAccumulator) : StatusGroup :=
  mkStatus (acc_name a) (average (ttfts a) positive) (average (latencies a) positive)
    (average (throughputs a) positive) (average (successRates a) is_finite)
    (sorted_trend is_finite (successTrendByTimestamp a)) (sorted_trend positive (ttftTrendByTimestamp a))
    (length (models a)).

Section Orders.
Context (localeCompare : list N -> list N -> Z).

Definition aggregateStatusGroups (entries : list ModelPerformanceSnapshot) : list StatusGroup :=
  sort_by (fun l r => localeCompare (status_group l) (status_group r))
    (map status_of (group_rows item_name acc_name newAccumulator add_item (named_items entries))).

Inductive StatusSort := SortTtft | SortReliability | SortName.

Definition finitePositiveOrInfinity (value : spec_float) : spec_float :=
  if finite_positive value then value else S754_infinity false.

Definition by_ttft (l r : StatusGroup) : Z :=
  let ttftDelta := num_sub (finitePositiveOrInfinity (avgTtftMs l)) (finitePositiveOrInfinity (avgTtftMs r)) in
  if negb (num_eqb ttftDelta num_zero) then order_sign ttftDelta
  else localeCompare (status_group l) (status_group r).

Definition status_compare (sort : StatusSort) (l r : StatusGroup) : Z :=
  match sort with
  | SortName => localeCompare (status_group l) (status_group r)
  | SortReliability =>
      let successDelta := num_sub (successRate r) (successRate l) in
      if negb (num_eqb successDelta num_zero) then order_sign successDelta else by_ttft l r
  | SortTtft => by_ttft l r
  end.

Definition sortStatusGroups (groups : list StatusGroup) (sort : StatusSort) : list StatusGroup :=
  sort_by (status_compare sort) groups.

End Orders.

(** The example of the tests. *)
Definition sample_entries : list ModelPerformanceSnapshot :=
  let n := num_of_Z in
  [mkSnapshot (js "alpha") [mkPerf (js "paid") (n 100) (n 200) (n 10) (n 100)
      [mkPoint (n 2) (n 300) (n 80); mkPoint (n 1) (n 100) (n 100)]];
   mkSnapshot (js "beta") [mkPerf (js " paid ") (n 100) (n 400) (n 20) (n 80) [mkPoint (n 2) (n 500) (n 60)];
                           mkPerf (js " ") (n 1) (n 1) (n 1) (n 1) []]]%Z.

Example sample_status :
  aggregateStatusGroups (fun _ _ => 0%Z) sample_entries =
  [mkStatus (js "paid") (num_of_Z 100) (num_of_Z 300) (num_of_Z 15) (num_of_Z 90)
     [num_of_Z 100; num_of_Z 70] [num_of_Z 100; num_of_Z 400] 2].
Proof. by vm_compute. Qed.

(** ** The loops in closed form *)

Definition rate_pair (p : SeriesPoint) : option (spec_float * spec_float) :=
  if is_finite (point_ts p) && is_finite (point_rate p) then Some (point_ts p, point_rate p) else None.

Definition ttft_pair (p : SeriesPoint) : option (spec_float * spec_float) :=
  if is_finite (point_ts p) && finite_positive (point_ttft p) then Some (point_ts p, point_ttft p) else None.

(** All values at each distinct time, in the order of arrival. *)
Definition buckets (ps : list (spec_float * spec_float)) : trend :=
  map (fun ts => (ts, map snd (filter (fun p => point_key p = ts) ps))) (set_values (map point_key ps)).

Lemma push_all_bucket ps b : add_all push_bucket ps b = (b.1, b.2 ++ map snd ps).
Proof.
  revert b. induction ps as [|p ps IH]; intros [ts vs]; unfold add_all in *; cbn [fold_left map]; [by rewrite app_nil_r|].
  rewrite IH. cbn. by rewrite <- app_assoc.
Qed.

Lemma group_buckets ps : group_rows point_key fst new_bucket push_bucket ps = buckets ps.
Proof.
  destruct (group_rows_spec point_key fst new_bucket push_bucket (fun _ _ => eq_refl) (fun _ => eq_refl) ps) as [Hk Hr].
  unfold buckets. rewrite <- Hk. clear Hk. induction (group_rows _ _ _ _ ps) as [|r rows IH]; [done|]. cbn [map].
  rewrite <- IH by (intros; apply Hr; by right). f_equal. destruct (Hr r ltac:(left)) as (p & rest & Hf & Hb).
  rewrite Hf. rewrite Hb at 1. rewrite push_all_bucket. cbn [new_bucket fst snd app]. f_equal.
  by rewrite Hb, push_all_bucket.
Qed.

Lemma fold_omap {A B C} (f : A -> option B) (g : B -> C -> C) l c :
  fold_left (fun c x => match f x with Some y => g y c | None => c end) l c = fold_left (fun c y => g y c) (omap f l) c.
Proof.
  revert c. induction l as [|x l IH]; intros c; [done|]. cbn [fold_left]. rewrite IH. cbn [omap list_omap].
  by destruct (f x).
Qed.

Lemma fold_rate ps t : fold_left (fun t p => rate_point p t) ps t = fold_left (fun t p => push_trend p t) (omap rate_pair ps) t.
Proof.
  rewrite <- fold_omap. apply fold_left_ext. intros u p. unfold rate_point, rate_pair. by destruct (_ && _).
Qed.

Lemma fold_ttft ps t : fold_left (fun t p => ttft_point p t) ps t = fold_left (fun t p => push_trend p t) (omap ttft_pair ps) t.
Proof.
  rewrite <- fold_omap. apply fold_left_ext. intros u p. unfold ttft_point, ttft_pair. by destruct (_ && _).
Qed.

Lemma push_if_filter test v l : push_if test v l = l ++ filter (fun x => test x = true) [v].
Proof.
  unfold push_if. destruct (test v) eqn:E.
  - by rewrite filter_cons_True.
  - rewrite filter_cons_False by congruence. by rewrite app_nil_r.
Qed.

Definition kept (test : spec_float -> bool) (field : PerformanceGroup -> spec_float) (items : list item) : list spec_float :=
  filter (fun x => test x = true) (map (fun i => field i.2) items).

Lemma add_all_items items a :
  let a' := add_all add_item items a in
  acc_name a' = acc_name a /\
  models a' = fold_left (fun l m => add_model m l) (map fst items) (models a) /\
  ttfts a' = ttfts a ++ kept finite_positive avg_ttft_ms items /\
  latencies a' = latencies a ++ kept finite_positive avg_latency_ms items /\
  throughputs a' = throughputs a ++ kept finite_positive avg_tps items /\
  successRates a' = successRates a ++ kept is_finite success_rate items /\
  successTrendByTimestamp a' =
    fold_left (fun t p => push_trend p t) (omap rate_pair (concat (map (fun i => series i.2) items))) (successTrendByTimestamp a) /\
  ttftTrendByTimestamp a' =
    fold_left (fun t p => push_trend p t) (omap ttft_pair (concat (map (fun i => series i.2) items))) (ttftTrendByTimestamp a).
Proof.
  revert a. induction items as [|i items IH]; intros a; unfold kept in *; cbn [map]; [by rewrite !app_nil_r|].
  destruct (IH (add_item i a)) as (? & ? & H1 & H2 & H3 & H4 & H5 & H6). unfold add_all in *. cbn [fold_left concat].
  rewrite !omap_app, !fold_left_app. split_and!; try done.
  - rewrite H1. cbn [add_item ttfts]. rewrite push_if_filter, <- app_assoc, <- filter_app. done.
  - rewrite H2. cbn [add_item latencies]. rewrite push_if_filter, <- app_assoc, <- filter_app. done.
  - rewrite H3. cbn [add_item throughputs]. rewrite push_if_filter, <- app_assoc, <- filter_app. done.
  - rewrite H4. cbn [add_item successRates]. rewrite push_if_filter, <- app_assoc, <- filter_app. done.
  - rewrite H5. cbn [add_item successTrendByTimestamp]. by rewrite fold_rate.
  - rewrite H6. cbn [add_item ttftTrendByTimestamp]. by rewrite fold_ttft.
Qed.

Lemma fold_set_add l : fold_left (fun l m => add_model m l) l [] = set_values l.
Proof.
  induction l as [|m l IH] using rev_ind; [done|]. rewrite fold_left_app, set_values_snoc. cbn [fold_left]. rewrite IH.
  unfold add_model. destruct (decide (m ∈ l)).
  - by rewrite decide_True by (by apply elem_of_set_values).
  - rewrite decide_False; [done|]. by rewrite elem_of_set_values.
Qed.

(** An average over values that were already tested. *)
Lemma average_kept test predicate l :
  (forall v, test v = true -> predicate v = true) ->
  average (filter (fun x => test x = true) l) predicate = average l test.
Proof.
  intros H. unfold average. rewrite (filter_all _ (filter _ l)); [done|]. rewrite Forall_forall.
  by intros v [Hv _]%list_elem_of_filter; apply H.
Qed.

(** There is one row for each distinct group name that is not blank after trimming.
    Its averages are over the finite (and, but for the success rate, positive) values of
    the entries of that name, its trends over their series points at each distinct
    time, and it counts the distinct models. *)
Theorem status_groups_aggregate lc entries :
  let rows := aggregateStatusGroups lc entries in
  map status_group rows ≡ₚ set_values (map item_name (named_items entries)) /\
  forall r, r ∈ rows ->
    let items := filter (fun i => item_name i = status_group r) (named_items entries) in
    let points := concat (map (fun i => series i.2) items) in
    items <> [] /\
    avgTtftMs r = average (map (fun i => avg_ttft_ms i.2) items) finite_positive /\
    avgLatencyMs r = average (map (fun i => avg_latency_ms i.2) items) finite_positive /\
    avgTps r = average (map (fun i => avg_tps i.2) items) finite_positive /\
    successRate r = average (map (fun i => success_rate i.2) items) is_finite /\
    modelCount r = length (set_values (map fst items)) /\
    successTrend r = sorted_trend is_finite (buckets (omap rate_pair points)) /\
    ttftTrend r = sorted_trend positive (buckets (omap ttft_pair points)).
Proof.
  cbv zeta. unfold aggregateStatusGroups.
  destruct (group_rows_spec item_name acc_name newAccumulator add_item (fun _ _ => eq_refl) (fun _ => eq_refl)
              (named_items entries)) as [Hk Hr].
  split.
  { rewrite sort_by_perm. rewrite map_map. change (fun x => status_group (status_of x)) with acc_name. by rewrite Hk. }
  intros r. rewrite sort_by_perm. intros (a & <- & Ha)%list_elem_of_In%in_map_iff. apply list_elem_of_In in Ha.
  destruct (Hr a Ha) as (i & rest & Hf & Hb). change (status_group (status_of a)) with (acc_name a). rewrite Hf.
  pose proof (add_all_items (i :: rest) (newAccumulator i)) as H. cbv zeta in H. rewrite <- Hb in H.
  destruct H as (_ & Hm & H1 & H2 & H3 & H4 & H5 & H6).
  cbn [newAccumulator models ttfts latencies throughputs successRates successTrendByTimestamp ttftTrendByTimestamp app] in *.
  assert (forall v, finite_positive v = true -> positive v = true) as Hp by (unfold finite_positive; intros v Hv; by breflect).
  unfold status_of. cbn [avgTtftMs avgLatencyMs avgTps successRate modelCount successTrend ttftTrend].
  rewrite Hm, H1, H2, H3, H4, H5, H6, fold_set_add. unfold kept. rewrite !average_kept by done.
  rewrite <- !group_buckets. split_and!; done.
Qed.

(** ** The orders of the table *)

Lemma sort_keeps_groups lc groups sort : sortStatusGroups lc groups sort ≡ₚ groups.
Proof. apply sort_by_perm. Qed.

(** A group without a success rate compares as equal with every other one, so that the
    order by reliability is not transitive: with such a group between them, a group of
    90 stays before one of 95.  Two groups without latency are not ordered by name. *)
Theorem reliability_order_broken lc :
  let g (name : string) rate := mkStatus (js name) (num_of_Z 100) num_zero num_zero rate [] [] 1 in
  (forall l r, is_nan (successRate l) = true -> status_compare lc SortReliability l r = 0%Z) /\
  map successRate (sortStatusGroups lc [g "a" (num_of_Z 90); g "b" S754_nan; g "c" (num_of_Z 95)]%string SortReliability) =
    [num_of_Z 90; S754_nan; num_of_Z 95] /\
  forall l r, finite_positive (avgTtftMs l) = false -> finite_positive (avgTtftMs r) = false ->
    status_compare lc SortTtft l r = 0%Z.
Proof.
  cbv zeta. split_and!.
  - intros l r H. unfold status_compare. destruct (successRate l); try done. by destruct (successRate r).
  - by vm_compute.
  - intros l r Hl Hr. cbn [status_compare]. unfold by_ttft, finitePositiveOrInfinity. by rewrite Hl, Hr.
Qed.
