(* ===== verification/ExternalUrls.v ===== *)
(** * External URLs (src/apps/web/src/lib/validated-external-url.ts, external-navigation.ts)

    Which URLs the client opens: tests of a parsed URL against a policy, against the
    URL or the template an administrator configured, and the registry of object URLs made
    by the page; and the window a validated URL is opened in.

    The URL parser of the browser is a parameter: [newURL value base] is [new URL(..)] with
    the components of the result, [None] when it throws. *)
From S2P Require Import Prelude JsString ChannelConfig.
From Stdlib Require Import Lia.

(** ** URLs and policies *)

Record URL := mkURL {
  protocol : list N;
  hostname : list N;
  username : list N;
  password : list N;
  hash : list N;
  origin : list N;
  host : list N;
  pathname : list N;
  href : list N;
  port : list N;
  search : list N }.

Inductive TrustedUrlMatch := AnyValue | OneOf (values : list (list N)).

Inductive TrustedPathPolicy := AnyPath | ExactPaths (paths : list (list N)) | PathPrefixes (prefixes : list (list N)).

Record TrustedUrlPolicy := mkPolicy {
  protocols : list (list N);
  origins : TrustedUrlMatch;
  hosts : TrustedUrlMatch;
  paths : TrustedPathPolicy;
  allowHash : bool }.

Definition SLASH : N := 47%N.

Definition url_matches (value : list N) (allowed : TrustedUrlMatch) : bool :=
  match allowed with AnyValue => true | OneOf l => bool_decide (value ∈ l) end.

Definition prefix_matches (path prefix : list N) : bool :=
  if negb (starts_with [SLASH] prefix) then false
  else if ends_with [SLASH] prefix then starts_with prefix path
  else bool_decide (path = prefix) || starts_with (prefix ++ [SLASH]) path.

Definition matchesPath (path : list N) (policy : TrustedPathPolicy) : bool :=
  if negb (starts_with [SLASH] path) then false
  else match policy with
       | AnyPath => true
       | ExactPaths l => bool_decide (path ∈ l)
       | PathPrefixes l => existsb (prefix_matches path) l
       end.

(** The tests on the parsed URL. *)
Definition url_allowed (policy : TrustedUrlPolicy) (url : URL) : bool :=
  bool_decide (protocol url ∈ protocols policy) && nonempty (hostname url) &&
  negb (nonempty (username url)) && negb (nonempty (password url)) &&
  negb (negb (allowHash policy) && nonempty (hash url)) &&
  url_matches (origin url) (origins policy) && url_matches (host url) (hosts policy) &&
  matchesPath (pathname url) (paths policy).

(** ** Templates *)

Definition TEMPLATE_TOKENS : list (list N) :=
  map (fun t => js "%7b" ++ js t ++ js "%7d") ["key"; "address"; "cherryconfig"; "aionuiconfig"; "deepchatconfig"]%string.

(** [TEMPLATE_TOKEN_SEGMENT_PATTERN.test(segment)], which ignores case. *)
Definition is_token (segment : list N) : bool := bool_decide (map lower_ascii segment ∈ TEMPLATE_TOKENS).

Definition segment_matches (pathSegment segment : list N) : bool :=
  if is_token segment then nonempty pathSegment else bool_decide (pathSegment = segment).

Definition matchesTemplatedPath (path templatePath : list N) : bool :=
  let pathSegments := split_on SLASH path in
  let templateSegments := split_on SLASH templatePath in
  (length pathSegments =? length templateSegments)%nat &&
  forallb (fun ps => segment_matches ps.1 ps.2) (zip pathSegments templateSegments).

(** ** The exported functions *)

Section Parser.
Context (newURL : list N -> option (list N) -> option URL).

Definition parseTrustedUrl (value : list N) (policy : TrustedUrlPolicy) (base : option (list N)) : option URL :=
  if negb (nonempty value) || negb (bool_decide (trim value = value)) then None
  else
    let base' := match base with Some b => if nonempty b then Some b else None | None => None end in
    match newURL value base' with
    | Some url => if url_allowed policy url then Some url else None
    | None => None
    end.

Definition validatedExternalUrl (value : list N) (policy : TrustedUrlPolicy) (base : option (list N)) : option (list N) :=
  href <$> parseTrustedUrl value policy base.

Definition openPolicy (ps : list (list N)) (withHash : bool) : TrustedUrlPolicy :=
  mkPolicy ps AnyValue AnyValue AnyPath withHash.

Definition same_place (a b : URL) : bool :=
  bool_decide (protocol a = protocol b) && bool_decide (origin a = origin b) && bool_decide (host a = host b).

Definition getTrustedUrlFromSource (value source : list N) (ps : list (list N)) (withHash : bool) : option (list N) :=
  match parseTrustedUrl value (openPolicy ps withHash) None, parseTrustedUrl source (openPolicy ps withHash) None with
  | Some target, Some trustedSource =>
      if same_place target trustedSource && bool_decide (pathname target = pathname trustedSource)
      then Some (href target) else None
  | _, _ => None
  end.

Definition getTrustedTemplatedUrl (value template : list N) (ps : list (list N)) : option (list N) :=
  match parseTrustedUrl value (openPolicy ps true) None, parseTrustedUrl template (openPolicy ps true) None with
  | Some target, Some trustedTemplate =>
      if same_place target trustedTemplate && matchesTemplatedPath (pathname target) (pathname trustedTemplate)
      then Some (href target) else None
  | _, _ => None
  end.

(** *** Object URLs *)

(** [localObjectUrls], and the URLs the browser was asked to revoke. *)
Record ObjectUrls := mkObjects { localObjectUrls : gset (list N); revoked_urls : list (list N) }.

(** [URL.createObjectURL] returned [url]. *)
Definition createTrustedObjectUrl (url : list N) (s : ObjectUrls) : ObjectUrls :=
  mkObjects ({[url]} ∪ localObjectUrls s) (revoked_urls s).

Definition getTrustedLocalObjectUrl (value expectedOrigin : list N) (s : ObjectUrls) : option (list N) :=
  if decide (value ∈ localObjectUrls s) then
    match newURL value None with
    | Some url =>
        if bool_decide (protocol url = js "blob:") && bool_decide (origin url = expectedOrigin)
        then Some (href url) else None
    | None => None
    end
  else None.

Definition revokeTrustedObjectUrl (value : list N) (s : ObjectUrls) : ObjectUrls :=
  if decide (value ∈ localObjectUrls s)
  then mkObjects (localObjectUrls s ∖ {[value]}) (revoked_urls s ++ [value]) else s.

End Parser.

(** ** The window *)

(** What the browser does: whether the popup opened, what reading [closed] gives each time
    ([None] when it throws), whether assigning the location and the click succeed. *)
Record Browser := mkBrowser {
  popup_opens : bool;
  closed_before : option bool;
  closed_in_catch : option bool;
  closed_in_finally : option bool;
  assign_succeeds : bool;
  click_succeeds : bool }.

Inductive WindowAction := NavigatePopup (url : list N) | NavigateCurrent (url : list N) | ClosePopup.

Definition closePopup (popup : bool) (closed : option bool) : list WindowAction :=
  if popup then match closed with Some false => [ClosePopup] | _ => [] end else [].

Definition navigateCurrentWindow (b : Browser) (url : list N) : bool * list WindowAction :=
  if click_succeeds b then (true, [NavigateCurrent url]) else (false, []).

Definition isPopupOpen (b : Browser) : bool :=
  popup_opens b && match closed_before b with Some closed => negb closed | None => false end.

(** How the resolver settled. *)
Inductive Resolution := Rejects | Resolves (url : option (list N)).

(** The promise of the function ([None] when it rejects) and what it did to windows. *)
Definition openResolvedExternalUrl (b : Browser) (r : Resolution) : option bool * list WindowAction :=
  let finally := closePopup (popup_opens b) (closed_in_finally b) in
  match r with
  | Rejects => (None, finally)
  | Resolves url =>
      match (u ← url; if nonempty u then Some u else None) with
      | None => (Some false, finally)
      | Some u =>
          if isPopupOpen b && assign_succeeds b then (Some true, [NavigatePopup u])
          else
            let closing := if isPopupOpen b then closePopup (popup_opens b) (closed_in_catch b) else [] in
            let '(completed, acts) := navigateCurrentWindow b u in
            (Some completed, closing ++ acts ++ if completed then [] else finally)
      end
  end.

Definition openExternalUrl (b : Browser) (url : list N) : option bool * list WindowAction :=
  openResolvedExternalUrl b (Resolves (Some url)).

(** ** Paths as segments *)

Lemma split_on_inj sep a b : split_on sep a = split_on sep b -> a = b.
Proof. intros H. by rewrite <- (join_split_on sep a), H, join_split_on. Qed.

Lemma join_app sep (a b : list (list N)) : a <> [] -> b <> [] -> join [sep] (a ++ b) = join [sep] a ++ [sep] ++ join [sep] b.
Proof.
  induction a as [|w a IH]; [done|]. intros _ Hb. destruct (decide (a = [])) as [->|Ha].
  - cbn [app]. by rewrite join_cons by done.
  - cbn [app]. rewrite !join_cons, IH by (try done; by destruct a). by rewrite <- !app_assoc.
Qed.

(** A path continues another at a segment boundary. *)
Lemma segments_prefix path p :
  split_on SLASH p `prefix_of` split_on SLASH path <-> path = p \/ exists r, path = p ++ [SLASH] ++ r.
Proof.
  split.
  - intros [k Hk]. destruct (decide (k = [])) as [->|Hne].
    + left. rewrite app_nil_r in Hk. by apply split_on_inj in Hk.
    + right. exists (join [SLASH] k). rewrite <- (join_split_on SLASH path), Hk, join_app; [|apply split_on_nonempty|done].
      by rewrite join_split_on.
  - intros [->|[r ->]]; [done|]. cbn [app]. rewrite split_on_app_gen. by exists (split_on SLASH r).
Qed.

Lemma ends_with_slash p : ends_with [SLASH] p = true <-> exists q, p = q ++ [SLASH].
Proof.
  unfold ends_with. rewrite starts_with_eq. split.
  - intros [r Hr]. apply (f_equal reverse) in Hr. rewrite reverse_involutive in Hr. exists (reverse r).
    rewrite Hr, reverse_app. done.
  - intros [q ->]. exists (reverse q). by rewrite reverse_app.
Qed.

(** A prefix of the policy without its final slash. *)
Definition prefix_segments (p : list N) : list (list N) :=
  if ends_with [SLASH] p then split_on SLASH (removelast p) else split_on SLASH p.

Lemma prefix_matches_segments path p :
  prefix_matches path p = true ->
  starts_with [SLASH] p = true /\ prefix_segments p `prefix_of` split_on SLASH path.
Proof.
  unfold prefix_matches, prefix_segments. destruct (starts_with [SLASH] p); [|done]. cbn [negb].
  destruct (ends_with [SLASH] p) eqn:Ee.
  - apply ends_with_slash in Ee as [q ->]. rewrite removelast_last. intros [r ->]%starts_with_eq.
    split; [done|]. apply segments_prefix. right. exists r. by rewrite <- app_assoc.
  - intros H. split; [done|]. apply segments_prefix. apply orb_true_iff in H as [H|H]; [left; by breflect|right].
    apply starts_with_eq in H as [r ->]. exists r. by rewrite <- app_assoc.
Qed.

(** For a prefix without a final slash the test is exactly that. *)
Lemma prefix_matches_exact path p :
  starts_with [SLASH] p = true -> ends_with [SLASH] p = false ->
  prefix_matches path p = true <-> split_on SLASH p `prefix_of` split_on SLASH path.
Proof.
  intros Hs He. unfold prefix_matches. rewrite Hs, He. cbn [negb]. rewrite segments_prefix, orb_true_iff, starts_with_eq.
  rewrite bool_decide_eq_true. setoid_rewrite <- (assoc_L (++)). done.
Qed.

(** ** What is handed out *)

Definition path_trusted (path : list N) (policy : TrustedPathPolicy) : Prop :=
  match policy with
  | AnyPath => True
  | ExactPaths l => path ∈ l
  | PathPrefixes l => exists p, p ∈ l /\ starts_with [SLASH] p = true /\ prefix_segments p `prefix_of` split_on SLASH path
  end.

Definition url_trusted (policy : TrustedUrlPolicy) (u : URL) : Prop :=
  protocol u ∈ protocols policy /\ hostname u <> [] /\ username u = [] /\ password u = [] /\
  (allowHash policy = false -> hash u = []) /\
  url_matches (origin u) (origins policy) = true /\ url_matches (host u) (hosts policy) = true /\
  starts_with [SLASH] (pathname u) = true /\ path_trusted (pathname u) (paths policy).

Lemma matches_path_trusted path policy :
  matchesPath path policy = true -> starts_with [SLASH] path = true /\ path_trusted path policy.
Proof.
  unfold matchesPath. destruct (starts_with [SLASH] path); [|done]. cbn [negb]. intros H. split; [done|].
  destruct policy as [|l|l]; [done|by breflect|]. apply existsb_exists in H as (p & Hp & Hm).
  exists p. split; [by apply list_elem_of_In|]. by apply prefix_matches_segments.
Qed.

Lemma url_allowed_trusted policy u : url_allowed policy u = true -> url_trusted policy u.
Proof.
  unfold url_allowed, url_trusted. intros H. breflect.
  match goal with Hp : matchesPath _ _ = true |- _ => apply matches_path_trusted in Hp as [Hs Hp] end.
  split_and!; try done.
  - by destruct (hostname u).
  - by destruct (username u).
  - by destruct (password u).
  - intros Hh. rewrite Hh in *. by destruct (hash u).
Qed.

Lemma parse_trusted newURL v policy base u :
  parseTrustedUrl newURL v policy base = Some u -> trim v = v /\ (exists b, newURL v b = Some u) /\ url_trusted policy u.
Proof.
  unfold parseTrustedUrl. destruct (_ || _) eqn:E; [done|]. breflect.
  destruct (newURL v _) as [u'|] eqn:Eu; [|done]. destruct (url_allowed policy u') eqn:Ea; [|done]. intros [= ->].
  split_and!; [done|by eexists|by apply url_allowed_trusted].
Qed.

(** A path that fills in a template: literal segments are kept, tokens are not empty. *)
Definition fills_template (path template : list N) : Prop :=
  Forall2 (fun s t => s = t \/ (is_token t = true /\ s <> [])) (split_on SLASH path) (split_on SLASH template).

Lemma templated_path path template : matchesTemplatedPath path template = true -> fills_template path template.
Proof.
  unfold matchesTemplatedPath, fills_template. generalize (split_on SLASH path) (split_on SLASH template).
  intros a. induction a as [|s a IH]; intros [|t b]; try (by cbn).
  cbn [length zip_with forallb fst snd]. intros H. breflect. constructor.
  - unfold segment_matches in *. destruct (is_token t); [right; split; [done|by destruct s]|left; by breflect].
  - apply IH. rewrite andb_true_iff. split; [|done]. apply Nat.eqb_eq. lia.
Qed.

(** *** Object URLs *)

Inductive ObjectEvent := Create (url : list N) | Revoke (url : list N).

Definition object_step (s : ObjectUrls) (e : ObjectEvent) : ObjectUrls :=
  match e with Create u => createTrustedObjectUrl u s | Revoke u => revokeTrustedObjectUrl u s end.

Definition run_objects (es : list ObjectEvent) : ObjectUrls := fold_left object_step es (mkObjects ∅ []).

Lemma objects_live es v :
  v ∈ localObjectUrls (run_objects es) <-> exists pre post, es = pre ++ Create v :: post /\ Revoke v ∉ post.
Proof.
  induction es as [|e es IH] using rev_ind.
  { cbn. split; [set_solver|]. intros (pre & post & H & _). by destruct pre. }
  unfold run_objects in *. rewrite fold_left_app. cbn [fold_left].
  assert ((exists pre post, es ++ [e] = pre ++ Create v :: post /\ Revoke v ∉ post) <->
    e = Create v \/ (e <> Revoke v /\ exists pre post, es = pre ++ Create v :: post /\ Revoke v ∉ post)) as ->.
  { split.
    - intros (pre & post & H & Hn). destruct post as [|x post] using rev_ind; [left; by apply app_inj_tail in H as [_ ->]|].
      right. rewrite app_comm_cons, app_assoc in H. apply app_inj_tail in H as [-> ->].
      rewrite elem_of_app, list_elem_of_singleton in Hn. split; [naive_solver|]. exists pre, post. naive_solver.
    - intros [->|(Hne & pre & post & -> & Hn)]; [exists es, []; split; [done|apply not_elem_of_nil]|].
      exists pre, (post ++ [e]). rewrite <- app_assoc. split; [done|]. rewrite elem_of_app, list_elem_of_singleton. naive_solver. }
  rewrite <- IH. destruct e as [u|u]; cbn [object_step].
  - cbn [createTrustedObjectUrl localObjectUrls]. rewrite elem_of_union, elem_of_singleton. naive_solver.
  - unfold revokeTrustedObjectUrl. destruct (decide (u ∈ _)) as [Hin|Hin]; cbn [localObjectUrls].
    + rewrite elem_of_difference, elem_of_singleton. naive_solver.
    + split; [|naive_solver]. intros Hv. right. split; [|done]. intros [= ->]. done.
Qed.

(** Whatever the URL parser of the browser does, a URL that is handed out was
    parsed from a text without surrounding blanks and passed every test: protocol, a
    host, no credentials, a hash only if allowed, origin and host as listed, and a path
    as listed or below a listed prefix at a segment boundary.  A URL for a template
    has the template's protocol, origin and host, and its path differs only in the
    segments that are tokens, which are not empty.  An object URL is handed out only
    between its creation by the page and its revocation, and for the expected origin. *)
Theorem trusted_urls newURL :
  (forall v policy base s, validatedExternalUrl newURL v policy base = Some s ->
    exists u b, trim v = v /\ newURL v b = Some u /\ s = href u /\ url_trusted policy u) /\
  (forall v template ps s, getTrustedTemplatedUrl newURL v template ps = Some s ->
    exists u t, newURL v None = Some u /\ newURL template None = Some t /\ s = href u /\
      url_trusted (openPolicy ps true) u /\ protocol u = protocol t /\ origin u = origin t /\ host u = host t /\
      fills_template (pathname u) (pathname t)) /\
  (forall v expected es s, getTrustedLocalObjectUrl newURL v expected (run_objects es) = Some s ->
    exists u pre post, newURL v None = Some u /\ s = href u /\ protocol u = js "blob:" /\ origin u = expected /\
      es = pre ++ Create v :: post /\ Revoke v ∉ post).
Proof.
  split_and!.
  - intros v policy base s. unfold validatedExternalUrl. destruct (parseTrustedUrl _ _ _ _) as [u|] eqn:E; [|done].
    intros [= <-]. apply parse_trusted in E as (Ht & (b & Hb) & Hu). by exists u, b.
  - intros v template ps s. unfold getTrustedTemplatedUrl.
    destruct (parseTrustedUrl newURL v _ _) as [u|] eqn:Eu; [|done].
    destruct (parseTrustedUrl newURL template _ _) as [t|] eqn:Et; [|done].
    destruct (same_place u t && _) eqn:Es; [|done]. intros [= <-]. unfold same_place in Es. breflect.
    pose proof (parse_trusted _ _ _ _ _ Eu) as (_ & _ & Hu).
    assert (forall x y, parseTrustedUrl newURL x (openPolicy ps true) None = Some y -> newURL x None = Some y) as Hparse.
    { intros x y. unfold parseTrustedUrl. destruct (_ || _); [done|]. destruct (newURL x None); [|done].
      by destruct (url_allowed _ _). }
    exists u, t. split_and!; try done; [by apply Hparse..|by apply templated_path].
  - intros v expected es s. unfold getTrustedLocalObjectUrl. destruct (decide (v ∈ _)) as [Hin|]; [|done].
    apply objects_live in Hin as (pre & post & -> & Hn). destruct (newURL v None) as [u|]; [|done].
    destruct (_ && _) eqn:E; [|done]. intros [= <-]. breflect. by exists u, pre, post.
Qed.

Definition sample_url (path : string) : URL :=
  mkURL (js "https:") (js "docs.example") [] [] [] (js "https://docs.example") (js "docs.example") (js path)
    (js "https://docs.example" ++ js path) [] [].

(** Prefixes end at segments, and tokens stand for one segment each. *)
Example path_samples :
  map (fun p => matchesPath (js p) (PathPrefixes [js "/api"; js "/docs/"])) ["/api"; "/api/v1"; "/apiary"; "/docs"; "/docs/a"; "x"]%string =
    [true; true; false; false; true; false] /\
  matchesTemplatedPath (js "/chat/sk-1") (js "/chat/%7Bkey%7d") = true /\
  matchesTemplatedPath (js "/chat/sk-1/x") (js "/chat/%7Bkey%7d") = false /\
  validatedExternalUrl (fun v _ => Some (sample_url "/api/v1")) (js "https://docs.example/api/v1")
    (mkPolicy [js "https:"] (OneOf [js "https://docs.example"]) AnyValue (PathPrefixes [js "/api"]) false) None =
    Some (js "https://docs.example/api/v1").
Proof. by vm_compute. Qed.

(** ** The window *)

Definition navigations (l : list WindowAction) : list (list N) :=
  omap (fun a => match a with NavigatePopup u | NavigateCurrent u => Some u | ClosePopup => None end) l.

(** The promise is [true] exactly if one window went to the resolved URL and no window went
    anywhere otherwise; a popup that is open, and stays open until it is used, goes to the
    URL or is closed. *)
Theorem external_navigation b r :
  let '(result, acts) := openResolvedExternalUrl b r in
  (result = None <-> r = Rejects) /\
  (result = Some true -> exists u, r = Resolves (Some u) /\ u <> [] /\ navigations acts = [u]) /\
  (result <> Some true -> navigations acts = []) /\
  (popup_opens b = true -> closed_before b = Some false -> closed_in_catch b = Some false ->
   closed_in_finally b = Some false -> ClosePopup ∈ acts \/ exists u, acts = [NavigatePopup u]).
Proof.
  destruct b as [o cb cc cf a c], r as [|[[|x u]|]]; destruct o, cb as [[]|], cc as [[]|], cf as [[]|], a, c; cbn;
    (split_and!; [try done|try done|try done|
      intros; first [discriminate|by (left; set_solver)|by (right; eexists)]]);
    naive_solver.
Qed.
