(* ===== verification/AdvancedCustom.v ===== *)
(** * Advanced custom channels (src/apps/web/src/features/channels/lib/advanced-custom.ts)

    The routes of a channel of type 58: which path of the gateway goes to which path of
    the upstream server, with a converter, rules on the model and authentication.  The
    configuration is JSON the administrator may edit as text: its fields are whatever
    [JSON.parse] gives, and calling [trim] on a value that is not a string throws.

    [newURL] is the URL parser of the browser, as in [ExternalUrls]. *)
From S2P Require Import Prelude JsString JsNumber JsJson AuthSession JsCollections ChannelConfig ExternalUrls.
From Stdlib Require Import Lia.

(** ** Data *)

Definition CHANNEL_TYPE_ADVANCED_CUSTOM : Z := 58.
Definition ADVANCED_CUSTOM_MODEL_LIST_PATH : list N := js "/v1/models".
Definition ADVANCED_CUSTOM_MODEL_REGEX_PREFIX : list N := js "re:".

Definition NONE : list N := js "none".
Definition MESSAGES_TO_CHAT : list N := js "anthropic_messages_to_openai_chat_completions".
Definition CHAT_TO_MESSAGES : list N := js "openai_chat_completions_to_anthropic_messages".
Definition CHAT_TO_RESPONSES : list N := js "openai_chat_completions_to_openai_responses".
Definition RESPONSES_TO_CHAT : list N := js "openai_responses_to_openai_chat_completions".
Definition RESPONSES_TO_GEMINI : list N := js "openai_responses_to_gemini_generate_content".
Definition GEMINI_TO_CHAT : list N := js "gemini_generate_content_to_openai_chat_completions".
Definition CHAT_TO_GEMINI : list N := js "openai_chat_completions_to_gemini_generate_content".

(** The values of the options, in order. *)
Definition ADVANCED_CUSTOM_CONVERTER_OPTIONS : list (list N) :=
  [NONE; MESSAGES_TO_CHAT; CHAT_TO_MESSAGES; CHAT_TO_RESPONSES; RESPONSES_TO_CHAT; RESPONSES_TO_GEMINI;
   GEMINI_TO_CHAT; CHAT_TO_GEMINI].

Definition openAIChatPath : list N := js "/v1/chat/completions".
Definition openAIResponsesPath : list N := js "/v1/responses".
Definition claudeMessagesPath : list N := js "/v1/messages".
Definition geminiGenerateContentPath : list N := js "/v1beta/models/{model}:generateContent".

(** Paths with their labels. *)
Definition ADVANCED_CUSTOM_INCOMING_PATH_OPTIONS : list (list N * list N) :=
  map (fun o => (js o.1, js o.2))
    [("/v1/chat/completions", "OpenAI Chat"); ("/v1/responses", "OpenAI Responses");
     ("/v1/responses/compact", "OpenAI Responses Compact"); ("/v1/alpha/search", "OpenAI Alpha Search");
     ("/v1/models", "OpenAI Models"); ("/v1/embeddings", "OpenAI Embeddings");
     ("/v1/images/generations", "OpenAI Image Generations"); ("/v1/images/edits", "OpenAI Image Edits");
     ("/v1/completions", "OpenAI Completions"); ("/v1/audio/speech", "OpenAI Audio Speech");
     ("/v1/audio/transcriptions", "OpenAI Audio Transcriptions");
     ("/v1/audio/translations", "OpenAI Audio Translations"); ("/v1/rerank", "OpenAI Rerank");
     ("/v1/realtime", "OpenAI Realtime"); ("/v1/messages", "Claude Messages");
     ("/v1beta/models/{model}:generateContent", "Gemini Generate Content");
     ("/v1beta/models/{model}:embedContent", "Gemini Embed Content");
     ("/v1beta/models/{model}:batchEmbedContents", "Gemini Batch Embed Contents")]%string.

(** Properties of an authentication object and of a route; [None] is [undefined]. *)
Record AdvancedCustomRouteAuth := mkAuthConfig {
  auth_type : option json;
  auth_name : option json;
  auth_value : option json }.

Record AdvancedCustomRoute := mkRoute {
  incoming_path : option json;
  upstream_path : option json;
  converter : option json;
  route_models : option json;
  route_auth : option json }.

Definition auth_json (a : AdvancedCustomRouteAuth) : json :=
  JObj (omap (fun kv => (fun v => (js kv.1, v)) <$> kv.2)
          [("type", auth_type a); ("name", auth_name a); ("value", auth_value a)]%string).

(** Reading a property: [null] and [undefined] throw, other primitives have none of them. *)
Definition route_of (v : json) : res AdvancedCustomRoute :=
  match v with
  | JNull => Throw TypeError
  | _ => Ok (mkRoute (get "incoming_path" v) (get "upstream_path" v) (get "converter" v) (get "models" v) (get "auth" v))
  end.

(** ** Normalization *)

(** [v || fallback] and [v?.trim() || ''] on a dynamic value. *)
Definition or_string (v : option json) (fallback : list N) : json :=
  match v with Some j => if json_truthy j then j else JStr fallback | None => JStr fallback end.

Definition js_trim (v : json) : res (list N) :=
  match v with JStr s => Ok (trim s) | _ => Throw TypeError end.

Definition optional_trim (v : option json) : res (list N) :=
  match v with None | Some JNull => Ok [] | Some j => js_trim j end.

Definition getAdvancedCustomRouteUpstreamPath (route : AdvancedCustomRoute) : res (list N) :=
  js_trim (or_string (upstream_path route) []).

Fixpoint trim_all (items : list json) : res (list (list N)) :=
  match items with
  | [] => Ok []
  | v :: r => let* s := js_trim v in let* rest := trim_all r in Ok (s :: rest)
  end.

Definition normalizeAdvancedCustomRouteModels (models : option json) : res (list (list N)) :=
  match models with
  | Some (JArr items) => let* l := trim_all items in Ok (filter (fun m => nonempty m = true) l)
  | _ => Ok []
  end.

Definition normalized_auth (v : option json) : option json :=
  match v with
  | Some j =>
      if json_truthy j
      then Some (auth_json (mkAuthConfig (get "type" j) (Some (or_string (get "name" j) [])) (Some (or_string (get "value" j) []))))
      else None
  | None => None
  end.

Definition normalizeAdvancedCustomRoute (route : AdvancedCustomRoute) : res AdvancedCustomRoute :=
  let* upstream := getAdvancedCustomRouteUpstreamPath route in
  let* models := normalizeAdvancedCustomRouteModels (route_models route) in
  Ok (mkRoute (Some (or_string (incoming_path route) [])) (Some (JStr upstream)) (Some (or_string (converter route) NONE))
        (match models with [] => None | _ => Some (JArr (map JStr models)) end) (normalized_auth (route_auth route))).

(** A configuration: its routes as [JSON.parse] gives them, or the routes of a normalized
    one. *)
Fixpoint map_res {A B} (f : A -> res B) (l : list A) : res (list B) :=
  match l with
  | [] => Ok []
  | x :: r => let* y := f x in let* ys := map_res f r in Ok (y :: ys)
  end.

Definition normalizeAdvancedCustomConfig (routes : list AdvancedCustomRoute) : res (list AdvancedCustomRoute) :=
  map_res normalizeAdvancedCustomRoute routes.

Definition routes_of (config : json) : res (list AdvancedCustomRoute) :=
  match get "advanced_routes" config with
  | Some (JArr items) => map_res (fun v => let* r := route_of v in normalizeAdvancedCustomRoute r) items
  | _ => Ok []
  end.

Definition parseAdvancedCustomRouteModels (value : list N) : list (list N) := set_values (parseModelsString value).

(** [None] is [null]; an exception inside is caught. *)
Definition parseAdvancedCustomConfig (value : option (list N)) : option (list AdvancedCustomRoute) :=
  let text := default [] value in
  if nonempty (trim text) then
    match json_parse text with
    | Some (JObj members) => match routes_of (JObj members) with Ok rs => Some rs | Throw _ => None end
    | _ => None
    end
  else None.

(** ** Converters and defaults *)

Definition is_gemini_generation (path : list N) : bool :=
  includes (js ":generateContent") path || includes (js ":streamGenerateContent") path.

Definition isConverterPathAllowed (incomingPath conv : list N) : bool :=
  if bool_decide (conv = NONE) then true
  else if bool_decide (incomingPath = js "/v1/alpha/search") then false
  else if bool_decide (conv = MESSAGES_TO_CHAT) then bool_decide (incomingPath = js "/v1/messages")
  else if bool_decide (conv ∈ [CHAT_TO_MESSAGES; CHAT_TO_RESPONSES; CHAT_TO_GEMINI])
       then bool_decide (incomingPath = js "/v1/chat/completions")
  else if bool_decide (conv = RESPONSES_TO_CHAT) then bool_decide (incomingPath = js "/v1/responses")
  else if bool_decide (conv = RESPONSES_TO_GEMINI) then bool_decide (incomingPath = js "/v1/responses")
  else is_gemini_generation incomingPath.

Definition isAdvancedCustomConverter (value : json) : bool :=
  match value with JStr s => bool_decide (s ∈ ADVANCED_CUSTOM_CONVERTER_OPTIONS) | _ => false end.

Definition getAdvancedCustomIncomingPathOptions (conv : list N) : list (list N * list N) :=
  filter (fun o => isConverterPathAllowed o.1 conv = true) ADVANCED_CUSTOM_INCOMING_PATH_OPTIONS.

Definition getDefaultAdvancedCustomIncomingPath (conv : list N) : list N :=
  match getAdvancedCustomIncomingPathOptions conv with (p, _) :: _ => p | [] => openAIChatPath end.

Definition getAdvancedCustomConverterOptions (incomingPath : list N) : list (list N) :=
  filter (fun c => c = NONE \/ isConverterPathAllowed (trim incomingPath) c = true) ADVANCED_CUSTOM_CONVERTER_OPTIONS.

Definition auth_config (type name value : string) : AdvancedCustomRouteAuth :=
  mkAuthConfig (Some (JStr (js type))) (Some (JStr (js name))) (Some (JStr (js value))).

Definition bearerHeaderAuth : AdvancedCustomRouteAuth := auth_config "header" "Authorization" "Bearer {api_key}".
Definition apiKeyHeaderAuth : AdvancedCustomRouteAuth := auth_config "header" "x-api-key" "{api_key}".
Definition geminiQueryAuth : AdvancedCustomRouteAuth := auth_config "query" "key" "{api_key}".

Definition getAdvancedCustomNativeAuth (incomingPath : list N) : AdvancedCustomRouteAuth :=
  if bool_decide (incomingPath = claudeMessagesPath) then apiKeyHeaderAuth
  else if is_gemini_generation incomingPath || includes (js ":embedContent") incomingPath ||
          includes (js ":batchEmbedContents") incomingPath
       then geminiQueryAuth
  else bearerHeaderAuth.

Definition getAdvancedCustomConverterDefaults (conv incomingPath : list N) : list N * AdvancedCustomRouteAuth :=
  let trimmed := trim incomingPath in
  let normalizedIncomingPath := if nonempty trimmed then trimmed else getDefaultAdvancedCustomIncomingPath conv in
  if bool_decide (conv = NONE) then (normalizedIncomingPath, getAdvancedCustomNativeAuth normalizedIncomingPath)
  else if bool_decide (conv ∈ [MESSAGES_TO_CHAT; GEMINI_TO_CHAT; RESPONSES_TO_CHAT]) then (openAIChatPath, bearerHeaderAuth)
  else if bool_decide (conv = CHAT_TO_RESPONSES) then (openAIResponsesPath, bearerHeaderAuth)
  else if bool_decide (conv = CHAT_TO_MESSAGES) then (claudeMessagesPath, apiKeyHeaderAuth)
  else if bool_decide (conv ∈ [CHAT_TO_GEMINI; RESPONSES_TO_GEMINI]) then (geminiGenerateContentPath, geminiQueryAuth)
  else (if nonempty normalizedIncomingPath then normalizedIncomingPath else openAIChatPath,
        getAdvancedCustomNativeAuth normalizedIncomingPath).

(** The mode is the type, or [default]; here for the types of the interface. *)
Inductive AdvancedCustomAuthMode := AuthDefault | AuthNone | AuthHeader | AuthQuery.

Definition string_or (v : option json) (fallback : string) : option json := Some (or_string v (js fallback)).

Definition buildAdvancedCustomAuth (mode : AdvancedCustomAuthMode) (previous : option AdvancedCustomRouteAuth)
  : option AdvancedCustomRouteAuth :=
  let name := previous ≫= auth_name in
  let value := previous ≫= auth_value in
  match mode with
  | AuthDefault => None
  | AuthNone => Some (mkAuthConfig (Some (JStr NONE)) None None)
  | AuthHeader => Some (mkAuthConfig (Some (JStr (js "header"))) (string_or name "Authorization") (string_or value "Bearer {api_key}"))
  | AuthQuery => Some (mkAuthConfig (Some (JStr (js "query"))) (string_or name "api_key") (string_or value "{api_key}"))
  end.

Definition createAdvancedCustomRoute : AdvancedCustomRoute :=
  mkRoute (Some (JStr openAIChatPath)) (Some (JStr openAIChatPath)) (Some (JStr NONE)) None None.

Definition template_route (incoming upstream conv : list N) (auth : AdvancedCustomRouteAuth) : AdvancedCustomRoute :=
  mkRoute (Some (JStr incoming)) (Some (JStr upstream)) (Some (JStr conv)) None (Some (auth_json auth)).

Definition native_route (path : string) (auth : AdvancedCustomRouteAuth) : AdvancedCustomRoute :=
  template_route (js path) (js path) NONE auth.

Definition ADVANCED_CUSTOM_TEMPLATE_OPTIONS : list (list N * list AdvancedCustomRoute) :=
  [(js "official_openai_chat", [native_route "/v1/chat/completions" bearerHeaderAuth]);
   (js "official_openai_responses", [native_route "/v1/responses" bearerHeaderAuth]);
   (js "official_openai_embeddings", [native_route "/v1/embeddings" bearerHeaderAuth]);
   (js "official_openai_images",
     [native_route "/v1/images/generations" bearerHeaderAuth; native_route "/v1/images/edits" bearerHeaderAuth]);
   (js "official_claude_messages", [native_route "/v1/messages" apiKeyHeaderAuth]);
   (js "official_gemini_native",
     [native_route "/v1beta/models/{model}:generateContent" geminiQueryAuth;
      native_route "/v1beta/models/{model}:embedContent" geminiQueryAuth;
      native_route "/v1beta/models/{model}:batchEmbedContents" geminiQueryAuth]);
   (js "official_gemini_from_openai_chat",
     [template_route openAIChatPath geminiGenerateContentPath CHAT_TO_GEMINI geminiQueryAuth])].

(** The clone is a fresh value. *)
Definition getAdvancedCustomTemplateConfig (templateKey : list N) : list AdvancedCustomRoute :=
  match list_find (fun o => o.1 = templateKey) ADVANCED_CUSTOM_TEMPLATE_OPTIONS with
  | Some (_, o) => o.2
  | None => default [] (snd <$> head ADVANCED_CUSTOM_TEMPLATE_OPTIONS)
  end.

(** ** Validation *)

Record AdvancedCustomValidationError := mkInvalid { invalid_route : option nat; invalid_message : string }.

(** [getAdvancedCustomModelRuleKind] and [getAdvancedCustomRegexModelPattern]. *)
Definition is_regex_rule (modelRule : list N) : bool := starts_with ADVANCED_CUSTOM_MODEL_REGEX_PREFIX modelRule.
Definition regex_pattern (modelRule : list N) : list N := drop (length ADVANCED_CUSTOM_MODEL_REGEX_PREFIX) modelRule.

Definition empty_regex (m : list N) : bool := is_regex_rule m && bool_decide (regex_pattern m = []).

Record PathState := mkPath { catchAllIndex : option nat; path_models : gmap (list N) nat }.

Fixpoint models_loop (index : nat) (ms : list (list N)) (seenInRoute : gset (list N)) (pm : gmap (list N) nat)
  : string + gmap (list N) nat :=
  match ms with
  | [] => inr pm
  | m :: r =>
      if empty_regex m then inl "Model regex cannot be empty"%string
      else if decide (m ∈ seenInRoute) then inl "Duplicate model in route models"%string
      else if bool_decide (is_Some (pm !! m)) then inl "Route models must be unique for the same incoming path"%string
      else models_loop index r ({[m]} ∪ seenInRoute) (<[m := index]> pm)
  end.

Definition validateAdvancedCustomRouteModels (index : nat) (path : list N) (ms : list (list N))
    (byPath : gmap (list N) PathState) : string + gmap (list N) PathState :=
  let state := default (mkPath None ∅) (byPath !! path) in
  match ms, catchAllIndex state with
  | [], Some _ => inl "Only one catch-all route is allowed for the same incoming path"%string
  | [], None => inr (<[path := mkPath (Some index) (path_models state)]> byPath)
  | _, Some _ => inl "Catch-all route must be last for the same incoming path"%string
  | _, None =>
      match models_loop index ms ∅ (path_models state) with
      | inl e => inl e
      | inr pm => inr (<[path := mkPath None pm]> byPath)
      end
  end.

Definition auth_type_is (t : string) (v : option json) : bool :=
  match v with Some (JStr s) => bool_decide (s = js t) | _ => false end.

Definition validateRouteAuth (auth : option json) : res (option string) :=
  match auth with
  | None => Ok None
  | Some a =>
      if negb (json_truthy a) then Ok None
      else if auth_type_is "none" (get "type" a) then Ok None
      else if negb (auth_type_is "header" (get "type" a)) && negb (auth_type_is "query" (get "type" a))
           then Ok (Some "Auth type is invalid"%string)
      else
        let* name := optional_trim (get "name" a) in
        if negb (nonempty name) then Ok (Some "Auth name is required"%string)
        else
          let* value := optional_trim (get "value" a) in
          if negb (nonempty value) then Ok (Some "Auth value is required"%string) else Ok None
  end.

Section Validation.
Context (newURL : list N -> option (list N) -> option URL).

Definition isFullHttpURLOrAbsolutePath (value : list N) : bool :=
  if starts_with [SLASH] value then negb (starts_with [SLASH; SLASH] value)
  else match newURL value None with
       | Some u => nonempty (host u) && (bool_decide (protocol u = js "http:") || bool_decide (protocol u = js "https:"))
       | None => false
       end.

(** The checks of the route for the list of models; the index found before. *)
Definition model_list_check (modelListRouteIndex : option nat) (ms : list (list N)) (conv : json) (upstreamPath : list N)
  : option string :=
  if bool_decide (is_Some modelListRouteIndex) then Some "Only one OpenAI Models route is allowed"%string
  else if negb (bool_decide (ms = [])) then Some "OpenAI Models route does not support client model rules"%string
  else if negb (auth_type_is "none" (Some conv)) then Some "OpenAI Models route must use native forwarding"%string
  else if includes (js "{model}") upstreamPath then Some "OpenAI Models upstream path must not contain {model}"%string
  else None.

Definition path_check (path : list N) : option string :=
  if negb (nonempty path) then Some "Incoming path is required"%string
  else if negb (starts_with [SLASH] path) then Some "Incoming path must start with /"%string
  else if includes (js "?") path then Some "Incoming path must not include query"%string
  else None.

Definition upstream_check (upstreamPath incomingPath : list N) (conv : json) : option string :=
  if negb (nonempty upstreamPath) then Some "Upstream path is required"%string
  else if negb (isFullHttpURLOrAbsolutePath upstreamPath)
       then Some "Upstream path must be a full URL or a path starting with /"%string
  else match conv with
       | JStr c =>
           if negb (isAdvancedCustomConverter conv) then Some "Converter is not registered"%string
           else if negb (isConverterPathAllowed incomingPath c) then Some "Converter does not match incoming path"%string
           else None
       | _ => Some "Converter is not registered"%string
       end.

(** What the loop carries: the index of the route for the list of models, and the rules
    by path. *)
Definition LoopState : Type := option nat * gmap (list N) PathState.

(** One turn of the loop on a normalized route. *)
Definition validate_route (index : nat) (route : AdvancedCustomRoute) (st : LoopState) : res (string + LoopState) :=
  let* incomingPath := optional_trim (incoming_path route) in
  let* upstreamPath := getAdvancedCustomRouteUpstreamPath route in
  let conv := or_string (converter route) NONE in
  let* ms := normalizeAdvancedCustomRouteModels (route_models route) in
  match path_check incomingPath with
  | Some e => Ok (inl e)
  | None =>
      let is_list := bool_decide (incomingPath = ADVANCED_CUSTOM_MODEL_LIST_PATH) in
      match (if is_list then model_list_check st.1 ms conv upstreamPath else None) with
      | Some e => Ok (inl e)
      | None =>
          match validateAdvancedCustomRouteModels index incomingPath ms st.2 with
          | inl e => Ok (inl e)
          | inr byPath =>
              match upstream_check upstreamPath incomingPath conv with
              | Some e => Ok (inl e)
              | None =>
                  let* authError := validateRouteAuth (route_auth route) in
                  match authError with
                  | Some e => Ok (inl e)
                  | None => Ok (inr (if is_list then Some index else st.1, byPath))
                  end
              end
          end
      end
  end.

Fixpoint validate_loop (index : nat) (routes : list AdvancedCustomRoute) (st : LoopState)
  : res (option AdvancedCustomValidationError) :=
  match routes with
  | [] => Ok None
  | r :: rest =>
      let* turn := validate_route index r st in
      match turn with
      | inl e => Ok (Some (mkInvalid (Some index) e))
      | inr st' => validate_loop (S index) rest st'
      end
  end.

Definition validateAdvancedCustomConfig (config : option (list AdvancedCustomRoute))
  : res (option AdvancedCustomValidationError) :=
  match config with
  | None => Ok (Some (mkInvalid None "Advanced custom configuration is required"))
  | Some routes =>
      let* normalized := normalizeAdvancedCustomConfig routes in
      match normalized with
      | [] => Ok (Some (mkInvalid None "Advanced custom configuration requires at least one route"))
      | _ => validate_loop 0 normalized (None, ∅)
      end
  end.

Fixpoint any_res {A} (f : A -> res bool) (l : list A) : res bool :=
  match l with
  | [] => Ok false
  | x :: r => let* b := f x in if b then Ok true else any_res f r
  end.

Definition hasValidAdvancedCustomModelListRoute (config : option (list AdvancedCustomRoute)) : res bool :=
  match config with
  | None => Ok false
  | Some routes =>
      let* error := validateAdvancedCustomConfig config in
      match error with
      | Some _ => Ok false
      | None =>
          let* normalized := normalizeAdvancedCustomConfig routes in
          any_res (fun r => let* p := match incoming_path r with
                                      | None | Some JNull => Ok None
                                      | Some v => let* s := js_trim v in Ok (Some s)
                                      end in
                            Ok (bool_decide (p = Some ADVANCED_CUSTOM_MODEL_LIST_PATH))) normalized
      end
  end.

Definition advancedCustomConfigUsesRelativeUpstreamPath (config : option (list AdvancedCustomRoute)) : res bool :=
  match config with
  | None => Ok false
  | Some routes =>
      let* normalized := normalizeAdvancedCustomConfig routes in
      any_res (fun r => let* p := getAdvancedCustomRouteUpstreamPath r in Ok (starts_with [SLASH] p)) normalized
  end.

End Validation.

Definition accepted (newURL : list N -> option (list N) -> option URL) (config : option (list AdvancedCustomRoute)) : bool :=
  match validateAdvancedCustomConfig newURL config with Ok None => true | _ => false end.

(** ** Samples *)

Definition no_urls : list N -> option (list N) -> option URL := fun _ _ => None.

(** The templates, the initial configuration and the defaults of every converter are valid. *)
Example templates_valid :
  forallb (fun o => accepted no_urls (Some o.2)) ADVANCED_CUSTOM_TEMPLATE_OPTIONS &&
  accepted no_urls (Some [createAdvancedCustomRoute]) &&
  forallb (fun c => forallb (fun p =>
     let d := getAdvancedCustomConverterDefaults c p in accepted no_urls (Some [template_route p d.1 c d.2]))
       (map fst (getAdvancedCustomIncomingPathOptions c))) ADVANCED_CUSTOM_CONVERTER_OPTIONS = true.
Proof. by vm_compute. Qed.

(** A number where a path belongs: the text is parsed, and the validation throws. *)
Example number_path_throws :
  (fun rs => validateAdvancedCustomConfig no_urls (Some rs)) <$>
    parseAdvancedCustomConfig (Some (json_quotes (js "{'advanced_routes':[{'incoming_path':5,'upstream_path':'/v1'}]}"))) =
  Some (Throw TypeError).
Proof. by vm_compute. Qed.

(** ** What is accepted *)

(** A normalized route whose fields are strings. *)
Record RouteView := mkView {
  v_path : list N;
  v_upstream : list N;
  v_converter : list N;
  v_models : list (list N);
  v_auth : option json }.

Definition view_route (r : AdvancedCustomRoute) : option RouteView :=
  match optional_trim (incoming_path r), getAdvancedCustomRouteUpstreamPath r, or_string (converter r) NONE,
        normalizeAdvancedCustomRouteModels (route_models r) with
  | Ok p, Ok u, JStr c, Ok ms => Some (mkView p u c ms (route_auth r))
  | _, _, _, _ => None
  end.

Definition views (routes : list AdvancedCustomRoute) : option (list RouteView) :=
  match normalizeAdvancedCustomConfig routes with Ok rs => mapM view_route rs | Throw _ => None end.

Section Accepted.
Context (newURL : list N -> option (list N) -> option URL).

(** A route on its own. *)
Record route_ok (v : RouteView) : Prop := {
  ok_slash : starts_with [SLASH] (v_path v) = true;
  ok_query : includes (js "?") (v_path v) = false;
  ok_list : v_path v = ADVANCED_CUSTOM_MODEL_LIST_PATH ->
    v_models v = [] /\ v_converter v = NONE /\ includes (js "{model}") (v_upstream v) = false;
  ok_regex : Forall (fun m => empty_regex m = false) (v_models v);
  ok_upstream : v_upstream v <> [] /\ isFullHttpURLOrAbsolutePath newURL (v_upstream v) = true;
  ok_converter : v_converter v ∈ ADVANCED_CUSTOM_CONVERTER_OPTIONS /\
    isConverterPathAllowed (v_path v) (v_converter v) = true;
  ok_auth : validateRouteAuth (v_auth v) = Ok None }.

(** A route after others: no route before it takes all models of its path, or one of its
    rules. *)
Definition follows_ok (before : list RouteView) (v : RouteView) : Prop :=
  NoDup (v_models v) /\
  forall w, w ∈ before -> v_path w = v_path v -> v_models w <> [] /\ forall m, m ∈ v_models v -> m ∉ v_models w.

(** *** The rules of one path *)

Lemma models_loop_spec i ms seen pm :
  match models_loop i ms seen pm with
  | inl _ => ~ (NoDup ms /\ Forall (fun m => empty_regex m = false /\ m ∉ seen /\ pm !! m = None) ms)
  | inr pm' => NoDup ms /\ Forall (fun m => empty_regex m = false /\ m ∉ seen /\ pm !! m = None) ms /\
               forall m, is_Some (pm' !! m) <-> m ∈ ms \/ is_Some (pm !! m)
  end.
Proof.
  revert seen pm. induction ms as [|m ms IH]; intros seen pm; cbn [models_loop].
  { split; [constructor|]. split; [constructor|]. intros m. split; [by right|]. by intros [[]%not_elem_of_nil|]. }
  destruct (empty_regex m) eqn:Er; [intros [_ [[? _] _]%Forall_cons]; congruence|].
  destruct (decide (m ∈ seen)); [by intros [_ [(_ & ? & _) _]%Forall_cons]|].
  case_bool_decide as Hp; [intros [_ [(_ & _ & Hn) _]%Forall_cons]; rewrite Hn in Hp; by destruct Hp|].
  rewrite <- eq_None_not_Some in Hp. specialize (IH ({[m]} ∪ seen) (<[m:=i]> pm)).
  assert (forall x, m <> x -> <[m:=i]> pm !! x = pm !! x) as Hi by (intros; by apply lookup_insert_ne).
  destruct (models_loop i ms _ _) as [e|pm'].
  - intros [[Hm Hn]%NoDup_cons [_ HF]%Forall_cons]. apply IH. split; [done|]. rewrite Forall_forall in HF |- *.
    intros x Hx. destruct (HF x Hx) as (? & ? & ?). assert (m <> x) by (intros ->; done). rewrite Hi by done. set_solver.
  - destruct IH as (Hn & HF & Hm). rewrite Forall_forall in HF. split_and!.
    + constructor; [|done]. intros H. destruct (HF m H) as (_ & H2 & _). set_solver.
    + constructor; [done|]. rewrite Forall_forall. intros x Hx. destruct (HF x Hx) as (? & H2 & H3).
      assert (m <> x) by set_solver. rewrite Hi in H3 by done. set_solver.
    + intros x. rewrite Hm, elem_of_cons, lookup_insert_is_Some. destruct (decide (m = x)); naive_solver.
Qed.

(** What the map knows of the routes before. *)
Definition knows (before : list RouteView) (byPath : gmap (list N) PathState) : Prop :=
  forall p, let state := default (mkPath None ∅) (byPath !! p) in
    (is_Some (catchAllIndex state) <-> exists w, w ∈ before /\ v_path w = p /\ v_models w = []) /\
    forall m, is_Some (path_models state !! m) <-> exists w, w ∈ before /\ v_path w = p /\ m ∈ v_models w.

Lemma follows_iff before v state :
  ~ (exists w, w ∈ before /\ v_path w = v_path v /\ v_models w = []) ->
  (forall m, is_Some (path_models state !! m) <-> exists w, w ∈ before /\ v_path w = v_path v /\ m ∈ v_models w) ->
  follows_ok before v /\ Forall (fun m => empty_regex m = false) (v_models v) <->
  NoDup (v_models v) /\
  Forall (fun m => empty_regex m = false /\ m ∉ (∅ : gset (list N)) /\ path_models state !! m = None) (v_models v).
Proof.
  intros Hc Hm. unfold follows_ok. rewrite !Forall_forall. split.
  - intros [[Hn Hf] Hr]. split; [done|]. intros m Hm'. split_and!; [by apply Hr|set_solver|].
    apply eq_None_not_Some. intros (w & Hw & Hp & Hin)%Hm. by destruct (Hf w Hw Hp) as [_ H]; apply (H m).
  - intros [Hn Hf]. split; [split; [done|]|intros m Hm'; by apply Hf]. intros w Hw Hp. split.
    + intros He. apply Hc. by exists w.
    + intros m Hm' Hin. destruct (Hf m Hm') as (_ & _ & H). assert (is_Some (path_models state !! m)) as [? ?]; [|congruence].
      apply Hm. by exists w.
Qed.

Lemma route_models_spec i v before byPath :
  knows before byPath ->
  match validateAdvancedCustomRouteModels i (v_path v) (v_models v) byPath with
  | inl _ => ~ (follows_ok before v /\ Forall (fun m => empty_regex m = false) (v_models v))
  | inr byPath' => follows_ok before v /\ Forall (fun m => empty_regex m = false) (v_models v) /\ knows (before ++ [v]) byPath'
  end.
Proof.
  intros Hk. destruct (Hk (v_path v)) as [Hc Hm]. unfold validateAdvancedCustomRouteModels.
  set (state := default (mkPath None ∅) (byPath !! v_path v)) in *.
  assert (forall st', (is_Some (catchAllIndex st') <-> is_Some (catchAllIndex state) \/ v_models v = []) ->
    (forall m, is_Some (path_models st' !! m) <-> is_Some (path_models state !! m) \/ m ∈ v_models v) ->
    knows (before ++ [v]) (<[v_path v := st']> byPath)) as Hnew.
  { intros st' H1 H2 p. cbv zeta. setoid_rewrite elem_of_app. setoid_rewrite list_elem_of_singleton.
    destruct (decide (p = v_path v)) as [->|Hp].
    - rewrite lookup_insert_eq. cbn [default]. split; [rewrite H1, Hc|intros m; rewrite H2, Hm]; naive_solver.
    - rewrite lookup_insert_ne by done. destruct (Hk p) as [Hc' Hm']. split; [rewrite Hc'|intros m; rewrite Hm']; naive_solver. }
  assert (is_Some (catchAllIndex state) -> ~ follows_ok before v) as Hcatch.
  { intros (w & Hw & Hp & He)%Hc [_ Hf]. by destruct (Hf w Hw Hp). }
  destruct (v_models v) as [|m0 ms0] eqn:Ems.
  - destruct (catchAllIndex state) as [k|] eqn:Ec; [intros [Hf _]; by apply Hcatch|].
    split_and!; [|constructor|].
    + split; [rewrite Ems; constructor|]. intros w Hw Hp. rewrite Ems. split; [|intros m []%not_elem_of_nil].
      intros He. assert (is_Some (@None nat)) as [? ?]; [|done]. apply Hc. by exists w.
    + apply Hnew; [cbn [catchAllIndex]; split; [by right|by intros _; eexists]|].
      intros m. cbn [path_models]. split; [by left|]. by intros [|[]%not_elem_of_nil].
  - rewrite <- Ems in *. assert (v_models v <> []) as Hne by (by rewrite Ems). clear Ems m0 ms0.
    destruct (catchAllIndex state) as [k|] eqn:Ec; [intros [Hf _]; by apply Hcatch|].
    assert (~ exists w, w ∈ before /\ v_path w = v_path v /\ v_models w = []) as Hc' by (rewrite <- Hc; by intros []).
    pose proof (models_loop_spec i (v_models v) ∅ (path_models state)) as Hl.
    pose proof (follows_iff before v state Hc' Hm) as Hiff.
    destruct (models_loop i (v_models v) ∅ (path_models state)) as [e|pm].
    + by rewrite Hiff.
    + destruct Hl as (Hn & HF & Hpm). destruct (proj2 Hiff (conj Hn HF)) as [H1 H2]. split_and!; [done..|].
      apply Hnew; cbn [catchAllIndex path_models]; [split; [by intros []|by intros [[]|]]|].
      intros m. rewrite Hpm. naive_solver.
Qed.

(** *** One route *)

Definition loop_inv (before : list RouteView) (st : LoopState) : Prop :=
  knows before st.2 /\ Forall route_ok before /\
  (is_Some st.1 -> exists w, w ∈ before /\ v_path w = ADVANCED_CUSTOM_MODEL_LIST_PATH).

Lemma path_check_spec p : path_check p = None <-> starts_with [SLASH] p = true /\ includes (js "?") p = false.
Proof.
  unfold path_check. destruct p as [|c p]; [cbn; naive_solver|]. cbn [nonempty negb].
  destruct (starts_with [SLASH] (c :: p)); cbn [negb]; [|naive_solver]. destruct (includes _ _); naive_solver.
Qed.

Lemma is_none_text c : auth_type_is "none" (Some (JStr c)) = bool_decide (c = NONE).
Proof. done. Qed.

Lemma model_list_check_spec known ms c u :
  model_list_check known ms (JStr c) u = None <->
  known = None /\ ms = [] /\ c = NONE /\ includes (js "{model}") u = false.
Proof.
  unfold model_list_check. rewrite is_none_text.
  repeat case_bool_decide; cbn [negb]; try (destruct known; naive_solver).
  destruct (includes _ u); destruct known; naive_solver.
Qed.

Lemma upstream_check_spec u p c :
  upstream_check newURL u p (JStr c) = None <->
  (u <> [] /\ isFullHttpURLOrAbsolutePath newURL u = true) /\
  c ∈ ADVANCED_CUSTOM_CONVERTER_OPTIONS /\ isConverterPathAllowed p c = true.
Proof.
  unfold upstream_check. assert (nonempty u = true <-> u <> []) as Hu by (by destruct u).
  destruct (nonempty u); cbn [negb]; [|naive_solver]. destruct (isFullHttpURLOrAbsolutePath newURL u); cbn [negb]; [|naive_solver].
  cbn [isAdvancedCustomConverter]. case_bool_decide; cbn [negb]; [|naive_solver].
  destruct (isConverterPathAllowed p c); naive_solver.
Qed.

Lemma validate_route_sound i r before st st' :
  loop_inv before st -> validate_route newURL i r st = Ok (inr st') ->
  exists v, view_route r = Some v /\ route_ok v /\ follows_ok before v /\ loop_inv (before ++ [v]) st'.
Proof.
  intros (Hk & Hok & Hl) H. unfold validate_route in H.
  apply res_bind_Ok in H as (p & Hp & H). apply res_bind_Ok in H as (u & Hu & H). apply res_bind_Ok in H as (ms & Hms & H).
  destruct (path_check p) eqn:Epath; [done|]. apply path_check_spec in Epath as [Hslash Hq].
  destruct (or_string (converter r) NONE) as [| | |c| |] eqn:Ec;
    try (destruct (if bool_decide _ then _ else _); [done|];
         destruct (validateAdvancedCustomRouteModels _ _ _ _); [done|]; unfold upstream_check in H;
         destruct (negb (nonempty u)); [done|]; by destruct (negb (isFullHttpURLOrAbsolutePath newURL u))).
  set (v := mkView p u c ms (route_auth r)).
  assert (view_route r = Some v) as Hv by (unfold view_route; by rewrite Hp, Hu, Ec, Hms).
  destruct (if bool_decide _ then _ else _) eqn:Elist; [done|].
  pose proof (route_models_spec i v before st.2 Hk) as Hr. cbn [v v_path v_models] in Hr.
  destruct (validateAdvancedCustomRouteModels i p ms st.2) as [e|byPath]; [done|]. destruct Hr as (Hf & Hre & Hk').
  destruct (upstream_check newURL u p (JStr c)) eqn:Eu; [done|]. apply upstream_check_spec in Eu as (Hup & Hconv).
  apply res_bind_Ok in H as ([e|] & Ha & H); [done|]. injection H as <-.
  assert (route_ok v) as Hrok.
  { constructor; try done. intros Hpl. cbn [v v_path] in Hpl. rewrite bool_decide_eq_true_2 in Elist by done.
    by apply model_list_check_spec in Elist as (_ & ?). }
  exists v. split; [done|]. split; [done|]. split; [done|]. split; [exact Hk'|]. split.
  - apply Forall_app. split; [done|]. by constructor.
  - cbn [fst]. case_bool_decide as Hpl.
    + intros _. exists v. split; [|done]. apply elem_of_app. right. left.
    + intros (w & Hw & ?)%Hl. exists w. split; [|done]. apply elem_of_app. by left.
Qed.

Lemma validate_route_complete i r before st v :
  loop_inv before st -> view_route r = Some v -> route_ok v -> follows_ok before v ->
  exists st', validate_route newURL i r st = Ok (inr st').
Proof.
  intros (Hk & Hok & Hl) Hv [Hslash Hq Hlist Hre Hup Hconv Ha] Hf. unfold view_route in Hv. unfold validate_route.
  destruct (optional_trim (incoming_path r)) as [p|]; [|done].
  destruct (getAdvancedCustomRouteUpstreamPath r) as [u|]; [|done].
  destruct (or_string (converter r) NONE) as [| | |c| |]; try done.
  destruct (normalizeAdvancedCustomRouteModels (route_models r)) as [ms|]; [|done]. injection Hv as <-.
  cbn [v_path v_upstream v_converter v_models v_auth res_bind] in *.
  rewrite (proj2 (path_check_spec p)) by done.
  assert ((if bool_decide (p = ADVANCED_CUSTOM_MODEL_LIST_PATH) then model_list_check st.1 ms (JStr c) u else None) = None) as ->.
  { case_bool_decide as Hpl; [|done]. apply model_list_check_spec. split; [|by apply Hlist].
    destruct st.1 as [k|]; [|done]. destruct (Hl ltac:(by eexists)) as (w & Hw & Hwp). destruct Hf as [_ Hf].
    destruct (Hf w Hw) as [Hne _]; [cbn [v_path]; congruence|]. rewrite Forall_forall in Hok. by destruct (ok_list w (Hok w Hw) Hwp). }
  pose proof (route_models_spec i (mkView p u c ms (route_auth r)) before st.2 Hk) as Hr. cbn [v_path v_models] in Hr.
  destruct (validateAdvancedCustomRouteModels i p ms st.2) as [e|byPath]; [by destruct Hr|].
  rewrite (proj2 (upstream_check_spec u p c)) by done. rewrite Ha. cbn [res_bind]. by eexists.
Qed.

(** *** The loop *)

Definition routes_ok (before vs : list RouteView) : Prop :=
  forall i v, vs !! i = Some v -> route_ok v /\ follows_ok (before ++ take i vs) v.

Lemma routes_ok_cons before v vs :
  routes_ok before (v :: vs) <-> (route_ok v /\ follows_ok before v) /\ routes_ok (before ++ [v]) vs.
Proof.
  unfold routes_ok. split.
  - intros H. split; [specialize (H 0 v eq_refl); by rewrite take_0, app_nil_r in H|]. intros i w Hw.
    rewrite <- app_assoc. apply (H (S i) w Hw).
  - intros [H0 H] [|i] w Hw; [injection Hw as <-; by rewrite take_0, app_nil_r|].
    specialize (H i w Hw). by rewrite <- app_assoc in H.
Qed.

Lemma validate_loop_spec rs i before st :
  loop_inv before st ->
  validate_loop newURL i rs st = Ok None <-> exists vs, mapM view_route rs = Some vs /\ routes_ok before vs.
Proof.
  revert i before st. induction rs as [|r rs IH]; intros i before st Hinv; cbn [validate_loop].
  { split; [intros _; exists []; split; [done|]; by intros i' v|done]. }
  split.
  - intros H. apply res_bind_Ok in H as ([e|st'] & Hr & H); [done|].
    destruct (validate_route_sound _ _ _ _ _ Hinv Hr) as (v & Hv & Hok & Hf & Hinv').
    destruct (proj1 (IH _ _ _ Hinv') H) as (vs & Hvs & Hrs). exists (v :: vs). split; [cbn [mapM]; by rewrite Hv; cbn; rewrite Hvs|].
    by apply routes_ok_cons.
  - intros (vs & Hvs & Hrs). cbn [mapM] in Hvs. destruct (view_route r) as [v|] eqn:Hv; [|done].
    cbn [mbind option_bind] in Hvs. destruct (mapM view_route rs) as [vs'|] eqn:Hvs'; [|done]. injection Hvs as <-.
    apply routes_ok_cons in Hrs. destruct Hrs as [[Hok Hf] Hrs'].
    destruct (validate_route_complete i r before st v Hinv Hv Hok Hf) as [st' Hr]. rewrite Hr. cbn [res_bind].
    destruct (validate_route_sound _ _ _ _ _ Hinv Hr) as (v' & Hv' & _ & _ & Hinv'). assert (v' = v) as -> by congruence.
    apply (IH _ _ _ Hinv'). by exists vs'.
Qed.

Lemma initial_inv : loop_inv [] (None, ∅).
Proof.
  split_and!; [|constructor|by intros []]. intros p. cbn [fst snd]. rewrite lookup_empty. cbn. split.
  - split; [by intros []|]. by intros (w & []%not_elem_of_nil & _).
  - intros m. rewrite lookup_empty. split; [by intros []|]. by intros (w & []%not_elem_of_nil & _).
Qed.

End Accepted.

(** The validator accepts exactly the configurations with at least one route in
    which all paths, converters and rules are strings, every route is in order by
    itself, no route follows a catch-all route of its path, and the model rules of a
    path are all different. *)
Theorem advanced_config_validated newURL routes :
  accepted newURL (Some routes) = true <->
  exists vs, views routes = Some vs /\ vs <> [] /\
    forall i v, vs !! i = Some v ->
      route_ok newURL v /\ NoDup (v_models v) /\
      forall j w, j < i -> vs !! j = Some w -> v_path w = v_path v ->
        v_models w <> [] /\ forall m, m ∈ v_models v -> m ∉ v_models w.
Proof.
  assert (forall vs, (forall i v, vs !! i = Some v -> route_ok newURL v /\ NoDup (v_models v) /\
      forall j w, j < i -> vs !! j = Some w -> v_path w = v_path v ->
        v_models w <> [] /\ forall m, m ∈ v_models v -> m ∉ v_models w) <-> routes_ok newURL [] vs) as Hrules.
  { intros vs. unfold routes_ok, follows_ok. split; intros H i v Hv; destruct (H i v Hv) as (H1 & H2 & H3); (split_and!; [done..|]).
    - intros w (j & Hj)%list_elem_of_lookup Hp. cbn [app] in Hj. rewrite lookup_take_Some in Hj. destruct Hj. by apply (H3 j).
    - intros j w Hj Hw Hp. apply H3; [|done]. cbn [app]. apply list_elem_of_lookup. exists j. by rewrite lookup_take_Some. }
  setoid_rewrite Hrules. unfold accepted, validateAdvancedCustomConfig, views.
  destruct (normalizeAdvancedCustomConfig routes) as [rs|e]; cbn [res_bind]; [|split; [done|by intros (? & ? & _)]].
  destruct rs as [|r rs]; [split; [done|by intros (vs & [= <-] & ? & _)]|].
  pose proof (validate_loop_spec newURL (r :: rs) 0 [] _ (initial_inv newURL)) as Hloop.
  transitivity (validate_loop newURL 0 (r :: rs) (None, ∅) = Ok None).
  { destruct (validate_loop newURL 0 (r :: rs) (None, ∅)) as [[]|]; naive_solver. }
  rewrite Hloop. split.
  - intros (vs & Hvs & Hok). exists vs. split_and!; [done| |done]. intros ->. apply length_mapM in Hvs. done.
  - intros (vs & Hvs & _ & Hok). by exists vs.
Qed.

(** ** Normalization is idempotent *)

Lemma or_string_idemp v s : or_string (Some (or_string v s)) s = or_string v s.
Proof.
  unfold or_string. destruct v as [j|]; [destruct (json_truthy j) eqn:E|]; try (by rewrite E); by destruct (json_truthy (JStr s)).
Qed.

Lemma trim_all_names ms : Forall trimmed ms -> trim_all (map JStr ms) = Ok ms.
Proof. induction 1 as [|m ms Hm _ IH]; [done|]. cbn [map trim_all js_trim res_bind]. by rewrite IH, trim_trimmed. Qed.

Lemma trim_all_trimmed items ms : trim_all items = Ok ms -> Forall trimmed ms.
Proof.
  revert ms. induction items as [|v items IH]; intros ms H; cbn [trim_all] in H; [injection H as <-; constructor|].
  apply res_bind_Ok in H as (s & Hs & H). apply res_bind_Ok in H as (rest & Hr & H). injection H as <-.
  constructor; [|by apply IH]. destruct v; try done. injection Hs as <-. apply trim_is_trimmed.
Qed.

Lemma normalized_auth_idemp v : normalized_auth (normalized_auth v) = normalized_auth v.
Proof.
  destruct v as [j|]; [|done]. cbn [normalized_auth]. destruct (json_truthy j); [|done]. cbn [normalized_auth].
  generalize (get "type" j) (or_string_idemp (get "name" j) []) (or_string_idemp (get "value" j) []).
  generalize (or_string (get "name" j) []) (or_string (get "value" j) []). intros n x t Hn Hx.
  assert (forall a, get "type" (auth_json a) = auth_type a /\
    (is_Some (auth_name a) -> get "name" (auth_json a) = auth_name a) /\
    (is_Some (auth_value a) -> get "value" (auth_json a) = auth_value a)) as Hget.
  { intros [[?|] [?|] [?|]]; cbn; by split_and!. }
  destruct (Hget (mkAuthConfig t (Some n) (Some x))) as (H1 & H2 & H3).
  change (json_truthy (auth_json (mkAuthConfig t (Some n) (Some x)))) with true. cbv iota.
  rewrite H1, H2, H3 by (by eexists). cbn [auth_type auth_name auth_value]. by rewrite Hn, Hx.
Qed.

(** Normalizing a normalized configuration changes nothing and does not throw. *)
Theorem route_normalization_stable r r' :
  normalizeAdvancedCustomRoute r = Ok r' -> normalizeAdvancedCustomRoute r' = Ok r'.
Proof.
  unfold normalizeAdvancedCustomRoute. intros H. apply res_bind_Ok in H as (u & Hu & H).
  apply res_bind_Ok in H as (ms & Hms & H). injection H as <-. cbn [route_models incoming_path upstream_path converter route_auth].
  assert (trimmed u) as Ht.
  { unfold getAdvancedCustomRouteUpstreamPath in Hu. destruct (or_string (upstream_path r) []); try done. injection Hu as <-.
    apply trim_is_trimmed. }
  assert (getAdvancedCustomRouteUpstreamPath (mkRoute (Some (or_string (incoming_path r) [])) (Some (JStr u))
            (Some (or_string (converter r) NONE)) (match ms with [] => None | _ => Some (JArr (map JStr ms)) end)
            (normalized_auth (route_auth r))) = Ok u) as ->.
  { unfold getAdvancedCustomRouteUpstreamPath. cbn [upstream_path]. destruct u; [done|]. cbn [or_string json_truthy nonempty].
    cbn [js_trim]. by rewrite trim_trimmed. }
  assert (normalizeAdvancedCustomRouteModels (match ms with [] => None | _ => Some (JArr (map JStr ms)) end) = Ok ms) as ->.
  { assert (Forall trimmed ms /\ Forall (fun m => nonempty m = true) ms) as [Hts Hns].
    { unfold normalizeAdvancedCustomRouteModels in Hms. destruct (route_models r) as [[| | | |items|]|];
        try (injection Hms as <-; split; constructor). apply res_bind_Ok in Hms as (l & Hl & H). injection H as <-.
      apply trim_all_trimmed in Hl. rewrite !Forall_forall in *. split; intros m [Hm Hin]%list_elem_of_filter; [by apply Hl|done]. }
    destruct ms as [|m ms]; [done|]. unfold normalizeAdvancedCustomRouteModels. rewrite trim_all_names by done.
    cbn [res_bind]. by rewrite filter_all. }
  cbn [res_bind]. by rewrite !or_string_idemp, normalized_auth_idemp.
Qed.
