(* ===== verification/ChannelForm.v ===== *)
(** * Channel form (src/apps/web/src/features/channels/lib/channel-form.ts)

    The form of a channel keeps most of its switches in two JSON texts of the channel:
    [setting] (request handling) and [settings] (options of the channel type).  Both are
    read when the form opens and written when it is submitted.

    What is read is whatever [JSON.parse] gives; what is written has passed the schema, so
    that its fields have their types.  Channel types are integers. *)
From S2P Require Import Prelude JsString JsNumber JsNumberPrint JsJson JsJsonPrint AuthSession JsCollections VisualTiers ChannelConfig AdvancedCustom.
From Stdlib Require Import Lia.

(** ** Conversions *)

(** [Number(value)] *)
Definition json_to_number (v : json) : spec_float :=
  match v with
  | JNull => num_zero
  | JBool b => if b then num_of_Z 1 else num_zero
  | JNum n => n
  | JStr s => number_of_string s
  | JArr _ | JObj _ => number_of_string (json_to_string v)
  end.

Definition or_false (v : option json) : json :=
  match v with Some j => if json_truthy j then j else JBool false | None => JBool false end.

Definition is_true (v : option json) : bool := match v with Some (JBool true) => true | _ => false end.

Definition MAX_HTTP2_CONNECTION_SHARDS : spec_float := num_of_Z 8.
Definition HTTP_PROTOCOL_HTTP1 : list N := js "http1".
Definition HTTP_PROTOCOL_AUTO : list N := js "auto".

(** ASCII is enough: no other unit is lowered to one of the letters of http1. *)
Definition normalizeHttpProtocol (value : option json) : list N :=
  let normalized := map lower_ascii (trim (json_to_string (or_string value []))) in
  if bool_decide (normalized = HTTP_PROTOCOL_HTTP1) then HTTP_PROTOCOL_HTTP1 else HTTP_PROTOCOL_AUTO.

Definition one : json := JNum (num_of_Z 1).

(** The comparisons convert their operand. *)
Definition normalizeHttp2ConnectionShards (value : option json) : json :=
  match value with
  | None | Some JNull => one
  | Some v =>
      let missing := match v with JNum n => is_nan n || num_eqb n num_zero | _ => false end in
      if missing then one
      else if num_ltb (json_to_number v) (num_of_Z 1) then one
      else if num_ltb MAX_HTTP2_CONNECTION_SHARDS (json_to_number v) then JNum MAX_HTTP2_CONNECTION_SHARDS
      else v
  end.

(** ** Request handling: [setting] *)

Record ExtraSettings := mkExtra {
  x_force_format : json;
  x_thinking_to_content : json;
  x_proxy : json;
  x_http_protocol : list N;
  x_http2_connection_shards : json;
  x_pass_through_body_enabled : json;
  x_system_prompt : json;
  x_system_prompt_override : json }.

Definition defaultExtra : ExtraSettings :=
  mkExtra (JBool false) (JBool false) (JStr []) HTTP_PROTOCOL_AUTO one (JBool false) (JStr []) (JBool false).

(** Reading properties of [null] throws; of another primitive, all are undefined. *)
Definition extraSettings (setting : list N) : ExtraSettings :=
  if nonempty setting then
    match json_parse setting with
    | None | Some JNull => defaultExtra
    | Some parsed =>
        let protocol := normalizeHttpProtocol (get "http_protocol" parsed) in
        let shards := normalizeHttp2ConnectionShards (get "http2_connection_shards" parsed) in
        mkExtra (or_false (get "force_format" parsed)) (or_false (get "thinking_to_content" parsed))
          (or_string (get "proxy" parsed) []) protocol
          (if bool_decide (protocol = HTTP_PROTOCOL_HTTP1) then one else shards)
          (or_false (get "pass_through_body_enabled" parsed)) (or_string (get "system_prompt" parsed) [])
          (or_false (get "system_prompt_override" parsed))
    end
  else defaultExtra.

Record ExtraForm := mkExtraForm {
  f_force_format : option bool;
  f_thinking_to_content : option bool;
  f_proxy : option (list N);
  f_http_protocol : option (list N);
  f_http2_connection_shards : option spec_float;
  f_pass_through_body_enabled : option bool;
  f_system_prompt : option (list N);
  f_system_prompt_override : option bool }.

Definition form_protocol (f : ExtraForm) : list N := normalizeHttpProtocol (JStr <$> f_http_protocol f).

Definition form_shards (f : ExtraForm) : json :=
  if bool_decide (form_protocol f = HTTP_PROTOCOL_HTTP1) then one
  else normalizeHttp2ConnectionShards (JNum <$> f_http2_connection_shards f).

Definition text_or_empty (t : option (list N)) : list N := default [] t.
Definition flag (b : option bool) : json := JBool (default false b).

Definition setting_members (f : ExtraForm) : list (list N * json) :=
  [(js "force_format", flag (f_force_format f));
   (js "thinking_to_content", flag (f_thinking_to_content f));
   (js "proxy", JStr (trim (text_or_empty (f_proxy f))));
   (js "pass_through_body_enabled", flag (f_pass_through_body_enabled f));
   (js "system_prompt", JStr (text_or_empty (f_system_prompt f)));
   (js "system_prompt_override", flag (f_system_prompt_override f))] ++
  (if bool_decide (form_protocol f = HTTP_PROTOCOL_HTTP1) then [(js "http_protocol", JStr HTTP_PROTOCOL_HTTP1)]
   else if num_ltb (num_of_Z 1) (json_to_number (form_shards f)) then [(js "http2_connection_shards", form_shards f)]
   else []).

Definition buildSettingJSON (f : ExtraForm) : list N := json_stringify (JObj (setting_members f)).

(** ** Options of the type: [settings] *)

Definition isOpenAIChannelType (type : Z) : bool := (type =? 1)%Z || (type =? 61)%Z.

Definition MODEL_FETCHABLE_TYPES : list Z :=
  [1; 4; 14; 17; 20; 23; 24; 25; 26; 27; 31; 34; 35; 40; 42; 43; 47; 48; 57; 58; 59; 60; 61]%Z.

Record TypeForm := mkTypeForm {
  t_type : Z;
  t_settings : option (list N);
  t_vertex_key_type : option (list N);
  t_azure_responses_version : option (list N);
  t_is_enterprise_account : bool;
  t_aws_key_type : option (list N);
  t_allow_service_tier : bool;
  t_disable_store : bool;
  t_allow_safety_identifier : bool;
  t_allow_include_obfuscation : bool;
  t_allow_inference_geo : bool;
  t_allow_speed : bool;
  t_claude_beta_query : bool;
  t_disable_task_polling_sleep : bool;
  t_check_enabled : bool;
  t_auto_sync_enabled : bool;
  t_ignored_models : option (list N);
  t_advanced_custom : option (list N) }.

Fixpoint delete_member (k : list N) (l : list (list N * json)) : list (list N * json) :=
  match l with
  | [] => []
  | kv :: l' => if bool_decide (k = kv.1) then delete_member k l' else kv :: delete_member k l'
  end.

(** [if (cond) obj[k] = v else if (k in obj) delete obj[k]] *)
Definition put (k : string) (cond : bool) (v : json) (l : list (list N * json)) : list (list N * json) :=
  if cond then set_member (js k) v l else delete_member (js k) l.

(** [if (cond) obj[k] = v] *)
Definition put_if (k : string) (cond : bool) (v : json) (l : list (list N * json)) : list (list N * json) :=
  if cond then set_member (js k) v l else l.

(** [text || fallback] *)
Definition text_or (t : option (list N)) (fallback : string) : json :=
  match t with Some ((_ :: _) as s) => JStr s | _ => JStr (js fallback) end.

Definition filled (t : option (list N)) : bool := match t with Some (_ :: _) => true | _ => false end.

Definition fetchable (f : TypeForm) : bool := bool_decide (t_type f ∈ MODEL_FETCHABLE_TYPES).

Definition put_update_flags (f : TypeForm) (l : list (list N * json)) : list (list N * json) :=
  put_if "upstream_model_update_ignored_models" (fetchable f)
    (JArr (map JStr (set_values (parseModelsString (text_or_empty (t_ignored_models f))))))
    (put_if "upstream_model_update_auto_sync_enabled" (fetchable f) (JBool (t_check_enabled f && t_auto_sync_enabled f))
       (put_if "upstream_model_update_check_enabled" (fetchable f) (JBool (t_check_enabled f)) l)).

Definition put_detected (f : TypeForm) (l : list (list N * json)) : list (list N * json) :=
  let detected := match get "upstream_model_update_last_detected_models" (JObj l) with Some (JArr _) => true | _ => false end in
  put_if "upstream_model_update_last_detected_models" (fetchable f && (negb detected || negb (t_check_enabled f))) (JArr []) l.

Definition put_check_time (f : TypeForm) (l : list (list N * json)) : list (list N * json) :=
  let timed := match get "upstream_model_update_last_check_time" (JObj l) with Some (JNum _) => true | _ => false end in
  put_if "upstream_model_update_last_check_time" (fetchable f && negb timed) (JNum num_zero) l.

Definition update_settings (f : TypeForm) (l : list (list N * json)) : list (list N * json) :=
  put_check_time f (put_detected f (put_update_flags f l)).

(** The routes of a configuration as JSON. *)
Definition routes_json (routes : list AdvancedCustomRoute) : json :=
  JObj [(js "advanced_routes", JArr (map (fun r =>
    JObj (omap (fun kv => (fun v => (js kv.1, v)) <$> kv.2)
            [("incoming_path", incoming_path r); ("upstream_path", upstream_path r); ("converter", converter r);
             ("models", route_models r); ("auth", route_auth r)]%string)) routes))].

Definition put_type_options (f : TypeForm) (l : list (list N * json)) : list (list N * json) :=
  let ty := t_type f in
  let l := put "vertex_key_type" (ty =? 41)%Z (text_or (t_vertex_key_type f) "json") l in
  let l := put "azure_responses_version" ((ty =? 3)%Z && filled (t_azure_responses_version f))
             (text_or (t_azure_responses_version f) "") l in
  let l := put "openrouter_enterprise" (ty =? 20)%Z (JBool (t_is_enterprise_account f)) l in
  put "aws_key_type" (ty =? 33)%Z (text_or (t_aws_key_type f) "ak_sk") l.

Definition put_passthrough (f : TypeForm) (l : list (list N * json)) : list (list N * json) :=
  let openai := isOpenAIChannelType (t_type f) in
  let codex := (t_type f =? 57)%Z in
  let claude := (t_type f =? 14)%Z in
  let l := put "allow_service_tier" (openai || claude || codex) (JBool (t_allow_service_tier f)) l in
  let l := put "disable_store" (openai || codex) (JBool (t_disable_store f)) l in
  let l := put "allow_safety_identifier" (openai || codex) (JBool (t_allow_safety_identifier f)) l in
  let l := put "allow_include_obfuscation" (openai || codex) (JBool (t_allow_include_obfuscation f)) l in
  let l := put "allow_inference_geo" (openai || codex || claude) (JBool (t_allow_inference_geo f)) l in
  let l := put "allow_speed" claude (JBool (t_allow_speed f)) l in
  let l := put "claude_beta_query" claude (JBool (t_claude_beta_query f)) l in
  put_if "disable_task_polling_sleep" true (JBool (t_disable_task_polling_sleep f)) l.

Definition put_advanced (f : TypeForm) (l : list (list N * json)) : list (list N * json) :=
  if (t_type f =? CHANNEL_TYPE_ADVANCED_CUSTOM)%Z then
    match parseAdvancedCustomConfig (t_advanced_custom f) with
    | Some routes => set_member (js "advanced_custom") (routes_json routes) l
    | None => l
    end
  else delete_member (js "advanced_custom") l.

Definition settings_members (f : TypeForm) (l : list (list N * json)) : list (list N * json) :=
  put_advanced f (update_settings f (put_passthrough f (put_type_options f l))).

(** An existing text that is not an object: assigning to or searching a primitive throws,
    and the properties of an array are not printed. *)
Definition existing_settings (f : TypeForm) : json :=
  let text := text_or_empty (t_settings f) in
  if nonempty text && negb (bool_decide (text = js "{}")) then default (JObj []) (json_parse text) else JObj [].

Definition buildSettingsJSON (f : TypeForm) : res (list N) :=
  match existing_settings f with
  | JObj l => Ok (json_stringify (JObj (settings_members f l)))
  | JArr items => Ok (json_stringify (JArr items))
  | _ => Throw TypeError
  end.

(** What the form reads; the advanced routes are printed with indentation and left out. *)
Record TypeSettings := mkTypeSettings {
  s_vertex_key_type : json;
  s_azure_responses_version : json;
  s_is_enterprise_account : bool;
  s_aws_key_type : json;
  s_allow_service_tier : bool;
  s_disable_store : bool;
  s_allow_safety_identifier : bool;
  s_allow_include_obfuscation : bool;
  s_allow_inference_geo : bool;
  s_allow_speed : bool;
  s_claude_beta_query : bool;
  s_disable_task_polling_sleep : bool;
  s_check_enabled : bool;
  s_auto_sync_enabled : bool;
  s_ignored_models : list N }.

Definition joined_models (v : option json) : list N :=
  match v with Some (JArr items) => json_to_string (JArr items) | _ => [] end.

Definition typeSettings (parsed : json) : TypeSettings :=
  mkTypeSettings (or_string (get "vertex_key_type" parsed) (js "json")) (or_string (get "azure_responses_version" parsed) [])
    (is_true (get "openrouter_enterprise" parsed)) (or_string (get "aws_key_type" parsed) (js "ak_sk"))
    (is_true (get "allow_service_tier" parsed)) (is_true (get "disable_store" parsed))
    (is_true (get "allow_safety_identifier" parsed)) (is_true (get "allow_include_obfuscation" parsed))
    (is_true (get "allow_inference_geo" parsed)) (is_true (get "allow_speed" parsed))
    (is_true (get "claude_beta_query" parsed)) (is_true (get "disable_task_polling_sleep" parsed))
    (is_true (get "upstream_model_update_check_enabled" parsed))
    (is_true (get "upstream_model_update_auto_sync_enabled" parsed))
    (joined_models (get "upstream_model_update_ignored_models" parsed)).

(** ** Payloads *)

Definition NEWSLASH : N := 47%N.

(** [trim().replace(/\/+$/, '')] *)
Definition normalizeBaseUrl (value : option (list N)) : list N :=
  reverse (drop_while (fun c => (c =? NEWSLASH)%N) (reverse (trim (text_or_empty value)))).

Inductive MultiKeyMode := ModeSingle | ModeBatch | ModeMultiToSingle.

(** The other fields of the form. *)
Record FormValues := mkFormValues {
  c_name : list N;
  c_base_url : option (list N);
  c_key : list N;
  c_openai_organization : option (list N);
  c_models : list N;
  c_group : list (list N);
  c_model_mapping : option (list N);
  c_priority : option spec_float;
  c_weight : option spec_float;
  c_test_model : option (list N);
  c_auto_ban : option spec_float;
  c_status : spec_float;
  c_status_code_mapping : option (list N);
  c_tag : option (list N);
  c_remark : option (list N);
  c_param_override : option (list N);
  c_header_override : option (list N);
  c_other : option (list N);
  c_multi_key_mode : option MultiKeyMode;
  c_multi_key_type : option (list N);
  c_batch_prefix : option bool;
  c_extra : ExtraForm;
  c_options : TypeForm }.

(** [text || null], [number || null], [text || ''] *)
Definition or_null (t : option (list N)) : json := if filled t then JStr (text_or_empty t) else JNull.
Definition num_or_null (n : option spec_float) : json :=
  match n with Some x => if num_truthy x then JNum x else JNull | None => JNull end.
Definition or_empty (t : option (list N)) : json := JStr (text_or_empty t).

(** Empty strings become [null]. *)
Definition clean (kv : list N * json) : list N * json :=
  (kv.1, match kv.2 with JStr [] => JNull | v => v end).

Definition formatGroups (groups : list (list N)) : list N := join [COMMA] groups.

Record CreatePayload := mkCreate {
  create_mode : MultiKeyMode;
  create_multi_key_mode : option (list N);
  create_prefix : option bool;
  create_channel : list (list N * json) }.

Definition create_fields (f : FormValues) (settings : list N) : list (list N * json) :=
  [(js "name", JStr (c_name f)); (js "type", JNum (num_of_Z (t_type (c_options f))));
   (js "base_url", or_null (Some (normalizeBaseUrl (c_base_url f)))); (js "key", JStr (c_key f));
   (js "openai_organization", or_null (c_openai_organization f)); (js "models", JStr (c_models f));
   (js "group", JStr (formatGroups (c_group f))); (js "model_mapping", or_null (c_model_mapping f));
   (js "priority", num_or_null (c_priority f)); (js "weight", num_or_null (c_weight f));
   (js "test_model", or_null (c_test_model f)); (js "auto_ban", JNum (default (num_of_Z 1) (c_auto_ban f)));
   (js "status", JNum (c_status f)); (js "status_code_mapping", or_null (c_status_code_mapping f));
   (js "tag", or_null (c_tag f)); (js "remark", or_empty (c_remark f));
   (js "setting", JStr (buildSettingJSON (c_extra f))); (js "param_override", or_null (c_param_override f));
   (js "header_override", or_null (c_header_override f)); (js "settings", JStr settings);
   (js "other", or_empty (c_other f))].

Definition transformFormDataToCreatePayload (f : FormValues) : res CreatePayload :=
  let mode := default ModeSingle (c_multi_key_mode f) in
  let* settings := buildSettingsJSON (c_options f) in
  Ok (mkCreate mode (match mode with ModeMultiToSingle => c_multi_key_type f | _ => None end)
        (match mode with ModeBatch => c_batch_prefix f | _ => None end) (map clean (create_fields f settings))).

(** The fields sent as empty strings, so that the backend clears them. *)
Definition cleared_fields (f : FormValues) : list (list N * json) :=
  [(js "base_url", JStr (normalizeBaseUrl (c_base_url f))); (js "openai_organization", or_empty (c_openai_organization f));
   (js "test_model", or_empty (c_test_model f)); (js "tag", or_empty (c_tag f)); (js "remark", or_empty (c_remark f));
   (js "model_mapping", or_empty (c_model_mapping f)); (js "status_code_mapping", or_empty (c_status_code_mapping f));
   (js "param_override", or_empty (c_param_override f)); (js "header_override", or_empty (c_header_override f))].

Definition update_fields (f : FormValues) (channelId : spec_float) (settings : list N) : list (list N * json) :=
  [(js "id", JNum channelId); (js "name", JStr (c_name f)); (js "type", JNum (num_of_Z (t_type (c_options f))));
   (js "base_url", or_null (Some (normalizeBaseUrl (c_base_url f))));
   (js "openai_organization", or_null (c_openai_organization f)); (js "models", JStr (c_models f));
   (js "group", JStr (formatGroups (c_group f))); (js "model_mapping", or_null (c_model_mapping f));
   (js "priority", JNum (default num_zero (c_priority f))); (js "weight", JNum (default num_zero (c_weight f)));
   (js "test_model", or_null (c_test_model f)); (js "auto_ban", JNum (default (num_of_Z 1) (c_auto_ban f)));
   (js "status_code_mapping", or_null (c_status_code_mapping f)); (js "tag", or_null (c_tag f));
   (js "remark", or_empty (c_remark f)); (js "setting", JStr (buildSettingJSON (c_extra f)));
   (js "param_override", or_null (c_param_override f)); (js "header_override", or_null (c_header_override f));
   (js "settings", JStr settings); (js "other", or_empty (c_other f))].

Definition transformFormDataToUpdatePayload (f : FormValues) (channelId : spec_float) : res (list (list N * json)) :=
  let* settings := buildSettingsJSON (c_options f) in
  let payload := update_fields f channelId settings in
  let keyed := if nonempty (c_key f) && nonempty (trim (c_key f)) then set_member (js "key") (JStr (c_key f)) payload else payload in
  Ok (fold_left (fun l kv => set_member kv.1 kv.2 l) (cleared_fields f) (map clean keyed)).

(** ** Properties of written objects *)

Definition prop (k : list N) (l : list (list N * json)) : option json :=
  list_find (fun m => m.1 = k) l ≫= fun im => Some im.2.2.

Lemma get_prop k l : get k (JObj l) = prop (js k) l.
Proof. done. Qed.

Lemma prop_cons k kv l : prop k (kv :: l) = if decide (kv.1 = k) then Some kv.2 else prop k l.
Proof.
  unfold prop. cbn [list_find]. destruct (decide (kv.1 = k)); [done|]. by destruct (list_find _ l) as [[]|].
Qed.

Lemma prop_set k k' v l : prop k (set_member k' v l) = if decide (k' = k) then Some v else prop k l.
Proof.
  induction l as [|[k0 v0] l IH]; cbn [set_member]; [by rewrite prop_cons|].
  case_bool_decide as E; rewrite !prop_cons; cbn [fst snd].
  - subst. by destruct (decide (k0 = k)).
  - rewrite IH. destruct (decide (k0 = k)), (decide (k' = k)); congruence.
Qed.

Lemma prop_delete k k' l : prop k (delete_member k' l) = if decide (k' = k) then None else prop k l.
Proof.
  induction l as [|[k0 v0] l IH]; cbn [delete_member]; [by destruct (decide (k' = k))|].
  case_bool_decide as E; cbn [fst] in E; rewrite ?prop_cons; cbn [fst snd]; rewrite IH.
  - subst. by destruct (decide (k0 = k)).
  - destruct (decide (k0 = k)), (decide (k' = k)); congruence.
Qed.

Lemma prop_put k k' c v l : prop k (put k' c v l) = if decide (js k' = k) then (if c then Some v else None) else prop k l.
Proof. unfold put. destruct c; [apply prop_set|apply prop_delete]. Qed.

Lemma prop_put_if k k' c v l : prop k (put_if k' c v l) = if decide (js k' = k) then (if c then Some v else prop k l) else prop k l.
Proof. unfold put_if. destruct c; [apply prop_set|by destruct (decide (js k' = k))]. Qed.

(** Names as strings, compared by evaluation. *)
Lemma named_put k k' c v l :
  prop (js k) (put k' c v l) = if String.eqb k' k then (if c then Some v else None) else prop (js k) l.
Proof.
  rewrite prop_put. destruct (String.eqb_spec k' k) as [->|H]; [by rewrite decide_True|].
  rewrite decide_False; [done|]. by intros ?%js_inj.
Qed.

Lemma named_put_if k k' c v l :
  prop (js k) (put_if k' c v l) = if String.eqb k' k then (if c then Some v else prop (js k) l) else prop (js k) l.
Proof.
  rewrite prop_put_if. destruct (String.eqb_spec k' k) as [->|H]; [by rewrite decide_True|].
  rewrite decide_False; [done|]. by intros ?%js_inj.
Qed.

Lemma named_cons k k' v l : prop (js k) ((js k', v) :: l) = if String.eqb k' k then Some v else prop (js k) l.
Proof.
  rewrite prop_cons. cbn [fst snd]. destruct (String.eqb_spec k' k) as [->|H]; [by rewrite decide_True|].
  rewrite decide_False; [done|]. by intros ?%js_inj.
Qed.

(** Evaluates a property of a chain of writes with constant names. *)
Ltac props :=
  rewrite ?named_put_if, ?named_put; cbn [String.eqb Ascii.eqb Bool.eqb].

(** The names this form owns. *)
Definition managed : list (list N) :=
  map js ["vertex_key_type"; "azure_responses_version"; "openrouter_enterprise"; "aws_key_type"; "allow_service_tier";
          "disable_store"; "allow_safety_identifier"; "allow_include_obfuscation"; "allow_inference_geo"; "allow_speed";
          "claude_beta_query"; "disable_task_polling_sleep"; "upstream_model_update_check_enabled";
          "upstream_model_update_auto_sync_enabled"; "upstream_model_update_ignored_models";
          "upstream_model_update_last_detected_models"; "upstream_model_update_last_check_time"; "advanced_custom"]%string.

Lemma prop_advanced k f l : k <> js "advanced_custom" -> prop k (put_advanced f l) = prop k l.
Proof.
  intros Hk. unfold put_advanced. destruct (_ =? _)%Z; [destruct (parseAdvancedCustomConfig _); [|done]|];
    rewrite ?prop_set, ?prop_delete; by rewrite decide_False.
Qed.

Lemma prop_update k f l :
  k <> js "upstream_model_update_last_detected_models" -> k <> js "upstream_model_update_last_check_time" ->
  prop k (update_settings f l) = prop k (put_update_flags f l).
Proof.
  intros H1 H2. unfold update_settings, put_check_time. rewrite prop_put_if, decide_False by done.
  unfold put_detected. by rewrite prop_put_if, decide_False.
Qed.

(** Properties of an administrator's own survive. *)
Lemma settings_unmanaged f l k : k ∉ managed -> prop k (settings_members f l) = prop k l.
Proof.
  intros Hk. assert (forall n : string, bool_decide (js n ∈ managed) = true -> js n <> k) as Hne
    by (intros n Hn%bool_decide_eq_true <-; done).
  unfold settings_members. rewrite prop_advanced by (symmetry; by apply Hne).
  rewrite prop_update by (symmetry; by apply Hne). unfold put_update_flags, put_passthrough, put_type_options.
  rewrite !prop_put_if, !prop_put. by rewrite !decide_False by (by apply Hne).
Qed.

(** ** What is written is read back *)

(** The options as the form shows them next time: those of other types are at their
    defaults, and the update options of types without a model list are the stored ones. *)
Definition options_shown (f : TypeForm) (l : list (list N * json)) : TypeSettings :=
  let ty := t_type f in
  let openai := isOpenAIChannelType ty in
  let codex := (ty =? 57)%Z in
  let claude := (ty =? 14)%Z in
  mkTypeSettings
    (if (ty =? 41)%Z then text_or (t_vertex_key_type f) "json" else JStr (js "json"))
    (if (ty =? 3)%Z then text_or (t_azure_responses_version f) "" else JStr [])
    ((ty =? 20)%Z && t_is_enterprise_account f)
    (if (ty =? 33)%Z then text_or (t_aws_key_type f) "ak_sk" else JStr (js "ak_sk"))
    ((openai || claude || codex) && t_allow_service_tier f)
    ((openai || codex) && t_disable_store f)
    ((openai || codex) && t_allow_safety_identifier f)
    ((openai || codex) && t_allow_include_obfuscation f)
    ((openai || codex || claude) && t_allow_inference_geo f)
    (claude && t_allow_speed f) (claude && t_claude_beta_query f) (t_disable_task_polling_sleep f)
    (if fetchable f then t_check_enabled f else is_true (prop (js "upstream_model_update_check_enabled") l))
    (if fetchable f then t_check_enabled f && t_auto_sync_enabled f
     else is_true (prop (js "upstream_model_update_auto_sync_enabled") l))
    (if fetchable f then formatModelsArray (parseModelsString (text_or_empty (t_ignored_models f)))
     else joined_models (prop (js "upstream_model_update_ignored_models") l)).

Lemma is_true_if (c b : bool) : is_true (if c then Some (JBool b) else None) = c && b.
Proof. by destruct c, b. Qed.

Lemma or_string_text (c : bool) t d :
  or_string (if c then Some (text_or t d) else None) (js d) = if c then text_or t d else JStr (js d).
Proof.
  assert (or_string (Some (JStr (js d))) (js d) = JStr (js d)) as Hd by (cbn; by destruct (nonempty (js d))).
  destruct c; [|done]. by destruct t as [[|c0 s]|].
Qed.

Lemma joined_strings ms : joined_models (Some (JArr (map JStr ms))) = join [COMMA] ms.
Proof.
  cbn [joined_models json_to_string]. rewrite map_map. change (js ",") with [COMMA]. f_equal. apply map_id.
Qed.

Lemma type_options_shown f l : typeSettings (JObj (settings_members f l)) = options_shown f l.
Proof.
  assert (forall k, bool_decide (js k = js "advanced_custom") = false ->
    bool_decide (js k = js "upstream_model_update_last_detected_models") = false ->
    bool_decide (js k = js "upstream_model_update_last_check_time") = false ->
    get k (JObj (settings_members f l)) = prop (js k) (put_update_flags f (put_passthrough f (put_type_options f l)))) as Hget.
  { intros k H1 H2 H3. rewrite get_prop. unfold settings_members. breflect. by rewrite prop_advanced, prop_update. }
  unfold typeSettings. rewrite !Hget by (by vm_compute). unfold put_update_flags, put_passthrough, put_type_options, options_shown.
  f_equal; props; rewrite ?is_true_if; try done.
  - apply or_string_text.
  - change (@nil N) with (js ""). rewrite or_string_text.
    destruct (t_type f =? 3)%Z; [|done]. by destruct (t_azure_responses_version f) as [[]|].
  - apply or_string_text.
  - by destruct (t_disable_task_polling_sleep f).
  - destruct (fetchable f); [|done]. by destruct (t_check_enabled f).
  - destruct (fetchable f); [|done]. by destruct (_ && _).
  - destruct (fetchable f); [apply joined_strings|done].
Qed.

(** The request handling as the form shows it next time. *)
Definition extra_shown (f : ExtraForm) : ExtraSettings :=
  mkExtra (flag (f_force_format f)) (flag (f_thinking_to_content f)) (JStr (trim (text_or_empty (f_proxy f))))
    (form_protocol f) (if num_ltb (num_of_Z 1) (json_to_number (form_shards f)) then form_shards f else one)
    (flag (f_pass_through_body_enabled f)) (JStr (text_or_empty (f_system_prompt f))) (flag (f_system_prompt_override f)).

Lemma or_false_flag b : or_false (Some (flag b)) = flag b.
Proof. by destruct b as [[]|]. Qed.

Lemma or_string_JStr s : or_string (Some (JStr s)) [] = JStr s.
Proof. by destruct s. Qed.

Lemma protocol_values v : normalizeHttpProtocol v = HTTP_PROTOCOL_HTTP1 \/ normalizeHttpProtocol v = HTTP_PROTOCOL_AUTO.
Proof. unfold normalizeHttpProtocol. case_bool_decide; auto. Qed.

(** Shards above one are read as they were written. *)
Lemma shards_stable o :
  num_ltb (num_of_Z 1) (json_to_number (normalizeHttp2ConnectionShards (JNum <$> o))) = true ->
  normalizeHttp2ConnectionShards (Some (normalizeHttp2ConnectionShards (JNum <$> o))) =
  normalizeHttp2ConnectionShards (JNum <$> o).
Proof.
  destruct o as [n|]; [|by vm_compute]. cbn [fmap option_fmap option_map normalizeHttp2ConnectionShards json_to_number].
  destruct (is_nan n || num_eqb n num_zero) eqn:E1; [by vm_compute|].
  destruct (num_ltb n (num_of_Z 1)) eqn:E2; [by vm_compute|].
  destruct (num_ltb MAX_HTTP2_CONNECTION_SHARDS n) eqn:E3; [by vm_compute|]. intros _. unfold normalizeHttp2ConnectionShards. rewrite E1. cbn [json_to_number]. by rewrite E2, E3.
Qed.

Lemma setting_wf f :
  unitsb (trim (text_or_empty (f_proxy f))) = true -> unitsb (text_or_empty (f_system_prompt f)) = true ->
  json_wf (form_shards f) = true -> json_wf (JObj (setting_members f)) = true.
Proof.
  intros Hp Hs Hn. unfold setting_members.
  assert (forall l, l = [] \/ l = [(js "http_protocol", JStr HTTP_PROTOCOL_HTTP1)] \/
                    l = [(js "http2_connection_shards", form_shards f)] ->
    json_wf (JObj ([(js "force_format", flag (f_force_format f)); (js "thinking_to_content", flag (f_thinking_to_content f));
      (js "proxy", JStr (trim (text_or_empty (f_proxy f)))); (js "pass_through_body_enabled", flag (f_pass_through_body_enabled f));
      (js "system_prompt", JStr (text_or_empty (f_system_prompt f))); (js "system_prompt_override", flag (f_system_prompt_override f))] ++ l)) = true) as H.
  { intros l Hl. cbn [json_wf]. apply andb_true_iff. split.
    - rewrite map_app. cbn [map fst]. by destruct Hl as [->|[->| ->]]; vm_compute.
    - rewrite forallb_app. cbn [forallb flag json_wf]. rewrite Hp, Hs.
      by destruct Hl as [->|[->| ->]]; cbn [forallb]; rewrite ?Hn; vm_compute. }
  apply H. case_bool_decide; [by auto|]. destruct (num_ltb _ _); auto.
Qed.

Lemma extra_read_back f :
  unitsb (trim (text_or_empty (f_proxy f))) = true -> unitsb (text_or_empty (f_system_prompt f)) = true ->
  json_wf (form_shards f) = true -> extraSettings (buildSettingJSON f) = extra_shown f.
Proof.
  intros Hp Hs Hn. unfold extraSettings, buildSettingJSON.
  assert (nonempty (json_stringify (JObj (setting_members f))) = true) as -> by done.
  rewrite json_roundtrip by (by apply setting_wf). unfold extra_shown, setting_members, form_shards in *.
  destruct (protocol_values (JStr <$> f_http_protocol f)) as [E|E]; unfold form_protocol; rewrite E.
  - rewrite bool_decide_eq_true_2 by done. cbn [app]. rewrite !get_prop, !named_cons. cbn [String.eqb Ascii.eqb Bool.eqb].
    rewrite !or_false_flag, !or_string_JStr. by f_equal.
  - rewrite bool_decide_eq_false_2 by done. destruct (num_ltb _ _) eqn:El; cbn [app]; rewrite !get_prop, !named_cons;
      cbn [String.eqb Ascii.eqb Bool.eqb]; rewrite !or_false_flag, !or_string_JStr; f_equal; try done.
    change (normalizeHttpProtocol (prop (js "http_protocol") [])) with HTTP_PROTOCOL_AUTO.
    rewrite bool_decide_eq_false_2 by done. by apply shards_stable.
Qed.

(** The two texts a form writes are read back: request handling as it was entered
    (the proxy trimmed, shards between one and eight, none with HTTP/1), and the options
    of the channel type, where options of other types are at their defaults; the
    properties the form does not know are kept. *)
Theorem channel_settings_read_back (x : ExtraForm) (f : TypeForm) (l : list (list N * json)) :
  unitsb (trim (text_or_empty (f_proxy x))) = true -> unitsb (text_or_empty (f_system_prompt x)) = true ->
  json_wf (form_shards x) = true ->
  existing_settings f = JObj l -> json_wf (JObj (settings_members f l)) = true ->
  extraSettings (buildSettingJSON x) = extra_shown x /\
  exists text l', buildSettingsJSON f = Ok text /\ json_parse text = Some (JObj l') /\
    typeSettings (JObj l') = options_shown f l /\ forall k, k ∉ managed -> prop k l' = prop k l.
Proof.
  intros Hp Hs Hn He Hw. split; [by apply extra_read_back|].
  exists (json_stringify (JObj (settings_members f l))), (settings_members f l). unfold buildSettingsJSON. rewrite He.
  split_and!; [done|by apply json_roundtrip|apply type_options_shown|intros k; apply settings_unmanaged].
Qed.

Definition sample_extra : ExtraForm :=
  mkExtraForm (Some true) None (Some (js " socks5://proxy ")) (Some (js "auto")) (Some (num_of_Z 4)) None (Some (js "Be brief")) None.

Definition sample_type : TypeForm :=
  mkTypeForm 14 (Some (json_quotes (js "{'note':'mine','vertex_key_type':'api_key','allow_speed':false}"))) (Some (js "json")) None
    false None true true false false true true false true true true (Some (js "a, b,a")) None.

Lemma channel_settings_read_back_witness :
  extraSettings (buildSettingJSON sample_extra) = extra_shown sample_extra /\
  exists text l', buildSettingsJSON sample_type = Ok text /\ json_parse text = Some (JObj l') /\
    prop (js "note") l' = Some (JStr (js "mine")).
Proof.
  destruct (channel_settings_read_back sample_extra sample_type
              [(js "note", JStr (js "mine")); (js "vertex_key_type", JStr (js "api_key")); (js "allow_speed", JBool false)])
    as (H & text & l' & H1 & H2 & _ & H3); [vm_compute; reflexivity..|].
  split; [exact H|]. exists text, l'. split; [exact H1|]. split; [exact H2|].
  rewrite H3; [vm_compute; reflexivity|]. apply (bool_decide_unpack _). vm_compute. exact I.
Defined.

(** ** What is sent *)

Lemma Ok_inj {A} (a b : A) : Ok a = Ok b -> a = b.
Proof. congruence. Qed.

Lemma clean_not_empty kv : (clean kv).2 <> JStr [].
Proof. destruct kv as [k [| | |[|]| |]]; by cbn. Qed.

Lemma elem_of_set_member k v l kv : kv ∈ set_member k v l -> kv = (k, v) \/ kv ∈ l.
Proof.
  induction l as [|[k0 v0] l IH]; cbn [set_member]; [by intros ->%list_elem_of_singleton; left|].
  case_bool_decide; rewrite !elem_of_cons; naive_solver.
Qed.

Lemma elem_of_set_all ms l kv : kv ∈ fold_left (fun l kv => set_member kv.1 kv.2 l) ms l -> kv ∈ ms \/ kv ∈ l.
Proof.
  revert l. induction ms as [|[k v] ms IH]; intros l; [by right|]. cbn [fold_left fst snd]. intros [H|H]%IH.
  - left. by right.
  - apply elem_of_set_member in H as [->|H]; [left; left|by right].
Qed.

(** A new channel is sent without empty strings.  A changed one carries its key only if one
    was entered, and an empty string only for the nine fields that it clears. *)
Theorem payloads_sent f id :
  (forall p kv, transformFormDataToCreatePayload f = Ok p -> kv ∈ create_channel p -> kv.2 <> JStr []) /\
  (forall p, transformFormDataToUpdatePayload f id = Ok p ->
    prop (js "key") p = (if nonempty (trim (c_key f)) then Some (JStr (c_key f)) else None) /\
    forall kv, kv ∈ p -> kv.2 = JStr [] -> kv.1 ∈ map fst (cleared_fields f)).
Proof.
  split.
  - intros p kv H. unfold transformFormDataToCreatePayload in H. apply res_bind_Ok in H as (s & _ & H). apply Ok_inj in H. subst p.
    cbn [create_channel]. intros (x & <- & _)%list_elem_of_In%in_map_iff. apply clean_not_empty.
  - intros p H. unfold transformFormDataToUpdatePayload in H. apply res_bind_Ok in H as (s & _ & H). apply Ok_inj in H. subst p. split.
    + assert (forall l, prop (js "key") (fold_left (fun l kv => set_member kv.1 kv.2 l) (cleared_fields f) l) = prop (js "key") l) as ->.
      { intros l. cbn [cleared_fields fold_left fst snd]. rewrite !prop_set. by rewrite !decide_False by (by vm_compute). }
      assert (forall k l, prop k (map clean l) = (fun v => (clean (k, v)).2) <$> prop k l) as ->.
      { intros k l. induction l as [|[k0 v] l IH]; [done|]. cbn [map]. rewrite !prop_cons, IH. cbn [clean fst snd].
        by destruct (decide (k0 = k)). }
      assert (prop (js "key") (update_fields f id s) = None) as Hu
        by (unfold update_fields; rewrite !named_cons; cbn [String.eqb Ascii.eqb Bool.eqb]; done).
      destruct (nonempty (trim (c_key f))) eqn:Et; [|by rewrite andb_false_r, Hu].
      destruct (c_key f) as [|c0 key] eqn:Ek; [done|]. cbn [nonempty andb]. by rewrite prop_set, decide_True.
    + intros kv [Hin|Hin]%elem_of_set_all Hv; [apply list_elem_of_In, in_map; by apply list_elem_of_In|].
      apply list_elem_of_In, in_map_iff in Hin as (x & <- & _). by apply clean_not_empty in Hv.
Qed.
