(* ===== verification/ChannelSchema.v ===== *)
(** * Schema of the channel form (src/apps/web/src/features/channels/lib/channel-form.ts)

    The refinements of [channelFormSchema]: tests of the JSON fields, and the conditions
    between fields ([superRefine]).  They run before the submit handler of
    [ChannelConfig], which tests some of the same fields again. *)
From S2P Require Import Prelude JsString JsNumber JsJson AuthSession JsCollections VisualTiers ChannelConfig ExternalUrls AdvancedCustom ChannelForm.
From Stdlib Require Import Lia.

(** ** Tests of one field *)

(** [undefined] for a blank text; [None] when [JSON.parse] throws. *)
Definition parseOptionalJson (value : option (list N)) : option (option json) :=
  let text := text_or_empty value in
  if nonempty (trim text) then Some <$> json_parse text else Some None.

Definition isJsonObjectValue (v : json) : bool := match v with JObj _ => true | _ => false end.

Definition optional_test (test : json -> bool) (value : option (list N)) : bool :=
  match parseOptionalJson value with
  | None => false
  | Some None => true
  | Some (Some v) => test v
  end.

Definition isOptionalJsonObject (value : option (list N)) : bool := optional_test isJsonObjectValue value.

Definition isOptionalModelMapping (value : option (list N)) : bool :=
  optional_test (fun v => match v with JObj l => forallb (fun kv => is_text kv.2) (object_entries l) | _ => false end) value.

Definition status_code_pair (kv : list N * json) : bool :=
  let fromCode := number_of_string kv.1 in
  let toCode := json_to_number kv.2 in
  is_integer fromCode && is_integer toCode && in_code_range fromCode && in_code_range toCode.

Definition isOptionalStatusCodeMapping (value : option (list N)) : bool :=
  optional_test (fun v => match v with JObj l => forallb status_code_pair (object_entries l) | _ => false end) value.

Definition nonblank_text (v : option json) : bool := match v with Some (JStr s) => nonempty (trim s) | _ => false end.

Definition isCodexCredential (value : option (list N)) : bool :=
  optional_test (fun v => isJsonObjectValue v && nonblank_text (get "access_token" v) && nonblank_text (get "account_id" v)) value.

Definition isVertexJsonKey (value : option (list N)) : bool :=
  optional_test (fun v => match v with JArr items => forallb isJsonObjectValue items | _ => isJsonObjectValue v end) value.

(** ** Conditions between fields *)

Definition CHANNEL_TYPE_NEW_API : Z := 60.

Record Issue := mkIssue { issue_path : string; issue_message : string }.

Definition issue_if (cond : bool) (path message : string) : list Issue := if cond then [mkIssue path message] else [].

Definition blank (t : option (list N)) : bool := negb (nonempty (trim (text_or_empty t))).

Definition batch_mode (f : FormValues) : bool :=
  match c_multi_key_mode f with None | Some ModeSingle => false | Some _ => true end.

Definition text_is (t : option (list N)) (s : string) : bool := bool_decide (t = Some (js s)).

Section Refine.
Context (newURL : list N -> option (list N) -> option URL).

Definition SUPPORTED_PROXY_PROTOCOLS : list (list N) := [js "http:"; js "https:"; js "socks5:"; js "socks5h:"].

(** What stands before and after the first [://]. *)
Fixpoint split_scheme (s : list N) : option (list N * list N) :=
  if starts_with (js "://") s then Some ([], drop 3 s)
  else match s with [] => None | c :: s' => (fun ab => (c :: ab.1, ab.2)) <$> split_scheme s' end.

Definition in_authority (c : N) : bool := negb (bool_decide (c ∈ js "/?#")).

Definition isOptionalProxyURL (value : option (list N)) : bool :=
  let trimmedValue := trim (text_or_empty value) in
  if negb (nonempty trimmedValue) then true
  else
    match split_scheme trimmedValue with
    | None | Some ([], _) => false
    | Some (_, authorityAndSuffix) =>
        let suffix := (span in_authority authorityAndSuffix).2 in
        if nonempty suffix && negb (bool_decide (suffix = js "/")) then false
        else
          match newURL trimmedValue None with
          | None => false
          | Some parsedURL =>
              bool_decide (protocol parsedURL ∈ SUPPORTED_PROXY_PROTOCOLS) && nonempty (hostname parsedURL) &&
              negb (bool_decide (port parsedURL = js "0"))
          end
    end.

(** The tests the schema attaches to the single fields that reach the payloads. *)
Definition field_refinements (f : FormValues) : bool :=
  isOptionalModelMapping (c_model_mapping f) && isOptionalStatusCodeMapping (c_status_code_mapping f) &&
  isOptionalJsonObject (c_param_override f) && isOptionalJsonObject (c_header_override f) &&
  isOptionalJsonObject (t_settings (c_options f)) && isOptionalProxyURL (f_proxy (c_extra f)).

Definition advanced_issues (f : FormValues) : res (list Issue) :=
  let o := c_options f in
  if negb (t_type o =? CHANNEL_TYPE_ADVANCED_CUSTOM)%Z then Ok []
  else
    let config := parseAdvancedCustomConfig (t_advanced_custom o) in
    let* error := validateAdvancedCustomConfig newURL config in
    let* relative := advancedCustomConfigUsesRelativeUpstreamPath config in
    let* listed := if t_check_enabled o then hasValidAdvancedCustomModelListRoute newURL config else Ok true in
    Ok (match error with Some e => [mkIssue "advanced_custom" (invalid_message e)] | None => [] end ++
        issue_if (relative && blank (c_base_url f)) "base_url"
          "Base URL is required when an advanced route uses an upstream path" ++
        issue_if (t_check_enabled o && negb listed) "upstream_model_update_check_enabled"
          "OpenAI Models route is required to enable upstream model checks").

Definition shards_issues (x : ExtraForm) : list Issue :=
  let shards := default (num_of_Z 1) (f_http2_connection_shards x) in
  issue_if (num_ltb shards (num_of_Z 1) || num_ltb MAX_HTTP2_CONNECTION_SHARDS shards) "http2_connection_shards"
    "HTTP/2 connection shards must be between 1 and 8" ++
  issue_if (bool_decide (form_protocol x = HTTP_PROTOCOL_HTTP1) && num_ltb (num_of_Z 1) shards) "http2_connection_shards"
    "HTTP/2 connection shards must be 1 when HTTP/1.1 is selected".

Definition superRefine (f : FormValues) : res (list Issue) :=
  let o := c_options f in
  let ty := t_type o in
  let* advanced := advanced_issues f in
  Ok (issue_if (bool_decide (ty ∈ [3; 8; 36; 45; CHANNEL_TYPE_NEW_API]%Z) && blank (c_base_url f)) "base_url"
        "Base URL is required for this channel type" ++
      advanced ++
      issue_if (bool_decide (ty ∈ [3; 18; 21; 39; 41; 49]%Z) && blank (c_other f)) "other"
        "This channel type requires additional configuration" ++
      issue_if ((ty =? 57)%Z && batch_mode f) "multi_key_mode" "Codex channels do not support batch creation" ++
      issue_if ((ty =? 57)%Z && negb (blank (Some (c_key f))) && negb (isCodexCredential (Some (c_key f)))) "key"
        "Codex credential must be a JSON object with access_token and account_id" ++
      issue_if ((ty =? 41)%Z && text_is (t_vertex_key_type o) "json" && negb (blank (Some (c_key f))) &&
                negb (isVertexJsonKey (Some (c_key f)))) "key" "Vertex AI service account key must be valid JSON" ++
      issue_if ((ty =? 41)%Z && text_is (t_vertex_key_type o) "api_key" && batch_mode f) "multi_key_mode"
        "Vertex AI API Key mode does not support batch creation" ++
      shards_issues (c_extra f)).

End Refine.

(** ** The two checks of a mapping agree *)

Lemma forallb_entries {A} (test : list N * A -> bool) l :
  forallb test (object_entries l) = true <-> forall kv, kv ∈ l -> test kv = true.
Proof.
  rewrite forallb_forall. split; intros H kv Hkv; apply H.
  - apply list_elem_of_In. by apply elem_of_object_entries.
  - by apply elem_of_object_entries, list_elem_of_In.
Qed.

(** The schema accepts a model mapping exactly if the submit handler does. *)
Theorem model_mapping_checks_agree value :
  isOptionalModelMapping value = true <-> validateModelMappingJson (text_or_empty value) = Valid.
Proof.
  unfold isOptionalModelMapping, optional_test, parseOptionalJson, validateModelMappingJson.
  set (text := text_or_empty value). assert (nonempty text = false -> nonempty (trim text) = false) as He by (by destruct text).
  destruct (nonempty (trim text)) eqn:Et; [|by rewrite orb_true_r].
  destruct (nonempty text); [|by specialize (He eq_refl)]. cbn [negb orb].
  destruct (json_parse text) as [[| | | | |l]|]; try done. cbn [fmap option_fmap option_map].
  assert (existsb (fun kv => negb (is_text kv.2)) (object_entries l) = negb (forallb (fun kv => is_text kv.2) (object_entries l))) as ->.
  { induction (object_entries l) as [|kv r IH]; [done|]. cbn [existsb forallb]. rewrite IH. by destruct (is_text kv.2). }
  by destruct (forallb _ _).
Qed.

Definition digits10 : list N := [48; 49; 50; 51; 52; 53; 54; 55; 56; 57]%N.

(** [Number] reads every code of three digits as an integer in range. *)
Lemma code_numbers :
  forallb (fun a => forallb (fun b => forallb (fun c =>
    is_integer (number_of_string [a; b; c]) && in_code_range (number_of_string [a; b; c])) digits10) digits10)
    [49; 50; 51; 52; 53]%N = true.
Proof. vm_compute. reflexivity. Qed.

Lemma number_of_trim s : number_of_string s = number_of_string (trim s).
Proof. unfold number_of_string. by rewrite trim_idemp. Qed.

Lemma digit_in c : is_digit c = true -> In c digits10.
Proof.
  intros H%is_digit_spec. unfold digits10. simpl. lia.
Qed.

Lemma three_digits_number s n :
  three_digits (trim s) = Some n -> is_integer (number_of_string s) = true /\ in_code_range (number_of_string s) = true.
Proof.
  rewrite number_of_trim. unfold three_digits. destruct (trim s) as [|a [|b [|c [|]]]]; try done.
  destruct (((49 <=? a) && (a <=? 53))%N && is_digit b && is_digit c) eqn:E; [|done]. intros _. breflect.
  pose proof (proj1 (forallb_forall _ _) code_numbers a) as Ha. cbv beta in Ha.
  assert (In a [49; 50; 51; 52; 53]%N) as Hin by (simpl; lia).
  pose proof (proj1 (forallb_forall _ _) (Ha Hin) b (digit_in b ltac:(done))) as Hb. cbv beta in Hb.
  pose proof (proj1 (forallb_forall _ _) Hb c (digit_in c ltac:(done))) as Hc. cbv beta in Hc. by breflect.
Qed.

(** A status code mapping the submit handler finds no fault with is one the schema accepts;
    the schema also accepts numerals such as 5e2 and values such as [404]. *)
Theorem status_code_checks_ordered text l :
  json_parse text = Some (JObj l) -> collectInvalidStatusCodeEntries text = [] ->
  isOptionalStatusCodeMapping (Some text) = true.
Proof.
  intros Hp Hi. unfold isOptionalStatusCodeMapping, optional_test, parseOptionalJson.
  change (text_or_empty (Some text)) with text.
  destruct (nonempty (trim text)) eqn:Et; [|done]. rewrite Hp. cbn [fmap option_fmap option_map].
  apply forallb_entries. intros [k v] Hkv. unfold collectInvalidStatusCodeEntries, parseStatusCodeMapping in Hi.
  rewrite Et in Hi. unfold parsed_object in Hi. rewrite Hp in Hi. cbn [default] in Hi.
  pose proof (omap_nil _ _ (k, v) Hi ltac:(by apply elem_of_object_entries)) as Hv. unfold invalid_entry in Hv. cbn [fst snd] in Hv.
  unfold status_code_pair. cbn [fst snd]. unfold parseStatusCodeKey in Hv.
  destruct (three_digits (trim k)) as [n|] eqn:Ek; [|done]. destruct (three_digits_number k n Ek) as [-> ->].
  destruct (parseStatusCodeMappingTarget v) as [m|] eqn:Ev; [|done]. destruct v as [| |x|t| |]; try done; cbn [json_to_number].
  - cbn [parseStatusCodeMappingTarget] in Ev. destruct (_ && in_code_range x) eqn:E; [|done]. breflect.
    unfold is_integer. by repeat match goal with H : _ = true |- _ => rewrite H end.
  - cbn [parseStatusCodeMappingTarget] in Ev. destruct (three_digits (trim t)) as [c|] eqn:Et'; [|done].
    by destruct (three_digits_number t c Et') as [-> ->].
Qed.

(** The numerals the two tests differ on. *)
Example status_code_checks_differ :
  map (fun s => (isOptionalStatusCodeMapping (Some (json_quotes (js s))),
                 length (collectInvalidStatusCodeEntries (json_quotes (js s)))))
    ["{'404':200}"; "{'5e2':404}"; "{'500':[404]}"; "{'600':1}"]%string = [(true, 0); (true, 1); (true, 1); (false, 1)].
Proof. by vm_compute. Qed.

(** ** What the conditions give *)

(** A form without issues whose shards are a number keeps them when it is written, and an
    advanced channel without issues has a configuration the validator accepts. *)
Theorem refined_form newURL f :
  superRefine newURL f = Ok [] ->
  (form_shards (c_extra f) = JNum (default (num_of_Z 1) (f_http2_connection_shards (c_extra f))) \/
   form_shards (c_extra f) = one) /\
  (t_type (c_options f) = CHANNEL_TYPE_ADVANCED_CUSTOM ->
    let config := parseAdvancedCustomConfig (t_advanced_custom (c_options f)) in
    accepted newURL config = true /\
    (advancedCustomConfigUsesRelativeUpstreamPath config = Ok true -> blank (c_base_url f) = false)).
Proof.
  intros H. unfold superRefine in H. apply res_bind_Ok in H as (adv & Hadv & H). apply Ok_inj in H.
  unfold shards_issues in H.
  repeat match goal with H : _ ++ _ = [] |- _ => apply app_eq_nil in H; destruct H end. subst adv.
  split.
  - match goal with H : issue_if (num_ltb _ _ || _) _ _ = [] |- _ => rename H into Hs end.
    unfold issue_if in Hs. destruct (num_ltb _ _ || _) eqn:E; [done|]. apply orb_false_iff in E as [E1 E2].
    unfold form_shards. case_bool_decide; [by right|]. destruct (f_http2_connection_shards (c_extra f)) as [n|]; [|by left].
    cbn [fmap option_fmap option_map default] in *. unfold normalizeHttp2ConnectionShards.
    destruct (is_nan n || num_eqb n num_zero); [by right|]. cbn [json_to_number]. unfold id in *. rewrite E1, E2. by left.
  - intros Ht. cbv zeta. unfold advanced_issues in Hadv. rewrite Ht, Z.eqb_refl in Hadv. cbn [negb] in Hadv.
    apply res_bind_Ok in Hadv as (e & He & Hadv). apply res_bind_Ok in Hadv as (rel & Hrel & Hadv).
    apply res_bind_Ok in Hadv as (listed & _ & Hadv). apply Ok_inj in Hadv.
    repeat match goal with H : _ ++ _ = [] |- _ => apply app_eq_nil in H; destruct H end.
    split; [unfold accepted; rewrite He; by destruct e|]. intros Hr. rewrite Hrel in Hr. apply Ok_inj in Hr. subst rel.
    by destruct (blank (c_base_url f)).
Qed.

(** ** What the fields give *)

Lemma split_scheme_app s a b : split_scheme s = Some (a, b) -> s = a ++ js "://" ++ b.
Proof.
  revert a b. induction s as [|c s IH]; intros a b; [done|]. cbn [split_scheme].
  destruct (starts_with _ (c :: s)) eqn:E.
  - apply starts_with_eq in E as [r ->]. intros [= <- <-]. done.
  - destruct (split_scheme s) as [[a' b']|] eqn:Es; [|done]. cbn [fmap option_fmap option_map fst snd]. intros [= <- <-].
    by rewrite (IH a' b' eq_refl).
Qed.

Lemma space_number c r : is_space c = true -> json_number (c :: r) = None.
Proof.
  intros Hs. unfold json_number, json_unsigned. destruct (N.eqb_spec c 45) as [->|_]; [by vm_compute in Hs|].
  cbn [span]. destruct (is_digit c) eqn:Hd; [|done].
  apply digit_in in Hd. simpl in Hd. destruct_or?; subst; by vm_compute in Hs.
Qed.

Lemma space_value n s : Forall (fun c => is_space c = true) s -> json_value n s = None.
Proof.
  intros H. destruct n as [|n]; [done|]. cbn [json_value]. unfold skip_blank.
  destruct (drop_while _ s) as [|c r] eqn:E; [done|].
  assert (is_space c = true) as Hs.
  { destruct (drop_while_suffix BillingLexer.is_blank s) as [a Ha]. rewrite E in Ha. rewrite Ha, Forall_app, Forall_cons in H. tauto. }
  assert (forall a, is_space a = false -> (c =? a)%N = false) as Hne by (intros a Ha; apply N.eqb_neq; congruence).
  assert (forall a l, is_space a = false -> strip_prefix (a :: l) (c :: r) = None) as Hp.
  { intros a l Ha. cbn [strip_prefix]. by rewrite N.eqb_sym, Hne. }
  rewrite !Hne by (by vm_compute). change (js "true") with (116%N :: js "rue"). change (js "false") with (102%N :: js "alse").
  change (js "null") with (110%N :: js "ull"). rewrite !Hp by (by vm_compute). by rewrite space_number.
Qed.

(** A form whose fields pass the schema is turned into its payloads without an exception,
    and its proxy is empty or a scheme and an authority with at most a final slash. *)
Theorem checked_fields_give_payloads newURL f id :
  field_refinements newURL f = true ->
  (exists p, transformFormDataToCreatePayload f = Ok p) /\ (exists p, transformFormDataToUpdatePayload f id = Ok p) /\
  let proxy := trim (text_or_empty (f_proxy (c_extra f))) in
  proxy = [] \/ exists scheme authority slash, proxy = scheme ++ js "://" ++ authority ++ slash /\ scheme <> [] /\
    Forall (fun c => in_authority c = true) authority /\ (slash = [] \/ slash = js "/").
Proof.
  unfold field_refinements. intros H. breflect.
  assert (exists text, buildSettingsJSON (c_options f) = Ok text) as [text Ht].
  { match goal with H : isOptionalJsonObject (t_settings _) = true |- _ => rename H into Hs end.
    unfold buildSettingsJSON, existing_settings. unfold isOptionalJsonObject, optional_test, parseOptionalJson in Hs.
    set (t := text_or_empty (t_settings (c_options f))) in *.
    destruct (nonempty t && negb (bool_decide (t = js "{}"))); [|eauto].
    destruct (json_parse t) as [v|] eqn:Ep; cbn [default]; [|eauto].
    destruct (nonempty (trim t)) eqn:Et; [cbn [fmap option_fmap option_map] in Hs; destruct v; eauto; done|].
    destruct (trim t) eqn:Et'; [|done]. apply trim_nil in Et'. unfold json_parse in Ep. by rewrite space_value in Ep. }
  unfold transformFormDataToCreatePayload, transformFormDataToUpdatePayload. rewrite Ht. cbn [res_bind].
  split_and!; [by eexists..|]. cbv zeta.
  match goal with H : isOptionalProxyURL _ _ = true |- _ => rename H into Hp end. unfold isOptionalProxyURL in Hp.
  destruct (trim _) as [|c0 t0] eqn:Et; [by left|]. right. cbn [nonempty negb] in Hp.
  destruct (split_scheme (c0 :: t0)) as [[[|s0 scheme] rest]|] eqn:Es; try done.
  apply split_scheme_app in Es. rewrite Es.
  exists (s0 :: scheme), (span in_authority rest).1, (span in_authority rest).2.
  rewrite <- span_eq. split_and!; [done|done|apply span_forall|].
  destruct (_ && negb _) eqn:Ea; [done|]. destruct (span in_authority rest).2 as [|d r]; [by left|].
  cbn [nonempty andb] in Ea. right. by apply negb_false_iff, bool_decide_eq_true in Ea.
Qed.
