(* ===== verification/OAuthBinding.v ===== *)
(** * Binding of OAuth accounts

    (src/apps/web/src/features/auth/lib/oauth-callback-mode.ts, oauth-bind-window.ts,
    features/profile/components/tabs/account-bindings-tab.tsx, routes/oauth/$provider.tsx)

    A profile page binds an account in a popup: it stamps the storage of the popup with
    the state of the flow, sends the popup to the provider, and waits for a message from it.
    The provider comes back to the callback page in the popup, which tells a binding from a
    sign-in by the stamp, and posts the code to the page that opened it.

    The page is a machine: its events are the clicks, the answers of the backend, the ticks of
    the timer that watches a popup, messages from windows, and the end of the component.  A
    binding is known by its position in the list of all bindings started, like the object
    the code compares; it also holds what the browser knows of its popup. *)
From S2P Require Import Prelude JsString JsNumber JsJson AuthSession BrowserStorage ExternalUrls.
From Stdlib Require Import Lia.

Definition OAUTH_BIND_FLOW_KEY_PREFIX : list N := js "oauth_bind_flow:".
Definition OAUTH_BIND_CALLBACK_MESSAGE : list N := js "oauth:binding:callback".
Definition OAUTH_BIND_RESULT_MESSAGE : list N := js "oauth:binding:result".
Definition TELEGRAM_BIND_RESULT_MESSAGE : list N := js "telegram:binding:result".

Definition bind_key (provider : list N) : list N := OAUTH_BIND_FLOW_KEY_PREFIX ++ provider.

(** [value === text] *)
Definition text_is (v : option json) (s : list N) : bool :=
  match v with Some (JStr t) => bool_decide (t = s) | _ => false end.

Definition truthy (v : option json) : bool := match v with Some j => json_truthy j | None => false end.

(** ** The stamp *)

Section Stamp.
Context {St : Type} `{Storage St}.

(** No storage: privacy settings, or a popup on another origin. *)
Definition markOAuthBindPopup (storage : option St) (provider state : list N) : bool * option St :=
  match storage with
  | Some s =>
      if nonempty provider && nonempty state then
        match setItem (bind_key provider) state s with
        | Some s' => (bool_decide (getItem (bind_key provider) s' = Some state), Some s')
        | None => (false, Some s)
        end
      else (false, Some s)
  | None => (false, None)
  end.

Inductive OAuthCallbackMode := LoginMode | BindMode.

(** [opener] is [None] without one, [Some closed] with one. *)
Definition resolveOAuthCallbackMode (provider state : list N) (opener : option bool) (storage : option St) : OAuthCallbackMode :=
  match opener, storage with
  | Some false, Some s =>
      if nonempty state && bool_decide (getItem (bind_key provider) s = Some state) then BindMode else LoginMode
  | _, _ => LoginMode
  end.

End Stamp.

(** ** Timers

    A timer keeps its [active] flag; [handle] is what the browser still has scheduled. *)

Record Timer := mkTimer { active : bool; scheduled : bool }.

Definition startTimer : Timer := mkTimer true true.

(** The returned function: stop the timer. *)
Definition stop (t : Timer) : Timer := if active t then mkTimer false false else t.

(** [startOAuthBindResponseDeadline]: the callback runs once; whether [onTimeout] is called. *)
Definition deadline_fires (t : Timer) : bool * Timer :=
  if scheduled t then if active t then (true, mkTimer false false) else (false, mkTimer false false) else (false, t).

(** [watchOAuthPopupClosed]: a tick; whether [onClosed] is called. *)
Definition watch_tick (popup_closed : bool) (t : Timer) : bool * Timer :=
  if scheduled t && active t && popup_closed then (true, mkTimer false false) else (false, t).

(** ** The profile page *)

Section Page.
Context {St : Type} `{Storage St}.
Context (newURL : list N -> option (list N) -> option URL).

(** A binding with its popup: [b_storage] is the storage of the popup the page can reach. *)
Record Binding := mkBinding {
  b_provider : list N;
  b_state : list N;
  b_build : list N -> option (list N * list N);
  b_watcher : Timer;
  b_closed : bool;
  b_storage : option St;
  b_location : option (list N) }.

Inductive Effect :=
| ToastError (message : json)
| ToastSuccess
| Updated
| Exchange (i : nat) (provider : json) (params : list (string * json))
| PostResult (i : nat) (provider state : json) (success : bool) (message : json)
| Navigated (i : nat) (url : list N).

(** A callback being handled: waiting for the backend, or for the list of bindings. *)
Inductive Stage := Exchanging | Refetching (success : bool) (resultMessage : json).

Record Handling := mkHandling { h_binding : nat; h_message : json; h_stage : Stage }.

Record Page := mkPage {
  bindings : list Binding;
  pendingOAuthBinding : option nat;
  flows : list nat;
  handlings : list Handling;
  mounted : bool;
  log : list Effect }.

Definition initPage : Page := mkPage [] None [] [] true [].

Definition set_pending (p : option nat) (s : Page) : Page :=
  mkPage (bindings s) p (flows s) (handlings s) (mounted s) (log s).
Definition set_bindings (l : list Binding) (s : Page) : Page :=
  mkPage l (pendingOAuthBinding s) (flows s) (handlings s) (mounted s) (log s).
Definition set_flows (l : list nat) (s : Page) : Page :=
  mkPage (bindings s) (pendingOAuthBinding s) l (handlings s) (mounted s) (log s).
Definition set_handlings (l : list Handling) (s : Page) : Page :=
  mkPage (bindings s) (pendingOAuthBinding s) (flows s) l (mounted s) (log s).
Definition emit (es : list Effect) (s : Page) : Page :=
  mkPage (bindings s) (pendingOAuthBinding s) (flows s) (handlings s) (mounted s) (log s ++ es).

Definition upd (i : nat) (f : Binding -> Binding) (s : Page) : Page :=
  match bindings s !! i with Some b => set_bindings (<[i := f b]> (bindings s)) s | None => s end.

Definition with_watcher (t : Timer) (b : Binding) : Binding :=
  mkBinding (b_provider b) (b_state b) (b_build b) t (b_closed b) (b_storage b) (b_location b).
Definition closing (b : Binding) : Binding :=
  mkBinding (b_provider b) (b_state b) (b_build b) (b_watcher b) true (b_storage b) (b_location b).
Definition with_storage (st : option St) (b : Binding) : Binding :=
  mkBinding (b_provider b) (b_state b) (b_build b) (b_watcher b) (b_closed b) st (b_location b).
Definition with_state (state : list N) (b : Binding) : Binding :=
  mkBinding (b_provider b) state (b_build b) (b_watcher b) (b_closed b) (b_storage b) (b_location b).
Definition with_location (url : list N) (b : Binding) : Binding :=
  mkBinding (b_provider b) (b_state b) (b_build b) (b_watcher b) (b_closed b) (b_storage b) (Some url).

Definition stopCloseWatcher (b : Binding) : Binding := with_watcher (stop (b_watcher b)) b.

(** With [expected] [None] the pending binding is cleared whatever it is. *)
Definition clearPendingOAuthBinding (expected : option nat) (s : Page) : Page :=
  match pendingOAuthBinding s with
  | None => s
  | Some p =>
      match expected with
      | Some e => if (p =? e)%nat then set_pending None (upd p stopCloseWatcher s) else s
      | None => set_pending None (upd p stopCloseWatcher s)
      end
  end.

(** [if (!popup.closed) popup.close()]; closing a closed window does nothing. *)
Definition close_popup (i : nat) (s : Page) : Page := upd i closing s.

Definition drop_pending (s : Page) : Page :=
  match pendingOAuthBinding s with
  | Some p => close_popup p (clearPendingOAuthBinding (Some p) s)
  | None => s
  end.

(** Up to the await: [popup] is [None] when the browser blocks it, else its storage. *)
Definition startOAuthBinding (provider : list N) (build : list N -> option (list N * list N))
    (popup : option (option St)) (s : Page) : Page :=
  let s := drop_pending s in
  match popup with
  | None => emit [ToastError (JStr (js "OAuth pop-up was blocked"))] s
  | Some storage =>
      let i := length (bindings s) in
      set_flows (i :: flows s)
        (set_pending (Some i)
           (set_bindings (bindings s ++ [mkBinding provider [] build startTimer false storage None]) s))
  end.

(** The catch block. *)
Definition init_failed (i : nat) (s : Page) : Page :=
  let isCurrent := bool_decide (pendingOAuthBinding s = Some i) in
  let s := close_popup i (clearPendingOAuthBinding (Some i) s) in
  if isCurrent then emit [ToastError (JStr (js "Failed to initialize OAuth"))] s else s.

(** After the await, with the state the backend made for the flow. *)
Definition flow_created (i : nat) (state : list N) (s : Page) : Page :=
  match bindings s !! i with
  | None => s
  | Some b =>
      if negb (bool_decide (pendingOAuthBinding s = Some i)) || b_closed b then s
      else
        let '(marked, storage) := markOAuthBindPopup (b_storage b) (b_provider b) state in
        let s := upd i (with_storage storage) s in
        if negb marked then init_failed i s
        else
          let s := upd i (with_state state) s in
          match b_build b state with
          | None => init_failed i s
          | Some (url, source) =>
              match getTrustedUrlFromSource newURL url source [js "https:"] false with
              | None => init_failed i s
              | Some trustedUrl => emit [Navigated i trustedUrl] (upd i (with_location trustedUrl) s)
              end
          end
  end.

(** A message of a window: [source] is the binding whose popup sent it. *)
Record Message := mkMessage { same_origin : bool; source : option nat; data : json }.

Definition message_accepted (m : Message) (i : nat) (b : Binding) : bool :=
  json_truthy (data m) && text_is (get "type" (data m)) OAUTH_BIND_CALLBACK_MESSAGE &&
  text_is (get "provider" (data m)) (b_provider b) && text_is (get "state" (data m)) (b_state b) &&
  bool_decide (source m = Some i).

Definition or_undefined (v : option json) : json := default JNull v.

Definition param (name : string) (v : option json) : list (string * json) :=
  if truthy v then [(name, or_undefined v)] else [].

Definition exchange_params (m : json) : list (string * json) :=
  [("state", or_undefined (get "state" m))]%string ++ param "code" (get "code" m) ++ param "error" (get "error" m) ++
  param "error_description" (get "errorDescription" m).

Definition post_result (i : nat) (m : json) (success : bool) (message : json) : Effect :=
  PostResult i (or_undefined (get "provider" m)) (or_undefined (get "state" m)) success message.

Definition handleMessage (m : Message) (s : Page) : Page :=
  if negb (mounted s) || negb (same_origin m) then s
  else
    match pendingOAuthBinding s with
    | None => s
    | Some i =>
        match bindings s !! i with
        | None => s
        | Some b =>
            if negb (message_accepted m i b) then s
            else
              let s := clearPendingOAuthBinding (Some i) s in
              if negb (truthy (get "code" (data m))) && negb (truthy (get "error" (data m))) then
                let message := JStr (js "Missing code") in
                emit [ToastError message; post_result i (data m) false message] s
              else
                set_handlings (handlings s ++ [mkHandling i (data m) Exchanging])
                  (emit [Exchange i (or_undefined (get "provider" (data m))) (exchange_params (data m))] s)
        end
    end.

(** [response.data], or what the thrown value carries. *)
Inductive Answer := Answered (body : json) | Failed (serverMessage : option json) (errorText : option (list N)).

Definition exchange_failed : json := JStr (js "OAuth failed").

Definition or_else (v : option json) (fallback : json) : json :=
  match v with Some j => if json_truthy j then j else fallback | None => fallback end.

Definition exchange_answered (k : nat) (a : Answer) (s : Page) : Page :=
  match handlings s !! k with
  | Some (mkHandling i m Exchanging) =>
      match a with
      | Answered body =>
          let success := truthy (get "success" body) in
          let message := or_else (get "message" body) exchange_failed in
          if success then
            emit [ToastSuccess; Updated] (set_handlings (<[k := mkHandling i m (Refetching true message)]> (handlings s)) s)
          else emit [ToastError message; post_result i m false message] (set_handlings (delete k (handlings s)) s)
      | Failed serverMessage errorText =>
          let message := or_else serverMessage (match errorText with Some t => JStr t | None => exchange_failed end) in
          emit [ToastError message; post_result i m false message] (set_handlings (delete k (handlings s)) s)
      end
  | _ => s
  end.

(** [fetchCustomBindings] has settled; it does not throw. *)
Definition bindings_fetched (k : nat) (s : Page) : Page :=
  match handlings s !! k with
  | Some (mkHandling i m (Refetching success message)) =>
      emit [post_result i m success message] (set_handlings (delete k (handlings s)) s)
  | _ => s
  end.

Definition unmount (s : Page) : Page :=
  let s := drop_pending s in
  mkPage (bindings s) (pendingOAuthBinding s) (flows s) (handlings s) false (log s).

Definition watcher_ticks (i : nat) (s : Page) : Page :=
  match bindings s !! i with
  | None => s
  | Some b =>
      let '(closed, t) := watch_tick (b_closed b) (b_watcher b) in
      let s := upd i (with_watcher t) s in
      if closed then clearPendingOAuthBinding (Some i) s else s
  end.

Inductive Event :=
| Start (provider : list N) (build : list N -> option (list N * list N)) (popup : option (option St))
| FlowCreated (i : nat) (state : list N)
| FlowRefused (i : nat)
| PopupClosed (i : nat)
| WatcherTicks (i : nat)
| Received (m : Message)
| ExchangeAnswered (k : nat) (a : Answer)
| BindingsFetched (k : nat)
| Unmount.

Definition flow_done (i : nat) (s : Page) : Page := set_flows (filter (fun j => j <> i) (flows s)) s.

(** A flow is answered once. *)
Definition step (e : Event) (s : Page) : Page :=
  match e with
  | Start provider build popup => if mounted s then startOAuthBinding provider build popup s else s
  | FlowCreated i state => if bool_decide (i ∈ flows s) then flow_created i state (flow_done i s) else s
  | FlowRefused i => if bool_decide (i ∈ flows s) then init_failed i (flow_done i s) else s
  | PopupClosed i => close_popup i s
  | WatcherTicks i => watcher_ticks i s
  | Received m => handleMessage m s
  | ExchangeAnswered k a => exchange_answered k a s
  | BindingsFetched k => bindings_fetched k s
  | Unmount => if mounted s then unmount s else s
  end.

Definition run (es : list Event) (s : Page) : Page := fold_left (fun s e => step e s) es s.

(** ** The invariant of the page *)

Definition posted (e : Effect) : option nat := match e with PostResult i _ _ _ _ => Some i | _ => None end.
Definition exchanged (e : Effect) : option nat := match e with Exchange i _ _ => Some i | _ => None end.

(** The bindings whose callback was accepted: answered, or being handled. *)
Definition accepted (s : Page) : list nat := omap posted (log s) ++ map h_binding (handlings s).

(** A popup sent to its provider carries the stamp of its binding, and the URL is trusted. *)
Definition stamped (b : Binding) : Prop :=
  exists st, b_storage b = Some st /\ getItem (bind_key (b_provider b)) st = Some (b_state b) /\ b_state b <> [].

Definition destined (b : Binding) (u : list N) : Prop :=
  exists url src, b_build b (b_state b) = Some (url, src) /\ getTrustedUrlFromSource newURL url src [js "https:"] false = Some u.

(** What holds of a binding; the popup of [x] may be left open for the moment. *)
Record binding_ok (x : option nat) (s : Page) (i : nat) (b : Binding) : Prop := {
  ok_watcher : active (b_watcher b) = bool_decide (pendingOAuthBinding s = Some i);
  ok_scheduled : scheduled (b_watcher b) = active (b_watcher b);
  ok_open : b_closed b = false -> pendingOAuthBinding s = Some i \/ i ∈ accepted s \/ x = Some i;
  ok_location : forall u, b_location b = Some u -> stamped b /\ destined b u;
  ok_flow : i ∈ flows s -> b_location b = None;
  ok_exchange : forall p ps, Exchange i p ps ∈ log s ->
    p = JStr (b_provider b) /\ ("state"%string, JStr (b_state b)) ∈ ps }.

Record page_ok (x : option nat) (s : Page) : Prop := {
  ok_bindings : forall i b, bindings s !! i = Some b -> binding_ok x s i b;
  ok_pending : forall i, pendingOAuthBinding s = Some i -> is_Some (bindings s !! i) /\ i ∉ accepted s;
  ok_accepted : NoDup (accepted s) /\ forall i, i ∈ accepted s -> is_Some (bindings s !! i);
  ok_exchanged : NoDup (omap exchanged (log s)) /\ forall i, i ∈ omap exchanged (log s) -> i ∈ accepted s;
  ok_flows : forall i, i ∈ flows s -> is_Some (bindings s !! i);
  ok_unmounted : mounted s = false -> pendingOAuthBinding s = None }.

Lemma upd_ok x s i b f :
  page_ok x s -> bindings s !! i = Some b -> (binding_ok x s i b -> binding_ok x s i (f b)) -> page_ok x (upd i f s).
Proof.
  intros [Hb Hp Ha He Hf Hu] Hi Hok. unfold upd. rewrite Hi.
  assert (forall j, is_Some (bindings s !! j) -> is_Some (<[i := f b]> (bindings s) !! j)) as Hsome.
  { intros j Hj. destruct (decide (i = j)) as [<-|Hne]; [|by rewrite list_lookup_insert_ne].
    rewrite list_lookup_insert_eq; [done|]. by apply lookup_lt_Some in Hi. }
  split; cbn [bindings pendingOAuthBinding set_bindings] in *.
  - intros j b' Hj. assert (binding_ok x s j b') as [].
    { destruct (decide (i = j)) as [<-|Hne]; [|by apply Hb; rewrite list_lookup_insert_ne in Hj].
      rewrite list_lookup_insert_eq in Hj by (by apply lookup_lt_Some in Hi). simplify_eq. by apply Hok, Hb. }
    split; assumption.
  - intros j Hj. destruct (Hp j Hj). split; [by apply Hsome|done].
  - destruct Ha as [Hn Ha]. split; [done|]. intros j Hj. by apply Hsome, Ha.
  - done.
  - intros j Hj. by apply Hsome, Hf.
  - done.
Qed.

Lemma upd_absent s i f : bindings s !! i = None -> upd i f s = s.
Proof. intros H0. unfold upd. by rewrite H0. Qed.

Lemma close_ok x s i : page_ok x s -> page_ok x (close_popup i s).
Proof.
  intros Hs. unfold close_popup. destruct (bindings s !! i) as [b|] eqn:E; [|by rewrite upd_absent].
  apply (upd_ok _ _ _ b); [done..|]. intros []. by split.
Qed.

Lemma left_open_closed i s : page_ok (Some i) s -> (forall b, bindings s !! i = Some b -> b_closed b = true) -> page_ok None s.
Proof.
  intros [Hb' Hp Ha He Hf Hu] Hc'. split; try done.
  intros j b Hj. destruct (Hb' j b Hj) as [H1 H2 H3 H4 H5 H6]. split; try done.
  intros Hc. destruct (H3 Hc) as [?|[?|[= <-]]]; [by left|by right; left|]. by rewrite (Hc' b Hj) in Hc.
Qed.

Lemma upd_lookup i f s : bindings (upd i f s) !! i = f <$> bindings s !! i.
Proof.
  unfold upd. destruct (bindings s !! i) as [b|] eqn:E; cbn [bindings set_bindings fmap option_fmap option_map]; [|done].
  by rewrite list_lookup_insert_eq by (by apply lookup_lt_Some in E).
Qed.

Lemma close_left_open i s : page_ok (Some i) s -> page_ok None (close_popup i s).
Proof.
  intros Hs. apply (left_open_closed i); [by apply close_ok|]. intros b. unfold close_popup. rewrite upd_lookup.
  by intros (b0 & _ & ->)%fmap_Some.
Qed.

Lemma weaken_ok x s : page_ok None s -> page_ok x s.
Proof.
  intros [Hb Hp Ha He Hf Hu]. split; try done. intros i b Hi. destruct (Hb i b Hi) as [H1 H2 H3 H4 H5 H6]. split; try done.
  intros Hc. destruct (H3 Hc) as [?|[?|?]]; [tauto..|done].
Qed.

(** Clearing the pending binding leaves its popup open. *)
Lemma clear_pending_ok s i : page_ok None s -> pendingOAuthBinding s = Some i -> page_ok (Some i) (clearPendingOAuthBinding (Some i) s).
Proof.
  intros Hs Hi. destruct (ok_pending _ _ Hs i Hi) as [[b Hb] Hn].
  unfold clearPendingOAuthBinding. rewrite Hi, Nat.eqb_refl. unfold upd. rewrite Hb.
  destruct Hs as [Hok Hp Ha He Hf Hu].
  assert (forall j, is_Some (bindings s !! j) -> is_Some (<[i := stopCloseWatcher b]> (bindings s) !! j)) as Hsome.
  { intros j Hj. destruct (decide (i = j)) as [<-|Hne]; [|by rewrite list_lookup_insert_ne].
    rewrite list_lookup_insert_eq; [done|]. by apply lookup_lt_Some in Hb. }
  split; cbn [bindings pendingOAuthBinding set_bindings set_pending flows mounted log handlings] in *; try done.
  - intros j b' Hj. destruct (decide (i = j)) as [<-|Hne].
    + rewrite list_lookup_insert_eq in Hj by (by apply lookup_lt_Some in Hb). simplify_eq.
      destruct (Hok i b Hb) as [H1 H2 H3 H4 H5 H6]. rewrite Hi, bool_decide_eq_true_2 in H1 by done.
      split; try done; cbn [stopCloseWatcher with_watcher b_watcher b_closed pendingOAuthBinding].
      * unfold stop. by rewrite H1.
      * unfold stop. by rewrite H1.
      * intros _. by right; right.
    + rewrite list_lookup_insert_ne in Hj by done. destruct (Hok j b' Hj) as [H1 H2 H3 H4 H5 H6]. split; try done.
      * rewrite H1, Hi. rewrite bool_decide_eq_false_2 by congruence. by rewrite bool_decide_eq_false_2.
      * intros Hc. destruct (H3 Hc) as [?|[?|?]]; [congruence|by right; left|done].
  - destruct Ha as [Ha1 Ha2]. split; [done|]. intros j Hj. by apply Hsome, Ha2.
  - intros j Hj. by apply Hsome, Hf.
Qed.

Lemma clear_other s i : pendingOAuthBinding s <> Some i -> clearPendingOAuthBinding (Some i) s = s.
Proof.
  unfold clearPendingOAuthBinding. destruct (pendingOAuthBinding s) as [p|]; [|done]. intros Hne.
  destruct (Nat.eqb_spec p i); [congruence|done].
Qed.

Lemma omap_none {A B} (f : A -> option B) l : Forall (fun e => f e = None) l -> omap f l = [].
Proof. induction 1 as [|e l H1 _ IH]; [done|]. cbn [omap list_omap]. by rewrite H1. Qed.

(** Effects and callbacks handled that leave the accepted bindings as they are. *)
Lemma effects_ok x s es hs :
  Forall (fun e => exchanged e = None) es -> accepted (emit es (set_handlings hs s)) ≡ₚ accepted s ->
  page_ok x s -> page_ok x (emit es (set_handlings hs s)).
Proof.
  intros Hes Hacc [Hok Hp Ha He Hf Hu].
  pose proof (omap_none exchanged es Hes) as E2.
  split; try done.
  - intros i b Hi. destruct (Hok i b Hi) as [H1 H2 H3 H4 H5 H6]. split; rewrite ?Hacc; try done.
    intros p ps [Hin|Hin]%elem_of_app; [by apply H6|]. exfalso. rewrite Forall_forall in Hes. specialize (Hes _ Hin). discriminate Hes.
  - intros i Hi. rewrite Hacc. by apply Hp.
  - destruct Ha as [Ha1 Ha2]. split; [by rewrite Hacc|]. intros i. rewrite Hacc. apply Ha2.
  - cbn [emit log set_handlings]. rewrite omap_app, E2, app_nil_r. destruct He as [He1 He2]. split; [done|]. intros i Hi.
    rewrite Hacc. by apply He2.
Qed.

Lemma toast_ok x s es : Forall (fun e => posted e = None /\ exchanged e = None) es -> page_ok x s -> page_ok x (emit es s).
Proof.
  intros Hes Hs. assert (set_handlings (handlings s) s = s) as E by (by destruct s). rewrite <- E.
  apply effects_ok; [by eapply Forall_impl; [done|naive_solver]| |done]. rewrite E. unfold accepted. cbn [emit log handlings].
  rewrite omap_app, (omap_none posted es), app_nil_r; [done|]. eapply Forall_impl; [done|naive_solver].
Qed.

(** A callback is accepted: its binding gets a request in flight or an answer. *)
Lemma accept_ok s i b es hs :
  page_ok (Some i) s -> bindings s !! i = Some b -> pendingOAuthBinding s = None -> i ∉ accepted s ->
  omap posted es ++ map h_binding hs = [i] -> NoDup (omap exchanged es) ->
  (forall j p ps, Exchange j p ps ∈ es -> j = i /\ p = JStr (b_provider b) /\ ("state"%string, JStr (b_state b)) ∈ ps) ->
  page_ok None (set_handlings (handlings s ++ hs) (emit es s)).
Proof.
  intros [Hok Hp Ha He Hf Hu] Hb Hn Hi Hnew Hnd Hx.
  assert (accepted (set_handlings (handlings s ++ hs) (emit es s)) ≡ₚ i :: accepted s) as Hacc.
  { unfold accepted. cbn [set_handlings emit log handlings]. rewrite omap_app, map_app, <- !app_assoc.
    rewrite (Permutation_app_comm (omap posted es)), <- !app_assoc.
    rewrite (Permutation_app_comm (map h_binding hs)), Hnew, Permutation_app_comm. by rewrite <- app_assoc, Permutation_app_comm. }
  assert (forall j, j ∈ omap exchanged es -> j = i) as Hj.
  { intros j (e & He' & Hxe)%list_elem_of_omap. destruct e; try done. cbn [exchanged] in Hxe. injection Hxe as <-.
    by apply (Hx _ _ _ He'). }
  split; try done.
  - intros k bk Hk. destruct (Hok k bk Hk) as [H1 H2 H3 H4 H5 H6]. split; try done; rewrite ?Hacc.
    + intros Hc. rewrite elem_of_cons. destruct (H3 Hc) as [?|[?|[= <-]]]; [by left|by right; left; right|by right; left; left].
    + cbn [set_handlings emit log]. intros p ps [Hin|Hin]%elem_of_app; [by apply H6|].
      destruct (Hx _ _ _ Hin) as (-> & -> & ?). cbn [bindings set_handlings emit] in Hk. simplify_eq. done.
  - intros k Hk. cbn [set_handlings emit pendingOAuthBinding] in Hk. congruence.
  - rewrite Hacc. destruct Ha as [Ha1 Ha2]. split; [by apply NoDup_cons|]. intros k. rewrite Hacc, elem_of_cons. intros [->|Hk]; [by exists b|].
    by apply Ha2.
  - cbn [set_handlings emit log]. rewrite omap_app. destruct He as [He1 He2]. split.
    + apply NoDup_app. split_and!; [done| |done]. intros k Hk Hk'. apply Hj in Hk'. subst k. by apply Hi, He2.
    + intros k [Hk|Hk]%elem_of_app; rewrite Hacc, elem_of_cons; [right; by apply He2|left; by apply Hj].
Qed.

(** ** Every event preserves it *)

Lemma drop_pending_ok s : page_ok None s -> page_ok None (drop_pending s) /\ pendingOAuthBinding (drop_pending s) = None.
Proof.
  intros Hs. unfold drop_pending. destruct (pendingOAuthBinding s) as [p|] eqn:E; [|done]. split.
  - by apply close_left_open, clear_pending_ok.
  - unfold close_popup, clearPendingOAuthBinding. rewrite E, Nat.eqb_refl. unfold upd. by repeat case_match.
Qed.

Lemma start_ok provider build popup s :
  mounted s = true -> page_ok None s -> page_ok None (startOAuthBinding provider build popup s).
Proof.
  intros Hm Hs. unfold startOAuthBinding. destruct (drop_pending_ok s Hs) as [Hd Hn].
  assert (mounted (drop_pending s) = true) as Hm'.
  { unfold drop_pending, close_popup, clearPendingOAuthBinding, upd. by repeat case_match. }
  set (d := drop_pending s) in *. clearbody d. cbv zeta. destruct popup as [storage|]; [|by apply toast_ok; [repeat constructor|]].
  destruct Hd as [Hok Hp Ha He Hf Hu].
  assert (forall j, is_Some (bindings d !! j) -> forall b, is_Some ((bindings d ++ [b]) !! j)) as Hsome.
  { intros j [b' Hj] b. exists b'. by apply lookup_app_l_Some. }
  assert (length (bindings d) ∉ accepted d /\ length (bindings d) ∉ flows d) as [Hfr1 Hfr2].
  { split; intros Hin; [apply Ha in Hin|apply Hf in Hin]; apply lookup_lt_is_Some in Hin; lia. }
  split; cbn [set_flows set_pending set_bindings bindings pendingOAuthBinding flows handlings mounted log].
  - intros j b Hj. apply lookup_app_Some in Hj as [Hj|[Hl Hj]].
    + pose proof (lookup_lt_Some _ _ _ Hj) as Hlt. destruct (Hok j b Hj) as [H1 H2 H3 H4 H5 H6]. rewrite Hn in *. split; try done.
      * rewrite H1, !bool_decide_eq_false_2; [done|intros [= <-]; lia|done].
      * intros Hc. destruct (H3 Hc) as [?|[?|?]]; [done|by right; left|done].
      * intros [->|Hin]%elem_of_cons; [lia|by apply H5].
    + apply list_lookup_singleton_Some in Hj as [Hj <-]. assert (j = length (bindings d)) as -> by lia. split; try done.
      * by rewrite bool_decide_eq_true_2.
      * intros _. by left.
      * intros p ps Hin. exfalso. apply Hfr1, He. apply list_elem_of_omap. eauto.
  - intros j [= <-]. split; [|done]. rewrite lookup_app_r, Nat.sub_diag by done. done.
  - destruct Ha as [Ha1 Ha2]. split; [done|]. intros j Hj. by apply Hsome, Ha2.
  - done.
  - intros j [->|Hin]%elem_of_cons; [|by apply Hsome, Hf]. rewrite lookup_app_r, Nat.sub_diag by done. done.
  - congruence.
Qed.

Lemma init_failed_ok i s : page_ok None s -> page_ok None (init_failed i s).
Proof.
  intros Hs. unfold init_failed. cbv zeta. case_bool_decide as E.
  - apply toast_ok; [repeat constructor|]. by apply close_left_open, clear_pending_ok.
  - rewrite clear_other by done. by apply close_ok.
Qed.

Lemma flow_done_ok i s : page_ok None s -> page_ok None (flow_done i s).
Proof.
  intros [Hok Hp Ha He Hf Hu]. split; try done.
  - intros j b Hj. destruct (Hok j b Hj) as [H1 H2 H3 H4 H5 H6]. split; try done.
    cbn [flow_done set_flows flows]. intros [_ Hin]%list_elem_of_filter. by apply H5.
  - intros j [_ Hin]%list_elem_of_filter. by apply Hf.
Qed.

(** The stamp and the state of a binding that is pending and was not sent to its provider. *)
Lemma prepare_ok s i b f :
  page_ok None s -> bindings s !! i = Some b -> pendingOAuthBinding s = Some i -> b_location b = None ->
  b_location (f b) = None -> b_watcher (f b) = b_watcher b -> page_ok None (upd i f s).
Proof.
  intros Hs Hb Hp Hl Hl' Hw. apply (upd_ok _ _ _ b); [done..|]. intros [H1 H2 H3 H4 H5 H6]. split; rewrite ?Hw, ?Hl'; try done.
  - intros _. by left.
  - intros p ps Hin. exfalso. destruct (ok_pending _ _ Hs i Hp) as [_ Hn]. apply Hn, (ok_exchanged _ _ Hs), list_elem_of_omap. eauto.
Qed.

Lemma upd_frame i f s :
  pendingOAuthBinding (upd i f s) = pendingOAuthBinding s /\ flows (upd i f s) = flows s /\ accepted (upd i f s) = accepted s /\
  mounted (upd i f s) = mounted s.
Proof. unfold upd. by destruct (bindings s !! i). Qed.

Lemma flow_created_ok i state s :
  page_ok None s -> i ∉ flows s -> (forall b, bindings s !! i = Some b -> b_location b = None) ->
  page_ok None (flow_created i state s).
Proof.
  intros Hs Hf Hloc. unfold flow_created. destruct (bindings s !! i) as [b|] eqn:Eb; [|done]. specialize (Hloc b eq_refl).
  case_bool_decide as Ep; cbn [negb orb]; [|done]. destruct (b_closed b); [done|].
  destruct (markOAuthBindPopup (b_storage b) (b_provider b) state) as [marked storage] eqn:Em. cbv zeta.
  assert (page_ok None (upd i (with_storage storage) s)) as H1 by (by apply (prepare_ok _ _ b)).
  destruct (upd_frame i (with_storage storage) s) as (P1 & F1 & _ & _).
  pose proof (upd_lookup i (with_storage storage) s) as L1. rewrite Eb in L1. cbn [fmap option_fmap option_map] in L1.
  set (s1 := upd i (with_storage storage) s) in *. clearbody s1. destruct marked; cbn [negb]; [|by apply init_failed_ok].
  assert (page_ok None (upd i (with_state state) s1)) as H2.
  { eapply prepare_ok; [done|exact L1|congruence|exact Hloc|exact Hloc|done]. }
  destruct (upd_frame i (with_state state) s1) as (P2 & F2 & _ & _).
  pose proof (upd_lookup i (with_state state) s1) as L2. rewrite L1 in L2. cbn [fmap option_fmap option_map] in L2.
  set (s2 := upd i (with_state state) s1) in *. clearbody s2.
  destruct (b_build b state) as [[url src]|] eqn:Eu; [|by apply init_failed_ok].
  destruct (getTrustedUrlFromSource newURL url src _ false) as [u|] eqn:Et; [|by apply init_failed_ok].
  apply toast_ok; [repeat constructor|]. eapply upd_ok; [done|exact L2|]. intros [K1 K2 K3 K4 K5 K6]. split; try done.
  - intros u' [= <-]. split; [|by exists url, src]. unfold markOAuthBindPopup in Em.
    destruct (b_storage b) as [st|]; [|done]. destruct (nonempty (b_provider b) && nonempty state) eqn:En; [|done].
    apply andb_true_iff in En as [_ En]. destruct (setItem _ state st) as [st'|]; [|done]. injection Em as Em <-.
    apply bool_decide_eq_true in Em. exists st'. split_and!; [done|done|]. cbn. by destruct state.
  - rewrite F2, F1. done.
Qed.

Lemma message_ok m s : page_ok None s -> page_ok None (handleMessage m s).
Proof.
  intros Hs. unfold handleMessage. destruct (negb (mounted s) || _); [done|].
  destruct (pendingOAuthBinding s) as [i|] eqn:Ep; [|done]. destruct (bindings s !! i) as [b|] eqn:Eb; [|done].
  destruct (message_accepted m i b) eqn:Em; cbn [negb]; [|done]. cbv zeta.
  destruct (ok_pending _ _ Hs i Ep) as [_ Hn]. pose proof (clear_pending_ok s i Hs Ep) as Hc.
  assert (pendingOAuthBinding (clearPendingOAuthBinding (Some i) s) = None /\
          accepted (clearPendingOAuthBinding (Some i) s) = accepted s /\
          bindings (clearPendingOAuthBinding (Some i) s) !! i = Some (stopCloseWatcher b)) as (P & A & L).
  { unfold clearPendingOAuthBinding. rewrite Ep, Nat.eqb_refl. cbn [set_pending bindings pendingOAuthBinding].
    rewrite upd_lookup, Eb. split_and!; [done| |done]. unfold upd. by rewrite Eb. }
  set (c := clearPendingOAuthBinding (Some i) s) in *. clearbody c. rewrite <- A in Hn.
  unfold message_accepted in Em. repeat (apply andb_true_iff in Em as [Em ?]).
  destruct (negb _ && negb _).
  - assert (set_handlings (handlings c ++ []) (emit [ToastError (JStr (js "Missing code")); post_result i (data m) false (JStr (js "Missing code"))] c)
            = emit [ToastError (JStr (js "Missing code")); post_result i (data m) false (JStr (js "Missing code"))] c) as <-
      by (rewrite app_nil_r; by destruct c).
    apply (accept_ok c i (stopCloseWatcher b)); [done..|constructor|]. intros j p ps Hin. apply list_elem_of_In in Hin. simpl in Hin. naive_solver.
  - apply (accept_ok c i (stopCloseWatcher b)); [done..|apply NoDup_singleton|]. intros j p ps Hin%list_elem_of_singleton.
    injection Hin as -> -> ->. split; [done|].
    assert (forall v t, text_is v t = true -> or_undefined v = JStr t) as Ht.
    { intros [[]|] t Hv; try done. cbn in Hv. by apply bool_decide_eq_true in Hv as ->. }
    split; [by apply Ht|]. unfold exchange_params. apply elem_of_cons. left. f_equal. symmetry. by apply Ht.
Qed.

Lemma permutation_delete {A} (l : list A) k x : l !! k = Some x -> l ≡ₚ x :: delete k l.
Proof. intros Hk. rewrite <- (take_drop_middle l k x Hk) at 1. rewrite delete_take_drop. by rewrite Permutation_middle. Qed.

(** A callback handled is answered: its binding stays accepted. *)
Lemma answer_ok s k i m st e es :
  page_ok None s -> handlings s !! k = Some (mkHandling i m st) -> posted e = Some i -> exchanged e = None ->
  Forall (fun e => posted e = None /\ exchanged e = None) es ->
  page_ok None (emit (es ++ [e]) (set_handlings (delete k (handlings s)) s)).
Proof.
  intros Hs Hk He1 He2 Hes. apply effects_ok; [|unfold accepted; cbn [emit log handlings set_handlings]|done].
  - apply Forall_app. split; [by eapply Forall_impl; [done|naive_solver]|by apply Forall_singleton].
  - rewrite !omap_app, (omap_none posted es) by (by eapply Forall_impl; [done|naive_solver]).
    rewrite (permutation_delete _ _ _ Hk) at 2. cbn [omap list_omap map h_binding app]. rewrite He1. cbn [app].
    by rewrite <- app_assoc.
Qed.

Lemma exchange_answered_ok k a s : page_ok None s -> page_ok None (exchange_answered k a s).
Proof.
  intros Hs. unfold exchange_answered. destruct (handlings s !! k) as [[i m [|]]|] eqn:Ek; [|done..].
  destruct a as [body|sm et]; cbv zeta; [destruct (truthy _)|].
  - apply effects_ok; [repeat constructor| |done]. unfold accepted. cbn [emit log handlings set_handlings].
    rewrite omap_app, app_nil_r. by rewrite list_fmap_insert, list_insert_id by (by rewrite list_lookup_fmap, Ek).
  - apply (answer_ok s k i m Exchanging _ [_]); [done..|repeat constructor].
  - apply (answer_ok s k i m Exchanging _ [_]); [done..|repeat constructor].
Qed.

Lemma bindings_fetched_ok k s : page_ok None s -> page_ok None (bindings_fetched k s).
Proof.
  intros Hs. unfold bindings_fetched. destruct (handlings s !! k) as [[i m [|]]|] eqn:Ek; [done| |done].
  by apply (answer_ok s k i m (Refetching success resultMessage) _ []).
Qed.

(** A tick that finds the popup closed clears the binding. *)
Lemma watcher_ticks_ok i s : page_ok None s -> page_ok None (watcher_ticks i s).
Proof.
  intros Hs. unfold watcher_ticks. destruct (bindings s !! i) as [b|] eqn:Eb; [|done].
  destruct (ok_bindings _ _ Hs i b Eb) as [H1 H2 _ _ _ _]. unfold watch_tick. rewrite H2, andb_diag.
  destruct (active (b_watcher b)) eqn:Ea; cbn [andb]; [|apply (upd_ok _ _ _ b); [done..|]; by intros []].
  destruct (b_closed b) eqn:Ec; [|apply (upd_ok _ _ _ b); [done..|]; by intros []].
  symmetry in H1. apply bool_decide_eq_true in H1.
  assert (clearPendingOAuthBinding (Some i) (upd i (with_watcher (mkTimer false false)) s) = clearPendingOAuthBinding (Some i) s) as ->.
  { unfold clearPendingOAuthBinding. rewrite (proj1 (upd_frame i _ s)), H1, Nat.eqb_refl. f_equal. unfold upd. rewrite Eb.
    cbn [bindings set_bindings]. rewrite list_lookup_insert_eq by (by apply lookup_lt_Some in Eb).
    cbn [bindings set_bindings]. rewrite list_insert_insert_eq. unfold stopCloseWatcher, stop. by rewrite Ea. }
  apply (left_open_closed i); [by apply clear_pending_ok|]. intros b'. unfold clearPendingOAuthBinding. rewrite H1, Nat.eqb_refl.
  cbn [set_pending bindings]. rewrite upd_lookup, Eb. by intros [= <-].
Qed.

Lemma unmount_ok s : page_ok None s -> page_ok None (unmount s).
Proof.
  intros [Hd Hn]%drop_pending_ok. unfold unmount. cbv zeta. destruct Hd as [Hok Hp Ha He Hf Hu]. split; try done.
  intros i b Hi. by destruct (Hok i b Hi).
Qed.

Lemma step_ok e s : page_ok None s -> page_ok None (step e s).
Proof.
  intros Hs. destruct e as [provider build popup|i state|i|i|i|m|k a|k|]; cbn [step].
  - destruct (mounted s) eqn:Em; [by apply start_ok|done].
  - case_bool_decide as Hf; [|done]. apply flow_created_ok; [by apply flow_done_ok| |].
    + cbn [flow_done set_flows flows]. intros [Hne _]%list_elem_of_filter. done.
    + intros b Hb. by apply (ok_flow _ _ _ _ (ok_bindings _ _ Hs i b Hb)).
  - case_bool_decide; [|done]. by apply init_failed_ok, flow_done_ok.
  - by apply close_ok.
  - by apply watcher_ticks_ok.
  - by apply message_ok.
  - by apply exchange_answered_ok.
  - by apply bindings_fetched_ok.
  - destruct (mounted s); [by apply unmount_ok|done].
Qed.

Lemma page_run_ok es s : page_ok None s -> page_ok None (run es s).
Proof. revert s. induction es as [|e es IH]; intros s Hs; [done|]. apply IH. by apply step_ok. Qed.

Lemma init_ok : page_ok None initPage.
Proof.
  split; try done; try (intros i Hi; by apply elem_of_nil in Hi); split; try constructor; intros i Hi; by apply elem_of_nil in Hi.
Qed.

(** ** What the page guarantees *)

(** C38: whatever the windows, the backend and the user do: a binding is exchanged and
    answered at most once, with its own provider and state; only the pending popup is
    watched by a timer; a popup still open is the pending one or has called back; and a popup
    is only sent to the trusted URL built from its state, after it was stamped with it. *)
Theorem oauth_bindings_safe (es : list Event) :
  let s := run es initPage in
  NoDup (omap exchanged (log s)) /\ NoDup (omap posted (log s)) /\
  (forall i p ps, Exchange i p ps ∈ log s -> exists b, bindings s !! i = Some b /\
    p = JStr (b_provider b) /\ ("state"%string, JStr (b_state b)) ∈ ps) /\
  (forall i b, bindings s !! i = Some b ->
    (scheduled (b_watcher b) = true <-> pendingOAuthBinding s = Some i) /\
    (b_closed b = false -> pendingOAuthBinding s = Some i \/ i ∈ accepted s) /\
    (forall u, b_location b = Some u -> stamped b /\ destined b u)).
Proof.
  cbv zeta. pose proof (page_run_ok es initPage init_ok) as [Hok Hp [Ha1 Ha2] [He1 He2] Hf Hu].
  split_and!; [done|by apply NoDup_app in Ha1 as [? _]| |].
  - intros i p ps Hin. destruct (Ha2 i) as [b Hb]; [apply He2, list_elem_of_omap; eauto|]. exists b. split; [done|].
    by apply (ok_exchange _ _ _ _ (Hok i b Hb)).
  - intros i b Hb. destruct (Hok i b Hb) as [H1 H2 H3 H4 H5 H6]. split_and!; [|naive_solver|done].
    rewrite H2, H1. apply bool_decide_eq_true.
Qed.

End Page.

(** ** The callback page in the popup *)

Record CallbackSearch := mkSearch {
  search_code : option (list N);
  search_state : option (list N);
  search_error : option (list N);
  search_error_description : option (list N);
  search_telegram_bind : option (list N);
  search_flow_token : option (list N);
  search_error_code : option (list N) }.

Inductive TelegramBindCallback := TelegramResult (flowToken : list N) (success : bool) (code : option (list N)) | TelegramInvalid.

Definition parseTelegramBindCallback (q : CallbackSearch) : option TelegramBindCallback :=
  let succeeded := bool_decide (search_telegram_bind q = Some (js "success")) in
  let failed := bool_decide (search_telegram_bind q = Some (js "error")) in
  if negb succeeded && negb failed then None
  else
    match search_flow_token q with
    | Some ((_ :: _) as token) =>
        if succeeded then Some (TelegramResult token true None) else Some (TelegramResult token false (search_error_code q))
    | _ => Some TelegramInvalid
    end.

(** A property that is [undefined] is left out of the message. *)
Definition member (k : string) (v : option (list N)) : list (list N * json) :=
  match v with Some t => [(js k, JStr t)] | None => [] end.

(** The message posted, if one is. *)
Definition postTelegramBindResult (callback : option TelegramBindCallback) (opener : option bool) : option json :=
  match callback, opener with
  | Some (TelegramResult token success code), Some false =>
      Some (JObj ([(js "type", JStr TELEGRAM_BIND_RESULT_MESSAGE); (js "flow_token", JStr token); (js "success", JBool success)] ++
                  member "code" code))
  | _, _ => None
  end.

Definition callback_message (provider : list N) (q : CallbackSearch) : json :=
  JObj ([(js "type", JStr OAUTH_BIND_CALLBACK_MESSAGE); (js "provider", JStr provider);
         (js "code", JStr (default [] (search_code q))); (js "state", JStr (default [] (search_state q)))] ++
        member "error" (search_error q) ++ member "errorDescription" (search_error_description q)).

Inductive CallbackAction :=
| TelegramPosted (message : json)
| TelegramFailed
| OpenerGone
| BindPosted (message : json)
| MissingCode
| SignIn (code : option (list N)) (state : list N) (error description : option (list N)).

Definition some_text (t : option (list N)) : bool := match t with Some (_ :: _) => true | _ => false end.

Definition OAuthCallback {St} `{Storage St} (provider : list N) (q : CallbackSearch) (opener : option bool) (storage : option St)
    : CallbackAction :=
  let callbackState := default [] (search_state q) in
  let telegram := bool_decide (provider = js "telegram") in
  let isTelegramBindCallback := telegram && (bool_decide (search_telegram_bind q = Some (js "success")) ||
                                             bool_decide (search_telegram_bind q = Some (js "error"))) in
  let mode := if isTelegramBindCallback then BindMode else resolveOAuthCallbackMode provider callbackState opener storage in
  match (if telegram then parseTelegramBindCallback q else None) with
  | Some callback =>
      match postTelegramBindResult (Some callback) opener with Some m => TelegramPosted m | None => TelegramFailed end
  | None =>
      match mode with
      | BindMode => match opener with Some false => BindPosted (callback_message provider q) | _ => OpenerGone end
      | LoginMode =>
          if negb (some_text (search_code q)) && negb (some_text (search_error q)) then MissingCode
          else SignIn (if some_text (search_code q) then search_code q else None) callbackState (search_error q)
                 (search_error_description q)
      end
  end.

(** While it waits for the result of a binding. *)
Inductive ScreenEffect := ScreenSuccess | ScreenError (message : json) | ScreenTimeout | CloseWindow | CloseLater.

Record Screen := mkScreen { deadline : Timer; screen_log : list ScreenEffect }.

Definition initScreen : Screen := mkScreen startTimer [].

Definition result_accepted (provider state : list N) (m : json) : bool :=
  json_truthy m && text_is (get "type" m) OAUTH_BIND_RESULT_MESSAGE && text_is (get "provider" m) provider &&
  text_is (get "state" m) state.

(** [from_opener]: the origin is that of the page and the source is the opener. *)
Definition handleBindingResult (provider state : list N) (from_opener : bool) (m : json) (s : Screen) : Screen :=
  if negb from_opener || negb (result_accepted provider state m) then s
  else
    let d := stop (deadline s) in
    if truthy (get "success" m) then mkScreen d (screen_log s ++ [ScreenSuccess; CloseWindow])
    else mkScreen d (screen_log s ++ [ScreenError (or_else (get "message" m) (JStr (js "OAuth failed"))); CloseLater]).

Definition deadline_passes (s : Screen) : Screen :=
  let '(fired, d) := deadline_fires (deadline s) in
  mkScreen d (screen_log s ++ (if fired then [ScreenTimeout; CloseLater] else [])).

Inductive ScreenEvent := ScreenMessage (from_opener : bool) (m : json) | ScreenDeadline.

Definition screen_step (provider state : list N) (e : ScreenEvent) (s : Screen) : Screen :=
  match e with
  | ScreenMessage from_opener m => handleBindingResult provider state from_opener m s
  | ScreenDeadline => deadline_passes s
  end.

(** The message [PostResult] posts. *)
Definition result_message (e : Effect) : option json :=
  match e with
  | PostResult _ provider state success message =>
      Some (JObj [(js "type", JStr OAUTH_BIND_RESULT_MESSAGE); (js "provider", provider); (js "state", state);
                  (js "success", JBool success); (js "message", message)])
  | _ => None
  end.

(** ** The waiting screen *)

Definition run_screen (provider state : list N) (es : list ScreenEvent) (s : Screen) : Screen :=
  fold_left (fun s e => screen_step provider state e s) es s.

Definition is_timeout (e : ScreenEffect) : bool := match e with ScreenTimeout => true | _ => false end.

Definition timeouts (s : Screen) : nat := length (filter (fun e => is_timeout e = true) (screen_log s)).

Lemma screen_inactive provider state es s :
  active (deadline s) = false -> timeouts (run_screen provider state es s) = timeouts s.
Proof.
  revert s. induction es as [|e es IH]; intros s Ha; [done|].
  change (run_screen provider state (e :: es) s) with (run_screen provider state es (screen_step provider state e s)).
  assert (active (deadline (screen_step provider state e s)) = false /\ timeouts (screen_step provider state e s) = timeouts s) as [E1 E2].
  { unfold timeouts. destruct e as [fo m|]; cbn [screen_step].
    - unfold handleBindingResult, stop. rewrite Ha. repeat case_match; cbn [deadline screen_log]; rewrite ?filter_app, ?app_nil_r; done.
    - unfold deadline_passes, deadline_fires. rewrite Ha. destruct (scheduled _); cbn [deadline screen_log]; by rewrite app_nil_r. }
  by rewrite IH.
Qed.

(** The deadline is reported at most once, and never after a result or a former report. *)
Theorem screen_times_out_once provider state es m es' :
  timeouts (run_screen provider state es initScreen) <= 1 /\
  (result_accepted provider state m = true ->
   let s := run_screen provider state es initScreen in
   timeouts (run_screen provider state (ScreenMessage true m :: es') s) = timeouts s).
Proof.
  split.
  - assert (forall s, timeouts s = 0 -> timeouts (run_screen provider state es s) <= 1) as Hgen; [|by apply Hgen].
    induction es as [|e es IH]; intros s Hs; [simpl; lia|].
    change (run_screen provider state (e :: es) s) with (run_screen provider state es (screen_step provider state e s)).
    destruct e as [fo m0|]; cbn [screen_step].
    + apply IH. unfold timeouts in *. unfold handleBindingResult. repeat case_match; cbn [screen_log]; rewrite ?filter_app, ?length_app, ?Hs; done.
    + destruct (deadline_fires (deadline s)) as [[] d] eqn:E; unfold deadline_passes; rewrite E.
      * rewrite screen_inactive.
        { unfold timeouts in *. cbn [screen_log]. rewrite filter_app, length_app, Hs. done. }
        unfold deadline_fires in E. cbn [deadline]. by repeat case_match; simplify_eq.
      * apply IH. unfold timeouts in *. cbn [screen_log]. by rewrite app_nil_r.
  - intros Hm. cbv zeta. set (s := run_screen provider state es initScreen). clearbody s.
    change (timeouts (run_screen provider state es' (handleBindingResult provider state true m s)) = timeouts s).
    rewrite screen_inactive; unfold handleBindingResult; rewrite Hm; cbn [negb orb].
    + unfold timeouts. case_match; cbn [screen_log]; by rewrite filter_app, app_nil_r.
    + unfold stop. destruct (active (deadline s)) eqn:Ea; case_match; done.
Qed.

(** ** The handshake *)

Definition answer_success (a : Answer) : bool := match a with Answered body => truthy (get "success" body) | Failed _ _ => false end.

Section Handshake.
Context {St : Type} `{Storage St}.
Context (newURL : list N -> option (list N) -> option URL).

(** A callback page reached with the state of the binding takes part in it. *)
Lemma callback_in_popup (b : Binding (St := St)) q :
  stamped b -> b_provider b <> js "telegram" -> search_state q = Some (b_state b) ->
  OAuthCallback (b_provider b) q (Some false) (b_storage b) = BindPosted (callback_message (b_provider b) q).
Proof.
  intros (st & Hst & Hg & Hne) Ht Hq. unfold OAuthCallback. rewrite (bool_decide_eq_false_2 _ Ht), Hq, Hst.
  cbn [default andb resolveOAuthCallbackMode]. unfold id. rewrite Hg, bool_decide_eq_true_2 by done. by destruct (b_state b).
Qed.

(** Another state is not a binding. *)
Lemma callback_other_state (b : Binding (St := St)) q opener m :
  stamped b -> b_provider b <> js "telegram" -> search_state q <> Some (b_state b) ->
  OAuthCallback (b_provider b) q opener (b_storage b) <> BindPosted m.
Proof.
  intros (st & Hst & Hg & Hne) Ht Hq. unfold OAuthCallback. rewrite (bool_decide_eq_false_2 _ Ht), Hst. cbn [andb].
  assert (resolveOAuthCallbackMode (b_provider b) (default [] (search_state q)) opener (Some st) = LoginMode) as ->.
  { unfold resolveOAuthCallbackMode. destruct opener as [[]|]; [done| |done]. rewrite Hg.
    destruct (search_state q) as [t|]; [|done]. cbn [default]. unfold id.
    rewrite (bool_decide_eq_false_2 (Some (b_state b) = Some t)) by congruence. by rewrite andb_false_r. }
  by destruct (negb _ && negb _).
Qed.

Lemma callback_message_get (b : Binding (St := St)) q :
  search_state q = Some (b_state b) ->
  let m := callback_message (b_provider b) q in
  json_truthy m = true /\ get "type" m = Some (JStr OAUTH_BIND_CALLBACK_MESSAGE) /\ get "provider" m = Some (JStr (b_provider b)) /\
  get "state" m = Some (JStr (b_state b)) /\ get "code" m = Some (JStr (default [] (search_code q))).
Proof. intros Hq. cbv zeta. unfold callback_message. rewrite Hq. by split_and!. Qed.

Lemma text_is_refl t : text_is (Some (JStr t)) t = true.
Proof. by apply bool_decide_eq_true. Qed.

(** The page accepts the message of the pending popup and sends the request. *)
Lemma callback_accepted (s : Page (St := St)) i b q :
  page_ok newURL None s -> pendingOAuthBinding s = Some i -> bindings s !! i = Some b ->
  search_state q = Some (b_state b) -> some_text (search_code q) = true ->
  let m := callback_message (b_provider b) q in
  let s1 := step newURL (Received (mkMessage true (Some i) m)) s in
  log s1 = log s ++ [Exchange i (JStr (b_provider b)) (exchange_params m)] /\ pendingOAuthBinding s1 = None /\
  handlings s1 = handlings s ++ [mkHandling i m Exchanging].
Proof.
  intros Hs Hp Hb Hq Hc. destruct (callback_message_get b q Hq) as (G1 & G2 & G3 & G4 & G5). cbv zeta in *.
  set (m := callback_message (b_provider b) q) in *. clearbody m. cbn [step]. unfold handleMessage. cbn [same_origin data].
  assert (mounted s = true) as ->.
  { apply not_false_iff_true. intros Hm. by rewrite (ok_unmounted _ _ _ Hs Hm) in Hp. }
  cbn [negb orb]. rewrite Hp, Hb. unfold message_accepted. cbn [data source].
  rewrite G1, G2, G3, G4, !text_is_refl, bool_decide_eq_true_2 by done. cbn [andb negb].
  destruct (search_code q) as [[|c0 code]|]; try done. rewrite G5. cbn [truthy default json_truthy nonempty negb andb or_undefined]. unfold id.
  unfold clearPendingOAuthBinding. rewrite Hp, Nat.eqb_refl. unfold upd. rewrite Hb. by split_and!.
Qed.

Lemma delete_last {A} (l : list A) x : delete (length l) (l ++ [x]) = l.
Proof. rewrite delete_take_drop, take_app_length, drop_ge, app_nil_r; [done|]. rewrite length_app. simpl. lia. Qed.

Lemma insert_last {A} (l : list A) x y : <[length l := y]> (l ++ [x]) = l ++ [y].
Proof. by rewrite insert_app_r_alt, Nat.sub_diag by lia. Qed.

Lemma lookup_last_app {A} (l : list A) x : (l ++ [x]) !! length l = Some x.
Proof. by rewrite lookup_app_r, Nat.sub_diag. Qed.

(** The answer to the request reaches the popup, which accepts it. *)
Lemma exchange_reported (s : Page (St := St)) (b : Binding (St := St)) i m hs a :
  handlings s = hs ++ [mkHandling i m Exchanging] ->
  get "provider" m = Some (JStr (b_provider b)) -> get "state" m = Some (JStr (b_state b)) ->
  let k := length hs in
  let s2 := step newURL (BindingsFetched k) (step newURL (ExchangeAnswered k a) s) in
  handlings s2 = hs /\
  exists e r, last (log s2) = Some e /\ posted e = Some i /\ result_message e = Some r /\
    result_accepted (b_provider b) (b_state b) r = true /\ get "success" r = Some (JBool (answer_success a)).
Proof.
  intros Hh Gp Gs. cbv zeta. cbn [step].
  assert (forall success message (s' : Page (St := St)) es, exists e r,
    last (log (emit (es ++ [post_result i m success message]) s')) = Some e /\ posted e = Some i /\ result_message e = Some r /\
    result_accepted (b_provider b) (b_state b) r = true /\ get "success" r = Some (JBool success)) as Hpost.
  { intros success message s' es. eexists _, _. split_and!; [cbn [emit log]; by rewrite app_assoc, last_snoc|done|reflexivity| |reflexivity].
    unfold post_result. rewrite Gp, Gs. unfold result_accepted.
    change (text_is (Some (JStr OAUTH_BIND_RESULT_MESSAGE)) OAUTH_BIND_RESULT_MESSAGE &&
            text_is (Some (JStr (b_provider b))) (b_provider b) && text_is (Some (JStr (b_state b))) (b_state b) = true).
    by rewrite !text_is_refl. }
  assert (forall s' : Page (St := St), handlings s' = hs -> bindings_fetched (length hs) s' = s') as Hidle.
  { intros s' Hs'. unfold bindings_fetched. by rewrite Hs', lookup_ge_None_2. }
  unfold exchange_answered. rewrite Hh, lookup_last_app, delete_last.
  destruct a as [body|sm et]; cbv zeta; cbn [answer_success]; [destruct (truthy _)|].
  - rewrite insert_last. unfold bindings_fetched. cbn [emit set_handlings handlings]. rewrite lookup_last_app, delete_last. split; [done|].
    exact (Hpost true _ _ []).
  - rewrite Hidle by done. split; [done|]. exact (Hpost false _ _ [_]).
  - rewrite Hidle by done. split; [done|]. exact (Hpost false _ _ [_]).
Qed.

(** The pages of a binding understand each other.  When the provider returns the code and
    the state of the pending binding to its popup, the callback page takes it for a binding and
    its message makes the profile page send the request; whatever the answer, the popup gets and
    accepts a result that tells whether it succeeded.  A callback with another state is not
    taken for a binding. *)
Theorem binding_handshake (es : list Event) (i : nat) (b : Binding) (u : list N) (q : CallbackSearch) :
  let s := run newURL es initPage in
  pendingOAuthBinding s = Some i -> bindings s !! i = Some b -> b_location b = Some u -> b_provider b <> js "telegram" ->
  (search_state q = Some (b_state b) -> some_text (search_code q) = true ->
   exists m, OAuthCallback (b_provider b) q (Some false) (b_storage b) = BindPosted m /\
     let s1 := step newURL (Received (mkMessage true (Some i) m)) s in
     log s1 = log s ++ [Exchange i (JStr (b_provider b)) (exchange_params m)] /\ pendingOAuthBinding s1 = None /\
     ("code"%string, JStr (default [] (search_code q))) ∈ exchange_params m /\
     forall a, let k := length (handlings s) in
       let s2 := step newURL (BindingsFetched k) (step newURL (ExchangeAnswered k a) s1) in
       handlings s2 = handlings s /\
       exists e r, last (log s2) = Some e /\ posted e = Some i /\ result_message e = Some r /\
         result_accepted (b_provider b) (b_state b) r = true /\ get "success" r = Some (JBool (answer_success a))) /\
  (search_state q <> Some (b_state b) ->
   forall opener m, OAuthCallback (b_provider b) q opener (b_storage b) <> BindPosted m).
Proof.
  cbv zeta. pose proof (page_run_ok newURL es initPage (init_ok newURL)) as Hs. set (s := run newURL es initPage) in *. clearbody s.
  intros Hp Hb Hl Ht. destruct (ok_location _ _ _ _ _ (ok_bindings _ _ _ Hs i b Hb) u Hl) as [Hst _].
  split; [|intros Hq opener m; by apply callback_other_state].
  intros Hq Hc. exists (callback_message (b_provider b) q). split; [by apply callback_in_popup|].
  destruct (callback_accepted s i b q Hs Hp Hb Hq Hc) as (H1 & H2 & H3). destruct (callback_message_get b q Hq) as (_ & _ & G3 & G4 & G5).
  split_and!; [done..| |].
  - unfold exchange_params. rewrite G5. apply elem_of_cons. right. apply elem_of_app. left. unfold param.
    destruct (search_code q) as [[|c code]|]; [done| |done]. by apply list_elem_of_singleton.
  - intros a. by apply (exchange_reported _ b i (callback_message (b_provider b) q)).
Qed.

End Handshake.

(** A binding with a concrete parser of the one URL it uses. *)
Definition authorize_url : URL := mkURL (js "https:") (js "id.example") [] [] [] (js "https://id.example") (js "id.example")
  (js "/authorize") (js "https://id.example/authorize") [] [].

Definition sample_parser (value : list N) (base : option (list N)) : option URL :=
  if bool_decide (value = js "https://id.example/authorize") then Some authorize_url else None.

Definition sample_events : list (Event (St := MemoryStorage)) :=
  [Start (js "corp") (fun _ => Some (js "https://id.example/authorize", js "https://id.example/authorize")) (Some (Some ∅));
   FlowCreated 0 (js "st4te")].

Definition sample_search : CallbackSearch := mkSearch (Some (js "c0de")) (Some (js "st4te")) None None None None None.

Lemma binding_handshake_witness :
  exists m, OAuthCallback (St := MemoryStorage) (js "corp") sample_search (Some false) (Some {[bind_key (js "corp") := js "st4te"]}) = BindPosted m.
Proof.
  destruct (proj1 (binding_handshake (H := MemoryStorage_storage) sample_parser sample_events 0
    (mkBinding (js "corp") (js "st4te") (fun _ => Some (js "https://id.example/authorize", js "https://id.example/authorize"))
       startTimer false (Some {[bind_key (js "corp") := js "st4te"]}) (Some (js "https://id.example/authorize")))
    (js "https://id.example/authorize") sample_search ltac:(vm_compute; reflexivity) ltac:(vm_compute; reflexivity)
    ltac:(vm_compute; reflexivity) ltac:(vm_compute; discriminate)) ltac:(vm_compute; reflexivity) ltac:(vm_compute; reflexivity))
    as (m & Hm & _).
  exists m. exact Hm.
Defined.
