(* ===== verification/SignIn.v ===== *)
(** * Sign-in: where it leads and who may register

    (src/apps/web/src/features/auth/lib/auth-redirect.ts, registration.ts,
    lib/legacy-route.ts, features/pricing/lib/route-access.ts, features/auth/hooks/use-auth-redirect.ts)

    The path a user is sent to after signing in, the paths of the former console, the access
    to the price pages, and the providers offered for sign-in and registration.

    The URL parser of the browser is a parameter, as are its query parameters and
    [toLowerCase] beyond ASCII. *)
From S2P Require Import Prelude JsString JsNumber JsJson AuthSession JsCollections Sidebar Access ExternalUrls.
From Stdlib Require Import Lia.

(** ** After signing in *)

Definition typeof_string (v : option json) : option (list N) := match v with Some (JStr s) => Some s | _ => None end.

(** An array has no [language]. *)
Definition getSavedLanguage (user : json) : option (list N) :=
  match get "language" user with
  | Some (JStr s) => Some s
  | _ =>
      match get "setting" user with
      | Some (JObj l) => typeof_string (get "language" (JObj l))
      | Some (JStr text) =>
          match json_parse text with
          | Some setting => typeof_string (get "language" setting)
          | None => None
          end
      | _ => None
      end
  end.

Definition allowedRedirectProtocols : list (list N) := [js "http:"; js "https:"].

Definition BACKSLASH : N := 92%N.

Section Redirect.
Context (newURL : list N -> option (list N) -> option URL).

(** A value that is not a string is [None]. *)
Definition sanitizeAuthRedirect (value : option (list N)) (origin0 : list N) : option (list N) :=
  match value with
  | None => None
  | Some v =>
      let target := trim v in
      if negb (nonempty target) || bool_decide (BACKSLASH ∈ target) || starts_with (js "//") target then None
      else
        match newURL origin0 None with
        | None => None
        | Some trustedOrigin =>
            if negb (bool_decide (protocol trustedOrigin ∈ allowedRedirectProtocols)) then None
            else
              let parsed := if starts_with (js "/") target then newURL target (Some (origin trustedOrigin)) else newURL target None in
              match parsed with
              | None => None
              | Some redirectURL =>
                  if negb (bool_decide (protocol redirectURL ∈ allowedRedirectProtocols)) ||
                     negb (bool_decide (origin redirectURL = origin trustedOrigin)) then None
                  else Some (pathname redirectURL ++ search redirectURL ++ hash redirectURL)
              end
        end
  end.

(** The path [handleLoginSuccess] goes to. *)
Definition login_target (redirectTo : option (list N)) (origin0 : list N) (user admin : option json) : list N :=
  default (getAuthenticatedLandingRoute user admin) (sanitizeAuthRedirect redirectTo origin0).

End Redirect.

(** ** Paths of the former console *)

Definition legacyOrigin : list N := js "https://legacy-route.invalid".

Definition legacyConsoleRoutes : list (string * string) :=
  [("/console", "/dashboard"); ("/console/models", "/models"); ("/console/deployment", "/models/deployments");
   ("/console/subscription", "/subscriptions"); ("/console/channel", "/channels"); ("/console/token", "/keys");
   ("/console/playground", "/playground"); ("/console/redemption", "/redemption-codes"); ("/console/user", "/users");
   ("/console/personal", "/profile"); ("/console/log", "/usage-logs"); ("/console/midjourney", "/usage-logs/drawing");
   ("/console/task", "/usage-logs/task")]%string.

Definition legacySettingsTabs : list (string * string) :=
  [("operation", "/system-settings/operations/behavior"); ("dashboard", "/system-settings/content/dashboard");
   ("chats", "/system-settings/content/chat"); ("drawing", "/system-settings/content/drawing");
   ("payment", "/system-settings/billing/payment"); ("ratio", "/system-settings/billing/model-pricing");
   ("ratelimit", "/system-settings/security/rate-limit"); ("models", "/system-settings/models/global");
   ("model-deployment", "/system-settings/models/model-deployment"); ("performance", "/system-settings/operations/performance");
   ("system", "/system-settings/site/system-info"); ("other", "/system-settings/site/system-info")]%string.

(** An object literal also has the properties of [Object.prototype]. *)
Definition inherited_keys : list (list N) :=
  map js ["constructor"; "__proto__"; "hasOwnProperty"; "isPrototypeOf"; "propertyIsEnumerable"; "toLocaleString"; "toString"; "valueOf";
          "__defineGetter__"; "__defineSetter__"; "__lookupGetter__"; "__lookupSetter__"]%string.

Definition own_property (table : list (string * string)) (key : list N) : option (list N) :=
  list_find (fun kv => js kv.1 = key) table ≫= fun ikv => Some (js ikv.2.2).

Definition strip_slashes (s : list N) : list N := reverse (drop_while (fun c => (c =? SLASH)%N) (reverse s)).

Definition normalizeLegacyPath (path : list N) : list N := if bool_decide (path = js "/") then path else strip_slashes path.

Section Legacy.
Context (newURL : list N -> option (list N) -> option URL).
(** [url.searchParams], the URL with parameters appended, and with a hash set. *)
Context (searchParams : URL -> list (list N * list N)) (append : URL -> list (list N * list N) -> URL)
        (with_hash : URL -> list N -> URL).
(** The text of an inherited property. *)
Context (inherited_text : list N -> list N).

Definition table_get (table : list (string * string)) (key : list N) : option (list N) :=
  match own_property table key with
  | Some v => Some v
  | None => if bool_decide (key ∈ inherited_keys) then Some (inherited_text key) else None
  end.

(** The path a former path is replaced with; [tab] is the parameter of that name or empty. *)
Definition legacy_target (path tab : list N) : option (list N) :=
  if bool_decide (path = js "/login") then Some (js "/sign-in")
  else if bool_decide (path = js "/forbidden") then Some (js "/403")
  else if bool_decide (path = js "/console/topup") then Some (js "/wallet")
  else if bool_decide (path = js "/console/setting") then Some (default (js "/system-settings") (table_get legacySettingsTabs tab))
  else if bool_decide (path = js "/console/chat") then Some (js "/dashboard")
  else if starts_with (js "/console/chat/") path then
    let chatID := drop 14 path in
    Some (if nonempty chatID then js "/chat/" ++ chatID else js "/dashboard")
  else
    match table_get legacyConsoleRoutes path with
    | Some target => Some target
    | None => if starts_with (js "/console/") path then Some (js "/dashboard") else None
    end.

Definition buildTargetHref (targetPath : list N) (source : URL) : res (list N) :=
  match newURL targetPath (Some legacyOrigin) with
  | None => Throw TypeError
  | Some target =>
      let target := with_hash (append target (searchParams source)) (hash source) in
      Ok (pathname target ++ search target ++ hash target)
  end.

Definition first_param (name : list N) (ps : list (list N * list N)) : option (list N) :=
  list_find (fun kv => kv.1 = name) ps ≫= fun ikv => Some ikv.2.2.

Definition resolveLegacyRoute (rawHref : list N) : res (option (list N)) :=
  match newURL rawHref (Some legacyOrigin) with
  | None => Ok None
  | Some source =>
      match legacy_target (normalizeLegacyPath (pathname source)) (default [] (first_param (js "tab") (searchParams source))) with
      | None => Ok None
      | Some target => let* href := buildTargetHref target source in Ok (Some href)
      end
  end.

End Legacy.

(** ** Access to the price pages *)

Inductive PricingRouteKind := Marketplace | Details.

Inductive PricingRouteAccessDecision := Allow | RedirectHome | RedirectMarketplace | RedirectSignIn (redirect : list N).

(** [user] is the user of the store as it is, [resolved] after the session was resolved. *)
Definition resolvePricingRouteAccess (locationHref : list N) (kind : PricingRouteKind) (access : ModuleAccess)
    (user resolved : option json) : PricingRouteAccessDecision :=
  let details := match kind with Details => true | Marketplace => false end in
  if negb (access_enabled access) then RedirectHome
  else
    let user := if requireAuth access || details then resolved else user in
    if details && negb (isConsoleActivated user) then RedirectMarketplace
    else if requireAuth access && negb (match user with Some _ => true | None => false end) then RedirectSignIn locationHref
    else Allow.

(** ** Registration *)

Record CustomOAuthProvider := mkProvider {
  slug : list N;
  authorization_endpoint : option (list N);
  client_id : option (list N) }.

(** The settings of the registration policy; the status and its [data] each may hold them. *)
Record Policy := mkPolicySettings {
  register_enabled : option json;
  password_register_enabled : option json;
  oauth_register_enabled : option json;
  oauth_registration_disabled_methods : option (list (list N)) }.

Record SystemStatus := mkStatus {
  wechat_login : option bool;
  github_oauth : option bool;
  github_client_id : option (list N);
  discord_oauth : option bool;
  discord_client_id : option (list N);
  oidc_enabled : option bool;
  oidc_authorization_endpoint : option (list N);
  oidc_client_id : option (list N);
  linuxdo_oauth : option bool;
  linuxdo_client_id : option (list N);
  telegram_oauth : option bool;
  telegram_bot_name : option (list N);
  custom_oauth_providers : option (list CustomOAuthProvider);
  direct : Policy;
  nested : option Policy }.

Definition hasText (value : option (list N)) : bool := match value with Some s => nonempty (trim s) | None => false end.

Definition on (b : option bool) : bool := bool_decide (b = Some true).

Section Registration.
Context (toLowerCase : list N -> list N).

Definition CUSTOM : list N := js "custom:".

Definition custom_configured (s : list N) (p : CustomOAuthProvider) : bool :=
  bool_decide (toLowerCase (trim (slug p)) = s) && hasText (authorization_endpoint p) && hasText (client_id p).

Definition isOAuthProviderConfigured (status : option SystemStatus) (method : list N) : bool :=
  match status with
  | None => false
  | Some st =>
      let m := toLowerCase (trim method) in
      if bool_decide (m = js "wechat") then on (wechat_login st)
      else if bool_decide (m = js "github") then on (github_oauth st) && hasText (github_client_id st)
      else if bool_decide (m = js "discord") then on (discord_oauth st) && hasText (discord_client_id st)
      else if bool_decide (m = js "oidc") then
        on (oidc_enabled st) && hasText (oidc_authorization_endpoint st) && hasText (oidc_client_id st)
      else if bool_decide (m = js "linuxdo") then on (linuxdo_oauth st) && hasText (linuxdo_client_id st)
      else if bool_decide (m = js "telegram") then on (telegram_oauth st) && hasText (telegram_bot_name st)
      else
        match strip_prefix CUSTOM m with
        | None => false
        | Some s => existsb (custom_configured s) (default [] (custom_oauth_providers st))
        end
  end.

Definition BUILT_IN : list (list N) := map js ["wechat"; "github"; "discord"; "oidc"; "linuxdo"; "telegram"]%string.

Definition custom_method (p : CustomOAuthProvider) : list N := CUSTOM ++ slug p.

Definition providers_of (status : option SystemStatus) : list CustomOAuthProvider :=
  match status with Some st => default [] (custom_oauth_providers st) | None => [] end.

Definition hasOAuthLoginProvider (status : option SystemStatus) : bool :=
  existsb (isOAuthProviderConfigured status) BUILT_IN ||
  existsb (fun p => isOAuthProviderConfigured status (custom_method p)) (providers_of status).

(** [field] is one of the three settings. *)
Definition readRegistrationSetting (status : option SystemStatus) (field : Policy -> option json) : option bool :=
  match status with
  | None => None
  | Some st =>
      match field (direct st) with
      | Some (JBool b) => Some b
      | _ => match nested st with Some d => match field d with Some (JBool b) => Some b | _ => None end | None => None end
      end
  end.

Definition not_false (b : option bool) : bool := negb (bool_decide (b = Some false)).

Definition isRegistrationEnabled (status : option SystemStatus) : bool :=
  not_false (readRegistrationSetting status register_enabled).

Definition isPasswordRegistrationEnabled (status : option SystemStatus) : bool :=
  isRegistrationEnabled status && not_false (readRegistrationSetting status password_register_enabled).

Definition isOAuthRegistrationEnabled (status : option SystemStatus) : bool :=
  isRegistrationEnabled status && not_false (readRegistrationSetting status oauth_register_enabled).

Definition getDisabledOAuthRegistrationMethods (status : option SystemStatus) : list (list N) :=
  let methods := match status with
                 | None => []
                 | Some st => match oauth_registration_disabled_methods (direct st) with
                              | Some l => l
                              | None => default [] (nested st ≫= oauth_registration_disabled_methods)
                              end
                 end in
  set_values (filter (fun m => nonempty m = true) (map (fun m => toLowerCase (trim m)) methods)).

Definition isAllowed (disabled : list (list N)) (method : list N) : bool := negb (bool_decide (method ∈ disabled)).

Definition hasOAuthRegistrationProvider (status : option SystemStatus) : bool :=
  match status with
  | None => false
  | Some st =>
      if negb (isOAuthRegistrationEnabled status) then false
      else
        let disabled := getDisabledOAuthRegistrationMethods status in
        existsb (fun m => isOAuthProviderConfigured status m && isAllowed disabled m) BUILT_IN ||
        existsb (fun p => isOAuthProviderConfigured status (custom_method p) &&
                          isAllowed disabled (CUSTOM ++ toLowerCase (trim (slug p)))) (providers_of status)
  end.

Definition hasRegistrationMethod (status : option SystemStatus) : bool :=
  isPasswordRegistrationEnabled status || hasOAuthRegistrationProvider status.

Definition canOfferRegistration (status : option SystemStatus) (capabilitiesReady localPreview : bool) : bool :=
  localPreview || (capabilitiesReady && hasRegistrationMethod status).

End Registration.

(** ** Where a sign-in leads *)

Lemma drop_while_keeps p l a : (match a with c :: _ => p c = false | [] => True end) -> drop_while p (l ++ a) = drop_while p l ++ a.
Proof.
  intros Ha. induction l as [|c l IH]; cbn [drop_while app].
  - destruct a as [|c a]; [done|]. by rewrite drop_while_id.
  - by destruct (p c).
Qed.

(** A prefix without space at its ends stays in front. *)
Lemma trim_keeps a y : a <> [] -> trimmed a -> trim (a ++ y) = a ++ trim_end y.
Proof.
  intros Hne [H1 H2]. unfold trim, trim_start. destruct a as [|c a]; [done|]. rewrite <- app_comm_cons, drop_while_id by done.
  unfold trim_end. rewrite app_comm_cons, reverse_app, drop_while_keeps, reverse_app, reverse_involutive by done. done.
Qed.

(** A redirect accepted after sign-in is the path, query and hash of a URL with the
    origin of the page, over HTTP.  It can still begin with two slashes, when the URL has
    such a path: then the function refuses its own result, as the name of another host. *)
Theorem auth_redirect_same_origin newURL (v origin0 r : list N) :
  sanitizeAuthRedirect newURL (Some v) origin0 = Some r ->
  exists page u, newURL origin0 None = Some page /\
    newURL (trim v) (if starts_with (js "/") (trim v) then Some (origin page) else None) = Some u /\
    protocol u ∈ allowedRedirectProtocols /\ origin u = origin page /\ r = pathname u ++ search u ++ hash u /\
    (starts_with (js "//") (pathname u) = true ->
     sanitizeAuthRedirect newURL (Some r) origin0 = None).
Proof.
  unfold sanitizeAuthRedirect at 1. destruct (negb (nonempty (trim v)) || _ || _) eqn:Et; [done|].
  destruct (newURL origin0 None) as [page|] eqn:Eo; [|done]. destruct (negb (bool_decide (protocol page ∈ _))) eqn:Hp; [done|].
  assert ((if starts_with (js "/") (trim v) then newURL (trim v) (Some (origin page)) else newURL (trim v) None) =
          newURL (trim v) (if starts_with (js "/") (trim v) then Some (origin page) else None)) as ->
    by (destruct (starts_with (js "/") (trim v)); reflexivity).
  destruct (newURL (trim v) _) as [u|] eqn:Eu; [|done]. destruct (negb (bool_decide (protocol u ∈ _)) || negb (bool_decide (origin u = _))) eqn:Hu; [done|].
  apply orb_false_iff in Hu as [Hu Ho]. apply negb_false_iff, bool_decide_eq_true in Hu, Ho. intros [= <-]. exists page, u. split_and!; [done..|].
  intros (rest & Hr)%starts_with_eq. rewrite Hr. unfold sanitizeAuthRedirect.
  assert (starts_with (js "//") (trim ((js "//" ++ rest) ++ search u ++ hash u)) = true) as Hs.
  { rewrite <- app_assoc. apply starts_with_eq. eexists. apply trim_keeps; by vm_compute. }
  by rewrite Hs, orb_true_r.
Qed.

(** A parser of plain HTTPS URLs, without query, hash or dots to resolve. *)
Definition plain_url (value : list N) (base : option (list N)) : option URL :=
  match strip_prefix (js "https://") (if starts_with (js "/") value then default [] base ++ value else value) with
  | None => None
  | Some rest =>
      let '(h, p) := span (fun c => negb (c =? SLASH)%N) rest in
      Some (mkURL (js "https:") h [] [] [] (js "https://" ++ h) h (if nonempty p then p else js "/") (js "https://" ++ rest) [] [])
  end.

Lemma auth_redirect_same_origin_witness :
  sanitizeAuthRedirect plain_url (Some (js "https://app.example//evil.example")) (js "https://app.example") = Some (js "//evil.example") /\
  sanitizeAuthRedirect plain_url (Some (js "//evil.example")) (js "https://app.example") = None.
Proof.
  assert (sanitizeAuthRedirect plain_url (Some (js "https://app.example//evil.example")) (js "https://app.example") = Some (js "//evil.example"))
    as H by (vm_compute; reflexivity).
  split; [exact H|]. destruct (auth_redirect_same_origin plain_url _ _ _ H) as (page & u & _ & Hu & _ & _ & _ & Hn).
  apply Hn. vm_compute in Hu. injection Hu as <-. vm_compute. reflexivity.
Defined.

(** ** Former paths *)

Definition fixed_targets : list (list N) :=
  map js ["/sign-in"; "/403"; "/wallet"; "/system-settings"; "/dashboard"]%string ++
  map (fun kv => js kv.2) legacyConsoleRoutes ++ map (fun kv => js kv.2) legacySettingsTabs.

Lemma own_property_target table key t : own_property table key = Some t -> t ∈ map (fun kv => js kv.2) table.
Proof.
  unfold own_property. destruct (list_find _ table) as [[i kv]|] eqn:E; [|done]. intros [= <-].
  apply list_find_Some in E as (Hi & _). apply list_elem_of_In, (in_map (fun kv : string * string => js kv.2)), list_elem_of_In.
  by eapply list_elem_of_lookup_2.
Qed.

Lemma rooted_not_inherited path : starts_with (js "/") path = true -> path ∉ inherited_keys.
Proof.
  intros Hr Hin. assert (forallb (fun k => negb (starts_with (js "/") k)) inherited_keys = true) as Hf by (by vm_compute).
  rewrite forallb_forall in Hf. specialize (Hf path (proj1 (list_elem_of_In _ _) Hin)). by rewrite Hr in Hf.
Qed.

Lemma console_key path t : own_property legacyConsoleRoutes path = Some t -> path = js "/console" \/ starts_with (js "/console/") path = true.
Proof.
  unfold own_property. destruct (list_find _ _) as [[i kv]|] eqn:Ef; [|done]. intros _.
  apply list_find_Some in Ef as (Hi & <- & _). apply list_elem_of_lookup_2 in Hi.
  repeat (apply elem_of_cons in Hi as [->|Hi]; [first [by left|by right; vm_compute]|]). by apply elem_of_nil in Hi.
Qed.

Section LegacyPaths.
Context (inherited_text : list N -> list N).

Notation target := (legacy_target inherited_text).

(** A target is a fixed path or a chat, unless the tab names an inherited property. *)
Lemma target_cases path tab t :
  starts_with (js "/") path = true -> tab ∉ inherited_keys -> target path tab = Some t ->
  t ∈ fixed_targets \/ starts_with (js "/chat/") t = true.
Proof.
  intros Hr Htab. unfold legacy_target.
  pose proof (rooted_not_inherited path Hr) as Hk.
  assert (forall t, table_get inherited_text legacyConsoleRoutes path = Some t -> t ∈ fixed_targets) as H1.
  { intros t'. unfold table_get. destruct (own_property legacyConsoleRoutes path) as [v|] eqn:E.
    - intros [= <-]. apply elem_of_app. right. apply elem_of_app. left. by eapply own_property_target.
    - by rewrite bool_decide_eq_false_2. }
  assert (default (js "/system-settings") (table_get inherited_text legacySettingsTabs tab) ∈ fixed_targets) as H2.
  { unfold table_get. destruct (own_property legacySettingsTabs tab) as [v|] eqn:E.
    - cbn [default]. apply elem_of_app. right. apply elem_of_app. right. by eapply own_property_target.
    - rewrite bool_decide_eq_false_2 by done. apply (bool_decide_unpack _). by vm_compute. }
  assert (forall k, bool_decide (k ∈ fixed_targets) = true -> Some k = Some t -> t ∈ fixed_targets \/ starts_with (js "/chat/") t = true) as H3.
  { intros k Hin%bool_decide_eq_true [= <-]. by left. }
  repeat (case_bool_decide; [first [by apply H3|intros [= <-]; by left]|]).
  cbv zeta. destruct (starts_with (js "/console/chat/") path); [destruct (nonempty _)|].
  - intros Ht. right. apply starts_with_eq. exists (drop 14 path). congruence.
  - by apply H3.
  - destruct (table_get _ _ path) as [t'|] eqn:E; [intros [= <-]; left; by apply H1|].
    destruct (starts_with (js "/console/") path); [by apply H3|done].
Qed.

Lemma chat_not_legacy t tab : starts_with (js "/chat/") t = true -> target (normalizeLegacyPath t) tab = None.
Proof.
  intros [r ->]%starts_with_eq. unfold normalizeLegacyPath. rewrite bool_decide_eq_false_2 by done.
  assert (exists y, strip_slashes (js "/chat/" ++ r) = js "/chat" ++ y) as [y ->].
  { change (js "/chat/" ++ r) with (js "/chat" ++ [SLASH] ++ r). unfold strip_slashes.
    rewrite reverse_app, drop_while_keeps, reverse_app, reverse_involutive by (by vm_compute). by eexists. }
  unfold legacy_target. repeat (rewrite bool_decide_eq_false_2 by done).
  change (starts_with (js "/console/chat/") (js "/chat" ++ y)) with false. change (starts_with (js "/console/") (js "/chat" ++ y)) with false.
  unfold table_get. rewrite (bool_decide_eq_false_2 (_ ∈ inherited_keys)) by (by apply rooted_not_inherited).
  destruct (own_property legacyConsoleRoutes (js "/chat" ++ y)) as [v|] eqn:E; [|done]. exfalso.
  by destruct (console_key _ _ E).
Qed.

(** Former paths are /login, /forbidden, /console and those under it; each is replaced with a
    path of the application that is not itself a former path, so that a redirect is not
    followed by another. *)
Theorem legacy_routes_settle path tab :
  starts_with (js "/") path = true -> tab ∉ inherited_keys ->
  (target path tab = None <-> path ∉ map js ["/login"; "/forbidden"; "/console"]%string /\ starts_with (js "/console/") path = false) /\
  (forall t tab', target path tab = Some t -> internal_path t = true /\ target (normalizeLegacyPath t) tab' = None).
Proof.
  intros Hr Htab. split.
  { unfold legacy_target. cbn [map]. rewrite !not_elem_of_cons.
    case_bool_decide as H1; [split; [done|naive_solver]|]. case_bool_decide as H2; [split; [done|naive_solver]|].
    repeat (case_bool_decide as H0; [rewrite H0; split; [done|by intros [_ ?]]|clear H0]).
    destruct (starts_with (js "/console/chat/") path) eqn:Ec.
    { apply starts_with_eq in Ec as [r ->]. split; [by destruct (nonempty _)|by intros [_ ?]]. }
    unfold table_get. rewrite (bool_decide_eq_false_2 (path ∈ inherited_keys)) by (by apply rooted_not_inherited).
    destruct (own_property legacyConsoleRoutes path) as [t|] eqn:E.
    - split; [done|]. intros ((_ & _ & Hne & _) & Hs). destruct (console_key path t E); congruence.
    - destruct (starts_with (js "/console/") path); [split; [done|by intros [_ ?]]|]. split; [|done]. intros _.
      split_and!; [done..| |set_solver|done]. intros ->. by vm_compute in E. }
  intros t tab' Ht. destruct (target_cases path tab t Hr Htab Ht) as [Hin|Hc].
  - assert (forallb (fun t => internal_path t && match target (normalizeLegacyPath t) tab' with None => true | _ => false end) fixed_targets = true) as Hall
      by (vm_compute; reflexivity).
    rewrite forallb_forall in Hall. specialize (Hall t (proj1 (list_elem_of_In _ _) Hin)). apply andb_true_iff in Hall as [? Hn].
    split; [done|]. by destruct (target (normalizeLegacyPath t) tab').
  - split; [|by apply chat_not_legacy]. apply starts_with_eq in Hc as [r ->]. done.
Qed.

End LegacyPaths.

(** A tab named like a property every object has is looked up in the prototype: the target is
    its text, not the settings. *)
Example inherited_tab_not_settings :
  legacy_target (fun _ => js "function Object() { [native code] }") (js "/console/setting") (js "constructor") =
    Some (js "function Object() { [native code] }") /\
  legacy_target (fun _ => []) (js "/console/setting") (js "unknown") = Some (js "/system-settings").
Proof. by vm_compute. Qed.

(** ** Price pages *)

(** A price page is shown only if its module is enabled, to a signed-in user where that is
    required, and the details of a model only to an activated one. *)
Theorem pricing_access_allowed href kind access user resolved :
  resolvePricingRouteAccess href kind access user resolved = Allow <->
  access_enabled access = true /\ (requireAuth access = true -> resolved <> None) /\
  (kind = Details -> isConsoleActivated resolved = true).
Proof.
  unfold resolvePricingRouteAccess. destruct (access_enabled access); cbn [negb]; [|naive_solver].
  destruct kind, (requireAuth access); cbn [andb orb]; try destruct (isConsoleActivated resolved); destruct resolved; naive_solver.
Qed.

(** ** Registration *)

Section Providers.
Context (toLowerCase : list N -> list N).

Definition with_policy (d : Policy) (n : option Policy) (st : SystemStatus) : SystemStatus :=
  mkStatus (wechat_login st) (github_oauth st) (github_client_id st) (discord_oauth st) (discord_client_id st) (oidc_enabled st)
    (oidc_authorization_endpoint st) (oidc_client_id st) (linuxdo_oauth st) (linuxdo_client_id st) (telegram_oauth st)
    (telegram_bot_name st) (custom_oauth_providers st) d n.

(** A provider that can be used: the name it is launched by, and the name a policy disables. *)
Definition offered (st : SystemStatus) (launch name : list N) : Prop :=
  isOAuthProviderConfigured toLowerCase (Some st) launch = true /\
  (launch ∈ BUILT_IN /\ name = launch \/
   exists p, p ∈ default [] (custom_oauth_providers st) /\ launch = custom_method p /\ name = CUSTOM ++ toLowerCase (trim (slug p))).

Lemma login_offered st : hasOAuthLoginProvider toLowerCase (Some st) = true <-> exists launch name, offered st launch name.
Proof.
  unfold hasOAuthLoginProvider, offered. rewrite orb_true_iff, !existsb_exists. cbn [providers_of]. split.
  - intros [(m & Hm & Hc)|(p & Hp & Hc)].
    + exists m, m. split; [done|]. left. split; [by apply list_elem_of_In|done].
    + exists (custom_method p), (CUSTOM ++ toLowerCase (trim (slug p))). split; [done|]. right. exists p. split_and!; [|done..]. by apply list_elem_of_In.
  - intros (m & n & Hc & [[Hm _]|(p & Hp & -> & _)]).
    + left. exists m. split; [by apply list_elem_of_In|done].
    + right. exists p. split; [by apply list_elem_of_In|done].
Qed.

(** Registration is offered by password or by a provider one can sign in with whose name is not
    disabled; the policy never changes whether a provider can be signed in with. *)
Theorem registration_policy st ready preview :
  let status := Some st in
  (forall d n, hasOAuthLoginProvider toLowerCase (Some (with_policy d n st)) = hasOAuthLoginProvider toLowerCase status) /\
  (canOfferRegistration toLowerCase status ready preview = true <->
   preview = true \/ ready = true /\ readRegistrationSetting status register_enabled <> Some false /\
     (readRegistrationSetting status password_register_enabled <> Some false \/
      readRegistrationSetting status oauth_register_enabled <> Some false /\
      exists launch name, offered st launch name /\ name ∉ getDisabledOAuthRegistrationMethods toLowerCase status)).
Proof.
  cbv zeta. split; [done|]. unfold canOfferRegistration. rewrite orb_true_iff, andb_true_iff.
  assert (hasOAuthRegistrationProvider toLowerCase (Some st) = true <->
          isOAuthRegistrationEnabled (Some st) = true /\
          exists launch name, offered st launch name /\ name ∉ getDisabledOAuthRegistrationMethods toLowerCase (Some st)) as Hp.
  { unfold hasOAuthRegistrationProvider. destruct (isOAuthRegistrationEnabled (Some st)); cbn [negb]; [|naive_solver].
    cbv zeta. rewrite orb_true_iff, !existsb_exists. cbn [providers_of]. unfold offered, isAllowed.
    setoid_rewrite andb_true_iff. setoid_rewrite negb_true_iff. setoid_rewrite bool_decide_eq_false. setoid_rewrite <- list_elem_of_In.
    split; [|naive_solver]. intros [H|H]; [naive_solver|]. split; [done|]. destruct H as (p & ? & ? & ?). by eexists _, _; split; [split; [|right; exists p]|]. }
  unfold hasRegistrationMethod. rewrite orb_true_iff, Hp.
  assert (forall o, not_false o = true <-> o <> Some false) as Hn.
  { intros o. unfold not_false. rewrite negb_true_iff. apply bool_decide_eq_false. }
  unfold isPasswordRegistrationEnabled, isOAuthRegistrationEnabled, isRegistrationEnabled. rewrite !andb_true_iff, !Hn. tauto.
Qed.

End Providers.

(** The name of a custom provider is compared with its trimmed slug, but launched with the slug as
    it is: a slug with a space in front is never found. *)
Example custom_slugs_found :
  let st slugs := mkStatus None None None None None None None None None None None None
    (Some (map (fun s => mkProvider (js s) (Some (js "https://id.example")) (Some (js "id"))) slugs))
    (mkPolicySettings None None None None) None in
  map (fun s => hasOAuthLoginProvider (map lower_ascii) (Some (st [s]))) ["Corp"; "corp "; " corp"]%string = [true; true; false].
Proof. by vm_compute. Qed.
