(* ===== verification/AssistantActions.v ===== *)
(** * Actions the assistant proposes (src/apps/web/src/features/assistant/api.ts)

    The answer of the assistant may carry an action: a page to open, an offer, a change of
    an account or of the configuration.  What the client shows and executes is decided by
    [parseAssistantAction], from whatever JSON the answer holds.

    An action is the record the source returns; an optional property that is left out is
    [None].  Parsing an array gives nothing, as an array has none of the properties. *)
From S2P Require Import Prelude JsString JsNumber JsJson JsNumberPrint AuthSession JsCollections Wallet.
From Stdlib Require Import Lia.

(** ** Readers *)

(** [typeof value === 'string'] and the like. *)
Definition text (k : string) (v : json) : option (list N) := as_string (get k v).
Definition trimmed_text (k : string) (v : json) : option (list N) := trim <$> text k v.
Definition number (k : string) (v : json) : option spec_float := match get k v with Some (JNum n) => Some n | _ => None end.
Definition boolean (k : string) (v : json) : option bool := match get k v with Some (JBool b) => Some b | _ => None end.
Definition items (k : string) (v : json) : option (list json) := match get k v with Some (JArr l) => Some l | _ => None end.

Definition keep {A} (test : A -> bool) (x : A) : option A := if test x then Some x else None.

Definition integer (k : string) (v : json) : option spec_float := number k v ≫= keep is_integer.

Definition at_least (lo n : spec_float) : bool := num_leb lo n.
Definition between (lo hi : Z) (n : spec_float) : bool := num_leb (num_of_Z lo) n && num_leb n (num_of_Z hi).
Definition positive_int (k : string) (v : json) : option spec_float := integer k v ≫= keep (num_ltb num_zero).

(** A text that is not empty after trimming. *)
Definition filled_text (k : string) (v : json) : option (list N) := trimmed_text k v ≫= keep nonempty.

Definition has_type (t : string) (v : json) : bool := bool_decide (text "type" v = Some (js t)).
Definition has (k : string) (v : json) : bool := match get k v with Some _ => true | None => false end.

(** [[...text]]: the code points, lone surrogates by themselves. *)
Fixpoint runes (s : list N) : list (list N) :=
  match s with
  | [] => []
  | c :: r =>
      match r with
      | d :: r' => if is_high_surrogate c && is_low_surrogate d then [c; d] :: runes r' else [c] :: runes r
      | [] => [[c]]
      end
  end.

Definition runes_within (lo hi : nat) (s : list N) : bool := (lo <=? length (runes s)) && (length (runes s) <=? hi).

(** [Object.entries] of an object or array. *)
Definition entries (v : json) : option (list (list N * json)) :=
  match v with
  | JObj l => Some (object_entries l)
  | JArr l => Some (imap (fun i x => (num_to_string (num_of_Z (Z.of_nat i)), x)) l)
  | _ => None
  end.

(** [obj[key] = primitive] on an object literal: the prototype is not changed by one. *)
Definition assign (k : list N) (v : json) (l : list (list N * json)) : list (list N * json) :=
  if bool_decide (k = js "__proto__") then l else set_member k v l.

(** ** Actions *)

Record UserTarget := mkTarget {
  target_user_id : spec_float;
  target_username : list N;
  target_display_name : list N;
  target_role : spec_float;
  target_group : list N;
  target_is_self : bool }.

Inductive ProviderKind := BuiltIn | CustomProvider.
Inductive AccountVerb := DisableAccount | DeleteAccount.
Inductive ConfigScope := UserSkills | ChannelScope.

Record ConfigPreview := mkPreview { preview_key : list N; preview_label : list N; old_value : list N; new_value : list N }.

Record PricingPreview := mkPricing { pricing_model : list N; pricing_old : json; pricing_next : json }.

Record ModelPreview := mkModelPreview { model_id : list N; model_vendor : list N; model_status : spec_float }.

Record VendorPreview := mkVendor {
  vendor_name : list N;
  vendor_description : option (list N);
  vendor_icon : option (list N);
  vendor_status : spec_float }.

(** [confirmation_token] and [expires_in_seconds] of an action that requires confirmation. *)
Record Confirmation := mkConfirmation { token : list N; expires_in_seconds : spec_float }.

Inductive AssistantAction :=
| Navigate (path : list N) (query : list (list N * json))
| NewUserGift (amount_cents : spec_float) (reason : list N)
| WeeklyDiscount (discount_percent : spec_float) (reason : list N)
| UserPasswordChange (target : UserTarget)
| UserOAuthUnbind (target : UserTarget) (provider : list N) (kind : ProviderKind) (label : list N)
| UserAccountAction (target : UserTarget) (verb : AccountVerb)
| HumanSupport (c : Confirmation) (message : list N)
| AdminConfigChange (c : Confirmation) (scope : option ConfigScope) (target_user channel_id : option spec_float)
    (channel_name : option (list N)) (changes : list ConfigPreview) (warnings : option (list (list N)))
| AdminPricingChange (c : Confirmation) (pricing : PricingPreview)
| AdminModelSync (c : Confirmation) (models : list ModelPreview) (vendors : option (list VendorPreview))
    (locale source_digest : list N)
| CreateKey (c : Confirmation) (name group : list N)
| ImageGeneration (c : Confirmation) (prompt model group : list N) (n : spec_float) (size quality : option (list N))
| L1Recommendation (token user_statement recommendation : list N)
| AccountDisableRequest (token : list N) (target_user : spec_float) (username reason : list N).

(** ** Navigation *)

Definition ASSISTANT_NAVIGATION_PATHS : list (list N) :=
  map js ["/"; "/getting-started"; "/pricing"; "/wallet"; "/usage-logs/common"; "/usage-logs/drawing"; "/usage-logs/task"; "/keys";
          "/drawing"; "/models"; "/profile"; "/support"; "/open-source-bounties"; "/users"]%string.

Definition ASSISTANT_NAVIGATION_QUERY_KEYS (path : list N) : list (list N) :=
  if bool_decide (path ∈ map js ["/usage-logs/common"; "/usage-logs/drawing"; "/usage-logs/task"]%string) then [js "username"]
  else if bool_decide (path = js "/users") then [js "filter"; js "l0Only"]
  else [].

(** The value kept for the query, if it is acceptable. *)
Definition query_value (v : json) : option json :=
  match v with
  | JStr s => if length (trim s) <=? 200 then Some (JStr (trim s)) else None
  | JNum n => if is_finite n then Some v else None
  | JBool _ => Some v
  | _ => None
  end.

Fixpoint build_query (allowed : list (list N)) (es : list (list N * json)) (query : list (list N * json)) : option (list (list N * json)) :=
  match es with
  | [] => Some query
  | (k, v) :: es' =>
      if bool_decide (k ∈ allowed) then
        match query_value v with
        | Some v' => build_query allowed es' (assign k v' query)
        | None => None
        end
      else None
  end.

Definition parseAssistantNavigationAction (v : json) : option AssistantAction :=
  if has_type "navigate" v then
    path ← trimmed_text "path" v ≫= keep (fun p => bool_decide (p ∈ ASSISTANT_NAVIGATION_PATHS));
    query ← match get "query" v with
            | None => Some []
            | Some q => es ← entries q; build_query (ASSISTANT_NAVIGATION_QUERY_KEYS path) es []
            end;
    Some (Navigate path query)
  else None.

(** ** Offers *)

Definition offered_reason (v : json) : option (list N) :=
  trimmed_text "reason" v ≫= keep (runes_within 2 240).

Definition is_offered (v : json) : bool := bool_decide (text "status" v = Some (js "offered")).

Definition parseAssistantNewUserGiftAction (v : json) : option AssistantAction :=
  if has_type "new_user_gift" v && is_offered v then
    amount ← integer "amount_cents" v ≫= keep (between 1 1000);
    reason ← offered_reason v;
    Some (NewUserGift amount reason)
  else None.

Definition parseAssistantWeeklyDiscountAction (v : json) : option AssistantAction :=
  if has_type "weekly_discount" v && is_offered v then
    percent ← integer "discount_percent" v ≫= keep (between 1 10);
    reason ← offered_reason v;
    Some (WeeklyDiscount percent reason)
  else None.

(** ** Actions on a user *)

Definition secret_keys : list string := ["password"; "new_password"; "current_password"; "api_key"; "access_token"].

Definition requires_confirmation (v : json) : bool := bool_decide (boolean "requires_confirmation" v = Some true).

Definition parse_target (v : json) : option UserTarget :=
  id ← integer "target_user_id" v ≫= keep (at_least (num_of_Z 1));
  username ← trimmed_text "target_username" v;
  display ← trimmed_text "target_display_name" v;
  role ← integer "target_role" v;
  group ← trimmed_text "target_group" v;
  is_self ← boolean "target_is_self" v;
  if nonempty username && nonempty group then Some (mkTarget id username display role group is_self) else None.

Definition provider_kind (v : json) : option ProviderKind :=
  if bool_decide (text "provider_kind" v = Some (js "built_in")) then Some BuiltIn
  else if bool_decide (text "provider_kind" v = Some (js "custom")) then Some CustomProvider else None.

Definition account_verb (v : json) : option AccountVerb :=
  if bool_decide (text "action" v = Some (js "disable")) then Some DisableAccount
  else if bool_decide (text "action" v = Some (js "delete")) then Some DeleteAccount else None.

Definition parseAssistantUserAction (v : json) : option AssistantAction :=
  if existsb (fun k => has k v) secret_keys || negb (requires_confirmation v) then None
  else
    target ← parse_target v;
    if has_type "user_password_change" v then Some (UserPasswordChange target)
    else if has_type "user_oauth_unbind" v then
      kind ← provider_kind v;
      provider ← filled_text "provider" v;
      label ← filled_text "provider_label" v;
      Some (UserOAuthUnbind target provider kind label)
    else if has_type "user_account_action" v then
      verb ← account_verb v;
      Some (UserAccountAction target verb)
    else None.

(** ** Actions with a confirmation token *)

Definition confirmation_token (v : json) : option (list N) := filled_text "confirmation_token" v.

Definition parse_confirmation (v : json) : option Confirmation :=
  t ← confirmation_token v;
  if requires_confirmation v then
    n ← positive_int "expires_in_seconds" v;
    Some (mkConfirmation t n)
  else None.

Definition parse_human_support (v : json) : option AssistantAction :=
  if has_type "human_support" v then
    c ← parse_confirmation v;
    message ← trimmed_text "message" v ≫= keep (runes_within 5 2000);
    Some (HumanSupport c message)
  else None.

Definition parse_change (v : json) : option ConfigPreview :=
  key ← filled_text "key" v;
  label ← filled_text "label" v;
  old ← text "old_value" v;
  next ← text "new_value" v;
  Some (mkPreview key label old next).

(** All items parse, and there is one. *)
Definition all_items {A} (parse : json -> option A) (l : list json) : option (list A) :=
  match l with [] => None | _ => mapM parse l end.

Definition config_scope (v : json) : option ConfigScope :=
  if bool_decide (text "scope" v = Some (js "user_skills")) then Some UserSkills
  else if bool_decide (text "scope" v = Some (js "channel")) then Some ChannelScope else None.

(** A property that may be missing, and is rejected when present and not valid. *)
Definition optional {A} (k : string) (parse : option A) (v : json) : option (option A) :=
  if has k v then Some <$> parse else Some None.

Definition parse_config_change (v : json) : option AssistantAction :=
  if has_type "admin_config_change" v then
    c ← parse_confirmation v;
    changes ← items "changes" v ≫= all_items parse_change;
    scope ← optional "scope" (config_scope v) v;
    target ← optional "target_user_id" (positive_int "target_user_id" v) v;
    channel ← optional "channel_id" (positive_int "channel_id" v) v;
    name ← optional "channel_name" (filled_text "channel_name" v) v;
    Some (AdminConfigChange c scope target channel name changes (omap as_string ∘ map Some <$> items "warnings" v))
  else None.

(** [value && typeof value === 'object'] *)
Definition object_value (v : option json) : option json :=
  match v with Some (JObj l) => Some (JObj l) | Some (JArr l) => Some (JArr l) | _ => None end.

Definition parse_pricing_change (v : json) : option AssistantAction :=
  if has_type "admin_pricing_change" v then
    c ← parse_confirmation v;
    pricing ← object_value (get "pricing" v);
    model ← filled_text "model_id" pricing;
    old ← object_value (get "old" pricing);
    next ← object_value (get "next" pricing);
    Some (AdminPricingChange c (mkPricing model old next))
  else None.

Definition parse_model (v : json) : option ModelPreview :=
  id ← filled_text "model_id" v;
  vendor ← trimmed_text "vendor" v;
  status ← integer "status" v;
  Some (mkModelPreview id vendor status).

Definition parse_vendor (v : json) : option VendorPreview :=
  name ← filled_text "name" v;
  status ← integer "status" v;
  Some (mkVendor name (trimmed_text "description" v) (trimmed_text "icon" v) status).

Definition is_hex_digit (c : N) : bool := is_digit c || ((97 <=? c) && (c <=? 102))%N.

(** [/^[0-9a-f]{64}$/] *)
Definition is_digest (s : list N) : bool := (length s =? 64) && forallb is_hex_digit s.

(** No list of vendors is the same as an empty one. *)
Definition parse_vendors (v : json) : option (option (list VendorPreview)) :=
  match get "vendors" v with
  | None | Some JNull => Some None
  | Some (JArr l) =>
      vendors ← mapM parse_vendor l;
      Some (match vendors with [] => None | _ => Some vendors end)
  | Some _ => None
  end.

(** Lowering ASCII letters is enough: no other unit is lowered to a digit of the digest. *)
Definition parse_model_sync (v : json) : option AssistantAction :=
  if has_type "admin_model_sync" v then
    c ← parse_confirmation v;
    models ← items "models" v ≫= all_items parse_model;
    locale ← trimmed_text "locale" v;
    digest ← (map lower_ascii <$> trimmed_text "source_digest" v) ≫= keep is_digest;
    vendors ← parse_vendors v;
    Some (AdminModelSync c models vendors locale digest)
  else None.

Definition parse_create_key (v : json) : option AssistantAction :=
  if has_type "create_key" v then
    c ← parse_confirmation v;
    name ← filled_text "name" v;
    group ← filled_text "group" v;
    Some (CreateKey c name group)
  else None.

Definition short_text (max : nat) (k : string) (v : json) : option (list N) :=
  filled_text k v ≫= keep (fun s => length s <=? max).

(** A text that may be missing or blank: kept when it is short enough. *)
Definition short_option (max : nat) (k : string) (v : json) : option (option (list N)) :=
  let s := default [] (trimmed_text k v) in
  if nonempty s then Some <$> keep (fun s => length s <=? max) s else Some None.

Definition parse_image_generation (v : json) : option AssistantAction :=
  if has_type "image_generation" v then
    c ← parse_confirmation v;
    prompt ← short_text 2000 "prompt" v;
    model ← short_text 200 "model" v;
    group ← short_text 64 "group" v;
    n ← integer "n" v ≫= keep (between 1 4);
    size ← short_option 32 "size" v;
    quality ← short_option 32 "quality" v;
    Some (ImageGeneration c prompt model group n size quality)
  else None.

Definition parse_recommendation (v : json) : option AssistantAction :=
  if has_type "l1_recommendation" v then
    t ← confirmation_token v;
    statement ← filled_text "user_statement" v;
    recommendation ← filled_text "recommendation" v;
    Some (L1Recommendation t statement recommendation)
  else None.

Definition parse_disable_request (v : json) : option AssistantAction :=
  if has_type "account_disable_request" v then
    t ← confirmation_token v;
    id ← positive_int "target_user_id" v;
    username ← filled_text "target_username" v;
    reason ← filled_text "reason" v;
    Some (AccountDisableRequest t id username reason)
  else None.

(** The blocks of the source in their order; each tests the type first. *)
Definition action_parsers : list (json -> option AssistantAction) :=
  [parseAssistantNavigationAction; parseAssistantNewUserGiftAction; parseAssistantWeeklyDiscountAction; parseAssistantUserAction;
   parse_human_support; parse_config_change; parse_pricing_change; parse_model_sync; parse_create_key; parse_image_generation;
   parse_recommendation; parse_disable_request].

Fixpoint first_result {A B} (fs : list (A -> option B)) (x : A) : option B :=
  match fs with
  | [] => None
  | f :: fs' => match f x with Some r => Some r | None => first_result fs' x end
  end.

Definition parseAssistantAction (value : option json) : option AssistantAction :=
  match value with Some v => first_result action_parsers v | None => None end.

(** ** Actions as JSON

    What a backend sends for an action: the properties of the source in their order. *)

Definition obj (l : list (string * option json)) : json := JObj (omap (fun kv => pair (js kv.1) <$> kv.2) l).

Definition str (s : list N) : option json := Some (JStr s).
Definition num_of (n : spec_float) : option json := Some (JNum n).
Definition lit (s : string) : option json := Some (JStr (js s)).

Definition confirmation_members (c : Confirmation) : list (string * option json) :=
  [("confirmation_token", str (token c)); ("requires_confirmation", Some (JBool true));
   ("expires_in_seconds", num_of (expires_in_seconds c))]%string.

Definition target_members (t : UserTarget) : list (string * option json) :=
  [("requires_confirmation", Some (JBool true)); ("target_user_id", num_of (target_user_id t));
   ("target_username", str (target_username t)); ("target_display_name", str (target_display_name t));
   ("target_role", num_of (target_role t)); ("target_group", str (target_group t));
   ("target_is_self", Some (JBool (target_is_self t)))]%string.

Definition kind_text (k : ProviderKind) : string := match k with BuiltIn => "built_in" | CustomProvider => "custom" end.
Definition verb_text (v : AccountVerb) : string := match v with DisableAccount => "disable" | DeleteAccount => "delete" end.
Definition scope_text (s : ConfigScope) : string := match s with UserSkills => "user_skills" | ChannelScope => "channel" end.

Definition preview_json (p : ConfigPreview) : json :=
  obj [("key", str (preview_key p)); ("label", str (preview_label p)); ("old_value", str (old_value p));
       ("new_value", str (new_value p))]%string.

Definition model_json (m : ModelPreview) : json :=
  obj [("model_id", str (model_id m)); ("vendor", str (model_vendor m)); ("status", num_of (model_status m))]%string.

Definition vendor_json (v : VendorPreview) : json :=
  obj [("name", str (vendor_name v)); ("description", JStr <$> vendor_description v); ("icon", JStr <$> vendor_icon v);
       ("status", num_of (vendor_status v))]%string.

Definition action_json (a : AssistantAction) : json :=
  match a with
  | Navigate path query => obj [("type", lit "navigate"); ("path", str path); ("query", Some (JObj query))]%string
  | NewUserGift amount reason =>
      obj [("type", lit "new_user_gift"); ("amount_cents", num_of amount); ("status", lit "offered"); ("reason", str reason)]%string
  | WeeklyDiscount percent reason =>
      obj [("type", lit "weekly_discount"); ("discount_percent", num_of percent); ("status", lit "offered"); ("reason", str reason)]%string
  | UserPasswordChange t => obj (("type"%string, lit "user_password_change") :: target_members t)
  | UserOAuthUnbind t provider kind label =>
      obj ((("type"%string, lit "user_oauth_unbind") :: target_members t) ++
           [("provider", str provider); ("provider_kind", lit (kind_text kind)); ("provider_label", str label)]%string)
  | UserAccountAction t verb =>
      obj ((("type"%string, lit "user_account_action") :: target_members t) ++ [("action", lit (verb_text verb))]%string)
  | HumanSupport c message =>
      obj ((("type"%string, lit "human_support") :: confirmation_members c) ++ [("message", str message)]%string)
  | AdminConfigChange c scope target channel name changes warnings =>
      obj ((("type"%string, lit "admin_config_change") :: confirmation_members c) ++
           [("scope", (fun s => JStr (js (scope_text s))) <$> scope); ("target_user_id", JNum <$> target);
            ("channel_id", JNum <$> channel); ("channel_name", JStr <$> name); ("changes", Some (JArr (map preview_json changes)));
            ("warnings", (fun ws => JArr (map JStr ws)) <$> warnings)]%string)
  | AdminPricingChange c p =>
      obj ((("type"%string, lit "admin_pricing_change") :: confirmation_members c) ++
           [("pricing", Some (obj [("model_id", str (pricing_model p)); ("old", Some (pricing_old p)); ("next", Some (pricing_next p))]))]%string)
  | AdminModelSync c models vendors locale digest =>
      obj ((("type"%string, lit "admin_model_sync") :: confirmation_members c) ++
           [("models", Some (JArr (map model_json models))); ("vendors", (fun vs => JArr (map vendor_json vs)) <$> vendors);
            ("locale", str locale); ("source_digest", str digest)]%string)
  | CreateKey c name group =>
      obj ((("type"%string, lit "create_key") :: confirmation_members c) ++ [("name", str name); ("group", str group)]%string)
  | ImageGeneration c prompt model group n size quality =>
      obj ((("type"%string, lit "image_generation") :: confirmation_members c) ++
           [("prompt", str prompt); ("model", str model); ("group", str group); ("n", num_of n); ("size", JStr <$> size);
            ("quality", JStr <$> quality)]%string)
  | L1Recommendation t statement recommendation =>
      obj [("type", lit "l1_recommendation"); ("user_statement", str statement); ("recommendation", str recommendation);
           ("confirmation_token", str t)]%string
  | AccountDisableRequest t id username reason =>
      obj [("type", lit "account_disable_request"); ("target_user_id", num_of id); ("target_username", str username);
           ("reason", str reason); ("confirmation_token", str t)]%string
  end.

(** ** What an action may be *)

Definition clean (s : list N) : bool := bool_decide (trim s = s).
Definition filled (s : list N) : bool := clean s && nonempty s.
Definition is_positive (n : spec_float) : bool := is_integer n && num_ltb num_zero n.
Definition option_ok {A} (test : A -> bool) (o : option A) : bool := match o with Some x => test x | None => true end.
Definition many {A} (test : A -> bool) (l : list A) : bool := match l with [] => false | _ => forallb test l end.

Definition confirmation_ok (c : Confirmation) : bool := filled (token c) && is_positive (expires_in_seconds c).

Definition target_ok (t : UserTarget) : bool :=
  is_integer (target_user_id t) && num_leb (num_of_Z 1) (target_user_id t) && filled (target_username t) &&
  clean (target_display_name t) && is_integer (target_role t) && filled (target_group t).

Definition value_ok (v : json) : bool :=
  match v with JStr s => clean s && (length s <=? 200) | JNum n => is_finite n | JBool _ => true | _ => false end.

Definition query_ok (path : list N) (query : list (list N * json)) : bool :=
  bool_decide (NoDup query.*1) &&
  forallb (fun kv => bool_decide (kv.1 ∈ ASSISTANT_NAVIGATION_QUERY_KEYS path) && value_ok kv.2) query.

Definition is_object (v : json) : bool := match v with JObj _ | JArr _ => true | _ => false end.

Definition preview_ok (p : ConfigPreview) : bool := filled (preview_key p) && filled (preview_label p).
Definition model_ok (m : ModelPreview) : bool := filled (model_id m) && clean (model_vendor m) && is_integer (model_status m).
Definition vendor_ok (v : VendorPreview) : bool :=
  filled (vendor_name v) && option_ok clean (vendor_description v) && option_ok clean (vendor_icon v) && is_integer (vendor_status v).
Definition short_ok (max : nat) (s : list N) : bool := filled s && (length s <=? max).

Definition action_ok (a : AssistantAction) : bool :=
  match a with
  | Navigate path query => bool_decide (path ∈ ASSISTANT_NAVIGATION_PATHS) && query_ok path query
  | NewUserGift amount reason => is_integer amount && between 1 1000 amount && clean reason && runes_within 2 240 reason
  | WeeklyDiscount percent reason => is_integer percent && between 1 10 percent && clean reason && runes_within 2 240 reason
  | UserPasswordChange t => target_ok t
  | UserOAuthUnbind t provider _ label => target_ok t && filled provider && filled label
  | UserAccountAction t _ => target_ok t
  | HumanSupport c message => confirmation_ok c && clean message && runes_within 5 2000 message
  | AdminConfigChange c _ target channel name changes _ =>
      confirmation_ok c && option_ok is_positive target && option_ok is_positive channel && option_ok filled name && many preview_ok changes
  | AdminPricingChange c p => confirmation_ok c && filled (pricing_model p) && is_object (pricing_old p) && is_object (pricing_next p)
  | AdminModelSync c models vendors locale digest =>
      confirmation_ok c && many model_ok models && option_ok (many vendor_ok) vendors && clean locale && is_digest digest
  | CreateKey c name group => confirmation_ok c && filled name && filled group
  | ImageGeneration c prompt model group n size quality =>
      confirmation_ok c && short_ok 2000 prompt && short_ok 200 model && short_ok 64 group && is_integer n && between 1 4 n &&
      option_ok (short_ok 32) size && option_ok (short_ok 32) quality
  | L1Recommendation t statement recommendation => filled t && filled statement && filled recommendation
  | AccountDisableRequest t id username reason => filled t && is_positive id && filled username && filled reason
  end.

(** ** Parsed actions are in order *)

Lemma keep_Some {A} (test : A -> bool) x y : keep test x = Some y -> y = x /\ test y = true.
Proof. unfold keep. destruct (test x) eqn:E; [|done]. by intros [= <-]. Qed.

Lemma clean_trim s : clean (trim s) = true.
Proof. apply bool_decide_eq_true, trim_idemp. Qed.

Lemma trimmed_text_clean k v s : trimmed_text k v = Some s -> clean s = true.
Proof. unfold trimmed_text. intros (t & _ & ->)%fmap_Some. apply clean_trim. Qed.

Lemma filled_text_filled k v s : filled_text k v = Some s -> filled s = true.
Proof.
  unfold filled_text. intros (t & Ht & Hs)%bind_Some. apply keep_Some in Hs as [-> Hs]. unfold filled.
  by rewrite (trimmed_text_clean k v), Hs.
Qed.

Lemma integer_integer k v n : integer k v = Some n -> is_integer n = true.
Proof. unfold integer. intros (m & _ & Hn)%bind_Some. by apply keep_Some in Hn as [-> ?]. Qed.

Lemma positive_int_ok k v n : positive_int k v = Some n -> is_positive n = true.
Proof.
  unfold positive_int. intros (m & Hm & Hn)%bind_Some. apply keep_Some in Hn as [-> Hn]. unfold is_positive.
  by rewrite (integer_integer k v), Hn.
Qed.

Lemma short_text_ok max k v s : short_text max k v = Some s -> short_ok max s = true.
Proof.
  unfold short_text. intros (t & Ht & Hs)%bind_Some. apply keep_Some in Hs as [-> Hs]. unfold short_ok.
  by rewrite (filled_text_filled k v), Hs.
Qed.

Lemma short_option_ok max k v o : short_option max k v = Some o -> option_ok (short_ok max) o = true.
Proof.
  unfold short_option. destruct (nonempty _) eqn:E; [|by intros [= <-]].
  intros (s & Hs & ->)%fmap_Some. apply keep_Some in Hs as [-> Hs]. cbn [option_ok]. unfold short_ok, filled. rewrite E, Hs.
  destruct (trimmed_text k v) as [t|] eqn:Et; [|done]. cbn [default] in *. by rewrite (trimmed_text_clean k v).
Qed.

Lemma optional_ok {A} (test : A -> bool) k parse v o :
  (forall x, parse = Some x -> test x = true) -> optional k parse v = Some o -> option_ok test o = true.
Proof.
  intros Ht. unfold optional. destruct (has k v); [|by intros [= <-]]. intros (x & Hx & ->)%fmap_Some. by apply Ht.
Qed.

Lemma mapM_forallb {A B} (f : A -> option B) (test : B -> bool) l r :
  (forall x y, f x = Some y -> test y = true) -> mapM f l = Some r -> forallb test r = true.
Proof.
  intros Hf. intros Hr%mapM_Some. induction Hr as [|x y l r Hx _ IH]; [done|]. cbn [forallb]. by rewrite (Hf _ _ Hx).
Qed.

Lemma all_items_ok {A} (parse : json -> option A) test l r :
  (forall x y, parse x = Some y -> test y = true) -> all_items parse l = Some r -> many test r = true.
Proof.
  intros Hf. unfold all_items. destruct l as [|x l]; [done|]. intros Hr. pose proof (mapM_forallb _ _ _ _ Hf Hr) as Hall.
  apply mapM_Some in Hr. inversion Hr; subst. done.
Qed.

Lemma parse_confirmation_ok v c : parse_confirmation v = Some c -> confirmation_ok c = true.
Proof.
  unfold parse_confirmation, confirmation_ok. intros (t & Ht & Hc)%bind_Some. destruct (requires_confirmation v); [|done].
  apply bind_Some in Hc as (n & Hn & [= <-]). cbn [token expires_in_seconds].
  by rewrite (filled_text_filled _ _ _ Ht), (positive_int_ok _ _ _ Hn).
Qed.

Lemma parse_target_ok v t : parse_target v = Some t -> target_ok t = true.
Proof.
  unfold parse_target. intros (id & Hid & H)%bind_Some. apply bind_Some in Hid as (id' & Hid & Hk). apply keep_Some in Hk as [-> Hk].
  apply bind_Some in H as (u & Hu & H). apply bind_Some in H as (d & Hd & H). apply bind_Some in H as (r & Hr & H).
  apply bind_Some in H as (g & Hg & H). apply bind_Some in H as (b & Hb & H). destruct (nonempty u && nonempty g) eqn:En; [|done].
  injection H as <-. apply andb_true_iff in En as [En1 En2]. unfold target_ok, filled. cbn [target_user_id target_username target_display_name target_role target_group].
  rewrite (integer_integer _ _ _ Hid), (trimmed_text_clean _ _ _ Hu), (trimmed_text_clean _ _ _ Hd), (integer_integer _ _ _ Hr),
    (trimmed_text_clean _ _ _ Hg), En1, En2. unfold at_least in Hk. by rewrite Hk.
Qed.

Lemma query_value_ok v v' : query_value v = Some v' -> value_ok v' = true.
Proof.
  destruct v as [|b|n|s|l|l]; cbn [query_value]; try done; [by intros [= <-]|destruct (is_finite n) eqn:E; [|done]; by intros [= <-]|].
  destruct (length (trim s) <=? 200) eqn:E; [|done]. intros [= <-]. cbn [value_ok]. by rewrite clean_trim, E.
Qed.

Lemma set_member_keys k v (l : list (list N * json)) :
  (set_member k v l).*1 = if bool_decide (k ∈ l.*1) then l.*1 else l.*1 ++ [k].
Proof.
  induction l as [|[k0 v0] l IH]; [done|]. cbn [set_member]. rewrite fmap_cons. cbn [fst].
  destruct (decide (k = k0)) as [->|Hne].
  - rewrite !bool_decide_eq_true_2 by (done || by left). done.
  - rewrite (bool_decide_eq_false_2 (k = k0)) by done. rewrite fmap_cons, IH. cbn [fst].
    destruct (decide (k ∈ l.*1)); [rewrite !bool_decide_eq_true_2 by (done || by right); done|].
    rewrite !bool_decide_eq_false_2; [done|rewrite elem_of_cons; tauto|done].
Qed.

Lemma set_member_nodup k v (l : list (list N * json)) : NoDup l.*1 -> NoDup (set_member k v l).*1.
Proof.
  intros Hl. rewrite set_member_keys. case_bool_decide as Hk; [done|]. apply NoDup_app. split_and!; [done| |apply NoDup_singleton].
  intros x Hx ->%list_elem_of_singleton. done.
Qed.

Lemma forallb_set_member (test : list N * json -> bool) k v l :
  test (k, v) = true -> forallb test l = true -> forallb test (set_member k v l) = true.
Proof.
  intros Hkv. induction l as [|[k0 v0] l IH]; cbn [set_member forallb]; [by rewrite Hkv|]. intros [H1 H2]%andb_true_iff.
  case_bool_decide; cbn [forallb]; [by rewrite Hkv|by rewrite H1, IH].
Qed.

Lemma build_query_ok path es q r :
  query_ok path q = true -> build_query (ASSISTANT_NAVIGATION_QUERY_KEYS path) es q = Some r -> query_ok path r = true.
Proof.
  revert q. induction es as [|[k v] es IH]; intros q Hq; [by intros [= <-]|]. cbn [build_query].
  case_bool_decide as Hk; [|done]. destruct (query_value v) as [v'|] eqn:Ev; [|done]. apply IH. unfold assign.
  case_bool_decide; [done|]. unfold query_ok in *. apply andb_true_iff in Hq as [H1 H2]. apply bool_decide_eq_true in H1.
  rewrite bool_decide_eq_true_2 by (by apply set_member_nodup). apply forallb_set_member; [|done]. cbn [fst snd].
  by rewrite bool_decide_eq_true_2, (query_value_ok _ _ Ev).
Qed.

Create HintDb actions.
#[export] Hint Resolve trimmed_text_clean filled_text_filled integer_integer positive_int_ok short_text_ok short_option_ok
  parse_confirmation_ok parse_target_ok : actions.

(** Inversion of a successful parse. *)
Ltac parse_inv :=
  repeat match goal with
  | H : (if _ then None else _) = Some _ |- _ => case_match; [discriminate H|]
  | H : (if _ then _ else _) = Some _ |- _ => case_match
  | H : None = Some _ |- _ => discriminate H
  | H : Some _ = Some _ |- _ => injection H as <-
  | H : (_ ≫= _) = Some _ |- _ => apply bind_Some in H; destruct H as (? & ? & H)
  | H : keep _ _ = Some _ |- _ => apply keep_Some in H; destruct H as [-> ?]
  end.

Ltac parse_solve := cbn [action_ok]; rewrite ?andb_true_iff; split_and?; eauto with actions.

Lemma parse_change_ok v p : parse_change v = Some p -> preview_ok p = true.
Proof. unfold parse_change. intros H. parse_inv. unfold preview_ok. cbn [preview_key preview_label]. parse_solve. Qed.

Lemma parse_model_ok v m : parse_model v = Some m -> model_ok m = true.
Proof. unfold parse_model. intros H. parse_inv. unfold model_ok. cbn [model_id model_vendor model_status]. parse_solve. Qed.

Lemma parse_vendor_ok v m : parse_vendor v = Some m -> vendor_ok m = true.
Proof.
  unfold parse_vendor. intros H. parse_inv. unfold vendor_ok. cbn [vendor_name vendor_description vendor_icon vendor_status].
  assert (forall k, option_ok clean (trimmed_text k v) = true) as Ho.
  { intros k. destruct (trimmed_text k v) eqn:E; [by apply trimmed_text_clean in E|done]. }
  rewrite !Ho. parse_solve.
Qed.

Lemma parse_vendors_ok v o : parse_vendors v = Some o -> option_ok (many vendor_ok) o = true.
Proof.
  unfold parse_vendors. destruct (get "vendors" v) as [[| | | |l|]|]; try done; [by intros [= <-]| |by intros [= <-]].
  intros H. parse_inv. pose proof (mapM_forallb _ _ _ _ parse_vendor_ok H0) as Hf. by destruct x.
Qed.

#[export] Hint Resolve parse_vendors_ok : actions.

Lemma is_object_value v x : object_value v = Some x -> is_object x = true.
Proof. destruct v as [[]|]; try done; by intros [= <-]. Qed.

Lemma parsers_ok f v a : f ∈ action_parsers -> f v = Some a -> action_ok a = true.
Proof.
  intros Hf H. unfold action_parsers in Hf.
  repeat (apply elem_of_cons in Hf; destruct Hf as [->|Hf]; [|]); [..|by apply elem_of_nil in Hf].
  - unfold parseAssistantNavigationAction in H. parse_inv. cbn [action_ok].
    match goal with H : bool_decide _ = true |- _ => rewrite H end. cbn [andb].
    destruct (get "query" v) as [q|]; parse_inv; [|done]. by eapply build_query_ok; [|eassumption].
  - unfold parseAssistantNewUserGiftAction, offered_reason in H. parse_inv. parse_solve.
  - unfold parseAssistantWeeklyDiscountAction, offered_reason in H. parse_inv. parse_solve.
  - unfold parseAssistantUserAction in H. parse_inv; parse_solve.
  - unfold parse_human_support in H. parse_inv. parse_solve.
  - unfold parse_config_change in H. parse_inv. parse_solve.
    + eapply optional_ok; [|eassumption]. apply positive_int_ok.
    + eapply optional_ok; [|eassumption]. apply positive_int_ok.
    + eapply optional_ok; [|eassumption]. apply filled_text_filled.
    + eapply all_items_ok; [|eassumption]. apply parse_change_ok.
  - unfold parse_pricing_change in H. parse_inv. parse_solve; cbn [pricing_model pricing_old pricing_next]; eauto with actions; by eapply is_object_value.
  - unfold parse_model_sync in H. parse_inv. parse_solve. eapply all_items_ok; [|eassumption]. apply parse_model_ok.
  - unfold parse_create_key in H. parse_inv. parse_solve.
  - unfold parse_image_generation in H. parse_inv. parse_solve.
  - unfold parse_recommendation, confirmation_token in H. parse_inv. parse_solve.
  - unfold parse_disable_request, confirmation_token in H. parse_inv. parse_solve.
Qed.

Lemma first_result_Some {A B} (fs : list (A -> option B)) x r : first_result fs x = Some r -> exists f, f ∈ fs /\ f x = Some r.
Proof.
  induction fs as [|f fs IH]; cbn [first_result]; [done|]. destruct (f x) eqn:E.
  - intros [= <-]. exists f. split; [by left|done].
  - intros (g & Hg & Hr)%IH. exists g. split; [by right|done].
Qed.

Lemma parsed_action_ok v a : parseAssistantAction v = Some a -> action_ok a = true.
Proof. destruct v as [v|]; [|done]. intros (f & Hf & H)%first_result_Some. by eapply parsers_ok. Qed.
