(* ===== verification/AssistantActionsSaid.v ===== *)
(** * What the JSON of an assistant action says

    [says v a] relates a JSON value to the action it describes, member by member and without
    the readers of the client: which member a field is taken from, which members must be
    there and which must not.  [parsed_iff_said] shows that the client reads an action
    exactly when the JSON says it and it is in order. *)
From S2P Require Import Prelude JsString JsNumber JsJson JsNumberPrint AuthSession JsCollections Wallet AssistantActions.
From Stdlib Require Import Lia.

Local Open Scope string_scope.

(** ** Members *)

(** The member is a text, taken as it is or trimmed; a number; a literal. *)
Definition stated (k : string) (v : json) (s : list N) : Prop := get k v = Some (JStr s).
Definition told (k : string) (v : json) (s : list N) : Prop := exists t, stated k v t /\ s = trim t.
Definition counted (k : string) (v : json) (n : spec_float) : Prop := get k v = Some (JNum n).
Definition literally (k : string) (v : json) (s : string) : Prop := stated k v (js s).

(** The member is left out exactly when the field is. *)
Definition if_given {A} (k : string) (v : json) (said : A -> Prop) (o : option A) : Prop :=
  match o with Some x => said x | None => get k v = None end.

(** A field that is left out when the member is no text, or (for the pictures) a blank one. *)
Definition if_told (k : string) (v : json) (o : option (list N)) : Prop :=
  match o with Some s => told k v s | None => forall s, ~ told k v s end.
Definition unless_blank (k : string) (v : json) (o : option (list N)) : Prop :=
  match o with Some s => told k v s | None => forall s, told k v s -> s = [] end.

(** ** Parts *)

Definition confirmed (v : json) (c : Confirmation) : Prop :=
  get "requires_confirmation" v = Some (JBool true) /\ told "confirmation_token" v (token c) /\
  counted "expires_in_seconds" v (expires_in_seconds c).

Definition on_user (v : json) (t : UserTarget) : Prop :=
  Forall (fun k => get k v = None) ["password"; "new_password"; "current_password"; "api_key"; "access_token"] /\
  get "requires_confirmation" v = Some (JBool true) /\
  counted "target_user_id" v (target_user_id t) /\ told "target_username" v (target_username t) /\
  told "target_display_name" v (target_display_name t) /\ counted "target_role" v (target_role t) /\
  told "target_group" v (target_group t) /\ get "target_is_self" v = Some (JBool (target_is_self t)).

Definition says_change (v : json) (p : ConfigPreview) : Prop :=
  told "key" v (preview_key p) /\ told "label" v (preview_label p) /\
  stated "old_value" v (old_value p) /\ stated "new_value" v (new_value p).

Definition says_model (v : json) (m : ModelPreview) : Prop :=
  told "model_id" v (model_id m) /\ told "vendor" v (model_vendor m) /\ counted "status" v (model_status m).

Definition says_vendor (v : json) (x : VendorPreview) : Prop :=
  told "name" v (vendor_name x) /\ if_told "description" v (vendor_description x) /\ if_told "icon" v (vendor_icon x) /\
  counted "status" v (vendor_status x).

(** The items of an array, one by one. *)
Definition listed {A} (k : string) (v : json) (said : json -> A -> Prop) (l : list A) : Prop :=
  exists vs, get k v = Some (JArr vs) /\ Forall2 said vs l.

Definition is_text_item (v : json) : bool := match v with JStr _ => true | _ => false end.

(** The texts of the array, in their order; no array, no warnings. *)
Definition warned (v : json) (o : option (list (list N))) : Prop :=
  match o with
  | Some ws => exists vs, get "warnings" v = Some (JArr vs) /\ List.filter is_text_item vs = map JStr ws
  | None => forall vs, get "warnings" v <> Some (JArr vs)
  end.

Definition says_vendors (v : json) (o : option (list VendorPreview)) : Prop :=
  match o with
  | Some vs => listed "vendors" v says_vendor vs
  | None => get "vendors" v = None \/ get "vendors" v = Some JNull \/ get "vendors" v = Some (JArr [])
  end.

Definition says_pricing (v : json) (p : PricingPreview) : Prop :=
  exists q, get "pricing" v = Some q /\ told "model_id" q (pricing_model p) /\
    get "old" q = Some (pricing_old p) /\ get "next" q = Some (pricing_next p).

(** The query of a page: every entry with its texts trimmed, later entries over earlier ones. *)
Definition trimmed_value (v : json) : json := match v with JStr s => JStr (trim s) | _ => v end.

Definition asks (path : list N) (q : json) (query : list (list N * json)) : Prop :=
  exists es, entries q = Some es /\
    let said := map (prod_map id trimmed_value) es in
    Forall (fun kv => kv.1 ∈ ASSISTANT_NAVIGATION_QUERY_KEYS path /\ value_ok kv.2 = true) said /\
    query = foldl (fun acc kv => set_member kv.1 kv.2 acc) [] said.

(** ** Actions *)

Definition says (v : json) (a : AssistantAction) : Prop :=
  match a with
  | Navigate path query =>
      literally "type" v "navigate" /\ told "path" v path /\
      (get "query" v = None /\ query = [] \/ exists q, get "query" v = Some q /\ asks path q query)
  | NewUserGift amount reason =>
      literally "type" v "new_user_gift" /\ literally "status" v "offered" /\ counted "amount_cents" v amount /\ told "reason" v reason
  | WeeklyDiscount percent reason =>
      literally "type" v "weekly_discount" /\ literally "status" v "offered" /\ counted "discount_percent" v percent /\
      told "reason" v reason
  | UserPasswordChange t => literally "type" v "user_password_change" /\ on_user v t
  | UserOAuthUnbind t provider kind label =>
      literally "type" v "user_oauth_unbind" /\ on_user v t /\ told "provider" v provider /\
      literally "provider_kind" v match kind with BuiltIn => "built_in" | CustomProvider => "custom" end /\
      told "provider_label" v label
  | UserAccountAction t verb =>
      literally "type" v "user_account_action" /\ on_user v t /\
      literally "action" v match verb with DisableAccount => "disable" | DeleteAccount => "delete" end
  | HumanSupport c message => literally "type" v "human_support" /\ confirmed v c /\ told "message" v message
  | AdminConfigChange c scope target channel name changes warnings =>
      literally "type" v "admin_config_change" /\ confirmed v c /\
      if_given "scope" v (fun s => literally "scope" v match s with UserSkills => "user_skills" | ChannelScope => "channel" end) scope /\
      if_given "target_user_id" v (counted "target_user_id" v) target /\ if_given "channel_id" v (counted "channel_id" v) channel /\
      if_given "channel_name" v (told "channel_name" v) name /\ listed "changes" v says_change changes /\ warned v warnings
  | AdminPricingChange c p => literally "type" v "admin_pricing_change" /\ confirmed v c /\ says_pricing v p
  | AdminModelSync c models vendors locale digest =>
      literally "type" v "admin_model_sync" /\ confirmed v c /\ listed "models" v says_model models /\ says_vendors v vendors /\
      told "locale" v locale /\ (exists s, told "source_digest" v s /\ digest = map lower_ascii s)
  | CreateKey c name group => literally "type" v "create_key" /\ confirmed v c /\ told "name" v name /\ told "group" v group
  | ImageGeneration c prompt model group n size quality =>
      literally "type" v "image_generation" /\ confirmed v c /\ told "prompt" v prompt /\ told "model" v model /\
      told "group" v group /\ counted "n" v n /\ unless_blank "size" v size /\ unless_blank "quality" v quality
  | L1Recommendation t statement recommendation =>
      literally "type" v "l1_recommendation" /\ told "confirmation_token" v t /\ told "user_statement" v statement /\
      told "recommendation" v recommendation
  | AccountDisableRequest t id username reason =>
      literally "type" v "account_disable_request" /\ told "confirmation_token" v t /\ counted "target_user_id" v id /\
      told "target_username" v username /\ told "reason" v reason
  end.

(** ** Readers and members *)

Lemma text_stated k v s : text k v = Some s <-> stated k v s.
Proof. unfold text, stated. destruct (get k v) as [[]|]; cbn [as_string]; naive_solver. Qed.

Lemma literal_iff k v s : bool_decide (text k v = Some (js s)) = true <-> literally k v s.
Proof. rewrite bool_decide_eq_true. apply text_stated. Qed.

Lemma trimmed_told k v s : trimmed_text k v = Some s <-> told k v s.
Proof.
  unfold trimmed_text, told. rewrite fmap_Some. split; intros (t & Ht & ->); exists t; (split; [by apply text_stated|done]).
Qed.

Lemma told_clean k v s : told k v s -> clean s = true.
Proof. intros (t & _ & ->). apply clean_trim. Qed.

Lemma told_fun k v s s' : told k v s -> told k v s' -> s = s'.
Proof. intros (t & Ht & ->) (t' & Ht' & ->). unfold stated in *. congruence. Qed.

Lemma bind_keep {A} (o : option A) test x : o ≫= keep test = Some x <-> o = Some x /\ test x = true.
Proof.
  rewrite bind_Some. split.
  - intros (y & Hy & Hk). apply keep_Some in Hk as [-> Hk]. done.
  - intros [-> Hx]. exists x. split; [done|]. unfold keep. by rewrite Hx.
Qed.

Lemma filled_told k v s : filled_text k v = Some s <-> told k v s /\ filled s = true.
Proof.
  unfold filled_text, filled. rewrite bind_keep, trimmed_told, andb_true_iff. pose proof (told_clean k v s). tauto.
Qed.

Lemma short_told max k v s : short_text max k v = Some s <-> told k v s /\ short_ok max s = true.
Proof. unfold short_text, short_ok. rewrite bind_keep, filled_told, andb_true_iff. tauto. Qed.

Lemma integer_counted k v n : integer k v = Some n <-> counted k v n /\ is_integer n = true.
Proof. unfold integer, number, counted. rewrite bind_keep. destruct (get k v) as [[]|]; naive_solver. Qed.

Lemma positive_counted k v n : positive_int k v = Some n <-> counted k v n /\ is_positive n = true.
Proof. unfold positive_int, is_positive. rewrite bind_keep, integer_counted, andb_true_iff. tauto. Qed.

Lemma short_option_told max k v o : short_option max k v = Some o <-> unless_blank k v o /\ option_ok (short_ok max) o = true.
Proof.
  unfold short_option. destruct (trimmed_text k v) as [s|] eqn:E; cbn [default from_option id].
  - apply trimmed_told in E. pose proof (told_clean k v s E) as Hc. destruct s as [|c s]; cbn [nonempty].
    + split; [intros [= <-]; split; [|done]; intros s Hs; by apply (told_fun k v)|]. destruct o as [s|]; [|done]. cbn [unless_blank option_ok].
      intros [Hs Ho]. by rewrite (told_fun k v s []) in Ho.
    + unfold id, keep. split.
      * intros (x & Hx & ->)%fmap_Some. destruct (length (c :: s) <=? max)%nat eqn:El; [|done]. injection Hx as <-. split; [done|]. cbn [option_ok]. unfold short_ok, filled.
        by rewrite Hc, El.
      * destruct o as [x|]; cbn [unless_blank option_ok]; intros [Hx Ho]; [|by apply Hx in E]. rewrite (told_fun k v x (c :: s)) in Ho |- * by done.
        apply andb_true_iff in Ho as [_ Ho]. by rewrite Ho.
  - assert (forall s, ~ told k v s) as Hn by (intros s Hs; apply trimmed_told in Hs; congruence).
    split; [intros [= <-]; split; [intros s Hs; by apply Hn in Hs|done]|]. destruct o as [x|]; [|done]. intros [Hx _]. by apply Hn in Hx.
Qed.

Lemma trimmed_if_told k v o : trimmed_text k v = o <-> if_told k v o.
Proof.
  destruct o as [s|]; [apply trimmed_told|]. cbn [if_told]. split; [intros E s Hs%trimmed_told; congruence|].
  intros H. destruct (trimmed_text k v) as [s|] eqn:E; [|done]. apply trimmed_told in E. by apply H in E.
Qed.

Lemma optional_given {A} k v (parse : option A) (said : A -> Prop) test o :
  (forall x, parse = Some x <-> said x /\ test x = true) -> (forall x, said x -> get k v <> None) ->
  optional k parse v = Some o <-> if_given k v said o /\ option_ok test o = true.
Proof.
  intros Hp Hs. unfold optional, has. destruct (get k v) as [j|] eqn:E.
  - rewrite fmap_Some. destruct o as [x|]; cbn [if_given option_ok].
    + rewrite <- Hp. split; [by intros (y & Hy & [= ->])|eauto].
    + split; [naive_solver|intros [? _]; congruence].
  - destruct o as [x|]; cbn [if_given option_ok]; [|naive_solver]. split; [done|]. intros [H _]. by apply Hs in H.
Qed.

Lemma stated_present k v s : stated k v s -> get k v <> None.
Proof. unfold stated. congruence. Qed.

Lemma told_present k v s : told k v s -> get k v <> None.
Proof. intros (t & Ht & _). by eapply stated_present. Qed.

Lemma counted_present k v n : counted k v n -> get k v <> None.
Proof. unfold counted. congruence. Qed.

(** ** Parts *)

Lemma requires_iff v : requires_confirmation v = true <-> get "requires_confirmation" v = Some (JBool true).
Proof. unfold requires_confirmation, boolean. rewrite bool_decide_eq_true. destruct (get _ v) as [[]|]; naive_solver. Qed.

Lemma confirmation_said v c : parse_confirmation v = Some c <-> confirmed v c /\ confirmation_ok c = true.
Proof.
  unfold parse_confirmation, confirmation_token, confirmed, confirmation_ok. rewrite andb_true_iff, bind_Some, <- requires_iff. split.
  - intros (t & Ht%filled_told & H). destruct (requires_confirmation v); [|done]. apply bind_Some in H as (n & Hn%positive_counted & [= <-]).
    cbn [token expires_in_seconds]. tauto.
  - intros ((Hr & Ht & Hn) & Ft & Fn). exists (token c). split; [by apply filled_told|]. rewrite Hr, bind_Some. exists (expires_in_seconds c).
    split; [by apply positive_counted|by destruct c].
Qed.

Lemma target_said v t :
  existsb (fun k => has k v) secret_keys || negb (requires_confirmation v) = false /\ parse_target v = Some t <->
  on_user v t /\ target_ok t = true.
Proof.
  assert (existsb (fun k => has k v) secret_keys = false <->
    Forall (fun k => get k v = None) ["password"; "new_password"; "current_password"; "api_key"; "access_token"]) as Hs.
  { unfold secret_keys, has. cbn [existsb]. rewrite !orb_false_iff, !Forall_cons, Forall_nil. repeat case_match; naive_solver. }
  assert (forall b, boolean "target_is_self" v = Some b <-> get "target_is_self" v = Some (JBool b)) as Hb.
  { intros b. unfold boolean. destruct (get _ v) as [[]|]; naive_solver. }
  unfold on_user. rewrite orb_false_iff, negb_false_iff, Hs, requires_iff. unfold parse_target, target_ok, at_least. rewrite !andb_true_iff. split.
  - intros [[H1 H2] H]. parse_inv. match goal with H : _ && _ = true |- _ => apply andb_true_iff in H as [? ?] end. cbn.
    repeat match goal with
    | H : integer _ _ = Some _ |- _ => apply integer_counted in H as [? ?]
    | H : trimmed_text _ _ = Some _ |- _ => apply trimmed_told in H; pose proof (told_clean _ _ _ H)
    | H : boolean _ _ = Some _ |- _ => apply Hb in H
    end. unfold filled. rewrite !andb_true_iff. tauto.
  - unfold filled. rewrite !andb_true_iff. intros H. destruct_and?. split; [done|].
    rewrite (proj2 (integer_counted "target_user_id" v (target_user_id t))) by done. cbn [mbind option_bind]. unfold keep.
    match goal with H : num_leb _ _ = true |- _ => rewrite H end. cbn [mbind option_bind].
    rewrite (proj2 (trimmed_told "target_username" v (target_username t))) by done. cbn [mbind option_bind].
    rewrite (proj2 (trimmed_told "target_display_name" v (target_display_name t))) by done. cbn [mbind option_bind].
    rewrite (proj2 (integer_counted "target_role" v (target_role t))) by done. cbn [mbind option_bind].
    rewrite (proj2 (trimmed_told "target_group" v (target_group t))) by done. cbn [mbind option_bind].
    rewrite (proj2 (Hb (target_is_self t))) by done. cbn [mbind option_bind].
    repeat match goal with H : nonempty _ = true |- _ => rewrite H; clear H end. by destruct t.
Qed.

Lemma change_said v p : parse_change v = Some p <-> says_change v p /\ preview_ok p = true.
Proof.
  unfold parse_change, says_change, preview_ok. rewrite andb_true_iff. split.
  - intros H. parse_inv. cbn. rewrite <- !text_stated.
    repeat match goal with H : filled_text _ _ = Some _ |- _ => apply filled_told in H as [? ?] end. tauto.
  - rewrite <- !text_stated. intros ((H1 & H2 & H3 & H4) & F1 & F2).
    rewrite (proj2 (filled_told _ _ _) (conj H1 F1)), (proj2 (filled_told _ _ _) (conj H2 F2)), H3, H4. by destruct p.
Qed.

Lemma model_said v m : parse_model v = Some m <-> says_model v m /\ model_ok m = true.
Proof.
  unfold parse_model, says_model, model_ok. rewrite !andb_true_iff. split.
  - intros H. parse_inv. cbn.
    repeat match goal with
    | H : filled_text _ _ = Some _ |- _ => apply filled_told in H as [? ?]
    | H : integer _ _ = Some _ |- _ => apply integer_counted in H as [? ?]
    | H : trimmed_text _ _ = Some _ |- _ => apply trimmed_told in H; pose proof (told_clean _ _ _ H)
    end. tauto.
  - intros ((H1 & H2 & H3) & (F1 & F2) & F3).
    rewrite (proj2 (filled_told _ _ _) (conj H1 F1)), (proj2 (trimmed_told _ _ _) H2), (proj2 (integer_counted _ _ _) (conj H3 F3)). by destruct m.
Qed.

Lemma if_told_clean k v o : if_told k v o -> option_ok clean o = true.
Proof. destruct o as [s|]; [apply told_clean|done]. Qed.

Lemma vendor_said v x : parse_vendor v = Some x <-> says_vendor v x /\ vendor_ok x = true.
Proof.
  unfold parse_vendor, says_vendor, vendor_ok. rewrite !andb_true_iff. split.
  - intros H. parse_inv. cbn.
    repeat match goal with
    | H : filled_text _ _ = Some _ |- _ => apply filled_told in H as [? ?]
    | H : integer _ _ = Some _ |- _ => apply integer_counted in H as [? ?]
    end.
    pose proof (proj1 (trimmed_if_told "description" v _) eq_refl) as Hd. pose proof (proj1 (trimmed_if_told "icon" v _) eq_refl) as Hi.
    pose proof (if_told_clean _ _ _ Hd). pose proof (if_told_clean _ _ _ Hi). tauto.
  - intros ((H1 & H2 & H3 & H4) & ((F1 & F2) & F3) & F4).
    rewrite (proj2 (filled_told _ _ _) (conj H1 F1)), (proj2 (integer_counted _ _ _) (conj H4 F4)), (proj2 (trimmed_if_told _ _ _) H2),
      (proj2 (trimmed_if_told _ _ _) H3). by destruct x.
Qed.

Lemma mapM_said {A} (parse : json -> option A) said test vs l :
  (forall v x, parse v = Some x <-> said v x /\ test x = true) ->
  mapM parse vs = Some l <-> Forall2 said vs l /\ forallb test l = true.
Proof.
  intros Hp. rewrite mapM_Some. split.
  - induction 1 as [|v x vs l Hx _ [IH1 IH2]]; [done|]. apply Hp in Hx as [Hx Ht]. split; [by constructor|]. cbn. by rewrite Ht.
  - intros [H Hl]. induction H as [|v x vs l Hx _ IH]; [constructor|]. cbn in Hl. apply andb_true_iff in Hl as [H1 H2].
    constructor; [by apply Hp|by apply IH].
Qed.

Lemma items_iff k v vs : items k v = Some vs <-> get k v = Some (JArr vs).
Proof. unfold items. destruct (get k v) as [[]|]; naive_solver. Qed.

Lemma many_all {A} (test : A -> bool) l : many test l = true <-> l <> [] /\ forallb test l = true.
Proof. destruct l; cbn; naive_solver. Qed.

Lemma all_items_said {A} k v (parse : json -> option A) said test l :
  (forall v x, parse v = Some x <-> said v x /\ test x = true) ->
  items k v ≫= all_items parse = Some l <-> listed k v said l /\ many test l = true.
Proof.
  intros Hp. rewrite bind_Some, many_all. unfold listed. split.
  - intros (vs & Hvs%items_iff & H). destruct vs as [|w vs]; [done|]. cbn [all_items] in H. apply (mapM_said parse said test) in H as [H Hl]; [|done].
    split_and!; [by exists (w :: vs)| |done]. by inversion H.
  - intros ((vs & Hvs & H) & Hn & Hl). exists vs. split; [by apply items_iff|]. destruct vs as [|w vs]; [by inversion H; subst|].
    cbn [all_items]. by apply (mapM_said parse said test).
Qed.

Lemma vendors_said v o : parse_vendors v = Some o <-> says_vendors v o /\ option_ok (many vendor_ok) o = true.
Proof.
  unfold parse_vendors, says_vendors, listed. split.
  - destruct (get "vendors" v) as [[| | | |vs|]|] eqn:E; try done; try (intros [= <-]; split; [tauto|done]).
    intros (l & Hl & [= <-])%bind_Some. apply (mapM_said _ _ _ _ _ vendor_said) in Hl as [Hl Ht]. destruct l as [|x l].
    + inversion Hl; subst. split; [auto|done].
    + split; [eauto|done].
  - destruct o as [l|]; cbn [option_ok].
    + rewrite many_all. intros ((vs & -> & Hl) & Hn & Ht). rewrite (proj2 (mapM_said _ _ _ _ _ vendor_said)) by done. by destruct l.
    + by intros [[->|[->| ->]] _].
Qed.

Lemma texts_filter vs : map JStr (omap as_string (map Some vs)) = List.filter is_text_item vs.
Proof. induction vs as [|[] vs IH]; cbn; congruence. Qed.

Lemma map_JStr_inj l l' : map JStr l = map JStr l' -> l = l'.
Proof. revert l'. induction l as [|s l IH]; intros [|s' l']; cbn [map]; try done. intros [= -> H]. f_equal. by apply IH. Qed.

Lemma warned_iff v o : (omap as_string ∘ map Some <$> items "warnings" v) = o <-> warned v o.
Proof.
  destruct (items "warnings" v) as [vs|] eqn:E.
  - apply items_iff in E. cbn [fmap option_fmap option_map compose]. destruct o as [ws|]; cbn [warned].
    + split.
      * intros [= <-]. exists vs. by rewrite texts_filter.
      * intros (vs' & E' & Hf). rewrite E in E'. injection E' as <-. f_equal. apply map_JStr_inj. by rewrite texts_filter.
    + split; [done|]. intros H. by apply H in E.
  - assert (forall vs, get "warnings" v <> Some (JArr vs)) as Hn by (intros vs Hvs%items_iff; congruence).
    destruct o as [ws|]; cbn [warned]; [|done]. split; [done|]. intros (vs & Hvs & _). by apply Hn in Hvs.
Qed.

Lemma object_value_iff o j : object_value o = Some j <-> o = Some j /\ is_object j = true.
Proof. unfold object_value. destruct o as [[]|]; naive_solver. Qed.

Lemma told_object k v s : told k v s -> is_object v = true.
Proof. intros (t & Ht & _). unfold stated, get in Ht. by destruct v. Qed.

Lemma query_value_iff v v' : query_value v = Some v' <-> v' = trimmed_value v /\ value_ok v' = true.
Proof.
  destruct v as [|b|n|s|l|l]; cbn [query_value trimmed_value]; try naive_solver.
  - destruct (is_finite n) eqn:E; [split; [by intros [= <-]|by intros [-> _]]|]. split; [done|]. intros [-> H]. cbn [value_ok] in H. congruence.
  - destruct (length (trim s) <=? 200)%nat eqn:E.
    + split; [intros [= <-]; split; [done|]; cbn [value_ok]; by rewrite clean_trim, E|by intros [-> _]].
    + split; [done|]. intros [-> H]. cbn [value_ok] in H. by rewrite E, andb_false_r in H.
Qed.

Lemma query_keys_plain path k :
  k ∈ ASSISTANT_NAVIGATION_QUERY_KEYS path -> array_index k = None /\ k <> js "__proto__".
Proof.
  assert (Forall (fun k => array_index k = None /\ k <> js "__proto__") [js "username"; js "filter"; js "l0Only"]) as Hf
    by (apply (bool_decide_unpack _); vm_compute; exact I).
  rewrite Forall_forall in Hf. intros Hk. apply Hf. unfold ASSISTANT_NAVIGATION_QUERY_KEYS in Hk. repeat case_bool_decide; set_solver.
Qed.

Lemma build_query_said path es acc r :
  build_query (ASSISTANT_NAVIGATION_QUERY_KEYS path) es acc = Some r <->
  let said := map (prod_map id trimmed_value) es in
  Forall (fun kv => kv.1 ∈ ASSISTANT_NAVIGATION_QUERY_KEYS path /\ value_ok kv.2 = true) said /\
  r = foldl (fun acc kv => set_member kv.1 kv.2 acc) acc said.
Proof.
  cbv zeta. revert acc. induction es as [|[k v] es IH]; intros acc.
  { cbn. split; [intros [= <-]; done|by intros [_ ->]]. }
  cbn [build_query map foldl prod_map fst snd]. rewrite Forall_cons. cbn [fst snd]. change (id k) with k. case_bool_decide as Hk; [|naive_solver].
  destruct (query_value v) as [v'|] eqn:Ev.
  - apply query_value_iff in Ev as [-> Hv]. rewrite IH. unfold assign. rewrite bool_decide_eq_false_2 by (by apply (query_keys_plain path)). tauto.
  - split; [done|]. intros (((_ & Hv) & _) & _). by rewrite (proj2 (query_value_iff v (trimmed_value v))) in Ev.
Qed.

Lemma literal_fun k v a b : literally k v a -> literally k v b -> a = b.
Proof. unfold literally, stated. intros -> H. apply js_inj. congruence. Qed.

(** One of two literals. *)
Lemma two_literals {A} k v (x y z : A) a b :
  a <> b ->
  (if bool_decide (text k v = Some (js a)) then Some x else if bool_decide (text k v = Some (js b)) then Some y else None) = Some z <->
  z = x /\ literally k v a \/ z = y /\ literally k v b.
Proof.
  intros Hab. pose proof (literal_fun k v a b) as Hf. rewrite <- !literal_iff in Hf |- *.
  destruct (bool_decide (text k v = Some (js a))), (bool_decide (text k v = Some (js b))); naive_solver.
Qed.

Lemma scope_said v s :
  config_scope v = Some s <-> literally "scope" v match s with UserSkills => "user_skills" | ChannelScope => "channel" end /\ true = true.
Proof. unfold config_scope. rewrite two_literals by done. destruct s; naive_solver. Qed.

Lemma kind_said v k :
  provider_kind v = Some k <-> literally "provider_kind" v match k with BuiltIn => "built_in" | CustomProvider => "custom" end.
Proof. unfold provider_kind. rewrite two_literals by done. destruct k; naive_solver. Qed.

Lemma verb_said v k :
  account_verb v = Some k <-> literally "action" v match k with DisableAccount => "disable" | DeleteAccount => "delete" end.
Proof. unfold account_verb. rewrite two_literals by done. destruct k; naive_solver. Qed.

(** ** Actions *)

(** Every reader of a successful parse as what the member says. *)
Ltac heard :=
  repeat match goal with
  | H : _ && _ = true |- _ => apply andb_true_iff in H as [? ?]
  | H : has_type _ _ = true |- _ => apply literal_iff in H
  | H : is_offered _ = true |- _ => apply literal_iff in H
  | H : offered_reason _ = Some _ |- _ => apply bind_keep in H as [H ?]
  | H : confirmation_token _ = Some _ |- _ => apply filled_told in H as [? ?]
  | H : trimmed_text _ _ = Some _ |- _ => apply trimmed_told in H
  | H : filled_text _ _ = Some _ |- _ => apply filled_told in H as [? ?]
  | H : short_text _ _ _ = Some _ |- _ => apply short_told in H as [? ?]
  | H : integer _ _ = Some _ |- _ => apply integer_counted in H as [? ?]
  | H : positive_int _ _ = Some _ |- _ => apply positive_counted in H as [? ?]
  | H : short_option _ _ _ = Some _ |- _ => apply short_option_told in H as [? ?]
  | H : parse_confirmation _ = Some _ |- _ => apply confirmation_said in H as [? ?]
  | H : provider_kind _ = Some _ |- _ => apply kind_said in H
  | H : account_verb _ = Some _ |- _ => apply verb_said in H
  | H : parse_vendors _ = Some _ |- _ => apply vendors_said in H as [? ?]
  end.

Lemma user_action_said v a :
  parseAssistantUserAction v = Some a -> says v a.
Proof.
  unfold parseAssistantUserAction. destruct (existsb _ _ || _) eqn:Es; [done|]. intros (t & Ht & H)%bind_Some.
  destruct (proj1 (target_said v t) (conj Es Ht)) as [Hu _]. parse_inv; heard; by cbn [says].
Qed.

Lemma config_change_said v a : parse_config_change v = Some a -> says v a.
Proof.
  unfold parse_config_change. destruct (has_type _ v) eqn:Et; [|done]. intros (c & Hc & H)%bind_Some.
  apply bind_Some in H as (changes & Hch & H). apply (all_items_said _ _ _ says_change preview_ok) in Hch as [Hch _]; [|apply change_said].
  apply bind_Some in H as (scope & Hs & H).
  apply (optional_given _ _ _ _ (fun _ => true) _ (scope_said v)) in Hs as [Hs _]; [|intros x; apply stated_present].
  apply bind_Some in H as (target & Htg & H).
  apply (optional_given _ _ _ _ is_positive _ (positive_counted _ v)) in Htg as [Htg _]; [|apply counted_present].
  apply bind_Some in H as (channel & Hcn & H).
  apply (optional_given _ _ _ _ is_positive _ (positive_counted _ v)) in Hcn as [Hcn _]; [|apply counted_present].
  apply bind_Some in H as (name & Hn & H).
  apply (optional_given _ _ _ _ filled _ (filled_told _ v)) in Hn as [Hn _]; [|apply told_present].
  injection H as <-. heard. cbn [says]. pose proof (proj1 (warned_iff v _) eq_refl). tauto.
Qed.

Lemma parsers_said f v a : f ∈ action_parsers -> f v = Some a -> says v a.
Proof.
  intros Hf H. unfold action_parsers in Hf.
  repeat (apply elem_of_cons in Hf; destruct Hf as [->|Hf]; [|]); [..|by apply elem_of_nil in Hf].
  - unfold parseAssistantNavigationAction in H. parse_inv. heard. cbn [says]. split_and!; [done|done|].
    destruct (get "query" v) as [q|] eqn:Eq; [|left; naive_solver]. right. exists q. split; [done|].
    match goal with H : entries _ ≫= _ = Some _ |- _ => apply bind_Some in H as (es & Hes & H) end. exists es. split; [done|].
    by apply build_query_said.
  - unfold parseAssistantNewUserGiftAction in H. parse_inv. heard. cbn [says]. tauto.
  - unfold parseAssistantWeeklyDiscountAction in H. parse_inv. heard. cbn [says]. tauto.
  - by apply user_action_said.
  - unfold parse_human_support in H. parse_inv. heard. cbn [says]. tauto.
  - by apply config_change_said.
  - unfold parse_pricing_change in H. parse_inv. heard.
    repeat match goal with H : object_value _ = Some _ |- _ => apply object_value_iff in H as [? ?] end.
    cbn [says]. split_and!; [done|done|]. unfold says_pricing. cbn. eauto.
  - unfold parse_model_sync in H. destruct (has_type _ v) eqn:Et; [|done]. apply bind_Some in H as (c & Hc & H).
    apply bind_Some in H as (models & Hm & H). apply (all_items_said _ _ _ says_model model_ok) in Hm as [Hm _]; [|apply model_said].
    apply bind_Some in H as (locale & Hl & H). apply bind_Some in H as (digest & Hd & H). apply bind_keep in Hd as [(s & Hs & ->)%fmap_Some _].
    apply bind_Some in H as (vendors & Hv & H). injection H as <-. heard. cbn [says]. eauto 10.
  - unfold parse_create_key in H. parse_inv. heard. cbn [says]. tauto.
  - unfold parse_image_generation in H. parse_inv. heard. cbn [says]. tauto.
  - unfold parse_recommendation in H. parse_inv. heard. cbn [says]. tauto.
  - unfold parse_disable_request in H. parse_inv. heard. cbn [says]. tauto.
Qed.

(** The other way round: each reader finds what the member says. *)
Ltac tell :=
  repeat first
  [ apply bind_Some; eexists; split;
    [ first [ apply bind_keep; split; [|eassumption]
            | idtac ];
      first [ eassumption
            | apply trimmed_told; eassumption
            | apply filled_told; split; eassumption
            | apply short_told; split; eassumption
            | apply integer_counted; split; eassumption
            | apply positive_counted; split; eassumption
            | apply short_option_told; split; eassumption
            | apply confirmation_said; split; eassumption
            | apply kind_said; eassumption
            | apply verb_said; eassumption
            | apply vendors_said; split; eassumption ]
    | cbv beta ]
  | reflexivity ].

Ltac in_order := cbn [says action_ok]; rewrite ?andb_true_iff; intros ? ?; destruct_and?.

Definition type_of (a : AssistantAction) : string :=
  match a with
  | Navigate _ _ => "navigate" | NewUserGift _ _ => "new_user_gift" | WeeklyDiscount _ _ => "weekly_discount"
  | UserPasswordChange _ => "user_password_change" | UserOAuthUnbind _ _ _ _ => "user_oauth_unbind"
  | UserAccountAction _ _ => "user_account_action" | HumanSupport _ _ => "human_support"
  | AdminConfigChange _ _ _ _ _ _ _ => "admin_config_change" | AdminPricingChange _ _ => "admin_pricing_change"
  | AdminModelSync _ _ _ _ _ => "admin_model_sync" | CreateKey _ _ _ => "create_key"
  | ImageGeneration _ _ _ _ _ _ _ => "image_generation" | L1Recommendation _ _ _ => "l1_recommendation"
  | AccountDisableRequest _ _ _ _ => "account_disable_request"
  end.

Definition parser_of (a : AssistantAction) : json -> option AssistantAction :=
  match a with
  | Navigate _ _ => parseAssistantNavigationAction | NewUserGift _ _ => parseAssistantNewUserGiftAction
  | WeeklyDiscount _ _ => parseAssistantWeeklyDiscountAction
  | UserPasswordChange _ | UserOAuthUnbind _ _ _ _ | UserAccountAction _ _ => parseAssistantUserAction
  | HumanSupport _ _ => parse_human_support | AdminConfigChange _ _ _ _ _ _ _ => parse_config_change
  | AdminPricingChange _ _ => parse_pricing_change | AdminModelSync _ _ _ _ _ => parse_model_sync | CreateKey _ _ _ => parse_create_key
  | ImageGeneration _ _ _ _ _ _ _ => parse_image_generation | L1Recommendation _ _ _ => parse_recommendation
  | AccountDisableRequest _ _ _ _ => parse_disable_request
  end.

Lemma says_type v a : says v a -> literally "type" v (type_of a).
Proof. destruct a; cbn [says type_of]; tauto. Qed.

Lemma has_type_said v a t : says v a -> has_type t v = String.eqb t (type_of a).
Proof.
  intros H%says_type. apply eq_bool_prop_intro. unfold has_type. rewrite !Is_true_true, literal_iff, String.eqb_eq.
  split; [intros Ht; by apply (literal_fun "type" v)|by intros ->].
Qed.

Lemma navigation_told v path query :
  says v (Navigate path query) -> action_ok (Navigate path query) = true -> parseAssistantNavigationAction v = Some (Navigate path query).
Proof.
  intros Hs Ha. unfold parseAssistantNavigationAction. rewrite (has_type_said v _ _ Hs). cbn [type_of String.eqb Ascii.eqb Bool.eqb].
  revert Hs Ha. in_order. apply bind_Some. exists path. split; [apply bind_keep; split; [by apply trimmed_told|done]|]. apply bind_Some. exists query.
  split; [|done]. match goal with H : _ \/ _ |- _ => destruct H as [[-> ->]|(q & -> & es & Hes & Hq)] end; [done|].
  rewrite Hes. cbn [mbind option_bind]. by apply build_query_said.
Qed.

Lemma config_change_told v a :
  match a with AdminConfigChange _ _ _ _ _ _ _ => True | _ => False end ->
  says v a -> action_ok a = true -> parse_config_change v = Some a.
Proof.
  destruct a as [| | | | | | |c scope target channel name changes warnings| | | | | |]; try done. intros _ Hs Ha. unfold parse_config_change.
  rewrite (has_type_said v _ _ Hs). cbn [type_of String.eqb Ascii.eqb Bool.eqb]. revert Hs Ha. in_order.
  rewrite (proj2 (confirmation_said v c)) by done. cbn [mbind option_bind].
  rewrite (proj2 (all_items_said "changes" v parse_change says_change preview_ok changes change_said)) by done. cbn [mbind option_bind].
  rewrite (proj2 (optional_given "scope" v _ _ (fun _ => true) scope (scope_said v) ltac:(intros x; apply stated_present)))
    by (split; [done|by destruct scope]). cbn [mbind option_bind].
  rewrite (proj2 (optional_given "target_user_id" v _ _ is_positive target (positive_counted _ v) (counted_present _ v))) by done.
  rewrite (proj2 (optional_given "channel_id" v _ _ is_positive channel (positive_counted _ v) (counted_present _ v))) by done.
  rewrite (proj2 (optional_given "channel_name" v _ _ filled name (filled_told _ v) (told_present _ v))) by done.
  cbn [mbind option_bind]. by rewrite (proj2 (warned_iff v warnings)).
Qed.

Lemma said_parser v a : says v a -> action_ok a = true -> parser_of a v = Some a.
Proof.
  intros Hs Ha. destruct a; cbn [parser_of]; try (by apply navigation_told); try (by apply config_change_told);
  unfold parseAssistantNewUserGiftAction, parseAssistantWeeklyDiscountAction, parseAssistantUserAction, parse_human_support,
    parse_pricing_change, parse_model_sync, parse_create_key, parse_image_generation, parse_recommendation, parse_disable_request,
    is_offered, offered_reason, confirmation_token;
  rewrite ?(has_type_said v _ _ Hs); cbn [type_of String.eqb Ascii.eqb Bool.eqb]; revert Hs Ha; in_order.
  all: try (rewrite (proj2 (literal_iff "status" v "offered")) by done; cbn [andb]).
  all: try (destruct (proj2 (target_said v target) ltac:(done)) as [-> ->]; cbn [mbind option_bind]).
  all: try (by tell).
  - destruct pricing as [m o x]. match goal with H : says_pricing _ _ |- _ => destruct H as (q & Hq & Hm & Ho & Hx) end. cbn in *.
    rewrite (proj2 (confirmation_said v c)), (proj2 (object_value_iff (get "pricing" v) q)) by eauto using told_object. cbn [mbind option_bind].
    by rewrite (proj2 (filled_told "model_id" q m)), (proj2 (object_value_iff (get "old" q) o)), (proj2 (object_value_iff (get "next" q) x)).
  - match goal with H : exists _, told "source_digest" _ _ /\ _ |- _ => destruct H as (s & Hs & ->) end.
    rewrite (proj2 (confirmation_said v c)), (proj2 (all_items_said "models" v parse_model says_model model_ok models model_said)) by done.
    rewrite (proj2 (trimmed_told "locale" v locale)), (proj2 (trimmed_told "source_digest" v s)) by done. cbn [mbind option_bind fmap option_fmap option_map].
    unfold keep. match goal with H : is_digest _ = true |- _ => rewrite H end. cbn [mbind option_bind]. by rewrite (proj2 (vendors_said v vendors)).
Qed.

(** Every parser gives the actions of its types only. *)
Lemma parser_found f v a : f ∈ action_parsers -> f v = Some a -> f = parser_of a.
Proof.
  intros Hf H. unfold action_parsers in Hf.
  repeat (apply elem_of_cons in Hf; destruct Hf as [->|Hf]; [|]); [..|by apply elem_of_nil in Hf].
  all: unfold parseAssistantNavigationAction, parseAssistantNewUserGiftAction, parseAssistantWeeklyDiscountAction, parseAssistantUserAction,
    parse_human_support, parse_config_change, parse_pricing_change, parse_model_sync, parse_create_key, parse_image_generation,
    parse_recommendation, parse_disable_request in H; by parse_inv.
Qed.

Lemma parser_listed a : parser_of a ∈ action_parsers.
Proof. unfold action_parsers. destruct a; cbn [parser_of]; set_solver. Qed.

Lemma parser_of_type a b : type_of a = type_of b -> parser_of a = parser_of b.
Proof. destruct a, b; cbn; try done. Qed.

Lemma first_result_found {A B} (fs : list (A -> option B)) f x r : f ∈ fs -> f x = Some r -> exists r', first_result fs x = Some r'.
Proof.
  induction fs as [|g fs IH]; [by intros ?%elem_of_nil|]. intros Hf Hr. cbn [first_result]. destruct (g x) as [r'|] eqn:E; [eauto|].
  apply elem_of_cons in Hf as [->|Hf]; [congruence|by apply IH].
Qed.

(** The client reads exactly what the JSON says, if it is in order. *)
Lemma parsed_iff_said v a : parseAssistantAction (Some v) = Some a <-> says v a /\ action_ok a = true.
Proof.
  split.
  - intros H. split; [|by eapply parsed_action_ok]. apply first_result_Some in H as (f & Hf & H). by eapply parsers_said.
  - intros [Hs Ha]. pose proof (said_parser v a Hs Ha) as Hp. cbn [parseAssistantAction].
    destruct (first_result_found action_parsers _ v a (parser_listed a) Hp) as [b Hb]. rewrite Hb.
    apply first_result_Some in Hb as (f & Hf & Hb). pose proof (parsers_said f v b Hf Hb) as Hsb. pose proof (parser_found f v b Hf Hb) as ->.
    rewrite (parser_of_type b a) in Hb; [congruence|]. apply (literal_fun "type" v); by apply says_type.
Qed.
