(* ===== verification/AssistantActionsBack.v ===== *)
(** * The actions of the assistant are read back

    Every action in order is parsed from its JSON as itself.  With [parsed_iff_said] this
    gives the exact behaviour of the reader. *)
From S2P Require Import Prelude JsString JsNumber JsJson JsNumberPrint AuthSession JsCollections Wallet AssistantActions AssistantActionsSaid.
From Stdlib Require Import Lia.

(** ** Actions are read back *)

Lemma get_obj_cons k k' o l :
  get k (obj ((k', o) :: l)) = if String.eqb k' k then match o with Some j => Some j | None => get k (obj l) end else get k (obj l).
Proof.
  unfold obj. cbn [omap list_omap fst snd]. destruct o as [j|]; cbn [fmap option_fmap option_map].
  - unfold get at 1. cbn [list_find fst]. destruct (String.eqb_spec k' k) as [->|Hne]; [by rewrite decide_True|].
    rewrite decide_False by (intros E; by apply js_inj in E). cbn [get]. by destruct (list_find _ _) as [[]|].
  - by destruct (String.eqb k' k).
Qed.

Lemma get_obj_nil k : get k (obj []) = None.
Proof. done. Qed.

Ltac get_tac :=
  cbn [app confirmation_members target_members]; rewrite ?get_obj_cons, ?get_obj_nil; cbn [String.eqb Ascii.eqb Bool.eqb fmap option_fmap option_map];
  unfold str, num_of, lit.

Lemma trimmed_text_read k v s : get k v = Some (JStr s) -> clean s = true -> trimmed_text k v = Some s.
Proof. intros Hg Hc%bool_decide_eq_true. unfold trimmed_text, text. rewrite Hg. cbn. by rewrite Hc. Qed.

Lemma filled_text_read k v s : get k v = Some (JStr s) -> filled s = true -> filled_text k v = Some s.
Proof.
  intros Hg [Hc Hn]%andb_true_iff. unfold filled_text. rewrite (trimmed_text_read k v s) by done. cbn. unfold keep. by rewrite Hn.
Qed.

Lemma integer_read k v n : get k v = Some (JNum n) -> is_integer n = true -> integer k v = Some n.
Proof. intros Hg Hn. unfold integer, number. rewrite Hg. cbn. unfold keep. by rewrite Hn. Qed.

Lemma positive_int_read k v n : get k v = Some (JNum n) -> is_positive n = true -> positive_int k v = Some n.
Proof. intros Hg [Hi Hn]%andb_true_iff. unfold positive_int. rewrite (integer_read k v n) by done. cbn. unfold keep. by rewrite Hn. Qed.

Lemma short_text_read max k v s : get k v = Some (JStr s) -> short_ok max s = true -> short_text max k v = Some s.
Proof. intros Hg [Hf Hl]%andb_true_iff. unfold short_text. rewrite (filled_text_read k v s) by done. cbn. unfold keep. by rewrite Hl. Qed.

Lemma short_option_read max k v o :
  get k v = JStr <$> o -> option_ok (short_ok max) o = true -> short_option max k v = Some o.
Proof.
  intros Hg Ho. unfold short_option. destruct o as [s|]; cbn [fmap option_fmap option_map option_ok] in *.
  - apply andb_true_iff in Ho as [Hf Hl]. apply andb_true_iff in Hf as [Hc Hn]. rewrite (trimmed_text_read k v s) by done. cbn [default].
    unfold id. rewrite Hn. unfold keep. by rewrite Hl.
  - unfold trimmed_text, text. by rewrite Hg.
Qed.

Lemma optional_read {A} k (parse : option A) v o (f : A -> json) :
  get k v = f <$> o -> (forall x, o = Some x -> parse = Some x) -> optional k parse v = Some o.
Proof.
  intros Hg Hp. unfold optional, has. rewrite Hg. destruct o as [x|]; [|done]. cbn. by rewrite (Hp x).
Qed.

Lemma has_type_read t t' l : has_type t (obj (("type"%string, lit t') :: l)) = String.eqb t' t.
Proof.
  unfold has_type, text. rewrite get_obj_cons. cbn [String.eqb Ascii.eqb Bool.eqb as_string]. unfold lit.
  destruct (String.eqb_spec t' t) as [->|Hne]; [by apply bool_decide_eq_true|]. apply bool_decide_eq_false. intros [= E]. by apply js_inj in E.
Qed.

Ltac member_tac := apply (bool_decide_unpack _); vm_compute; exact I.
Ltac from_members Hg := rewrite Hg by member_tac; get_tac; reflexivity.

Lemma parse_confirmation_read v c :
  (forall k, k ∈ (confirmation_members c).*1 -> get k v = get k (obj (confirmation_members c))) -> confirmation_ok c = true ->
  parse_confirmation v = Some c.
Proof.
  intros Hg [Ht Hn]%andb_true_iff. unfold parse_confirmation, confirmation_token.
  rewrite (filled_text_read _ v (token c)) by (done || from_members Hg).
  cbn [mbind option_bind]. unfold requires_confirmation, boolean. rewrite Hg by member_tac. get_tac.
  rewrite bool_decide_eq_true_2 by done. rewrite (positive_int_read _ v (expires_in_seconds c)) by (done || from_members Hg).
  by destruct c.
Qed.

Lemma parse_target_read v t :
  (forall k, k ∈ (target_members t).*1 -> get k v = get k (obj (target_members t))) -> target_ok t = true -> parse_target v = Some t.
Proof.
  intros Hg Ht. unfold target_ok in Ht. rewrite !andb_true_iff in Ht. destruct Ht as (((((? & ?) & ?) & ?) & ?) & ?). unfold parse_target, boolean.
  rewrite (integer_read "target_user_id" v (target_user_id t)) by (done || from_members Hg). cbn [mbind option_bind].
  unfold keep, at_least at 1. match goal with H : num_leb _ _ = true |- _ => rewrite H end. cbn [mbind option_bind].
  unfold filled in *. repeat match goal with H : clean _ && nonempty _ = true |- _ => apply andb_true_iff in H as [? ?] end.
  rewrite (trimmed_text_read "target_username" v (target_username t)) by (done || from_members Hg). cbn [mbind option_bind].
  rewrite (trimmed_text_read "target_display_name" v (target_display_name t)) by (done || from_members Hg). cbn [mbind option_bind].
  rewrite (integer_read "target_role" v (target_role t)) by (done || from_members Hg). cbn [mbind option_bind].
  rewrite (trimmed_text_read "target_group" v (target_group t)) by (done || from_members Hg). cbn [mbind option_bind].
  rewrite Hg by member_tac. get_tac. cbn [mbind option_bind].
  repeat match goal with H : nonempty _ = true |- _ => rewrite H; clear H end. by destruct t.
Qed.

(** A parser that is not the one of the type gives nothing. *)
Lemma user_action_other v :
  has_type "user_password_change" v = false -> has_type "user_oauth_unbind" v = false -> has_type "user_account_action" v = false ->
  parseAssistantUserAction v = None.
Proof.
  intros H1 H2 H3. unfold parseAssistantUserAction. destruct (existsb _ _ || _); [done|]. destruct (parse_target v); [|done].
  cbn [mbind option_bind]. by rewrite H1, H2, H3.
Qed.

Ltac type_tac := cbn [app]; rewrite ?has_type_read; cbn [String.eqb Ascii.eqb Bool.eqb andb].

Ltac skip_parsers :=
  cbn [parseAssistantAction action_parsers first_result];
  unfold parseAssistantNavigationAction at 1, parseAssistantNewUserGiftAction at 1, parseAssistantWeeklyDiscountAction at 1,
    parse_human_support at 1, parse_config_change at 1, parse_pricing_change at 1, parse_model_sync at 1, parse_create_key at 1,
    parse_image_generation at 1, parse_recommendation at 1, parse_disable_request at 1;
  type_tac; rewrite ?user_action_other by (by type_tac).

Ltac confirm_tac c := rewrite (parse_confirmation_read _ c) by
  (done || (intros ? Hk; cbn in Hk; repeat (apply elem_of_cons in Hk; destruct Hk as [->|Hk]; [get_tac; reflexivity|]); by apply elem_of_nil in Hk));
  cbn [mbind option_bind].

Lemma read_back_key c name group :
  action_ok (CreateKey c name group) = true -> parseAssistantAction (Some (action_json (CreateKey c name group))) = Some (CreateKey c name group).
Proof.
  cbn [action_ok action_json]. rewrite !andb_true_iff. intros [[Hc H1] H2]. skip_parsers. confirm_tac c.
  rewrite (filled_text_read "name" _ name) by (done || (get_tac; reflexivity)). cbn [mbind option_bind].
  by rewrite (filled_text_read "group" _ group) by (done || (get_tac; reflexivity)).
Qed.

Ltac read_step :=
  first [erewrite short_text_read; [|get_tac; reflexivity|eassumption]
        |erewrite filled_text_read; [|get_tac; reflexivity|eassumption]
        |erewrite positive_int_read; [|get_tac; reflexivity|eassumption]
        |erewrite integer_read; [|get_tac; reflexivity|eassumption]
        |erewrite trimmed_text_read; [|get_tac; reflexivity|eassumption]];
  cbn [mbind option_bind].

Ltac kept_tac := unfold keep; repeat match goal with H : ?b = true |- context [if ?b then _ else _] => rewrite H end; cbn [mbind option_bind].

Lemma read_back_offers a :
  match a with NewUserGift _ _ | WeeklyDiscount _ _ => True | _ => False end ->
  action_ok a = true -> parseAssistantAction (Some (action_json a)) = Some a.
Proof.
  destruct a; try done; intros _; cbn [action_ok action_json]; rewrite !andb_true_iff; intros [[[Hi Hb] Hc] Hr].
  all: skip_parsers; unfold is_offered, offered_reason, text; get_tac; cbn [as_string]; rewrite bool_decide_eq_true_2 by done; cbn [andb].
  all: repeat read_step; by kept_tac.
Qed.

Lemma read_back_support c message :
  action_ok (HumanSupport c message) = true -> parseAssistantAction (Some (action_json (HumanSupport c message))) = Some (HumanSupport c message).
Proof.
  cbn [action_ok action_json]. rewrite !andb_true_iff. intros [[Hc H1] H2]. skip_parsers. confirm_tac c. read_step. by kept_tac.
Qed.

Lemma read_back_requests a :
  match a with L1Recommendation _ _ _ | AccountDisableRequest _ _ _ _ => True | _ => False end ->
  action_ok a = true -> parseAssistantAction (Some (action_json a)) = Some a.
Proof.
  destruct a; try done; intros _; cbn [action_ok action_json]; rewrite !andb_true_iff; intros H; destruct_and?.
  all: skip_parsers; unfold confirmation_token; by repeat read_step.
Qed.

Lemma has_absent k l : k ∉ l.*1 -> has k (obj l) = false.
Proof.
  induction l as [|[k' o] l IH]; [done|]. rewrite fmap_cons, not_elem_of_cons. cbn [fst]. intros [Hne Hl]. unfold has in *. rewrite get_obj_cons.
  destruct (String.eqb_spec k' k) as [->|]; [done|]. by apply IH.
Qed.

Lemma user_action_read v t :
  existsb (fun k => has k v) secret_keys = false -> requires_confirmation v = true -> parse_target v = Some t ->
  parseAssistantUserAction v =
    if has_type "user_password_change" v then Some (UserPasswordChange t)
    else if has_type "user_oauth_unbind" v then
      kind ← provider_kind v; provider ← filled_text "provider" v; label ← filled_text "provider_label" v;
      Some (UserOAuthUnbind t provider kind label)
    else if has_type "user_account_action" v then verb ← account_verb v; Some (UserAccountAction t verb)
    else None.
Proof. intros H1 H2 H3. unfold parseAssistantUserAction. by rewrite H1, H2, H3. Qed.

Lemma user_members t ty l :
  Forall (fun k => k ∉ l.*1) secret_keys -> target_ok t = true ->
  let v := obj ((("type"%string, lit ty) :: target_members t) ++ l) in
  existsb (fun k => has k v) secret_keys = false /\ requires_confirmation v = true /\ parse_target v = Some t.
Proof.
  intros Hl Ht. cbv zeta. split_and!.
  - apply not_true_iff_false. rewrite existsb_exists. intros (k & Hk%list_elem_of_In & H). rewrite has_absent in H; [done|].
    rewrite fmap_app, not_elem_of_app. rewrite Forall_forall in Hl. split; [|by apply Hl].
    assert (Forall (fun k => k ∉ (("type"%string, lit ty) :: target_members t).*1) secret_keys) as Hs by (apply (bool_decide_unpack _); vm_compute; exact I).
    rewrite Forall_forall in Hs. by apply Hs.
  - unfold requires_confirmation, boolean. get_tac. by apply bool_decide_eq_true.
  - apply parse_target_read; [|done]. intros k Hk. cbn in Hk.
    repeat (apply elem_of_cons in Hk; destruct Hk as [->|Hk]; [get_tac; reflexivity|]). by apply elem_of_nil in Hk.
Qed.

Lemma read_back_user a :
  match a with UserPasswordChange _ | UserOAuthUnbind _ _ _ _ | UserAccountAction _ _ => True | _ => False end ->
  action_ok a = true -> parseAssistantAction (Some (action_json a)) = Some a.
Proof.
  destruct a as [| | |t|t provider kind label|t verb| | | | | | | |]; try done; intros _; cbn [action_ok]; rewrite ?andb_true_iff; intros H; destruct_and?.
  all: cbn [parseAssistantAction action_parsers first_result].
  - destruct (user_members t "user_password_change" []) as (G1 & G2 & G3); [apply (bool_decide_unpack _); vm_compute; exact I|done|]. rewrite app_nil_r in G1, G2, G3.
    cbn [action_json]. unfold parseAssistantNavigationAction at 1, parseAssistantNewUserGiftAction at 1, parseAssistantWeeklyDiscountAction at 1.
    type_tac. rewrite (user_action_read _ t G1 G2 G3). by type_tac.
  - pose (l := [("provider", str provider); ("provider_kind", lit (kind_text kind)); ("provider_label", str label)]%string).
    destruct (user_members t "user_oauth_unbind" l) as (G1 & G2 & G3); [apply (bool_decide_unpack _); vm_compute; exact I|done|].
    cbn [action_json]. fold l. set (v := obj _) in *.
    unfold parseAssistantNavigationAction at 1, parseAssistantNewUserGiftAction at 1, parseAssistantWeeklyDiscountAction at 1.
    rewrite (user_action_read v t G1 G2 G3).
    assert (provider_kind v = Some kind) as ->.
    { unfold provider_kind, text. subst v l. get_tac. cbn [as_string]. by destruct kind. }
    rewrite (filled_text_read "provider" v provider), (filled_text_read "provider_label" v label); [|subst v l; get_tac; reflexivity|done|subst v l; get_tac; reflexivity|done].
    subst v. by type_tac.
  - pose (l := [("action", lit (verb_text verb))]%string).
    destruct (user_members t "user_account_action" l) as (G1 & G2 & G3); [apply (bool_decide_unpack _); vm_compute; exact I|done|].
    cbn [action_json]. fold l. set (v := obj _) in *.
    unfold parseAssistantNavigationAction at 1, parseAssistantNewUserGiftAction at 1, parseAssistantWeeklyDiscountAction at 1.
    rewrite (user_action_read v t G1 G2 G3).
    assert (account_verb v = Some verb) as ->.
    { unfold account_verb, text. subst v l. get_tac. cbn [as_string]. by destruct verb. }
    subst v. by type_tac.
Qed.

Lemma read_back_image c prompt model group n size quality :
  let a := ImageGeneration c prompt model group n size quality in
  action_ok a = true -> parseAssistantAction (Some (action_json a)) = Some a.
Proof.
  cbv zeta. cbn [action_ok action_json]. rewrite !andb_true_iff. intros H; destruct_and?. skip_parsers. confirm_tac c.
  repeat read_step. kept_tac.
  rewrite (short_option_read 32 "size" _ size) by (done || (get_tac; by destruct size)). cbn [mbind option_bind].
  by rewrite (short_option_read 32 "quality" _ quality) by (done || (get_tac; by destruct quality)).
Qed.

(** Lists of previews. *)
Lemma mapM_read {A} (parse : json -> option A) (print : A -> json) test l :
  (forall x, test x = true -> parse (print x) = Some x) -> forallb test l = true -> mapM parse (map print l) = Some l.
Proof.
  intros Hp Hl. apply mapM_Some. induction l as [|x l IH]; [constructor|]. cbn [forallb map] in *. apply andb_true_iff in Hl as [H1 H2].
  constructor; [by apply Hp|by apply IH].
Qed.

Lemma all_items_read {A} (parse : json -> option A) (print : A -> json) test l :
  (forall x, test x = true -> parse (print x) = Some x) -> many test l = true -> all_items parse (map print l) = Some l.
Proof. intros Hp Hl. destruct l as [|x l]; [done|]. exact (mapM_read parse print test (x :: l) Hp Hl). Qed.

Lemma preview_read p : preview_ok p = true -> parse_change (preview_json p) = Some p.
Proof.
  intros [H1 H2]%andb_true_iff. unfold parse_change, preview_json, text. get_tac. cbn [as_string].
  rewrite (filled_text_read "key" _ (preview_key p)), (filled_text_read "label" _ (preview_label p)) by (done || (get_tac; reflexivity)). by destruct p.
Qed.

Lemma model_read m : model_ok m = true -> parse_model (model_json m) = Some m.
Proof.
  unfold model_ok. rewrite !andb_true_iff. intros [[H1 H2] H3]. unfold parse_model, model_json.
  rewrite (filled_text_read "model_id" _ (model_id m)), (trimmed_text_read "vendor" _ (model_vendor m)),
    (integer_read "status" _ (model_status m)) by (done || (get_tac; reflexivity)). by destruct m.
Qed.

Lemma trimmed_option_read k v o : get k v = JStr <$> o -> option_ok clean o = true -> trimmed_text k v = o.
Proof. intros Hg Ho. destruct o as [s|]; [by apply trimmed_text_read|]. unfold trimmed_text, text. by rewrite Hg. Qed.

Lemma vendor_read v : vendor_ok v = true -> parse_vendor (vendor_json v) = Some v.
Proof.
  unfold vendor_ok. rewrite !andb_true_iff. intros [[[H1 H2] H3] H4]. unfold parse_vendor, vendor_json.
  rewrite (filled_text_read "name" _ (vendor_name v)), (integer_read "status" _ (vendor_status v)) by (done || (get_tac; by repeat case_match)).
  cbn [mbind option_bind].
  rewrite (trimmed_option_read "description" _ (vendor_description v)), (trimmed_option_read "icon" _ (vendor_icon v))
    by (done || (get_tac; by repeat case_match)). by destruct v.
Qed.

Lemma read_back_pricing c p :
  let a := AdminPricingChange c p in action_ok a = true -> parseAssistantAction (Some (action_json a)) = Some a.
Proof.
  cbv zeta. cbn [action_ok action_json]. rewrite !andb_true_iff. intros [[[Hc H1] H2] H3]. skip_parsers. confirm_tac c.
  assert (forall l, object_value (Some (obj l)) = Some (obj l)) as Ho by done.
  get_tac. rewrite Ho. cbn [mbind option_bind]. rewrite (filled_text_read "model_id" _ (pricing_model p)) by (done || (get_tac; reflexivity)).
  cbn [mbind option_bind]. get_tac. destruct p as [m [] []]; done.
Qed.

Lemma digest_clean s : is_digest s = true -> clean s = true /\ map lower_ascii s = s.
Proof.
  unfold is_digest. intros [Hl Hs]%andb_true_iff. assert (Forall (fun c => is_space c = false /\ lower_ascii c = c) s) as Hc.
  { rewrite Forall_forall. intros c Hin%list_elem_of_In. apply (proj1 (forallb_forall _ _) Hs) in Hin. unfold is_hex_digit, is_digit in Hin.
    split.
    - unfold is_space. apply orb_false_iff. split; [|apply not_true_iff_false; intros E; apply orb_true_iff in Hin; destruct Hin; breflect; lia].
      apply bool_decide_eq_false. intros H. repeat (apply elem_of_cons in H; destruct H as [->|H]; [done|]). by apply elem_of_nil in H.
    - unfold lower_ascii. destruct ((65 <=? c) && (c <=? 90))%N eqn:E; [|done]. apply orb_true_iff in Hin. destruct Hin; breflect; lia. }
  split.
  - apply bool_decide_eq_true, trim_trimmed, no_space_trimmed. eapply Forall_impl; [done|naive_solver].
  - rewrite <- (map_id s) at 2. apply map_ext_in. intros c Hin%list_elem_of_In. rewrite Forall_forall in Hc. by apply Hc.
Qed.

Lemma read_back_sync c models vendors locale digest :
  let a := AdminModelSync c models vendors locale digest in action_ok a = true -> parseAssistantAction (Some (action_json a)) = Some a.
Proof.
  cbv zeta. cbn [action_ok action_json]. rewrite !andb_true_iff. intros [[[[Hc H1] H2] H3] H4]. skip_parsers. confirm_tac c.
  destruct (digest_clean digest H4) as [Hd1 Hd2].
  unfold items. get_tac. cbn [mbind option_bind]. rewrite (all_items_read _ _ model_ok) by (done || apply model_read). cbn [mbind option_bind].
  rewrite (trimmed_text_read "locale" _ locale), (trimmed_text_read "source_digest" _ digest) by (done || (get_tac; by repeat case_match)).
  cbn [mbind option_bind fmap option_fmap option_map]. rewrite Hd2. unfold keep. rewrite H4. cbn [mbind option_bind].
  unfold parse_vendors. get_tac. destruct vendors as [vs|]; cbn [fmap option_fmap option_map option_ok] in *; [|done].
  rewrite (mapM_read _ _ vendor_ok) by (apply vendor_read || by destruct vs). cbn [mbind option_bind]. by destruct vs.
Qed.

Lemma warnings_read ws : omap as_string (map Some (map JStr ws)) = ws.
Proof. induction ws as [|w ws IH]; [done|]. cbn [map omap list_omap as_string]. by rewrite IH. Qed.

Lemma read_back_config c scope target channel name changes warnings :
  let a := AdminConfigChange c scope target channel name changes warnings in
  action_ok a = true -> parseAssistantAction (Some (action_json a)) = Some a.
Proof.
  cbv zeta. cbn [action_ok action_json]. rewrite !andb_true_iff. intros [[[[Hc H1] H2] H3] H4]. skip_parsers. confirm_tac c.
  unfold items. get_tac. cbn [mbind option_bind]. rewrite (all_items_read _ _ preview_ok) by (done || apply preview_read). cbn [mbind option_bind].
  rewrite (optional_read "scope" _ _ scope (fun s => JStr (js (scope_text s)))); [|get_tac; by repeat case_match|].
  2: { intros s ->. unfold config_scope, text. get_tac. cbn [as_string]. by destruct s. }
  rewrite (optional_read "target_user_id" _ _ target JNum); [|get_tac; by repeat case_match|].
  2: { intros n ->. apply positive_int_read; [get_tac; by repeat case_match|done]. }
  rewrite (optional_read "channel_id" _ _ channel JNum); [|get_tac; by repeat case_match|].
  2: { intros n ->. apply positive_int_read; [get_tac; by repeat case_match|done]. }
  rewrite (optional_read "channel_name" _ _ name JStr); [|get_tac; by repeat case_match|].
  2: { intros s ->. apply filled_text_read; [get_tac; by repeat case_match|done]. }
  cbn [mbind option_bind]. destruct warnings as [ws|]; cbn [fmap option_fmap option_map]; [|done]. unfold compose. by rewrite warnings_read.
Qed.

Lemma set_member_new k v (l : list (list N * json)) : k ∉ l.*1 -> set_member k v l = l ++ [(k, v)].
Proof.
  induction l as [|[k0 v0] l IH]; [done|]. rewrite fmap_cons, not_elem_of_cons. cbn [fst set_member app]. intros [Hne Hk].
  rewrite bool_decide_eq_false_2 by done. by rewrite IH.
Qed.

Lemma query_value_read v : value_ok v = true -> query_value v = Some v.
Proof.
  destruct v as [|b|n|s|l|l]; cbn [value_ok query_value]; try done; [by intros ->|]. intros [Hc%bool_decide_eq_true Hl]%andb_true_iff.
  by rewrite Hc, Hl.
Qed.

Lemma build_query_read path q acc :
  NoDup (acc ++ q).*1 -> forallb (fun kv => bool_decide (kv.1 ∈ ASSISTANT_NAVIGATION_QUERY_KEYS path) && value_ok kv.2) q = true ->
  build_query (ASSISTANT_NAVIGATION_QUERY_KEYS path) q acc = Some (acc ++ q).
Proof.
  revert acc. induction q as [|[k v] q IH]; intros acc Hn; [by rewrite app_nil_r|]. cbn [forallb build_query fst snd].
  rewrite !andb_true_iff. intros [[Hk Hv] Hq]. rewrite Hk, (query_value_read v Hv). apply bool_decide_eq_true in Hk.
  unfold assign. rewrite bool_decide_eq_false_2 by (by apply (query_keys_plain path)).
  rewrite set_member_new.
  - rewrite IH; [by rewrite <- app_assoc|by rewrite <- app_assoc|done].
  - rewrite fmap_app, fmap_cons in Hn. cbn [fst] in Hn. apply NoDup_app in Hn as (_ & Hd & _). intros Hin. apply (Hd k Hin). by left.
Qed.

Lemma object_entries_plain (l : list (list N * json)) : Forall (fun kv => array_index kv.1 = None) l -> object_entries l = l.
Proof.
  intros Hl. unfold object_entries. rewrite filter_none, (filter_all (fun kv => array_index kv.1 = None)); [done|done|].
  eapply Forall_impl; [done|]. intros kv Hn [n Hs]. congruence.
Qed.

Lemma read_back_navigation path query :
  let a := Navigate path query in action_ok a = true -> parseAssistantAction (Some (action_json a)) = Some a.
Proof.
  cbv zeta. cbn [action_ok action_json]. unfold query_ok. rewrite !andb_true_iff. intros [Hp [Hn%bool_decide_eq_true Hq]]. skip_parsers.
  assert (forallb clean ASSISTANT_NAVIGATION_PATHS = true) as Hc by (by vm_compute).
  rewrite (trimmed_text_read "path" _ path).
  2: { get_tac. reflexivity. }
  2: { apply bool_decide_eq_true in Hp. apply (proj1 (forallb_forall _ _) Hc). by apply list_elem_of_In. }
  cbn [mbind option_bind]. unfold keep. rewrite Hp. cbn [mbind option_bind]. get_tac. cbn [entries mbind option_bind].
  rewrite object_entries_plain, build_query_read; [done|done|done|].
  rewrite Forall_forall. intros kv Hkv%list_elem_of_In. apply (proj1 (forallb_forall _ _) Hq), andb_true_iff in Hkv as [Hk _].
  apply bool_decide_eq_true in Hk. by apply (query_keys_plain path).
Qed.

(** C31: the client reads an action from a JSON value exactly when the value says that
    action, member by member, and the action is in order.  So the type decides the
    action, every field comes from its own member (texts trimmed, the old and the new value
    of a change as they are), [requires_confirmation] must be [true] with a token and a
    positive lifetime where the action carries a confirmation, an action on a user carries
    no password, key or access token, and pages, query keys, amounts and texts are within
    their bounds.  Every action in order is read back from its own JSON. *)
Theorem assistant_actions_exact (v : json) (a : AssistantAction) :
  (parseAssistantAction (Some v) = Some a <-> says v a /\ action_ok a = true) /\
  (parseAssistantAction (Some (action_json a)) = Some a <-> action_ok a = true).
Proof.
  split; [apply parsed_iff_said|]. split; [apply parsed_action_ok|]. intros Ha.
  destruct a; [by apply read_back_navigation|by apply read_back_offers|by apply read_back_offers|by apply read_back_user
    |by apply read_back_user|by apply read_back_user|by apply read_back_support|by apply read_back_config|by apply read_back_pricing
    |by apply read_back_sync|by apply read_back_key|by apply read_back_image|by apply read_back_requests|by apply read_back_requests].
Qed.
