(* ===== verification/JsRegex.v ===== *)
(** * Regular expressions

    The part of JavaScript's regular expressions the redaction of messages uses: classes of
    code units, sequences, ordered alternatives, greedy repetition, word boundaries, and
    lookaround of one unit.  [ends] lists the ways an expression can match at a position, in
    the order of the backtracking engine; the first is its match.  It is compared with an
    inductive definition of matching. *)
From S2P Require Import Prelude JsString.
From Stdlib Require Import Lia.

Inductive regex :=
| REmpty
| RUnit (test : N -> bool)
| RSeq (r1 r2 : regex)
| RAlt (r1 r2 : regex)
| RStar (r : regex)
| RWordBoundary
| RNotAfter (test : N -> bool)
| RNotBefore (test : N -> bool).

(** A position: the unit before it, if any, and the text after it. *)
Definition position : Type := option N * list N.

Definition opt_test (test : N -> bool) (c : option N) : bool := match c with Some x => test x | None => false end.

(** [\w] *)
Definition is_word (c : N) : bool :=
  ((48 <=? c) && (c <=? 57) || (65 <=? c) && (c <=? 90) || (97 <=? c) && (c <=? 122) || (c =? 95))%N.

Definition at_boundary (p : position) : bool := negb (Bool.eqb (opt_test is_word p.1) (opt_test is_word (head p.2))).

Definition shorter (p q : position) : bool := length p.2 <? length q.2.

(** Greedy repetition: an iteration that consumes nothing is given up. *)
Fixpoint star_ends (body : position -> list position) (fuel : nat) (p : position) : list position :=
  match fuel with
  | O => [p]
  | S f => flat_map (fun q => if shorter q p then star_ends body f q else []) (body p) ++ [p]
  end.

Fixpoint ends (r : regex) (p : position) : list position :=
  match r with
  | REmpty => [p]
  | RUnit test => match p.2 with c :: s => if test c then [(Some c, s)] else [] | [] => [] end
  | RSeq r1 r2 => flat_map (ends r2) (ends r1 p)
  | RAlt r1 r2 => ends r1 p ++ ends r2 p
  | RStar r' => star_ends (ends r') (length p.2) p
  | RWordBoundary => if at_boundary p then [p] else []
  | RNotAfter test => if opt_test test p.1 then [] else [p]
  | RNotBefore test => if opt_test test (head p.2) then [] else [p]
  end.

(** ** Repetition with bounds *)

Fixpoint r_times (n : nat) (r : regex) : regex := match n with O => REmpty | S n' => RSeq r (r_times n' r) end.
Definition r_opt (r : regex) : regex := RAlt r REmpty.
Fixpoint r_upto (n : nat) (r : regex) : regex := match n with O => REmpty | S n' => r_opt (RSeq r (r_upto n' r)) end.
Definition r_range (lo hi : nat) (r : regex) : regex := RSeq (r_times lo r) (r_upto (hi - lo) r).
Definition r_atleast (lo : nat) (r : regex) : regex := RSeq (r_times lo r) (RStar r).
Fixpoint r_alts (l : list regex) : regex := match l with [] => RUnit (fun _ => false) | [r] => r | r :: l' => RAlt r (r_alts l') end.
Fixpoint r_seqs (l : list regex) : regex := match l with [] => REmpty | [r] => r | r :: l' => RSeq r (r_seqs l') end.

(** A literal; with the flag [i], a letter in either case.  Units beyond ASCII are never
    folded to ASCII ones. *)
Definition r_char (c : N) : regex := RUnit (fun d => (d =? c)%N).
Definition r_char_i (c : N) : regex := RUnit (fun d => (lower_ascii d =? lower_ascii c)%N).
Definition r_text (s : list N) : regex := r_seqs (map r_char s).
Definition r_text_i (s : list N) : regex := r_seqs (map r_char_i s).

(** ** Replacement *)

(** The text cut into what is kept and what matched. *)
Inductive piece := Kept (c : N) | Matched (s : list N).

Definition first_match (r : regex) (p : position) : option position :=
  match ends r p with q :: _ => if shorter q p then Some q else None | [] => None end.

Definition consumed (p q : position) : list N := take (length p.2 - length q.2) p.2.

(** [replaceAll] with the flag [g], of an expression that does not match the empty text. *)
Fixpoint scan (r : regex) (fuel : nat) (p : position) : list piece :=
  match fuel with
  | O => []
  | S f =>
      match p.2 with
      | [] => []
      | c :: s =>
          match first_match r p with
          | Some q => Matched (consumed p q) :: scan r f q
          | None => Kept c :: scan r f (Some c, s)
          end
      end
  end.

Definition scan_text (r : regex) (s : list N) : list piece := scan r (length s) (None, s).

Definition piece_text (x : piece) : list N := match x with Kept c => [c] | Matched s => s end.
Definition piece_out (replacement : list N) (x : piece) : list N := match x with Kept c => [c] | Matched _ => replacement end.
Definition is_matched (x : piece) : bool := match x with Matched _ => true | Kept _ => false end.

Definition replace_all (r : regex) (replacement : list N) (s : list N) : list N := flat_map (piece_out replacement) (scan_text r s).
Definition has_match (r : regex) (s : list N) : bool := existsb is_matched (scan_text r s).

(** ** Matching as a relation *)

Inductive matches : regex -> position -> position -> Prop :=
| M_empty p : matches REmpty p p
| M_unit test c s b : test c = true -> matches (RUnit test) (b, c :: s) (Some c, s)
| M_seq r1 r2 p q x : matches r1 p q -> matches r2 q x -> matches (RSeq r1 r2) p x
| M_left r1 r2 p q : matches r1 p q -> matches (RAlt r1 r2) p q
| M_right r1 r2 p q : matches r2 p q -> matches (RAlt r1 r2) p q
| M_done r p : matches (RStar r) p p
| M_more r p q x : matches r p q -> shorter q p = true -> matches (RStar r) q x -> matches (RStar r) p x
| M_boundary p : at_boundary p = true -> matches RWordBoundary p p
| M_not_after test p : opt_test test p.1 = false -> matches (RNotAfter test) p p
| M_not_before test p : opt_test test (head p.2) = false -> matches (RNotBefore test) p p.

#[export] Hint Constructors matches : jsdb.

Lemma star_ends_sound r n p q :
  (forall p q, q ∈ ends r p -> matches r p q) -> q ∈ star_ends (ends r) n p -> matches (RStar r) p q.
Proof.
  intros Hr. revert p. induction n as [|n IH]; intros p; cbn [star_ends]; [intros ->%list_elem_of_singleton; constructor|].
  intros [Hin|Hin]%elem_of_app; [|apply list_elem_of_singleton in Hin as ->; constructor].
  apply list_elem_of_In, in_flat_map in Hin as (x & Hx%list_elem_of_In & Hq). destruct (shorter x p) eqn:E; [|done].
  eapply M_more; [by apply Hr|done|]. apply IH. by apply list_elem_of_In.
Qed.

Lemma star_ends_complete r p q : matches (RStar r) p q -> (forall p q, matches r p q -> q ∈ ends r p) ->
  forall n, length p.2 <= n -> q ∈ star_ends (ends r) n p.
Proof.
  intros H. remember (RStar r) as rs eqn:Er. revert r Er. induction H as [| | | | |r0 p|r0 p q x Hm _ Hs Hq IHq| | |]; intros r Er Hr n Hn; try done.
  - destruct n; cbn [star_ends]; [by left|]. apply elem_of_app. right. by left.
  - injection Er as ->. unfold shorter in Hs. apply Nat.ltb_lt in Hs. destruct n as [|n]; [lia|]. cbn [star_ends].
    apply elem_of_app. left. apply list_elem_of_In, in_flat_map. exists q. split; [by apply list_elem_of_In, Hr|].
    unfold shorter. rewrite (proj2 (Nat.ltb_lt _ _) Hs). apply list_elem_of_In, IHq; [done|done|lia].
Qed.

(** The engine finds exactly the matches of the definition. *)
Theorem ends_exact r p q : q ∈ ends r p <-> matches r p q.
Proof.
  revert p q. induction r as [|test|r1 IH1 r2 IH2|r1 IH1 r2 IH2|r IH| |test|test]; intros p q; cbn [ends].
  - rewrite list_elem_of_singleton. split; [intros ->; constructor|by inversion 1].
  - destruct p as [b [|c s]]; cbn [snd]; [split; [by intros ?%elem_of_nil|by inversion 1]|].
    destruct (test c) eqn:E; [|split; [by intros ?%elem_of_nil|inversion 1; congruence]].
    rewrite list_elem_of_singleton. split; [intros ->; by constructor|by inversion 1].
  - rewrite list_elem_of_In, in_flat_map. setoid_rewrite <- list_elem_of_In. setoid_rewrite IH1. setoid_rewrite IH2.
    split; [intros (x & ? & ?); by econstructor|inversion 1; eauto].
  - rewrite elem_of_app, IH1, IH2. split; [intros [?|?]; by constructor|inversion 1; eauto].
  - split; [apply star_ends_sound; intros; by apply IH|]. intros H. apply (star_ends_complete r p q H); [intros; by apply IH|done].
  - destruct (at_boundary p) eqn:E.
    + rewrite list_elem_of_singleton. split; [intros ->; by constructor|by inversion 1].
    + split; [by intros ?%elem_of_nil|inversion 1; congruence].
  - destruct (opt_test test p.1) eqn:E; [split; [by intros ?%elem_of_nil|inversion 1; congruence]|].
    rewrite list_elem_of_singleton. split; [intros ->; by constructor|by inversion 1].
  - destruct (opt_test test (head p.2)) eqn:E; [split; [by intros ?%elem_of_nil|inversion 1; congruence]|].
    rewrite list_elem_of_singleton. split; [intros ->; by constructor|by inversion 1].
Qed.

(** ** What a replacement covers *)

(** The unit before the position reached after [w]. *)
Definition after (b : option N) (w : list N) : option N := match last w with Some c => Some c | None => b end.

Lemma after_app b v w : after b (v ++ w) = after (after b v) w.
Proof.
  unfold after. destruct w as [|c w _] using rev_ind; [by rewrite app_nil_r|]. by rewrite app_assoc, !last_snoc.
Qed.

Lemma matches_consumes r p q : matches r p q -> exists w, p.2 = w ++ q.2 /\ q.1 = after p.1 w.
Proof.
  induction 1 as [p|test c s b Hc|r1 r2 p q x _ (w1 & E1 & A1) _ (w2 & E2 & A2)| | |r p|r p q x _ (w1 & E1 & A1) _ _ (w2 & E2 & A2)| | |];
    try done; try (by exists []).
  - by exists [c].
  - exists (w1 ++ w2). rewrite E1, E2, A2, A1, after_app. by rewrite app_assoc.
  - exists (w1 ++ w2). rewrite E1, E2, A2, A1, after_app. by rewrite app_assoc.
Qed.

Lemma matches_length r p q : matches r p q -> length q.2 <= length p.2.
Proof. intros (w & -> & _)%matches_consumes. rewrite length_app. lia. Qed.

(** An expression that always consumes a unit. *)
Fixpoint consumes (r : regex) : bool :=
  match r with
  | RUnit _ => true
  | RSeq r1 r2 => consumes r1 || consumes r2
  | RAlt r1 r2 => consumes r1 && consumes r2
  | _ => false
  end.

Lemma consumes_shorter r p q : consumes r = true -> matches r p q -> shorter q p = true.
Proof.
  intros Hc H. unfold shorter. rewrite Nat.ltb_lt. revert Hc.
  induction H as [p|test c s b Hc|r1 r2 p q x H1 IH1 H2 IH2| | |r p|r p q x| | |]; cbn [consumes]; try done.
  - intros _. cbn. lia.
  - apply matches_length in H1, H2. intros [?|?]%orb_true_iff; [specialize (IH1 ltac:(done)); lia|specialize (IH2 ltac:(done)); lia].
  - intros [? ?]%andb_true_iff. auto.
  - intros [? ?]%andb_true_iff. auto.
Qed.

Lemma first_match_matches r p q : first_match r p = Some q -> matches r p q /\ shorter q p = true.
Proof.
  unfold first_match. destruct (ends r p) as [|x l] eqn:E; [done|]. destruct (shorter x p) eqn:Es; [|done]. intros [= <-].
  split; [|done]. apply ends_exact. rewrite E. by left.
Qed.

(** Where a consuming expression matches, the engine finds a match. *)
Lemma first_match_exists r p q : consumes r = true -> matches r p q -> is_Some (first_match r p).
Proof.
  intros Hc Hm. unfold first_match. apply ends_exact in Hm. destruct (ends r p) as [|x l] eqn:E; [by apply elem_of_nil in Hm|].
  rewrite (consumes_shorter r); [done|done|]. apply ends_exact. rewrite E. by left.
Qed.

Lemma consumed_eq r p q : first_match r p = Some q -> p.2 = consumed p q ++ q.2 /\ q.1 = after p.1 (consumed p q) /\ 0 < length (consumed p q).
Proof.
  intros [Hm Hs]%first_match_matches. apply matches_consumes in Hm as (w & E & A). unfold shorter in Hs. apply Nat.ltb_lt in Hs.
  assert (consumed p q = w) as ->.
  { unfold consumed. rewrite E, length_app. replace (length w + length q.2 - length q.2) with (length w) by lia. by rewrite take_app_length. }
  split_and!; [done|done|]. rewrite E, length_app in Hs. lia.
Qed.

Lemma scan_original r n p : length p.2 <= n -> flat_map piece_text (scan r n p) = p.2.
Proof.
  revert p. induction n as [|n IH]; intros [b s] Hn; cbn [scan snd] in *; [by destruct s; [|simpl in Hn; lia]|].
  destruct s as [|c s]; [done|]. destruct (first_match r (b, c :: s)) as [q|] eqn:E; cbn [flat_map piece_text].
  - apply consumed_eq in E as (E & _ & Hl). cbn [snd] in E. rewrite IH; [done|].
    apply (f_equal length) in E. rewrite length_app in E. simpl in *. lia.
  - rewrite IH; [done|]. simpl in *. lia.
Qed.

Lemma scan_covers r n p a b q :
  consumes r = true -> length p.2 <= n -> p.2 = a ++ b -> matches r (after p.1 a, b) q ->
  exists before w later, scan r n p = before ++ Matched w :: later /\
    length (flat_map piece_text before) <= length a < length (flat_map piece_text before ++ w).
Proof.
  intros Hc. revert p a. induction n as [|n IH]; intros [p1 s] a Hn Hs Hm; cbn [fst snd] in *.
  { destruct s; [|simpl in Hn; lia]. symmetry in Hs. apply app_nil in Hs as [-> ->].
    apply (consumes_shorter r _ _ Hc) in Hm. unfold shorter in Hm. apply Nat.ltb_lt in Hm. simpl in Hm. lia. }
  cbn [scan snd]. destruct s as [|c s].
  { symmetry in Hs. apply app_nil in Hs as [-> ->].
    apply (consumes_shorter r _ _ Hc) in Hm. unfold shorter in Hm. apply Nat.ltb_lt in Hm. simpl in Hm. lia. }
  destruct (first_match r (p1, c :: s)) as [x|] eqn:E.
  - apply consumed_eq in E as (E & A & Hl). cbn [fst snd] in E, A. set (w := consumed (p1, c :: s) x) in *. clearbody w.
    destruct (decide (length a < length w)) as [Hlt|Hge].
    { exists [], w, (scan r n x). split; [done|]. simpl. lia. }
    rewrite E in Hs. apply app_eq_inv in Hs as [(k & Hw & Hx)|(k & Ha & Hx)].
    { assert (k = []) as ->. { apply (f_equal length) in Hw. rewrite length_app in Hw. destruct k; [done|]. simpl in *. lia. }
      rewrite app_nil_r in Hw. subst a. destruct (IH x []) as (before & w' & later & Hsc & Hr).
      + apply (f_equal length) in E. rewrite length_app in E. simpl in *. lia.
      + by rewrite Hx.
      + rewrite A. cbn [after last] in *. by destruct (last w).
      + exists (Matched w :: before), w', later. rewrite Hsc. split; [done|]. cbn [flat_map piece_text]. rewrite !length_app in *. simpl in *. lia. }
    destruct (IH x k) as (before & w' & later & Hsc & Hr).
    + apply (f_equal length) in E. rewrite length_app in E. simpl in *. lia.
    + done.
    + by rewrite A, <- after_app, <- Ha.
    + exists (Matched w :: before), w', later. rewrite Hsc. split; [done|]. subst a. cbn [flat_map piece_text]. rewrite !length_app in *. lia.
  - destruct a as [|c' a].
    { cbn [app] in Hs. subst b. cbn [after last] in Hm. apply (first_match_exists r _ _ Hc) in Hm as [? ?]. congruence. }
    injection Hs as <- Hs. destruct (IH (Some c, s) a) as (before & w & later & Hsc & Hr); [simpl in *; lia|done| |].
    + cbn [fst]. change (c :: a) with ([c] ++ a) in Hm. by rewrite after_app in Hm.
    + exists (Kept c :: before), w, later. rewrite Hsc. split; [done|]. cbn [flat_map piece_text length app] in *. lia.
Qed.
