(* ===== verification/MessageSafety.v ===== *)
(** * Redaction of messages (src/apps/web/src/features/assistant/assistant-message-safety.ts)

    Before a message is shown, kept or sent, credentials, addresses and phone numbers are
    replaced with markers: eight regular expressions, one after the other. *)
From S2P Require Import Prelude JsString JsRegex AssistantActions.
From Stdlib Require Import Lia.

Inductive AssistantRedactionKind := ApiKey | Credential | Email | Phone | Token.

Definition ASSISTANT_REDACTION_PLACEHOLDERS (k : AssistantRedactionKind) : list N :=
  match k with
  | ApiKey => js "[REDACTED_API_KEY]"
  | Credential => js "[REDACTED_CREDENTIAL]"
  | Email => js "[REDACTED_EMAIL]"
  | Phone => js "[REDACTED_PHONE]"
  | Token => js "[REDACTED_TOKEN]"
  end.

Definition redaction_kinds : list AssistantRedactionKind := [ApiKey; Credential; Email; Phone; Token].

(** ** Patterns *)

Definition is_letter (c : N) : bool := (((65 <=? c) && (c <=? 90)) || ((97 <=? c) && (c <=? 122)))%N.
Definition is_alnum (c : N) : bool := is_digit c || is_letter c.
Definition one_of (chars : string) (c : N) : bool := bool_decide (c ∈ js chars).
Definition alnum_or (chars : string) : regex := RUnit (fun c => is_alnum c || one_of chars c).
Definition r_digit : regex := RUnit is_digit.
Definition r_space : regex := RUnit is_space.
(** [[\s_-]?], [[\s.-]?], [[^\s,;]+] *)
Definition r_joint (chars : string) : regex := r_opt (RUnit (fun c => is_space c || one_of chars c)).
Definition r_value : regex := r_atleast 1 (RUnit (fun c => negb (is_space c || one_of ",;" c))).

Definition email_pattern : regex :=
  r_seqs [RWordBoundary; r_atleast 1 (alnum_or "._%+-"); r_text (js "@"); r_atleast 1 (alnum_or ".-"); r_text (js ".");
          r_atleast 2 (RUnit is_letter); RWordBoundary].

(** The words for password, key and token in Chinese, and the wide colon. *)
Definition chinese_words : list (list N) := [[23494; 30908]; [23494; 30721]; [23494; 38053]; [20196; 29260]]%N.

Definition credential_pattern : regex :=
  r_seqs [RWordBoundary;
          r_alts ([r_seqs [r_text_i (js "api"); r_joint "_-"; r_text_i (js "key")];
                   r_seqs [r_text_i (js "access"); r_joint "_-"; r_text_i (js "token")];
                   r_seqs [r_text_i (js "refresh"); r_joint "_-"; r_text_i (js "token")]] ++
                  map (fun s => r_text_i (js s)) ["password"; "passwd"; "passcode"; "credential"; "secret"]%string ++ map r_text chinese_words);
          RStar r_space; r_alts [r_text_i (js "is"); r_text (js ":"); r_text (js "="); r_text [65306%N]]; RStar r_space; r_value].

Definition authorization_pattern : regex :=
  r_seqs [RWordBoundary; r_text_i (js "authorization"); RStar r_space; r_text (js ":"); RStar r_space; r_text_i (js "bearer");
          r_atleast 1 r_space; r_value].

Definition bearer_pattern : regex :=
  r_seqs [RWordBoundary; r_text_i (js "bearer"); r_atleast 1 r_space; r_atleast 1 (alnum_or "._~+-/"); RStar (r_char 61%N)].

Definition prefixed_key_pattern : regex :=
  r_seqs [RWordBoundary; r_alts (map (fun s => r_text_i (js s)) ["sk"; "rk"; "pk"; "ak"; "tok"; "token"; "key"; "secret"]%string);
          RUnit (one_of "_-"); RUnit is_alnum; r_atleast 4 (alnum_or "._~+-/"); r_opt (r_text (js "..."))].

Definition vendor_key_pattern : regex :=
  r_seqs [RWordBoundary; r_alts (map (fun s => r_text (js s)) ["ghp"; "gho"; "github_pat"; "glpat"; "xoxb"; "xoxp"; "AIza"; "ya29"]%string);
          r_atleast 8 (alnum_or "-_./~+"); RWordBoundary].

Definition jwt_pattern : regex :=
  r_seqs [RWordBoundary; r_text (js "eyJ"); r_atleast 1 (alnum_or "_-"); r_text (js "."); r_atleast 1 (alnum_or "_-"); r_text (js ".");
          r_atleast 1 (alnum_or "_-"); RWordBoundary].

Definition phone_pattern : regex :=
  r_seqs [RNotAfter is_word; r_opt (r_seqs [r_text (js "+"); r_range 1 3 r_digit; r_joint ".-"]);
          r_alts [r_seqs [r_text (js "("); r_range 2 4 r_digit; r_text (js ")")]; r_range 2 4 r_digit];
          r_joint ".-"; r_range 3 4 r_digit; r_joint ".-"; r_times 4 r_digit; RNotBefore is_word].

Definition assistantSensitivePatterns : list (regex * AssistantRedactionKind) :=
  [(email_pattern, Email); (credential_pattern, Credential); (authorization_pattern, Token); (bearer_pattern, Token);
   (prefixed_key_pattern, ApiKey); (vendor_key_pattern, ApiKey); (jwt_pattern, Token); (phone_pattern, Phone)].

(** ** Redaction *)

Record AssistantMessageSafetyResult := mkSafety { safe_content : list N; redacted : bool }.

(** One pattern. *)
Definition redact_pass (replacementFor : AssistantRedactionKind -> list N) (r : AssistantMessageSafetyResult)
    (pat : regex * AssistantRedactionKind) : AssistantMessageSafetyResult :=
  mkSafety (replace_all pat.1 (replacementFor pat.2) (safe_content r)) (redacted r || has_match pat.1 (safe_content r)).

Definition redactAssistantMessage (content : list N) (replacementFor : AssistantRedactionKind -> list N) : AssistantMessageSafetyResult :=
  fold_left (redact_pass replacementFor) assistantSensitivePatterns (mkSafety content false).

Definition redactAssistantMessageForDisplay (content replacement : list N) : AssistantMessageSafetyResult :=
  redactAssistantMessage content (fun _ => replacement).

Definition redactAssistantMessageForRequest (content : list N) : AssistantMessageSafetyResult :=
  let result := redactAssistantMessage content ASSISTANT_REDACTION_PLACEHOLDERS in
  if negb (redacted result) && existsb (fun k => includes (ASSISTANT_REDACTION_PLACEHOLDERS k) (safe_content result)) redaction_kinds
  then mkSafety (safe_content result) true else result.

(** [/[\p{L}\p{N}]/u]: [meaningful] tells a letter or number from its code point. *)
Definition placeholder_pattern : regex :=
  r_seqs [r_text (js "[REDACTED_"); r_atleast 1 (RUnit (fun c => is_digit c || ((65 <=? c) && (c <=? 90))%N || (c =? 95)%N)); r_text (js "]")].

Definition hasAssistantMessageSubstantialMeaning (meaningful : list N -> bool) (content : list N) : bool :=
  existsb meaningful (runes (trim (replace_all placeholder_pattern [] content))).

(** ** What is left of a message *)

Lemma patterns_consume : Forall (fun pat => consumes pat.1 = true) assistantSensitivePatterns.
Proof. apply (bool_decide_unpack _). vm_compute. exact I. Qed.

Lemma no_match_kept r rep n p : existsb is_matched (scan r n p) = false -> flat_map (piece_out rep) (scan r n p) = flat_map piece_text (scan r n p).
Proof.
  induction (scan r n p) as [|x l IH]; [done|]. cbn [existsb flat_map]. destruct x; cbn [is_matched orb piece_out piece_text]; [|done].
  intros H. by rewrite IH.
Qed.

(** Without a match the text is kept. *)
Lemma replace_all_kept r rep s : has_match r s = false -> replace_all r rep s = s.
Proof. intros H. unfold replace_all, scan_text. rewrite no_match_kept by done. by apply scan_original. Qed.

Lemma passes_redacted rf pats r : redacted r = true -> redacted (fold_left (redact_pass rf) pats r) = true.
Proof. revert r. induction pats as [|pat pats IH]; intros r Hr; [done|]. cbn [fold_left]. apply IH. cbn. by rewrite Hr. Qed.

Lemma passes_kept rf pats r :
  redacted (fold_left (redact_pass rf) pats r) = false -> fold_left (redact_pass rf) pats r = r.
Proof.
  revert r. induction pats as [|pat pats IH]; intros r; [done|]. cbn [fold_left]. intros H.
  pose proof (IH _ H) as E. rewrite E. rewrite E in H. destruct r as [c b]. unfold redact_pass in *. cbn [redacted safe_content] in *.
  apply orb_false_iff in H as [-> Hm]. by rewrite replace_all_kept, Hm.
Qed.

(** Where the text of a pass is cut: a part that is replaced holds the unit at position [i]. *)
Definition replaced_at (r : regex) (s : list N) (i : nat) : Prop :=
  exists before w later, scan_text r s = before ++ Matched w :: later /\
    length (flat_map piece_text before) <= i < length (flat_map piece_text before ++ w).

(** A message is either unchanged and not marked as redacted, or every pattern was applied
    to what the patterns before it left: the text of each pass is the concatenation of its
    pieces, the matched ones are replaced with the marker of the pattern and the others kept,
    and wherever the pattern matches, the match begins in a piece that is replaced. *)
Theorem message_redacted (content : list N) (rf : AssistantRedactionKind -> list N) :
  let result := redactAssistantMessage content rf in
  (redacted result = false -> safe_content result = content) /\
  forall pre pat post, assistantSensitivePatterns = pre ++ pat :: post ->
    let t := safe_content (fold_left (redact_pass rf) pre (mkSafety content false)) in
    safe_content (fold_left (redact_pass rf) (pre ++ [pat]) (mkSafety content false)) = flat_map (piece_out (rf pat.2)) (scan_text pat.1 t) /\
    flat_map piece_text (scan_text pat.1 t) = t /\
    (has_match pat.1 t = true -> redacted result = true) /\
    forall a b q, t = a ++ b -> matches pat.1 (last a, b) q -> replaced_at pat.1 t (length a).
Proof.
  cbv zeta. split; [unfold redactAssistantMessage; intros H; by rewrite (passes_kept _ _ _ H)|].
  intros pre pat post E. set (t := safe_content (fold_left _ pre _)). split_and!.
  - rewrite fold_left_app. done.
  - by apply scan_original.
  - intros Hm. unfold redactAssistantMessage. rewrite E, fold_left_app. cbn [fold_left]. apply passes_redacted. cbn.
    fold t. by rewrite Hm, orb_true_r.
  - intros a b q Ht Hm. assert (consumes pat.1 = true) as Hc.
    { pose proof patterns_consume as Hall. rewrite E, Forall_app, Forall_cons in Hall. tauto. }
    apply (scan_covers pat.1 (length t) (None, t) a b q); [done|done|done|]. cbn [fst]. unfold after. by destruct (last a).
Qed.

(** ** Messages of the tests *)

Example redacts_common_formats :
  redactAssistantMessageForDisplay
    (js "email alice@example.test, phone +86 138 0013 8000, api_key=sk-live-secret-token-123456") (js "[REDACTED]") =
  mkSafety (js "email [REDACTED], phone [REDACTED], [REDACTED]") true.
Proof. by vm_compute. Qed.

Example redacts_keys :
  map redactAssistantMessageForRequest
    [js "Use sk-super-secret-123456 to explain the failing request."; js "Authorization: Bearer abc.def"; js "token [REDACTED_TOKEN] seen";
     js "call 555-0100"] =
  [mkSafety (js "Use [REDACTED_API_KEY] to explain the failing request.") true; mkSafety (js "[REDACTED_TOKEN]") true;
   mkSafety (js "token [REDACTED_TOKEN] seen") true; mkSafety (js "call 555-0100") false].
Proof. by vm_compute. Qed.

(** The Chinese labels are never found at the start of a text or after a character that is not
    an ASCII letter, digit or underscore: [\b] asks for such a character before them. *)
Theorem chinese_label_needs_word b w rest q :
  opt_test is_word b = false -> w ∈ chinese_words -> ~ matches credential_pattern (b, w ++ rest) q.
Proof.
  intros Hb Hw Hm. unfold credential_pattern in Hm. cbn [r_seqs] in Hm. inversion Hm as [| |? ? ? x ? H1 H2| | | | | | |]; subst.
  inversion H1 as [| | | | | | |? Ha| |]; subst. unfold at_boundary in Ha. cbn [fst snd] in Ha. rewrite Hb in Ha.
  unfold chinese_words in Hw. repeat (apply elem_of_cons in Hw as [->|Hw]; [by vm_compute in Ha|]). by apply elem_of_nil in Hw.
Qed.

Example chinese_label_not_redacted :
  redactAssistantMessageForRequest ([23494; 30721]%N ++ js ": hunter2") = mkSafety ([23494; 30721]%N ++ js ": hunter2") false /\
  redactAssistantMessageForRequest (js "password: hunter2") = mkSafety (js "[REDACTED_CREDENTIAL]") true.
Proof. by vm_compute. Qed.
