(* ===== verification/AssistantChat.v ===== *)
(** * Messages to the assistant and its answers (src/apps/web/src/features/assistant/api.ts)

    A message is redacted, joined with as much of the history as the limits allow, and
    sent; a failure that may be temporary is retried.  The answer is parsed into a reply
    with its intent, its action and the traces of the tools it used.

    The network, the clock and the signal that cancels a request are an environment: for each
    attempt it says what the backend answered and when the signal was up.  How a stream is
    read is [AssistantStream]. *)
From S2P Require Import Prelude JsString JsNumber JsJson JsCollections AuthSession Wallet AssistantStream AssistantActions MessageSafety.
From Stdlib Require Import Lia.

(** ** Intents and tools *)

Definition ASSISTANT_INTENTS : list (list N) :=
  map js ["onboarding"; "plan_purchase"; "api_key"; "client_setup"; "cost"; "math"; "recommendation"; "bounty"; "usage"; "models";
          "invitation"; "human_support"; "other"]%string.

(** Lowering ASCII letters is enough: no other unit is lowered to a letter of an intent,
    but for the Kelvin sign, whose lower case is k. *)
Definition KELVIN : N := 8490%N.
Definition lower_intent (c : N) : N := if (c =? KELVIN)%N then 107%N else lower_ascii c.

Definition parseAssistantIntent (value : option json) : option (list N) :=
  match value with
  | Some (JStr s) =>
      let intent := map lower_intent (trim s) in
      if bool_decide (intent ∈ ASSISTANT_INTENTS) then Some intent else None
  | _ => None
  end.

Inductive TraceStatus := OutputAvailable | OutputError | ApprovalRequested.
Inductive MathError := MissingExpression | InvalidExpression.

Record AssistantToolTrace := mkTrace {
  callId : option (list N);
  trace_name : list N;
  trace_status : TraceStatus;
  trace_input : option (list (list N * json));
  trace_result : option spec_float;
  trace_error : option MathError }.

Definition parse_status (v : json) : option TraceStatus :=
  match text "status" v with
  | Some s =>
      if bool_decide (s = js "output-available") then Some OutputAvailable
      else if bool_decide (s = js "output-error") then Some OutputError
      else if bool_decide (s = js "approval-requested") then Some ApprovalRequested else None
  | None => None
  end.

Definition input_value_ok (v : json) : bool :=
  match v with JStr s => length s <=? 200 | JNum n => is_finite n | JBool _ => true | _ => false end.

Fixpoint build_input (es : list (list N * json)) (input : list (list N * json)) : option (list (list N * json)) :=
  match es with
  | [] => Some input
  | (k, v) :: es' => if input_value_ok v then build_input es' (assign k v input) else None
  end.

Definition parse_input (v : json) : option (option (list (list N * json))) :=
  match get "input" v with
  | None => Some None
  | Some i => es ← entries i; input ← build_input es []; Some (match input with [] => None | _ => Some input end)
  end.

Definition parse_trace (v : json) : option AssistantToolTrace :=
  name ← trimmed_text "name" v;
  status ← parse_status v;
  if nonempty name && (length name <=? 80) then
    input ← parse_input v;
    let math := bool_decide (name = js "calculate_math") in
    let result := if math then number "result" v ≫= keep is_finite else None in
    let error := if math then
                   if bool_decide (text "error_code" v = Some (js "missing_math_expression")) then Some MissingExpression
                   else if bool_decide (text "error_code" v = Some (js "invalid_math_expression")) then Some InvalidExpression else None
                 else None in
    Some (mkTrace (text "call_id" v ≫= keep (fun s => length s <=? 200)) name status input result error)
  else None.

Definition parseAssistantToolTraces (value : option json) : list AssistantToolTrace :=
  match value with Some (JArr l) => omap parse_trace (take 1024 l) | _ => [] end.

(** ** Replies *)

Record AssistantReply := mkReply {
  reply_content : list N;
  reply_intent : option (list N);
  reply_action : option AssistantAction;
  reply_tools : list AssistantToolTrace;
  conversationId : option spec_float;
  supportRequest : option json;
  restricted : bool }.

(** [value?.[0]]: of an array, an object or a string. *)
Definition first_of (v : option json) : option json :=
  match v with
  | Some (JArr (x :: _)) => Some x
  | Some (JObj l) => get "0" (JObj l)
  | Some (JStr (c :: _)) => Some (JStr [c])
  | _ => None
  end.

Definition prop_of (k : string) (v : option json) : option json := v ≫= get k.

(** [value || fallback] for the message of an error. *)
Definition message_or (v : option json) (fallback : list N) : list N :=
  match v with Some j => if json_truthy j then json_to_string j else fallback | None => fallback end.

Definition no_answer (payload : json) : list N :=
  message_or (prop_of "message" (get "error" payload)) (message_or (get "message" payload) (js "Assistant returned no answer")).

(** [content?.trim()]: a value that is neither missing nor a string has no [trim] to call. *)
Definition parseAssistantReply (payload : json) : res (list N) :=
  let* content := match prop_of "content" (prop_of "message" (first_of (get "choices" payload))) with
                  | None | Some JNull => Ok []
                  | Some (JStr s) => Ok (trim s)
                  | Some _ => Throw TypeError
                  end in
  if nonempty content then Ok content else Throw (Error (no_answer payload)).

Definition is_true_prop (v : option json) : bool := match v with Some (JBool true) => true | _ => false end.

Definition truthy_prop (v : option json) : bool := match v with Some j => json_truthy j | None => false end.

Definition policy_is (s : string) (payload : json) : bool := bool_decide (text "lmm_assistant_policy" payload = Some (js s)).

(** The properties of [null] cannot be read. *)
Definition buildAssistantReply (payload : json) (intentHeader : option json) : res AssistantReply :=
  match payload with
  | JNull => Throw TypeError
  | _ =>
      let tools := parseAssistantToolTraces (get "lmm_assistant_tools" payload) in
      let history := get "lmm_assistant_history" payload in
      let conversation := match prop_of "conversation_id" history with
                          | Some (JNum n) => if isSafeInteger (Some (JNum n)) && num_ltb num_zero n then Some n else None
                          | _ => None
                          end in
      let support := match get "support_request" payload with
                     | Some r => if truthy_prop (get "id" r) && truthy_prop (get "conversation_id" r) then Some r else None
                     | None => None
                     end in
      let* content := parseAssistantReply payload in
      Ok (mkReply content (parseAssistantIntent intentHeader) (parseAssistantAction (get "lmm_assistant_action" payload)) tools
            conversation support
            (is_true_prop (prop_of "restricted" history) || policy_is "security_refusal" payload || policy_is "conversation_restricted" payload))
  end.

(** ** The conversation that is sent *)

Inductive ChatRole := UserRole | AssistantRole.

Record AssistantChatMessage := mkChat { role : ChatRole; content : list N }.

Definition ASSISTANT_CONVERSATION_MAX_ITEMS : nat := 12.
Definition ASSISTANT_CONVERSATION_MAX_RUNES : Z := 12000.
Definition ASSISTANT_MESSAGE_MAX_RUNES : Z := 4000.

Definition count_runes (s : list N) : Z := Z.of_nat (length (runes s)).

Definition normalizedAssistantHistoryMessage (m : AssistantChatMessage) : option AssistantChatMessage :=
  let c := trim (safe_content (redactAssistantMessageForRequest (content m))) in
  if nonempty c then Some (mkChat (role m) (concat (take (Z.to_nat ASSISTANT_MESSAGE_MAX_RUNES) (runes c)))) else None.

(** The loop over the history, newest first. *)
Fixpoint collect_history (newest_first : list AssistantChatMessage) (conversation : list AssistantChatMessage) (totalRunes : Z)
    : list AssistantChatMessage :=
  match newest_first with
  | [] => conversation
  | m :: rest =>
      if ASSISTANT_CONVERSATION_MAX_ITEMS <=? length conversation then conversation
      else
        match normalizedAssistantHistoryMessage m with
        | None => collect_history rest conversation totalRunes
        | Some n =>
            let total := (totalRunes + count_runes (content n))%Z in
            if (ASSISTANT_CONVERSATION_MAX_RUNES <? total)%Z then conversation
            else collect_history rest (n :: conversation) total
        end
  end.

Fixpoint drop_assistant (l : list AssistantChatMessage) : list AssistantChatMessage :=
  match l with
  | m :: l' => match role m with AssistantRole => drop_assistant l' | UserRole => l end
  | [] => []
  end.

Definition buildAssistantConversation (history : list AssistantChatMessage) (currentMessage : list N) : res (list AssistantChatMessage) :=
  let current := trim currentMessage in
  if negb (nonempty current) || (ASSISTANT_MESSAGE_MAX_RUNES <? count_runes current)%Z
  then throw "Assistant message must be between 1 and 4000 characters"
  else Ok (drop_assistant (collect_history (reverse history) [mkChat UserRole current] (count_runes current))).

Definition role_text (r : ChatRole) : list N := match r with UserRole => js "user" | AssistantRole => js "assistant" end.

Definition chat_json (m : AssistantChatMessage) : json := JObj [(js "role", JStr (role_text (role m))); (js "content", JStr (content m))].

Definition buildAssistantRequestBody (normalizedMessage : list N) (messages : list AssistantChatMessage) (conversation_id : option spec_float)
    (presetId : option (list N)) : json :=
  obj [("message", str normalizedMessage); ("messages", Some (JArr (map chat_json messages)));
       ("conversation_id", match conversation_id with Some n => if num_ltb num_zero n then num_of n else None | None => None end);
       ("preset_id", match presetId with Some ((_ :: _) as s) => str s | _ => None end)]%string.

(** ** Attempts *)

(** What an attempt fails with. *)
Inductive RequestError :=
| Cancelled                                                  (* of the HTTP client *)
| AbortError                                                 (* of the signal *)
| AxiosError (status : option spec_float) (flag : option json)
| StreamError (e : AssistantStreamError)
| NativeTypeError                                            (* a failed fetch, or a property of null *)
| OtherError (message : list N).

Definition isAssistantRequestAborted (e : RequestError) : bool := match e with Cancelled | AbortError => true | _ => false end.

Definition isRetryableAssistantError (e : RequestError) : bool :=
  if isAssistantRequestAborted e then false
  else
    match e with
    | AxiosError status flag =>
        match flag with
        | Some (JBool b) => b
        | _ => match status with None => true | Some st => isRetryableAssistantStatus st end
        end
    | StreamError e => retryable e
    | NativeTypeError => true
    | _ => false
    end.

(** An answer of the backend to a streaming request; [streamed] is what reading the stream gives. *)
Record Response := mkResponse {
  ok : bool;
  status : spec_float;
  contentType : list N;
  intentHeader : option (list N);
  bodyText : list N;
  streamed : option (json + StreamFailure) }.

Definition readAssistantFetchPayload (text : list N) : json :=
  if nonempty (trim text) then
    match json_parse text with Some v => v | None => JObj [(js "message", JStr (trim text))] end
  else JObj [].

Definition native {A} (r : res A) : A + RequestError :=
  match r with Ok a => inl a | Throw TypeError => inr NativeTypeError | Throw (Error m) => inr (OtherError m) | Throw Fuel => inr (OtherError []) end.

Definition header_json (h : option (list N)) : option json := JStr <$> h.

Definition http_failure (r : Response) : RequestError :=
  let payload := readAssistantFetchPayload (bodyText r) in
  match payload with
  | JNull => (* [payload?.error] is undefined *)
      StreamError (newStreamError (status r) payload (js "Assistant request failed with HTTP " ++ json_to_string (JNum (status r))) None)
  | _ =>
      let message := message_or (prop_of "message" (get "error" payload))
                       (message_or (get "message" payload) (js "Assistant request failed with HTTP " ++ json_to_string (JNum (status r)))) in
      StreamError (newStreamError (status r) payload message
        (match get "retryable" payload with Some j => Some (json_truthy j) | None => None end))
  end.

(** [sendAssistantMessageStream] once the response arrived; [aborted] is the signal after the
    body was read. *)
Definition stream_response (r : Response) (aborted : bool) : AssistantReply + RequestError :=
  if negb (ok r) then inr (http_failure r)
  else if negb (includes (js "text/event-stream") (map lower_ascii (contentType r))) then
    if aborted then inr AbortError else native (buildAssistantReply (readAssistantFetchPayload (bodyText r)) (header_json (intentHeader r)))
  else
    match streamed r with
    | None => inr (StreamError (plain_error "Assistant stream body is unavailable" (js "Assistant stream body is unavailable")))
    | Some (inr SAbort) => inr AbortError
    | Some (inr (SError e)) => inr (StreamError e)
    | Some (inl payload) => if aborted then inr AbortError else native (buildAssistantReply payload (header_json (intentHeader r)))
    end.

Definition ASSISTANT_MAX_REQUEST_ATTEMPTS : nat := 5.
Definition ASSISTANT_RETRY_DELAYS_MS : list Z := [200; 500; 1000; 1500]%Z.

(** What happens around one attempt: the signal when it starts, what is received (with or
    without streaming), the signal once it ended, and whether the wait is cancelled. *)
Record AttemptEnv := mkEnv {
  aborted_start : bool;
  stream_answer : Response + RequestError;
  post_answer : (json * option json) + RequestError;
  aborted_end : bool;
  aborted_waiting : bool }.

(** An attempt sends its request unless getting its headers already fails, which [stream_answer]
    then records. *)
Inductive ChatEffect := Reset | Attempt (attempt : nat) | Waited (ms : Z).

Definition attempt_result (streaming : bool) (e : AttemptEnv) : AssistantReply + RequestError :=
  if streaming then
    match stream_answer e with inl r => stream_response r (aborted_end e) | inr err => inr err end
  else
    match post_answer e with
    | inl (payload, intent) => if aborted_end e then inr AbortError else native (buildAssistantReply payload intent)
    | inr err => inr err
    end.

Fixpoint send_attempts (streaming : bool) (remaining attempt : nat) (env : nat -> AttemptEnv) : list ChatEffect * (AssistantReply + RequestError) :=
  match remaining with
  | O => ([], inr (OtherError (js "Assistant request did not complete")))
  | S more =>
      let e := env attempt in
      if aborted_start e then ([], inr AbortError)
      else
        let effects := (if 1 <? attempt then [Reset] else []) ++ [Attempt attempt] in
        match attempt_result streaming e with
        | inl reply => (effects, inl reply)
        | inr error =>
            if aborted_end e then (effects, inr AbortError)
            else if negb (isRetryableAssistantError error) || (ASSISTANT_MAX_REQUEST_ATTEMPTS <=? attempt) then (effects, inr error)
            else if aborted_waiting e then (effects, inr AbortError)
            else
              let '(rest, result) := send_attempts streaming more (S attempt) env in
              (effects ++ Waited (nth (attempt - 1) ASSISTANT_RETRY_DELAYS_MS 1500%Z) :: rest, result)
        end
  end.

(** The body that is sent with every attempt, and the attempts. *)
Definition sendAssistantMessage (message : list N) (history : list AssistantChatMessage) (conversation_id : option spec_float)
    (presetId : option (list N)) (streaming : bool) (env : nat -> AttemptEnv)
    : res (json * (list ChatEffect * (AssistantReply + RequestError))) :=
  let normalizedMessage := trim (safe_content (redactAssistantMessageForRequest message)) in
  let* messages := buildAssistantConversation history normalizedMessage in
  Ok (buildAssistantRequestBody normalizedMessage messages conversation_id presetId,
      send_attempts streaming ASSISTANT_MAX_REQUEST_ATTEMPTS 1 env).

(** ** The attempts end *)

(** The attempts that are made: the first ones, each but the last failed for a while. *)
Definition retried (streaming : bool) (env : nat -> AttemptEnv) (k : nat) : Prop :=
  aborted_start (env k) = false /\ aborted_end (env k) = false /\ aborted_waiting (env k) = false /\
  exists err, attempt_result streaming (env k) = inr err /\ isRetryableAssistantError err = true.

Definition attempted (e : ChatEffect) : option nat := match e with Attempt k => Some k | _ => None end.
Definition waited (e : ChatEffect) : option Z := match e with Waited ms => Some ms | _ => None end.

(** How the last attempt decides the outcome. *)
Definition decided (streaming : bool) (e : AttemptEnv) (last_one : bool) (result : AssistantReply + RequestError) : Prop :=
  aborted_start e = false /\
  match attempt_result streaming e with
  | inl reply => result = inl reply
  | inr err => if aborted_end e then result = inr AbortError
               else if negb (isRetryableAssistantError err) || last_one then result = inr err
               else aborted_waiting e = true /\ result = inr AbortError
  end.

Lemma attempts_run streaming n a env effects result :
  0 < a -> a + n = S ASSISTANT_MAX_REQUEST_ATTEMPTS -> 0 < n -> send_attempts streaming n a env = (effects, result) ->
  exists k, k <= n /\ omap attempted effects = seq a k /\
    (forall j, a <= j < a + k - 1 -> retried streaming env j) /\
    ((exists j, j = a + k /\ aborted_start (env j) = true /\ result = inr AbortError /\ k < n /\ (0 < k -> retried streaming env (a + k - 1)) /\
        omap waited effects = map (fun j => nth (j - 1) ASSISTANT_RETRY_DELAYS_MS 1500%Z) (seq a k)) \/
     (0 < k /\ decided streaming (env (a + k - 1)) (ASSISTANT_MAX_REQUEST_ATTEMPTS <=? a + k - 1) result /\
        omap waited effects = map (fun j => nth (j - 1) ASSISTANT_RETRY_DELAYS_MS 1500%Z) (seq a (k - 1)))).
Proof.
  revert a effects result. induction n as [|n IH]; intros a effects result Ha Hn Hpos; [lia|]. cbn [send_attempts].
  destruct (aborted_start (env a)) eqn:Es.
  { intros [= <- <-]. exists 0. split; [lia|]. split; [done|]. split; [lia|]. left. exists a. split_and!; try done; lia. }
  set (effs := (if 1 <? a then [Reset] else []) ++ [Attempt a]). cbv zeta.
  assert (omap attempted effs = [a] /\ omap waited effs = []) as [Hs1 Hw1] by (unfold effs; by destruct (1 <? a)).
  assert (forall r, decided streaming (env a) (ASSISTANT_MAX_REQUEST_ATTEMPTS <=? a) r -> (effs, r) = (effects, result) ->
    exists k, k <= S n /\ omap attempted effects = seq a k /\ (forall j, a <= j < a + k - 1 -> retried streaming env j) /\
    ((exists j, j = a + k /\ aborted_start (env j) = true /\ result = inr AbortError /\ k < S n /\ (0 < k -> retried streaming env (a + k - 1)) /\
        omap waited effects = map (fun j => nth (j - 1) ASSISTANT_RETRY_DELAYS_MS 1500%Z) (seq a k)) \/
     (0 < k /\ decided streaming (env (a + k - 1)) (ASSISTANT_MAX_REQUEST_ATTEMPTS <=? a + k - 1) result /\
        omap waited effects = map (fun j => nth (j - 1) ASSISTANT_RETRY_DELAYS_MS 1500%Z) (seq a (k - 1))))) as Hlast.
  { intros r Hd [= <- <-]. exists 1. split; [lia|]. split; [done|]. split; [lia|]. right. split; [lia|].
    replace (a + 1 - 1) with a by lia. by split. }
  destruct (attempt_result streaming (env a)) as [reply|err] eqn:Er.
  { apply Hlast. split; [done|]. by rewrite Er. }
  destruct (aborted_end (env a)) eqn:Ee. { apply Hlast. split; [done|]. by rewrite Er, Ee. }
  destruct (negb (isRetryableAssistantError err) || _) eqn:Eb. { apply Hlast. split; [done|]. by rewrite Er, Ee, Eb. }
  destruct (aborted_waiting (env a)) eqn:Ew. { apply Hlast. split; [done|]. by rewrite Er, Ee, Eb. }
  apply orb_false_iff in Eb as [Eb1 Eb2]. apply negb_false_iff in Eb1. apply Nat.leb_gt in Eb2.
  destruct (send_attempts streaming n (S a) env) as [rest r] eqn:E. intros [= <- <-].
  assert (retried streaming env a) as Hra by (split_and!; eauto).
  destruct (IH (S a) rest r) as (k & Hk & Hse & Hre & Hend); [lia|unfold ASSISTANT_MAX_REQUEST_ATTEMPTS in *; lia|unfold ASSISTANT_MAX_REQUEST_ATTEMPTS in *; lia|done|].
  exists (S k). split; [lia|].
  assert (forall {B} (f : ChatEffect -> option B) l x y, omap f (l ++ x :: y) = omap f l ++ match f x with Some b => b :: omap f y | None => omap f y end) as Ho
    by (intros B f l x y; rewrite omap_app; done).
  split; [rewrite Ho, Hs1; cbn [attempted app seq]; by rewrite Hse|]. split.
  - intros j Hj. destruct (decide (j = a)) as [->|]; [done|]. apply Hre. lia.
  - rewrite Ho, Hw1. cbn [waited app]. destruct Hend as [(j & -> & H1 & H2 & H3 & H4 & H5)|(H1 & H2 & H3)].
    + left. exists (S a + k). split_and!; [lia|done|done|lia| |by rewrite H5].
      intros _. destruct k as [|k]; [by replace (a + 1 - 1) with a by lia|]. replace (a + S (S k) - 1) with (S a + S k - 1) by lia. apply H4. lia.
    + right. split; [lia|]. replace (a + S k - 1) with (S a + k - 1) by lia. split; [done|]. replace (S k - 1) with (S (k - 1)) by lia.
      cbn [seq map]. by rewrite H3.
Qed.

(** A message is sent at most five times, attempt after attempt with the delays of the list,
    each but the last having failed for a while; the outcome is that of the last attempt, or
    the cancellation, and never that the request did not complete. *)
Theorem assistant_message_settles streaming (env : nat -> AttemptEnv) :
  let effects := (send_attempts streaming ASSISTANT_MAX_REQUEST_ATTEMPTS 1 env).1 in
  let result := (send_attempts streaming ASSISTANT_MAX_REQUEST_ATTEMPTS 1 env).2 in
  exists k, k <= ASSISTANT_MAX_REQUEST_ATTEMPTS /\ omap attempted effects = seq 1 k /\
    (forall j, 1 <= j < k -> retried streaming env j) /\
    (aborted_start (env (S k)) = true /\ result = inr AbortError /\ k < ASSISTANT_MAX_REQUEST_ATTEMPTS /\ (0 < k -> retried streaming env k) /\
       omap waited effects = take k ASSISTANT_RETRY_DELAYS_MS \/
     0 < k /\ decided streaming (env k) (k =? ASSISTANT_MAX_REQUEST_ATTEMPTS) result /\
       omap waited effects = take (k - 1) ASSISTANT_RETRY_DELAYS_MS).
Proof.
  cbv zeta. destruct (send_attempts streaming ASSISTANT_MAX_REQUEST_ATTEMPTS 1 env) as [effects result] eqn:E. cbn [fst snd].
  apply attempts_run in E as (k & Hk & Hs & Hr & Hend); [|unfold ASSISTANT_MAX_REQUEST_ATTEMPTS; lia..].
  unfold ASSISTANT_MAX_REQUEST_ATTEMPTS in *. exists k. split; [done|]. split; [done|]. split; [intros j Hj; apply Hr; lia|].
  assert (forall m, m <= 4 -> map (fun j => nth (j - 1) ASSISTANT_RETRY_DELAYS_MS 1500%Z) (seq 1 m) = take m ASSISTANT_RETRY_DELAYS_MS) as Hd
    by (intros [|[|[|[|[|m]]]]] Hm; try done; lia).
  destruct Hend as [(j & -> & H1 & H2 & H3 & H4 & H5)|(H1 & H2 & H3)].
  - left. split_and!; [done|done|lia|replace (1 + k - 1) with k in H4 by lia; done|]. rewrite H5. apply Hd. lia.
  - right. split; [done|]. replace (1 + k - 1) with k in H2 by lia. split; [|rewrite H3; apply Hd; lia].
    destruct (Nat.eqb_spec k 5) as [->|]; [done|]. replace (5 <=? k) with false in H2; [done|]. symmetry. apply Nat.leb_gt. lia.
Qed.

(** A completed answer whose content is not a text is taken for a failed fetch, and asked for again. *)
Example malformed_answer_asked_again :
  let payload := obj [("choices", Some (JArr [obj [("message", Some (obj [("content", num_of num_zero)]))]]))]%string in
  let env _ := mkEnv false (inr Cancelled) (inl (payload, None)) false false in
  omap attempted (send_attempts false ASSISTANT_MAX_REQUEST_ATTEMPTS 1 env).1 = [1; 2; 3; 4; 5].
Proof. by vm_compute. Qed.

(** ** The conversation keeps its limits *)

Definition total_runes (l : list AssistantChatMessage) : Z := foldr (fun m n => count_runes (content m) + n)%Z 0%Z l.

Lemma total_runes_cons m l : total_runes (m :: l) = (count_runes (content m) + total_runes l)%Z.
Proof. done. Qed.

Lemma count_runes_nonneg s : (0 <= count_runes s)%Z.
Proof. unfold count_runes. lia. Qed.

Lemma total_runes_suffix l k : (total_runes k <= total_runes (l ++ k))%Z.
Proof.
  induction l as [|m l IH]; [done|]. cbn [app]. rewrite total_runes_cons. pose proof (count_runes_nonneg (content m)). lia.
Qed.

Lemma collect_history_spec nf conv total :
  total = total_runes conv -> (total <= ASSISTANT_CONVERSATION_MAX_RUNES)%Z -> length conv <= ASSISTANT_CONVERSATION_MAX_ITEMS ->
  exists j, collect_history nf conv total = reverse (take j (omap normalizedAssistantHistoryMessage nf)) ++ conv /\
    (total_runes (collect_history nf conv total) <= ASSISTANT_CONVERSATION_MAX_RUNES)%Z /\
    length (collect_history nf conv total) <= ASSISTANT_CONVERSATION_MAX_ITEMS.
Proof.
  revert conv total. induction nf as [|m nf IH]; intros conv total Ht Hr Hl; cbn [collect_history].
  { exists 0. split_and!; [done|by rewrite <- Ht|done]. }
  destruct (ASSISTANT_CONVERSATION_MAX_ITEMS <=? length conv) eqn:E. { exists 0. split_and!; [done|by rewrite <- Ht|done]. }
  apply Nat.leb_gt in E. cbn [omap list_omap]. destruct (normalizedAssistantHistoryMessage m) as [n|] eqn:En; [|by apply IH].
  cbv zeta. destruct (_ <? _)%Z eqn:Eb. { exists 0. split_and!; [done|by rewrite <- Ht|done]. }
  apply Z.ltb_ge in Eb. destruct (IH (n :: conv) (total + count_runes (content n))%Z) as (j & H1 & H2 & H3); [rewrite total_runes_cons; lia|done|simpl; lia|].
  exists (S j). split_and!; [|done|done]. rewrite H1. cbn [take]. by rewrite reverse_cons, <- app_assoc.
Qed.

Lemma drop_assistant_suffix l : drop_assistant l `suffix_of` l.
Proof. induction l as [|m l IH]; [done|]. cbn [drop_assistant]. destruct (role m); [done|]. by apply suffix_cons_r. Qed.

Lemma drop_assistant_head l m k : drop_assistant l = m :: k -> role m = UserRole.
Proof. induction l as [|x l IH]; [done|]. cbn [drop_assistant]. destruct (role x) eqn:E; [|done]. by intros [= <- _]. Qed.

Lemma drop_assistant_snoc l m : role m = UserRole -> exists l', drop_assistant (l ++ [m]) = l' ++ [m] /\ l' `suffix_of` l.
Proof.
  intros Hm. induction l as [|x l (l' & H1 & H2)]; cbn [app drop_assistant]; [rewrite Hm; by exists []|].
  destruct (role x); [by exists (x :: l)|]. exists l'. split; [done|]. by apply suffix_cons_r.
Qed.

Lemma omap_reverse {A B} (f : A -> option B) l : omap f (reverse l) = reverse (omap f l).
Proof.
  induction l as [|x l IH]; [done|]. rewrite reverse_cons, omap_app, IH. cbn [omap list_omap]. destruct (f x); [by rewrite reverse_cons|by rewrite app_nil_r].
Qed.

Lemma reverse_take_suffix {A} j (l : list A) : reverse (take j (reverse l)) `suffix_of` l.
Proof. exists (reverse (drop j (reverse l))). by rewrite <- reverse_app, take_drop, reverse_involutive. Qed.

Lemma runes_concat s : concat (runes s) = s.
Proof.
  remember (length s) as n eqn:En. assert (length s <= n) as Hn by lia. clear En. revert s Hn.
  induction n as [|n IH]; intros [|c s] Hn; try done; [simpl in Hn; lia|]. cbn [runes]. destruct s as [|d r]; [done|].
  destruct (_ && _); cbn [concat]; rewrite IH; try done; simpl in *; lia.
Qed.

Lemma runes_cons2 c d r :
  runes (c :: d :: r) = if is_high_surrogate c && is_low_surrogate d then [c; d] :: runes r else [c] :: runes (d :: r).
Proof. reflexivity. Qed.

(** Cutting between code points does not change them. *)
Lemma runes_take k s : runes (concat (take k (runes s))) = take k (runes s).
Proof.
  remember (length s) as n eqn:En. assert (length s <= n) as Hn by lia. clear En. revert s k Hn.
  induction n as [|n IH]; intros [|c s] k Hn; try (by destruct k); [simpl in Hn; lia|]. destruct k as [|k]; [done|].
  destruct s as [|d r]; [by destruct k|]. rewrite runes_cons2. destruct (is_high_surrogate c && is_low_surrogate d) eqn:E.
  - rewrite firstn_cons. cbn [concat app]. rewrite runes_cons2, E. f_equal. apply IH. simpl in *. lia.
  - rewrite firstn_cons. cbn [concat app]. specialize (IH (d :: r) k ltac:(simpl in *; lia)).
    assert (concat (take k (runes (d :: r))) `prefix_of` d :: r) as [y Hy].
    { exists (concat (drop k (runes (d :: r)))). rewrite <- concat_app, take_drop. symmetry. apply runes_concat. }
    revert IH Hy. generalize (take k (runes (d :: r))). intros t IH Hy. destruct (concat t) as [|d' x]; [by rewrite <- IH|].
    injection Hy as <- Hy. rewrite runes_cons2, E. by rewrite IH.
Qed.

Lemma normalized_runes m n : normalizedAssistantHistoryMessage m = Some n -> (count_runes (content n) <= ASSISTANT_MESSAGE_MAX_RUNES)%Z.
Proof.
  unfold normalizedAssistantHistoryMessage. cbv zeta. destruct (nonempty _); [|done]. intros [= <-]. cbn [content]. unfold count_runes.
  rewrite runes_take, length_take. unfold ASSISTANT_MESSAGE_MAX_RUNES. lia.
Qed.

(** The conversation that is sent ends with the message, begins with one of the user, and is
    otherwise the redacted end of the history: at most twelve messages of at most 4000 code
    points each and 12000 in all.  A message that is blank or too long is refused. *)
Theorem conversation_within_limits (history : list AssistantChatMessage) (message : list N) :
  match buildAssistantConversation history message with
  | Ok conversation =>
      exists prior, conversation = prior ++ [mkChat UserRole (trim message)] /\
        prior `suffix_of` omap normalizedAssistantHistoryMessage history /\
        length conversation <= ASSISTANT_CONVERSATION_MAX_ITEMS /\ (total_runes conversation <= ASSISTANT_CONVERSATION_MAX_RUNES)%Z /\
        Forall (fun m => count_runes (content m) <= ASSISTANT_MESSAGE_MAX_RUNES)%Z conversation /\
        (forall m rest, conversation = m :: rest -> role m = UserRole)
  | Throw _ => trim message = [] \/ (ASSISTANT_MESSAGE_MAX_RUNES < count_runes (trim message))%Z
  end.
Proof.
  unfold buildAssistantConversation. cbv zeta. destruct (negb (nonempty (trim message)) || _) eqn:E.
  { apply orb_true_iff in E as [E|E]; [left|right; by apply Z.ltb_lt]. by destruct (trim message). }
  apply orb_false_iff in E as [_ E]. apply Z.ltb_ge in E. set (current := mkChat UserRole (trim message)).
  assert (total_runes [current] = count_runes (trim message)) as Ht by (rewrite total_runes_cons; cbn; lia).
  destruct (collect_history_spec (reverse history) [current] (count_runes (trim message))) as (j & H1 & H2 & H3);
    [by rewrite Ht|unfold ASSISTANT_CONVERSATION_MAX_RUNES, ASSISTANT_MESSAGE_MAX_RUNES in *; lia|unfold ASSISTANT_CONVERSATION_MAX_ITEMS; simpl; lia|].
  set (all := collect_history _ _ _) in *. clearbody all. rewrite omap_reverse in H1.
  pose proof (reverse_take_suffix j (omap normalizedAssistantHistoryMessage history)) as Hsuf.
  destruct (drop_assistant_snoc (reverse (take j (reverse (omap normalizedAssistantHistoryMessage history)))) current eq_refl) as (prior & Hd & Hp).
  rewrite <- H1 in Hd. destruct (drop_assistant_suffix all) as [dropped Hall].
  exists prior. rewrite Hd in *. assert (prior `suffix_of` omap normalizedAssistantHistoryMessage history) as Hps by (by etrans).
  split_and!; [done|done| | | |].
  - rewrite Hall, length_app in H3. lia.
  - rewrite Hall in H2. pose proof (total_runes_suffix dropped (prior ++ [current])). lia.
  - apply Forall_app. split; [|by apply Forall_singleton]. rewrite Forall_forall. intros m Hm.
    assert (m ∈ omap normalizedAssistantHistoryMessage history) as Hin by (destruct Hps as [x ->]; apply elem_of_app; by right).
    apply list_elem_of_omap in Hin as (h & _ & Hh). by eapply normalized_runes.
  - intros m rest Hm. rewrite <- Hd in Hm. by apply drop_assistant_head in Hm.
Qed.
