(* ===== verification/JsExact.v ===== *)
(** * Exact integers among the doubles, rounding and fixed decimals

    Below [2^53] the doubles contain every integer, and adding two of them with a sum below
    that bound is exact.  Sums of counts are then sums of integers, in any order. *)
From S2P Require Import Prelude JsString JsNumber.
From Stdlib Require Import Lia ZArith SpecFloat.

Definition MAX_SAFE : Z := (2 ^ 53)%Z.

Lemma digits2_log2 p : Z.pos (digits2_pos p) = (Z.log2 (Z.pos p) + 1)%Z.
Proof.
  assert (digits2_pos p = Pos.size p) as ->.
  { induction p as [p IH|p IH|]; cbn [digits2_pos Pos.size]; [by rewrite IH..|done]. }
  destruct p; cbn [Z.log2 Pos.size]; lia.
Qed.

Lemma iter_shr_exact p m : SpecFloat.iter_pos shr_1 p (Build_shr_record (m * 2 ^ Z.pos p) false false) = Build_shr_record m false false.
Proof.
  assert (forall k, shr_1 (Build_shr_record (2 * k) false false) = Build_shr_record k false false) as H1.
  { intros [|k|k]; done. }
  revert m. induction p as [p IH|p IH|]; intros m; cbn [SpecFloat.iter_pos].
  - replace (m * 2 ^ Z.pos p~1)%Z with (2 * ((m * 2 ^ Z.pos p) * 2 ^ Z.pos p))%Z.
    + by rewrite H1, IH, IH.
    + replace (Z.pos p~1) with (1 + (Z.pos p + Z.pos p))%Z by lia. rewrite !Z.pow_add_r by lia. lia.
  - replace (m * 2 ^ Z.pos p~0)%Z with ((m * 2 ^ Z.pos p) * 2 ^ Z.pos p)%Z by (rewrite <- Z.mul_assoc, <- Z.pow_add_r by lia; f_equal; f_equal; lia).
    by rewrite IH, IH.
  - replace (m * 2 ^ 1)%Z with (2 * m)%Z by lia. apply H1.
Qed.

(** A shift that loses nothing. *)
Lemma shr_exact m e n : (0 <= n)%Z -> shr (Build_shr_record (m * 2 ^ n) false false) e n = (Build_shr_record m false false, (e + n)%Z).
Proof.
  intros Hn. destruct n as [|p|p]; [|by cbn [shr]; rewrite iter_shr_exact|lia]. cbn [shr]. rewrite Z.mul_1_r. f_equal. lia.
Qed.

Lemma shl_pos m p : Z.pos (Pos.iter xO m p) = (Z.pos m * 2 ^ Z.pos p)%Z.
Proof.
  induction p as [|p IH] using Pos.peano_ind; [cbn; lia|]. rewrite Pos.iter_succ, Pos2Z.inj_succ, Z.pow_succ_r by lia.
  change (Z.pos (Pos.iter xO m p)~0) with (2 * Z.pos (Pos.iter xO m p))%Z. rewrite IH. lia.
Qed.

Lemma fexp_small d : (-1000 <= d)%Z -> fexp 53 1024 d = (d - 53)%Z.
Proof. unfold fexp, SpecFloat.emin. lia. Qed.

(** Mantissa and exponent of the double for an integer. *)
Lemma binary_round_exact v m e :
  (0 < v < MAX_SAFE)%Z -> (e <= 0)%Z -> Z.pos m = (v * 2 ^ (- e))%Z ->
  exists k, Z.pos k = (v * 2 ^ (52 - Z.log2 v))%Z /\ binary_round 53 1024 false m e = S754_finite false k (Z.log2 v - 52).
Proof.
  intros [Hv1 Hv2] He Hm. set (g := Z.log2 v).
  assert (0 <= g < 53)%Z as Hg by (split; [apply Z.log2_nonneg|apply Z.log2_lt_pow2; unfold MAX_SAFE in *; lia]).
  assert (forall n, (0 <= n)%Z -> Z.log2 (v * 2 ^ n) = (n + g)%Z) as Hlog by (intros n Hn; rewrite Z.log2_mul_pow2 by lia; subst g; lia).
  assert (0 < v * 2 ^ (52 - g))%Z as Hpos by (apply Z.mul_pos_pos; [lia|apply Z.pow_pos_nonneg; lia]).
  destruct (v * 2 ^ (52 - g))%Z as [|k|k] eqn:Ek; [lia| |lia]. exists k. split; [done|].
  assert (Zdigits2 (Z.pos k) = 53%Z) as Hdk.
  { cbn [Zdigits2]. rewrite digits2_log2, <- Ek, Hlog by lia. lia. }
  (* rounding twice what is already exact *)
  assert (forall mz ez, (ez <= g - 52)%Z -> mz = (Z.pos k * 2 ^ (g - 52 - ez))%Z -> Zdigits2 mz = (g + 1 - ez)%Z ->
    binary_round_aux 53 1024 false mz ez loc_Exact = S754_finite false k (g - 52)) as Haux.
  { intros mz ez Hez Hmz Hd. unfold binary_round_aux, shr_fexp. cbn [shr_record_of_loc]. rewrite Hd, fexp_small by lia.
    replace (g + 1 - ez + ez - 53 - ez)%Z with (g - 52 - ez)%Z by lia. rewrite Hmz, shr_exact by lia.
    cbn [shr_m loc_of_shr_record round_nearest_even shr_record_of_loc]. rewrite Hdk, fexp_small by lia.
    replace (53 + (ez + (g - 52 - ez)) - 53 - (ez + (g - 52 - ez)))%Z with 0%Z by lia. cbn [shr shr_m].
    replace (ez + (g - 52 - ez))%Z with (g - 52)%Z by lia. rewrite (proj2 (Z.leb_le _ _)) by lia. done. }
  assert (Z.pos (digits2_pos m) = g + 1 - e)%Z as Hdm by (rewrite digits2_log2, Hm, Hlog by lia; lia).
  unfold binary_round. rewrite Hdm, fexp_small by lia.
  replace (g + 1 - e + e - 53)%Z with (g - 52)%Z by lia. unfold shl_align.
  destruct (g - 52 - e)%Z as [|p|p] eqn:Ed.
  - apply Haux; [lia| |by cbn [Zdigits2]].
    rewrite Hm, <- Ek. replace (g - 52 - e)%Z with 0%Z by lia. rewrite Z.mul_1_r. f_equal. f_equal. lia.
  - apply Haux; [lia| |by cbn [Zdigits2]].
    rewrite Hm, <- Ek, <- Z.mul_assoc, <- Z.pow_add_r by lia. f_equal. f_equal. lia.
  - assert (Z.pos (Pos.iter xO m p) = Z.pos k) as Hsh.
    { rewrite shl_pos, Hm, <- Ek, <- Z.mul_assoc, <- Z.pow_add_r by lia. f_equal. f_equal. lia. }
    apply Haux; [lia| |].
    + rewrite Hsh. replace (g - 52 - (g - 52))%Z with 0%Z by lia. lia.
    + rewrite Hsh, Hdk. lia.
Qed.

Lemma num_of_Z_pos v : (0 < v < MAX_SAFE)%Z ->
  exists k, Z.pos k = (v * 2 ^ (52 - Z.log2 v))%Z /\ num_of_Z v = S754_finite false k (Z.log2 v - 52).
Proof.
  intros Hv. destruct v as [|p|p]; [lia| |lia]. unfold num_of_Z. cbn [binary_normalize].
  apply binary_round_exact; [done|lia|]. cbn. lia.
Qed.

(** Adding integers whose sum is below the bound is exact. *)
Lemma num_of_Z_add a b : (0 <= a)%Z -> (0 <= b)%Z -> (a + b < MAX_SAFE)%Z -> num_add (num_of_Z a) (num_of_Z b) = num_of_Z (a + b).
Proof.
  intros Ha Hb Hs.
  destruct (decide (b = 0%Z)) as [->|Hb0].
  { rewrite Z.add_0_r. destruct (decide (a = 0%Z)) as [->|Ha0]; [done|]. by destruct (num_of_Z_pos a) as (k & _ & ->); [lia|]. }
  destruct (decide (a = 0%Z)) as [->|Ha0]; [rewrite Z.add_0_l; by destruct (num_of_Z_pos b) as (k & _ & ->); [lia|]|].
  destruct (num_of_Z_pos a) as (ka & Hka & ->); [lia|]. destruct (num_of_Z_pos b) as (kb & Hkb & ->); [lia|].
  assert (forall v, (0 < v < MAX_SAFE)%Z -> (0 <= Z.log2 v < 53)%Z) as Hl.
  { intros v Hv. split; [apply Z.log2_nonneg|]. apply Z.log2_lt_pow2; unfold MAX_SAFE in *; lia. }
  pose proof (Hl a ltac:(lia)) as Hla. pose proof (Hl b ltac:(lia)) as Hlb.
  unfold num_add, SFadd. set (ez := Z.min (Z.log2 a - 52) (Z.log2 b - 52)).
  assert (forall v k, (0 < v < MAX_SAFE)%Z -> Z.pos k = (v * 2 ^ (52 - Z.log2 v))%Z -> (ez <= Z.log2 v - 52)%Z ->
    Z.pos (fst (shl_align k (Z.log2 v - 52) ez)) = (v * 2 ^ (- ez))%Z) as Hsh.
  { intros v k Hv Hk Hez. unfold shl_align. destruct (ez - (Z.log2 v - 52))%Z as [|p|p] eqn:Ed; [| lia |]; cbn [fst].
    - rewrite Hk. f_equal. f_equal. lia.
    - rewrite shl_pos, Hk, <- Z.mul_assoc, <- Z.pow_add_r by (specialize (Hl v Hv); lia).
      f_equal. f_equal. lia. }
  cbn [cond_Zopp]. rewrite (Hsh a ka), (Hsh b kb) by (done || lia). rewrite <- Z.mul_add_distr_r.
  assert (0 < (a + b) * 2 ^ (- ez))%Z as Hpos by (apply Z.mul_pos_pos; [lia|apply Z.pow_pos_nonneg; lia]).
  destruct ((a + b) * 2 ^ (- ez))%Z as [|m|m] eqn:Em; [lia| |lia]. cbn [binary_normalize].
  destruct (binary_round_exact (a + b) m ez) as (k & Hk & ->); [lia|lia|done|].
  destruct (num_of_Z_pos (a + b)) as (k' & Hk' & ->); [lia|]. f_equal. lia.
Qed.

(** ** Counts *)

(** The integer a number stands for. *)
Definition count_of (x : spec_float) : Z :=
  match x with
  | S754_finite s m e => let '(a, b) := num_fraction m e in if s then (- (a / b))%Z else (a / b)%Z
  | _ => 0%Z
  end.

(** Natural numbers below the bound, as doubles. *)
Definition is_count (x : spec_float) : Prop := (0 <= count_of x)%Z /\ x = num_of_Z (count_of x).

Lemma count_of_num v : (0 <= v < MAX_SAFE)%Z -> count_of (num_of_Z v) = v.
Proof.
  intros Hv. destruct (decide (v = 0%Z)) as [->|]; [done|]. destruct (num_of_Z_pos v) as (k & Hk & ->); [lia|].
  pose proof (Z.log2_nonneg v). assert (Z.log2 v < 53)%Z by (apply Z.log2_lt_pow2; unfold MAX_SAFE in *; lia).
  unfold count_of, num_fraction. destruct (0 <=? Z.log2 v - 52)%Z eqn:E.
  - apply Z.leb_le in E. rewrite Z.div_1_r, Hk, <- Z.mul_assoc, <- Z.pow_add_r by lia. replace (52 - Z.log2 v + (Z.log2 v - 52))%Z with 0%Z by lia. lia.
  - rewrite Hk. replace (- (Z.log2 v - 52))%Z with (52 - Z.log2 v)%Z by lia. apply Z.div_mul. apply Z.pow_nonzero; lia.
Qed.

Lemma is_count_num v : (0 <= v < MAX_SAFE)%Z -> is_count (num_of_Z v).
Proof. intros Hv. split; rewrite count_of_num by done; [lia|done]. Qed.

Lemma is_count_zero : is_count num_zero.
Proof. by split. Qed.

Lemma is_count_add x y :
  is_count x -> is_count y -> (count_of x + count_of y < MAX_SAFE)%Z ->
  is_count (num_add x y) /\ count_of (num_add x y) = (count_of x + count_of y)%Z.
Proof.
  intros [Hx Ex] [Hy Ey] Hs. assert (num_add x y = num_of_Z (count_of x + count_of y)) as ->.
  { rewrite <- num_of_Z_add by done. by rewrite <- Ex, <- Ey. }
  split; [by apply is_count_num; lia|]. by apply count_of_num; lia.
Qed.

Definition sum_counts {A} (f : A -> spec_float) (l : list A) : Z := foldr (fun a n => count_of (f a) + n)%Z 0%Z l.

Lemma sum_counts_app {A} (f : A -> spec_float) l k : sum_counts f (l ++ k) = (sum_counts f l + sum_counts f k)%Z.
Proof. induction l as [|a l IH]; [done|]. cbn [app sum_counts foldr]. unfold sum_counts in *. rewrite IH. lia. Qed.

Lemma sum_counts_cons {A} (f : A -> spec_float) a l : sum_counts f (a :: l) = (count_of (f a) + sum_counts f l)%Z.
Proof. done. Qed.

Lemma sum_counts_nonneg {A} (f : A -> spec_float) l : Forall (fun a => is_count (f a)) l -> (0 <= sum_counts f l)%Z.
Proof. induction 1 as [|a l [Ha _] _ IH]; [done|]. rewrite sum_counts_cons. lia. Qed.

Lemma sum_counts_perm {A} (f : A -> spec_float) l k : l ≡ₚ k -> sum_counts f l = sum_counts f k.
Proof. induction 1; rewrite ?sum_counts_cons in *; lia. Qed.

Lemma sum_counts_map {A B} (f : B -> spec_float) (g : A -> B) l : sum_counts f (map g l) = sum_counts (fun a => f (g a)) l.
Proof. induction l as [|a l IH]; [done|]. cbn [map]. by rewrite !sum_counts_cons, IH. Qed.

(** The sum a loop computes. *)
Definition num_sum (l : list spec_float) : spec_float := fold_left num_add l num_zero.

Lemma num_sum_exact {A} (f : A -> spec_float) l :
  Forall (fun a => is_count (f a)) l -> (sum_counts f l < MAX_SAFE)%Z ->
  num_sum (map f l) = num_of_Z (sum_counts f l).
Proof.
  intros Hl Hs. unfold num_sum.
  assert (forall acc, is_count acc -> (count_of acc + sum_counts f l < MAX_SAFE)%Z ->
    fold_left num_add (map f l) acc = num_of_Z (count_of acc + sum_counts f l)) as Hgen.
  { clear Hs. induction Hl as [|a l Ha Hl IH]; intros acc Hacc Hs; cbn [map fold_left].
    - rewrite Z.add_0_r. apply Hacc.
    - rewrite sum_counts_cons in *. pose proof (sum_counts_nonneg f l Hl). destruct (is_count_add acc (f a)) as [H1 H2]; [done|done|lia|].
      rewrite IH by (done || lia). f_equal. lia. }
  rewrite Hgen; [done|apply is_count_zero|done].
Qed.

(** ** Rounding *)

(** [Number.prototype.toFixed]: the nearest decimal with so many digits, the larger one of two. *)
Definition num_to_fixed (digits : nat) (x : spec_float) : list N :=
  match x with
  | S754_finite s m e =>
      let '(a, b) := num_fraction m e in
      if (10 ^ 21 * b <=? a)%Z then num_to_string x
      else
        let scale := (10 ^ Z.of_nat digits)%Z in
        let n := ((2 * a * scale + b) / (2 * b))%Z in
        let frac := dec_string (Z.to_N (n mod scale)) in
        (if s then js "-" else []) ++ dec_string (Z.to_N (n / scale)) ++
        match digits with O => [] | _ => js "." ++ replicate (digits - length frac) 48%N ++ frac end
  | S754_zero _ => js "0" ++ match digits with O => [] | _ => js "." ++ replicate digits 48%N end
  | _ => num_to_string x
  end.

(** [Math.round]: halves go up; a zero keeps the sign. *)
Definition num_round (x : spec_float) : spec_float :=
  match x with
  | S754_finite s m e =>
      if (0 <=? e)%Z then x else num_of_int s ((2 * signed_mantissa s m + 2 ^ (- e)) / (2 * 2 ^ (- e)))%Z
  | _ => x
  end.
