(* ===== verification/JsRound.v ===== *)
(** * Rounding errors

    The product and the quotient of doubles are within one part in [2^53] of the exact
    result, when they are neither too large nor too small; and what that means for the
    product and the quotient of whole numbers, for [Math.round] and for [Math.ceil]. *)
From S2P Require Import Prelude JsNumber JsExact.
From Stdlib Require Import Lia ZArith.

(** ** A mantissa being shifted, with what has been shifted out *)

(** The record stands for the fraction [a / b]: its mantissa, and where the rest lies
    in the unit above it. *)
Definition stands_for (r : shr_record) (a b : Z) : Prop :=
  (0 <= shr_m r)%Z /\
  match shr_r r, shr_s r with
  | false, false => a = shr_m r * b
  | false, true => shr_m r * b < a /\ 2 * a < (2 * shr_m r + 1) * b
  | true, false => 2 * a = (2 * shr_m r + 1) * b
  | true, true => (2 * shr_m r + 1) * b < 2 * a /\ a < (shr_m r + 1) * b
  end%Z.

Lemma shr_1_stands r a b : (0 < b)%Z -> stands_for r a b -> stands_for (shr_1 r) a (2 * b).
Proof.
  destruct r as [m rr ss]. unfold stands_for. intros Hb [Hm H]. cbn [shr_m shr_r shr_s] in *.
  destruct m as [|[p|p|]|p]; [| | | |lia]; cbn [shr_1 shr_m shr_r shr_s]; destruct rr, ss; cbn [orb]; split; nia.
Qed.

Lemma shr_1_half r : shr_m (shr_1 r) = (shr_m r / 2)%Z \/ (shr_m r < 0)%Z.
Proof.
  destruct r as [m rr ss]. destruct m as [|[p|p|]|p]; [by left| | |by left|by right]; left; cbn [shr_1 shr_m].
  - rewrite Pos2Z.inj_xI. apply (Z.div_unique _ _ _ 1); lia.
  - rewrite Pos2Z.inj_xO. apply (Z.div_unique _ _ _ 0); lia.
Qed.

Lemma iter_shr_stands p : forall r a b, (0 < b)%Z -> stands_for r a b ->
  stands_for (SpecFloat.iter_pos shr_1 p r) a (2 ^ Z.pos p * b) /\
  shr_m (SpecFloat.iter_pos shr_1 p r) = (shr_m r / 2 ^ Z.pos p)%Z.
Proof.
  assert (forall n r a b, (0 < b)%Z -> stands_for r a b ->
    stands_for (Nat.iter n shr_1 r) a (2 ^ Z.of_nat n * b) /\ shr_m (Nat.iter n shr_1 r) = (shr_m r / 2 ^ Z.of_nat n)%Z) as Hn.
  { induction n as [|n IH]; intros r a b Hb Hr; [cbn; rewrite Z.div_1_r; by rewrite Z.mul_1_l|].
    destruct (IH r a b Hb Hr) as [H1 H2]. change (Nat.iter (S n) shr_1 r) with (shr_1 (Nat.iter n shr_1 r)). rewrite Nat2Z.inj_succ, Z.pow_succ_r by lia. split.
    - rewrite <- Z.mul_assoc. apply shr_1_stands; [apply Z.mul_pos_pos; [apply Z.pow_pos_nonneg; lia|done]|done].
    - destruct (shr_1_half (Nat.iter n shr_1 r)) as [->|Hneg]; [|destruct H1; lia].
      rewrite H2, Z.div_div by (try apply Z.pow_pos_nonneg; lia). f_equal. lia. }
  intros r a b Hb Hr. specialize (Hn (Pos.to_nat p) r a b Hb Hr). rewrite positive_nat_Z in Hn.
  assert (Nat.iter (Pos.to_nat p) shr_1 r = SpecFloat.iter_pos shr_1 p r) as <-; [|done].
  clear. revert r. induction p as [p IH|p IH|]; intros r; cbn [SpecFloat.iter_pos].
  - rewrite <- !IH, <- Nat.iter_add, <- Nat.iter_succ_r. f_equal. lia.
  - rewrite <- !IH, <- Nat.iter_add. f_equal. lia.
  - done.
Qed.

Lemma shr_stands r e n a b : (0 <= n)%Z -> (0 < b)%Z -> stands_for r a b ->
  exists r', shr r e n = (r', (e + n)%Z) /\ stands_for r' a (2 ^ n * b) /\ shr_m r' = (shr_m r / 2 ^ n)%Z.
Proof.
  intros Hn Hb Hr. destruct n as [|p|p]; [|by destruct (iter_shr_stands p r a b Hb Hr); eexists|lia].
  exists r. cbn [shr]. rewrite Z.add_0_r, Z.pow_0_r, Z.mul_1_l, Z.div_1_r. done.
Qed.

(** The nearest mantissa is at most half a unit away. *)
Lemma round_stands r a b : (0 < b)%Z -> stands_for r a b ->
  let m := round_nearest_even (shr_m r) (loc_of_shr_record r) in
  (2 * Z.abs (m * b - a) <= b)%Z /\ (m = shr_m r \/ m = (shr_m r + 1)%Z).
Proof.
  destruct r as [m rr ss]. unfold stands_for. intros Hb [Hm H]. cbn [shr_m shr_r shr_s] in *.
  destruct rr, ss; cbn [loc_of_shr_record round_nearest_even].
  - split; [nia|auto].
  - destruct (Z.even m); split; (nia || auto).
  - split; [nia|auto].
  - split; [nia|auto].
Qed.

(** ** Rounding a long mantissa *)

Lemma zdigits_log2 m : (0 < m)%Z -> Zdigits2 m = (Z.log2 m + 1)%Z.
Proof. intros H. destruct m as [|p|p]; [lia| |lia]. cbn [Zdigits2]. apply digits2_log2. Qed.

(** What [binary_round_aux] makes of the fraction [a / b] at exponent [e]: a mantissa of
    53 bits, [n] places up, at most half a unit of its last place away. *)
Lemma round_aux_spec m e l a b :
  (2 ^ 52 <= m)%Z -> (0 < b)%Z -> stands_for (shr_record_of_loc m l) a b ->
  (-1000 <= e)%Z -> (e + Z.log2 m <= 900)%Z ->
  exists k n, binary_round_aux 53 1024 false m e l = S754_finite false k (e + n) /\
    (2 ^ 52 <= Z.pos k < 2 ^ 53)%Z /\ (Z.log2 m - 52 <= n <= Z.log2 m - 51)%Z /\
    (2 * Z.abs (Z.pos k * 2 ^ n * b - a) <= 2 ^ (Z.log2 m - 52) * b)%Z /\
    (2 ^ 52 * (2 ^ (Z.log2 m - 52) * b) <= a)%Z.
Proof.
  intros Hm Hb Hs He He2.
  assert (52 <= Z.log2 m)%Z as Hlog by (rewrite <- (Z.log2_pow2 52) by lia; by apply Z.log2_le_mono).
  set (n0 := (Z.log2 m - 52)%Z). assert (0 <= n0)%Z as Hn0 by lia.
  assert (shr_m (shr_record_of_loc m l) = m) as Hmm by (by destruct l as [|[]]).
  destruct (shr_stands _ e n0 a b Hn0 Hb Hs) as (r & Er & Hr & Hrm). rewrite Hmm in Hrm.
  assert (2 ^ 52 <= shr_m r < 2 ^ 53)%Z as Hk.
  { rewrite Hrm. pose proof (Z.log2_spec m ltac:(lia)) as [Hl1 Hl2].
    assert (2 ^ Z.log2 m = 2 ^ 52 * 2 ^ n0)%Z as E1 by (rewrite <- Z.pow_add_r by lia; f_equal; lia).
    assert (2 ^ Z.succ (Z.log2 m) = 2 ^ 53 * 2 ^ n0)%Z as E2 by (rewrite <- Z.pow_add_r by lia; f_equal; lia).
    assert (0 < 2 ^ n0)%Z by (apply Z.pow_pos_nonneg; lia).
    split; [apply Z.div_le_lower_bound; lia|apply Z.div_lt_upper_bound; lia]. }
  assert (0 < 2 ^ n0 * b)%Z as HB by (apply Z.mul_pos_pos; [apply Z.pow_pos_nonneg; lia|done]).
  destruct (round_stands r a (2 ^ n0 * b) HB Hr) as [Herr Hc].
  remember (round_nearest_even (shr_m r) (loc_of_shr_record r)) as mm eqn:Emm.
  assert (2 ^ 52 * (2 ^ n0 * b) <= a)%Z as Hlow.
  { destruct Hr as [_ Hr]. destruct (shr_r r), (shr_s r); nia. }
  assert (binary_round_aux 53 1024 false m e l =
    let '(mrs'', e'') := shr_fexp 53 1024 mm (e + n0) loc_Exact in
    match shr_m mrs'' with
    | Z0 => S754_zero false
    | Zpos q => if (e'' <=? 1024 - 53)%Z then S754_finite false q e'' else S754_infinity false
    | Zneg _ => S754_nan
    end) as Eround.
  { unfold binary_round_aux, shr_fexp at 1. rewrite zdigits_log2, fexp_small by lia.
    replace (Z.log2 m + 1 + e - 53 - e)%Z with n0 by lia. by rewrite Er, Emm. }
  rewrite Eround. unfold shr_fexp. cbn [shr_record_of_loc].
  destruct (decide (mm = 2 ^ 53)%Z) as [E53|E53].
  - (* the mantissa reaches the next power of two *)
    rewrite E53. exists (2 ^ 52)%positive, (n0 + 1)%Z.
    change (Zdigits2 (2 ^ 53)) with 54%Z. rewrite fexp_small by lia. replace (54 + (e + n0) - 53 - (e + n0))%Z with 1%Z by lia.
    change (shr {| shr_m := 2 ^ 53; shr_r := false; shr_s := false |} (e + n0) 1) with
      ({| shr_m := 2 ^ 52; shr_r := false; shr_s := false |}, (e + n0 + 1)%Z).
    cbn [shr_m]. change (2 ^ 52)%Z with (Z.pos (2 ^ 52)). rewrite (proj2 (Z.leb_le _ _)) by lia.
    split; [by rewrite Z.add_assoc|]. change (Z.pos (2 ^ 52)) with (2 ^ 52)%Z. rewrite Z.pow_add_r by lia.
    rewrite E53 in Herr. split_and!; lia.
  - assert (2 ^ 52 <= mm < 2 ^ 53)%Z as Hmmr by lia. destruct mm as [|k|k] eqn:Ek; [lia| |lia].
    exists k, n0. rewrite zdigits_log2 by lia.
    assert (Z.log2 (Z.pos k) = 52%Z) as -> by (apply Z.log2_unique; lia). rewrite fexp_small by lia.
    replace (52 + 1 + (e + n0) - 53 - (e + n0))%Z with 0%Z by lia. cbn [shr shr_m].
    rewrite (proj2 (Z.leb_le _ _)) by lia. split_and!; done || lia.
Qed.

(** ** Products and quotients *)

(** A positive double that is not subnormal, with its exponent. *)
Definition normal (x : spec_float) (m : positive) (e : Z) : Prop :=
  x = S754_finite false m e /\ (2 ^ 52 <= Z.pos m < 2 ^ 53)%Z.

Lemma mul_spec x y mx ex my ey : normal x mx ex -> normal y my ey -> (-900 <= ex + ey <= 700)%Z ->
  exists k n, normal (num_mul x y) k (ex + ey + n) /\ (52 <= n <= 54)%Z /\
    (2 ^ 53 * Z.abs (Z.pos k * 2 ^ n - Z.pos mx * Z.pos my) <= Z.pos mx * Z.pos my)%Z /\
    (2 * Z.abs (Z.pos k * 2 ^ n - Z.pos mx * Z.pos my) <= 2 ^ n)%Z.
Proof.
  intros [-> Hx] [-> Hy] He. unfold num_mul. cbn [SFmul xorb].
  assert (2 ^ 104 <= Z.pos (mx * my) < 2 ^ 106)%Z as Hm by (rewrite Pos2Z.inj_mul; split; [apply (Z.mul_le_mono_nonneg (2 ^ 52) _ (2 ^ 52)); lia|apply (Z.mul_lt_mono_nonneg _ (2 ^ 53) _ (2 ^ 53)); lia]).
  assert (104 <= Z.log2 (Z.pos (mx * my)) < 106)%Z as Hl.
  { split; [rewrite <- (Z.log2_pow2 104) by lia; apply Z.log2_le_mono; lia|apply Z.log2_lt_pow2; lia]. }
  destruct (round_aux_spec (Z.pos (mx * my)) (ex + ey) loc_Exact (Z.pos (mx * my)) 1) as (k & n & E & Hk & Hn & Herr & Hlow);
    [lia|lia|split; [cbn; lia|cbn; lia]|lia|lia|].
  exists k, n. split; [by split|]. split; [lia|]. rewrite !Z.mul_1_r, Pos2Z.inj_mul in *.
  assert (2 ^ (Z.log2 (Z.pos mx * Z.pos my) - 52) <= 2 ^ n)%Z by (apply Z.pow_le_mono_r; lia). lia.
Qed.

Lemma new_location_stands q r m2 : (0 <= q)%Z -> (0 < m2)%Z -> (0 <= r < m2)%Z ->
  stands_for (shr_record_of_loc q (new_location m2 r)) (q * m2 + r) m2.
Proof.
  intros Hq Hm Hr. unfold new_location, new_location_even, new_location_odd. pose proof (Zeven_mod m2) as Hev.
  assert (Z.even m2 = true -> exists h, m2 = 2 * h)%Z as He by (intros E; apply Z.even_spec in E as [h ->]; by exists h).
  assert (Z.even m2 = false -> exists h, m2 = 2 * h + 1)%Z as Ho.
  { intros E. assert (Z.odd m2 = true) as O by (by rewrite <- Z.negb_even, E). apply Z.odd_spec in O as [h ->]. by exists h. }
  destruct (Z.even m2) eqn:Ev; destruct (Z.eqb_spec r 0) as [->|Hr0]; [split; cbn; lia| |split; cbn; lia|].
  - destruct (Z.compare_spec (2 * r) m2); split; cbn; nia.
  - destruct (Ho eq_refl) as [h Hh]. destruct (Z.compare_spec (2 * r + 1) m2); split; cbn; nia.
Qed.

Lemma div_spec x y mx ex my ey : normal x mx ex -> normal y my ey -> (-900 <= ex - ey <= 700)%Z ->
  exists k n, normal (num_div x y) k (ex - ey - 53 + n) /\ (0 <= n <= 2)%Z /\
    (2 ^ 53 * Z.abs (Z.pos k * 2 ^ n * Z.pos my - Z.pos mx * 2 ^ 53) <= Z.pos mx * 2 ^ 53)%Z /\
    (2 * Z.abs (Z.pos k * 2 ^ n * Z.pos my - Z.pos mx * 2 ^ 53) <= 2 ^ n * Z.pos my)%Z.
Proof.
  intros [-> Hx] [-> Hy] He. unfold num_div. cbn [SFdiv xorb]. unfold SFdiv_core_binary.
  rewrite !zdigits_log2 by lia.
  assert (Z.log2 (Z.pos mx) = 52%Z) as -> by (apply Z.log2_unique; lia).
  assert (Z.log2 (Z.pos my) = 52%Z) as -> by (apply Z.log2_unique; lia).
  replace (52 + 1 + ex - (52 + 1 + ey))%Z with (ex - ey)%Z by lia. rewrite fexp_small by lia.
  rewrite Z.min_l by lia. replace (ex - ey - (ex - ey - 53))%Z with 53%Z by lia. rewrite Z.shiftl_mul_pow2 by lia.
  destruct (Z.div_eucl (Z.pos mx * 2 ^ 53) (Z.pos my)) as [q r] eqn:Eq.
  pose proof (Z_div_mod (Z.pos mx * 2 ^ 53) (Z.pos my) ltac:(lia)) as Hd. rewrite Eq in Hd. destruct Hd as [Hd Hr].
  assert (2 ^ 52 <= q < 2 ^ 54)%Z as Hq by nia.
  assert (52 <= Z.log2 q < 54)%Z as Hl.
  { split; [rewrite <- (Z.log2_pow2 52) by lia; apply Z.log2_le_mono; lia|apply Z.log2_lt_pow2; lia]. }
  destruct (round_aux_spec q (ex - ey - 53) (new_location (Z.pos my) r) (q * Z.pos my + r) (Z.pos my)) as (k & n & E & Hk & Hn & Herr & Hlow);
    [lia|lia|apply new_location_stands; lia|lia|lia|].
  exists k, n. split; [by split|]. split; [lia|].
  replace (Z.pos mx * 2 ^ 53)%Z with (q * Z.pos my + r)%Z by lia.
  assert (0 < 2 ^ (Z.log2 q - 52))%Z by (apply Z.pow_pos_nonneg; lia).
  split; [lia|]. assert (2 ^ (Z.log2 q - 52) <= 2 ^ n)%Z by (apply Z.pow_le_mono_r; lia). nia.
Qed.

(** ** Whole numbers *)

Lemma num_of_Z_normal v : (0 < v < MAX_SAFE)%Z ->
  exists k, normal (num_of_Z v) k (Z.log2 v - 52) /\ Z.pos k = (v * 2 ^ (52 - Z.log2 v))%Z.
Proof.
  intros Hv. destruct (num_of_Z_pos v Hv) as (k & Hk & E). exists k. split; [|done]. split; [done|].
  pose proof (Z.log2_spec v ltac:(lia)) as [H1 H2]. pose proof (Z.log2_nonneg v).
  assert (Z.log2 v < 53)%Z by (apply Z.log2_lt_pow2; unfold MAX_SAFE in *; lia).
  assert (2 ^ Z.log2 v * 2 ^ (52 - Z.log2 v) = 2 ^ 52)%Z as E1 by (rewrite <- Z.pow_add_r by lia; f_equal; lia).
  assert (2 ^ Z.succ (Z.log2 v) * 2 ^ (52 - Z.log2 v) = 2 ^ 53)%Z as E2 by (rewrite <- Z.pow_add_r by lia; f_equal; lia).
  assert (0 < 2 ^ (52 - Z.log2 v))%Z by (apply Z.pow_pos_nonneg; lia). rewrite Hk. nia.
Qed.

(** A double that is a whole number of moderate size. *)
Lemma whole_normal z k E v : normal z k E -> (0 < v < MAX_SAFE)%Z -> (E <= 0)%Z -> Z.pos k = (v * 2 ^ (- E))%Z -> z = num_of_Z v.
Proof.
  intros [-> Hk] Hv HE Ek. destruct (num_of_Z_normal v Hv) as (k' & [-> Hk'] & Ek').
  assert (- E = 52 - Z.log2 v)%Z as HEq.
  { assert (Z.log2 (Z.pos k) = 52%Z) as Hl by (apply Z.log2_unique; lia). rewrite Ek, Z.log2_mul_pow2 in Hl by lia. lia. }
  f_equal; [|lia]. rewrite HEq in Ek. lia.
Qed.

(** The double nearest to the fraction [a / b] at exponent [e], [b] dividing it into [v]. *)
Lemma nearest_whole z k e n a b v :
  normal z k (e + n) -> (0 < v < 2 ^ 52)%Z -> (0 <= n)%Z -> (0 < b)%Z -> (e <= 0)%Z ->
  a = (v * 2 ^ (- e) * b)%Z -> (2 * Z.abs (Z.pos k * 2 ^ n * b - a) <= 2 ^ n * b)%Z -> z = num_of_Z v.
Proof.
  intros Hz Hv Hn Hb He Ha Herr. pose proof Hz as [_ Hk]. assert (0 < 2 ^ n)%Z as Hn2 by (apply Z.pow_pos_nonneg; lia).
  assert (0 < 2 ^ (- e))%Z as He2 by (apply Z.pow_pos_nonneg; lia).
  assert (2 * Z.abs (Z.pos k * 2 ^ n - v * 2 ^ (- e)) <= 2 ^ n)%Z as Herr2.
  { subst a. replace (Z.pos k * 2 ^ n * b - v * 2 ^ (- e) * b)%Z with ((Z.pos k * 2 ^ n - v * 2 ^ (- e)) * b)%Z in Herr by ring.
    rewrite Z.abs_mul, (Z.abs_eq b) in Herr by lia. nia. }
  assert (e + n <= 0)%Z as Hen.
  { destruct (Z.le_gt_cases (e + n) 0) as [H|H]; [done|].
    assert (2 * 2 ^ (- e) <= 2 ^ n)%Z by (rewrite <- Z.pow_succ_r by lia; apply Z.pow_le_mono_r; lia). nia. }
  apply (whole_normal z k (e + n)); [done|unfold MAX_SAFE; lia|done|].
  assert (2 ^ (- e) = 2 ^ (- (e + n)) * 2 ^ n)%Z as E1 by (rewrite <- Z.pow_add_r by lia; f_equal; lia).
  rewrite E1 in Herr2. replace (Z.pos k * 2 ^ n - v * (2 ^ (- (e + n)) * 2 ^ n))%Z with ((Z.pos k - v * 2 ^ (- (e + n))) * 2 ^ n)%Z in Herr2 by ring.
  rewrite Z.abs_mul, (Z.abs_eq (2 ^ n)) in Herr2 by lia. nia.
Qed.

Lemma num_of_Z_mul a b : (0 <= a)%Z -> (0 <= b)%Z -> (a * b < 2 ^ 52)%Z -> (a < MAX_SAFE)%Z -> (b < MAX_SAFE)%Z ->
  num_mul (num_of_Z a) (num_of_Z b) = num_of_Z (a * b).
Proof.
  intros Ha Hb Hab Ham Hbm. destruct (decide (a = 0%Z)) as [->|Ha0].
  { rewrite Z.mul_0_l. destruct (decide (b = 0%Z)) as [->|]; [done|]. by destruct (num_of_Z_normal b) as (k & [-> _] & _); [lia|]. }
  destruct (decide (b = 0%Z)) as [->|Hb0].
  { rewrite Z.mul_0_r. by destruct (num_of_Z_normal a) as (k & [-> _] & _); [lia|]. }
  destruct (num_of_Z_normal a) as (ka & Na & Ka); [lia|]. destruct (num_of_Z_normal b) as (kb & Nb & Kb); [lia|].
  assert (forall v, (0 < v < MAX_SAFE)%Z -> (0 <= Z.log2 v < 53)%Z) as Hl.
  { intros v Hv. split; [apply Z.log2_nonneg|]. apply Z.log2_lt_pow2; unfold MAX_SAFE in *; lia. }
  pose proof (Hl a ltac:(lia)) as Hla. pose proof (Hl b ltac:(lia)) as Hlb.
  destruct (mul_spec _ _ _ _ _ _ Na Nb ltac:(lia)) as (k & n & Hz & Hn & _ & Herr).
  eapply (nearest_whole _ k _ n (Z.pos ka * Z.pos kb) 1); [exact Hz|nia|lia|lia|lia| |].
  - rewrite Ka, Kb, Z.mul_1_r. replace (- (Z.log2 a - 52 + (Z.log2 b - 52)))%Z with ((52 - Z.log2 a) + (52 - Z.log2 b))%Z by lia.
    rewrite Z.pow_add_r by lia. ring.
  - rewrite !Z.mul_1_r. exact Herr.
Qed.

(** A quotient that is whole. *)
Lemma num_of_Z_div a b : (0 < a < 2 ^ 52)%Z -> (0 < b)%Z -> (a * b < MAX_SAFE)%Z -> num_div (num_of_Z (a * b)) (num_of_Z b) = num_of_Z a.
Proof.
  intros Ha Hb Hab. destruct (num_of_Z_normal (a * b)) as (kc & Nc & Kc); [nia|]. destruct (num_of_Z_normal b) as (kb & Nb & Kb); [nia|].
  assert (forall v, (0 < v < MAX_SAFE)%Z -> (0 <= Z.log2 v < 53)%Z) as Hl.
  { intros v Hv. split; [apply Z.log2_nonneg|]. apply Z.log2_lt_pow2; unfold MAX_SAFE in *; lia. }
  pose proof (Hl (a * b)%Z ltac:(nia)) as Hlc. pose proof (Hl b ltac:(nia)) as Hlb.
  assert (Z.log2 b <= Z.log2 (a * b))%Z as Hle by (apply Z.log2_le_mono; nia).
  destruct (div_spec _ _ _ _ _ _ Nc Nb ltac:(lia)) as (k & n & Hz & Hn & _ & Herr).
  eapply (nearest_whole _ k _ n (Z.pos kc * 2 ^ 53) (Z.pos kb)); [exact Hz|done|lia|lia|lia| |exact Herr].
  rewrite Kc, Kb. replace (- (Z.log2 (a * b) - 52 - (Z.log2 b - 52) - 53))%Z with (Z.log2 b + 53 - Z.log2 (a * b))%Z by lia.
  assert (2 ^ (52 - Z.log2 (a * b)) * 2 ^ 53 = 2 ^ (Z.log2 b + 53 - Z.log2 (a * b)) * 2 ^ (52 - Z.log2 b))%Z as E
    by (rewrite <- !Z.pow_add_r by lia; f_equal; lia).
  replace (a * b * 2 ^ (52 - Z.log2 (a * b)) * 2 ^ 53)%Z with (a * b * (2 ^ (52 - Z.log2 (a * b)) * 2 ^ 53))%Z by ring.
  rewrite E. ring.
Qed.

Lemma num_of_Z_sub a b : (0 <= b <= a)%Z -> (a < MAX_SAFE)%Z -> num_sub (num_of_Z a) (num_of_Z b) = num_of_Z (a - b).
Proof.
  intros Hba Ha. destruct (decide (b = 0%Z)) as [->|Hb0].
  { rewrite Z.sub_0_r. destruct (decide (a = 0%Z)) as [->|]; [done|]. by destruct (num_of_Z_normal a) as (k & [-> _] & _); [lia|]. }
  destruct (num_of_Z_pos a) as (ka & Hka & ->); [lia|]. destruct (num_of_Z_pos b) as (kb & Hkb & ->); [lia|].
  assert (forall v, (0 < v < MAX_SAFE)%Z -> (0 <= Z.log2 v < 53)%Z) as Hl.
  { intros v Hv. split; [apply Z.log2_nonneg|]. apply Z.log2_lt_pow2; unfold MAX_SAFE in *; lia. }
  pose proof (Hl a ltac:(lia)) as Hla. pose proof (Hl b ltac:(lia)) as Hlb.
  unfold num_sub, SFsub. set (ez := Z.min (Z.log2 a - 52) (Z.log2 b - 52)).
  assert (forall v k, (0 < v < MAX_SAFE)%Z -> Z.pos k = (v * 2 ^ (52 - Z.log2 v))%Z -> (ez <= Z.log2 v - 52)%Z ->
    Z.pos (fst (shl_align k (Z.log2 v - 52) ez)) = (v * 2 ^ (- ez))%Z) as Hsh.
  { intros v k Hv Hk Hez. unfold shl_align. destruct (ez - (Z.log2 v - 52))%Z as [|p|p] eqn:Ed; [| lia |]; cbn [fst].
    - rewrite Hk. f_equal. f_equal. lia.
    - rewrite shl_pos, Hk, <- Z.mul_assoc, <- Z.pow_add_r by (specialize (Hl v Hv); lia). f_equal. f_equal. lia. }
  cbn [cond_Zopp]. rewrite (Hsh a ka), (Hsh b kb) by (done || lia). rewrite <- Z.mul_sub_distr_r.
  destruct (decide (a = b)) as [->|Hne]; [by rewrite Z.sub_diag|].
  assert (0 < (a - b) * 2 ^ (- ez))%Z as Hpos by (apply Z.mul_pos_pos; [lia|apply Z.pow_pos_nonneg; lia]).
  destruct ((a - b) * 2 ^ (- ez))%Z as [|m|m] eqn:Em; [lia| |lia]. cbn [binary_normalize].
  destruct (binary_round_exact (a - b) m ez) as (k & Hk & ->); [lia|lia|done|].
  destruct (num_of_Z_pos (a - b)) as (k' & Hk' & ->); [lia|]. f_equal. lia.
Qed.

(** A quotient that is not whole lies between the same whole numbers as the fraction. *)
Lemma quotient_between p d : (0 < p < MAX_SAFE)%Z -> (0 < d < MAX_SAFE)%Z -> (p mod d <> 0)%Z ->
  exists k E, normal (num_div (num_of_Z p) (num_of_Z d)) k E /\ (E < 0)%Z /\
    (p / d * 2 ^ (- E) < Z.pos k < (p / d + 1) * 2 ^ (- E))%Z.
Proof.
  intros Hp Hd Hmod. destruct (num_of_Z_normal p Hp) as (kp & Np & Kp). destruct (num_of_Z_normal d Hd) as (kd & Nd & Kd).
  assert (forall v, (0 < v < MAX_SAFE)%Z -> (0 <= Z.log2 v < 53)%Z) as Hl.
  { intros v Hv. split; [apply Z.log2_nonneg|]. apply Z.log2_lt_pow2; unfold MAX_SAFE in *; lia. }
  pose proof (Hl p Hp) as Hlp. pose proof (Hl d Hd) as Hld.
  destruct (div_spec _ _ _ _ _ _ Np Nd ltac:(lia)) as (k & n & Hz & Hn & Herr & _).
  set (E := (Z.log2 p - 52 - (Z.log2 d - 52) - 53 + n)%Z) in *. exists k, E. split; [done|].
  pose proof (Z.div_mod p d ltac:(lia)) as Hdm. pose proof (Z.mod_pos_bound p d ltac:(lia)) as Hmb.
  rewrite Kp, Kd in Herr.
  replace (p * 2 ^ (52 - Z.log2 p) * 2 ^ 53)%Z with (p * 2 ^ (105 - Z.log2 p))%Z in Herr
    by (rewrite <- Z.mul_assoc, <- Z.pow_add_r by lia; f_equal; f_equal; lia).
  destruct (Z.lt_ge_cases E 0) as [HE|HE].
  - split; [done|]. assert (0 < 2 ^ (- E))%Z as HD by (apply Z.pow_pos_nonneg; lia).
    assert (2 ^ n * 2 ^ (52 - Z.log2 d) * 2 ^ (- E) = 2 ^ (105 - Z.log2 p))%Z as Es
      by (rewrite <- !Z.pow_add_r by lia; f_equal; unfold E; lia).
    set (S := (2 ^ n * 2 ^ (52 - Z.log2 d))%Z) in *. assert (0 < S)%Z as HS by (apply Z.mul_pos_pos; apply Z.pow_pos_nonneg; lia).
    rewrite <- Es in Herr. replace (Z.pos k * 2 ^ n * (d * 2 ^ (52 - Z.log2 d)))%Z with (Z.pos k * d * S)%Z in Herr by (unfold S; ring).
    replace (Z.pos k * d * S - p * (S * 2 ^ (- E)))%Z with ((Z.pos k * d - p * 2 ^ (- E)) * S)%Z in Herr by ring.
    rewrite Z.abs_mul, (Z.abs_eq S) in Herr by lia.
    assert (2 ^ 53 * Z.abs (Z.pos k * d - p * 2 ^ (- E)) <= p * 2 ^ (- E))%Z as He1 by nia.
    assert (Z.abs (Z.pos k * d - p * 2 ^ (- E)) < 2 ^ (- E))%Z as He2 by (unfold MAX_SAFE in Hp; nia).
    set (D := (2 ^ (- E))%Z) in *. split; [|nia]. assert (p / d * d * D < Z.pos k * d)%Z by nia. nia.
  - exfalso. assert (2 ^ n * 2 ^ (52 - Z.log2 d) = 2 ^ E * 2 ^ (105 - Z.log2 p))%Z as Es
      by (rewrite <- !Z.pow_add_r by (unfold E in *; lia); f_equal; unfold E; lia).
    set (S := (2 ^ (105 - Z.log2 p))%Z) in *. assert (0 < S)%Z as HS by (apply Z.pow_pos_nonneg; lia).
    replace (Z.pos k * 2 ^ n * (d * 2 ^ (52 - Z.log2 d)))%Z with (Z.pos k * d * (2 ^ n * 2 ^ (52 - Z.log2 d)))%Z in Herr by ring.
    rewrite Es in Herr. replace (Z.pos k * d * (2 ^ E * S) - p * S)%Z with ((Z.pos k * d * 2 ^ E - p) * S)%Z in Herr by ring.
    rewrite Z.abs_mul, (Z.abs_eq S) in Herr by lia.
    assert (2 ^ 53 * Z.abs (Z.pos k * d * 2 ^ E - p) <= p)%Z as He1 by nia.
    assert (Z.pos k * d * 2 ^ E = p)%Z as He2 by (unfold MAX_SAFE in Hp; nia).
    apply Hmod. rewrite <- He2. replace (Z.pos k * d * 2 ^ E)%Z with (Z.pos k * 2 ^ E * d)%Z by ring. apply Z.mod_mul. lia.
Qed.

(** [Math.ceil] of a quotient of whole numbers is the quotient rounded up. *)
Lemma ceil_quotient p d : (0 <= p < 2 ^ 52)%Z -> (0 < d < MAX_SAFE)%Z ->
  num_ceil (num_div (num_of_Z p) (num_of_Z d)) = num_of_Z (- (- p / d)).
Proof.
  intros Hp Hd. destruct (decide (p = 0%Z)) as [->|Hp0].
  { rewrite Z.div_0_l by lia. by destruct (num_of_Z_normal d Hd) as (k & [-> _] & _). }
  destruct (decide (p mod d = 0)%Z) as [Hm|Hm].
  - pose proof (Z.div_mod p d ltac:(lia)) as Hdm. rewrite Hm in Hdm. set (q := (p / d)%Z) in *.
    assert (0 < q < 2 ^ 52)%Z as Hq by nia.
    assert (- p / d = - q)%Z as -> by (symmetry; apply Z.div_unique_exact; lia).
    replace p with (q * d)%Z by lia. rewrite num_of_Z_div by (unfold MAX_SAFE; lia). rewrite Z.opp_involutive.
    destruct (num_of_Z_normal q) as (k & [E _] & Kq); [unfold MAX_SAFE; lia|]. rewrite E. unfold num_ceil.
    assert (Z.log2 q < 52)%Z as Hlq by (apply Z.log2_lt_pow2; lia). pose proof (Z.log2_nonneg q).
    rewrite (proj2 (Z.leb_gt _ _)) by lia. cbn [signed_mantissa]. rewrite <- E.
    replace (- (Z.log2 q - 52))%Z with (52 - Z.log2 q)%Z by lia. change (Z.neg k) with (- Z.pos k)%Z.
    rewrite Kq. rewrite <- Z.mul_opp_l, Z.div_mul by (apply Z.pow_nonzero; lia). rewrite Z.opp_involutive.
    unfold num_of_int. rewrite (proj2 (Z.eqb_neq _ _)) by lia. done.
  - destruct (quotient_between p d) as (k & E & [-> _] & HE & H1 & H2); [unfold MAX_SAFE; lia|done|done|].
    unfold num_ceil. rewrite (proj2 (Z.leb_gt _ _)) by lia. cbn [signed_mantissa]. change (Z.neg k) with (- Z.pos k)%Z.
    pose proof (Z.div_mod p d ltac:(lia)) as Hdm. pose proof (Z.mod_pos_bound p d ltac:(lia)) as Hmb.
    assert (- Z.pos k / 2 ^ (- E) = - (p / d + 1))%Z as ->.
    { symmetry. apply (Z.div_unique _ _ _ ((p / d + 1) * 2 ^ (- E) - Z.pos k)); [left|]; nia. }
    assert (- p / d = - (p / d + 1))%Z as ->.
    { symmetry. apply (Z.div_unique _ _ _ (d - p mod d)); [left|]; lia. }
    rewrite !Z.opp_involutive. unfold num_of_int. pose proof (Z.div_pos p d ltac:(lia) ltac:(lia)).
    rewrite (proj2 (Z.eqb_neq _ _)) by lia. done.
Qed.

(** Whole numbers that are not negative, in [Math.max(0, x)] and [<=]. *)
Lemma whole_max v : (0 <= v < MAX_SAFE)%Z -> num_max [num_zero; num_of_Z v] = num_of_Z v.
Proof.
  intros Hv. destruct (decide (v = 0%Z)) as [->|H0]; [done|]. by destruct (num_of_Z_normal v ltac:(lia)) as (k & [-> _] & _).
Qed.

Lemma whole_finite v : (0 <= v < MAX_SAFE)%Z -> is_finite (num_of_Z v) = true.
Proof.
  intros Hv. destruct (decide (v = 0%Z)) as [->|H0]; [done|]. by destruct (num_of_Z_normal v ltac:(lia)) as (k & [-> _] & _).
Qed.

Lemma whole_above_one v : (1 < v < MAX_SAFE)%Z -> num_leb (num_of_Z v) (num_of_Z 1) = false.
Proof.
  intros Hv. destruct (num_of_Z_normal v ltac:(lia)) as (k & [-> _] & _).
  assert (1 <= Z.log2 v)%Z as Hl by (apply (Z.log2_le_mono 2); lia).
  replace (num_of_Z 1) with (S754_finite false 4503599627370496 (-52)) by (vm_compute; reflexivity).
  unfold num_leb, SFleb, SFcompare. by rewrite (proj2 (Z.compare_gt_iff _ _)) by lia.
Qed.

Lemma whole_not_below_one v : (1 <= v < MAX_SAFE)%Z -> num_ltb (num_of_Z v) (num_of_Z 1) = false.
Proof.
  intros Hv. destruct (decide (v = 1%Z)) as [->|]; [vm_compute; reflexivity|].
  destruct (num_of_Z_normal v ltac:(lia)) as (k & [-> _] & _).
  assert (1 <= Z.log2 v)%Z as Hl by (apply (Z.log2_le_mono 2); lia).
  replace (num_of_Z 1) with (S754_finite false 4503599627370496 (-52)) by (vm_compute; reflexivity).
  unfold num_ltb, SFltb, SFcompare. by rewrite (proj2 (Z.compare_gt_iff _ _)) by lia.
Qed.

(** ** Values as rationals *)
From Stdlib Require Import QArith Qpower Qabs Lqa.

Local Open Scope Q_scope.

Definition two_pow (e : Z) : Q := 2 ^ e.

Lemma two_pow_pos e : 0 < two_pow e.
Proof. apply Qpower_0_lt. reflexivity. Qed.

Lemma two_pow_add a b : two_pow (a + b) == two_pow a * two_pow b.
Proof. apply Qpower_plus. discriminate. Qed.

Lemma two_pow_Z n : (0 <= n)%Z -> inject_Z (2 ^ n) == two_pow n.
Proof. intros H. by apply Zpower_Qpower. Qed.

Lemma two_pow_sub a b : two_pow (a - b) * two_pow b == two_pow a.
Proof. rewrite <- two_pow_add. by replace (a - b + b)%Z with a by lia. Qed.

(** The value of a mantissa and an exponent. *)
Definition fval (m : positive) (e : Z) : Q := inject_Z (Z.pos m) * two_pow e.

Lemma fval_pos m e : 0 < fval m e.
Proof. apply Qmult_lt_0_compat; [reflexivity|apply two_pow_pos]. Qed.

Definition ulp : Q := 1 # (2 ^ 53).

(** Within a factor of [(1 - ulp)^n] and [(1 + ulp)^n]. *)
Definition lo (n : nat) : Q := (1 - ulp) ^ Z.of_nat n.
Definition hi (n : nat) : Q := (1 + ulp) ^ Z.of_nat n.
Definition approx (n : nat) (x y : Q) : Prop := y * lo n <= x /\ x <= y * hi n.

Lemma lo_S n : lo (S n) == lo n * (1 - ulp).
Proof. unfold lo. rewrite Nat2Z.inj_succ, <- Z.add_1_r, Qpower_plus; [|discriminate]. reflexivity. Qed.
Lemma hi_S n : hi (S n) == hi n * (1 + ulp).
Proof. unfold hi. rewrite Nat2Z.inj_succ, <- Z.add_1_r, Qpower_plus; [|discriminate]. reflexivity. Qed.

Lemma lo_1 : lo 1 == 1 - ulp.
Proof. rewrite (lo_S 0). change (lo 0) with 1. ring. Qed.
Lemma hi_1 : hi 1 == 1 + ulp.
Proof. rewrite (hi_S 0). change (hi 0) with 1. ring. Qed.

Lemma approx_0 x : approx 0 x x.
Proof. split; [change (lo 0) with 1|change (hi 0) with 1]; lra. Qed.

(** One more rounded operation. *)
Lemma approx_step n x y z w : 0 < w -> approx n x y -> approx 1 z (x * w) -> approx (S n) z (y * w).
Proof.
  intros Hw [H1 H2] [H3 H4]. unfold approx in *. rewrite lo_S, hi_S.
  rewrite lo_1 in H3. rewrite hi_1 in H4. assert (0 < 1 - ulp) by reflexivity. assert (0 < 1 + ulp) by reflexivity.
  split.
  - apply (Qle_trans _ (x * w * (1 - ulp))); [|done]. apply Qmult_le_compat_r with (z := w * (1 - ulp)) in H1; [lra|].
    apply Qlt_le_weak, Qmult_lt_0_compat; done.
  - apply (Qle_trans _ (x * w * (1 + ulp))); [done|]. apply Qmult_le_compat_r with (z := w * (1 + ulp)) in H2; [lra|].
    apply Qlt_le_weak, Qmult_lt_0_compat; done.
Qed.

Lemma approx_abs k a : (0 <= a)%Z -> (2 ^ 53 * Z.abs (k - a) <= a)%Z -> approx 1 (inject_Z k) (inject_Z a).
Proof.
  intros Ha H. unfold approx. rewrite lo_1, hi_1. unfold ulp, Qle, Qmult, Qplus, Qminus, Qopp, inject_Z. cbn. lia.
Qed.

Lemma approx_scale n x y w : 0 < w -> approx n x y -> approx n (x * w) (y * w).
Proof.
  intros Hw [H1 H2]. apply Qlt_le_weak in Hw. split.
  - apply Qmult_le_compat_r with (z := w) in H1; [lra|done].
  - apply Qmult_le_compat_r with (z := w) in H2; [lra|done].
Qed.

#[global] Instance approx_proper n : Proper (Qeq ==> Qeq ==> iff) (approx n).
Proof. intros x x' Hx y y' Hy. unfold approx. by rewrite Hx, Hy. Qed.

Lemma mul_approx x y mx ex my ey : normal x mx ex -> normal y my ey -> (-900 <= ex + ey <= 700)%Z ->
  exists k e, normal (num_mul x y) k e /\ (ex + ey + 52 <= e <= ex + ey + 54)%Z /\ approx 1 (fval k e) (fval mx ex * fval my ey).
Proof.
  intros Hx Hy He. destruct (mul_spec x y mx ex my ey Hx Hy He) as (k & n & Hn & Hb & Herr & _). exists k, (ex + ey + n)%Z.
  split; [done|]. split; [lia|]. apply approx_abs in Herr; [|lia].
  apply (approx_scale _ _ _ (two_pow (ex + ey)) (two_pow_pos _)) in Herr. unfold fval.
  rewrite !inject_Z_mult, two_pow_Z in Herr by lia. rewrite !two_pow_add in *.
  eapply approx_proper; [| |exact Herr]; ring.
Qed.

Lemma div_approx x y mx ex my ey : normal x mx ex -> normal y my ey -> (-900 <= ex - ey <= 700)%Z ->
  exists k e, normal (num_div x y) k e /\ (ex - ey - 53 <= e <= ex - ey - 51)%Z /\ approx 1 (fval k e) (fval mx ex * / fval my ey).
Proof.
  intros Hx Hy He. destruct (div_spec x y mx ex my ey Hx Hy He) as (k & n & Hn & Hb & Herr & _). exists k, (ex - ey - 53 + n)%Z.
  split; [done|]. split; [lia|]. apply approx_abs in Herr; [|lia].
  assert (0 < two_pow (ex - ey - 53) * / inject_Z (Z.pos my)) as Hp
    by (apply Qmult_lt_0_compat; [apply two_pow_pos|apply Qinv_lt_0_compat; reflexivity]).
  apply (approx_scale _ _ _ _ Hp) in Herr. rewrite !inject_Z_mult, !two_pow_Z in Herr by lia. unfold fval.
  assert (two_pow ex == two_pow (ex - ey - 53) * two_pow 53 * two_pow ey) as E.
  { rewrite <- !two_pow_add. f_equiv. lia. }
  rewrite E, two_pow_add. pose proof (two_pow_pos ey) as Hey.
  eapply approx_proper; [| |exact Herr]; field; repeat split; first [discriminate | intros X; rewrite X in Hey; discriminate Hey].
Qed.

(** [Math.round] of a number less than a half away from a whole number. *)
Lemma round_near x k e u : normal x k e -> (0 < u < 2 ^ 49)%Z ->
  inject_Z u - (1 # 2) < fval k e -> fval k e < inject_Z u + (1 # 2) -> num_round x = num_of_Z u.
Proof.
  intros [-> Hk] Hu H1 H2. unfold num_round. destruct (Z.leb_spec 0 e) as [He|He].
  - exfalso. unfold fval in H2. rewrite <- two_pow_Z, <- inject_Z_mult in H2 by lia.
    assert (inject_Z (Z.pos k * 2 ^ e) < inject_Z (u + 1)) as H3 by (rewrite inject_Z_plus; change (inject_Z 1) with 1; lra).
    rewrite <- Zlt_Qlt in H3. assert (0 < 2 ^ e)%Z by (apply Z.pow_pos_nonneg; lia). nia.
  - assert (0 < 2 ^ (- e))%Z as HD by (apply Z.pow_pos_nonneg; lia).
    assert (fval k e * inject_Z (2 ^ (- e)) == inject_Z (Z.pos k)) as E.
    { unfold fval. rewrite two_pow_Z by lia. rewrite <- Qmult_assoc, <- two_pow_add. replace (e + - e)%Z with 0%Z by lia.
      change (two_pow 0) with 1. ring. }
    set (D := (2 ^ (- e))%Z) in *. assert (0 < inject_Z D) as HDq by (by rewrite (Zlt_Qlt 0) in HD).
    apply (Qmult_lt_compat_r _ _ _ HDq) in H1, H2. rewrite E in H1, H2.
    assert (inject_Z (2 * u * D - D) < inject_Z (2 * Z.pos k)) as H3.
    { unfold Z.sub. rewrite !inject_Z_plus, inject_Z_opp, !inject_Z_mult. change (inject_Z 2) with 2. lra. }
    assert (inject_Z (2 * Z.pos k) < inject_Z (2 * u * D + D)) as H4.
    { rewrite !inject_Z_plus, !inject_Z_mult. change (inject_Z 2) with 2. lra. }
    rewrite <- Zlt_Qlt in H3, H4. cbn [signed_mantissa].
    assert ((2 * Z.pos k + D) / (2 * D) = u)%Z as ->.
    { symmetry. apply (Z.div_unique _ _ _ (2 * Z.pos k + D - 2 * D * u)); [left|]; lia. }
    unfold num_of_int. by rewrite (proj2 (Z.eqb_neq _ _)) by lia.
Qed.

(** Four rounded operations move a whole number below [2^49] by less than a half. *)
Lemma approx_4_near x u : (0 < u < 2 ^ 49)%Z -> approx 4 x (inject_Z u) ->
  inject_Z u - (1 # 2) < x /\ x < inject_Z u + (1 # 2).
Proof.
  intros Hu [H1 H2].
  assert (1 - (1 # 2 ^ 50) <= lo 4) as Hl by (unfold Qle; vm_compute; discriminate).
  assert (hi 4 <= 1 + (1 # 2 ^ 50)) as Hh by (unfold Qle; vm_compute; discriminate).
  assert (inject_Z u < inject_Z (2 ^ 49)) as Hq by (rewrite <- Zlt_Qlt; lia).
  assert (0 < inject_Z u) as Hp by (change 0 with (inject_Z 0); rewrite <- Zlt_Qlt; lia).
  assert (inject_Z u * (1 # 2 ^ 50) < 1 # 2) as Hs.
  { apply (Qlt_le_trans _ (inject_Z (2 ^ 49) * (1 # 2 ^ 50))); [by apply Qmult_lt_compat_r|]. unfold Qle. vm_compute. discriminate. }
  split.
  - apply (Qlt_le_trans _ (inject_Z u * lo 4)); [|done]. apply (Qlt_le_trans _ (inject_Z u * (1 - (1 # 2 ^ 50)))); [lra|].
    rewrite !(Qmult_comm (inject_Z u)). apply Qmult_le_compat_r; [done|lra].
  - apply (Qle_lt_trans _ (inject_Z u * hi 4)); [done|]. apply (Qle_lt_trans _ (inject_Z u * (1 + (1 # 2 ^ 50)))); [|lra].
    rewrite !(Qmult_comm (inject_Z u)). apply Qmult_le_compat_r; [done|lra].
Qed.
