(* ===== verification/Currency.v ===== *)
(** * Currency and quota (src/apps/web/src/lib/currency.ts, lib/format.ts)

    The configuration of the display currency, the conversion between quota units and the
    amount a user types or reads, and the texts of amounts.  [Intl.NumberFormat], the
    translation of a label, [toUpperCase] and [Math.pow(10, -n)] are parameters. *)
From S2P Require Import Prelude JsString JsNumber JsExact JsRound VisualTiers.
From Stdlib Require Import Lia.

(** ** Configuration *)

Inductive CurrencyDisplayType := USD | CNY | TOKENS | CUSTOM.

Record CurrencyConfig := mkConfig {
  displayInCurrency : bool;
  quotaDisplayType : CurrencyDisplayType;
  quotaPerUnit : spec_float;
  usdExchangeRate : spec_float;
  customCurrencySymbol : list N;
  customCurrencyCode : list N;
  customCurrencyExchangeRate : spec_float }.

Definition num_one : spec_float := num_of_Z 1.

Definition DEFAULT_CURRENCY_CONFIG : CurrencyConfig :=
  mkConfig true USD (num_of_Z 500000) num_one [164%N] [] num_one.

Definition DISPLAY_TYPE_VALUES : list (list N * CurrencyDisplayType) :=
  [(js "USD", USD); (js "CNY", CNY); (js "TOKENS", TOKENS); (js "CUSTOM", CUSTOM)].

(** [isCurrencyDisplayType], with the type; [None] for a value that is not a string. *)
Definition isCurrencyDisplayType (value : option (list N)) : option CurrencyDisplayType :=
  s ← value; (fun x => x.2.2) <$> list_find (fun kv => kv.1 = s) DISPLAY_TYPE_VALUES.

Definition parseCurrencyDisplayType (value : option (list N)) (fallback : CurrencyDisplayType) : CurrencyDisplayType :=
  default fallback (isCurrencyDisplayType value).

(** [x && x > 0 ? x : fallback]. *)
Definition positive_or (x fallback : spec_float) : spec_float := if num_ltb num_zero x then x else fallback.

Definition getConfig (currency : option CurrencyConfig) : CurrencyConfig :=
  let c := default DEFAULT_CURRENCY_CONFIG currency in
  mkConfig (displayInCurrency c) (quotaDisplayType c)
    (positive_or (quotaPerUnit c) (quotaPerUnit DEFAULT_CURRENCY_CONFIG))
    (positive_or (usdExchangeRate c) (usdExchangeRate DEFAULT_CURRENCY_CONFIG))
    (let s := trim (customCurrencySymbol c) in if nonempty s then s else customCurrencySymbol DEFAULT_CURRENCY_CONFIG)
    (customCurrencyCode c)
    (positive_or (customCurrencyExchangeRate c) (customCurrencyExchangeRate DEFAULT_CURRENCY_CONFIG)).

Inductive DisplayMeta :=
| MCurrency (symbol currencyCode : list N) (exchangeRate : spec_float)
| MCustom (symbol : list N) (exchangeRate : spec_float)
| MTokens (quotaPerUnit : spec_float).

Definition usd_meta : DisplayMeta := MCurrency (js "$") (js "USD") num_one.

Definition getDisplayMeta (config : CurrencyConfig) : DisplayMeta :=
  match quotaDisplayType config with
  | CNY => MCurrency [165%N] (js "CNY") (usdExchangeRate config)
  | CUSTOM => MCustom (customCurrencySymbol config) (customCurrencyExchangeRate config)
  | TOKENS => MTokens (quotaPerUnit config)
  | USD => usd_meta
  end.

Definition getBillingDisplayMeta (config : CurrencyConfig) : DisplayMeta :=
  match getDisplayMeta config with MTokens _ => usd_meta | meta => meta end.

Definition getCurrencyDisplay (currency : option CurrencyConfig) : CurrencyConfig * DisplayMeta :=
  let config := getConfig currency in (config, getDisplayMeta config).

Definition isCurrencyDisplayEnabled (currency : option CurrencyConfig) : bool :=
  match (getCurrencyDisplay currency).2 with MTokens _ => false | _ => true end.

(** ** Quota units and amounts *)

(** The rate of a meta; 1 when it has none. *)
Definition exchangeRate (meta : DisplayMeta) : spec_float :=
  match meta with MCurrency _ _ r | MCustom _ r => r | MTokens _ => num_one end.

Definition parseQuotaFromDollars (currency : option CurrencyConfig) (amount : spec_float) : spec_float :=
  if negb (is_finite amount) then num_zero
  else
    let '(config, meta) := getCurrencyDisplay currency in
    match meta with
    | MTokens _ => num_round amount
    | _ =>
        let rate := exchangeRate meta in
        let usdAmount := if num_ltb num_zero rate then num_div amount rate else amount in
        num_round (num_mul usdAmount (quotaPerUnit config))
    end.

Definition quotaUnitsToDisplayAmount (units quotaPerUnit : spec_float) (meta : DisplayMeta) : spec_float :=
  match meta with
  | MTokens _ => units
  | _ => num_mul (num_div units quotaPerUnit) (exchangeRate meta)
  end.

Definition quotaUnitsToDollars (currency : option CurrencyConfig) (units : spec_float) : spec_float :=
  let '(config, meta) := getCurrencyDisplay currency in quotaUnitsToDisplayAmount units (quotaPerUnit config) meta.

(** ** Texts *)

Record CurrencyFormatOptions := mkOptions {
  digitsLarge : nat;
  digitsSmall : nat;
  abbreviate : bool;
  minimumNonZero : spec_float;
  compact : bool;
  showSymbol : bool;
  locale : option (list N) }.

Record PartialOptions := mkPartialOptions {
  o_digitsLarge : option nat;
  o_digitsSmall : option nat;
  o_abbreviate : option bool;
  o_minimumNonZero : option spec_float;
  o_compact : option bool;
  o_showSymbol : option bool;
  o_locale : option (list N) }.

Definition DEFAULT_FORMAT_OPTIONS : CurrencyFormatOptions := mkOptions 2 4 true num_zero false true None.

Definition mergeOptions (options : option PartialOptions) : CurrencyFormatOptions :=
  match options with
  | None => DEFAULT_FORMAT_OPTIONS
  | Some o =>
      mkOptions (default (digitsLarge DEFAULT_FORMAT_OPTIONS) (o_digitsLarge o))
        (default (digitsSmall DEFAULT_FORMAT_OPTIONS) (o_digitsSmall o))
        (default (abbreviate DEFAULT_FORMAT_OPTIONS) (o_abbreviate o))
        (default (minimumNonZero DEFAULT_FORMAT_OPTIONS) (o_minimumNonZero o))
        (default (compact DEFAULT_FORMAT_OPTIONS) (o_compact o))
        (default (showSymbol DEFAULT_FORMAT_OPTIONS) (o_showSymbol o))
        (match o_locale o with Some l => Some l | None => locale DEFAULT_FORMAT_OPTIONS end)
  end.

Definition getFractionDigits (value : spec_float) (large small : nat) : nat :=
  if num_leb num_one (num_abs value) then large else small.

Definition getCurrencyFractionDigits (value : spec_float) (options : option PartialOptions) : nat :=
  let merged := mergeOptions options in getFractionDigits value (digitsLarge merged) (digitsSmall merged).

(** [str.replace(/(\.[0-9]*?)0+$/, '$1').replace(/\.$/, '')] on a text with a point: the
    zeros at the end of the digits after the last point, then a point at the end. *)
Definition removeTrailingZeros (str : list N) : list N :=
  if negb (bool_decide (46%N ∈ str)) then str
  else
    let '(zs, r) := span (fun c => (c =? 48)%N) (reverse str) in
    let '(ds, r') := span is_digit r in
    let stripped := match r' with 46%N :: _ => r | _ => reverse str end in
    reverse (match stripped with 46%N :: r'' => r'' | _ => stripped end).

Definition formatNumberWithSuffix (value : spec_float) (large small : nat) (abbr : bool) : list N :=
  let a := num_abs value in
  if abbr && num_leb (num_of_Z 1000) a
  then removeTrailingZeros (num_to_fixed 1 (num_div value (num_of_Z 1000))) ++ js "k"
  else removeTrailingZeros (num_to_fixed (getFractionDigits value large small) value).

(** The options a number format is made with. *)
Record IntlOptions := mkIntl {
  i_locale : option (list N);
  i_currency : option (list N);
  i_compact : bool;
  i_maximumFractionDigits : nat }.

Section Formats.
Variable intl_format : IntlOptions -> spec_float -> list N.
Variable pow10_neg : nat -> spec_float.
Variable translate : list N -> list N.
Variable toUpperCase : list N -> list N.

Definition adjustForMinimum (value : spec_float) (digits : nat) (minimum : spec_float) : spec_float :=
  if num_eqb value num_zero then value
  else
    let threshold := if num_ltb num_zero minimum then minimum else pow10_neg digits in
    let a := num_abs value in
    if num_ltb num_zero a && num_ltb a threshold
    then if num_ltb num_zero value then threshold else num_neg threshold
    else value.

Definition compact_format (loc : option (list N)) (value : spec_float) : list N :=
  intl_format (mkIntl loc None true 1) value.

Definition formatCurrencyValue (value : spec_float) (options : CurrencyFormatOptions) (meta : DisplayMeta) : list N :=
  match meta with
  | MTokens _ =>
      if compact options then compact_format (locale options) value
      else formatNumberWithSuffix value (digitsLarge options) (digitsSmall options) (abbreviate options)
  | _ =>
      let digits := getFractionDigits value (digitsLarge options) (digitsSmall options) in
      let adjustedValue := adjustForMinimum value digits (minimumNonZero options) in
      let fmt (currency : option (list N)) :=
        intl_format (mkIntl (locale options) currency (compact options) (if compact options then 1 else digits)) adjustedValue in
      match meta with
      | MCurrency _ code _ => fmt (if showSymbol options then Some code else None)
      | MCustom symbol _ => if showSymbol options then symbol ++ js " " ++ fmt None else fmt None
      | MTokens _ => []
      end
  end.

Definition formatCurrencyFromUSD (currency : option CurrencyConfig) (amountUSD : option spec_float) (options : option PartialOptions) : list N :=
  match amountUSD with
  | None => js "-"
  | Some amount =>
      if is_nan amount then js "-"
      else
        let '(config, meta) := getCurrencyDisplay currency in
        let merged := mergeOptions options in
        match meta with
        | MTokens _ =>
            let tokens := num_mul amount (quotaPerUnit config) in
            if compact merged then compact_format (locale merged) tokens
            else formatNumberWithSuffix tokens 0 (digitsSmall merged) (abbreviate merged)
        | _ => formatCurrencyValue (num_mul amount (exchangeRate meta)) merged meta
        end
  end.

Definition formatPlainCurrencyNumber (value : spec_float) (options : CurrencyFormatOptions) : list N :=
  let digits := getFractionDigits value (digitsLarge options) (digitsSmall options) in
  let adjustedValue := adjustForMinimum value digits (minimumNonZero options) in
  let c := abbreviate options || compact options in
  intl_format (mkIntl (locale options) None c (if c then 1 else digits)) adjustedValue.

(** [a || b] on texts. *)
Definition or_else (a b : list N) : list N := if nonempty a then a else b.

Definition platform_label (platformLabel : option (list N)) : list N :=
  or_else (or_else (default [] (trim <$> platformLabel)) (translate (js "Platform"))) (js "Platform").

Definition getPlatformCurrencyLabel (platformLabel : option (list N)) : list N :=
  js "$ (" ++ platform_label platformLabel ++ js ")".

Definition formatPlatformAmount (amount : option spec_float) (options : option PartialOptions) (platformLabel : option (list N)) : list N :=
  match amount with
  | None => js "-"
  | Some a =>
      if is_nan a then js "-"
      else (if num_ltb a num_zero then js "-" else []) ++ js "$" ++ formatPlainCurrencyNumber (num_abs a) (mergeOptions options) ++
           js " (" ++ platform_label platformLabel ++ js ")"
  end.

Definition formatFiatCurrencyAmount (amount : option spec_float) (currencyCode : list N) (options : option PartialOptions) : list N :=
  match amount with
  | None => js "-"
  | Some a =>
      if is_nan a then js "-"
      else formatPlainCurrencyNumber a (mergeOptions options) ++ js " " ++ or_else (toUpperCase (trim currencyCode)) (js "USD")
  end.

Definition formatBillingCurrencyFromUSD (currency : option CurrencyConfig) (amountUSD : option spec_float) (options : option PartialOptions) : list N :=
  match amountUSD with
  | None => js "-"
  | Some amount =>
      if is_nan amount then js "-"
      else let meta := getBillingDisplayMeta (getCurrencyDisplay currency).1 in
           formatCurrencyValue (num_mul amount (exchangeRate meta)) (mergeOptions options) meta
  end.

Definition formatQuotaWithCurrency (currency : option CurrencyConfig) (quota : option spec_float) (options : option PartialOptions) : list N :=
  match quota with
  | None => js "-"
  | Some q =>
      if is_nan q then js "-"
      else formatPlatformAmount (Some (num_div q (quotaPerUnit (getCurrencyDisplay currency).1))) options None
  end.

Definition formatLocalCurrencyAmount (currency : option CurrencyConfig) (amount : option spec_float) (options : option PartialOptions) : list N :=
  match amount with
  | None => js "-"
  | Some a =>
      if is_nan a then js "-"
      else formatCurrencyValue a (mergeOptions options) (getBillingDisplayMeta (getCurrencyDisplay currency).1)
  end.

Definition formatQuota (currency : option CurrencyConfig) (quota : spec_float) : list N :=
  formatQuotaWithCurrency currency (Some quota) (Some (mkPartialOptions (Some 2) (Some 4) (Some true) None None None None)).

Definition formatLogQuota (currency : option CurrencyConfig) (quota : spec_float) : list N :=
  formatQuotaWithCurrency currency (Some quota) (Some (mkPartialOptions (Some 4) (Some 6) (Some false) None None None None)).

Definition getEditableQuotaStep (currency : option CurrencyConfig) : spec_float :=
  match (getCurrencyDisplay currency).2 with
  | MTokens _ => num_one
  | _ => pow10_neg (getCurrencyFractionDigits num_zero None)
  end.
End Formats.

(** The text of [toFixed] read as a number again. *)
Definition quotaUnitsToEditableAmount (currency : option CurrencyConfig) (units : spec_float) : spec_float :=
  let '(config, meta) := getCurrencyDisplay currency in
  let amount := quotaUnitsToDisplayAmount units (quotaPerUnit config) meta in
  match meta with
  | MTokens _ => num_round amount
  | _ => number_of_string (num_to_fixed (getCurrencyFractionDigits amount None) amount)
  end.

Definition formatTokens (tokens : spec_float) : list N :=
  if num_eqb tokens num_zero then js "-"
  else if num_ltb tokens (num_of_Z 1000) then num_to_string tokens
  else if num_ltb tokens (num_of_Z 1000000) then num_to_fixed 1 (num_div tokens (num_of_Z 1000)) ++ js "K"
  else num_to_fixed 2 (num_div tokens (num_of_Z 1000000)) ++ js "M".

Definition formatUseTime (seconds : spec_float) : list N :=
  if num_ltb seconds (num_of_Z 60) then num_to_fixed 1 seconds ++ js "s"
  else num_to_string (num_floor (num_div seconds (num_of_Z 60))) ++ js "m " ++
       num_to_fixed 0 (num_rem seconds (num_of_Z 60)) ++ js "s".

(** ** A quota read as an amount is the same quota *)
From Stdlib Require Import QArith Lqa.

#[local] Close Scope Q_scope.

(** A rate between [2^-100] and [2^100]. *)
Definition ordinary (x : spec_float) : bool :=
  match x with
  | S754_finite false m e => (2 ^ 52 <=? Z.pos m)%Z && (Z.pos m <? 2 ^ 53)%Z && (-152 <=? e)%Z && (e <=? 48)%Z
  | _ => false
  end.

Lemma ordinary_normal x : ordinary x = true -> exists m e, normal x m e /\ (-152 <= e <= 48)%Z.
Proof.
  destruct x as [| | |[] m e]; try discriminate. cbn. rewrite !andb_true_iff, !Z.leb_le, Z.ltb_lt. intros H.
  exists m, e. split; [split; [done|lia]|lia].
Qed.

Lemma normal_positive x m e : normal x m e -> num_ltb num_zero x = true.
Proof. by intros [-> _]. Qed.

(** A finite number that is not negative and that [x || 0] leaves alone. *)
Definition plain (x : spec_float) : Prop := is_finite x = true /\ or_zero x = x /\ is_neg x = false.

Lemma normal_plain x m e : normal x m e -> plain x.
Proof. by intros [-> _]. Qed.

Lemma whole_value u k : (0 <= Z.log2 u < 49)%Z -> Z.pos k = (u * 2 ^ (52 - Z.log2 u))%Z -> (fval k (Z.log2 u - 52) == inject_Z u)%Q.
Proof.
  intros Hl K. unfold fval. rewrite K, inject_Z_mult, two_pow_Z by lia. rewrite <- Qmult_assoc, <- two_pow_add.
  replace (52 - Z.log2 u + (Z.log2 u - 52))%Z with 0%Z by lia. change (two_pow 0) with 1%Q. ring.
Qed.

(** Dividing by [q], multiplying by [r], dividing by [r] and multiplying by [q] again. *)
Lemma there_and_back q r u : ordinary q = true -> ordinary r = true -> (0 < u < 2 ^ 49)%Z ->
  plain (num_mul (num_div (num_of_Z u) q) r) /\
  num_round (num_mul (num_div (num_mul (num_div (num_of_Z u) q) r) r) q) = num_of_Z u.
Proof.
  intros Hq Hr Hu. destruct (ordinary_normal q Hq) as (mq & eq & Nq & Bq). destruct (ordinary_normal r Hr) as (mr & er & Nr & Br).
  destruct (num_of_Z_normal u) as (ku & Nu & Ku); [unfold MAX_SAFE; lia|].
  assert (0 <= Z.log2 u < 49)%Z as Hl by (split; [apply Z.log2_nonneg|apply Z.log2_lt_pow2; lia]).
  destruct (div_approx _ _ _ _ _ _ Nu Nq) as (k1 & e1 & N1 & B1 & A1); [lia|].
  destruct (mul_approx _ _ _ _ _ _ N1 Nr) as (k2 & e2 & N2 & B2 & A2); [lia|].
  destruct (div_approx _ _ _ _ _ _ N2 Nr) as (k3 & e3 & N3 & B3 & A3); [lia|].
  destruct (mul_approx _ _ _ _ _ _ N3 Nq) as (k4 & e4 & N4 & B4 & A4); [lia|].
  split; [by eapply normal_plain|]. pose proof (fval_pos mq eq) as Pq. pose proof (fval_pos mr er) as Pr.
  pose proof (approx_step _ _ _ _ _ Pr A1 A2) as A12.
  pose proof (approx_step _ _ _ _ _ (Qinv_lt_0_compat _ Pr) A12 A3) as A123.
  pose proof (approx_step _ _ _ _ _ Pq A123 A4) as A1234.
  assert (fval ku (Z.log2 u - 52) * / fval mq eq * fval mr er * / fval mr er * fval mq eq == inject_Z u)%Q as E.
  { rewrite (whole_value u ku Hl Ku). field. split; intros X; [rewrite X in Pr|rewrite X in Pq]; discriminate. }
  rewrite E in A1234. destruct (approx_4_near _ u Hu A1234) as [H1 H2]. by eapply round_near.
Qed.

Lemma there_and_back_zero q r : ordinary q = true -> ordinary r = true ->
  num_mul (num_div (num_of_Z 0) q) r = num_of_Z 0 /\ num_mul (num_div (num_of_Z 0) r) q = num_of_Z 0.
Proof.
  intros Hq Hr. destruct (ordinary_normal q Hq) as (mq & eq & [-> _] & _). by destruct (ordinary_normal r Hr) as (mr & er & [-> _] & _).
Qed.

Lemma whole_round u : (0 <= u < 2 ^ 49)%Z -> plain (num_of_Z u) /\ num_round (num_of_Z u) = num_of_Z u.
Proof.
  intros Hu. destruct (decide (u = 0%Z)) as [->|Hu0]; [done|].
  destruct (num_of_Z_normal u) as (k & N & K); [unfold MAX_SAFE; lia|]. split; [by eapply normal_plain|].
  assert (0 <= Z.log2 u < 49)%Z as Hl by (split; [apply Z.log2_nonneg|apply Z.log2_lt_pow2; lia]).
  eapply round_near; [exact N|lia| |]; rewrite (whole_value u k Hl K); lra.
Qed.

(** To an amount and back. *)
Lemma quota_read_back currency u :
  ordinary (quotaPerUnit (getCurrencyDisplay currency).1) = true ->
  ordinary (exchangeRate (getCurrencyDisplay currency).2) = true ->
  (0 <= u < 2 ^ 49)%Z ->
  plain (quotaUnitsToDollars currency (num_of_Z u)) /\
  parseQuotaFromDollars currency (quotaUnitsToDollars currency (num_of_Z u)) = num_of_Z u.
Proof.
  unfold parseQuotaFromDollars, quotaUnitsToDollars. destruct (getCurrencyDisplay currency) as [config meta]. cbn [fst snd].
  intros Hq Hr Hu. destruct (ordinary_normal _ Hr) as (mr & er & Nr & _).
  assert (forall m : DisplayMeta, exchangeRate m = exchangeRate meta ->
    let amount := num_mul (num_div (num_of_Z u) (quotaPerUnit config)) (exchangeRate m) in
    plain amount /\
    num_round (num_mul (if num_ltb num_zero (exchangeRate m) then num_div amount (exchangeRate m) else amount) (quotaPerUnit config)) = num_of_Z u) as Hm.
  { intros m ->. cbn zeta. rewrite (normal_positive _ _ _ Nr). destruct (decide (u = 0%Z)) as [->|Hu0].
    - destruct (there_and_back_zero _ _ Hq Hr) as [-> ->]. done.
    - apply there_and_back; [done|done|lia]. }
  destruct meta as [a b r|a r|q]; cbn [quotaUnitsToDisplayAmount].
  - destruct (Hm _ eq_refl) as [Hf Hv]. cbn zeta in Hf, Hv. split; [done|]. destruct Hf as [Hf _]. by rewrite Hf, Hv.
  - destruct (Hm _ eq_refl) as [Hf Hv]. cbn zeta in Hf, Hv. split; [done|]. destruct Hf as [Hf _]. by rewrite Hf, Hv.
  - destruct (whole_round u Hu) as [Hf Hv]. split; [done|]. destruct Hf as [Hf _]. by rewrite Hf, Hv.
Qed.

(** C20: A quota shown as an amount in the display currency and read back from that amount
    is the same quota, to the unit: [parseQuotaFromDollars] after [quotaUnitsToDollars] is the
    identity on every whole quota below [2^49], in every display mode, for every configuration
    whose quota per unit and exchange rate lie between [2^-100] and [2^100] - the division by
    the quota per unit, the two conversions by the rate and the multiplication back each
    round, and the four errors together stay below half a unit. *)
Theorem quota_amount_roundtrip currency u :
  ordinary (quotaPerUnit (getCurrencyDisplay currency).1) = true ->
  ordinary (exchangeRate (getCurrencyDisplay currency).2) = true ->
  (0 <= u < 2 ^ 49)%Z ->
  parseQuotaFromDollars currency (quotaUnitsToDollars currency (num_of_Z u)) = num_of_Z u.
Proof. intros Hq Hr Hu. by apply quota_read_back. Qed.

Lemma quota_amount_roundtrip_witness :
  let yuan := mkConfig true CNY (num_of_Z 500000) (num_div (num_of_Z 71) (num_of_Z 10)) [] [] num_one in
  parseQuotaFromDollars (Some yuan) (quotaUnitsToDollars (Some yuan) (num_of_Z 123456789)) = num_of_Z 123456789.
Proof. apply (quota_amount_roundtrip (Some _)); [vm_compute; reflexivity|vm_compute; reflexivity|lia]. Defined.

(** Ten dollars in the token display, with the default options. *)
Example tokens_are_abbreviated :
  formatCurrencyFromUSD (fun _ _ => []) (fun _ => num_zero)
    (Some (mkConfig true TOKENS (num_of_Z 500000) num_one [] [] num_one)) (Some (num_of_Z 10)) None = js "5000k".
Proof. vm_compute. reflexivity. Qed.
