(* ===== verification/KeyForm.v ===== *)
(** * The API key drawer (src/apps/web/src/features/keys)

    lib/api-key-form.ts: the schema of the form, and the form of a stored key and back;
    components/auto-group-order-editor.tsx: the order of the groups a key tries;
    components/api-keys-mutate-drawer.tsx: the drawer, with the confirmations a group's
    warning asks for and the requests it sends. *)
From S2P Require Import Prelude JsString JsNumber JsExact JsRound Currency.
From Stdlib Require Import Lia.

(** ** Keys and forms *)

Inductive GroupsMode := Inherit | CustomGroups.

#[global] Instance GroupsMode_eq_dec : EqDecision GroupsMode.
Proof. solve_decision. Defined.

(** A stored key, as the server sends it; [None] is [null] or a missing field. *)
Record ApiKey := mkKey {
  k_id : Z;
  k_name : list N;
  k_remain_quota : spec_float;
  k_unlimited_quota : bool;
  k_expired_time : spec_float;
  k_group : option (list N);
  k_auto_groups : option (list (list N));
  k_cross_group_retry : bool;
  k_model_limits_enabled : bool;
  k_model_limits : option (list N);
  k_allow_ips : option (list N) }.

(** The values of the form; a date is its time in milliseconds. *)
Record ApiKeyFormValues := mkValues {
  name : list N;
  remain_quota_dollars : option spec_float;
  expired_time : option spec_float;
  unlimited_quota : bool;
  model_limits : list (list N);
  allow_ips : option (list N);
  group : option (list N);
  auto_groups_mode : GroupsMode;
  auto_groups : list (list N);
  cross_group_retry : option bool;
  tokenCount : option Z }.

Record ApiKeyFormData := mkPayload {
  p_name : list N;
  p_remain_quota : spec_float;
  p_expired_time : spec_float;
  p_unlimited_quota : bool;
  p_model_limits_enabled : bool;
  p_model_limits : list N;
  p_allow_ips : list N;
  p_group : list N;
  p_auto_groups : list (list N);
  p_cross_group_retry : bool }.

Definition AUTO : list N := js "auto".
Definition DEFAULT_GROUP : list N := [].

(** [Number.isInteger(max) && max > 0 ? max : 5], on whole numbers. *)
Definition auto_group_limit (maxAutoGroups : Z) : Z := if (0 <? maxAutoGroups)%Z then maxAutoGroups else 5%Z.

(** The rules [superRefine] adds for the group [auto]. *)
Definition auto_groups_valid (limit : Z) (data : ApiKeyFormValues) : bool :=
  if bool_decide (group data = Some AUTO)
  then negb (bool_decide (auto_groups_mode data = CustomGroups) && bool_decide (auto_groups data = [])) &&
       negb (limit <? Z.of_nat (length (auto_groups data)))%Z &&
       bool_decide (NoDup (auto_groups data))
  else true.

Definition quota_valid (data : ApiKeyFormValues) : bool :=
  unlimited_quota data ||
  match remain_quota_dollars data with None => false | Some q => negb (num_ltb q num_zero) end.

(** [getApiKeyFormSchema]: does the form pass.  [z.number()] takes finite numbers only. *)
Definition form_valid (maxAutoGroups : Z) (data : ApiKeyFormValues) : bool :=
  nonempty (name data) &&
  match remain_quota_dollars data with None => true | Some q => is_finite q end &&
  match tokenCount data with None => true | Some n => (1 <=? n)%Z end &&
  auto_groups_valid (auto_group_limit maxAutoGroups) data &&
  quota_valid data.

Definition API_KEY_FORM_DEFAULT_VALUES : ApiKeyFormValues :=
  mkValues [] (Some (num_of_Z 10)) None true [] (Some []) (Some DEFAULT_GROUP) Inherit [] (Some true) (Some 1%Z).

Definition getApiKeyFormDefaultValues (defaultUseAutoGroup : bool) : ApiKeyFormValues :=
  mkValues [] (Some (num_of_Z 10)) None true [] (Some [])
    (Some (if defaultUseAutoGroup then AUTO else DEFAULT_GROUP)) Inherit [] (Some defaultUseAutoGroup) (Some 1%Z).

(** ** Dates *)

(** The time value of [new Date(t)]: not a number outside the range of dates, the integer
    part inside it. *)
Definition time_clip (t : spec_float) : spec_float :=
  if num_leb (num_abs t) (num_of_Z 8640000000000000)
  then if num_ltb t num_zero then num_ceil t else num_floor t
  else S754_nan.

Definition date_of_seconds (s : spec_float) : spec_float := time_clip (num_mul s (num_of_Z 1000)).
Definition seconds_of_date (t : spec_float) : spec_float := num_floor (num_div t (num_of_Z 1000)).

(** ** To the server and back *)

Definition transformFormDataToPayload (currency : option CurrencyConfig) (data : ApiKeyFormValues) : ApiKeyFormData :=
  let auto := bool_decide (group data = Some AUTO) in
  mkPayload (name data)
    (if unlimited_quota data then num_zero
     else parseQuotaFromDollars currency (match remain_quota_dollars data with Some q => or_zero q | None => num_zero end))
    (match expired_time data with Some t => seconds_of_date t | None => num_of_Z (-1) end)
    (unlimited_quota data)
    (negb (bool_decide (model_limits data = [])))
    (join (js ",") (model_limits data))
    (default [] (allow_ips data))
    (default [] (group data))
    (if auto && bool_decide (auto_groups_mode data = CustomGroups) then auto_groups data else [])
    (if auto then default false (cross_group_retry data) else false).

Definition transformApiKeyToFormDefaults (currency : option CurrencyConfig) (apiKey : ApiKey)
    (availableAutoGroups : list (list N)) (maxAutoGroups : Z) : ApiKeyFormValues :=
  let storedAutoGroups := default [] (k_auto_groups apiKey) in
  let autoGroups := take (Z.to_nat (Z.max 0 maxAutoGroups)) (filter (fun g => g ∈ availableAutoGroups) storedAutoGroups) in
  mkValues (k_name apiKey)
    (Some (if k_unlimited_quota apiKey then num_zero else quotaUnitsToDollars currency (k_remain_quota apiKey)))
    (if num_ltb num_zero (k_expired_time apiKey) then Some (date_of_seconds (k_expired_time apiKey)) else None)
    (k_unlimited_quota apiKey)
    (let limits := default [] (k_model_limits apiKey) in
     if nonempty limits then filter (fun s => nonempty s = true) (split_on 44%N limits) else [])
    (Some (default [] (k_allow_ips apiKey)))
    (Some (or_else (default [] (k_group apiKey)) DEFAULT_GROUP))
    (if decide (storedAutoGroups = []) then Inherit else CustomGroups)
    autoGroups
    (Some (k_cross_group_retry apiKey))
    (Some 1%Z).

(** The payload that leaves a stored key as it is. *)
Definition stored_payload (key : ApiKey) : ApiKeyFormData :=
  mkPayload (k_name key)
    (if k_unlimited_quota key then num_zero else k_remain_quota key)
    (k_expired_time key) (k_unlimited_quota key) (k_model_limits_enabled key)
    (default [] (k_model_limits key)) (default [] (k_allow_ips key)) (default [] (k_group key))
    (default [] (k_auto_groups key)) (k_cross_group_retry key).

(** What a key saved by this form looks like: a whole quota, a whole expiry in the future of
    1970 or [-1], limits that are names joined by commas and enabled exactly when there is
    one, and Auto settings only on keys of the group [auto]. *)
Record saved_key (maxAutoGroups : Z) (availableAutoGroups : list (list N)) (key : ApiKey) : Prop := mkSaved {
  saved_quota : k_unlimited_quota key = true \/ exists u, (0 <= u < 2 ^ 49)%Z /\ k_remain_quota key = num_of_Z u;
  saved_expiry : exists s, (s = -1 \/ 0 < s < 2 ^ 42)%Z /\ k_expired_time key = num_of_Z s;
  saved_limits : exists names, Forall (fun s => nonempty s = true /\ 44%N ∉ s) names /\
                   default [] (k_model_limits key) = join (js ",") names /\
                   k_model_limits_enabled key = negb (bool_decide (names = []));
  saved_auto : default [] (k_group key) = AUTO \/
                 (default [] (k_auto_groups key) = [] /\ k_cross_group_retry key = false);
  saved_available : Forall (fun g => g ∈ availableAutoGroups) (default [] (k_auto_groups key));
  saved_count : (Z.of_nat (length (default [] (k_auto_groups key))) <= maxAutoGroups)%Z }.

(** ** Proofs *)

Lemma whole_floor v : (0 < v < 2 ^ 52)%Z -> num_floor (num_of_Z v) = num_of_Z v.
Proof.
  intros Hv. destruct (num_of_Z_normal v) as (k & [E _] & K); [unfold MAX_SAFE; lia|].
  assert (0 <= Z.log2 v < 52)%Z as Hl by (split; [apply Z.log2_nonneg|apply Z.log2_lt_pow2; lia]).
  rewrite E at 1. unfold num_floor. rewrite (proj2 (Z.leb_gt _ _)) by lia. cbn [signed_mantissa]. rewrite K.
  replace (- (Z.log2 v - 52))%Z with (52 - Z.log2 v)%Z by lia. rewrite Z.div_mul by (apply Z.pow_nonzero; lia).
  unfold num_of_int. by rewrite (proj2 (Z.eqb_neq _ _)) by lia.
Qed.

Lemma time_clip_whole v : (0 < v < 2 ^ 52)%Z -> time_clip (num_of_Z v) = num_of_Z v.
Proof.
  intros Hv. rewrite <- (whole_floor v Hv) at 2. destruct (num_of_Z_normal v) as (k & [E _] & K); [unfold MAX_SAFE; lia|].
  assert (Z.log2 v < 52)%Z as Hl by (apply Z.log2_lt_pow2; lia). rewrite E. unfold time_clip.
  replace (num_of_Z 8640000000000000) with (S754_finite false 8640000000000000 0) by (vm_compute; reflexivity).
  assert (num_leb (num_abs (S754_finite false k (Z.log2 v - 52))) (S754_finite false 8640000000000000 0) = true) as ->; [|done].
  unfold num_leb, SFleb, SFcompare, num_abs, SFabs. by rewrite (proj2 (Z.compare_lt_iff _ _)) by lia.
Qed.

Lemma expiry_read s : (0 < s < 2 ^ 42)%Z ->
  num_ltb num_zero (num_of_Z s) = true /\ seconds_of_date (date_of_seconds (num_of_Z s)) = num_of_Z s.
Proof.
  intros Hs. destruct (num_of_Z_normal s) as (k & N & _); [unfold MAX_SAFE; lia|].
  split; [by eapply normal_positive|]. unfold date_of_seconds, seconds_of_date.
  rewrite num_of_Z_mul by (unfold MAX_SAFE; lia). rewrite time_clip_whole by lia.
  rewrite num_of_Z_div by (unfold MAX_SAFE; lia). apply whole_floor. lia.
Qed.

Lemma limits_read names : Forall (fun s => nonempty s = true /\ 44%N ∉ s) names ->
  let limits := join (js ",") names in
  (if nonempty limits then filter (fun s => nonempty s = true) (split_on 44%N limits) else []) = names.
Proof.
  intros H. cbn zeta. destruct names as [|n names]; [done|].
  assert (nonempty (join (js ",") (n :: names)) = true) as ->.
  { inv H. destruct n; [naive_solver|]. by destruct names. }
  change (js ",") with [44%N]. rewrite split_on_join; [|done|].
  - assert (forall l : list (list N), Forall (fun s => nonempty s = true /\ 44%N ∉ s) l -> filter (fun s => nonempty s = true) l = l) as Hf; [|by apply Hf].
    induction l as [|a l IH]; [done|]. intros Hl. inv Hl. rewrite filter_cons_True by tauto. by rewrite IH.
  - eapply Forall_impl; [exact H|]. naive_solver.
Qed.

Lemma stored_groups_kept (maxAutoGroups : Z) (availableAutoGroups groups : list (list N)) :
  Forall (fun g => g ∈ availableAutoGroups) groups -> (Z.of_nat (length groups) <= maxAutoGroups)%Z ->
  take (Z.to_nat (Z.max 0 maxAutoGroups)) (filter (fun g => g ∈ availableAutoGroups) groups) = groups.
Proof.
  intros Ha Hl. replace (filter _ groups) with groups.
  - apply take_ge. lia.
  - clear Hl. induction Ha as [|g gs Hg _ IH]; [done|]. rewrite filter_cons_True by done. by rewrite <- IH.
Qed.

Lemma quota_kept currency key :
  ordinary (quotaPerUnit (getCurrencyDisplay currency).1) = true ->
  ordinary (exchangeRate (getCurrencyDisplay currency).2) = true ->
  k_unlimited_quota key = true \/ (exists u, (0 <= u < 2 ^ 49)%Z /\ k_remain_quota key = num_of_Z u) ->
  (if k_unlimited_quota key then num_zero
   else parseQuotaFromDollars currency (or_zero (if k_unlimited_quota key then num_zero else quotaUnitsToDollars currency (k_remain_quota key)))) =
  (if k_unlimited_quota key then num_zero else k_remain_quota key).
Proof.
  intros Hq Hr H. destruct (k_unlimited_quota key); [done|]. destruct H as [|(u & Hu & ->)]; [done|].
  destruct (quota_read_back currency u Hq Hr Hu) as [(_ & -> & _) ->]. done.
Qed.


(** ** The order of the Auto groups (auto-group-order-editor.tsx) *)

Inductive WarningMode := Modal | Banner | InlineWarning.

#[global] Instance WarningMode_eq_dec : EqDecision WarningMode.
Proof. solve_decision. Defined.

Record Warning := mkWarning { w_enabled : bool; w_message : list N; w_mode : WarningMode; w_confirmations : Z }.

Record GroupOption := mkOption { o_value : list N; o_warning : option Warning }.

Inductive Direction := Up | Down.

Definition atLimit (maxCount : Z) (value : list (list N)) : bool := (auto_group_limit maxCount <=? Z.of_nat (length value))%Z.

Definition candidates (options : list GroupOption) (value : list (list N)) : list GroupOption :=
  filter (fun o => o_value o <> AUTO /\ o_value o ∉ value) options.

(** The handlers: the groups and the mode passed to [onChange], or nothing. *)
Definition handleAdd (maxCount : Z) (value : list (list N)) (g : list N) : option (list (list N) * GroupsMode) :=
  if atLimit maxCount value || bool_decide (g ∈ value) then None else Some (value ++ [g], CustomGroups).

Definition handleRemove (value : list (list N)) (g : list N) : option (list (list N) * GroupsMode) :=
  Some (filter (fun item => item <> g) value, CustomGroups).

Definition handleMove (value : list (list N)) (index : nat) (direction : Direction) : option (list (list N) * GroupsMode) :=
  targetIndex ← match direction with Up => match index with O => None | S i => Some i end | Down => Some (S index) end;
  a ← value !! index; b ← value !! targetIndex;
  Some (<[targetIndex := a]> (<[index := b]> value), CustomGroups).

Definition handleRestore (mode : GroupsMode) : option (list (list N) * GroupsMode) :=
  if decide (mode = Inherit) then None else Some ([], Inherit).

(** What the user does; a drag gives the same groups in another order, and the list to add
    from holds the candidates only. *)
Inductive AutoEdit :=
| AAdd (g : list N) | ARemove (g : list N) | AMove (index : nat) (direction : Direction) | ARestore | ADrag (order : list (list N)).

Definition auto_edit (options : list GroupOption) (maxCount : Z) (value : list (list N)) (mode : GroupsMode) (e : AutoEdit)
    : option (list (list N) * GroupsMode) :=
  match e with
  | AAdd g => if bool_decide (g ∈ map o_value (candidates options value)) then handleAdd maxCount value g else None
  | ARemove g => handleRemove value g
  | AMove i d => handleMove value i d
  | ARestore => handleRestore mode
  | ADrag order => if decide (order ≡ₚ value) then Some (order, CustomGroups) else None
  end.

Record order_ok (options : list GroupOption) (maxCount : Z) (value : list (list N)) : Prop := mkOrder {
  order_nodup : NoDup value;
  order_count : (Z.of_nat (length value) <= auto_group_limit maxCount)%Z;
  order_known : Forall (fun g => g <> AUTO /\ g ∈ map o_value options) value }.

Lemma order_perm options maxCount value value' : value' ≡ₚ value -> order_ok options maxCount value -> order_ok options maxCount value'.
Proof. intros Hp [H1 H2 H3]. split; by rewrite Hp. Qed.

(** Exchanging two places keeps the list up to order. *)
Lemma swap_perm {A} (l : list A) i j a b : l !! i = Some a -> l !! j = Some b -> <[j := a]> (<[i := b]> l) ≡ₚ l.
Proof.
  revert i j. induction l as [|x l IH]; intros i j Hi Hj; [done|]. destruct i as [|i], j as [|j]; simpl in *; simplify_eq; [done| | |].
  - clear IH. revert j Hj. induction l as [|y l IH]; intros j Hj; [done|]. destruct j as [|j]; simpl in *; simplify_eq; [constructor|].
    rewrite perm_swap, (IH j Hj). constructor.
  - clear IH. revert i Hi. induction l as [|y l IH]; intros i Hi; [done|]. destruct i as [|i]; simpl in *; simplify_eq; [constructor|].
    rewrite perm_swap, (IH i Hi). constructor.
  - by rewrite (IH i j Hi Hj).
Qed.

(** One edit. *)
Lemma auto_edit_kept options maxCount value mode e value' mode' :
  order_ok options maxCount value -> auto_edit options maxCount value mode e = Some (value', mode') -> order_ok options maxCount value'.
Proof.
  intros Hok. destruct e as [g|g|i d| |order]; simpl.
  - destruct (bool_decide_reflect (g ∈ map o_value (candidates options value))) as [Hg|]; [|done].
    unfold handleAdd. destruct (atLimit maxCount value) eqn:El; [done|].
    destruct (bool_decide_reflect (g ∈ value)) as [|Hn]; [done|]. cbn. intros [= <- <-]. destruct Hok as [H1 H2 H3].
    unfold candidates in Hg. apply list_elem_of_fmap in Hg as (o & -> & [Ho Hin]%list_elem_of_filter).
    apply Z.leb_gt in El. split.
    + apply NoDup_app. split_and!; [done|set_solver|apply NoDup_singleton].
    + rewrite length_app. simpl. lia.
    + apply Forall_app. split; [done|]. constructor; [|done]. split; [tauto|]. by apply list_elem_of_fmap_2.
  - intros [= <- <-]. destruct Hok as [H1 H2 H3]. split; [by apply NoDup_filter| |].
    + pose proof (length_filter (fun item : list N => item <> g) value). lia.
    + rewrite Forall_forall in *. intros x [_ Hx]%list_elem_of_filter. by apply H3.
  - unfold handleMove. destruct (match d with Up => _ | Down => _ end) as [t|]; [|done]. cbn.
    destruct (value !! i) as [a|] eqn:Ea; [|done]. cbn. destruct (value !! t) as [b|] eqn:Eb; [|done]. cbn.
    intros [= <- <-]. eapply order_perm; [by apply swap_perm|done].
  - unfold handleRestore. destruct (decide _); [done|]. intros [= <- <-]. split; [constructor| |constructor].
    unfold auto_group_limit. simpl. destruct (Z.ltb_spec 0 maxCount); lia.
  - destruct (decide _) as [Hp|]; [|done]. intros [= <- <-]. by eapply order_perm.
Qed.

(** ** The drawer (api-keys-mutate-drawer.tsx) *)

Inductive Target := Create | Update (id : Z).

#[global] Instance Target_eq_dec : EqDecision Target.
Proof. solve_decision. Defined.

(** What the component is given, what its queries hold and its own state.  [defaults] are the
    values [form.reset()] goes back to and [seenGroup] the group its effect last ran for. *)
Record Drawer := mkDrawer {
  isOpen : bool;
  currentRow : option Z;
  groups : list GroupOption;
  groupsReady : bool;
  maxAutoGroups : Z;
  autoReady : bool;
  apiKeyData : option ApiKey;
  apiKeyReady : bool;
  statusReady : bool;
  defaultUseAutoGroup : bool;
  initializedTarget : option Target;
  values : ApiKeyFormValues;
  defaults : ApiKeyFormValues;
  warningConfirmations : Z;
  warningOpen : bool;
  seenGroup : option (list N) }.

Definition set_form (v : ApiKeyFormValues) (d : Drawer) : Drawer :=
  mkDrawer (isOpen d) (currentRow d) (groups d) (groupsReady d) (maxAutoGroups d) (autoReady d) (apiKeyData d) (apiKeyReady d)
    (statusReady d) (defaultUseAutoGroup d) (initializedTarget d) v (defaults d) (warningConfirmations d) (warningOpen d) (seenGroup d).

(** [form.reset(v)]. *)
Definition reset_form (v : ApiKeyFormValues) (t : Target) (d : Drawer) : Drawer :=
  mkDrawer (isOpen d) (currentRow d) (groups d) (groupsReady d) (maxAutoGroups d) (autoReady d) (apiKeyData d) (apiKeyReady d)
    (statusReady d) (defaultUseAutoGroup d) (Some t) v v (warningConfirmations d) (warningOpen d) (seenGroup d).

Definition set_target (t : option Target) (d : Drawer) : Drawer :=
  mkDrawer (isOpen d) (currentRow d) (groups d) (groupsReady d) (maxAutoGroups d) (autoReady d) (apiKeyData d) (apiKeyReady d)
    (statusReady d) (defaultUseAutoGroup d) t (values d) (defaults d) (warningConfirmations d) (warningOpen d) (seenGroup d).

Definition set_warning (n : Z) (o : bool) (d : Drawer) : Drawer :=
  mkDrawer (isOpen d) (currentRow d) (groups d) (groupsReady d) (maxAutoGroups d) (autoReady d) (apiKeyData d) (apiKeyReady d)
    (statusReady d) (defaultUseAutoGroup d) (initializedTarget d) (values d) (defaults d) n o (seenGroup d).

Definition set_seen (g : option (list N)) (d : Drawer) : Drawer :=
  mkDrawer (isOpen d) (currentRow d) (groups d) (groupsReady d) (maxAutoGroups d) (autoReady d) (apiKeyData d) (apiKeyReady d)
    (statusReady d) (defaultUseAutoGroup d) (initializedTarget d) (values d) (defaults d) (warningConfirmations d) (warningOpen d) g.

(** The provider opens the drawer for a key or a new one: the queries start again, and those
    of the groups keep what they had meanwhile. *)
Definition open_drawer (row : option Z) (d : Drawer) : Drawer :=
  mkDrawer true row (groups d) false (maxAutoGroups d) false None false
    (statusReady d) (defaultUseAutoGroup d) (initializedTarget d) (values d) (defaults d) (warningConfirmations d) (warningOpen d) (seenGroup d).

(** [onOpenChange(false)]. *)
Definition close_drawer (d : Drawer) : Drawer :=
  mkDrawer false None (groups d) (groupsReady d) (maxAutoGroups d) (autoReady d) None false
    (statusReady d) (defaultUseAutoGroup d) (initializedTarget d) (values d) (defaults d) (warningConfirmations d) (warningOpen d) (seenGroup d).

Definition set_group (g : list N) (v : ApiKeyFormValues) : ApiKeyFormValues :=
  mkValues (name v) (remain_quota_dollars v) (expired_time v) (unlimited_quota v) (model_limits v) (allow_ips v) (Some g)
    (auto_groups_mode v) (auto_groups v) (cross_group_retry v) (tokenCount v).

Definition set_auto (m : GroupsMode) (gs : list (list N)) (v : ApiKeyFormValues) : ApiKeyFormValues :=
  mkValues (name v) (remain_quota_dollars v) (expired_time v) (unlimited_quota v) (model_limits v) (allow_ips v) (group v)
    m gs (cross_group_retry v) (tokenCount v).

Definition set_retry (b : bool) (v : ApiKeyFormValues) : ApiKeyFormValues :=
  mkValues (name v) (remain_quota_dollars v) (expired_time v) (unlimited_quota v) (model_limits v) (allow_ips v) (group v)
    (auto_groups_mode v) (auto_groups v) (Some b) (tokenCount v).

Definition availableAutoGroupNames (gs : list GroupOption) : list (list N) :=
  filter (fun v => v <> AUTO) (map o_value gs).

Definition formTarget (d : Drawer) : Target := match currentRow d with Some id => Update id | None => Create end.

Definition isFormInitialized (d : Drawer) : bool := bool_decide (initializedTarget d = Some (formTarget d)).

Section Drawer.
Variable currency : option CurrencyConfig.
Variable toLowerCase : list N -> list N.

(** The effect that fills the form. *)
Definition load_effect (d : Drawer) : Drawer :=
  if negb (isOpen d) then set_target None d
  else if negb (groupsReady d && autoReady d) then d
  else if match currentRow d with Some _ => negb (apiKeyReady d) | None => negb (statusReady d) end then d
  else if isFormInitialized d then d
  else
    match currentRow d with
    | Some id =>
        match apiKeyData d with
        | Some key =>
            reset_form (transformApiKeyToFormDefaults currency key (availableAutoGroupNames (groups d)) (maxAutoGroups d)) (Update id) d
        | None => d
        end
    | None =>
        let backendHasAuto := bool_decide (AUTO ∈ map o_value (groups d)) in
        reset_form (getApiKeyFormDefaultValues (defaultUseAutoGroup d && backendHasAuto)) Create d
    end.

Definition fallback_group (gs : list GroupOption) : list N :=
  if bool_decide (js "default" ∈ map o_value gs) then js "default"
  else match gs with o :: _ => o_value o | [] => [] end.

(** The effect that corrects a group that is not offered; it sees the group of the render. *)
Definition correct_effect (selectedGroup : option (list N)) (d : Drawer) : Drawer :=
  let currentGroup := default [] selectedGroup in
  match groups d with
  | [] => d
  | gs =>
      if nonempty currentGroup && negb (bool_decide (currentGroup ∈ map o_value gs))
      then let v := set_group (fallback_group gs) (values d) in
           set_form (if bool_decide (currentGroup = AUTO) then set_retry false (set_auto Inherit [] v) else v) d
      else d
  end.

(** The effect on a change of the group. *)
Definition warning_effect (selectedGroup : option (list N)) (d : Drawer) : Drawer :=
  if bool_decide (selectedGroup = seenGroup d) then d else set_seen selectedGroup (set_warning 0 false d).

(** The effects of one render. *)
Definition round (d : Drawer) : Drawer :=
  let selectedGroup := group (values d) in
  warning_effect selectedGroup (correct_effect selectedGroup (load_effect d)).

Definition settle (d : Drawer) : Drawer := round (round (round d)).

Definition selectedGroupWarning (d : Drawer) : option Warning :=
  o ← head (filter (fun o => toLowerCase (o_value o) = toLowerCase (trim (default [] (group (values d))))) (groups d)); o_warning o.

Definition warningConfirmationsRequired (d : Drawer) : Z :=
  let c := match selectedGroupWarning d with Some w => w_confirmations w | None => 0%Z end in
  Z.min 3 (Z.max 1 (if (c =? 0)%Z then 1 else c)).

Definition warning_enabled (d : Drawer) : bool :=
  match selectedGroupWarning d with Some w => w_enabled w | None => false end.

(** ** Requests *)

Inductive Answer := Accepted | Refused | Thrown.

Inductive Output :=
| PutKey (id : Z) (payload : ApiKeyFormData) (confirmations : Z)
| PostKey (key_name : list N) (payload : ApiKeyFormData) (confirmations : Z)
| Updated | UpdateFailed | Created (count : nat) | CreateFailed | Unexpected | FixFields.

(** The loop that creates [count] keys: the requests, how many were accepted and whether one
    threw.  [suffix i] is the random text and [answer i] what the server says. *)
Fixpoint create_keys (suffix : nat -> list N) (answer : nat -> Answer) (data : ApiKeyFormValues) (payload : ApiKeyFormData)
    (conf : Z) (count i : nat) : list Output * nat * bool :=
  match count with
  | O => ([], O, false)
  | S n =>
      let key_name := if (i =? 0)%nat && nonempty (name data) then name data else or_else (name data) (js "default") ++ js "-" ++ suffix i in
      let request := PostKey key_name payload conf in
      match answer i with
      | Accepted => let '(out, k, t) := create_keys suffix answer data payload conf n (S i) in (request :: out, S k, t)
      | Refused => ([request; CreateFailed], O, false)
      | Thrown => ([request], O, true)
      end
  end.

Definition key_count (data : ApiKeyFormValues) : nat :=
  match tokenCount data with Some n => if (n =? 0)%Z then 1%nat else Z.to_nat n | None => 1%nat end.

Definition saveApiKey (suffix : nat -> list N) (answer : nat -> Answer) (data : ApiKeyFormValues) (confirmedWarningCount : Z) (d : Drawer)
    : Drawer * list Output :=
  if warning_enabled d && negb (confirmedWarningCount =? warningConfirmationsRequired d)%Z then (d, [])
  else
    let basePayload := transformFormDataToPayload currency data in
    match currentRow d with
    | Some id =>
        let request := PutKey id basePayload confirmedWarningCount in
        match answer 0%nat with
        | Accepted => (close_drawer d, [request; Updated])
        | Refused => (d, [request; UpdateFailed])
        | Thrown => (d, [request; Unexpected])
        end
    | None =>
        let '(out, k, t) := create_keys suffix answer data basePayload confirmedWarningCount (key_count data) 0 in
        if t then (d, out ++ [Unexpected])
        else if (0 <? k)%nat then (close_drawer d, out ++ [Created k])
        else (d, out)
    end.

(** [form.handleSubmit(onSubmit, onInvalid)]. *)
Definition submit (suffix : nat -> list N) (answer : nat -> Answer) (d : Drawer) : Drawer * list Output :=
  if form_valid (maxAutoGroups d) (values d)
  then if warning_enabled d && negb (warningConfirmations d =? warningConfirmationsRequired d)%Z
       then (set_warning (warningConfirmations d) true d, [])
       else saveApiKey suffix answer (values d) (warningConfirmations d) d
  else (d, [FixFields]).

Definition confirmWarning (suffix : nat -> list N) (answer : nat -> Answer) (d : Drawer) : Drawer * list Output :=
  let next := (warningConfirmations d + 1)%Z in
  if (warningConfirmationsRequired d <=? next)%Z
  then saveApiKey suffix answer (values d) next (set_warning next false d)
  else (set_warning next (warningOpen d) d, []).

(** ** Events *)

Inductive FieldEdit :=
| FName (s : list N) | FQuota (parsed : spec_float) | FUnlimited (b : bool) | FExpiry (date : option spec_float)
| FLimits (names : list (list N)) | FIps (s : list N) | FGroup (g : list N) | FRetry (b : bool) | FAuto (e : AutoEdit) | FCount (parsed : Z).

(** The fields' [onChange]. *)
Definition edit_field (d : Drawer) (e : FieldEdit) : ApiKeyFormValues :=
  let v := values d in
  match e with
  | FName s => mkValues s (remain_quota_dollars v) (expired_time v) (unlimited_quota v) (model_limits v) (allow_ips v) (group v)
                 (auto_groups_mode v) (auto_groups v) (cross_group_retry v) (tokenCount v)
  | FQuota x => mkValues (name v) (Some (or_zero x)) (expired_time v) (unlimited_quota v) (model_limits v) (allow_ips v) (group v)
                 (auto_groups_mode v) (auto_groups v) (cross_group_retry v) (tokenCount v)
  | FUnlimited b => mkValues (name v) (remain_quota_dollars v) (expired_time v) b (model_limits v) (allow_ips v) (group v)
                 (auto_groups_mode v) (auto_groups v) (cross_group_retry v) (tokenCount v)
  | FExpiry t => mkValues (name v) (remain_quota_dollars v) t (unlimited_quota v) (model_limits v) (allow_ips v) (group v)
                 (auto_groups_mode v) (auto_groups v) (cross_group_retry v) (tokenCount v)
  | FLimits ms => mkValues (name v) (remain_quota_dollars v) (expired_time v) (unlimited_quota v) ms (allow_ips v) (group v)
                 (auto_groups_mode v) (auto_groups v) (cross_group_retry v) (tokenCount v)
  | FIps s => mkValues (name v) (remain_quota_dollars v) (expired_time v) (unlimited_quota v) (model_limits v) (Some s) (group v)
                 (auto_groups_mode v) (auto_groups v) (cross_group_retry v) (tokenCount v)
  | FGroup g => set_retry (bool_decide (g = AUTO)) (set_group g v)
  | FRetry b => set_retry b v
  | FAuto a =>
      match auto_edit (groups d) (maxAutoGroups d) (auto_groups v) (auto_groups_mode v) a with
      | Some (gs, m) => set_auto m (take (Z.to_nat (maxAutoGroups d)) gs) v
      | None => v
      end
  | FCount n => mkValues (name v) (remain_quota_dollars v) (expired_time v) (unlimited_quota v) (model_limits v) (allow_ips v) (group v)
                 (auto_groups_mode v) (auto_groups v) (cross_group_retry v) (Some (if (n =? 0)%Z then 1%Z else n))
  end.

Inductive Event :=
| EOpen (row : option Z) | ESheetClose
| EGroups (gs : list GroupOption) | EAutoGroups (max_count : Z) | EKey (key : option ApiKey) | EStatus (use_auto : bool)
| EEdit (e : FieldEdit) | ESubmit (suffix : nat -> list N) (answer : nat -> Answer)
| EConfirm (suffix : nat -> list N) (answer : nat -> Answer) | EWarningClose.

(** The button that confirms the warning is shown. *)
Definition confirm_shown (d : Drawer) : bool :=
  isOpen d && warningOpen d &&
  match selectedGroupWarning d with
  | Some w => bool_decide (w_mode w = Modal) || w_enabled w && isFormInitialized d
  | None => false
  end.

Definition handle (d : Drawer) (e : Event) : Drawer * list Output :=
  match e with
  | EOpen row => if isOpen d then (d, []) else (open_drawer row d, [])
  | ESheetClose => if isOpen d then (set_form (defaults d) (close_drawer d), []) else (d, [])
  | EGroups gs =>
      (mkDrawer (isOpen d) (currentRow d) gs true (maxAutoGroups d) (autoReady d) (apiKeyData d) (apiKeyReady d) (statusReady d)
         (defaultUseAutoGroup d) (initializedTarget d) (values d) (defaults d) (warningConfirmations d) (warningOpen d) (seenGroup d), [])
  | EAutoGroups n =>
      (mkDrawer (isOpen d) (currentRow d) (groups d) (groupsReady d) (auto_group_limit n) true (apiKeyData d) (apiKeyReady d) (statusReady d)
         (defaultUseAutoGroup d) (initializedTarget d) (values d) (defaults d) (warningConfirmations d) (warningOpen d) (seenGroup d), [])
  | EKey key =>
      (mkDrawer (isOpen d) (currentRow d) (groups d) (groupsReady d) (maxAutoGroups d) (autoReady d) key true (statusReady d)
         (defaultUseAutoGroup d) (initializedTarget d) (values d) (defaults d) (warningConfirmations d) (warningOpen d) (seenGroup d), [])
  | EStatus b =>
      (mkDrawer (isOpen d) (currentRow d) (groups d) (groupsReady d) (maxAutoGroups d) (autoReady d) (apiKeyData d) (apiKeyReady d) true
         b (initializedTarget d) (values d) (defaults d) (warningConfirmations d) (warningOpen d) (seenGroup d), [])
  | EEdit f => if isOpen d && isFormInitialized d then (set_form (edit_field d f) d, []) else (d, [])
  | ESubmit s a => if isOpen d && isFormInitialized d then submit s a d else (d, [])
  | EConfirm s a => if confirm_shown d then confirmWarning s a d else (d, [])
  | EWarningClose => (set_warning (warningConfirmations d) false d, [])
  end.

Definition step (d : Drawer) (e : Event) : Drawer * list Output := let '(d', out) := handle d e in (settle d', out).

(** The component is mounted closed; [status] is the cached status, if there is one. *)
Definition mount (status : option bool) : Drawer :=
  let use_auto := default false status in
  settle (mkDrawer false None [] false 5 false None false (bool_decide (is_Some status)) use_auto None
            (getApiKeyFormDefaultValues use_auto) (getApiKeyFormDefaultValues use_auto) 0 false None).

Definition run (d : Drawer) (es : list Event) : Drawer := foldl (fun d e => (step d e).1) d es.

(** ** The effects settle *)

(** The loading effect has nothing to do. *)
Definition idle (d : Drawer) : bool :=
  if isOpen d
  then negb (groupsReady d && autoReady d) ||
       match currentRow d with
       | Some _ => negb (apiKeyReady d) || bool_decide (apiKeyData d = None)
       | None => negb (statusReady d)
       end || isFormInitialized d
  else bool_decide (initializedTarget d = None).

Lemma idle_load d : idle d = true -> load_effect d = d.
Proof.
  unfold idle, load_effect. destruct d as [op row gs gr mx ar kd kr sr du tg vs df wc wo sg]. cbn.
  destruct op; cbn; [|by intros ->%bool_decide_eq_true].
  destruct (gr && ar); cbn; [|done]. destruct (isFormInitialized _) eqn:Ei; cbn; [by destruct row, kr, sr|].
  destruct row; [destruct kr|destruct sr]; cbn; [|done..]. destruct (bool_decide_reflect (kd = None)) as [->|]; cbn; [done|].
  intros [=].
Qed.

Lemma load_idle d : idle (load_effect d) = true.
Proof.
  unfold load_effect. destruct (isOpen d) eqn:Eo; cbn; [|unfold idle; cbn; by rewrite Eo].
  destruct (groupsReady d && autoReady d) eqn:Er; cbn; [|unfold idle; by rewrite Eo, Er].
  destruct (match currentRow d with Some _ => negb (apiKeyReady d) | None => negb (statusReady d) end) eqn:Ek.
  { unfold idle. rewrite Eo. destruct (currentRow d); rewrite Ek; cbn; by rewrite ?orb_true_r. }
  destruct (isFormInitialized d) eqn:Ei; [unfold idle; rewrite Eo, Ei; by rewrite !orb_true_r|].
  destruct (currentRow d) as [id|] eqn:Ec; [destruct (apiKeyData d) eqn:Ed|].
  - unfold idle, isFormInitialized, formTarget. cbn. by rewrite Eo, Ec, (bool_decide_true (Some _ = _)), orb_true_r by done.
  - unfold idle. by rewrite Eo, Ec, Ed, (bool_decide_true (None = _)), !orb_true_r by done.
  - unfold idle, isFormInitialized, formTarget. cbn. by rewrite Eo, Ec, (bool_decide_true (Some _ = _)), orb_true_r by done.
Qed.

(** The group of the form is empty, or one that is offered, or none is offered yet. *)
Definition offered (gs : list GroupOption) (g : option (list N)) : Prop :=
  gs = [] \/ default [] g = [] \/ default [] g ∈ map o_value gs.

Lemma offered_correct d g : offered (groups d) g -> correct_effect g d = d.
Proof.
  unfold correct_effect. intros [E|[E|E]]; destruct (groups d) as [|o gs] eqn:Eg; try done; rewrite ?E; [done|].
  by rewrite (bool_decide_true _ E), andb_false_r.
Qed.

Lemma fallback_offered gs : offered gs (Some (fallback_group gs)).
Proof.
  unfold offered, fallback_group. destruct (bool_decide_reflect (js "default" ∈ map o_value gs)) as [|_]; [by right; right|].
  destruct gs as [|o gs]; [by left|]. right. right. simpl. left.
Qed.

Lemma correct_offered d g : offered (groups d) g \/ offered (groups (correct_effect g d)) (group (values (correct_effect g d))).
Proof.
  unfold correct_effect. destruct (groups d) as [|o gs] eqn:Eg; [left; by left|].
  destruct (nonempty (default [] g)) eqn:En; [|left; right; left; by destruct (default [] g)].
  destruct (bool_decide_reflect (default [] g ∈ map o_value (o :: gs))) as [H|_]; [left; by right; right|]. right. cbn [negb andb].
  destruct (bool_decide (default [] g = AUTO)); cbn [set_form groups values group set_group set_auto set_retry]; rewrite Eg; apply fallback_offered.
Qed.

Lemma correct_groups d g : groups (correct_effect g d) = groups d /\ idle (correct_effect g d) = idle d /\
  warningConfirmations (correct_effect g d) = warningConfirmations d /\ seenGroup (correct_effect g d) = seenGroup d.
Proof. unfold correct_effect. destruct (groups d) eqn:E; [done|]. destruct (_ && _); [|done]. by destruct (bool_decide _). Qed.

Lemma warning_groups d g : groups (warning_effect g d) = groups d /\ idle (warning_effect g d) = idle d /\ values (warning_effect g d) = values d.
Proof. unfold warning_effect. by destruct (bool_decide _). Qed.

Lemma warning_seen d g : seenGroup (warning_effect g d) = g.
Proof. unfold warning_effect. by destruct (bool_decide_reflect (g = seenGroup d)). Qed.

(** A drawer whose effects have nothing left to do. *)
Record quiet (d : Drawer) : Prop := mkQuiet {
  quiet_idle : idle d = true;
  quiet_offered : offered (groups d) (group (values d));
  quiet_seen : seenGroup d = group (values d) }.

Lemma quiet_round d : quiet d -> round d = d.
Proof.
  intros [H1 H2 H3]. unfold round. rewrite (idle_load d H1), (offered_correct d _ H2). unfold warning_effect.
  by rewrite H3, bool_decide_true.
Qed.

(** Three renders are enough: after them the effects change nothing. *)
Lemma settle_quiet d : quiet (settle d).
Proof.
  unfold settle. set (d1 := round d).
  assert (idle d1 = true) as H1.
  { subst d1. unfold round. rewrite (proj1 (proj2 (warning_groups _ _))), (proj1 (proj2 (correct_groups _ _))). apply load_idle. }
  clearbody d1. set (d2 := round d1).
  assert (idle d2 = true /\ offered (groups d2) (group (values d2))) as [H2 O2].
  { subst d2. unfold round. rewrite (idle_load d1 H1). set (g := group (values d1)).
    destruct (warning_groups (correct_effect g d1) g) as (-> & -> & ->). destruct (correct_groups d1 g) as (E1 & -> & _). split; [done|].
    destruct (correct_offered d1 g) as [O|O]; [|done]. by rewrite (offered_correct d1 g O). }
  clearbody d2. unfold round. rewrite (idle_load d2 H2), (offered_correct d2 _ O2). set (g := group (values d2)).
  destruct (warning_groups d2 g) as (E1 & E2 & E3). split; [by rewrite E2|by rewrite E1, E3|by rewrite warning_seen, E3].
Qed.

Lemma settle_quiet_same d : quiet d -> settle d = d.
Proof. intros H. unfold settle. by rewrite !(quiet_round d H). Qed.

Lemma run_quiet status es : quiet (run (mount status) es).
Proof.
  induction es as [|e es _] using rev_ind; [apply settle_quiet|]. unfold run. rewrite foldl_app. cbn [foldl]. unfold step.
  destruct (handle _ e). apply settle_quiet.
Qed.

(** ** Confirmations *)

(** The confirmations a request carries. *)
Definition request_confirmations (o : Output) : option Z :=
  match o with PutKey _ _ c | PostKey _ _ c => Some c | _ => None end.

(** How often the user has confirmed the warning of the group that is selected: a press of the
    button counts when it is shown, and a change of the group in the form starts from zero. *)
Definition press (d : Drawer) (e : Event) : Z :=
  match e with EConfirm _ _ => if confirm_shown d then 1%Z else 0%Z | _ => 0%Z end.

Definition tally (dn : Drawer * Z) (e : Event) : Drawer * Z :=
  let '(d, n) := dn in
  let d' := (step d e).1 in
  (d', if bool_decide (group (values d') = group (values d)) then (n + press d e)%Z else 0%Z).

Definition confirmed (status : option bool) (es : list Event) : Z := (foldl tally (mount status, 0%Z) es).2.

Lemma tally_run status es : (foldl tally (mount status, 0%Z) es).1 = run (mount status) es.
Proof.
  generalize (mount status) as d0. intros d0. induction es as [|e es IH] using rev_ind; [reflexivity|].
  unfold run in *. rewrite !foldl_app. cbn [foldl]. rewrite <- IH. by destruct (foldl tally _ es).
Qed.

Lemma confirmed_snoc status es e :
  let d := run (mount status) es in
  confirmed status (es ++ [e]) =
    if bool_decide (group (values (step d e).1) = group (values d)) then (confirmed status es + press d e)%Z else 0%Z.
Proof. cbn zeta. unfold confirmed. rewrite foldl_app. cbn [foldl]. rewrite <- (tally_run status es). by destruct (foldl tally _ es). Qed.

(** The effects of a render keep the count, or put it to zero and have seen another group. *)
Lemma round_confirmations d :
  (warningConfirmations (round d) = warningConfirmations d /\ seenGroup (round d) = seenGroup d) \/ warningConfirmations (round d) = 0%Z.
Proof.
  unfold round. unfold warning_effect. destruct (bool_decide _); [|by right]. left.
  rewrite (proj1 (proj2 (proj2 (correct_groups _ _)))), (proj2 (proj2 (proj2 (correct_groups _ _)))). unfold load_effect.
  repeat match goal with |- context [if ?b then _ else _] => destruct b; try done | |- context [match ?o with _ => _ end] => destruct o; try done end.
Qed.

Lemma settle_confirmations d :
  (warningConfirmations (settle d) = warningConfirmations d /\ seenGroup (settle d) = seenGroup d) \/ warningConfirmations (settle d) = 0%Z.
Proof.
  unfold settle. destruct (round_confirmations d) as [[E1 S1]|E1], (round_confirmations (round d)) as [[E2 S2]|E2],
    (round_confirmations (round (round d))) as [[E3 S3]|E3]; rewrite ?E3, ?S3, ?E2, ?S2, ?E1, ?S1; auto.
Qed.

(** Saving and the other handlers do not touch the group last seen. *)
Lemma save_seen suffix answer data conf d : seenGroup (saveApiKey suffix answer data conf d).1 = seenGroup d.
Proof.
  unfold saveApiKey. destruct (_ && _); [done|]. destruct (currentRow d); [by destruct (answer 0%nat)|].
  destruct (create_keys _ _ _ _ _ _ _) as [[out k] t]. destruct t; [done|]. by destruct (0 <? k)%nat.
Qed.

Lemma handle_seen d e : seenGroup (handle d e).1 = seenGroup d.
Proof.
  destruct e as [row| |gs|n|key|b|f|s a|s a|]; cbn [handle]; try done; try (by destruct (isOpen d)); try (by destruct (isOpen d && _)).
  - destruct (isOpen d && _); [|done]. unfold submit. destruct (form_valid _ _); [|done]. destruct (warning_enabled d && _); [done|]. apply save_seen.
  - destruct (confirm_shown d); [|done]. unfold confirmWarning. destruct (_ <=? _)%Z; [|done]. by rewrite save_seen.
Qed.

Lemma create_keys_confirmations suffix answer data payload conf : forall n i o c,
  o ∈ (create_keys suffix answer data payload conf n i).1.1 -> request_confirmations o = Some c -> c = conf.
Proof.
  induction n as [|n IH]; intros i o c; [set_solver|]. cbn [create_keys]. destruct (answer i).
  - specialize (IH (S i) o c). destruct (create_keys _ _ _ _ _ n (S i)) as [[out k] t]. cbn [fst] in *.
    rewrite elem_of_cons. intros [->|Ho]; [by intros [= <-]|by apply IH].
  - cbn [fst]. rewrite !elem_of_cons, elem_of_nil. intros [->|[->|[]]]; [by intros [= <-]|done].
  - cbn [fst]. rewrite elem_of_cons, elem_of_nil. intros [->|[]]. by intros [= <-].
Qed.

(** What saving does: it keeps the count, and its requests carry the count it was given. *)
Lemma save_confirmations suffix answer data conf d :
  warningConfirmations (saveApiKey suffix answer data conf d).1 = warningConfirmations d /\
  (forall o c, o ∈ (saveApiKey suffix answer data conf d).2 -> request_confirmations o = Some c ->
     c = conf /\ (warning_enabled d = true -> c = warningConfirmationsRequired d)).
Proof.
  unfold saveApiKey. destruct (warning_enabled d && _) eqn:Eg; [split; [done|set_solver]|].
  assert (warning_enabled d = true -> conf = warningConfirmationsRequired d) as Hc.
  { intros He. rewrite He in Eg. cbn in Eg. apply negb_false_iff, Z.eqb_eq in Eg. done. }
  destruct (currentRow d) as [id|].
  - assert (forall o r c, o ∈ [PutKey id (transformFormDataToPayload currency data) conf; r] -> request_confirmations r = None ->
      request_confirmations o = Some c -> c = conf) as Hr.
    { intros o r c. rewrite !elem_of_cons, elem_of_nil. intros [->|[->|[]]]; [by intros _ [= <-]|congruence]. }
    destruct (answer 0%nat); (split; [done|]); intros o c Ho Er; rewrite (Hr o _ c Ho eq_refl Er); auto.
  - pose proof (create_keys_confirmations suffix answer data (transformFormDataToPayload currency data) conf (key_count data) 0) as Hk.
    destruct (create_keys _ _ _ _ _ _ _) as [[out k] t]. cbn [fst] in Hk.
    assert (forall o r c, o ∈ out ++ r -> (forall o', o' ∈ r -> request_confirmations o' = None) ->
      request_confirmations o = Some c -> c = conf) as Hr.
    { intros o r c [Ho|Ho]%elem_of_app Hn Er; [by eapply Hk|]. rewrite (Hn o Ho) in Er. done. }
    destruct t; [|destruct (0 <? k)%nat]; (split; [done|]); intros o c Ho Er.
    + rewrite (Hr o _ c Ho) by (first [done|intros o' [->|[]%elem_of_nil]%elem_of_cons; done]). auto.
    + rewrite (Hr o _ c Ho) by (first [done|intros o' [->|[]%elem_of_nil]%elem_of_cons; done]). auto.
    + rewrite (Hk o c Ho Er). auto.
Qed.

Lemma handle_confirmations d e : (0 <= warningConfirmations d)%Z ->
  (0 <= warningConfirmations (handle d e).1 <= warningConfirmations d + press d e)%Z.
Proof.
  intros H. destruct e as [row| |gs|n|key|b|f|s a|s a|]; cbn [handle press];
    try (by cbn; lia); try (by destruct (isOpen d); cbn; lia); try (by destruct (isOpen d && _); cbn; lia).
  - destruct (isOpen d && _); [|cbn; lia]. unfold submit. destruct (form_valid _ _); [|cbn; lia].
    destruct (warning_enabled d && _); [cbn; lia|]. rewrite (proj1 (save_confirmations _ _ _ _ _)). lia.
  - destruct (confirm_shown d); [|cbn; lia]. unfold confirmWarning.
    destruct (_ <=? _)%Z; [rewrite (proj1 (save_confirmations _ _ _ _ _))|]; cbn [fst set_warning warningConfirmations]; lia.
Qed.

Lemma run_confirmations status es :
  (0 <= warningConfirmations (run (mount status) es) <= confirmed status es)%Z.
Proof.
  induction es as [|e es IH] using rev_ind.
  - unfold confirmed. cbn [foldl snd]. change (run (mount status) []) with (mount status). unfold mount.
    match goal with |- context [settle ?d] => destruct (settle_confirmations d) as [[E _]|E] end; rewrite E; cbn; lia.
  - rewrite confirmed_snoc. pose proof (run_quiet status es) as [_ _ Hq].
    assert (run (mount status) (es ++ [e]) = (step (run (mount status) es) e).1) as -> by (unfold run; by rewrite foldl_app).
    set (d := run (mount status) es) in *. clearbody d. pose proof (handle_confirmations d e ltac:(lia)) as Hh. pose proof (handle_seen d e) as Hs.
    unfold step. destruct (handle d e) as [d' out]. cbn [fst] in *. pose proof (settle_quiet d') as [_ _ Hq'].
    destruct (settle_confirmations d') as [[E1 E2]|E1]; rewrite E1.
    + rewrite bool_decide_eq_true_2 by congruence. lia.
    + assert (0 <= press d e)%Z by (unfold press; destruct e; try lia; destruct (confirm_shown d); lia). case_bool_decide; lia.
Qed.

(** C22: A request that creates or changes a key of a group with a warning carries exactly the
    number of confirmations the warning asks for, between one and three, and the user has
    pressed the button that confirms it at least that often since the group of the form was
    last changed (for an earlier key, if the group is the same); a request sent by the save
    button comes from a form that passes the schema. *)
Theorem warned_group_confirmed status es e o c :
  let d := run (mount status) es in
  o ∈ (step d e).2 -> request_confirmations o = Some c -> warning_enabled d = true ->
  c = warningConfirmationsRequired d /\ (1 <= c <= 3)%Z /\ (c <= confirmed status es + press d e)%Z /\
  (forall s a, e = ESubmit s a -> form_valid (maxAutoGroups d) (values d) = true).
Proof.
  cbn zeta. pose proof (run_confirmations status es) as Hrun. set (d := run (mount status) es) in *.
  assert (1 <= warningConfirmationsRequired d <= 3)%Z as H13 by (unfold warningConfirmationsRequired; lia).
  intros Ho Ec Hw. unfold step in Ho. assert (o ∈ (handle d e).2) as Ho' by (by destruct (handle d e)). clear Ho.
  destruct e as [row| |gs|n|key|b|f|s a|s a|]; cbn [handle] in Ho'; try (by destruct (isOpen d); set_solver); try (by set_solver);
    try (by destruct (isOpen d && _); set_solver); cbn [press].
  - destruct (isOpen d && _); [|set_solver]. unfold submit in Ho'. destruct (form_valid _ _) eqn:Ev.
    + destruct (warning_enabled d && _); [set_solver|]. destruct (save_confirmations s a (values d) (warningConfirmations d) d) as [_ Hs].
      destruct (Hs o c Ho' Ec) as [Ew Hreq]. specialize (Hreq Hw). split_and!; [done|lia|lia|lia|done].
    + cbn in Ho'. apply list_elem_of_singleton in Ho' as ->. done.
  - destruct (confirm_shown d); [|set_solver]. unfold confirmWarning in Ho'. destruct (_ <=? _)%Z; [|set_solver].
    destruct (save_confirmations s a (values d) (warningConfirmations d + 1) (set_warning (warningConfirmations d + 1) false d)) as [_ Hs].
    destruct (Hs o c Ho' Ec) as [-> Hreq]. pose proof (Hreq Hw) as Hr.
    change (warningConfirmationsRequired (set_warning (warningConfirmations d + 1) false d)) with (warningConfirmationsRequired d) in Hr.
    split_and!; [done|lia|lia|lia|done].
Qed.

(** The confirmation that completes a warning saves what the form holds then, without the
    schema: in a drawer that edits a key of a group whose warning is shown inside the form, one
    confirmation short, clearing the name and confirming sends a request for a key without a
    name, although the same form is refused by the save button. *)
Theorem confirmation_skips_schema status es id w s a :
  let d := run (mount status) es in
  isOpen d = true -> isFormInitialized d = true -> currentRow d = Some id ->
  warningOpen d = true -> selectedGroupWarning d = Some w -> w_enabled w = true ->
  (warningConfirmations d + 1 = warningConfirmationsRequired d)%Z ->
  let d' := (step d (EEdit (FName []))).1 in
  form_valid (maxAutoGroups d') (values d') = false /\
  (step d' (ESubmit s a)).2 = [FixFields] /\
  exists payload, p_name payload = [] /\ PutKey id payload (warningConfirmationsRequired d) ∈ (step d' (EConfirm s a)).2.
Proof.
  cbn zeta. pose proof (run_quiet status es) as Hq. set (d := run (mount status) es) in *. clearbody d.
  intros Ho Hi Hr Hwo Hw He Hc.
  assert ((step d (EEdit (FName []))).1 = set_form (edit_field d (FName [])) d) as Ed.
  { unfold step. cbn [handle]. rewrite Ho, Hi. cbn [fst andb]. apply settle_quiet_same. by destruct Hq. }
  rewrite Ed. set (v := edit_field d (FName [])). split; [done|].
  unfold step. cbn [handle]. change (isOpen (set_form v d)) with (isOpen d).
  change (isFormInitialized (set_form v d)) with (isFormInitialized d). rewrite Ho, Hi. cbn [andb]. split; [done|].
  exists (transformFormDataToPayload currency v). split; [done|].
  assert (confirm_shown (set_form v d) = true) as ->.
  { unfold confirm_shown. change (isOpen (set_form v d)) with (isOpen d). change (warningOpen (set_form v d)) with (warningOpen d).
    change (selectedGroupWarning (set_form v d)) with (selectedGroupWarning d).
    change (isFormInitialized (set_form v d)) with (isFormInitialized d). rewrite Ho, Hwo, Hw, He, Hi. by rewrite orb_true_r. }
  unfold confirmWarning. change (warningConfirmations (set_form v d)) with (warningConfirmations d).
  change (warningConfirmationsRequired (set_form v d)) with (warningConfirmationsRequired d). rewrite Hc, Z.leb_refl. unfold saveApiKey.
  change (warningConfirmationsRequired (set_warning _ false (set_form v d))) with (warningConfirmationsRequired d).
  rewrite Z.eqb_refl, andb_false_r. change (currentRow (set_warning _ false (set_form v d))) with (currentRow d). rewrite Hr.
  destruct (a 0%nat); cbn [snd]; left.
Qed.
End Drawer.

(** ** Witnesses *)

Definition lower : list N -> list N := map lower_ascii.

Definition sample_key (id : Z) : ApiKey :=
  mkKey id (js "mine") (num_of_Z 499999) false (num_of_Z 1900000000) (Some (js "beta")) None false true
    (Some (js "gpt-4,claude")) (Some []).

Definition sample_groups : list GroupOption :=
  [mkOption (js "default") None; mkOption (js "beta") (Some (mkWarning true (js "Slow") InlineWarning 1))].

Definition accept_all : nat -> Answer := fun _ => Accepted.
Definition no_suffix : nat -> list N := fun _ => js "x".

(** Open a key, wait for the queries and press save. *)
Definition open_and_save (id : Z) : list Event :=
  [EOpen (Some id); EGroups sample_groups; EAutoGroups 5; EKey (Some (sample_key id)); ESubmit no_suffix accept_all].


Lemma warned_group_confirmed_witness :
  exists payload, PutKey 7 payload 1 ∈ (step None lower (run None lower (mount None (Some false)) (open_and_save 7)) (EConfirm no_suffix accept_all)).2 /\
    (1 <= confirmed None lower (Some false) (open_and_save 7) +
       press lower (run None lower (mount None (Some false)) (open_and_save 7)) (EConfirm no_suffix accept_all))%Z.
Proof.
  exists (transformFormDataToPayload None (transformApiKeyToFormDefaults None (sample_key 7) [js "default"; js "beta"] 5)).
  assert (PutKey 7 (transformFormDataToPayload None (transformApiKeyToFormDefaults None (sample_key 7) [js "default"; js "beta"] 5)) 1
    ∈ (step None lower (run None lower (mount None (Some false)) (open_and_save 7)) (EConfirm no_suffix accept_all)).2) as H
    by (vm_compute; left).
  split; [exact H|].
  apply (warned_group_confirmed None lower (Some false) (open_and_save 7) (EConfirm no_suffix accept_all) _ 1 H); vm_compute; reflexivity.
Defined.

Lemma confirmation_skips_schema_witness :
  let d := run None lower (mount None (Some false)) (open_and_save 7) in
  let d' := (step None lower d (EEdit (FName []))).1 in
  (step None lower d' (ESubmit no_suffix accept_all)).2 = [FixFields] /\
  exists payload, p_name payload = [] /\ PutKey 7 payload 1 ∈ (step None lower d' (EConfirm no_suffix accept_all)).2.
Proof.
  apply (confirmation_skips_schema None lower (Some false) (open_and_save 7) 7 (mkWarning true (js "Slow") InlineWarning 1) no_suffix accept_all);
    vm_compute; reflexivity.
Defined.

(** The confirmations are kept while the drawer is closed: after one key of a group with a
    warning has been saved, the next key of that group is saved at once, and its request
    carries a confirmation nobody gave for it. *)
Example confirmations_carry_over :
  let d := run None lower (mount None (Some false)) (open_and_save 7 ++ [EConfirm no_suffix accept_all]) in
  isOpen d = false /\
  match (step None lower (run None lower d (take 4 (open_and_save 8))) (ESubmit no_suffix accept_all)).2 with
  | [PutKey id _ c; Updated] => id = 8%Z /\ c = 1%Z
  | _ => False
  end.
Proof. vm_compute. done. Qed.

(** A batch in which a request throws reports none of the keys created before it: the drawer
    stays open on the same form, and saving again creates them once more. *)
Example thrown_batch_unreported :
  let d := run None lower (mount None (Some false))
    [EOpen None; EGroups [mkOption (js "default") None]; EAutoGroups 5; EEdit (FName (js "ci")); EEdit (FCount 3)] in
  let '(d', out) := step None lower d (ESubmit no_suffix (fun i => if (i <? 2)%nat then Accepted else Thrown)) in
  d' = d /\ isOpen d' = true /\
  match out with [PostKey _ _ _; PostKey _ _ _; PostKey _ _ _; Unexpected] => True | _ => False end.
Proof. vm_compute. done. Qed.

(** The form does not know that a list of models is switched off: saving such a key unchanged
    switches it on. *)
Example disabled_limits_enabled :
  let key := mkKey 3 (js "mine") num_zero true (num_of_Z (-1)) None None false false (Some (js "gpt-4")) None in
  p_model_limits_enabled (transformFormDataToPayload None (transformApiKeyToFormDefaults None key [] 5)) = true.
Proof. vm_compute. reflexivity. Qed.
