(* ===== verification/Bounties.v ===== *)
(** * Open-source bounties (src/apps/web/src/features/open-source-bounties)

    The pure parts: acceptance.ts, lifecycle.ts, notification-target.ts, validation.ts, the
    comparison of dispute evidence of types.ts, the answers api.ts unwraps, and the helpers of
    index.tsx.  Counts, ids, times and stored quotas are the server's integers; what a user
    types and what is computed from it are doubles. *)
From S2P Require Import Prelude JsString JsNumber JsExact JsRound JsNumberPrint VisualTiers ExternalUrls Currency.
From Stdlib Require Import Lia.

(** ** Data *)

Inductive ProjectStatus := Draft | Published | Paused | Completed | Closed.

Inductive ChallengeStatus := Accepted | Submitted | Approved | Rejected | Withdrawn | Cancelled.

#[global] Instance ProjectStatus_eq_dec : EqDecision ProjectStatus.
Proof. solve_decision. Defined.
#[global] Instance ChallengeStatus_eq_dec : EqDecision ChallengeStatus.
Proof. solve_decision. Defined.

Inductive DisputeStatus := Open | ResolvedPaid | ResolvedDenied.

(** What a dispute freezes, and what it is compared with. *)
Record Evidence := mkEvidence {
  project_title : list N;
  repository_url : list N;
  project_rules : list N;
  project_escrow_quota : Z;
  challenge_status : ChallengeStatus;
  issue_url : list N;
  pull_request_url : list N;
  submission_note : list N;
  review_note : list N;
  reward_quota : Z;
  tip_quota : Z;
  owner_rating_score : Z;
  owner_rating_comment : list N;
  contributor_rating_score : Z;
  contributor_rating_comment : list N }.

Record BountyDispute := mkDispute {
  d_id : Z;
  d_project_id : Z;
  d_status : DisputeStatus;
  snapshot : Evidence;
  live : Evidence;
  live_evidence_changed : bool }.

Inductive EvidenceField :=
| FProjectTitle | FRepositoryUrl | FProjectRules | FProjectEscrowQuota | FChallengeStatus | FIssueUrl | FPullRequestUrl
| FSubmissionNote | FReviewNote | FRewardQuota | FTipQuota | FOwnerRating | FContributorRating.

Record BountyChallenge := mkChallenge {
  c_id : Z;
  c_project_id : Z;
  c_status : ChallengeStatus;
  c_github_handle : list N;
  c_issue_url : list N;
  c_pull_request_url : list N;
  c_submission_note : list N;
  c_contributor_rating_score : Z;
  c_dispute : option BountyDispute }.

Record BountyProject := mkProject {
  p_id : Z;
  p_owner_user_id : Z;
  p_repository_url : list N;
  p_title : list N;
  p_description : list N;
  p_rules : list N;
  p_reward_quota : Z;
  p_reward_slots : Z;
  p_status : ProjectStatus;
  p_archived_at : Z;
  participant_count : option Z;
  active_challenge_count : Z;
  accepted_challenge_count : option Z;
  submitted_challenge_count : option Z;
  approved_challenge_count : Z;
  rejected_challenge_count : option Z;
  withdrawn_challenge_count : option Z;
  cancelled_challenge_count : option Z;
  appealable_challenge_count : option Z;
  appeal_window_ends_at : option Z;
  open_dispute_count : option Z;
  viewer_challenge : option BountyChallenge }.

(** ** Evidence (types.ts) *)

Definition differ {A} `{EqDecision A} (f : Evidence -> A) (d : BountyDispute) : bool := negb (bool_decide (f (snapshot d) = f (live d))).

Definition changes (d : BountyDispute) : list (EvidenceField * bool) :=
  [(FProjectTitle, differ project_title d); (FRepositoryUrl, differ repository_url d); (FProjectRules, differ project_rules d);
   (FProjectEscrowQuota, differ project_escrow_quota d); (FChallengeStatus, differ challenge_status d);
   (FIssueUrl, differ issue_url d); (FPullRequestUrl, differ pull_request_url d); (FSubmissionNote, differ submission_note d);
   (FReviewNote, differ review_note d); (FRewardQuota, differ reward_quota d); (FTipQuota, differ tip_quota d);
   (FOwnerRating, differ owner_rating_score d || differ owner_rating_comment d);
   (FContributorRating, differ contributor_rating_score d || differ contributor_rating_comment d)].

Definition changedFields (d : BountyDispute) : list EvidenceField := map fst (filter (fun fc => fc.2 = true) (changes d)).

Definition showCurrentValues (d : BountyDispute) : bool := live_evidence_changed d && negb (length (changedFields d) =? 0)%nat.

(** Nothing is listed exactly when the frozen evidence is the live one. *)
Lemma evidence_compared d : changedFields d = [] <-> snapshot d = live d.
Proof.
  split.
  - intros H. assert (forall fc, fc ∈ changes d -> fc.2 = false) as Hn.
    { intros fc Hfc. destruct fc.2 eqn:E; [|done]. exfalso.
      assert (fc.1 ∈ changedFields d) as Hin by (apply list_elem_of_fmap_2, list_elem_of_filter; done). rewrite H in Hin. set_solver. }
    assert (forall A (H0 : EqDecision A) (f : Evidence -> A), differ f d = false -> f (snapshot d) = f (live d)) as Hf
      by (intros A ? f; unfold differ; by intros ?%negb_false_iff%bool_decide_eq_true).
    unfold changes in Hn. repeat setoid_rewrite elem_of_cons in Hn.
    destruct (snapshot d) eqn:Es, (live d) eqn:El.
    assert (differ owner_rating_score d || differ owner_rating_comment d = false) as [H1 H2]%orb_false_iff by (apply (Hn (FOwnerRating, _)); tauto).
    assert (differ contributor_rating_score d || differ contributor_rating_comment d = false) as [H3 H4]%orb_false_iff
      by (apply (Hn (FContributorRating, _)); tauto).
    apply Hf in H1, H2, H3, H4.
    pose proof (Hf _ _ project_title (Hn (FProjectTitle, _) ltac:(tauto))). pose proof (Hf _ _ repository_url (Hn (FRepositoryUrl, _) ltac:(tauto))).
    pose proof (Hf _ _ project_rules (Hn (FProjectRules, _) ltac:(tauto))). pose proof (Hf _ _ project_escrow_quota (Hn (FProjectEscrowQuota, _) ltac:(tauto))).
    pose proof (Hf _ _ challenge_status (Hn (FChallengeStatus, _) ltac:(tauto))). pose proof (Hf _ _ issue_url (Hn (FIssueUrl, _) ltac:(tauto))).
    pose proof (Hf _ _ pull_request_url (Hn (FPullRequestUrl, _) ltac:(tauto))). pose proof (Hf _ _ submission_note (Hn (FSubmissionNote, _) ltac:(tauto))).
    pose proof (Hf _ _ review_note (Hn (FReviewNote, _) ltac:(tauto))). pose proof (Hf _ _ reward_quota (Hn (FRewardQuota, _) ltac:(tauto))).
    pose proof (Hf _ _ tip_quota (Hn (FTipQuota, _) ltac:(tauto))). clear Hn Hf H Es El. cbn in *. by f_equal.
  - intros E. assert (forall A (H0 : EqDecision A) (f : Evidence -> A), differ f d = false) as Hf
      by (intros A ? f; unfold differ; by rewrite E, bool_decide_true).
    unfold changedFields, changes. by rewrite !Hf.
Qed.

(** ** Acceptance (acceptance.ts) *)

Inductive AcceptanceState := Available | Active | Done | Retryable.

Definition getChallengeAcceptanceState (challenge : option BountyChallenge) : AcceptanceState :=
  match challenge with
  | None => Available
  | Some c =>
      match c_status c with
      | Accepted | Submitted => Active
      | Approved => Done
      | Rejected | Withdrawn | Cancelled => Retryable
      end
  end.

(** ** Lifecycle (lifecycle.ts) *)

Record Lifecycle := mkLifecycle {
  participantCount : Z;
  acceptedCount : Z;
  submittedCount : Z;
  approvedCount : Z;
  rejectedCount : Z;
  withdrawnCount : Z;
  cancelledCount : Z;
  appealableCount : Z;
  appealWindowEndsAt : Z;
  openDisputeCount : Z;
  hasUnknownActiveBlocker : bool;
  closeBlocked : bool }.

Definition nonNegative (value : option Z) : Z := Z.max 0 (default 0%Z value).

Definition getBountyLifecycleSummary (project : BountyProject) (hasOpenDisputeFallback : bool) (nowSeconds : Z) : Lifecycle :=
  let accepted := nonNegative (accepted_challenge_count project) in
  let submitted := nonNegative (submitted_challenge_count project) in
  let approved := nonNegative (Some (approved_challenge_count project)) in
  let rejected := nonNegative (rejected_challenge_count project) in
  let withdrawn := nonNegative (withdrawn_challenge_count project) in
  let cancelled := nonNegative (cancelled_challenge_count project) in
  let ends := nonNegative (appeal_window_ends_at project) in
  let appealable := if (0 <? ends)%Z && (ends <=? nowSeconds)%Z then 0%Z else nonNegative (appealable_challenge_count project) in
  let disputes := Z.max (nonNegative (open_dispute_count project)) (if hasOpenDisputeFallback then 1 else 0) in
  let hasDetailedBreakdown :=
    bool_decide (is_Some (accepted_challenge_count project)) || bool_decide (is_Some (submitted_challenge_count project)) ||
    bool_decide (is_Some (appealable_challenge_count project)) || bool_decide (is_Some (open_dispute_count project)) in
  let unknown := negb hasDetailedBreakdown && (0 <? nonNegative (Some (active_challenge_count project)))%Z in
  let known := (accepted + submitted + approved + rejected + withdrawn + cancelled)%Z in
  mkLifecycle
    (Z.max (nonNegative (participant_count project)) (Z.max known (nonNegative (Some (active_challenge_count project)) + approved)))
    accepted submitted approved rejected withdrawn cancelled appealable (if (0 <? appealable)%Z then ends else 0%Z) disputes unknown
    ((0 <? accepted)%Z || (0 <? submitted)%Z || (0 <? appealable)%Z || (0 <? disputes)%Z || unknown).

(** [availableSlots] of index.tsx. *)
Definition availableSlots (project : BountyProject) (lifecycle : option Lifecycle) : Z :=
  let expiredAppealCount :=
    match lifecycle with
    | Some l => Z.max 0 (default 0%Z (appealable_challenge_count project) - appealableCount l)
    | None => 0%Z
    end in
  Z.max 0 (p_reward_slots project - Z.max 0 (active_challenge_count project - expiredAppealCount) - approved_challenge_count project).

(** ** Notifications (notification-target.ts, api.ts) *)

Definition selectBountyNotificationChallenge (project_id : Z) (challenges : list BountyChallenge) (target : Z * Z) : option BountyChallenge :=
  if negb (project_id =? target.1)%Z then None
  else head (filter (fun c => c_id c = target.2 /\ c_project_id c = target.1) challenges).

Inductive NotificationKind := TipTransfer | RewardTransfer | DisputeRewardTransfer.

Record TipNotification := mkTip { n_id : Z; n_project_id : Z; n_challenge_id : Z; n_quota : Z; n_note : list N }.

(** The icon, the message and whether a note and a thank-you are shown. *)
Definition bountyNotificationPresentation (kind : NotificationKind) : list N * list N * bool :=
  match kind with
  | TipTransfer => (js "GiftIcon", js "sent you a tip of", true)
  | DisputeRewardTransfer => (js "JusticeScale01Icon", js "paid your bounty reward after dispute resolution", false)
  | RewardTransfer => (js "Award01Icon", js "approved and paid your bounty reward", false)
  end.

Definition bountyNotificationSearch (item : TipNotification) : Z * Z := (n_project_id item, n_challenge_id item).

(** What [unwrap] makes of an answer: its data, or an error with a code and a message. *)
Record Envelope (A : Type) := mkEnvelope { success : bool; code : option (list N); message : option (list N); data : A }.
Arguments success {_}. Arguments code {_}. Arguments message {_}. Arguments data {_}.

Definition unwrap {A} (response : Envelope A) : A + (option (list N) * list N) :=
  if success response then inl (data response)
  else inr (code response, or_else (default [] (message response)) (js "Open-source bounty request failed")).

Definition getPendingBountyReviewCount (total : spec_float) : spec_float :=
  if is_integer total && num_leb (num_abs total) (num_of_Z 9007199254740991) && num_ltb num_zero total then total else num_zero.

Definition listCompatibleBountyNotifications (unified : option (list (TipNotification * NotificationKind))) (tips : list TipNotification)
    : list (TipNotification * NotificationKind) :=
  match unified with Some items => items | None => map (fun tip => (tip, TipTransfer)) tips end.

(** ** Validation (validation.ts) *)

Definition parseBountyNumericInput (value : list N) : spec_float :=
  if nonempty (trim value) then number_of_string value else S754_nan.

Record BountyCharge := mkCharge {
  gross : spec_float;
  netReward : spec_float;
  escrow : spec_float;
  platformFee : spec_float;
  feeRatePercent : spec_float;
  total : spec_float }.

Definition calculateBountyCharge (rewardQuota rewardSlots feeRateBasisPoints : spec_float) : BountyCharge :=
  let reward := if is_finite rewardQuota then num_max [num_zero; rewardQuota] else num_zero in
  let slots := if is_finite rewardSlots then num_max [num_zero; rewardSlots] else num_zero in
  let feePerSlot := num_ceil (num_div (num_mul reward feeRateBasisPoints) (num_of_Z 10000)) in
  let netReward := num_max [num_zero; num_sub reward feePerSlot] in
  let gross := num_mul reward slots in
  mkCharge gross netReward (num_mul netReward slots) (num_mul feePerSlot slots) (num_div feeRateBasisPoints (num_of_Z 100)) gross.

Definition is_alnum (c : N) : bool := is_digit c || ((65 <=? c) && (c <=? 90))%N || ((97 <=? c) && (c <=? 122))%N.

(** [/^[A-Za-z0-9](?:[A-Za-z0-9_.-]{0,98}[A-Za-z0-9])?$/]. *)
Definition github_name (s : list N) : bool :=
  match s with
  | [] => false
  | c :: r =>
      is_alnum c &&
      match reverse r with
      | [] => true
      | l :: m => is_alnum l && (length m <=? 98)%nat && forallb (fun x => is_alnum x || bool_decide (x ∈ js "_.-")) m
      end
  end.

Definition strip_slashes (s : list N) : list N :=
  reverse (drop_while (fun c => (c =? 47)%N) (reverse (drop_while (fun c => (c =? 47)%N) s))).

Definition strip_git (s : list N) : list N := if ends_with (js ".git") s then take (length s - 4) s else s.

Section Validation.
Variable newURL : list N -> option (list N) -> option URL.

Definition isGithubRepositoryUrl (rawUrl : list N) : bool :=
  match newURL (trim rawUrl) None with
  | None => false
  | Some url =>
      match split_on 47%N (strip_slashes (pathname url)) with
      | [owner; repository] =>
          bool_decide (protocol url = js "https:") && bool_decide (map lower_ascii (hostname url) = js "github.com") &&
          github_name owner && github_name (strip_git repository)
      | _ => false
      end
  end.

Record DraftForm := mkDraft {
  repositoryUrl : list N;
  title : list N;
  description : list N;
  rules : list N;
  rewardAmount : list N;
  rewardSlots : list N }.

Definition EMPTY_DRAFT : DraftForm := mkDraft [] [] [] [] [] (js "1").

Inductive DraftField := DRepositoryUrl | DTitle | DDescription | DRules | DRewardAmount | DRewardSlots.

Definition length_between (lo hi : nat) (s : list N) : bool := (lo <=? length (trim s))%nat && (length (trim s) <=? hi)%nat.

(** The fields with an error, in the order they are recorded. *)
Definition validateBountyDraft (draft : DraftForm) : list DraftField :=
  let amount := parseBountyNumericInput (rewardAmount draft) in
  let slots := parseBountyNumericInput (rewardSlots draft) in
  (if isGithubRepositoryUrl (repositoryUrl draft) then [] else [DRepositoryUrl]) ++
  (if length_between 4 120 (title draft) then [] else [DTitle]) ++
  (if length_between 20 2000 (description draft) then [] else [DDescription]) ++
  (if length_between 20 5000 (rules draft) then [] else [DRules]) ++
  (if negb (is_finite amount) || num_leb amount num_zero then [DRewardAmount] else []) ++
  (if negb (is_integer slots) || num_ltb slots (num_of_Z 1) || num_ltb (num_of_Z 100) slots then [DRewardSlots] else []).
End Validation.

Record Submission := mkSubmission { issueUrl : list N; pullRequestUrl : list N; submissionNote : list N }.

(** Is there an error. *)
Definition validateBountySubmissionLinks (s : Submission) : bool :=
  negb (nonempty (trim (issueUrl s))) && negb (nonempty (trim (pullRequestUrl s))).

(** ** Helpers of index.tsx *)

Definition projectToDraft (currency : option CurrencyConfig) (project : BountyProject) : DraftForm :=
  mkDraft (p_repository_url project) (p_title project) (p_description project) (p_rules project)
    (num_to_string (quotaUnitsToDollars currency (num_of_Z (p_reward_quota project))))
    (num_to_string (num_of_Z (p_reward_slots project))).

(** [description.split(/\r?\n/).length]: a line feed more than lines. *)
Definition line_count (s : list N) : nat := S (length (filter (fun c => c = 10%N) s)).

Definition isBountyDescriptionExpandable (description : list N) : bool :=
  (240 <? length description)%nat || (4 <? line_count description)%nat.

(** [bountyRankByProjectId]: the last place of an id counts. *)
Definition bountyRankByProjectId (ids : list Z) (page pageSize : Z) : gmap Z Z :=
  let firstRank := ((page - 1) * pageSize + 1)%Z in
  foldl (fun m '(i, id) => <[id := (firstRank + Z.of_nat i)%Z]> m) ∅ (imap pair ids).

(** ** The charge is exact *)

(** C23: The charge shown before a bounty is published is integer arithmetic: for a reward, a
    number of slots and a fee rate of at most 10000 basis points whose products stay below
    [2^52], no rounding of doubles shows - the fee of a slot is the reward times the rate over
    10000, rounded up, never more than the reward; the net reward is the rest; and the escrow
    and the platform fee add up to the gross amount that is debited. *)
Theorem bounty_charge_exact r s f :
  (0 <= r < 2 ^ 52)%Z -> (0 <= s < 2 ^ 52)%Z -> (0 <= f <= 10000)%Z -> (r * f < 2 ^ 52)%Z -> (r * s < 2 ^ 52)%Z ->
  let fee := (- (- (r * f) / 10000))%Z in
  calculateBountyCharge (num_of_Z r) (num_of_Z s) (num_of_Z f) =
    mkCharge (num_of_Z (r * s)) (num_of_Z (r - fee)) (num_of_Z ((r - fee) * s)) (num_of_Z (fee * s))
      (num_div (num_of_Z f) (num_of_Z 100)) (num_of_Z (r * s)) /\
  (0 <= fee <= r)%Z /\ (r * f <= fee * 10000 < r * f + 10000)%Z /\ ((r - fee) * s + fee * s = r * s)%Z.
Proof.
  intros Hr Hs Hf Hrf Hrs. cbn zeta. set (fee := (- (- (r * f) / 10000))%Z).
  assert (r * f <= fee * 10000 < r * f + 10000)%Z as Hfee.
  { pose proof (Z.div_mod (- (r * f)) 10000 ltac:(lia)). pose proof (Z.mod_pos_bound (- (r * f)) 10000 ltac:(lia)). subst fee. lia. }
  assert (0 <= fee <= r)%Z as Hb by nia. split_and!; [|lia..].
  unfold calculateBountyCharge. rewrite !whole_finite, !whole_max by (unfold MAX_SAFE; lia).
  rewrite (num_of_Z_mul r f) by (unfold MAX_SAFE; lia). rewrite ceil_quotient by (unfold MAX_SAFE; lia). fold fee.
  rewrite num_of_Z_sub by (unfold MAX_SAFE; lia). rewrite whole_max by (unfold MAX_SAFE; lia).
  rewrite !num_of_Z_mul by (unfold MAX_SAFE; nia). done.
Qed.

Lemma bounty_charge_exact_witness :
  calculateBountyCharge (num_of_Z 500001) (num_of_Z 3) (num_of_Z 250) =
    mkCharge (num_of_Z 1500003) (num_of_Z 487500) (num_of_Z 1462500) (num_of_Z 37503) (num_div (num_of_Z 250) (num_of_Z 100)) (num_of_Z 1500003).
Proof. apply (bounty_charge_exact 500001 3 250); lia. Defined.

(** ** What blocks closing *)

(** Closing a bounty is blocked exactly while someone is working on it, a submission
    waits for review, a rejected challenge can still be appealed, a dispute is open, or the
    server reports active challenges without saying which; when the appeal window ends, the
    challenges in it block nothing any more and their slots are offered again, so the number
    of free slots never falls with time. *)
Theorem lifecycle_summary_sound project fallback now later :
  let l := getBountyLifecycleSummary project fallback now in
  let l' := getBountyLifecycleSummary project fallback later in
  (0 <= acceptedCount l /\ 0 <= submittedCount l /\ 0 <= appealableCount l /\ 0 <= openDisputeCount l)%Z /\
  (closeBlocked l = false <->
    acceptedCount l = 0%Z /\ submittedCount l = 0%Z /\ appealableCount l = 0%Z /\ openDisputeCount l = 0%Z /\ hasUnknownActiveBlocker l = false) /\
  ((0 < appealWindowEndsAt l)%Z -> (now < appealWindowEndsAt l)%Z /\ (0 < appealableCount l)%Z) /\
  ((now <= later)%Z -> (closeBlocked l' = true -> closeBlocked l = true) /\
     (availableSlots project (Some l) <= availableSlots project (Some l'))%Z) /\
  (acceptedCount l + submittedCount l + approvedCount l + rejectedCount l + withdrawnCount l + cancelledCount l <= participantCount l)%Z.
Proof.
  cbn zeta. unfold getBountyLifecycleSummary, availableSlots. cbn [acceptedCount submittedCount appealableCount openDisputeCount closeBlocked
    hasUnknownActiveBlocker appealWindowEndsAt participantCount approvedCount rejectedCount withdrawnCount cancelledCount].
  set (u := negb _ && _). clearbody u.
  set (ends := nonNegative (appeal_window_ends_at project)). set (rep := nonNegative (appealable_challenge_count project)).
  set (acc := nonNegative (accepted_challenge_count project)). set (sub := nonNegative (submitted_challenge_count project)).
  set (dis := Z.max _ _).
  assert (forall o, 0 <= nonNegative o)%Z as Hn by (intros; unfold nonNegative; lia).
  assert (0 <= acc /\ 0 <= sub /\ 0 <= rep /\ 0 <= ends /\ 0 <= dis)%Z as (H1 & H2 & H3 & H4 & H5).
  { subst acc sub rep ends dis. repeat split; try apply Hn. pose proof (Hn (open_dispute_count project)). lia. }
  clearbody acc sub dis ends rep.
  remember (if (0 <? ends)%Z && (ends <=? now)%Z then 0%Z else rep) as ap eqn:Eap.
  remember (if (0 <? ends)%Z && (ends <=? later)%Z then 0%Z else rep) as ap' eqn:Eap'.
  assert (0 <= ap /\ 0 <= ap' /\ (now <= later -> ap' <= ap) /\ (0 < ap -> 0 < ends -> now < ends))%Z as (Ha & Ha' & Hmono & Hends).
  { subst ap ap'. destruct (Z.ltb_spec 0 ends), (Z.leb_spec ends now), (Z.leb_spec ends later); cbn [andb]; lia. }
  clear Eap Eap'. split_and!; [lia..| | | |].
  - rewrite !orb_false_iff, !Z.ltb_ge. split; [intros ((((?&?)&?)&?)&?)|intros (?&?&?&?&?)]; repeat split; try lia; done.
  - destruct (Z.ltb_spec 0 ap); [|lia]. lia.
  - intros Hl. specialize (Hmono Hl). split; [|lia]. rewrite !orb_true_iff, !Z.ltb_lt. intros [[[[?|?]|?]|?]|?]; try tauto.
    left. left. right. lia.
  - lia.
Qed.
