(* ===== verification/BountyPage.v ===== *)
(** * The bounty page (src/apps/web/src/features/open-source-bounties/index.tsx)

    The dialogs and buttons of the page, the requests they send and what the page does with
    the answers.  A handler runs to its end before the next event; the browser's URL parser,
    the confirmation dialog and the random key of a tip are given. *)
From S2P Require Import Prelude JsString JsNumber JsExact JsRound JsNumberPrint BillingLexer VisualTiers ExternalUrls Currency Bounties.
From Stdlib Require Import Lia.

(** ** Requests and answers *)

Record DraftInput := mkInput {
  i_repository_url : list N;
  i_title : list N;
  i_description : list N;
  i_rules : list N;
  i_reward_quota : spec_float;
  i_reward_slots : spec_float }.

Inductive ReviewAction := Approve | Reject.
Inductive Resolution := Pay | Deny.

Inductive Request :=
| CreateBounty (input : DraftInput)
| UpdateBounty (projectId : Z) (input : DraftInput)
| DeleteBounty (projectId : Z)
| PublishBounty (projectId : Z)
| PauseBounty (projectId : Z)
| ResumeBounty (projectId : Z)
| CloseBounty (projectId : Z)
| ArchiveBounty (projectId : Z)
| UnarchiveBounty (projectId : Z)
| AcceptBounty (projectId : Z) (handle : list N)
| SubmitChallenge (projectId : Z) (work : Submission)
| WithdrawChallenge (challengeId : Z)
| CancelChallenge (challengeId : Z)
| ReviewChallenge (challengeId : Z) (action : ReviewAction) (note : list N) (score : spec_float) (comment : list N)
| TipChallenge (challengeId : Z) (quota : spec_float) (note : list N) (idempotencyKey : list N)
| RateBountyOwner (challengeId : Z) (score : spec_float) (comment : list N)
| ResolveDispute (disputeId : Z) (action : Resolution) (resolution : list N).

(** What a handler does to the outside: the requests, the reloads and the messages. *)
Inductive Output :=
| Send (r : Request) | Refresh | GetSelf | GetDetail (projectId : Z) | Success (message : list N) | Failure (message : list N).

(** The answer to the action ([inr] an error, with its code), and whether the request for the
    own account that may follow it succeeds. *)
Record Answers := mkAnswers { action_answer : unit + option (list N); self_answer : bool }.

Definition GENERIC_FAILURE : list N := js "Unable to complete the bounty action.".

Definition ERROR_KEYS : list (list N * list N) :=
  [(js "OPEN_SOURCE_BOUNTY_INVALID_REPOSITORY", js "Enter a GitHub repository URL in the format https://github.com/owner/repository.");
   (js "OPEN_SOURCE_BOUNTY_INVALID_TITLE", js "Bounty title must contain 4 to 120 characters.");
   (js "OPEN_SOURCE_BOUNTY_INVALID_DESCRIPTION", js "Project and defect scope must contain 20 to 2000 characters.");
   (js "OPEN_SOURCE_BOUNTY_INVALID_RULES", js "Acceptance and verification rules must contain 20 to 5000 characters.");
   (js "OPEN_SOURCE_BOUNTY_INVALID_QUOTA", js "Reward per fix must be greater than zero.");
   (js "OPEN_SOURCE_BOUNTY_INVALID_FEE", js "The platform fee leaves no contributor reward.");
   (js "OPEN_SOURCE_BOUNTY_FEE_RECIPIENT_NOT_FOUND", js "An enabled super administrator is required to receive the platform fee.");
   (js "OPEN_SOURCE_BOUNTY_INVALID_SLOTS", js "Reward slots must be a whole number between 1 and 100.");
   (js "OPEN_SOURCE_BOUNTY_INSUFFICIENT_BALANCE", js "Your balance is not enough to publish this bounty.");
   (js "OPEN_SOURCE_BOUNTY_ACTIVE_CHALLENGES", js "Cancel unsubmitted challenges or review submitted work before closing this bounty.");
   (js "OPEN_SOURCE_BOUNTY_APPEAL_WINDOW",
    js "Rejected challenges can still be appealed. Wait until the seven-day appeal window ends unless a dispute is opened.");
   (js "OPEN_SOURCE_BOUNTY_OPEN_DISPUTES", js "Resolve all open disputes before closing this bounty or refunding escrow.");
   (js "OPEN_SOURCE_BOUNTY_FULL", js "All reward slots are currently occupied.");
   (js "OPEN_SOURCE_BOUNTY_ALREADY_ACCEPTED", js "You have already accepted this challenge.");
   (js "OPEN_SOURCE_BOUNTY_RETRY_PENDING",
    js "Wait until the rejected attempt's dispute is resolved or its seven-day appeal window ends.");
   (js "OPEN_SOURCE_BOUNTY_EVIDENCE_REPOSITORY_MISMATCH", js "Every submitted Issue or pull request must belong to the bounty repository.");
   (js "OPEN_SOURCE_BOUNTY_EVIDENCE_REQUIRED", js "Provide at least one GitHub Issue or pull request URL.");
   (js "OPEN_SOURCE_BOUNTY_INVALID_EVIDENCE",
    js "Enter a GitHub Issue URL ending in /issues/number or a pull request URL ending in /pull/number.");
   (js "OPEN_SOURCE_BOUNTY_DUPLICATE_PULL_REQUEST", js "This pull request has already been submitted.");
   (js "OPEN_SOURCE_BOUNTY_ARCHIVE_UNAVAILABLE", js "Only completed or closed projects can be archived.")].

Definition CLOSE_BLOCKER_ERROR_CODES : list (list N) :=
  map js ["OPEN_SOURCE_BOUNTY_ACTIVE_CHALLENGES"; "OPEN_SOURCE_BOUNTY_APPEAL_WINDOW"; "OPEN_SOURCE_BOUNTY_OPEN_DISPUTES"]%string.

Definition errorMessage (code : option (list N)) : list N :=
  default GENERIC_FAILURE (c ← code; (fun x => x.2.2) <$> list_find (fun kv => kv.1 = c) ERROR_KEYS).

Definition refresh (balanceChanged : bool) : list Output := Refresh :: (if balanceChanged then [GetSelf] else []).

(** [runAction]: the outputs, and whether it reports success.  An error of [getSelf] ends in
    the same [catch] as an error of the action. *)
Definition runAction (request : Request) (successMessage : list N) (balanceChanged : bool) (a : Answers) : list Output * bool :=
  match action_answer a with
  | inl _ =>
      if balanceChanged && negb (self_answer a)
      then (Send request :: refresh balanceChanged ++ [Failure GENERIC_FAILURE], false)
      else (Send request :: refresh balanceChanged ++ [Success successMessage], true)
  | inr code =>
      (Send request :: Failure (errorMessage code) ::
         (if match code with Some c => bool_decide (c ∈ CLOSE_BLOCKER_ERROR_CODES) | None => false end then refresh false else []), false)
  end.

(** ** The dialogs *)

Record DraftDialog := mkDraftDialog {
  draftOpen : bool;
  editingProject : option BountyProject;
  draft : DraftForm;
  draftValidationAttempted : bool }.

Record AcceptDialog := mkAccept { acceptProject : option Z; githubHandle : list N }.

Record SubmitDialog := mkSubmit { submitTarget : option (Z * BountyChallenge); submission : Submission }.

Record ReviewDialog := mkReview {
  reviewTarget : option (BountyChallenge * ReviewAction);
  reviewNote : list N;
  reviewRatingScore : spec_float;
  reviewRatingComment : list N }.

Record TipDialog := mkTipDialog { tipTarget : option BountyChallenge; tipAmount : spec_float; tipNote : list N }.

Record RateDialog := mkRate { ratingTarget : option BountyChallenge; ownerRatingScore : spec_float; ownerRatingComment : list N }.

Record ResolveDialog := mkResolve { resolveTarget : option (BountyDispute * Resolution); resolution : list N }.

Definition five : spec_float := num_of_Z 5.

(** [{ ...submission }] after it was sent. *)
Definition EMPTY_SUBMISSION : Submission := mkSubmission [] [] [].

Definition live_funds (project : option BountyProject) : bool :=
  match project with Some p => bool_decide (p_status p = Published) || bool_decide (p_status p = Paused) | None => false end.

Section Page.
Variable newURL : list N -> option (list N) -> option URL.
Variable currency : option CurrencyConfig.

Definition openCreateDialog : DraftDialog := mkDraftDialog true None EMPTY_DRAFT false.
Definition openEditDialog (project : BountyProject) : DraftDialog := mkDraftDialog true (Some project) (projectToDraft currency project) false.

Definition draft_input (d : DraftDialog) : DraftInput :=
  let live := live_funds (editingProject d) in
  mkInput (trim (repositoryUrl (draft d))) (trim (title (draft d))) (trim (description (draft d))) (trim (rules (draft d)))
    (if live then num_zero else parseQuotaFromDollars currency (parseBountyNumericInput (rewardAmount (draft d))))
    (if live then num_zero else parseBountyNumericInput (rewardSlots (draft d))).

(** The text of the first error of a draft. *)
Definition draft_error (f : DraftField) : list N :=
  match f with
  | DRepositoryUrl => js "Enter a GitHub repository URL in the format https://github.com/owner/repository."
  | DTitle => js "Bounty title must contain 4 to 120 characters."
  | DDescription => js "Project and defect scope must contain 20 to 2000 characters."
  | DRules => js "Acceptance and verification rules must contain 20 to 5000 characters."
  | DRewardAmount => js "Reward per fix must be greater than zero."
  | DRewardSlots => js "Reward slots must be a whole number between 1 and 100."
  end.

Definition saveDraft (a : Answers) (d : DraftDialog) : DraftDialog * list Output :=
  let attempted := mkDraftDialog (draftOpen d) (editingProject d) (draft d) true in
  match validateBountyDraft newURL (draft d) with
  | f :: _ => (attempted, [Failure (draft_error f)])
  | [] =>
      let request := match editingProject d with
                     | Some p => UpdateBounty (p_id p) (draft_input d)
                     | None => CreateBounty (draft_input d)
                     end in
      let message := if live_funds (editingProject d) then js "Your changes were saved."
                     else match editingProject d with Some _ => js "Bounty draft updated." | None => js "Bounty draft created." end in
      let '(out, ok) := runAction request message false a in
      (mkDraftDialog (if ok then false else draftOpen d) (editingProject d) (draft d) true, out)
  end.

Definition handleAccept (a : Answers) (d : AcceptDialog) : AcceptDialog * list Output :=
  match acceptProject d with
  | None => (d, [])
  | Some id =>
      if negb (nonempty (trim (githubHandle d))) then (d, [])
      else let '(out, ok) := runAction (AcceptBounty id (trim (githubHandle d))) (js "Challenge accepted.") false a in
           (if ok then mkAccept None [] else d, out)
  end.

Definition openSubmitDialog (projectId : Z) (c : BountyChallenge) : SubmitDialog :=
  mkSubmit (Some (projectId, c)) (mkSubmission (c_issue_url c) (c_pull_request_url c) (c_submission_note c)).

Definition handleSubmit (a : Answers) (d : SubmitDialog) : SubmitDialog * list Output :=
  match submitTarget d with
  | None => (d, [])
  | Some (projectId, _) =>
      let s := submission d in
      if validateBountySubmissionLinks s
      then (d, [Failure (js "Provide at least one GitHub Issue or pull request URL.")])
      else let work := mkSubmission (trim (issueUrl s)) (trim (pullRequestUrl s)) (trim (submissionNote s)) in
           let '(out, ok) := runAction (SubmitChallenge projectId work) (js "Bounty work submitted for review.") false a in
           (if ok then mkSubmit None EMPTY_SUBMISSION else d, out)
  end.

(** [score < 1 || score > 5 || comment.trim().length < 2]. *)
Definition rating_refused (score : spec_float) (comment : list N) : bool :=
  num_ltb score (num_of_Z 1) || num_ltb five score || (length (trim comment) <? 2)%nat.

(** The text has an en dash. *)
Definition RATING_REQUIRED : list N := js "A 1" ++ [8211%N] ++ js "5 score and public evaluation are required.".

Definition handleReview (a : Answers) (d : ReviewDialog) : ReviewDialog * list Output :=
  match reviewTarget d with
  | None => (d, [])
  | Some (c, act) =>
      if rating_refused (reviewRatingScore d) (reviewRatingComment d) then (d, [Failure RATING_REQUIRED])
      else
        let approve := match act with Approve => true | Reject => false end in
        let '(out, ok) := runAction (ReviewChallenge (c_id c) act (trim (reviewNote d)) (reviewRatingScore d) (trim (reviewRatingComment d)))
                            (if approve then js "Submission approved and reward transferred." else js "Submission rejected.") approve a in
        if ok then (mkReview None [] five [], out ++ [GetDetail (c_project_id c)]) else (d, out)
  end.

Definition handleTip (key : list N) (a : Answers) (d : TipDialog) : TipDialog * list Output :=
  match tipTarget d with
  | None => (d, [])
  | Some c =>
      let quota := parseQuotaFromDollars currency (tipAmount d) in
      if num_leb quota num_zero then (d, [Failure (js "Enter a positive tip amount.")])
      else
        let '(out, ok) := runAction (TipChallenge (c_id c) quota (trim (tipNote d)) key) (js "Tip sent to the contributor.") true a in
        if ok then (mkTipDialog None num_zero [], out ++ [GetDetail (c_project_id c)]) else (d, out)
  end.

Definition handleRateOwner (a : Answers) (d : RateDialog) : RateDialog * list Output :=
  match ratingTarget d with
  | None => (d, [])
  | Some c =>
      if rating_refused (ownerRatingScore d) (ownerRatingComment d) then (d, [Failure RATING_REQUIRED])
      else let '(out, ok) := runAction (RateBountyOwner (c_id c) (ownerRatingScore d) (trim (ownerRatingComment d)))
                               (js "Publisher rating submitted.") false a in
           (if ok then mkRate None five [] else d, out)
  end.

(** [resolve] of the disputes panel; [confirmed] is the answer to its question. *)
Definition resolve (confirmed : bool) (a : Answers) (d : ResolveDialog) : ResolveDialog * list Output :=
  match resolveTarget d with
  | Some (dispute, act) =>
      if (length (trim (resolution d)) <? 10)%nat then (d, [Failure (js "Enter an administrator resolution of at least 10 characters.")])
      else if negb confirmed then (d, [])
      else
        let request := Send (ResolveDispute (d_id dispute) act (trim (resolution d))) in
        match action_answer a with
        | inl _ => (mkResolve None [],
                    [request; Refresh; Success (match act with Pay => js "Dispute resolved and escrow reward transferred." | Deny => js "Dispute claim denied." end)])
        | inr _ => (d, [request; Failure (js "Unable to resolve the bounty dispute.")])
        end
  | None => (d, [Failure (js "Enter an administrator resolution of at least 10 characters.")])
  end.

(** ** Buttons *)

Inductive OwnerButton := BEdit | BPublish | BDelete | BChallenges | BPause | BResume | BClose | BLifecycle | BUnarchive | BArchive.

#[global] Instance OwnerButton_eq_dec : EqDecision OwnerButton.
Proof. solve_decision. Defined.

(** The enabled buttons of [OwnerProjectCard]. *)
Definition owner_buttons (project : BountyProject) (lifecycle : Lifecycle) (busy : bool) : list OwnerButton :=
  if busy then []
  else
    match p_status project with
    | Draft => [BEdit; BPublish; BDelete]
    | Published => BChallenges :: BPause :: (if closeBlocked lifecycle then [] else [BClose])
    | Paused => BChallenges :: BResume :: (if closeBlocked lifecycle then [] else [BClose])
    | Completed | Closed => [BLifecycle; if (0 <? p_archived_at project)%Z then BUnarchive else BArchive]
    end.

(** The request of a button, its message and whether the balance changes. *)
Definition owner_request (id : Z) (b : OwnerButton) : option (Request * list N * bool) :=
  match b with
  | BPublish => Some (PublishBounty id, js "Bounty published and reward pool funded.", true)
  | BDelete => Some (DeleteBounty id, js "Bounty draft deleted.", false)
  | BPause => Some (PauseBounty id, js "Bounty paused.", false)
  | BResume => Some (ResumeBounty id, js "Bounty resumed.", false)
  | BClose => Some (CloseBounty id, js "Bounty closed and unused escrow refunded.", true)
  | BArchive => Some (ArchiveBounty id, js "Bounty archived.", false)
  | BUnarchive => Some (UnarchiveBounty id, js "Bounty restored.", false)
  | BEdit | BChallenges | BLifecycle => None
  end.

(** A click; [confirmed] answers [confirmPublication]. *)
Definition owner_click (project : BountyProject) (lifecycle : Lifecycle) (busy confirmed : bool) (b : OwnerButton) (a : Answers) : list Output :=
  if bool_decide (b ∈ owner_buttons project lifecycle busy)
  then match b with
       | BChallenges | BLifecycle => [GetDetail (p_id project)]
       | _ => match owner_request (p_id project) b with
              | Some (r, m, bal) => if bool_decide (b = BPublish) && negb confirmed then [] else (runAction r m bal a).1
              | None => []
              end
       end
  else [].

Definition disputed (c : BountyChallenge) : bool :=
  match c_dispute c with Some d => match d_status d with Open => true | _ => false end | None => false end.

Definition handleCancelChallenge (canCancel busy confirmed : bool) (c : BountyChallenge) (a : Answers) : list Output :=
  if negb canCancel || negb (bool_decide (c_status c = Accepted)) || busy || disputed c || negb confirmed then []
  else let '(out, ok) := runAction (CancelChallenge (c_id c)) (js "Challenge cancelled and reward slot released.") false a in
       if ok then out ++ [GetDetail (c_project_id c)] else out.

Definition withdraw_click (busy : bool) (c : BountyChallenge) (a : Answers) : list Output :=
  if (bool_decide (c_status c = Accepted) || bool_decide (c_status c = Submitted)) && negb busy && negb (disputed c)
  then (runAction (WithdrawChallenge (c_id c)) (js "Challenge withdrawn.") false a).1 else [].

(** What the card of a project offers a viewer. *)
Inductive ViewerAction := Managed | SubmitWork (c : BountyChallenge) | StatusBadge | AcceptButton (enabled retry : bool).

Definition viewer_action (project : BountyProject) (viewer nowSeconds : Z) (busy : bool) : ViewerAction :=
  let slots := availableSlots project (Some (getBountyLifecycleSummary project false nowSeconds)) in
  let acceptance := getChallengeAcceptanceState (viewer_challenge project) in
  let accept_button retry :=
    AcceptButton (bool_decide (p_status project = Published) && negb (slots =? 0)%Z && negb busy) retry in
  if (p_owner_user_id project =? viewer)%Z then Managed
  else
    match viewer_challenge project with
    | Some c =>
        if bool_decide (c_status c = Accepted) then SubmitWork c
        else match acceptance with
             | Active | Done => StatusBadge
             | Retryable => accept_button true
             | Available => accept_button false
             end
    | None => accept_button false
    end.

(** The effect of a notification's target: the detail shown and the challenge in focus, or
    the target dropped. *)
Definition detail_effect (loaded : option (Z * list BountyChallenge)) (target : Z * Z) : option (Z * Z) :=
  match loaded with
  | Some (project_id, challenges) => (fun c => (project_id, c_id c)) <$> selectBountyNotificationChallenge project_id challenges target
  | None => None
  end.
End Page.

(** ** A number that was printed is read back *)

(** A numeral that starts with a zero goes on with a point or an exponent. *)
Lemma numeral_zero t x d r : numeral t x -> t = 48%N :: d :: r -> d = 46%N \/ d = 101%N.
Proof.
  intros [i f et y Hi Hne Hz Hf He]. destruct i as [|c i]; [done|]. cbn [app]. intros [= -> E].
  destruct Hz as [Hl|Hh]; [|by simpl in Hh]. destruct i; [|done]. cbn [app] in E.
  destruct f as [|e f]; [|injection E as E _; by left]. destruct He as [|neg ds _ _]; [done|]. injection E as E _. by right.
Qed.

Lemma numeral_number t v : numeral t v -> number_of_string t = v.
Proof.
  intros Ht. pose proof (numeral_scan_number t v [] Ht I) as Hs. rewrite app_nil_r in Hs.
  destruct (numeral_head t v Ht) as (c & r & E & Hc). unfold number_of_string. rewrite (trim_trimmed t (no_space_trimmed t (numeral_no_space t v Ht))).
  assert (read_unsigned t = v) as Hr.
  { unfold read_unsigned. rewrite bool_decide_false by (rewrite E; intros [= -> _]; done).
    unfold read_decimal. rewrite Hs, E. cbn [starts_number]. unfold starts_number. by rewrite Hc. }
  rewrite E in *. apply is_digit_spec in Hc. destruct (decide (c = 48%N)) as [->|Hn].
  - destruct r as [|d r]; [done|]. by destruct (numeral_zero _ _ d r Ht eq_refl) as [-> | ->].
  - assert (c = 49 \/ c = 50 \/ c = 51 \/ c = 52 \/ c = 53 \/ c = 54 \/ c = 55 \/ c = 56 \/ c = 57)%N as Hcs by lia.
    by destruct Hcs as [->|[->|[->|[->|[->|[->|[->|[->| ->]]]]]]]].
Qed.

Lemma number_print_read x : printable x = true -> negative x = false -> number_of_string (num_to_string x) = x.
Proof.
  intros Hp Hn. destruct (num_to_string_numeral x Hp) as (t & Ht & E). rewrite Hn in E. cbn [app] in E. rewrite E, (numeral_number t _ Ht).
  by apply num_abs_pos.
Qed.

Lemma numeric_input_print x : printable x = true -> negative x = false -> parseBountyNumericInput (num_to_string x) = x.
Proof.
  intros Hp Hn. unfold parseBountyNumericInput. destruct (num_to_string_numeral x Hp) as (t & Ht & E). rewrite Hn in E. cbn [app] in E.
  assert (nonempty (trim (num_to_string x)) = true) as ->.
  { rewrite E, (trim_trimmed t (no_space_trimmed t (numeral_no_space t _ Ht))). by destruct (numeral_head t _ Ht) as (c & r & -> & _). }
  by apply number_print_read.
Qed.

Lemma slots_printable n : (1 <= n <= 100)%Z -> printable (num_of_Z n) = true /\ negative (num_of_Z n) = false.
Proof.
  intros Hn. assert (forallb (fun k => printable (num_of_Z (Z.of_nat k)) && negb (negative (num_of_Z (Z.of_nat k)))) (seq 1 100) = true) as Hf
    by (vm_compute; reflexivity).
  rewrite forallb_forall in Hf. specialize (Hf (Z.to_nat n)). rewrite Z2Nat.id in Hf by lia.
  apply andb_true_iff in Hf as [H1 H2%negb_true_iff]; [done|]. apply in_seq. lia.
Qed.

(** ** Theorems *)

Section Theorems.
Variable newURL : list N -> option (list N) -> option URL.
Variable currency : option CurrencyConfig.

(** Opening a draft bounty for editing and saving it unchanged keeps its money: the
    reward, shown as an amount in the display currency and printed as a decimal, and the
    number of slots come back as the same quota, to the unit, and the same number, together
    with the texts of the draft. *)
Theorem unedited_draft_sent_back project a :
  ordinary (quotaPerUnit (getCurrencyDisplay currency).1) = true ->
  ordinary (exchangeRate (getCurrencyDisplay currency).2) = true ->
  (0 <= p_reward_quota project < 2 ^ 49)%Z -> (1 <= p_reward_slots project <= 100)%Z ->
  printable (quotaUnitsToDollars currency (num_of_Z (p_reward_quota project))) = true ->
  p_status project = Draft ->
  validateBountyDraft newURL (projectToDraft currency project) = [] ->
  exists rest,
    (saveDraft newURL currency a (openEditDialog currency project)).2 =
    Send (UpdateBounty (p_id project)
            (mkInput (trim (p_repository_url project)) (trim (p_title project)) (trim (p_description project)) (trim (p_rules project))
               (num_of_Z (p_reward_quota project)) (num_of_Z (p_reward_slots project)))) :: rest.
Proof.
  intros Hq Hr Hu Hs Hp Hst Hv. destruct (quota_read_back currency _ Hq Hr Hu) as [(_ & _ & Hneg) Hback].
  destruct (slots_printable _ Hs) as [Hsp Hsn].
  assert (negative (quotaUnitsToDollars currency (num_of_Z (p_reward_quota project))) = false) as Hn
    by (destruct (quotaUnitsToDollars _ _) as [| | |[]]; done).
  unfold saveDraft, openEditDialog. cbn [draft editingProject draftOpen]. rewrite Hv.
  unfold draft_input. cbn [draft editingProject]. unfold live_funds. rewrite Hst. cbn [projectToDraft repositoryUrl title description rules rewardAmount rewardSlots].
  rewrite !bool_decide_false by done. cbn [orb]. rewrite (numeric_input_print _ Hp Hn), (numeric_input_print _ Hsp Hsn), Hback.
  unfold runAction. destruct (action_answer a); cbn [snd]; eexists; reflexivity.
Qed.

Lemma runAction_sends request m b a r : Send r ∈ (runAction request m b a).1 -> r = request.
Proof.
  unfold runAction, refresh. destruct (action_answer a) as [|code].
  - destruct (b && negb (self_answer a)), b; set_solver.
  - destruct (match code with Some c => _ | None => false end); set_solver.
Qed.

(** A tip can be paid twice: when the server has taken a tip and the request for the own
    account that follows fails, the page says that the action could not be completed and
    leaves the dialog as it was, so that sending again - with the same amount to the same
    contributor, but a new idempotency key - transfers the tip once more. *)
Theorem tip_paid_twice d c key1 key2 :
  tipTarget d = Some c ->
  num_leb (parseQuotaFromDollars currency (tipAmount d)) num_zero = false ->
  let quota := parseQuotaFromDollars currency (tipAmount d) in
  let taken_but_unseen := mkAnswers (inl ()) false in
  let '(d1, out1) := handleTip currency key1 taken_but_unseen d in
  let '(d2, out2) := handleTip currency key2 (mkAnswers (inl ()) true) d1 in
  d1 = d /\ Failure GENERIC_FAILURE ∈ out1 /\
  Send (TipChallenge (c_id c) quota (trim (tipNote d)) key1) ∈ out1 /\
  Send (TipChallenge (c_id c) quota (trim (tipNote d)) key2) ∈ out2 /\ tipTarget d2 = None.
Proof.
  clear newURL. intros Hc Hq. cbn zeta. unfold handleTip at 1. rewrite Hc, Hq. cbn [runAction action_answer self_answer andb negb fst snd].
  unfold handleTip. rewrite Hc, Hq. cbn. split_and!; [done|set_solver..|done].
Qed.

(** ** What is sent has been checked *)

Definition input_ok (live : bool) (i : DraftInput) : Prop :=
  isGithubRepositoryUrl newURL (i_repository_url i) = true /\
  (4 <= length (i_title i) <= 120)%nat /\ (20 <= length (i_description i) <= 2000)%nat /\ (20 <= length (i_rules i) <= 5000)%nat /\
  if live then i_reward_quota i = num_zero /\ i_reward_slots i = num_zero
  else is_integer (i_reward_slots i) = true /\ num_ltb (i_reward_slots i) (num_of_Z 1) = false /\ num_ltb (num_of_Z 100) (i_reward_slots i) = false.

Definition rating_ok (score : spec_float) (comment : list N) : Prop :=
  num_ltb score (num_of_Z 1) = false /\ num_ltb five score = false /\ (2 <= length comment)%nat.

Lemma draft_checked (f : DraftForm) : validateBountyDraft newURL f = [] ->
  isGithubRepositoryUrl newURL (repositoryUrl f) = true /\ length_between 4 120 (title f) = true /\
  length_between 20 2000 (description f) = true /\ length_between 20 5000 (rules f) = true /\
  is_integer (parseBountyNumericInput (rewardSlots f)) = true /\
  num_ltb (parseBountyNumericInput (rewardSlots f)) (num_of_Z 1) = false /\ num_ltb (num_of_Z 100) (parseBountyNumericInput (rewardSlots f)) = false.
Proof.
  unfold validateBountyDraft. cbn zeta.
  destruct (isGithubRepositoryUrl newURL (repositoryUrl f)), (length_between 4 120 (title f)), (length_between 20 2000 (description f)),
    (length_between 20 5000 (rules f)); try done. destruct (negb _ || num_leb _ _); [done|]. cbn [app].
  destruct (is_integer _), (num_ltb _ (num_of_Z 1)), (num_ltb (num_of_Z 100) _); done.
Qed.

Lemma length_between_spec lo hi s : length_between lo hi s = true -> (lo <= length (trim s) <= hi)%nat.
Proof. unfold length_between. rewrite andb_true_iff, !Nat.leb_le. done. Qed.

Lemma save_checked a d r : Send r ∈ (saveDraft newURL currency a d).2 ->
  input_ok (live_funds (editingProject d)) (draft_input currency d) /\
  r = match editingProject d with Some p => UpdateBounty (p_id p) (draft_input currency d) | None => CreateBounty (draft_input currency d) end.
Proof.
  unfold saveDraft. destruct (validateBountyDraft newURL (draft d)) as [|f fs] eqn:Ev; [|cbn; set_solver].
  destruct (runAction _ _ false a) as [out ok] eqn:Er. cbn [snd]. intros H. split.
  - destruct (draft_checked _ Ev) as (H1 & H2%length_between_spec & H3%length_between_spec & H4%length_between_spec & H5 & H6 & H7).
    unfold input_ok, draft_input. cbn [i_repository_url i_title i_description i_rules i_reward_quota i_reward_slots].
    split_and!; [|lia..|by destruct (live_funds (editingProject d))]. unfold isGithubRepositoryUrl in *. by rewrite trim_idemp.
  - eapply runAction_sends. by rewrite Er.
Qed.

Lemma rating_checked score comment : rating_refused score comment = false -> rating_ok score (trim comment).
Proof. unfold rating_refused, rating_ok. rewrite !orb_false_iff, Nat.ltb_ge. tauto. Qed.

Lemma owner_buttons_status p l busy :
  (BClose ∈ owner_buttons p l busy -> closeBlocked l = false /\ (p_status p = Published \/ p_status p = Paused)) /\
  (BPublish ∈ owner_buttons p l busy -> p_status p = Draft).
Proof.
  unfold owner_buttons. destruct busy; [set_solver|].
  destruct (p_status p), (closeBlocked l), (0 <? p_archived_at p)%Z; rewrite ?elem_of_cons, ?elem_of_nil; naive_solver.
Qed.

Lemma owner_click_sends p l busy c b a r : Send r ∈ owner_click p l busy c b a ->
  exists m bal, owner_request (p_id p) b = Some (r, m, bal) /\ b ∈ owner_buttons p l busy /\ (b = BPublish -> c = true).
Proof.
  unfold owner_click. destruct (bool_decide_reflect (b ∈ owner_buttons p l busy)) as [Hb|]; [|set_solver].
  intros H. assert (exists m bal r', owner_request (p_id p) b = Some (r', m, bal) /\
    Send r ∈ (if bool_decide (b = BPublish) && negb c then [] else (runAction r' m bal a).1)) as (m & bal & r' & Hr & Hin).
  { destruct b; cbn [owner_request] in *; try set_solver; eexists _, _, _; split; done. }
  exists m, bal. destruct (bool_decide_reflect (b = BPublish)) as [->|Hn].
  - destruct c; cbn [andb negb] in Hin; [|set_solver]. apply runAction_sends in Hin as ->. done.
  - cbn [andb] in Hin. apply runAction_sends in Hin as ->. done.
Qed.

(** C24: Nothing is sent that was not checked: a saved bounty names a GitHub repository, has
    texts of the allowed lengths and between one and a hundred slots, and carries no funds at
    all when the bounty is already published or paused; work is submitted with a link, a
    challenge accepted with a handle, a rating given with a score from one to five and a text,
    a tip with a positive quota, a dispute resolved with a text of ten characters after a
    confirmation; and a bounty is closed only while nothing blocks it, published only from a
    draft and after a confirmation. *)
Theorem bounty_requests_checked :
  (forall a d r, Send r ∈ (saveDraft newURL currency a d).2 ->
     exists i, input_ok (live_funds (editingProject d)) i /\ (r = CreateBounty i \/ exists p, editingProject d = Some p /\ r = UpdateBounty (p_id p) i)) /\
  (forall a d r, Send r ∈ (handleAccept a d).2 -> exists id h, r = AcceptBounty id h /\ nonempty h = true) /\
  (forall a d r, Send r ∈ (handleSubmit a d).2 ->
     exists id w, r = SubmitChallenge id w /\ (nonempty (issueUrl w) = true \/ nonempty (pullRequestUrl w) = true)) /\
  (forall a d r, Send r ∈ (handleReview a d).2 -> exists id act n s t, r = ReviewChallenge id act n s t /\ rating_ok s t) /\
  (forall a d r, Send r ∈ (handleRateOwner a d).2 -> exists id s t, r = RateBountyOwner id s t /\ rating_ok s t) /\
  (forall key a d r, Send r ∈ (handleTip currency key a d).2 -> exists id q n, r = TipChallenge id q n key /\ num_leb q num_zero = false) /\
  (forall c a d r, Send r ∈ (resolve c a d).2 -> exists id act t, r = ResolveDispute id act t /\ (10 <= length t)%nat /\ c = true) /\
  (forall p l busy c b a id, Send (CloseBounty id) ∈ owner_click p l busy c b a ->
     id = p_id p /\ closeBlocked l = false /\ (p_status p = Published \/ p_status p = Paused)) /\
  (forall p l busy c b a id, Send (PublishBounty id) ∈ owner_click p l busy c b a -> id = p_id p /\ p_status p = Draft /\ c = true).
Proof.
  split_and!.
  - intros a d r [H1 ->]%save_checked. exists (draft_input currency d). split; [done|].
    destruct (editingProject d) as [p|]; [right; by exists p|by left].
  - intros a d r. unfold handleAccept. destruct (acceptProject d) as [id|]; [|set_solver].
    destruct (nonempty (trim (githubHandle d))) eqn:En; cbn [negb]; [|set_solver].
    destruct (runAction _ _ false a) as [out ok] eqn:Er. cbn [snd]. intros H. exists id, (trim (githubHandle d)). split; [|done].
    eapply runAction_sends. by rewrite Er.
  - intros a d r. unfold handleSubmit. destruct (submitTarget d) as [[id c]|]; [|set_solver].
    destruct (validateBountySubmissionLinks (submission d)) eqn:Ev; [set_solver|].
    destruct (runAction _ _ false a) as [out ok] eqn:Er. cbn [snd]. intros H. eexists id, _. split; [eapply runAction_sends; by rewrite Er|].
    cbn [issueUrl pullRequestUrl]. unfold validateBountySubmissionLinks in Ev.
    apply andb_false_iff in Ev as [Ev|Ev]; apply negb_false_iff in Ev; auto.
  - intros a d r. unfold handleReview. destruct (reviewTarget d) as [[c act]|]; [|set_solver].
    destruct (rating_refused _ _) eqn:Ev; [set_solver|]. apply rating_checked in Ev.
    destruct (runAction _ _ _ a) as [out ok] eqn:Er. intros H.
    assert (Send r ∈ out) as Ho by (destruct ok; cbn [snd] in H; [apply elem_of_app in H as [H|H]; [done|set_solver]|done]).
    eexists _, _, _, _, _. split; [eapply runAction_sends; by rewrite Er|done].
  - intros a d r. unfold handleRateOwner. destruct (ratingTarget d) as [c|]; [|set_solver].
    destruct (rating_refused _ _) eqn:Ev; [set_solver|]. apply rating_checked in Ev.
    destruct (runAction _ _ _ a) as [out ok] eqn:Er. cbn [snd]. intros H.
    eexists _, _, _. split; [eapply runAction_sends; by rewrite Er|done].
  - intros key a d r. unfold handleTip. destruct (tipTarget d) as [c|]; [|set_solver].
    destruct (num_leb _ _) eqn:Ev; [set_solver|]. destruct (runAction _ _ _ a) as [out ok] eqn:Er. intros H.
    assert (Send r ∈ out) as Ho by (destruct ok; cbn [snd] in H; [apply elem_of_app in H as [H|H]; [done|set_solver]|done]).
    eexists _, _, _. split; [eapply runAction_sends; by rewrite Er|done].
  - intros c a d r. unfold resolve. destruct (resolveTarget d) as [[dis act]|]; [|set_solver].
    destruct (Nat.ltb_spec (length (trim (resolution d))) 10); [set_solver|]. destruct c; cbn [negb]; [|set_solver].
    intros Hr. exists (d_id dis), act, (trim (resolution d)). split; [|done]. destruct (action_answer a); set_solver.
  - intros p l busy c b a id (m & bal & Hr & Hb & _)%owner_click_sends.
    assert (b = BClose /\ id = p_id p) as [-> ->] by (destruct b; naive_solver).
    split; [done|]. destruct (owner_buttons_status p l busy) as [Hclose _]. auto.
  - intros p l busy c b a id (m & bal & Hr & Hb & Hc)%owner_click_sends.
    assert (b = BPublish /\ id = p_id p) as [-> ->] by (destruct b; naive_solver).
    destruct (owner_buttons_status p l busy) as [_ Hpublish]. auto.
Qed.
End Theorems.

(** ** Witnesses *)

Definition sample_url : URL :=
  mkURL (js "https:") (js "github.com") [] [] [] (js "https://github.com") (js "github.com") (js "/owner/repo")
    (js "https://github.com/owner/repo") [] [].

Definition sample_parser (value : list N) (base : option (list N)) : option URL :=
  if bool_decide (value = js "https://github.com/owner/repo") then Some sample_url else None.

Definition sample_project : BountyProject :=
  mkProject 4 1 (js "https://github.com/owner/repo") (js "Fix the parser") (js "The parser loses a token at the end.")
    (js "A test that fails before and passes after.") 499999 2 Draft 0 None 0 None None 0 None None None None None None None.

Lemma unedited_draft_sent_back_witness :
  exists rest,
    (saveDraft sample_parser None (mkAnswers (inl ()) true) (openEditDialog None sample_project)).2 =
    Send (UpdateBounty 4
            (mkInput (js "https://github.com/owner/repo") (js "Fix the parser") (js "The parser loses a token at the end.")
               (js "A test that fails before and passes after.") (num_of_Z 499999) (num_of_Z 2))) :: rest.
Proof.
  apply (unedited_draft_sent_back sample_parser None sample_project (mkAnswers (inl ()) true));
    first [vm_compute; reflexivity | cbn; lia].
Defined.

Definition sample_challenge : BountyChallenge := mkChallenge 9 4 Submitted (js "octocat") [] [] [] 0 None.

Lemma tip_paid_twice_witness :
  let d := mkTipDialog (Some sample_challenge) (num_of_Z 3) (js "thanks") in
  let '(d1, out1) := handleTip None (js "k1") (mkAnswers (inl ()) false) d in
  Send (TipChallenge 9 (num_of_Z 1500000) (js "thanks") (js "k1")) ∈ out1 /\
  Send (TipChallenge 9 (num_of_Z 1500000) (js "thanks") (js "k2")) ∈ (handleTip None (js "k2") (mkAnswers (inl ()) true) d1).2.
Proof.
  pose proof (tip_paid_twice None (mkTipDialog (Some sample_challenge) (num_of_Z 3) (js "thanks")) sample_challenge (js "k1") (js "k2")
    eq_refl ltac:(vm_compute; reflexivity)) as H.
  revert H. cbn zeta. destruct (handleTip None (js "k1") _ _) as [d1 out1]. destruct (handleTip None (js "k2") _ d1) as [d2 out2].
  intros (_ & _ & H1 & H2 & _). split; [exact H1|exact H2].
Defined.
