(* ===== verification/TableUrlState.v ===== *)
(** * The state of a table in the address (src/apps/web/src/hooks/use-table-url-state.ts)

    Pages, page sizes, the global filter and the column filters of a table live in the search
    parameters; the hook reads them from there and writes them back.  With the search field of
    components/data-table/toolbar/toolbar.tsx, which keeps a draft of what is being typed.
    The router is given: navigating replaces the parameters, a parameter set to [undefined]
    is dropped, and equal parameters are the same object. *)
From S2P Require Import Prelude JsString JsNumber JsExact JsRound JsJson JsNumberPrint JsObject StatusGroups.
From Stdlib Require Import Lia.

(** ** Parameters *)


(** The search parameters; a missing key is [undefined]. *)
Notation SearchRecord := (gmap (list N) json).

Definition set_param (k : list N) (v : option json) (s : SearchRecord) : SearchRecord :=
  match v with Some x => <[k := x]> s | None => delete k s end.

Inductive FilterType := TString | TArray.

Record ColumnConfig := mkColumn {
  columnId : list N;
  searchKey : list N;
  cfg_type : option FilterType;
  serialize : json -> option json;
  deserialize : option json -> option json }.

Record Config := mkConfig {
  pageKey : list N;
  pageSizeKey : list N;
  defaultPage : spec_float;
  defaultPageSize : spec_float;
  globalFilterKey : list N;
  globalFilterEnabled : bool;
  trimGlobal : bool;
  columnFiltersCfg : list ColumnConfig }.

(** ** Reading *)

Definition initial_filter (search : SearchRecord) (cfg : ColumnConfig) : option (list N * json) :=
  let value := deserialize cfg (search !! searchKey cfg) in
  match cfg_type cfg with
  | Some TString => match value with Some (JStr s) => if nonempty (trim s) then Some (columnId cfg, JStr s) else None | _ => None end
  | _ => match value with Some (JArr (x :: xs)) => Some (columnId cfg, JArr (x :: xs)) | _ => None end
  end.

Definition initialColumnFilters (c : Config) (search : SearchRecord) : list (list N * json) :=
  omap (initial_filter search) (columnFiltersCfg c).

(** [Number.parseInt(s, 10)], when it is a number: a sign and the leading digits. *)
Definition parse_int (s : list N) : option Z :=
  let '(neg, r) := match trim_start s with 45%N :: r => (true, r) | 43%N :: r => (false, r) | r => (false, r) end in
  match (span is_digit r).1 with
  | [] => None
  | ds => let n := Z.of_N (dec_value ds) in Some (if neg : bool then (- n)%Z else n)
  end.

Definition getStoredPageSize (stored : option (list N)) : option spec_float :=
  n ← parse_int (default [] stored); if (0 <? n)%Z then Some (num_of_Z n) else None.

Definition number_param (k : list N) (fallback : spec_float) (search : SearchRecord) : spec_float :=
  match search !! k with Some (JNum n) => n | _ => fallback end.

Definition num_1 : spec_float := num_of_Z 1.

Record Pagination := mkPagination { pageIndex : spec_float; pageSize : spec_float }.

Definition pagination (c : Config) (search : SearchRecord) (stored : option (list N)) : Pagination :=
  mkPagination (num_max [num_zero; num_sub (number_param (pageKey c) (defaultPage c) search) num_1])
    (number_param (pageSizeKey c) (default (defaultPageSize c) (getStoredPageSize stored)) search).

Definition urlGlobalFilter (c : Config) (search : SearchRecord) : option (list N) :=
  if globalFilterEnabled c then Some (match search !! globalFilterKey c with Some (JStr s) => s | _ => [] end) else None.

(** ** The hook *)

Record Table := mkTable {
  search : SearchRecord;
  stored : option (list N);
  columnFilters : list (list N * json);
  globalFilter : option (list N) }.

Definition mount (c : Config) (s : SearchRecord) (st : option (list N)) : Table := mkTable s st (initialColumnFilters c s) (urlGlobalFilter c s).

(** The parameters change, from here or from the browser's history: the effects bring the
    filters back to what the address says. *)
Definition navigated (c : Config) (s : SearchRecord) (t : Table) : Table :=
  mkTable s (stored t)
    (if decide (s = search t) then columnFilters t else initialColumnFilters c s)
    (if decide (urlGlobalFilter c s = urlGlobalFilter c (search t)) then globalFilter t else urlGlobalFilter c s).

Definition onPaginationChange (c : Config) (next : Pagination) (t : Table) : Table :=
  let nextPage := num_add (pageIndex next) num_1 in
  let st := if num_eqb (pageSize next) (pageSize (pagination c (search t) (stored t))) then stored t else Some (num_to_string (pageSize next)) in
  navigated c
    (set_param (pageSizeKey c) (Some (JNum (pageSize next)))
       (set_param (pageKey c) (if num_leb nextPage (defaultPage c) then None else Some (JNum nextPage)) (search t)))
    (mkTable (search t) st (columnFilters t) (globalFilter t)).

Definition onGlobalFilterChange (c : Config) (next : list N) (t : Table) : Table :=
  if globalFilterEnabled c
  then let value := if trimGlobal c then trim next else next in
       navigated c
         (set_param (globalFilterKey c) (if nonempty value then Some (JStr value) else None) (set_param (pageKey c) None (search t)))
         (mkTable (search t) (stored t) (columnFilters t) (Some value))
  else t.

(** The parameter of one column: the first filter with its id. *)
Definition filter_param (next : list (list N * json)) (cfg : ColumnConfig) : option json :=
  let found := (fun x => x.2.2) <$> list_find (fun f => f.1 = columnId cfg) next in
  match cfg_type cfg with
  | Some TString => match found with Some (JStr s) => if nonempty (trim s) then serialize cfg (JStr s) else None | _ => None end
  | _ => match found with Some (JArr (x :: xs)) => serialize cfg (JArr (x :: xs)) | _ => None end
  end.

Definition patch (next : list (list N * json)) (cfgs : list ColumnConfig) (s : SearchRecord) : SearchRecord :=
  foldl (fun s cfg => set_param (searchKey cfg) (filter_param next cfg) s) s cfgs.

Definition onColumnFiltersChange (c : Config) (next : list (list N * json)) (t : Table) : Table :=
  navigated c (patch next (columnFiltersCfg c) (set_param (pageKey c) None (search t)))
    (mkTable (search t) (stored t) next (globalFilter t)).

Inductive ResetTo := First | Last.

Definition ensurePageInRange (c : Config) (pageCount : spec_float) (resetTo : ResetTo) (t : Table) : Table :=
  let pageNum := number_param (pageKey c) (defaultPage c) (search t) in
  if num_ltb num_zero pageCount && num_ltb pageCount pageNum
  then navigated c (set_param (pageKey c) (match resetTo with Last => Some (JNum pageCount) | First => None end) (search t)) t
  else t.

(** ** Theorems *)

Lemma set_param_eq k v s : set_param k v s !! k = v.
Proof. destruct v; cbn; [apply lookup_insert_eq|apply lookup_delete_eq]. Qed.
Lemma set_param_ne k k' v s : k <> k' -> set_param k v s !! k' = s !! k'.
Proof. intros. destruct v; cbn; [by apply lookup_insert_ne|by apply lookup_delete_ne]. Qed.

Lemma patch_other next cfgs s k : Forall (fun cfg => searchKey cfg <> k) cfgs -> patch next cfgs s !! k = s !! k.
Proof.
  intros H. revert s. induction H as [|cfg cfgs Hc _ IH]; intros s; [done|]. unfold patch in *. cbn [foldl]. rewrite IH. by apply set_param_ne.
Qed.

Lemma patch_own next cfgs s cfg : NoDup (map searchKey cfgs) -> cfg ∈ cfgs -> patch next cfgs s !! searchKey cfg = filter_param next cfg.
Proof.
  revert s. induction cfgs as [|a cfgs IH]; intros s Hn Hin; [set_solver|]. cbn in Hn. apply NoDup_cons in Hn as [Ha Hn].
  apply elem_of_cons in Hin as [->|Hin].
  - change (patch next (a :: cfgs) s) with (patch next cfgs (set_param (searchKey a) (filter_param next a) s)).
    rewrite patch_other; [apply set_param_eq|]. apply Forall_forall. intros x Hx E. apply Ha. rewrite <- E. by apply list_elem_of_fmap_2.
  - apply IH; done.
Qed.

(** A page chosen in a table is the page read back from the address: after
    [onPaginationChange] the pagination is the one that was asked for - the first page through
    the absence of the parameter, any other through its number - and the page size too, also
    when the table is mounted again from that address. *)
Theorem chosen_page_read_back c i size t st :
  defaultPage c = num_1 -> pageKey c <> pageSizeKey c -> (0 <= i < 2 ^ 52)%Z ->
  let t' := onPaginationChange c (mkPagination (num_of_Z i) size) t in
  pagination c (search t') st = mkPagination (num_of_Z i) size /\
  (search t' !! pageKey c = None <-> i = 0%Z) /\
  (forall k, k <> pageKey c -> k <> pageSizeKey c -> search t' !! k = search t !! k).
Proof.
  intros Hd Hk Hi. cbn zeta. unfold onPaginationChange, navigated, pagination, number_param. cbn [search pageIndex pageSize].
  rewrite set_param_eq, (set_param_ne (pageSizeKey c) (pageKey c)) by done. rewrite set_param_eq, Hd. unfold num_1.
  rewrite num_of_Z_add by (unfold MAX_SAFE; lia). split_and!.
  - f_equal. destruct (decide (i = 0%Z)) as [->|Hi0]; [vm_compute; reflexivity|].
    rewrite whole_above_one by (unfold MAX_SAFE; lia). rewrite num_of_Z_sub by (unfold MAX_SAFE; lia).
    replace (i + 1 - 1)%Z with i by lia. apply whole_max. unfold MAX_SAFE. lia.
  - destruct (decide (i = 0%Z)) as [->|Hi0]; [done|]. rewrite whole_above_one by (unfold MAX_SAFE; lia). done.
  - intros k H1 H2. by rewrite !set_param_ne.
Qed.

(** The filter of a column that the address keeps. *)
Definition kept_filter (next : list (list N * json)) (cfg : ColumnConfig) : option (list N * json) :=
  match cfg_type cfg, (fun x => x.2.2) <$> list_find (fun f => f.1 = columnId cfg) next with
  | Some TString, Some (JStr s) => if nonempty (trim s) then Some (columnId cfg, JStr s) else None
  | (None | Some TArray), Some (JArr (x :: xs)) => Some (columnId cfg, JArr (x :: xs))
  | _, _ => None
  end.

(** What a column's own conversions must do: undo each other, and make nothing of nothing. *)
Definition converts (cfg : ColumnConfig) : Prop :=
  (forall v, deserialize cfg (serialize cfg v) = Some v) /\ deserialize cfg None = None.

Lemma filter_read next cfg s : converts cfg -> s !! searchKey cfg = filter_param next cfg -> initial_filter s cfg = kept_filter next cfg.
Proof.
  intros [Hc Hn] E. unfold initial_filter, kept_filter. rewrite E. unfold filter_param.
  destruct (cfg_type cfg) as [[]|], (_ <$> _) as [[|b|n|x|[|y ys]|m]|]; rewrite ?Hn, ?Hc; try done.
  destruct (nonempty (trim x)) eqn:Ex; [by rewrite Hc, Ex|by rewrite Hn].
Qed.

(** Column filters survive in the address: after [onColumnFiltersChange] the filters read
    from the parameters - and so those of a table mounted from the same address - are the
    non-empty ones that were chosen, column by column; the table goes back to its first page;
    and no parameter that belongs to neither changes. *)
Theorem column_filters_read_back c next t :
  NoDup (map searchKey (columnFiltersCfg c)) -> pageKey c ∉ map searchKey (columnFiltersCfg c) ->
  Forall converts (columnFiltersCfg c) ->
  let t' := onColumnFiltersChange c next t in
  initialColumnFilters c (search t') = omap (kept_filter next) (columnFiltersCfg c) /\
  (columnFilters t' = next \/ columnFilters t' = omap (kept_filter next) (columnFiltersCfg c)) /\
  search t' !! pageKey c = None /\
  (forall k, k <> pageKey c -> k ∉ map searchKey (columnFiltersCfg c) -> search t' !! k = search t !! k).
Proof.
  intros Hn Hp Hc. cbn zeta. unfold onColumnFiltersChange. set (s' := patch _ _ _).
  assert (forall k, k ∉ map searchKey (columnFiltersCfg c) -> Forall (fun cfg => searchKey cfg <> k) (columnFiltersCfg c)) as Hother.
  { intros k Hk. apply Forall_forall. intros cfg Hin E. apply Hk. rewrite <- E. by apply list_elem_of_fmap_2. }
  assert (initialColumnFilters c s' = omap (kept_filter next) (columnFiltersCfg c)) as Hread.
  { unfold initialColumnFilters. assert (forall cfg, cfg ∈ columnFiltersCfg c -> initial_filter s' cfg = kept_filter next cfg) as Hf.
    { intros cfg Hin. apply filter_read; [by eapply Forall_forall in Hc|]. by apply patch_own. }
    revert Hf. generalize (columnFiltersCfg c). induction l as [|a l IH]; intros Hf; [done|]. cbn [omap list_omap].
    rewrite (Hf a) by set_solver. rewrite IH by set_solver. done. }
  cbn [search navigated columnFilters]. split_and!; [done| | |].
  - destruct (decide _); [by left|by right].
  - subst s'. rewrite patch_other by auto. apply set_param_eq.
  - intros k H1 H2. subst s'. rewrite patch_other by auto. by apply set_param_ne.
Qed.

(** A page beyond the last one is left at once: after [ensurePageInRange] the page is not
    beyond the count, and doing it again changes nothing, so the correction cannot loop. *)
Theorem page_correction_settles c n resetTo t :
  defaultPage c = num_1 -> (1 <= n < MAX_SAFE)%Z ->
  let t' := ensurePageInRange c (num_of_Z n) resetTo t in
  num_ltb (num_of_Z n) (number_param (pageKey c) (defaultPage c) (search t')) = false /\
  ensurePageInRange c (num_of_Z n) resetTo t' = t'.
Proof.
  intros Hd Hn. cbn zeta.
  assert (forall u, num_ltb (num_of_Z n) (number_param (pageKey c) (defaultPage c) (search u)) = false -> ensurePageInRange c (num_of_Z n) resetTo u = u) as Hstop.
  { intros u Hu. unfold ensurePageInRange. by rewrite Hu, andb_false_r. }
  assert (num_ltb (num_of_Z n) (number_param (pageKey c) (defaultPage c) (search (ensurePageInRange c (num_of_Z n) resetTo t))) = false) as Hin;
    [|split; [done|by apply Hstop]].
  unfold ensurePageInRange. destruct (num_ltb num_zero (num_of_Z n)) eqn:Ep; cbn [andb].
  2: { by destruct (num_of_Z_normal n ltac:(lia)) as (k & [E _] & _); rewrite E in Ep. }
  destruct (num_ltb (num_of_Z n) (number_param (pageKey c) (defaultPage c) (search t))) eqn:Eo; [|done]. cbn [search navigated]. unfold number_param. rewrite set_param_eq.
  destruct resetTo; [rewrite Hd; by apply whole_not_below_one|].
  destruct (num_of_Z_normal n ltac:(lia)) as (k & [E _] & _). rewrite E. unfold num_ltb, SFltb, SFcompare. by rewrite Z.compare_refl, Pos.compare_cont_refl.
Qed.

(** ** The search field of the toolbar, without a delay *)

Record SearchField := mkField { searchDraft : option (list N * list N); isSearchComposing : bool }.

Definition currentSearchValue (t : Table) : list N := default [] (globalFilter t).

(** The text the field shows: the draft while it belongs to the current value. *)
Definition searchValue (f : SearchField) (t : Table) : list N :=
  match searchDraft f with
  | Some (baseValue, value) => if isSearchComposing f || bool_decide (baseValue = currentSearchValue t) then value else currentSearchValue t
  | None => currentSearchValue t
  end.

Definition commitSearchValue (c : Config) (value : list N) (t : Table) : Table :=
  if decide (value = currentSearchValue t) then t else onGlobalFilterChange c value t.

Definition handleSearchChange (c : Config) (value : list N) (f : SearchField) (t : Table) : SearchField * Table :=
  (mkField (Some (currentSearchValue t, value)) (isSearchComposing f), if isSearchComposing f then t else commitSearchValue c value t).

Definition handleCompositionStart (f : SearchField) : SearchField := mkField (searchDraft f) true.

Definition handleCompositionEnd (c : Config) (value : list N) (f : SearchField) (t : Table) : SearchField * Table :=
  (mkField (Some (currentSearchValue t, value)) false, commitSearchValue c value t).

(** The filter follows the text, without the spaces around it. *)
Lemma commit_trims c v t : globalFilterEnabled c = true -> trimGlobal c = true -> trimmed (currentSearchValue t) ->
  pageKey c <> globalFilterKey c -> globalFilter t = urlGlobalFilter c (search t) ->
  currentSearchValue (commitSearchValue c v t) = trim v /\ globalFilter (commitSearchValue c v t) = urlGlobalFilter c (search (commitSearchValue c v t)).
Proof.
  intros He Ht Hc Hk Hu. unfold commitSearchValue. destruct (decide _) as [->|Hn]; [by rewrite trim_trimmed|].
  unfold onGlobalFilterChange. rewrite He, Ht. unfold navigated, currentSearchValue. cbn [globalFilter search].
  assert (urlGlobalFilter c (set_param (globalFilterKey c) (if nonempty (trim v) then Some (JStr (trim v)) else None) (set_param (pageKey c) None (search t))) = Some (trim v)) as ->.
  { unfold urlGlobalFilter. rewrite He, set_param_eq. by destruct (trim v). }
  destruct (decide _); done.
Qed.

Lemma trim_trailing_space w : trimmed w -> w <> [] -> trim (w ++ js " ") = w.
Proof.
  intros [H1 H2] Hne. destruct w as [|c w]; [done|]. unfold trim, trim_start, trim_end. rewrite <- app_comm_cons, drop_while_id by done.
  rewrite app_comm_cons, reverse_app. change (reverse (js " ")) with [32%N].
  change (drop_while is_space ([32%N] ++ reverse (c :: w))) with (drop_while is_space (reverse (c :: w))).
  destruct (reverse (c :: w)) as [|d r] eqn:E; [by apply (f_equal length) in E; rewrite length_reverse in E|]. rewrite drop_while_id by done. by rewrite <- E, reverse_involutive.
Qed.

Lemma url_current c t : globalFilterEnabled c = true -> globalFilter t = urlGlobalFilter c (search t) ->
  urlGlobalFilter c (search t) = Some (currentSearchValue t).
Proof. intros He Hu. unfold currentSearchValue. rewrite Hu. unfold urlGlobalFilter. by rewrite He. Qed.

(** The field after a change that was committed. *)
Lemma field_after c v f t : isSearchComposing f = false ->
  let '(f', t') := handleSearchChange c v f t in
  t' = commitSearchValue c v t /\ isSearchComposing f' = false /\
  searchValue f' t' = if decide (currentSearchValue t = currentSearchValue t') then v else currentSearchValue t'.
Proof.
  intros Hf. unfold handleSearchChange, searchValue. cbn [searchDraft isSearchComposing]. rewrite Hf. cbn [orb]. split_and!; [done..|].
  by destruct (decide _) as [E|E]; [rewrite bool_decide_true|rewrite bool_decide_false].
Qed.

(** Words can be typed into the search field although the filter is trimmed: in a table
    whose filter [w] is what the address says, typing a space leaves the filter alone and the
    field shows the space; the next letter makes the filter - in the address too - the text with
    the space inside, and the field shows it. *)
Theorem words_can_be_typed c w x f t :
  globalFilterEnabled c = true -> trimGlobal c = true -> pageKey c <> globalFilterKey c ->
  isSearchComposing f = false -> globalFilter t = Some w -> urlGlobalFilter c (search t) = Some w -> trimmed w -> w <> [] -> is_space x = false ->
  let '(f1, t1) := handleSearchChange c (w ++ js " ") f t in
  let '(f2, t2) := handleSearchChange c (w ++ js " " ++ [x]) f1 t1 in
  searchValue f1 t1 = w ++ js " " /\ urlGlobalFilter c (search t1) = Some w /\
  searchValue f2 t2 = w ++ js " " ++ [x] /\ urlGlobalFilter c (search t2) = Some (w ++ js " " ++ [x]).
Proof.
  intros He Ht Hk Hf Hg Hu Hw Hne Hx.
  assert (currentSearchValue t = w) as Ec by (unfold currentSearchValue; by rewrite Hg).
  pose proof (field_after c (w ++ js " ") f t Hf) as F1. destruct (handleSearchChange c (w ++ js " ") f t) as [f1 t1].
  destruct F1 as (-> & Hf1 & S1).
  destruct (commit_trims c (w ++ js " ") t He Ht ltac:(by rewrite Ec) Hk ltac:(by rewrite Hg, Hu)) as [E1 U1].
  set (t1 := commitSearchValue c (w ++ js " ") t) in *. rewrite trim_trailing_space in E1 by done.
  pose proof (field_after c (w ++ js " " ++ [x]) f1 t1 Hf1) as F2. destruct (handleSearchChange c (w ++ js " " ++ [x]) f1 t1) as [f2 t2].
  destruct F2 as (-> & Hf2 & S2).
  destruct (commit_trims c (w ++ js " " ++ [x]) t1 He Ht ltac:(by rewrite E1) Hk U1) as [E2 U2].
  set (t2 := commitSearchValue c (w ++ js " " ++ [x]) t1) in *.
  rewrite trim_trimmed in E2 by (apply trimmed_around; [done|done|by split|done]).
  rewrite S1, Ec, E1, S2, E1, E2, decide_True by done.
  split_and!; [done|by rewrite (url_current c t1 He U1), E1| |by rewrite (url_current c t2 He U2), E2].
  by destruct (decide (w = w ++ js " " ++ [x])) as [E|E].
Qed.

(** ** Witnesses *)

Definition sample_column (id key : string) (ty : FilterType) : ColumnConfig := mkColumn (js id) (js key) (Some ty) Some (fun v => v).

Definition sample_config : Config :=
  mkConfig (js "page") (js "pageSize") num_1 (num_of_Z 20) (js "filter") true true
    [sample_column "status" "status" TArray; sample_column "group" "group" TString].

Definition sample_table : Table :=
  mount sample_config (<[js "page" := JNum (num_of_Z 9)]> (<[js "filter" := JStr (js "foo")]> (<[js "tab" := JStr (js "all")]> ∅))) None.

Lemma chosen_page_read_back_witness :
  pagination sample_config (search (onPaginationChange sample_config (mkPagination (num_of_Z 4) (num_of_Z 50)) sample_table)) None =
  mkPagination (num_of_Z 4) (num_of_Z 50).
Proof. apply (chosen_page_read_back sample_config 4 (num_of_Z 50) sample_table None); [reflexivity|discriminate|lia]. Defined.

Lemma column_filters_read_back_witness :
  initialColumnFilters sample_config
    (search (onColumnFiltersChange sample_config [(js "group", JStr (js "vip")); (js "status", JArr [JStr (js "1")])] sample_table)) =
  [(js "status", JArr [JStr (js "1")]); (js "group", JStr (js "vip"))].
Proof.
  apply (column_filters_read_back sample_config [(js "group", JStr (js "vip")); (js "status", JArr [JStr (js "1")])] sample_table).
  - cbn. repeat constructor; vm_compute; set_solver.
  - vm_compute. set_solver.
  - repeat constructor.
Defined.

Lemma page_correction_settles_witness :
  number_param (js "page") num_1 (search (ensurePageInRange sample_config (num_of_Z 3) Last sample_table)) = num_of_Z 3 /\
  ensurePageInRange sample_config (num_of_Z 3) Last (ensurePageInRange sample_config (num_of_Z 3) Last sample_table) =
  ensurePageInRange sample_config (num_of_Z 3) Last sample_table.
Proof. split; [vm_compute; reflexivity|]. apply (page_correction_settles sample_config 3 Last sample_table); [reflexivity|unfold MAX_SAFE; lia]. Defined.

Lemma words_can_be_typed_witness :
  let '(f1, t1) := handleSearchChange sample_config (js "foo ") (mkField None false) sample_table in
  let '(f2, t2) := handleSearchChange sample_config (js "foo b") f1 t1 in
  searchValue f1 t1 = js "foo " /\ urlGlobalFilter sample_config (search t1) = Some (js "foo") /\
  searchValue f2 t2 = js "foo b" /\ urlGlobalFilter sample_config (search t2) = Some (js "foo b").
Proof.
  apply (words_can_be_typed sample_config (js "foo") 98 (mkField None false) sample_table); try reflexivity; try discriminate.
  vm_compute. done.
Defined.
