(* ===== verification/JsOrder.v ===== *)
(** * The order of doubles and the sign of their difference

    A comparator that returns [a - b] sorts by value: the difference of two finite doubles
    has the sign of their order, since doubles underflow gradually.  Also the order of
    strings by code units. *)
From S2P Require Import Prelude JsNumber JsExact JsRound StatusGroups.
From Stdlib Require Import Lia.

(** ** Differences *)

Lemma iter_shr_div p : forall r, (0 <= shr_m r)%Z -> shr_m (SpecFloat.iter_pos shr_1 p r) = (shr_m r / 2 ^ Z.pos p)%Z.
Proof.
  assert (forall r, (0 <= shr_m r)%Z -> shr_m (shr_1 r) = (shr_m r / 2)%Z) as H1.
  { intros r Hr. destruct (shr_1_half r); [done|lia]. }
  induction p as [p IH|p IH|]; intros r Hr; simpl; [| |by apply H1].
  - pose proof (shr_1_nonneg r Hr). rewrite IH by (by apply iter_shr_nonneg). rewrite IH, H1 by done.
    rewrite !Z.div_div by lia. f_equal. rewrite (Pos2Z.inj_xI p).
    replace (2 * Z.pos p + 1)%Z with (1 + (Z.pos p + Z.pos p))%Z by lia. rewrite !Z.pow_add_r by lia. lia.
  - rewrite IH by (by apply iter_shr_nonneg). rewrite IH by done. rewrite Z.div_div by lia. f_equal.
    rewrite <- Z.pow_add_r by lia. f_equal. lia.
Qed.

(** Rounding a mantissa whose exponent is in range leaves something. *)
Lemma shr_fexp_pos m e l : (0 < m)%Z -> (-1074 <= e)%Z ->
  (0 < shr_m (shr_fexp 53 1024 m e l).1)%Z /\ (-1074 <= (shr_fexp 53 1024 m e l).2)%Z.
Proof.
  intros Hm He. unfold shr_fexp, shr, fexp, emin. assert (shr_m (shr_record_of_loc m l) = m) as Hr by (by destruct l as [|[]]).
  rewrite zdigits_log2 by done. destruct (_ - e)%Z as [|p|p] eqn:E; cbn [fst snd]; [rewrite Hr; lia| |rewrite Hr; lia].
  split; [|lia]. rewrite iter_shr_div by (rewrite Hr; lia). rewrite Hr. apply Z.div_str_pos. split; [lia|].
  transitivity (2 ^ Z.log2 m)%Z; [|by apply Z.log2_spec]. apply Z.pow_le_mono_r; lia.
Qed.

Definition strict_sign (s : bool) (x : spec_float) : Prop :=
  match x with S754_infinity b | S754_finite b _ _ => b = s | _ => False end.

Lemma binary_round_aux_strict s m e l : (0 < m)%Z -> (-1074 <= e)%Z -> strict_sign s (binary_round_aux 53 1024 s m e l).
Proof.
  intros Hm He. unfold binary_round_aux. destruct (shr_fexp_pos m e l Hm He) as [H1 H2]. destruct (shr_fexp _ _ m e l) as [r1 e1]. cbn [fst snd] in *.
  assert (0 < round_nearest_even (shr_m r1) (loc_of_shr_record r1))%Z as H3.
  { unfold round_nearest_even. destruct (loc_of_shr_record r1) as [|[]]; try lia. destruct (Z.even _); lia. }
  destruct (shr_fexp_pos _ e1 loc_Exact H3 H2) as [H4 _]. destruct (shr_fexp _ _ _ e1 loc_Exact) as [r2 e2]. cbn [fst] in H4.
  destruct (shr_m r2); [lia|by destruct (Z.leb _ _)|lia].
Qed.

Lemma binary_round_strict s m e : (-1074 <= e)%Z -> strict_sign s (binary_round 53 1024 s m e).
Proof.
  intros He. unfold binary_round, shl_align. destruct (_ - e)%Z as [|d|d] eqn:E; apply binary_round_aux_strict; try lia.
  unfold fexp, emin. lia.
Qed.

(** A double that is finite and not negative. *)
Definition amount (x : spec_float) : Prop := is_finite x = true /\ num_leb num_zero x = true /\ valid_binary 53 1024 x = true.

Lemma amount_cases x : amount x -> (exists s, x = S754_zero s) \/ exists m e, x = S754_finite false m e /\ (-1074 <= e)%Z /\
  (Z.log2 (Z.pos m) < 53)%Z /\ ((-1074 < e)%Z -> (2 ^ 52 <= Z.pos m)%Z).
Proof.
  destruct x as [s|s| |[] m e]; intros (H1 & H2 & H3); try done; [by left; exists s|]. right. exists m, e. split; [done|].
  unfold valid_binary, bounded, canonical_mantissa, fexp, emin in H3. breflect. rewrite digits2_log2 in *. split_and!; [lia|lia|].
  intros He. transitivity (2 ^ Z.log2 (Z.pos m))%Z; [|by apply Z.log2_spec]. apply Z.pow_le_mono_r; lia.
Qed.

Lemma order_sign_strict s x : strict_sign s x -> order_sign x = if s then (-1)%Z else 1%Z.
Proof. by destruct x as [|[]| |[]], s. Qed.

Lemma shl_align_min m e ez : (ez <= e)%Z -> Z.pos (shl_align m e ez).1 = (Z.pos m * 2 ^ (e - ez))%Z.
Proof.
  intros H. unfold shl_align. destruct (ez - e)%Z as [|d|d] eqn:E; cbn [fst]; [|lia|].
  - assert (e - ez = 0)%Z as -> by lia. lia.
  - rewrite shl_pos. f_equal. f_equal. lia.
Qed.

(** The sign of the exact difference of two positive doubles is their order. *)
Lemma exact_order m1 e1 m2 e2 ez :
  (Z.log2 (Z.pos m1) < 53)%Z -> ((-1074 < e2)%Z -> (2 ^ 52 <= Z.pos m2)%Z) -> (-1074 <= e1)%Z -> (ez <= e1)%Z -> (ez <= e2)%Z ->
  (e1 < e2)%Z -> (Z.pos m1 * 2 ^ (e1 - ez) < Z.pos m2 * 2 ^ (e2 - ez))%Z.
Proof.
  intros H1 H2 H3 H4 H5 H6. assert (Z.pos m1 < 2 ^ 53)%Z by (by apply Z.log2_lt_pow2).
  assert (2 ^ (e2 - ez) = 2 ^ (e1 - ez) * 2 ^ (e2 - e1))%Z as -> by (rewrite <- Z.pow_add_r by lia; f_equal; lia).
  assert (2 <= 2 ^ (e2 - e1))%Z. { change 2%Z with (2 ^ 1)%Z at 1. apply Z.pow_le_mono_r; lia. }
  specialize (H2 ltac:(lia)). pose proof (Z.pow_pos_nonneg 2 (e1 - ez) ltac:(lia) ltac:(lia)).
  assert (Z.pos m1 < Z.pos m2 * 2 ^ (e2 - e1))%Z by nia.
  rewrite (Z.mul_comm (2 ^ (e1 - ez))), Z.mul_assoc. by apply Z.mul_lt_mono_pos_r.
Qed.

Lemma sub_order x y : amount x -> amount y ->
  order_sign (num_sub x y) = match SFcompare x y with Some Lt => (-1)%Z | Some Gt => 1%Z | _ => 0%Z end.
Proof.
  intros Hx Hy. destruct (amount_cases x Hx) as [[s ->]|(m1 & e1 & -> & A1 & A2 & A3)], (amount_cases y Hy) as [[t ->]|(m2 & e2 & -> & B1 & B2 & B3)]; try done.
  { by destruct s, t. }
  unfold num_sub, SFsub. cbn [cond_Zopp SFcompare]. set (ez := Z.min e1 e2). rewrite !shl_align_min by lia.
  change (PosDef.Pos.compare_cont Eq m1 m2) with (Pos.compare m1 m2).
  set (d := (Z.pos m1 * 2 ^ (e1 - ez) - Z.pos m2 * 2 ^ (e2 - ez))%Z).
  assert (order_sign (binary_normalize 53 1024 d ez false) = Z.sgn d) as ->.
  { unfold binary_normalize. destruct d; [done|by apply (order_sign_strict false), binary_round_strict; lia|by apply (order_sign_strict true), binary_round_strict; lia]. }
  destruct (Z.compare_spec e1 e2) as [->|H|H].
  - assert (e2 - ez = 0)%Z as E by lia. unfold d. rewrite E. destruct (Pos.compare_spec m1 m2); subst; lia.
  - pose proof (exact_order m1 e1 m2 e2 ez A2 B3 A1 ltac:(lia) ltac:(lia) H). lia.
  - pose proof (exact_order m2 e2 m1 e1 ez B2 A3 B1 ltac:(lia) ltac:(lia) H). lia.
Qed.

(** ** Strings *)

(** [left < right]: by code units. *)
Fixpoint str_ltb (a b : list N) : bool :=
  match a, b with
  | _, [] => false
  | [], _ => true
  | x :: a', y :: b' => (x <? y)%N || (x =? y)%N && str_ltb a' b'
  end.

Lemma str_ltb_irrefl a : str_ltb a a = false.
Proof. induction a as [|x a IH]; simpl; [done|]. by rewrite N.ltb_irrefl, IH, andb_false_r. Qed.

Lemma str_ltb_trans a b c : str_ltb a b = true -> str_ltb b c = true -> str_ltb a c = true.
Proof.
  revert b c. induction a as [|x a IH]; intros [|y b] [|z c]; simpl; try done.
  rewrite !orb_true_iff, !andb_true_iff, !N.ltb_lt, !N.eqb_eq. intros [|[-> H1]] [|[-> H2]]; [lia..|]. right. eauto.
Qed.

Lemma str_ltb_total a b : str_ltb a b = true \/ a = b \/ str_ltb b a = true.
Proof.
  revert b. induction a as [|x a IH]; intros [|y b]; simpl; auto.
  destruct (N.lt_trichotomy x y) as [H|[->|H]].
  - left. by rewrite (proj2 (N.ltb_lt _ _) H).
  - rewrite !N.ltb_irrefl, !N.eqb_refl. cbn. destruct (IH b) as [H|[->|H]]; auto.
  - do 2 right. by rewrite (proj2 (N.ltb_lt _ _) H).
Qed.
