(* ===== verification/GroupPricing.v ===== *)
(** * The groups and their prices
    (src/apps/web/src/features/system-settings/models/group-ratio-visual-editor.tsx)

    Five options of the server are JSON texts: the cost multiplier of a group, its top-up
    ratio, whether users may choose it, special multipliers, and the order in which groups are
    tried.  This file has their readers, the table of groups and the order; [GroupOverrides]
    has the special multipliers.

    An object is its list of own properties.  A property of [Object.prototype] is not a
    number; what [String] makes of it is given.  Overrides stored under the name [__proto__]
    become a prototype and are taken as dropped. *)
From S2P Require Import Prelude JsString JsNumber JsCollections JsJson JsNumberPrint JsJsonPrint JsJsonPretty JsObject JsOrder VisualTiers StatusGroups.
From Stdlib Require Import Lia Sorted.

(** ** Reading the texts *)

Definition normalizeRatio (parsed : spec_float) : spec_float :=
  if is_finite parsed && num_leb num_zero parsed then parsed else num_of_Z 1.

Definition parseOverrideRatio (parsed : spec_float) : option spec_float :=
  if is_finite parsed && num_leb num_zero parsed then Some parsed else None.

(** [None]: the text is not JSON. *)
Definition parseJsonValue (value : list N) : option json :=
  if nonempty (trim value) then json_parse value else Some (JObj []).

(** The loop over the entries of an object: values that are not accepted are left out and
    make the map invalid. *)
Definition collect_step {A} (accept : json -> option A) (acc : list (list N * A) * bool) (kv : list N * json) : list (list N * A) * bool :=
  match accept kv.2 with
  | Some a => (obj_put kv.1 a acc.1, acc.2)
  | None => (acc.1, false)
  end.

Definition collect {A} (accept : json -> option A) (members : list (list N * json)) : list (list N * A) * bool :=
  fold_left (collect_step accept) (object_entries members) ([], true).

Definition accept_ratio (v : json) : option spec_float :=
  match v with JNum n => if negb (is_finite n) || num_ltb n num_zero then None else Some n | _ => None end.

Definition accept_text (v : json) : option (list N) := match v with JStr s => Some s | _ => None end.

Definition parseRatioMapResult (value : list N) : list (list N * spec_float) * bool :=
  match parseJsonValue value with Some (JObj members) => collect accept_ratio members | _ => ([], false) end.

Definition parseUsableMapResult (value : list N) : list (list N * list N) * bool :=
  match parseJsonValue value with Some (JObj members) => collect accept_text members | _ => ([], false) end.

(** The maps of a user group's overrides, whether all is valid, and the groups where not. *)
Record NestedRatioMapParseResult := mkNested {
  n_map : list (list N * list (list N * spec_float));
  n_valid : bool;
  invalidUserGroups : list (list N) }.

Definition nested_step (acc : NestedRatioMapParseResult) (kv : list N * json) : NestedRatioMapParseResult :=
  match kv.2 with
  | JObj rawOverrides =>
      let '(overrides, ok) := collect accept_ratio rawOverrides in
      mkNested (obj_put kv.1 overrides (n_map acc)) (n_valid acc && ok)
        (if ok then invalidUserGroups acc else set_values (invalidUserGroups acc ++ [kv.1]))
  | _ => mkNested (n_map acc) false (set_values (invalidUserGroups acc ++ [kv.1]))
  end.

Definition parseNestedRatioMapResult (value : list N) : NestedRatioMapParseResult :=
  match parseJsonValue value with
  | Some (JObj members) => fold_left nested_step (object_entries members) (mkNested [] true [])
  | _ => mkNested [] false []
  end.

Definition parseAutoGroupsResult (value : list N) : list (list N) * bool :=
  if nonempty (trim value) then
    match parseJsonValue value with
    | Some (JArr items) => match mapM accept_text items with Some groups => (groups, true) | None => ([], false) end
    | _ => ([], false)
    end
  else ([], true).

Definition parseRatioMap (value : list N) : list (list N * spec_float) := (parseRatioMapResult value).1.
Definition parseUsableMap (value : list N) : list (list N * list N) := (parseUsableMapResult value).1.
Definition parseNestedRatioMap (value : list N) : list (list N * list (list N * spec_float)) := n_map (parseNestedRatioMapResult value).

(** ** The order of groups *)

Definition stableNameCompare (left right : list N) : Z :=
  if str_ltb left right then (-1)%Z else if str_ltb right left then 1%Z else 0%Z.

Record RegistryEntry := mkEntry { e_name : list N; e_ratio : spec_float }.

Definition compareEffectiveRatio (left right : RegistryEntry) : Z :=
  if negb (num_eqb (e_ratio left) (e_ratio right)) then order_sign (num_sub (e_ratio left) (e_ratio right))
  else stableNameCompare (e_name left) (e_name right).

Definition known_step (userGroupOverrides : option (list (list N * spec_float))) (knownGroups : list RegistryEntry) (entry : RegistryEntry)
    : list RegistryEntry :=
  let name := trim (e_name entry) in
  if negb (nonempty name) || bool_decide (name ∈ map e_name knownGroups) then knownGroups
  else
    let override := parseOverrideRatio (number_of (overrides ← userGroupOverrides; obj_get name overrides)) in
    knownGroups ++ [mkEntry name (default (normalizeRatio (e_ratio entry)) override)].

Definition buildOptimizedAutoGroups (registry : list RegistryEntry) (userGroupOverrides : option (list (list N * spec_float))) : list (list N) :=
  map e_name (sort_by compareEffectiveRatio (fold_left (known_step userGroupOverrides) registry [])).

Record GroupOverride := mkOverride { o_target : list N; o_ratio : option spec_float }.

Definition compareOverrides (left right : GroupOverride) : Z :=
  match o_ratio left, o_ratio right with
  | None, Some _ => 1%Z
  | Some _, None => (-1)%Z
  | Some a, Some b => if negb (num_eqb a b) then order_sign (num_sub a b) else stableNameCompare (o_target left) (o_target right)
  | None, None => stableNameCompare (o_target left) (o_target right)
  end.

(** ** Rows of the table *)

Record GroupPricingRow := mkRow {
  r_id : list N;
  r_name : list N;
  r_ratio : list N;
  r_topup : list N;
  r_selectable : bool;
  r_description : list N }.

Definition createGroupPricingId (n : N) : list N := js "gpr_" ++ dec_string n.

Definition isValidRequiredRatio (value : list N) : bool :=
  let parsed := number_of_string value in nonempty (trim value) && is_finite parsed && num_leb num_zero parsed.

Definition isValidOptionalRatio (value : list N) : bool := negb (nonempty (trim value)) || isValidRequiredRatio value.

(** The names of the three maps, without blank ones. *)
Definition group_names (ratioMap : list (list N * spec_float)) (usableMap : list (list N * list N)) (topupMap : list (list N * spec_float)) : list (list N) :=
  filter (fun name => trim name <> []) (set_values (obj_keys ratioMap ++ obj_keys usableMap ++ obj_keys topupMap)).

Section Rows.
(** [String] of a property of [Object.prototype]. *)
Variable inherited_text : list N -> list N.

Definition read_description (usableMap : list (list N * list N)) (name : list N) : list N :=
  match obj_get name usableMap with
  | Some description => description
  | None => if bool_decide (name ∈ prototype_names) then inherited_text name else []
  end.

Definition build_row (ratioMap : list (list N * spec_float)) (usableMap : list (list N * list N)) (topupMap : list (list N * spec_float))
    (id name : list N) : GroupPricingRow :=
  mkRow id name (num_to_string (normalizeRatio (number_of (obj_get name ratioMap))))
    (match obj_get name topupMap with
     | Some topupRatio => if is_finite topupRatio && num_leb num_zero topupRatio then num_to_string topupRatio else []
     | None => []
     end)
    (bool_decide (is_Some (obj_get name usableMap)))
    (read_description usableMap name).

(** [counter] is [groupPricingIdCounter]; its new value comes first. *)
Definition buildGroupPricingRows (counter : N) (groupRatio userUsableGroups topupGroupRatio : list N) : N * list GroupPricingRow :=
  let ratioMap := parseRatioMap groupRatio in
  let usableMap := parseUsableMap userUsableGroups in
  let topupMap := parseRatioMap topupGroupRatio in
  let names := group_names ratioMap usableMap topupMap in
  ((counter + N.of_nat (length names))%N,
   imap (fun i name => build_row ratioMap usableMap topupMap (createGroupPricingId (counter + N.of_nat i + 1)) name) names).

Record GroupTexts := mkTexts { GroupRatio : list N; UserUsableGroups : list N; TopupGroupRatio : list N }.

(** One turn of the loop that writes the three objects. *)
Definition write_row (acc : list (list N * spec_float) * list (list N * list N) * list (list N * spec_float)) (row : GroupPricingRow) :=
  let '(groupRatio, usable, topups) := acc in
  let name := trim (r_name row) in
  if nonempty name then
    let topup := trim (r_topup row) in
    (obj_put name (normalizeRatio (number_of_string (r_ratio row))) groupRatio,
     (if r_selectable row then obj_put name (r_description row) usable else usable),
     (if nonempty topup && is_finite (number_of_string topup) && num_leb num_zero (number_of_string topup)
      then obj_put name (number_of_string topup) topups else topups))
  else acc.

Definition serializeGroupPricingRows (rows : list GroupPricingRow) : GroupTexts :=
  let '(groupRatio, usable, topups) := fold_left write_row rows ([], [], []) in
  mkTexts (object_text JNum groupRatio) (object_text JStr usable) (object_text JNum topups).

(** The names that occur before and after, and whether a ratio is wrong. *)
Definition validation_step (acc : list (list N) * list (list N) * bool) (row : GroupPricingRow) : list (list N) * list (list N) * bool :=
  let '(names, duplicateNames, hasInvalidRatio) := acc in
  let name := trim (r_name row) in
  let invalid := hasInvalidRatio || negb (isValidRequiredRatio (r_ratio row)) || negb (isValidOptionalRatio (r_topup row)) in
  if nonempty name
  then (set_values (names ++ [name]), (if bool_decide (name ∈ names) then set_values (duplicateNames ++ [name]) else duplicateNames), invalid)
  else (names, duplicateNames, invalid).

Definition getGroupPricingValidation (rows : list GroupPricingRow) : list (list N) * bool :=
  let '(_, duplicateNames, hasInvalidRatio) := fold_left validation_step rows ([], [], false) in (duplicateNames, hasInvalidRatio).

(** [JSON.stringify] of the three maps. *)
Definition maps_signature (ratios : list (list N * spec_float)) (usable : list (list N * list N)) (topups : list (list N * spec_float)) : list N :=
  json_stringify (JObj
    [(js "groupRatio", JObj (map (fun kv => (kv.1, JNum kv.2)) (object_entries ratios)));
     (js "userUsableGroups", JObj (map (fun kv => (kv.1, JStr kv.2)) (object_entries usable)));
     (js "topupGroupRatio", JObj (map (fun kv => (kv.1, JNum kv.2)) (object_entries topups)))]).

Definition sourceGroupPricingSignature (t : GroupTexts) : list N :=
  maps_signature (parseRatioMap (GroupRatio t)) (parseUsableMap (UserUsableGroups t)) (parseRatioMap (TopupGroupRatio t)).

Definition groupPricingSignature (rows : list GroupPricingRow) : list N := sourceGroupPricingSignature (serializeGroupPricingRows rows).

(** ** The table *)

Record Table := mkTable { counter : N; rows : list GroupPricingRow }.

Definition build (c : N) (t : GroupTexts) : Table :=
  let '(c', rs) := buildGroupPricingRows c (GroupRatio t) (UserUsableGroups t) (TopupGroupRatio t) in mkTable c' rs.

(** The effect on a change of the texts. *)
Definition sync_rows (t : GroupTexts) (tb : Table) : Table :=
  if bool_decide (groupPricingSignature (rows tb) = sourceGroupPricingSignature t) then tb else build (counter tb) t.

(** [onChange] is called with the three texts, or not at all. *)
Definition emitRows (nextRows : list GroupPricingRow) (c : N) : Table * option GroupTexts :=
  let '(duplicateNames, hasInvalidRatio) := getGroupPricingValidation nextRows in
  (mkTable c nextRows,
   if bool_decide (duplicateNames <> []) || hasInvalidRatio then None else Some (serializeGroupPricingRows nextRows)).

Inductive RowField := RName (s : list N) | RRatio (s : list N) | RTopup (s : list N) | RSelectable (b : bool) | RDescription (s : list N).

Definition set_field (f : RowField) (row : GroupPricingRow) : GroupPricingRow :=
  let '(mkRow id name ratio topup sel desc) := row in
  match f with
  | RName s => mkRow id s ratio topup sel desc
  | RRatio s => mkRow id name s topup sel desc
  | RTopup s => mkRow id name ratio s sel desc
  | RSelectable b => mkRow id name ratio topup b desc
  | RDescription s => mkRow id name ratio topup sel s
  end.

Definition updateRow (id : list N) (f : RowField) (tb : Table) : Table * option GroupTexts :=
  emitRows (map (fun row => if bool_decide (r_id row = id) then set_field f row else row) (rows tb)) (counter tb).

Definition new_name (index : N) : list N := js "group_" ++ dec_string index.

(** The search of a free name; one turn more than there are names is enough. *)
Fixpoint free_name (existingNames : list (list N)) (index : N) (fuel : nat) : list N :=
  match fuel with
  | O => new_name index
  | S f => if bool_decide (new_name index ∈ existingNames) then free_name existingNames (index + 1) f else new_name index
  end.

Definition addRow (tb : Table) : Table * option GroupTexts :=
  let name := free_name (map r_name (rows tb)) 1 (S (length (rows tb))) in
  let c := (counter tb + 1)%N in
  emitRows (rows tb ++ [mkRow (createGroupPricingId c) name (js "1") [] true []]) c.

Definition removeRow (id : list N) (tb : Table) : Table * option GroupTexts :=
  emitRows (filter (fun row => r_id row <> id) (rows tb)) (counter tb).

End Rows.

(** ** The order in which groups are tried *)

Definition auto_text (groups : list (list N)) : list N := json_pretty (JArr (map JStr groups)).

Definition handleAutoGroupAdd (autoGroupsList : list (list N)) (name : list N) : option (list N) :=
  if bool_decide (name ∈ autoGroupsList) then None else Some (auto_text (autoGroupsList ++ [name])).

Definition handleAutoGroupDelete (autoGroupsList : list (list N)) (index : nat) : list N := auto_text (take index autoGroupsList ++ drop (S index) autoGroupsList).

Inductive Direction := DUp | DDown.

(** The buttons of a row; [index] is a row. *)
Definition handleAutoGroupMove (autoGroupsList : list (list N)) (index : nat) (direction : Direction) : option (list N) :=
  let newIndex := match direction with DUp => (Z.of_nat index - 1)%Z | DDown => (Z.of_nat index + 1)%Z end in
  if (newIndex <? 0)%Z || (Z.of_nat (length autoGroupsList) <=? newIndex)%Z then None
  else
    match autoGroupsList !! index, autoGroupsList !! Z.to_nat newIndex with
    | Some a, Some b => Some (auto_text (<[Z.to_nat newIndex := a]> (<[index := b]> autoGroupsList)))
    | _, _ => None
    end.

Record RatioTexts := mkRatioTexts { rt_groups : GroupTexts; rt_overrides : list N; rt_auto : list N }.

Definition registry_of (t : RatioTexts) : list RegistryEntry :=
  let ratioMap := parseRatioMap (GroupRatio (rt_groups t)) in
  map (fun name => mkEntry name (normalizeRatio (number_of (obj_get name ratioMap))))
    (group_names ratioMap (parseUsableMap (UserUsableGroups (rt_groups t))) (parseRatioMap (TopupGroupRatio (rt_groups t)))).

(** [optimizationOverrides]; a name of [Object.prototype] gives a function, whose properties
    are none of the groups. *)
Definition optimizationOverrides (t : RatioTexts) (userGroup : option (list N)) : option (list (list N * spec_float)) :=
  g ← userGroup; if nonempty g then obj_get g (parseNestedRatioMap (rt_overrides t)) else None.

Inductive OptimizationError := InvalidMaps | InvalidBaseline.

Definition optimizationError (t : RatioTexts) (userGroup : option (list N)) : option OptimizationError :=
  if negb ((parseRatioMapResult (GroupRatio (rt_groups t))).2 && (parseRatioMapResult (TopupGroupRatio (rt_groups t))).2 &&
           (parseUsableMapResult (UserUsableGroups (rt_groups t))).2 && (parseAutoGroupsResult (rt_auto t)).2 &&
           n_valid (parseNestedRatioMapResult (rt_overrides t)))
  then Some InvalidMaps
  else match userGroup with
       | Some g => if nonempty g && bool_decide (g ∈ invalidUserGroups (parseNestedRatioMapResult (rt_overrides t))) then Some InvalidBaseline else None
       | None => None
       end.

(** The button is disabled while there is an error. *)
Definition handleAutoGroupOptimize (t : RatioTexts) (userGroup : option (list N)) : option (list N) :=
  if bool_decide (is_Some (optimizationError t userGroup)) then None
  else Some (auto_text (buildOptimizedAutoGroups (registry_of t) (optimizationOverrides t userGroup))).

(** ** What is written is read back *)

Lemma nonempty_false s : nonempty s = false <-> s = [].
Proof. by destruct s. Qed.

Lemma nonempty_true s : nonempty s = true <-> s <> [].
Proof. by destruct s. Qed.

Lemma collect_all {A} (accept : json -> option A) (f : A -> json) (l acc : list (list N * A)) :
  (forall a, a ∈ l.*2 -> accept (f a) = Some a) -> PROTO ∉ l.*1 -> NoDup (acc ++ l).*1 ->
  fold_left (collect_step accept) (map (fun kv => (kv.1, f kv.2)) l) (acc, true) = (acc ++ l, true).
Proof.
  revert acc. induction l as [|[k a] l IH]; intros acc Ha Hp Hn; cbn [map fold_left]; [by rewrite app_nil_r|].
  rewrite !fmap_cons in *. cbn [fst snd] in *. rewrite elem_of_cons in Hp. unfold collect_step at 2. cbn [fst snd].
  rewrite (Ha a) by (rewrite elem_of_cons; by left). unfold obj_put. rewrite bool_decide_false by naive_solver.
  assert (k ∉ acc.*1) as Hk.
  { rewrite fmap_app in Hn. apply NoDup_app in Hn as (_ & Hn & _). intros Hk. specialize (Hn k Hk). rewrite fmap_cons, elem_of_cons in Hn. naive_solver. }
  rewrite obj_set_fresh by done. rewrite IH; [by rewrite <- app_assoc| |naive_solver|by rewrite <- app_assoc].
  intros b Hb. apply Ha. rewrite elem_of_cons. by right.
Qed.

Lemma entries_values {A} (l : list (list N * A)) a : a ∈ (object_entries l).*2 <-> a ∈ l.*2.
Proof. by rewrite object_entries_perm. Qed.

Lemma entries_keys {A} (l : list (list N * A)) k : k ∈ (object_entries l).*1 <-> k ∈ l.*1.
Proof. by rewrite object_entries_perm. Qed.

(** An object that can be printed: names that are distinct texts and not [__proto__]. *)
Record writable {A} (f : A -> json) (l : list (list N * A)) : Prop := mkWritable {
  w_NoDup : NoDup l.*1;
  w_proto : PROTO ∉ l.*1;
  w_wf : Forall (fun kv => unitsb kv.1 && json_wf (f kv.2) = true) l }.

Lemma parse_object_text {A} (f : A -> json) l : writable f l ->
  parseJsonValue (object_text f l) = Some (JObj (map (fun kv => (kv.1, f kv.2)) (object_entries l))).
Proof.
  intros [H1 H2 H3]. unfold parseJsonValue. rewrite (object_text_read f l H1 H3).
  assert (exists r, object_text f l = 123%N :: r) as [r Er].
  { unfold object_text. destruct (map _ _) as [|m ms]; eexists; reflexivity. }
  assert (nonempty (trim (object_text f l)) = true) as ->; [|done]. rewrite Er. apply nonempty_true. intros E%trim_nil. inversion_clear E. done.
Qed.

Lemma collect_object {A} (accept : json -> option A) (f : A -> json) l : writable f l -> (forall a, a ∈ l.*2 -> accept (f a) = Some a) ->
  collect accept (map (fun kv => (kv.1, f kv.2)) (object_entries l)) = (object_entries l, true).
Proof.
  intros [H1 H2 H3] Ha. unfold collect. rewrite (object_entries_map (fun kv => f kv.2)), object_entries_idemp.
  rewrite (collect_all accept f (object_entries l) []); [done| | |].
  - intros a Hin. apply Ha. by rewrite entries_values in Hin.
  - by rewrite entries_keys.
  - by apply entries_NoDup.
Qed.

Definition good_ratio (x : spec_float) : bool := printable x && negb (negative x).

Lemma good_accepted x : good_ratio x = true -> accept_ratio (JNum x) = Some x.
Proof. unfold good_ratio. intros [H1 H2]%andb_true_iff. by destruct x as [[]|[]| |[] m e]. Qed.

Lemma good_normal x : good_ratio x = true -> normalizeRatio x = x /\ is_finite x = true /\ num_leb num_zero x = true.
Proof. unfold good_ratio. intros [H1 H2]%andb_true_iff. by destruct x as [[]|[]| |[] m e]. Qed.

Lemma ratios_read_back l : NoDup l.*1 -> Forall (fun kv => kv.1 <> PROTO /\ unitsb kv.1 = true /\ good_ratio kv.2 = true) l ->
  parseRatioMapResult (object_text JNum l) = (object_entries l, true).
Proof.
  intros Hn Hl. rewrite Forall_forall in Hl.
  assert (writable JNum l) as Hw.
  { split; [done| |].
    - rewrite list_elem_of_fmap. intros ([k x] & E & Hx). by destruct (Hl _ Hx).
    - apply Forall_forall. intros [k x] Hx. destruct (Hl _ Hx) as (_ & -> & Hg). cbn. by apply andb_true_iff in Hg as [Hg _]. }
  unfold parseRatioMapResult. rewrite parse_object_text by done. apply collect_object; [done|].
  intros a (kv & -> & Hkv)%list_elem_of_fmap. apply good_accepted. naive_solver.
Qed.

Lemma texts_read_back l : NoDup l.*1 -> Forall (fun kv => kv.1 <> PROTO /\ unitsb kv.1 = true /\ unitsb kv.2 = true) l ->
  parseUsableMapResult (object_text JStr l) = (object_entries l, true).
Proof.
  intros Hn Hl. rewrite Forall_forall in Hl.
  assert (writable JStr l) as Hw.
  { split; [done| |].
    - rewrite list_elem_of_fmap. intros ([k x] & E & Hx). by destruct (Hl _ Hx).
    - apply Forall_forall. intros [k x] Hx. destruct (Hl _ Hx) as (_ & -> & Hg). by cbn. }
  unfold parseUsableMapResult. rewrite parse_object_text by done. by apply collect_object.
Qed.

(** ** The rows that are written *)

Definition row_key (row : GroupPricingRow) : list N := trim (r_name row).
Definition named (rs : list GroupPricingRow) : list GroupPricingRow := filter (fun row => row_key row <> []) rs.
Definition topup_of (row : GroupPricingRow) : option spec_float :=
  let topup := trim (r_topup row) in
  if nonempty topup && is_finite (number_of_string topup) && num_leb num_zero (number_of_string topup) then Some (number_of_string topup) else None.

(** The properties the named rows make: one in each object, where the row has it. *)
Definition ratio_entry (row : GroupPricingRow) : list N * spec_float := (row_key row, normalizeRatio (number_of_string (r_ratio row))).
Definition usable_of (row : GroupPricingRow) : option (list N) := if r_selectable row then Some (r_description row) else None.
Definition entry_of {A} (f : GroupPricingRow -> option A) (row : GroupPricingRow) : option (list N * A) := x ← f row; Some (row_key row, x).

Lemma write_rows rs A B C :
  Forall (fun row => row_key row <> PROTO) rs -> NoDup (A.*1 ++ map row_key (named rs)) ->
  B.*1 ⊆ A.*1 -> C.*1 ⊆ A.*1 ->
  fold_left write_row rs (A, B, C) = (A ++ map ratio_entry (named rs), B ++ omap (entry_of usable_of) (named rs), C ++ omap (entry_of topup_of) (named rs)).
Proof.
  revert A B C. induction rs as [|row rs IH]; intros A B C Hp Hn HB HC; cbn [fold_left]; [by rewrite !app_nil_r|].
  apply Forall_cons in Hp as [Hp1 Hp2]. unfold named in *. rewrite filter_cons in *. unfold write_row at 2. fold (row_key row).
  case_decide as Hk.
  - rewrite (proj2 (nonempty_true _) Hk). cbn [map omap list_omap] in *.
    assert (row_key row ∉ A.*1) as HkA. { apply NoDup_app in Hn as (_ & Hn & _). intros H. specialize (Hn _ H). rewrite elem_of_cons in Hn. naive_solver. }
    unfold obj_put. rewrite !(bool_decide_false (row_key row = PROTO)) by done. rewrite (obj_set_fresh _ _ A) by done.
    rewrite (obj_set_fresh _ _ B), (obj_set_fresh _ _ C) by naive_solver. cbn zeta. rewrite IH; [|done| | |].
    + unfold entry_of, usable_of, topup_of. rewrite <- app_assoc. cbn [app].
      destruct (r_selectable row), (nonempty (trim (r_topup row)) && _ && _); cbn; by rewrite <- ?app_assoc.
    + rewrite fmap_app, <- app_assoc. exact Hn.
    + intros x. rewrite fmap_app, elem_of_app. destruct (r_selectable row); [|naive_solver]. rewrite fmap_app, elem_of_app. cbn. naive_solver.
    + intros x. rewrite fmap_app, elem_of_app. destruct (nonempty (trim (r_topup row)) && _ && _); [|naive_solver]. rewrite fmap_app, elem_of_app. cbn. naive_solver.
  - rewrite (proj2 (nonempty_false _) Hk). by apply IH.
Qed.

Lemma entry_keys {A} (f : GroupPricingRow -> option A) ns k : k ∈ (omap (entry_of f) ns).*1 -> k ∈ map row_key ns.
Proof.
  rewrite list_elem_of_fmap. intros ([k' a] & -> & (row & Hr & E)%list_elem_of_omap). unfold entry_of in E. destruct (f row); [|done].
  injection E as <- _. cbn [fst]. apply list_elem_of_In, in_map. by apply list_elem_of_In.
Qed.

Lemma entry_NoDup {A} (f : GroupPricingRow -> option A) ns : NoDup (map row_key ns) -> NoDup (omap (entry_of f) ns).*1.
Proof.
  induction ns as [|row ns IH]; cbn [omap list_omap map]; [constructor|]. intros [H1 H2]%NoDup_cons. unfold entry_of at 1. destruct (f row) as [a|]; cbn [mbind option_bind]; [|by apply IH].
  rewrite fmap_cons. apply NoDup_cons. split; [|by apply IH]. cbn. intros H. apply H1. by eapply entry_keys.
Qed.

(** The property of a row in an object. *)
Lemma entry_get {A} (f : GroupPricingRow -> option A) ns row : NoDup (map row_key ns) -> row ∈ ns -> obj_get (row_key row) (omap (entry_of f) ns) = f row.
Proof.
  intros Hn Hr. destruct (f row) as [a|] eqn:E.
  - apply obj_get_elem; [by apply entry_NoDup|]. apply list_elem_of_omap. exists row. split; [done|]. unfold entry_of. by rewrite E.
  - apply obj_get_None. intros H. rewrite list_elem_of_fmap in H. destruct H as ([k a] & Ek & (row' & Hr' & E')%list_elem_of_omap). cbn [fst] in Ek. subst k.
    unfold entry_of in E'. destruct (f row') as [b|] eqn:Eb; [|done]. injection E' as Ek _.
    assert (row' = row) as ->; [|congruence]. clear -Hn Hr Hr' Ek. induction ns as [|x ns IH]; [by apply elem_of_nil in Hr|].
    cbn [map] in Hn. apply NoDup_cons in Hn as [H1 H2]. apply elem_of_cons in Hr, Hr'. 
    assert (forall y, y ∈ ns -> row_key y ∈ map row_key ns) as Hin by (intros y Hy; apply list_elem_of_In, in_map; by apply list_elem_of_In).
    destruct Hr as [->|Hr], Hr' as [->|Hr']; [done| | |by apply IH].
    + destruct H1. rewrite <- Ek. by apply Hin.
    + destruct H1. rewrite Ek. by apply Hin.
Qed.

Lemma ratio_entries ns : map ratio_entry ns = omap (entry_of (fun row => Some (normalizeRatio (number_of_string (r_ratio row))))) ns.
Proof. induction ns as [|row ns IH]; [done|]. cbn [map omap list_omap]. cbn. by rewrite IH. Qed.

(** ** Validation *)

Lemma validation_fold rs : forall names dups inv,
  let '(names', dups', inv') := fold_left validation_step rs (names, dups, inv) in
  (dups' = [] -> dups = [] /\ (NoDup names -> NoDup (names ++ map row_key (named rs)))) /\
  (inv' = false -> inv = false /\ Forall (fun row => isValidRequiredRatio (r_ratio row) && isValidOptionalRatio (r_topup row) = true) rs).
Proof.
  induction rs as [|row rs IH]; intros names dups inv; cbn [fold_left].
  { split; intros ->; (split; [done|]); [|constructor]. cbn. by rewrite app_nil_r. }
  unfold validation_step at 2. fold (row_key row). set (i := inv || _ || _).
  assert (i = false -> inv = false /\ isValidRequiredRatio (r_ratio row) && isValidOptionalRatio (r_topup row) = true) as Hi.
  { unfold i. intros H. breflect. split; [done|]. by apply andb_true_iff. }
  unfold named. rewrite filter_cons. case_decide as Hk.
  - rewrite (proj2 (nonempty_true _) Hk).
    match goal with |- context [fold_left validation_step rs (?a, ?b, i)] => specialize (IH a b i); destruct (fold_left validation_step rs (a, b, i)) as [[names' dups'] inv'] end.
    destruct IH as [IH1 IH2]. split.
    + intros E. destruct (IH1 E) as [E2 E3]. case_bool_decide as Hin.
      * exfalso. assert (row_key row ∈ set_values (dups ++ [row_key row])) as H by (apply elem_of_set_values, elem_of_app; right; constructor).
        rewrite E2 in H. by apply elem_of_nil in H.
      * split; [done|]. intros Hn. cbn [map]. rewrite cons_middle, app_assoc.
        assert (NoDup (names ++ [row_key row])) as Hn2.
        { apply NoDup_app. split_and!; [done| |apply NoDup_singleton]. intros x Hx Hx2%list_elem_of_singleton. by subst. }
        rewrite set_values_id in E3 by done. by apply E3.
    + intros E. destruct (IH2 E) as [E2 E3]. destruct (Hi E2) as [E4 E5]. split; [done|]. by constructor.
  - rewrite (proj2 (nonempty_false _) Hk). specialize (IH names dups i). destruct (fold_left validation_step rs (names, dups, i)) as [[names' dups'] inv'].
    destruct IH as [IH1 IH2]. split; [done|]. intros E. destruct (IH2 E) as [E2 E3]. destruct (Hi E2) as [E4 E5]. split; [done|]. by constructor.
Qed.

Lemma emitted_valid rs c tb out : emitRows rs c = (tb, Some out) ->
  out = serializeGroupPricingRows rs /\ rows tb = rs /\ NoDup (map row_key (named rs)) /\
  Forall (fun row => isValidRequiredRatio (r_ratio row) && isValidOptionalRatio (r_topup row) = true) rs.
Proof.
  unfold emitRows, getGroupPricingValidation. pose proof (validation_fold rs [] [] false) as H.
  destruct (fold_left validation_step rs ([], [], false)) as [[names' dups'] inv']. destruct H as [H1 H2].
  case_bool_decide as Hd; [done|]. destruct inv'; [done|]. cbn. intros [= <- <-]. split_and!; [done|done| |naive_solver].
  destruct (H1 Hd) as [_ H3]. apply H3. constructor.
Qed.

(** ** The table is read back *)

Lemma keys_map {A B} (g : B -> list N * A) l : (map g l).*1 = map (fun x => (g x).1) l.
Proof. exact (map_map g fst l). Qed.

Lemma set_values_absorb {A} `{EqDecision A} (a b : list A) : NoDup a -> b ⊆ a -> set_values (a ++ b) = a.
Proof.
  intros Ha. induction b as [|x b IH] using rev_ind; intros Hb; [rewrite app_nil_r; by apply set_values_id|].
  rewrite app_assoc, set_values_snoc. rewrite IH by (intros y Hy; apply Hb, elem_of_app; by left).
  assert (x ∈ a) as Hx by (apply Hb, elem_of_app; right; constructor). rewrite decide_True; [done|]. apply elem_of_app. by left.
Qed.

(** The rows in the order in which an object lists their names. *)
Definition by_property (rs : list GroupPricingRow) : list GroupPricingRow :=
  map snd (object_entries (map (fun row => (row_key row, row)) rs)).

Lemma by_property_elem rs row : row ∈ by_property rs <-> row ∈ rs.
Proof.
  unfold by_property. rewrite object_entries_perm, map_map. cbn [snd]. by rewrite map_id.
Qed.

Lemma property_keys rs : map row_key (by_property rs) = (object_entries (map ratio_entry rs)).*1.
Proof.
  unfold by_property. assert (map ratio_entry rs = map (fun kv => (kv.1, (ratio_entry kv.2).2)) (map (fun row => (row_key row, row)) rs)) as ->.
  { rewrite map_map. apply map_ext. done. }
  rewrite (object_entries_map (fun kv => (ratio_entry kv.2).2)), keys_map, !map_map. cbn [fst].
  apply map_ext_in. intros [k row] H. apply list_elem_of_In in H. rewrite elem_of_object_entries in H. apply list_elem_of_In, in_map_iff in H as (? & [= <- <-] & _). done.
Qed.

Definition content (row : GroupPricingRow) : list N * list N * list N * bool * list N :=
  (r_name row, r_ratio row, r_topup row, r_selectable row, r_description row).

(** What becomes of a row: its name trimmed, its numbers in their shortest form, and its
    description only if users may choose the group. *)
Definition canonical (row : GroupPricingRow) : list N * list N * list N * bool * list N :=
  (row_key row, num_to_string (number_of_string (r_ratio row)), default [] (num_to_string <$> topup_of row), r_selectable row,
   if r_selectable row then r_description row else []).

(** Names that are texts and no property of every object, numbers that can be printed. *)
Definition plain_row (row : GroupPricingRow) : bool :=
  negb (bool_decide (row_key row ∈ prototype_names)) && unitsb (row_key row) && unitsb (r_description row) &&
  good_ratio (number_of_string (r_ratio row)) && match topup_of row with Some x => good_ratio x | None => true end.

Lemma plain_row_spec row : plain_row row = true ->
  row_key row ∉ prototype_names /\ row_key row <> PROTO /\ unitsb (row_key row) = true /\ unitsb (r_description row) = true /\
  good_ratio (number_of_string (r_ratio row)) = true /\ (forall x, topup_of row = Some x -> good_ratio x = true).
Proof.
  unfold plain_row. intros H. breflect. split_and!; try done.
  - intros E. match goal with H : _ ∉ prototype_names |- _ => apply H end. rewrite E. apply list_elem_of_In. vm_compute. tauto.
  - intros x E. by rewrite E in *.
Qed.

Lemma entries_good {A} (f : GroupPricingRow -> option A) (P : A -> Prop) ns :
  Forall (fun row => plain_row row = true) ns -> (forall row a, row ∈ ns -> f row = Some a -> P a) ->
  Forall (fun kv => kv.1 <> PROTO /\ unitsb kv.1 = true /\ P kv.2) (omap (entry_of f) ns).
Proof.
  rewrite !Forall_forall. intros Hp HP kv (row & Hr & E)%list_elem_of_omap. unfold entry_of in E. destruct (f row) as [a|] eqn:Ef; [|done].
  injection E as <-. cbn. destruct (plain_row_spec row (Hp _ Hr)) as (_ & ? & ? & _). split_and!; [done|done|by eapply HP].
Qed.

Section ReadBack.
Variable inherited_text : list N -> list N.

Lemma written_parse rs : Forall (fun row => plain_row row = true) rs -> NoDup (map row_key (named rs)) ->
  let t := serializeGroupPricingRows rs in
  parseRatioMapResult (GroupRatio t) = (object_entries (map ratio_entry (named rs)), true) /\
  parseUsableMapResult (UserUsableGroups t) = (object_entries (omap (entry_of usable_of) (named rs)), true) /\
  parseRatioMapResult (TopupGroupRatio t) = (object_entries (omap (entry_of topup_of) (named rs)), true).
Proof.
  intros Hp Hn. unfold serializeGroupPricingRows. rewrite (write_rows rs [] [] []); [|eapply Forall_impl; [exact Hp|]; intros row H; by destruct (plain_row_spec row H) as (_ & ? & _)|done|done|done].
  cbn [app GroupRatio UserUsableGroups TopupGroupRatio].
  assert (Forall (fun row => plain_row row = true) (named rs)) as Hp2.
  { rewrite Forall_forall in *. intros row [_ H]%list_elem_of_filter. by apply Hp. }
  assert (forall row, row ∈ named rs -> plain_row row = true) as Hp3 by (by apply Forall_forall).
  split_and!.
  - apply ratios_read_back; [rewrite ratio_entries; by apply entry_NoDup|]. rewrite ratio_entries. apply (entries_good _ (fun x => good_ratio x = true)); [done|].
    intros row a Hr [= <-]. destruct (plain_row_spec row (Hp3 _ Hr)) as (_ & _ & _ & _ & Hg & _). by rewrite (proj1 (good_normal _ Hg)).
  - apply texts_read_back; [by apply entry_NoDup|]. apply (entries_good _ (fun s => unitsb s = true)); [done|]. intros row a Hr Ha. unfold usable_of in Ha.
    destruct (r_selectable row); [|done]. injection Ha as <-. by destruct (plain_row_spec row (Hp3 _ Hr)) as (_ & _ & _ & ? & _).
  - apply ratios_read_back; [by apply entry_NoDup|]. apply (entries_good _ (fun x => good_ratio x = true)); [done|]. intros row a Hr Ha.
    destruct (plain_row_spec row (Hp3 _ Hr)) as (_ & _ & _ & _ & _ & Ht). by apply Ht.
Qed.

Lemma written_names rs : NoDup (map row_key (named rs)) ->
  group_names (object_entries (map ratio_entry (named rs))) (object_entries (omap (entry_of usable_of) (named rs)))
    (object_entries (omap (entry_of topup_of) (named rs))) = map row_key (by_property (named rs)).
Proof.
  intros Hn. unfold group_names, obj_keys. rewrite !object_entries_idemp. rewrite <- property_keys.
  assert (forall k, k ∈ map row_key (by_property (named rs)) <-> k ∈ map row_key (named rs)) as Hk.
  { intros k. rewrite property_keys, object_entries_perm. by rewrite keys_map. }
  rewrite set_values_absorb.
  - apply filter_all. apply Forall_forall. intros k Hin. rewrite Hk in Hin. apply list_elem_of_In, in_map_iff in Hin as (row & <- & Hr).
    apply list_elem_of_In in Hr. unfold named in Hr. apply list_elem_of_filter in Hr as [Hr _]. unfold row_key in *. by rewrite trim_idemp.
  - rewrite property_keys. apply entries_NoDup. by rewrite keys_map.
  - intros k. rewrite elem_of_app, !entries_keys, Hk. intros [H|H]; by eapply entry_keys.
Qed.

Lemma built_content rs id row : Forall (fun row => plain_row row = true) rs -> NoDup (map row_key (named rs)) -> row ∈ named rs ->
  content (build_row inherited_text (object_entries (map ratio_entry (named rs))) (object_entries (omap (entry_of usable_of) (named rs)))
    (object_entries (omap (entry_of topup_of) (named rs))) id (row_key row)) = canonical row.
Proof.
  intros Hp Hn Hr. assert (plain_row row = true) as Hpr.
  { rewrite Forall_forall in Hp. apply Hp. by apply list_elem_of_filter in Hr as [_ ?]. }
  destruct (plain_row_spec row Hpr) as (Hk & _ & _ & _ & Hg & Ht). unfold content, build_row, canonical, read_description. cbn [r_name r_ratio r_topup r_selectable r_description].
  assert (forall A (f : GroupPricingRow -> option A), obj_get (row_key row) (object_entries (omap (entry_of f) (named rs))) = f row) as He.
  { intros A f. unfold obj_get. pose proof (obj_map_entries (omap (entry_of f) (named rs)) (entry_NoDup f _ Hn)) as Em. unfold obj_map in Em. rewrite Em. by apply entry_get. }
  rewrite ratio_entries, !He. cbn [number_of default]. rewrite !(proj1 (good_normal _ Hg)).
  f_equal; [f_equal; [f_equal|]|].
  - do 2 f_equal. cbn. by apply good_normal.
  - destruct (topup_of row) as [x|]; [|done]. destruct (good_normal x (Ht x eq_refl)) as (_ & -> & ->). done.
  - unfold usable_of. by destruct (r_selectable row).
  - unfold usable_of. destruct (r_selectable row); [done|]. by rewrite bool_decide_false.
Qed.

Lemma map_imap {A B C} (g : B -> C) (f : nat -> A -> B) l : map g (imap f l) = imap (fun i x => g (f i x)) l.
Proof. revert f. induction l as [|x l IH]; intros f; [done|]. cbn. f_equal. apply IH. Qed.

Lemma imap_const {A B} (h : A -> B) (f : nat -> A -> B) l : (forall i x, x ∈ l -> f i x = h x) -> imap f l = map h l.
Proof.
  revert f. induction l as [|x l IH]; intros f Hf; [done|]. cbn. rewrite Hf by constructor. f_equal. apply IH. intros i y Hy. cbn. apply Hf. by right.
Qed.

(** C13: What the table of groups writes is read back.  For rows whose names are no property of
    every object and whose numbers can be printed, when the table reports its rows, all three
    texts are valid for the readers, the table is not rebuilt under the user's hands, and a
    table opened on these texts shows the rows that have a name: the names trimmed, the
    numbers in their shortest form, descriptions of selectable groups only, in the order in
    which an object lists its properties. *)
Theorem table_read_back rs c c' tb out :
  Forall (fun row => plain_row row = true) rs -> emitRows rs c = (tb, Some out) ->
  (parseRatioMapResult (GroupRatio out)).2 = true /\ (parseUsableMapResult (UserUsableGroups out)).2 = true /\
  (parseRatioMapResult (TopupGroupRatio out)).2 = true /\
  sync_rows inherited_text out tb = tb /\
  map content (rows (build inherited_text c' out)) = map canonical (by_property (named rs)).
Proof.
  intros Hp He. destruct (emitted_valid rs c tb out He) as (-> & Hr & Hn & _). destruct (written_parse rs Hp Hn) as (E1 & E2 & E3).
  rewrite E1, E2, E3. split_and!; [done..| |].
  - unfold sync_rows, groupPricingSignature. by rewrite Hr, bool_decide_true.
  - unfold build, buildGroupPricingRows, parseRatioMap, parseUsableMap. rewrite E1, E2, E3. cbn [fst rows]. rewrite written_names by done.
    rewrite map_imap, (imap_const (fun k => content (build_row inherited_text (object_entries (map ratio_entry (named rs)))
      (object_entries (omap (entry_of usable_of) (named rs))) (object_entries (omap (entry_of topup_of) (named rs))) [] k))) by done.
    rewrite map_map. apply map_ext_in. intros row Hin. apply list_elem_of_In in Hin. rewrite by_property_elem in Hin. by apply built_content.
Qed.

End ReadBack.

Definition sample_rows : list GroupPricingRow :=
  [mkRow (js "gpr_1") (js "vip") (js "1.50") [] true (js "VIP users"); mkRow (js "gpr_2") (js " 10 ") (js "0") (js "2") false (js "x");
   mkRow (js "gpr_3") (js "  ") (js "1") [] true []].

Lemma table_read_back_witness :
  exists out, (emitRows sample_rows 3).2 = Some out /\
  map content (rows (build (fun _ => []) 7 out)) = [(js "10", js "0", js "2", false, []); (js "vip", js "1.5", [], true, js "VIP users")].
Proof.
  eexists. split; [reflexivity|].
  destruct (table_read_back (fun _ => []) sample_rows 3 7 (emitRows sample_rows 3).1 (serializeGroupPricingRows sample_rows)) as (_ & _ & _ & _ & E).
  - repeat constructor.
  - by vm_compute.
  - etransitivity; [exact E|]. by vm_compute.
Defined.

(** ** The optimised order *)

Lemma insert_by_ext {A} (f g : A -> A -> Z) x l : (forall y, y ∈ l -> f x y = g x y) -> insert_by f x l = insert_by g x l.
Proof.
  induction l as [|h l IH]; intros H; [done|]. cbn [insert_by]. rewrite H by constructor. destruct (_ <=? _)%Z; [done|]. f_equal. apply IH. intros y Hy. apply H. by right.
Qed.

Lemma sort_by_ext {A} (f g : A -> A -> Z) l : (forall x y, x ∈ l -> y ∈ l -> f x y = g x y) -> sort_by f l = sort_by g l.
Proof.
  induction l as [|x l IH]; intros H; [done|]. cbn [sort_by foldr]. fold (sort_by f l) (sort_by g l). rewrite IH by (intros; apply H; by right).
  apply insert_by_ext. intros y Hy. rewrite sort_by_perm in Hy. apply H; [constructor|by right].
Qed.

(** Entries by rank and name: a total order, also where ratios are no numbers. *)
Definition entry_lt (a b : RegistryEntry) : Prop :=
  rank_lt (rank (e_ratio a)) (rank (e_ratio b)) \/ rank (e_ratio a) = rank (e_ratio b) /\ str_ltb (e_name a) (e_name b) = true.

Definition rank_compare (a b : Z * Z * Z) : Z :=
  let '(c, e, m) := a in let '(c', e', m') := b in
  if (c <? c')%Z then (-1)%Z else if (c' <? c)%Z then 1%Z
  else if (e <? e')%Z then (-1)%Z else if (e' <? e)%Z then 1%Z
  else if (m <? m')%Z then (-1)%Z else if (m' <? m)%Z then 1%Z else 0%Z.

Definition entry_compare (a b : RegistryEntry) : Z :=
  let r := rank_compare (rank (e_ratio a)) (rank (e_ratio b)) in if (r =? 0)%Z then stableNameCompare (e_name a) (e_name b) else r.

Lemma rank_compare_spec a b : (rank_compare a b = -1 /\ rank_lt a b \/ rank_compare a b = 0 /\ a = b \/ rank_compare a b = 1 /\ rank_lt b a)%Z.
Proof.
  destruct a as [[c e] m], b as [[c' e'] m']. unfold rank_compare, rank_lt.
  repeat match goal with |- context [(?x <? ?y)%Z] => destruct (Z.ltb_spec x y) end; try lia.
  right. left. split; [done|]. repeat f_equal; lia.
Qed.

Lemma name_compare_spec a b : (stableNameCompare a b = -1 /\ str_ltb a b = true \/ stableNameCompare a b = 0 /\ a = b \/ stableNameCompare a b = 1 /\ str_ltb b a = true)%Z.
Proof.
  unfold stableNameCompare. destruct (str_ltb_total a b) as [->|[->|H]]; [by left|rewrite str_ltb_irrefl; by right; left|].
  rewrite H. destruct (str_ltb a b) eqn:E; [|by right; right]. pose proof (str_ltb_trans _ _ _ E H) as Hc. by rewrite str_ltb_irrefl in Hc.
Qed.

Lemma entry_compare_spec a b : (entry_compare a b = -1 /\ entry_lt a b \/
  entry_compare a b = 0 /\ rank (e_ratio a) = rank (e_ratio b) /\ e_name a = e_name b \/ entry_compare a b = 1 /\ entry_lt b a)%Z.
Proof.
  unfold entry_compare, entry_lt. destruct (rank_compare_spec (rank (e_ratio a)) (rank (e_ratio b))) as [[-> H]|[[-> H]|[-> H]]]; cbn; [by left; auto| |by right; right; auto].
  destruct (name_compare_spec (e_name a) (e_name b)) as [[-> ?]|[[-> ?]|[-> ?]]]; naive_solver.
Qed.

Lemma rank_lt_trans a b c : rank_lt a b -> rank_lt b c -> rank_lt a c.
Proof. destruct a as [[] ?], b as [[] ?], c as [[] ?]. unfold rank_lt. lia. Qed.

Lemma entry_lt_trans a b c : entry_lt a b -> entry_lt b c -> entry_lt a c.
Proof.
  unfold entry_lt. intros [H1|[E1 H1]] [H2|[E2 H2]].
  - left. by eapply rank_lt_trans.
  - left. by rewrite <- E2.
  - left. by rewrite E1.
  - right. split; [congruence|]. by eapply str_ltb_trans.
Qed.

Lemma entry_le a b : cmp_le entry_compare a b <-> entry_lt a b \/ rank (e_ratio a) = rank (e_ratio b) /\ e_name a = e_name b.
Proof.
  unfold cmp_le. destruct (entry_compare_spec a b) as [[-> H]|[[-> H]|[-> H]]]; [split; [auto|lia]|split; [auto|lia]|]. split; [lia|]. intros H2. exfalso.
  assert (forall x, ~ entry_lt x x) as Hirr. { intros x [Hx|[_ Hx]]; [destruct (rank (e_ratio x)) as [[] ?]; unfold rank_lt in Hx; lia|by rewrite str_ltb_irrefl in Hx]. }
  destruct H2 as [H2|[E1 E2]]; [apply (Hirr a); by eapply entry_lt_trans|]. unfold entry_lt in H. rewrite E1, E2 in H. by apply (Hirr b).
Qed.

Lemma entry_sorted l : StronglySorted (cmp_le entry_compare) (sort_by entry_compare l).
Proof.
  apply sort_by_sorted.
  - intros a b. unfold cmp_le. destruct (entry_compare_spec a b) as [[E H]|[[E H]|[E H]]]; [left; lia|left; lia|right].
    fold (cmp_le entry_compare b a). apply entry_le. by left.
  - intros a b c. rewrite !entry_le. unfold entry_lt. intros [H1|[E1 E2]] [H2|[E3 E4]].
    + left. by eapply (entry_lt_trans a b c).
    + left. by rewrite <- E3, <- E4.
    + left. by rewrite E1, E2.
    + right. split; congruence.
Qed.

(** On amounts the comparator of the source is that order. *)
Lemma compare_amounts a b : amount (e_ratio a) -> amount (e_ratio b) -> compareEffectiveRatio a b = entry_compare a b.
Proof.
  intros Ha Hb. unfold compareEffectiveRatio, entry_compare, num_eqb, SFeqb. rewrite sub_order by done.
  destruct Ha as (Ha & _), Hb as (Hb & _).
  destruct (compare_rank (e_ratio a) (e_ratio b)) as (o & E & Ho); [by destruct (e_ratio a)|by destruct (e_ratio b)|]. rewrite E.
  destruct (rank_compare_spec (rank (e_ratio a)) (rank (e_ratio b))) as [[-> H]|[[-> H]|[-> H]]]; destruct o; cbn; try done;
    unfold rank_lt in *; destruct (rank (e_ratio a)) as [[] ?], (rank (e_ratio b)) as [[] ?]; simplify_eq; lia.
Qed.

(** The multiplier of a group for the chosen users: its override, or the ratio of the first
    entry of that name. *)
Definition effective_ratio (registry : list RegistryEntry) (overrides : option (list (list N * spec_float))) (name : list N) : spec_float :=
  match parseOverrideRatio (number_of (o ← overrides; obj_get name o)) with
  | Some r => r
  | None => normalizeRatio (default S754_nan (e_ratio <$> head (filter (fun e => trim (e_name e) = name) registry)))
  end.

(** [a] is tried before [b]: it costs less, or as much and its name comes first. *)
Definition cheaper (registry : list RegistryEntry) (overrides : option (list (list N * spec_float))) (a b : list N) : Prop :=
  num_ltb (effective_ratio registry overrides a) (effective_ratio registry overrides b) = true \/
  num_eqb (effective_ratio registry overrides a) (effective_ratio registry overrides b) = true /\ str_ltb a b = true.

Lemma known_spec registry overrides :
  let known := fold_left (known_step overrides) registry [] in
  NoDup (map e_name known) /\
  (forall name, name ∈ map e_name known <-> name <> [] /\ exists e, e ∈ registry /\ trim (e_name e) = name) /\
  Forall (fun e => e_ratio e = effective_ratio registry overrides (e_name e)) known.
Proof.
  cbn zeta. induction registry as [|e registry (IH1 & IH2 & IH3)] using rev_ind.
  { split_and!; [constructor| |constructor]. intros name. cbn. split; [by intros ?%elem_of_nil|intros (_ & e & H & _); by apply elem_of_nil in H]. }
  rewrite fold_left_app. cbn [fold_left]. set (known := fold_left (known_step overrides) registry []) in *. unfold known_step. set (name := trim (e_name e)).
  assert (forall x, x ∈ map e_name known -> effective_ratio (registry ++ [e]) overrides x = effective_ratio registry overrides x) as Hold.
  { intros x Hx. apply IH2 in Hx as (_ & f & Hf & Ef). unfold effective_ratio. destruct (parseOverrideRatio _); [done|]. rewrite filter_app.
    assert (f ∈ filter (fun e => trim (e_name e) = x) registry) as Hin by (by apply list_elem_of_filter). by destruct (filter _ registry); [apply elem_of_nil in Hin|]. }
  assert (Forall (fun e0 => e_ratio e0 = effective_ratio (registry ++ [e]) overrides (e_name e0)) known) as IH3'.
  { rewrite Forall_forall in *. intros f Hf. rewrite Hold; [by apply IH3|]. apply list_elem_of_In, in_map. by apply list_elem_of_In. }
  destruct (nonempty name) eqn:En; cbn [negb orb].
  - case_bool_decide as Hin.
    + split_and!; [done| |done]. intros x. rewrite IH2. setoid_rewrite elem_of_app. setoid_rewrite list_elem_of_singleton. split; [naive_solver|].
      intros (Hx & f & [Hf| ->] & Ef); [naive_solver|]. apply IH2. by rewrite <- Ef.
    + rewrite map_app. cbn [map e_name]. split_and!.
      * apply NoDup_app. split_and!; [done| |apply NoDup_singleton]. intros x Hx Hx2%list_elem_of_singleton. by subst.
      * intros x. rewrite elem_of_app, list_elem_of_singleton, IH2. setoid_rewrite elem_of_app. setoid_rewrite list_elem_of_singleton.
        apply nonempty_true in En. naive_solver.
      * apply Forall_app. split; [done|]. constructor; [|constructor]. cbn [e_ratio e_name]. unfold effective_ratio. destruct (parseOverrideRatio _); [done|]. cbn [default].
        rewrite filter_app, (filter_none _ registry), filter_cons_True by first [done | apply Forall_forall; intros f Hf Ef; apply Hin, IH2; split; [by apply nonempty_true|eauto]].
        done.
  - apply nonempty_false in En. split_and!; [done| |done]. intros x. rewrite IH2. setoid_rewrite elem_of_app. setoid_rewrite list_elem_of_singleton.
    split; [naive_solver|]. intros (Hx & f & [Hf| ->] & Ef); [naive_solver|]. by subst.
Qed.

Definition doubles (registry : list RegistryEntry) (overrides : option (list (list N * spec_float))) : bool :=
  forallb (fun e => valid_binary 53 1024 (e_ratio e)) registry && forallb (fun kv => valid_binary 53 1024 kv.2) (default [] overrides).

Lemma obj_get_in {A} k (l : list (list N * A)) v : obj_get k l = Some v -> (k, v) ∈ l.
Proof. apply elem_of_list_to_map_2. Qed.

Lemma ratio_amount x : valid_binary 53 1024 x = true -> amount (normalizeRatio x).
Proof. intros H. unfold normalizeRatio. destruct (is_finite x && num_leb num_zero x) eqn:E; [|by vm_compute]. breflect. done. Qed.

Lemma effective_amount registry overrides name : doubles registry overrides = true -> amount (effective_ratio registry overrides name).
Proof.
  unfold doubles. rewrite andb_true_iff, !forallb_forall. intros [H1 H2]. unfold effective_ratio.
  destruct (parseOverrideRatio _) as [r|] eqn:E.
  - unfold parseOverrideRatio in E. destruct (_ && _) eqn:E2; [|done]. injection E as <-. breflect. split_and!; [done|done|].
    destruct overrides as [o|]; [|done]. cbn in *. destruct (obj_get name o) as [r|] eqn:Eo; [|done]. cbn. apply (H2 (name, r)).
    apply list_elem_of_In. by apply obj_get_in.
  - apply ratio_amount. destruct (filter _ registry) as [|f l] eqn:Ef; [done|]. cbn. apply H1, list_elem_of_In.
    assert (f ∈ filter (fun e => trim (e_name e) = name) registry) as Hf by (rewrite Ef; constructor). by apply list_elem_of_filter in Hf as [_ ?].
Qed.

Lemma sorted_strict registry overrides l :
  doubles registry overrides = true -> Forall (fun e => e_ratio e = effective_ratio registry overrides (e_name e)) l ->
  NoDup (map e_name l) -> StronglySorted (cmp_le entry_compare) l -> StronglySorted (cheaper registry overrides) (map e_name l).
Proof.
  intros Hd Hl Hn Hs. induction Hs as [|a l Hs IH Ha]; cbn [map]; [constructor|].
  apply Forall_cons in Hl as [Hl1 Hl2]. cbn [map] in Hn. apply NoDup_cons in Hn as [Hn1 Hn2]. constructor; [by apply IH|].
  apply Forall_forall. intros x Hx. apply list_elem_of_In, in_map_iff in Hx as (b & <- & Hb). apply list_elem_of_In in Hb.
  rewrite Forall_forall in Ha, Hl2. specialize (Ha b Hb). apply entry_le in Ha as [Ha|[_ E]].
  2: { destruct Hn1. rewrite E. apply list_elem_of_In, in_map. by apply list_elem_of_In. }
  unfold entry_lt in Ha. rewrite Hl1, (Hl2 b Hb) in Ha. unfold cheaper.
  destruct (effective_amount registry overrides (e_name a) Hd) as (Fa & _), (effective_amount registry overrides (e_name b) Hd) as (Fb & _).
  set (ra := effective_ratio registry overrides (e_name a)) in *. set (rb := effective_ratio registry overrides (e_name b)) in *.
  destruct Ha as [Ha|[E Ha]]; [left|right].
  - apply num_ltb_rank. split_and!; [by destruct ra|by destruct rb|done].
  - split; [|done]. unfold num_eqb, SFeqb. destruct (compare_rank ra rb) as (o & -> & Ho); [by destruct ra|by destruct rb|].
    destruct o; [done|exfalso..]; rewrite E in Ho; destruct (rank rb) as [[] ?]; unfold rank_lt in Ho; lia.
Qed.

(** C14: Optimising the order of groups lists each group that has a name exactly once, the
    cheapest first: by the multiplier users of the chosen group pay - their override, or else
    the base ratio - and by name where multipliers are equal.  The comparator's difference of
    doubles decides as their exact order does. *)
Theorem optimized_order registry overrides :
  doubles registry overrides = true ->
  let order := buildOptimizedAutoGroups registry overrides in
  NoDup order /\
  (forall name, name ∈ order <-> name <> [] /\ exists e, e ∈ registry /\ trim (e_name e) = name) /\
  StronglySorted (cheaper registry overrides) order.
Proof.
  intros Hd. cbn zeta. unfold buildOptimizedAutoGroups. destruct (known_spec registry overrides) as (H1 & H2 & H3).
  set (known := fold_left (known_step overrides) registry []) in *.
  assert (sort_by compareEffectiveRatio known = sort_by entry_compare known) as ->.
  { apply sort_by_ext. rewrite Forall_forall in H3. intros x y Hx Hy. apply compare_amounts; rewrite H3 by done; by apply effective_amount. }
  assert (map e_name (sort_by entry_compare known) ≡ₚ map e_name known) as Hp by (by rewrite sort_by_perm).
  split_and!; [by rewrite Hp|intros name; by rewrite Hp|]. apply sorted_strict; [done| |by rewrite Hp|apply entry_sorted].
  by rewrite sort_by_perm.
Qed.

Lemma optimized_order_witness :
  NoDup (buildOptimizedAutoGroups [mkEntry (js "vip") (num_of_Z 2); mkEntry (js "default") (num_of_Z 1); mkEntry (js " free ") num_zero]
    (Some [(js "vip", num_of_decimal 5 (-1))])) /\
  buildOptimizedAutoGroups [mkEntry (js "vip") (num_of_Z 2); mkEntry (js "default") (num_of_Z 1); mkEntry (js " free ") num_zero]
    (Some [(js "vip", num_of_decimal 5 (-1))]) = [js "free"; js "vip"; js "default"].
Proof. split; [|by vm_compute]. apply (optimized_order _ (Some [(js "vip", num_of_decimal 5 (-1))])). by vm_compute. Defined.

(** ** Identifiers of rows *)

Lemma new_name_inj i j : new_name i = new_name j -> i = j.
Proof. intros H. apply app_inv_head in H. by rewrite <- (dec_string_value i), H, dec_string_value. Qed.

Lemma id_inj i j : createGroupPricingId i = createGroupPricingId j -> i = j.
Proof. intros H. apply app_inv_head in H. by rewrite <- (dec_string_value i), H, dec_string_value. Qed.

Lemma free_name_taken names fuel : forall index, free_name names index fuel ∈ names -> forall j, (j < fuel)%nat -> new_name (index + N.of_nat j) ∈ names.
Proof.
  induction fuel as [|f IH]; intros index H j Hj; [lia|]. cbn [free_name] in H. case_bool_decide as E; [|done].
  destruct j as [|j]; [by rewrite N.add_0_r|]. replace (index + N.of_nat (S j))%N with (index + 1 + N.of_nat j)%N by lia. apply IH; [done|lia].
Qed.

(** The search ends at a free name. *)
Lemma free_name_fresh names : free_name names 1 (S (length names)) ∉ names.
Proof.
  intros H. pose proof (free_name_taken names _ 1%N H) as Ht. set (taken := map (fun j => new_name (1 + N.of_nat j)) (seq 0 (S (length names)))).
  assert (length taken <= length names)%nat as Hl.
  { apply submseteq_length, NoDup_submseteq.
    - assert (Inj eq eq (fun j => new_name (1 + N.of_nat j))) by (intros a b E; apply new_name_inj in E; lia).
      apply (NoDup_fmap_2 (fun j => new_name (1 + N.of_nat j))), NoDup_seq.
    - intros x Hx. unfold taken in Hx. apply list_elem_of_In, in_map_iff in Hx as (j & <- & Hj). apply in_seq in Hj. apply Ht. lia. }
  unfold taken in Hl. rewrite length_map, length_seq in Hl. lia.
Qed.

(** Rows have identifiers of their own, made by the counter. *)
Record ids_ok (tb : Table) : Prop := mkIds {
  ids_NoDup : NoDup (map r_id (rows tb));
  ids_made : Forall (fun row => exists n, (n <= counter tb)%N /\ r_id row = createGroupPricingId n) (rows tb) }.

Lemma emit_table rs c : (emitRows rs c).1 = mkTable c rs.
Proof. unfold emitRows. by destruct (getGroupPricingValidation rs). Qed.

Lemma set_field_id f row : r_id (set_field f row) = r_id row.
Proof. by destruct row, f. Qed.

Lemma update_ids id f tb : ids_ok tb -> ids_ok (updateRow id f tb).1.
Proof.
  intros [H1 H2]. unfold updateRow. rewrite emit_table.
  assert (map r_id (map (fun row => if bool_decide (r_id row = id) then set_field f row else row) (rows tb)) = map r_id (rows tb)) as E.
  { rewrite map_map. apply map_ext. intros row. case_bool_decide; [apply set_field_id|done]. }
  split; cbn [rows counter]; [by rewrite E|]. rewrite Forall_forall in *. intros row Hr. apply list_elem_of_In, in_map_iff in Hr as (r & <- & Hr%list_elem_of_In).
  destruct (H2 r Hr) as (n & Hn & En). exists n. split; [done|]. case_bool_decide; [by rewrite set_field_id|done].
Qed.

Lemma remove_ids id tb : ids_ok tb -> ids_ok (removeRow id tb).1.
Proof.
  intros [H1 H2]. unfold removeRow. rewrite emit_table. split; cbn [rows counter].
  - eapply sublist_NoDup; [exact H1|]. apply (fmap_sublist r_id), sublist_filter.
  - rewrite Forall_forall in *. intros row [_ Hr]%list_elem_of_filter. by apply H2.
Qed.

Lemma add_ids tb : ids_ok tb -> ids_ok (addRow tb).1.
Proof.
  intros [H1 H2]. unfold addRow. rewrite emit_table. rewrite Forall_forall in H2. split; cbn [rows counter].
  - rewrite map_app. apply NoDup_app. split_and!; [done| |apply NoDup_singleton]. intros x Hx E%list_elem_of_singleton. cbn in E. subst.
    apply list_elem_of_In, in_map_iff in Hx as (r & Er & Hr%list_elem_of_In). destruct (H2 r Hr) as (n & Hn & En). rewrite En in Er. apply id_inj in Er. lia.
  - apply Forall_app. split; [|constructor; [eexists; by split|constructor]]. apply Forall_forall. intros r Hr. destruct (H2 r Hr) as (n & Hn & En). exists n. split; [lia|done].
Qed.

Lemma build_ids inherited_text c t : ids_ok (build inherited_text c t).
Proof.
  unfold build, buildGroupPricingRows. set (names := group_names _ _ _). split; cbn [rows counter].
  - rewrite map_imap. cbn [build_row r_id]. apply NoDup_alt. intros i j x Hi Hj. rewrite list_lookup_imap in Hi, Hj.
    destruct (names !! i); [|done]. destruct (names !! j); [|done]. injection Hi as <-. injection Hj as Hj. apply (f_equal dec_value) in Hj. rewrite !dec_string_value in Hj. lia.
  - apply Forall_forall. intros row (i & x & -> & Hx)%elem_of_lookup_imap_1. eexists. split; [|done]. apply lookup_lt_Some in Hx. lia.
Qed.

Lemma sync_ids inherited_text t tb : ids_ok tb -> ids_ok (sync_rows inherited_text t tb).
Proof. intros H. unfold sync_rows. case_bool_decide; [done|apply build_ids]. Qed.
