(* ===== verification/GroupOverrides.v ===== *)
(** * Special multipliers of groups
    (src/apps/web/src/features/system-settings/models/group-ratio-visual-editor.tsx)

    Users of one group may pay another multiplier when they are billed as a second group.
    These overrides are a JSON text of maps; the card lists them, and two dialogs add, change
    and delete them.  Every change reads the text, changes the map and writes it back. *)
From S2P Require Import Prelude JsString JsNumber JsCollections JsJson JsNumberPrint JsJsonPrint JsJsonPretty JsObject JsOrder VisualTiers StatusGroups GroupPricing.
From Stdlib Require Import Lia Sorted.

Notation ratios := (list (list N * spec_float)) (only parsing).

(** ** What is listed *)

Definition groupGroupRatioList (groupGroupRatio : list N) : list (list N * list GroupOverride) :=
  sort_by (fun left right => stableNameCompare left.1 right.1)
    (map (fun kv => (kv.1, sort_by compareOverrides
        (map (fun o => mkOverride o.1 (parseOverrideRatio o.2)) (filter (fun o => trim o.1 <> []) (object_entries kv.2)))))
      (filter (fun kv => trim kv.1 <> []) (object_entries (parseNestedRatioMap groupGroupRatio)))).

(** ** Changes of the text *)

Definition ratios_json (o : ratios) : json := JObj (map (fun kv => (kv.1, JNum kv.2)) (object_entries o)).

(** [emitMap]. *)
Definition emitMap (m : list (list N * ratios)) : list N := object_text ratios_json m.

(** [map[name]] is truthy: a map of overrides, or a function of [Object.prototype]. *)
Definition present (m : list (list N * ratios)) (name : list N) : bool :=
  bool_decide (is_Some (obj_get name m)) || bool_decide (name ∈ prototype_names).

Definition add_user_group (groupGroupRatio userGroup : list N) : list N :=
  let m := parseNestedRatioMap groupGroupRatio in
  emitMap (if present m userGroup then m else obj_put userGroup [] m).

Definition handleUserGroupDelete (groupGroupRatio userGroup : list N) : list N :=
  emitMap (obj_delete userGroup (parseNestedRatioMap groupGroupRatio)).

(** A property of an inherited function is no part of the map. *)
Definition save_override (groupGroupRatio overrideUserGroup targetGroup : list N) (ratio : spec_float) (oldTargetGroup : option (list N)) : list N :=
  let m := parseNestedRatioMap groupGroupRatio in
  let m := if present m overrideUserGroup then m else obj_put overrideUserGroup [] m in
  emitMap
    (match obj_get overrideUserGroup m with
     | Some o =>
         let o := match oldTargetGroup with
                  | Some old => if nonempty old && bool_decide (old <> targetGroup) then obj_delete old o else o
                  | None => o
                  end in
         obj_set overrideUserGroup (obj_put targetGroup ratio o) m
     | None => m
     end).

Definition handleOverrideDelete (groupGroupRatio userGroup targetGroup : list N) : list N :=
  let m := parseNestedRatioMap groupGroupRatio in
  emitMap
    (match obj_get userGroup m with
     | Some o => let o := obj_delete targetGroup o in if (length (obj_keys o) =? 0)%nat then obj_delete userGroup m else obj_set userGroup o m
     | None => m
     end).

(** ** The dialogs *)

Record OverrideRules := mkRules {
  userGroupDialogOpen : bool;
  userGroupInput : option (list N);
  overrideDialogOpen : bool;
  overrideUserGroup : option (list N);
  overrideEditData : option GroupOverride;
  targetGroup : option (list N);
  ratio : list N;
  (** what the effect of the dialog last ran for *)
  seenDialog : bool * option GroupOverride }.

Definition closed : OverrideRules := mkRules false None false None None None [] (false, None).

#[global] Instance GroupOverride_eq_dec : EqDecision GroupOverride.
Proof. solve_decision. Defined.

(** The effect of the dialog on [open] and [editData]. *)
Definition dialog_effect (d : OverrideRules) : OverrideRules :=
  let '(mkRules ugo ugi od oug oed tg r seen) := d in
  if bool_decide (seen = (od, oed)) then d
  else if negb od then mkRules ugo ugi od oug oed None [] (od, oed)
  else mkRules ugo ugi od oug oed (o_target <$> oed)
         (match oed with Some o => match o_ratio o with Some x => num_to_string x | None => [] end | None => [] end) (od, oed).

Inductive OverrideEvent :=
| OpenUserGroup | ChooseUserGroup (v : list N) | SaveUserGroup | CloseUserGroup | DeleteUserGroup (userGroup : list N)
| AddOverride (userGroup : list N) | EditOverride (userGroup : list N) (override : GroupOverride) | DeleteOverride (userGroup target : list N)
| ChooseTarget (v : list N) | TypeRatio (val : list N) | SaveOverride | CloseOverride.

(** [handleUserGroupSave]: nothing without a name. *)
Definition handleUserGroupSave (text : list N) (d : OverrideRules) : OverrideRules * option (list N) :=
  let '(mkRules ugo ugi od oug oed tg r seen) := d in
  match ugi with
  | Some g => if nonempty g then (mkRules false None od oug oed tg r seen, Some (add_user_group text g)) else (d, None)
  | None => (d, None)
  end.

(** [handleOverrideSave]. *)
Definition handleOverrideSave (text target : list N) (x : spec_float) (old : option (list N)) (d : OverrideRules) : OverrideRules * option (list N) :=
  let '(mkRules ugo ugi od oug oed tg r seen) := d in
  match oug with
  | Some u => if nonempty u then (mkRules ugo ugi false oug oed tg r seen, Some (save_override text u target x old)) else (d, None)
  | None => (d, None)
  end.

Definition clear_dialog (d : OverrideRules) : OverrideRules :=
  let '(mkRules ugo ugi od oug oed tg r seen) := d in mkRules ugo ugi od oug oed None [] seen.

(** [handleSave] of the dialog. *)
Definition handleSave (text : list N) (d : OverrideRules) : OverrideRules * option (list N) :=
  match targetGroup d with
  | Some t =>
      let parsedRatio := number_of_string (ratio d) in
      if negb (nonempty t) || negb (nonempty (trim (ratio d))) then (d, None)
      else if negb (is_finite parsedRatio) || num_ltb parsedRatio num_zero then (d, None)
      else let '(d', out) := handleOverrideSave text t parsedRatio (o_target <$> overrideEditData d) d in (clear_dialog d', out)
  | None => (d, None)
  end.

Definition handle_override (text : list N) (d : OverrideRules) (e : OverrideEvent) : OverrideRules * option (list N) :=
  let '(mkRules ugo ugi od oug oed tg r seen) := d in
  match e with
  | OpenUserGroup => (mkRules true None od oug oed tg r seen, None)
  | ChooseUserGroup v => (if nonempty v then mkRules ugo (Some v) od oug oed tg r seen else d, None)
  | SaveUserGroup => handleUserGroupSave text d
  | CloseUserGroup => (mkRules false ugi od oug oed tg r seen, None)
  | DeleteUserGroup u => (d, Some (handleUserGroupDelete text u))
  | AddOverride u => (mkRules ugo ugi true (Some u) None tg r seen, None)
  | EditOverride u o => (mkRules ugo ugi true (Some u) (Some o) tg r seen, None)
  | DeleteOverride u t => (d, Some (handleOverrideDelete text u t))
  | ChooseTarget v => (if nonempty v then mkRules ugo ugi od oug oed (Some v) r seen else d, None)
  | TypeRatio val =>
      (if negb (nonempty val) || is_finite (number_of_string val) && num_leb num_zero (number_of_string val)
       then mkRules ugo ugi od oug oed tg val seen else d, None)
  | SaveOverride => handleSave text d
  | CloseOverride => (mkRules ugo ugi false oug oed tg r seen, None)
  end.

(** One event: the handler, then the effect; the new text when there is one. *)
Definition override_step (st : OverrideRules * list N) (e : OverrideEvent) : OverrideRules * list N :=
  let '(d', out) := handle_override st.2 st.1 e in (dialog_effect d', default st.2 out).

(** ** Abstract specification *)

(** The multiplier users of a group pay when billed as another. *)
Notation OverrideMap := (gmap (list N) (gmap (list N) spec_float)).

Inductive Op :=
| AddGroup (u : list N) | DropGroup (u : list N)
| SetRatio (u target : list N) (x : spec_float) (old : option (list N)) | DropRatio (u target : list N).

Definition spec_op (op : Op) (M : OverrideMap) : OverrideMap :=
  match op with
  | AddGroup u => match M !! u with Some _ => M | None => <[u := ∅]> M end
  | DropGroup u => delete u M
  | SetRatio u target x old =>
      let o := default ∅ (M !! u) in
      <[u := <[target := x]> (match old with Some k => if decide (k = target) then o else delete k o | None => o end)]> M
  | DropRatio u target =>
      match M !! u with
      | Some o => if decide (delete target o = ∅) then delete u M else <[u := delete target o]> M
      | None => M
      end
  end.

Definition run_op (text : list N) (op : Op) : list N :=
  match op with
  | AddGroup u => add_user_group text u
  | DropGroup u => handleUserGroupDelete text u
  | SetRatio u target x old => save_override text u target x old
  | DropRatio u target => handleOverrideDelete text u target
  end.

Definition abs_map (m : list (list N * ratios)) : OverrideMap := obj_map <$> obj_map m.

Definition overrides_of (text : list N) : OverrideMap := abs_map (parseNestedRatioMap text).

(** Names that are texts and no property of every object; ratios that can be printed. *)
Definition group_name_ok (u : list N) : bool := unitsb u && negb (bool_decide (u ∈ prototype_names)).

Definition op_ok (op : Op) : bool :=
  match op with
  | AddGroup u => group_name_ok u
  | SetRatio u target x old => group_name_ok u && unitsb target && negb (bool_decide (target = PROTO)) && good_ratio x && match old with Some k => nonempty k | None => true end
  | _ => true
  end.

Definition ratios_ok (o : ratios) : bool :=
  bool_decide (NoDup o.*1) && forallb (fun kv => negb (bool_decide (kv.1 = PROTO)) && unitsb kv.1 && good_ratio kv.2) o.

Definition nested_ok (m : list (list N * ratios)) : bool :=
  bool_decide (NoDup m.*1) && forallb (fun kv => negb (bool_decide (kv.1 = PROTO)) && unitsb kv.1 && ratios_ok kv.2) m.

(** ** What is written is read back *)

Lemma ratios_ok_spec o : ratios_ok o = true <-> NoDup o.*1 /\ forall kv, kv ∈ o -> kv.1 <> PROTO /\ unitsb kv.1 = true /\ good_ratio kv.2 = true.
Proof.
  unfold ratios_ok. rewrite andb_true_iff, bool_decide_eq_true, forallb_forall. setoid_rewrite <- list_elem_of_In.
  setoid_rewrite andb_true_iff. setoid_rewrite andb_true_iff. setoid_rewrite negb_true_iff. setoid_rewrite bool_decide_eq_false. naive_solver.
Qed.

Lemma nested_ok_spec m : nested_ok m = true <-> NoDup m.*1 /\ forall kv, kv ∈ m -> kv.1 <> PROTO /\ unitsb kv.1 = true /\ ratios_ok kv.2 = true.
Proof.
  unfold nested_ok. rewrite andb_true_iff, bool_decide_eq_true, forallb_forall. setoid_rewrite <- list_elem_of_In.
  setoid_rewrite andb_true_iff. setoid_rewrite andb_true_iff. setoid_rewrite negb_true_iff. setoid_rewrite bool_decide_eq_false. naive_solver.
Qed.

Lemma ratios_writable o : ratios_ok o = true -> writable JNum o.
Proof.
  intros [H1 H2]%ratios_ok_spec. split; [done| |].
  - rewrite list_elem_of_fmap. intros (kv & E & Hkv). by destruct (H2 _ Hkv).
  - apply Forall_forall. intros kv Hkv. destruct (H2 _ Hkv) as (_ & -> & Hg). cbn. by apply andb_true_iff in Hg as [? _].
Qed.

Lemma ratios_json_wf o : ratios_ok o = true -> json_wf (ratios_json o) = true.
Proof.
  intros Ho. pose proof (ratios_writable o Ho) as [H1 _ H3]. unfold ratios_json. cbn [json_wf]. apply andb_true_iff. split.
  - apply bool_decide_eq_true. rewrite map_map. cbn [fst]. by apply (entries_NoDup o).
  - apply forallb_forall. intros [k y] Hy. apply in_map_iff in Hy as ([k' x] & [= -> <-] & Hx%list_elem_of_In). rewrite elem_of_object_entries in Hx.
    rewrite Forall_forall in H3. by apply (H3 (k, x)).
Qed.

Lemma ratios_collect o : ratios_ok o = true -> collect accept_ratio (map (fun kv => (kv.1, JNum kv.2)) (object_entries o)) = (object_entries o, true).
Proof.
  intros Ho. apply collect_object; [by apply ratios_writable|]. intros a (kv & -> & Hkv)%list_elem_of_fmap. apply good_accepted.
  apply ratios_ok_spec in Ho as [_ Ho]. naive_solver.
Qed.

Lemma nested_fold l acc : NoDup (acc ++ l).*1 -> (forall kv, kv ∈ l -> kv.1 <> PROTO /\ ratios_ok kv.2 = true) ->
  fold_left nested_step (map (fun kv => (kv.1, ratios_json kv.2)) l) (mkNested acc true []) =
  mkNested (acc ++ map (fun kv => (kv.1, object_entries kv.2)) l) true [].
Proof.
  revert acc. induction l as [|[k o] l IH]; intros acc Hn Hl; cbn [map fold_left]; [by rewrite app_nil_r|].
  destruct (Hl (k, o) ltac:(left)) as [Hk Ho]. cbn [fst snd] in *. 
  assert (nested_step (mkNested acc true []) (k, ratios_json o) = mkNested (obj_put k (object_entries o) acc) true []) as ->.
  { unfold nested_step, ratios_json. cbn [fst snd]. by rewrite (ratios_collect o Ho). }
  assert (k ∉ acc.*1) as Hka.
  { rewrite fmap_app in Hn. apply NoDup_app in Hn as (_ & Hn & _). intros H. specialize (Hn k H). rewrite fmap_cons, elem_of_cons in Hn. naive_solver. }
  unfold obj_put. rewrite bool_decide_false by done. rewrite obj_set_fresh by done. rewrite IH.
  - by rewrite <- app_assoc.
  - rewrite !fmap_app, !fmap_cons in *. cbn. rewrite <- app_assoc. exact Hn.
  - intros kv Hkv. apply Hl. by right.
Qed.

Definition reordered (m : list (list N * ratios)) : list (list N * ratios) := map (fun kv => (kv.1, object_entries kv.2)) (object_entries m).

Lemma nested_read m : nested_ok m = true -> parseNestedRatioMapResult (emitMap m) = mkNested (reordered m) true [].
Proof.
  intros [H1 H2]%nested_ok_spec. unfold parseNestedRatioMapResult, emitMap. rewrite parse_object_text.
  - rewrite (object_entries_map (fun kv => ratios_json kv.2)), object_entries_idemp. rewrite (nested_fold (object_entries m) []); [done|by apply entries_NoDup|].
    intros kv Hkv. rewrite elem_of_object_entries in Hkv. naive_solver.
  - split; [done| |].
    + rewrite list_elem_of_fmap. intros (kv & E & Hkv). by destruct (H2 _ Hkv).
    + apply Forall_forall. intros kv Hkv. destruct (H2 _ Hkv) as (_ & -> & Ho). by apply ratios_json_wf.
Qed.

Lemma ratios_ok_entries o : ratios_ok o = true -> ratios_ok (object_entries o) = true.
Proof. rewrite !ratios_ok_spec. intros [H1 H2]. split; [by apply entries_NoDup|]. intros kv. rewrite elem_of_object_entries. apply H2. Qed.

Lemma reordered_ok m : nested_ok m = true -> nested_ok (reordered m) = true.
Proof.
  rewrite !nested_ok_spec. unfold reordered. intros [H1 H2]. split.
  - rewrite keys_map. cbn. by apply (entries_NoDup m).
  - intros kv Hkv. apply list_elem_of_In, in_map_iff in Hkv as (x & <- & Hx%list_elem_of_In). rewrite elem_of_object_entries in Hx. cbn.
    destruct (H2 _ Hx) as (? & ? & ?). split_and!; [done|done|by apply ratios_ok_entries].
Qed.

Lemma abs_lookup m k : abs_map m !! k = obj_map <$> obj_get k m.
Proof. unfold abs_map, obj_get, obj_map. by rewrite lookup_fmap. Qed.

Lemma obj_get_map {A B} (f : A -> B) (l : list (list N * A)) k : obj_get k (map (fun kv => (kv.1, f kv.2)) l) = f <$> obj_get k l.
Proof.
  unfold obj_get. induction l as [|[k' a] l IH]; cbn [map list_to_map fst snd]; [done|]. cbn.
  destruct (decide (k' = k)) as [->|]; [by rewrite !lookup_insert_eq|]. by rewrite !lookup_insert_ne.
Qed.

Lemma reordered_abs m : nested_ok m = true -> abs_map (reordered m) = abs_map m.
Proof.
  intros [H1 H2]%nested_ok_spec. apply map_eq. intros k. rewrite !abs_lookup. unfold reordered. rewrite obj_get_map.
  assert (obj_get k (object_entries m) = obj_get k m) as -> by (unfold obj_get; exact (f_equal (fun M => M !! k) (obj_map_entries m H1))).
  destruct (obj_get k m) as [o|] eqn:E; [|done]. cbn. f_equal. apply obj_map_entries. apply obj_get_in in E. destruct (H2 _ E) as (_ & _ & Ho).
  by apply ratios_ok_spec in Ho as [? _].
Qed.

(** Writing a map and reading it again. *)
Lemma written m : nested_ok m = true -> overrides_of (emitMap m) = abs_map m /\ nested_ok (parseNestedRatioMap (emitMap m)) = true.
Proof.
  intros Hm. unfold overrides_of, parseNestedRatioMap. rewrite nested_read by done. cbn [n_map]. split; [by apply reordered_abs|by apply reordered_ok].
Qed.

(** ** Operations on objects *)

Lemma obj_set_elem {A} k (v : A) l kv : kv ∈ obj_set k v l -> kv = (k, v) \/ kv ∈ l.
Proof.
  induction l as [|[k' v'] l IH]; cbn [obj_set]; [intros ->%list_elem_of_singleton; by left|]. case_bool_decide; rewrite !elem_of_cons; naive_solver.
Qed.

Lemma obj_delete_elem {A} k (l : list (list N * A)) kv : kv ∈ obj_delete k l -> kv ∈ l.
Proof. by intros [_ ?]%list_elem_of_filter. Qed.

Lemma nested_set_ok k o m : nested_ok m = true -> k <> PROTO -> unitsb k = true -> ratios_ok o = true -> nested_ok (obj_set k o m) = true.
Proof.
  rewrite !nested_ok_spec. intros [H1 H2] Hk Hu Ho. split; [by apply obj_set_keys|]. intros kv [->|Hkv]%obj_set_elem; [done|by apply H2].
Qed.

Lemma nested_delete_ok k m : nested_ok m = true -> nested_ok (obj_delete k m) = true.
Proof. rewrite !nested_ok_spec. intros [H1 H2]. split; [by apply obj_delete_keys|]. intros kv Hkv%obj_delete_elem. by apply H2. Qed.

Lemma ratios_set_ok k x o : ratios_ok o = true -> k <> PROTO -> unitsb k = true -> good_ratio x = true -> ratios_ok (obj_set k x o) = true.
Proof.
  rewrite !ratios_ok_spec. intros [H1 H2] Hk Hu Ho. split; [by apply obj_set_keys|]. intros kv [->|Hkv]%obj_set_elem; [done|by apply H2].
Qed.

Lemma ratios_delete_ok k o : ratios_ok o = true -> ratios_ok (obj_delete k o) = true.
Proof. rewrite !ratios_ok_spec. intros [H1 H2]. split; [by apply obj_delete_keys|]. intros kv Hkv%obj_delete_elem. by apply H2. Qed.

Lemma abs_set k o m : abs_map (obj_set k o m) = <[k := obj_map o]> (abs_map m).
Proof. unfold abs_map. by rewrite obj_set_map, fmap_insert. Qed.

Lemma abs_delete k m : abs_map (obj_delete k m) = delete k (abs_map m).
Proof. unfold abs_map. by rewrite obj_delete_map, fmap_delete. Qed.

Lemma obj_map_empty {A} (l : list (list N * A)) : obj_map l = ∅ <-> l = [].
Proof.
  unfold obj_map. destruct l as [|[k a] l]; [done|]. split; [|done]. cbn. intros H. by apply insert_non_empty in H.
Qed.

(** ** Refinement *)

Lemma group_name_spec u : group_name_ok u = true -> unitsb u = true /\ u ∉ prototype_names /\ u <> PROTO.
Proof.
  unfold group_name_ok. intros [H1 H2]%andb_true_iff. breflect. split_and!; [done|done|]. intros ->. apply H2, list_elem_of_In. vm_compute. tauto.
Qed.

Lemma present_spec m u : u ∉ prototype_names -> present m u = bool_decide (is_Some (obj_get u m)).
Proof. intros H. unfold present. by rewrite (bool_decide_false _ H), orb_false_r. Qed.

(** A group that is made when it is missing. *)
Lemma ensure_group m u : nested_ok m = true -> group_name_ok u = true ->
  let m' := if present m u then m else obj_put u [] m in
  nested_ok m' = true /\ abs_map m' = spec_op (AddGroup u) (abs_map m) /\ exists o, obj_get u m' = Some o.
Proof.
  intros Hm Hu. destruct (group_name_spec u Hu) as (H1 & H2 & H3). cbn zeta. rewrite present_spec by done. cbn [spec_op]. rewrite abs_lookup.
  destruct (obj_get u m) as [o|] eqn:E; cbn [fmap option_fmap option_map].
  - rewrite bool_decide_true by done. eauto.
  - rewrite bool_decide_false by (by intros []). unfold obj_put. rewrite bool_decide_false by done. split_and!.
    + by apply nested_set_ok.
    + by rewrite abs_set.
    + exists []. unfold obj_get. fold (obj_map (obj_set u [] m)). by rewrite obj_set_map, lookup_insert_eq.
Qed.

Lemma add_refines text u : nested_ok (parseNestedRatioMap text) = true -> group_name_ok u = true ->
  overrides_of (add_user_group text u) = spec_op (AddGroup u) (overrides_of text) /\ nested_ok (parseNestedRatioMap (add_user_group text u)) = true.
Proof.
  intros Hm Hu. unfold add_user_group. destruct (ensure_group _ u Hm Hu) as (H1 & H2 & _). cbn zeta. unfold overrides_of at 2. rewrite <- H2. by apply written.
Qed.

Lemma set_refines text u target x old : nested_ok (parseNestedRatioMap text) = true -> op_ok (SetRatio u target x old) = true ->
  overrides_of (save_override text u target x old) = spec_op (SetRatio u target x old) (overrides_of text) /\
  nested_ok (parseNestedRatioMap (save_override text u target x old)) = true.
Proof.
  intros Hm Hop. cbn [op_ok] in Hop. breflect. destruct (group_name_spec u ltac:(done)) as (Hu1 & Hu2 & Hu3).
  unfold save_override. set (m := parseNestedRatioMap text) in *. destruct (ensure_group m u Hm ltac:(done)) as (H5 & H6 & o & H7). cbn zeta in *.
  set (m' := if present m u then m else obj_put u [] m) in *. rewrite H7.
  set (o' := match old with Some k => if nonempty k && bool_decide (k <> target) then obj_delete k o else o | None => o end).
  assert (ratios_ok o = true) as Ho. { apply obj_get_in in H7. apply nested_ok_spec in H5 as [_ H5]. by destruct (H5 _ H7) as (_ & _ & ?). }
  assert (ratios_ok o' = true) as Ho'. { unfold o'. destruct old as [k|]; [|done]. destruct (_ && _); [by apply ratios_delete_ok|done]. }
  assert (nested_ok (obj_set u (obj_put target x o') m') = true) as Hok.
  { apply nested_set_ok; try done. unfold obj_put. rewrite bool_decide_false by done. by apply ratios_set_ok. }
  destruct (written _ Hok) as [W1 W2]. split; [|done]. rewrite W1, abs_set, obj_put_map, H6 by done. cbn [spec_op]. unfold overrides_of. fold m.
  assert (obj_map o = default ∅ (abs_map m !! u)) as Eo.
  { pose proof (abs_lookup m' u) as E. rewrite H7, H6 in E. cbn [spec_op] in E. destruct (abs_map m !! u) as [q|] eqn:Eq.
    - rewrite Eq in E. by injection E as ->.
    - rewrite lookup_insert_eq in E. by injection E as <-. }
  assert (obj_map o' = match old with Some k => if decide (k = target) then default ∅ (abs_map m !! u) else delete k (default ∅ (abs_map m !! u)) | None => default ∅ (abs_map m !! u) end) as ->.
  { unfold o'. rewrite <- Eo. destruct old as [k|]; [|done]. destruct (nonempty k); [|done]. cbn [andb].
    destruct (decide (k = target)); [by rewrite bool_decide_false by naive_solver|]. rewrite bool_decide_true by done. apply obj_delete_map. }
  destruct (abs_map m !! u) eqn:Eq; [done|]. by rewrite insert_insert_eq.
Qed.

Lemma drop_ratio_refines text u target : nested_ok (parseNestedRatioMap text) = true ->
  overrides_of (handleOverrideDelete text u target) = spec_op (DropRatio u target) (overrides_of text) /\
  nested_ok (parseNestedRatioMap (handleOverrideDelete text u target)) = true.
Proof.
  intros Hm. unfold handleOverrideDelete, overrides_of at 2. set (m := parseNestedRatioMap text) in *. cbn [spec_op]. rewrite abs_lookup.
  destruct (obj_get u m) as [o|] eqn:E; cbn [fmap option_fmap option_map]; [|by apply written].
  pose proof (obj_get_in _ _ _ E) as Hin. pose proof Hm as [_ H2]%nested_ok_spec. destruct (H2 _ Hin) as (H3 & H4 & H5). cbn [fst snd] in *.
  cbn zeta. rewrite <- obj_delete_map.
  assert ((length (obj_keys (obj_delete target o)) =? 0)%nat = bool_decide (obj_map (obj_delete target o) = ∅)) as ->.
  { unfold obj_keys. rewrite length_fmap, object_entries_perm. rewrite (bool_decide_ext _ _ (obj_map_empty _)). destruct (obj_delete target o); [by rewrite bool_decide_true|by rewrite bool_decide_false]. }
  case_bool_decide as Ee.
  - rewrite decide_True by done. rewrite <- abs_delete. by apply written, nested_delete_ok.
  - rewrite decide_False by done. rewrite <- abs_set. apply written, nested_set_ok; try done. by apply ratios_delete_ok.
Qed.

Lemma op_refines text op : nested_ok (parseNestedRatioMap text) = true -> op_ok op = true ->
  overrides_of (run_op text op) = spec_op op (overrides_of text) /\ nested_ok (parseNestedRatioMap (run_op text op)) = true.
Proof.
  intros Hm Hop. destruct op as [u|u|u target x old|u target]; cbn [run_op].
  - by apply add_refines.
  - unfold handleUserGroupDelete. cbn [spec_op]. unfold overrides_of at 2. rewrite <- abs_delete. by apply written, nested_delete_ok.
  - by apply set_refines.
  - by apply drop_ratio_refines.
Qed.

(** ** The dialogs make only these operations *)

(** The operation an event asks for, given the dialogs. *)
Definition event_op (d : OverrideRules) (e : OverrideEvent) : option Op :=
  match e with
  | SaveUserGroup => g ← userGroupInput d; if nonempty g then Some (AddGroup g) else None
  | DeleteUserGroup u => Some (DropGroup u)
  | DeleteOverride u t => Some (DropRatio u t)
  | SaveOverride =>
      t ← targetGroup d; u ← overrideUserGroup d;
      if nonempty t && nonempty u && isValidRequiredRatio (ratio d)
      then Some (SetRatio u t (number_of_string (ratio d)) (o_target <$> overrideEditData d)) else None
  | _ => None
  end.

Lemma not_negative x : is_finite x = true -> num_ltb x num_zero = negb (num_leb num_zero x).
Proof. by destruct x as [| | |[]]. Qed.

Lemma handle_op text d e : (handle_override text d e).2 = run_op text <$> event_op d e.
Proof.
  destruct d as [ugo ugi od oug oed tg r seen], e; cbn [handle_override snd event_op fmap option_fmap option_map]; try done.
  - cbn. by destruct ugi as [[|c g]|].
  - unfold handleSave, handleOverrideSave. cbn [targetGroup ratio overrideEditData overrideUserGroup mbind option_bind]. unfold isValidRequiredRatio.
    destruct tg as [t|]; [|done]. cbn [mbind option_bind]. destruct (nonempty t) eqn:Et; cbn [negb orb andb]; [|by destruct oug].
    destruct (nonempty (trim r)) eqn:Er; cbn [negb andb].
    2: { destruct oug as [u|]; [|done]. cbn. by rewrite andb_false_r. }
    destruct (is_finite (number_of_string r)) eqn:Ef; cbn [negb orb andb].
    2: { destruct oug as [u|]; [|done]. cbn. by rewrite andb_false_r. }
    rewrite (not_negative _ Ef). destruct (num_leb num_zero (number_of_string r)) eqn:El; cbn [negb].
    2: { destruct oug as [u|]; [|done]. cbn. by rewrite andb_false_r. }
    destruct oug as [u|]; [|done]. cbn [mbind option_bind]. rewrite andb_true_r. by destruct (nonempty u).
Qed.

(** The operations of a sequence of events. *)
Fixpoint ops_of (st : OverrideRules * list N) (es : list OverrideEvent) : list Op :=
  match es with
  | [] => []
  | e :: es' => match event_op st.1 e with Some op => [op] | None => [] end ++ ops_of (override_step st e) es'
  end.


Definition sample_events : list OverrideEvent :=
  [OpenUserGroup; ChooseUserGroup (js "vip"); SaveUserGroup; AddOverride (js "vip"); ChooseTarget (js "default"); TypeRatio (js "0.5"); SaveOverride;
   EditOverride (js "vip") (mkOverride (js "default") (Some (num_of_decimal 5 (-1)))); ChooseTarget (js "pro"); SaveOverride; DeleteOverride (js "vip") (js "pro")].


(** A text that cannot be read is replaced by the change alone. *)
Example unreadable_overrides_lost :
  add_user_group (js "{vip: {}}") (js "free") = emitMap [(js "free", [])] /\
  (parseNestedRatioMapResult (js "{vip: {}}")).(n_valid) = false.
Proof. by vm_compute. Qed.
