(* ===== verification/SettingsJson.v ===== *)
(** * JSON texts of the settings
    (src/apps/web/src/features/system-settings: models/utils.ts, utils/json-parser.ts,
    models/group-ratio-option-values.ts, models/group-warning-validation.ts)

    Options of the server are JSON texts.  A form shows them indented, checks them and compares
    them in a normal form; what changed is sent. *)
From S2P Require Import Prelude JsString JsNumber JsCollections JsJson JsNumberPrint JsJsonPrint JsJsonPretty JsObject.
From Stdlib Require Import Lia.

(** ** Texts *)

Definition formatJsonForTextarea (value : list N) : list N :=
  if negb (nonempty (trim value)) then []
  else match json_parse value with Some parsed => json_pretty (ordered parsed) | None => value end.

Definition normalizeJsonString (value : list N) : list N :=
  let trimmed := trim value in
  if negb (nonempty trimmed) then []
  else match json_parse trimmed with Some parsed => json_stringify (ordered parsed) | None => trimmed end.

(** [safeJsonParse] with a fallback: what is JSON is returned whatever it is. *)
Definition safeJsonParse (fallback : json) (value : list N) : json :=
  if negb (nonempty (trim value)) then fallback
  else match json_parse (trim value) with Some v => ordered v | None => fallback end.

Inductive JsonValidationError := Required | Structure | Syntax.

(** [validateJsonString]: [None] is valid.  The place of a syntax error is the engine's. *)
Definition validateJsonString (allowEmpty : bool) (predicate : option (json -> bool)) (value : list N) : option JsonValidationError :=
  let trimmed := trim value in
  if negb (nonempty trimmed) then if allowEmpty then None else Some Required
  else match json_parse trimmed with
       | Some parsed => match predicate with Some p => if p (ordered parsed) then None else Some Structure | None => None end
       | None => Some Syntax
       end.

(** ** Warnings of groups *)

(** [[...s].length]: a surrogate pair is one. *)
Fixpoint spread_length (s : list N) : nat :=
  match s with
  | c :: ((d :: r) as s') => if is_high_surrogate c && is_low_surrogate d then S (spread_length r) else S (spread_length s')
  | _ :: [] => 1
  | [] => 0
  end.

Definition WARNING_MODES : list (list N) := [js "modal"; js "banner"; js "inline"].

Section Warnings.
Variable toLowerCase : list N -> list N.

(** [warning.key] of an object of [JSON.parse]; the four names are no inherited ones. *)
Definition warning_ok (group : list N) (warning : json) : bool :=
  let groupName := trim group in
  if negb (nonempty groupName) || (64 <? spread_length groupName)%nat then false
  else
    match warning with
    | JObj l =>
        let enabled := obj_get (js "enabled") l in
        let message := obj_get (js "message") l in
        match enabled with None | Some (JBool _) => true | _ => false end &&
        match message with None | Some (JStr _) => true | _ => false end &&
        match message with Some (JStr m) => (spread_length m <=? 2000)%nat | _ => true end &&
        match enabled with Some (JBool true) => match message with Some (JStr m) => nonempty (trim m) | _ => false end | _ => true end &&
        match obj_get (js "mode") l with
        | None => true
        | Some (JStr mode) => negb (nonempty (trim mode)) || bool_decide (toLowerCase (trim mode) ∈ WARNING_MODES)
        | _ => false
        end &&
        match obj_get (js "confirmations") l with
        | None => true
        | Some (JNum n) => is_integer n && num_leb (num_of_Z 1) n && num_leb n (num_of_Z 3)
        | _ => false
        end
    | _ => false
    end.

Definition isValidGroupWarnings (value : json) : bool :=
  match value with JObj members => forallb (fun kv => warning_ok kv.1 kv.2) (object_entries members) | _ => false end.

End Warnings.

(** ** The options of the groups *)

(** The form, and the options in their normal form. *)
Record GroupFormValues := mkForm {
  f_GroupRatio : list N;
  f_TopupGroupRatio : list N;
  f_UserUsableGroups : list N;
  f_GroupGroupRatio : list N;
  f_AutoGroups : list N;
  f_MaxTokenAutoGroups : spec_float;
  f_DefaultUseAutoGroup : bool;
  f_GroupSpecialUsableGroup : list N;
  f_GroupWarnings : list N }.

(** The fields in the order of the record: their keys, and their values as the comparison
    sees them. *)
Inductive OptionValue := OText (s : list N) | ONumber (x : spec_float) | OBool (b : bool).

Definition option_fields (v : GroupFormValues) : list (list N * OptionValue) :=
  [(js "GroupRatio", OText (f_GroupRatio v)); (js "TopupGroupRatio", OText (f_TopupGroupRatio v));
   (js "UserUsableGroups", OText (f_UserUsableGroups v)); (js "GroupGroupRatio", OText (f_GroupGroupRatio v));
   (js "AutoGroups", OText (f_AutoGroups v)); (js "MaxTokenAutoGroups", ONumber (f_MaxTokenAutoGroups v));
   (js "DefaultUseAutoGroup", OBool (f_DefaultUseAutoGroup v));
   (js "GroupSpecialUsableGroup", OText (f_GroupSpecialUsableGroup v)); (js "GroupWarnings", OText (f_GroupWarnings v))].

(** [next[key] !== previous[key]]. *)
Definition option_differs (a b : OptionValue) : bool :=
  match a, b with
  | OText s, OText s' => negb (bool_decide (s = s'))
  | ONumber x, ONumber y => negb (num_eqb x y)
  | OBool x, OBool y => negb (Bool.eqb x y)
  | _, _ => true
  end.

Definition option_string (v : OptionValue) : list N :=
  match v with OText s => s | ONumber x => num_to_string x | OBool b => if b then js "true" else js "false" end.

Definition optionKeys (key : list N) : list N :=
  if bool_decide (key = js "GroupSpecialUsableGroup") then js "group_ratio_setting.group_special_usable_group"
  else if bool_decide (key = js "GroupWarnings") then js "group_ratio_setting.group_warnings"
  else key.

Definition changedGroupRatioOptions (next previous : GroupFormValues) : list (list N * list N) :=
  omap (fun '(n, p) => if option_differs n.2 p.2 then Some (optionKeys n.1, option_string n.2) else None)
    (zip (option_fields next) (option_fields previous)).

(** The texts in their normal form. *)
Definition map_texts (f : list N -> list N) (v : GroupFormValues) : GroupFormValues :=
  mkForm (f (f_GroupRatio v)) (f (f_TopupGroupRatio v)) (f (f_UserUsableGroups v)) (f (f_GroupGroupRatio v)) (f (f_AutoGroups v))
    (f_MaxTokenAutoGroups v) (f_DefaultUseAutoGroup v) (f (f_GroupSpecialUsableGroup v)) (f (f_GroupWarnings v)).

(** ** The normal form *)

(** A text a form can hold: trimming it does not change what it says, and its values can be
    printed. *)
Definition settled (text : list N) : bool :=
  bool_decide (json_parse (trim text) = json_parse text) && match json_parse text with Some v => json_wf v | None => true end.

Lemma parse_nonempty text v : json_parse text = Some v -> nonempty text = true.
Proof. by destruct text. Qed.

(** Showing a text does not change its normal form. *)
Lemma normalize_format text : settled text = true -> normalizeJsonString (formatJsonForTextarea text) = normalizeJsonString text.
Proof.
  unfold settled. intros [Ht Hw]%andb_true_iff. apply bool_decide_eq_true in Ht. unfold formatJsonForTextarea, normalizeJsonString.
  destruct (nonempty (trim text)) eqn:En; cbn [negb]; [|done]. rewrite Ht. destruct (json_parse text) as [v|] eqn:Ev.
  - pose proof (ordered_wf v Hw) as Ho. rewrite (trim_trimmed _ (pretty_value_trimmed _ Ho)), (pretty_roundtrip _ Ho), ordered_idemp.
    by rewrite (parse_nonempty _ _ (pretty_roundtrip _ Ho)).
  - by rewrite En, Ht.
Qed.

(** The normal form says the same and is its own. *)
Lemma normalize_parse text v : json_parse (trim text) = Some v -> json_wf v = true ->
  json_parse (normalizeJsonString text) = Some (ordered v) /\ normalizeJsonString (normalizeJsonString text) = normalizeJsonString text.
Proof.
  intros Hv Hw. pose proof (ordered_wf v Hw) as Ho. assert (normalizeJsonString text = json_stringify (ordered v)) as E.
  { unfold normalizeJsonString. by rewrite (parse_nonempty _ _ Hv), Hv. }
  rewrite E. split; [by apply json_roundtrip|]. unfold normalizeJsonString.
  rewrite (trim_trimmed _ (stringify_trimmed _ Ho)), (json_roundtrip _ Ho), (parse_nonempty _ _ (json_roundtrip _ Ho)), ordered_idemp. done.
Qed.

Lemma differs_irrefl o : match o with ONumber x => is_finite x = true | _ => True end -> option_differs o o = false.
Proof. destruct o as [s|x|b]; cbn; intros H; [by rewrite bool_decide_true|by rewrite num_eqb_refl|by rewrite eqb_reflx]. Qed.

(** Nothing changed, nothing sent. *)
Lemma changed_self v : is_finite (f_MaxTokenAutoGroups v) = true -> changedGroupRatioOptions v v = [].
Proof.
  intros H. unfold changedGroupRatioOptions, option_fields. cbn [zip zip_with omap list_omap].
  repeat match goal with |- context [option_differs ?a ?a] => rewrite (differs_irrefl a) by done end. done.
Qed.
