(* ===== verification/GroupVisibility.v ===== *)
(** * Which groups users see
    (src/apps/web/src/features/system-settings/models/group-special-usable-editor.tsx, and the
    details of a group in group-ratio-visual-editor.tsx)

    Rules make a group visible to users of another group or hide it from them.  They are a
    JSON text of maps whose keys carry the kind of rule; the editor flattens it into rows when
    it is mounted and writes all rows back after every change. *)
From S2P Require Import Prelude JsString JsNumber JsCollections JsJson JsNumberPrint JsJsonPrint JsJsonPretty JsObject VisualTiers GroupPricing SettingsJson.
From Stdlib Require Import Lia.

(** ** Keys *)

Definition ADD : list N := js "+:".
Definition HIDE : list N := js "-:".

(** [parseRawKey], and [parseSpecialGroupKey] of the details. *)
Definition parseRawKey (rawKey : list N) : bool * list N :=
  match strip_prefix HIDE rawKey with
  | Some groupName => (false, groupName)
  | None => match strip_prefix ADD rawKey with Some groupName => (true, groupName) | None => (true, rawKey) end
  end.

Definition toRawKey (visible : bool) (groupName : list N) : list N := (if visible then ADD else HIDE) ++ groupName.

(** [Object.entries]: arrays and strings have their indices as keys; [null] throws. *)
Definition js_entries (v : json) : res (list (list N * json)) :=
  match v with
  | JNull => Throw TypeError
  | JBool _ | JNum _ => Ok []
  | JStr s => Ok (imap (fun i c => (dec_string (N.of_nat i), JStr [c])) s)
  | JArr items => Ok (imap (fun i x => (dec_string (N.of_nat i), x)) items)
  | JObj members => Ok (object_entries members)
  end.

(** ** Rows *)

Record Rule := mkRule {
  v_id : list N;
  userGroup : list N;
  visible : bool;
  v_target : list N;
  description : list N }.

Definition uid (n : N) : list N := js "gsu_" ++ dec_string n.

Definition REMOVE : list N := js "remove".

Definition safeParseJson (str : list N) : json :=
  if negb (nonempty (trim str)) then JObj [] else default (JObj []) (json_parse str).

(** The row of an entry. *)
Definition entry_rule (id group rawKey : list N) (desc : json) : Rule :=
  let '(vis, groupName) := parseRawKey rawKey in
  mkRule id group vis groupName (if negb vis then REMOVE else match desc with JStr s => s | _ => [] end).

(** [counter] is [_idCounter]. *)
Definition flatten_inner (group : list N) (acc : N * list Rule) (kv : list N * json) : N * list Rule :=
  ((acc.1 + 1)%N, acc.2 ++ [entry_rule (uid (acc.1 + 1)) group kv.1 kv.2]).

Definition flatten_group (acc : N * list Rule) (kv : list N * json) : N * list Rule :=
  match kv.2 with
  | JObj _ | JArr _ => match js_entries kv.2 with Ok inner => fold_left (flatten_inner kv.1) inner acc | Throw _ => acc end
  | _ => acc
  end.

Definition flattenRules (counter : N) (nested : json) : res (N * list Rule) :=
  let* groups := js_entries nested in Ok (fold_left flatten_group groups (counter, [])).

(** A rule of a group named like a property of [Object.prototype] is put on that property
    and is not written. *)
Definition serialize_step (result : list (list N * list (list N * list N))) (r : Rule) : list (list N * list (list N * list N)) :=
  if negb (nonempty (userGroup r)) || negb (nonempty (v_target r)) then result
  else
    let key := toRawKey (visible r) (v_target r) in
    match obj_get (userGroup r) result with
    | Some inner => obj_set (userGroup r) (obj_set key (description r) inner) result
    | None => if bool_decide (userGroup r ∈ prototype_names) then result else obj_set (userGroup r) [(key, description r)] result
    end.

Definition texts_json (l : list (list N * list N)) : json := JObj (map (fun kv => (kv.1, JStr kv.2)) (object_entries l)).

Definition serializeRules (rules : list Rule) : list N :=
  match fold_left serialize_step rules [] with [] => js "{}" | result => object_text texts_json result end.

(** ** The editor *)

Record RuleEditor := mkEditor { ruleCounter : N; rules : list Rule }.

Definition mount_rules (counter : N) (value : list N) : res RuleEditor :=
  let* (c, rs) := flattenRules counter (safeParseJson value) in Ok (mkEditor c rs).

Inductive RuleField := VVisible (b : bool) | VTarget (s : list N) | VDescription (s : list N).

Definition update_rule (f : RuleField) (r : Rule) : Rule :=
  let '(mkRule id group vis target desc) := r in
  match f with
  | VVisible false => mkRule id group false target REMOVE
  | VVisible true => mkRule id group true target (if negb vis && bool_decide (desc = REMOVE) then [] else desc)
  | VTarget s => mkRule id group vis s desc
  | VDescription s => mkRule id group vis target s
  end.

Inductive RuleEvent := UpdateRule (id : list N) (f : RuleField) | RemoveRule (id : list N) | RemoveGroup (name : list N) | AddRule (name : list N).

Definition next_rules (e : RuleEvent) (ed : RuleEditor) : RuleEditor :=
  match e with
  | UpdateRule id f => mkEditor (ruleCounter ed) (map (fun r => if bool_decide (v_id r = id) then update_rule f r else r) (rules ed))
  | RemoveRule id => mkEditor (ruleCounter ed) (filter (fun r => v_id r <> id) (rules ed))
  | RemoveGroup name => mkEditor (ruleCounter ed) (filter (fun r => userGroup r <> name) (rules ed))
  | AddRule name => mkEditor (ruleCounter ed + 1) (rules ed ++ [mkRule (uid (ruleCounter ed + 1)) name true [] []])
  end.

(** [emitChange]: the rows and the text. *)
Definition rule_step (ed : RuleEditor) (e : RuleEvent) : RuleEditor * list N := let ed' := next_rules e ed in (ed', serializeRules (rules ed')).

(** The rows by user group; a row of a group named like a property of [Object.prototype] has
    no list to go to. *)
Definition group_step (acc : list (list N * list Rule)) (r : Rule) : res (list (list N * list Rule)) :=
  if negb (nonempty (userGroup r)) then Ok acc
  else match obj_get (userGroup r) acc with
       | Some items => Ok (obj_set (userGroup r) (items ++ [r]) acc)
       | None => if bool_decide (userGroup r ∈ prototype_names) then Throw TypeError else Ok (acc ++ [(userGroup r, [r])])
       end.

Fixpoint grouped_from (acc : list (list N * list Rule)) (rs : list Rule) : res (list (list N * list Rule)) :=
  match rs with [] => Ok acc | r :: rs' => let* acc' := group_step acc r in grouped_from acc' rs' end.

Definition grouped (rs : list Rule) : res (list (list N * list Rule)) := grouped_from [] rs.

Definition newGroupCandidates (groupOptions : list (list N)) (rs : list Rule) : res (list (list N)) :=
  let* gs := grouped rs in Ok (filter (fun name => name ∉ gs.*1) groupOptions).

(** ** Details of a group *)

Record VisibilityRule := mkVisibility { vr_userGroup : list N; vr_visible : bool; vr_description : list N }.

Record GroupDetail := mkDetail {
  d_ratio : option spec_float;
  d_topup : option (list N);
  d_selectable : bool;
  d_description : list N;
  incomingOverrides : list (list N * spec_float);
  outgoingOverrides : list (list N * spec_float);
  visibilityRules : list VisibilityRule;
  autoIndex : option nat }.

Fixpoint visibility_from (name : list N) (groups : list (list N * json)) : list VisibilityRule :=
  match groups with
  | [] => []
  | (group, inner) :: rest =>
      match inner with
      | JObj _ | JArr _ =>
          match js_entries inner with
          | Ok entries =>
              omap (fun kv : list N * json => let '(vis, groupName) := parseRawKey kv.1 in
                if bool_decide (groupName = name) then Some (mkVisibility group vis (match kv.2 with JStr s => s | _ => [] end)) else None) entries
          | Throw _ => []
          end
      | _ => []
      end ++ visibility_from name rest
  end.

Section Detail.
Variable inherited_text : list N -> list N.

(** [Object.entries(overrideMap[name] ?? {})]: a function has no entries. *)
Definition detail (t : RatioTexts) (groupSpecialUsableGroup : list N) (name : list N) : res GroupDetail :=
  let entry := head (filter (fun e => e_name e = name) (registry_of t)) in
  let topupMap := parseRatioMap (TopupGroupRatio (rt_groups t)) in
  let usableMap := parseUsableMap (UserUsableGroups (rt_groups t)) in
  let overrideMap := parseNestedRatioMap (rt_overrides t) in
  let* special := js_entries (safeJsonParse (JObj []) groupSpecialUsableGroup) in
  Ok (mkDetail (e_ratio <$> entry) (num_to_string <$> obj_get name topupMap) (bool_decide (is_Some (obj_get name usableMap)))
        (read_description inherited_text usableMap name)
        (omap (fun kv => (fun r => (kv.1, r)) <$> obj_get name kv.2) (object_entries overrideMap))
        (object_entries (default [] (obj_get name overrideMap)))
        (visibility_from name special)
        (fst <$> list_find (fun g => g = name) (parseAutoGroupsResult (rt_auto t)).1)).
End Detail.

(** ** Keys are read back *)

Lemma raw_key_read vis name : parseRawKey (toRawKey vis name) = (vis, name).
Proof.
  unfold parseRawKey, toRawKey. destruct vis.
  - change (strip_prefix HIDE (ADD ++ name)) with (@None (list N)). by rewrite strip_prefix_app.
  - by rewrite strip_prefix_app.
Qed.

Lemma raw_key_plain vis name : array_index (toRawKey vis name) = None.
Proof. by destruct vis. Qed.

Lemma raw_key_inj vis name vis' name' : toRawKey vis name = toRawKey vis' name' -> vis = vis' /\ name = name'.
Proof. intros H. apply (f_equal parseRawKey) in H. rewrite !raw_key_read in H. by injection H. Qed.

Lemma entries_plain {A} (l : list (list N * A)) : Forall (fun kv => array_index kv.1 = None) l -> object_entries l = l.
Proof.
  intros H. unfold object_entries. rewrite filter_none, (filter_all (fun kv => array_index kv.1 = None)); [done|done|].
  eapply Forall_impl; [exact H|]. intros kv Hk [x Hx]. by rewrite Hk in Hx.
Qed.

(** ** What is written *)

Definition written (rs : list Rule) : list Rule := filter (fun r => userGroup r <> [] /\ v_target r <> []) rs.
Definition raw_key (r : Rule) : list N := toRawKey (visible r) (v_target r).
Definition rule_entry (r : Rule) : list N * list N := (raw_key r, description r).
Definition rules_of (g : list N) (rs : list Rule) : list Rule := filter (fun r => userGroup r = g) rs.
Definition rule_groups (rs : list Rule) : list (list N) := set_values (map userGroup rs).
Definition nested_rules (rs : list Rule) : list (list N * list (list N * list N)) :=
  map (fun g => (g, map rule_entry (rules_of g rs))) (rule_groups rs).

Lemma obj_set_map_in {A} (F : list N -> A) g v gs : NoDup gs -> g ∈ gs ->
  obj_set g v (map (fun x => (x, F x)) gs) = map (fun x => (x, if bool_decide (x = g) then v else F x)) gs.
Proof.
  induction gs as [|h gs IH]; [by intros _ ?%elem_of_nil|]. intros [H1 H2]%NoDup_cons Hg. cbn [map obj_set]. case_bool_decide as E.
  - subst h. rewrite bool_decide_true by done. f_equal. apply map_ext_in. intros x Hx%list_elem_of_In. rewrite bool_decide_false; [done|]. by intros ->.
  - rewrite bool_decide_false by done. f_equal. apply IH; [done|]. apply elem_of_cons in Hg. naive_solver.
Qed.

Lemma obj_get_keyed {A} (F : list N -> A) g gs : obj_get g (map (fun x => (x, F x)) gs) = if decide (g ∈ gs) then Some (F g) else None.
Proof.
  unfold obj_get. induction gs as [|h gs IH]; [by rewrite decide_False by (by intros ?%elem_of_nil)|]. cbn [map list_to_map]. cbn [list_to_map foldr fst snd] in *.
  change (foldr _ ∅ ?l) with (list_to_map (M := gmap (list N) A) l) in *. cbn. destruct (decide (h = g)) as [->|Hne].
  - rewrite lookup_insert_eq. by rewrite decide_True by left.
  - rewrite lookup_insert_ne by done. rewrite IH. destruct (decide (g ∈ gs)); [by rewrite decide_True by (by right)|].
    rewrite decide_False; [done|]. rewrite elem_of_cons. naive_solver.
Qed.

Lemma written_snoc rs r : written (rs ++ [r]) = written rs ++ (if decide (userGroup r <> [] /\ v_target r <> []) then [r] else []).
Proof. unfold written. rewrite filter_app, filter_cons. by case_decide. Qed.

Lemma serialize_fold rs : Forall (fun r => userGroup r ∉ prototype_names) rs -> NoDup (map (fun r => (userGroup r, raw_key r)) (written rs)) ->
  fold_left serialize_step rs [] = nested_rules (written rs).
Proof.
  induction rs as [|r rs IH] using rev_ind; [done|]. intros [Hp1 Hp2]%Forall_app Hn. inversion_clear Hp2 as [|? ? Hr _]. rewrite fold_left_app. cbn [fold_left].
  rewrite written_snoc in *. rewrite map_app in Hn. apply NoDup_app in Hn as (Hn1 & Hn2 & _). rewrite (IH Hp1 Hn1). clear IH Hp1. set (W := written rs) in *.
  unfold serialize_step. case_decide as Hd.
  2: { rewrite app_nil_r. destruct (nonempty (userGroup r)) eqn:E1; [|done]. destruct (nonempty (v_target r)) eqn:E2; [|done]. apply nonempty_true in E1, E2. naive_solver. }
  destruct Hd as [Hd1 Hd2]. rewrite (proj2 (nonempty_true _) Hd1), (proj2 (nonempty_true _) Hd2). cbn [negb orb]. fold (raw_key r).
  assert (forall g, rules_of g (W ++ [r]) = rules_of g W ++ if decide (userGroup r = g) then [r] else []) as Hf.
  { intros g. unfold rules_of. rewrite filter_app, filter_cons. by case_decide. }
  assert (nested_rules (W ++ [r]) = map (fun g => (g, map rule_entry (rules_of g (W ++ [r]))))
    (if decide (userGroup r ∈ map userGroup W) then rule_groups W else rule_groups W ++ [userGroup r])) as ->.
  { unfold nested_rules, rule_groups. rewrite map_app. cbn [map]. by rewrite set_values_snoc. }
  unfold nested_rules at 1. rewrite obj_get_keyed.
  assert (userGroup r ∈ rule_groups W <-> userGroup r ∈ map userGroup W) as Hg by apply elem_of_set_values.
  destruct (decide (userGroup r ∈ rule_groups W)) as [Hin|Hin].
  - rewrite (decide_True (P := userGroup r ∈ map userGroup W)) by (by apply Hg). unfold nested_rules. rewrite obj_set_map_in by (done || apply set_values_NoDup).
    apply map_ext_in. intros g _. f_equal. rewrite Hf, map_app. case_bool_decide as E.
    + subst g. rewrite decide_True by done. rewrite obj_set_fresh; [done|]. rewrite keys_map. cbn. intros Hk. apply list_elem_of_In, in_map_iff in Hk as (q & Eq & Hq%list_elem_of_In).
      apply list_elem_of_filter in Hq as [Eg Hq]. apply (Hn2 (userGroup r, raw_key r)); [|constructor]. rewrite <- Eg, <- Eq.
      apply list_elem_of_In, (in_map (fun r => (userGroup r, raw_key r))). by apply list_elem_of_In.
    + rewrite decide_False by done. by rewrite app_nil_r.
  - rewrite (decide_False (P := userGroup r ∈ map userGroup W)) by (by rewrite <- Hg). rewrite bool_decide_false by done.
    unfold nested_rules. rewrite obj_set_fresh by (rewrite keys_map; cbn; by rewrite map_id). rewrite map_app. cbn [map]. f_equal.
    + apply map_ext_in. intros g Hgin%list_elem_of_In. rewrite Hf, decide_False by (intros E; apply Hin; by rewrite E). by rewrite app_nil_r.
    + rewrite Hf, decide_True by done. unfold rules_of. rewrite filter_none; [done|]. apply Forall_forall. intros q Hq E. apply Hin, Hg. rewrite <- E.
      apply list_elem_of_In, in_map. by apply list_elem_of_In.
Qed.

(** ** What is read *)

Definition rule_content (r : Rule) : list N * bool * list N * list N := (userGroup r, visible r, v_target r, description r).

(** Groups in the order in which an object lists them. *)
Definition property_order (gs : list (list N)) : list (list N) := (object_entries (map (fun g => (g, tt)) gs)).*1.

(** A rule that is written as it stands: names and texts of code units, no group named like a
    property of every object, and the description of a hidden group the fixed one. *)
Definition plain_rule (r : Rule) : bool :=
  unitsb (userGroup r) && negb (bool_decide (userGroup r ∈ prototype_names)) && unitsb (v_target r) && unitsb (description r) &&
  (visible r || bool_decide (description r = REMOVE)).

Lemma plain_rule_spec r : plain_rule r = true ->
  unitsb (userGroup r) = true /\ userGroup r ∉ prototype_names /\ userGroup r <> PROTO /\ unitsb (raw_key r) = true /\ unitsb (description r) = true /\
  (visible r = false -> description r = REMOVE).
Proof.
  unfold plain_rule. intros H. breflect. split_and!; try done.
  - intros E. match goal with H : _ ∉ prototype_names |- _ => apply H end. rewrite E. apply list_elem_of_In. vm_compute. tauto.
  - unfold raw_key, toRawKey, unitsb in *. rewrite forallb_app. apply andb_true_iff. split; [by destruct (visible r)|done].
  - intros E. rewrite E in *. match goal with H : false || _ = true |- _ => by apply bool_decide_eq_true in H end.
Qed.

Lemma flatten_inner_fold g l acc : 
  map rule_content (fold_left (flatten_inner g) l acc).2 =
  map rule_content acc.2 ++ map (fun kv => rule_content (entry_rule [] g kv.1 kv.2)) l.
Proof.
  revert acc. induction l as [|[k v] l IH]; intros acc; cbn [fold_left map]; [by rewrite app_nil_r|]. rewrite IH. unfold flatten_inner at 1. cbn [snd fst].
  rewrite map_app, <- app_assoc. cbn [map app]. f_equal. f_equal. unfold entry_rule. by destruct (parseRawKey k).
Qed.

Lemma entry_content r : plain_rule r = true -> rule_content (entry_rule [] (userGroup r) (raw_key r) (JStr (description r))) = rule_content r.
Proof.
  intros H. destruct (plain_rule_spec r H) as (_ & _ & _ & _ & _ & Hd). unfold entry_rule, raw_key. rewrite raw_key_read. unfold rule_content. cbn.
  destruct (visible r); [done|]. by rewrite Hd.
Qed.

Lemma flatten_group_rules acc g rs : Forall (fun r => plain_rule r = true /\ userGroup r = g) rs ->
  map rule_content (flatten_group acc (g, texts_json (map rule_entry rs))).2 = map rule_content acc.2 ++ map rule_content rs.
Proof.
  intros Hr. unfold flatten_group, texts_json. cbn [snd fst js_entries].
  assert (Forall (fun kv => array_index kv.1 = None) (map rule_entry rs)) as Hp.
  { apply Forall_forall. intros kv Hkv. apply list_elem_of_In, in_map_iff in Hkv as (r & <- & _). apply raw_key_plain. }
  rewrite (entries_plain (map rule_entry rs)) by done. rewrite map_map. cbn [fst snd].
  rewrite (entries_plain (map (fun r => ((rule_entry r).1, JStr (rule_entry r).2)) rs)).
  2: { apply Forall_forall. intros kv Hkv. apply list_elem_of_In, in_map_iff in Hkv as (r & <- & _). apply raw_key_plain. }
  rewrite flatten_inner_fold, map_map. f_equal. apply map_ext_in. intros r Hin%list_elem_of_In. rewrite Forall_forall in Hr. destruct (Hr r Hin) as [H1 <-].
  by apply entry_content.
Qed.

Lemma flatten_fold W gs acc : Forall (fun r => plain_rule r = true) W ->
  map rule_content (fold_left flatten_group (map (fun g => (g, texts_json (map rule_entry (rules_of g W)))) gs) acc).2 =
  map rule_content acc.2 ++ flat_map (fun g => map rule_content (rules_of g W)) gs.
Proof.
  intros HW. revert acc. induction gs as [|g gs IH]; intros acc; cbn [map fold_left flat_map]; [by rewrite app_nil_r|].
  rewrite IH, flatten_group_rules, <- app_assoc; [done|]. apply Forall_forall. intros r [Hg Hr]%list_elem_of_filter. rewrite Forall_forall in HW. auto.
Qed.

Lemma keyed_entries {A} (F : list N -> A) gs : object_entries (map (fun g => (g, F g)) gs) = map (fun g => (g, F g)) (property_order gs).
Proof.
  unfold property_order. assert (map (fun g => (g, F g)) gs = map (fun kv => (kv.1, F kv.1)) (map (fun g => (g, tt)) gs)) as -> by (by rewrite map_map).
  rewrite (object_entries_map (fun kv => F kv.1)). symmetry. exact (map_map fst (fun g => (g, F g)) _).
Qed.

Lemma nested_writable W : Forall (fun r => plain_rule r = true) W -> NoDup (map (fun r => (userGroup r, raw_key r)) W) ->
  writable texts_json (nested_rules W).
Proof.
  intros HW Hn. rewrite Forall_forall in HW. assert (forall g, g ∈ rule_groups W -> exists r, r ∈ W /\ userGroup r = g) as Hg.
  { intros g Hg. unfold rule_groups in Hg. rewrite elem_of_set_values in Hg. apply list_elem_of_In, in_map_iff in Hg as (r & <- & Hr%list_elem_of_In). eauto. }
  split.
  - unfold nested_rules. rewrite keys_map. cbn. rewrite map_id. apply set_values_NoDup.
  - unfold nested_rules. rewrite keys_map. cbn. rewrite map_id. intros (r & Hr & E)%Hg. by destruct (plain_rule_spec r (HW r Hr)) as (_ & _ & ? & _).
  - apply Forall_forall. intros kv Hkv. apply list_elem_of_In, in_map_iff in Hkv as (g & <- & Hgin%list_elem_of_In). cbn [fst snd].
    destruct (Hg g Hgin) as (r & Hr & <-). destruct (plain_rule_spec r (HW r Hr)) as (-> & _). cbn [andb]. unfold texts_json. cbn [json_wf]. apply andb_true_iff. split.
    + apply bool_decide_eq_true. rewrite map_map. cbn [fst]. change (NoDup (object_entries (map rule_entry (rules_of (userGroup r) W))).*1). apply entries_NoDup.
      rewrite keys_map. cbn. clear -Hn. unfold rules_of. induction W as [|q W IH]; [constructor|]. cbn [map] in Hn. apply NoDup_cons in Hn as [H1 H2].
      rewrite filter_cons. case_decide as E; [|by apply IH]. cbn [map]. apply NoDup_cons. split; [|by apply IH]. intros Hin. apply H1.
      apply list_elem_of_In, in_map_iff in Hin as (p & Ep & Hp%list_elem_of_In). apply list_elem_of_filter in Hp as [Eg Hp]. rewrite E, <- Ep, <- Eg.
      apply list_elem_of_In, (in_map (fun r => (userGroup r, raw_key r))). by apply list_elem_of_In.
    + apply forallb_forall. intros [k x] Hx. apply in_map_iff in Hx as ([k' y] & [= -> <-] & Hx%list_elem_of_In). rewrite elem_of_object_entries in Hx.
      apply list_elem_of_In, in_map_iff in Hx as (q & [= <- <-] & Hq%list_elem_of_In). apply list_elem_of_filter in Hq as [_ Hq].
      destruct (plain_rule_spec q (HW q Hq)) as (_ & _ & _ & H1 & H2 & _). cbn [fst snd json_wf]. by rewrite H1, H2.
Qed.

(** C15: Rules that do not compete are read back.  When no two rules with both names say the
    same kind of thing of the same group for the same users, the user groups are no members
    of [Object.prototype] and hiding rules carry their marker, an editor opened on the
    written text shows exactly the rules that have both names, each with its kind and
    description, user group by user group in the order in which an object lists them.  Of
    two rules for the same users and key one is lost ([competing_rule_lost]). *)
Theorem rules_read_back rs counter :
  Forall (fun r => plain_rule r = true) rs -> NoDup (map (fun r => (userGroup r, raw_key r)) (written rs)) ->
  exists ed, mount_rules counter (serializeRules rs) = Ok ed /\
  map rule_content (rules ed) = flat_map (fun g => map rule_content (rules_of g (written rs))) (property_order (rule_groups (written rs))).
Proof.
  intros Hp Hn. assert (Forall (fun r => plain_rule r = true) (written rs)) as HW.
  { rewrite Forall_forall in *. intros r [_ Hr]%list_elem_of_filter. by apply Hp. }
  unfold serializeRules. rewrite serialize_fold; [|eapply Forall_impl; [exact Hp|]; intros r Hr; by destruct (plain_rule_spec r Hr) as (_ & ? & _)|done].
  destruct (nested_rules (written rs)) as [|x l] eqn:E.
  - exists (mkEditor counter []). split; [by vm_compute|]. unfold nested_rules in E. destruct (rule_groups (written rs)); [done|discriminate E].
  - rewrite <- E. clear x l E. pose proof (nested_writable _ HW Hn) as Hw. unfold mount_rules, safeParseJson.
    pose proof (parse_object_text texts_json _ Hw) as Ep. unfold parseJsonValue in Ep.
    destruct (nonempty (trim (object_text texts_json (nested_rules (written rs))))) eqn:En; cbn [negb].
    2: { injection Ep as Ep. symmetry in Ep. apply map_eq_nil in Ep. unfold object_text in En. rewrite Ep in En. by vm_compute in En. }
    rewrite Ep. unfold flattenRules. cbn [default]. unfold id. cbn [js_entries res_bind].
    match goal with |- context [fold_left flatten_group ?x (counter, [])] => destruct (fold_left flatten_group x (counter, [])) as [c rs'] eqn:Ef end. eexists. split; [reflexivity|]. cbn [rules].
    pose proof (flatten_fold (written rs) (property_order (rule_groups (written rs))) (counter, []) HW) as Hf. cbn [snd map app] in Hf. rewrite <- Hf.
    unfold nested_rules in Ef. rewrite (object_entries_map (fun kv => texts_json kv.2)), object_entries_idemp in Ef.
    rewrite keyed_entries, map_map in Ef. cbn [fst snd] in Ef. by rewrite Ef.
Qed.

Lemma rules_read_back_witness :
  let rs := [mkRule (js "gsu_1") (js "vip") true (js "pro") (js "for you"); mkRule (js "gsu_2") (js "7") false (js "free") REMOVE; mkRule (js "gsu_3") (js "vip") false (js "pro") REMOVE] in
  exists ed, mount_rules 3 (serializeRules rs) = Ok ed /\
  map rule_content (rules ed) = [(js "7", false, js "free", REMOVE); (js "vip", true, js "pro", js "for you"); (js "vip", false, js "pro", REMOVE)].
Proof.
  cbn zeta.
  destruct (rules_read_back [mkRule (js "gsu_1") (js "vip") true (js "pro") (js "for you"); mkRule (js "gsu_2") (js "7") false (js "free") REMOVE;
    mkRule (js "gsu_3") (js "vip") false (js "pro") REMOVE] 3) as (ed & E1 & E2).
  - repeat constructor.
  - apply (bool_decide_eq_true_1 _). by vm_compute.
  - exists ed. split; [exact E1|]. rewrite E2. by vm_compute.
Defined.

(** Two rules for the same users and the same group: the last one is written. *)
Example competing_rule_lost :
  let rs := [mkRule (js "gsu_1") (js "vip") true (js "pro") (js "first"); mkRule (js "gsu_2") (js "vip") true (js "pro") (js "second")] in
  exists ed, mount_rules 2 (serializeRules rs) = Ok ed /\ map rule_content (rules ed) = [(js "vip", true, js "pro", js "second")].
Proof. eexists. split; vm_compute; reflexivity. Qed.

(** A rule for users of a group called [constructor] is not written, and its row cannot be
    drawn. *)
Example inherited_group_lost :
  serializeRules [mkRule (js "gsu_1") (js "constructor") true (js "pro") []] = js "{}" /\
  grouped [mkRule (js "gsu_1") (js "constructor") true (js "pro") []] = Throw TypeError.
Proof. by vm_compute. Qed.
