(* ===== verification/GroupSettings.v ===== *)
(** * The group settings
    (src/apps/web/src/features/system-settings/models: group-ratio-form.tsx and the groups of
    ratio-settings-card.tsx)

    The form of the group options.  It is edited as JSON texts or visually, with the table of
    [GroupPricing], the multipliers of [GroupOverrides] and the rules of [GroupVisibility],
    which are mounted when the visual mode is entered.  Saving sends the options that differ
    from those of the server in one request; new options of the server replace the form. *)
From S2P Require Import Prelude JsString JsNumber JsCollections JsJson JsNumberPrint JsJsonPrint JsJsonPretty JsObject.
From S2P Require Import VisualTiers GroupPricing GroupOverrides GroupVisibility SettingsJson.
From Stdlib Require Import Lia.

Notation values := GroupFormValues (only parsing).

#[global] Instance GroupTexts_eq_dec : EqDecision GroupTexts.
Proof. solve_decision. Defined.

(** ** Schema *)

Section Page.
Variable toLowerCase : list N -> list N.
Variable inherited_text : list N -> list N.

Definition is_group_list (v : json) : bool := match v with JArr items => forallb (fun x => match x with JStr _ => true | _ => false end) items | _ => false end.

Definition field_valid (predicate : option (json -> bool)) (value : list N) : bool := bool_decide (validateJsonString true predicate value = None).

(** An integer a double holds exactly, and positive. *)
Definition positiveIntegerSchema (x : spec_float) : bool := is_integer x && num_leb x (num_of_Z 9007199254740991) && num_ltb num_zero x.

(** [createGroupSchema]. *)
Definition schema_ok (v : GroupFormValues) : bool :=
  field_valid None (f_GroupRatio v) && field_valid None (f_TopupGroupRatio v) && field_valid None (f_UserUsableGroups v) &&
  field_valid None (f_GroupGroupRatio v) && field_valid (Some is_group_list) (f_AutoGroups v) &&
  positiveIntegerSchema (f_MaxTokenAutoGroups v) &&
  field_valid None (f_GroupSpecialUsableGroup v) && field_valid (Some (isValidGroupWarnings toLowerCase)) (f_GroupWarnings v).

(** ** The page *)

(** The visual editors; they exist in visual mode. *)
Record Visual := mkVisual { table : Table; dialogs : OverrideRules; baseline : option (list N); special : RuleEditor }.

(** [form], [groupNormalizedDefaults], the editors, and the counters of the two files, which
    outlive them. *)
Record Page := mkPage {
  form : GroupFormValues;
  saved : GroupFormValues;
  visual : option Visual;
  tableIds : N;
  ruleIds : N }.

Definition group_texts (v : GroupFormValues) : GroupTexts := mkTexts (f_GroupRatio v) (f_UserUsableGroups v) (f_TopupGroupRatio v).

Definition ratio_texts (v : GroupFormValues) : RatioTexts := mkRatioTexts (group_texts v) (f_GroupGroupRatio v) (f_AutoGroups v).

(** [groupNames]: every render reads the keys of the three texts, whatever they hold. *)
Definition groupNames (v : GroupFormValues) : res (list (list N)) :=
  let* a := js_entries (safeJsonParse (JObj []) (f_GroupRatio v)) in
  let* b := js_entries (safeJsonParse (JObj []) (f_UserUsableGroups v)) in
  let* c := js_entries (safeJsonParse (JObj []) (f_TopupGroupRatio v)) in
  Ok (set_values (a.*1 ++ b.*1 ++ c.*1)).

(** Mounting the editors. *)
Definition mount_visual (v : GroupFormValues) (tableIds ruleIds : N) : res Visual :=
  let* ed := mount_rules ruleIds (f_GroupSpecialUsableGroup v) in
  Ok (mkVisual (sync_rows inherited_text (group_texts v) (build inherited_text tableIds (group_texts v))) closed None ed).

(** A render: names, and in visual mode the rows of the rules. *)
Definition render (p : Page) : res Page :=
  let* names := groupNames (form p) in
  match visual p with
  | Some e => let* _ := newGroupCandidates names (rules (special e)) in Ok p
  | None => Ok p
  end.

(** The page as it is first shown, on the options of the server: in visual mode. *)
Definition open_page (defaults : GroupFormValues) : res Page :=
  let shown := map_texts formatJsonForTextarea defaults in
  let* e := mount_visual shown 0 0 in
  render (mkPage shown (map_texts normalizeJsonString defaults) (Some e) (counter (table e)) (ruleCounter (special e))).

(** ** Events *)

Inductive TableEvent := UpdateRow (id : list N) (f : RowField) | AddRow | RemoveRow (id : list N).

Inductive AutoEvent := AutoAdd (name : list N) | AutoDelete (index : nat) | AutoMove (index : nat) (d : Direction) | AutoOptimize | Baseline (name : option (list N)).

Inductive TextField := JGroupRatio | JTopupGroupRatio | JUserUsableGroups | JGroupGroupRatio | JAutoGroups | JGroupSpecialUsableGroup | JGroupWarnings.

Inductive PageEvent :=
| ETable (e : TableEvent) | EOverride (e : OverrideEvent) | EAuto (e : AutoEvent) | ERule (e : RuleEvent)
| EText (f : TextField) (s : list N) | EMax (x : spec_float) | EDefault (b : bool)
| EToggle | EReload (defaults : GroupFormValues) | ESave (accepted : bool).

(** [form.setValue] of a text. *)
Definition set_text (f : TextField) (s : list N) (v : GroupFormValues) : GroupFormValues :=
  let '(mkForm a b c d e m u g w) := v in
  match f with
  | JGroupRatio => mkForm s b c d e m u g w
  | JTopupGroupRatio => mkForm a s c d e m u g w
  | JUserUsableGroups => mkForm a b s d e m u g w
  | JGroupGroupRatio => mkForm a b c s e m u g w
  | JAutoGroups => mkForm a b c d s m u g w
  | JGroupSpecialUsableGroup => mkForm a b c d e m u s w
  | JGroupWarnings => mkForm a b c d e m u g s
  end.

Definition set_max (x : spec_float) (v : GroupFormValues) : GroupFormValues :=
  let '(mkForm a b c d e _ u g w) := v in mkForm a b c d e x u g w.
Definition set_default (y : bool) (v : GroupFormValues) : GroupFormValues :=
  let '(mkForm a b c d e m _ g w) := v in mkForm a b c d e m y g w.

(** The three texts of the table, in the order of the calls. *)
Definition set_texts (t : GroupTexts) (v : GroupFormValues) : GroupFormValues :=
  set_text JTopupGroupRatio (TopupGroupRatio t) (set_text JUserUsableGroups (UserUsableGroups t) (set_text JGroupRatio (GroupRatio t) v)).

Definition table_step (e : TableEvent) (tb : Table) : Table * option GroupTexts :=
  match e with UpdateRow id f => updateRow id f tb | AddRow => addRow tb | RemoveRow id => removeRow id tb end.

Definition auto_step (e : AutoEvent) (v : GroupFormValues) (base : option (list N)) : option (list N) * option (list N) :=
  let groups := (parseAutoGroupsResult (f_AutoGroups v)).1 in
  match e with
  | AutoAdd name => (if nonempty name then handleAutoGroupAdd groups name else None, base)
  | AutoDelete i => (Some (handleAutoGroupDelete groups i), base)
  | AutoMove i d => (handleAutoGroupMove groups i d, base)
  | AutoOptimize => (handleAutoGroupOptimize (ratio_texts v) base, base)
  | Baseline name => (None, name)
  end.

(** An event of the editors: the form and the editors after the handler. *)
Definition visual_step (e : PageEvent) (v : GroupFormValues) (ed : Visual) : GroupFormValues * Visual :=
  let '(mkVisual tb dl base sp) := ed in
  match e with
  | ETable te => let '(tb', out) := table_step te tb in (match out with Some t => set_texts t v | None => v end, mkVisual tb' dl base sp)
  | EOverride oe => let '(dl', text) := override_step (dl, f_GroupGroupRatio v) oe in (set_text JGroupGroupRatio text v, mkVisual tb dl' base sp)
  | EAuto ae => let '(out, base') := auto_step ae v base in (match out with Some s => set_text JAutoGroups s v | None => v end, mkVisual tb dl base' sp)
  | ERule re => let '(sp', text) := rule_step sp re in (set_text JGroupSpecialUsableGroup text v, mkVisual tb dl base sp')
  | _ => (v, ed)
  end.

(** ** Saving *)

(** What the page sends and says. *)
Inductive PageOutput := UpdateOptions (updates : list (list N * list N)) | NoChanges | Refused.

#[global] Instance PageOutput_eq_dec : EqDecision PageOutput.
Proof. solve_decision. Defined.

(** [form.handleSubmit(onSave)] with [saveGroupRatios]. *)
Definition save (accepted : bool) (p : Page) : Page * list PageOutput :=
  if negb (schema_ok (form p)) then (p, [])
  else
    let normalized := map_texts normalizeJsonString (form p) in
    match changedGroupRatioOptions normalized (saved p) with
    | [] => (p, [NoChanges])
    | updates =>
        if accepted then (mkPage (form p) normalized (visual p) (tableIds p) (ruleIds p), [UpdateOptions updates])
        else (p, [UpdateOptions updates; Refused])
    end.

(** After a change of the form, the effect of the table. *)
Definition set_page (v : GroupFormValues) (e : option Visual) (p : Page) : Page :=
  match e with
  | Some (mkVisual tb dl base sp) =>
      let tb' := if bool_decide (group_texts v = group_texts (form p)) then tb else sync_rows inherited_text (group_texts v) tb in
      mkPage v (saved p) (Some (mkVisual tb' dl base sp)) (N.max (tableIds p) (counter tb')) (N.max (ruleIds p) (ruleCounter sp))
  | None => mkPage v (saved p) None (tableIds p) (ruleIds p)
  end.

Definition handle (p : Page) (e : PageEvent) : res (Page * list PageOutput) :=
  match e with
  | EText f s =>
      (* in visual mode only the warnings are edited as a text *)
      match visual p, f with
      | None, _ | _, JGroupWarnings => Ok (set_page (set_text f s (form p)) (visual p) p, [])
      | _, _ => Ok (p, [])
      end
  | EMax x => Ok (set_page (if is_finite x then set_max x (form p) else form p) (visual p) p, [])
  | EDefault b => Ok (set_page (set_default b (form p)) (visual p) p, [])
  | EToggle =>
      match visual p with
      | Some _ => Ok (mkPage (form p) (saved p) None (tableIds p) (ruleIds p), [])
      | None =>
          let* ed := mount_visual (form p) (tableIds p) (ruleIds p) in
          Ok (mkPage (form p) (saved p) (Some ed) (N.max (tableIds p) (counter (table ed))) (N.max (ruleIds p) (ruleCounter (special ed))), [])
      end
  | EReload defaults =>
      let p' := set_page (map_texts formatJsonForTextarea defaults) (visual p) p in
      Ok (mkPage (form p') (map_texts normalizeJsonString defaults) (visual p') (tableIds p') (ruleIds p'), [])
  | ESave accepted => Ok (save accepted p)
  | _ =>
      match visual p with
      | Some ed => let '(v, ed') := visual_step e (form p) ed in Ok (set_page v (Some ed') p, [])
      | None => Ok (p, [])
      end
  end.

(** One event: the handler, then a render, which may throw. *)
Definition step (p : Page) (e : PageEvent) : res (Page * list PageOutput) :=
  let* (p', out) := handle p e in let* p'' := render p' in Ok (p'', out).

Fixpoint run (p : Page) (es : list PageEvent) : res (Page * list PageOutput) :=
  match es with
  | [] => Ok (p, [])
  | e :: es' => let* (p', out) := step p e in let* (p'', out') := run p' es' in Ok (p'', out ++ out')
  end.
End Page.

(** ** What a save does to the options of the server *)

(** The options as the server keeps them. *)
Definition server_options (v : GroupFormValues) : list (list N * list N) := map (fun f => (optionKeys f.1, option_string f.2)) (option_fields v).

Definition apply_updates (updates options : list (list N * list N)) : list (list N * list N) :=
  fold_left (fun o kv => obj_set kv.1 kv.2 o) updates options.

Lemma same_option a b : option_differs a b = false -> match a with ONumber x => num_ltb num_zero x = true | _ => True end -> option_string a = option_string b.
Proof.
  destruct a as [s|x|y], b as [s'|x'|y']; cbn; try done.
  - intros H _. by apply negb_false_iff, bool_decide_eq_true in H.
  - intros H Hx. apply negb_false_iff in H. destruct x as [|[]| |[] m e]; try done; unfold num_eqb, SFeqb in H; f_equal; [by destruct x' as [|[]| |[]]|].
    destruct x' as [?|[]| |[] m' e']; try done. cbn [SFcompare] in H. change (PosDef.Pos.compare_cont Eq m m') with (Pos.compare m m') in H.
    destruct (Z.compare_spec e e') as [->|?|?]; [|done..]. by destruct (Pos.compare_spec m m') as [->|?|?].
  - intros H _. apply negb_false_iff, eqb_prop in H. by subst.
Qed.

Lemma update_option (k v v' : list N) (a b : list (list N * list N)) : k ∉ a.*1 -> obj_set k v (a ++ (k, v') :: b) = a ++ (k, v) :: b.
Proof.
  induction a as [|[k2 v2] a IH]; cbn [app obj_set]; [by rewrite bool_decide_true|]. rewrite fmap_cons, elem_of_cons. cbn [fst]. intros H.
  rewrite bool_decide_false by naive_solver. rewrite IH; naive_solver.
Qed.

(** Updating entry by entry, for options with the same distinct keys. *)
Lemma updates_apply (ns ps : list (list N * OptionValue)) (a : list (list N * list N)) :
  ns.*1 = ps.*1 -> Forall (fun f => match f.2 with ONumber x => num_ltb num_zero x = true | _ => True end) ns ->
  NoDup (a.*1 ++ map (fun f => optionKeys f.1) ns) ->
  apply_updates (omap (fun '(n, p) => if option_differs n.2 p.2 then Some (optionKeys n.1, option_string n.2) else None) (zip ns ps))
    (a ++ map (fun f => (optionKeys f.1, option_string f.2)) ps) = a ++ map (fun f => (optionKeys f.1, option_string f.2)) ns.
Proof.
  revert ps a. induction ns as [|[k n] ns IH]; intros [|[k' q] ps] a Ek Hn Hd; try done. rewrite !fmap_cons in Ek. cbn [fst] in Ek. injection Ek as <- Ek.
  apply Forall_cons in Hn as [Hn1 Hn2]. cbn [map fst snd] in *. cbn [zip zip_with omap list_omap fst snd].
  assert (optionKeys k ∉ a.*1) as Hka. { apply NoDup_app in Hd as (_ & Hd & _). intros H. apply (Hd _ H). left. }
  assert (forall s, NoDup ((a ++ [(optionKeys k, s)]).*1 ++ map (fun f => optionKeys f.1) ns)) as Hd2.
  { intros s. rewrite fmap_app, <- app_assoc. exact Hd. }
  unfold apply_updates in *. destruct (option_differs n q) eqn:Ed.
  - cbn [fold_left fst snd]. rewrite update_option by done. rewrite !cons_middle, !app_assoc. by apply IH.
  - rewrite (same_option n q) by done. rewrite !cons_middle, !app_assoc. by apply IH.
Qed.

Lemma changed_apply next previous : num_ltb num_zero (f_MaxTokenAutoGroups next) = true ->
  apply_updates (changedGroupRatioOptions next previous) (server_options previous) = server_options next.
Proof.
  intros Hm. unfold changedGroupRatioOptions, server_options. apply (updates_apply (option_fields next) (option_fields previous) []); [done| |].
  - unfold option_fields. by repeat constructor.
  - apply (bool_decide_eq_true_1 _). by vm_compute.
Qed.

(** An option is to be sent when the value of its field is another than before. *)
Definition to_send (next previous : GroupFormValues) (key value : list N) : Prop :=
  exists field v w, (field, v) ∈ option_fields next /\ (field, w) ∈ option_fields previous /\ v <> w /\
    key = optionKeys field /\ value = option_string v.

Lemma differs_spec a b : match a with ONumber x => is_finite x = true /\ num_ltb num_zero x = true | _ => True end ->
  option_differs a b = false <-> a = b.
Proof.
  intros Ha. split.
  - intros H. destruct a as [s|x|y], b as [s'|x'|y']; try done; cbn in H.
    + by apply negb_false_iff, bool_decide_eq_true in H as ->.
    + destruct Ha as [Hf Hp]. apply negb_false_iff in H. destruct x as [|[]| |[] m e]; try done. unfold num_eqb, SFeqb in H.
      destruct x' as [?|[]| |[] m' e']; try done. cbn [SFcompare] in H. change (PosDef.Pos.compare_cont Eq m m') with (Pos.compare m m') in H.
      destruct (Z.compare_spec e e') as [->|?|?]; [|done..]. by destruct (Pos.compare_spec m m') as [->|?|?].
    + by apply negb_false_iff, eqb_prop in H as ->.
  - intros <-. apply differs_irrefl. destruct a; naive_solver.
Qed.

(** Entry by entry, for fields with the same distinct names. *)
Lemma differing_entries (ns ps : list (list N * OptionValue)) key value :
  ns.*1 = ps.*1 -> NoDup ns.*1 -> Forall (fun f => match f.2 with ONumber x => is_finite x = true /\ num_ltb num_zero x = true | _ => True end) ns ->
  (key, value) ∈ omap (fun '(n, p) => if option_differs n.2 p.2 then Some (optionKeys n.1, option_string n.2) else None) (zip ns ps) <->
  exists field v w, (field, v) ∈ ns /\ (field, w) ∈ ps /\ v <> w /\ key = optionKeys field /\ value = option_string v.
Proof.
  revert ps. induction ns as [|[k n] ns IH]; intros [|[k' q] ps] Ek Hd Hn; try done.
  { cbn. split; [by intros ?%elem_of_nil|by intros (? & ? & ? & ?%elem_of_nil & _)]. }
  rewrite !fmap_cons in *. cbn [fst] in *. injection Ek as <- Ek. apply NoDup_cons in Hd as [Hk Hd]. apply Forall_cons in Hn as [Hn1 Hn2]. cbn [snd] in Hn1.
  assert (forall x (l : list (list N * OptionValue)), (k, x) ∈ l -> l.*1 = ns.*1 -> False) as Hout.
  { intros x l Hx El. apply Hk. rewrite <- El. by apply (list_elem_of_fmap_2 fst _ (k, x)). }
  cbn [zip zip_with omap list_omap fst snd]. specialize (IH ps Ek Hd Hn2).
  destruct (option_differs n q) eqn:Eq.
  - rewrite elem_of_cons, IH. split.
    + intros [[= -> ->]|(field & v & w & H1 & H2 & H3)].
      * exists k, n, q. split_and!; [by left|by left| |done|done]. intros E. apply (differs_spec n q Hn1) in E. congruence.
      * exists field, v, w. split_and!; [by right|by right|apply H3..].
    + intros (field & v & w & [H1|H1]%elem_of_cons & [H2|H2]%elem_of_cons & Hne & -> & ->); simplify_eq.
      * by left.
      * by destruct (Hout w ps H2).
      * by destruct (Hout v ns H1).
      * right. by exists field, v, w.
  - rewrite IH. apply (differs_spec n q Hn1) in Eq as ->. split.
    + intros (field & v & w & H1 & H2 & H3). exists field, v, w. split_and!; [by right|by right|apply H3..].
    + intros (field & v & w & [H1|H1]%elem_of_cons & [H2|H2]%elem_of_cons & Hne & -> & ->); simplify_eq.
      * by destruct (Hout w ps H2).
      * by destruct (Hout v ns H1).
      * by exists field, v, w.
Qed.

Lemma changed_exact next previous key value : num_ltb num_zero (f_MaxTokenAutoGroups next) = true -> is_finite (f_MaxTokenAutoGroups next) = true ->
  (key, value) ∈ changedGroupRatioOptions next previous <-> to_send next previous key value.
Proof.
  intros Hp Hf. apply differing_entries; [done| |].
  - apply (bool_decide_eq_true_1 _). by vm_compute.
  - unfold option_fields. by repeat constructor.
Qed.

(** A text that passed the schema is blank or JSON. *)
Lemma field_valid_parse p s : field_valid p s = true -> normalizeJsonString s = [] \/ exists v, json_parse (trim s) = Some v /\ normalizeJsonString s = json_stringify (ordered v).
Proof.
  unfold field_valid, validateJsonString, normalizeJsonString. intros H%bool_decide_eq_true. destruct (nonempty (trim s)); cbn [negb] in *; [|by left].
  destruct (json_parse (trim s)) as [v|]; [|done]. right. eauto.
Qed.

Section Theorems.
Variable toLowerCase : list N -> list N.
Variable inherited_text : list N -> list N.

Notation save := (save toLowerCase).
Notation schema_ok := (schema_ok toLowerCase).

Lemma schema_max v : schema_ok v = true -> num_ltb num_zero (f_MaxTokenAutoGroups v) = true /\ is_finite (f_MaxTokenAutoGroups v) = true.
Proof. unfold GroupSettings.schema_ok, positiveIntegerSchema, is_integer. intros H. by breflect. Qed.

Lemma finite_normalized f v : f_MaxTokenAutoGroups (map_texts f v) = f_MaxTokenAutoGroups v.
Proof. by destruct v. Qed.

Lemma save_keeps p accepted : form (save accepted p).1 = form p /\ visual (save accepted p).1 = visual p.
Proof.
  unfold GroupSettings.save. destruct (negb _); [done|]. destruct (changedGroupRatioOptions _ _); [done|]. by destruct accepted.
Qed.

(** C10: Saving brings the server in line with the form and no further.  Nothing is sent unless
    every text is blank or JSON and the limit a positive integer; an option is sent exactly
    when its field, texts in normal form, has another value than the one last saved, and with
    these options the server's are those of the form; nothing is sent when no field differs;
    when the server accepts, saving again sends nothing; when it refuses, saving again sends
    the same. *)
Theorem save_brings_in_line p accepted :
  let '(p', out) := save accepted p in
  let next := map_texts normalizeJsonString (form p) in
  form p' = form p /\ visual p' = visual p /\
  (schema_ok (form p) = false -> out = []) /\
  (schema_ok (form p) = true -> (exists updates, UpdateOptions updates ∈ out) <-> exists key value, to_send next (saved p) key value) /\
  (forall updates, UpdateOptions updates ∈ out ->
     schema_ok (form p) = true /\
     (forall key value, (key, value) ∈ updates <-> to_send next (saved p) key value) /\
     apply_updates updates (server_options (saved p)) = server_options next /\
     (if accepted then (save true p').2 = [NoChanges] else (save accepted p').2 = out)) /\
  (NoChanges ∈ out -> server_options (saved p) = server_options next).
Proof.
  destruct (save accepted p) as [p' out] eqn:Es. cbv zeta. pose proof Es as Es2. unfold GroupSettings.save in Es. destruct (schema_ok (form p)) eqn:Ev; cbn [negb] in Es.
  2: { injection Es as <- <-. split_and!; try done; [intros u Hu|intros Hu]; by apply elem_of_nil in Hu. }
  destruct (schema_max _ Ev) as [Hm Hf].
  pose proof (changed_apply (map_texts normalizeJsonString (form p)) (saved p) ltac:(by rewrite finite_normalized)) as Ha.
  assert (forall key value, (key, value) ∈ changedGroupRatioOptions (map_texts normalizeJsonString (form p)) (saved p) <->
    to_send (map_texts normalizeJsonString (form p)) (saved p) key value) as Hx by (intros; apply changed_exact; by rewrite finite_normalized).
  destruct (changedGroupRatioOptions _ _) as [|u us] eqn:Ec.
  { injection Es as <- <-. split; [done|]. split; [done|]. split; [done|]. split; [intros _|split; [|done]].
    - split; [by intros [updates Hu%list_elem_of_singleton]|]. intros (key & value & H%Hx). by apply elem_of_nil in H.
    - intros updates Hu. by apply list_elem_of_singleton in Hu. }
  assert (exists key value, to_send (map_texts normalizeJsonString (form p)) (saved p) key value) as Hsome
    by (destruct u as [key value]; exists key, value; apply Hx; by left).
  assert (UpdateOptions (u :: us) ∈ out /\ NoChanges ∉ out /\ forall updates, UpdateOptions updates ∈ out -> updates = u :: us) as (Hin & Hnc & Honly).
  { destruct accepted; injection Es as <- <-; (split; [by left|]); split.
    - by intros H%list_elem_of_singleton.
    - intros updates H%list_elem_of_singleton. by injection H.
    - by intros [H|H%list_elem_of_singleton]%elem_of_cons.
    - intros updates [H|H%list_elem_of_singleton]%elem_of_cons; [by injection H|done]. }
  split; [by destruct accepted; injection Es as <- <-|]. split; [by destruct accepted; injection Es as <- <-|]. split; [done|].
  split; [intros _; split; [done|by exists (u :: us)]|]. split; [|done].
  intros updates Hu%Honly. subst updates. split; [done|]. split; [exact Hx|]. split; [exact Ha|]. destruct accepted; injection Es as <- <-.
  - unfold GroupSettings.save. cbn [form saved]. rewrite Ev. cbn [negb]. by rewrite changed_self by (by rewrite finite_normalized).
  - by rewrite Es2.
Qed.

(** ** An untouched form *)

Definition settled_form (v : GroupFormValues) : bool :=
  settled (f_GroupRatio v) && settled (f_TopupGroupRatio v) && settled (f_UserUsableGroups v) && settled (f_GroupGroupRatio v) && settled (f_AutoGroups v) &&
  settled (f_GroupSpecialUsableGroup v) && settled (f_GroupWarnings v).

Lemma normalize_shown v : settled_form v = true -> map_texts normalizeJsonString (map_texts formatJsonForTextarea v) = map_texts normalizeJsonString v.
Proof. unfold settled_form, map_texts. intros H. breflect. cbn. f_equal; by apply normalize_format. Qed.

(** Whatever shows the options of the server as they are has nothing to save. *)
Lemma nothing_to_save p d accepted : settled_form d = true -> is_finite (f_MaxTokenAutoGroups d) = true ->
  form p = map_texts formatJsonForTextarea d -> saved p = map_texts normalizeJsonString d ->
  save accepted p = (p, if schema_ok (form p) then [NoChanges] else []).
Proof.
  intros Hs Hf E1 E2. unfold GroupSettings.save. destruct (schema_ok (form p)); [|done]. cbn [negb].
  rewrite E1, E2, normalize_shown by done. by rewrite changed_self by (by rewrite finite_normalized).
Qed.

(** Opening the page and saving it sends nothing. *)
Lemma untouched_sends_nothing d p accepted : settled_form d = true -> is_finite (f_MaxTokenAutoGroups d) = true ->
  open_page inherited_text d = Ok p -> save accepted p = (p, if schema_ok (form p) then [NoChanges] else []).
Proof.
  intros Hs Hf. unfold open_page. destruct (mount_visual _ _ _ _) as [ed|]; [|done]. cbn [res_bind]. unfold render. destruct (groupNames _); [|done]. cbn [res_bind visual].
  destruct (newGroupCandidates _ _); [|done]. cbn [res_bind]. intros [= <-]. by eapply (nothing_to_save _ d).
Qed.

(** ** The table stays in step with the form *)

Notation sync_rows := (sync_rows inherited_text).
Notation build := (build inherited_text).
Notation set_page := (set_page inherited_text).
Notation step := (step toLowerCase inherited_text).
Notation run := (run toLowerCase inherited_text).

(** The table says that its rows cannot be written. *)
Definition blocked (rs : list GroupPricingRow) : bool :=
  let '(duplicateNames, hasInvalidRatio) := getGroupPricingValidation rs in bool_decide (duplicateNames <> []) || hasInvalidRatio.

(** The rows are the maps of the texts, or those read from them, or an error is shown. *)
Definition in_step (t : GroupTexts) (tb : Table) : Prop :=
  blocked (rows tb) = true \/ groupPricingSignature (rows tb) = sourceGroupPricingSignature t \/ exists c, rows tb = rows (build c t).

Definition page_ok (p : Page) : Prop :=
  match visual p with Some ed => ids_ok (table ed) /\ in_step (group_texts (form p)) (table ed) | None => True end.

Lemma sync_in_step t tb : in_step t (sync_rows t tb).
Proof. unfold GroupPricing.sync_rows. case_bool_decide as E; [by right; left|]. right. right. eauto. Qed.

Lemma emit_in_step rs c tb out : emitRows rs c = (tb, out) ->
  match out with Some t => groupPricingSignature (rows tb) = sourceGroupPricingSignature t | None => blocked (rows tb) = true end.
Proof.
  unfold emitRows, blocked. destruct (getGroupPricingValidation rs) as [dups inv] eqn:E. intros [= <- <-]. cbn [rows]. rewrite E. by destruct (_ || _).
Qed.

Lemma table_step_ok e tb tb' out : ids_ok tb -> table_step e tb = (tb', out) ->
  ids_ok tb' /\ match out with Some t => groupPricingSignature (rows tb') = sourceGroupPricingSignature t | None => blocked (rows tb') = true end.
Proof.
  intros Hi He. split.
  - change tb' with (tb', out).1. rewrite <- He. destruct e as [id f| |id]; cbn [table_step]; [by apply update_ids|by apply add_ids|by apply remove_ids].
  - destruct e as [id f| |id]; cbn [table_step] in He; by eapply emit_in_step.
Qed.

Lemma set_page_ok v ed p : ids_ok (table ed) -> (group_texts v = group_texts (form p) -> in_step (group_texts v) (table ed)) -> page_ok (set_page v (Some ed) p).
Proof.
  destruct ed as [tb dl base sp]. cbn [table]. intros Hi Hs. unfold page_ok, GroupSettings.set_page. cbn [visual form table].
  case_bool_decide as E; [auto|]. split; [by apply sync_ids|apply sync_in_step].
Qed.

Lemma texts_set t v : group_texts (set_texts t v) = t.
Proof. by destruct v, t. Qed.

Lemma visual_step_ok e v ed : ids_ok (table ed) -> in_step (group_texts v) (table ed) ->
  let '(v', ed') := visual_step e v ed in ids_ok (table ed') /\ (group_texts v' = group_texts v -> in_step (group_texts v') (table ed')).
Proof.
  destruct ed as [tb dl base sp]. cbn [table]. intros Hi Hs.
  assert (forall f s, f ∉ [JGroupRatio; JTopupGroupRatio; JUserUsableGroups] -> group_texts (set_text f s v) = group_texts v) as Hf.
  { intros f s Hf. destruct v, f; try done; destruct Hf; rewrite !elem_of_cons; auto. }
  destruct e as [te|oe|ae|re|f s|x|b| |d|a]; cbn [visual_step]; try (cbn [table]; auto).
  - destruct (table_step te tb) as [tb' out] eqn:E. destruct (table_step_ok _ _ _ _ Hi E) as [H1 H2]. cbn [table]. split; [done|]. intros _.
    destruct out as [t|]; [|by left]. rewrite texts_set. right. by left.
  - destruct (override_step (dl, f_GroupGroupRatio v) oe) as [dl' text]. cbn [table]. rewrite Hf by (rewrite !elem_of_cons, elem_of_nil; naive_solver). auto.
  - destruct (auto_step ae v base) as [[s|] base']; cbn [table]; [rewrite Hf by (rewrite !elem_of_cons, elem_of_nil; naive_solver)|]; auto.
  - destruct (rule_step sp re) as [sp' text]. cbn [table]. rewrite Hf by (rewrite !elem_of_cons, elem_of_nil; naive_solver). auto.
Qed.

(** Changes of the form that leave the editors alone. *)
Lemma form_change_ok v p : page_ok p -> page_ok (set_page v (visual p) p).
Proof.
  intros Hp. unfold page_ok in Hp. destruct (visual p) as [ed|] eqn:E; [|done]. destruct Hp as [H1 H2]. apply set_page_ok; [done|]. by intros ->.
Qed.

Lemma handle_ok p e p' out : page_ok p -> handle toLowerCase inherited_text p e = Ok (p', out) -> page_ok p'.
Proof.
  intros Hp. unfold handle. destruct e as [te|oe|ae|re|f s|x|b| |d|a].
  1-4: destruct (visual p) as [ed|] eqn:Ev; [|by intros [= <- <-]]; unfold page_ok in Hp; rewrite Ev in Hp; destruct Hp as [H1 H2];
    match goal with |- context [visual_step ?e ?v ?ed] => pose proof (visual_step_ok e v ed H1 H2) as Hv; destruct (visual_step e v ed) as [v' ed'] end;
    intros [= <- <-]; destruct Hv; by apply set_page_ok.
  - pose proof (form_change_ok (set_text f s (form p)) p Hp) as Hq. destruct (visual p) as [ed|] eqn:Ev.
    + destruct f; by intros [= <- <-].
    + intros [= <- <-]. exact Hq.
  - pose proof (form_change_ok (if is_finite x then set_max x (form p) else form p) p Hp) as Hq. intros [= <- <-]. exact Hq.
  - pose proof (form_change_ok (set_default b (form p)) p Hp) as Hq. intros [= <- <-]. exact Hq.
  - destruct (visual p) as [ed|]; [by intros [= <- <-]|]. unfold mount_visual. destruct (mount_rules _ _) as [ed|]; [|done]. cbn [res_bind].
    remember (sync_rows (group_texts (form p)) (build (tableIds p) (group_texts (form p)))) as tb eqn:Et. intros [= <- <-].
    unfold page_ok. cbn [visual form table]. rewrite Et. split; [apply sync_ids, build_ids|apply sync_in_step].
  - intros [= <- <-]. pose proof (form_change_ok (map_texts formatJsonForTextarea d) p Hp) as H. unfold page_ok in *. by destruct (set_page _ (visual p) p).
  - pose proof (save_keeps p a) as [E1 E2]. destruct (save a p) as [q o]. cbn [fst] in *. intros [= <- <-]. unfold page_ok in *. by rewrite E1, E2.
Qed.

Lemma render_same p p' : render p = Ok p' -> p' = p.
Proof.
  unfold render. destruct (groupNames (form p)); [|done]. cbn [res_bind]. destruct (visual p); [|by intros [= <-]].
  destruct (newGroupCandidates _ _); [|done]. by intros [= <-].
Qed.

Lemma group_step_ok p e p' out : page_ok p -> step p e = Ok (p', out) -> page_ok p'.
Proof.
  intros Hp. unfold GroupSettings.step. destruct (handle _ _ p e) as [[q o]|] eqn:Eh; [|done]. cbn [res_bind].
  destruct (render q) as [q'|] eqn:Er; [|done]. cbn [res_bind]. intros [= <- <-]. rewrite (render_same _ _ Er). by eapply handle_ok.
Qed.

Lemma open_ok d p : open_page inherited_text d = Ok p -> page_ok p.
Proof.
  unfold open_page, mount_visual. destruct (mount_rules _ _) as [ed|]; [|done]. cbn [res_bind]. intros H%render_same. rewrite H.
  unfold page_ok. cbn [visual form table]. split; [apply sync_ids, build_ids|apply sync_in_step].
Qed.

(** C11: The table of groups never shows prices that a save would not write, unless it says
    why: whatever is edited, typed, reloaded or saved, in either mode, its rows are the maps
    the form holds, or were just read from them, or the table reports a duplicate name or a
    wrong number; and every row can be told from the others. *)
Theorem table_in_step d p es p' out :
  open_page inherited_text d = Ok p -> run p es = Ok (p', out) ->
  match visual p' with
  | Some ed => ids_ok (table ed) /\ in_step (group_texts (form p')) (table ed)
  | None => True
  end.
Proof.
  intros Ho%open_ok. fold (page_ok p'). revert p out Ho. induction es as [|e es IH]; intros p out Hp; cbn [GroupSettings.run]; [by intros [= <- <-]|].
  destruct (step p e) as [[q o]|] eqn:Es; [|done]. cbn [res_bind]. destruct (run q es) as [[q' o']|] eqn:Er; [|done]. cbn [res_bind]. intros [= <- <-].
  eapply (IH q); [|exact Er]. by eapply group_step_ok.
Qed.

(** ** Rules that outlive their text *)

(** The rules of visibility do not follow the form.  When the options are loaded again
    while the editor is shown, the next change of a rule writes the rules the editor was
    mounted with, so that the next save takes back whatever another administrator has
    changed. *)
Theorem reload_keeps_rules p ed d p1 out1 e p2 out2 :
  visual p = Some ed -> step p (EReload d) = Ok (p1, out1) -> step p1 (ERule e) = Ok (p2, out2) ->
  f_GroupSpecialUsableGroup (form p1) = formatJsonForTextarea (f_GroupSpecialUsableGroup d) /\
  saved p2 = map_texts normalizeJsonString d /\
  f_GroupSpecialUsableGroup (form p2) = serializeRules (rules (next_rules e (special ed))).
Proof.
  intros Hv H1 H2. unfold GroupSettings.step in *. cbn [handle] in H1. rewrite Hv in H1. destruct ed as [tb dl base sp]. cbn [GroupSettings.set_page res_bind form visual tableIds ruleIds saved] in H1.
  destruct (render _) as [q|] eqn:Er in H1; [|done]. cbn [res_bind] in H1. injection H1 as <- <-. apply render_same in Er. subst q.
  cbn [handle visual visual_step rule_step form] in H2. cbn [res_bind] in H2. destruct (render _) as [q|] eqn:Er in H2; [|done]. cbn [res_bind] in H2. injection H2 as <- <-.
  apply render_same in Er. subst q. cbn [GroupSettings.set_page form saved special]. by destruct d.
Qed.

End Theorems.

(** ** Witnesses *)

Definition sample_defaults : GroupFormValues :=
  mkForm (json_stringify (JObj [(js "default", JNum (num_of_Z 1)); (js "vip", JNum (num_of_decimal 5 (-1)))])) [] (js "{}") [] [] (num_of_Z 5) false (js "{}") [].

Definition other_defaults : GroupFormValues :=
  set_text JGroupSpecialUsableGroup (json_stringify (JObj [(js "vip", JObj [(js "-:default", JStr (js "remove"))])])) sample_defaults.

Notation sample_page := (open_page (fun _ => []) sample_defaults).

Definition sample_run (es : list PageEvent) : res (Page * list PageOutput) := let* p := sample_page in run (fun s => s) (fun _ => []) p es.

Definition sample_events : list PageEvent := [ETable (UpdateRow (js "gpr_1") (RRatio (js "2"))); ESave true; EToggle; EToggle].

Definition sample_updates : list (list N * list N) :=
  [(js "GroupRatio", json_stringify (JObj [(js "default", JNum (num_of_Z 2)); (js "vip", JNum (num_of_decimal 5 (-1)))])); (js "TopupGroupRatio", js "{}")].

Definition sends (r : res (Page * list PageOutput)) (out : list PageOutput) : bool :=
  match r with Ok (_, out') => bool_decide (out' = out) | Throw _ => false end.

Lemma table_in_step_witness :
  sends (sample_run sample_events) [UpdateOptions sample_updates] = true /\
  match sample_page with
  | Ok p =>
      match run (fun s => s) (fun _ => []) p sample_events with
      | Ok (p', _) => match visual p' with Some ed => ids_ok (table ed) /\ in_step (fun _ => []) (group_texts (form p')) (table ed) | None => True end
      | Throw _ => False
      end
  | Throw _ => False
  end.
Proof.
  split; [by vm_compute|].
  assert (match sample_page with Ok p => match run (fun s => s) (fun _ => []) p sample_events with Ok _ => true | Throw _ => false end | Throw _ => false end = true) as Hs
    by (by vm_compute).
  destruct sample_page as [p|] eqn:Ep; [|done]. destruct (run (fun s => s) (fun _ => []) p sample_events) as [[p' out]|] eqn:Er; [|done].
  exact (table_in_step (fun s => s) (fun _ => []) sample_defaults p sample_events p' out Ep Er).
Defined.

Lemma reload_keeps_rules_witness :
  sends (sample_run [EReload other_defaults; ERule (AddRule (js "vip")); ESave true])
    [UpdateOptions [(js "group_ratio_setting.group_special_usable_group", js "{}")]] = true /\
  match sample_page with
  | Ok p =>
      match visual p, step (fun s => s) (fun _ => []) p (EReload other_defaults) with
      | Some ed, Ok (p1, _) =>
          match step (fun s => s) (fun _ => []) p1 (ERule (AddRule (js "vip"))) with
          | Ok (p2, _) => f_GroupSpecialUsableGroup (form p2) = serializeRules (rules (next_rules (AddRule (js "vip")) (special ed)))
          | Throw _ => False
          end
      | _, _ => False
      end
  | Throw _ => False
  end.
Proof.
  split; [by vm_compute|].
  assert (match sample_page with
    | Ok p => match visual p, step (fun s => s) (fun _ => []) p (EReload other_defaults) with
              | Some _, Ok (p1, _) => match step (fun s => s) (fun _ => []) p1 (ERule (AddRule (js "vip"))) with Ok _ => true | Throw _ => false end
              | _, _ => false end
    | Throw _ => false end = true) as Hs by (by vm_compute).
  destruct sample_page as [p|]; [|done]. destruct (visual p) as [ed|] eqn:Ev; [|done].
  destruct (step (fun s => s) (fun _ => []) p (EReload other_defaults)) as [[p1 out1]|] eqn:E1; [|done].
  destruct (step (fun s => s) (fun _ => []) p1 (ERule (AddRule (js "vip")))) as [[p2 out2]|] eqn:E2; [|done].
  by destruct (reload_keeps_rules (fun s => s) (fun _ => []) p ed other_defaults p1 out1 (AddRule (js "vip")) p2 out2 Ev E1 E2) as (_ & _ & ?).
Defined.

(** The schema accepts [null] for the multipliers, and the page cannot be drawn with it. *)
Example null_cannot_be_drawn :
  schema_ok (fun s => s) (set_text JGroupRatio (js "null") sample_defaults) = true /\
  open_page (fun _ => []) (set_text JGroupRatio (js "null") sample_defaults) = Throw TypeError.
Proof. by vm_compute. Qed.

(** A multiplier written as a string passes the schema, is not shown, and the first edit of
    another row removes it. *)
Definition text_ratio : GroupFormValues :=
  set_text JGroupRatio (json_stringify (JObj [(js "default", JNum (num_of_Z 1)); (js "vip", JStr (js "0.5"))])) sample_defaults.

Example text_ratio_lost :
  schema_ok (fun s => s) text_ratio = true /\
  match open_page (fun _ => []) text_ratio with
  | Ok p => match run (fun s => s) (fun _ => []) p [ETable (UpdateRow (js "gpr_1") (RRatio (js "2"))); ESave true] with
            | Ok (_, out) => out = [UpdateOptions [(js "GroupRatio", json_stringify (JObj [(js "default", JNum (num_of_Z 2))])); (js "TopupGroupRatio", js "{}")]]
            | _ => False
            end
  | _ => False
  end.
Proof. by vm_compute. Qed.
