(* ===== verification/Flow.v ===== *)
(** * The flow of usage (src/apps/web/src/features/dashboard/lib/flow.ts)

    Rows of usage (who called which model with which key through which channel, and what
    it cost) become a graph of columns: one node for each user, key, group, model or
    channel, and links between neighbouring columns.  Rows can be filtered, columns hidden,
    small nodes summed up or dropped, names masked and paths highlighted.

    A [Map] with string keys is the list of its values in insertion order, updated in place
    by [group_place]; an [undefined] list of filters is the empty one.  The collation, the
    colours of the theme and the number format are parameters. *)
From S2P Require Import Prelude JsString JsNumber JsCollections StatusGroups JsExact.
From Stdlib Require Import Lia.

(** ** Data *)

Inductive FlowMetric := MetricQuota | MetricTokens | MetricRequests.
Inductive FlowOverflowMode := Aggregate | Hide.
Inductive FlowRole := RoleUser | RoleAdmin | RoleRoot.
Inductive FlowNodeKind := KUser | KNode | KToken | KGroup | KModel | KChannel.

#[export] Instance FlowNodeKind_eq_dec : EqDecision FlowNodeKind.
Proof. solve_decision. Defined.

Record FlowQuotaDataItem := mkRow {
  row_user_id : option spec_float;
  row_username : option (list N);
  row_node_name : option (list N);
  row_token_id : option spec_float;
  row_token_name : option (list N);
  row_use_group : option (list N);
  row_model_name : option (list N);
  row_channel_id : option spec_float;
  row_channel_name : option (list N);
  row_token_used : option spec_float;
  row_count : option spec_float;
  row_quota : option spec_float }.

Record FlowMetrics := mkMetrics { m_quota : spec_float; m_tokens : spec_float; m_requests : spec_float }.

Record FlowPathNode := mkPathNode { pn_id : list N; pn_label : list N; pn_kind : FlowNodeKind }.

Record PreparedFlowPath := mkPrepared { path : list FlowPathNode; metrics : FlowMetrics }.

Record FlowNodeFilter := mkFilter { nf_kind : FlowNodeKind; nf_id : list N }.
Record FlowLinkSelection := mkSelection { sel_source : list N; sel_target : list N }.

Record DashboardFlowNode := mkNode {
  n_id : list N;
  n_label : list N;
  n_kind : FlowNodeKind;
  n_value : spec_float;
  n_metrics : FlowMetrics;                    (* requests, quota, tokens *)
  n_color : list N;
  n_colorKey : list N;
  n_highlighted : option bool;
  n_dimmed : option bool }.

Record DashboardFlowLink := mkLink {
  l_source : list N;
  l_target : list N;
  l_value : spec_float;
  l_metrics : FlowMetrics;
  l_sourceLabel : list N;
  l_targetLabel : list N;
  l_color : list N;
  l_linkColor : list N;
  l_linkAlpha : spec_float;
  l_hoverColor : list N;
  l_colorKey : list N;
  l_share : spec_float;
  l_highlighted : option bool;
  l_dimmed : option bool }.

Record DashboardFlowGraph := mkGraph { g_nodes : list DashboardFlowNode; g_links : list DashboardFlowLink }.

Definition FLOW_NODE_KINDS : list FlowNodeKind := [KUser; KNode; KToken; KGroup; KModel; KChannel].

Definition kind_text (k : FlowNodeKind) : list N :=
  match k with
  | KUser => js "user" | KNode => js "node" | KToken => js "token"
  | KGroup => js "group" | KModel => js "model" | KChannel => js "channel"
  end.

Definition OTHER_FLOW_NODE_IDS (k : FlowNodeKind) : list N := kind_text k ++ js ":__other__".

Definition DEFAULT_OTHER_FLOW_NODE_LABELS (k : FlowNodeKind) : list N :=
  match k with
  | KUser => js "Other users" | KNode => js "Other nodes" | KToken => js "Other tokens"
  | KGroup => js "Other groups" | KModel => js "Other models" | KChannel => js "Other channels"
  end.

Definition SENSITIVE_FLOW_KINDS (k : FlowNodeKind) : bool := match k with KModel => false | _ => true end.

Definition OTHER_FLOW_NODE_ID_SET : list (list N) := map OTHER_FLOW_NODE_IDS FLOW_NODE_KINDS.

Definition DEFAULT_FLOW_CHART_COLOR : list N := js "var(--overview-accent-1)".

(** ** Rows *)

Definition numberValue (value : option spec_float) : spec_float :=
  match value with Some n => if is_finite n then n else num_zero | None => num_zero end.

Definition rowMetrics (row : FlowQuotaDataItem) : FlowMetrics :=
  mkMetrics (numberValue (row_quota row)) (numberValue (row_token_used row)) (numberValue (row_count row)).

Definition metricValue (m : FlowMetrics) (metric : FlowMetric) : spec_float :=
  match metric with MetricRequests => m_requests m | MetricTokens => m_tokens m | MetricQuota => m_quota m end.

(** [text || fallback] *)
Definition name_or (t : option (list N)) (fallback : list N) : list N :=
  match t with Some ((_ :: _) as s) => s | _ => fallback end.

Definition positive_id (n : spec_float) : bool := num_ltb num_zero n.

Definition userNode (row : FlowQuotaDataItem) : FlowPathNode :=
  let userID := numberValue (row_user_id row) in
  mkPathNode
    (js "user:" ++ if positive_id userID then num_to_string userID else name_or (row_username row) (js "unknown"))
    (name_or (row_username row) (if positive_id userID then js "user-" ++ num_to_string userID else js "Unknown User"))
    KUser.

Definition nodeNameNode (row : FlowQuotaDataItem) : FlowPathNode :=
  let nodeName := name_or (row_node_name row) (js "default-node") in
  mkPathNode (js "node:" ++ nodeName) nodeName KNode.

(** [ctx.deletedTokenLabel] *)
Notation FlowPathContext := (option (spec_float -> list N)) (only parsing).

Definition deletedTokenLabel (tokenID : spec_float) (ctx : FlowPathContext) : list N :=
  if num_leb tokenID num_zero then js "Unknown Token"
  else match ctx with Some f => f tokenID | None => js "token-" ++ num_to_string tokenID end.

Definition tokenNode (row : FlowQuotaDataItem) (ctx : FlowPathContext) : FlowPathNode :=
  let tokenID := numberValue (row_token_id row) in
  mkPathNode
    (js "token:" ++ if positive_id tokenID then num_to_string tokenID else name_or (row_token_name row) (js "unknown"))
    (name_or (row_token_name row) (deletedTokenLabel tokenID ctx))
    KToken.

Definition groupNode (row : FlowQuotaDataItem) : FlowPathNode :=
  let useGroup := name_or (row_use_group row) (js "unknown") in
  mkPathNode (js "group:" ++ useGroup) useGroup KGroup.

Definition modelNode (row : FlowQuotaDataItem) : FlowPathNode :=
  mkPathNode (js "model:" ++ name_or (row_model_name row) (js "unknown")) (name_or (row_model_name row) (js "Unknown Model")) KModel.

Definition channelNode (row : FlowQuotaDataItem) : FlowPathNode :=
  let channelID := numberValue (row_channel_id row) in
  mkPathNode
    (js "channel:" ++ if positive_id channelID then num_to_string channelID else name_or (row_channel_name row) (js "unknown"))
    (name_or (row_channel_name row) (if positive_id channelID then js "channel-" ++ num_to_string channelID else js "Unknown"))
    KChannel.

Definition NODE_BUILDERS (k : FlowNodeKind) (row : FlowQuotaDataItem) (ctx : FlowPathContext) : FlowPathNode :=
  match k with
  | KUser => userNode row
  | KNode => nodeNameNode row
  | KToken => tokenNode row ctx
  | KGroup => groupNode row
  | KModel => modelNode row
  | KChannel => channelNode row
  end.

(** ** Columns *)

Definition ROLE_FLOW_STAGES (role : FlowRole) : list FlowNodeKind :=
  match role with
  | RoleRoot => [KUser; KNode; KToken; KGroup; KModel; KChannel]
  | RoleAdmin => [KUser; KGroup; KModel; KChannel]
  | RoleUser => [KToken; KGroup; KModel]
  end.

Definition MIN_FLOW_STAGES : nat := 2.

Definition getFlowStages (role : FlowRole) : list FlowNodeKind := ROLE_FLOW_STAGES role.

Definition resolveVisibleStages (role : FlowRole) (visibleStages : option (list FlowNodeKind)) : list FlowNodeKind :=
  let stages := getFlowStages role in
  match visibleStages with
  | None => stages
  | Some visible =>
      let filtered := filter (fun stage => stage ∈ visible) stages in
      if MIN_FLOW_STAGES <=? length filtered then filtered else stages
  end.

Definition flowPathForStages (row : FlowQuotaDataItem) (stages : list FlowNodeKind) (ctx : FlowPathContext) : list FlowPathNode :=
  map (fun stage => NODE_BUILDERS stage row ctx) stages.

(** ** Filters *)

Definition filterRows (rows : list FlowQuotaDataItem) (selectedUsers : list (list N)) : list FlowQuotaDataItem :=
  match set_values selectedUsers with
  | [] => rows
  | users => filter (fun row => pn_id (userNode row) ∈ users) rows
  end.

Definition add_selected (f : FlowNodeFilter) (entry : FlowNodeKind * list (list N)) : FlowNodeKind * list (list N) :=
  (entry.1, if decide (nf_id f ∈ entry.2) then entry.2 else entry.2 ++ [nf_id f]).

(** The ids selected for each kind of column that is visible. *)
Definition normalizeSelectedNodeFilters (selectedNodes : list FlowNodeFilter) (stages : list FlowNodeKind)
    : list (FlowNodeKind * list (list N)) :=
  group_rows nf_kind fst (fun f => (nf_kind f, [])) add_selected (filter (fun f => nf_kind f ∈ stages) selectedNodes).

Definition path_ids (kind : FlowNodeKind) (path : list FlowPathNode) : list (list N) :=
  map pn_id (filter (fun n => pn_kind n = kind) path).

Definition pathMatchesNodeFilters (path : list FlowPathNode) (filters : list (FlowNodeKind * list (list N))) : bool :=
  forallb (fun entry => existsb (fun id => bool_decide (id ∈ path_ids entry.1 path)) entry.2) filters.

Definition filterRowsByNodes (rows : list FlowQuotaDataItem) (selectedNodes : list FlowNodeFilter) (stages : list FlowNodeKind)
    (ctx : FlowPathContext) : list FlowQuotaDataItem :=
  match normalizeSelectedNodeFilters selectedNodes stages with
  | [] => rows
  | filters => filter (fun row => pathMatchesNodeFilters (flowPathForStages row stages ctx) filters = true) rows
  end.

Definition selectedNodeFiltersExceptKind (selectedNodes : list FlowNodeFilter) (kind : FlowNodeKind) : list FlowNodeFilter :=
  filter (fun f => nf_kind f <> kind) selectedNodes.

(** ** Colours *)

Definition is_hex (c : N) : bool := is_digit c || ((97 <=? c)%N && (c <=? 102)%N) || ((65 <=? c)%N && (c <=? 70)%N).
Definition hex_digit (c : N) : N := if is_digit c then (c - 48)%N else (lower_ascii c - 87)%N.
Definition hex_number (s : list N) : N := fold_left (fun n c => (16 * n + hex_digit c)%N) s 0%N.

Definition alphaColor (color : list N) (alpha : spec_float) : list N * spec_float :=
  let normalized := trim color in
  let hex := match normalized with 35%N :: rest => rest | _ => normalized end in
  if negb ((length hex =? 6) && forallb is_hex hex) then (normalized, alpha)
  else
    let value := hex_number hex in
    let red := N.land (N.shiftr value 16) 255 in
    let green := N.land (N.shiftr value 8) 255 in
    let blue := N.land value 255 in
    (js "rgba(" ++ dec_string red ++ js ", " ++ dec_string green ++ js ", " ++ dec_string blue ++ js ", " ++ num_to_fixed 2 alpha ++ js ")",
     num_of_Z 1).

(** [a - b || next] in a comparator. *)
Definition difference_or (d : spec_float) (next : Z) : Z := if num_truthy d then order_sign d else next.

(** [a || next] on the result of [localeCompare]. *)
Definition compare_or (d next : Z) : Z := if (d =? 0)%Z then next else d.

Definition linkStableKey (l : DashboardFlowLink) : list N := l_source l ++ [0%N] ++ l_target l.
Definition pathLinkKey (source target : FlowPathNode) : list N := pn_id source ++ [0%N] ++ pn_id target.

Section Flow.
Context (localeCompare : list N -> list N -> Z) (getDashboardChartColors : nat -> list (list N)) (formatNumber : spec_float -> list N).

Definition colorAt (index : nat) (palette : list (list N)) : list N :=
  match (match palette with [] => getDashboardChartColors (index + 1) | _ => palette end) with
  | [] => DEFAULT_FLOW_CHART_COLOR
  | colors => nth (index mod length colors) colors DEFAULT_FLOW_CHART_COLOR
  end.

Definition colorPalette (colorCount : nat) (palette : list (list N)) : list (list N) :=
  match palette with
  | [] => match getDashboardChartColors colorCount with [] => [DEFAULT_FLOW_CHART_COLOR] | colors => colors end
  | _ => palette
  end.

(** The map is the list of its entries. *)
Definition stableColorMap (keys : list (list N)) (palette : list (list N)) : list (list N * list N) :=
  let uniqueKeys := set_values keys in
  let colors := colorPalette (length uniqueKeys) palette in
  imap (fun index key => (key, colorAt index colors)) uniqueKeys.

Definition color_of (colors : list (list N * list N)) (palette : list (list N)) (id : list N) : list N :=
  match list_find (fun entry => entry.1 = id) colors with Some (_, entry) => entry.2 | None => colorAt 0 palette end.

(** ** Nodes and links *)

Definition add_metrics (a b : FlowMetrics) : FlowMetrics :=
  mkMetrics (num_add (m_quota a) (m_quota b)) (num_add (m_tokens a) (m_tokens b)) (num_add (m_requests a) (m_requests b)).

Definition no_metrics : FlowMetrics := mkMetrics num_zero num_zero num_zero.

(** What a path contributes to one of its nodes, or to a link between two. *)
Record NodeItem := mkNodeItem { ni_node : FlowPathNode; ni_metrics : FlowMetrics; ni_color : list N; ni_colorKey : list N }.
Record LinkItem := mkLinkItem { li_source : FlowPathNode; li_target : FlowPathNode; li_metrics : FlowMetrics; li_color : list N; li_colorKey : list N }.

Definition ni_id (i : NodeItem) : list N := pn_id (ni_node i).
Definition li_key (i : LinkItem) : list N := pathLinkKey (li_source i) (li_target i).

Definition new_node (i : NodeItem) : DashboardFlowNode :=
  mkNode (pn_id (ni_node i)) (pn_label (ni_node i)) (pn_kind (ni_node i)) num_zero no_metrics (ni_color i) (ni_colorKey i) None None.

Definition grow_node (metric : FlowMetric) (i : NodeItem) (n : DashboardFlowNode) : DashboardFlowNode :=
  mkNode (n_id n) (n_label n) (n_kind n) (num_add (n_value n) (metricValue (ni_metrics i) metric)) (add_metrics (n_metrics n) (ni_metrics i))
    (n_color n) (n_colorKey n) (n_highlighted n) (n_dimmed n).

Definition addNode (metric : FlowMetric) (i : NodeItem) (nodes : list DashboardFlowNode) : list DashboardFlowNode :=
  group_place ni_id n_id new_node (grow_node metric) i nodes.

Definition new_link (i : LinkItem) : DashboardFlowLink :=
  mkLink (pn_id (li_source i)) (pn_id (li_target i)) num_zero no_metrics (pn_label (li_source i)) (pn_label (li_target i))
    (li_color i) (li_color i) (num_of_Z 1) (li_color i) (li_colorKey i) num_zero None None.

Definition grow_link (metric : FlowMetric) (i : LinkItem) (l : DashboardFlowLink) : DashboardFlowLink :=
  mkLink (l_source l) (l_target l) (num_add (l_value l) (metricValue (li_metrics i) metric)) (add_metrics (l_metrics l) (li_metrics i))
    (l_sourceLabel l) (l_targetLabel l) (l_color l) (l_linkColor l) (l_linkAlpha l) (l_hoverColor l) (l_colorKey l) (l_share l)
    (l_highlighted l) (l_dimmed l).

Definition addLink (metric : FlowMetric) (i : LinkItem) (links : list DashboardFlowLink) : list DashboardFlowLink :=
  group_place li_key linkStableKey new_link (grow_link metric) i links.

(** The links of one source, the largest first. *)
Definition by_value_then_key (a b : DashboardFlowLink) : Z :=
  difference_or (num_sub (l_value b) (l_value a)) (localeCompare (linkStableKey a) (linkStableKey b)).

Definition link_alpha (index count : nat) : spec_float :=
  if count =? 1 then num_of_decimal 34 (-2)
  else num_add (num_of_decimal 24 (-2))
         (num_mul (num_div (num_of_Z (Z.of_nat index)) (num_of_Z (Z.max (Z.of_nat count - 1) 1))) (num_of_decimal 2 (-1))).

(** A link is found in the sorted list by its key, which no other link has. *)
Definition assign_color (links : list DashboardFlowLink) (l : DashboardFlowLink) : DashboardFlowLink :=
  let sortedLinks := sort_by by_value_then_key (filter (fun x => l_source x = l_source l) links) in
  match list_find (fun x => linkStableKey x = linkStableKey l) sortedLinks with
  | Some (index, _) =>
      let displayColor := alphaColor (l_color l) (link_alpha index (length sortedLinks)) in
      mkLink (l_source l) (l_target l) (l_value l) (l_metrics l) (l_sourceLabel l) (l_targetLabel l) (l_color l) displayColor.1
        displayColor.2 (l_color l) (l_colorKey l) (l_share l) (l_highlighted l) (l_dimmed l)
  | None => l
  end.

Definition assignLinkDisplayColors (links : list DashboardFlowLink) : list DashboardFlowLink := map (assign_color links) links.

Definition byValueThenLabel (a b : DashboardFlowNode) : Z :=
  difference_or (num_sub (n_value b) (n_value a)) (localeCompare (n_label a) (n_label b)).

Definition flag_number (f : option bool) : spec_float :=
  match f with None => S754_nan | Some true => num_of_Z 1 | Some false => num_zero end.

Definition byLinkDrawPriority (a b : DashboardFlowLink) : Z :=
  difference_or (num_sub (flag_number (l_dimmed a)) (flag_number (l_dimmed b)))
    (difference_or (num_sub (flag_number (l_highlighted b)) (flag_number (l_highlighted a)))
      (by_value_then_key a b)).

Definition buildSummary (rows : list FlowQuotaDataItem) : FlowMetrics :=
  fold_left (fun summary row => add_metrics summary (rowMetrics row)) rows no_metrics.

(** ** The largest nodes of a column *)

Definition normalizeTopNodeLimit (limit : option spec_float) : option spec_float :=
  match limit with
  | None => None
  | Some l => let parsed := num_floor l in if is_finite parsed && num_ltb num_zero parsed then Some parsed else None
  end.

(** The count [slice(0, limit)] takes. *)
Definition slice_count (limit : spec_float) : nat :=
  match limit with S754_finite false m e => Z.to_nat (let '(a, b) := num_fraction m e in a / b) | _ => 0 end.

Definition otherFlowNode (kind : FlowNodeKind) (labeler : option (FlowNodeKind -> list N)) : FlowPathNode :=
  mkPathNode (OTHER_FLOW_NODE_IDS kind)
    (match labeler with Some f => f kind | None => DEFAULT_OTHER_FLOW_NODE_LABELS kind end) kind.

Record FlowNodeRank := mkRank { rank_node : FlowPathNode; rank_value : spec_float }.

Definition rank_key (r : FlowNodeRank) : list N := pn_id (rank_node r).
Definition grow_rank (i r : FlowNodeRank) : FlowNodeRank := mkRank (rank_node r) (num_add (rank_value r) (rank_value i)).
Definition new_rank (i : FlowNodeRank) : FlowNodeRank := mkRank (rank_node i) num_zero.

Definition row_ranks (metric : FlowMetric) (stages : list FlowNodeKind) (ctx : FlowPathContext) (row : FlowQuotaDataItem) : list FlowNodeRank :=
  map (fun n => mkRank n (metricValue (rowMetrics row) metric)) (flowPathForStages row stages ctx).

(** The totals of one column: the loop over all rows, seen from the map of its kind. *)
Definition stage_totals (rows : list FlowQuotaDataItem) (metric : FlowMetric) (stages : list FlowNodeKind) (ctx : FlowPathContext)
    (stage : FlowNodeKind) : list FlowNodeRank :=
  group_rows rank_key rank_key new_rank grow_rank
    (filter (fun r => pn_kind (rank_node r) = stage) (flat_map (row_ranks metric stages ctx) rows)).

Definition by_rank (a b : FlowNodeRank) : Z :=
  difference_or (num_sub (rank_value b) (rank_value a))
    (compare_or (localeCompare (pn_label (rank_node a)) (pn_label (rank_node b))) (localeCompare (rank_key a) (rank_key b))).

Definition buildTopNodeSets (rows : list FlowQuotaDataItem) (metric : FlowMetric) (stages : list FlowNodeKind) (limit : option spec_float)
    (ctx : FlowPathContext) : option (list (FlowNodeKind * list (list N))) :=
  match limit with
  | None => None
  | Some l => Some (map (fun stage => (stage, map rank_key (take (slice_count l) (sort_by by_rank (stage_totals rows metric stages ctx stage))))) stages)
  end.

Notation topNodeSets := (option (list (FlowNodeKind * list (list N)))) (only parsing).

Definition isTopFlowNode (node : FlowPathNode) (top : topNodeSets) : bool :=
  match top with
  | None => true
  | Some sets =>
      match list_find (fun entry => entry.1 = pn_kind node) sets with
      | Some (_, entry) => bool_decide (pn_id node ∈ entry.2)
      | None => true
      end
  end.

Definition applyTopNodeLimit (path : list FlowPathNode) (top : topNodeSets) (mode : FlowOverflowMode)
    (labeler : option (FlowNodeKind -> list N)) : option (list FlowPathNode) :=
  match top with
  | None => Some path
  | Some _ =>
      if negb (existsb (fun node => negb (isTopFlowNode node top)) path) then Some path
      else
        match mode with
        | Hide => None
        | Aggregate => Some (map (fun node => if isTopFlowNode node top then node else otherFlowNode (pn_kind node) labeler) path)
        end
  end.

(** ** Highlights *)

Definition pathContainsFlowNode (path : list FlowPathNode) (f : FlowNodeFilter) : bool :=
  existsb (fun node => bool_decide (pn_kind node = nf_kind f) && bool_decide (pn_id node = nf_id f)) path.

(** The neighbouring nodes of a path. *)
Fixpoint path_links (path : list FlowPathNode) : list (FlowPathNode * FlowPathNode) :=
  match path with
  | source :: ((target :: _) as rest) => (source, target) :: path_links rest
  | _ => []
  end.

Definition pathContainsFlowLink (path : list FlowPathNode) (link : FlowLinkSelection) : bool :=
  existsb (fun p => bool_decide (pn_id p.1 = sel_source link) && bool_decide (pn_id p.2 = sel_target link)) (path_links path).

Record FlowHighlightSets := mkHighlight { hl_nodes : list (list N); hl_links : list (list N) }.

Definition matchesPath (activeNode : option FlowNodeFilter) (activeLink : option FlowLinkSelection) (path : list FlowPathNode) : bool :=
  match activeLink with
  | Some link => pathContainsFlowLink path link
  | None => match activeNode with Some f => pathContainsFlowNode path f | None => false end
  end.

Definition buildFlowHighlightSets (preparedPaths : list PreparedFlowPath) (activeNode : option FlowNodeFilter)
    (activeLink : option FlowLinkSelection) (stages : list FlowNodeKind) : option FlowHighlightSets :=
  let nodeActive := match activeNode with Some f => bool_decide (nf_kind f ∈ stages) | None => false end in
  if negb nodeActive && negb (match activeLink with Some _ => true | None => false end) then None
  else
    let paths := filter (fun p => matchesPath activeNode activeLink (path p) = true) preparedPaths in
    let highlightedNodes := set_values (flat_map (fun p => map pn_id (path p)) paths) in
    let highlightedLinks := set_values (flat_map (fun p => map (fun e => pathLinkKey e.1 e.2) (path_links (path p))) paths) in
    match highlightedNodes with [] => None | _ => Some (mkHighlight highlightedNodes highlightedLinks) end.

Definition node_flags (highlighted dimmed : option bool) (n : DashboardFlowNode) : DashboardFlowNode :=
  mkNode (n_id n) (n_label n) (n_kind n) (n_value n) (n_metrics n) (n_color n) (n_colorKey n) highlighted dimmed.

Definition link_flags (highlighted dimmed : option bool) (l : DashboardFlowLink) : DashboardFlowLink :=
  mkLink (l_source l) (l_target l) (l_value l) (l_metrics l) (l_sourceLabel l) (l_targetLabel l) (l_color l) (l_linkColor l) (l_linkAlpha l)
    (l_hoverColor l) (l_colorKey l) (l_share l) highlighted dimmed.

Definition applyFlowHighlights (sets : option FlowHighlightSets) (g : DashboardFlowGraph) : DashboardFlowGraph :=
  match sets with
  | None => g
  | Some h =>
      mkGraph
        (map (fun n => let highlighted := bool_decide (n_id n ∈ hl_nodes h) in node_flags (Some highlighted) (Some (negb highlighted)) n) (g_nodes g))
        (map (fun l => let highlighted := bool_decide (linkStableKey l ∈ hl_links h) in link_flags (Some highlighted) (Some (negb highlighted)) l)
           (g_links g))
  end.

(** ** Masked names *)

Definition FLOW_MASK_TEXT : list N := replicate 4 8226%N.

Definition maskFlowLabel (label : list N) : list N := match label with [] => label | _ => FLOW_MASK_TEXT end.

Definition is_masked (n : DashboardFlowNode) : bool := SENSITIVE_FLOW_KINDS (n_kind n) && negb (bool_decide (n_id n ∈ OTHER_FLOW_NODE_ID_SET)).

Definition relabel_node (label : list N) (n : DashboardFlowNode) : DashboardFlowNode :=
  mkNode (n_id n) label (n_kind n) (n_value n) (n_metrics n) (n_color n) (n_colorKey n) (n_highlighted n) (n_dimmed n).

Definition relabel_link (sourceLabel targetLabel : list N) (l : DashboardFlowLink) : DashboardFlowLink :=
  mkLink (l_source l) (l_target l) (l_value l) (l_metrics l) sourceLabel targetLabel (l_color l) (l_linkColor l) (l_linkAlpha l)
    (l_hoverColor l) (l_colorKey l) (l_share l) (l_highlighted l) (l_dimmed l).

(** [maskedById.get(id) ?? label] *)
Definition masked_by_id (nodes : list DashboardFlowNode) (id label : list N) : list N :=
  match list_find (fun n => is_masked n = true /\ n_id n = id) nodes with Some (_, n) => maskFlowLabel (n_label n) | None => label end.

Definition maskFlowGraphLabels (g : DashboardFlowGraph) : DashboardFlowGraph :=
  mkGraph (map (fun n => if is_masked n then relabel_node (maskFlowLabel (n_label n)) n else n) (g_nodes g))
    (map (fun l => relabel_link (masked_by_id (g_nodes g) (l_source l) (l_sourceLabel l)) (masked_by_id (g_nodes g) (l_target l) (l_targetLabel l)) l)
       (g_links g)).

(** ** The graph *)

Record FlowGraphOptions := mkGraphOptions {
  topNodeLimit : option spec_float;
  overflowMode : option FlowOverflowMode;
  otherNodeLabel : option (FlowNodeKind -> list N);
  activeNode : option FlowNodeFilter;
  activeLink : option FlowLinkSelection;
  maskSensitive : bool }.

Definition prepare_path (top : topNodeSets) (options : FlowGraphOptions) (stages : list FlowNodeKind) (ctx : FlowPathContext)
    (row : FlowQuotaDataItem) : option PreparedFlowPath :=
  p ← applyTopNodeLimit (flowPathForStages row stages ctx) top (default Aggregate (overflowMode options)) (otherNodeLabel options);
  Some (mkPrepared p (rowMetrics row)).

Definition prepare_paths (rows : list FlowQuotaDataItem) (metric : FlowMetric) (stages : list FlowNodeKind) (ctx : FlowPathContext)
    (options : FlowGraphOptions) : list PreparedFlowPath :=
  let top := buildTopNodeSets rows metric stages (normalizeTopNodeLimit (topNodeLimit options)) ctx in
  omap (prepare_path top options stages ctx) rows.

Definition first_id (p : PreparedFlowPath) : option (list N) := pn_id <$> head (path p).

Definition node_items (colors : list (list N * list N)) (palette : list (list N)) (p : PreparedFlowPath) : list NodeItem :=
  match head (path p) with
  | None => []
  | Some root => map (fun n => mkNodeItem n (metrics p) (color_of colors palette (pn_id root)) (pn_id root)) (path p)
  end.

Definition link_items (colors : list (list N * list N)) (palette : list (list N)) (p : PreparedFlowPath) : list LinkItem :=
  match head (path p) with
  | None => []
  | Some root => map (fun e => mkLinkItem e.1 e.2 (metrics p) (color_of colors palette (pn_id root)) (pn_id root)) (path_links (path p))
  end.

(** The nodes and links of a path, added one after the other. *)
Definition add_path (metric : FlowMetric) (colors : list (list N * list N)) (palette : list (list N)) (g : DashboardFlowGraph)
    (p : PreparedFlowPath) : DashboardFlowGraph :=
  mkGraph (fold_left (fun nodes i => addNode metric i nodes) (node_items colors palette p) (g_nodes g))
    (fold_left (fun links i => addLink metric i links) (link_items colors palette p) (g_links g)).

Definition by_source_then_target (a b : DashboardFlowLink) : Z :=
  compare_or (localeCompare (l_source a) (l_source b)) (localeCompare (l_target a) (l_target b)).

Definition set_share (total : spec_float) (l : DashboardFlowLink) : DashboardFlowLink :=
  mkLink (l_source l) (l_target l) (l_value l) (l_metrics l) (l_sourceLabel l) (l_targetLabel l) (l_color l) (l_linkColor l) (l_linkAlpha l)
    (l_hoverColor l) (l_colorKey l) (if num_ltb num_zero total then num_div (l_value l) total else num_zero) (l_highlighted l) (l_dimmed l).

Definition first_step_total (sources : list (list N)) (links : list DashboardFlowLink) : spec_float :=
  fold_left (fun sum l => num_add sum (l_value l)) (filter (fun l => l_source l ∈ sources) links) num_zero.

Definition buildFlowGraph (rows : list FlowQuotaDataItem) (metric : FlowMetric) (role : FlowRole) (palette : list (list N))
    (visibleStages : option (list FlowNodeKind)) (ctx : FlowPathContext) (options : FlowGraphOptions) : DashboardFlowGraph :=
  let stages := resolveVisibleStages role visibleStages in
  let preparedPaths := prepare_paths rows metric stages ctx options in
  let colors := stableColorMap (sort_by localeCompare (omap first_id preparedPaths)) palette in
  let built := fold_left (add_path metric colors palette) preparedPaths (mkGraph [] []) in
  let labelled := if maskSensitive options then maskFlowGraphLabels built else built in
  let marked := applyFlowHighlights (buildFlowHighlightSets preparedPaths (activeNode options) (activeLink options) stages) labelled in
  let flowLinks := sort_by by_source_then_target (g_links marked) in
  let firstStepSources := set_values (omap first_id preparedPaths) in
  let total := first_step_total firstStepSources flowLinks in
  mkGraph (sort_by byValueThenLabel (g_nodes marked)) (assignLinkDisplayColors (map (set_share total) flowLinks)).

(** ** Options of the filters *)

Record FlowUserFilterOption := mkUserOption { uo_value : list N; uo_label : list N; uo_valueLabel : list N; uo_valueRaw : spec_float; uo_color : list N }.

Record FlowNodeFilterOption := mkNodeOption {
  no_kind : FlowNodeKind; no_value : list N; no_label : list N; no_valueLabel : list N; no_valueRaw : spec_float; no_color : list N }.

Definition num_falsy_id (n : option spec_float) : bool := match n with Some x => negb (num_truthy x) | None => true end.
Definition text_falsy (t : option (list N)) : bool := match t with Some (_ :: _) => false | _ => true end.

Definition user_rank (metric : FlowMetric) (row : FlowQuotaDataItem) : FlowNodeRank := mkRank (userNode row) (metricValue (rowMetrics row) metric).

Definition buildUserFilterOptions (rows : list FlowQuotaDataItem) (metric : FlowMetric) (palette : list (list N)) : list FlowUserFilterOption :=
  let colors := stableColorMap (sort_by localeCompare (map (fun row => pn_id (userNode row)) rows)) palette in
  let known := filter (fun row => num_falsy_id (row_user_id row) && text_falsy (row_username row) = false) rows in
  let users := group_rows rank_key rank_key new_rank grow_rank (map (user_rank metric) known) in
  sort_by (fun a b => difference_or (num_sub (uo_valueRaw b) (uo_valueRaw a)) (localeCompare (uo_label a) (uo_label b)))
    (map (fun u => mkUserOption (rank_key u) (pn_label (rank_node u)) (formatNumber (rank_value u)) (rank_value u) (color_of colors palette (rank_key u)))
       users).

Definition nodeFilterKey (r : FlowNodeRank) : list N := kind_text (pn_kind (rank_node r)) ++ [0%N] ++ pn_id (rank_node r).

Definition stage_rank (metric : FlowMetric) (ctx : FlowPathContext) (stage : FlowNodeKind) (row : FlowQuotaDataItem) : FlowNodeRank :=
  mkRank (NODE_BUILDERS stage row ctx) (metricValue (rowMetrics row) metric).

(** The options of one column, counted on the rows the filters of the other columns leave. *)
Definition stage_options (rows : list FlowQuotaDataItem) (metric : FlowMetric) (stages : list FlowNodeKind) (colors : list (list N * list N))
    (palette : list (list N)) (ctx : FlowPathContext) (selectedNodes : list FlowNodeFilter) (stage : FlowNodeKind) : list FlowNodeFilterOption :=
  let candidateRows := filterRowsByNodes rows (selectedNodeFiltersExceptKind selectedNodes stage) stages ctx in
  let totals := group_rows nodeFilterKey nodeFilterKey new_rank grow_rank (map (stage_rank metric ctx stage) candidateRows) in
  map (fun r => mkNodeOption (pn_kind (rank_node r)) (rank_key r) (pn_label (rank_node r)) (formatNumber (rank_value r)) (rank_value r)
                  (color_of colors palette (rank_key r))) totals.

Definition stage_index (stages : list FlowNodeKind) (k : FlowNodeKind) : Z :=
  match list_find (fun s => s = k) stages with Some (i, _) => Z.of_nat i | None => 0 end.

Definition by_option (stages : list FlowNodeKind) (a b : FlowNodeFilterOption) : Z :=
  compare_or (stage_index stages (no_kind a) - stage_index stages (no_kind b))
    (difference_or (num_sub (no_valueRaw b) (no_valueRaw a))
      (compare_or (localeCompare (no_label a) (no_label b)) (localeCompare (no_value a) (no_value b)))).

Definition buildNodeFilterOptions (rows : list FlowQuotaDataItem) (metric : FlowMetric) (role : FlowRole) (visibleStages : option (list FlowNodeKind))
    (palette : list (list N)) (ctx : FlowPathContext) (selectedNodes : list FlowNodeFilter) : list FlowNodeFilterOption :=
  let stages := resolveVisibleStages role visibleStages in
  let colorIds := set_values (flat_map (fun row => map pn_id (flowPathForStages row stages ctx)) rows) in
  let colors := stableColorMap (sort_by localeCompare colorIds) palette in
  sort_by (by_option stages) (flat_map (stage_options rows metric stages colors palette ctx selectedNodes) stages).

Record FlowFilterOptions := mkFilterOptions { fo_users : list FlowUserFilterOption; fo_nodes : list FlowNodeFilterOption }.

Definition buildFlowFilterOptions (rows : list FlowQuotaDataItem) (metric : FlowMetric) (palette : list (list N)) (role : FlowRole)
    (visibleStages : option (list FlowNodeKind)) (selectedNodes : list FlowNodeFilter) : FlowFilterOptions :=
  mkFilterOptions (buildUserFilterOptions rows metric palette)
    (buildNodeFilterOptions rows metric role visibleStages palette None selectedNodes).

Record FlowBuildOptions := mkBuildOptions {
  bo_role : option FlowRole;
  bo_selectedUsers : list (list N);
  bo_selectedNodes : list FlowNodeFilter;
  bo_colorPalette : list (list N);
  bo_visibleStages : option (list FlowNodeKind);
  bo_deletedTokenLabel : FlowPathContext;
  bo_graph : FlowGraphOptions }.

Record ProcessedFlowData := mkProcessed { summary : FlowMetrics; flow : DashboardFlowGraph; filterOptions : FlowFilterOptions }.

Definition buildDashboardFlowData (rows : list FlowQuotaDataItem) (metric : FlowMetric) (options : FlowBuildOptions) : ProcessedFlowData :=
  let role := default RoleUser (bo_role options) in
  let palette := bo_colorPalette options in
  let ctx := bo_deletedTokenLabel options in
  let stages := resolveVisibleStages role (bo_visibleStages options) in
  let userFilteredRows := filterRows rows (bo_selectedUsers options) in
  let filteredRows := filterRowsByNodes userFilteredRows (bo_selectedNodes options) stages ctx in
  mkProcessed (buildSummary filteredRows)
    (buildFlowGraph filteredRows metric role palette (bo_visibleStages options) ctx (bo_graph options))
    (mkFilterOptions (buildUserFilterOptions rows metric palette)
       (buildNodeFilterOptions userFilteredRows metric role (bo_visibleStages options) palette ctx (bo_selectedNodes options))).

End Flow.
