(* ===== verification/FlowConserved.v ===== *)
(** * The flow graph neither loses nor invents usage

    What the later passes (names, highlights, order, shares, colours) do to the nodes and
    links that [add_path] collects, and the sums: as long as the counts are integers a
    double holds exactly, what flows into a node flows out of it, and every column adds up
    to the summary. *)
From S2P Require Import Prelude JsString JsNumber JsCollections StatusGroups JsExact Flow.
From Stdlib Require Import Lia.

(** ** Sums over groups *)

Lemma filter_every {A} (P : A -> Prop) `{forall x, Decision (P x)} l : Forall P l -> filter P l = l.
Proof. induction 1 as [|x l Hx _ IH]; [done|]. by rewrite filter_cons_True, IH. Qed.

Section GroupSums.
Context {A R K : Type} `{EqDecision K} (key : A -> K) (row_key : R -> K) (new_row : A -> R) (add : A -> R -> R).
Context (weight : A -> spec_float) (value : R -> spec_float).
Context (add_key : forall a r, row_key (add a r) = row_key r) (new_key : forall a, row_key (new_row a) = key a).
Context (add_value : forall a r, value (add a r) = num_add (value r) (weight a)) (new_value : forall a, value (new_row a) = num_zero).

Definition counts (rows : list R) : Prop := Forall (fun r => is_count (value r)) rows.

(** The sum over the rows whose key passes a test. *)
Definition sum_at (P : K -> bool) (rows : list R) : Z := sum_counts value (filter (fun r => P (row_key r) = true) rows).
Definition items_at (P : K -> bool) (l : list A) : Z := sum_counts weight (filter (fun a => P (key a) = true) l).

Lemma sum_at_cons P r rows : sum_at P (r :: rows) = ((if P (row_key r) then count_of (value r) else 0) + sum_at P rows)%Z.
Proof. unfold sum_at. rewrite filter_cons. destruct (P (row_key r)); [by rewrite decide_True|rewrite decide_False by done; lia]. Qed.

Lemma items_at_app P l k : items_at P (l ++ k) = (items_at P l + items_at P k)%Z.
Proof. unfold items_at. by rewrite filter_app, sum_counts_app. Qed.

Lemma items_at_nonneg P l : Forall (fun a => is_count (weight a)) l -> (0 <= items_at P l)%Z.
Proof. intros Hl. apply sum_counts_nonneg. apply Forall_forall. intros a [_ Ha]%list_elem_of_filter. by rewrite Forall_forall in Hl; apply Hl. Qed.

Lemma sum_at_elem P r rows : counts rows -> r ∈ rows -> P (row_key r) = true -> (count_of (value r) <= sum_at P rows)%Z.
Proof.
  intros Hc. induction Hc as [|x rows [Hx _] Hc IH]; [by intros []%not_elem_of_nil|]. rewrite sum_at_cons.
  assert (0 <= sum_at P rows)%Z as H0.
  { apply sum_counts_nonneg. apply Forall_forall. intros y [_ Hy]%list_elem_of_filter. unfold counts in Hc. by rewrite Forall_forall in Hc; apply Hc. }
  intros [->|Hr]%elem_of_cons HP; [rewrite HP; lia|]. specialize (IH Hr HP). destruct (P (row_key x)); lia.
Qed.

Lemma group_place_sums a rows :
  counts rows -> is_count (weight a) -> (count_of (weight a) < MAX_SAFE)%Z ->
  (forall r, r ∈ rows -> row_key r = key a -> (count_of (value r) + count_of (weight a) < MAX_SAFE)%Z) ->
  counts (group_place key row_key new_row add a rows) /\
  forall P, sum_at P (group_place key row_key new_row add a rows) = (sum_at P rows + if P (key a) then count_of (weight a) else 0)%Z.
Proof.
  intros Hc Hw Hb. induction Hc as [|r rows Hr Hc IH]; intros Hs; cbn [group_place].
  - destruct (is_count_add num_zero (weight a)) as [H1 H2]; [apply is_count_zero|done|done|]. split.
    + repeat constructor; rewrite add_value, new_value; apply H1.
    + intros P. rewrite sum_at_cons, add_key, new_key, add_value, new_value, H2. unfold sum_at. destruct (P (key a)); cbn; lia.
  - case_bool_decide as E.
    + destruct (is_count_add (value r) (weight a)) as [H1 H2]; [done|done|apply Hs; [left|done]|]. split.
      * constructor; [by rewrite add_value|done].
      * intros P. rewrite !sum_at_cons, add_key, add_value, H2, <- E. destruct (P (row_key r)); lia.
    + destruct IH as [IH1 IH2]; [intros x Hx; apply Hs; by right|]. split; [by constructor|]. intros P. rewrite !sum_at_cons, IH2. lia.
Qed.

(** Grouping keeps the sum of every set of keys, if no group exceeds the bound. *)
Lemma group_rows_sums l :
  Forall (fun a => is_count (weight a)) l -> (forall k, (items_at (fun x => bool_decide (x = k)) l < MAX_SAFE)%Z) ->
  counts (group_rows key row_key new_row add l) /\ forall P, sum_at P (group_rows key row_key new_row add l) = items_at P l.
Proof.
  intros Hl. induction l as [|a l IH] using rev_ind; [by split; [constructor|]|]. apply Forall_app in Hl as [Hl Ha]. rewrite Forall_singleton in Ha.
  assert (forall P, items_at P [a] = if P (key a) then count_of (weight a) else 0%Z) as Hone.
  { intros P. unfold items_at. rewrite filter_cons. destruct (P (key a)); [rewrite decide_True by done; cbn; lia|by rewrite decide_False by done]. }
  intros Hs. pose proof Ha as [Ha0 _]. destruct (IH Hl) as [IH1 IH2].
  { intros k. specialize (Hs k). rewrite items_at_app, Hone in Hs. destruct (bool_decide (key a = k)); lia. }
  unfold group_rows in *. rewrite fold_left_app. cbn [fold_left]. set (rows := fold_left _ l []) in *.
  assert (items_at (fun x => bool_decide (x = key a)) l + count_of (weight a) < MAX_SAFE)%Z as Hk.
  { specialize (Hs (key a)). by rewrite items_at_app, Hone, bool_decide_eq_true_2 in Hs. }
  destruct (group_place_sums a rows) as [H1 H2]; [done|done| | |].
  - pose proof (items_at_nonneg (fun x => bool_decide (x = key a)) l Hl). lia.
  - intros r Hr Hkey. pose proof (sum_at_elem (fun x => bool_decide (x = key a)) r rows IH1 Hr) as Hle. rewrite IH2 in Hle.
    specialize (Hle ltac:(by apply bool_decide_eq_true_2)). lia.
  - split; [done|]. intros P. by rewrite H2, IH2, items_at_app, Hone.
Qed.

(** With distinct keys, the sum at the key of a row is that row. *)
Lemma sum_at_key r rows : NoDup (map row_key rows) -> r ∈ rows -> sum_at (fun x => bool_decide (x = row_key r)) rows = count_of (value r).
Proof.
  induction rows as [|x rows IH]; [by intros _ []%not_elem_of_nil|]. cbn [map]. intros [Hx Hn]%NoDup_cons Hr. rewrite sum_at_cons.
  apply elem_of_cons in Hr as [->|Hr].
  - rewrite bool_decide_eq_true_2 by done. unfold sum_at. rewrite filter_none; [cbn; lia|]. apply Forall_forall. intros y Hy He.
    apply bool_decide_eq_true in He. apply Hx. rewrite <- He. by apply list_elem_of_fmap_2.
  - rewrite bool_decide_eq_false_2; [by rewrite IH|]. intros He. apply Hx. rewrite He. by apply list_elem_of_fmap_2.
Qed.

Lemma group_rows_NoDup l : NoDup (map row_key (group_rows key row_key new_row add l)).
Proof. destruct (group_rows_spec key row_key new_row add add_key new_key l) as [-> _]. apply set_values_NoDup. Qed.

(** What [add] does not touch is that of the first element of the group. *)
Lemma add_all_field {B} (field : R -> B) l r : (forall a x, field (add a x) = field x) -> field (add_all add l r) = field r.
Proof. intros Hf. revert r. induction l as [|a l IH]; intros r; [done|]. unfold add_all in *. cbn [fold_left]. by rewrite IH. Qed.

Lemma group_rows_elem {B} (field : R -> B) (of_item : A -> B) l r :
  (forall a x, field (add a x) = field x) -> (forall a, field (new_row a) = of_item a) -> r ∈ group_rows key row_key new_row add l ->
  exists a, a ∈ l /\ field r = of_item a /\ row_key r = key a.
Proof.
  intros Hf Hn Hr. destruct (group_rows_spec key row_key new_row add add_key new_key l) as [_ Hspec].
  destruct (Hspec r Hr) as (a & rest & Hfilter & Hre). exists a.
  assert (a ∈ filter (fun x => key x = row_key r) l) as [Hk Ha]%list_elem_of_filter by (rewrite Hfilter; left). split; [done|].
  split; [|done]. rewrite Hre, add_all_field by done. apply Hn.
Qed.

End GroupSums.

(** ** The passes over the collected graph *)

Definition node_core (n : DashboardFlowNode) : list N * FlowNodeKind * spec_float := (n_id n, n_kind n, n_value n).
Definition link_core (l : DashboardFlowLink) : list N * list N * spec_float := (l_source l, l_target l, l_value l).

Section Passes.
Context (localeCompare : list N -> list N -> Z) (getDashboardChartColors : nat -> list (list N)).
Context (metric : FlowMetric) (palette : list (list N)).

Definition path_colors (paths : list PreparedFlowPath) : list (list N * list N) :=
  stableColorMap getDashboardChartColors (sort_by localeCompare (omap first_id paths)) palette.

Definition all_node_items (paths : list PreparedFlowPath) : list NodeItem :=
  flat_map (node_items getDashboardChartColors (path_colors paths) palette) paths.
Definition all_link_items (paths : list PreparedFlowPath) : list LinkItem :=
  flat_map (link_items getDashboardChartColors (path_colors paths) palette) paths.

Definition collected_nodes (paths : list PreparedFlowPath) : list DashboardFlowNode :=
  group_rows ni_id n_id new_node (grow_node metric) (all_node_items paths).
Definition collected_links (paths : list PreparedFlowPath) : list DashboardFlowLink :=
  group_rows li_key linkStableKey new_link (grow_link metric) (all_link_items paths).

Lemma add_paths_collect colors paths :
  fold_left (add_path getDashboardChartColors metric colors palette) paths (mkGraph [] []) =
  mkGraph (group_rows ni_id n_id new_node (grow_node metric) (flat_map (node_items getDashboardChartColors colors palette) paths))
    (group_rows li_key linkStableKey new_link (grow_link metric) (flat_map (link_items getDashboardChartColors colors palette) paths)).
Proof.
  induction paths as [|p paths IH] using rev_ind; [done|]. rewrite fold_left_app, IH, !flat_map_app. unfold group_rows. rewrite !fold_left_app.
  cbn [fold_left flat_map]. by rewrite !app_nil_r.
Qed.

Lemma mask_core g : map node_core (g_nodes (maskFlowGraphLabels g)) = map node_core (g_nodes g) /\
  map link_core (g_links (maskFlowGraphLabels g)) = map link_core (g_links g).
Proof.
  unfold maskFlowGraphLabels. cbn [g_nodes g_links]. rewrite !map_map. split; apply map_ext; [|done]. intros n. by destruct (is_masked n).
Qed.

Lemma highlight_core h g : map node_core (g_nodes (applyFlowHighlights h g)) = map node_core (g_nodes g) /\
  map link_core (g_links (applyFlowHighlights h g)) = map link_core (g_links g).
Proof. destruct h; [|done]. cbn [applyFlowHighlights g_nodes g_links]. rewrite !map_map. by split; apply map_ext. Qed.

Lemma assign_color_core links l : link_core (assign_color localeCompare links l) = link_core l.
Proof. unfold assign_color. by destruct (list_find _ _) as [[]|]. Qed.

Definition share_of (total value : spec_float) : spec_float := if num_ltb num_zero total then num_div value total else num_zero.

(** Up to their order, the nodes and links shown are those collected; shares are of the total
    of the first column. *)
Lemma graph_core rows role visibleStages ctx options :
  let g := buildFlowGraph localeCompare getDashboardChartColors rows metric role palette visibleStages ctx options in
  let paths := prepare_paths localeCompare rows metric (resolveVisibleStages role visibleStages) ctx options in
  map node_core (g_nodes g) ≡ₚ map node_core (collected_nodes paths) /\ map link_core (g_links g) ≡ₚ map link_core (collected_links paths) /\
  exists flowLinks, map link_core flowLinks ≡ₚ map link_core (collected_links paths) /\
    forall l, l ∈ g_links g -> l_share l = share_of (first_step_total (set_values (omap first_id paths)) flowLinks) (l_value l).
Proof.
  cbv zeta. unfold buildFlowGraph. set (paths := prepare_paths _ _ _ _ _ _). rewrite add_paths_collect. fold (path_colors paths).
  fold (all_node_items paths) (all_link_items paths). fold (collected_nodes paths) (collected_links paths).
  set (built := mkGraph (collected_nodes paths) (collected_links paths)).
  set (labelled := if maskSensitive options then maskFlowGraphLabels built else built).
  assert (map node_core (g_nodes labelled) = map node_core (g_nodes built) /\ map link_core (g_links labelled) = map link_core (g_links built)) as [Hn Hl].
  { unfold labelled. destruct (maskSensitive options); [apply mask_core|done]. }
  set (marked := applyFlowHighlights _ labelled).
  assert (map node_core (g_nodes marked) = map node_core (g_nodes labelled) /\ map link_core (g_links marked) = map link_core (g_links labelled))
    as [Hn2 Hl2] by apply highlight_core.
  cbn [g_nodes g_links]. assert (map link_core (sort_by (by_source_then_target localeCompare) (g_links marked)) ≡ₚ map link_core (collected_links paths)) as Hs
    by (by rewrite sort_by_perm, Hl2, Hl). split_and!.
  - rewrite sort_by_perm, Hn2, Hn. done.
  - unfold assignLinkDisplayColors. rewrite !map_map. rewrite (map_ext _ link_core); [done|]. intros l. by rewrite assign_color_core.
  - eexists. split; [exact Hs|]. intros l (l1 & -> & (l2 & -> & Hin)%list_elem_of_fmap)%list_elem_of_fmap.
    unfold assign_color. by destruct (list_find _ _) as [[]|].
Qed.

End Passes.

(** ** Paths *)

(** The id of a node begins with its kind. *)
Definition kinded (n : FlowPathNode) : Prop := exists name, pn_id n = kind_text (pn_kind n) ++ js ":" ++ name.

Lemma kind_text_inj k k' a b : kind_text k ++ js ":" ++ a = kind_text k' ++ js ":" ++ b -> k = k'.
Proof. by destruct k, k'. Qed.

Lemma kinded_inj n n' : kinded n -> kinded n' -> pn_id n = pn_id n' -> pn_kind n = pn_kind n'.
Proof. intros [a Ha] [b Hb] H. rewrite Ha, Hb in H. by eapply kind_text_inj. Qed.

Lemma builder_kinded k row ctx : kinded (NODE_BUILDERS k row ctx) /\ pn_kind (NODE_BUILDERS k row ctx) = k.
Proof. split; [|by destruct k]. destruct k; by eexists. Qed.

(** What [applyTopNodeLimit] may do to a node. *)
Definition limited (labeler : option (FlowNodeKind -> list N)) (n n' : FlowPathNode) : Prop := n' = n \/ n' = otherFlowNode (pn_kind n) labeler.

Lemma apply_limit_path q top mode labeler q' : applyTopNodeLimit q top mode labeler = Some q' -> Forall2 (limited labeler) q q'.
Proof.
  assert (Forall2 (limited labeler) q q) as Hq by (induction q; constructor; [by left|done]).
  unfold applyTopNodeLimit. destruct top as [sets|]; [|by intros [= <-]]. destruct (negb _); [by intros [= <-]|]. destruct mode; [|done].
  intros [= <-]. clear Hq. induction q as [|n q IH]; cbn [map]; constructor; [|done].
  destruct (isTopFlowNode n (Some sets)) eqn:E; unfold isTopFlowNode in E; rewrite E; [by left|by right].
Qed.

Lemma other_kinded k labeler : kinded (otherFlowNode k labeler) /\ pn_kind (otherFlowNode k labeler) = k.
Proof. split; [|done]. by eexists. Qed.

Definition nul_free (n : FlowPathNode) : Prop := 0%N ∉ pn_id n.

Lemma other_nul_free k labeler : nul_free (otherFlowNode k labeler).
Proof. unfold nul_free. destruct k; apply (bool_decide_unpack _); vm_compute; exact I. Qed.

(** A path is in order: one node for each column, with its prefix and no NUL. *)
Record path_ok (stages : list FlowNodeKind) (p : PreparedFlowPath) : Prop := mkPathOk {
  ok_kinds : map pn_kind (path p) = stages;
  ok_kinded : Forall kinded (path p);
  ok_nul_free : Forall nul_free (path p) }.

Lemma limited_ok labeler n n' : limited labeler n n' -> kinded n -> nul_free n -> kinded n' /\ nul_free n' /\ pn_kind n' = pn_kind n.
Proof. intros [->| ->] Hk Hn; [done|]. split; [apply other_kinded|]. by split; [apply other_nul_free|]. Qed.

Lemma prepare_path_ok top options stages ctx row p :
  Forall nul_free (flowPathForStages row stages ctx) -> prepare_path top options stages ctx row = Some p ->
  path_ok stages p /\ metrics p = rowMetrics row.
Proof.
  intros Hn. unfold prepare_path. destruct (applyTopNodeLimit _ _ _ _) as [q|] eqn:E; [|done]. cbn. intros [= <-]. split; [|done].
  apply apply_limit_path in E. unfold flowPathForStages in *.
  assert (map pn_kind q = stages /\ Forall kinded q /\ Forall nul_free q) as (H1 & H2 & H3); [|done].
  revert q E Hn. induction stages as [|k stages IH]; cbn [map]; intros q Hq Hn; [apply Forall2_nil_inv_l in Hq as ->; by repeat constructor|].
  apply Forall2_cons_inv_l in Hq as (n' & q' & Hl & Hq & ->). apply Forall_cons in Hn as [Hn0 Hn].
  destruct (IH _ Hq Hn) as (H1 & H2 & H3). destruct (builder_kinded k row ctx) as [Hb1 Hb2].
  destruct (limited_ok _ _ _ Hl Hb1 Hn0) as (G1 & G2 & G3). cbn [map]. split_and!; [congruence|by constructor|by constructor].
Qed.

Lemma stages_NoDup role visible : NoDup (resolveVisibleStages role visible).
Proof.
  assert (NoDup (getFlowStages role)) as H by (destruct role; apply (bool_decide_unpack _); vm_compute; exact I).
  unfold resolveVisibleStages. destruct visible as [v|]; [|done]. destruct (_ <=? _); [by apply NoDup_filter|done].
Qed.

Lemma path_ids_NoDup stages p : NoDup stages -> path_ok stages p -> NoDup (map pn_id (path p)).
Proof.
  intros Hs [H1 H2 _]. subst stages. induction H2 as [|n q Hn Hq IH]; [constructor|]. cbn [map] in *. apply NoDup_cons in Hs as [Hs1 Hs2].
  constructor; [|by apply IH]. intros (n' & He & Hin)%list_elem_of_fmap. apply Hs1. rewrite Forall_forall in Hq.
  rewrite (kinded_inj n n' Hn (Hq _ Hin) He). by apply list_elem_of_fmap_2.
Qed.

(** ** Hits of an id on a path *)

Definition hits (id : list N) (q : list FlowPathNode) : Z := Z.of_nat (length (filter (fun n => pn_id n = id) q)).

Lemma hits_nodup id q : NoDup (map pn_id q) -> (0 <= hits id q <= 1)%Z.
Proof.
  unfold hits. induction q as [|n q IH]; cbn [map]; [done|]. intros [Hn Hq]%NoDup_cons. specialize (IH Hq). rewrite filter_cons. destruct (decide _) as [<-|]; [|done].
  assert (filter (fun x => pn_id x = pn_id n) q = []) as ->; [|done]. apply filter_none. apply Forall_forall. intros x Hx He. apply Hn. rewrite <- He.
  by apply list_elem_of_fmap_2.
Qed.

Lemma path_links_targets q : map snd (path_links q) = tail q.
Proof. induction q as [|a q IH]; [done|]. destruct q as [|b q]; [done|]. cbn [path_links map tail] in *. by rewrite IH. Qed.

Lemma path_links_sources q : map fst (path_links q) = removelast q.
Proof. induction q as [|a q IH]; [done|]. destruct q as [|b q]; [done|]. cbn [path_links map] in *. by rewrite IH. Qed.

Lemma filter_map_length {A B} (f : A -> B) (P : B -> Prop) `{forall x, Decision (P x)} l :
  length (filter P (map f l)) = length (filter (fun a => P (f a)) l).
Proof. induction l as [|a l IH]; [done|]. cbn [map]. rewrite !filter_cons. destruct (decide (P (f a))); cbn [length]; by rewrite IH. Qed.

(** The sum over items of equal weight. *)
Lemma items_at_const {A B K} (key : A -> K) (weight : A -> spec_float) (P : K -> bool) (mk : B -> A) w l :
  (forall b, weight (mk b) = w) ->
  items_at key weight P (map mk l) = (count_of w * Z.of_nat (length (filter (fun b => P (key (mk b)) = true) l)))%Z.
Proof.
  intros Hw. unfold items_at. induction l as [|b l IH]; [cbn; lia|]. cbn [map]. rewrite !filter_cons.
  destruct (decide (P (key (mk b)) = true)); [|done]. rewrite sum_counts_cons, IH, Hw. cbn [length]. lia.
Qed.

(** ** The ends of a link, from its key *)

Definition key_source (key : list N) : list N := (span (fun c => negb (c =? 0)%N) key).1.
Definition key_target (key : list N) : list N := tail (span (fun c => negb (c =? 0)%N) key).2.

Lemma span_key s t : 0%N ∉ s -> span (fun c => negb (c =? 0)%N) (s ++ [0%N] ++ t) = (s, 0%N :: t).
Proof.
  induction s as [|c s IH]; [done|]. intros [Hc Hs]%not_elem_of_cons. cbn [app span]. rewrite (proj2 (N.eqb_neq c 0)) by done. cbn [negb].
  cbn [app] in IH. by rewrite (IH Hs).
Qed.

Lemma key_source_app s t : 0%N ∉ s -> key_source (s ++ [0%N] ++ t) = s.
Proof. intros H. unfold key_source. by rewrite span_key. Qed.

Lemma key_target_app s t : 0%N ∉ s -> key_target (s ++ [0%N] ++ t) = t.
Proof. intros H. unfold key_target. by rewrite span_key. Qed.

Lemma filter_ext_in {A} (P Q : A -> Prop) `{forall x, Decision (P x)} `{forall x, Decision (Q x)} (l : list A) :
  (forall x, x ∈ l -> P x <-> Q x) -> filter P l = filter Q l.
Proof.
  induction l as [|x l IH]; [done|]. intros Hx. rewrite !filter_cons. rewrite IH by (intros y Hy; apply Hx; by right).
  destruct (Hx x ltac:(left)) as [H1 H2]. destruct (decide (P x)), (decide (Q x)); naive_solver.
Qed.

Lemma list_filter_length_le {A} (P Q : A -> Prop) `{forall x, Decision (P x)} `{forall x, Decision (Q x)} (l : list A) :
  (forall x, x ∈ l -> P x -> Q x) -> length (filter P l) <= length (filter Q l).
Proof.
  induction l as [|x l IH]; [done|]. intros Hx. rewrite !filter_cons. specialize (IH (fun y Hy => Hx y ltac:(by right))).
  specialize (Hx x ltac:(left)). destruct (decide (P x)), (decide (Q x)); cbn [length]; (lia || naive_solver).
Qed.

Lemma path_links_elem q e : e ∈ path_links q -> e.1 ∈ q /\ e.2 ∈ q.
Proof.
  intros He. split.
  - assert (e.1 ∈ removelast q) as H by (rewrite <- path_links_sources; by apply list_elem_of_fmap_2).
    destruct q as [|a q]; [by apply not_elem_of_nil in H|]. rewrite (app_removelast_last a (l := a :: q)) by done. apply elem_of_app. by left.
  - assert (e.2 ∈ tail q) as H by (rewrite <- path_links_targets; by apply list_elem_of_fmap_2). destruct q; [done|by right].
Qed.

Section Sums.
Context (localeCompare : list N -> list N -> Z) (getDashboardChartColors : nat -> list (list N)).
Context (metric : FlowMetric) (palette : list (list N)).

Definition path_amount (p : PreparedFlowPath) : spec_float := metricValue (metrics p) metric.
Definition node_weight (i : NodeItem) : spec_float := metricValue (ni_metrics i) metric.
Definition link_weight (i : LinkItem) : spec_float := metricValue (li_metrics i) metric.

Notation node_items := (node_items getDashboardChartColors).
Notation link_items := (link_items getDashboardChartColors).

Lemma node_items_test colors p (P : list N -> bool) :
  items_at ni_id node_weight P (node_items colors palette p) =
  (count_of (path_amount p) * Z.of_nat (length (filter (fun n => P (pn_id n) = true) (path p))))%Z.
Proof.
  unfold Flow.node_items. destruct (path p) as [|n q] eqn:E; [by rewrite Z.mul_0_r|]. cbn [head]. by rewrite (items_at_const _ _ _ _ (path_amount p)).
Qed.

Lemma node_items_hits colors p id :
  items_at ni_id node_weight (fun k => bool_decide (k = id)) (node_items colors palette p) = (count_of (path_amount p) * hits id (path p))%Z.
Proof.
  rewrite node_items_test. unfold hits. f_equal. f_equal. f_equal. apply filter_ext_in. intros x _. apply bool_decide_eq_true.
Qed.

Lemma link_items_test colors p (P : list N -> bool) (Q : FlowPathNode -> Prop) `{forall n, Decision (Q n)}
    (node_of : FlowPathNode * FlowPathNode -> FlowPathNode) :
  (forall e, e ∈ path_links (path p) -> P (pathLinkKey e.1 e.2) = true <-> Q (node_of e)) ->
  items_at li_key link_weight P (link_items colors palette p) =
  (count_of (path_amount p) * Z.of_nat (length (filter Q (map node_of (path_links (path p))))))%Z.
Proof.
  intros He. unfold Flow.link_items. destruct (path p) as [|n q] eqn:E; [by rewrite Z.mul_0_r|]. cbn [head]. rewrite (items_at_const _ _ _ _ (path_amount p)) by done.
  rewrite filter_map_length. f_equal. f_equal. f_equal. apply filter_ext_in. intros e Hin. unfold li_key. cbn [li_source li_target]. by apply He.
Qed.

Lemma link_items_target colors p id : Forall nul_free (path p) ->
  items_at li_key link_weight (fun k => bool_decide (key_target k = id)) (link_items colors palette p) = (count_of (path_amount p) * hits id (tail (path p)))%Z.
Proof.
  intros Hn. rewrite Forall_forall in Hn. rewrite <- path_links_targets. apply link_items_test. intros e He. unfold pathLinkKey.
  rewrite key_target_app by (by apply Hn, path_links_elem). apply bool_decide_eq_true.
Qed.

(** The links that leave a set of nodes. *)
Lemma link_items_sources colors p (ids : list (list N)) : Forall nul_free (path p) ->
  items_at li_key link_weight (fun k => bool_decide (key_source k ∈ ids)) (link_items colors palette p) =
  (count_of (path_amount p) * Z.of_nat (length (filter (fun n => pn_id n ∈ ids) (removelast (path p)))))%Z.
Proof.
  intros Hn. rewrite Forall_forall in Hn. rewrite <- path_links_sources. apply link_items_test. intros e He. unfold pathLinkKey.
  rewrite key_source_app by (by apply Hn, path_links_elem). apply bool_decide_eq_true.
Qed.

Lemma link_items_source colors p id : Forall nul_free (path p) ->
  items_at li_key link_weight (fun k => bool_decide (key_source k = id)) (link_items colors palette p) = (count_of (path_amount p) * hits id (removelast (path p)))%Z.
Proof.
  intros Hn. rewrite Forall_forall in Hn. rewrite <- path_links_sources. apply link_items_test. intros e He. unfold pathLinkKey.
  rewrite key_source_app by (by apply Hn, path_links_elem). apply bool_decide_eq_true.
Qed.

(** The sum of the paths, each counted as often as [h] says. *)
Definition weigh (h : PreparedFlowPath -> Z) (paths : list PreparedFlowPath) : Z := foldr (fun p n => count_of (path_amount p) * h p + n)%Z 0%Z paths.

Lemma items_at_flat {A K} (key : A -> K) (weight : A -> spec_float) P (f : PreparedFlowPath -> list A) h paths :
  (forall p, p ∈ paths -> items_at key weight P (f p) = (count_of (path_amount p) * h p)%Z) ->
  items_at key weight P (flat_map f paths) = weigh h paths.
Proof.
  induction paths as [|p paths IH]; [done|]. intros Hp. cbn [flat_map weigh foldr]. rewrite items_at_app, Hp by left. f_equal. apply IH. intros q Hq.
  apply Hp. by right.
Qed.

Lemma weigh_ext h h' paths : (forall p, p ∈ paths -> h p = h' p) -> weigh h paths = weigh h' paths.
Proof. induction paths as [|p paths IH]; [done|]. intros H. cbn [weigh foldr]. rewrite H by left. f_equal. apply IH. intros q Hq. apply H. by right. Qed.

Lemma weigh_le h paths : Forall (fun p => is_count (path_amount p)) paths -> (forall p, p ∈ paths -> (h p <= 1)%Z) -> (weigh h paths <= sum_counts path_amount paths)%Z.
Proof.
  induction 1 as [|p paths [Hp _] _ IH]; [done|]. intros H. rewrite sum_counts_cons. cbn [weigh foldr]. specialize (H p ltac:(left)) as H1.
  specialize (IH (fun q Hq => H q ltac:(by right))). unfold weigh in *. nia.
Qed.

Lemma items_count {A} (f : PreparedFlowPath -> list A) (weight : A -> spec_float) paths :
  (forall p a, a ∈ f p -> weight a = path_amount p) -> Forall (fun p => is_count (path_amount p)) paths ->
  Forall (fun a => is_count (weight a)) (flat_map f paths).
Proof.
  intros Hw Hp. induction Hp as [|p paths Hp _ IH]; [constructor|]. cbn [flat_map]. apply Forall_app. split; [|done]. apply Forall_forall. intros a Ha.
  by rewrite (Hw p a Ha).
Qed.

(** ** What is collected *)

Context (stages : list FlowNodeKind) (paths : list PreparedFlowPath).
Context (stages_nodup : NoDup stages) (paths_ok : Forall (path_ok stages) paths) (amounts : Forall (fun p => is_count (path_amount p)) paths).
Context (bounded : (sum_counts path_amount paths < MAX_SAFE)%Z).

Notation colors := (path_colors localeCompare getDashboardChartColors palette paths).
Notation nodes := (collected_nodes localeCompare getDashboardChartColors metric palette paths).
Notation links := (collected_links localeCompare getDashboardChartColors metric palette paths).

Lemma each_path_ok p : p ∈ paths -> path_ok stages p.
Proof. intros Hp. by rewrite Forall_forall in paths_ok; apply paths_ok. Qed.

Lemma node_items_at P h :
  (forall p, p ∈ paths -> Z.of_nat (length (filter (fun n => P (pn_id n) = true) (path p))) = h p) ->
  items_at ni_id node_weight P (all_node_items localeCompare getDashboardChartColors palette paths) = weigh h paths.
Proof. intros H. apply items_at_flat. intros p Hp. by rewrite node_items_test, H. Qed.

Lemma node_sums : counts n_value nodes /\
  forall P, sum_at n_id n_value P nodes = items_at ni_id node_weight P (all_node_items localeCompare getDashboardChartColors palette paths).
Proof.
  apply group_rows_sums; try done.
  - apply items_count; [|done]. intros p i. unfold Flow.node_items. destruct (head (path p)); [|by intros []%not_elem_of_nil].
    by intros (n & -> & _)%list_elem_of_fmap.
  - intros k. unfold all_node_items. rewrite (items_at_flat _ _ _ _ (fun p => hits k (path p))) by (intros p _; apply node_items_hits).
    eapply Z.le_lt_trans; [|exact bounded]. apply weigh_le; [done|]. intros p Hp.
    by apply hits_nodup, (path_ids_NoDup stages), each_path_ok.
Qed.

Lemma hits_tail_le id q : (hits id (tail q) <= hits id q)%Z.
Proof. destruct q as [|n q]; [done|]. unfold hits. cbn [tail]. rewrite filter_cons. destruct (decide _); cbn [length]; lia. Qed.

Lemma link_sums : counts l_value links /\
  forall P, sum_at linkStableKey l_value P links = items_at li_key link_weight P (all_link_items localeCompare getDashboardChartColors palette paths).
Proof.
  apply group_rows_sums; try done.
  - apply items_count; [|done]. intros p i. unfold Flow.link_items. destruct (head (path p)); [|by intros []%not_elem_of_nil].
    by intros (n & -> & _)%list_elem_of_fmap.
  - intros k. set (h p := Z.of_nat (length (filter (fun e => bool_decide (pathLinkKey e.1 e.2 = k) = true) (path_links (path p))))).
    unfold all_link_items. rewrite (items_at_flat _ _ _ _ h).
    + eapply Z.le_lt_trans; [|exact bounded]. apply weigh_le; [done|]. intros p Hp. destruct (each_path_ok p Hp) as [_ _ Hn].
      transitivity (hits (key_target k) (path p)); [|by apply hits_nodup, (path_ids_NoDup stages), each_path_ok].
      etransitivity; [|apply hits_tail_le]. rewrite <- path_links_targets. unfold hits, h. rewrite filter_map_length. apply Nat2Z.inj_le.
      apply list_filter_length_le. intros e He. rewrite bool_decide_eq_true. intros <-. unfold pathLinkKey. symmetry. apply key_target_app.
      rewrite Forall_forall in Hn. by apply Hn, path_links_elem.
    + intros p _. unfold Flow.link_items, h. destruct (path p) as [|n q] eqn:E; [by rewrite Z.mul_0_r|]. cbn [head].
      by rewrite (items_at_const _ _ _ _ (path_amount p)).
Qed.

Lemma collected_node_on_path n : n ∈ nodes -> exists p x, p ∈ paths /\ x ∈ path p /\ n_id n = pn_id x /\ n_kind n = pn_kind x.
Proof.
  intros Hn. destruct (group_rows_elem ni_id n_id new_node (grow_node metric) ltac:(done) ltac:(done) n_kind (fun i => pn_kind (ni_node i)) _ n ltac:(done) ltac:(done) Hn)
    as (i & Hi & Hk & Hid). apply list_elem_of_In, in_flat_map in Hi as (p & Hp & Hi). exists p, (ni_node i). split; [by apply list_elem_of_In|].
  apply list_elem_of_In in Hi. unfold Flow.node_items in Hi. destruct (head (path p)); [|by apply not_elem_of_nil in Hi].
  apply list_elem_of_fmap in Hi as (x & -> & Hx). by split.
Qed.

Lemma collected_node n : n ∈ nodes ->
  (exists p x, p ∈ paths /\ x ∈ path p /\ n_id n = pn_id x /\ n_kind n = pn_kind x) /\ count_of (n_value n) = weigh (fun p => hits (n_id n) (path p)) paths.
Proof.
  intros Hn. split; [by apply collected_node_on_path|].
  rewrite <- (sum_at_key n_id n_value n nodes); [|by apply group_rows_NoDup|done]. rewrite (proj2 node_sums).
  unfold all_node_items. apply items_at_flat. intros p _. apply node_items_hits.
Qed.

Lemma collected_link l : l ∈ links -> exists p e, p ∈ paths /\ e ∈ path_links (path p) /\ l_source l = pn_id e.1 /\ l_target l = pn_id e.2.
Proof.
  intros Hl. destruct (group_rows_elem li_key linkStableKey new_link (grow_link metric) ltac:(done) ltac:(done) (fun l => (l_source l, l_target l))
    (fun i => (pn_id (li_source i), pn_id (li_target i))) _ l ltac:(done) ltac:(done) Hl) as (i & Hi & [= Hs Ht] & _).
  apply list_elem_of_In, in_flat_map in Hi as (p & Hp & Hi). apply list_elem_of_In in Hi. unfold Flow.link_items in Hi.
  destruct (head (path p)); [|by apply not_elem_of_nil in Hi]. apply list_elem_of_fmap in Hi as (e & -> & He).
  exists p, e. split; [by apply list_elem_of_In|]. by split.
Qed.

Lemma link_ends l : l ∈ links -> l_source l = key_source (linkStableKey l) /\ l_target l = key_target (linkStableKey l).
Proof.
  intros (p & e & Hp & He & Hs & Ht)%collected_link. unfold linkStableKey. destruct (each_path_ok p Hp) as [_ _ Hn].
  assert (0%N ∉ l_source l) as H0 by (rewrite Hs; rewrite Forall_forall in Hn; by apply Hn, path_links_elem).
  by rewrite key_source_app, key_target_app.
Qed.

Lemma sum_links (end_of : DashboardFlowLink -> list N) (key_end : list N -> list N) (part : list FlowPathNode -> list FlowPathNode) id :
  (forall l, l ∈ links -> end_of l = key_end (linkStableKey l)) ->
  (forall p, Forall nul_free (path p) -> items_at li_key link_weight (fun k => bool_decide (key_end k = id)) (link_items colors palette p) =
    (count_of (path_amount p) * hits id (part (path p)))%Z) ->
  sum_counts l_value (filter (fun l => end_of l = id) links) = weigh (fun p => hits id (part (path p))) paths.
Proof.
  intros He Hp. rewrite (filter_ext_in _ (fun l => bool_decide (key_end (linkStableKey l) = id) = true)).
  - change (sum_at linkStableKey l_value (fun k => bool_decide (key_end k = id)) links = weigh (fun p => hits id (part (path p))) paths).
    rewrite (proj2 link_sums). unfold all_link_items. apply items_at_flat. intros p Hin. apply Hp, (each_path_ok p Hin).
  - intros l Hl. by rewrite bool_decide_eq_true, He.
Qed.

(** A node of another column is not met at the end of a path. *)
Lemma other_column n p x : n ∈ nodes -> p ∈ paths -> x ∈ path p -> pn_kind x <> n_kind n -> pn_id x <> n_id n.
Proof.
  intros Hn Hp Hx Hk He. destruct (collected_node n Hn) as [(p' & y & Hp' & Hy & Hid & Hkind) _].
  destruct (each_path_ok p Hp) as [_ Hk1 _]. destruct (each_path_ok p' Hp') as [_ Hk2 _]. rewrite Forall_forall in Hk1, Hk2.
  apply Hk. rewrite Hkind. apply kinded_inj; [by apply Hk1|by apply Hk2|congruence].
Qed.

Lemma hits_app id q r : hits id (q ++ r) = (hits id q + hits id r)%Z.
Proof. unfold hits. rewrite filter_app, length_app. lia. Qed.

Lemma hits_one id x : pn_id x <> id -> hits id [x] = 0%Z.
Proof. intros H. unfold hits. by rewrite filter_cons_False. Qed.

Lemma inflow n : n ∈ nodes -> head stages <> Some (n_kind n) ->
  weigh (fun p => hits (n_id n) (tail (path p))) paths = count_of (n_value n).
Proof.
  intros Hn Hh. rewrite (proj2 (collected_node n Hn)). apply weigh_ext. intros p Hp. destruct (each_path_ok p Hp) as [Hk _ _].
  destruct (path p) as [|x q] eqn:E; [done|]. cbn [tail]. rewrite (hits_app _ [x] q : hits _ (x :: q) = _), hits_one; [done|].
  apply (other_column n p); [done|done|rewrite E; left|]. rewrite <- Hk in Hh. cbn in Hh. congruence.
Qed.

Lemma outflow n : n ∈ nodes -> last stages <> Some (n_kind n) ->
  weigh (fun p => hits (n_id n) (removelast (path p))) paths = count_of (n_value n).
Proof.
  intros Hn Hh. rewrite (proj2 (collected_node n Hn)). apply weigh_ext. intros p Hp. destruct (each_path_ok p Hp) as [Hk _ _].
  destruct (path p) as [|x q _] eqn:E using rev_ind; [done|]. rewrite removelast_last, hits_app, hits_one; [lia|].
  apply (other_column n p); [done|done|rewrite E; apply elem_of_app; right; left|]. rewrite <- Hk, map_app in Hh. cbn [map] in Hh. rewrite last_snoc in Hh. congruence.
Qed.

Lemma column k : k ∈ stages -> sum_counts n_value (filter (fun n => n_kind n = k) nodes) = sum_counts path_amount paths.
Proof.
  intros Hk. set (P id := starts_with (kind_text k ++ js ":") id).
  assert (forall x, kinded x -> P (pn_id x) = true <-> pn_kind x = k) as HP.
  { intros x [name ->]. unfold P. destruct (pn_kind x), k; split; intros H; (done || (vm_compute in H; done) || (by vm_compute)). }
  rewrite (filter_ext_in _ (fun n => P (n_id n) = true)).
  - change (sum_at n_id n_value P nodes = sum_counts path_amount paths). rewrite (proj2 node_sums), (node_items_at P (fun _ => 1%Z)).
    + clear -paths. induction paths as [|p l IH]; [done|]. rewrite sum_counts_cons. cbn [weigh foldr]. unfold weigh in IH. rewrite IH. lia.
    + intros p Hp. destruct (each_path_ok p Hp) as [Hkinds Hkd _].
      rewrite (filter_ext_in _ (fun x => pn_kind x = k)) by (intros x Hx; apply HP; rewrite Forall_forall in Hkd; by apply Hkd).
      transitivity (Z.of_nat (length (filter (fun x => x = k) (map pn_kind (path p))))); [by rewrite filter_map_length|].
      rewrite Hkinds. clear -Hk stages_nodup. induction stages as [|s l IH]; [by apply not_elem_of_nil in Hk|].
      apply NoDup_cons in stages_nodup as [Hs Hl]. rewrite filter_cons. destruct (decide (s = k)) as [->|Hne].
      * rewrite filter_none; [done|]. apply Forall_forall. intros y Hy ->. done.
      * apply elem_of_cons in Hk as [->|Hk]; [done|]. by apply IH.
  - intros n Hn. destruct (collected_node n Hn) as [(p & x & Hp & Hx & -> & ->) _]. destruct (each_path_ok p Hp) as [_ Hkd _].
    rewrite Forall_forall in Hkd. symmetry. by apply HP, Hkd.
Qed.

Lemma node_exact n : n ∈ nodes -> is_count (n_value n) /\ (count_of (n_value n) < MAX_SAFE)%Z.
Proof.
  intros Hn. destruct node_sums as [Hc _]. unfold counts in Hc. rewrite Forall_forall in Hc. split; [by apply Hc|].
  rewrite (proj2 (collected_node n Hn)). eapply Z.le_lt_trans; [|exact bounded]. apply weigh_le; [done|]. intros p Hp.
  by apply hits_nodup, (path_ids_NoDup stages), each_path_ok.
Qed.

Lemma links_into n : n ∈ nodes -> head stages <> Some (n_kind n) ->
  sum_counts l_value (filter (fun l => l_target l = n_id n) links) = count_of (n_value n).
Proof.
  intros Hn Hh. rewrite (sum_links l_target key_target tail); [by apply inflow|by intros l Hl; apply link_ends|].
  intros p Hp. by apply link_items_target.
Qed.

Lemma links_out_of n : n ∈ nodes -> last stages <> Some (n_kind n) ->
  sum_counts l_value (filter (fun l => l_source l = n_id n) links) = count_of (n_value n).
Proof.
  intros Hn Hh. rewrite (sum_links l_source key_source (@removelast _)); [by apply outflow|by intros l Hl; apply link_ends|].
  intros p Hp. by apply link_items_source.
Qed.

(** The links of the first column carry everything. *)
Lemma first_links : 2 <= length stages ->
  sum_counts l_value (filter (fun l => l_source l ∈ set_values (omap first_id paths)) links) = sum_counts path_amount paths.
Proof.
  intros Hlen. set (ids := set_values (omap first_id paths)).
  rewrite (filter_ext_in _ (fun l => bool_decide (key_source (linkStableKey l) ∈ ids) = true))
    by (intros l Hl; rewrite bool_decide_eq_true, <- (proj1 (link_ends l Hl)); done).
  change (sum_at linkStableKey l_value (fun k => bool_decide (key_source k ∈ ids)) links = sum_counts path_amount paths).
  rewrite (proj2 link_sums). unfold all_link_items. rewrite (items_at_flat _ _ _ _ (fun _ => 1%Z)).
  { clear -paths. induction paths as [|p l IH]; [done|]. rewrite sum_counts_cons. cbn [weigh foldr]. unfold weigh in IH. rewrite IH. lia. }
  intros p Hp. destruct (each_path_ok p Hp) as [Hk Hkd Hn]. rewrite link_items_sources by done. f_equal.
  destruct (path p) as [|x [|y q]] eqn:E; [by rewrite <- Hk in Hlen; cbn in Hlen; lia..|]. cbn [removelast].
  assert (pn_id x ∈ ids) as Hx.
  { apply elem_of_set_values, list_elem_of_omap. exists p. split; [done|]. unfold first_id. by rewrite E. }
  assert (forall z, z ∈ y :: q -> pn_id z ∉ ids) as Hz.
  { intros z Hz [p' [Hp' Hf]]%elem_of_set_values%list_elem_of_omap. destruct (each_path_ok p' Hp') as [Hk' Hkd' _]. unfold first_id in Hf.
    destruct (path p') as [|x' q'] eqn:E'; [done|]. injection Hf as Hf. apply Forall_cons in Hkd' as [Hx' _]. rewrite Forall_forall in Hkd.
    rewrite <- Hk in Hk'. injection Hk' as Hkx _. assert (pn_kind z = pn_kind x') as Hzx by (apply kinded_inj; [apply Hkd; by right|done|done]).
    rewrite <- Hk in stages_nodup. cbn [map] in stages_nodup. apply NoDup_cons in stages_nodup as [Hnot _]. apply Hnot.
    rewrite <- Hkx, <- Hzx. apply (list_elem_of_fmap_2 pn_kind (y :: q)). done. }
  rewrite filter_cons_True by done. rewrite filter_none; [done|]. apply Forall_forall. intros z Hin. apply Hz.
  change (z ∈ removelast (y :: q)) in Hin. rewrite (app_removelast_last y (l := y :: q)) by done. apply elem_of_app. by left.
Qed.

End Sums.

(** ** The theorem *)

Lemma stages_two role visible : 2 <= length (resolveVisibleStages role visible).
Proof.
  assert (2 <= length (getFlowStages role)) as H by (destruct role; cbn; lia). unfold resolveVisibleStages. destruct visible as [v|]; [|done].
  destruct (MIN_FLOW_STAGES <=? _) eqn:E; [by apply Nat.leb_le in E|done].
Qed.

Lemma summary_metric rows metric : metricValue (buildSummary rows) metric = num_sum (map (fun row => metricValue (rowMetrics row) metric) rows).
Proof.
  unfold buildSummary, num_sum.
  assert (forall acc, metricValue (fold_left (fun s row => add_metrics s (rowMetrics row)) rows acc) metric =
    fold_left num_add (map (fun row => metricValue (rowMetrics row) metric) rows) (metricValue acc metric)) as H.
  { induction rows as [|row rows IH]; intros acc; [done|]. cbn [fold_left map]. rewrite IH. by destruct metric. }
  rewrite H. by destruct metric.
Qed.

(** Paths prepared from rows in order. *)
Lemma prepared_ok localeCompare rows metric stages ctx options :
  Forall (fun row => is_count (metricValue (rowMetrics row) metric) /\ Forall nul_free (flowPathForStages row stages ctx)) rows ->
  let paths := prepare_paths localeCompare rows metric stages ctx options in
  Forall (path_ok stages) paths /\ Forall (fun p => is_count (path_amount metric p)) paths /\
  (sum_counts (path_amount metric) paths <= sum_counts (fun row => metricValue (rowMetrics row) metric) rows)%Z /\
  (default Aggregate (overflowMode options) = Aggregate ->
    sum_counts (path_amount metric) paths = sum_counts (fun row => metricValue (rowMetrics row) metric) rows).
Proof.
  intros Hrows. cbv zeta. unfold prepare_paths. generalize (buildTopNodeSets localeCompare rows metric stages (normalizeTopNodeLimit (topNodeLimit options)) ctx).
  intros top. induction Hrows as [|row rows [Hc Hn] _ (IH1 & IH2 & IH3 & IH4)]; [by split_and!|]. cbn [omap list_omap].
  pose proof Hc as [Hc0 _]. destruct (prepare_path top options stages ctx row) as [p|] eqn:E.
  - destruct (prepare_path_ok _ _ _ _ _ _ Hn E) as [Hp Hm]. assert (path_amount metric p = metricValue (rowMetrics row) metric) as Hpa by (unfold path_amount; by rewrite Hm).
    rewrite !sum_counts_cons, Hpa. split_and!; [by constructor|constructor; [by rewrite Hpa|done]|lia|intros Ha; by rewrite IH4].
  - rewrite sum_counts_cons. split_and!; [done|done|lia|]. intros Ha. exfalso. unfold prepare_path, applyTopNodeLimit in E. rewrite Ha in E.
    destruct top; [|done]. by destruct (negb _).
Qed.

(** Sums over the graph that is shown are sums over what was collected. *)
Lemma sum_over_cores {A C} (core : A -> C) (value : A -> spec_float) (cvalue : C -> spec_float) (P : A -> Prop) (Q : C -> Prop)
    `{forall a, Decision (P a)} `{forall c, Decision (Q c)} (l k : list A) :
  (forall a, value a = cvalue (core a)) -> (forall a, P a <-> Q (core a)) -> map core l ≡ₚ map core k ->
  sum_counts value (filter P l) = sum_counts value (filter P k).
Proof.
  intros Hv HP Hp. assert (forall m, sum_counts value (filter P m) = sum_counts cvalue (filter Q (map core m))) as Hm.
  { induction m as [|a m IH]; [done|]. cbn [map]. rewrite !filter_cons. destruct (HP a) as [H1 H2].
    destruct (decide (P a)), (decide (Q (core a))); rewrite ?sum_counts_cons, ?IH, ?Hv; naive_solver. }
  rewrite !Hm. apply sum_counts_perm. by rewrite Hp.
Qed.

Lemma core_elem {A C} (core : A -> C) (l k : list A) a : map core l ≡ₚ map core k -> a ∈ l -> exists b, b ∈ k /\ core a = core b.
Proof.
  intros Hp Ha. assert (core a ∈ map core k) as (b & Hb & Hin)%list_elem_of_fmap by (rewrite <- Hp; by apply list_elem_of_fmap_2). by exists b.
Qed.

Lemma counts_cores {A C} (core : A -> C) (value : A -> spec_float) (cvalue : C -> spec_float) (l k : list A) :
  (forall a, value a = cvalue (core a)) -> map core l ≡ₚ map core k -> Forall (fun a => is_count (value a)) k -> Forall (fun a => is_count (value a)) l.
Proof.
  intros Hv Hp Hk. rewrite Forall_forall in *. intros a Ha. destruct (core_elem core l k a Hp Ha) as (b & Hb & He). rewrite Hv, He, <- Hv. by apply Hk.
Qed.

Lemma Forall_filtered {A} (Q P : A -> Prop) `{forall a, Decision (P a)} l : Forall Q l -> Forall Q (filter P l).
Proof. rewrite !Forall_forall. intros Hl a [_ Ha]%list_elem_of_filter. by apply Hl. Qed.

Lemma first_step_sum sources links : first_step_total sources links = num_sum (map l_value (filter (fun l => l_source l ∈ sources) links)).
Proof.
  unfold first_step_total, num_sum. generalize num_zero. induction (filter (fun l => l_source l ∈ sources) links) as [|l k IH]; intros acc; [done|].
  cbn [fold_left map]. apply IH.
Qed.

(** The sum of the links at a node, from that of the links collected. *)
Lemma sum_shown (end_of : DashboardFlowLink -> list N) (core_end : list N * list N * spec_float -> list N) shown links id v :
  (forall l, end_of l = core_end (link_core l)) -> map link_core shown ≡ₚ map link_core links -> Forall (fun l => is_count (l_value l)) shown ->
  v = num_of_Z (count_of v) -> (count_of v < MAX_SAFE)%Z ->
  sum_counts l_value (filter (fun l => end_of l = id) links) = count_of v -> num_sum (map l_value (filter (fun l => end_of l = id) shown)) = v.
Proof.
  intros He Hp Hc Hv Hlt Hs. assert (sum_counts l_value (filter (fun l => end_of l = id) shown) = count_of v) as Hshown.
  { rewrite <- Hs. apply (sum_over_cores link_core l_value snd _ (fun c => core_end c = id)); [done| |done]. intros l. by rewrite He. }
  rewrite num_sum_exact; [by rewrite Hshown, <- Hv|by apply Forall_filtered|by rewrite Hshown].
Qed.

(** C37: as long as the counts are integers a double holds exactly, the graph is a flow: what
    the links bring into a node is its value, and so is what they take out of it, but for
    the first and the last column; and unless small nodes are hidden, every column adds up
    to the summary, of which the shares of the links are taken. *)
Theorem flow_conserved localeCompare getDashboardChartColors rows metric role palette visibleStages ctx options
    (stages := resolveVisibleStages role visibleStages)
    (g := buildFlowGraph localeCompare getDashboardChartColors rows metric role palette visibleStages ctx options) :
  Forall (fun row => is_count (metricValue (rowMetrics row) metric) /\ Forall nul_free (flowPathForStages row stages ctx)) rows ->
  (sum_counts (fun row => metricValue (rowMetrics row) metric) rows < MAX_SAFE)%Z ->
  (forall n, n ∈ g_nodes g ->
    (head stages <> Some (n_kind n) -> num_sum (map l_value (filter (fun l => l_target l = n_id n) (g_links g))) = n_value n) /\
    (last stages <> Some (n_kind n) -> num_sum (map l_value (filter (fun l => l_source l = n_id n) (g_links g))) = n_value n)) /\
  (default Aggregate (overflowMode options) = Aggregate ->
    (forall k, k ∈ stages -> num_sum (map n_value (filter (fun n => n_kind n = k) (g_nodes g))) = metricValue (buildSummary rows) metric) /\
    forall l, l ∈ g_links g -> l_share l = share_of (metricValue (buildSummary rows) metric) (l_value l)).
Proof.
  intros Hrows Hsum. destruct (graph_core localeCompare getDashboardChartColors metric palette rows role visibleStages ctx options) as (Hn & Hl & flowLinks & Hf & Hshare).
  destruct (prepared_ok localeCompare rows metric stages ctx options Hrows) as (H1 & H2 & H3 & H4). fold stages in Hn, Hl, Hf, Hshare. fold g in Hn, Hl, Hshare.
  set (paths := prepare_paths _ _ _ _ _ _) in *. assert (sum_counts (path_amount metric) paths < MAX_SAFE)%Z as Hb by lia.
  pose proof (stages_NoDup role visibleStages : NoDup stages) as Hs.
  set (nodes := collected_nodes _ _ _ _ _) in *. set (links := collected_links _ _ _ _ _) in *.
  destruct (node_sums localeCompare getDashboardChartColors metric palette stages paths Hs H1 H2 Hb) as [Hcn _].
  destruct (link_sums localeCompare getDashboardChartColors metric palette stages paths Hs H1 H2 Hb) as [Hcl _].
  pose proof (counts_cores link_core l_value snd _ _ ltac:(done) Hl Hcl) as Hgl.
  pose proof (counts_cores node_core n_value snd _ _ ltac:(done) Hn Hcn) as Hgn.
  split.
  - intros n0 Hin0. destruct (core_elem node_core _ _ n0 Hn Hin0) as (n & Hin & [= -> -> Hv]). rewrite Hv.
    destruct (node_exact localeCompare getDashboardChartColors metric palette stages paths Hs H1 H2 Hb n Hin) as [[_ Hv1] Hlt].
    split; intros Hcol.
    + apply (sum_shown l_target (fun c => c.1.2) _ links); [done|done|done|done|done|].
      by apply (links_into localeCompare getDashboardChartColors metric palette stages paths Hs H1 H2 Hb).
    + apply (sum_shown l_source (fun c => c.1.1) _ links); [done|done|done|done|done|].
      by apply (links_out_of localeCompare getDashboardChartColors metric palette stages paths Hs H1 H2 Hb).
  - intros Hagg. specialize (H4 Hagg). assert (metricValue (buildSummary rows) metric = num_of_Z (sum_counts (path_amount metric) paths)) as Hsm.
    { rewrite H4, summary_metric. apply num_sum_exact; [|done]. eapply Forall_impl; [exact Hrows|]. by intros row []. }
    rewrite Hsm. split.
    + intros k Hk. assert (sum_counts n_value (filter (fun n => n_kind n = k) (g_nodes g)) = sum_counts (path_amount metric) paths) as He.
      { rewrite <- (column localeCompare getDashboardChartColors metric palette stages paths Hs H1 H2 Hb k Hk).
        by apply (sum_over_cores node_core n_value snd _ (fun c => c.1.2 = k)). }
      rewrite num_sum_exact; [by rewrite He|by apply Forall_filtered|by rewrite He].
    + intros l Hin. rewrite (Hshare l Hin). f_equal. rewrite first_step_sum.
      pose proof (counts_cores link_core l_value snd _ _ ltac:(done) Hf Hcl) as Hfl.
      assert (sum_counts l_value (filter (fun l => l_source l ∈ set_values (omap first_id paths)) flowLinks) = sum_counts (path_amount metric) paths) as He.
      { rewrite <- (first_links localeCompare getDashboardChartColors metric palette stages paths Hs H1 H2 Hb (stages_two role visibleStages)).
        by apply (sum_over_cores link_core l_value snd _ (fun c => c.1.1 ∈ set_values (omap first_id paths))). }
      rewrite num_sum_exact; [by rewrite He|by apply Forall_filtered|by rewrite He].
Qed.

Definition sample_row (token group model : string) (quota : Z) : FlowQuotaDataItem :=
  mkRow None None None None (Some (js token)) (Some (js group)) (Some (js model)) None None None None (Some (num_of_Z quota)).

Definition sample_options : FlowGraphOptions := mkGraphOptions (Some (num_of_Z 1)) None None None None false.

Lemma flow_conserved_witness :
  let g := buildFlowGraph (fun _ _ => 0%Z) (fun _ => []) [sample_row "a" "x" "m" 3; sample_row "b" "x" "k" 4; sample_row "a" "y" "m" 5]%string
             MetricQuota RoleUser [] None None sample_options in
  length (g_nodes g) = 6 /\ forall l, l ∈ g_links g -> l_share l = share_of (num_of_Z 12) (l_value l).
Proof.
  intros g. split; [by vm_compute|].
  refine (proj2 (proj2 (flow_conserved (fun _ _ => 0%Z) (fun _ => []) _ MetricQuota RoleUser [] None None sample_options _ _) _)).
  - repeat (constructor; [split; [split; vm_compute; [discriminate|reflexivity]|apply (bool_decide_unpack _); vm_compute; exact I]|]). constructor.
  - by vm_compute.
  - done.
Defined.
