(* ===== verification/FlowViews.v ===== *)
(** * Names, highlights and filters of the flow graph

    What the reader of the graph sees: masked names do not show, a click on a node or a link
    highlights exactly the paths through it, and the filters keep exactly the rows of the
    selected nodes.  The data of the chart (the part of [buildFlowSankeySpec] that depends on
    the graph) is read back by the handlers of its clicks. *)
From S2P Require Import Prelude JsString JsNumber JsJson JsCollections StatusGroups VisualTiers ChannelForm JsExact Flow FlowConserved.
From Stdlib Require Import Lia.

(** ** What is shown of a node and of a link *)

Definition link_view (l : DashboardFlowLink) :=
  (l_source l, l_target l, l_value l, l_sourceLabel l, l_targetLabel l, (l_highlighted l, l_dimmed l)).

Section Views.
Context (localeCompare : list N -> list N -> Z) (getDashboardChartColors : nat -> list (list N)).
Context (rows : list FlowQuotaDataItem) (metric : FlowMetric) (role : FlowRole) (palette : list (list N)).
Context (visibleStages : option (list FlowNodeKind)) (ctx : option (spec_float -> list N)) (options : FlowGraphOptions).

Notation stages := (resolveVisibleStages role visibleStages).
Notation paths := (prepare_paths localeCompare rows metric stages ctx options).
Notation g := (buildFlowGraph localeCompare getDashboardChartColors rows metric role palette visibleStages ctx options).
Notation nodes := (collected_nodes localeCompare getDashboardChartColors metric palette paths).
Notation links := (collected_links localeCompare getDashboardChartColors metric palette paths).
Notation marks := (buildFlowHighlightSets paths (activeNode options) (activeLink options) stages).

Definition label_graph (g : DashboardFlowGraph) : DashboardFlowGraph := if maskSensitive options then maskFlowGraphLabels g else g.

Lemma graph_views :
  let shown := applyFlowHighlights marks (label_graph (mkGraph nodes links)) in
  g_nodes g ≡ₚ g_nodes shown /\ map link_view (g_links g) ≡ₚ map link_view (g_links shown).
Proof.
  cbv zeta. unfold buildFlowGraph. set (ps := prepare_paths _ _ _ _ _ _). rewrite add_paths_collect.
  fold (path_colors localeCompare getDashboardChartColors palette ps).
  fold (all_node_items localeCompare getDashboardChartColors palette ps) (all_link_items localeCompare getDashboardChartColors palette ps).
  fold (collected_nodes localeCompare getDashboardChartColors metric palette ps) (collected_links localeCompare getDashboardChartColors metric palette ps).
  unfold label_graph. cbn [g_nodes g_links]. split; [apply sort_by_perm|].
  unfold assignLinkDisplayColors. rewrite !map_map. rewrite (map_ext _ link_view); [by rewrite sort_by_perm|].
  intros l. unfold assign_color. by destruct (list_find _ _) as [[]|].
Qed.

(** ** Masked names *)

Definition hidden (label : list N) : Prop := label = [] \/ label = FLOW_MASK_TEXT.

Lemma mask_hides label : hidden (maskFlowLabel label).
Proof. destruct label; [by left|by right]. Qed.

(** A node whose name is to be hidden. *)
Definition to_mask (n : DashboardFlowNode) : Prop := SENSITIVE_FLOW_KINDS (n_kind n) = true /\ n_id n ∉ OTHER_FLOW_NODE_ID_SET.

Lemma to_mask_spec n : to_mask n <-> is_masked n = true.
Proof. unfold to_mask, is_masked. by rewrite andb_true_iff, negb_true_iff, bool_decide_eq_false. Qed.

Lemma masked_by_id_hidden ns n id label : n ∈ ns -> is_masked n = true -> n_id n = id -> hidden (masked_by_id ns id label).
Proof.
  intros Hn Hm He. unfold masked_by_id. destruct (list_find _ ns) as [[i x]|] eqn:E; [apply mask_hides|].
  apply list_find_None in E. rewrite Forall_forall in E. by destruct (E n Hn).
Qed.

Lemma collected_has p x : p ∈ paths -> x ∈ path p -> exists n, n ∈ nodes /\ n_id n = pn_id x.
Proof.
  intros Hp Hx. destruct (group_rows_spec ni_id n_id new_node (grow_node metric) ltac:(done) ltac:(done)
    (all_node_items localeCompare getDashboardChartColors palette paths)) as [Hk _].
  assert (pn_id x ∈ map n_id nodes) as (n & -> & Hn)%list_elem_of_fmap; [|by exists n].
  unfold collected_nodes. rewrite Hk. apply elem_of_set_values, list_elem_of_fmap. destruct (path p) as [|r q] eqn:E; [by apply not_elem_of_nil in Hx|].
  set (colors := path_colors localeCompare getDashboardChartColors palette paths).
  exists (mkNodeItem x (metrics p) (color_of getDashboardChartColors colors palette (pn_id r)) (pn_id r)). split; [done|].
  apply list_elem_of_In, in_flat_map. exists p. split; [by apply list_elem_of_In|]. apply list_elem_of_In. unfold node_items. rewrite E. cbn [head].
  by apply (list_elem_of_fmap_2 (fun n => mkNodeItem n _ _ _) (r :: q)).
Qed.

(** Both ends of a link are nodes of the graph. *)
Lemma link_ends_shown l : l ∈ g_links g -> exists s t, s ∈ g_nodes g /\ t ∈ g_nodes g /\ l_source l = n_id s /\ l_target l = n_id t.
Proof.
  intros Hl. destruct (graph_core localeCompare getDashboardChartColors metric palette rows role visibleStages ctx options) as (Hn & Hlk & _).
  destruct (core_elem link_core _ _ l Hlk Hl) as (l0 & Hl0 & [= -> -> _]). apply collected_link in Hl0 as (p & e & Hp & He & -> & ->).
  apply path_links_elem in He as [H1 H2]. destruct (collected_has p _ Hp H1) as (s & Hs & <-). destruct (collected_has p _ Hp H2) as (t & Ht & <-).
  destruct (core_elem node_core _ _ s (Permutation_sym Hn) Hs) as (s' & Hs' & [= -> _ _]). destruct (core_elem node_core _ _ t (Permutation_sym Hn) Ht) as (t' & Ht' & [= -> _ _]).
  by exists s', t'.
Qed.

Lemma shown_node n : n ∈ g_nodes g -> exists n0, n0 ∈ nodes /\ n_id n = n_id n0 /\ n_kind n = n_kind n0 /\
  n_label n = (if maskSensitive options && is_masked n0 then maskFlowLabel (n_label n0) else n_label n0).
Proof.
  destruct graph_views as [Hn _]. rewrite Hn. unfold applyFlowHighlights, label_graph, maskFlowGraphLabels.
  destruct marks as [h|]; destruct (maskSensitive options); cbn [g_nodes andb]; rewrite ?list_elem_of_fmap.
  - intros (n1 & -> & (n0 & -> & Hin)%list_elem_of_fmap). exists n0. by destruct (is_masked n0).
  - intros (n1 & -> & Hin). by exists n1.
  - intros (n0 & -> & Hin). exists n0. by destruct (is_masked n0).
  - intros Hin. by exists n.
Qed.

Lemma shown_link l : l ∈ g_links g -> exists l0, l0 ∈ links /\ l_source l = l_source l0 /\ l_target l = l_target l0 /\
  l_sourceLabel l = (if maskSensitive options then masked_by_id nodes (l_source l0) (l_sourceLabel l0) else l_sourceLabel l0) /\
  l_targetLabel l = (if maskSensitive options then masked_by_id nodes (l_target l0) (l_targetLabel l0) else l_targetLabel l0).
Proof.
  destruct graph_views as [_ Hl]. intros Hin. destruct (core_elem link_view _ _ l Hl Hin) as (l1 & Hl1 & [= -> -> _ -> -> _ _]). revert Hl1.
  unfold applyFlowHighlights, label_graph, maskFlowGraphLabels.
  destruct marks as [h|]; destruct (maskSensitive options); cbn [g_links]; rewrite ?list_elem_of_fmap.
  - intros (l2 & -> & (l0 & -> & Hl0)%list_elem_of_fmap). by exists l0.
  - intros (l0 & -> & Hl0). by exists l0.
  - intros (l0 & -> & Hl0). by exists l0.
  - intros Hl0. by exists l1.
Qed.

End Views.

(** With names masked, no name of a user, key, node, group or channel is a label of the
    graph, neither of its node nor of a link at it, and every end of a link is such a node;
    the columns, values and links are those of the graph without masks. *)
Theorem names_masked localeCompare getDashboardChartColors rows metric role palette visibleStages ctx top mode labeler node link :
  let build mask := buildFlowGraph localeCompare getDashboardChartColors rows metric role palette visibleStages ctx
                      (mkGraphOptions top mode labeler node link mask) in
  let g := build true in
  (forall n, n ∈ g_nodes g -> to_mask n ->
     hidden (n_label n) /\
     forall l, l ∈ g_links g -> (l_source l = n_id n -> hidden (l_sourceLabel l)) /\ (l_target l = n_id n -> hidden (l_targetLabel l))) /\
  (forall l, l ∈ g_links g -> exists s t, s ∈ g_nodes g /\ t ∈ g_nodes g /\ l_source l = n_id s /\ l_target l = n_id t) /\
  map node_core (g_nodes g) ≡ₚ map node_core (g_nodes (build false)) /\ map link_core (g_links g) ≡ₚ map link_core (g_links (build false)).
Proof.
  intros build g. set (options := mkGraphOptions top mode labeler node link true). split; [|split; [by apply link_ends_shown|]].
  - intros n (n0 & Hn0 & Hid & Hk & Hlab)%shown_node Hm. cbn [maskSensitive andb] in Hlab.
    assert (is_masked n0 = true) as Hm0 by (apply to_mask_spec; unfold to_mask in *; by rewrite <- Hid, <- Hk).
    rewrite Hlab, Hm0. split; [apply mask_hides|]. intros l (l0 & _ & Hs & Ht & Hsl & Htl)%shown_link. cbn [maskSensitive] in *. rewrite Hsl, Htl.
    split; intros He; eapply masked_by_id_hidden; [done|done|congruence|done|done|congruence].
  - pose proof (graph_core localeCompare getDashboardChartColors metric palette rows role visibleStages ctx options) as (A1 & A2 & _).
    pose proof (graph_core localeCompare getDashboardChartColors metric palette rows role visibleStages ctx (mkGraphOptions top mode labeler node link false)) as (B1 & B2 & _).
    split; [exact (Permutation_trans A1 (Permutation_sym B1))|exact (Permutation_trans A2 (Permutation_sym B2))].
Qed.

(** ** Highlights *)

(** An end of the selection: a node of a visible column, or any link. *)
Definition selecting (node : option FlowNodeFilter) (link : option FlowLinkSelection) (stages : list FlowNodeKind) : Prop :=
  (exists l, link = Some l) \/ exists f, node = Some f /\ nf_kind f ∈ stages.

Lemma highlight_sets ps node link stages :
  match buildFlowHighlightSets ps node link stages with
  | Some h =>
      selecting node link stages /\
      (forall id, id ∈ hl_nodes h <-> exists p, p ∈ ps /\ matchesPath node link (path p) = true /\ id ∈ map pn_id (path p)) /\
      (forall k, k ∈ hl_links h <-> exists p, p ∈ ps /\ matchesPath node link (path p) = true /\ k ∈ map (fun e => pathLinkKey e.1 e.2) (path_links (path p)))
  | None => ~ selecting node link stages \/ forall p, p ∈ ps -> matchesPath node link (path p) = true -> path p = []
  end.
Proof.
  unfold buildFlowHighlightSets. cbv zeta.
  set (na := match node with Some f => bool_decide (nf_kind f ∈ stages) | None => false end).
  assert (negb na && negb (match link with Some _ => true | None => false end) = true <-> ~ selecting node link stages) as Hsel.
  { unfold selecting, na. destruct link as [l|]; [rewrite andb_false_r; split; [done|]; intros H; exfalso; apply H; left; by exists l|].
    rewrite andb_true_r, negb_true_iff. destruct node as [f|]; [|split; [|done]; intros _ [[? ?]|[? [? ?]]]; done].
    rewrite bool_decide_eq_false. split; [intros H [[? ?]|(f' & [= <-] & Hf)]; done|]. intros H Hf. apply H. right. by exists f. }
  destruct (negb na && _) eqn:E; [left; by apply Hsel|]. set (ps' := filter _ ps).
  assert (forall p, p ∈ ps' <-> p ∈ ps /\ matchesPath node link (path p) = true) as Hps by (intros p; unfold ps'; rewrite list_elem_of_filter; tauto).
  assert (forall {B} (f : PreparedFlowPath -> list B) x, x ∈ flat_map f ps' <-> exists p, p ∈ ps /\ matchesPath node link (path p) = true /\ x ∈ f p) as Hflat.
  { intros B f x. rewrite list_elem_of_In, in_flat_map. setoid_rewrite <- list_elem_of_In. setoid_rewrite Hps. naive_solver. }
  destruct (set_values (flat_map (fun p => map pn_id (path p)) ps')) as [|id ids] eqn:Ei.
  - right. intros p Hp Hm. destruct (path p) as [|x q] eqn:Eq; [done|].
    assert (pn_id x ∈ set_values (flat_map (fun p => map pn_id (path p)) ps')) as Hx
      by (apply elem_of_set_values, Hflat; exists p; rewrite Eq; split_and!; [done|done|left]). rewrite Ei in Hx. by apply not_elem_of_nil in Hx.
  - split; [|split].
    + clear -E. unfold selecting, na in *. destruct link as [l|]; [left; by exists l|]. rewrite andb_true_r in E. apply negb_false_iff in E.
      destruct node as [f|]; [|done]. apply bool_decide_eq_true in E. right. by exists f.
    + intros x. cbn [hl_nodes]. rewrite <- Ei, elem_of_set_values. apply Hflat.
    + intros x. cbn [hl_links]. rewrite elem_of_set_values. apply Hflat.
Qed.

Section Flags.
Context (localeCompare : list N -> list N -> Z) (getDashboardChartColors : nat -> list (list N)).
Context (rows : list FlowQuotaDataItem) (metric : FlowMetric) (role : FlowRole) (palette : list (list N)).
Context (visibleStages : option (list FlowNodeKind)) (ctx : option (spec_float -> list N)) (options : FlowGraphOptions).

Notation stages := (resolveVisibleStages role visibleStages).
Notation paths := (prepare_paths localeCompare rows metric stages ctx options).
Notation g := (buildFlowGraph localeCompare getDashboardChartColors rows metric role palette visibleStages ctx options).
Notation marks := (buildFlowHighlightSets paths (activeNode options) (activeLink options) stages).

Lemma node_flags_shown n h : marks = Some h -> n ∈ g_nodes g ->
  n_highlighted n = Some (bool_decide (n_id n ∈ hl_nodes h)) /\ n_dimmed n = Some (negb (bool_decide (n_id n ∈ hl_nodes h))).
Proof.
  intros Hm. destruct (graph_views localeCompare getDashboardChartColors rows metric role palette visibleStages ctx options) as [Hn _].
  rewrite Hn, Hm. cbn [applyFlowHighlights g_nodes]. by intros (n0 & -> & _)%list_elem_of_fmap.
Qed.

Lemma link_flags_shown l h : marks = Some h -> l ∈ g_links g ->
  l_highlighted l = Some (bool_decide (linkStableKey l ∈ hl_links h)) /\ l_dimmed l = Some (negb (bool_decide (linkStableKey l ∈ hl_links h))).
Proof.
  intros Hm Hin. destruct (graph_views localeCompare getDashboardChartColors rows metric role palette visibleStages ctx options) as [_ Hl].
  destruct (core_elem link_view _ _ l Hl Hin) as (l1 & Hl1 & He). rewrite Hm in Hl1. cbn [applyFlowHighlights g_links] in Hl1.
  apply list_elem_of_fmap in Hl1 as (l0 & -> & _). unfold link_view in He. cbn in He. injection He as H1 H2 _ _ _ H3 H4. unfold linkStableKey.
  by rewrite H1, H2, H3, H4.
Qed.

(** Columns of a prepared path, whatever the names. *)
Lemma prepared_kinds p : p ∈ paths -> map pn_kind (path p) = stages.
Proof.
  unfold prepare_paths. intros (row & _ & Hp)%list_elem_of_omap. unfold prepare_path in Hp.
  destruct (applyTopNodeLimit _ _ _ _) as [q|] eqn:E; [|done]. injection Hp as <-. cbn [path]. apply apply_limit_path in E. unfold flowPathForStages in E.
  revert q E. generalize stages. intros st. induction st as [|k st IH]; cbn [map]; intros q Hq; [by apply Forall2_nil_inv_l in Hq as ->|].
  apply Forall2_cons_inv_l in Hq as (n' & q' & Hl & Hq & ->). cbn [map]. rewrite (IH q' Hq). f_equal. destruct Hl as [->| ->]; by destruct k.
Qed.

End Flags.

(** ** Filters *)

(** A row passes if every visible column with selected nodes shows the row in one of them. *)
Definition row_selected (selectedNodes : list FlowNodeFilter) (stages : list FlowNodeKind) (ctx : option (spec_float -> list N)) (row : FlowQuotaDataItem) : Prop :=
  Forall (fun f => nf_kind f ∈ stages -> mkFilter (nf_kind f) (pn_id (NODE_BUILDERS (nf_kind f) row ctx)) ∈ selectedNodes) selectedNodes.

#[export] Instance FlowNodeFilter_eq_dec : EqDecision FlowNodeFilter.
Proof. solve_decision. Defined.

#[export] Instance row_selected_dec selectedNodes stages ctx row : Decision (row_selected selectedNodes stages ctx row).
Proof. unfold row_selected. apply _. Defined.

Lemma selected_ids l entry x : x ∈ (add_all add_selected l entry).2 <-> x ∈ entry.2 \/ x ∈ map nf_id l.
Proof.
  revert entry. induction l as [|f l IH]; intros entry; cbn [map]; [rewrite elem_of_nil; tauto|].
  change (add_all add_selected (f :: l) entry) with (add_all add_selected l (add_selected f entry)). rewrite IH, elem_of_cons. unfold add_selected. cbn [snd].
  destruct (decide _) as [Hf|Hf]; [naive_solver|]. rewrite elem_of_app, list_elem_of_singleton. naive_solver.
Qed.

(** The entries of the filters: the visible kinds selected, each with its ids. *)
Lemma normalized_entry sel stages entry : entry ∈ normalizeSelectedNodeFilters sel stages ->
  entry.1 ∈ stages /\ forall x, x ∈ entry.2 <-> mkFilter entry.1 x ∈ sel.
Proof.
  unfold normalizeSelectedNodeFilters. intros He. destruct (group_rows_spec nf_kind fst (fun f => (nf_kind f, [])) add_selected ltac:(done) ltac:(done)
    (filter (fun f => nf_kind f ∈ stages) sel)) as [_ Hspec]. destruct (Hspec entry He) as (f & rest & Hf & Hre).
  assert (f ∈ filter (fun x => nf_kind x = entry.1) (filter (fun f => nf_kind f ∈ stages) sel)) as [Hk [Hs Hin]%list_elem_of_filter]%list_elem_of_filter
    by (rewrite Hf; left).
  split; [by rewrite <- Hk|]. intros x. rewrite Hre at 1. rewrite selected_ids, <- Hf. cbn [snd]. rewrite elem_of_nil, list_elem_of_fmap.
  split; [intros [[]|(y & -> & [Hy [_ Hy2]%list_elem_of_filter]%list_elem_of_filter)]; destruct y; cbn in *; by subst|].
  intros Hx. right. exists (mkFilter entry.1 x). split; [done|]. apply list_elem_of_filter. split; [done|]. apply list_elem_of_filter. split; [by rewrite <- Hk|done].
Qed.

Lemma normalized_nonempty sel stages entry : entry ∈ normalizeSelectedNodeFilters sel stages -> exists f, f ∈ sel /\ nf_kind f = entry.1.
Proof.
  intros He. destruct (group_rows_elem nf_kind fst (fun f => (nf_kind f, [])) add_selected ltac:(done) ltac:(done) fst nf_kind _ entry ltac:(done) ltac:(done) He)
    as (f & [_ Hf]%list_elem_of_filter & Hk & _). by exists f.
Qed.

Lemma normalized_has sel stages f : f ∈ sel -> nf_kind f ∈ stages -> exists entry, entry ∈ normalizeSelectedNodeFilters sel stages /\ entry.1 = nf_kind f.
Proof.
  intros Hf Hs. destruct (group_rows_spec nf_kind fst (fun f => (nf_kind f, [])) add_selected ltac:(done) ltac:(done)
    (filter (fun f => nf_kind f ∈ stages) sel)) as [Hk _].
  assert (nf_kind f ∈ map fst (normalizeSelectedNodeFilters sel stages)) as (e & He & Hin)%list_elem_of_fmap; [|by exists e].
  unfold normalizeSelectedNodeFilters. rewrite Hk. apply elem_of_set_values, list_elem_of_fmap_2, list_elem_of_filter. done.
Qed.

Lemma path_ids_row k row stages ctx x : x ∈ path_ids k (flowPathForStages row stages ctx) <-> k ∈ stages /\ x = pn_id (NODE_BUILDERS k row ctx).
Proof.
  unfold path_ids, flowPathForStages. rewrite list_elem_of_fmap. setoid_rewrite list_elem_of_filter. setoid_rewrite list_elem_of_fmap. split.
  - intros (n & -> & Hk & s & -> & Hs). rewrite (proj2 (builder_kinded s row ctx)) in Hk. by subst.
  - intros [Hs ->]. exists (NODE_BUILDERS k row ctx). split; [done|]. split; [apply builder_kinded|]. by exists k.
Qed.

(** Filtering by nodes keeps, in order, exactly the rows that every visible column with
    selected nodes shows in one of them; selections of hidden columns do not count. *)
Theorem node_filters_exact rows selectedNodes stages ctx :
  filterRowsByNodes rows selectedNodes stages ctx = filter (row_selected selectedNodes stages ctx) rows.
Proof.
  assert (forall row, pathMatchesNodeFilters (flowPathForStages row stages ctx) (normalizeSelectedNodeFilters selectedNodes stages) = true <->
    row_selected selectedNodes stages ctx row) as Hrow.
  { intros row. unfold pathMatchesNodeFilters, row_selected. rewrite forallb_forall, Forall_forall. split.
    - intros H f Hf Hs. destruct (normalized_has _ _ f Hf Hs) as (e & He & Hk). specialize (H e (proj1 (list_elem_of_In _ _) He)).
      apply existsb_exists in H as (id & Hid%list_elem_of_In & Hm%bool_decide_eq_true). apply path_ids_row in Hm as [_ ->].
      apply (normalized_entry _ _ e He) in Hid. by rewrite <- Hk.
    - intros H e He%list_elem_of_In. destruct (normalized_entry _ _ e He) as [Hs Hids]. apply existsb_exists.
      destruct (normalized_nonempty _ _ e He) as (f & Hf & Hk). exists (pn_id (NODE_BUILDERS e.1 row ctx)). split.
      + apply list_elem_of_In, Hids. rewrite <- Hk. apply H; [done|]. by rewrite Hk.
      + apply bool_decide_eq_true, path_ids_row. done. }
  unfold filterRowsByNodes. destruct (normalizeSelectedNodeFilters selectedNodes stages) as [|e es] eqn:E.
  - symmetry. apply filter_every, Forall_forall. intros row _. by apply Hrow.
  - rewrite <- E in *. apply filter_ext_in. intros row _. apply Hrow.
Qed.
