(* ===== verification/FlowSankey.v ===== *)
(** * The chart of the flow and its clicks (the end of features/dashboard/lib/flow.ts)

    The data [buildFlowSankeySpec] hands to the chart library for a graph, and how the data
    of a click is read back into a node or a link to highlight.  Layout, fonts and the
    texts of the tooltip (numbers formatted by Intl) are constants of the chart. *)
From S2P Require Import Prelude JsString JsNumber JsJson AuthSession JsCollections StatusGroups ChannelForm JsExact AssistantActions AssistantActionsBack Flow FlowConserved FlowViews.
From Stdlib Require Import Lia.

(** ** Data of the chart *)

Definition metrics_members (m : FlowMetrics) : list (string * option json) :=
  [("requests", num_of (m_requests m)); ("quota", num_of (m_quota m)); ("tokens", num_of (m_tokens m))]%string.

Definition flag_member (b : option bool) : option json := JBool <$> b.

Definition flowSankeyNodeDatum (node : DashboardFlowNode) : json :=
  obj ([("key", str (n_id node)); ("name", str (n_label node)); ("rawLabel", str (n_label node)); ("kind", str (kind_text (n_kind node)));
        ("value", num_of (n_value node))]%string ++ metrics_members (n_metrics node) ++
       [("color", str (n_color node)); ("colorKey", str (n_colorKey node)); ("highlighted", flag_member (n_highlighted node));
        ("dimmed", flag_member (n_dimmed node))]%string).

Definition is_set (b : option bool) : bool := match b with Some true => true | _ => false end.

Definition flowSankeyLinkZIndex (link : DashboardFlowLink) (index : nat) : Z :=
  if is_set (l_highlighted link) then (1000000 + Z.of_nat index)%Z
  else if is_set (l_dimmed link) then Z.of_nat index
  else (100000 + Z.of_nat index)%Z.

Definition flowSankeyLinkDatum (index : nat) (link : DashboardFlowLink) : json :=
  obj ([("source", str (l_source link)); ("target", str (l_target link)); ("linkKey", str (linkStableKey link));
        ("sourceLabel", str (l_sourceLabel link)); ("targetLabel", str (l_targetLabel link)); ("value", num_of (l_value link))]%string ++
       metrics_members (l_metrics link) ++
       [("color", str (l_color link)); ("linkColor", str (l_linkColor link)); ("linkAlpha", num_of (l_linkAlpha link));
        ("hoverColor", str (l_hoverColor link)); ("colorKey", str (l_colorKey link)); ("share", num_of (l_share link));
        ("highlighted", flag_member (l_highlighted link)); ("dimmed", flag_member (l_dimmed link));
        ("zIndex", num_of (num_of_Z (flowSankeyLinkZIndex link index)))]%string).

(** The nodes and links of [data.values]. *)
Definition sankey_values (localeCompare : list N -> list N -> Z) (flow : DashboardFlowGraph) : list json * list json :=
  (map flowSankeyNodeDatum (g_nodes flow),
   imap flowSankeyLinkDatum (sort_by (byLinkDrawPriority localeCompare) (filter (fun l => num_ltb num_zero (l_value l) = true) (g_links flow)))).

(** ** Reading a datum *)

Definition recordValue (v : option json) : option json :=
  match v with Some (JObj l) => Some (JObj l) | Some (JArr l) => Some (JArr l) | _ => None end.

Definition json_number_value (v : option json) : spec_float := numberValue (json_to_number <$> v).

(** [l[depth]] *)
Definition array_at (l : list json) (depth : spec_float) : option json :=
  if is_integer depth && num_leb num_zero depth then l !! Z.to_nat (count_of depth) else None.

Definition sankeyDatumSource (datum : json) : json :=
  match get "datum" datum with
  | Some (JArr nested) =>
      match recordValue (array_at nested (json_number_value (get "depth" datum))) with
      | Some v => v
      | None => default datum (recordValue (head nested))
      end
  | nested => default datum (recordValue nested)
  end.

Definition primitiveSankeyValue (v : json) : option json :=
  match v with JStr _ | JNum _ | JBool _ => Some v | _ => None end.

Definition sankeyDatumValue (datum : json) (key : string) : option json :=
  match get key datum with
  | Some v => primitiveSankeyValue v
  | None => get key (sankeyDatumSource datum) ≫= primitiveSankeyValue
  end.

Definition sankeyDatumFlag (datum : json) (key : string) : bool :=
  match sankeyDatumValue datum key with Some (JBool true) => true | _ => false end.

Definition flowSankeyDatumValue (datum : json) (key : string) : option json :=
  record ← recordValue (Some datum); sankeyDatumValue record key.

Definition isSankeyLinkDatum (datum : json) : bool :=
  match sankeyDatumValue datum "source", sankeyDatumValue datum "target" with Some _, Some _ => true | _, _ => false end.

Definition isFlowNodeKind (v : option json) : option FlowNodeKind :=
  match v with Some (JStr s) => snd <$> list_find (fun k => kind_text k = s) FLOW_NODE_KINDS | _ => None end.

Definition flowNodeFilterFromSankeyDatum (datum : json) : option FlowNodeFilter :=
  record ← recordValue (Some datum);
  if isSankeyLinkDatum record then None
  else
    let kind := isFlowNodeKind (flowSankeyDatumValue record "kind") in
    match flowSankeyDatumValue record "key", kind with
    | Some (JStr id), Some k => Some (mkFilter k id)
    | Some (JNum n), Some k => Some (mkFilter k (num_to_string n))
    | _, _ => None
    end.

(** How visible a datum is drawn. *)
Definition flowSankeyNodeOpacity (datum : json) : spec_float :=
  if sankeyDatumFlag datum "dimmed" then num_of_decimal 18 (-2)
  else if sankeyDatumFlag datum "highlighted" then num_of_Z 1
  else num_of_decimal 92 (-2).

Definition flowSankeyLinkOpacity (datum : json) : spec_float :=
  if sankeyDatumFlag datum "dimmed" then num_of_decimal 8 (-2)
  else if sankeyDatumFlag datum "highlighted" then num_of_decimal 86 (-2)
  else
    let alpha := json_number_value (sankeyDatumValue datum "linkAlpha") in
    if num_truthy alpha then alpha else num_of_Z 1.

Definition flowSankeyDatumZIndex (datum : json) : spec_float :=
  match sankeyDatumValue datum "zIndex" with
  | Some v => json_number_value (Some v)
  | None => num_sub (num_of_Z 1000000000) (json_number_value (sankeyDatumValue datum "value"))
  end.

Definition flowSankeyTooltipVisible (datum : json) : bool :=
  isSankeyLinkDatum datum || match sankeyDatumValue datum "key" with Some _ => true | None => false end.

Definition truthy_value (v : option json) : bool := match v with Some j => json_truthy j | None => false end.
Definition value_or (v w : option json) : option json := match v with Some j => Some j | None => w end.
Definition value_text (v : option json) : list N := match v with Some j => json_to_string j | None => [] end.

Definition flowSankeyTooltipTitle (datum : json) : list N :=
  let source := sankeyDatumValue datum "source" in
  let target := sankeyDatumValue datum "target" in
  if truthy_value source && truthy_value target then
    value_text (value_or (sankeyDatumValue datum "sourceLabel") source) ++ js " -> " ++ value_text (value_or (sankeyDatumValue datum "targetLabel") target)
  else value_text (value_or (sankeyDatumValue datum "name") (sankeyDatumValue datum "rawLabel")).

(** ** Clicks *)

Ltac datum := unfold flowSankeyNodeDatum, flowSankeyLinkDatum, metrics_members; cbn [app];
  repeat (rewrite get_obj_cons; cbn [String.eqb Ascii.eqb Bool.eqb]); try reflexivity.

Lemma node_datum_has n :
  get "key" (flowSankeyNodeDatum n) = str (n_id n) /\ get "kind" (flowSankeyNodeDatum n) = str (kind_text (n_kind n)).
Proof. split; datum. Qed.

Lemma node_datum_lacks n :
  get "source" (flowSankeyNodeDatum n) = None /\ get "datum" (flowSankeyNodeDatum n) = None.
Proof. split; datum. Qed.

Lemma link_datum_has i l :
  get "source" (flowSankeyLinkDatum i l) = str (l_source l) /\ get "target" (flowSankeyLinkDatum i l) = str (l_target l).
Proof. split; datum. Qed.

Lemma kind_read k : isFlowNodeKind (Some (JStr (kind_text k))) = Some k.
Proof. by destruct k; vm_compute. Qed.

(** A click on a node is read as that node. *)
Lemma node_click n : flowNodeFilterFromSankeyDatum (flowSankeyNodeDatum n) = Some (mkFilter (n_kind n) (n_id n)).
Proof.
  destruct (node_datum_has n) as [Hk Hd]. destruct (node_datum_lacks n) as [Hs Hn]. unfold flowNodeFilterFromSankeyDatum.
  change (recordValue (Some (flowSankeyNodeDatum n))) with (Some (flowSankeyNodeDatum n)). cbn [mbind option_bind].
  assert (sankeyDatumSource (flowSankeyNodeDatum n) = flowSankeyNodeDatum n) as Hsrc by (unfold sankeyDatumSource; by rewrite Hn).
  assert (isSankeyLinkDatum (flowSankeyNodeDatum n) = false) as ->.
  { unfold isSankeyLinkDatum, sankeyDatumValue. by rewrite Hs, Hsrc, Hs. }
  unfold flowSankeyDatumValue. change (recordValue (Some (flowSankeyNodeDatum n))) with (Some (flowSankeyNodeDatum n)). cbn [mbind option_bind].
  unfold sankeyDatumValue. rewrite Hk, Hd. unfold str. cbn [primitiveSankeyValue]. by rewrite kind_read.
Qed.

(** A click on a link is read as its ends. *)
Lemma link_click i l :
  flowNodeFilterFromSankeyDatum (flowSankeyLinkDatum i l) = None /\
  flowSankeyDatumValue (flowSankeyLinkDatum i l) "source" = str (l_source l) /\ flowSankeyDatumValue (flowSankeyLinkDatum i l) "target" = str (l_target l).
Proof.
  destruct (link_datum_has i l) as [Hs Ht]. unfold flowNodeFilterFromSankeyDatum, flowSankeyDatumValue.
  change (recordValue (Some (flowSankeyLinkDatum i l))) with (Some (flowSankeyLinkDatum i l)). cbn [mbind option_bind].
  unfold isSankeyLinkDatum, sankeyDatumValue. by rewrite Hs, Ht.
Qed.

Lemma contains_node q f : pathContainsFlowNode q f = true <-> exists x, x ∈ q /\ pn_kind x = nf_kind f /\ pn_id x = nf_id f.
Proof.
  unfold pathContainsFlowNode. rewrite existsb_exists. split.
  - intros (x & Hx%list_elem_of_In & [H1%bool_decide_eq_true H2%bool_decide_eq_true]%andb_true_iff). by exists x.
  - intros (x & Hx%list_elem_of_In & H1 & H2). exists x. split; [done|]. by rewrite !bool_decide_eq_true_2.
Qed.

(** A click on a node of the graph, read from the data of the chart, highlights exactly
    the nodes and links on the paths through that node and dims all others. *)
Theorem click_highlights localeCompare getDashboardChartColors rows metric role palette visibleStages ctx top mode labeler node link mask n :
  let build node link := buildFlowGraph localeCompare getDashboardChartColors rows metric role palette visibleStages ctx
                           (mkGraphOptions top mode labeler node link mask) in
  let paths := prepare_paths localeCompare rows metric (resolveVisibleStages role visibleStages) ctx (mkGraphOptions top mode labeler node link mask) in
  let through p := exists x, x ∈ path p /\ pn_kind x = n_kind n /\ pn_id x = n_id n in
  let clicked := build (flowNodeFilterFromSankeyDatum (flowSankeyNodeDatum n)) None in
  n ∈ g_nodes (build node link) ->
  (forall m, m ∈ g_nodes clicked -> exists b, n_highlighted m = Some b /\ n_dimmed m = Some (negb b) /\
     (b = true <-> exists p, p ∈ paths /\ through p /\ n_id m ∈ map pn_id (path p))) /\
  (forall l, l ∈ g_links clicked -> exists b, l_highlighted l = Some b /\ l_dimmed l = Some (negb b) /\
     (b = true <-> exists p, p ∈ paths /\ through p /\ linkStableKey l ∈ map (fun e => pathLinkKey e.1 e.2) (path_links (path p)))).
Proof.
  intros build paths through clicked Hn. unfold clicked. rewrite node_click. clear clicked. set (f := mkFilter (n_kind n) (n_id n)).
  apply shown_node in Hn as (n0 & Hn0 & Hid & Hkind & _). apply collected_node_on_path in Hn0 as (p0 & x & Hp0 & Hx & Hxid & Hxk). fold paths in Hp0.
  assert (forall p, matchesPath (Some f) None (path p) = true <-> through p) as Hm by (intros p; apply contains_node).
  pose proof (highlight_sets paths (Some f) None (resolveVisibleStages role visibleStages)) as Hh.
  destruct (buildFlowHighlightSets paths (Some f) None (resolveVisibleStages role visibleStages)) as [h|] eqn:E.
  - destruct Hh as (_ & Hhn & Hhl). split.
    + intros m Hin. destruct (node_flags_shown _ _ _ _ _ _ _ _ (mkGraphOptions top mode labeler (Some f) None mask) m h E Hin) as [H1 H2].
      eexists. split; [exact H1|]. split; [exact H2|]. rewrite bool_decide_eq_true, Hhn. by setoid_rewrite Hm.
    + intros l Hin. destruct (link_flags_shown _ _ _ _ _ _ _ _ (mkGraphOptions top mode labeler (Some f) None mask) l h E Hin) as [H1 H2].
      eexists. split; [exact H1|]. split; [exact H2|]. rewrite bool_decide_eq_true, Hhl. by setoid_rewrite Hm.
  - exfalso. destruct Hh as [Hh|Hh].
    + apply Hh. right. exists f. split; [done|]. cbn [nf_kind f]. rewrite Hkind, Hxk.
      rewrite <- (prepared_kinds localeCompare rows metric role visibleStages ctx _ p0 Hp0). by apply list_elem_of_fmap_2.
    + rewrite (Hh p0 Hp0) in Hx; [by apply not_elem_of_nil in Hx|]. apply Hm. exists x. split_and!; congruence.
Qed.

Lemma click_highlights_witness :
  let build node := buildFlowGraph (fun _ _ => 0%Z) (fun _ => []) [sample_row "a" "x" "m" 3; sample_row "b" "y" "m" 4]%string
                      MetricQuota RoleUser [] None None (mkGraphOptions None None None node None false) in
  exists n, n ∈ g_nodes (build None) /\
    forall m, m ∈ g_nodes (build (Some (mkFilter (n_kind n) (n_id n)))) -> exists b, n_highlighted m = Some b /\ n_dimmed m = Some (negb b).
Proof.
  intros build. destruct (g_nodes (build None)) as [|n rest] eqn:E; [vm_compute in E; discriminate|]. exists n.
  assert (n ∈ n :: rest) as Hn by left. split; [exact Hn|]. rewrite <- E in Hn.
  pose proof (click_highlights (fun _ _ => 0%Z) (fun _ => []) [sample_row "a" "x" "m" 3; sample_row "b" "y" "m" 4]%string
    MetricQuota RoleUser [] None None None None None None None false n Hn) as [H _].
  rewrite node_click in H. intros m Hm. destruct (H m Hm) as (b & H1 & H2 & _). exists b. split; [exact H1|exact H2].
Defined.

(** ** Masks change the order of equal nodes *)

Definition first_unit_order (a b : list N) : Z := (Z.of_N (default 0%N (head a)) - Z.of_N (default 0%N (head b)))%Z.

(** Nodes are ordered by value and then by the label that is shown, so that nodes of equal
    value change places when their names are masked. *)
Example masked_order_differs :
  let build mask := buildFlowGraph first_unit_order (fun _ => []) [sample_row "b" "x" "m" 1; sample_row "a" "x" "m" 1]%string
                      MetricQuota RoleUser [] None None (mkGraphOptions None None None None None mask) in
  map n_id (filter (fun n => n_kind n = KToken) (g_nodes (build false))) = [js "token:a"; js "token:b"] /\
  map n_id (filter (fun n => n_kind n = KToken) (g_nodes (build true))) = [js "token:b"; js "token:a"].
Proof. by vm_compute. Qed.
