(* ===== verification/RatioSync.v ===== *)
(** * Prices taken over from upstream channels
    (src/apps/web/src/features/system-settings/models/upstream-ratio-sync-helpers.ts,
    upstream-ratio-sync.tsx, upstream-ratio-sync-table.tsx)

    The administrator fetches the prices of other gateways, selects values for each model,
    and writes the selection into the price options.  A model is charged by a fixed price, by
    ratios, or by an expression ([billing_mode], [billing_expr]).

    Objects used as maps are [gmap]s; the fields of a model are the ten names of [RatioType].
    A value is the JSON number or text the backend sent.  The options are taken as the
    records their JSON texts hold, by field: [optionKeyBySyncField] names the option. *)
From S2P Require Import Prelude JsString JsNumber JsJson JsCollections ChannelForm.
From stdpp Require Import gmap.
From Stdlib Require Import Lia.

(** ** Fields *)

Inductive RatioType :=
| model_ratio | completion_ratio | cache_ratio | create_cache_ratio | image_ratio | audio_ratio | audio_completion_ratio
| model_price | billing_mode | billing_expr.

#[export] Instance RatioType_eq_dec : EqDecision RatioType.
Proof. solve_decision. Defined.

Definition RATIO_SYNC_FIELDS : list RatioType :=
  [model_ratio; completion_ratio; cache_ratio; create_cache_ratio; image_ratio; audio_ratio; audio_completion_ratio].

Definition SYNC_FIELD_ORDER : list RatioType := RATIO_SYNC_FIELDS ++ [model_price; billing_mode; billing_expr].

Definition NUMERIC_SYNC_FIELDS : list RatioType := RATIO_SYNC_FIELDS ++ [model_price].

#[export] Instance RatioType_countable : Countable RatioType.
Proof.
  refine (inj_countable' (fun t => match list_find (fun x => x = t) SYNC_FIELD_ORDER with Some (i, _) => i | None => 0 end)
            (fun i => nth i SYNC_FIELD_ORDER billing_expr) _).
  by intros [].
Defined.

Definition field_text (t : RatioType) : list N :=
  match t with
  | model_ratio => js "model_ratio" | completion_ratio => js "completion_ratio" | cache_ratio => js "cache_ratio"
  | create_cache_ratio => js "create_cache_ratio" | image_ratio => js "image_ratio" | audio_ratio => js "audio_ratio"
  | audio_completion_ratio => js "audio_completion_ratio" | model_price => js "model_price"
  | billing_mode => js "billing_mode" | billing_expr => js "billing_expr"
  end.

(** The names of fields are ASCII, and so is their first letter in upper case. *)
Definition upper_first (word : list N) : list N :=
  match word with c :: rest => (if ((97 <=? c) && (c <=? 122))%N then (c - 32)%N else c) :: rest | [] => [] end.

Definition optionKeyBySyncField (t : RatioType) : list N :=
  match t with
  | billing_mode => js "billing_setting.billing_mode"
  | billing_expr => js "billing_setting.billing_expr"
  | _ => concat (map upper_first (split_on 95%N (field_text t)))
  end.

Inductive BillingCategory := Price | Ratio | Tiered.

#[export] Instance BillingCategory_eq_dec : EqDecision BillingCategory.
Proof. solve_decision. Defined.

Definition getBillingCategory (t : RatioType) : BillingCategory :=
  match t with model_price => Price | billing_mode | billing_expr => Tiered | _ => Ratio end.

(** ** Differences and selections *)

Record RatioDifferenceEntry := mkEntry { current : option json; upstreams : gmap (list N) json }.

Notation ModelDiffs := (gmap RatioType RatioDifferenceEntry) (only parsing).
Notation Differences := (gmap (list N) (gmap RatioType RatioDifferenceEntry)) (only parsing).
Notation ResolutionsMap := (gmap (list N) (gmap RatioType json)) (only parsing).

Record ResolutionSelection := mkSelect { s_model : list N; s_type : RatioType; s_value : json; s_source : list N }.

Definition isSelectableUpstreamValue (v : option json) : bool :=
  match v with
  | None | Some JNull => false
  | Some (JStr s) => negb (bool_decide (s = js "same"))
  | Some _ => true
  end.

Definition upstream_value (diffs : ModelDiffs) (t : RatioType) (source : list N) : option json :=
  entry ← diffs !! t; upstreams entry !! source.

Definition getOrderedRatioTypes (ratioTypes : ModelDiffs) (only : option RatioType) : list RatioType :=
  let ordered := filter (fun f => is_Some (ratioTypes !! f)) SYNC_FIELD_ORDER in
  match only with None => ordered | Some f => filter (fun t => t = f) ordered end.

Definition getPreferredSyncField (ratioTypes : ModelDiffs) (t : RatioType) (sourceName : list N) : RatioType :=
  if negb (bool_decide (t = billing_expr)) && isSelectableUpstreamValue (upstream_value ratioTypes billing_expr sourceName) then billing_expr else t.

Definition getVisibleRatioTypesForSource (ratioTypes : ModelDiffs) (sourceName : list N) (only : option RatioType) : list RatioType :=
  filter (fun t => getPreferredSyncField ratioTypes t sourceName = t) (getOrderedRatioTypes ratioTypes only).

Definition getAlignedRatioTypes (ratioTypes : ModelDiffs) (sourceNames : list (list N)) (only : option RatioType) : list RatioType :=
  let ordered := getOrderedRatioTypes ratioTypes only in
  match sourceNames with
  | [] => ordered
  | _ => filter (fun t => t ∈ flat_map (fun s => getVisibleRatioTypesForSource ratioTypes s only) sourceNames) ordered
  end.

Definition isSelectedResolutionValue (resolutions : ResolutionsMap) (model : list N) (t : RatioType) (upstreamValue : option json) : bool :=
  match upstreamValue with
  | Some v =>
      if negb (isSelectableUpstreamValue upstreamValue) then false
      else
        match resolutions !! model ≫= lookup t with
        | None => false
        | Some selectedValue =>
            if bool_decide (t ∈ NUMERIC_SYNC_FIELDS) then
              let selectedNumber := json_to_number selectedValue in
              let upstreamNumber := json_to_number v in
              is_finite selectedNumber && is_finite upstreamNumber && num_eqb selectedNumber upstreamNumber
            else
              match selectedValue, v with
              | JStr a, JStr b => bool_decide (a = b)
              | JNum a, JNum b => num_eqb a b
              | JBool a, JBool b => bool_decide (a = b)
              | _, _ => false
              end
        end
  | None => false
  end.

Definition resolveResolutionSelection (differences : Differences) (s : ResolutionSelection) : ResolutionSelection :=
  let modelDiffs := default ∅ (differences !! s_model s) in
  let preferredType := getPreferredSyncField modelDiffs (s_type s) (s_source s) in
  let preferredValue :=
    if bool_decide (preferredType = s_type s) then s_value s
    else match upstream_value modelDiffs preferredType (s_source s) with Some JNull | None => s_value s | Some v => v end in
  mkSelect (s_model s) preferredType preferredValue (s_source s).

(** The fields a selection of the given category leaves. *)
Definition drop_other_category (category : BillingCategory) (draft : gmap RatioType json) : gmap RatioType json :=
  match category with
  | Tiered => draft
  | _ => filter (fun kv => getBillingCategory kv.1 = Tiered \/ getBillingCategory kv.1 = category) draft
  end.

(** The mode and expression of the source that come with a tiered field. *)
Definition add_tiered (modelDiffs : ModelDiffs) (finalType : RatioType) (source : list N) (draft : gmap RatioType json) : gmap RatioType json :=
  let modeVal := upstream_value modelDiffs billing_mode source in
  let exprVal := upstream_value modelDiffs billing_expr source in
  let draft1 :=
    match modeVal with
    | Some v => if isSelectableUpstreamValue modeVal then <[billing_mode := v]> draft
                else if bool_decide (finalType = billing_expr) then <[billing_mode := JStr (js "tiered_expr")]> draft else draft
    | None => if bool_decide (finalType = billing_expr) then <[billing_mode := JStr (js "tiered_expr")]> draft else draft
    end in
  match exprVal with
  | Some v => if isSelectableUpstreamValue exprVal then <[billing_expr := v]> draft1 else draft1
  | None => draft1
  end.

Definition select_in_draft (differences : Differences) (s : ResolutionSelection) (draft : gmap RatioType json) : gmap RatioType json :=
  let resolved := resolveResolutionSelection differences s in
  let category := getBillingCategory (s_type resolved) in
  let draft1 := <[s_type resolved := s_value resolved]> (drop_other_category category draft) in
  match differences !! s_model s with
  | Some modelDiffs => if bool_decide (category = Tiered) then add_tiered modelDiffs (s_type resolved) (s_source s) draft1 else draft1
  | None => draft1
  end.

Definition getDraftModelResolution (drafts resolutions : ResolutionsMap) (model : list N) : gmap RatioType json :=
  default (default ∅ (resolutions !! model)) (drafts !! model).

Definition applyResolutionSelectionToDraft (resolutions : ResolutionsMap) (differences : Differences) (drafts : ResolutionsMap) (s : ResolutionSelection) : ResolutionsMap :=
  <[s_model s := select_in_draft differences s (getDraftModelResolution drafts resolutions (s_model s))]> drafts.

(** A draft replaces the fields of its model; a model without fields is not listed. *)
Definition put_draft (model : list N) (draft : gmap RatioType json) (next : ResolutionsMap) : ResolutionsMap :=
  if bool_decide (draft = ∅) then delete model next else <[model := draft]> next.

Definition applyResolutionSelections (resolutions : ResolutionsMap) (differences : Differences) (selections : list ResolutionSelection) : ResolutionsMap :=
  match selections with
  | [] => resolutions
  | _ => map_fold put_draft resolutions (fold_left (applyResolutionSelectionToDraft resolutions differences) selections ∅)
  end.

Definition applyResolutionSelection (resolutions : ResolutionsMap) (differences : Differences) (s : ResolutionSelection) : ResolutionsMap :=
  applyResolutionSelections resolutions differences [s].

(** The key [model + NUL + type] is that of the pair, as no type contains a NUL. *)
Definition select_key (s : ResolutionSelection) : list N * RatioType := (s_model s, s_type s).

Definition add_effective (differences : Differences) (effective : list ResolutionSelection) (s : ResolutionSelection) : list ResolutionSelection :=
  let resolved := resolveResolutionSelection differences s in
  let category := getBillingCategory (s_type resolved) in
  let kept :=
    match category with
    | Tiered => effective
    | _ => filter (fun e => ~ (s_model e = s_model resolved /\ getBillingCategory (s_type e) <> Tiered /\ getBillingCategory (s_type e) <> category)) effective
    end in
  map_put select_key resolved kept.

Definition getEffectiveResolutionSelections (differences : Differences) (selections : list ResolutionSelection) : list ResolutionSelection :=
  fold_left (add_effective differences) selections [].

(** ** Removals *)

Notation ResolutionRemovalPlan := (gmap (list N) (gset RatioType)) (only parsing).

Definition remove_type (t : RatioType) (draft : gmap RatioType json) : gmap RatioType json :=
  let draft1 := delete t draft in
  match t with
  | billing_expr => delete billing_mode draft1
  | billing_mode => delete billing_expr draft1
  | _ => draft1
  end.

Definition remove_types (ratioTypes : gset RatioType) (draft : gmap RatioType json) : gmap RatioType json := set_fold remove_type draft ratioTypes.

Definition remove_planned (resolutions : ResolutionsMap) (model : list N) (ratioTypes : gset RatioType) (next : ResolutionsMap) : ResolutionsMap :=
  match resolutions !! model with
  | None => next
  | Some current => put_draft model (remove_types ratioTypes current) next
  end.

Definition applyResolutionRemovalPlan (resolutions : ResolutionsMap) (plan : ResolutionRemovalPlan) : ResolutionsMap :=
  map_fold (remove_planned resolutions) resolutions plan.

Definition add_removal (plan : ResolutionRemovalPlan) (r : list N * RatioType) : ResolutionRemovalPlan :=
  <[r.1 := default ∅ (plan !! r.1) ∪ {[r.2]}]> plan.

Definition applyResolutionRemovals (resolutions : ResolutionsMap) (removals : list (list N * RatioType)) : ResolutionsMap :=
  match removals with [] => resolutions | _ => applyResolutionRemovalPlan resolutions (fold_left add_removal removals ∅) end.

Definition deleteResolutionField (resolutions : ResolutionsMap) (model : list N) (t : RatioType) : ResolutionsMap :=
  applyResolutionRemovals resolutions [(model, t)].

(** ** Writing the options *)

(** The options of the prices, each a map from models to values. *)
Notation Options := (RatioType -> gmap (list N) json) (only parsing).

Definition has_any (r : gmap RatioType json) (fields : list RatioType) : bool := existsb (fun t => bool_decide (is_Some (r !! t))) fields.

Definition getLocalBillingCategory (model : list N) (currentRatios : Options) : option BillingCategory :=
  if bool_decide (is_Some (currentRatios model_price !! model)) then Some Price
  else if existsb (fun t => bool_decide (is_Some (currentRatios t !! model))) RATIO_SYNC_FIELDS then Some Ratio
  else None.

Definition new_category (ratios : gmap RatioType json) : BillingCategory :=
  if bool_decide (is_Some (ratios !! model_price)) then Price
  else if has_any ratios RATIO_SYNC_FIELDS then Ratio
  else Tiered.

Definition is_conflict (currentRatios : Options) (model : list N) (ratios : gmap RatioType json) : bool :=
  match getLocalBillingCategory model currentRatios with
  | Some localCat => negb (bool_decide (new_category ratios = Tiered)) && negb (bool_decide (localCat = new_category ratios))
  | None => false
  end.

Definition synced_value (t : RatioType) (v : json) : json := if bool_decide (t ∈ NUMERIC_SYNC_FIELDS) then JNum (json_to_number v) else v.

(** The deletions of one model, then its values; each field has an option of its own. *)
Definition sync_model (model : list N) (ratios : gmap RatioType json) (final : Options) : Options := fun t =>
  let hasPrice := bool_decide (is_Some (ratios !! model_price)) in
  let hasRatio := has_any ratios RATIO_SYNC_FIELDS in
  let base := if hasPrice && bool_decide (t ∈ RATIO_SYNC_FIELDS) || hasRatio && bool_decide (t = model_price) then delete model (final t) else final t in
  match ratios !! t with Some v => <[model := synced_value t v]> base | None => base end.

Definition performSync (resolutions : ResolutionsMap) (currentRatios : Options) : Options := map_fold sync_model currentRatios resolutions.

(** ** The page *)

Record Page := mkPage {
  differences : Differences;
  resolutions : ResolutionsMap;
  conflictItems : gset (list N);             (* the models shown in the dialog *)
  conflictDialogOpen : bool }.

Definition conflicts (currentRatios : Options) (res : ResolutionsMap) : gset (list N) :=
  dom (filter (fun kv => is_conflict currentRatios kv.1 kv.2 = true) res).

(** Prices are written at once, unless a model would change between price and ratios. *)
Definition handleApplySync (currentRatios : Options) (p : Page) : Page * option Options :=
  let found := conflicts currentRatios (resolutions p) in
  if bool_decide (found = ∅) then (p, Some (performSync (resolutions p) currentRatios))
  else (mkPage (differences p) (resolutions p) found true, None).

Definition handleConfirmConflict (currentRatios : Options) (p : Page) : Page * option Options :=
  if conflictDialogOpen p then (p, Some (performSync (resolutions p) currentRatios)) else (p, None).

Definition without_synced (lockedModels : gset (list N)) (model : list N) (ratios : gmap RatioType json) (newDiffs : Differences) : Differences :=
  if bool_decide (model ∈ lockedModels) then newDiffs
  else
    match newDiffs !! model with
    | None => newDiffs
    | Some diffs =>
        let remaining := filter (fun kv => ratios !! kv.1 = None) diffs in
        if bool_decide (remaining = ∅) then delete model newDiffs else <[model := remaining]> newDiffs
    end.

Inductive Event :=
| Fetched (diffs : Differences)
| SelectValues (selections : list ResolutionSelection)
| UnselectValue (model : list N) (t : RatioType)
| UnselectValues (plan : ResolutionRemovalPlan)
| ApplySync (currentRatios : Options)
| ConfirmConflict (currentRatios : Options)
| CancelConflict
| SyncSucceeded (lockedModels : gset (list N)).

Definition page_step (p : Page) (e : Event) : Page * option Options :=
  match e with
  | Fetched diffs => (mkPage diffs ∅ (conflictItems p) (conflictDialogOpen p), None)
  | SelectValues sels => (mkPage (differences p) (applyResolutionSelections (resolutions p) (differences p) sels) (conflictItems p) (conflictDialogOpen p), None)
  | UnselectValue m t => (mkPage (differences p) (deleteResolutionField (resolutions p) m t) (conflictItems p) (conflictDialogOpen p), None)
  | UnselectValues plan => (mkPage (differences p) (applyResolutionRemovalPlan (resolutions p) plan) (conflictItems p) (conflictDialogOpen p), None)
  | ApplySync cur => handleApplySync cur p
  | ConfirmConflict cur => handleConfirmConflict cur p
  | CancelConflict => (mkPage (differences p) (resolutions p) (conflictItems p) false, None)
  | SyncSucceeded locked =>
      (mkPage (map_fold (without_synced locked) (differences p) (resolutions p)) ∅ (conflictItems p) false, None)
  end.

Definition page_run (es : list Event) (p : Page) : Page := fold_left (fun p e => (page_step p e).1) es p.
Definition page_init : Page := mkPage ∅ ∅ ∅ false.

(** ** Invariant of the selection *)

(** A model has a fixed price or ratios, not both. *)
Definition consistent (r : gmap RatioType json) : Prop := r !! model_price = None \/ forall t, t ∈ RATIO_SYNC_FIELDS -> r !! t = None.

Definition selection_ok (res : ResolutionsMap) : Prop := map_Forall (fun _ r => r <> ∅ /\ consistent r) res.

Lemma consistent_sub r r' : consistent r -> (forall t, getBillingCategory t <> Tiered -> r !! t = None -> r' !! t = None) -> consistent r'.
Proof.
  intros [H|H] Hsub; [left; by apply Hsub|right]. intros t Ht. apply Hsub; [|by apply H]. unfold RATIO_SYNC_FIELDS in Ht. by set_unfold in Ht; naive_solver.
Qed.

Lemma ratio_fields t : t ∈ RATIO_SYNC_FIELDS <-> getBillingCategory t = Ratio.
Proof. unfold RATIO_SYNC_FIELDS. destruct t; cbn; set_solver. Qed.

Lemma drop_other_lookup c r t : drop_other_category c r !! t =
  if decide (c = Tiered \/ getBillingCategory t = Tiered \/ getBillingCategory t = c) then r !! t else None.
Proof.
  unfold drop_other_category. destruct c; [| |rewrite decide_True by (by left); done];
  (destruct (decide _) as [Hd|Hd]; [destruct (r !! t) as [v|] eqn:E;
     [apply map_lookup_filter_Some; split; [done|naive_solver]|apply map_lookup_filter_None; by left]
   |apply map_lookup_filter_None; right; intros v _ Hc; apply Hd; naive_solver]).
Qed.

Lemma add_tiered_lookup d ft src r t : getBillingCategory t <> Tiered -> add_tiered d ft src r !! t = r !! t.
Proof.
  intros Ht. unfold add_tiered. destruct (upstream_value d billing_mode src) as [v|], (upstream_value d billing_expr src) as [w|];
  repeat (case_match); rewrite ?lookup_insert_ne by (by intros <-); done.
Qed.

Lemma select_consistent diffs s r : consistent r -> consistent (select_in_draft diffs s r).
Proof.
  intros Hr. unfold select_in_draft. cbv zeta. set (s' := resolveResolutionSelection diffs s). set (t' := s_type s').
  set (r1 := <[t' := s_value s']> (drop_other_category (getBillingCategory t') r)).
  assert (consistent r1) as H1.
  { unfold r1. destruct (getBillingCategory t') eqn:Ec.
    - (* a price *) right. intros t Ht%ratio_fields. rewrite lookup_insert_ne by (intros <-; congruence). rewrite drop_other_lookup, decide_False; [done|].
      intros [|[|]]; congruence.
    - left. rewrite lookup_insert_ne by (intros E; rewrite E in Ec; done). rewrite drop_other_lookup, decide_False; [done|]. intros [|[|]]; done.
    - eapply consistent_sub; [exact Hr|]. intros t Ht Hn. rewrite lookup_insert_ne by (intros <-; congruence). by rewrite drop_other_lookup, decide_True by (by left). }
  destruct (diffs !! s_model s) as [d|]; [|done]. case_bool_decide; [|done]. eapply consistent_sub; [exact H1|]. intros t Ht Hn. by rewrite add_tiered_lookup.
Qed.

Lemma put_draft_ok model draft next : consistent draft -> selection_ok next -> selection_ok (put_draft model draft next).
Proof.
  intros Hd Hn. unfold put_draft. case_bool_decide as E; [by apply map_Forall_delete|]. by apply map_Forall_insert_2.
Qed.

Lemma empty_consistent : consistent ∅.
Proof. left. done. Qed.

Lemma draft_consistent res drafts model :
  selection_ok res -> map_Forall (fun _ r => consistent r) drafts -> consistent (getDraftModelResolution drafts res model).
Proof.
  intros Hr Hd. unfold getDraftModelResolution. destruct (drafts !! model) as [d|] eqn:E; [by eapply Hd|]. cbn.
  destruct (res !! model) as [r|] eqn:Er; [|apply empty_consistent]. cbn. by destruct (Hr model r Er).
Qed.

Lemma drafts_consistent res diffs sels drafts :
  selection_ok res -> map_Forall (fun _ r => consistent r) drafts ->
  map_Forall (fun _ r => consistent r) (fold_left (applyResolutionSelectionToDraft res diffs) sels drafts).
Proof.
  intros Hr. revert drafts. induction sels as [|s sels IH]; intros drafts Hd; [done|]. cbn [fold_left]. apply IH.
  apply map_Forall_insert_2; [|done]. by apply select_consistent, draft_consistent.
Qed.

Lemma put_drafts_ok res drafts : selection_ok res -> map_Forall (fun _ r => consistent r) drafts -> selection_ok (map_fold put_draft res drafts).
Proof.
  intros Hr. revert drafts. apply (map_fold_weak_ind (fun acc drafts => map_Forall (fun _ r => consistent r) drafts -> selection_ok acc)); [done|].
  intros m r drafts acc Hm IH Hd. rewrite map_Forall_insert in Hd by done. destruct Hd. apply put_draft_ok; auto.
Qed.

Lemma selections_ok res diffs sels : selection_ok res -> selection_ok (applyResolutionSelections res diffs sels).
Proof.
  intros Hr. unfold applyResolutionSelections. destruct sels as [|s sels]; [done|]. apply put_drafts_ok; [done|].
  apply drafts_consistent; [done|]. apply map_Forall_empty.
Qed.

Lemma remove_type_lookup t r t' : remove_type t r !! t' =
  if decide (t = t' \/ getBillingCategory t = Tiered /\ getBillingCategory t' = Tiered) then None else r !! t'.
Proof.
  destruct (decide _) as [Hd|Hd]; unfold remove_type.
  - destruct t, t'; cbn in Hd; try (exfalso; naive_solver); rewrite ?lookup_delete_eq; try done; by rewrite lookup_delete_ne, ?lookup_delete_eq.
  - destruct t, t'; cbn in Hd; try (exfalso; naive_solver); rewrite ?lookup_delete_ne by done; done.
Qed.

(** What a set of removals leaves. *)
Lemma remove_types_lookup ts r t' : remove_types ts r !! t' =
  if decide (exists t, t ∈ ts /\ (t = t' \/ getBillingCategory t = Tiered /\ getBillingCategory t' = Tiered)) then None else r !! t'.
Proof.
  unfold remove_types. revert ts. apply (set_fold_ind_L (fun acc ts => acc !! t' = if decide (exists t, t ∈ ts /\ (t = t' \/ getBillingCategory t = Tiered /\ getBillingCategory t' = Tiered)) then None else r !! t')).
  - rewrite decide_False; [done|]. by intros (t & []%elem_of_empty & _).
  - intros t ts acc _ IH. rewrite remove_type_lookup, IH. destruct (decide (t = t' \/ _)) as [H1|H1].
    + rewrite decide_True; [done|]. exists t. split; [set_solver|done].
    + destruct (decide (exists x, x ∈ ts /\ _)) as [(x & Hx & H2)|H2].
      * rewrite decide_True; [done|]. exists x. split; [set_solver|done].
      * rewrite decide_False; [done|]. intros (x & Hx & H3). apply elem_of_union in Hx as [->%elem_of_singleton|Hx]; [done|]. apply H2. by exists x.
Qed.

Lemma remove_types_consistent ts r : consistent r -> consistent (remove_types ts r).
Proof. intros Hr. eapply consistent_sub; [exact Hr|]. intros t _ Hn. rewrite remove_types_lookup. by case_decide. Qed.

Lemma removal_plan_ok res plan : selection_ok res -> selection_ok (applyResolutionRemovalPlan res plan).
Proof.
  intros Hr. unfold applyResolutionRemovalPlan. revert plan. apply (map_fold_weak_ind (fun acc _ => selection_ok acc)); [done|].
  intros m ts plan acc _ IH. unfold remove_planned. destruct (res !! m) as [r|] eqn:E; [|done]. apply put_draft_ok; [|done].
  apply remove_types_consistent. by destruct (Hr m r E).
Qed.

Lemma removals_ok res l : selection_ok res -> selection_ok (applyResolutionRemovals res l).
Proof. intros Hr. unfold applyResolutionRemovals. destruct l; [done|]. by apply removal_plan_ok. Qed.

Lemma page_step_ok p e : selection_ok (resolutions p) -> selection_ok (resolutions (page_step p e).1).
Proof.
  intros Hp. destruct e; cbn [page_step fst resolutions]; try done.
  - by apply selections_ok.
  - by apply removals_ok.
  - by apply removal_plan_ok.
  - unfold handleApplySync. by case_bool_decide.
  - unfold handleConfirmConflict. by destruct (conflictDialogOpen p).
Qed.

Lemma reachable_selection_ok es p : selection_ok (resolutions p) -> selection_ok (resolutions (page_run es p)).
Proof. revert p. induction es as [|e es IH]; intros p Hp; [done|]. cbn. by apply IH, page_step_ok. Qed.

(** ** What is written *)

Lemma sync_model_other m r final t m' : m <> m' -> sync_model m r final t !! m' = final t !! m'.
Proof.
  intros Hne. unfold sync_model. cbv zeta. destruct (r !! t) as [v|]; [rewrite lookup_insert_ne by done|]; case_match; by rewrite ?lookup_delete_ne.
Qed.

Lemma sync_model_same m r final final' t : final t !! m = final' t !! m -> sync_model m r final t !! m = sync_model m r final' t !! m.
Proof.
  intros He. unfold sync_model. cbv zeta. destruct (r !! t) as [v|]; [by rewrite !lookup_insert_eq|]. case_match; by rewrite ?lookup_delete_eq.
Qed.

Lemma performSync_lookup res cur t m :
  performSync res cur t !! m = match res !! m with None => cur t !! m | Some r => sync_model m r cur t !! m end.
Proof.
  unfold performSync. revert res.
  apply (map_fold_weak_ind (fun acc res => acc t !! m = match res !! m with None => cur t !! m | Some r => sync_model m r cur t !! m end)); [done|].
  intros m' r res acc Hm' IH. destruct (decide (m' = m)) as [->|Hne].
  - rewrite lookup_insert_eq. apply sync_model_same. rewrite IH. by rewrite Hm'.
  - rewrite lookup_insert_ne by done. by rewrite sync_model_other.
Qed.

Lemma has_any_spec r fields : has_any r fields = true <-> exists t, t ∈ fields /\ is_Some (r !! t).
Proof.
  unfold has_any. rewrite existsb_exists. setoid_rewrite list_elem_of_In. by setoid_rewrite bool_decide_eq_true.
Qed.

(** The ratio options: all but the fixed price and the two options of the expression. *)
Definition is_ratio (t : RatioType) : Prop := t <> model_price /\ t <> billing_mode /\ t <> billing_expr.

Lemma is_ratio_fields t : is_ratio t <-> t ∈ RATIO_SYNC_FIELDS.
Proof. rewrite ratio_fields. unfold is_ratio. destruct t; cbn [getBillingCategory]; naive_solver. Qed.

(** The values of one model after the write of the selected ones [r]: numbers are stored as
    numbers, the options of the expression as they are; a fixed price removes the ratios and
    a ratio the fixed price; the rest stays. *)
Definition written (r : gmap RatioType json) (old new : RatioType -> option json) : Prop :=
  (forall t v, r !! t = Some v -> new t = Some match t with billing_mode | billing_expr => v | _ => JNum (json_to_number v) end) /\
  (is_Some (r !! model_price) -> forall t, is_ratio t -> new t = None) /\
  ((exists t, is_ratio t /\ is_Some (r !! t)) -> new model_price = None) /\
  (forall t, r !! t = None -> (is_ratio t -> r !! model_price = None) -> (t = model_price -> forall t', is_ratio t' -> r !! t' = None) ->
     new t = old t).

(** The model loses its fixed price, or it has ratios only and gets one. *)
Definition moved (old new : RatioType -> option json) : Prop :=
  is_Some (old model_price) /\ new model_price = None \/
  old model_price = None /\ (exists t, is_ratio t /\ is_Some (old t)) /\ is_Some (new model_price).

Lemma synced_value_spec t v : synced_value t v = match t with billing_mode | billing_expr => v | _ => JNum (json_to_number v) end.
Proof. by destruct t. Qed.

Lemma has_ratio_spec r : has_any r RATIO_SYNC_FIELDS = true <-> exists t, is_ratio t /\ is_Some (r !! t).
Proof. rewrite has_any_spec. by setoid_rewrite is_ratio_fields. Qed.

Lemma sync_model_none m r cur t :
  r !! t = None ->
  sync_model m r cur t !! m =
    if bool_decide (is_Some (r !! model_price)) && bool_decide (t ∈ RATIO_SYNC_FIELDS) ||
       has_any r RATIO_SYNC_FIELDS && bool_decide (t = model_price) then None else cur t !! m.
Proof. intros Ht. unfold sync_model. cbv zeta. rewrite Ht. case_match; [by rewrite lookup_delete_eq|done]. Qed.

Lemma consistent_ratio r t : consistent r -> is_Some (r !! model_price) -> is_ratio t -> r !! t = None.
Proof. intros [Hc|Hc] [v Hv] Ht; [congruence|]. by apply Hc, is_ratio_fields. Qed.

Lemma sync_model_written m r cur : consistent r -> written r (fun t => cur t !! m) (fun t => sync_model m r cur t !! m).
Proof.
  intros Hc. split_and!.
  - intros t v Hv. rewrite <- synced_value_spec. unfold sync_model. by rewrite Hv, lookup_insert_eq.
  - intros Hp t Ht. rewrite sync_model_none by (by apply consistent_ratio). apply is_ratio_fields in Ht.
    by rewrite (bool_decide_eq_true_2 _ Hp), (bool_decide_eq_true_2 _ Ht).
  - intros (t & Ht & Hr). rewrite sync_model_none.
    + rewrite (proj2 (has_ratio_spec r)), (bool_decide_eq_true_2 (model_price = model_price)) by eauto. by rewrite orb_true_r.
    + apply eq_None_not_Some. intros Hp. rewrite (consistent_ratio r t) in Hr by done. by destruct Hr.
  - intros t Ht Hp Hr. rewrite sync_model_none by done. case_match eqn:E; [|done]. exfalso. apply orb_true_iff in E as [[E1 E2]%andb_true_iff|[E1 E2]%andb_true_iff].
    + apply bool_decide_eq_true, is_ratio_fields in E2. apply bool_decide_eq_true in E1 as [v Hv]. rewrite Hp in Hv by done. done.
    + apply has_ratio_spec in E1 as (t' & Ht' & [v Hv]). apply bool_decide_eq_true in E2. by rewrite (Hr E2 t' Ht') in Hv.
Qed.

(** The conflicts the page finds are the models that would move. *)
Lemma conflict_moves m r cur :
  consistent r -> is_conflict cur m r = true <-> moved (fun t => cur t !! m) (fun t => sync_model m r cur t !! m).
Proof.
  intros Hc. destruct (sync_model_written m r cur Hc) as (W1 & W2 & W3 & W4).
  assert (existsb (fun t => bool_decide (is_Some (cur t !! m))) RATIO_SYNC_FIELDS = true <-> exists t, is_ratio t /\ is_Some (cur t !! m)) as Hl.
  { rewrite existsb_exists. setoid_rewrite is_ratio_fields. setoid_rewrite list_elem_of_In. by setoid_rewrite bool_decide_eq_true. }
  unfold is_conflict, getLocalBillingCategory, new_category, moved.
  destruct (cur model_price !! m) as [o|] eqn:Eo.
  - rewrite (bool_decide_eq_true_2 (is_Some (Some o))) by eauto. destruct (r !! model_price) as [v|] eqn:Ep.
    + rewrite (bool_decide_eq_true_2 (is_Some (Some v))) by eauto. rewrite (W1 _ _ Ep). split; [done|]. intros [[_ ?]|[? _]]; done.
    + rewrite (bool_decide_eq_false_2 (is_Some None)) by (by intros [? ?]). destruct (has_any r RATIO_SYNC_FIELDS) eqn:Er.
      * split; [|done]. intros _. left. split; [eauto|]. by apply W3, has_ratio_spec.
      * split; [done|]. rewrite W4; [|done|done|].
        -- rewrite Eo. intros [[_ ?]|[? _]]; done.
        -- intros _ t Ht. apply eq_None_not_Some. intros Hs. by rewrite (proj2 (has_ratio_spec r)) in Er by eauto.
  - rewrite (bool_decide_eq_false_2 (is_Some None)) by (by intros [? ?]). destruct (existsb _ RATIO_SYNC_FIELDS) eqn:El.
    + destruct (r !! model_price) as [v|] eqn:Ep.
      * rewrite (bool_decide_eq_true_2 (is_Some (Some v))) by eauto. split; [|done]. intros _. right. split_and!; [done|by apply Hl|]. rewrite (W1 _ _ Ep). eauto.
      * rewrite (bool_decide_eq_false_2 (is_Some None)) by (by intros [? ?]). rewrite sync_model_none by done. rewrite Ep, Eo.
        assert (is_Some (if bool_decide (is_Some (None : option json)) && bool_decide (model_price ∈ RATIO_SYNC_FIELDS)
          || has_any r RATIO_SYNC_FIELDS && bool_decide (model_price = model_price) then None else (None : option json)) -> False) as Hn
          by (case_match; by intros [? ?]).
        destruct (has_any r RATIO_SYNC_FIELDS); (split; [done|]); intros [[[? ?] _]|(_ & _ & H)]; done.
    + split; [done|]. intros [[[? ?] _]|(_ & H & _)]; [done|]. apply Hl in H. congruence.
Qed.

Lemma conflicts_moved cur res :
  selection_ok res -> conflicts cur res <> ∅ <-> exists m, moved (fun t => cur t !! m) (fun t => performSync res cur t !! m).
Proof.
  intros Hok. split.
  - intros (m & Hm)%set_choose_L. unfold conflicts in Hm. apply elem_of_dom in Hm as [r [Hr Hc]%map_lookup_filter_Some]. cbn [fst snd] in Hc.
    exists m. apply conflict_moves in Hc; [|by apply (Hok m r Hr)]. unfold moved in *. by setoid_rewrite performSync_lookup; rewrite Hr.
  - intros (m & Hm) He. unfold moved in Hm. rewrite !performSync_lookup in Hm. destruct (res !! m) as [r|] eqn:Hr.
    + assert (m ∈ conflicts cur res) as Hin; [|rewrite He in Hin; by apply not_elem_of_empty in Hin].
      apply elem_of_dom. exists r. apply map_lookup_filter_Some. split; [done|]. apply conflict_moves; [by apply (Hok m r Hr)|done].
    + destruct Hm as [[[v Hv] Hn]|(Hn & _ & [v Hv])]; congruence.
Qed.

Lemma sync_written res cur m r :
  selection_ok res -> res !! m = Some r -> written r (fun t => cur t !! m) (fun t => performSync res cur t !! m).
Proof.
  intros Hok Hr. destruct (Hok m r Hr) as [_ Hc]. destruct (sync_model_written m r cur Hc) as (W1 & W2 & W3 & W4).
  unfold written. split_and!.
  - intros t v Hv. rewrite performSync_lookup, Hr. by apply W1.
  - intros Hp t Ht. rewrite performSync_lookup, Hr. by apply W2.
  - intros Ht. rewrite performSync_lookup, Hr. by apply W3.
  - intros t H1 H2 H3. rewrite performSync_lookup, Hr. by apply W4.
Qed.

(** C32: whatever was selected and unselected before, a write of the prices changes the selected
    models only: it writes the selected values, removes the ratios of a model that gets a
    fixed price and the price of one that gets ratios, and keeps the rest.  A model that would
    lose its fixed price, or get one in place of its ratios, is written by the confirmation of
    the open dialog only; applying writes at once exactly when there is no such model, and
    opens the dialog otherwise. *)
Theorem prices_written (es : list Event) (e : Event) :
  let p := page_run es page_init in
  let move cur w m := moved (fun t => cur t !! m) (fun t => w t !! m) in
  (forall w, (page_step p e).2 = Some w ->
     exists cur, (e = ApplySync cur \/ e = ConfirmConflict cur /\ conflictDialogOpen p = true) /\
       forall m,
         (resolutions p !! m = None -> forall t, w t !! m = cur t !! m) /\
         (forall r, resolutions p !! m = Some r -> written r (fun t => cur t !! m) (fun t => w t !! m)) /\
         (move cur w m -> e = ConfirmConflict cur)) /\
  (forall cur, e = ApplySync cur ->
     ((page_step p e).2 = None <-> exists m, move cur (performSync (resolutions p) cur) m) /\
     ((page_step p e).2 = None -> conflictDialogOpen (page_step p e).1 = true)).
Proof.
  intros p move. assert (selection_ok (resolutions p)) as Hok by (apply reachable_selection_ok; apply map_Forall_empty). split.
  - intros w Hw. assert (forall cur m, w = performSync (resolutions p) cur ->
      (resolutions p !! m = None -> forall t, w t !! m = cur t !! m) /\
      (forall r, resolutions p !! m = Some r -> written r (fun t => cur t !! m) (fun t => w t !! m))) as Hsync.
    { intros cur m ->. split; [intros Hn t; by rewrite performSync_lookup, Hn|]. intros r Hr. by apply sync_written. }
    destruct e; try done; cbn [page_step] in Hw.
    + unfold handleApplySync in Hw. cbv zeta in Hw. case_bool_decide as E; [|done]. injection Hw as <-. exists currentRatios. split; [by left|].
      intros m. destruct (Hsync currentRatios m eq_refl) as [H1 H2]. split_and!; [done|done|]. intros Hm. exfalso.
      apply (proj2 (conflicts_moved currentRatios (resolutions p) Hok)); [by exists m|done].
    + unfold handleConfirmConflict in Hw. destruct (conflictDialogOpen p) eqn:E; [|done]. injection Hw as <-. exists currentRatios.
      split; [right; by split|]. intros m. destruct (Hsync currentRatios m eq_refl) as [H1 H2]. by split_and!.
  - intros cur ->. cbn [page_step]. unfold handleApplySync. cbv zeta. case_bool_decide as E; (split; [|done]); (split; [|]).
    + done.
    + intros Hm. apply (conflicts_moved cur (resolutions p) Hok) in Hm. done.
    + intros _. by apply (conflicts_moved cur (resolutions p) Hok).
    + done.
Qed.

Definition sample_entry (v : json) : RatioDifferenceEntry := mkEntry None {[js "other" := v]}.
Definition sample_differences : Differences := {[js "m" := {[model_price := sample_entry (JNum (num_of_Z 2)); model_ratio := sample_entry (JNum (num_of_Z 3))]}]}.
Definition sample_current : Options := fun t => match t with model_ratio => {[js "m" := JNum (num_of_Z 1); js "k" := JNum (num_of_Z 7)]} | _ => ∅ end.
Definition sample_events : list Event :=
  [Fetched sample_differences; SelectValues [mkSelect (js "m") model_price (JNum (num_of_Z 2)) (js "other")]; ApplySync sample_current].

Lemma prices_written_witness :
  exists w, (page_step (page_run sample_events page_init) (ConfirmConflict sample_current)).2 = Some w /\
    w model_ratio !! js "k" = Some (JNum (num_of_Z 7)) /\ w model_ratio !! js "m" = None /\ w model_price !! js "m" = Some (JNum (num_of_Z 2)).
Proof.
  exists (performSync (resolutions (page_run sample_events page_init)) sample_current).
  assert (conflictDialogOpen (page_run sample_events page_init) = true) as Hopen by (by vm_compute).
  assert ((page_step (page_run sample_events page_init) (ConfirmConflict sample_current)).2 =
    Some (performSync (resolutions (page_run sample_events page_init)) sample_current)) as E.
  { unfold page_step, handleConfirmConflict. rewrite Hopen. reflexivity. }
  split; [exact E|]. destruct (proj1 (prices_written sample_events (ConfirmConflict sample_current)) _ E) as (cur & [H0|[H0 _]] & H); [discriminate H0|].
  injection H0 as <-. destruct (H (js "k")) as [Hk _]. rewrite Hk by (by vm_compute). split; [by vm_compute|]. split; by vm_compute.
Defined.

(** ** Selecting everything of one source *)

(** The selections of one upstream column of the table, row by row. *)
Definition row_selections (upstreamName : list N) (only : option RatioType) (row : list N * ModelDiffs) : list ResolutionSelection :=
  omap (fun t => let v := upstream_value row.2 t upstreamName in
                 match v with
                 | Some value => if isSelectableUpstreamValue v then Some (mkSelect row.1 t value upstreamName) else None
                 | None => None
                 end)
    (getAlignedRatioTypes row.2 [upstreamName] only).

Definition bulk_selections (differences : Differences) (rows : list (list N * ModelDiffs)) (upstreamName : list N) (only : option RatioType) : list ResolutionSelection :=
  getEffectiveResolutionSelections differences (flat_map (row_selections upstreamName only) rows).

(** A selection of the value its source has, of a field that is not replaced by the expression. *)
Definition faithful (differences : Differences) (source : list N) (s : ResolutionSelection) : Prop :=
  exists d, differences !! s_model s = Some d /\ s_source s = source /\ upstream_value d (s_type s) source = Some (s_value s) /\
    isSelectableUpstreamValue (Some (s_value s)) = true /\ getPreferredSyncField d (s_type s) source = s_type s.

(** No two selections of a model disagree on its category. *)
Definition compatible (a b : ResolutionSelection) : Prop :=
  s_model a = s_model b -> getBillingCategory (s_type a) = Tiered \/ getBillingCategory (s_type b) = Tiered \/ getBillingCategory (s_type a) = getBillingCategory (s_type b).

Lemma faithful_resolved diffs src s : faithful diffs src s -> resolveResolutionSelection diffs s = s.
Proof.
  intros (d & Hd & Hs & _ & _ & Hp). unfold resolveResolutionSelection. rewrite Hd, Hs. cbn [from_option id]. rewrite Hp, bool_decide_eq_true_2 by done.
  destruct s; cbn in *. by subst.
Qed.

Lemma map_put_elem {A K} `{EqDecision K} (key : A -> K) x l y : y ∈ map_put key x l -> y = x \/ y ∈ l.
Proof.
  induction l as [|h l IH]; cbn [map_put]; [by intros ->%list_elem_of_singleton; left|]. case_bool_decide.
  - intros [->|Hy]%elem_of_cons; [by left|right; by right].
  - intros [->|Hy]%elem_of_cons; [right; left|]. destruct (IH Hy); [by left|right; by right].
Qed.

Lemma effective_ok diffs src sels :
  Forall (faithful diffs src) sels ->
  Forall (faithful diffs src) (getEffectiveResolutionSelections diffs sels) /\
  forall a b, a ∈ getEffectiveResolutionSelections diffs sels -> b ∈ getEffectiveResolutionSelections diffs sels -> compatible a b.
Proof.
  intros Hf. unfold getEffectiveResolutionSelections.
  assert (forall acc, Forall (faithful diffs src) acc -> (forall a b, a ∈ acc -> b ∈ acc -> compatible a b) ->
    let r := fold_left (add_effective diffs) sels acc in
    Forall (faithful diffs src) r /\ forall a b, a ∈ r -> b ∈ r -> compatible a b) as Hgen.
  2: { apply (Hgen []); [constructor|]. by intros a b []%not_elem_of_nil. }
  induction Hf as [|s sels Hs Hf IH]; intros acc Ha Hc; [done|]. cbn [fold_left]. apply IH.
  - apply Forall_forall. intros y Hy. unfold add_effective in Hy. rewrite (faithful_resolved _ _ _ Hs) in Hy. apply map_put_elem in Hy as [->|Hy]; [done|].
    rewrite Forall_forall in Ha. apply Ha. destruct (getBillingCategory (s_type s)); [by apply list_elem_of_filter in Hy as [_ Hy]..|done].
  - unfold add_effective. rewrite (faithful_resolved _ _ _ Hs). cbv zeta. set (kept := match getBillingCategory (s_type s) with Tiered => acc | _ => _ end).
    assert (forall y, y ∈ kept -> y ∈ acc /\ compatible y s) as Hkept.
    { intros y Hy. subst kept. unfold compatible. destruct (getBillingCategory (s_type s)) eqn:Ec;
        [apply list_elem_of_filter in Hy as [Hn Hy]; split; [done|]; intros Hm; destruct (getBillingCategory (s_type y)) eqn:Ey; auto; exfalso; by apply Hn..|split; [done|by right; left]]. }
    assert (forall a b, compatible a b -> compatible b a) as Hsym by (unfold compatible; intros a b H Hm; destruct (H (eq_sym Hm)) as [|[|]]; auto).
    intros a b [->|[Ha1 Ha2]%Hkept]%map_put_elem [->|[Hb1 Hb2]%Hkept]%map_put_elem; [intros _; by right; right|by apply Hsym|done|by apply Hc].
Qed.

(** A selection keeps what other selections of the source chose. *)
Lemma select_keeps diffs src s s' r :
  faithful diffs src s -> faithful diffs src s' -> s_model s = s_model s' -> compatible s s' ->
  r !! s_type s = Some (s_value s) -> select_in_draft diffs s' r !! s_type s = Some (s_value s).
Proof.
  intros (d & Hd & _ & Hv & Hsel & Hpref) Hf' Hm Hc Hr. pose proof Hf' as (d' & Hd' & Hsrc' & Hv' & Hsel' & Hpref').
  assert (d' = d) as -> by congruence. unfold select_in_draft. rewrite (faithful_resolved _ _ _ Hf'), Hd'. cbv zeta.
  set (r1 := <[s_type s' := s_value s']> (drop_other_category (getBillingCategory (s_type s')) r)).
  assert (r1 !! s_type s = Some (s_value s)) as H1.
  { unfold r1. destruct (decide (s_type s' = s_type s)) as [E|E]; [rewrite E, lookup_insert_eq; rewrite E in Hv'; congruence|].
    rewrite lookup_insert_ne, drop_other_lookup, decide_True by (done || destruct (Hc Hm) as [|[|]]; auto). done. }
  case_bool_decide; [|done]. rewrite Hsrc'.
  destruct (decide (getBillingCategory (s_type s) = Tiered)) as [Ht|Ht]; [|by rewrite add_tiered_lookup].
  (* the mode and the expression are those of the source *)
  unfold add_tiered. destruct (s_type s) eqn:Es; try done; rewrite Hv; rewrite Hsel.
  - destruct (upstream_value d billing_expr src) as [x|] eqn:Ex; [destruct (isSelectableUpstreamValue (Some x)) eqn:Ess|];
      rewrite ?lookup_insert_ne by done; by rewrite lookup_insert_eq.
  - by rewrite lookup_insert_eq.
Qed.

Lemma select_sets diffs src s r : faithful diffs src s -> select_in_draft diffs s r !! s_type s = Some (s_value s).
Proof.
  intros Hf. pose proof Hf as (d & Hd & Hsrc & Hv & Hsel & Hpref). unfold select_in_draft. rewrite (faithful_resolved _ _ _ Hf), Hd. cbv zeta.
  case_bool_decide as Ht; [|by rewrite lookup_insert_eq]. rewrite Hsrc. unfold add_tiered. destruct (s_type s) eqn:Es; try done; rewrite Hv, Hsel.
  - destruct (upstream_value d billing_expr src) as [x|] eqn:Ex; [destruct (isSelectableUpstreamValue (Some x)) eqn:Ess|];
      rewrite ?lookup_insert_ne by done; by rewrite lookup_insert_eq.
  - by rewrite lookup_insert_eq.
Qed.

Lemma drafts_select diffs src res sels drafts done :
  Forall (faithful diffs src) (done ++ sels) -> (forall a b, a ∈ done ++ sels -> b ∈ done ++ sels -> compatible a b) ->
  (forall s, s ∈ done -> exists d, drafts !! s_model s = Some d /\ d !! s_type s = Some (s_value s)) ->
  forall s, s ∈ done ++ sels ->
    exists d, fold_left (applyResolutionSelectionToDraft res diffs) sels drafts !! s_model s = Some d /\ d !! s_type s = Some (s_value s).
Proof.
  revert drafts done. induction sels as [|x sels IH]; intros drafts dn Hf Hc Hd; [rewrite app_nil_r in *; done|].
  cbn [fold_left]. replace (dn ++ x :: sels) with ((dn ++ [x]) ++ sels) in * by (by rewrite <- app_assoc). apply IH; [done|done|].
  rewrite Forall_forall in Hf. assert (x ∈ (dn ++ [x]) ++ sels) as Hx by set_solver.
  intros s Hs. assert (s ∈ (dn ++ [x]) ++ sels) as Hs' by set_solver. unfold applyResolutionSelectionToDraft.
  destruct (decide (s_model s = s_model x)) as [Hm|Hm].
  - rewrite Hm, lookup_insert_eq. eexists. split; [done|]. apply elem_of_app in Hs as [Hs|Hs%list_elem_of_singleton].
    + destruct (Hd s Hs) as (d & Hd1 & Hd2). apply (select_keeps _ src s x); [by apply Hf|by apply Hf|done|by apply Hc|].
      unfold getDraftModelResolution. by rewrite <- Hm, Hd1.
    + subst. by apply (select_sets _ src), Hf.
  - rewrite lookup_insert_ne by done. apply elem_of_app in Hs as [Hs|Hs%list_elem_of_singleton]; [by apply Hd|by subst].
Qed.

Lemma put_drafts_lookup res drafts m :
  map_fold put_draft res drafts !! m = match drafts !! m with None => res !! m | Some d => if bool_decide (d = ∅) then None else Some d end.
Proof.
  revert drafts. apply (map_fold_weak_ind (fun acc drafts => acc !! m = match drafts !! m with None => res !! m | Some d => if bool_decide (d = ∅) then None else Some d end)); [done|].
  intros m' d drafts acc Hm' IH. unfold put_draft. destruct (decide (m' = m)) as [->|Hne].
  - rewrite lookup_insert_eq. case_bool_decide; [by rewrite lookup_delete_eq|by rewrite lookup_insert_eq].
  - rewrite (lookup_insert_ne drafts) by done. rewrite <- IH. case_bool_decide; [by rewrite lookup_delete_ne|by rewrite lookup_insert_ne].
Qed.

Lemma row_selections_faithful diffs src only row s :
  diffs !! row.1 = Some row.2 -> s ∈ row_selections src only row -> faithful diffs src s.
Proof.
  intros Hrow (t & Ht & Hs)%list_elem_of_omap. cbv zeta in Hs. destruct (upstream_value row.2 t src) as [v|] eqn:Ev; [|done].
  destruct (isSelectableUpstreamValue (Some v)) eqn:Es; [|done]. injection Hs as <-. exists row.2. split_and!; try done. cbn [s_type].
  unfold getAlignedRatioTypes in Ht. apply list_elem_of_filter in Ht as [Ht _]. cbn [flat_map] in Ht. rewrite app_nil_r in Ht.
  unfold getVisibleRatioTypesForSource in Ht. by apply list_elem_of_filter in Ht as [Ht _].
Qed.

(** The values the backend sends: finite numbers, and texts for the mode and the expression. *)
Definition sync_typed (t : RatioType) (v : json) : Prop :=
  match v with JNum n => is_finite n = true | JStr _ => t ∉ NUMERIC_SYNC_FIELDS | _ => False end.

(** After everything of one source is selected, the table shows every selection it counts
    as selectable as selected: none of them displaces another. *)
Theorem bulk_selected (diffs : gmap (list N) (gmap RatioType RatioDifferenceEntry)) (res : gmap (list N) (gmap RatioType json)) rows source only s :
  Forall (fun row => diffs !! row.1 = Some row.2) rows ->
  (forall m d t v, diffs !! m = Some d -> upstream_value d t source = Some v -> isSelectableUpstreamValue (Some v) = true -> sync_typed t v) ->
  let selections := bulk_selections diffs rows source only in
  s ∈ selections ->
  isSelectedResolutionValue (applyResolutionSelections res diffs selections) (s_model s) (s_type s) (Some (s_value s)) = true.
Proof.
  intros Hrows Htyped selections Hs.
  assert (Forall (faithful diffs source) (flat_map (row_selections source only) rows)) as Hall.
  { apply Forall_forall. intros x Hx. apply list_elem_of_In, in_flat_map in Hx as (row & Hrow%list_elem_of_In & Hx%list_elem_of_In).
    rewrite Forall_forall in Hrows. by eapply row_selections_faithful; [apply Hrows|]. }
  destruct (effective_ok diffs source _ Hall) as [Hf Hc]. fold (bulk_selections diffs rows source only) in Hf, Hc. fold selections in Hf, Hc.
  destruct (drafts_select diffs source res selections ∅ [] Hf Hc ltac:(by intros x []%not_elem_of_nil) s Hs) as (d & Hd & Hv).
  assert (applyResolutionSelections res diffs selections !! s_model s = Some d) as Hlook.
  { unfold applyResolutionSelections. destruct selections; [by apply not_elem_of_nil in Hs|]. rewrite put_drafts_lookup, Hd, bool_decide_eq_false_2; [done|].
    intros ->. by rewrite lookup_empty in Hv. }
  rewrite Forall_forall in Hf. destruct (Hf s Hs) as (d0 & Hd0 & _ & Hval & Hsel & _). pose proof (Htyped _ _ _ _ Hd0 Hval Hsel) as Hty.
  unfold isSelectedResolutionValue. rewrite Hsel, Hlook. cbn [negb mbind option_bind]. rewrite Hv. unfold sync_typed in Hty.
  destruct (s_value s) as [| |n|t| |]; try done.
  - case_bool_decide; cbn [json_to_number]; rewrite ?Hty; cbn [andb]; by apply num_eqb_refl.
  - rewrite bool_decide_eq_false_2 by done. by apply bool_decide_eq_true_2.
Qed.

Lemma bulk_selected_witness :
  isSelectedResolutionValue
    (applyResolutionSelections ∅ sample_differences (bulk_selections sample_differences [(js "m", default ∅ (sample_differences !! js "m"))] (js "other") None))
    (js "m") model_price (Some (JNum (num_of_Z 2))) = true.
Proof.
  apply (bulk_selected sample_differences ∅ [(js "m", default ∅ (sample_differences !! js "m"))] (js "other") None
           (mkSelect (js "m") model_price (JNum (num_of_Z 2)) (js "other"))).
  - constructor; [by vm_compute|constructor].
  - intros m d t v Hm Hv _. unfold sample_differences in Hm. apply lookup_singleton_Some in Hm as [_ <-]. unfold upstream_value in Hv.
    destruct (decide (t = model_price)) as [->|H1]; [vm_compute in Hv; injection Hv as <-; by vm_compute|].
    destruct (decide (t = model_ratio)) as [->|H2]; [vm_compute in Hv; injection Hv as <-; by vm_compute|].
    rewrite lookup_insert_ne in Hv by congruence. rewrite lookup_singleton_ne in Hv by congruence. discriminate.
  - apply list_elem_of_In. vm_compute. left. reflexivity.
Defined.
