(* ===== verification/ModelPricing.v ===== *)
(** * The price editor of the models
    (src/apps/web/src/features/system-settings/models: pricing-format.ts,
    model-pricing-core.ts, model-pricing-snapshots.ts, use-model-price-locks.ts, the panel of
    model-pricing-sheet.tsx and the saving of model-ratio-visual-editor.tsx)

    A model is charged by tokens, by request or by an expression.  The panel shows token
    prices and keeps the ratios of the form in step with them; saving rewrites the model in
    the ten options of [RatioSync]; a snapshot is what the options say about a model.  The
    price of a locked model must not change.

    A missing text is the empty one: the source treats both alike.  The options are the
    records their JSON texts hold, and no model has the name of a property of
    [Object.prototype]. *)
From S2P Require Import Prelude JsString JsNumber BillingLexer JsJson JsNumberPrint JsJsonPrint JsCollections BillingRules VisualTiers ChannelForm JsExact RatioSync.
From stdpp Require Import gmap.
From Stdlib Require Import Lia.

(** ** Numbers of the forms *)

Definition DISPLAY_DECIMALS : nat := 12.
Definition SNAP_DECIMALS : nat := 8.
Definition SNAP_EPSILON : spec_float := num_of_decimal 1 (-12).
Definition NUMBER_EPSILON : spec_float := S754_finite false 4503599627370496 (-104).

Definition roundToDecimals (value : spec_float) (decimals : nat) : spec_float :=
  let factor := num_of_Z (10 ^ Z.of_nat decimals) in num_div (num_round (num_mul value factor)) factor.

Fixpoint snap_from (tolerance value : spec_float) (decimals fuel : nat) : spec_float :=
  match fuel with
  | O => value
  | S f =>
      let rounded := roundToDecimals value decimals in
      if num_leb (num_abs (num_sub value rounded)) tolerance then rounded else snap_from tolerance value (S decimals) f
  end.

Definition snapFloatDrift (value : spec_float) : spec_float :=
  let tolerance := num_max [SNAP_EPSILON; num_mul (num_mul (num_abs value) NUMBER_EPSILON) (num_of_Z 8)] in
  snap_from tolerance value 0 (S SNAP_DECIMALS).

(** [Number.parseFloat]: the longest prefix that is a decimal number. *)
Definition read_signed (s : list N) : spec_float :=
  match s with
  | 45%N :: r => num_neg (read_unsigned r)
  | 43%N :: r => read_unsigned r
  | _ => read_unsigned s
  end.

Fixpoint parse_prefix (s : list N) (k : nat) : spec_float :=
  match k with
  | O => S754_nan
  | S k' => let x := read_signed (take k s) in if is_nan x then parse_prefix s k' else x
  end.

Definition parse_float (s : list N) : spec_float := let t := trim_start s in parse_prefix t (length t).

Definition formatPricingNumber (num : spec_float) : list N :=
  if is_finite num then num_to_string (parse_float (num_to_fixed DISPLAY_DECIMALS (snapFloatDrift num))) else [].

(** Texts of the form: the empty one is no number. *)
Definition toNumberOrNull (value : list N) : option spec_float :=
  match value with
  | [] => None
  | _ => let num := number_of_string value in if is_finite num then Some num else None
  end.

Definition numericDraft (value : list N) : bool :=
  match span is_digit value with
  | ([], []) => true
  | (_, []) => true
  | (_, 46%N :: rest) => forallb is_digit rest
  | _ => false
  end.

Example format_examples :
  map formatPricingNumber [num_of_decimal 3 (-1); num_mul (num_of_decimal 1 (-1)) (num_of_Z 3); num_of_decimal 125 (-2); num_div (num_of_Z 1) (num_of_Z 3)]
  = [js "0.3"; js "0.3"; js "1.25"; js "0.333333333333"].
Proof. by vm_compute. Qed.

Example parse_float_examples : map (fun s => num_to_string (parse_float (js s))) ["1.5x"; ".5"; "."; " 2e3 "; "0x10"]%string = [js "1.5"; js "0.5"; js "NaN"; js "2000"; js "0"].
Proof. by vm_compute. Qed.

(** ** Lanes and form data *)

Inductive PricingMode := per_token | per_request | tiered_expr.

Inductive LaneKey := completion | cache | createCache | image | audioInput | audioOutput.

#[export] Instance PricingMode_eq_dec : EqDecision PricingMode.
Proof. solve_decision. Defined.
#[export] Instance LaneKey_eq_dec : EqDecision LaneKey.
Proof. solve_decision. Defined.

Definition laneConfigs : list LaneKey := [completion; cache; createCache; image; audioInput; audioOutput].

(** [laneRatio] holds the six ratios of the lanes ([ratioFieldByLane]). *)
Record ModelRatioData := mkData {
  name : list N; price : list N; ratio : list N; laneRatio : LaneKey -> list N;
  billingMode : PricingMode; billingExpr : list N; requestRuleExpr : list N }.

(** The option a lane is stored in. *)
Definition ratioFieldByLane (lane : LaneKey) : RatioType :=
  match lane with
  | completion => completion_ratio | cache => cache_ratio | createCache => create_cache_ratio
  | image => image_ratio | audioInput => audio_ratio | audioOutput => audio_completion_ratio
  end.

Definition set_lane {A} (lane : LaneKey) (v : A) (f : LaneKey -> A) : LaneKey -> A := fun k => if bool_decide (k = lane) then v else f k.

Definition hasValue (value : list N) : bool := nonempty value.

Definition ratioToBasePrice (ratio : list N) : list N :=
  match toNumberOrNull ratio with Some num => formatPricingNumber (num_mul num (num_of_Z 2)) | None => [] end.

Definition deriveLanePrice (ratio denominator : list N) : list N :=
  match toNumberOrNull ratio, toNumberOrNull denominator with
  | Some r, Some d => formatPricingNumber (num_mul r d)
  | _, _ => []
  end.

Record LaneState := mkLanes { l_promptPrice : list N; l_prices : LaneKey -> list N; l_enabled : LaneKey -> bool }.

Definition createInitialLaneState (data : option ModelRatioData) : LaneState :=
  match data with
  | None => mkLanes [] (fun _ => []) (fun _ => false)
  | Some d =>
      let promptPrice := ratioToBasePrice (ratio d) in
      let audioInputPrice := deriveLanePrice (laneRatio d audioInput) promptPrice in
      mkLanes promptPrice
        (fun lane => match lane with
                     | audioOutput => deriveLanePrice (laneRatio d audioOutput) audioInputPrice
                     | _ => deriveLanePrice (laneRatio d lane) promptPrice
                     end)
        (fun lane => hasValue (laneRatio d lane))
  end.

(** ** The panel *)

(** The form keeps [f_name] to [f_laneRatio]; the rest is the state of the component. *)
Record Panel := mkPanel {
  editData : option ModelRatioData;
  f_name : list N; f_price : list N; f_ratio : list N; f_laneRatio : LaneKey -> list N;
  pricingMode : PricingMode;
  promptPrice : list N; lanePrices : LaneKey -> list N; laneEnabled : LaneKey -> bool;
  p_billingExpr : list N; p_requestRuleExpr : list N }.

Definition panel_open (data : option ModelRatioData) : Panel :=
  let lanes := createInitialLaneState data in
  match data with
  | Some d =>
      mkPanel data (name d) (price d) (ratio d) (laneRatio d)
        (if bool_decide (billingMode d = tiered_expr) then tiered_expr else if nonempty (price d) then per_request else per_token)
        (l_promptPrice lanes) (l_prices lanes) (l_enabled lanes) (billingExpr d) (requestRuleExpr d)
  | None =>
      mkPanel None [] [] [] (fun _ => []) per_token (l_promptPrice lanes) (l_prices lanes) (l_enabled lanes) [] []
  end.

Definition deriveLaneRatio (lane : LaneKey) (price nextPromptPrice : list N) (nextLanePrices : LaneKey -> list N) : list N :=
  match toNumberOrNull price with
  | None => []
  | Some priceNumber =>
      let denominator := match lane with audioOutput => nextLanePrices audioInput | _ => nextPromptPrice end in
      match toNumberOrNull denominator with
      | None => []
      | Some d => if num_eqb d num_zero then [] else formatPricingNumber (num_div priceNumber d)
      end
  end.

Definition base_ratio (nextPromptPrice : list N) : list N :=
  match toNumberOrNull nextPromptPrice with Some n => formatPricingNumber (num_div n (num_of_Z 2)) | None => [] end.

(** The ratio the form holds for a lane when it is in step with the prices. *)
Definition lane_ratio (nextPromptPrice : list N) (nextLanePrices : LaneKey -> list N) (nextLaneEnabled : LaneKey -> bool) (lane : LaneKey) : list N :=
  if nextLaneEnabled lane then deriveLaneRatio lane (nextLanePrices lane) nextPromptPrice nextLanePrices else [].

Definition syncLaneRatios (nextPromptPrice : list N) (nextLanePrices : LaneKey -> list N) (nextLaneEnabled : LaneKey -> bool) : list N * (LaneKey -> list N) :=
  (base_ratio nextPromptPrice, lane_ratio nextPromptPrice nextLanePrices nextLaneEnabled).

Definition with_form (p : Panel) (r : list N) (lanes : LaneKey -> list N) (prompt : list N) (prices : LaneKey -> list N) (enabled : LaneKey -> bool) : Panel :=
  mkPanel (editData p) (f_name p) (f_price p) r lanes (pricingMode p) prompt prices enabled (p_billingExpr p) (p_requestRuleExpr p).

Definition handlePromptPriceChange (value : list N) (p : Panel) : Panel :=
  if negb (numericDraft value) then p
  else let '(r, lanes) := syncLaneRatios value (lanePrices p) (laneEnabled p) in with_form p r lanes value (lanePrices p) (laneEnabled p).

Definition handleLanePriceChange (lane : LaneKey) (value : list N) (p : Panel) : Panel :=
  if negb (numericDraft value) then p
  else
    let nextLanePrices := set_lane lane value (lanePrices p) in
    let lanes := if laneEnabled p lane then set_lane lane (deriveLaneRatio lane value (promptPrice p) nextLanePrices) (f_laneRatio p) else f_laneRatio p in
    let lanes := if bool_decide (lane = audioInput) && laneEnabled p audioOutput
                 then set_lane audioOutput (deriveLaneRatio audioOutput (nextLanePrices audioOutput) (promptPrice p) nextLanePrices) lanes
                 else lanes in
    with_form p (f_ratio p) lanes (promptPrice p) nextLanePrices (laneEnabled p).

Definition handleLaneToggle (lane : LaneKey) (checked : bool) (p : Panel) : Panel :=
  let nextEnabled := set_lane lane checked (laneEnabled p) in
  if checked
  then with_form p (f_ratio p) (set_lane lane (deriveLaneRatio lane (lanePrices p lane) (promptPrice p) (lanePrices p)) (f_laneRatio p))
         (promptPrice p) (lanePrices p) nextEnabled
  else
    let prices := set_lane lane [] (lanePrices p) in
    let lanes := set_lane lane [] (f_laneRatio p) in
    if bool_decide (lane = audioInput)
    then with_form p (f_ratio p) (set_lane audioOutput [] lanes) (promptPrice p) (set_lane audioOutput [] prices) (set_lane audioOutput false nextEnabled)
    else with_form p (f_ratio p) lanes (promptPrice p) prices nextEnabled.

Definition DEFAULT_EXPR : list N := js "tier(" ++ [34%N] ++ js "base" ++ [34%N] ++ js ", p * 0 + c * 0)".

Definition handleModeChange (nextMode : PricingMode) (p : Panel) : Panel :=
  mkPanel (editData p) (f_name p) (f_price p) (f_ratio p) (f_laneRatio p) nextMode (promptPrice p) (lanePrices p) (laneEnabled p)
    (if bool_decide (nextMode = tiered_expr) && negb (nonempty (p_billingExpr p)) then DEFAULT_EXPR else p_billingExpr p) (p_requestRuleExpr p).

(** The inputs bound to the form, and the callbacks of the tier editor. *)
Definition change_name (value : list N) (p : Panel) : Panel :=
  if editData p then p
  else mkPanel (editData p) value (f_price p) (f_ratio p) (f_laneRatio p) (pricingMode p) (promptPrice p) (lanePrices p) (laneEnabled p) (p_billingExpr p) (p_requestRuleExpr p).

Definition change_price (value : list N) (p : Panel) : Panel :=
  if numericDraft value
  then mkPanel (editData p) (f_name p) value (f_ratio p) (f_laneRatio p) (pricingMode p) (promptPrice p) (lanePrices p) (laneEnabled p) (p_billingExpr p) (p_requestRuleExpr p)
  else p.

Definition change_exprs (expr rules : list N) (p : Panel) : Panel :=
  mkPanel (editData p) (f_name p) (f_price p) (f_ratio p) (f_laneRatio p) (pricingMode p) (promptPrice p) (lanePrices p) (laneEnabled p) expr rules.

Inductive PanelEvent :=
| PromptPriceChange (value : list N)
| LanePriceChange (lane : LaneKey) (value : list N)
| LaneToggle (lane : LaneKey) (checked : bool)
| ModeChange (mode : PricingMode)
| NameChange (value : list N)
| PriceChange (value : list N)
| ExprChange (expr rules : list N).

Definition panel_step (p : Panel) (e : PanelEvent) : Panel :=
  match e with
  | PromptPriceChange v => handlePromptPriceChange v p
  | LanePriceChange lane v => handleLanePriceChange lane v p
  | LaneToggle lane c => handleLaneToggle lane c p
  | ModeChange m => handleModeChange m p
  | NameChange v => change_name v p
  | PriceChange v => change_price v p
  | ExprChange e r => change_exprs e r p
  end.

Definition panel_run (es : list PanelEvent) (p : Panel) : Panel := fold_left panel_step es p.

Definition needs_input_price (p : Panel) : bool :=
  bool_decide (pricingMode p = per_token) && negb (bool_decide (is_Some (toNumberOrNull (promptPrice p)))) &&
  existsb (fun key => laneEnabled p key && hasValue (lanePrices p key)) laneConfigs.

Definition needs_audio_input (p : Panel) : bool :=
  bool_decide (pricingMode p = per_token) && laneEnabled p audioOutput && negb (hasValue (lanePrices p audioInput)).

(** The message of a refused draft. *)
Definition validatePricingValues (p : Panel) : option string :=
  if needs_input_price p then Some "Input price is required before saving dependent prices."%string
  else if needs_audio_input p then Some "Audio output price requires an audio input price."%string
  else None.

Definition buildSubmitData (p : Panel) : ModelRatioData :=
  let tiered := bool_decide (pricingMode p = tiered_expr) in
  mkData (trim (f_name p)) (f_price p) (f_ratio p) (f_laneRatio p) (pricingMode p)
    (if tiered then p_billingExpr p else []) (if tiered then p_requestRuleExpr p else []).

Definition commitDraft (locked lockPending : bool) (p : Panel) : option ModelRatioData :=
  if lockPending then None
  else match locked, editData p with
       | true, Some d => Some d
       | _, _ =>
           if negb (nonempty (f_name p)) then None
           else if bool_decide (is_Some (validatePricingValues p)) then None else Some (buildSubmitData p)
       end.

Definition warnings (p : Panel) : list string :=
  match editData p with
  | Some d => if nonempty (price d) && (hasValue (ratio d) || existsb (fun k => hasValue (laneRatio d k)) laneConfigs)
              then ["This model has both fixed-price and token-price settings. Saving the current mode will rewrite the conflicting fields."%string] else []
  | None => []
  end
  ++ (if needs_input_price p then ["Input price is required before saving dependent prices."%string] else [])
  ++ (if needs_audio_input p then ["Audio output price requires an audio input price."%string] else []).

(** A row of the preview: its key, its label and its value; [t] translates. *)
Definition buildPreviewRows (t : list N -> list N) (p : Panel) : list (string * list N * list N) :=
  let or_empty v := if nonempty v then v else t (js "Empty") in
  let dollars v := if nonempty v then js "$" ++ v else t (js "Empty") in
  let lane key label l := (key, t (js label), if laneEnabled p l then dollars (lanePrices p l) else t (js "Empty")) in
  match pricingMode p with
  | tiered_expr =>
      [("mode"%string, js "BillingMode", js "tiered_expr");
       ("expr"%string, t (js "Expression"), or_empty (combineBillingExpr (p_billingExpr p) (p_requestRuleExpr p)))]
  | per_request => [("price"%string, js "ModelPrice", or_empty (f_price p))]
  | per_token =>
      [("inputPrice"%string, t (js "Input price"), dollars (promptPrice p));
       lane "completion"%string "Completion price"%string completion; lane "cache"%string "Cache read price"%string cache;
       lane "createCache"%string "Cache write price"%string createCache; lane "image"%string "Image input price"%string image;
       lane "audio"%string "Audio input price"%string audioInput; lane "audioCompletion"%string "Audio output price"%string audioOutput]
  end.

(** ** Snapshots *)

Record ModelPricingSnapshot := mkSnapshot { row_data : ModelRatioData; hasConflict : bool }.

Definition hasPricingValue (value : list N) : bool := nonempty value.

(** [map[name]?.toString() || '']. *)
Definition stored_text (v : option json) : list N :=
  match v with Some JNull | None => [] | Some v => json_to_string v end.

Definition is_tiered (v : option json) : bool := match v with Some (JStr s) => bool_decide (s = js "tiered_expr") | _ => false end.

Definition expr_text (v : option json) : list N := match v with Some (JStr s) => s | _ => [] end.

Definition model_names (opts : RatioType -> gmap (list N) json) : gset (list N) := ⋃ (map (fun t => dom (opts t)) SYNC_FIELD_ORDER).

(** What the options say about a model ([at_name t] is the value of the option [t]). *)
Definition read_model (n : list N) (at_name : RatioType -> option json) : ModelPricingSnapshot :=
  let p := stored_text (at_name model_price) in
  let r := stored_text (at_name model_ratio) in
  let lanes := fun k => stored_text (at_name (ratioFieldByLane k)) in
  if is_tiered (at_name billing_mode)
  then let '(pure, rules) := splitBillingExprAndRequestRules (expr_text (at_name billing_expr)) in
       mkSnapshot (mkData n p r lanes tiered_expr pure rules) false
  else mkSnapshot (mkData n p r lanes (if nonempty p then per_request else per_token) [] [])
         (nonempty p && (nonempty r || existsb (fun k => nonempty (lanes k)) laneConfigs)).

Definition buildModelSnapshots (opts : RatioType -> gmap (list N) json) : list ModelPricingSnapshot :=
  map (fun n => read_model n (fun t => opts t !! n)) (elements (model_names opts)).

Definition snapshot_of (opts : RatioType -> gmap (list N) json) (n : list N) : option ModelPricingSnapshot :=
  if bool_decide (n ∈ model_names opts) then Some (read_model n (fun t => opts t !! n)) else None.

Definition isBasePricingUnset (s : option ModelPricingSnapshot) : bool :=
  match s with
  | None => true
  | Some s => negb (bool_decide (billingMode (row_data s) = tiered_expr)) && negb (hasPricingValue (price (row_data s))) && negb (hasPricingValue (ratio (row_data s)))
  end.

Definition mode_text (m : PricingMode) : list N :=
  match m with per_token => js "per-token" | per_request => js "per-request" | tiered_expr => js "tiered_expr" end.

Definition signature_fields (d : ModelRatioData) : list (list N * list N) :=
  [(js "price", price d); (js "ratio", ratio d); (js "cacheRatio", laneRatio d cache); (js "createCacheRatio", laneRatio d createCache);
   (js "completionRatio", laneRatio d completion); (js "imageRatio", laneRatio d image); (js "audioRatio", laneRatio d audioInput);
   (js "audioCompletionRatio", laneRatio d audioOutput); (js "billingMode", mode_text (billingMode d));
   (js "billingExpr", billingExpr d); (js "requestRuleExpr", requestRuleExpr d)].

Definition getSnapshotSignature (s : option ModelRatioData) : list N :=
  match s with None => [] | Some d => json_stringify (JObj (map (prod_map id JStr) (signature_fields d))) end.

(** *** What the table says about a row *)

Definition ratioToPrice (ratio : list N) (denominator : option (list N)) : list N :=
  match toNumberOrNull ratio, match denominator with Some (_ :: _ as d) => toNumberOrNull d | _ => Some (num_of_Z 2) end with
  | Some r, Some d => formatPricingNumber (num_mul r d)
  | _, _ => []
  end.

Definition getModeLabel (m : PricingMode) : string :=
  match m with per_request => "Per-request" | tiered_expr => "Expression" | per_token => "Per-token" end.

Definition getModeVariant (m : PricingMode) : string :=
  match m with per_request => "warning" | tiered_expr => "info" | per_token => "success" end.

(** The matches of [/tier\(/g]: they do not overlap. *)
Fixpoint count_tiers (expr : list N) : nat :=
  match expr with [] => 0 | _ :: rest => (if starts_with (js "tier(") expr then 1 else 0) + count_tiers rest end.

Section Texts.
Context (t : list N -> list N).

Definition DOT_SEPARATOR : list N := [32; 183; 32]%N.

Definition getExpressionSummary (d : ModelRatioData) : list N :=
  let tierCount := count_tiers (billingExpr d) in
  if (0 <? tierCount)%nat
  then t (js "Tiered pricing") ++ DOT_SEPARATOR ++ num_to_string (num_of_Z (Z.of_nat tierCount)) ++ js " " ++ t (js "tiers")
  else t (js "Expression pricing").

Definition extras : list LaneKey := [completion; cache; createCache; image; audioInput; audioOutput].

Definition getPriceSummary (d : ModelRatioData) : list N :=
  match billingMode d with
  | tiered_expr => getExpressionSummary d
  | per_request => if nonempty (price d) then js "$" ++ price d ++ js " / " ++ t (js "request") else t (js "Unset price")
  | per_token =>
      let inputPrice := ratioToPrice (ratio d) None in
      if negb (nonempty inputPrice) then t (js "Unset price")
      else
        let extraCount := length (filter (fun k => hasPricingValue (laneRatio d k) = true) extras) in
        let base := t (js "Input") ++ js " $" ++ inputPrice in
        if (0 <? extraCount)%nat
        then base ++ DOT_SEPARATOR ++ num_to_string (num_of_Z (Z.of_nat extraCount)) ++ js " " ++ t (js "extras")
        else base
  end.

Definition getPriceDetail (d : ModelRatioData) : list N :=
  match billingMode d with
  | tiered_expr => if nonempty (requestRuleExpr d) then t (js "Includes request rules") else t (js "Expression based")
  | per_request => t (js "Fixed request price")
  | per_token =>
      let inputPrice := ratioToPrice (ratio d) None in
      if negb (nonempty inputPrice) then t (js "No base input price")
      else
        let detail label k := if nonempty (laneRatio d k) then [t (js label) ++ js " $" ++ ratioToPrice (laneRatio d k) (Some inputPrice)] else [] in
        let details := take 2 (detail "Output"%string completion ++ detail "Cache"%string cache ++ detail "Cache write"%string createCache) in
        match details with [] => t (js "Base input price only") | _ => JsString.join DOT_SEPARATOR details end
  end.

End Texts.

(** ** Saving *)

Notation OptionMaps := (RatioType -> gmap (list N) json) (only parsing).

(** Every write of an option puts the saved value of each locked model back. *)
Definition put_saved (saved : gmap (list N) json) (n : list N) (next : gmap (list N) json) : gmap (list N) json :=
  match saved !! n with Some v => <[n := v]> next | None => delete n next end.

Definition changePricingField (locks : gset (list N)) (saved next : gmap (list N) json) : gmap (list N) json := set_fold (put_saved saved) next locks.

Definition change_all (locks : gset (list N)) (saved next : OptionMaps) : OptionMaps := fun t => changePricingField locks (saved t) (next t).

Definition setIfPresent (n value : list N) (target : gmap (list N) json) : gmap (list N) json :=
  match value with
  | [] => target
  | _ => let parsed := parse_float value in if is_finite parsed then <[n := JNum parsed]> target else target
  end.

(** The text of a form an option is written from. *)
Definition form_text (data : ModelRatioData) (t : RatioType) : list N :=
  match t with
  | model_price => price data | model_ratio => ratio data
  | completion_ratio => laneRatio data completion | cache_ratio => laneRatio data cache | create_cache_ratio => laneRatio data createCache
  | image_ratio => laneRatio data image | audio_ratio => laneRatio data audioInput | audio_completion_ratio => laneRatio data audioOutput
  | billing_mode | billing_expr => []
  end.

Definition delete_model (n : list N) (opts : OptionMaps) : OptionMaps := fun t => delete n (opts t).

Definition write_model (data : ModelRatioData) (n : list N) (opts : OptionMaps) : OptionMaps := fun t =>
  let base := delete_model n opts t in
  match billingMode data, getBillingCategory t with
  | tiered_expr, Tiered =>
      let combined := combineBillingExpr (billingExpr data) (requestRuleExpr data) in
      if nonempty combined then <[n := JStr (match t with billing_mode => js "tiered_expr" | _ => combined end)]> base else base
  | tiered_expr, _ => setIfPresent n (form_text data t) base
  | _, Price => if nonempty (price data) then setIfPresent n (form_text data t) base else base
  | _, Ratio => if nonempty (price data) then base else setIfPresent n (form_text data t) base
  | _, Tiered => base
  end.

(** The options after the save, and the models left out. *)
Definition persistPricingData (locks : gset (list N)) (saved drafts : OptionMaps) (data : ModelRatioData) (targetNames : list (list N)) : OptionMaps * list (list N) :=
  let written := fold_left (fun opts n => if bool_decide (n ∈ locks) then opts else write_model data n opts) targetNames drafts in
  (change_all locks saved written, filter (fun n => n ∈ locks) targetNames).

(** ** The editor *)

Record Editor := mkEditor {
  drafts : OptionMaps;                    (* the ten values of the settings form *)
  saved : OptionMaps;                     (* the options the server holds *)
  locks : gset (list N); lockPending : bool; isSaving : bool;
  e_editData : option ModelRatioData; editorOpen : bool; panel : Panel }.

Definition displayed (s : Editor) (n : list N) : ModelPricingSnapshot :=
  match snapshot_of (saved s) n with
  | Some row => row
  | None => match (if bool_decide (n ∈ locks s) then None else snapshot_of (drafts s) n) with
            | Some row => row
            | None => mkSnapshot (mkData n [] [] (fun _ => []) per_token [] []) false
            end
  end.

Record ModelRow := mkRow {
  shown : ModelPricingSnapshot; r_saved : option ModelPricingSnapshot; r_draft : option ModelPricingSnapshot;
  isDraftChanged : bool; isDraftDeleted : bool; isDraftNew : bool }.

Definition model_row (s : Editor) (n : list N) : ModelRow :=
  let sv := snapshot_of (saved s) n in
  let dr := snapshot_of (drafts s) n in
  mkRow (displayed s n) sv (if bool_decide (n ∈ locks s) then sv else dr)
    (negb (bool_decide (getSnapshotSignature (row_data <$> sv) = getSnapshotSignature (row_data <$> dr))))
    (bool_decide (is_Some sv) && negb (bool_decide (is_Some dr)) && negb (bool_decide (n ∈ locks s)))
    (negb (bool_decide (is_Some sv)) && bool_decide (is_Some dr)).

(** The rows of the table, [unset] those of the candidates without a base price; their order
    by name is the collation's. *)
Definition models (s : Editor) (unset : option (gset (list N))) : list ModelRow :=
  let names := match unset with Some candidates => candidates ∪ locks s | None => model_names (saved s) ∪ model_names (drafts s) ∪ locks s end in
  filter (fun row => (unset = None \/ isBasePricingUnset (r_saved row) = true) /\ isDraftDeleted row = false) (map (model_row s) (elements names)).

Definition modeCounts (rows : list ModelRow) (m : PricingMode) : nat := length (filter (fun row => billingMode (row_data (shown row)) = m) rows).

Definition with_edit (s : Editor) (d : option ModelRatioData) (open : bool) : Editor :=
  mkEditor (drafts s) (saved s) (locks s) (lockPending s) (isSaving s) d open (panel_open d).

Definition with_drafts (s : Editor) (next : OptionMaps) : Editor :=
  mkEditor next (saved s) (locks s) (lockPending s) (isSaving s) (e_editData s) (editorOpen s) (panel s).

Definition editable (s : Editor) (n : list N) : ModelRatioData :=
  let row := model_row s n in
  row_data (default (shown row) (match r_draft row with Some d => Some d | None => r_saved row end)).

Definition handleEdit (n : list N) (s : Editor) : Editor :=
  let d := editable s n in
  let mode := match billingMode d with tiered_expr => tiered_expr | _ => if nonempty (price d) then per_request else per_token end in
  with_edit s (Some (mkData (name d) (price d) (ratio d) (laneRatio d) mode (billingExpr d) (requestRuleExpr d))) true.

Definition handleAdd (s : Editor) : Editor := with_edit s None true.

Definition handleGlobalFilterChange (changed : bool) (s : Editor) : Editor := if changed then with_edit s None false else s.

Definition handleDelete (n : list N) (s : Editor) : Editor :=
  if bool_decide (n ∈ locks s) || lockPending s then s
  else
    let s' := with_drafts s (change_all (locks s) (saved s) (delete_model n (drafts s))) in
    if bool_decide (name <$> e_editData s = Some n) then with_edit s' None false else s'.

(** The locked models, as the text of the option [ModelPriceLock] names them: the members
    of an object that are [true]; anything else locks nothing. *)
Definition parseModelPriceLocks (value : option (list N)) : gset (list N) :=
  match json_parse (match value with Some (c :: r) => c :: r | _ => js "{}" end) with
  | Some (JObj l) => list_to_set (List.filter (fun kv => match kv.2 with JBool true => true | _ => false end) l).*1
  | _ => ∅
  end.

(** The options of the server arrive: the saved prices and the locks are theirs. *)
Definition options_read (accepted : OptionMaps) (lockText : option (list N)) (pending : bool) (next : OptionMaps) (s : Editor) : Editor :=
  mkEditor next accepted (parseModelPriceLocks lockText) pending (isSaving s) (e_editData s) (editorOpen s) (panel s).

(** The answer of a toggle: the options read after the write become the saved ones, with the
    locks they hold; the model loses its draft when the toggle was to lock it. *)
Definition handleToggleLock (n : list N) (locked : bool) (accepted : OptionMaps) (lockText : option (list N)) (s : Editor) : Editor :=
  let next := if locked then (fun t => put_saved (accepted t) n (drafts s t)) else drafts s in
  options_read accepted lockText false next s.

(** [commitOpenEditor]: the settings form may be saved when it answers true. *)
Definition commitOpenEditor (s : Editor) : Editor * bool :=
  let locked_edit := match e_editData s with Some d => bool_decide (name d ∈ locks s) | None => false end in
  if lockPending s then (s, false)
  else if locked_edit then (s, true)
  else if negb (editorOpen s) then (s, true)
  else match commitDraft locked_edit (lockPending s) (panel s) with
       | None => (s, false)
       | Some data => (with_edit (with_drafts s (persistPricingData (locks s) (saved s) (drafts s) data [name data]).1) (Some data) (editorOpen s), true)
       end.

(** The data copied by a batch: the saved prices of a locked source, the draft of an open
    editor otherwise. *)
Definition copy_source (s : Editor) (d : ModelRatioData) : option ModelRatioData :=
  if bool_decide (name d ∈ locks s)
  then Some (match snapshot_of (saved s) (name d) with Some row => row_data row | None => mkData (name d) [] [] (fun _ => []) per_token [] [] end)
  else if editorOpen s then commitDraft false (lockPending s) (panel s)
  else Some d.

Definition handleBatchCopy (targetNames : list (list N)) (s : Editor) : Editor :=
  if lockPending s || isSaving s then s
  else match e_editData s with
       | None => s
       | Some d =>
           match copy_source s d with
           | None => s
           | Some source =>
               let s' := if editorOpen s && negb (bool_decide (name d ∈ locks s)) then with_edit s (Some source) (editorOpen s) else s in
               match targetNames with
               | [] => s'
               | _ => with_drafts s' (persistPricingData (locks s) (saved s) (drafts s) source (set_values (name source :: targetNames))).1
               end
           end
       end.

(** The settings form takes the saved prices as its values: after a save, and when the prices
    of the options are not the ones the form started from. *)
Definition applyModelDefaults (s : Editor) : Editor := with_drafts s (saved s).

Inductive EditorEvent :=
| EditClicked (n : list N)
| AddClicked
| FilterChanged (changed : bool)
| DeleteClicked (n : list N)
| PanelInput (e : PanelEvent)
| CommitOpen
| BatchCopied (targetNames : list (list N))
| ToggleStarted
| ToggleFailed
| ToggleAnswered (n : list N) (locked : bool) (accepted : OptionMaps) (lockText : option (list N))
| OptionsRefetched (accepted : OptionMaps) (lockText : option (list N))
| DefaultsApplied
| LocksRefreshed.

Definition set_panel (s : Editor) (p : Panel) : Editor :=
  mkEditor (drafts s) (saved s) (locks s) (lockPending s) (isSaving s) (e_editData s) (editorOpen s) p.

Definition set_pending (s : Editor) (b : bool) : Editor :=
  mkEditor (drafts s) (saved s) (locks s) b (isSaving s) (e_editData s) (editorOpen s) (panel s).

(** The effect on the locks: the editor of a locked model shows the saved prices. *)
Definition refresh_locked (s : Editor) : Editor :=
  match e_editData s with
  | Some d =>
      if bool_decide (name d ∈ locks s) &&
         negb (bool_decide (getSnapshotSignature (Some d) = getSnapshotSignature (Some (row_data (default (displayed s (name d)) (snapshot_of (saved s) (name d)))))))
      then handleEdit (name d) s else s
  | None => s
  end.

(** The fields of the panel are disabled while its model is locked or a lock is written. *)
Definition panel_disabled (s : Editor) : bool :=
  lockPending s || match e_editData s with Some d => bool_decide (name d ∈ locks s) | None => false end.

Definition editor_step (s : Editor) (e : EditorEvent) : Editor :=
  match e with
  | EditClicked n => handleEdit n s
  | AddClicked => handleAdd s
  | FilterChanged c => handleGlobalFilterChange c s
  | DeleteClicked n => handleDelete n s
  | PanelInput e => if panel_disabled s then s else set_panel s (panel_step (panel s) e)
  | CommitOpen => (commitOpenEditor s).1
  | BatchCopied ns => handleBatchCopy ns s
  | ToggleStarted => set_pending s true
  | ToggleFailed => set_pending s false
  | ToggleAnswered n l acc text => handleToggleLock n l acc text s
  | OptionsRefetched acc text => options_read acc text (lockPending s) (drafts s) s
  | DefaultsApplied => applyModelDefaults s
  | LocksRefreshed => refresh_locked s
  end.

Definition editor_run (es : list EditorEvent) (s : Editor) : Editor := fold_left editor_step es s.

(** ** The ratios of the form follow the prices *)

Definition in_step (p : Panel) : Prop :=
  f_ratio p = base_ratio (promptPrice p) /\ forall k, f_laneRatio p k = lane_ratio (promptPrice p) (lanePrices p) (laneEnabled p) k.

Lemma set_lane_eq {A} k (v : A) f : set_lane k v f k = v.
Proof. unfold set_lane. by rewrite bool_decide_eq_true_2. Qed.
Lemma set_lane_ne {A} k j (v : A) f : j <> k -> set_lane k v f j = f j.
Proof. intros H. unfold set_lane. by rewrite bool_decide_eq_false_2. Qed.

(** A ratio depends on the price of its lane, of the base and of the audio input only. *)
Lemma lane_ratio_ext pr f g e e' k :
  f k = g k -> e k = e' k -> (k = audioOutput -> f audioInput = g audioInput) -> lane_ratio pr f e k = lane_ratio pr g e' k.
Proof. intros H1 H2 H3. unfold lane_ratio, deriveLaneRatio. rewrite H1, H2. destruct k; try done. by rewrite H3. Qed.

Lemma new_panel_in_step : in_step (panel_open None).
Proof. by split. Qed.

Lemma prompt_in_step v p : numericDraft v = true -> in_step (handlePromptPriceChange v p).
Proof. intros Hv. unfold handlePromptPriceChange. rewrite Hv. by split. Qed.

Lemma lane_price_in_step k v p : in_step p -> in_step (handleLanePriceChange k v p).
Proof.
  intros [Hr Hl]. unfold handleLanePriceChange. destruct (numericDraft v); [|by split]. split; [done|]. cbn [negb with_form f_laneRatio promptPrice lanePrices laneEnabled].
  intros j. destruct (decide (j = k)) as [->|Hj].
  - assert (bool_decide (k = audioInput) && laneEnabled p audioOutput = true -> k <> audioOutput) as Hk by (by intros [->%bool_decide_eq_true_1 _]%andb_prop).
    case_match; [rewrite set_lane_ne by auto|]; (destruct (laneEnabled p k) eqn:Ek; unfold lane_ratio; rewrite Ek; rewrite ?set_lane_eq; [done|rewrite Hl; unfold lane_ratio; by rewrite Ek]).
  - case_match eqn:Ea.
    + apply andb_prop in Ea as [->%bool_decide_eq_true_1 Eo]. destruct (decide (j = audioOutput)) as [->|Hjo].
      * rewrite set_lane_eq. unfold lane_ratio. by rewrite Eo.
      * rewrite set_lane_ne by done. destruct (laneEnabled p audioInput); rewrite ?set_lane_ne, Hl by done; apply lane_ratio_ext; try done; by rewrite set_lane_ne.
    + assert (f_laneRatio p j = lane_ratio (promptPrice p) (set_lane k v (lanePrices p)) (laneEnabled p) j) as E.
      { rewrite Hl. destruct (laneEnabled p j) eqn:Ej; [|unfold lane_ratio; by rewrite Ej]. apply lane_ratio_ext; [by rewrite set_lane_ne|done|].
        intros ->. rewrite set_lane_ne; [done|]. intros <-. by rewrite Ej in Ea. }
      destruct (laneEnabled p k); rewrite ?set_lane_ne by done; done.
Qed.

Lemma lane_toggle_in_step k c p : in_step p -> in_step (handleLaneToggle k c p).
Proof.
  intros [Hr Hl]. unfold handleLaneToggle. destruct c; [|case_bool_decide as Ek]; (split; [done|]); cbn [with_form f_laneRatio promptPrice lanePrices laneEnabled]; intros j.
  - destruct (decide (j = k)) as [->|Hj]; [rewrite set_lane_eq; unfold lane_ratio; by rewrite set_lane_eq|].
    rewrite set_lane_ne, Hl by done. apply lane_ratio_ext; try done. by rewrite set_lane_ne.
  - subst k. destruct (decide (j = audioOutput)) as [->|Hj]; [rewrite set_lane_eq; unfold lane_ratio; by rewrite set_lane_eq|].
    rewrite set_lane_ne by done. destruct (decide (j = audioInput)) as [->|Hi]; [rewrite set_lane_eq; unfold lane_ratio; by rewrite set_lane_ne, set_lane_eq by done|].
    rewrite set_lane_ne, Hl by done. apply lane_ratio_ext; rewrite ?set_lane_ne by done; done.
  - destruct (decide (j = k)) as [->|Hj]; [rewrite set_lane_eq; unfold lane_ratio; by rewrite set_lane_eq|].
    rewrite set_lane_ne, Hl by done. apply lane_ratio_ext; rewrite ?set_lane_ne by done; done.
Qed.

Lemma step_in_step p e : in_step p -> in_step (panel_step p e).
Proof.
  intros Hp. destruct e; cbn [panel_step]; [|by apply lane_price_in_step|by apply lane_toggle_in_step| | | |]; try done.
  - destruct (numericDraft value) eqn:E; [by apply prompt_in_step|unfold handlePromptPriceChange; by rewrite E].
  - unfold change_name. by destruct (editData p).
  - unfold change_price. by destruct (numericDraft value).
Qed.

Lemma run_in_step es p : in_step p -> in_step (panel_run es p).
Proof. revert p. induction es as [|e es IH]; intros p Hp; [done|]. apply IH, step_in_step, Hp. Qed.

(** C35: after any inputs, the ratios a draft saves are those of the prices the panel shows:
    half of the input price, and for a lane that is on its price divided by the input price
    (by the audio input price for audio output), nothing for a lane that is off; from the
    start for a new model, and from the first input price on for a stored one. *)
Theorem ratios_follow_prices (data : option ModelRatioData) (es : list PanelEvent) (d : ModelRatioData) :
  data = None \/ (exists v, PromptPriceChange v ∈ es /\ numericDraft v = true) ->
  let p := panel_run es (panel_open data) in
  commitDraft false false p = Some d ->
  d = buildSubmitData p /\ ratio d = base_ratio (promptPrice p) /\
  forall k, laneRatio d k = if laneEnabled p k then deriveLaneRatio k (lanePrices p k) (promptPrice p) (lanePrices p) else [].
Proof.
  intros Hs p Hd. assert (in_step p) as [Hr Hl].
  { destruct Hs as [->|(v & Hv & Hn)]; [apply run_in_step, new_panel_in_step|]. apply list_elem_of_split in Hv as (es1 & es2 & Ees).
    unfold p, panel_run. rewrite Ees, fold_left_app. cbn [fold_left]. apply (run_in_step es2). by apply prompt_in_step. }
  unfold commitDraft in Hd. assert (Some (buildSubmitData p) = Some d) as [= <-]; [|split; [done|by split]].
  destruct (negb (nonempty (f_name p))); [by destruct (editData p)|]. destruct (bool_decide _); by destruct (editData p).
Qed.

Definition sample_inputs : list PanelEvent :=
  [NameChange (js "m"); PromptPriceChange (js "3"); LaneToggle completion true; LanePriceChange completion (js "15"); LaneToggle cache true; LanePriceChange cache (js "0.3")].

Lemma ratios_follow_prices_witness :
  let p := panel_run sample_inputs (panel_open None) in
  ratio (buildSubmitData p) = js "1.5" /\ laneRatio (buildSubmitData p) completion = js "5" /\ laneRatio (buildSubmitData p) cache = js "0.1" /\ laneRatio (buildSubmitData p) image = [].
Proof.
  intros p. destruct (ratios_follow_prices None sample_inputs (buildSubmitData p)) as (_ & Hr & Hl); [by left|by vm_compute|].
  fold p in Hr, Hl. rewrite Hr, !Hl. repeat split; by vm_compute.
Defined.

(** ** Locked models *)

Lemma changePricingField_lookup (L : gset (list N)) (sv next : gmap (list N) json) n :
  changePricingField L sv next !! n = if bool_decide (n ∈ L) then sv !! n else next !! n.
Proof.
  unfold changePricingField.
  assert ((n ∈ L -> set_fold (put_saved sv) next L !! n = sv !! n) /\ (n ∉ L -> set_fold (put_saved sv) next L !! n = next !! n)) as [H1 H2].
  { apply (set_fold_ind_L (fun (m : gmap (list N) json) (X : gset (list N)) => (n ∈ X -> m !! n = sv !! n) /\ (n ∉ X -> m !! n = next !! n))).
    - split; [by intros H%not_elem_of_empty|done].
    - intros k X m Hk [IH1 IH2]. unfold put_saved. destruct (decide (n = k)) as [->|Hn].
      + split; [intros _|set_solver]. destruct (sv !! k) eqn:E; [by rewrite lookup_insert_eq|by rewrite lookup_delete_eq].
      + destruct (sv !! k); [rewrite lookup_insert_ne by done|rewrite lookup_delete_ne by done]; (split; intros H; [apply IH1|apply IH2]; set_solver). }
  case_bool_decide; auto.
Qed.

(** The drafts of a model are its saved prices. *)
Definition model_in_step (s : Editor) (n : list N) : Prop := forall t, drafts s t !! n = saved s t !! n.

(** The events that give a locked model its saved prices: its own lock, a reset of the form,
    and any change of the drafts by an edit, a deletion or a copy while it is locked. *)
Definition settles (s : Editor) (n : list N) (e : EditorEvent) : Prop :=
  match e with
  | ToggleAnswered m locked _ _ => m = n /\ locked = true
  | OptionsRefetched _ _ => False
  | DefaultsApplied => True
  | _ => n ∈ locks s /\ exists t m, drafts (editor_step s e) t !! m <> drafts s t !! m
  end.

(** The model is locked when prices are written, and the options read from the server have
    its saved prices unchanged. *)
Definition stays_locked (s : Editor) (n : list N) (e : EditorEvent) : Prop :=
  match e with
  | ToggleAnswered _ _ accepted _ | OptionsRefetched accepted _ => forall t, accepted t !! n = saved s t !! n
  | DeleteClicked _ | CommitOpen | BatchCopied _ => n ∈ locks s
  | _ => True
  end.

Fixpoint stays_locked_all (s : Editor) (n : list N) (es : list EditorEvent) : Prop :=
  match es with [] => True | e :: es => (settles s n e \/ stays_locked s n e) /\ stays_locked_all (editor_step s e) n es end.

Lemma change_all_in_step s s' next n :
  n ∈ locks s -> drafts s' = change_all (locks s) (saved s) next -> saved s' = saved s -> model_in_step s' n.
Proof. intros Hn Hd Hv t. rewrite Hd, Hv. unfold change_all. by rewrite changePricingField_lookup, bool_decide_eq_true_2. Qed.

(** A write keeps the drafts, or it restores the locked models. *)
Lemma write_cases s e :
  match e with ToggleAnswered _ _ _ _ | OptionsRefetched _ _ | DefaultsApplied => False | _ => True end ->
  saved (editor_step s e) = saved s /\
  (drafts (editor_step s e) = drafts s \/ exists next, drafts (editor_step s e) = change_all (locks s) (saved s) next).
Proof.
  intros He. destruct e; cbn [editor_step]; try done; try (split; [done|by left]).
  - destruct changed; (split; [done|by left]).
  - unfold handleDelete. destruct (_ || _); [split; [done|by left]|]. cbv zeta. case_bool_decide; (split; [done|right; by eexists]).
  - destruct (panel_disabled s); (split; [done|by left]).
  - unfold commitOpenEditor. cbv zeta. repeat (case_match; try (split; [done|by left])); (split; [done|right; by eexists]).
  - unfold handleBatchCopy. repeat (case_match; try (split; [done|by left])); (split; [done|right; by eexists]).
  - unfold refresh_locked. repeat case_match; (split; [done|by left]).
Qed.

Lemma settles_in_step s n e : settles s n e -> model_in_step (editor_step s e) n.
Proof.
  intros He. destruct e as [| | | | | | | | |m l acc text|acc text| |]; cbn [settles] in He; try done.
  all: try (destruct He as (Hn & t & m & Hd); match goal with |- model_in_step (editor_step ?s0 ?e) _ => destruct (write_cases s0 e I) as [Hs [E|[next E]]] end;
    [by rewrite E in Hd|by eapply change_all_in_step]).
  destruct He as [-> ->]. intros t. cbn. unfold put_saved. destruct (acc t !! n) eqn:E; [by rewrite lookup_insert_eq|by rewrite lookup_delete_eq].
Qed.

Lemma stays_in_step s n e : stays_locked s n e -> model_in_step s n -> model_in_step (editor_step s e) n.
Proof.
  intros He Hs. destruct e as [| | | | | | | | |m l acc text|acc text| |]; cbn [stays_locked] in He; try exact Hs.
  all: try (match goal with |- model_in_step (editor_step ?s0 ?e) _ => destruct (write_cases s0 e I) as [Hv [E|[next E]]] end;
    [intros t; rewrite E, Hv; by apply Hs|by eapply change_all_in_step]).
  - by destruct changed.
  - cbn. by destruct (panel_disabled s).
  - intros t. cbn. rewrite He. destruct l; [|apply Hs]. unfold put_saved. destruct (decide (m = n)) as [->|Hne].
    + rewrite He. destruct (saved s t !! n) eqn:E; [by rewrite lookup_insert_eq|by rewrite lookup_delete_eq].
    + destruct (acc t !! m); [rewrite lookup_insert_ne by done|rewrite lookup_delete_ne by done]; apply Hs.
  - intros t. cbn. by rewrite He.
  - done.
  - cbn. unfold refresh_locked. destruct (e_editData s); [|done]. by destruct (_ && _).
Qed.


Definition sample_options : RatioType -> gmap (list N) json := fun t =>
  match t with
  | model_price => {[js "a" := JNum (num_of_Z 2)]}
  | model_ratio => {[js "b" := JNum (num_of_Z 3)]}
  | _ => ∅
  end.

Definition sample_editor : Editor := mkEditor sample_options sample_options ∅ false false None false (panel_open None).

(** Model [a] is edited, then locked, then overwritten by a copy of [b]. *)
Definition sample_session : list EditorEvent :=
  [EditClicked (js "a"); PanelInput (PriceChange (js "9")); CommitOpen; ToggleStarted].
Definition lock_of_a : list N := js "{" ++ json_string (js "a") ++ js ":true}".
Definition locking : EditorEvent := ToggleAnswered (js "a") true sample_options (Some lock_of_a).
Definition sample_rest : list EditorEvent := [EditClicked (js "b"); BatchCopied [js "a"]; DeleteClicked (js "a")].


(** A lock another administrator set arrives with the options: the draft stays until prices
    are written or the form is reset, though the table shows the saved price. *)
Example foreign_lock_keeps_draft :
  let s := editor_run [EditClicked (js "a"); PanelInput (PriceChange (js "9")); CommitOpen;
                       OptionsRefetched sample_options (Some lock_of_a)] sample_editor in
  locks s = {[js "a"]} /\ drafts s model_price !! js "a" = Some (JNum (num_of_Z 9)) /\
  drafts (editor_step s (DeleteClicked (js "b"))) model_price !! js "a" = Some (JNum (num_of_Z 2)).
Proof. vm_compute. by split_and!. Qed.

(** ** What is saved is what is read *)

(** A text of a number as the forms hold it. *)
Definition canonical (s : list N) : Prop := s = [] \/ exists x, printable x = true /\ s = num_to_string x.

Lemma parse_float_print x : printable x = true -> parse_float (num_to_string x) = x.
Proof.
  intros Hx. destruct (num_to_string_numeral x Hx) as (t & Ht & E). destruct (numeral_head t _ Ht) as (c & r & Et & Hc).
  assert (read_signed (num_to_string x) = x) as Hread.
  { assert (read_unsigned t = num_abs x) as Hu.
    { unfold read_unsigned, read_decimal. rewrite bool_decide_eq_false_2 by (rewrite Et; by intros [= ->]).
      pose proof (numeral_scan_number t _ [] Ht I) as Hn. rewrite app_nil_r in Hn. rewrite Hn, Et. unfold starts_number. by rewrite Hc. }
    rewrite E. destruct (negative x) eqn:En.
    - change (read_signed (js "-" ++ t)) with (num_neg (read_unsigned t)). by rewrite Hu, num_abs_neg.
    - cbn [app]. rewrite Et. rewrite Et in Hu. assert (read_signed (c :: r) = read_unsigned (c :: r)) as ->.
      { unfold read_signed. apply is_digit_spec in Hc. repeat case_match; try done; lia. }
      by rewrite Hu, num_abs_pos. }
  assert (trim_start (num_to_string x) = num_to_string x) as Htrim.
  { destruct (num_to_string_head x Hx) as (c0 & r0 & -> & [Hc0%is_digit_not_space| ->]); by apply drop_while_id. }
  unfold parse_float. rewrite Htrim. cbv zeta. destruct (length (num_to_string x)) as [|m] eqn:El.
  { apply nil_length_inv in El. rewrite El in E. destruct (negative x); [done|]. by rewrite Et in E. }
  cbn [parse_prefix]. rewrite <- El, firstn_all, Hread. assert (is_nan x = false) as -> by (by destruct x). done.
Qed.

Lemma set_present_ne k n v m : n <> k -> setIfPresent k v m !! n = m !! n.
Proof. intros H. unfold setIfPresent. destruct v; [done|]. cbv zeta. case_match; [by rewrite lookup_insert_ne|done]. Qed.

Lemma set_present_text n v m : canonical v -> stored_text (setIfPresent n v (delete n m) !! n) = v.
Proof.
  intros [->|(x & Hx & ->)]; [cbn [setIfPresent]; by rewrite lookup_delete_eq|].
  destruct (num_to_string_head x Hx) as (c & r & E & _). unfold setIfPresent. rewrite E, <- E. cbv zeta.
  rewrite parse_float_print by done. assert (is_finite x = true) as -> by (by destruct x). by rewrite lookup_insert_eq.
Qed.

Lemma write_model_ne data k n o t : n <> k -> write_model data k o t !! n = o t !! n.
Proof.
  intros H. unfold write_model, delete_model. cbv zeta.
  repeat case_match; rewrite ?set_present_ne, ?lookup_insert_ne, ?lookup_delete_ne by done; done.
Qed.

Lemma set_present_same (n v : list N) (m m' : gmap (list N) json) : m !! n = m' !! n -> setIfPresent n v m !! n = setIfPresent n v m' !! n.
Proof. intros H. unfold setIfPresent. destruct v; [done|]. cbv zeta. case_match; [by rewrite !lookup_insert_eq|done]. Qed.

Lemma write_model_same data n o o' t : write_model data n o t !! n = write_model data n o' t !! n.
Proof.
  assert (delete_model n o t !! n = delete_model n o' t !! n) as E by (unfold delete_model; by rewrite !lookup_delete_eq).
  unfold write_model. cbv zeta. repeat case_match; rewrite ?lookup_insert_eq by done; try done; by apply set_present_same.
Qed.

(** The value of an option for a model after a save. *)
Lemma persist_lookup L sv dr data targets n t :
  (persistPricingData L sv dr data targets).1 t !! n =
    if bool_decide (n ∈ L) then sv t !! n
    else if bool_decide (n ∈ targets) then write_model data n dr t !! n
    else dr t !! n.
Proof.
  unfold persistPricingData, change_all. cbn [fst]. rewrite changePricingField_lookup. case_bool_decide as Hl; [done|].
  induction targets as [|k ks IH] using rev_ind; [by rewrite bool_decide_eq_false_2 by (by intros ?%not_elem_of_nil)|].
  rewrite fold_left_app. cbn [fold_left]. rewrite (bool_decide_ext (n ∈ ks ++ [k]) (n ∈ ks \/ n = k)) by (rewrite elem_of_app; by rewrite list_elem_of_singleton).
  destruct (decide (n = k)) as [<-|Hn].
  - rewrite (bool_decide_eq_false_2 (n ∈ L) Hl), (bool_decide_eq_true_2 (n ∈ ks \/ n = n)) by (by right). apply write_model_same.
  - rewrite (bool_decide_ext (n ∈ ks \/ n = k) (n ∈ ks)) by tauto. rewrite <- IH. destruct (bool_decide (k ∈ L)); [done|by apply write_model_ne].
Qed.

Lemma nonempty_iff (s : list N) : nonempty s = true <-> s <> [].
Proof. by destruct s. Qed.

Lemma fallback_conflict (p r : list N) (lanes : LaneKey -> list N) :
  nonempty p && (nonempty r || existsb (fun k => nonempty (lanes k)) laneConfigs) = true <->
  p <> [] /\ (r <> [] \/ exists k, lanes k <> []).
Proof.
  rewrite andb_true_iff, orb_true_iff, existsb_exists, !nonempty_iff. setoid_rewrite nonempty_iff.
  assert (forall k, In k laneConfigs) as Hall by (intros []; cbn; tauto). naive_solver.
Qed.

(** What a snapshot says of a model with the prices of [data]. *)
Definition prices_of (data : ModelRatioData) (n : list N) (row : ModelPricingSnapshot) : Prop :=
  let d := row_data row in
  name d = n /\
  match billingMode data with
  | tiered_expr =>
      let combined := combineBillingExpr (billingExpr data) (requestRuleExpr data) in
      (if nonempty combined
       then billingMode d = tiered_expr /\ hasConflict row = false /\
            (billingExpr d, requestRuleExpr d) = splitBillingExprAndRequestRules combined
       else billingMode d = (if nonempty (price data) then per_request else per_token) /\
            (hasConflict row = true <-> price data <> [] /\ (ratio data <> [] \/ exists k, laneRatio data k <> []))) /\
      price d = price data /\ ratio d = ratio data /\ (forall k, laneRatio d k = laneRatio data k)
  | _ =>
      if nonempty (price data)
      then billingMode d = per_request /\ hasConflict row = false /\ price d = price data /\ ratio d = [] /\ (forall k, laneRatio d k = [])
      else billingMode d = per_token /\ hasConflict row = false /\ price d = [] /\ ratio d = ratio data /\ (forall k, laneRatio d k = laneRatio data k)
  end.

Definition form_canonical (data : ModelRatioData) : Prop := canonical (price data) /\ canonical (ratio data) /\ forall k, canonical (laneRatio data k).

Lemma form_text_lane data k : form_text data (ratioFieldByLane k) = laneRatio data k.
Proof. by destruct k. Qed.

Lemma lane_category k : getBillingCategory (ratioFieldByLane k) = Ratio.
Proof. by destruct k. Qed.

(** The texts and the mode a written model reads back with. *)
Lemma written_texts data n o :
  form_canonical data ->
  let at_name := fun t => write_model data n o t !! n in
  let tiered := bool_decide (billingMode data = tiered_expr) in
  let has_price := nonempty (price data) in
  stored_text (at_name model_price) = (if tiered || has_price then price data else []) /\
  stored_text (at_name model_ratio) = (if tiered || negb has_price then ratio data else []) /\
  (forall k, stored_text (at_name (ratioFieldByLane k)) = if tiered || negb has_price then laneRatio data k else []) /\
  is_tiered (at_name billing_mode) = tiered && nonempty (combineBillingExpr (billingExpr data) (requestRuleExpr data)) /\
  (is_tiered (at_name billing_mode) = true -> expr_text (at_name billing_expr) = combineBillingExpr (billingExpr data) (requestRuleExpr data)).
Proof.
  intros (Hp & Hr & Hl) at_name tiered has_price. unfold at_name, tiered, has_price, write_model, delete_model. cbv zeta.
  assert (forall t v, getBillingCategory t = Ratio -> form_text data t = v -> canonical v ->
    stored_text (match billingMode data, getBillingCategory t with
      | tiered_expr, Tiered => if nonempty (combineBillingExpr (billingExpr data) (requestRuleExpr data)) then <[n := JStr (match t with billing_mode => js "tiered_expr" | _ => combineBillingExpr (billingExpr data) (requestRuleExpr data) end)]> (delete n (o t)) else delete n (o t)
      | tiered_expr, _ => setIfPresent n (form_text data t) (delete n (o t))
      | _, Price => if nonempty (price data) then setIfPresent n (form_text data t) (delete n (o t)) else delete n (o t)
      | _, Ratio => if nonempty (price data) then delete n (o t) else setIfPresent n (form_text data t) (delete n (o t))
      | _, Tiered => delete n (o t) end !! n)
    = if bool_decide (billingMode data = tiered_expr) || negb (nonempty (price data)) then v else []) as Hratio.
  { intros t v Ht Hv Hc. rewrite Ht, Hv. destruct (billingMode data); [|..|by apply set_present_text];
      (destruct (nonempty (price data)); [by rewrite lookup_delete_eq|by apply set_present_text]). }
  split; [|split; [by apply Hratio|split; [intros k; apply Hratio; [apply lane_category|apply form_text_lane|done]|]]].
  - cbn [getBillingCategory form_text]. destruct (billingMode data); [|..|by apply set_present_text];
      (destruct (nonempty (price data)); [by apply set_present_text|by rewrite lookup_delete_eq]).
  - cbn [getBillingCategory]. destruct (billingMode data); [by rewrite lookup_delete_eq..|].
    destruct (nonempty (combineBillingExpr _ _)); [by rewrite !lookup_insert_eq|by rewrite !lookup_delete_eq].
Qed.

(** C34: after a save of a form whose prices and ratios are empty or printed numbers, the table
    reads for each target that is not locked the prices of the form.  Priced by an
    expression: the expression and its rules, with the prices of the form as a fallback;
    an empty expression leaves the fallback alone, which conflicts exactly when it has both
    a fixed price and a ratio.  Else the fixed price alone, or without one the ratios alone.
    The other models that are not locked are as before.  A text such as [.] that the form
    accepts and is no number is outside ([point_is_no_price]). *)
Theorem saved_prices_read_back (L : gset (list N)) (sv dr : RatioType -> gmap (list N) json) (data : ModelRatioData) (targets : list (list N)) (n : list N) :
  form_canonical data -> n ∉ L ->
  let opts := (persistPricingData L sv dr data targets).1 in
  (n ∈ targets -> prices_of data n (read_model n (fun t => opts t !! n))) /\
  (n ∉ targets -> forall t, opts t !! n = dr t !! n).
Proof.
  intros Hc Hl opts. assert (forall t, opts t !! n = if bool_decide (n ∈ targets) then write_model data n dr t !! n else dr t !! n) as Hlook.
  { intros t. unfold opts. by rewrite persist_lookup, bool_decide_eq_false_2. }
  split; [|intros Hn t; by rewrite Hlook, bool_decide_eq_false_2]. intros Hn. rewrite (bool_decide_eq_true_2 _ Hn) in Hlook.
  destruct (written_texts data n dr Hc) as (H1 & H2 & H3 & H4 & H5). unfold prices_of, read_model. cbv zeta. rewrite !Hlook, H1, H2.
  assert (forall k, stored_text (opts (ratioFieldByLane k) !! n) = if bool_decide (billingMode data = tiered_expr) || negb (nonempty (price data)) then laneRatio data k else []) as Hlanes
    by (intros k; by rewrite Hlook).
  destruct (is_tiered (write_model data n dr billing_mode !! n)) eqn:Et.
  - symmetry in H4. apply andb_prop in H4 as [Hm%bool_decide_eq_true_1 Hn0]. rewrite (H5 eq_refl), Hm. rewrite Hm in Hlanes.
    destruct (splitBillingExprAndRequestRules _) as [pure rules] eqn:Es. split; [done|]. by rewrite Hn0.
  - cbn [row_data name]. split; [done|]. destruct (billingMode data) eqn:Em.
    3: { cbv zeta. rewrite (bool_decide_eq_true_2 (tiered_expr = tiered_expr)) in * by done. cbn [orb andb] in *. rewrite <- H4. split; [|done]. split; [done|]. cbn [hasConflict]. rewrite fallback_conflict. by setoid_rewrite Hlanes. }
    all:
      (cbn [orb] in *; destruct (nonempty (price data)) eqn:Ep; cbn [negb orb] in *; rewrite ?Ep; repeat split; try done; cbn [hasConflict laneConfigs existsb]; rewrite ?Hlanes; try done; rewrite !bool_decide_eq_false_2 by done; cbn [orb billingMode]; by rewrite Ep).
Qed.

Definition sample_form (m : PricingMode) (p : list N) : ModelRatioData :=
  mkData (js "m") p (js "1.5") (fun k => match k with completion => js "5" | _ => [] end) m DEFAULT_EXPR [].

Lemma sample_form_canonical m : form_canonical (sample_form m []).
Proof.
  assert (forall x s, printable x = true -> num_to_string x = s -> canonical s) as H by (intros x s Hx <-; right; by exists x).
  split; [by left|]. split; [by apply (H (num_of_decimal 15 (-1))); vm_compute|]. intros []; try (by left). by apply (H (num_of_Z 5)); vm_compute.
Qed.

Lemma saved_prices_read_back_witness :
  let opts := (persistPricingData ∅ sample_options sample_options (sample_form per_token []) [js "a"]).1 in
  let row := row_data (read_model (js "a") (fun t => opts t !! js "a")) in
  billingMode row = per_token /\ price row = [] /\ ratio row = js "1.5" /\ laneRatio row completion = js "5" /\
  opts model_ratio !! js "b" = Some (JNum (num_of_Z 3)).
Proof.
  intros opts row.
  destruct (saved_prices_read_back ∅ sample_options sample_options (sample_form per_token []) [js "a"] (js "a")) as [Ha _];
    [apply sample_form_canonical|by apply not_elem_of_empty|].
  destruct (saved_prices_read_back ∅ sample_options sample_options (sample_form per_token []) [js "a"] (js "b")) as [_ Hb];
    [apply sample_form_canonical|by apply not_elem_of_empty|].
  destruct Ha as (_ & Hm & _ & Hp & Hr & Hl); [apply list_elem_of_here|]. fold opts in Hm, Hp, Hr, Hl, Hb. fold row in Hm, Hp, Hr, Hl.
  split; [exact Hm|]. split; [exact Hp|]. split; [exact Hr|]. split; [exact (Hl completion)|].
  rewrite Hb; [by vm_compute|]. intros Hin%list_elem_of_singleton. discriminate Hin.
Defined.

(** ** Mode changes that are lost *)

(** A model with a fixed price is given token prices: the panel accepts the draft and shows it,
    and the save keeps the fixed price and drops the token prices. *)
Definition price_to_tokens : list EditorEvent :=
  [EditClicked (js "a"); PanelInput (ModeChange per_token); PanelInput (PromptPriceChange (js "3")); CommitOpen].

Example token_prices_lost :
  let s := editor_run (take 3 price_to_tokens) sample_editor in
  let s' := editor_run price_to_tokens sample_editor in
  pricingMode (panel s) = per_token /\ f_ratio (panel s) = js "1.5" /\ (commitOpenEditor s).2 = true /\
  drafts s' model_price !! js "a" = Some (JNum (num_of_Z 2)) /\ drafts s' model_ratio !! js "a" = None.
Proof. by vm_compute. Qed.

(** A draft of the price is accepted by its pattern and saved as no price at all. *)
Example point_is_no_price :
  numericDraft (js ".") = true /\
  (persistPricingData ∅ sample_options sample_options (mkData (js "a") (js ".") [] (fun _ => []) per_request [] []) [js "a"]).1 model_price !! js "a" = None.
Proof. by vm_compute. Qed.

(** An expression left empty: the prices kept as a fallback are all written, and conflict. *)
Example empty_expression_conflicts :
  let opts := (persistPricingData ∅ sample_options sample_options (mkData (js "a") (js "2") (js "1.5") (fun _ => []) tiered_expr [] []) [js "a"]).1 in
  hasConflict (read_model (js "a") (fun t => opts t !! js "a")) = true.
Proof. by vm_compute. Qed.

(** ** Signatures *)

Definition units_data (d : ModelRatioData) : bool := forallb (fun kv => unitsb kv.2) (signature_fields d).

Lemma signature_wf d : units_data d = true -> json_wf (JObj (map (prod_map id JStr) (signature_fields d))) = true.
Proof.
  intros Hu. cbn [json_wf]. apply andb_true_intro. split.
  - by vm_compute.
  - unfold units_data in Hu. rewrite forallb_forall in Hu. apply forallb_forall. intros kv Hin. apply in_map_iff in Hin as ([k v] & <- & Hin).
    cbn [prod_map id json_wf fst snd]. pose proof (Hu _ Hin) as Hv. cbn [snd] in Hv. rewrite Hv, andb_true_r.
    assert (forallb (fun kv => unitsb kv.1) (signature_fields d) = true) as Hk by (by vm_compute). rewrite forallb_forall in Hk. apply (Hk _ Hin).
Qed.

(** Two drafts have the same signature when, and only when, they say the same: a draft is
    marked changed by any change of a price, the mode or the expressions. *)
Theorem signature_detects_changes (a b : ModelRatioData) :
  units_data a = true -> units_data b = true ->
  getSnapshotSignature (Some a) = getSnapshotSignature (Some b) <->
  price a = price b /\ ratio a = ratio b /\ (forall k, laneRatio a k = laneRatio b k) /\
  billingMode a = billingMode b /\ billingExpr a = billingExpr b /\ requestRuleExpr a = requestRuleExpr b.
Proof.
  intros Ha Hb. cbn [getSnapshotSignature]. split.
  - intros E. apply (f_equal json_parse) in E. rewrite !json_roundtrip in E by (by apply signature_wf). injection E as -> -> H1 H2 H3 H4 H5 H6 Hm -> ->.
    split; [done|]. split; [done|]. split; [by intros []|]. by destruct (billingMode a), (billingMode b).
  - intros (H1 & H2 & H3 & H4 & H5 & H6). unfold signature_fields. by rewrite H1, H2, H4, H5, H6, !H3.
Qed.

(** ** A synchronised price that does not apply *)

Definition tiered_options : RatioType -> gmap (list N) json := fun t =>
  match t with
  | billing_mode => {[js "m" := JStr (js "tiered_expr")]}
  | billing_expr => {[js "m" := JStr DEFAULT_EXPR]}
  | _ => ∅
  end.

(** The fixed price of an upstream is written at once for a model billed by an expression,
    and the model stays billed by its expression. *)
Example synced_price_ignored :
  let p := mkPage sample_differences {[js "m" := {[model_price := JNum (num_of_Z 2)]}]} ∅ false in
  exists w, handleApplySync tiered_options p = (p, Some w) /\
    w model_price !! js "m" = Some (JNum (num_of_Z 2)) /\
    billingMode (row_data (read_model (js "m") (fun t => w t !! js "m"))) = tiered_expr.
Proof. intros p. exists (performSync (resolutions p) tiered_options). split; [|by vm_compute]. unfold handleApplySync. by rewrite bool_decide_eq_true_2 by (by vm_compute). Qed.
