(* ===== verification/ParamOverride.v ===== *)
(** * The editor of parameter overrides
    (src/apps/web/src/features/channels/components/dialogs/param-override-editor-dialog.tsx)

    A channel may carry rules that rewrite requests.  They are stored as a JSON text: an object
    with a list of operations, or an object of plain values (the legacy format).  The dialog
    edits the operations in forms or as text, checks them, and writes the text again.

    The identifiers of rows are [po_], the time and a counter; as the counter never repeats,
    an identifier is its count here.  [None] stands for the [TypeError] of a property of
    [null].  Objects keep the order of their members. *)
From S2P Require Import Prelude JsString JsNumber BillingLexer JsJson JsNumberPrint JsJsonPrint JsJsonPretty AuthSession VisualTiers ChannelForm.
From stdpp Require Import gmap.
From Stdlib Require Import Lia.

(** ** Rows *)

Record Condition := mkCond {
  c_id : nat; c_path : list N; c_mode : list N; c_value_text : list N; c_invert : bool; c_pass_missing_key : bool }.

Record Operation := mkOp {
  o_id : nat; o_description : list N; o_path : list N; o_mode : list N; o_from : list N; o_to : list N;
  o_value_text : list N; o_keep_origin : bool; o_logic : list N; o_conditions : list Condition }.

Definition OPERATION_MODE_OPTIONS : list (string * string) :=
  [("Set Field", "set"); ("Delete Field", "delete"); ("Append to End", "append"); ("Prepend to Start", "prepend");
   ("Copy Field", "copy"); ("Move Field", "move"); ("String Replace", "replace"); ("Regex Replace", "regex_replace");
   ("Trim Prefix", "trim_prefix"); ("Trim Suffix", "trim_suffix"); ("Ensure Prefix", "ensure_prefix"); ("Ensure Suffix", "ensure_suffix");
   ("Trim Space", "trim_space"); ("To Lowercase", "to_lower"); ("To Uppercase", "to_upper"); ("Return Custom Error", "return_error");
   ("Prune Object Items", "prune_objects"); ("Pass Through Headers", "pass_headers"); ("Sync Fields", "sync_fields");
   ("Set Request Header", "set_header"); ("Delete Request Header", "delete_header"); ("Copy Request Header", "copy_header");
   ("Move Request Header", "move_header")]%string.

Definition OPERATION_MODE_VALUES : list (list N) := map (fun o => js o.2) OPERATION_MODE_OPTIONS.

Definition OPERATION_MODE_LABEL_MAP (mode : list N) : list N :=
  match list_find (fun o => js o.2 = mode) OPERATION_MODE_OPTIONS with Some (_, o) => js o.1 | None => mode end.

Definition CONDITION_MODE_OPTIONS : list (string * string) :=
  [("Exact Match", "full"); ("Prefix", "prefix"); ("Suffix", "suffix"); ("Contains", "contains"); ("Greater Than", "gt");
   ("Greater Than or Equal", "gte"); ("Less Than", "lt"); ("Less Than or Equal", "lte")]%string.

Definition CONDITION_MODE_VALUES : list (list N) := map (fun o => js o.2) CONDITION_MODE_OPTIONS.

Record Meta := mkMeta { m_path : bool; m_pathOptional : bool; m_value : bool; m_from : bool; m_to : bool; m_keepOrigin : bool; m_pathAlias : bool }.

Definition mode_in (modes : list string) (mode : list N) : bool := bool_decide (mode ∈ map js modes).

(** The fields a mode uses ([MODE_META[mode] || MODE_META.set]). *)
Definition MODE_META (mode : list N) : Meta :=
  let known := bool_decide (mode ∈ OPERATION_MODE_VALUES) in
  mkMeta
    (negb known || mode_in ["delete"; "set"; "append"; "prepend"; "replace"; "regex_replace"; "trim_prefix"; "trim_suffix"; "ensure_prefix";
                            "ensure_suffix"; "trim_space"; "to_lower"; "to_upper"; "set_header"; "delete_header"]%string mode)
    (mode_in ["prune_objects"]%string mode)
    (negb known || mode_in ["set"; "append"; "prepend"; "trim_prefix"; "trim_suffix"; "ensure_prefix"; "ensure_suffix"; "return_error";
                            "prune_objects"; "pass_headers"; "set_header"]%string mode)
    (mode_in ["copy"; "move"; "replace"; "regex_replace"; "sync_fields"; "copy_header"; "move_header"]%string mode)
    (mode_in ["copy"; "move"; "sync_fields"; "copy_header"; "move_header"]%string mode)
    (negb known || mode_in ["set"; "append"; "prepend"; "pass_headers"; "set_header"; "copy_header"; "move_header"]%string mode)
    (mode_in ["copy_header"; "move_header"]%string mode).

Definition VALUE_REQUIRED_MODES : list string :=
  ["trim_prefix"; "trim_suffix"; "ensure_prefix"; "ensure_suffix"; "set_header"; "return_error"; "prune_objects"; "pass_headers"]%string.
Definition FROM_REQUIRED_MODES : list string := ["copy"; "move"; "replace"; "regex_replace"; "copy_header"; "move_header"; "sync_fields"]%string.
Definition TO_REQUIRED_MODES : list string := ["copy"; "move"; "copy_header"; "move_header"; "sync_fields"]%string.

(** ** Values *)

Definition toValueText (v : option json) : list N :=
  match v with None => [] | Some (JStr s) => s | Some v => json_stringify v end.

Definition parseLooseValue (valueText : list N) : json :=
  let raw := trim valueText in
  match raw with
  | [] => JStr []
  | _ => match json_parse raw with Some v => v | None => JStr raw end
  end.

Definition verifyJSON (text : list N) : bool := bool_decide (is_Some (json_parse text)).

(** A member of a value that may be a primitive; [null] is not asked. *)
Definition text_of (k : string) (v : json) : list N := match get k v with Some (JStr s) => s | _ => [] end.
Definition is_true (k : string) (v : json) : bool := match get k v with Some (JBool true) => true | _ => false end.

Definition upper_ascii (c : N) : N := if ((97 <=? c) && (c <=? 122))%N then (c - 32)%N else c.

(** [String(v || fallback).toUpperCase() === word], [word] being ASCII capitals. *)
Definition logic_is (word fallback : list N) (v : option json) : bool :=
  let v := match v with Some x => if json_truthy x then x else JStr fallback | None => JStr fallback end in
  bool_decide (map upper_ascii (json_to_string v) = word).

Definition normalizeCondition (seed : nat) (condition : json) : option (Condition * nat) :=
  match condition with
  | JNull => None
  | _ =>
      let mode := text_of "mode" condition in
      Some (mkCond seed (text_of "path" condition) (if bool_decide (mode ∈ CONDITION_MODE_VALUES) then mode else js "full")
              (toValueText (get "value" condition)) (is_true "invert" condition) (is_true "pass_missing_key" condition), S seed)
  end.

(** [map] with the counter threaded through. *)
Fixpoint map_seed {A B} (f : nat -> A -> option (B * nat)) (seed : nat) (l : list A) : option (list B * nat) :=
  match l with
  | [] => Some ([], seed)
  | x :: rest =>
      match f seed x with
      | None => None
      | Some (y, s) => match map_seed f s rest with None => None | Some (ys, s') => Some (y :: ys, s') end
      end
  end.

Definition normalizeOperation (seed : nat) (operation : json) : option (Operation * nat) :=
  match operation with
  | JNull => None
  | _ =>
      let mode := text_of "mode" operation in
      let items := match get "conditions" operation with Some (JArr l) => l | _ => [] end in
      match map_seed normalizeCondition (S seed) items with
      | None => None
      | Some (conditions, s) =>
          Some (mkOp seed (text_of "description" operation) (text_of "path" operation)
                  (if bool_decide (mode ∈ OPERATION_MODE_VALUES) then mode else js "set")
                  (text_of "from" operation) (text_of "to" operation) (toValueText (get "value" operation)) (is_true "keep_origin" operation)
                  (if logic_is (js "AND") (js "OR") (get "logic" operation) then js "AND" else js "OR") conditions, s)
      end
  end.

Definition createDefaultCondition (seed : nat) : Condition * nat := (mkCond seed [] (js "full") [] false false, S seed).

Definition createDefaultOperation (seed : nat) : Operation * nat :=
  (mkOp seed [] [] (js "set") [] [] [] false (js "OR") [], S seed).

(** ** Order *)

Definition index_of (id : nat) (ops : list Operation) : option nat := fst <$> list_find (fun o => o_id o = id) ops.

Definition insert_at {A} (i : nat) (x : A) (l : list A) : list A := take i l ++ x :: drop i l.

Definition reorderOperations (ops : list Operation) (sourceId targetId : nat) (after : bool) : list Operation :=
  if bool_decide (sourceId = targetId) then ops
  else
    match list_find (fun o => o_id o = sourceId) ops with
    | None => ops
    | Some (srcIdx, moved) =>
        let next := delete srcIdx ops in
        match index_of targetId next with
        | None => ops
        | Some insertIdx => insert_at (if after then S insertIdx else insertIdx) moved next
        end
    end.

(** ** Blank rows, summaries *)

Definition blank (s : list N) : bool := negb (nonempty (trim s)).

Definition condition_touched (c : Condition) : bool :=
  negb (blank (c_path c)) || negb (blank (c_value_text c)) || negb (bool_decide (c_mode c = js "full")) || c_invert c || c_pass_missing_key c.

Definition isOperationBlank (o : Operation) : bool :=
  bool_decide (o_mode o = js "set") && blank (o_path o) && blank (o_from o) && blank (o_to o) && blank (o_value_text o) &&
  negb (o_keep_origin o) && negb (existsb condition_touched (o_conditions o)).

Definition first_filled (texts : list (list N)) : list N := default (js "-") (head (filter (fun s => nonempty s = true) texts)).

Definition getOperationSummary (o : Operation) (index : nat) : list N :=
  let mode := if nonempty (o_mode o) then o_mode o else js "set" in
  let label := OPERATION_MODE_LABEL_MAP mode in
  let parts := if bool_decide (mode = js "sync_fields") then [trim (o_from o); trim (o_to o)] else [trim (o_path o); trim (o_from o); trim (o_to o)] in
  num_to_string (num_of_Z (Z.of_nat index + 1)) ++ js ". " ++ label ++ [32; 183; 32]%N ++ first_filled parts.

Definition getModeTagTailwind (mode : list N) : string :=
  let has w := includes (js w) mode in
  if has "header"%string then "console-status-info-badge"
  else if has "replace"%string || has "trim"%string then "console-status-warning-badge"
  else if has "copy"%string || has "move"%string then "console-status-info-badge"
  else if has "error"%string || has "prune"%string then "console-status-danger-badge"
  else if has "sync"%string then "console-status-success-badge"
  else "bg-muted text-muted-foreground".

(** ** Sync targets *)

Record SyncTarget := mkTarget { t_header : bool; t_key : list N }.

Definition COLON : N := 58%N.

Definition lower_ascii (c : N) : N := if ((65 <=? c) && (c <=? 90))%N then (c + 32)%N else c.

Definition parseSyncTargetSpec (spec : list N) : SyncTarget :=
  let raw := trim spec in
  match raw with
  | [] => mkTarget false []
  | _ =>
      match span (fun c => negb (c =? COLON)%N) raw with
      | (_, []) => mkTarget false raw
      | (prefix, _ :: key) => mkTarget (bool_decide (map lower_ascii (trim prefix) = js "header")) (trim key)
      end
  end.

Definition buildSyncTargetSpec (header : bool) (key : list N) : list N :=
  let normalizedKey := trim key in
  match normalizedKey with [] => [] | _ => (if header then js "header" else js "json") ++ [COLON] ++ normalizedKey end.

(** ** The value of [return_error] *)

Record ReturnErrorDraft := mkError { e_message : list N; e_statusCode : spec_float; e_code : list N; e_type : list N; e_skipRetry : bool; e_simpleMode : bool }.

Definition error_defaults : ReturnErrorDraft := mkError [] (num_of_Z 400) [] [] true true.

Definition status_or_400 (n : spec_float) : spec_float :=
  if is_integer n && num_leb (num_of_Z 100) n && num_leb n (num_of_Z 599) then n else num_of_Z 400.

(** [String(v || '')]. *)
Definition text_or_empty (v : option json) : list N := match v with Some x => if json_truthy x then json_to_string x else [] | None => [] end.

(** [String(a || b || '')]. *)
Definition first_text (a b : option json) : list N :=
  match a with Some x => if json_truthy x then json_to_string x else text_or_empty b | None => text_or_empty b end.

Definition parseReturnErrorDraft (valueText : list N) : ReturnErrorDraft :=
  let raw := trim valueText in
  match raw with
  | [] => error_defaults
  | _ =>
      match json_parse raw with
      | Some (JObj _ as parsed) =>
          let statusRaw := match get "status_code" parsed with Some v => Some v | None => get "status" parsed end in
          mkError (trim (first_text (get "message" parsed) (get "msg" parsed)))
            (status_or_400 (match statusRaw with Some v => json_to_number v | None => S754_nan end))
            (trim (text_or_empty (get "code" parsed))) (trim (text_or_empty (get "type" parsed)))
            (negb (match get "skip_retry" parsed with Some (JBool false) => true | _ => false end)) false
      | _ => mkError raw (num_of_Z 400) [] [] true true
      end
  end.

Definition opt_member (b : bool) (k : string) (v : json) : list (list N * json) := if b then [(js k, v)] else [].

Definition error_payload (d : ReturnErrorDraft) : json :=
  let code := trim (e_code d) in
  let type := trim (e_type d) in
  JObj ([(js "message", JStr (trim (e_message d))); (js "status_code", JNum (status_or_400 (e_statusCode d)))]
        ++ opt_member (nonempty code) "code" (JStr code) ++ opt_member (nonempty type) "type" (JStr type)
        ++ opt_member (negb (e_skipRetry d)) "skip_retry" (JBool false)).

Definition buildReturnErrorValueText (d : ReturnErrorDraft) : list N :=
  if e_simpleMode d then trim (e_message d) else json_stringify (error_payload d).

(** ** The value of [prune_objects] *)

Record PruneObjectsDraft := mkPrune { p_simpleMode : bool; p_typeText : list N; p_logic : list N; p_recursive : bool; p_rules : list Condition }.

Definition prune_defaults : PruneObjectsDraft := mkPrune true [] (js "AND") true [].

(** A rule has the fields of a condition; the source writes its normalization twice. *)
Definition normalizePruneRule (seed : nat) (rule : json) : Condition * nat :=
  let mode := text_of "mode" rule in
  (mkCond seed (text_of "path" rule) (if bool_decide (mode ∈ CONDITION_MODE_VALUES) then mode else js "full")
     (toValueText (get "value" rule)) (is_true "invert" rule) (is_true "pass_missing_key" rule), S seed).

Definition where_rule (kv : list N * json) : json := JObj [(js "path", JStr kv.1); (js "mode", JStr (js "full")); (js "value", kv.2)].

Fixpoint number_rules (seed : nat) (items : list json) : list Condition * nat :=
  match items with
  | [] => ([], seed)
  | x :: rest => let '(r, s) := normalizePruneRule seed x in let '(rs, s') := number_rules s rest in (r :: rs, s')
  end.

Definition is_composite (v : json) : bool := match v with JArr _ | JObj _ => true | _ => false end.

(** The rules of a value, before they are numbered. *)
Definition prune_items (parsed : json) : list json :=
  (match get "where" parsed with Some (JObj l) => map where_rule l | _ => [] end) ++
  (match get "conditions" parsed with
   | Some (JArr l) => filter (fun x => is_composite x = true) l
   | Some (JObj l) => map where_rule l
   | _ => []
   end).

Definition has (k : string) (v : json) : bool := bool_decide (is_Some (get k v)).

Definition parsePruneObjectsDraft (seed : nat) (valueText : list N) : PruneObjectsDraft * nat :=
  let raw := trim valueText in
  let simple text := (mkPrune true text (js "AND") true [], seed) in
  match raw with
  | [] => (prune_defaults, seed)
  | _ =>
      match json_parse raw with
      | Some (JStr s) => simple (trim s)
      | Some (JObj _ as parsed) =>
          let '(rules, s) := number_rules seed (prune_items parsed) in
          (mkPrune (negb (has "logic" parsed || has "recursive" parsed || has "where" parsed || has "conditions" parsed))
             (match get "type" parsed with Some v => trim (json_to_string v) | None => [] end)
             (if logic_is (js "OR") (js "AND") (get "logic" parsed) then js "OR" else js "AND")
             (negb (match get "recursive" parsed with Some (JBool false) => true | _ => false end)) rules, s)
      | Some JNull => simple []
      | Some v => simple (trim (json_to_string v))
      | None => simple raw
      end
  end.

Definition prune_condition (r : Condition) : json :=
  let valueRaw := trim (c_value_text r) in
  JObj ([(js "path", JStr (trim (c_path r))); (js "mode", JStr (if bool_decide (c_mode r ∈ CONDITION_MODE_VALUES) then c_mode r else js "full"))]
        ++ opt_member (nonempty valueRaw) "value" (parseLooseValue valueRaw)
        ++ opt_member (c_invert r) "invert" (JBool true) ++ opt_member (c_pass_missing_key r) "pass_missing_key" (JBool true)).

Definition prune_conditions (d : PruneObjectsDraft) : list json := map prune_condition (filter (fun r => blank (c_path r) = false) (p_rules d)).

Definition prune_payload (d : PruneObjectsDraft) : json :=
  let typeText := trim (p_typeText d) in
  let conditions := prune_conditions d in
  if negb (nonempty typeText) && bool_decide (conditions = [])
  then JObj [(js "logic", JStr (js "AND"))]
  else JObj (opt_member (nonempty typeText) "type" (JStr typeText)
             ++ opt_member (bool_decide (map upper_ascii (p_logic d) = js "OR")) "logic" (JStr (js "OR"))
             ++ opt_member (negb (p_recursive d)) "recursive" (JBool false)
             ++ opt_member (negb (bool_decide (conditions = []))) "conditions" (JArr conditions)).

Definition buildPruneObjectsValueText (d : PruneObjectsDraft) : list N :=
  if p_simpleMode d then trim (p_typeText d) else json_stringify (prune_payload d).

(** ** The value of [pass_headers] *)

Definition header_text (v : json) : list N := trim (match v with JNull => [] | _ => json_to_string v end).

Definition parsePassHeaderNames (v : json) : list (list N) :=
  let kept l := filter (fun s => nonempty s = true) l in
  match v with
  | JArr l => kept (map header_text l)
  | JObj _ =>
      match get "headers" v, get "header" v with
      | Some (JArr l), _ => kept (map header_text l)
      | _, Some h => kept [header_text h]
      | _, None => []
      end
  | JStr s => kept (map trim (split_on 44%N s))
  | _ => []
  end.

(** ** Checking *)

Definition mode_or_set (mode : list N) : list N := if nonempty mode then mode else js "set".

(** The message for one rule, without the translation of its line. *)
Definition validateOperation (op : Operation) : option string :=
  let mode := mode_or_set (o_mode op) in
  let meta := MODE_META mode in
  let alias := m_pathAlias meta && negb (blank (o_path op)) in
  let raw := trim (o_value_text op) in
  if m_path meta && blank (o_path op) then Some "Rule {{line}} is missing target path"%string
  else if mode_in FROM_REQUIRED_MODES mode && blank (o_from op) && negb alias then Some "Rule {{line}} is missing source field"%string
  else if mode_in TO_REQUIRED_MODES mode && blank (o_to op) && negb alias then Some "Rule {{line}} is missing target field"%string
  else if mode_in VALUE_REQUIRED_MODES mode && blank (o_value_text op) then Some "Rule {{line}} is missing value"%string
  else if bool_decide (mode = js "return_error") &&
          match json_parse raw with Some (JObj _ as parsed) => blank (text_or_empty (get "message" parsed)) | _ => false end
       then Some "Rule {{line}} return_error requires a message field"%string
  else if bool_decide (mode = js "pass_headers") && bool_decide (parsePassHeaderNames (parseLooseValue raw) = [])
       then Some "Rule {{line}} pass_headers format is invalid"%string
  else None.

(** The first failing rule: its line and its message. *)
Fixpoint validate_from (line : nat) (operations : list Operation) : option (nat * string) :=
  match operations with
  | [] => None
  | op :: rest => match validateOperation op with Some m => Some (line, m) | None => validate_from (S line) rest end
  end.

Definition validateOperations (operations : list Operation) : option (nat * string) := validate_from 1 operations.

(** ** The text *)

Definition buildConditionPayload (c : Condition) : option json :=
  let path := trim (c_path c) in
  match path with
  | [] => None
  | _ => Some (JObj ([(js "path", JStr path); (js "mode", JStr (if nonempty (c_mode c) then c_mode c else js "full")); (js "value", parseLooseValue (c_value_text c))]
                     ++ opt_member (c_invert c) "invert" (JBool true) ++ opt_member (c_pass_missing_key c) "pass_missing_key" (JBool true)))
  end.

Definition operation_payload (o : Operation) : json :=
  let mode := mode_or_set (o_mode o) in
  let meta := MODE_META mode in
  let description := trim (o_description o) in
  let path := trim (o_path o) in
  let from := trim (o_from o) in
  let to := trim (o_to o) in
  let alias s := if m_pathAlias meta && negb (nonempty s) then path else s in
  let conditions := omap buildConditionPayload (o_conditions o) in
  JObj ([(js "mode", JStr mode)]
        ++ opt_member (nonempty description) "description" (JStr description)
        ++ opt_member (m_path meta || m_pathOptional meta && nonempty path) "path" (JStr path)
        ++ opt_member (m_value meta) "value" (parseLooseValue (o_value_text o))
        ++ opt_member (m_keepOrigin meta && o_keep_origin o) "keep_origin" (JBool true)
        ++ opt_member (m_from meta) "from" (JStr (alias from))
        ++ opt_member (m_to meta || nonempty to) "to" (JStr (alias to))
        ++ opt_member (negb (bool_decide (conditions = []))) "conditions" (JArr conditions)
        ++ opt_member (negb (bool_decide (conditions = []))) "logic" (JStr (if bool_decide (o_logic o = js "AND") then js "AND" else js "OR"))).

Definition document (ops : list Operation) : json := JObj [(js "operations", JArr (map operation_payload ops))].

Definition filled_operations (ops : list Operation) : list Operation := filter (fun o => isOperationBlank o = false) ops.

(** The text, or the message that is thrown. *)
Definition buildOperationsJson (sourceOperations : list Operation) (validate : bool) : (nat * string) + list N :=
  match filled_operations sourceOperations with
  | [] => inr []
  | ops =>
      match (if validate then validateOperations ops else None) with
      | Some m => inl m
      | None => inr (json_pretty (document ops))
      end
  end.

(** ** The dialog *)

Inductive EditMode := visual | json_text.
Inductive VisualMode := operations_format | legacy_format.

#[export] Instance EditMode_eq_dec : EqDecision EditMode.
Proof. solve_decision. Defined.
#[export] Instance VisualMode_eq_dec : EqDecision VisualMode.
Proof. solve_decision. Defined.

(** Drag state: the row that is dragged, the row under it and the side of it. *)
Record Dialog := mkDialog {
  seed : nat;
  editMode : EditMode; visualMode : VisualMode; legacyValue : list N; operations : list Operation;
  jsonText : list N; jsonError : list N;
  selectedOperationId : option nat;
  expandedConditions : gmap nat bool;
  draggedOperationId : option nat; dragOverOperationId : option nat; dragAfter : bool;
  templatePresetKey : list N }.

Record EditorState := mkState { s_editMode : EditMode; s_visualMode : VisualMode; s_legacyValue : list N; s_operations : list Operation; s_jsonText : list N; s_jsonError : list N }.

(** The rows of a document, at least one; [None] when a row is [null]. *)
Definition document_rows (seed : nat) (items : list json) : option (list Operation * nat) :=
  match items with
  | [] => let '(o, s) := createDefaultOperation seed in Some ([o], s)
  | _ => map_seed normalizeOperation seed items
  end.

Definition parseInitialState (seed : nat) (text : list N) : option (EditorState * nat) :=
  let trimmed := trim text in
  let '(fallback, s) := createDefaultOperation seed in
  match trimmed with
  | [] => Some (mkState visual operations_format [] [fallback] [] [], s)
  | _ =>
      match json_parse trimmed with
      | None => Some (mkState json_text operations_format [] [fallback] text (js "Invalid JSON format"), s)
      | Some parsed =>
          let pretty := json_pretty parsed in
          match parsed, get "operations" parsed with
          | JObj _, Some (JArr items) =>
              match document_rows seed items with
              | None => None
              | Some (rows, s') => Some (mkState visual operations_format [] rows pretty [], s')
              end
          | JObj _, _ => Some (mkState visual legacy_format pretty [fallback] pretty [], s)
          | _, _ => Some (mkState json_text operations_format [] [fallback] pretty [], s)
          end
      end
  end.

Definition first_row (ops : list Operation) : option nat := o_id <$> head ops.

(** The effect on [open] and [value]. *)
Definition open_dialog (seed : nat) (value : list N) : option Dialog :=
  match parseInitialState seed value with
  | None => None
  | Some (st, s) =>
      Some (mkDialog s (s_editMode st) (s_visualMode st) (s_legacyValue st) (s_operations st) (s_jsonText st) (s_jsonError st)
              (first_row (s_operations st)) ∅ None None false
              (if bool_decide (s_visualMode st = legacy_format) then js "legacy_default" else js "operations_default"))
  end.

Definition with_operations (d : Dialog) (s : nat) (ops : list Operation) : Dialog :=
  mkDialog s (editMode d) (visualMode d) (legacyValue d) ops (jsonText d) (jsonError d) (selectedOperationId d) (expandedConditions d)
    (draggedOperationId d) (dragOverOperationId d) (dragAfter d) (templatePresetKey d).

Definition select (d : Dialog) (id : option nat) : Dialog :=
  mkDialog (seed d) (editMode d) (visualMode d) (legacyValue d) (operations d) (jsonText d) (jsonError d) id (expandedConditions d)
    (draggedOperationId d) (dragOverOperationId d) (dragAfter d) (templatePresetKey d).

(** The effect that keeps the selection valid. *)
Definition keep_selected (d : Dialog) : Dialog :=
  match operations d with
  | [] => select d None
  | first :: _ => if bool_decide (selectedOperationId d ∈ map (Some ∘ o_id) (operations d)) then d else select d (Some (o_id first))
  end.

(** *** Rows *)

Definition map_operation (id : nat) (f : Operation -> Operation) (ops : list Operation) : list Operation :=
  map (fun o => if bool_decide (o_id o = id) then f o else o) ops.

Inductive Patch :=
| PDescription (s : list N) | PPath (s : list N) | PMode (s : list N) | PFrom (s : list N) | PTo (s : list N)
| PValue (s : list N) | PKeepOrigin (b : bool) | PLogic (s : list N).

Definition patch_operation (p : Patch) (o : Operation) : Operation :=
  let '(mkOp id de pa mo fr to va ke lo co) := o in
  match p with
  | PDescription s => mkOp id s pa mo fr to va ke lo co
  | PPath s => mkOp id de s mo fr to va ke lo co
  | PMode s => mkOp id de pa s fr to va ke lo co
  | PFrom s => mkOp id de pa mo s to va ke lo co
  | PTo s => mkOp id de pa mo fr s va ke lo co
  | PValue s => mkOp id de pa mo fr to s ke lo co
  | PKeepOrigin b => mkOp id de pa mo fr to va b lo co
  | PLogic s => mkOp id de pa mo fr to va ke s co
  end.

Definition updateOperation (id : nat) (p : Patch) (d : Dialog) : Dialog := with_operations d (seed d) (map_operation id (patch_operation p) (operations d)).

Definition addOperation (d : Dialog) : Dialog :=
  let '(created, s) := createDefaultOperation (seed d) in select (with_operations d s (operations d ++ [created])) (Some (o_id created)).

(** A copy goes through the JSON value of the row. *)
Definition clone_condition (c : Condition) : json :=
  JObj [(js "path", JStr (c_path c)); (js "mode", JStr (c_mode c)); (js "value", parseLooseValue (c_value_text c));
        (js "invert", JBool (c_invert c)); (js "pass_missing_key", JBool (c_pass_missing_key c))].

Definition clone_operation (o : Operation) : json :=
  JObj [(js "description", JStr (o_description o)); (js "path", JStr (o_path o)); (js "mode", JStr (o_mode o));
        (js "value", parseLooseValue (o_value_text o)); (js "keep_origin", JBool (o_keep_origin o)); (js "from", JStr (o_from o));
        (js "to", JStr (o_to o)); (js "logic", JStr (o_logic o)); (js "conditions", JArr (map clone_condition (o_conditions o)))].

Definition duplicateOperation (id : nat) (d : Dialog) : Dialog :=
  match list_find (fun o => o_id o = id) (operations d) with
  | None => d
  | Some (idx, source) =>
      match normalizeOperation (seed d) (clone_operation source) with
      | None => d
      | Some (cloned, s) => select (with_operations d s (insert_at (S idx) cloned (operations d))) (Some (o_id cloned))
      end
  end.

Definition removeOperation (id : nat) (d : Dialog) : Dialog :=
  if (length (operations d) <=? 1)%nat
  then let '(o, s) := createDefaultOperation (seed d) in with_operations d s [o]
  else with_operations d (seed d) (filter (fun o => o_id o <> id) (operations d)).

(** *** Conditions *)

Definition with_conditions (f : list Condition -> list Condition) (o : Operation) : Operation :=
  let '(mkOp id de pa mo fr to va ke lo co) := o in mkOp id de pa mo fr to va ke lo (f co).

Definition expand (d : Dialog) (m : gmap nat bool) : Dialog :=
  mkDialog (seed d) (editMode d) (visualMode d) (legacyValue d) (operations d) (jsonText d) (jsonError d) (selectedOperationId d) m
    (draggedOperationId d) (dragOverOperationId d) (dragAfter d) (templatePresetKey d).

Definition addCondition (id : nat) (d : Dialog) : Dialog :=
  let '(created, s) := createDefaultCondition (seed d) in
  expand (with_operations d s (map_operation id (with_conditions (fun cs => cs ++ [created])) (operations d))) (<[c_id created := true]> (expandedConditions d)).

Inductive CondPatch := CPath (s : list N) | CMode (s : list N) | CValue (s : list N) | CInvert (b : bool) | CPassMissing (b : bool).

Definition patch_condition (p : CondPatch) (c : Condition) : Condition :=
  let '(mkCond id pa mo va iv pm) := c in
  match p with
  | CPath s => mkCond id s mo va iv pm
  | CMode s => mkCond id pa s va iv pm
  | CValue s => mkCond id pa mo s iv pm
  | CInvert b => mkCond id pa mo va b pm
  | CPassMissing b => mkCond id pa mo va iv b
  end.

Definition map_condition (cid : nat) (f : Condition -> Condition) (cs : list Condition) : list Condition :=
  map (fun c => if bool_decide (c_id c = cid) then f c else c) cs.

Definition updateCondition (id cid : nat) (p : CondPatch) (d : Dialog) : Dialog :=
  with_operations d (seed d) (map_operation id (with_conditions (map_condition cid (patch_condition p))) (operations d)).

Definition removeCondition (id cid : nat) (d : Dialog) : Dialog :=
  with_operations d (seed d) (map_operation id (with_conditions (filter (fun c => c_id c <> cid))) (operations d)).

(** *** Drafts of values *)

Definition with_value (s : list N) (o : Operation) : Operation := patch_operation (PValue s) o.

Definition updateReturnErrorDraft (id : nat) (f : ReturnErrorDraft -> ReturnErrorDraft) (d : Dialog) : Dialog :=
  with_operations d (seed d) (map_operation id (fun o => with_value (buildReturnErrorValueText (f (parseReturnErrorDraft (o_value_text o)))) o) (operations d)).

(** The rows are read again, with new identifiers, before they are changed. *)
Fixpoint prune_rows (id : nat) (f : nat -> PruneObjectsDraft -> PruneObjectsDraft * nat) (s : nat) (ops : list Operation) : list Operation * nat :=
  match ops with
  | [] => ([], s)
  | o :: rest =>
      let '(o', s1) := if bool_decide (o_id o = id)
                       then let '(draft, s0) := parsePruneObjectsDraft s (o_value_text o) in
                            let '(next, s1) := f s0 draft in (with_value (buildPruneObjectsValueText next) o, s1)
                       else (o, s) in
      let '(rest', s2) := prune_rows id f s1 rest in (o' :: rest', s2)
  end.

Definition updatePruneObjectsDraft (id : nat) (f : nat -> PruneObjectsDraft -> PruneObjectsDraft * nat) (d : Dialog) : Dialog :=
  let '(ops, s) := prune_rows id f (seed d) (operations d) in with_operations d s ops.

Definition with_rules (p : PruneObjectsDraft) (simple : bool) (rules : list Condition) : PruneObjectsDraft :=
  mkPrune simple (p_typeText p) (p_logic p) (p_recursive p) rules.

Definition add_rule (s : nat) (p : PruneObjectsDraft) : PruneObjectsDraft * nat :=
  let '(r, s') := normalizePruneRule s (JObj []) in (with_rules p false (p_rules p ++ [r]), s').

Definition addPruneRule (id : nat) (d : Dialog) : Dialog := updatePruneObjectsDraft id add_rule d.

Definition update_rule (ruleId : nat) (patch : CondPatch) (s : nat) (p : PruneObjectsDraft) : PruneObjectsDraft * nat :=
  (with_rules p (p_simpleMode p) (map_condition ruleId (patch_condition patch) (p_rules p)), s).

Definition updatePruneRule (id ruleId : nat) (patch : CondPatch) (d : Dialog) : Dialog := updatePruneObjectsDraft id (update_rule ruleId patch) d.

Definition remove_rule (ruleId : nat) (s : nat) (p : PruneObjectsDraft) : PruneObjectsDraft * nat :=
  (with_rules p (p_simpleMode p) (filter (fun r => c_id r <> ruleId) (p_rules p)), s).

Definition removePruneRule (id ruleId : nat) (d : Dialog) : Dialog := updatePruneObjectsDraft id (remove_rule ruleId) d.

(** *** Drag and drop *)

Definition with_drag (d : Dialog) (dragged over : option nat) (after : bool) : Dialog :=
  mkDialog (seed d) (editMode d) (visualMode d) (legacyValue d) (operations d) (jsonText d) (jsonError d) (selectedOperationId d) (expandedConditions d)
    dragged over after (templatePresetKey d).

Definition resetDragState (d : Dialog) : Dialog := with_drag d None None false.

Definition handleDragStart (id : nat) (d : Dialog) : Dialog := with_drag (select d (Some id)) (Some id) (dragOverOperationId d) (dragAfter d).

(** [after]: the pointer is in the lower half of the row. *)
Definition handleDragOver (id : nat) (after : bool) (d : Dialog) : Dialog :=
  match draggedOperationId d with
  | Some src => if bool_decide (src = id) then d else with_drag d (draggedOperationId d) (Some id) after
  | None => d
  end.

(** [transferred]: the identifier in the data of the event. *)
Definition handleDrop (id : nat) (transferred : option nat) (d : Dialog) : Dialog :=
  let sourceId := match draggedOperationId d with Some s => Some s | None => transferred end in
  let after := bool_decide (dragOverOperationId d = Some id) && dragAfter d in
  resetDragState
    match sourceId with
    | Some src => if bool_decide (src = id) then d
                  else select (with_operations d (seed d) (reorderOperations (operations d) src id after)) (Some src)
    | None => d
    end.

(** *** Formats *)

(** A thrown message: of a rule, or a fixed text. *)
Inductive ThrownMessage := RuleFailure (line : nat) (message : string) | FormatFailure (message : string).

Definition buildVisualJson (d : Dialog) : ThrownMessage + list N :=
  match visualMode d with
  | legacy_format =>
      let trimmed := trim (legacyValue d) in
      match trimmed with
      | [] => inr []
      | _ => match json_parse trimmed with
             | None => inl (FormatFailure "Parameter override must be valid JSON format")
             | Some (JObj _ as parsed) => inr (json_pretty parsed)
             | Some _ => inl (FormatFailure "Legacy format must be a JSON object")
             end
      end
  | operations_format =>
      match buildOperationsJson (operations d) true with inl (line, m) => inl (RuleFailure line m) | inr text => inr text end
  end.

(** The text of a failure, [t] being the translation with its line. *)
Section Formats.
Context (t : ThrownMessage -> list N).

Definition set_text (d : Dialog) (mode : EditMode) (text error : list N) : Dialog :=
  mkDialog (seed d) mode (visualMode d) (legacyValue d) (operations d) text error (selectedOperationId d) (expandedConditions d)
    (draggedOperationId d) (dragOverOperationId d) (dragAfter d) (templatePresetKey d).

Definition switchToJsonMode (d : Dialog) : Dialog :=
  if bool_decide (editMode d = json_text) then d
  else
    match buildVisualJson d with
    | inr text => set_text d json_text text []
    | inl failure =>
        let text := match visualMode d with
                    | legacy_format => legacyValue d
                    | operations_format => match buildOperationsJson (operations d) false with inr text => text | inl _ => [] end
                    end in
        set_text d json_text text (t failure)
    end.

Definition set_visual (d : Dialog) (s : nat) (mode : VisualMode) (legacy : list N) (ops : list Operation) (text preset : list N) : Dialog :=
  mkDialog s visual mode legacy ops text [] (first_row ops) (expandedConditions d)
    (draggedOperationId d) (dragOverOperationId d) (dragAfter d) preset.

(** [None] is the [TypeError] of a row that is [null]. *)
Definition switchToVisualMode (d : Dialog) : option Dialog :=
  if bool_decide (editMode d = visual) then Some d
  else
    let trimmed := trim (jsonText d) in
    let '(fallback, s) := createDefaultOperation (seed d) in
    match trimmed with
    | [] => Some (set_visual d s operations_format [] [fallback] (jsonText d) (templatePresetKey d))
    | _ =>
        match json_parse trimmed with
        | None => Some d
        | Some parsed =>
            match parsed, get "operations" parsed with
            | JObj _, Some (JArr items) =>
                match document_rows (seed d) items with
                | None => None
                | Some (rows, s') => Some (set_visual d s' operations_format [] rows (jsonText d) (js "operations_default"))
                end
            | JObj _, _ => Some (set_visual d s legacy_format (json_pretty parsed) [fallback] (jsonText d) (js "legacy_default"))
            | _, _ => Some d
            end
        end
    end.

Definition resetEditorState (d : Dialog) : Dialog :=
  let '(fallback, s) := createDefaultOperation (seed d) in
  set_visual d s operations_format [] [fallback] [] (js "operations_default").

Definition handleJsonChange (nextValue : list N) (d : Dialog) : Dialog :=
  let trimmed := trim nextValue in
  set_text d (editMode d) nextValue
    (if negb (nonempty trimmed) || verifyJSON trimmed then [] else t (FormatFailure "JSON format error")).

(** What is saved, or the message shown. *)
Definition handleSave (d : Dialog) : ThrownMessage + list N :=
  match editMode d with
  | json_text =>
      let trimmed := trim (jsonText d) in
      match trimmed with
      | [] => inr []
      | _ => match json_parse trimmed with
             | None => inl (FormatFailure "Parameter override must be valid JSON format")
             | Some v => inr (json_pretty v)
             end
      end
  | visual => buildVisualJson d
  end.

End Formats.

(** *** Templates *)

Definition text_member (k v : string) : list N * json := (js k, JStr (js v)).

Definition template_condition (path mode value : string) : json := JObj [text_member "path" path; text_member "mode" mode; text_member "value" value].

Definition LEGACY_TEMPLATE : list (list N * json) := [(js "temperature", JNum (num_of_Z 0)); (js "max_tokens", JNum (num_of_Z 1000))].

Definition OPERATION_TEMPLATE : list json :=
  [JObj [text_member "description" "Set default temperature for openai/* models."; text_member "path" "temperature"; text_member "mode" "set";
         (js "value", JNum (num_of_decimal 7 (-1))); (js "conditions", JArr [template_condition "model" "prefix" "openai/"]); text_member "logic" "AND"]].

Definition HEADER_PASSTHROUGH_TEMPLATE : list json :=
  [JObj [text_member "description" "Pass through X-Request-Id header to upstream."; text_member "mode" "pass_headers";
         (js "value", JArr [JStr (js "X-Request-Id")]); (js "keep_origin", JBool true)]].

Definition GEMINI_IMAGE_4K_TEMPLATE : list json :=
  [JObj [text_member "description" "Set imageSize to 4K when model contains gemini/image and ends with 4k."; text_member "mode" "set";
         text_member "path" "generationConfig.imageConfig.imageSize"; text_member "value" "4K";
         (js "conditions", JArr [template_condition "original_model" "contains" "gemini"; template_condition "original_model" "contains" "image";
                                 template_condition "original_model" "suffix" "4k"]);
         text_member "logic" "AND"]].

Definition CODEX_CLI_HEADER_PASSTHROUGH_HEADERS : list string :=
  ["Originator"; "Session_id"; "Thread_id"; "Session-Id"; "Thread-Id"; "X-Client-Request-Id"; "User-Agent"; "X-Codex-Beta-Features";
   "X-Codex-Turn-State"; "X-Codex-Turn-Metadata"; "X-Codex-Window-Id"; "X-Codex-Parent-Thread-Id"; "X-OpenAI-Subagent";
   "X-OpenAI-Memgen-Request"; "X-ResponsesAPI-Include-Timing-Metrics"; "X-OpenAI-Internal-Codex-Responses-Lite"]%string.

Definition CLAUDE_CLI_HEADER_PASSTHROUGH_HEADERS : list string :=
  ["X-Stainless-Arch"; "X-Stainless-Lang"; "X-Stainless-Os"; "X-Stainless-Package-Version"; "X-Stainless-Retry-Count"; "X-Stainless-Runtime";
   "X-Stainless-Runtime-Version"; "X-Stainless-Timeout"; "User-Agent"; "X-App"; "Anthropic-Beta";
   "Anthropic-Dangerous-Direct-Browser-Access"; "Anthropic-Version"]%string.

Definition buildPassHeadersTemplate (headers : list string) : list json :=
  [JObj [text_member "mode" "pass_headers"; (js "value", JArr (map (fun h => JStr (js h)) headers)); (js "keep_origin", JBool true)]].

Definition BEDROCK_TOKENS : list (string * option string) :=
  [("advanced-tool-use-2025-11-20", Some "tool-search-tool-2025-10-19"); ("bash_20241022", None); ("bash_20250124", None);
   ("code-execution-2025-08-25", None); ("compact-2026-01-12", Some "compact-2026-01-12"); ("computer-use-2025-01-24", Some "computer-use-2025-01-24");
   ("computer-use-2025-11-24", Some "computer-use-2025-11-24"); ("context-1m-2025-08-07", Some "context-1m-2025-08-07");
   ("context-management-2025-06-27", Some "context-management-2025-06-27"); ("effort-2025-11-24", None); ("fast-mode-2026-02-01", None);
   ("files-api-2025-04-14", None); ("fine-grained-tool-streaming-2025-05-14", None);
   ("interleaved-thinking-2025-05-14", Some "interleaved-thinking-2025-05-14"); ("mcp-client-2025-11-20", None); ("mcp-client-2025-04-04", None);
   ("mcp-servers-2025-12-04", None); ("output-128k-2025-02-19", None); ("structured-output-2024-03-01", None);
   ("prompt-caching-scope-2026-01-05", None); ("skills-2025-10-02", None); ("structured-outputs-2025-11-13", None); ("text_editor_20241022", None);
   ("text_editor_20250124", None); ("token-efficient-tools-2025-02-19", None); ("tool-search-tool-2025-10-19", Some "tool-search-tool-2025-10-19");
   ("web-fetch-2025-09-10", None); ("web-search-2025-03-05", None); ("oauth-2025-04-20", None)]%string.

Definition AWS_BEDROCK_ANTHROPIC_COMPAT_TEMPLATE : list json :=
  [JObj [text_member "description" "Normalize anthropic-beta header tokens for Bedrock compatibility."; text_member "mode" "set_header";
         text_member "path" "anthropic-beta";
         (js "value", JObj (map (fun kv => (js kv.1, match kv.2 with Some v => JStr (js v) | None => JNull end)) BEDROCK_TOKENS))];
   JObj [text_member "description" "Remove all tools[*].custom.input_examples before upstream relay."; text_member "mode" "delete";
         text_member "path" "tools.*.custom.input_examples"]].

(** The operations of a preset; [None] is the legacy one, an unknown key is the default. *)
Definition TEMPLATE_PRESET_CONFIG (key : list N) : option (list json) :=
  if bool_decide (key = js "legacy_default") then None
  else if bool_decide (key = js "pass_headers_auth") then Some HEADER_PASSTHROUGH_TEMPLATE
  else if bool_decide (key = js "gemini_image_4k") then Some GEMINI_IMAGE_4K_TEMPLATE
  else if bool_decide (key = js "claude_cli_headers_passthrough") then Some (buildPassHeadersTemplate CLAUDE_CLI_HEADER_PASSTHROUGH_HEADERS)
  else if bool_decide (key = js "codex_cli_headers_passthrough") then Some (buildPassHeadersTemplate CODEX_CLI_HEADER_PASSTHROUGH_HEADERS)
  else if bool_decide (key = js "aws_bedrock_anthropic_beta_override") then Some AWS_BEDROCK_ANTHROPIC_COMPAT_TEMPLATE
  else Some OPERATION_TEMPLATE.

(** The entries of a value that is spread: arrays and strings have their indices as keys. *)
Definition index_entries (items : list json) : list (list N * json) := imap (fun i x => (num_to_string (num_of_Z (Z.of_nat i)), x)) items.

(** [{ ...a, ...b }]; indices come before the other keys. *)
Definition spread_over (a : list (list N * json)) (b : json) : json :=
  match b with
  | JObj l => JObj (fold_left (fun l kv => set_member kv.1 kv.2 l) l a)
  | JArr items => JObj (index_entries items ++ a)
  | JStr s => JObj (index_entries (map (fun c => JStr [c]) s) ++ a)
  | _ => JObj a
  end.

Definition fillTemplate (append : bool) (d : Dialog) : option Dialog :=
  match TEMPLATE_PRESET_CONFIG (templatePresetKey d) with
  | None =>
      let '(fallback, s) := createDefaultOperation (seed d) in
      let legacy text := Some (mkDialog s visual legacy_format text [fallback] text [] (selectedOperationId d) (expandedConditions d)
                                 (draggedOperationId d) (dragOverOperationId d) (dragAfter d) (templatePresetKey d)) in
      if append && bool_decide (visualMode d = legacy_format)
      then let trimmed := trim (legacyValue d) in
           match trimmed with
           | [] => legacy (json_pretty (JObj LEGACY_TEMPLATE))
           | _ => match json_parse trimmed with
                  | None => Some d
                  | Some current => legacy (json_pretty (spread_over LEGACY_TEMPLATE current))
                  end
           end
      else legacy (json_pretty (JObj LEGACY_TEMPLATE))
  | Some payload =>
      match map_seed normalizeOperation (seed d) payload with
      | None => None
      | Some (rows, s) =>
          if append
          then let existing := if bool_decide (visualMode d = operations_format) then filled_operations (operations d) else [] in
               Some (set_visual d s operations_format [] (existing ++ rows) [] (templatePresetKey d))
          else Some (set_visual d s operations_format (legacyValue d) rows (json_pretty (JObj [(js "operations", JArr payload)])) (templatePresetKey d))
      end
  end.

(** *** What the list shows *)

Definition operationCount (d : Dialog) : nat := length (filled_operations (operations d)).

(** [toLowerCase] is that of the platform. *)
Definition filteredOperations (toLowerCase : list N -> list N) (search : list N) (ops : list Operation) : list Operation :=
  let keyword := toLowerCase (trim search) in
  if negb (nonempty keyword) then ops
  else filter (fun o => includes keyword (toLowerCase (JsString.join [32%N]
                (filter (fun s => nonempty s = true) [o_description o; o_mode o; o_path o; o_from o; o_to o; o_value_text o]))) = true) ops.

Definition selectedOperation (d : Dialog) : option Operation :=
  selectedOperationId d ≫= fun id => snd <$> list_find (fun o => o_id o = id) (operations d).

(** The editor of a value reads it again, with new identifiers. *)
Definition returnErrorDraft (d : Dialog) : option ReturnErrorDraft :=
  selectedOperation d ≫= fun o => if bool_decide (o_mode o = js "return_error") then Some (parseReturnErrorDraft (o_value_text o)) else None.

Definition pruneObjectsDraft (d : Dialog) : option (PruneObjectsDraft * nat) :=
  selectedOperation d ≫= fun o => if bool_decide (o_mode o = js "prune_objects") then Some (parsePruneObjectsDraft (seed d) (o_value_text o)) else None.

(** Rendering draws identifiers for the rules it shows. *)
Definition render (d : Dialog) : Dialog := match pruneObjectsDraft d with Some (_, s) => with_operations d s (operations d) | None => d end.

Definition set_expanded (b : bool) (d : Dialog) : Dialog :=
  match selectedOperation d with
  | Some o => expand d (foldr (fun c m => <[c_id c := b]> m) (expandedConditions d) (o_conditions o))
  | None => d
  end.
Definition expandAllConditions : Dialog -> Dialog := set_expanded true.
Definition collapseAllConditions : Dialog -> Dialog := set_expanded false.

(** ** Events *)

Inductive DialogEvent :=
| UpdateOperation (id : nat) (p : Patch)
| AddOperation
| DuplicateOperation (id : nat)
| RemoveOperation (id : nat)
| AddCondition (id : nat)
| UpdateCondition (id cid : nat) (p : CondPatch)
| RemoveCondition (id cid : nat)
| UpdateErrorDraft (id : nat) (f : ReturnErrorDraft -> ReturnErrorDraft)
| UpdatePruneDraft (id : nat) (f : PruneObjectsDraft -> PruneObjectsDraft)
| AddPruneRule (id : nat)
| UpdatePruneRule (id ruleId : nat) (p : CondPatch)
| RemovePruneRule (id ruleId : nat)
| DragStart (id : nat) | DragOver (id : nat) (after : bool) | Drop (id : nat) (transferred : option nat) | DragEnd
| SelectOperation (id : nat)
| ToJson | ToVisual | JsonChange (text : list N) | LegacyChange (text : list N)
| ChoosePreset (key : list N) | FillTemplate (append : bool) | ResetEditor
| ExpandAll | CollapseAll
| SelectionEffect | Rendered.

Definition set_legacy (d : Dialog) (text : list N) : Dialog :=
  mkDialog (seed d) (editMode d) (visualMode d) text (operations d) (jsonText d) (jsonError d) (selectedOperationId d) (expandedConditions d)
    (draggedOperationId d) (dragOverOperationId d) (dragAfter d) (templatePresetKey d).
Definition set_preset (d : Dialog) (key : list N) : Dialog :=
  mkDialog (seed d) (editMode d) (visualMode d) (legacyValue d) (operations d) (jsonText d) (jsonError d) (selectedOperationId d) (expandedConditions d)
    (draggedOperationId d) (dragOverOperationId d) (dragAfter d) key.

Section Steps.
Context (t : ThrownMessage -> list N).

Definition dialog_step (d : Dialog) (e : DialogEvent) : option Dialog :=
  match e with
  | UpdateOperation id p => Some (updateOperation id p d)
  | AddOperation => Some (addOperation d)
  | DuplicateOperation id => Some (duplicateOperation id d)
  | RemoveOperation id => Some (removeOperation id d)
  | AddCondition id => Some (addCondition id d)
  | UpdateCondition id cid p => Some (updateCondition id cid p d)
  | RemoveCondition id cid => Some (removeCondition id cid d)
  | UpdateErrorDraft id f => Some (updateReturnErrorDraft id f d)
  | UpdatePruneDraft id f => Some (updatePruneObjectsDraft id (fun s p => (f p, s)) d)
  | AddPruneRule id => Some (addPruneRule id d)
  | UpdatePruneRule id r p => Some (updatePruneRule id r p d)
  | RemovePruneRule id r => Some (removePruneRule id r d)
  | DragStart id => Some (handleDragStart id d)
  | DragOver id a => Some (handleDragOver id a d)
  | Drop id tr => Some (handleDrop id tr d)
  | DragEnd => Some (resetDragState d)
  | SelectOperation id => Some (select d (Some id))
  | ToJson => Some (switchToJsonMode t d)
  | ToVisual => switchToVisualMode d
  | JsonChange text => Some (handleJsonChange t text d)
  | LegacyChange text => Some (set_legacy d text)
  | ChoosePreset key => Some (set_preset d key)
  | FillTemplate a => fillTemplate a d
  | ResetEditor => Some (resetEditorState d)
  | ExpandAll => Some (expandAllConditions d)
  | CollapseAll => Some (collapseAllConditions d)
  | SelectionEffect => Some (keep_selected d)
  | Rendered => Some (render d)
  end.

Fixpoint dialog_run (es : list DialogEvent) (d : Dialog) : option Dialog :=
  match es with [] => Some d | e :: es => dialog_step d e ≫= dialog_run es end.

End Steps.
