(* ===== verification/ParamOverrideRows.v ===== *)
(** * Rows of the override editor

    The identifiers of the rows are distinct under every sequence of handlers, so that an
    update reaches one row; moving a row keeps the others in order; and the rules of a
    [prune_objects] value, which are given new identifiers each time they are read, cannot
    be changed by the handlers meant for them. *)
From S2P Require Import Prelude JsString JsNumber JsJson JsJsonPrint JsJsonPretty AuthSession ChannelForm ParamOverride.
From stdpp Require Import gmap.
From Stdlib Require Import Lia.

(** ** Identifiers *)

Definition ids_ok (s : nat) (ops : list Operation) : Prop := NoDup (o_id <$> ops) /\ Forall (fun o => o_id o < s) ops /\ ops <> [].

Definition rows_ok (d : Dialog) : Prop := ids_ok (seed d) (operations d).

Lemma ids_ok_mono s s' ops : s <= s' -> ids_ok s ops -> ids_ok s' ops.
Proof. intros Hs (H1 & H2 & H3). split; [done|]. split; [|done]. eapply Forall_impl; [done|]. simpl. lia. Qed.

Lemma ids_ok_same s ops ops' : o_id <$> ops' = o_id <$> ops -> ids_ok s ops -> ids_ok s ops'.
Proof.
  intros E (H1 & H2 & H3). unfold ids_ok. rewrite E. split; [done|]. split.
  - apply (Forall_fmap o_id (fun i => i < s)). rewrite E. by apply Forall_fmap.
  - intros ->. by destruct ops.
Qed.

Lemma ids_ok_perm s ops ops' : ops' ≡ₚ ops -> ids_ok s ops -> ids_ok s ops'.
Proof.
  intros E (H1 & H2 & H3). split; [by rewrite E|]. split; [by rewrite E|]. intros ->. apply Permutation_nil_l in E. by subst.
Qed.

Lemma ids_ok_add s ops o s' : ids_ok s ops -> s <= o_id o -> o_id o < s' -> ids_ok s' (o :: ops).
Proof.
  intros (H1 & H2 & H3) Ho Hs. unfold ids_ok. rewrite fmap_cons. split; [|split; [|done]].
  - constructor; [|done]. intros (x & Hx & Hin)%list_elem_of_fmap. rewrite Forall_forall in H2. pose proof (H2 x Hin). simpl in *. lia.
  - constructor; [done|]. eapply Forall_impl; [done|]. simpl. lia.
Qed.

Lemma ids_ok_default s : ids_ok (S s) [(createDefaultOperation s).1].
Proof. split; [apply NoDup_singleton|]. split; [|done]. constructor; [simpl; lia|constructor]. Qed.

Lemma map_operation_ids id f ops : (forall o, o_id (f o) = o_id o) -> o_id <$> map_operation id f ops = o_id <$> ops.
Proof.
  intros Hf. unfold map_operation. change (map ?g ops) with (g <$> ops). rewrite <- list_fmap_compose. apply list_fmap_ext. intros i o _. cbn [compose]. case_bool_decide; [apply Hf|done].
Qed.

Lemma patch_id p o : o_id (patch_operation p o) = o_id o.
Proof. by destruct o, p. Qed.

Lemma conditions_id f o : o_id (with_conditions f o) = o_id o.
Proof. by destruct o. Qed.

Lemma filter_ids (P : Operation -> Prop) {HP : forall o, Decision (P o)} s ops :
  NoDup (o_id <$> ops) -> Forall (fun o => o_id o < s) ops -> NoDup (o_id <$> filter P ops) /\ Forall (fun o => o_id o < s) (filter P ops).
Proof.
  intros H1 H2. split.
  - induction ops as [|o ops IH]; [constructor|]. rewrite fmap_cons in H1. apply NoDup_cons in H1 as [Ho H1]. apply Forall_cons in H2 as [_ H2].
    rewrite filter_cons. case_decide; [|by apply IH]. rewrite fmap_cons. constructor; [|by apply IH].
    intros (x & Ex & Hx)%list_elem_of_fmap. apply list_elem_of_filter in Hx as [_ Hx]. apply Ho. rewrite Ex. by apply list_elem_of_fmap_2.
  - apply Forall_forall. intros x [_ Hx]%list_elem_of_filter. rewrite Forall_forall in H2. by apply H2.
Qed.

(** ** Numbering *)

Lemma normalize_id s v o s' : normalizeOperation s v = Some (o, s') -> o_id o = s /\ s < s'.
Proof.
  assert (forall n l cs n', map_seed normalizeCondition n l = Some (cs, n') -> n <= n') as Hmono.
  { intros n l. revert n. induction l as [|x l IH]; intros n cs n'; cbn [map_seed]; [intros [= <- <-]; lia|].
    destruct (normalizeCondition n x) as [[c m]|] eqn:E; [|done]. destruct (map_seed _ m l) as [[cs' m']|] eqn:E'; [|done]. intros [= <- <-].
    apply IH in E'. assert (m = S n) by (by destruct x; simplify_eq/=). lia. }
  unfold normalizeOperation. destruct v; try done; destruct (map_seed _ _ _) as [[cs m]|] eqn:E; try done; intros [= <- <-]; (split; [done|]); apply Hmono in E; lia.
Qed.

Lemma rows_numbered s items rows s' :
  map_seed normalizeOperation s items = Some (rows, s') ->
  s <= s' /\ NoDup (o_id <$> rows) /\ Forall (fun o => s <= o_id o < s') rows /\ length rows = length items.
Proof.
  revert s rows. induction items as [|x items IH]; intros s rows; cbn [map_seed]; [intros [= <- <-]; repeat split; [lia|constructor|constructor]|].
  destruct (normalizeOperation s x) as [[o m]|] eqn:E; [|done]. destruct (map_seed _ m items) as [[os m']|] eqn:E'; [|done]. intros [= <- <-].
  apply normalize_id in E as [Ho Hm]. destruct (IH _ _ E') as (H1 & H2 & H3 & H4). split; [lia|]. rewrite fmap_cons. split; [|split; [|by simpl; f_equal]].
  - constructor; [|done]. intros (y & Hy & Hin)%list_elem_of_fmap. rewrite Forall_forall in H3. pose proof (H3 y Hin). simpl in *. lia.
  - constructor; [lia|]. eapply Forall_impl; [done|]. simpl. lia.
Qed.

Lemma document_rows_ok s items rows s' : document_rows s items = Some (rows, s') -> s <= s' /\ ids_ok s' rows.
Proof.
  unfold document_rows. destruct items as [|x items]; [intros [= <- <-]; split; [lia|apply ids_ok_default]|].
  intros H. destruct (rows_numbered _ _ _ _ H) as (H1 & H2 & H3 & H4). split; [done|]. split; [done|].
  split; [eapply Forall_impl; [done|]; simpl; lia|]. by intros ->.
Qed.

(** ** Places *)

Lemma insert_at_perm {A} i (x : A) l : insert_at i x l ≡ₚ x :: l.
Proof. unfold insert_at. rewrite <- Permutation_middle. by rewrite take_drop. Qed.

Lemma find_delete_perm (P : Operation -> Prop) {HP : forall o, Decision (P o)} ops i o : list_find P ops = Some (i, o) -> o :: delete i ops ≡ₚ ops.
Proof. intros (Hi & _ & _)%list_find_Some. symmetry. by apply delete_Permutation. Qed.

Lemma reorder_perm ops src dst after : reorderOperations ops src dst after ≡ₚ ops.
Proof.
  unfold reorderOperations. case_bool_decide; [done|]. destruct (list_find _ ops) as [[i o]|] eqn:E; [|done]. cbv zeta.
  destruct (index_of dst _); [|done]. rewrite insert_at_perm. by apply find_delete_perm in E.
Qed.

Lemma prune_rows_ids id f s ops ops' s' :
  (forall n p q n', f n p = (q, n') -> n <= n') -> prune_rows id f s ops = (ops', s') -> o_id <$> ops' = o_id <$> ops /\ s <= s'.
Proof.
  intros Hf. revert s ops' s'. induction ops as [|o ops IH]; intros s ops' s'; cbn [prune_rows]; [intros [= <- <-]; split; [done|lia]|].
  assert (forall n items rs n', number_rules n items = (rs, n') -> n <= n') as Hn.
  { intros n items. revert n. induction items as [|x l IHl]; intros n rs n'; cbn [number_rules]; [intros [= <- <-]; lia|].
    destruct (normalizePruneRule n x) as [r m] eqn:E. destruct (number_rules m l) as [rs' m'] eqn:E'. intros [= <- <-]. apply IHl in E'. injection E as _ <-. lia. }
  assert (forall n text p n', parsePruneObjectsDraft n text = (p, n') -> n <= n') as Hp.
  { intros n text p n'. unfold parsePruneObjectsDraft. cbv zeta. destruct (trim text); [by intros [= <- <-]|].
    destruct (json_parse _) as [[]|]; try (intros [= <- <-]; lia). destruct (number_rules _ _) as [rs m] eqn:E. intros [= <- <-]. by apply Hn in E. }
  case_bool_decide.
  - destruct (parsePruneObjectsDraft s _) as [draft s0] eqn:E0. destruct (f s0 draft) as [next s1] eqn:E1. destruct (prune_rows id f s1 ops) as [rest s2] eqn:E2.
    intros [= <- <-]. apply IH in E2 as [E2 Hs2]. rewrite !fmap_cons, E2. apply Hp in E0. apply Hf in E1. split; [|lia]. f_equal. apply patch_id.
  - destruct (prune_rows id f s ops) as [rest s2] eqn:E2. intros [= <- <-]. apply IH in E2 as [E2 Hs2]. by rewrite !fmap_cons, E2.
Qed.

Lemma prune_draft_ok id f d : (forall n p q n', f n p = (q, n') -> n <= n') -> rows_ok d -> rows_ok (updatePruneObjectsDraft id f d).
Proof.
  intros Hf Hd. unfold updatePruneObjectsDraft. destruct (prune_rows id f (seed d) (operations d)) as [ops s] eqn:E.
  apply prune_rows_ids in E as [E Hs]; [|done]. unfold rows_ok. cbn [with_operations seed operations].
  eapply ids_ok_same; [done|]. by eapply ids_ok_mono.
Qed.

(** ** Every handler *)

Lemma with_same d ops : o_id <$> ops = o_id <$> operations d -> rows_ok d -> rows_ok (with_operations d (seed d) ops).
Proof. intros E Hd. by eapply ids_ok_same. Qed.

Lemma map_operation_ok id f d : (forall o, o_id (f o) = o_id o) -> rows_ok d -> rows_ok (with_operations d (seed d) (map_operation id f (operations d))).
Proof. intros Hf. by apply with_same, map_operation_ids. Qed.

Lemma added_ok d s ops o : rows_ok d -> ops ≡ₚ o :: operations d -> o_id o = seed d -> seed d < s -> rows_ok (with_operations d s ops).
Proof. intros Hd Hp Ho Hs. unfold rows_ok. cbn [with_operations seed operations]. eapply ids_ok_perm; [done|]. eapply ids_ok_add; [done|lia|lia]. Qed.

Lemma duplicate_ok id d : rows_ok d -> rows_ok (duplicateOperation id d).
Proof.
  intros Hd. unfold duplicateOperation. destruct (list_find _ _) as [[i src]|]; [|done].
  destruct (normalizeOperation _ _) as [[o s]|] eqn:E; [|done]. apply normalize_id in E as [Ho Hs].
  eapply (added_ok d s _ o); [done|apply insert_at_perm|done|done].
Qed.

Lemma remove_ok id d : rows_ok d -> rows_ok (removeOperation id d).
Proof.
  intros (H1 & H2 & H3). unfold removeOperation. destruct (length (operations d) <=? 1)%nat eqn:E; [apply ids_ok_default|]. apply Nat.leb_gt in E.
  destruct (filter_ids (fun o => o_id o <> id) (seed d) _ H1 H2) as [F1 F2]. split; [exact F1|]. split; [exact F2|]. cbn [with_operations operations].
  destruct (operations d) as [|a [|b rest]]; [done|simpl in E; lia|]. intros E0.
    assert (b ∈ filter (fun o => o_id o <> id) (a :: b :: rest) \/ a ∈ filter (fun o => o_id o <> id) (a :: b :: rest)) as Hin.
    { destruct (decide (o_id b = id)) as [Hb|Hb]; [right|left]; apply list_elem_of_filter; (split; [|set_solver]); [|done].
      rewrite !fmap_cons in H1. apply NoDup_cons in H1 as [H1 _]. intros Ha. apply H1. rewrite Ha, <- Hb. set_solver. }
    rewrite E0 in Hin. by destruct Hin as [?%not_elem_of_nil|?%not_elem_of_nil].
Qed.

Lemma template_rows key payload s : TEMPLATE_PRESET_CONFIG key = Some payload -> exists rows s', map_seed normalizeOperation s payload = Some (rows, s') /\ rows <> [].
Proof. unfold TEMPLATE_PRESET_CONFIG. repeat case_bool_decide; intros [= <-]; (eexists _, _; split; [reflexivity|discriminate]). Qed.

Lemma fill_ok a d d' : fillTemplate a d = Some d' -> rows_ok d -> rows_ok d'.
Proof.
  intros Hf Hd. unfold fillTemplate in Hf. destruct (TEMPLATE_PRESET_CONFIG _) as [payload|] eqn:Et.
  - destruct (template_rows _ _ (seed d) Et) as (rows & s & E & Hne). rewrite E in Hf. destruct (rows_numbered _ _ _ _ E) as (H1 & H2 & H3 & _).
    assert (ids_ok s rows) as Hrows. { split; [done|]. split; [eapply Forall_impl; [done|]; simpl; lia|done]. }
    destruct a; injection Hf as <-; [|exact Hrows]. unfold rows_ok, set_visual. cbn [seed operations]. destruct Hd as (D1 & D2 & D3).
    case_bool_decide; [|exact Hrows]. split; [|split].
    + rewrite fmap_app. apply NoDup_app. split; [by destruct (filter_ids (fun o => isOperationBlank o = false) _ _ D1 D2)|]. split; [|done].
      intros x (o & -> & Ho)%list_elem_of_fmap (o' & E' & Ho')%list_elem_of_fmap. apply list_elem_of_filter in Ho as [_ Ho].
      rewrite Forall_forall in D2, H3. pose proof (D2 _ Ho). pose proof (H3 _ Ho'). simpl in *. lia.
    + apply Forall_app. split; [|by destruct Hrows as (_ & ? & _)]. destruct (filter_ids (fun o => isOperationBlank o = false) _ _ D1 D2) as [_ F]. eapply Forall_impl; [exact F|]. simpl. lia.
    + intros [_ ?]%app_eq_nil. done.
  - assert (rows_ok d') as Hd'; [|done]. cbv beta iota zeta delta [createDefaultOperation] in Hf.
    destruct (a && _); [destruct (trim (legacyValue d)); [|destruct (json_parse _)]|]; injection Hf as <-; try done; apply ids_ok_default.
Qed.

Lemma visual_ok d d' : switchToVisualMode d = Some d' -> rows_ok d -> rows_ok d'.
Proof.
  intros Hf Hd. unfold switchToVisualMode in Hf. case_bool_decide; [by injection Hf as <-|]. cbv beta iota zeta delta [createDefaultOperation] in Hf.
  destruct (trim (jsonText d)); [injection Hf as <-; apply ids_ok_default|]. destruct (json_parse _) as [v|]; [|by injection Hf as <-].
  destruct v as [|b|x|str|items|ms]; try (by injection Hf as <-).
  destruct (get "operations" (JObj ms)) as [[| | | |items|]|]; try (injection Hf as <-; apply ids_ok_default).
  destruct (document_rows (seed d) items) as [[rows s]|] eqn:E; [|done]. injection Hf as <-. by apply document_rows_ok in E as [_ E].
Qed.

Section Run.
Context (t : ThrownMessage -> list N).

Lemma step_rows_ok d e d' : dialog_step t d e = Some d' -> rows_ok d -> rows_ok d'.
Proof.
  intros Hs Hd. destruct e; cbn [dialog_step] in Hs; try (injection Hs as <-); try exact Hd.
  - apply map_operation_ok; [intros o; apply patch_id|done].
  - eapply (added_ok d _ _ (createDefaultOperation (seed d)).1); [done|by rewrite <- Permutation_cons_append|done|cbn; lia].
  - by apply duplicate_ok.
  - by apply remove_ok.
  - eapply (ids_ok_mono (seed d)); [cbn; lia|]. eapply ids_ok_same; [|exact Hd]. apply map_operation_ids. intros o. apply conditions_id.
  - apply map_operation_ok; [intros o; apply conditions_id|done].
  - apply map_operation_ok; [intros o; apply conditions_id|done].
  - apply map_operation_ok; [intros o; apply patch_id|done].
  - apply prune_draft_ok; [by intros n p q n' [= <- <-]|done].
  - apply prune_draft_ok; [intros n p q n' [= <- <-]; lia|done].
  - apply prune_draft_ok; [by intros n p0 q n' [= <- <-]|done].
  - apply prune_draft_ok; [by intros n p q n' [= <- <-]|done].
  - unfold handleDragOver. destruct (draggedOperationId d); [|done]. by case_bool_decide.
  - unfold handleDrop. cbv zeta. destruct (match draggedOperationId d with Some s => Some s | None => transferred end); [|done].
    case_bool_decide; [done|]. eapply ids_ok_perm; [apply reorder_perm|done].
  - unfold switchToJsonMode. case_bool_decide; [done|]. by destruct (buildVisualJson d).
  - by apply visual_ok in Hs.
  - by apply fill_ok in Hs.
  - apply ids_ok_default.
  - unfold expandAllConditions, set_expanded. by destruct (selectedOperation d).
  - unfold collapseAllConditions, set_expanded. by destruct (selectedOperation d).
  - unfold keep_selected. destruct (operations d) eqn:E; [by destruct Hd as (_ & _ & ?)|]. by case_bool_decide.
  - unfold render. destruct (pruneObjectsDraft d) as [[p s]|] eqn:E; [|done]. unfold pruneObjectsDraft in E.
    destruct (selectedOperation d) as [o|]; [|done]. cbn [mbind option_bind] in E. case_bool_decide; [|done].
    pose proof (prune_rows_ids (o_id o) (fun s p => (p, s)) (seed d) [o]) as Hp. cbn [prune_rows] in Hp. rewrite bool_decide_eq_true_2 in Hp by done. injection E as E. rewrite E in Hp.
    eapply ids_ok_mono; [|exact Hd]. eapply Hp; [by intros n p0 q n' [= <- <-]|done].
Qed.

Lemma run_rows_ok es d d' : dialog_run t es d = Some d' -> rows_ok d -> rows_ok d'.
Proof.
  revert d. induction es as [|e es IH]; intros d Hr Hd; cbn [dialog_run] in Hr; [by injection Hr as <-|].
  destruct (dialog_step t d e) as [d1|] eqn:E; [|done]. apply (IH d1); [done|]. by apply (step_rows_ok d e).
Qed.

Lemma open_rows_ok s v d : open_dialog s v = Some d -> rows_ok d.
Proof.
  unfold open_dialog. destruct (parseInitialState s v) as [[st s']|] eqn:E; [|done]. intros [= <-]. unfold rows_ok. cbn [seed operations].
  unfold parseInitialState in E. cbv beta iota zeta delta [createDefaultOperation] in E.
  destruct (trim v); [injection E as <- <-; apply ids_ok_default|]. destruct (json_parse _) as [p|]; [|injection E as <- <-; apply ids_ok_default].
  destruct p as [|b|x|str|items|ms]; try (injection E as <- <-; apply ids_ok_default).
  destruct (get "operations" (JObj ms)) as [[| | | |items|]|]; try (injection E as <- <-; apply ids_ok_default).
  destruct (document_rows s items) as [[rows s0]|] eqn:E0; [|done]. injection E as <- <-. by apply document_rows_ok in E0 as [_ E0].
Qed.

Lemma keep_selected_in d : rows_ok d -> exists o, o ∈ operations d /\ selectedOperationId (keep_selected d) = Some (o_id o).
Proof.
  intros (_ & _ & Hne). unfold keep_selected. destruct (operations d) as [|first rest] eqn:E; [done|]. case_bool_decide as Hin.
  - apply list_elem_of_In, in_map_iff in Hin as (o & Ho & Hin). exists o. by rewrite list_elem_of_In.
  - exists first. split; [apply list_elem_of_here|done].
Qed.

(** After any events on an opened override there is a row, no two rows have the same
    identifier, so that an update reaches one row, and the selection names a row. *)
Theorem rows_distinct (s : nat) (value : list N) (es : list DialogEvent) (d d' : Dialog) :
  open_dialog s value = Some d -> dialog_run t es d = Some d' ->
  NoDup (o_id <$> operations d') /\ operations d' <> [] /\
  (forall o, o ∈ operations d' -> o_id o < seed d') /\
  exists o, o ∈ operations d' /\ selectedOperationId (keep_selected d') = Some (o_id o).
Proof.
  intros Ho Hr. assert (rows_ok d') as Hd by (eapply run_rows_ok; [done|by eapply open_rows_ok]).
  pose proof (keep_selected_in d' Hd). destruct Hd as (H1 & H2 & H3). rewrite Forall_forall in H2. done.
Qed.

End Run.

Definition sample_edits : list DialogEvent :=
  [AddOperation; AddCondition 1; DuplicateOperation 0; DragStart 0; DragOver 1 true; Drop 1 None; FillTemplate true; RemoveOperation 1; SelectionEffect].

Definition no_dialog : Dialog := mkDialog 0 visual operations_format [] [] [] [] None ∅ None None false [].
Definition opened : Dialog := default no_dialog (open_dialog 0 []).
Definition edited : Dialog := default no_dialog (dialog_run (fun _ => []) sample_edits opened).

Lemma rows_distinct_witness : open_dialog 0 [] = Some opened /\ dialog_run (fun _ => []) sample_edits opened = Some edited /\ NoDup (o_id <$> operations edited).
Proof.
  assert (open_dialog 0 [] = Some opened) as E1 by (vm_compute; reflexivity).
  assert (dialog_run (fun _ => []) sample_edits opened = Some edited) as E2 by (vm_compute; reflexivity).
  split; [exact E1|]. split; [exact E2|]. exact (proj1 (rows_distinct (fun _ => []) 0 [] sample_edits opened edited E1 E2)).
Defined.

(** ** Moving a row *)

(** The other rows keep their order and the moved row is next to its target. *)
Theorem reorder_moves_one_row (ops : list Operation) (src dst : nat) (after : bool) :
  NoDup (o_id <$> ops) -> src <> dst -> src ∈ o_id <$> ops -> dst ∈ o_id <$> ops ->
  let ops' := reorderOperations ops src dst after in
  filter (fun o => o_id o <> src) ops' = filter (fun o => o_id o <> src) ops /\
  exists l1 l2 m x, o_id m = src /\ o_id x = dst /\ ops' = (if after then l1 ++ x :: m :: l2 else l1 ++ m :: x :: l2).
Proof.
  intros Hnd Hne Hsrc Hdst ops'. unfold ops', reorderOperations. rewrite bool_decide_eq_false_2 by done.
  destruct (list_find (fun o => o_id o = src) ops) as [[i m]|] eqn:E.
  2:{ exfalso. apply list_find_None in E. apply list_elem_of_fmap in Hsrc as (o & -> & Ho). rewrite Forall_forall in E. by apply (E o). }
  apply list_find_Some in E as (Hi & Hm & _). cbv zeta. pose proof (take_drop_middle ops i m Hi) as Eops.
  rewrite delete_take_drop. set (a := take i ops) in *. set (b := drop (S i) ops) in *.
  assert (filter (fun o => o_id o <> src) (a ++ b) = filter (fun o => o_id o <> src) ops) as Hfil.
  { rewrite <- Eops, !filter_app, filter_cons_False by (by intros H). done. }
  unfold index_of. destruct (list_find (fun o => o_id o = dst) (a ++ b)) as [[j x]|] eqn:E.
  2:{ exfalso. apply list_find_None in E. apply list_elem_of_fmap in Hdst as (o & Ho & Hin). rewrite Forall_forall in E. apply (E o); [|done].
      rewrite <- Eops in Hin. apply elem_of_app in Hin as [Hin|[->|Hin]%elem_of_cons]; [set_solver|congruence|set_solver]. }
  apply list_find_Some in E as (Hj & Hx & _). cbn [fmap option_fmap option_map fst]. pose proof (take_drop_middle (a ++ b) j x Hj) as Eab.
  assert (forall k, filter (fun o => o_id o <> src) (insert_at k m (a ++ b)) = filter (fun o => o_id o <> src) ops) as Hins.
  { intros k. unfold insert_at. rewrite filter_app, filter_cons_False by (by intros H). by rewrite <- filter_app, take_drop. }
  split; [apply Hins|]. unfold insert_at. destruct after.
  - exists (take j (a ++ b)), (drop (S j) (a ++ b)), m, x. split; [done|]. split; [done|].
    rewrite (take_S_r _ _ _ Hj), <- app_assoc. done.
  - exists (take j (a ++ b)), (drop (S j) (a ++ b)), m, x. split; [done|]. split; [done|]. by rewrite (drop_S _ _ _ Hj).
Qed.

(** ** Rules of a [prune_objects] value *)

(** What is written does not depend on the identifiers. *)
Definition rule_json (item : json) : option json :=
  let r := (normalizePruneRule 0 item).1 in if blank (c_path r) then None else Some (prune_condition r).

Lemma numbered_conditions n items p :
  p_rules p = (number_rules n items).1 -> prune_conditions p = omap rule_json items.
Proof.
  intros Hp. unfold prune_conditions. rewrite Hp. clear Hp p. revert n. induction items as [|x items IH]; intros n; [done|].
  cbn [number_rules omap list_omap]. destruct (normalizePruneRule n x) as [r m] eqn:E. destruct (number_rules m items) as [rs m'] eqn:E'. cbn [fst].
  specialize (IH m). rewrite E' in IH. cbn [fst] in IH. rewrite filter_cons. unfold rule_json at 1.
  injection E as <- <-. cbn [c_path normalizePruneRule fst]. destruct (blank (text_of "path" x)) eqn:Eb.
  - rewrite decide_False by done. done.
  - rewrite decide_True by done. cbn [map]. f_equal. done.
Qed.

Lemma numbered_from n items : Forall (fun r => n <= c_id r) (number_rules n items).1.
Proof.
  revert n. induction items as [|x items IH]; intros n; [constructor|]. cbn [number_rules]. destruct (normalizePruneRule n x) as [r m] eqn:E.
  destruct (number_rules m items) as [rs m'] eqn:E'. injection E as <- <-. specialize (IH (S n)). rewrite E' in IH. cbn [fst] in *.
  constructor; [done|]. eapply Forall_impl; [done|]. simpl. lia.
Qed.

(** The draft of a text: its rules are those of some items, numbered from [n]. *)
Lemma parsed_draft n text :
  exists simple type logic recursive items, forall k,
    (parsePruneObjectsDraft k text).1 = mkPrune simple type logic recursive (number_rules k items).1 /\
    (k = n -> parsePruneObjectsDraft k text = (mkPrune simple type logic recursive (number_rules k items).1, (parsePruneObjectsDraft k text).2)).
Proof.
  assert (forall simple type logic recursive items,
    (forall k, (parsePruneObjectsDraft k text).1 = mkPrune simple type logic recursive (number_rules k items).1) ->
    exists simple type logic recursive items, forall k,
    (parsePruneObjectsDraft k text).1 = mkPrune simple type logic recursive (number_rules k items).1 /\
    (k = n -> parsePruneObjectsDraft k text = (mkPrune simple type logic recursive (number_rules k items).1, (parsePruneObjectsDraft k text).2))) as H.
  { intros a b c d e H. exists a, b, c, d, e. intros k. split; [done|]. intros _. rewrite <- H. by destruct (parsePruneObjectsDraft k text). }
  unfold parsePruneObjectsDraft in *. cbv zeta in *. destruct (trim text) as [|c0 r0]; [by apply (H true [] (js "AND") true [])|].
  destruct (json_parse (c0 :: r0)) as [[|b|x|str|items|ms]|]; try (by eapply (H true _ (js "AND") true [])).
  eapply (H _ _ _ _ (prune_items (JObj ms))). intros k. by destruct (number_rules k _).
Qed.

(** The text a row gets when its draft is read and written, in the mode of the draft or in
    advanced mode. *)
Definition rewritten (advanced : bool) (text : list N) : list N :=
  let draft := (parsePruneObjectsDraft 0 text).1 in
  buildPruneObjectsValueText (with_rules draft (negb advanced && p_simpleMode draft) (p_rules draft)).

Lemma written_ext p q :
  p_simpleMode p = p_simpleMode q -> p_typeText p = p_typeText q -> p_logic p = p_logic q -> p_recursive p = p_recursive q ->
  prune_conditions p = prune_conditions q -> buildPruneObjectsValueText p = buildPruneObjectsValueText q.
Proof. intros H1 H2 H3 H4 H5. unfold buildPruneObjectsValueText, prune_payload. by rewrite H1, H2, H3, H4, H5. Qed.

Lemma prune_rows_map id f advanced n s ops :
  (forall k text, n <= k -> let '(p, k0) := parsePruneObjectsDraft k text in
     k <= (f k0 p).2 /\ buildPruneObjectsValueText (f k0 p).1 = rewritten advanced text) ->
  n <= s -> (prune_rows id f s ops).1 = map_operation id (fun o => with_value (rewritten advanced (o_value_text o)) o) ops.
Proof.
  intros Hf. revert s. induction ops as [|o ops IH]; intros s Hs; [done|]. cbn [prune_rows map_operation map]. case_bool_decide.
  - specialize (Hf s (o_value_text o) Hs). destruct (parsePruneObjectsDraft s (o_value_text o)) as [p k0]. destruct (f k0 p) as [next s1]. cbn [fst snd] in Hf. destruct Hf as [Hs1 Hb].
    specialize (IH s1 ltac:(lia)). destruct (prune_rows id f s1 ops) as [rest s2]. cbn [fst] in *. rewrite Hb. by f_equal.
  - specialize (IH s Hs). destruct (prune_rows id f s ops) as [rest s2]. cbn [fst] in *. by f_equal.
Qed.

Lemma parse_prune_mono k text : k <= (parsePruneObjectsDraft k text).2.
Proof.
  pose proof (prune_rows_ids 0 (fun s p => (p, s)) k [mkOp 0 [] [] [] [] [] text false [] []]) as H. cbn [prune_rows o_id o_value_text] in H.
  rewrite bool_decide_eq_true_2 in H by done. destruct (parsePruneObjectsDraft k text) as [p n]. eapply H; [by intros a b c e [= <- <-]|done].
Qed.

(** The change of a draft has no effect on what is written when it changes no rule that
    exists. *)
Lemma draft_unchanged id d (advanced : bool) f :
  (forall k p, (forall r, r ∈ p_rules p -> seed d <= c_id r) ->
     k <= (f k p).2 /\ exists rules, (f k p).1 = with_rules p (negb advanced && p_simpleMode p) rules /\
       prune_conditions (with_rules p (negb advanced && p_simpleMode p) rules) = prune_conditions p) ->
  operations (updatePruneObjectsDraft id f d) = map_operation id (fun o => with_value (rewritten advanced (o_value_text o)) o) (operations d).
Proof.
  intros Hf. unfold updatePruneObjectsDraft. destruct (prune_rows id f (seed d) (operations d)) as [ops s] eqn:E. cbn [with_operations operations].
  apply (f_equal fst) in E. cbn [fst] in E. rewrite <- E. apply (prune_rows_map id f advanced (seed d)); [|done]. intros k text Hk.
  pose proof (parse_prune_mono k text) as Hmono. destruct (parsed_draft k text) as (sm & ty & lo & re & items & Hp). pose proof (proj1 (Hp 0)) as H0.
  destruct (Hp k) as [_ Hpk]. specialize (Hpk eq_refl). destruct (parsePruneObjectsDraft k text) as [p k0]. cbn [snd] in *. injection Hpk as ->.
  destruct (Hf k0 (mkPrune sm ty lo re (number_rules k items).1)) as (Hk0 & rules & Ef & Ec).
  { cbn [p_rules]. intros r Hr. pose proof (numbered_from k items) as Hfrom. rewrite Forall_forall in Hfrom. specialize (Hfrom r Hr). lia. }
  split; [lia|]. rewrite Ef. unfold rewritten. rewrite H0. apply written_ext; try done. rewrite Ec.
  rewrite (numbered_conditions k items) by done. symmetry. by apply (numbered_conditions 0 items).
Qed.

(** The handlers of the rules of a [prune_objects] value change nothing: the rules are
    read again with new identifiers, so that no identifier a row was shown with is found,
    and a new rule has no path and is left out when the value is written. *)
Theorem prune_rules_not_editable (d : Dialog) (id ruleId : nat) (patch : CondPatch) :
  ruleId < seed d ->
  let rewrite_rows advanced := map_operation id (fun o => with_value (rewritten advanced (o_value_text o)) o) (operations d) in
  operations (updatePruneRule id ruleId patch d) = rewrite_rows false /\
  operations (removePruneRule id ruleId d) = rewrite_rows false /\
  operations (addPruneRule id d) = rewrite_rows true.
Proof.
  intros Hr rewrite_rows. split; [|split]; apply draft_unchanged; intros k p Hids.
  - split; [done|]. exists (p_rules p). assert (map_condition ruleId (patch_condition patch) (p_rules p) = p_rules p) as E.
    { unfold map_condition. rewrite <- (map_id (p_rules p)) at 2. apply map_ext_in. intros r Hin%list_elem_of_In. rewrite bool_decide_eq_false_2; [done|].
      specialize (Hids r Hin). lia. }
    split; [cbn [update_rule fst]; by rewrite E|done].
  - split; [done|]. exists (p_rules p). assert (filter (fun r => c_id r <> ruleId) (p_rules p) = p_rules p) as E.
    { apply filter_all. apply Forall_forall. intros r Hin. specialize (Hids r Hin). lia. }
    split; [cbn [remove_rule fst]; by rewrite E|done].
  - split; [cbn; lia|]. eexists. split; [reflexivity|]. unfold prune_conditions. cbn [with_rules p_rules]. rewrite filter_app, filter_cons_False by done.
    by rewrite filter_nil, app_nil_r.
Qed.

(** A value with one rule: the row shows it with the identifier of a reading, and neither a
    removal nor a new path reaches it. *)
Definition prune_value : list N := json_stringify (JObj [(js "conditions", JArr [JObj [text_member "path" "type"; text_member "mode" "full"; text_member "value" "x"]])]).

Definition prune_dialog : Dialog :=
  mkDialog 1 visual operations_format [] [mkOp 0 [] [] (js "prune_objects") [] [] prune_value false (js "OR") []] [] [] (Some 0) ∅ None None false [].

Lemma prune_rules_not_editable_witness :
  let d := render prune_dialog in
  map c_id (p_rules (fst (default (prune_defaults, 0) (pruneObjectsDraft prune_dialog)))) = [1] /\
  map o_value_text (operations (removePruneRule 0 1 d)) = [prune_value] /\
  map o_value_text (operations (updatePruneRule 0 1 (CPath (js "role")) d)) = [prune_value] /\
  map o_value_text (operations (addPruneRule 0 d)) = [prune_value].
Proof.
  intros d. destruct (prune_rules_not_editable d 0 1 (CPath (js "role"))) as (H1 & H2 & H3); [vm_compute; lia|].
  split; [by vm_compute|]. rewrite H1, H2, H3. split; [by vm_compute|]. split; by vm_compute.
Defined.
