(* ===== verification/ParamOverrideText.v ===== *)
(** * Texts of the override editor

    What the dialog saves, it shows again: opening the saved text and saving it without a
    change gives the same text, unless a value is a quoted string.  The rules that are saved
    are complete, and the drafts of values are read back from the texts they write. *)
From S2P Require Import Prelude JsString JsNumber BillingLexer JsJson JsNumberPrint JsJsonPrint JsJsonPretty AuthSession VisualTiers ChannelForm ParamOverride.
From stdpp Require Import gmap.
From Stdlib Require Import Lia.

(** ** Loose values *)

(** A text that is no quoted string, and has no number JSON cannot write. *)
Definition steady (text : list N) : bool :=
  match json_parse (trim text) with
  | Some (JStr _) => false
  | Some v => json_wf v
  | None => unitsb (trim text)
  end.

Lemma loose_parsed text v : json_parse (trim text) = Some v -> parseLooseValue text = v.
Proof. intros H. unfold parseLooseValue. cbv zeta. rewrite H. by destruct (trim text). Qed.

Lemma loose_plain text : json_parse (trim text) = None -> parseLooseValue text = JStr (trim text).
Proof. intros H. unfold parseLooseValue. cbv zeta. rewrite H. by destruct (trim text). Qed.

Lemma loose_trim text : parseLooseValue (trim text) = parseLooseValue text.
Proof. unfold parseLooseValue. by rewrite trim_idemp. Qed.

(** The text of a value as it is shown again, and what it is read as. *)
Lemma steady_value text :
  steady text = true ->
  let v := parseLooseValue text in
  let shown := toValueText (Some v) in
  json_wf v = true /\ parseLooseValue shown = v /\ json_parse (trim shown) = json_parse (trim text) /\ blank shown = blank text.
Proof.
  intros Hs v' shown. unfold steady in Hs. destruct (json_parse (trim text)) as [v|] eqn:E.
  - assert (v' = v) as Ev by (by apply loose_parsed). assert (json_wf v = true) as Hwf by (by destruct v).
    assert (shown = json_stringify v) as Esh by (unfold shown; rewrite Ev; by destruct v).
    assert (json_parse (trim shown) = Some v) as Ep by (rewrite Esh, (trim_trimmed _ (stringify_trimmed v Hwf)); by apply json_roundtrip).
    rewrite Ev. split; [done|]. split; [by apply loose_parsed|]. split; [done|]. unfold blank.
    destruct (trim shown); [discriminate Ep|]. by destruct (trim text); [discriminate E|].
  - assert (v' = JStr (trim text)) as Ev by (by apply loose_plain). assert (shown = trim text) as Esh by (unfold shown; by rewrite Ev).
    rewrite Ev, Esh, trim_idemp. split; [done|]. split; [rewrite loose_trim; by apply loose_plain|]. split; [done|]. unfold blank. by rewrite trim_idemp.
Qed.

(** ** Members *)

Lemma get_opt k k' b v rest :
  get k (JObj (opt_member b k' v ++ rest)) = if b && String.eqb k k' then Some v else get k (JObj rest).
Proof.
  destruct b; [|done]. cbn [opt_member app andb]. destruct (String.eqb_spec k k') as [->|Hne].
  - unfold get. cbn [list_find]. by rewrite decide_True.
  - unfold get. cbn [list_find]. rewrite decide_False; [by destruct (list_find _ rest) as [[]|]|]. cbn [fst]. intros E. apply Hne. by apply js_inj in E.
Qed.

Lemma get_cons k k' v rest : get k (JObj ((js k', v) :: rest)) = if String.eqb k k' then Some v else get k (JObj rest).
Proof. apply (get_opt k k' true v rest). Qed.

Lemma get_last k k' b v : get k (JObj (opt_member b k' v)) = if b && String.eqb k k' then Some v else None.
Proof. rewrite <- (app_nil_r (opt_member b k' v)). by rewrite get_opt. Qed.

Ltac get_members := cbn [app]; rewrite ?get_cons, ?get_opt, ?get_last; cbn [String.eqb Ascii.eqb Bool.eqb]; rewrite ?andb_false_r, ?andb_true_r.

(** ** Conditions and operations are read back *)

Definition cond_steady (c : Condition) : bool :=
  bool_decide (c_mode c ∈ CONDITION_MODE_VALUES) && steady (c_value_text c) && unitsb (trim (c_path c)).

Definition op_steady (o : Operation) : bool :=
  bool_decide (o_mode o ∈ OPERATION_MODE_VALUES) && steady (o_value_text o) &&
  unitsb (trim (o_description o)) && unitsb (trim (o_path o)) && unitsb (trim (o_from o)) && unitsb (trim (o_to o)) &&
  forallb cond_steady (o_conditions o).

Lemma modes_nonempty m : m ∈ OPERATION_MODE_VALUES -> nonempty m = true /\ unitsb m = true.
Proof.
  assert (forallb (fun m => nonempty m && unitsb m) OPERATION_MODE_VALUES = true) as H by (by vm_compute).
  intros Hm. rewrite forallb_forall in H. apply list_elem_of_In in Hm. specialize (H m Hm). by apply andb_prop in H.
Qed.

Lemma cond_modes_nonempty m : m ∈ CONDITION_MODE_VALUES -> nonempty m = true /\ unitsb m = true.
Proof.
  assert (forallb (fun m => nonempty m && unitsb m) CONDITION_MODE_VALUES = true) as H by (by vm_compute).
  intros Hm. rewrite forallb_forall in H. apply list_elem_of_In in Hm. specialize (H m Hm). by apply andb_prop in H.
Qed.

(** The fields the modes use: how they exclude each other. *)
Lemma meta_facts m :
  m ∈ OPERATION_MODE_VALUES ->
  let meta := MODE_META m in
  (m_pathAlias meta = true -> m_path meta = false /\ m_pathOptional meta = false /\ m_to meta = true) /\
  (mode_in FROM_REQUIRED_MODES m = true -> m_from meta = true) /\
  (mode_in TO_REQUIRED_MODES m = true -> m_to meta = true) /\
  (mode_in VALUE_REQUIRED_MODES m = true -> m_value meta = true) /\
  (m = js "return_error" \/ m = js "pass_headers" -> m_value meta = true).
Proof.
  assert (forallb (fun m =>
    let meta := MODE_META m in
    implb (m_pathAlias meta) (negb (m_path meta) && negb (m_pathOptional meta) && m_to meta) &&
    implb (mode_in FROM_REQUIRED_MODES m) (m_from meta) && implb (mode_in TO_REQUIRED_MODES m) (m_to meta) &&
    implb (mode_in VALUE_REQUIRED_MODES m) (m_value meta) &&
    implb (mode_in ["return_error"; "pass_headers"]%string m) (m_value meta)) OPERATION_MODE_VALUES = true) as H by (by vm_compute).
  intros Hm meta. rewrite forallb_forall in H. apply list_elem_of_In in Hm. specialize (H m Hm). cbv zeta in H. fold meta in H.
  apply andb_prop in H as [H H5]. apply andb_prop in H as [H H4]. apply andb_prop in H as [H H3]. apply andb_prop in H as [H1 H2].
  split; [intros E; rewrite E in H1; cbn [implb] in H1; breflect; by destruct (m_path meta), (m_pathOptional meta)|].
  split; [intros E; by rewrite E in H2|]. split; [intros E; by rewrite E in H3|]. split; [intros E; by rewrite E in H4|].
  intros E. assert (mode_in ["return_error"; "pass_headers"]%string m = true) as E5 by (apply bool_decide_eq_true; destruct E as [-> | ->]; set_solver).
  by rewrite E5 in H5.
Qed.

Lemma condition_reopens s c j :
  cond_steady c = true -> buildConditionPayload c = Some j ->
  json_wf j = true /\ exists c', normalizeCondition s j = Some (c', S s) /\ buildConditionPayload c' = Some j.
Proof.
  intros Hs Hb. unfold cond_steady in Hs. apply andb_prop in Hs as [Hs Hu]. apply andb_prop in Hs as [Hm%bool_decide_eq_true_1 Hv].
  destruct (cond_modes_nonempty _ Hm) as [Hn Hmu]. destruct (steady_value _ Hv) as (Hwf & Hloose & Hparse & _).
  unfold buildConditionPayload in Hb. cbv zeta in Hb. destruct (trim (c_path c)) as [|p0 ps] eqn:Ep; [done|]. rewrite <- Ep in Hb. injection Hb as <-. rewrite Hn.
  split.
  - cbn [json_wf]. apply andb_true_intro. split; [by destruct (c_invert c), (c_pass_missing_key c); vm_compute|].
    rewrite <- Ep in Hu. destruct (c_invert c), (c_pass_missing_key c); cbn [app opt_member forallb json_wf]; rewrite Hu, Hmu, Hwf; by vm_compute.
  - eexists. split; [unfold normalizeCondition; reflexivity|]. unfold text_of, is_true. get_members. rewrite (bool_decide_eq_true_2 _ Hm).
    unfold buildConditionPayload. cbn [c_path c_mode c_value_text c_invert c_pass_missing_key]. cbv zeta. rewrite trim_idemp, Ep, <- Ep, Hn, Hloose.
    by destruct (c_invert c), (c_pass_missing_key c).
Qed.

Lemma omap_step {A B} (f : A -> option B) x l : omap f (x :: l) = match f x with Some y => y :: omap f l | None => omap f l end.
Proof. done. Qed.

Lemma conditions_reopen s cs :
  forallb cond_steady cs = true ->
  let payloads := omap buildConditionPayload cs in
  forallb json_wf payloads = true /\
  exists cs' s', map_seed normalizeCondition s payloads = Some (cs', s') /\ omap buildConditionPayload cs' = payloads.
Proof.
  revert s. induction cs as [|c cs IH]; intros s Hs; [split; [done|]; by exists [], s|]. cbn [forallb] in Hs. apply andb_prop in Hs as [Hc Hs]. cbv zeta. rewrite omap_step.
  destruct (buildConditionPayload c) as [j|] eqn:E; [|by apply IH]. destruct (condition_reopens s c j Hc E) as (Hj & c' & En & Eb).
  destruct (IH (S s) Hs) as (Hwf & cs' & s' & Em & Eo). cbv zeta in *.
  cbn [forallb map_seed]. rewrite Hj, En, Em. split; [done|]. exists (c' :: cs'), s'. split; [done|]. rewrite omap_step, Eb. by f_equal.
Qed.

Lemma payload_wf o : op_steady o = true -> json_wf (operation_payload o) = true.
Proof.
  unfold op_steady. intros Hs. apply andb_prop in Hs as [Hs Hcs]. apply andb_prop in Hs as [Hs Hto]. apply andb_prop in Hs as [Hs Hfrom].
  apply andb_prop in Hs as [Hs Hpath]. apply andb_prop in Hs as [Hs Hde]. apply andb_prop in Hs as [Hm%bool_decide_eq_true_1 Hv].
  destruct (modes_nonempty _ Hm) as [Hn Hmu]. destruct (steady_value _ Hv) as (Hwf & _). destruct (conditions_reopen 0 _ Hcs) as (Hcwf & _).
  unfold operation_payload, mode_or_set. cbv zeta. rewrite Hn. set (meta := MODE_META (o_mode o)).
  set (cs := omap buildConditionPayload (o_conditions o)) in *. cbn [json_wf]. apply andb_true_intro. split.
  - unfold opt_member. repeat case_match; by vm_compute.
  - assert (forall b k v, (b = true -> json_wf v = true) -> unitsb (js k) = true -> forallb (fun m => let '(k, x) := m in unitsb k && json_wf x) (opt_member b k v) = true) as H.
    { intros [] k v Hv0 Hk; [|done]. cbn [opt_member forallb]. by rewrite Hk, Hv0. }
    rewrite !forallb_app. cbn [forallb json_wf]. rewrite Hmu.
    assert (forall b (x y : list N), unitsb x = true -> unitsb y = true -> unitsb (if b : bool then x else y) = true) as Hif by (by intros []).
    rewrite !H; try done; intros _; cbn [json_wf]; first [done | by apply Hif | by case_bool_decide].
Qed.

(** The row a saved operation is shown in. *)
Definition reopened (s : nat) (o : Operation) (conditions : list Condition) : Operation :=
  let meta := MODE_META (o_mode o) in
  let alias t := if m_pathAlias meta && negb (nonempty t) then trim (o_path o) else t in
  mkOp s (trim (o_description o)) (if m_path meta || m_pathOptional meta && nonempty (trim (o_path o)) then trim (o_path o) else []) (o_mode o)
    (if m_from meta then alias (trim (o_from o)) else []) (if m_to meta || nonempty (trim (o_to o)) then alias (trim (o_to o)) else [])
    (if m_value meta then toValueText (Some (parseLooseValue (o_value_text o))) else [])
    (m_keepOrigin meta && o_keep_origin o)
    (if negb (bool_decide (omap buildConditionPayload (o_conditions o) = [])) && bool_decide (o_logic o = js "AND") then js "AND" else js "OR") conditions.

Lemma normalize_payload s o cs s' :
  o_mode o ∈ OPERATION_MODE_VALUES ->
  map_seed normalizeCondition (S s) (omap buildConditionPayload (o_conditions o)) = Some (cs, s') ->
  normalizeOperation s (operation_payload o) = Some (reopened s o cs, s').
Proof.
  intros Hm Hcs. destruct (modes_nonempty _ Hm) as [Hn _].
  unfold operation_payload, mode_or_set, reopened. cbv zeta. rewrite Hn. set (meta := MODE_META (o_mode o)).
  set (payloads := omap buildConditionPayload (o_conditions o)) in *. unfold normalizeOperation, text_of, is_true. cbv zeta.
  match goal with |- context [get "conditions" ?p] => assert (match get "conditions" p with Some (JArr l) => l | _ => [] end = payloads) as -> end.
  { get_members. case_bool_decide as E; [by rewrite E|done]. }
  rewrite Hcs. do 3 f_equal.
  - get_members. by destruct (trim (o_description o)).
  - get_members. by destruct (m_path meta || m_pathOptional meta && nonempty (trim (o_path o))).
  - get_members. by rewrite bool_decide_eq_true_2.
  - get_members. by destruct (m_from meta).
  - get_members. by destruct (m_to meta || nonempty (trim (o_to o))).
  - get_members. by destruct (m_value meta).
  - get_members. by destruct (m_keepOrigin meta && o_keep_origin o).
  - get_members. destruct (bool_decide (payloads = [])); [done|]. by case_bool_decide.
Qed.

Lemma reopened_payload s o cs :
  op_steady o = true -> omap buildConditionPayload cs = omap buildConditionPayload (o_conditions o) ->
  operation_payload (reopened s o cs) = operation_payload o.
Proof.
  unfold op_steady. intros Hs Hcs. apply andb_prop in Hs as [Hs _]. apply andb_prop in Hs as [Hs _]. apply andb_prop in Hs as [Hs _].
  apply andb_prop in Hs as [Hs _]. apply andb_prop in Hs as [Hs _]. apply andb_prop in Hs as [Hm%bool_decide_eq_true_1 Hv].
  destruct (modes_nonempty _ Hm) as [Hn _]. destruct (meta_facts _ Hm) as (Ha & _). destruct (steady_value _ Hv) as (_ & Hloose & _).
  unfold operation_payload, mode_or_set, reopened. cbn [o_mode o_description o_path o_from o_to o_value_text o_keep_origin o_logic o_conditions]. cbv zeta. rewrite Hn, Hcs.
  set (meta := MODE_META (o_mode o)) in *. set (payloads := omap buildConditionPayload (o_conditions o)) in *. rewrite trim_idemp.
  set (path := trim (o_path o)). set (from := trim (o_from o)). set (to := trim (o_to o)).
  assert (trim path = path /\ trim from = from /\ trim to = to) as (Hp & Hf & Ht) by (unfold path, from, to; by rewrite !trim_idemp).
  apply (f_equal JObj). apply (f_equal2 app); [done|]. apply (f_equal2 app); [done|]. destruct (m_pathAlias meta) eqn:Ealias.
  - destruct (Ha eq_refl) as (-> & -> & ->). cbn [orb andb]. apply (f_equal2 app); [done|]. apply (f_equal2 app); [by destruct (m_value meta); [rewrite Hloose|]|].
    apply (f_equal2 app); [by destruct (m_keepOrigin meta)|].
    apply (f_equal2 app); [destruct (m_from meta); [|done]; destruct (nonempty from) eqn:E; cbn [negb]; [by rewrite Hf, E|rewrite Hp; by destruct path]|].
    apply (f_equal2 app); [destruct (nonempty to) eqn:E; cbn [negb]; [by rewrite Ht, E|rewrite Hp; by destruct path]|].
    destruct (bool_decide (payloads = [])); [done|]. cbn [negb andb]. destruct (bool_decide (o_logic o = js "AND")); [by rewrite bool_decide_eq_true_2|by rewrite bool_decide_eq_false_2].
  - cbn [andb]. apply (f_equal2 app); [destruct (m_path meta); cbn [orb]; [by rewrite Hp|]; destruct (m_pathOptional meta); [|done]; cbn [andb]; destruct (nonempty path) eqn:E; [by rewrite Hp, E|done]|].
    apply (f_equal2 app); [by destruct (m_value meta); [rewrite Hloose|]|]. apply (f_equal2 app); [by destruct (m_keepOrigin meta)|].
    apply (f_equal2 app); [destruct (m_from meta); [by rewrite Hf|done]|].
    apply (f_equal2 app); [destruct (m_to meta); cbn [orb]; [by rewrite Ht|]; destruct (nonempty to) eqn:E; [by rewrite Ht, E|done]|].
    destruct (bool_decide (payloads = [])); [done|]. cbn [negb andb]. destruct (bool_decide (o_logic o = js "AND")); [by rewrite bool_decide_eq_true_2|by rewrite bool_decide_eq_false_2].
Qed.

Lemma blank_trim t : blank (trim t) = blank t.
Proof. unfold blank. by rewrite trim_idemp. Qed.

(** The checks of a rule, one by one. *)
Definition checks (o : Operation) : list bool :=
  let mode := mode_or_set (o_mode o) in
  let meta := MODE_META mode in
  let alias := m_pathAlias meta && negb (blank (o_path o)) in
  [m_path meta && blank (o_path o);
   mode_in FROM_REQUIRED_MODES mode && blank (o_from o) && negb alias;
   mode_in TO_REQUIRED_MODES mode && blank (o_to o) && negb alias;
   mode_in VALUE_REQUIRED_MODES mode && blank (o_value_text o);
   bool_decide (mode = js "return_error") &&
     match json_parse (trim (o_value_text o)) with Some (JObj _ as parsed) => blank (text_or_empty (get "message" parsed)) | _ => false end;
   bool_decide (mode = js "pass_headers") && bool_decide (parsePassHeaderNames (parseLooseValue (trim (o_value_text o))) = [])].

Lemma valid_checks o : validateOperation o = None <-> Forall (fun b => b = false) (checks o).
Proof.
  unfold validateOperation, checks. cbv zeta. rewrite !Forall_cons.
  repeat match goal with |- (if ?b then _ else _) = None <-> _ => destruct b; [split; [done|intros (? & ?); naive_solver]|] end. naive_solver.
Qed.

Lemma reopened_valid s o cs :
  op_steady o = true -> validateOperation o = None ->
  validateOperation (reopened s o cs) = None /\ isOperationBlank (reopened s o cs) = false.
Proof.
  unfold op_steady. intros Hs Hval. apply andb_prop in Hs as [Hs _]. apply andb_prop in Hs as [Hs _]. apply andb_prop in Hs as [Hs _].
  apply andb_prop in Hs as [Hs _]. apply andb_prop in Hs as [Hs _]. apply andb_prop in Hs as [Hm%bool_decide_eq_true_1 Hv].
  destruct (modes_nonempty _ Hm) as [Hn _]. destruct (meta_facts _ Hm) as (Ha & Hfr & Htr & Hvr & Hvv). destruct (steady_value _ Hv) as (_ & Hloose & Hparse & Hblank).
  apply valid_checks in Hval. unfold checks, mode_or_set in Hval. cbv zeta in Hval. rewrite Hn in Hval. rewrite !Forall_cons in Hval. destruct Hval as (C1 & C2 & C3 & C4 & C5 & C6 & _).
  assert (validateOperation (reopened s o cs) = None) as Hvalid.
  - apply valid_checks. unfold checks, mode_or_set, reopened. cbv zeta. cbn [o_mode o_path o_from o_to o_value_text]. rewrite Hn.
    set (meta := MODE_META (o_mode o)) in *. rewrite !Forall_cons.
    assert (m_value meta = true -> (if m_value meta then toValueText (Some (parseLooseValue (o_value_text o))) else []) = toValueText (Some (parseLooseValue (o_value_text o)))) as Hval by (by intros ->).
    assert (forall req field (b : bool), (req = true -> b = true) -> req && blank field && negb (m_pathAlias meta && negb (blank (o_path o))) = false ->
      forall n, req && blank (if b then (if m_pathAlias meta && negb (nonempty (trim field)) then trim (o_path o) else trim field) else []) && n = false) as Hreq.
    { intros req field b Hb Hc n. destruct req; [|done]. rewrite (Hb eq_refl). cbn [andb] in *. destruct (nonempty (trim field)) eqn:E.
      - rewrite andb_false_r. rewrite blank_trim. assert (blank field = false) as -> by (unfold blank; by rewrite E). done.
      - assert (blank field = true) as Ef by (unfold blank; by rewrite E). rewrite Ef in Hc. destruct (m_pathAlias meta); [|done]. cbn [negb andb] in *.
        rewrite blank_trim. by destruct (blank (o_path o)). }
    split; [|split; [|split; [|split; [|split; [|split; [|done]]]]]].
    + destruct (m_path meta) eqn:Ep; [|done]. cbn [orb]. by rewrite blank_trim.
    + apply Hreq; [exact Hfr|exact C2].
    + assert (mode_in TO_REQUIRED_MODES (o_mode o) = true -> m_to meta || nonempty (trim (o_to o)) = true) as Hto by (intros E; by rewrite (Htr E)).
      apply (Hreq _ _ _ Hto C3).
    + destruct (mode_in VALUE_REQUIRED_MODES (o_mode o)) eqn:E; [|done]. rewrite Hval, Hblank by auto. exact C4.
    + destruct (bool_decide (o_mode o = js "return_error")) eqn:E; [|done]. apply bool_decide_eq_true_1 in E. rewrite Hval, Hparse by auto. exact C5.
    + destruct (bool_decide (o_mode o = js "pass_headers")) eqn:E; [|done]. apply bool_decide_eq_true_1 in E. rewrite Hval by auto. rewrite loose_trim, Hloose. rewrite loose_trim in C6. exact C6.
  - split; [exact Hvalid|]. unfold isOperationBlank. destruct (bool_decide (o_mode (reopened s o cs) = js "set")) eqn:E; [|done]. apply bool_decide_eq_true_1 in E. cbn [andb].
    assert (blank (o_path (reopened s o cs)) = false) as ->; [|done]. change (o_mode o = js "set") in E. unfold reopened. cbn [o_path]. rewrite E in C1 |- *.
    assert (m_path (MODE_META (js "set")) = true) as Ep by (by vm_compute). rewrite Ep in C1 |- *. cbn [orb andb] in *. by rewrite blank_trim.
Qed.

Lemma rows_reopen s ops :
  forallb op_steady ops = true -> Forall (fun o => validateOperation o = None) ops ->
  exists rows s', map_seed normalizeOperation s (map operation_payload ops) = Some (rows, s') /\
    map operation_payload rows = map operation_payload ops /\ Forall (fun o => validateOperation o = None /\ isOperationBlank o = false) rows.
Proof.
  revert s. induction ops as [|o ops IH]; intros s Hs Hv; [by exists [], s|]. cbn [forallb] in Hs. apply andb_prop in Hs as [Ho Hs]. apply Forall_cons in Hv as [Hvo Hv].
  assert (Hst := Ho). unfold op_steady in Hst. apply andb_prop in Hst as [Hst Hcs]. do 4 (apply andb_prop in Hst as [Hst _]). apply andb_prop in Hst as [Hm%bool_decide_eq_true_1 _].
  destruct (conditions_reopen (S s) _ Hcs) as (_ & cs & s1 & Ecs & Eo). destruct (IH s1 Hs Hv) as (rows & s' & Er & Ep & Hr).
  cbn [map map_seed]. rewrite (normalize_payload s o cs s1 Hm Ecs), Er. exists (reopened s o cs :: rows), s'. split; [done|]. cbn [map]. rewrite Ep, (reopened_payload s o cs Ho Eo).
  split; [done|]. constructor; [by apply reopened_valid|done].
Qed.

(** ** What is saved is shown again *)

Lemma validate_from_none line ops : validate_from line ops = None <-> Forall (fun o => validateOperation o = None) ops.
Proof.
  revert line. induction ops as [|o ops IH]; intros line; cbn [validate_from]; [split; [constructor|done]|]. rewrite Forall_cons.
  destruct (validateOperation o); [naive_solver|]. rewrite IH. naive_solver.
Qed.

Lemma filled_all ops : Forall (fun o => isOperationBlank o = false) ops -> filled_operations ops = ops.
Proof. unfold filled_operations. induction 1 as [|o ops Ho _ IH]; [done|]. rewrite filter_cons_True by done. by rewrite IH. Qed.

Lemma built_text ops text :
  buildOperationsJson ops true = inr text -> text <> [] ->
  text = json_pretty (document (filled_operations ops)) /\ filled_operations ops <> [] /\ Forall (fun o => validateOperation o = None) (filled_operations ops).
Proof.
  unfold buildOperationsJson. destruct (filled_operations ops) as [|o rest]; [by intros [= <-]|]. destruct (validateOperations (o :: rest)) eqn:E; [done|].
  intros [= <-] _. split; [done|]. split; [done|]. by apply (validate_from_none 1).
Qed.

Lemma document_wf ops : forallb op_steady ops = true -> json_wf (document ops) = true.
Proof.
  intros H. unfold document. cbn [json_wf forallb map fst]. rewrite andb_true_r. apply andb_true_intro. split; [by vm_compute|]. apply andb_true_intro. split; [by vm_compute|].
  rewrite forallb_forall in H. apply forallb_forall. intros j Hj. apply in_map_iff in Hj as (o & <- & Ho). by apply payload_wf, H.
Qed.

(** C36: the operations a dialog saves are shown when it is opened on the saved text, and
    saving them again without a change gives the same text, provided that no value is written
    as a quoted string. *)
Theorem saved_override_reopens (ops : list Operation) (text : list N) (s : nat) :
  forallb op_steady (filled_operations ops) = true -> buildOperationsJson ops true = inr text -> text <> [] ->
  exists d, open_dialog s text = Some d /\ editMode d = visual /\ visualMode d = operations_format /\
    map operation_payload (operations d) = map operation_payload (filled_operations ops) /\
    handleSave d = inr text.
Proof.
  intros Hs Hb Hne. destruct (built_text _ _ Hb Hne) as (Et & Hfilled & Hvalid). set (rows0 := filled_operations ops) in *.
  destruct (rows_reopen s rows0 Hs Hvalid) as (rows & s' & Er & Ep & Hrows).
  assert (json_parse (trim text) = Some (document rows0)) as Eparse.
  { rewrite Et. unfold document. rewrite (trim_trimmed _ (pretty_trimmed _)). fold (document rows0). by apply pretty_roundtrip, document_wf. }
  assert (parseInitialState s text = Some (mkState visual operations_format [] rows (json_pretty (document rows0)) [], s')) as Einit.
  { unfold parseInitialState. cbv beta iota zeta delta [createDefaultOperation]. rewrite Eparse. destruct (trim text) as [|c r]; [discriminate Eparse|].
    unfold document. rewrite get_cons. cbn [String.eqb Ascii.eqb Bool.eqb]. unfold document_rows. rewrite Er.
    destruct rows0 as [|o0 os0]; [done|]. done. }
  unfold open_dialog. rewrite Einit. eexists. split; [reflexivity|]. split; [done|]. split; [done|]. cbn [s_operations operations]. split; [exact Ep|].
  unfold handleSave, buildVisualJson. cbn [editMode visualMode s_editMode s_visualMode operations s_operations]. unfold buildOperationsJson.
  assert (filled_operations rows = rows) as -> by (apply filled_all; eapply Forall_impl; [exact Hrows|]; by intros o [_ H]).
  assert (validateOperations rows = None) as Hval by (apply validate_from_none; eapply Forall_impl; [exact Hrows|]; by intros o [H _]).
  destruct rows as [|r0 rs]; [by destruct rows0|]. rewrite Hval. f_equal. unfold document. rewrite Ep. fold (document rows0). by rewrite Et.
Qed.

Definition sample_rules : list Operation :=
  [mkOp 0 (js "cap ") (js " max_tokens") (js "set") [] [] (js "1000") true (js "AND")
     [mkCond 1 (js "model") (js "prefix") (js "openai/") false true; mkCond 2 [] (js "full") [] false false];
   mkOp 3 [] (js "X-Trace") (js "copy_header") [] (js "X-Up") [] false (js "OR") [];
   mkOp 4 [] [] (js "set") [] [] [] false (js "OR") []].

Definition sample_text : list N := match buildOperationsJson sample_rules true with inr text => text | inl _ => [] end.

Lemma saved_override_reopens_witness :
  buildOperationsJson sample_rules true = inr sample_text /\
  exists d, open_dialog 7 sample_text = Some d /\ handleSave d = inr sample_text.
Proof.
  assert (buildOperationsJson sample_rules true = inr sample_text) as E by (vm_compute; reflexivity).
  split; [exact E|]. destruct (saved_override_reopens sample_rules sample_text 7) as (d & H1 & _ & _ & _ & H2); [by vm_compute|exact E|by vm_compute|].
  exists d. by split.
Defined.

(** A value entered as a quoted string is a number after the next save. *)
Example quoted_value_changes :
  let quoted := [34%N] ++ js "5" ++ [34%N] in
  parseLooseValue quoted = JStr (js "5") /\ toValueText (Some (JStr (js "5"))) = js "5" /\ parseLooseValue (js "5") = JNum (num_of_Z 5).
Proof. by vm_compute. Qed.

(** A row that is [null] makes the dialog throw. *)
Example null_row_throws : open_dialog 0 (json_stringify (JObj [(js "operations", JArr [JNull])])) = None.
Proof. by vm_compute. Qed.

(** ** What is saved is complete *)

Definition payload_complete (j : json) : Prop :=
  let mode := text_of "mode" j in
  let meta := MODE_META mode in
  mode ∈ OPERATION_MODE_VALUES /\
  (m_path meta = true -> blank (text_of "path" j) = false) /\
  (mode_in FROM_REQUIRED_MODES mode = true -> blank (text_of "from" j) = false) /\
  (mode_in TO_REQUIRED_MODES mode = true -> blank (text_of "to" j) = false) /\
  (mode_in VALUE_REQUIRED_MODES mode = true -> exists v, get "value" j = Some v /\ (mode = js "pass_headers" -> parsePassHeaderNames v <> [])).

Lemma payload_checked o : o_mode o ∈ OPERATION_MODE_VALUES -> validateOperation o = None -> payload_complete (operation_payload o).
Proof.
  intros Hm Hval. destruct (modes_nonempty _ Hm) as [Hn _]. destruct (meta_facts _ Hm) as (Ha & Hfr & Htr & Hvr & _).
  apply valid_checks in Hval. unfold checks, mode_or_set in Hval. cbv zeta in Hval. rewrite Hn in Hval. rewrite !Forall_cons in Hval. destruct Hval as (C1 & C2 & C3 & C4 & C5 & C6 & _).
  assert (text_of "mode" (operation_payload o) = o_mode o) as Emode by (unfold text_of, operation_payload, mode_or_set; cbv zeta; rewrite Hn; get_members; done).
  assert (forall f : list N, blank f && negb (m_pathAlias (MODE_META (o_mode o)) && negb (blank (o_path o))) = false ->
    blank (if m_pathAlias (MODE_META (o_mode o)) && negb (nonempty (trim f)) then trim (o_path o) else trim f) = false) as Hfill.
  { intros f Hf. destruct (nonempty (trim f)) eqn:E; [rewrite andb_false_r, blank_trim; unfold blank; by rewrite E|].
    assert (blank f = true) as Eb by (unfold blank; by rewrite E). rewrite Eb in Hf. destruct (m_pathAlias _); [|done]. cbn [negb andb] in *. rewrite blank_trim. by destruct (blank (o_path o)). }
  unfold payload_complete. cbv zeta. rewrite Emode. split; [done|]. unfold text_of, operation_payload, mode_or_set. cbv zeta. rewrite Hn. split; [|split; [|split]].
  - intros E. get_members. rewrite E in C1 |- *. cbn [orb andb] in *. by rewrite blank_trim.
  - intros E. get_members. rewrite (Hfr E). rewrite E in C2. by apply Hfill.
  - intros E. get_members. rewrite (Htr E). rewrite E in C3. by apply Hfill.
  - intros E. get_members. rewrite (Hvr E). eexists. split; [reflexivity|]. intros Ep. rewrite (bool_decide_eq_true_2 _ Ep) in C6. rewrite loose_trim in C6.
    by apply bool_decide_eq_false_1 in C6.
Qed.

(** A text saved from the forms is a document whose rules are complete: each has a known
    mode and the path, source, target and value the mode needs. *)
Theorem saved_rules_complete (ops : list Operation) (text : list N) :
  forallb op_steady (filled_operations ops) = true -> buildOperationsJson ops true = inr text -> text <> [] ->
  exists items, json_parse text = Some (JObj [(js "operations", JArr items)]) /\ items <> [] /\ Forall payload_complete items.
Proof.
  intros Hs Hb Hne. destruct (built_text _ _ Hb Hne) as (Et & Hfilled & Hvalid). exists (map operation_payload (filled_operations ops)).
  split; [rewrite Et; by apply pretty_roundtrip, document_wf|]. split; [by destruct (filled_operations ops)|].
  apply Forall_forall. intros j Hj. apply list_elem_of_In, in_map_iff in Hj as (o & <- & Ho). rewrite forallb_forall in Hs. specialize (Hs o Ho).
  rewrite Forall_forall in Hvalid. apply list_elem_of_In in Ho. unfold op_steady in Hs. do 6 (apply andb_prop in Hs as [Hs _]). apply payload_checked; [by apply bool_decide_eq_true_1 in Hs|by apply Hvalid].
Qed.

Lemma saved_rules_complete_witness :
  exists items, json_parse sample_text = Some (JObj [(js "operations", JArr items)]) /\ length items = 2 /\ Forall payload_complete items.
Proof.
  destruct (saved_rules_complete sample_rules sample_text) as (items & H1 & _ & H3); [by vm_compute|vm_compute; reflexivity|by vm_compute|].
  exists items. split; [exact H1|]. split; [|exact H3]. apply (f_equal (fun v => match v with Some (JObj [(_, JArr l)]) => length l | _ => 0 end)) in H1.
  rewrite <- H1. by vm_compute.
Defined.

(** ** Drafts of values *)

Definition error_steady (d : ReturnErrorDraft) : bool :=
  unitsb (trim (e_message d)) && printable (status_or_400 (e_statusCode d)) && unitsb (trim (e_code d)) && unitsb (trim (e_type d)).

Lemma text_member_read s : text_or_empty (Some (JStr s)) = s.
Proof. by destruct s. Qed.

Lemma status_again n : status_or_400 (status_or_400 n) = status_or_400 n.
Proof. unfold status_or_400 at 2 3. destruct (is_integer n && _ && _) eqn:E; [unfold status_or_400; by rewrite E|by vm_compute]. Qed.

(** The draft of an error in advanced mode is the one its text is read as. *)
Theorem return_error_read_back (d : ReturnErrorDraft) :
  error_steady d = true -> e_simpleMode d = false ->
  parseReturnErrorDraft (buildReturnErrorValueText d) =
    mkError (trim (e_message d)) (status_or_400 (e_statusCode d)) (trim (e_code d)) (trim (e_type d)) (e_skipRetry d) false.
Proof.
  intros Hs Hm. unfold error_steady in Hs. apply andb_prop in Hs as [Hs Ht]. apply andb_prop in Hs as [Hs Hc]. apply andb_prop in Hs as [Hmsg Hst].
  assert (json_wf (error_payload d) = true) as Hwf.
  { unfold error_payload. cbv zeta. cbn [json_wf]. apply andb_true_intro.
    split; [by destruct (nonempty (trim (e_code d))), (nonempty (trim (e_type d))), (e_skipRetry d); vm_compute|].
    destruct (nonempty (trim (e_code d))), (nonempty (trim (e_type d))), (e_skipRetry d); cbn [negb opt_member app forallb json_wf]; rewrite Hmsg, Hst, ?Hc, ?Ht; by vm_compute. }
  unfold buildReturnErrorValueText. rewrite Hm. unfold parseReturnErrorDraft. cbv zeta. rewrite (trim_trimmed _ (stringify_trimmed _ Hwf)), json_roundtrip by done.
  assert (exists c r, json_stringify (error_payload d) = c :: r) as (c & r & ->) by (by eexists _, _).
  unfold error_payload. cbv zeta. get_members. cbn [json_to_number]. rewrite status_again.
  f_equal.
  - unfold first_text. cbn [json_truthy json_to_string]. destruct (nonempty (trim (e_message d))) eqn:E; [by rewrite trim_idemp|]. by destruct (trim (e_message d)).
  - destruct (trim (e_code d)) eqn:E; [done|]. rewrite <- E. cbn [nonempty]. rewrite E. cbn [nonempty]. rewrite <- E, text_member_read. by rewrite trim_idemp.
  - destruct (trim (e_type d)) eqn:E; [done|]. rewrite <- E. cbn [nonempty]. rewrite E. cbn [nonempty]. rewrite <- E, text_member_read. by rewrite trim_idemp.
  - by destruct (e_skipRetry d).
Qed.

(** A sync target is read back, unless its key is empty: then the type is lost too. *)
Theorem sync_target_read_back (header : bool) (key : list N) :
  parseSyncTargetSpec (buildSyncTargetSpec header key) = mkTarget (header && nonempty (trim key)) (trim key).
Proof.
  unfold buildSyncTargetSpec. cbv zeta. destruct (trim key) as [|c r] eqn:E; [by destruct header|]. rewrite <- E.
  assert (nonempty (trim key) = true) as -> by (by rewrite E). rewrite andb_true_r. pose proof (trim_is_trimmed key) as Htr. rewrite E in Htr.
  assert (trimmed ((if header then js "header" else js "json") ++ [COLON] ++ trim key)) as Ht.
  { apply trimmed_around; [by destruct header|by destruct header|rewrite E; done|by rewrite E]. }
  unfold parseSyncTargetSpec. cbv zeta. rewrite (trim_trimmed _ Ht).
  destruct header; [change (mkTarget true (trim (trim key)) = mkTarget true (trim key))|change (mkTarget false (trim (trim key)) = mkTarget false (trim key))];
    by rewrite trim_idemp.
Qed.

(** Every template gives rules that may be saved. *)
Example templates_saved :
  forallb (fun key =>
    match fillTemplate false (mkDialog 0 visual operations_format [] [] [] [] None ∅ None None false (js key)) with
    | Some d => match handleSave d with inr (_ :: _) => forallb op_steady (operations d) | _ => false end
    | None => false
    end)
    ["operations_default"; "pass_headers_auth"; "gemini_image_4k"; "claude_cli_headers_passthrough"; "codex_cli_headers_passthrough";
     "aws_bedrock_anthropic_beta_override"]%string = true.
Proof. by vm_compute. Qed.
