(* ===== verification/LightPuzzle.v ===== *)
(** * The light puzzle (src/apps/web/src/lib/light-puzzle.ts)

    A board of three by three lights; a move inverts a light and its neighbours.  The solver
    tries every set of moves; what it returns is shortest among all sequences of moves, since
    moves commute and undo themselves.

    An index that is no integer throws like one out of range ([None]); a round that is not
    finite is [None]. *)
From S2P Require Import Prelude.
From Stdlib Require Import Lia ZArith.

Definition LIGHT_GRID_SIZE : Z := 3.

Definition LIGHT_PUZZLE_SEEDS : list (list Z) :=
  [[0; 4; 8]; [1; 3; 7]; [0; 2; 6; 8]; [2; 3; 4; 7]; [0; 1; 5; 6]; [1; 4; 6; 8]; [0; 3; 5; 7]; [2; 4; 5; 6];
   [0; 1; 2; 3; 4]; [1; 2; 3; 5; 6]; [0; 1; 4; 7; 8]; [2; 3; 6; 7; 8]]%Z.

Definition toggleLight (board : list bool) (index : Z) : option (list bool) :=
  if negb (length board =? 9)%nat || (index <? 0)%Z || (9 <=? index)%Z then None
  else
    let row := (index / LIGHT_GRID_SIZE)%Z in
    let column := (index mod LIGHT_GRID_SIZE)%Z in
    Some (imap (fun cell on =>
      let distance := (Z.abs (Z.of_nat cell / LIGHT_GRID_SIZE - row) + Z.abs (Z.of_nat cell mod LIGHT_GRID_SIZE - column))%Z in
      if (distance <=? 1)%Z then negb on else on) board).

(** [moves.reduce(toggleLight, board)]. *)
Definition play (board : list bool) (moves : list Z) : option (list bool) :=
  fold_left (fun state move => state ≫= fun b => toggleLight b move) moves (Some board).

Definition dark : list bool := repeat false 9.

Definition createLightPuzzle (round : option Z) : option (list bool) :=
  let seed := match round with
              | Some r => nth (Z.to_nat (Z.abs r mod 12)) LIGHT_PUZZLE_SEEDS []
              | None => nth 0 LIGHT_PUZZLE_SEEDS []
              end in
  play dark seed.

(** The moves of a mask, in the order of the inner loop. *)
Definition moves_of (mask : Z) : list Z := filter (fun i => Z.testbit mask i = true) (map Z.of_nat (seq 0 9)).

Definition masks : list Z := map Z.of_nat (seq 0 512).

Definition all_off (board : list bool) : bool := forallb negb board.

(** One turn of the outer loop. *)
Definition try_mask (board : list bool) (best : option (list Z)) (mask : Z) : option (list Z) :=
  let moves := moves_of mask in
  if match best with Some b => (length b <=? length moves)%nat | None => false end then best
  else match play board moves with
       | Some result => if all_off result then Some moves else best
       | None => best
       end.

Definition solveLightPuzzle (board : list bool) : option (list Z) :=
  if negb (length board =? 9)%nat then None
  else Some (default [] (fold_left (try_mask board) masks None)).

(** The seed of a round is the solution found for it. *)
Example seeds_solve_themselves :
  forallb (fun k => match createLightPuzzle (Some (Z.of_nat k)) with
                    | Some board => bool_decide (solveLightPuzzle board = nth_error LIGHT_PUZZLE_SEEDS k)
                    | None => false
                    end) (seq 0 12) = true.
Proof. by vm_compute. Qed.

(** ** Moves are additions *)

Definition xor (a b : list bool) : list bool := zip_with xorb a b.

Definition pattern (i : Z) : list bool := default [] (toggleLight dark i).

Definition valid (i : Z) : Prop := (0 <= i < 9)%Z.

Lemma valid_cases i : valid i -> In i (map Z.of_nat (seq 0 9)).
Proof. intros Hi. apply in_map_iff. exists (Z.to_nat i). unfold valid in Hi. split; [lia|]. apply in_seq. lia. Qed.

Lemma toggle_xor board i : length board = 9 -> valid i -> toggleLight board i = Some (xor board (pattern i)).
Proof.
  intros Hl Hi%valid_cases. destruct board as [|b0 [|b1 [|b2 [|b3 [|b4 [|b5 [|b6 [|b7 [|b8 [|]]]]]]]]]]; try done.
  cbn [map seq] in Hi. repeat (destruct Hi as [<-|Hi]; [vm_compute; by destruct b0, b1, b2, b3, b4, b5, b6, b7, b8|]). done.
Qed.

Lemma toggle_invalid board i : ~ valid i -> toggleLight board i = None.
Proof.
  unfold valid, toggleLight. intros H. destruct (length board =? 9)%nat; [|done]. cbn [negb orb].
  destruct (Z.ltb_spec i 0); [done|]. destruct (Z.leb_spec 9 i); [done|]. lia.
Qed.

Lemma pattern_length i : valid i -> length (pattern i) = 9.
Proof. intros Hi%valid_cases. cbn [map seq] in Hi. repeat (destruct Hi as [<-|Hi]; [by vm_compute|]). done. Qed.

Lemma xor_length a b : length a = 9 -> length b = 9 -> length (xor a b) = 9.
Proof. intros Ha Hb. unfold xor. rewrite length_zip_with. lia. Qed.

Lemma xor_assoc a b c : length a = 9 -> length b = 9 -> length c = 9 -> xor (xor a b) c = xor a (xor b c).
Proof.
  unfold xor. generalize 9 as n. intros n. revert a b c. induction n as [|n IH]; intros [|x a] [|y b] [|z c] Ha Hb Hc; try done; simplify_eq/=.
  cbn [zip_with]. by rewrite xorb_assoc, IH.
Qed.

Lemma xor_dark a : length a = 9 -> xor dark a = a.
Proof. intros H. destruct a as [|b0 [|b1 [|b2 [|b3 [|b4 [|b5 [|b6 [|b7 [|b8 [|]]]]]]]]]]; done. Qed.

Lemma xor_same a b : length a = 9 -> length b = 9 -> xor a b = dark <-> a = b.
Proof.
  unfold xor, dark. generalize 9 as n. intros n. revert a b. induction n as [|n IH]; intros [|x a] [|y b] Ha Hb; try done; simplify_eq/=.
  cbn [zip_with repeat]. split.
  - intros [= Hx Hr]. apply xorb_eq in Hx as ->. f_equal. by apply IH.
  - intros [= -> ->]. rewrite xorb_nilpotent. f_equal. by apply IH.
Qed.

(** The lights a sequence of moves inverts. *)
Fixpoint sum (moves : list Z) : list bool := match moves with [] => dark | i :: rest => xor (pattern i) (sum rest) end.

Lemma sum_length moves : Forall valid moves -> length (sum moves) = 9.
Proof. induction 1 as [|i moves Hi _ IH]; [done|]. apply xor_length; [by apply pattern_length|done]. Qed.

Lemma play_none moves : fold_left (fun state move => state ≫= fun b => toggleLight b move) moves None = None.
Proof. by induction moves. Qed.

Lemma play_sum board moves : length board = 9 -> Forall valid moves -> play board moves = Some (xor board (sum moves)).
Proof.
  intros Hb Hm. revert board Hb. induction Hm as [|i moves Hi Hm IH]; intros board Hb.
  - cbn [play fold_left sum]. f_equal. destruct board as [|b0 [|b1 [|b2 [|b3 [|b4 [|b5 [|b6 [|b7 [|b8 [|]]]]]]]]]]; try done. vm_compute. by destruct b0, b1, b2, b3, b4, b5, b6, b7, b8.
  - unfold play. cbn [fold_left mbind option_bind]. rewrite toggle_xor by done. fold (play (xor board (pattern i)) moves).
    rewrite IH by (apply xor_length; [done|by apply pattern_length]). cbn [sum]. by rewrite xor_assoc by (done || by apply pattern_length || by apply sum_length).
Qed.

Lemma play_valid board moves r : play board moves = Some r -> Forall valid moves.
Proof.
  unfold play. revert board. induction moves as [|i moves IH]; intros board; [constructor|]. cbn [fold_left mbind option_bind].
  destruct (decide (0 <= i < 9)%Z) as [Hi|Hi]; [|by rewrite toggle_invalid, play_none].
  destruct (toggleLight board i); [|by rewrite play_none]. intros H. constructor; [done|by eapply IH].
Qed.

(** ** Sequences and sets *)

Definition mask_step (m i : Z) : Z := Z.lxor m (2 ^ i).

(** A move added to a set of moves: one more or one less. *)
Lemma mask_step_spec m i :
  In m masks -> valid i ->
  In (mask_step m i) masks /\ sum (moves_of (mask_step m i)) = xor (pattern i) (sum (moves_of m)) /\
  length (moves_of (mask_step m i)) <= S (length (moves_of m)).
Proof.
  assert (forallb (fun m => forallb (fun i =>
    let m' := mask_step m i in
    (0 <=? m')%Z && (m' <? 512)%Z && bool_decide (sum (moves_of m') = xor (pattern i) (sum (moves_of m))) &&
    (length (moves_of m') <=? S (length (moves_of m)))%nat) (map Z.of_nat (seq 0 9))) masks = true) as H by (by vm_compute).
  intros Hm Hi%valid_cases. rewrite forallb_forall in H. specialize (H m Hm). rewrite forallb_forall in H. specialize (H i Hi). cbv zeta in H.
  apply andb_prop in H as [H H4]. apply andb_prop in H as [H H3]. apply andb_prop in H as [H1 H2].
  apply Z.leb_le in H1. apply Z.ltb_lt in H2. apply bool_decide_eq_true_1 in H3. apply Nat.leb_le in H4. split; [|done].
  apply in_map_iff. exists (Z.to_nat (mask_step m i)). split; [lia|]. apply in_seq. lia.
Qed.

Lemma sequence_to_set moves :
  Forall valid moves -> exists m, In m masks /\ sum (moves_of m) = sum moves /\ length (moves_of m) <= length moves.
Proof.
  induction 1 as [|i moves Hi _ (m & Hm & Hs & Hl)].
  - exists 0%Z. split; [by left|]. by vm_compute.
  - destruct (mask_step_spec m i Hm Hi) as (H1 & H2 & H3). exists (mask_step m i). split; [done|]. split; [by rewrite H2, Hs|]. cbn [length]. lia.
Qed.

Fixpoint boards (n : nat) : list (list bool) :=
  match n with O => [[]] | S n' => map (cons true) (boards n') ++ map (cons false) (boards n') end.

Lemma in_boards n board : length board = n -> In board (boards n).
Proof.
  revert board. induction n as [|n IH]; intros [|b board] H; try done; [by left|]. cbn [boards]. apply in_app_iff.
  destruct b; [left|right]; apply in_map, IH; by injection H.
Qed.

(** Every board is the sum of a set of moves. *)
Lemma board_solvable board : length board = 9 -> exists m, In m masks /\ sum (moves_of m) = board.
Proof.
  assert (let sums := map (fun m => sum (moves_of m)) masks in forallb (fun b => existsb (fun s => bool_decide (s = b)) sums) (boards 9) = true) as H by (by vm_compute).
  cbv zeta in H. intros Hb%in_boards. rewrite forallb_forall in H. specialize (H board Hb). apply existsb_exists in H as (s & Hs & ->%bool_decide_eq_true_1).
  apply in_map_iff in Hs as (m & E & Hm). by exists m.
Qed.

(** ** The search *)

Lemma moves_valid m : In m masks -> Forall valid (moves_of m).
Proof.
  intros _. apply Forall_forall. intros i Hi. apply list_elem_of_filter in Hi as [_ Hi]. apply list_elem_of_In, in_map_iff in Hi as (k & <- & Hk%in_seq). unfold valid. lia.
Qed.

Lemma all_off_dark board : length board = 9 -> all_off board = true <-> board = dark.
Proof.
  unfold all_off, dark. generalize 9 as n. intros n. revert board. induction n as [|n IH]; intros [|b board] H; [done|done|done|].
  injection H as H. cbn [forallb repeat]. rewrite andb_true_iff, negb_true_iff, IH by done. split; [by intros [-> ->]|by intros [= -> ->]].
Qed.

(** A mask solves the board when its moves add up to it. *)
Lemma mask_solves board m : length board = 9 -> In m masks -> play board (moves_of m) = Some dark <-> sum (moves_of m) = board.
Proof.
  intros Hb Hm. rewrite play_sum by (done || by apply moves_valid). rewrite (inj_iff Some), xor_same; [split; by intros ->|done|by apply sum_length, moves_valid].
Qed.

(** After the masks [done]: the best is one of them that solves the board, and none that does
    is shorter. *)
Definition best_of (board : list bool) (tried : list Z) (best : option (list Z)) : Prop :=
  match best with
  | Some b => play board b = Some dark /\ Forall (fun m => play board (moves_of m) = Some dark -> length b <= length (moves_of m)) tried
  | None => Forall (fun m => play board (moves_of m) <> Some dark) tried
  end.

Lemma try_mask_best board tried best m :
  length board = 9 -> In m masks -> best_of board tried best -> best_of board (tried ++ [m]) (try_mask board best m).
Proof.
  intros Hb Hm Hbest. assert (exists r, play board (moves_of m) = Some r /\ length r = 9) as (r & Hr & Hl).
  { rewrite play_sum by (done || by apply moves_valid). eexists. split; [done|]. apply xor_length; [done|by apply sum_length, moves_valid]. }
  assert (all_off r = true <-> play board (moves_of m) = Some dark) as Hoff by (rewrite Hr, (inj_iff Some); by apply all_off_dark).
  unfold try_mask. cbv zeta. destruct best as [b|]; cbn [best_of] in Hbest.
  - destruct Hbest as [Hp Hf]. destruct (Nat.leb_spec (length b) (length (moves_of m))) as [Hle|Hlt].
    + split; [done|]. apply Forall_app. split; [done|]. by constructor.
    + rewrite Hr. destruct (all_off r) eqn:E.
      * split; [by apply Hoff|]. apply Forall_app. split; [|by constructor]. eapply Forall_impl; [exact Hf|]. intros x Hx Hs. specialize (Hx Hs). lia.
      * split; [done|]. apply Forall_app. split; [done|]. constructor; [|constructor]. intros Hs. apply Hoff in Hs. congruence.
  - rewrite Hr. destruct (all_off r) eqn:E.
    + split; [by apply Hoff|]. apply Forall_app. split; [|by constructor]. eapply Forall_impl; [exact Hbest|]. by intros x Hx Hs.
    + apply Forall_app. split; [done|]. constructor; [|constructor]. intros Hs. apply Hoff in Hs. congruence.
Qed.

Lemma search_best board rest tried best :
  length board = 9 -> (forall m, In m rest -> In m masks) -> best_of board tried best ->
  best_of board (tried ++ rest) (fold_left (try_mask board) rest best).
Proof.
  intros Hb. revert tried best. induction rest as [|m rest IH]; intros tried best Hin Hbest; [by rewrite app_nil_r|]. cbn [fold_left].
  rewrite cons_middle, app_assoc. apply IH; [intros x Hx; apply Hin; by right|]. apply try_mask_best; [done|apply Hin; by left|done].
Qed.

(** For every board of nine lights the solver returns moves that turn all lights off, and
    no sequence of moves that does so is shorter. *)
Theorem light_puzzle_shortest (board : list bool) :
  length board = 9 ->
  exists solution, solveLightPuzzle board = Some solution /\ play board solution = Some dark /\
    forall moves, play board moves = Some dark -> length solution <= length moves.
Proof.
  intros Hb. unfold solveLightPuzzle. rewrite Hb. cbn [Nat.eqb negb].
  pose proof (search_best board masks [] None Hb (fun m H => H) ltac:(constructor)) as Hbest. cbn [app] in Hbest.
  destruct (fold_left (try_mask board) masks None) as [b|]; cbn [best_of default from_option id] in *.
  - destruct Hbest as [Hp Hf]. exists b. split; [done|]. split; [done|]. intros moves Hm. pose proof (play_valid _ _ _ Hm) as Hv.
    destruct (sequence_to_set moves Hv) as (m & Hin & Hs & Hl). rewrite Forall_forall in Hf.
    assert (length b <= length (moves_of m)); [|lia]. apply Hf; [by apply list_elem_of_In|]. apply mask_solves; [done|done|]. rewrite Hs.
    rewrite play_sum in Hm by done. injection Hm as Hm. symmetry. apply xor_same; [done|by apply sum_length|done].
  - exfalso. destruct (board_solvable board Hb) as (m & Hin & Hs). rewrite Forall_forall in Hbest. apply (Hbest m); [by apply list_elem_of_In|]. by apply mask_solves.
Qed.

Lemma light_puzzle_shortest_witness :
  exists solution, solveLightPuzzle [true; true; false; true; false; false; false; false; false] = Some solution /\ length solution <= 1.
Proof.
  destruct (light_puzzle_shortest [true; true; false; true; false; false; false; false; false] eq_refl) as (sol & H1 & _ & H3).
  exists sol. split; [exact H1|]. apply (H3 [0%Z]). vm_compute. reflexivity.
Defined.
